(* ===== verification/_CoqProject ===== *)
-Q . S2P
Prelude.v
Slots.v
CString.v
ByteArray.v
Utf8.v
Unicode.v
Json.v
OutputStyle.v
Format.v
Cursor.v
InputBuffer.v
Multiline.v
Layout.v
Editor.v
InputParser.v
ScrollDetector.v
History.v
Scrollback.v
Layers.v
AgentLayers.v
AgentScreen.v
AgentTree.v
Template.v
Paths.v
Render.v
Conversation.v
Provider.v
Thinking.v
RequestJson.v
OpenAIRequest.v
AnthropicRequest.v
GoogleRequest.v
EventRender.v
TokenCache.v
CountTokens.v
Growing.v
DocCache.v
Database.v
ToolIO.v
FileTools.v
ListTool.v
SearchTools.v
AgentCommands.v
Tools.v
HistoryFile.v
KeyInject.v
Framebuffer.v
ControlSocket.v
Replay.v
Commands.v
CommandReplay.v
Sse.v
Wire.v
Http.v
OpenAIResponse.v
OpenAIStream.v
Anthropic.v
Google.v
MockWire.v
MockAnthropic.v
MockOpenAI.v
MockGoogle.v
AgentStream.v
AgentLoop.v
AgentSafety.v
Viewport.v
Frame.v
Completion.v
KeyActions.v
Mail.v
Session.v
