(* ===== verification/Prelude.v ===== *)
(** * Ikigai verification library: prelude (root file)

    Ikigai is a terminal program in which a user talks to agents that are driven
    by a language model and call tools.  This library models the C code of its
    core in Rocq, one file per component, and proves what makes each of them
    correct.  File names below are relative to src/apps/ikigai/ unless they say
    shared/, mock-provider/ or src/tools/.

    ** The program and its files

    A key travels from the terminal to the model and back like this:

    - bytes of the terminal become key actions: [InputParser] (input.c,
      input_escape.c, input_xkb.c); arrow keys that a terminal sends for the
      mouse wheel are told apart by their timing: [ScrollDetector]
      (scroll_detector.c);
    - an action edits the input, scrolls, works on the completion or is handed
      to the agent's loop: [KeyActions] (repl_actions.c,
      repl_actions_completion.c, repl_actions_history.c), with [Completion]
      (completion.c, fzy_wrapper.c);
    - the text being edited is a gap-free byte vector: [ByteArray] (array.c,
      byte_array.c) behind the interface [ByteStore]; on it [InputBuffer]
      (input_buffer/core.c), [Cursor] (input_buffer/cursor.c), [Multiline]
      (input_buffer/multiline.c) and [Layout] (input_buffer/layout.c).  [Editor]
      puts them together against a document of code points; [History]
      (history.c) keeps what was entered and [HistoryFile] (history_io.c) writes
      it to disk;
    - a line that begins with a slash is a command: [Commands] (commands.c,
      commands_pin.c, commands_toolset.c) dispatches it, [AgentCommands]
      (commands_kill.c, commands_reap.c) ends agents, [Mail] (mail/msg.c,
      commands_mail_helpers.c, commands_send.c, commands_wait.c,
      commands_wait_core.c) sends and awaits messages.  [AgentTree]
      (repl_agent_mgmt.c, repl_navigation.c) is the array of running agents and
      the moves between them;
    - any other line joins the conversation: [Conversation] (message.c,
      agent_messages.c, providers/request.c, part of providers/request_tools.c).
      [TokenCache] (token_cache.c, token_count.c, agent_state.c, marks.c,
      repl/agent_restore_replay.c) decides which part of it is sent, asking the
      provider for sizes with [CountTokens] (count_tokens.c of the three
      providers); pinned documents are read through [DocCache] (doc_cache.c,
      file_utils.c) and filled in by [Template] (template.c);
    - the request is written as JSON: [Thinking] (the levels of the three
      providers), [RequestJson] (fields of objects), [OpenAIRequest],
      [AnthropicRequest] and [GoogleRequest] (serialize, request*.c under
      providers/openai, anthropic and google);
    - transfers of one provider run side by side: [Http]
      (providers/common/http_multi*.c).  The reply is a stream of bytes: [Sse]
      (providers/common/sse_parser.c) splits it into events, [Wire] feeds them
      to a provider's handler: [Anthropic] (providers/anthropic/streaming*.c,
      response.c), [Google] (providers/google/streaming*.c, error.c),
      [OpenAIStream] (providers/openai/streaming_*.c, openai_handlers.c) and,
      for whole responses, [OpenAIResponse] (response_*.c, error.c).  They turn
      them into stream events of the common interface [Provider], and
      [AgentStream] (repl_callbacks.c, repl_response_helpers.c) into the agent's
      text, tool call and scrollback.  [MockAnthropic], [MockOpenAI] and
      [MockGoogle] (mock-provider/*_serializer.c), on [MockWire], are the server
      used for testing; [Session] composes its four formats with the clients;
    - [AgentLoop] (agent_state.c, repl_event_handlers.c, repl_tool.c,
      repl_tool_completion.c, repl_actions_llm.c, repl_actions.c) is the state
      machine of an agent: send, stream, run tools, continue, interrupt.
      [AgentSafety] holds its invariant and its properties;
    - a tool call is looked up and run by [Tools] (tool_registry.c,
      tool_discovery.c, tool_external.c, tool_executor.c, tool_wrapper.c,
      tool_arg_parser.c, repl_tool_json.c), its paths translated by [Paths]
      (paths.c).  The programs it starts are [FileTools] (src/tools/file_edit,
      file_read, file_write, bash), [ListTool] (src/tools/list) and
      [SearchTools] (src/tools/glob, grep), on [ToolIO];
    - what is shown is text in the scrollback: [Format] (format.c),
      [OutputStyle] (output_style.h, ansi.c) and [EventRender] (event_render.c,
      event_render_format.c) make the text, [Scrollback] (scrollback*.c) stores
      it by lines and rows;
    - the screen is a stack of layers: [Layers] (layer.c), the seven layers
      [AgentLayers] (layer_*.c, agent_init_layers of agent.c) and what they show
      together, [AgentScreen].  [Viewport] (repl_viewport.c,
      repl_actions_viewport.c) chooses the window and writes the frame,
      [Render] (render.c, render_text.c, render_cursor.c) places the cursor and
      is the path without layers; [Frame] proves what a frame shows.

    What happens is also recorded and can be driven from outside:

    - [Database] (db/agent*.c, message.c, session.c, mail.c, notify.c) has every
      statement and what is read from its answer, and a small calculus of
      outcomes ([wp]) for code that may fail.  [Replay] (db/agent_replay.c)
      collects the history an agent is restored with, [CommandReplay]
      (repl/agent_restore_replay_commands.c, agent_restore_replay_toolset.c,
      agent_provider.c) its pinned documents and settings;
    - [ControlSocket] (control_socket.c) answers a client on a local socket,
      [KeyInject] (key_inject.c) types what it sends, [Framebuffer]
      (serialize_framebuffer.c) gives it the last frame.

    [Slots] (arrays of structures), [Growing] (arrays that double), [CString] (C
    strings), [Utf8] (the encoder and decoder of input_buffer/core.c and
    input.c), [Unicode] (ansi.c and the interface of utf8proc) and [Json] (the
    interface of yyjson) are shared.

    ** How C is modelled

    A structure is a record with the fields of the C structure, a function a
    definition on it with the same guards in the same order.  Calls that can
    fail, stop the process or touch memory return an [outcome] (below): an
    assertion that fails and PANIC are [Panic], an access outside a block is
    [Undef], a loop that did not end within its fuel is [NoFuel].  A theorem
    whose conclusion is [Ret] rules all of them out.  Memory is a list of bytes
    or of slots with its length, so that an overrun is visible; bytes are
    integers in [0, 256).  [size_t] is [nat] with [wrap64] where code adds or
    multiplies; other integers are [Z], reduced where the code casts.  Loops
    that are not structural take a fuel that the definition itself computes
    from its input (usually one more than the number of bytes left), and the
    theorems show that it is enough; only waiting for another agent or for the
    user is given its rounds from outside, and says so when they run out.  A
    callback that changes shared state is given and returns that state.

    ** What the theorems show

    - Containers and text: the expandable array is the list it stands for
      ([ArrayOps]), edits of the buffer are edits of a document of code points
      ([EditorProps]), the layout counts the rows of the text.
    - Keys: no byte sequence makes the parser leave its buffer, escape
      sequences end, typed text and key reports decode to what was typed
      ([InputProps]); arrows and wheel events are all accounted for
      ([ScrollProps]); keys keep the session well formed, editing keys make
      their edit, Tab chooses the best completion ([KeyActionsProps]).
    - History and scrollback are lists of entries and lines, rows are
      partitioned among lines ([HistoryProps], [ScrollbackProps]); the history
      file gives back what was submitted ([HistoryFileProps]).
    - Agents: the array of agents is a list and siblings form a circle
      ([TreeProps]); /kill takes exactly the descendants, all at once or not at
      all in the database, /reap leaves the living ([AgentCommandProps]); mail
      arrives and a wait answers from the mailbox ([MailProps]).
    - Conversation: cloning, requests and what a stored row is read back as
      ([ConversationProps]); the token cache's turns follow the messages, and
      pruning ends within the budget or with one turn ([TokenProps]); what is
      sent to Anthropic and Google reads back as the conversation, and budgets
      fit ([AnthropicRequestProps], [GoogleRequestProps],
      [OpenAIRequestProps], [ThinkingProps], [CountTokensProps]).
    - Streams: chunking does not matter to the parser ([SseProps]); text sent
      by the mock provider in any of its formats is the text the agent shows
      ([SessionProps]); the chunks of a reply add up to its lines
      ([StreamProps]); each transfer completes once and its body is collected
      whole ([HttpProps]).
    - The loop: no fitting sequence of events fails an assertion, a tool call
      makes its round trip, an interrupt marks its turn; two ways in which
      requests are lost ([LoopProps]).
    - Tools: the registry is a map and a call reports what its process answered
      ([ToolProps]); references to shared files survive the translation of
      paths, whose buffers suffice but for a case that is shown ([PathsProps]); edits replace what they
      name, files read back as written ([FileToolProps]), the list tool is a
      deque ([ListToolProps]), grep prints its matches ([SearchToolProps]).
    - Records: a replay gives the history since the last clear, and what a
      parent does after a fork stays out of it ([ReplayProps]); pinned documents
      and the tool filter survive a restart ([CommandProps]); templates and
      cached documents ([TemplateProps], [DocCacheProps]).
    - The screen: events have their styled lines ([RenderProps],
      [FormatProps]); scrolling stays in the document and, for plain text, the
      frame of an idle agent is the end of its document with the cursor in place
      ([FrameProps]); a client reads from the socket the cells of the frame
      ([FramebufferProps]), its keys arrive ([KeyInjectProps]) and each of its
      connections is answered once ([ControlSocketProps]).

    The properties of the manifest have a doc comment that begins with their
    claim number and names the conditions they need, and a witness at a concrete
    input where they have hypotheses.  Several theorems show instead that the
    code does not do what it means to; they are named with the findings.

    ** Parameters and assumptions

    Code that is not part of the sources is a parameter with the part of its
    documentation that is used as laws, and a concrete instance for the
    witnesses: utf8proc ([Utf8proc]), talloc ([Allocator], [SlotAllocator]:
    allocation keeps the old contents; laws say that it succeeds), xkbcommon
    ([Xkb]), yyjson ([Yyjson]), printf of floating point ([Printf]), libpq and
    the server behind it ([Libpq], with laws for the statements a theorem needs,
    such as [TransactedRows] for transactions), the files and directories of the
    tools and of the history ([FileSystem] and the like), popen, glob() and
    regexec, the processes that run tools, libcurl's callbacks and rounds, the
    token count of a provider, random numbers, the scores of vendor/fzy and
    qsort, socket calls and clocks.  What other agents, the user and select do
    while a wait is under way are its rounds.  [Display] and [Screen] are the
    interfaces of the scrollback to its writers, discharged in [EventRender] and
    [Scrollback].  talloc_asprintf and talloc_strdup are taken to succeed, as
    the code treats their failure as fatal; pthread_create succeeds.  Log lines,
    and database records and the drawing of a frame inside operations of the
    loop, are left out where they only observe the state.

    ** Not modelled

    The connection to the database and its migrations, configuration,
    credentials, logging, the terminal driver, the start of the program and its
    select loop, the making of the control socket: input and output.  The
    creation of providers and their curl handles, the mock provider's HTTP
    server.  The commands for forking, marks and models (but what they do to an
    agent's conversation and cache is in [TokenCache]) and for lists of agents
    and tools; the handlers of internal tools; the order in
    which agents are restored; the tools for the web.  Debug printing.  These
    are listed one by one in the manifest with their reasons. *)

From Stdlib Require Export ZArith Lia.
From stdpp Require Export prelude.

(** ** Results of C functions

    [res_t] of shared/error.h is a success value or an error code.  A C call
    can also stop the process: [PANIC] and a failed [assert] are [Panic].
    An access outside an allocated block is [Undef] (undefined behaviour) and
    a loop whose fuel ran out is [NoFuel]: theorems that conclude [Ret] rule
    both out. *)

Inductive err_code : Set :=
| ERR_INVALID_ARG
| ERR_OUT_OF_RANGE
| ERR_IO
| ERR_PARSE
| ERR_DB_CONNECT
| ERR_DB_MIGRATE
| ERR_OUT_OF_MEMORY
| ERR_AGENT_NOT_FOUND
| ERR_PROVIDER
| ERR_MISSING_CREDENTIALS
| ERR_NOT_IMPLEMENTED.

#[export] Instance err_code_eq_dec : EqDecision err_code.
Proof. solve_decision. Defined.

Inductive outcome (A : Type) : Type :=
| Ret (a : A)
| Fail (e : err_code)
| Panic
| Undef
| NoFuel.
Arguments Ret {A} a.
Arguments Fail {A} e.
Arguments Panic {A}.
Arguments Undef {A}.
Arguments NoFuel {A}.

Definition obind {A B : Type} (m : outcome A) (k : A -> outcome B) : outcome B :=
  match m with
  | Ret a => k a
  | Fail e => Fail e
  | Panic => Panic
  | Undef => Undef
  | NoFuel => NoFuel
  end.

Declare Scope outcome_scope.
Delimit Scope outcome_scope with outcome.

Notation "'let!' x ':=' m 'in' k" := (obind m (fun x => k))
  (at level 10, x pattern, m at level 100, k at level 200)
  : outcome_scope.

(** A C [assert], compiled in: the process stops when the condition is false. *)
Notation "'assert!' b 'in' k" := (if b then k else Panic)
  (at level 10, b at level 100, k at level 200) : outcome_scope.

#[global] Open Scope outcome_scope.

Lemma obind_ret {A B} (a : A) (k : A -> outcome B) : obind (Ret a) k = k a.
Proof. done. Qed.

Lemma obind_Ret_inv {A B} (m : outcome A) (k : A -> outcome B) b :
  obind m k = Ret b -> exists a, m = Ret a /\ k a = Ret b.
Proof. destruct m; simpl; intros; simplify_eq; eauto. Qed.

(** ** Machine integers *)

(** [size_t] arithmetic wraps at 2^64; positions and sizes are [nat]. *)
Definition wrap64 (n : nat) : nat := Z.to_nat (Z.of_nat n `mod` 2 ^ 64).

(** [(unsigned int)n]. *)
Definition wrap32 (n : nat) : nat := Z.to_nat (Z.of_nat n `mod` 2 ^ 32).

(** A signed 32-bit result reduced to two's complement. *)
Definition int32_wrap (z : Z) : Z := (z + 2 ^ 31) `mod` 2 ^ 32 - 2 ^ 31.

Lemma wrap64_small n : (Z.of_nat n < 2 ^ 64)%Z -> wrap64 n = n.
Proof. intros H. unfold wrap64. rewrite Z.mod_small by lia. lia. Qed.

Lemma wrap32_small n : (Z.of_nat n < 2 ^ 32)%Z -> wrap32 n = n.
Proof. intros H. unfold wrap32. rewrite Z.mod_small by lia. lia. Qed.

Lemma int32_wrap_small z : (- 2 ^ 31 <= z < 2 ^ 31)%Z -> int32_wrap z = z.
Proof. intros H. unfold int32_wrap. rewrite Z.mod_small by lia. lia. Qed.

Lemma int32_wrap_range z : (- 2 ^ 31 <= int32_wrap z < 2 ^ 31)%Z.
Proof.
  unfold int32_wrap. pose proof (Z.mod_pos_bound (z + 2 ^ 31) (2 ^ 32)). lia.
Qed.

(** A byte is an integer in [0, 256). *)
Definition is_byte (b : Z) : Prop := (0 <= b < 256)%Z.

(** Properties of single bytes are checked on all 256 values. *)
Lemma byte_forallb (P : Z -> bool) :
  forallb P (seqZ 0 256) = true -> forall b, is_byte b -> P b = true.
Proof.
  intros H b Hb. rewrite forallb_forall in H. apply H.
  apply list_elem_of_In, elem_of_seqZ. unfold is_byte in Hb. lia.
Qed.

Lemma range_forallb (n : Z) (P : Z -> bool) :
  forallb P (seqZ 0 n) = true -> forall b, (0 <= b < n)%Z -> P b = true.
Proof.
  intros H b Hb. rewrite forallb_forall in H. apply H.
  apply list_elem_of_In, elem_of_seqZ. lia.
Qed.

(** ** Lists as memory *)

(** [memcpy] of [bs] to offset [off] of a block; out of bounds is [Undef]. *)
Definition mem_write (off : nat) (bs mem : list Z) : outcome (list Z) :=
  if decide (off + length bs <= length mem)
  then Ret (take off mem ++ bs ++ drop (off + length bs) mem)
  else Undef.

(** [n] bytes read at offset [off]. *)
Definition mem_read (off n : nat) (mem : list Z) : outcome (list Z) :=
  if decide (off + n <= length mem) then Ret (take n (drop off mem)) else Undef.

(** [memmove]: the source is read in full before the write. *)
Definition mem_move (dest src n : nat) (mem : list Z) : outcome (list Z) :=
  let! bs := mem_read src n mem in mem_write dest bs mem.

Lemma mem_write_ok off bs mem :
  off + length bs <= length mem ->
  mem_write off bs mem = Ret (take off mem ++ bs ++ drop (off + length bs) mem).
Proof. intros. unfold mem_write. by rewrite decide_True. Qed.

Lemma mem_read_ok off n mem :
  off + n <= length mem -> mem_read off n mem = Ret (take n (drop off mem)).
Proof. intros. unfold mem_read. by rewrite decide_True. Qed.

(** A block given as a prefix, the bytes at [off], and the rest. *)
Lemma mem_write_app off bs p old r :
  off = length p -> length old = length bs ->
  mem_write off bs (p ++ old ++ r) = Ret (p ++ bs ++ r).
Proof.
  intros -> Hl. rewrite mem_write_ok by (rewrite !length_app; lia).
  rewrite take_app_length, (app_assoc p old r), drop_app_length'; [done|].
  rewrite length_app. lia.
Qed.

Lemma mem_read_app off n p m r :
  off = length p -> n = length m -> mem_read off n (p ++ m ++ r) = Ret m.
Proof.
  intros -> ->. rewrite mem_read_ok by (rewrite !length_app; lia).
  by rewrite drop_app_length, take_app_length.
Qed.

(** A list of known length split at given lengths. *)
Lemma split_at {A} (n : nat) (l : list A) :
  n <= length l -> exists l1 l2, l = l1 ++ l2 /\ length l1 = n /\ length l2 = length l - n.
Proof.
  intros H. exists (take n l), (drop n l). rewrite take_drop, length_take, length_drop.
  split_and!; lia || done.
Qed.

(** List insertion and deletion at an index, the abstract counterparts of the
    shifting loops in the code. *)
Definition insert_at {A} (i : nat) (x : A) (l : list A) : list A :=
  take i l ++ x :: drop i l.

Definition delete_at {A} (i : nat) (l : list A) : list A :=
  take i l ++ drop (S i) l.

Lemma length_insert_at {A} i (x : A) l : length (insert_at i x l) = S (length l).
Proof.
  unfold insert_at. rewrite length_app, length_take; simpl. rewrite length_drop. lia.
Qed.

Lemma insert_at_app {A} (x : A) l1 l2 :
  insert_at (length l1) x (l1 ++ l2) = l1 ++ x :: l2.
Proof. unfold insert_at. by rewrite take_app_length, drop_app_length. Qed.

Lemma delete_at_app {A} (x : A) l1 l2 :
  delete_at (length l1) (l1 ++ x :: l2) = l1 ++ l2.
Proof.
  unfold delete_at. rewrite take_app_length. f_equal.
  rewrite drop_app_ge by lia. by replace (S (length l1) - length l1) with 1 by lia.
Qed.

(** Deleting [length m] times at the same index removes the middle segment. *)
Lemma delete_at_iter {A} (l1 m l2 : list A) :
  Nat.iter (length m) (delete_at (length l1)) (l1 ++ m ++ l2) = l1 ++ l2.
Proof.
  induction m as [|x m IH]; [done|].
  simpl length. rewrite Nat.iter_succ_r. simpl app. by rewrite delete_at_app.
Qed.

(** Sums of lists of naturals. *)
Lemma sum_list_cons x l : sum_list (x :: l) = x + sum_list l.
Proof. done. Qed.

Lemma sum_list_app l1 l2 : sum_list (l1 ++ l2) = sum_list l1 + sum_list l2.
Proof. induction l1 as [|x l1 IH]; [done|]. cbn [app]. rewrite !sum_list_cons. lia. Qed.

(** ** Automation *)

Create HintDb ikigai discriminated.
Create Rewrite HintDb ik_length.
#[export] Hint Rewrite @length_app @length_take @length_drop @length_cons
  @length_replicate @length_fmap @length_reverse @length_insert_at : ik_length.

(** Arithmetic about list lengths. *)
Ltac len_lia := autorewrite with ik_length in *; simpl length in *; lia.

(** Linear arithmetic with division and modulo by constants. *)
Ltac div_lia := Z.to_euclidean_division_equations; lia.

(** Case analysis on the conditionals of a definition. *)
Ltac destruct_ifs :=
  repeat match goal with
  | |- context [if ?b then _ else _] => destruct b eqn:?
  | H : context [if ?b then _ else _] |- _ => destruct b eqn:?
  end.

(** Boolean comparisons turned into arithmetic facts. *)
Ltac bool_to_prop :=
  repeat match goal with
  | H : Nat.eqb _ _ = true |- _ => apply Nat.eqb_eq in H
  | H : Nat.eqb _ _ = false |- _ => apply Nat.eqb_neq in H
  | H : Nat.ltb _ _ = true |- _ => apply Nat.ltb_lt in H
  | H : Nat.ltb _ _ = false |- _ => apply Nat.ltb_ge in H
  | H : Nat.leb _ _ = true |- _ => apply Nat.leb_le in H
  | H : Nat.leb _ _ = false |- _ => apply Nat.leb_gt in H
  | H : Z.eqb _ _ = true |- _ => apply Z.eqb_eq in H
  | H : Z.eqb _ _ = false |- _ => apply Z.eqb_neq in H
  | H : Z.ltb _ _ = true |- _ => apply Z.ltb_lt in H
  | H : Z.ltb _ _ = false |- _ => apply Z.ltb_ge in H
  | H : Z.leb _ _ = true |- _ => apply Z.leb_le in H
  | H : Z.leb _ _ = false |- _ => apply Z.leb_gt in H
  | H : andb _ _ = true |- _ => apply andb_true_iff in H; destruct H
  | H : orb _ _ = false |- _ => apply orb_false_iff in H; destruct H
  | H : negb _ = true |- _ => apply negb_true_iff in H
  | H : negb _ = false |- _ => apply negb_false_iff in H
  end.
