(* ===== verification/Slots.v ===== *)
(** * Arrays of structures

    Talloc arrays whose elements are not bytes: bounds-checked access, and
    talloc_realloc_ as a parameter that keeps the elements in use and leaves
    the new ones unspecified.  Also the doubling loop of the buffers. *)

From S2P Require Import Prelude.

Class SlotAllocator := {
  realloc_slots {A : Type} `{Inhabited A} : list A -> nat -> option (list A);
  alloc_slots {A : Type} : A -> nat -> option (list A)
}.

Class SlotAllocatorSpec `{SlotAllocator} : Prop := {
  realloc_slots_some {A} `{Inhabited A} (old : list A) n :
    length old <= n -> exists rest, realloc_slots old n = Some (old ++ rest) /\
                                    length (old ++ rest) = n;
  realloc_slots_shrink {A} `{Inhabited A} (old : list A) n :
    n <= length old -> realloc_slots old n = Some (take n old);
  alloc_slots_some {A} (x : A) n : exists l, alloc_slots x n = Some l /\ length l = n
}.

(** Checked array accesses. *)
Definition arr_get {A} (l : list A) (i : nat) : outcome A :=
  match l !! i with Some x => Ret x | None => Undef end.
Definition arr_set {A} (i : nat) (x : A) (l : list A) : outcome (list A) :=
  if decide (i < length l) then Ret (<[i := x]> l) else Undef.

(** A result that must be present: [NULL] is reported as out of memory, or
    stops the process. *)
Definition or_oom {A} (o : option A) : outcome A :=
  match o with Some x => Ret x | None => Fail ERR_OUT_OF_MEMORY end.
Definition or_panic {A} (o : option A) : outcome A :=
  match o with Some x => Ret x | None => Panic end.

Lemma arr_get_app {A} (x : A) l1 l2 : arr_get (l1 ++ x :: l2) (length l1) = Ret x.
Proof. unfold arr_get. by rewrite list_lookup_middle. Qed.

Lemma arr_get_lookup {A} (l r : list A) i x : l !! i = Some x -> arr_get (l ++ r) i = Ret x.
Proof. intros Hi. unfold arr_get. by rewrite (lookup_app_l_Some _ _ _ _ Hi). Qed.

Lemma arr_set_middle {A} (x y : A) l1 l2 :
  arr_set (length l1) x (l1 ++ y :: l2) = Ret (l1 ++ x :: l2).
Proof.
  unfold arr_set. rewrite decide_True by len_lia. by rewrite insert_app_r_alt, Nat.sub_diag by lia.
Qed.

(** Writing just after the elements in use. *)
Lemma arr_set_end {A} (x : A) l r :
  r <> [] -> arr_set (length l) x (l ++ r) = Ret ((l ++ [x]) ++ drop 1 r).
Proof.
  destruct r as [|y r]; [done|]. intros _. rewrite arr_set_middle. by rewrite <- app_assoc.
Qed.

Lemma arr_set_lookup {A} (x y : A) l r i :
  l !! i = Some y -> arr_set i x (l ++ r) = Ret (<[i := x]> l ++ r).
Proof.
  intros Hi%lookup_lt_Some. unfold arr_set. rewrite decide_True by len_lia.
  by rewrite insert_app_l.
Qed.

(** ** Growth by doubling

    "while (cap < need) cap *= 2" on a 64-bit capacity; 65 rounds are enough,
    as the capacity is positive and the need below 2^62. *)

Fixpoint double_until (fuel need cap : nat) : outcome nat :=
  match fuel with
  | 0 => NoFuel
  | S fuel => if (cap <? need)%nat then double_until fuel need (wrap64 (cap * 2)) else Ret cap
  end.

Lemma double_until_ok fuel need cap :
  0 < cap -> need <= cap * 2 ^ fuel -> (Z.of_nat need < 2 ^ 62)%Z -> (Z.of_nat cap < 2 ^ 63)%Z ->
  exists c, double_until (S fuel) need cap = Ret c /\ need <= c /\ c <= Nat.max cap (2 * need).
Proof.
  revert cap. induction fuel as [|fuel IH]; intros cap Hc Hn Hn62 Hc63; cbn [double_until].
  - rewrite Nat.pow_0_r in Hn. rewrite (proj2 (Nat.ltb_ge _ _)) by lia. exists cap. split_and!; lia || done.
  - destruct (Nat.ltb_spec cap need) as [Hlt|Hge]; [|exists cap; split_and!; lia || done].
    rewrite wrap64_small by lia.
    destruct (IH (cap * 2)) as (c & E & Hs1 & Hs2); [lia| |done|lia|].
    { rewrite Nat.pow_succ_r' in Hn. lia. }
    cbn [double_until] in E. rewrite E. exists c. split_and!; [done|done|lia].
Qed.

(** ** Removal by shifting

    "for (j = i; j < i + n; j++) a[j] = a[j + 1];" *)

Fixpoint close_gap {A} (slots : list A) (n i : nat) : outcome (list A) :=
  match n with
  | 0 => Ret slots
  | S n =>
      let! a := arr_get slots (S i) in
      let! slots := arr_set i a slots in
      close_gap slots n (S i)
  end.

Lemma close_gap_ok {A} (d : list A) a l rest :
  close_gap (d ++ a :: l ++ rest) (length l) (length d)
  = Ret (d ++ l ++ (match last l with Some x => x | None => a end) :: rest).
Proof.
  revert d a. induction l as [|b l IH]; intros d a; cbn [close_gap length app]; [done|].
  assert (arr_get (d ++ a :: b :: l ++ rest) (S (length d)) = Ret b) as ->.
  { pose proof (arr_get_app b (d ++ [a]) (l ++ rest)) as E. rewrite <- app_assoc in E. cbn [app] in E.
    by rewrite length_app, Nat.add_1_r in E. }
  cbn [obind]. rewrite arr_set_middle. cbn [obind].
  specialize (IH (d ++ [b]) b). rewrite <- app_assoc in IH. cbn [app] in IH.
  rewrite length_app, Nat.add_1_r, <- app_assoc in IH. rewrite IH. cbn [app].
  do 4 f_equal. destruct l as [|x l]; [done|]. cbn [last]. destruct (last (x :: l)) eqn:E; [done|]. by apply last_None in E.
Qed.

Module CopySlots.

(** A concrete allocator: new elements are the default one. *)
#[export] Instance copy_slots : SlotAllocator := {
  realloc_slots A _ old n := Some (take n old ++ replicate (n - length old) inhabitant);
  alloc_slots A x n := Some (replicate n x)
}.

#[export] Instance copy_slots_spec : SlotAllocatorSpec.
Proof.
  constructor.
  - intros A ? old n Hn. eexists. cbn [realloc_slots copy_slots].
    rewrite firstn_all2 by done. split; [done|]. len_lia.
  - intros A ? old n Hn. cbn [realloc_slots copy_slots]. replace (n - length old) with 0 by lia.
    by rewrite app_nil_r.
  - intros A x n. eexists. split; [done|]. apply length_replicate.
Qed.

End CopySlots.
