(* ===== verification/CString.v ===== *)
(** * C strings

    A C string is the list of its bytes without the terminator.  The functions
    of string.h the program uses, on such lists, and the string that starts at
    the beginning of a block of memory. *)

From Stdlib Require Import String Ascii.
From stdpp Require Import strings.
From S2P Require Import Prelude.

Abbreviation cstr := (list Z).

(** A string literal of the source. *)
Definition lit (s : string) : cstr :=
  (fun a => Z.of_nat (Ascii.nat_of_ascii a)) <$> String.list_ascii_of_string s.
Arguments lit s%_string.

(** "strcmp(a, b) == 0" *)
Definition strcmp_eq (a b : cstr) : bool := bool_decide (a = b).

(** "strncmp(s, p, strlen(p)) == 0" *)
Fixpoint starts_with (p s : cstr) : bool :=
  match p, s with
  | [], _ => true
  | _ :: _, [] => false
  | a :: p, b :: s => (a =? b)%Z && starts_with p s
  end.

(** The index of the first occurrence of [p]. *)
Fixpoint strstr (s p : cstr) : option nat :=
  if starts_with p s then Some 0
  else match s with [] => None | _ :: s => S <$> strstr s p end.

(** The index of the first byte [c]. *)
Fixpoint strchr (s : cstr) (c : Z) : option nat :=
  match s with
  | [] => None
  | b :: s => if (b =? c)%Z then Some 0 else S <$> strchr s c
  end.

(** The string stored at the start of a block: a block without a terminator
    is read past its end. *)
Fixpoint c_string (mem : list Z) : outcome cstr :=
  match mem with
  | [] => Undef
  | b :: mem => if (b =? 0)%Z then Ret [] else let! s := c_string mem in Ret (b :: s)
  end.

(** What a C string function sees of a byte sequence that may hold a NUL. *)
Fixpoint until_nul (s : list Z) : cstr :=
  match s with
  | [] => []
  | b :: s => if (b =? 0)%Z then [] else b :: until_nul s
  end.

(** "%d": at most twenty digits and a sign for a 64-bit integer. *)
Fixpoint decimal (fuel : nat) (n : Z) (acc : cstr) : cstr :=
  match fuel with
  | 0 => acc
  | S fuel =>
      let acc := (48 + n `mod` 10)%Z :: acc in
      if (n / 10 =? 0)%Z then acc else decimal fuel (n / 10) acc
  end.

Definition show_int (z : Z) : cstr :=
  if (z <? 0)%Z then 45%Z :: decimal 20 (- z) [] else decimal 20 z [].

(** Characters snprintf stores in a buffer of [size] bytes. *)
Definition snprintf (size : nat) (s : cstr) : cstr := take (size - 1) s.

(** ** Lemmas *)

Lemma decimal_digits fuel n acc (P : Z -> Prop) :
  (forall b, (48 <= b < 58)%Z -> P b) -> Forall P acc -> Forall P (decimal fuel n acc).
Proof.
  intros HP. revert n acc. induction fuel as [|fuel IH]; intros n acc Ha; [done|].
  cbn [decimal]. pose proof (Z.mod_pos_bound n 10).
  assert (Forall P ((48 + n `mod` 10)%Z :: acc)) as Ha' by (constructor; [apply HP; lia|done]).
  destruct (n / 10 =? 0)%Z; [done|by apply IH].
Qed.

Lemma show_int_printable z : Forall (fun b => (45 <= b < 58)%Z) (show_int z).
Proof.
  unfold show_int. destruct (z <? 0)%Z; [constructor; [lia|]|];
    apply decimal_digits; (constructor || intros; lia).
Qed.

Lemma strcmp_eq_refl s : strcmp_eq s s = true.
Proof. unfold strcmp_eq. by rewrite bool_decide_eq_true_2. Qed.

Lemma strcmp_eq_true a b : strcmp_eq a b = true <-> a = b.
Proof. apply bool_decide_eq_true. Qed.

Lemma starts_with_spec p s : starts_with p s = true <-> exists r, s = p ++ r.
Proof.
  revert s. induction p as [|a p IH]; intros s; simpl; [split; [by exists s|done]|].
  destruct s as [|b s]; [split; [done|by intros [r [=]]]|].
  rewrite andb_true_iff, Z.eqb_eq, IH. split.
  - intros [-> [r ->]]. by exists r.
  - intros [r [= -> ->]]. split; [done|by exists r].
Qed.

Lemma starts_with_app p r : starts_with p (p ++ r) = true.
Proof. apply starts_with_spec. by exists r. Qed.

Lemma strchr_app s c r : (c ∉ s) -> strchr (s ++ c :: r) c = Some (length s).
Proof.
  induction s as [|b s IH]; intros Hn; simpl.
  - by rewrite Z.eqb_refl.
  - apply not_elem_of_cons in Hn as [Hb Hn]. rewrite (proj2 (Z.eqb_neq _ _)) by congruence.
    by rewrite IH.
Qed.

Lemma strchr_none s c : (c ∉ s) -> strchr s c = None.
Proof.
  induction s as [|b s IH]; intros Hn; simpl; [done|].
  apply not_elem_of_cons in Hn as [Hb Hn]. rewrite (proj2 (Z.eqb_neq _ _)) by congruence.
  by rewrite IH.
Qed.

Lemma c_string_app s r : (0%Z ∉ s) -> c_string (s ++ 0%Z :: r) = Ret s.
Proof.
  induction s as [|b s IH]; intros Hn; simpl; [done|].
  apply not_elem_of_cons in Hn as [Hb Hn]. rewrite (proj2 (Z.eqb_neq _ _)) by congruence.
  by rewrite IH.
Qed.

Lemma until_nul_id s : (0%Z ∉ s) -> until_nul s = s.
Proof.
  induction s as [|b s IH]; intros Hn; simpl; [done|].
  apply not_elem_of_cons in Hn as [Hb Hn]. rewrite (proj2 (Z.eqb_neq _ _)) by congruence.
  by rewrite IH.
Qed.

Lemma until_nul_no_nul s : (0%Z ∉ until_nul s).
Proof.
  induction s as [|b s IH]; simpl; [apply not_elem_of_nil|].
  destruct (Z.eqb_spec b 0); [apply not_elem_of_nil|]. apply not_elem_of_cons. split; congruence.
Qed.

(** Every string in memory ends before the first NUL. *)
Lemma c_string_no_nul mem s : c_string mem = Ret s -> (0%Z ∉ s).
Proof.
  revert s. induction mem as [|b mem IH]; intros s; simpl; [done|].
  destruct (Z.eqb_spec b 0); [intros [= <-]; apply not_elem_of_nil|].
  intros (t & Et & [= <-])%obind_Ret_inv. apply not_elem_of_cons. split; [congruence|by apply IH].
Qed.
