(* ===== verification/ByteArray.v ===== *)
(** * The expandable array (array.c) and its byte wrapper (byte_array.c)

    The block behind [data] is a list of bytes; [memcpy] and [memmove] are the
    bounds-checked [mem_write] and [mem_move] of the prelude, so an access
    outside the block is [Undef].  talloc is a parameter ([Allocator]).

    [ByteStore] is the interface the text editor uses: what a byte vector
    promises to its client, discharged here by [ik_array]. *)

From S2P Require Import Prelude.

(** ** talloc, a parameter *)

(** [talloc_realloc old n]: the new block of [n] bytes, or [None] when out of
    memory. *)
Class Allocator := talloc_realloc : list Z -> nat -> option (list Z).

(** Documented behaviour: the block has the requested size and keeps the
    contents up to the smaller of both sizes.  [realloc_some] is the
    assumption that memory does not run out. *)
Class AllocatorSpec `{Allocator} : Prop := {
  realloc_length old n new : talloc_realloc old n = Some new -> length new = n;
  realloc_prefix old n new :
    talloc_realloc old n = Some new -> length old <= n -> take (length old) new = old;
  realloc_shrink old n new : talloc_realloc old n = Some new -> n <= length old -> new = take n old;
  realloc_some old n : is_Some (talloc_realloc old n)
}.

(** ** array.c *)

Module Array.

Record ik_array := mk_array {
  data : list Z;            (* element_size * capacity bytes; [] stands for NULL *)
  element_size : nat;
  size : nat;
  capacity : nat;
  increment : nat
}.

Definition set_size (n : nat) (a : ik_array) : ik_array :=
  mk_array (data a) (element_size a) n (capacity a) (increment a).
Definition set_data (d : list Z) (a : ik_array) : ik_array :=
  mk_array d (element_size a) (size a) (capacity a) (increment a).

Definition ik_array_create (element_size increment : nat) : outcome ik_array :=
  if decide (element_size = 0) then Fail ERR_INVALID_ARG
  else if decide (increment = 0) then Fail ERR_INVALID_ARG
  else Ret (mk_array [] element_size 0 0 increment).

Section ops.
Context `{Allocator}.

Definition grow_array (a : ik_array) : outcome ik_array :=
  let new_capacity :=
    if decide (capacity a = 0) then increment a else wrap64 (capacity a * 2) in
  match talloc_realloc (data a) (wrap64 (element_size a * new_capacity)) with
  | None => Panic
  | Some new_data =>
      Ret (mk_array new_data (element_size a) (size a) new_capacity (increment a))
  end.

Definition grow_if_full (a : ik_array) : outcome ik_array :=
  if decide (capacity a <= size a) then grow_array a else Ret a.

Definition ik_array_append (a : ik_array) (element : list Z) : outcome ik_array :=
  let! a := grow_if_full a in
  let! d := mem_write (size a * element_size a) element (data a) in
  Ret (set_size (wrap64 (S (size a))) (set_data d a)).

Definition ik_array_insert (a : ik_array) (index : nat) (element : list Z)
  : outcome ik_array :=
  assert! bool_decide (index <= size a) in
  let! a := grow_if_full a in
  let! d :=
    if decide (index < size a)
    then mem_move ((index + 1) * element_size a) (index * element_size a)
           ((size a - index) * element_size a) (data a)
    else Ret (data a) in
  let! d := mem_write (index * element_size a) element d in
  Ret (set_size (wrap64 (S (size a))) (set_data d a)).

Definition ik_array_delete (a : ik_array) (index : nat) : outcome ik_array :=
  assert! bool_decide (index < size a) in
  let! d :=
    if decide (index < size a - 1)
    then mem_move (index * element_size a) ((index + 1) * element_size a)
           ((size a - index - 1) * element_size a) (data a)
    else Ret (data a) in
  Ret (set_size (size a - 1) (set_data d a)).

Definition ik_array_set (a : ik_array) (index : nat) (element : list Z)
  : outcome ik_array :=
  assert! bool_decide (index < size a) in
  let! d := mem_write (index * element_size a) element (data a) in
  Ret (set_data d a).

End ops.

Definition ik_array_clear (a : ik_array) : ik_array := set_size 0 a.

(** The pointer returned is the offset of the element in the block. *)
Definition ik_array_get (a : ik_array) (index : nat) : outcome nat :=
  assert! bool_decide (index < size a) in
  Ret (index * element_size a).

Definition ik_array_size (a : ik_array) : nat := size a.
Definition ik_array_capacity (a : ik_array) : nat := capacity a.

(** ** Abstraction: the list of elements *)

(** [k] consecutive blocks of [n] bytes. *)
Fixpoint chunk (n k : nat) (bs : list Z) : list (list Z) :=
  match k with
  | 0 => []
  | S k => take n bs :: chunk n k (drop n bs)
  end.

Definition used (a : ik_array) : list Z := take (size a * element_size a) (data a).
Definition elems (a : ik_array) : list (list Z) := chunk (element_size a) (size a) (used a).

(** Well-formed: the block has room for exactly [capacity] elements, of which
    [size] are in use. *)
Record wf (a : ik_array) : Prop := {
  wf_element_size : 0 < element_size a;
  wf_increment : 0 < increment a;
  wf_data : length (data a) = element_size a * capacity a;
  wf_size : size a <= capacity a
}.

(** The next growth, if one is needed, does not overflow [size_t]. *)
Definition next_capacity (a : ik_array) : nat :=
  if decide (capacity a = 0) then increment a else capacity a * 2.
Definition growth_fits (a : ik_array) : Prop :=
  capacity a <= size a -> (Z.of_nat (element_size a * next_capacity a) < 2 ^ 64)%Z.

Lemma length_chunk n k bs : length (chunk n k bs) = k.
Proof. revert bs. induction k; simpl; auto. Qed.

Lemma chunk_app n k1 k2 bs1 bs2 :
  length bs1 = k1 * n -> chunk n (k1 + k2) (bs1 ++ bs2) = chunk n k1 bs1 ++ chunk n k2 bs2.
Proof.
  revert bs1. induction k1 as [|k1 IH]; intros bs1 Hl; simpl in *.
  { by destruct bs1. }
  f_equal.
  - by rewrite take_app_le by lia.
  - rewrite drop_app_le by lia. apply IH. len_lia.
Qed.

Lemma chunk_one n x : length x = n -> chunk n 1 x = [x].
Proof. intros <-. simpl. by rewrite firstn_all. Qed.

(** Blocks of one byte are the bytes themselves. *)
Lemma chunk_bytes bs : chunk 1 (length bs) bs = (fun b => [b]) <$> bs.
Proof. induction bs as [|b bs IH]; simpl; [done|]. by rewrite drop_0, IH. Qed.

Lemma length_used a : wf a -> length (used a) = size a * element_size a.
Proof.
  intros [? ? Hd ?]. unfold used. rewrite length_take, Hd. nia.
Qed.

(** The elements before and from index [i] are the blocks of the bytes before
    and from offset [i * element_size]. *)
Lemma elems_split (a : ik_array) i :
  wf a -> i <= size a ->
  take i (elems a) = chunk (element_size a) i (take (i * element_size a) (used a)) /\
  drop i (elems a) =
    chunk (element_size a) (size a - i) (drop (i * element_size a) (used a)).
Proof.
  intros Hwf Hi. pose proof (length_used a Hwf) as Hl.
  set (l1 := chunk (element_size a) i (take (i * element_size a) (used a))).
  set (l2 := chunk _ (size a - i) _).
  assert (elems a = l1 ++ l2) as ->.
  { unfold elems, l1, l2. rewrite <- chunk_app by (rewrite length_take; nia).
    rewrite take_drop. f_equal. lia. }
  assert (i = length l1) as Hi' by (unfold l1; by rewrite length_chunk).
  by rewrite (take_app_length' l1 l2 i Hi'), (drop_app_length' l1 l2 i Hi').
Qed.

(** An array whose used bytes are a prefix of [i] elements, then [m], then a
    suffix of [k] elements. *)
Lemma elems_of_used (a : ik_array) i j k b1 m b2 :
  used a = b1 ++ m ++ b2 -> size a = i + (j + k) ->
  length b1 = i * element_size a -> length m = j * element_size a ->
  elems a = chunk (element_size a) i b1 ++ chunk (element_size a) j m
            ++ chunk (element_size a) k b2.
Proof. intros Hu Hs H1 H2. unfold elems. by rewrite Hu, Hs, !chunk_app. Qed.

(** ** Growth *)

Section growth.
Context `{AllocatorSpec}.

(** The block of [b] has the bytes of [a] in its first [size * element_size]
    bytes and room for one more element. *)
Lemma grow_if_full_spec (a : ik_array) :
  wf a -> growth_fits a ->
  exists b, grow_if_full a = Ret b /\ wf b /\ size b = size a /\
    element_size b = element_size a /\ increment b = increment a /\
    used b = used a /\ size b < capacity b.
Proof.
  intros Hwf Hfit. unfold grow_if_full.
  destruct (decide (capacity a <= size a)) as [Hfull|Hroom].
  2: { exists a. split_and!; auto. lia. }
  specialize (Hfit Hfull). pose proof (wf_size a Hwf) as Hsz.
  pose proof (wf_element_size a Hwf) as Hes. pose proof (wf_increment a Hwf) as Hinc.
  assert ((if decide (capacity a = 0) then increment a else wrap64 (capacity a * 2))
          = next_capacity a) as Hcap.
  { unfold next_capacity in *. case_decide; [done|]. apply wrap64_small. nia. }
  unfold grow_array. rewrite Hcap, wrap64_small by lia.
  destruct (realloc_some (data a) (element_size a * next_capacity a)) as [d Hd].
  rewrite Hd. pose proof (realloc_length _ _ _ Hd) as Hlen.
  assert (size a < next_capacity a) as Hlt.
  { unfold next_capacity. case_decide; lia. }
  pose proof (realloc_prefix _ _ _ Hd) as Hpre. rewrite (wf_data a Hwf) in Hpre.
  specialize (Hpre ltac:(nia)).
  eexists; split; [reflexivity|]. split_and!; simpl; try done.
  - constructor; simpl; lia.
  - unfold used; simpl. rewrite <- Hpre, take_take. f_equal.
    replace (size a) with (capacity a) by lia. lia.
Qed.

(** ** Refinement: the array operations are the list operations *)

(** The block seen as used bytes and free bytes. *)
Lemma data_split (a : ik_array) :
  wf a -> exists free, data a = used a ++ free /\
    length free = element_size a * (capacity a - size a).
Proof.
  intros Hwf. exists (drop (size a * element_size a) (data a)).
  unfold used. rewrite take_drop, length_drop, (wf_data a Hwf). split; [done|].
  pose proof (wf_size a Hwf). nia.
Qed.

(** Replacing the block by [u ++ r] with [u] exactly the bytes of [n] elements. *)
Lemma wf_replace (a : ik_array) n u r :
  wf a -> n <= capacity a -> length u = n * element_size a ->
  length (u ++ r) = length (data a) ->
  wf (set_size n (set_data (u ++ r) a)) /\ used (set_size n (set_data (u ++ r) a)) = u.
Proof.
  intros [? ? Hd ?] Hn Hu Hl. split.
  - constructor; simpl; auto. lia.
  - unfold used; simpl. by rewrite (take_app_length' u r _ (eq_sym Hu)).
Qed.

(** [elems] after a change, from the bytes before [i], in the middle and after. *)
Lemma elems_change (a b : ik_array) i m j :
  wf a -> i <= size a -> element_size b = element_size a ->
  size b = i + (j + (size a - i)) -> length m = j * element_size a ->
  used b = take (i * element_size a) (used a) ++ m ++ drop (i * element_size a) (used a) ->
  elems b = take i (elems a) ++ chunk (element_size a) j m ++ drop i (elems a).
Proof.
  intros Hwf Hi He Hs Hm Hu. destruct (elems_split a i Hwf Hi) as [-> ->].
  pose proof (length_used a Hwf). rewrite <- He.
  apply elems_of_used; rewrite ?He; auto. rewrite length_take. nia.
Qed.

Lemma ik_array_append_spec (a : ik_array) x :
  wf a -> growth_fits a -> length x = element_size a ->
  (Z.of_nat (S (size a)) < 2 ^ 64)%Z ->
  exists b, ik_array_append a x = Ret b /\ wf b /\
    element_size b = element_size a /\ increment b = increment a /\
    elems b = elems a ++ [x].
Proof.
  intros Hwf Hfit Hx Hs.
  destruct (grow_if_full_spec a Hwf Hfit) as (c & Hg & Hwc & Hsc & Hec & Hic & Huc & Hrc).
  destruct (data_split c Hwc) as (free & Hd & Hf).
  pose proof (length_used c Hwc) as Hlu. pose proof (wf_data c Hwc) as Hld.
  destruct (split_at (element_size c) free) as (gap & r & -> & Hgap & Hr); [nia|].
  unfold ik_array_append. rewrite Hg; cbn [obind].
  rewrite Hd, mem_write_app by lia. cbn [obind]. rewrite wrap64_small by lia.
  rewrite app_assoc.
  destruct (wf_replace c (S (size c)) (used c ++ x) r) as [Hwb Hub]; auto;
    [len_lia | rewrite Hd; len_lia |].
  eexists; split; [reflexivity|]. split_and!; auto.
  rewrite (elems_of_used _ (size c) 1 0 (used c) x []);
    [|by rewrite Hub, app_nil_r | simpl; lia | simpl; lia | simpl; lia].
  unfold elems. rewrite <- Huc, <- Hec, <- Hsc. simpl. rewrite take_ge by lia. done.
Qed.

Lemma ik_array_insert_spec (a : ik_array) i x :
  wf a -> growth_fits a -> length x = element_size a -> i <= size a ->
  (Z.of_nat (S (size a)) < 2 ^ 64)%Z ->
  exists b, ik_array_insert a i x = Ret b /\ wf b /\
    element_size b = element_size a /\ increment b = increment a /\
    elems b = insert_at i x (elems a).
Proof.
  intros Hwf Hfit Hx Hi Hs.
  destruct (grow_if_full_spec a Hwf Hfit) as (c & Hg & Hwc & Hsc & Hec & Hic & Huc & Hrc).
  destruct (data_split c Hwc) as (free & Hd & Hf).
  pose proof (length_used c Hwc) as Hlu. pose proof (wf_data c Hwc) as Hld.
  destruct (split_at (element_size c) free) as (gap & r & -> & Hgap & Hr); [nia|].
  destruct (split_at (i * element_size c) (used c)) as (p & m & Hpm & Hp & Hm); [nia|].
  destruct (split_at (element_size c) (m ++ gap)) as (g & m' & Hgm & Hlg & Hlm'); [len_lia|].
  assert (data c = p ++ g ++ m' ++ r) as Hd'.
  { rewrite Hd, Hpm. rewrite (app_assoc g), <- Hgm. by rewrite !app_assoc. }
  unfold ik_array_insert. rewrite bool_decide_true by lia. rewrite Hg; cbn [obind].
  assert (length m' = length m) as Hmm by len_lia.
  replace (if decide (i < size c) then _ else _) with (Ret (p ++ g ++ m ++ r)).
  2: { assert (p ++ m ++ gap ++ r = (p ++ g) ++ m' ++ r) as Heq.
       { by rewrite <- !app_assoc, (app_assoc g), <- Hgm, <- app_assoc. }
       assert (data c = p ++ m ++ gap ++ r) as ->.
       { by rewrite Hd, Hpm, <- app_assoc. }
       case_decide.
       - unfold mem_move. rewrite mem_read_app by (len_lia || nia). cbn [obind].
         rewrite Heq, mem_write_app by (len_lia || nia). by rewrite <- app_assoc.
       - rewrite Heq. assert (m' = m) as ->; [|by rewrite <- app_assoc].
         rewrite (proj1 (length_zero_iff_nil m)) in * by nia.
         apply length_zero_iff_nil. by rewrite Hmm. }
  cbn [obind]. rewrite mem_write_app by len_lia. cbn [obind].
  rewrite wrap64_small by lia.
  replace (p ++ x ++ m ++ r) with ((p ++ x ++ m) ++ r) by (by rewrite <- !app_assoc).
  destruct (wf_replace c (S (size c)) (p ++ x ++ m) r) as [Hwb Hub]; auto;
    [rewrite Hpm in Hlu; len_lia | rewrite Hd, Hpm; len_lia |].
  eexists; split; [reflexivity|]. split_and!; auto.
  rewrite (elems_change c _ i x 1 Hwc); [|lia|done|simpl; lia|simpl; lia|].
  - simpl chunk. rewrite (take_ge x) by lia. unfold insert_at, elems.
    by rewrite Huc, Hec, Hsc.
  - rewrite Hub, Hpm. by rewrite (take_app_length' p), (drop_app_length' p) by lia.
Qed.

End growth.

Lemma ik_array_delete_spec (a : ik_array) i :
  wf a -> i < size a ->
  exists b, ik_array_delete a i = Ret b /\ wf b /\
    element_size b = element_size a /\ increment b = increment a /\
    elems b = delete_at i (elems a).
Proof.
  intros Hwf Hi. destruct (data_split a Hwf) as (r & Hd & Hf).
  pose proof (length_used a Hwf) as Hlu. pose proof (wf_size a Hwf) as Hsz.
  destruct (split_at (i * element_size a) (used a)) as (p & q & Hpq & Hp & Hq); [nia|].
  destruct (split_at (element_size a) q) as (x & m & -> & Hx & Hm); [nia|].
  destruct (split_at (length m) (x ++ m)) as (u & v & Huv & Hu & Hv); [len_lia|].
  assert (data a = p ++ x ++ m ++ r) as Hd1 by (by rewrite Hd, Hpq, <- !app_assoc).
  assert (p ++ x ++ m ++ r = p ++ u ++ v ++ r) as Heq
    by (by rewrite (app_assoc x), Huv, <- app_assoc).
  assert (exists r', ik_array_delete a i
            = Ret (set_size (size a - 1) (set_data ((p ++ m) ++ r') a))
          /\ length ((p ++ m) ++ r') = length (data a)) as (r' & Hdel & Hlr').
  { unfold ik_array_delete. rewrite bool_decide_true by lia. rewrite Hd1.
    case_decide.
    - unfold mem_move. rewrite (app_assoc p x), mem_read_app by (len_lia || nia).
      cbn [obind]. rewrite <- (app_assoc p x), Heq, mem_write_app by (len_lia || nia).
      exists (v ++ r). cbn [obind]. rewrite <- app_assoc. split; [done|len_lia].
    - assert (m = []) as -> by (apply length_zero_iff_nil; nia).
      exists (x ++ r). rewrite app_nil_r. split; [done|len_lia]. }
  rewrite Hpq in Hlu.
  destruct (wf_replace a (size a - 1) (p ++ m) r') as [Hwb Hub]; auto;
    [lia | autorewrite with ik_length in *; nia |].
  eexists; split; [exact Hdel|]. split_and!; auto.
  unfold delete_at.
  assert (elems a = chunk (element_size a) i p ++ chunk (element_size a) 1 x
                    ++ chunk (element_size a) (size a - i - 1) m) as ->.
  { apply elems_of_used; simpl; (lia || done). }
  rewrite take_app_length', drop_app_ge by (rewrite length_chunk; lia).
  rewrite length_chunk. replace (S i - i) with 1 by lia. simpl. rewrite drop_0.
  rewrite (elems_of_used _ i 0 (size a - i - 1) p [] m); simpl; try lia; done.
Qed.

Lemma ik_array_set_spec (a : ik_array) i x :
  wf a -> i < size a -> length x = element_size a ->
  exists b, ik_array_set a i x = Ret b /\ wf b /\
    element_size b = element_size a /\ increment b = increment a /\
    elems b = <[i := x]> (elems a).
Proof.
  intros Hwf Hi Hx. destruct (data_split a Hwf) as (r & Hd & Hf).
  pose proof (length_used a Hwf) as Hlu. pose proof (wf_size a Hwf) as Hsz.
  destruct (split_at (i * element_size a) (used a)) as (p & q & Hpq & Hp & Hq); [nia|].
  destruct (split_at (element_size a) q) as (y & m & -> & Hy & Hm); [nia|].
  unfold ik_array_set. rewrite bool_decide_true by lia.
  rewrite Hd, Hpq, <- !app_assoc, mem_write_app by lia. cbn [obind].
  replace (p ++ x ++ m ++ r) with ((p ++ x ++ m) ++ r) by (by rewrite <- !app_assoc).
  rewrite Hpq in Hlu.
  destruct (wf_replace a (size a) (p ++ x ++ m) r) as [Hwb Hub]; auto;
    [len_lia | rewrite Hd, Hpq; len_lia |].
  eexists; split; [reflexivity|].
  replace (set_data ((p ++ x ++ m) ++ r) a)
    with (set_size (size a) (set_data ((p ++ x ++ m) ++ r) a)) by (by destruct a).
  split_and!; auto.
  assert (elems a = chunk (element_size a) i p ++ chunk (element_size a) 1 y
                    ++ chunk (element_size a) (size a - i - 1) m) as ->.
  { apply elems_of_used; simpl; (lia || done). }
  rewrite (elems_of_used _ i 1 (size a - i - 1) p x m); simpl; try lia; auto.
  rewrite (take_ge x) by lia.
  rewrite <- (length_chunk (element_size a) i p) at 3.
  by rewrite insert_app_r_alt, Nat.sub_diag by lia.
Qed.

End Array.

(** ** byte_array.c: arrays of one-byte elements *)

Module ByteVec.
Import Array.

Section ops.
Context `{Allocator}.

Definition ik_byte_array_create (increment : nat) : outcome ik_array :=
  ik_array_create 1 increment.
Definition ik_byte_array_append (a : ik_array) (byte : Z) : outcome ik_array :=
  ik_array_append a [byte].
Definition ik_byte_array_insert (a : ik_array) (index : nat) (byte : Z)
  : outcome ik_array := ik_array_insert a index [byte].
Definition ik_byte_array_delete (a : ik_array) (index : nat) : outcome ik_array :=
  ik_array_delete a index.
Definition ik_byte_array_clear (a : ik_array) : ik_array := ik_array_clear a.
Definition ik_byte_array_get (a : ik_array) (index : nat) : outcome Z :=
  let! off := ik_array_get a index in
  match data a !! off with Some b => Ret b | None => Undef end.
Definition ik_byte_array_size (a : ik_array) : nat := ik_array_size a.

End ops.

(** [data] is NULL until the first allocation. *)
Definition data_ptr (a : ik_array) : option (list Z) :=
  if decide (capacity a = 0) then None else Some (used a).

Definition byte_wf (a : ik_array) : Prop :=
  wf a /\ element_size a = 1 /\ (Z.of_nat (increment a) < 2 ^ 64)%Z.

Lemma used_elems a : byte_wf a -> elems a = (fun b => [b]) <$> used a.
Proof.
  intros (Hwf & He & _). unfold elems. pose proof (length_used a Hwf) as Hl.
  rewrite He in *. replace (size a) with (length (used a)) by lia. apply chunk_bytes.
Qed.

Lemma used_of_elems a l : byte_wf a -> elems a = (fun b => [b]) <$> l -> used a = l.
Proof.
  intros Ha. rewrite (used_elems a Ha). apply list_fmap_eq_inj. by intros x y [= ->].
Qed.

End ByteVec.

(** ** The byte vector interface *)

(** What the editor needs of a growable byte vector [T]: [bs_bytes] is its
    contents, [bs_ptr] its data pointer with [None] for NULL. *)
Class ByteStore (T : Type) := {
  bs_create : nat -> outcome T;
  bs_append : T -> Z -> outcome T;
  bs_insert : T -> nat -> Z -> outcome T;
  bs_delete : T -> nat -> outcome T;
  bs_clear : T -> T;
  bs_size : T -> nat;
  bs_ptr : T -> option (list Z);
  bs_bytes : T -> list Z;
  bs_ok : T -> Prop
}.

(** Its laws: every operation is the list operation, and never fails within
    its precondition while the contents stay below 2^62 bytes. *)
Class ByteStoreLaws (T : Type) `{ByteStore T} : Prop := {
  bs_create_ok n : 0 < n -> (Z.of_nat n < 2 ^ 64)%Z ->
    exists t, bs_create n = Ret t /\ bs_ok t /\ bs_bytes t = [];
  bs_append_ok t b : bs_ok t -> (Z.of_nat (length (bs_bytes t)) < 2 ^ 62)%Z ->
    exists t', bs_append t b = Ret t' /\ bs_ok t' /\ bs_bytes t' = bs_bytes t ++ [b];
  bs_insert_ok t i b : bs_ok t -> (Z.of_nat (length (bs_bytes t)) < 2 ^ 62)%Z ->
    i <= length (bs_bytes t) ->
    exists t', bs_insert t i b = Ret t' /\ bs_ok t' /\
               bs_bytes t' = insert_at i b (bs_bytes t);
  bs_delete_ok t i : bs_ok t -> i < length (bs_bytes t) ->
    exists t', bs_delete t i = Ret t' /\ bs_ok t' /\
               bs_bytes t' = delete_at i (bs_bytes t) /\ bs_ptr t' <> None;
  bs_clear_ok t : bs_ok t -> bs_ok (bs_clear t) /\ bs_bytes (bs_clear t) = [];
  bs_size_ok t : bs_ok t -> bs_size t = length (bs_bytes t);
  bs_ptr_some t : bs_ok t -> bs_bytes t <> [] -> bs_ptr t = Some (bs_bytes t);
  bs_ptr_bytes t d : bs_ok t -> bs_ptr t = Some d -> d = bs_bytes t
}.

#[export] Instance ik_byte_store `{Allocator} : ByteStore Array.ik_array := {
  bs_create := ByteVec.ik_byte_array_create;
  bs_append := ByteVec.ik_byte_array_append;
  bs_insert := ByteVec.ik_byte_array_insert;
  bs_delete := ByteVec.ik_byte_array_delete;
  bs_clear := ByteVec.ik_byte_array_clear;
  bs_size := ByteVec.ik_byte_array_size;
  bs_ptr := ByteVec.data_ptr;
  bs_bytes := Array.used;
  bs_ok := ByteVec.byte_wf
}.

Section laws.
Context `{AllocatorSpec}.
Import Array ByteVec.

Lemma byte_growth_fits a :
  byte_wf a -> (Z.of_nat (length (used a)) < 2 ^ 62)%Z ->
  growth_fits a /\ (Z.of_nat (S (size a)) < 2 ^ 64)%Z.
Proof.
  intros (Hwf & He & Hi) Hl. rewrite (length_used a Hwf), He in Hl.
  split; [|lia]. intros Hfull. unfold next_capacity. rewrite He.
  pose proof (wf_size a Hwf). case_decide; lia.
Qed.

Lemma ik_byte_array_insert_ok a i b :
  byte_wf a -> (Z.of_nat (length (used a)) < 2 ^ 62)%Z -> i <= length (used a) ->
  exists a', ik_byte_array_insert a i b = Ret a' /\ byte_wf a' /\
             used a' = insert_at i b (used a).
Proof.
  intros Ha Hl Hi. destruct (byte_growth_fits a Ha Hl) as [Hfit Hs].
  pose proof Ha as (Hwf & He & Hinc). rewrite (length_used a Hwf), He in Hi.
  destruct (ik_array_insert_spec a i [b]) as (a' & Hr & Hwf' & He' & Hi' & Hel); auto;
    try (simpl; lia).
  assert (byte_wf a') as Ha' by (split_and!; auto; congruence).
  exists a'. split_and!; auto. apply used_of_elems; [done|].
  rewrite Hel, (used_elems a Ha). unfold insert_at.
  by rewrite fmap_app, fmap_cons, fmap_take, fmap_drop.
Qed.

Lemma ik_byte_array_append_ok a b :
  byte_wf a -> (Z.of_nat (length (used a)) < 2 ^ 62)%Z ->
  exists a', ik_byte_array_append a b = Ret a' /\ byte_wf a' /\ used a' = used a ++ [b].
Proof.
  intros Ha Hl. destruct (byte_growth_fits a Ha Hl) as [Hfit Hs].
  pose proof Ha as (Hwf & He & Hinc).
  destruct (ik_array_append_spec a [b]) as (a' & Hr & Hwf' & He' & Hi' & Hel); auto.
  assert (byte_wf a') as Ha' by (split_and!; auto; congruence).
  exists a'. split_and!; auto. apply used_of_elems; [done|].
  by rewrite Hel, (used_elems a Ha), fmap_app.
Qed.

Lemma ik_byte_array_delete_ok a i :
  byte_wf a -> i < length (used a) ->
  exists a', ik_byte_array_delete a i = Ret a' /\ byte_wf a' /\
             used a' = delete_at i (used a) /\ data_ptr a' <> None.
Proof.
  intros Ha Hi. pose proof Ha as (Hwf & He & Hinc).
  rewrite (length_used a Hwf), He in Hi.
  destruct (ik_array_delete_spec a i) as (a' & Hr & Hwf' & He' & Hi' & Hel); auto; [lia|].
  assert (byte_wf a') as Ha' by (split_and!; auto; congruence).
  exists a'. split_and!; auto.
  - apply used_of_elems; [done|]. rewrite Hel, (used_elems a Ha). unfold delete_at.
    by rewrite fmap_app, fmap_take, fmap_drop.
  - unfold data_ptr. rewrite decide_False; [done|]. intros Hc.
    assert (capacity a' = capacity a) as Hca.
    { clear -Hr. unfold ik_byte_array_delete, ik_array_delete in Hr.
      case_bool_decide; [|done]. apply obind_Ret_inv in Hr as (d & _ & Hr).
      by simplify_eq. }
    pose proof (wf_size a Hwf). lia.
Qed.

#[export] Instance ik_byte_store_laws : ByteStoreLaws Array.ik_array.
Proof.
  constructor; simpl.
  - intros n Hn Hb. unfold ik_byte_array_create, ik_array_create.
    rewrite !decide_False by lia. eexists. split_and!; [reflexivity| |done].
    split_and!; [constructor; simpl; lia|done|done].
  - intros. by apply ik_byte_array_append_ok.
  - intros. by apply ik_byte_array_insert_ok.
  - intros. by apply ik_byte_array_delete_ok.
  - intros a ([? ? ? ?] & ? & ?). split; [|done].
    split_and!; [constructor; simpl; auto; lia|done|done].
  - intros a (Hwf & He & _). rewrite (length_used a Hwf), He. apply eq_sym, Nat.mul_1_r.
  - intros a (Hwf & He & _) Hne. unfold data_ptr. rewrite decide_False; [done|].
    intros Hc. apply Hne, length_zero_iff_nil.
    pose proof (wf_size a Hwf). rewrite (length_used a Hwf). lia.
  - intros a d _. unfold data_ptr. by case_decide; intros; simplify_eq.
Qed.

End laws.

(** ** Sequences of array operations *)

Module ArrayOps.
Import Array.

Inductive array_op : Type :=
| OpAppend (x : list Z)
| OpInsert (i : nat) (x : list Z)
| OpDelete (i : nat)
| OpSet (i : nat) (x : list Z)
| OpClear.

Definition run_op `{Allocator} (a : ik_array) (op : array_op) : outcome ik_array :=
  match op with
  | OpAppend x => ik_array_append a x
  | OpInsert i x => ik_array_insert a i x
  | OpDelete i => ik_array_delete a i
  | OpSet i x => ik_array_set a i x
  | OpClear => Ret (ik_array_clear a)
  end.

Fixpoint run_ops `{Allocator} (a : ik_array) (ops : list array_op) : outcome ik_array :=
  match ops with
  | [] => Ret a
  | op :: ops => let! a := run_op a op in run_ops a ops
  end.

(** The list operation, defined where the index is in range and the element
    has the array's element size. *)
Definition list_op (n : nat) (l : list (list Z)) (op : array_op) : option (list (list Z)) :=
  match op with
  | OpAppend x => guard (length x = n);; Some (l ++ [x])
  | OpInsert i x => guard (length x = n /\ i <= length l);; Some (insert_at i x l)
  | OpDelete i => guard (i < length l);; Some (delete_at i l)
  | OpSet i x => guard (length x = n /\ i < length l);; Some (<[i := x]> l)
  | OpClear => Some []
  end.

Fixpoint list_ops (n : nat) (l : list (list Z)) (ops : list array_op)
  : option (list (list Z)) :=
  match ops with
  | [] => Some l
  | op :: ops => l ← list_op n l op; list_ops n l ops
  end.

Section proofs.
Context `{AllocatorSpec}.

Lemma length_elems a : length (elems a) = size a.
Proof. apply length_chunk. Qed.

Lemma length_list_op n l op l' : list_op n l op = Some l' -> length l' <= S (length l).
Proof.
  destruct op; simpl; intros Ho; simplify_option_eq; rewrite ?length_insert_at, ?length_insert;
    unfold delete_at; len_lia.
Qed.

Lemma run_op_refines a op l' :
  wf a -> growth_fits a -> (Z.of_nat (S (size a)) < 2 ^ 64)%Z ->
  list_op (element_size a) (elems a) op = Some l' ->
  exists b, run_op a op = Ret b /\ wf b /\ element_size b = element_size a /\
    increment b = increment a /\ elems b = l'.
Proof.
  intros Hwf Hf Hs Ho. destruct op; simpl in *; simplify_option_eq; try destruct_and!;
    rewrite ?length_elems in *.
  - by apply ik_array_append_spec.
  - by apply ik_array_insert_spec.
  - by apply ik_array_delete_spec.
  - by apply ik_array_set_spec.
  - exists (ik_array_clear a). split_and!; auto. destruct Hwf. constructor; simpl; auto; lia.
Qed.

Lemma run_ops_refine ops a l :
  wf a ->
  (Z.of_nat (element_size a * (increment a + 2 * (size a + length ops))) < 2 ^ 64)%Z ->
  list_ops (element_size a) (elems a) ops = Some l ->
  exists b, run_ops a ops = Ret b /\ wf b /\ elems b = l.
Proof.
  revert a. induction ops as [|op ops IH]; intros a Hwf Hb Ho; simpl in *.
  { simplify_eq. eauto. }
  apply bind_Some in Ho as (l1 & Ho1 & Ho). pose proof (wf_element_size a Hwf).
  destruct (run_op_refines a op l1) as (b & Hr & Hwb & He & Hi & Hl1); auto.
  - intros Hfull. pose proof (wf_size a Hwf). unfold next_capacity. case_decide; nia.
  - nia.
  - rewrite Hr; cbn [obind]. pose proof (length_list_op _ _ _ _ Ho1) as Hlen.
    rewrite <- Hl1, !length_elems in Hlen.
    apply IH; [done| |by rewrite He, Hl1]. rewrite He, Hi. nia.
Qed.

(** any sequence of append, insert, delete, set and clear on a fresh
    ik_array_t, with indices in range, returns without a memory error and
    leaves the array holding the elements the same operations produce on a
    list; the byte-level memmove/memcpy, the lazy first allocation and the
    doubling growth are invisible. *)
Theorem array_ops_refine_list (es inc : nat) (ops : list array_op) (l : list (list Z)) :
  0 < es -> 0 < inc ->
  (Z.of_nat (es * (inc + 2 * length ops)) < 2 ^ 64)%Z ->
  list_ops es [] ops = Some l ->
  exists a b, ik_array_create es inc = Ret a /\ run_ops a ops = Ret b /\
    wf b /\ elems b = l.
Proof.
  intros He Hi Hb Ho. unfold ik_array_create. rewrite !decide_False by lia.
  eexists. destruct (run_ops_refine ops (mk_array [] es 0 0 inc) l) as (b & ? & ? & ?);
    simpl; auto; [constructor; simpl; lia|].
  exists b. eauto.
Qed.

End proofs.
End ArrayOps.

(** A concrete allocator: the block is cut or padded with zeros. *)
Module ZeroAlloc.

#[export] Instance zero_alloc : Allocator :=
  fun old n => Some (take n old ++ replicate (n - length old) 0%Z).

#[export] Instance zero_alloc_spec : AllocatorSpec.
Proof.
  constructor; unfold talloc_realloc, zero_alloc.
  - intros old n new [= <-]. len_lia.
  - intros old n new [= <-] Hl. rewrite take_app_le by len_lia.
    by rewrite take_take, Nat.min_l, firstn_all by lia.
  - intros old n new [= <-] Hl. replace (n - length old) with 0 by lia. apply app_nil_r.
  - by eexists.
Qed.

End ZeroAlloc.

Module ArrayOpsExamples.
Import Array ArrayOps ZeroAlloc.

(** Inserting before the first element grows the block and shifts two bytes. *)
Definition sample_ops : list array_op :=
  [OpAppend [1; 2]; OpAppend [5; 6]; OpInsert 1 [3; 4]; OpDelete 0; OpSet 1 [7; 8]]%Z.

Lemma array_ops_refine_list_witness :
  exists a b, ik_array_create 2 1 = Ret a /\ run_ops a sample_ops = Ret b /\
    wf b /\ elems b = [[3; 4]; [7; 8]]%Z.
Proof.
  apply (array_ops_refine_list 2 1 sample_ops); [lia | lia | done | reflexivity].
Defined.

End ArrayOpsExamples.
