(* ===== verification/Utf8.v ===== *)
(** * UTF-8: the encoder of input_buffer/core.c, the decoder of input.c

    [encode_utf8] is what the editor stores, [decode_utf8_sequence] what the
    key parser reconstructs.  [text_of] is the byte form of a list of code
    points; its lemmas locate code point boundaries inside the bytes. *)

From S2P Require Import Prelude.

Local Open Scope Z_scope.

(** ** Definitions *)

(** encode_utf8: the bytes written to [out]; [] stands for the return value 0
    (invalid code point). *)
Definition uint8 (z : Z) : Z := z `mod` 256.

Definition encode_utf8 (codepoint : Z) : list Z :=
  if codepoint <=? 0x7F then [uint8 codepoint]
  else if codepoint <=? 0x7FF then
    [uint8 (Z.lor 0xC0 (Z.shiftr codepoint 6));
     uint8 (Z.lor 0x80 (Z.land codepoint 0x3F))]
  else if codepoint <=? 0xFFFF then
    [uint8 (Z.lor 0xE0 (Z.shiftr codepoint 12));
     uint8 (Z.lor 0x80 (Z.land (Z.shiftr codepoint 6) 0x3F));
     uint8 (Z.lor 0x80 (Z.land codepoint 0x3F))]
  else if codepoint <=? 0x10FFFF then
    [uint8 (Z.lor 0xF0 (Z.shiftr codepoint 18));
     uint8 (Z.lor 0x80 (Z.land (Z.shiftr codepoint 12) 0x3F));
     uint8 (Z.lor 0x80 (Z.land (Z.shiftr codepoint 6) 0x3F));
     uint8 (Z.lor 0x80 (Z.land codepoint 0x3F))]
  else [].

(** decode_utf8_sequence: [buf] holds the bytes of the sequence. *)
Definition replacement : Z := 0xFFFD.

Definition decode_utf8_sequence (buf : list Z) : outcome Z :=
  let! codepoint :=
    match buf with
    | [b0; b1] =>
        Ret (Z.lor (Z.shiftl (Z.land b0 0x1F) 6) (Z.land b1 0x3F))
    | [b0; b1; b2] =>
        Ret (Z.lor (Z.lor (Z.shiftl (Z.land b0 0x0F) 12) (Z.shiftl (Z.land b1 0x3F) 6))
                   (Z.land b2 0x3F))
    | [b0; b1; b2; b3] =>
        Ret (Z.lor (Z.lor (Z.lor (Z.shiftl (Z.land b0 0x07) 18)
                                 (Z.shiftl (Z.land b1 0x3F) 12))
                          (Z.shiftl (Z.land b2 0x3F) 6))
                   (Z.land b3 0x3F))
    | _ => Panic
    end in
  let len := length buf in
  if (Nat.eqb len 2 && (codepoint <? 0x80))%bool then Ret replacement
  else if (Nat.eqb len 3 && (codepoint <? 0x800))%bool then Ret replacement
  else if (Nat.eqb len 4 && (codepoint <? 0x10000))%bool then Ret replacement
  else if ((0xD800 <=? codepoint) && (codepoint <=? 0xDFFF))%bool then Ret replacement
  else if 0x10FFFF <? codepoint then Ret replacement
  else Ret codepoint.

(** ** Specification *)

(** Unicode scalar values: what well-formed UTF-8 can encode. *)
Definition scalarb (c : Z) : bool :=
  ((0 <=? c) && (c <=? 0x10FFFF) && negb ((0xD800 <=? c) && (c <=? 0xDFFF)))%bool.
Definition scalar (c : Z) : Prop := scalarb c = true.

Definition is_cont (b : Z) : bool := (Z.land b 0xC0 =? 0x80).

(** The lead-byte classification both the editor and the key parser use. *)
Definition lead_len (b : Z) : option nat :=
  if Z.land b 0x80 =? 0 then Some 1%nat
  else if Z.land b 0xE0 =? 0xC0 then Some 2%nat
  else if Z.land b 0xF0 =? 0xE0 then Some 3%nat
  else if Z.land b 0xF8 =? 0xF0 then Some 4%nat
  else None.

Definition text_of (cps : list Z) : list Z := cps ≫= encode_utf8.
Arguments text_of : simpl never.

(** ** Bit operations as arithmetic *)

Lemma scalar_range c : scalar c -> 0 <= c <= 0x10FFFF.
Proof. unfold scalar, scalarb. intros H. bool_to_prop. lia. Qed.

Lemma scalar_not_surrogate c : scalar c -> ~ (0xD800 <= c <= 0xDFFF).
Proof.
  unfold scalar, scalarb. intros H. bool_to_prop.
  match goal with H : andb _ _ = false |- _ => apply andb_false_iff in H as [H|H] end;
    bool_to_prop; lia.
Qed.

Lemma scalar_intro c : 0 <= c <= 0x10FFFF -> ~ (0xD800 <= c <= 0xDFFF) -> scalar c.
Proof.
  intros Hr Hs. unfold scalar, scalarb.
  rewrite !andb_true_iff, negb_true_iff, andb_false_iff, !Z.leb_le, !Z.leb_gt. lia.
Qed.

Lemma land_low z n : 0 <= n -> Z.land z (Z.ones n) = z `mod` 2 ^ n.
Proof. apply Z.land_ones. Qed.

(** [a << n | b] when [b] fits in the low [n] bits. *)
Lemma lor_shift a b n : 0 <= n -> 0 <= b < 2 ^ n -> Z.lor (Z.shiftl a n) b = a * 2 ^ n + b.
Proof.
  intros Hn Hb. rewrite <- (Z.shiftl_mul_pow2 a n Hn), <- Z.add_lor_land.
  replace (Z.land (Z.shiftl a n) b) with 0; [lia|].
  symmetry. apply Z.bits_inj'. intros i Hi. rewrite Z.land_spec, Z.bits_0.
  destruct (Z.lt_ge_cases i n).
  - by rewrite Z.shiftl_spec_low.
  - rewrite <- (Z.mod_small b (2 ^ n)), Z.mod_pow2_bits_high by lia. apply andb_false_r.
Qed.

(** A continuation byte from its six payload bits, and back. *)
Lemma cont_payload x : 0 <= x < 64 ->
  uint8 (Z.lor 0x80 x) = 128 + x /\ Z.land (128 + x) 0x3F = x /\ is_cont (128 + x) = true.
Proof.
  intros Hx.
  assert (((uint8 (Z.lor 0x80 x) =? 128 + x) && (Z.land (128 + x) 0x3F =? x)
           && is_cont (128 + x))%bool = true) as H.
  { revert x Hx. apply (range_forallb 64
      (fun x => (uint8 (Z.lor 0x80 x) =? 128 + x) && (Z.land (128 + x) 0x3F =? x)
           && is_cont (128 + x))%bool). reflexivity. }
  bool_to_prop. auto.
Qed.

(** Lead bytes of two, three and four byte sequences. *)
Lemma lead_payload (x : Z) :
  (0 <= x < 32 -> uint8 (Z.lor 0xC0 x) = 192 + x /\ Z.land (192 + x) 0x1F = x) /\
  (0 <= x < 16 -> uint8 (Z.lor 0xE0 x) = 224 + x /\ Z.land (224 + x) 0x0F = x) /\
  (0 <= x < 8 -> uint8 (Z.lor 0xF0 x) = 240 + x /\ Z.land (240 + x) 0x07 = x).
Proof.
  split_and!; intros Hx.
  - assert (((uint8 (Z.lor 0xC0 x) =? 192 + x) && (Z.land (192 + x) 0x1F =? x))%bool = true).
    { revert x Hx. apply (range_forallb 32 (fun x =>
        (uint8 (Z.lor 0xC0 x) =? 192 + x) && (Z.land (192 + x) 0x1F =? x))%bool). done. }
    bool_to_prop; auto.
  - assert (((uint8 (Z.lor 0xE0 x) =? 224 + x) && (Z.land (224 + x) 0x0F =? x))%bool = true).
    { revert x Hx. apply (range_forallb 16 (fun x =>
        (uint8 (Z.lor 0xE0 x) =? 224 + x) && (Z.land (224 + x) 0x0F =? x))%bool). done. }
    bool_to_prop; auto.
  - assert (((uint8 (Z.lor 0xF0 x) =? 240 + x) && (Z.land (240 + x) 0x07 =? x))%bool = true).
    { revert x Hx. apply (range_forallb 8 (fun x =>
        (uint8 (Z.lor 0xF0 x) =? 240 + x) && (Z.land (240 + x) 0x07 =? x))%bool). done. }
    bool_to_prop; auto.
Qed.

(** The encoder in arithmetic form, one clause per sequence length. *)
Inductive encodes : Z -> list Z -> Prop :=
| enc1 c : 0 <= c < 128 -> encodes c [c]
| enc2 c a b : 2 <= a < 32 -> 0 <= b < 64 -> c = a * 64 + b -> encodes c [192 + a; 128 + b]
| enc3 c a b d : 0 <= a < 16 -> 0 <= b < 64 -> 0 <= d < 64 ->
    c = a * 4096 + b * 64 + d -> 2048 <= c -> encodes c [224 + a; 128 + b; 128 + d]
| enc4 c a b d e : 0 <= a < 5 -> 0 <= b < 64 -> 0 <= d < 64 -> 0 <= e < 64 ->
    c = a * 262144 + b * 4096 + d * 64 + e -> 65536 <= c <= 0x10FFFF ->
    encodes c [240 + a; 128 + b; 128 + d; 128 + e].

Lemma encode_utf8_encodes c : 0 <= c <= 0x10FFFF -> encodes c (encode_utf8 c).
Proof.
  intros Hc. unfold encode_utf8.
  change 0x3F with (Z.ones 6). rewrite !land_low, !Z.shiftr_div_pow2 by lia.
  change (2 ^ 6) with 64. change (2 ^ 12) with 4096. change (2 ^ 18) with 262144.
  pose proof (Z.mod_pos_bound c 64). pose proof (Z.mod_pos_bound (c / 64) 64).
  pose proof (Z.mod_pos_bound (c / 4096) 64).
  rewrite !(fun x H => proj1 (cont_payload x H)) by lia.
  destruct (Z.leb_spec c 0x7F).
  { replace (uint8 c) with c by (unfold uint8; rewrite Z.mod_small; lia). constructor. lia. }
  destruct (Z.leb_spec c 0x7FF).
  { destruct (proj1 (lead_payload (c / 64))) as [-> _]; [div_lia|].
    constructor; div_lia. }
  destruct (Z.leb_spec c 0xFFFF).
  { destruct (proj1 (proj2 (lead_payload (c / 4096)))) as [-> _]; [div_lia|].
    constructor; div_lia. }
  destruct (Z.leb_spec c 0x10FFFF); [|lia].
  destruct (proj2 (proj2 (lead_payload (c / 262144)))) as [-> _]; [div_lia|].
  constructor; div_lia.
Qed.

(** ** The decoder inverts the encoder *)

Definition multibyte (c : Z) : Prop := scalar c /\ 128 <= c.

Ltac payloads :=
  rewrite ?(fun x H => proj1 (proj2 (cont_payload x H)))
    by lia.

(** Nested [lor] of shifted six-bit groups. *)
Lemma lor_shift2 a b d : 0 <= b < 64 -> 0 <= d < 64 ->
  Z.lor (Z.lor (Z.shiftl a 12) (Z.shiftl b 6)) d = a * 4096 + b * 64 + d.
Proof.
  intros Hb Hd. rewrite <- Z.lor_assoc, (lor_shift b d 6) by lia.
  rewrite lor_shift by (change (2 ^ 6) with 64; change (2 ^ 12) with 4096; lia). lia.
Qed.

Lemma lor_shift3 a b d e : 0 <= b < 64 -> 0 <= d < 64 -> 0 <= e < 64 ->
  Z.lor (Z.lor (Z.lor (Z.shiftl a 18) (Z.shiftl b 12)) (Z.shiftl d 6)) e
  = a * 262144 + b * 4096 + d * 64 + e.
Proof.
  intros Hb Hd He. rewrite <- !Z.lor_assoc, (Z.lor_assoc (Z.shiftl b 12)), lor_shift2 by lia.
  rewrite lor_shift by (change (2 ^ 18) with 262144; lia). lia.
Qed.

Ltac scalar_cases :=
  unfold scalarb; destruct_ifs; bool_to_prop; first [done | exfalso; lia].

Lemma scalarb_cases c : 0 <= c ->
  scalarb c = if ((0xD800 <=? c) && (c <=? 0xDFFF))%bool then false
              else if 0x10FFFF <? c then false else true.
Proof.
  intros Hc. unfold scalarb.
  destruct (Z.leb_spec 0 c), (Z.leb_spec c 0x10FFFF), (Z.leb_spec 0xD800 c),
    (Z.leb_spec c 0xDFFF), (Z.ltb_spec 0x10FFFF c); simpl; done || lia.
Qed.

Lemma decode_encodes c bs :
  encodes c bs -> 128 <= c ->
  decode_utf8_sequence bs = Ret (if scalarb c then c else replacement).
Proof.
  intros He Hc.
  destruct He as [c Hr|c a b Ha Hb ->|c a b d Ha Hb Hd -> Hlo|c a b d e Ha Hb Hd He -> Hlo];
    [lia|..]; unfold decode_utf8_sequence; cbn [length Nat.eqb andb];
    payloads; rewrite scalarb_cases by lia.
  - rewrite (proj2 (proj1 (lead_payload a) ltac:(lia))), lor_shift by lia. cbn [obind].
    change (2 ^ 6) with 64. rewrite (proj2 (Z.ltb_ge _ _)) by lia.
    by destruct_ifs.
  - rewrite (proj2 (proj1 (proj2 (lead_payload a)) Ha)), lor_shift2 by lia. cbn [obind].
    rewrite (proj2 (Z.ltb_ge _ _)) by lia. by destruct_ifs.
  - rewrite (proj2 (proj2 (proj2 (lead_payload a)) ltac:(lia))), lor_shift3 by lia.
    cbn [obind]. rewrite (proj2 (Z.ltb_ge _ 0x10000)) by lia. by destruct_ifs.
Qed.

(** Whatever the bytes, the decoder answers a scalar value. *)
Lemma decode_scalar bs c :
  decode_utf8_sequence bs = Ret c -> scalar c.
Proof.
  intros Hd. unfold decode_utf8_sequence in Hd.
  apply obind_Ret_inv in Hd as (z & Hz & Hd).
  assert (0 <= z) as Hz0.
  { destruct bs as [|b0 [|b1 [|b2 [|b3 [|]]]]]; simplify_eq;
      rewrite !Z.lor_nonneg, ?Z.shiftl_nonneg, !Z.land_nonneg;
      clear; split_and!; by right. }
  assert (scalar replacement) by done.
  destruct_ifs; simplify_eq; auto. unfold scalar. rewrite scalarb_cases by lia.
  destruct_ifs; congruence.
Qed.

Lemma encodes_scalar c : scalar c -> encodes c (encode_utf8 c).
Proof. intros H. apply encode_utf8_encodes, scalar_range, H. Qed.

(** ** Structure of encoded text *)

(** An encoded scalar value is one lead byte, whose class gives the length of
    the sequence, followed by continuation bytes. *)
Lemma encodes_shape c bs :
  encodes c bs ->
  exists lead conts, bs = lead :: conts /\ Forall (fun b => is_cont b = true) conts /\
    is_cont lead = false /\ lead_len lead = Some (length bs) /\ Forall is_byte bs.
Proof.
  intros He.
  assert (forall b, is_byte b -> (b < 128 -> is_cont b = false /\ lead_len b = Some 1%nat) /\
     (192 <= b < 224 -> is_cont b = false /\ lead_len b = Some 2%nat) /\
     (224 <= b < 240 -> is_cont b = false /\ lead_len b = Some 3%nat) /\
     (240 <= b < 248 -> is_cont b = false /\ lead_len b = Some 4%nat)) as Hlead.
  { intros b Hb.
    pose proof (byte_forallb (fun b =>
      bool_decide ((b < 128 -> is_cont b = false /\ lead_len b = Some 1%nat) /\
     (192 <= b /\ b < 224 -> is_cont b = false /\ lead_len b = Some 2%nat) /\
     (224 <= b /\ b < 240 -> is_cont b = false /\ lead_len b = Some 3%nat) /\
     (240 <= b /\ b < 248 -> is_cont b = false /\ lead_len b = Some 4%nat))) eq_refl b Hb) as H.
    by apply bool_decide_eq_true in H. }
  unfold is_byte in *.
  destruct He as [c Hr|c a b Ha Hb ->|c a b d Ha Hb Hd -> Hlo|c a b d e Ha Hb Hd He -> Hlo];
    do 2 eexists; (split; [reflexivity|]);
    match goal with |- _ /\ is_cont ?l = false /\ _ =>
      destruct (Hlead l ltac:(lia)) as (H1 & H2 & H3 & H4) end;
    first [destruct H1 as [-> ->]; [lia|] | destruct H2 as [-> ->]; [lia|]
          | destruct H3 as [-> ->]; [lia|] | destruct H4 as [-> ->]; [lia|]];
    (split_and!; [| done | done |]);
    repeat constructor; (apply cont_payload; lia) || lia.
Qed.

Lemma text_of_app l1 l2 : text_of (l1 ++ l2) = text_of l1 ++ text_of l2.
Proof. apply bind_app. Qed.

Lemma text_of_cons c l : text_of (c :: l) = encode_utf8 c ++ text_of l.
Proof. done. Qed.

Lemma text_of_one c : text_of [c] = encode_utf8 c.
Proof. by rewrite text_of_cons, app_nil_r. Qed.

Lemma text_of_snoc l c : text_of (l ++ [c]) = text_of l ++ encode_utf8 c.
Proof. by rewrite text_of_app, text_of_one. Qed.

Lemma text_of_bytes cps : Forall scalar cps -> Forall is_byte (text_of cps).
Proof.
  induction 1 as [|c cps Hc _ IH]; [constructor|]. rewrite text_of_cons. apply Forall_app.
  split; [|done]. by destruct (encodes_shape _ _ (encodes_scalar c Hc)) as (?&?&_&_&_&_&?).
Qed.

Lemma encode_length c : scalar c -> (1 <= length (encode_utf8 c) <= 4)%nat.
Proof. intros Hc. destruct (encodes_scalar c Hc); simpl; lia. Qed.

Lemma text_of_nil_inv cps : Forall scalar cps -> text_of cps = [] -> cps = [].
Proof.
  destruct 1 as [|c cps Hc _]; [done|]. rewrite text_of_cons. intros H.
  pose proof (encode_length c Hc). apply (f_equal length) in H. len_lia.
Qed.

Lemma length_text_of cps : Forall scalar cps -> (length cps <= length (text_of cps))%nat.
Proof.
  induction 1 as [|c cps Hc _ IH]; [done|]. rewrite text_of_cons.
  pose proof (encode_length c Hc). len_lia.
Qed.

(** A byte offset determines a position in a text. *)
Lemma text_length_inj pre post p q :
  pre ++ post = p ++ q -> Forall scalar (p ++ q) ->
  length (text_of pre) = length (text_of p) -> pre = p.
Proof.
  intros Heq Hs Hl. assert (Forall scalar pre) as Hpre
    by (rewrite <- Heq in Hs; by apply Forall_app in Hs as [? _]).
  apply Forall_app in Hs as [Hp _].
  assert (forall k, Forall scalar k -> length (text_of k) = O -> k = []) as Hnil.
  { intros k Hk Hz. apply text_of_nil_inv; [done|]. by apply length_zero_iff_nil. }
  apply app_eq_app in Heq as (k & [[-> _]|[-> _]]); rewrite text_of_app in Hl.
  - apply Forall_app in Hpre as [_ Hk]. rewrite (Hnil k Hk); [by rewrite app_nil_r|len_lia].
  - apply Forall_app in Hp as [_ Hk]. rewrite (Hnil k Hk); [by rewrite app_nil_r|len_lia].
Qed.

(** A byte below 128 appears in encoded text only as itself. *)
Lemma text_of_ascii cps b :
  Forall scalar cps -> 0 <= b < 128 -> b ∈ text_of cps -> b ∈ cps.
Proof.
  intros Hs Hb. induction Hs as [|c cps Hc _ IH]; [done|].
  rewrite text_of_cons, elem_of_app, elem_of_cons. intros [Hin|Hin]; [left|auto].
  destruct (encodes_scalar c Hc);
    repeat (apply elem_of_cons in Hin as [Hin|Hin]; [lia|]);
    by apply not_elem_of_nil in Hin.
Qed.
