(* ===== verification/Unicode.v ===== *)
(** * utf8proc (a parameter) and ANSI sequences (ansi.c)

    libutf8proc is not part of the repository: decoding, grapheme breaks and
    character widths are the class [Utf8proc], their documented behaviour is
    [Utf8procSpec].  [RefUnicode] is a concrete instance. *)

From S2P Require Import Prelude Utf8.

Local Open Scope Z_scope.

(** ** libutf8proc *)

(** [utf8proc_iterate s] is (bytes read, code point) for the bytes [s] still
    to be read; a result that is not positive is an error. *)
Class Utf8proc := {
  utf8proc_iterate : list Z -> Z * Z;
  utf8proc_grapheme_break : Z -> Z -> bool;
  utf8proc_charwidth : Z -> Z
}.

(** "Reads a single codepoint from the UTF-8 sequence": a valid sequence is
    decoded, and no more bytes are read than there are. *)
Class Utf8procSpec `{Utf8proc} : Prop := {
  iterate_valid c rest : scalar c ->
    utf8proc_iterate (encode_utf8 c ++ rest) = (Z.of_nat (length (encode_utf8 c)), c);
  iterate_bound s : fst (utf8proc_iterate s) <= Z.of_nat (length s)
}.

(** ** ansi.c *)

(** The byte at [i]; the callers only read below the text length. *)
Definition byte_at (text : list Z) (i : nat) : Z := default 0 (text !! i).

(** The scan after ESC [: parameter and intermediate bytes, then a terminal. *)
Fixpoint csi_scan (fuel : nat) (text : list Z) (len pos i : nat) : nat :=
  match fuel with
  | O => O
  | S fuel =>
      if (i <? len)%nat then
        let c := byte_at text i in
        if ((0x30 <=? c) && (c <=? 0x3F)) || ((0x20 <=? c) && (c <=? 0x2F))
        then csi_scan fuel text len pos (S i)
        else if (0x40 <=? c) && (c <=? 0x7E) then (i + 1 - pos)%nat
        else O
      else O
  end.

Definition ik_ansi_skip_csi (text : list Z) (len pos : nat) : nat :=
  if (len <=? pos + 1)%nat then O
  else if negb (byte_at text pos =? 0x1B) || negb (byte_at text (pos + 1) =? 0x5B) then O
  else csi_scan (S len) text len pos (pos + 2).

(** A CSI sequence skips at least three bytes and never past the end. *)
Lemma csi_scan_bound fuel text len pos i :
  (pos + 2 <= i)%nat -> (csi_scan fuel text len pos i = 0 \/
    (3 <= csi_scan fuel text len pos i /\ pos + csi_scan fuel text len pos i <= len))%nat.
Proof.
  revert i. induction fuel as [|fuel IH]; intros i Hi; simpl; [lia|].
  destruct (Nat.ltb_spec i len); [|lia].
  destruct_ifs; [apply IH; lia | lia | lia].
Qed.

Lemma skip_csi_bound text len pos :
  (ik_ansi_skip_csi text len pos = 0 \/
   (3 <= ik_ansi_skip_csi text len pos /\ pos + ik_ansi_skip_csi text len pos <= len))%nat.
Proof.
  unfold ik_ansi_skip_csi. destruct_ifs; try lia. apply csi_scan_bound. lia.
Qed.

(** ** Texts as glyphs

    Every loop over terminal text advances the same way: over a whole CSI
    sequence, over one byte that does not decode, or over one code point.
    [glyphs] is that decomposition; the loops are folds over it. *)

Inductive glyph : Set :=
| Csi
| Bad
| Cp (codepoint : Z).

#[export] Instance glyph_eq_dec : EqDecision glyph.
Proof. solve_decision. Defined.

Section glyphs.
Context `{Utf8proc}.

(** The glyph at [pos] and the number of bytes it takes. *)
Definition glyph_at (text : list Z) (len pos : nat) : glyph * nat :=
  let skip := ik_ansi_skip_csi text len pos in
  if (0 <? skip)%nat then (Csi, skip)
  else
    let '(bytes, cp) := utf8proc_iterate (drop pos text) in
    if bytes <=? 0 then (Bad, 1%nat) else (Cp cp, Z.to_nat bytes).

Fixpoint glyphs (fuel : nat) (text : list Z) (len pos : nat) : list glyph :=
  match fuel with
  | O => []
  | S fuel =>
      if (pos <? len)%nat then
        let '(g, n) := glyph_at text len pos in g :: glyphs fuel text len (pos + n)
      else []
  end.

Definition glyphs_of (text : list Z) : list glyph :=
  glyphs (S (length text)) text (length text) 0.

Lemma glyph_at_advances text len pos : (0 < snd (glyph_at text len pos))%nat.
Proof.
  unfold glyph_at. destruct (Nat.ltb_spec 0 (ik_ansi_skip_csi text len pos)); [done|].
  destruct (utf8proc_iterate _) as [bytes cp]. destruct (Z.leb_spec bytes 0); simpl; lia.
Qed.

(** A text without ESC is its code points. *)
Lemma byte_at_not_esc pre c cps :
  Forall scalar (c :: cps) -> 27 ∉ c :: cps ->
  byte_at (text_of pre ++ text_of (c :: cps)) (length (text_of pre)) <> 27.
Proof.
  intros Hs Hn. unfold byte_at. rewrite lookup_app_r, Nat.sub_diag by done.
  destruct (text_of (c :: cps)) as [|b t] eqn:E; [done|]. simpl. intros ->.
  apply Hn, (text_of_ascii (c :: cps) 27); [done|lia|]. rewrite E. set_solver.
Qed.

Lemma skip_csi_not_esc text len pos : byte_at text pos <> 27 -> ik_ansi_skip_csi text len pos = O.
Proof.
  intros Hn. unfold ik_ansi_skip_csi. destruct (Nat.leb_spec len (pos + 1)); [done|].
  by rewrite (proj2 (Z.eqb_neq _ _) Hn).
Qed.

Context `{!Utf8procSpec}.

Lemma glyphs_text pre cps fuel :
  Forall scalar cps -> 27 ∉ cps -> (length cps < fuel)%nat ->
  glyphs fuel (text_of pre ++ text_of cps) (length (text_of (pre ++ cps)))
    (length (text_of pre)) = Cp <$> cps.
Proof.
  revert pre fuel. induction cps as [|c cps IH]; intros pre fuel Hs Hn Hf;
    (destruct fuel as [|fuel]; [simpl in Hf; lia|]); cbn [glyphs].
  - by rewrite app_nil_r, Nat.ltb_irrefl.
  - pose proof (byte_at_not_esc pre c cps Hs Hn) as Hne.
    apply Forall_cons in Hs as [Hc Hs]. pose proof (encode_length c Hc) as Hl.
    rewrite (proj2 (Nat.ltb_lt _ _)) by (rewrite text_of_app, text_of_cons; len_lia).
    unfold glyph_at. rewrite skip_csi_not_esc by done. cbn [Nat.ltb Nat.leb].
    rewrite drop_app_length, text_of_cons, iterate_valid by done.
    rewrite (proj2 (Z.leb_gt _ _)) by lia. rewrite Nat2Z.id. cbn [fmap list_fmap]. f_equal.
    specialize (IH (pre ++ [c]) fuel Hs).
    rewrite text_of_app, length_app, text_of_one, <- !app_assoc in IH. cbn [app] in IH.
    apply IH; [set_solver|simpl in Hf; lia].
Qed.

Lemma glyphs_of_text cps :
  Forall scalar cps -> 27 ∉ cps -> glyphs_of (text_of cps) = Cp <$> cps.
Proof.
  intros Hs Hn. pose proof (length_text_of cps Hs).
  apply (glyphs_text [] cps (S (length (text_of cps)))); [done..|lia].
Qed.

(** A loop that handles one glyph per step. *)
Lemma glyphs_more fuel1 fuel2 text len pos :
  (len - pos < fuel1)%nat -> (len - pos < fuel2)%nat ->
  glyphs fuel1 text len pos = glyphs fuel2 text len pos.
Proof.
  revert fuel2 pos. induction fuel1 as [|fuel1 IH]; intros [|fuel2] pos H1 H2; try lia.
  cbn [glyphs]. destruct (Nat.ltb_spec pos len); [|done].
  pose proof (glyph_at_advances text len pos) as Ha.
  destruct (glyph_at text len pos) as [g n]. simpl in Ha. f_equal. apply IH; lia.
Qed.

End glyphs.

(** ** A concrete instance of the parameter *)

Module RefUnicode.

Definition ref_iterate (s : list Z) : Z * Z :=
  match s with
  | [] => (0, -1)
  | b :: _ =>
      match lead_len b with
      | Some 1%nat => (1, b)
      | Some n =>
          if (length s <? n)%nat then (-3, -1) else
          match decode_utf8_sequence (take n s) with
          | Ret c => if decide (encode_utf8 c = take n s)
                     then (Z.of_nat n, c) else (-3, -1)
          | _ => (-3, -1)
          end
      | None => (-3, -1)
      end
  end.

(** Combining marks U+0300..U+036F extend the grapheme before them; CJK
    ideographs are two columns wide; control characters have no width. *)
Definition ref_break (a b : Z) : bool := negb ((0x300 <=? b) && (b <=? 0x36F)).
Definition ref_width (c : Z) : Z :=
  if c <? 32 then 0
  else if (0x300 <=? c) && (c <=? 0x36F) then 0
  else if (0x4E00 <=? c) && (c <=? 0x9FFF) then 2 else 1.

#[export] Instance ref_utf8proc : Utf8proc := {
  utf8proc_iterate := ref_iterate;
  utf8proc_grapheme_break := ref_break;
  utf8proc_charwidth := ref_width
}.

#[export] Instance ref_utf8proc_spec : Utf8procSpec.
Proof.
  constructor.
  - intros c rest Hc. cbn [utf8proc_iterate ref_utf8proc]. unfold ref_iterate.
    pose proof (encodes_scalar c Hc) as He.
    destruct (encodes_shape _ _ He) as (l & conts & Hs & _ & _ & Hl & _).
    assert (128 <= c -> decode_utf8_sequence (encode_utf8 c) = Ret c) as Hd.
    { intros. rewrite (decode_encodes c _ He) by lia. by rewrite Hc. }
    rewrite Hs in *. rewrite <- app_comm_cons, Hl, app_comm_cons.
    pose proof (take_app_length (l :: conts) rest) as Ht.
    destruct (length (l :: conts)) as [|[|n]] eqn:Hn; [done| |].
    + inversion He; subst; simpl in Hn; try lia. done.
    + rewrite Ht, Hd by (inversion He; subst; simpl in Hn; lia).
      rewrite (proj2 (Nat.ltb_ge _ _)) by len_lia. by rewrite decide_True.
  - intros s. simpl. unfold ref_iterate. destruct s as [|b s]; [simpl; lia|].
    destruct (lead_len b) as [[|[|n]]|] eqn:Hl; try (simpl; lia).
    destruct (Nat.ltb_spec (length (b :: s)) (S (S n))); [simpl; lia|].
    destruct (decode_utf8_sequence _) eqn:Hd; try (simpl; lia).
    case_decide as He; unfold fst; lia.
Qed.

End RefUnicode.
