(* ===== verification/Json.v ===== *)
(** * JSON values (the interface of vendor/yyjson)

    A parsed or built yyjson document is a tree; the accessors return what the
    library documents, on values that can be absent ([NULL]).  Reading and
    writing the text are parameters ([Yyjson]) with the documented laws
    ([YyjsonSpec]). *)

From Stdlib Require Import String.
From stdpp Require Import strings countable.
From S2P Require Import Prelude CString Utf8.

(** A real number is its 64-bit pattern. *)
Inductive json : Type :=
| JNull
| JBool (b : bool)
| JInt (z : Z)
| JReal (bits : Z)
| JStr (s : list Z)
| JArr (elements : list json)
| JObj (fields : list (list Z * json)).

(** ** Accessors *)

(** The first field with the key; keys may be repeated. *)
Definition find_field (fields : list (list Z * json)) (k : cstr) : option json :=
  snd <$> List.find (fun f => bool_decide (fst f = k)) fields.

Definition yyjson_obj_get (v : option json) (k : cstr) : option json :=
  match v with Some (JObj fields) => find_field fields k | _ => None end.

Definition yyjson_is_obj (v : option json) : bool :=
  match v with Some (JObj _) => true | _ => false end.
Definition yyjson_is_arr (v : option json) : bool :=
  match v with Some (JArr _) => true | _ => false end.
Definition yyjson_is_str (v : option json) : bool :=
  match v with Some (JStr _) => true | _ => false end.
Definition yyjson_is_int (v : option json) : bool :=
  match v with Some (JInt _) => true | _ => false end.

(** The pointer to the bytes, read as a C string. *)
Definition yyjson_get_str (v : option json) : option cstr :=
  match v with Some (JStr s) => Some (until_nul s) | _ => None end.
Definition yyjson_get_bool (v : option json) : bool :=
  match v with Some (JBool b) => b | _ => false end.
(** An integer of up to 64 bits converted to int. *)
Definition yyjson_get_int (v : option json) : Z :=
  match v with Some (JInt z) => int32_wrap z | _ => 0%Z end.

(** The content of an integer as int64_t. *)
Definition yyjson_get_sint (v : option json) : Z :=
  match v with Some (JInt z) => (z + 2 ^ 63) `mod` 2 ^ 64 - 2 ^ 63 | _ => 0 end%Z.
Definition yyjson_is_bool (v : option json) : bool :=
  match v with Some (JBool _) => true | _ => false end.
Definition yyjson_is_null (v : option json) : bool :=
  match v with Some JNull => true | _ => false end.
Definition yyjson_get_real (v : option json) : Z :=
  match v with Some (JReal bits) => bits | _ => 0%Z end.
Definition yyjson_is_real (v : option json) : bool :=
  match v with Some (JReal _) => true | _ => false end.
(** The length of a string, NUL bytes included. *)
Definition yyjson_get_len (v : option json) : nat :=
  match v with Some (JStr s) => length s | _ => 0 end.
Definition yyjson_obj_fields (v : option json) : list (list Z * json) :=
  match v with Some (JObj fs) => fs | _ => [] end.

Definition yyjson_arr_elements (v : option json) : list json :=
  match v with Some (JArr l) => l | _ => [] end.
Definition yyjson_arr_size (v : option json) : nat := length (yyjson_arr_elements v).
Definition yyjson_arr_get (v : option json) (i : nat) : option json := yyjson_arr_elements v !! i.

(** ** Builders: an object is built by adding fields at its end.

    A [NULL] string is not added. *)

Definition obj_add_val (o : list (list Z * json)) (k : cstr) (v : json) : list (list Z * json) :=
  o ++ [(k, v)].
Definition obj_add_str (o : list (list Z * json)) (k : cstr) (s : option cstr) : list (list Z * json) :=
  match s with Some s => o ++ [(k, JStr s)] | None => o end.

(** The result of adding a string: [None] for a [NULL] string. *)
Definition yyjson_mut_obj_add_str (o : list (list Z * json)) (k : cstr) (s : option cstr)
  : option (list (list Z * json)) :=
  match s with Some s => Some (o ++ [(k, JStr s)]) | None => None end.

(** All fields with the key are removed. *)
Definition obj_remove_key (o : list (list Z * json)) (k : cstr) : list (list Z * json) :=
  filter (fun f => fst f <> k) o.

(** ** Text *)

Class Yyjson := {
  yyjson_read : cstr -> option json;
  yyjson_write : json -> option cstr
}.

Definition is_utf8 (s : list Z) : Prop := exists cps, Forall scalar cps /\ s = text_of cps.

(** Values the writer accepts: strings are UTF-8, integers have 64 bits. *)
Inductive writable : json -> Prop :=
| writable_null : writable JNull
| writable_bool b : writable (JBool b)
| writable_int z : (- 2 ^ 63 <= z < 2 ^ 64)%Z -> writable (JInt z)
| writable_str s : is_utf8 s -> writable (JStr s)
| writable_arr l : Forall writable l -> writable (JArr l)
| writable_obj fs :
    Forall (fun f : list Z * json => is_utf8 (fst f) /\ writable (snd f)) fs -> writable (JObj fs).

(** The compact text of a value: it reads back as the value, and control
    characters are escaped. *)
Class YyjsonSpec `{Yyjson} : Prop := {
  write_some j : writable j -> is_Some (yyjson_write j);
  write_read j s : yyjson_write j = Some s -> yyjson_read s = Some j;
  write_printable j s : yyjson_write j = Some s -> Forall (fun b => (32 <= b < 256)%Z) s;
  read_empty_object : yyjson_read (lit "{}") = Some (JObj []);
  read_done_marker : yyjson_read (lit "[DONE]") = None;
  read_nothing : yyjson_read [] = None
}.

(** ** Lemmas *)

Lemma get_str_lit v s : v = Some (JStr s) -> (0%Z ∉ s) -> yyjson_get_str v = Some s.
Proof. intros -> Hs. unfold yyjson_get_str. by rewrite until_nul_id. Qed.

Lemma ascii_utf8 s : Forall (fun b => (0 <= b < 128)%Z) s -> is_utf8 s.
Proof.
  intros Hs. exists s. split.
  - eapply Forall_impl; [exact Hs|]. intros b Hb. cbn beta in Hb. unfold scalar, scalarb.
    rewrite !andb_true_iff, negb_true_iff, andb_false_iff, !Z.leb_le, !Z.leb_gt.
    lia.
  - induction Hs as [|b s Hb _ IH]; [done|]. unfold text_of in *. cbn [mbind list_bind].
    rewrite <- IH. unfold encode_utf8. rewrite (proj2 (Z.leb_le _ _)) by lia.
    unfold uint8. by rewrite Z.mod_small by lia.
Qed.

Lemma lit_utf8 s : forallb (fun b => (b <? 128)%Z) (lit s) = true -> is_utf8 (lit s).
Proof.
  intros Hb. apply ascii_utf8, Forall_forall. intros b Hi.
  rewrite forallb_forall in Hb. pose proof (Hb b (proj1 (list_elem_of_In _ _) Hi)) as Hlt.
  apply Z.ltb_lt in Hlt. split; [|done].
  unfold lit in Hi. apply list_elem_of_fmap in Hi as (a & -> & _). lia.
Qed.

Lemma printable_no_nul s : Forall (fun b => (32 <= b < 256)%Z) s -> (0%Z ∉ s).
Proof. intros Hs Hi. rewrite Forall_forall in Hs. apply Hs in Hi. lia. Qed.

(** ** A concrete writer

    Values are numbered, and the text of a value is its number in binary, with
    the leading 1 in front; the text "{}" is the empty object. *)

Module CodedJson.

Fixpoint to_tree (j : json) : gen_tree (Z + list Z) :=
  match j with
  | JNull => GenNode 0 []
  | JBool b => GenNode 1 [GenLeaf (inl (if b then 1%Z else 0%Z))]
  | JInt z => GenNode 2 [GenLeaf (inl z)]
  | JReal z => GenNode 3 [GenLeaf (inl z)]
  | JStr s => GenNode 4 [GenLeaf (inr s)]
  | JArr l => GenNode 5 (to_tree <$> l)
  | JObj fs => GenNode 6 ((fun f => GenNode 7 [GenLeaf (inr (fst f)); to_tree (snd f)]) <$> fs)
  end.

Fixpoint of_tree (t : gen_tree (Z + list Z)) : json :=
  match t with
  | GenNode 1 [GenLeaf (inl z)] => JBool (z =? 1)%Z
  | GenNode 2 [GenLeaf (inl z)] => JInt z
  | GenNode 3 [GenLeaf (inl z)] => JReal z
  | GenNode 4 [GenLeaf (inr s)] => JStr s
  | GenNode 5 ts => JArr (of_tree <$> ts)
  | GenNode 6 ts =>
      JObj ((fun t => match t with
                      | GenNode _ [GenLeaf (inr k); v] => (k, of_tree v)
                      | _ => ([], JNull)
                      end) <$> ts)
  | _ => JNull
  end.

Fixpoint of_to_tree (j : json) : of_tree (to_tree j) = j.
Proof.
  destruct j as [|b|z|z|s|l|fs]; cbn [to_tree of_tree]; try reflexivity.
  - by destruct b.
  - f_equal. induction l as [|j l IH]; [reflexivity|]. cbn [fmap list_fmap]. by rewrite of_to_tree, IH.
  - f_equal. induction fs as [|[k v] fs IH]; [reflexivity|]. cbn [fmap list_fmap fst snd].
    by rewrite of_to_tree, IH.
Qed.

(** The binary digits of a positive number, lowest first. *)
Fixpoint digits (p : positive) : list Z :=
  match p with xH => [] | xO p => 48%Z :: digits p | xI p => 49%Z :: digits p end.
Fixpoint undigits (s : list Z) : positive :=
  match s with
  | [] => xH
  | b :: s => if (b =? 48)%Z then xO (undigits s) else xI (undigits s)
  end.

Lemma undigits_digits p : undigits (digits p) = p.
Proof. induction p; simpl; by f_equal. Qed.

#[export] Instance coded_json : Yyjson := {
  yyjson_read s :=
    if bool_decide (s = lit "{}") then Some (JObj [])
    else
      match s with
      | b :: s =>
          if (b =? 49)%Z && forallb (fun b => (b =? 48)%Z || (b =? 49)%Z) s then of_tree <$> decode (undigits s)
          else None
      | [] => None
      end;
  yyjson_write j := Some (49%Z :: digits (encode (to_tree j)))
}.

Lemma digits_binary p : forallb (fun b => (b =? 48)%Z || (b =? 49)%Z) (digits p) = true.
Proof. induction p; done. Qed.

Lemma digits_printable p : Forall (fun b => (32 <= b < 256)%Z) (digits p).
Proof. induction p; simpl; constructor; (lia || done). Qed.

#[export] Instance coded_json_spec : YyjsonSpec.
Proof.
  constructor; cbn [yyjson_read yyjson_write coded_json].
  - intros j _. by eexists.
  - intros j s [= <-]. rewrite bool_decide_eq_false_2 by done. cbn [Z.eqb Pos.eqb andb].
    rewrite digits_binary, undigits_digits, decode_encode. cbn [fmap option_fmap option_map]. by rewrite of_to_tree.
  - intros j s [= <-]. constructor; [lia|apply digits_printable].
  - by rewrite bool_decide_eq_true_2.
  - done.
  - done.
Qed.

End CodedJson.
