(* ===== verification/OutputStyle.v ===== *)
(** * Output styles (output_style.h, ansi.c) and the screen interface

    Prefixes and colours of the output categories, the escape sequences that
    select them, and what the renderers need of a scrollback ([Screen]). *)

From Stdlib Require Import String.
From stdpp Require Import strings.
From S2P Require Import Prelude CString.

(** ** output_style.h *)

Inductive ik_output_category : Set :=
| IK_OUTPUT_USER_INPUT
| IK_OUTPUT_MODEL_TEXT
| IK_OUTPUT_TOOL_REQUEST
| IK_OUTPUT_TOOL_RESPONSE
| IK_OUTPUT_WARNING
| IK_OUTPUT_SLASH_CMD
| IK_OUTPUT_SLASH_OUTPUT
| IK_OUTPUT_SYSTEM_PROMPT
| IK_OUTPUT_CANCELLED.

(** The UTF-8 bytes of the prefix symbols. *)
Definition ik_output_prefix (c : ik_output_category) : option cstr :=
  match c with
  | IK_OUTPUT_USER_INPUT => Some [0xE2; 0x9D; 0xAF]%Z
  | IK_OUTPUT_MODEL_TEXT => Some [0xE2; 0x97; 0x8F]%Z
  | IK_OUTPUT_TOOL_REQUEST => Some [0xE2; 0x86; 0x92]%Z
  | IK_OUTPUT_TOOL_RESPONSE => Some [0xE2; 0x86; 0x90]%Z
  | IK_OUTPUT_WARNING => Some [0xE2; 0x9A; 0xA0]%Z
  | IK_OUTPUT_CANCELLED => Some [0xE2; 0x9C; 0x97]%Z
  | IK_OUTPUT_SLASH_CMD | IK_OUTPUT_SLASH_OUTPUT | IK_OUTPUT_SYSTEM_PROMPT => None
  end.

Definition ik_output_color (c : ik_output_category) : Z :=
  match c with
  | IK_OUTPUT_USER_INPUT | IK_OUTPUT_MODEL_TEXT => -1
  | IK_OUTPUT_WARNING => 179
  | IK_OUTPUT_SYSTEM_PROMPT => 153
  | IK_OUTPUT_TOOL_REQUEST | IK_OUTPUT_TOOL_RESPONSE | IK_OUTPUT_SLASH_CMD
  | IK_OUTPUT_SLASH_OUTPUT | IK_OUTPUT_CANCELLED => 242
  end.

(** ** ansi.c *)

Definition IK_ANSI_RESET : cstr := 0x1B%Z :: lit "[0m".
Definition IK_ANSI_GRAY_SUBDUED : Z := 242.
Definition IK_ANSI_GRAY_LIGHT : Z := 249.

(** What the buffer holds and the value returned. *)
Definition ik_ansi_fg_256 (buf_size : nat) (color : Z) : cstr * nat :=
  let s := (0x1B%Z :: lit "[38;5;") ++ show_int color ++ lit "m" in
  (snprintf buf_size s, if (buf_size <=? length s)%nat then 0 else length s).

(** The environment variables decide whether colours are used. *)
Definition ik_ansi_init (no_color term : option cstr) : bool :=
  match no_color with
  | Some _ => false
  | None => match term with Some t => negb (strcmp_eq t (lit "dumb")) | None => true end
  end.

(** The global variable g_colors_enabled. *)
Class AnsiColors := g_colors_enabled : bool.

Definition ik_ansi_colors_enabled `{AnsiColors} : bool := g_colors_enabled.

(** ** The screen *)

(** The scrollback of an agent, as its renderers use it. *)
Class Screen := {
  screen : Type;
  screen_clear : screen -> screen;
  screen_append : screen -> cstr -> outcome screen
}.

Class ScreenSpec `{Screen} : Prop := {
  screen_append_some s text : exists s', screen_append s text = Ret s'
}.

(** A call whose result is not looked at: on an error the screen is as before. *)
Definition keep_on_error {A} (old : A) (m : outcome A) : outcome A :=
  match m with Fail _ => Ret old | m => m end.

Lemma append_keep `{ScreenSpec} s text : exists s', keep_on_error s (screen_append s text) = Ret s'.
Proof. destruct (screen_append_some s text) as [s' ->]. by exists s'. Qed.

(** A screen that is the list of its lines. *)
Module ListScreen.

#[export] Instance list_screen : Screen := {
  screen := list cstr;
  screen_clear _ := [];
  screen_append s text := Ret (s ++ [text])
}.

#[export] Instance list_screen_spec : ScreenSpec.
Proof. constructor. intros s text. by eexists. Qed.

End ListScreen.
