(* ===== verification/Format.v ===== *)
(** * Formatted output (format.c)

    The format buffer over a byte vector, the display forms of tool calls and
    tool results, and their truncation to three lines or 400 bytes.
    [FormatProps] bounds what is displayed and shows two places where the code
    does not do what it means to. *)

From Stdlib Require Import String.
From stdpp Require Import strings.
From S2P Require Import Prelude CString ByteArray Json OutputStyle.

(** "%g" of a double. *)
Class Printf := fmt_g : Z -> cstr.

(** A tool call (tool.h). *)
Record ik_tool_call := mk_tool_call {
  tc_id : cstr;
  tc_name : cstr;
  tc_arguments : option cstr
}.

(** tool_call.c: the three strings must not be NULL. *)
Definition ik_tool_call_create (id name arguments : option cstr) : outcome ik_tool_call :=
  match id, name, arguments with
  | Some id, Some name, Some arguments => Ret (mk_tool_call id name (Some arguments))
  | _, _, _ => Panic
  end.

(** "if (is_err(&res)) PANIC(...)" *)
Definition or_die {A} (m : outcome A) : outcome A :=
  match m with Fail _ => Panic | m => m end.

Section format.
Context {T : Type} `{!ByteStore T} `{!Yyjson} `{!Printf}.

Definition ik_format_buffer_create : outcome T := or_die (bs_create 32).

Fixpoint append_bytes (buf : T) (s : list Z) : outcome T :=
  match s with
  | [] => Ret buf
  | b :: s => let! buf := or_die (bs_append buf b) in append_bytes buf s
  end.

(** [s] is what vsnprintf makes of the format: it fails on more than INT_MAX
    bytes. *)
Definition ik_format_appendf (buf : T) (s : cstr) : outcome T :=
  if (Z.of_nat (length s) <? 2 ^ 31)%Z then append_bytes buf s else Fail ERR_IO.

Definition ik_format_append (buf : T) (str : cstr) : outcome T := append_bytes buf str.

Definition ik_format_indent (buf : T) (indent : nat) : outcome T :=
  append_bytes buf (replicate indent 32%Z).

(** The byte at [i] of the buffer's data. *)
Definition data_at (buf : T) (i : nat) : outcome Z :=
  match bs_ptr buf with
  | Some d => match d !! i with Some b => Ret b | None => Undef end
  | None => Undef
  end.

(** "len > 0 && ik_byte_array_get(array, len - 1) == 0" *)
Definition terminated (buf : T) : outcome bool :=
  if (0 <? bs_size buf)%nat
  then let! b := data_at buf (bs_size buf - 1) in Ret (b =? 0)%Z
  else Ret false.

(** The C string at the returned pointer. *)
Definition ik_format_get_string (buf : T) : outcome cstr :=
  let! t := terminated buf in
  let! buf := if t then Ret buf else or_die (bs_append buf 0%Z) in
  match bs_ptr buf with Some d => c_string d | None => Undef end.

Definition ik_format_get_length (buf : T) : outcome nat :=
  let! t := terminated buf in
  Ret (if t then bs_size buf - 1 else bs_size buf).

(** The byte at [i] of a string's block: the string and its terminator. *)
Definition str_at (s : cstr) (i : nat) : outcome Z :=
  match (s ++ [0%Z]) !! i with Some b => Ret b | None => Undef end.

(** The loop over the content: where to cut it, if anywhere. *)
Fixpoint truncate_loop (content : cstr) (n i line_count char_count : nat) : outcome (option nat) :=
  match n with
  | 0 => Ret None
  | S n =>
      let char_count := S char_count in
      let! c := str_at content i in
      let line_count' := if (c =? 10)%Z then S line_count else line_count in
      if (c =? 10)%Z && (3 <? line_count')%nat then Ret (Some i)
      else if (400 <=? char_count)%nat then Ret (Some (S i))
      else truncate_loop content n (S i) line_count' char_count
  end.

Definition ik_format_truncate_and_append (buf : T) (content : cstr) (content_len : nat) : outcome T :=
  if (content_len =? 0)%nat then or_die (ik_format_append buf (lit "(no output)"))
  else
    let! cut := truncate_loop content content_len 0 1 0 in
    match cut with
    | Some truncate_at => or_die (ik_format_appendf buf (take truncate_at content ++ lit "..."))
    | None => or_die (ik_format_append buf content)
    end.

(** *** Tool calls *)

Definition EQ : Z := 61.
Definition QUOTE : Z := 34.

(** The formatted pair, [None] when a nested value cannot be written. *)
Definition format_field (key : cstr) (val : json) : option cstr :=
  match val with
  | JStr _ => Some (key ++ [EQ; QUOTE] ++ default [] (yyjson_get_str (Some val)) ++ [QUOTE])
  | JInt _ => Some (key ++ [EQ] ++ show_int (yyjson_get_sint (Some val)))
  | JReal _ => Some (key ++ [EQ] ++ fmt_g (yyjson_get_real (Some val)))
  | JBool b => Some (key ++ [EQ] ++ if b then lit "true" else lit "false")
  | JNull => Some (key ++ [EQ] ++ lit "null")
  | JArr _ | JObj _ => (fun s => key ++ [EQ] ++ s) <$> yyjson_write val
  end.

Fixpoint format_fields (args_buf : T) (fields : list (list Z * json)) (first : bool) : outcome T :=
  match fields with
  | [] => Ret args_buf
  | (key, val) :: fields =>
      let! args_buf := if first then Ret args_buf else or_die (ik_format_append args_buf (lit ", ")) in
      let! args_buf := match format_field (until_nul key) val with
                       | Some s => or_die (ik_format_appendf args_buf s)
                       | None => Ret args_buf
                       end in
      format_fields args_buf fields false
  end.

Definition ik_format_tool_call (call : ik_tool_call) : outcome cstr :=
  let! buf := ik_format_buffer_create in
  let prefix := default [] (ik_output_prefix IK_OUTPUT_TOOL_REQUEST) in
  let! buf := or_die (ik_format_appendf buf (prefix ++ [32%Z] ++ tc_name call)) in
  match tc_arguments call with
  | None | Some [] => ik_format_get_string buf
  | Some arguments =>
      let raw :=
        let! buf := or_die (ik_format_append buf (lit ": ")) in
        let! buf := ik_format_truncate_and_append buf arguments (length arguments) in
        ik_format_get_string buf in
      match yyjson_read arguments with
      | None => raw
      | Some root =>
          if negb (yyjson_is_obj (Some root)) then raw
          else if (length (yyjson_obj_fields (Some root)) =? 0)%nat then ik_format_get_string buf
          else
            let! args_buf := ik_format_buffer_create in
            let! args_buf := format_fields args_buf (yyjson_obj_fields (Some root)) true in
            let! buf := or_die (ik_format_append buf (lit ": ")) in
            let! args_str := ik_format_get_string args_buf in
            let! args_len := ik_format_get_length args_buf in
            let! buf := ik_format_truncate_and_append buf args_str args_len in
            ik_format_get_string buf
      end
  end.

(** *** Tool results *)

Definition format_element (elem : json) : option cstr :=
  if yyjson_is_str (Some elem) then yyjson_get_str (Some elem) else yyjson_write elem.

Fixpoint append_elements (arr_buf : T) (elems : list json) (i : nat) : outcome T :=
  match elems with
  | [] => Ret arr_buf
  | elem :: elems =>
      let! arr_buf := if (0 <? i)%nat then or_die (ik_format_append arr_buf (lit ", ")) else Ret arr_buf in
      let! arr_buf := match format_element elem with
                      | Some s => or_die (ik_format_append arr_buf s)
                      | None => Ret arr_buf
                      end in
      append_elements arr_buf elems (S i)
  end.

Definition ik_format_extract_array_content (root : json) : outcome (cstr * nat) :=
  let! arr_buf := ik_format_buffer_create in
  let! arr_buf := append_elements arr_buf (yyjson_arr_elements (Some root)) 0 in
  let! out_len := ik_format_get_length arr_buf in
  let! s := ik_format_get_string arr_buf in
  Ret (s, out_len).

(** The content and the length it is read to; a string is copied up to its
    first NUL.  An empty one is shown as "(no output)" by the truncation too. *)
Definition result_content (root : json) : outcome (option (cstr * nat)) :=
  match root with
  | JStr s => Ret (Some (until_nul s, yyjson_get_len (Some root)))
  | JArr _ => let! c := ik_format_extract_array_content root in Ret (Some c)
  | _ => Ret ((fun s => (s, length s)) <$> yyjson_write root)
  end.

Definition ik_format_tool_result (tool_name : cstr) (result_json : option cstr) : outcome cstr :=
  let! buf := ik_format_buffer_create in
  let prefix := default [] (ik_output_prefix IK_OUTPUT_TOOL_RESPONSE) in
  let! buf := or_die (ik_format_appendf buf (prefix ++ [32%Z] ++ tool_name ++ lit ": ")) in
  let no_output :=
    let! buf := or_die (ik_format_append buf (lit "(no output)")) in ik_format_get_string buf in
  match result_json with
  | None => no_output
  | Some result_json =>
      match yyjson_read result_json with
      | None =>
          let! buf := ik_format_truncate_and_append buf result_json (length result_json) in
          ik_format_get_string buf
      | Some root =>
          let! content := result_content root in
          match content with
          | None => no_output
          | Some (content, content_len) =>
              let! buf := ik_format_truncate_and_append buf content content_len in
              ik_format_get_string buf
          end
      end
  end.

End format.

(** ** Truncation *)

Fixpoint newlines (s : list Z) : nat :=
  match s with [] => 0 | c :: s => (if (c =? 10)%Z then 1 else 0) + newlines s end.

(** Where the content [s] after the first [i] bytes is cut. *)
Fixpoint cut_from (s : list Z) (i line_count : nat) : option nat :=
  match s with
  | [] => None
  | c :: s =>
      let line_count' := if (c =? 10)%Z then S line_count else line_count in
      if (c =? 10)%Z && (3 <? line_count')%nat then Some i
      else if (400 <=? S i)%nat then Some (S i)
      else cut_from s (S i) line_count'
  end.

(** What is displayed of a content. *)
Definition shown (content : cstr) : cstr :=
  match content with
  | [] => lit "(no output)"
  | _ :: _ => match cut_from content 0 1 with
              | Some k => take k content ++ lit "..."
              | None => content
              end
  end.

Lemma truncate_loop_ok p s lines :
  truncate_loop (p ++ s) (length s) (length p) lines (length p) = Ret (cut_from s (length p) lines).
Proof.
  revert p lines. induction s as [|c s IH]; intros p lines; [done|].
  cbn [length truncate_loop cut_from]. unfold str_at.
  rewrite <- app_assoc, lookup_app_r, Nat.sub_diag by lia. cbn [lookup list_lookup app obind].
  destruct ((c =? 10)%Z && (3 <? _)%nat); [done|].
  destruct (400 <=? S (length p))%nat; [done|].
  specialize (IH (p ++ [c]) (if (c =? 10)%Z then S lines else lines)).
  rewrite <- app_assoc, length_app in IH. cbn [length app] in IH. by rewrite Nat.add_1_r in IH.
Qed.

(** The cut is at the third newline or after 400 bytes, whichever is first. *)
Lemma cut_from_spec s i lines :
  i < 400 -> 1 <= lines <= 3 ->
  match cut_from s i lines with
  | None => i + length s < 400 /\ lines + newlines s <= 3
  | Some k => exists a b, s = a ++ b /\ k = i + length a /\ lines + newlines a <= 3 /\ k <= 400 /\
      (k = 400 \/ exists b', b = 10%Z :: b' /\ lines + newlines a = 3)
  end.
Proof.
  revert i lines. induction s as [|c s IH]; intros i lines Hi Hl; cbn [cut_from]; [simpl; lia|].
  destruct (Z.eqb_spec c 10) as [->|Hc]; cbn [andb].
  - destruct (Nat.ltb_spec 3 (S lines)).
    { exists [], (10%Z :: s). simpl. split_and!; [done|lia..|]. right. exists s. split; [done|lia]. }
    destruct (Nat.leb_spec 400 (S i)).
    { exists [10%Z], s. simpl. split_and!; [done|lia..|]. left. lia. }
    specialize (IH (S i) (S lines) ltac:(lia) ltac:(lia)).
    destruct (cut_from s (S i) (S lines)) as [k|]; [|simpl; lia].
    destruct IH as (a & b & -> & -> & Hn & Hk & Hor). exists (10%Z :: a), b. simpl.
    split_and!; [done|lia..|]. destruct Hor as [|(b' & -> & Hb)]; [left; lia|right].
    exists b'. split; [done|lia].
  - destruct (Nat.leb_spec 400 (S i)).
    { exists [c], s. simpl. rewrite (proj2 (Z.eqb_neq _ _) Hc). split_and!; [done|lia..|]. left. lia. }
    specialize (IH (S i) lines ltac:(lia) ltac:(lia)).
    destruct (cut_from s (S i) lines) as [k|];
      [|simpl; rewrite (proj2 (Z.eqb_neq _ _) Hc); lia].
    destruct IH as (a & b & -> & -> & Hn & Hk & Hor). exists (c :: a), b. simpl.
    rewrite (proj2 (Z.eqb_neq _ _) Hc).
    split_and!; [done|lia..|]. destruct Hor as [|(b' & -> & Hb)]; [left; lia|right].
    exists b'. split; [done|lia].
Qed.

Lemma newlines_app a b : newlines (a ++ b) = newlines a + newlines b.
Proof. induction a as [|c a IH]; simpl; [done|]. rewrite IH. lia. Qed.

(** What is displayed is short. *)
Lemma shown_bounds s : length (shown s) <= 403 /\ newlines (shown s) <= 2.
Proof.
  destruct s as [|c s]; [simpl; lia|]. unfold shown.
  pose proof (cut_from_spec (c :: s) 0 1 ltac:(lia) ltac:(lia)) as Hc.
  destruct (cut_from (c :: s) 0 1) as [k|]; [|simpl in *; lia].
  destruct Hc as (a & b & E & -> & Hn & Hk & _). rewrite E. cbn [Nat.add].
  rewrite take_app_length, length_app, newlines_app. simpl. lia.
Qed.

(** A content of fewer than 400 bytes and at most three lines is kept. *)
Lemma shown_short s : s <> [] -> length s < 400 -> newlines s <= 2 -> shown s = s.
Proof.
  intros Hs Hl Hn. destruct s as [|c s]; [done|]. unfold shown.
  pose proof (cut_from_spec (c :: s) 0 1 ltac:(lia) ltac:(lia)) as Hc.
  destruct (cut_from (c :: s) 0 1) as [k|]; [|done]. exfalso.
  destruct Hc as (a & b & E & Hk & _ & _ & Hor). rewrite E, length_app in Hl. rewrite E, newlines_app in Hn.
  destruct Hor as [|(b' & -> & Hb)]; simpl in *; lia.
Qed.

(** A content of 400 bytes on at most three lines is kept whole, and marked as
    cut. *)
Lemma shown_400 s : length s = 400 -> newlines s <= 2 -> shown s = s ++ lit "...".
Proof.
  intros Hl Hn. destruct s as [|c s]; [done|]. unfold shown.
  pose proof (cut_from_spec (c :: s) 0 1 ltac:(lia) ltac:(lia)) as Hc.
  destruct (cut_from (c :: s) 0 1) as [k|]; [|simpl in *; lia].
  destruct Hc as (a & b & E & Hk & Hna & _ & Hor). rewrite E, length_app in Hl. rewrite E, newlines_app in Hn.
  destruct Hor as [Hk'|(b' & -> & Hb)]; [|simpl in *; lia].
  f_equal. apply firstn_all2. rewrite E, length_app. lia.
Qed.

(** ** The buffer *)

Section buffer.
Context {T : Type} `{!ByteStore T} `{!ByteStoreLaws T} `{!Yyjson} `{!Printf}.

(** A buffer with the text [s], which is not too long. *)
Definition holds (buf : T) (s : list Z) : Prop :=
  bs_ok buf /\ bs_bytes buf = s /\ (Z.of_nat (length s) < 2 ^ 61)%Z.

Lemma buffer_create_ok : exists buf, ik_format_buffer_create = Ret buf /\ holds buf [].
Proof.
  destruct (bs_create_ok 32 ltac:(lia) ltac:(lia)) as (t & E & Hok & Hb).
  exists t. unfold ik_format_buffer_create. rewrite E. by split_and!.
Qed.

Lemma append_bytes_ok buf s r :
  holds buf s -> (Z.of_nat (length s + length r) < 2 ^ 61)%Z ->
  exists buf', append_bytes buf r = Ret buf' /\ holds buf' (s ++ r).
Proof.
  revert buf s. induction r as [|b r IH]; intros buf s (Hok & Hb & Hl) Hr; cbn [append_bytes].
  { rewrite app_nil_r. by exists buf. }
  simpl in Hr. destruct (bs_append_ok buf b Hok) as (t & -> & Ht & Hbt); [rewrite Hb; lia|].
  cbn [or_die obind]. destruct (IH t (s ++ [b])) as (t' & E & Hh).
  - split_and!; [done|by rewrite Hbt, Hb|len_lia].
  - len_lia.
  - exists t'. rewrite <- app_assoc in Hh. done.
Qed.

Lemma appendf_ok buf s r :
  holds buf s -> (Z.of_nat (length r) < 2 ^ 31)%Z -> (Z.of_nat (length s) < 2 ^ 60)%Z ->
  exists buf', or_die (ik_format_appendf buf r) = Ret buf' /\ holds buf' (s ++ r).
Proof.
  intros Hh Hr Hs. unfold ik_format_appendf. rewrite (proj2 (Z.ltb_lt _ _)) by done.
  destruct (append_bytes_ok buf s r Hh ltac:(lia)) as (b & -> & Hb). by exists b.
Qed.

Lemma append_ok buf s r :
  holds buf s -> (Z.of_nat (length s + length r) < 2 ^ 61)%Z ->
  exists buf', or_die (ik_format_append buf r) = Ret buf' /\ holds buf' (s ++ r).
Proof. intros Hh Hr. destruct (append_bytes_ok buf s r Hh Hr) as (b & E & Hb). exists b. unfold ik_format_append. by rewrite E. Qed.

(** The returned string is the buffer's text. *)
Lemma get_string_ok buf s : holds buf s -> (0%Z ∉ s) -> ik_format_get_string buf = Ret s.
Proof.
  intros (Hok & Hb & Hl) Hz. unfold ik_format_get_string, terminated.
  rewrite (bs_size_ok buf Hok), Hb.
  assert ((if (0 <? length s)%nat then let! b := data_at buf (length s - 1) in Ret (b =? 0)%Z
           else Ret false) = Ret false) as ->.
  { destruct (Nat.ltb_spec 0 (length s)) as [Hs|]; [|done].
    unfold data_at. rewrite (bs_ptr_some buf Hok) by (rewrite Hb; intros ->; simpl in Hs; lia).
    rewrite Hb. destruct (s !! (length s - 1)) as [b|] eqn:Eb.
    - cbn [obind]. by rewrite (proj2 (Z.eqb_neq b 0))
        by (intros ->; apply Hz; by eapply list_elem_of_lookup_2).
    - apply lookup_ge_None in Eb. lia. }
  cbn [obind]. destruct (bs_append_ok buf 0%Z Hok) as (t & -> & Ht & Hbt); [rewrite Hb; lia|].
  cbn [or_die obind]. rewrite (bs_ptr_some t Ht) by (rewrite Hbt; by destruct (bs_bytes buf)).
  rewrite Hbt, Hb. by apply c_string_app.
Qed.

Lemma truncate_ok buf s c :
  holds buf s -> (Z.of_nat (length s) < 2 ^ 60)%Z ->
  exists buf', ik_format_truncate_and_append buf c (length c) = Ret buf' /\ holds buf' (s ++ shown c).
Proof.
  intros Hh Hs. unfold ik_format_truncate_and_append. pose proof (shown_bounds c) as [Hb _].
  destruct c as [|b c]; [apply append_ok; [done|simpl; lia]|].
  destruct (Nat.eqb_spec (length (b :: c)) 0) as [|_]; [done|].
  pose proof (truncate_loop_ok [] (b :: c) 1) as E. cbn [app] in E.
  change (length []) with 0 in E. rewrite E. cbn [obind]. unfold shown in *.
  destruct (cut_from (b :: c) 0 1) as [k|].
  - apply appendf_ok; [done|lia|done].
  - apply append_ok; [done|lia].
Qed.

Lemma shown_no_nul c : (0%Z ∉ c) -> (0%Z ∉ shown c).
Proof.
  intros Hz. destruct c as [|b c]; [apply (bool_decide_unpack _); vm_compute; exact I|]. unfold shown.
  destruct (cut_from (b :: c) 0 1) as [k|]; [|done].
  rewrite not_elem_of_app. split; [|apply (bool_decide_unpack _); vm_compute; exact I].
  intros Hi. apply Hz. revert Hi. intros (i & Hi & _)%elem_of_take. by eapply list_elem_of_lookup_2.
Qed.

End buffer.

(** A length that goes past the terminator makes the loop read past it. *)
Lemma truncate_loop_overread p s lines m :
  1 <= lines -> lines + newlines s <= 3 -> length p + length s < 399 ->
  truncate_loop (p ++ s) (length s + S (S m)) (length p) lines (length p) = Undef.
Proof.
  revert p lines. induction s as [|c s IH]; intros p lines Hl Hn Hp.
  - rewrite app_nil_r. cbn [length Nat.add truncate_loop]. unfold str_at.
    rewrite lookup_app_r, Nat.sub_diag by lia. cbn [lookup list_lookup obind].
    change (0 =? 10)%Z with false. cbn [andb].
    rewrite (proj2 (Nat.leb_gt _ _)) by (simpl in Hp; lia).
    by rewrite lookup_ge_None_2 by len_lia.
  - cbn [length Nat.add truncate_loop]. unfold str_at.
    rewrite <- app_assoc, lookup_app_r, Nat.sub_diag by lia. cbn [lookup list_lookup app obind].
    simpl in Hn, Hp.
    assert ((c =? 10)%Z && (3 <? (if (c =? 10)%Z then S lines else lines))%nat = false) as ->.
    { destruct (c =? 10)%Z; [|done]. cbn [andb]. apply Nat.ltb_ge. lia. }
    rewrite (proj2 (Nat.leb_gt _ _)) by lia.
    specialize (IH (p ++ [c]) (if (c =? 10)%Z then S lines else lines)).
    rewrite <- app_assoc, length_app in IH. cbn [length app] in IH. rewrite Nat.add_1_r in IH.
    apply IH; [destruct (c =? 10)%Z; lia..|lia].
Qed.

Lemma until_nul_app a b : (0%Z ∉ a) -> until_nul (a ++ 0%Z :: b) = a.
Proof.
  induction a as [|c a IH]; intros Hn; [done|]. apply not_elem_of_cons in Hn as [Hc Hn].
  cbn [app until_nul]. rewrite (proj2 (Z.eqb_neq _ _)) by congruence. by rewrite IH.
Qed.

(** ** Properties *)

Module FormatProps.

Section props.
Context {T : Type} `{!ByteStore T} `{!ByteStoreLaws T} `{!Yyjson} `{!Printf}.

(** The line before the content of a result. *)
Definition result_head (tool_name : cstr) : cstr :=
  [0xE2; 0x86; 0x90; 32]%Z ++ tool_name ++ lit ": ".

(** A tool result that is plain text, or a JSON string, is displayed after
    the tool's name: whole when it has fewer than 400 bytes on at most three
    lines, otherwise cut at the third newline or after 400 bytes and marked
    with "...", so never more than 403 bytes or three lines.  A result of
    exactly 400 bytes is marked as cut although nothing is missing. *)
Theorem tool_result_shown (tool_name text content : cstr) :
  (Z.of_nat (length tool_name) < 2 ^ 30)%Z -> (0%Z ∉ tool_name) -> (0%Z ∉ content) ->
  (yyjson_read text = None /\ content = text) \/ yyjson_read text = Some (JStr content) ->
  ik_format_tool_result (T := T) tool_name (Some text) = Ret (result_head tool_name ++ shown content) /\
  length (shown content) <= 403 /\ newlines (shown content) <= 2 /\
  (content <> [] -> length content < 400 -> newlines content <= 2 -> shown content = content) /\
  (length content = 400 -> newlines content <= 2 -> shown content = content ++ lit "...").
Proof.
  intros Hl Hz1 Hz2 Ht. split.
  2: { split_and!; [apply shown_bounds..|apply shown_short|apply shown_400]. }
  unfold ik_format_tool_result. destruct buffer_create_ok as (b0 & -> & Hb0). cbn [obind].
  destruct (appendf_ok b0 [] (result_head tool_name) Hb0) as (b1 & Eb1 & Hb1);
    [unfold result_head; len_lia|simpl; lia|].
  change (or_die (ik_format_appendf b0 _)) with (or_die (ik_format_appendf b0 (result_head tool_name))).
  rewrite Eb1. cbn [obind].
  destruct (truncate_ok b1 _ content Hb1) as (b2 & Eb2 & Hb2); [unfold result_head; len_lia|].
  assert (ik_format_get_string b2 = Ret (result_head tool_name ++ shown content)) as Es.
  { apply get_string_ok; [done|]. rewrite not_elem_of_app. split; [|by apply shown_no_nul].
    unfold result_head. rewrite !not_elem_of_app.
    split_and!; try done; apply (bool_decide_unpack _); vm_compute; exact I. }
  destruct Ht as [[-> <-] | ->]; [by rewrite Eb2|].
  cbn [result_content obind yyjson_get_len]. by rewrite (until_nul_id content Hz2), Eb2.
Qed.

(** A tool result that is a JSON string with an escaped NUL is read out of
    bounds: the copy ends at the NUL, but the truncation loop runs over the
    length of the whole string. *)
Theorem nul_in_result_overreads (tool_name text a b : cstr) :
  (Z.of_nat (length tool_name) < 2 ^ 30)%Z -> (0%Z ∉ a) -> b <> [] ->
  length a < 399 -> newlines a <= 2 -> yyjson_read text = Some (JStr (a ++ 0%Z :: b)) ->
  ik_format_tool_result (T := T) tool_name (Some text) = Undef.
Proof.
  intros Hl Hz Hb Ha Hn Hr. unfold ik_format_tool_result.
  destruct buffer_create_ok as (b0 & -> & Hb0). cbn [obind].
  destruct (appendf_ok b0 [] (result_head tool_name) Hb0) as (b1 & Eb1 & Hb1);
    [unfold result_head; len_lia|simpl; lia|].
  change (or_die (ik_format_appendf b0 _)) with (or_die (ik_format_appendf b0 (result_head tool_name))).
  rewrite Eb1, Hr. cbn [obind result_content yyjson_get_len]. rewrite until_nul_app by done.
  unfold ik_format_truncate_and_append. destruct b as [|x b]; [done|].
  rewrite length_app. cbn [length]. destruct (Nat.eqb_spec (length a + S (S (length b))) 0) as [|_]; [lia|].
  pose proof (truncate_loop_overread [] a 1 (length b) ltac:(lia) ltac:(lia) ltac:(simpl; lia)) as E.
  cbn [app] in E. change (length []) with 0 in E. by rewrite E.
Qed.

End props.
End FormatProps.

Module FormatExamples.
Import CodedJson ZeroAlloc FormatProps.

#[local] Instance no_reals : Printf := fun _ => lit "0".

Lemma tool_result_shown_witness :
  ik_format_tool_result (T := Array.ik_array) (lit "ls") (Some (lit "{}x")) =
    Ret (result_head (lit "ls") ++ lit "ok") \/
  exists text, yyjson_read text = Some (JStr (lit "ok")) /\
    ik_format_tool_result (T := Array.ik_array) (lit "ls") (Some text) =
      Ret (result_head (lit "ls") ++ lit "ok").
Proof.
  right. pose proof (eq_refl : yyjson_write (JStr (lit "ok")) = Some _) as E.
  eexists. pose proof (write_read _ _ E) as Er. split; [exact Er|].
  apply (tool_result_shown (lit "ls") _ (lit "ok")); [simpl; lia| | |right; exact Er];
    apply (bool_decide_unpack _); vm_compute; exact I.
Defined.

Lemma nul_in_result_overreads_witness :
  exists text, yyjson_read text = Some (JStr [97; 0; 98]%Z) /\
    ik_format_tool_result (T := Array.ik_array) (lit "ls") (Some text) = Undef.
Proof.
  pose proof (eq_refl : yyjson_write (JStr [97; 0; 98]%Z) = Some _) as E.
  eexists. pose proof (write_read _ _ E) as Er. split; [exact Er|].
  apply (nul_in_result_overreads (lit "ls") _ [97]%Z [98]%Z); [simpl; lia| |done|simpl; lia|simpl; lia|exact Er].
  apply (bool_decide_unpack _); vm_compute; exact I.
Defined.

End FormatExamples.
