(* ===== verification/Cursor.v ===== *)
(** * The input cursor (input_buffer/cursor.c)

    Byte and grapheme offsets of the editing cursor.  Text is the bytes of a
    list of code points; the cursor sits between two of them. *)

From S2P Require Import Prelude Utf8 Unicode.

Record ik_input_buffer_cursor := mk_cursor {
  byte_offset : nat;
  grapheme_offset : nat
}.

Definition ik_input_buffer_cursor_create : ik_input_buffer_cursor := mk_cursor 0 0.

Section cursor.
Context `{Utf8proc}.

(** "prev_codepoint == -1 || utf8proc_grapheme_break(prev, codepoint)". *)
Definition starts_cluster (prev codepoint : Z) : bool :=
  (prev =? -1)%Z || utf8proc_grapheme_break prev codepoint.

(** One decoding step at [pos]; [assert(bytes_read > 0)]. *)
Definition iterate_at (text : list Z) (pos : nat) : outcome (nat * Z) :=
  let '(bytes_read, codepoint) := utf8proc_iterate (drop pos text) in
  assert! (0 <? bytes_read)%Z in Ret (Z.to_nat bytes_read, codepoint).

Fixpoint count_loop (fuel : nat) (text : list Z) (byte_offset pos : nat)
    (prev_codepoint : Z) (grapheme_count : nat) : outcome nat :=
  match fuel with
  | 0 => NoFuel
  | S fuel =>
      if (pos <? byte_offset)%nat then
        let! (bytes_read, codepoint) := iterate_at text pos in
        count_loop fuel text byte_offset (pos + bytes_read) codepoint
          (if starts_cluster prev_codepoint codepoint
           then S grapheme_count else grapheme_count)
      else Ret grapheme_count
  end.

(** [text] is [None] for a NULL pointer. *)
Definition ik_input_buffer_cursor_set_position (text : option (list Z))
    (text_len byte_offset : nat) : outcome ik_input_buffer_cursor :=
  match text with
  | None => Panic
  | Some text =>
      assert! (byte_offset <=? text_len)%nat in
      let! n := count_loop (S text_len) text byte_offset 0 (-1) 0 in
      Ret (mk_cursor byte_offset n)
  end.

Fixpoint left_loop (fuel : nat) (text : list Z) (text_len limit pos : nat)
    (prev_codepoint : Z) (last_boundary_byte grapheme_count : nat)
  : outcome (nat * nat) :=
  match fuel with
  | 0 => NoFuel
  | S fuel =>
      if (pos <? text_len)%nat then
        let! (bytes_read, codepoint) := iterate_at text pos in
        if starts_cluster prev_codepoint codepoint then
          if (pos <? limit)%nat then
            left_loop fuel text text_len limit (pos + bytes_read) codepoint
              pos (S grapheme_count)
          else Ret (last_boundary_byte, grapheme_count)
        else
          left_loop fuel text text_len limit (pos + bytes_read) codepoint
            last_boundary_byte grapheme_count
      else Ret (last_boundary_byte, grapheme_count)
  end.

Definition ik_input_buffer_cursor_move_left (cursor : ik_input_buffer_cursor)
    (text : list Z) (text_len : nat) : outcome ik_input_buffer_cursor :=
  if (byte_offset cursor =? 0)%nat then Ret cursor
  else
    let! (last_boundary_byte, grapheme_count) :=
      left_loop (S text_len) text text_len (byte_offset cursor) 0 (-1) 0 0 in
    Ret (mk_cursor last_boundary_byte
           (if (0 <? grapheme_count)%nat then grapheme_count - 1 else 0)).

(** The result is [next_boundary_byte]: the start of the code point that
    begins a cluster, or [pos] when the text ends first. *)
Fixpoint right_loop (fuel : nat) (text : list Z) (text_len pos : nat)
    (prev_codepoint : Z) : outcome nat :=
  match fuel with
  | 0 => NoFuel
  | S fuel =>
      if (pos <? text_len)%nat then
        let! (bytes_read, codepoint) := iterate_at text pos in
        if negb (prev_codepoint =? -1)%Z
           && utf8proc_grapheme_break prev_codepoint codepoint
        then Ret pos
        else right_loop fuel text text_len (pos + bytes_read) codepoint
      else Ret pos
  end.

Definition ik_input_buffer_cursor_move_right (cursor : ik_input_buffer_cursor)
    (text : list Z) (text_len : nat) : outcome ik_input_buffer_cursor :=
  if (byte_offset cursor =? text_len)%nat then Ret cursor
  else
    let! next_boundary_byte :=
      right_loop (S text_len) text text_len (byte_offset cursor) (-1) in
    Ret (mk_cursor next_boundary_byte (S (grapheme_offset cursor))).

Definition ik_input_buffer_cursor_get_position (cursor : ik_input_buffer_cursor)
  : nat * nat := (byte_offset cursor, grapheme_offset cursor).

(** ** Specification on code points *)

(** Number of clusters that start in [cps] after the code point [prev]. *)
Fixpoint clusters (prev : Z) (cps : list Z) : nat :=
  match cps with
  | [] => 0
  | c :: cps => (if starts_cluster prev c then 1 else 0) + clusters c cps
  end.

(** The code point before the end of [cps], [prev] when [cps] is empty. *)
Definition last_or (prev : Z) (cps : list Z) : Z := default prev (last cps).

Lemma last_or_cons prev c cps : last_or prev (c :: cps) = last_or c cps.
Proof. unfold last_or. rewrite last_cons. by destruct (last cps). Qed.

Lemma last_or_snoc prev cps c : last_or prev (cps ++ [c]) = c.
Proof. unfold last_or. by rewrite last_snoc. Qed.

Lemma clusters_app prev l1 l2 :
  clusters prev (l1 ++ l2) = clusters prev l1 + clusters (last_or prev l1) l2.
Proof.
  revert prev. induction l1 as [|c l1 IH]; intros prev; simpl; [done|].
  rewrite IH, last_or_cons. lia.
Qed.

(** [pre ++ post] with the cursor in between; a cluster begins there. *)
Definition at_boundary (pre post : list Z) : Prop :=
  match post with
  | [] => True
  | c :: _ => starts_cluster (last_or (-1) pre) c = true
  end.

Context `{!Utf8procSpec}.

Lemma iterate_at_text pre c rest :
  scalar c ->
  iterate_at (text_of pre ++ encode_utf8 c ++ rest) (length (text_of pre))
  = Ret (length (encode_utf8 c), c).
Proof.
  intros Hc. unfold iterate_at. rewrite drop_app_length, iterate_valid by done.
  pose proof (encode_length c Hc). rewrite (proj2 (Z.ltb_lt _ _)) by lia.
  by rewrite Nat2Z.id.
Qed.

(** Decoding one code point moves the position past it. *)
Lemma pos_snoc pre c :
  length (text_of pre) + length (encode_utf8 c) = length (text_of (pre ++ [c])).
Proof. by rewrite text_of_snoc, length_app. Qed.

(** Rewrite with a loop's induction hypothesis stated after one more decoded
    code point. *)
Ltac step_past IH term :=
  let E := fresh in
  pose proof term as E; rewrite <- pos_snoc, text_of_snoc, <- !app_assoc in E;
  cbn [app] in E; rewrite E; clear E.

Lemma count_loop_spec pre rem rest fuel n prev :
  Forall scalar rem -> length rem < fuel ->
  count_loop fuel (text_of pre ++ text_of rem ++ rest)
    (length (text_of (pre ++ rem))) (length (text_of pre)) prev n
  = Ret (n + clusters prev rem).
Proof.
  revert pre fuel n prev. induction rem as [|c rem IH]; intros pre fuel n prev Hs Hf;
    destruct fuel as [|fuel]; try (simpl in Hf; lia); cbn [count_loop].
  - rewrite app_nil_r, (proj2 (Nat.ltb_ge _ _)) by lia. by rewrite Nat.add_0_r.
  - inversion Hs as [|?? Hc Hs']; subst. pose proof (encode_length c Hc).
    rewrite (proj2 (Nat.ltb_lt _ _)) by (rewrite text_of_app, text_of_cons; len_lia).
    rewrite text_of_cons, <- app_assoc, iterate_at_text by done. cbn [obind].
    set (n' := if starts_cluster prev c then S n else n).
    step_past IH (IH (pre ++ [c]) fuel n' c Hs' ltac:(simpl in Hf; lia)).
    unfold n'. simpl. destruct_ifs; f_equal; lia.
Qed.

(** set_position counts the clusters before the cursor. *)
Lemma set_position_spec pre post :
  Forall scalar (pre ++ post) ->
  ik_input_buffer_cursor_set_position (Some (text_of (pre ++ post)))
    (length (text_of (pre ++ post))) (length (text_of pre))
  = Ret (mk_cursor (length (text_of pre)) (clusters (-1) pre)).
Proof.
  intros Hs. apply Forall_app in Hs as [Hs _].
  unfold ik_input_buffer_cursor_set_position. rewrite text_of_app.
  rewrite (proj2 (Nat.leb_le _ _)) by len_lia.
  rewrite (count_loop_spec [] pre (text_of post)); [done|done|].
  pose proof (length_text_of pre Hs). len_lia.
Qed.

(** move_left: the byte offset of the last cluster start in [rem], [last] when
    there is none; [rem] begins at byte [pos]. *)
Fixpoint last_start (prev : Z) (pos : nat) (rem : list Z) (last : nat) : nat :=
  match rem with
  | [] => last
  | c :: rem => last_start c (pos + length (encode_utf8 c)) rem
                  (if starts_cluster prev c then pos else last)
  end.

(** Past the cursor the loop only looks for the next cluster start. *)
Lemma left_loop_after pre post limit fuel prev lb n :
  Forall scalar post -> length post < fuel -> limit <= length (text_of pre) ->
  left_loop fuel (text_of pre ++ text_of post) (length (text_of (pre ++ post)))
    limit (length (text_of pre)) prev lb n = Ret (lb, n).
Proof.
  revert pre fuel prev. induction post as [|c post IH]; intros pre fuel prev Hs Hf Hl;
    destruct fuel as [|fuel]; try (simpl in Hf; lia); cbn [left_loop].
  - rewrite app_nil_r, (proj2 (Nat.ltb_ge _ _)) by lia. done.
  - inversion Hs as [|?? Hc Hs']; subst. pose proof (encode_length c Hc).
    rewrite (proj2 (Nat.ltb_lt _ _)) by (rewrite text_of_app, text_of_cons; len_lia).
    rewrite text_of_cons, iterate_at_text by done. cbn [obind].
    rewrite (proj2 (Nat.ltb_ge _ limit)) by lia.
    step_past IH (IH (pre ++ [c]) fuel c Hs' ltac:(simpl in Hf; lia)
                    ltac:(rewrite text_of_snoc; len_lia)).
    by destruct_ifs.
Qed.

Lemma left_loop_spec pre rem post fuel prev lb n :
  Forall scalar (rem ++ post) -> length (rem ++ post) < fuel ->
  left_loop fuel (text_of pre ++ text_of rem ++ text_of post)
    (length (text_of (pre ++ rem ++ post))) (length (text_of (pre ++ rem)))
    (length (text_of pre)) prev lb n
  = Ret (last_start prev (length (text_of pre)) rem lb, n + clusters prev rem).
Proof.
  revert pre fuel prev lb n. induction rem as [|c rem IH]; intros pre fuel prev lb n Hs Hf.
  - simpl app. rewrite left_loop_after by (done || rewrite app_nil_r; lia).
    simpl. by rewrite Nat.add_0_r.
  - destruct fuel as [|fuel]; [simpl in Hf; lia|]. cbn [left_loop].
    inversion Hs as [|?? Hc Hs']; subst. pose proof (encode_length c Hc).
    rewrite !text_of_app, text_of_cons.
    rewrite (proj2 (Nat.ltb_lt _ _)) by len_lia.
    rewrite <- app_assoc, iterate_at_text by done. cbn [obind].
    rewrite (proj2 (Nat.ltb_lt _ (length (text_of pre ++ _)))) by len_lia.
    destruct (starts_cluster prev c) eqn:Hst.
    + pose proof (IH (pre ++ [c]) fuel c (length (text_of pre)) (S n) Hs'
        ltac:(simpl in Hf; lia)) as E.
      rewrite <- pos_snoc, !text_of_app, text_of_one, <- !app_assoc in E.
      rewrite E. simpl. rewrite Hst. do 2 f_equal. lia.
    + pose proof (IH (pre ++ [c]) fuel c lb n Hs' ltac:(simpl in Hf; lia)) as E.
      rewrite <- pos_snoc, !text_of_app, text_of_one, <- !app_assoc in E.
      rewrite E. simpl. by rewrite Hst.
Qed.

(** Where the last cluster of a text starts. *)
Lemma last_cluster prev rem pos lb :
  0 < clusters prev rem ->
  exists p c q, rem = p ++ c :: q /\ starts_cluster (last_or prev p) c = true /\
    clusters c q = 0 /\ last_start prev pos rem lb = pos + length (text_of p).
Proof.
  revert prev pos lb. induction rem as [|c rem IH]; intros prev pos lb Hn; [simpl in Hn; lia|].
  simpl in Hn. destruct (decide (clusters c rem = 0)) as [Hz|Hpos].
  - exists [], c, rem. rewrite Hz in Hn. destruct (starts_cluster prev c) eqn:Hst; [|lia].
    split_and!; auto. simpl. rewrite Hst, Nat.add_0_r. clear -Hz.
    generalize (pos + length (encode_utf8 c)). revert c Hz.
    induction rem as [|d rem IH]; intros c Hz k; [done|].
    simpl in *. destruct (starts_cluster c d); [lia|]. by apply IH.
  - destruct (IH c (pos + length (encode_utf8 c))
               (if starts_cluster prev c then pos else lb)) as (p & d & q & -> & Hd & Hq & Hl);
      [lia|].
    exists (c :: p), d, q. rewrite last_or_cons. split_and!; auto.
    simpl. rewrite Hl, text_of_cons. len_lia.
Qed.

(** move_left goes to the start of the last cluster that begins before the
    cursor, and the grapheme offset is the number of clusters before it. *)
Lemma move_left_spec pre post g :
  Forall scalar (pre ++ post) -> pre <> [] ->
  exists p c q, pre = p ++ c :: q /\ at_boundary p (c :: q ++ post) /\ clusters c q = 0 /\
    ik_input_buffer_cursor_move_left (mk_cursor (length (text_of pre)) g)
      (text_of (pre ++ post)) (length (text_of (pre ++ post)))
    = Ret (mk_cursor (length (text_of p)) (clusters (-1) p)).
Proof.
  intros Hs Hne.
  assert (0 < clusters (-1) pre) as Hpos by (destruct pre; [done|simpl; lia]).
  destruct (last_cluster (-1) pre 0 0 Hpos) as (p & c & q & Hpre & Hst & Hq & Hl).
  exists p, c, q. split_and!; auto.
  assert (Forall scalar pre) as Hsp by (by apply Forall_app in Hs as [? _]).
  unfold ik_input_buffer_cursor_move_left. cbn [byte_offset].
  destruct (Nat.eqb_spec (length (text_of pre)) 0) as [Hz|_].
  { apply length_zero_iff_nil in Hz. by apply text_of_nil_inv in Hz. }
  pose proof (left_loop_spec [] pre post (S (length (text_of (pre ++ post)))) (-1) 0 0 Hs) as E.
  cbn [app length] in E. change (text_of []) with (@nil Z) in E. cbn [app length] in E.
  rewrite <- text_of_app in E. rewrite E. 2: { pose proof (length_text_of _ Hs). cbn [app]. lia. }
  cbn [obind]. rewrite (proj2 (Nat.ltb_lt _ _)) by done.
  rewrite Hl. simpl. do 2 f_equal.
  rewrite Hpre, clusters_app. simpl. rewrite Hst. lia.
Qed.

Lemma right_loop_spec pre c post fuel :
  Forall scalar (c :: post) -> length post < fuel ->
  exists q r, post = q ++ r /\ clusters c q = 0 /\
    (r = [] \/ exists d r', r = d :: r' /\ utf8proc_grapheme_break (last_or c q) d = true) /\
    right_loop fuel (text_of pre ++ text_of post) (length (text_of (pre ++ post)))
      (length (text_of pre)) c = Ret (length (text_of (pre ++ q))).
Proof.
  revert pre c fuel. induction post as [|d post IH]; intros pre c fuel Hs Hf;
    destruct fuel as [|fuel]; try (simpl in Hf; lia); cbn [right_loop].
  - exists [], []. rewrite !app_nil_r, (proj2 (Nat.ltb_ge _ _)) by lia. auto.
  - inversion Hs as [|?? Hc Hs']; subst. inversion Hs' as [|?? Hd Hs'']; subst.
    pose proof (encode_length d Hd). pose proof (scalar_range c Hc).
    rewrite (proj2 (Nat.ltb_lt _ _)) by (rewrite text_of_app, text_of_cons; len_lia).
    rewrite text_of_cons, iterate_at_text by done. cbn [obind].
    rewrite (proj2 (Z.eqb_neq c (-1))) by lia. cbn [negb andb].
    destruct (utf8proc_grapheme_break c d) eqn:Hb.
    + exists [], (d :: post). rewrite app_nil_r. split_and!; eauto 6.
    + destruct (IH (pre ++ [d]) d fuel) as (q & r & -> & Hq & Hr & E);
        [done | simpl in Hf; lia |].
      exists (d :: q), r. split_and!; auto.
      * simpl. unfold starts_cluster.
        rewrite (proj2 (Z.eqb_neq c (-1))), Hb, Hq by lia. done.
      * by rewrite last_or_cons.
      * rewrite <- pos_snoc, text_of_snoc, <- !app_assoc in E. exact E.
Qed.

(** move_right goes to the next cluster start after the code point under the
    cursor; the grapheme offset is incremented whatever the cursor was on. *)
Lemma move_right_spec pre c post g :
  Forall scalar (pre ++ c :: post) ->
  exists q r, post = q ++ r /\ clusters c q = 0 /\ at_boundary (pre ++ c :: q) r /\
    ik_input_buffer_cursor_move_right (mk_cursor (length (text_of pre)) g)
      (text_of (pre ++ c :: post)) (length (text_of (pre ++ c :: post)))
    = Ret (mk_cursor (length (text_of (pre ++ c :: q))) (S g)).
Proof.
  intros Hs. apply Forall_app in Hs as Hs2. destruct Hs2 as [_ Hs2].
  inversion Hs2 as [|?? Hc Hs']; subst. pose proof (encode_length c Hc).
  unfold ik_input_buffer_cursor_move_right. cbn [byte_offset grapheme_offset].
  rewrite (proj2 (Nat.eqb_neq _ _)) by (rewrite text_of_app, text_of_cons; len_lia).
  cbn [right_loop].
  rewrite (proj2 (Nat.ltb_lt _ _)) by (rewrite text_of_app, text_of_cons; len_lia).
  assert (iterate_at (text_of (pre ++ c :: post)) (length (text_of pre))
          = Ret (length (encode_utf8 c), c)) as ->
    by (rewrite text_of_app, text_of_cons; by apply iterate_at_text).
  cbn [obind negb andb Z.eqb].
  destruct (right_loop_spec (pre ++ [c]) c post (length (text_of (pre ++ c :: post))))
    as (q & r & -> & Hq & Hr & E); [done| |].
  { pose proof (length_text_of _ Hs). len_lia. }
  exists q, r. split_and!; auto.
  - destruct Hr as [->|(d & r' & -> & Hb)]; [done|]. unfold at_boundary, starts_cluster.
    assert (forall x y l, last_or x (l ++ y :: q) = last_or y q) as ->.
    { intros x y l. revert x. induction l as [|z l IHl]; intros x; simpl;
        rewrite last_or_cons; auto. }
    rewrite Hb. apply orb_true_r.
  - rewrite <- pos_snoc, text_of_snoc, <- !app_assoc in E. cbn [app] in E.
    rewrite pos_snoc, <- text_of_cons, <- text_of_app in E.
    rewrite pos_snoc, E. done.
Qed.

End cursor.
