(* ===== verification/InputBuffer.v ===== *)
(** * The text editor buffer (input_buffer/core.c)

    State and editing operations, generic in the byte vector ([ByteStore]).
    [rep ib pre post] relates a buffer to its abstract state: the code points
    before and after the cursor.  Each operation refines one step on that
    zipper. *)

From S2P Require Import Prelude ByteArray Utf8 Unicode Cursor.

(** ** State *)

Record ik_input_buffer (T : Type) := mk_ib {
  text : T;
  cursor : ik_input_buffer_cursor;
  cursor_byte_offset : nat;
  target_column : nat;
  physical_lines : nat;
  cached_width : Z;
  layout_dirty : Z
}.
Arguments mk_ib {T}.
Arguments text {T}.
Arguments cursor {T}.
Arguments cursor_byte_offset {T}.
Arguments target_column {T}.
Arguments physical_lines {T}.
Arguments cached_width {T}.
Arguments layout_dirty {T}.

Section operations.
Context {T : Type} `{ByteStore T} `{Utf8proc}.
Implicit Types ib : ik_input_buffer T.

Definition set_text_field (t : T) ib : ik_input_buffer T :=
  mk_ib t (cursor ib) (cursor_byte_offset ib) (target_column ib) (physical_lines ib)
    (cached_width ib) (layout_dirty ib).
Definition set_cursor (c : ik_input_buffer_cursor) ib : ik_input_buffer T :=
  mk_ib (text ib) c (cursor_byte_offset ib) (target_column ib) (physical_lines ib)
    (cached_width ib) (layout_dirty ib).
Definition set_offset (n : nat) ib : ik_input_buffer T :=
  mk_ib (text ib) (cursor ib) n (target_column ib) (physical_lines ib)
    (cached_width ib) (layout_dirty ib).
Definition set_target (n : nat) ib : ik_input_buffer T :=
  mk_ib (text ib) (cursor ib) (cursor_byte_offset ib) n (physical_lines ib)
    (cached_width ib) (layout_dirty ib).
Definition set_layout (lines : nat) (width dirty : Z) ib : ik_input_buffer T :=
  mk_ib (text ib) (cursor ib) (cursor_byte_offset ib) (target_column ib) lines width dirty.

Definition ik_input_buffer_invalidate_layout ib : ik_input_buffer T :=
  set_layout (physical_lines ib) (cached_width ib) 1 ib.

(** ** core.c *)

Definition ik_input_buffer_create : outcome (ik_input_buffer T) :=
  let! t := bs_create 64 in
  Ret (mk_ib t ik_input_buffer_cursor_create 0 0 0 0 1).

(** The data pointer (None for NULL) and the length. *)
Definition ik_input_buffer_get_text ib : option (list Z) * nat :=
  (bs_ptr (text ib), bs_size (text ib)).

(** Reading through the data pointer. *)
Definition data_of ib : outcome (list Z) :=
  match bs_ptr (text ib) with Some d => Ret d | None => Undef end.

Definition ik_input_buffer_clear ib : ik_input_buffer T :=
  let ib := set_text_field (bs_clear (text ib)) ib in
  let ib := set_target 0 (set_offset 0 ib) in
  let ib := ik_input_buffer_invalidate_layout ib in
  set_cursor (mk_cursor 0 0) ib.

Fixpoint append_all (t : T) (bytes : list Z) : outcome T :=
  match bytes with
  | [] => Ret t
  | b :: bytes => let! t := bs_append t b in append_all t bytes
  end.

Definition ik_input_buffer_set_text ib (bytes : list Z) : outcome (ik_input_buffer T) :=
  let! t := append_all (bs_clear (text ib)) bytes in
  let ib := set_target 0 (set_offset 0 (set_text_field t ib)) in
  Ret (ik_input_buffer_invalidate_layout (set_cursor (mk_cursor 0 0) ib)).

(** The insertion loop: byte [i] goes to [offset + i]. *)
Fixpoint insert_all (t : T) (offset : nat) (bytes : list Z) : outcome T :=
  match bytes with
  | [] => Ret t
  | b :: bytes => let! t := bs_insert t offset b in insert_all t (S offset) bytes
  end.

(** The deletion loop: [n] times at the same offset. *)
Fixpoint delete_n (t : T) (offset n : nat) : outcome T :=
  match n with
  | 0 => Ret t
  | S n => let! t := bs_delete t offset in delete_n t offset n
  end.

(** Re-synchronise the cursor object with [offset]. *)
Definition sync_cursor (offset : nat) ib : outcome (ik_input_buffer T) :=
  let '(p, text_len) := ik_input_buffer_get_text ib in
  let! c := ik_input_buffer_cursor_set_position p text_len offset in
  Ret (set_cursor c ib).

Definition ik_input_buffer_insert_codepoint ib (codepoint : Z)
  : outcome (ik_input_buffer T) :=
  let utf8_bytes := encode_utf8 codepoint in
  if (length utf8_bytes =? 0)%nat then Fail ERR_INVALID_ARG
  else
    let! t := insert_all (text ib) (cursor_byte_offset ib) utf8_bytes in
    let ib := set_offset (cursor_byte_offset ib + length utf8_bytes) (set_text_field t ib) in
    let ib := ik_input_buffer_invalidate_layout (set_target 0 ib) in
    sync_cursor (cursor_byte_offset ib) ib.

Definition ik_input_buffer_insert_newline ib : outcome (ik_input_buffer T) :=
  let! t := bs_insert (text ib) (cursor_byte_offset ib) 10 in
  let ib := set_offset (cursor_byte_offset ib + 1) (set_text_field t ib) in
  let ib := ik_input_buffer_invalidate_layout (set_target 0 ib) in
  sync_cursor (cursor_byte_offset ib) ib.

(** Skip continuation bytes backwards, stopping at offset 0. *)
Fixpoint back_to_lead (data : list Z) (pos : nat) : nat :=
  match pos with
  | 0 => 0
  | S p => if is_cont (byte_at data pos) then back_to_lead data p else pos
  end.

Definition find_prev_char_start (data : list Z) (cursor_pos : nat) : outcome nat :=
  assert! (0 <? cursor_pos)%nat in Ret (back_to_lead data (cursor_pos - 1)).

Definition ik_input_buffer_backspace ib : outcome (ik_input_buffer T) :=
  if (cursor_byte_offset ib =? 0)%nat then Ret ib
  else
    let! data := data_of ib in
    let! prev_char_start := find_prev_char_start data (cursor_byte_offset ib) in
    let! t := delete_n (text ib) prev_char_start
                (cursor_byte_offset ib - prev_char_start) in
    let ib := set_offset prev_char_start (set_text_field t ib) in
    let ib := ik_input_buffer_invalidate_layout (set_target 0 ib) in
    sync_cursor (cursor_byte_offset ib) ib.

Definition find_next_char_end (data : list Z) (data_len cursor_pos : nat) : nat :=
  if (data_len <=? cursor_pos)%nat then cursor_pos
  else
    let char_len := default 1 (lead_len (byte_at data cursor_pos)) in
    let end_pos := cursor_pos + char_len in
    if (data_len <? end_pos)%nat then data_len else end_pos.

Definition ik_input_buffer_delete ib : outcome (ik_input_buffer T) :=
  let text_len := bs_size (text ib) in
  if (text_len <=? cursor_byte_offset ib)%nat then Ret ib
  else
    let! data := data_of ib in
    let next_char_end := find_next_char_end data text_len (cursor_byte_offset ib) in
    let! t := delete_n (text ib) (cursor_byte_offset ib)
                (next_char_end - cursor_byte_offset ib) in
    let ib := set_text_field t ib in
    let ib := ik_input_buffer_invalidate_layout (set_target 0 ib) in
    sync_cursor (cursor_byte_offset ib) ib.

Definition ik_input_buffer_cursor_left ib : outcome (ik_input_buffer T) :=
  if (byte_offset (cursor ib) =? 0)%nat then Ret ib
  else
    match ik_input_buffer_get_text ib with
    | (None, _) => Ret ib
    | (Some text, text_len) =>
        let! c := ik_input_buffer_cursor_move_left (cursor ib) text text_len in
        Ret (set_target 0 (set_offset (byte_offset c) (set_cursor c ib)))
    end.

Definition ik_input_buffer_cursor_right ib : outcome (ik_input_buffer T) :=
  match ik_input_buffer_get_text ib with
  | (None, _) => Ret ib
  | (Some text, text_len) =>
      if (text_len <=? byte_offset (cursor ib))%nat then Ret ib
      else
        let! c := ik_input_buffer_cursor_move_right (cursor ib) text text_len in
        Ret (set_target 0 (set_offset (byte_offset c) (set_cursor c ib)))
  end.

Definition ik_input_buffer_get_cursor_position ib : nat * nat :=
  ik_input_buffer_cursor_get_position (cursor ib).

Definition is_word_char (byte : Z) : bool :=
  (((0x30 <=? byte) && (byte <=? 0x39)) || ((0x41 <=? byte) && (byte <=? 0x5A))
   || ((0x61 <=? byte) && (byte <=? 0x7A)) || (0xC0 <=? byte))%Z.

Definition is_whitespace (byte : Z) : bool :=
  ((byte =? 0x20) || (byte =? 0x09) || (byte =? 0x0A) || (byte =? 0x0D))%Z.

Inductive char_class : Set :=
| CHAR_CLASS_WORD
| CHAR_CLASS_WHITESPACE
| CHAR_CLASS_PUNCTUATION.

#[global] Instance char_class_eq_dec : EqDecision char_class.
Proof. solve_decision. Defined.

Definition get_char_class (byte : Z) : char_class :=
  if is_word_char byte then CHAR_CLASS_WORD
  else if is_whitespace byte then CHAR_CLASS_WHITESPACE
  else CHAR_CLASS_PUNCTUATION.

(** Both loops of delete_word_backward: move back while the byte at the start
    of the previous character satisfies [keep]. *)
Fixpoint back_while (fuel : nat) (keep : Z -> bool) (data : list Z) (pos : nat)
  : outcome nat :=
  match fuel with
  | 0 => NoFuel
  | S fuel =>
      if (0 <? pos)%nat then
        let! prev_pos := find_prev_char_start data pos in
        if keep (byte_at data prev_pos) then back_while fuel keep data prev_pos
        else Ret pos
      else Ret pos
  end.

Definition ik_input_buffer_delete_word_backward ib : outcome (ik_input_buffer T) :=
  if (cursor_byte_offset ib =? 0)%nat then Ret ib
  else
    let! data := data_of ib in
    let! pos := back_while (S (cursor_byte_offset ib)) is_whitespace data
                  (cursor_byte_offset ib) in
    let! pos :=
      if (pos =? 0)%nat then Ret pos
      else
        let! prev_pos := find_prev_char_start data pos in
        let target_class := get_char_class (byte_at data prev_pos) in
        back_while (S pos)
          (fun b => bool_decide (get_char_class b = target_class)) data pos in
    let! t := delete_n (text ib) pos (cursor_byte_offset ib - pos) in
    let ib := set_offset pos (set_text_field t ib) in
    let! ib := sync_cursor (cursor_byte_offset ib) ib in
    Ret (ik_input_buffer_invalidate_layout (set_target 0 ib)).

End operations.

(** ** Abstraction *)

Section refinement.
Context {T : Type} `{!ByteStore T} `{!ByteStoreLaws T} `{!Utf8proc} `{!Utf8procSpec}.
Implicit Types ib : ik_input_buffer T.

(** The buffer holds [pre ++ post] as UTF-8 with both byte offsets of the
    cursor between [pre] and [post]. *)
Record rep (ib : ik_input_buffer T) (pre post : list Z) : Prop := {
  rep_ok : bs_ok (text ib);
  rep_bytes : bs_bytes (text ib) = text_of (pre ++ post);
  rep_scalar : Forall scalar (pre ++ post);
  rep_offset : cursor_byte_offset ib = length (text_of pre);
  rep_cursor : byte_offset (cursor ib) = length (text_of pre)
}.

(** The grapheme offset agrees with the text before the cursor. *)
Definition graphemes_ok ib (pre : list Z) : Prop :=
  grapheme_offset (cursor ib) = clusters (-1) pre.

(** Room for one more code point in the byte vector. *)
Definition has_room (cps : list Z) : Prop :=
  (Z.of_nat (length (text_of cps) + 4) < 2 ^ 62)%Z.

(** What every text modification leaves behind. *)
Definition modified ib (pre post : list Z) : Prop :=
  rep ib pre post /\ graphemes_ok ib pre /\ layout_dirty ib = 1%Z /\ target_column ib = 0.

Lemma rep_size ib pre post : rep ib pre post -> bs_size (text ib) = length (text_of (pre ++ post)).
Proof. intros [Hok Hb _ _ _]. by rewrite bs_size_ok, Hb. Qed.

Lemma rep_pre_empty ib pre post : rep ib pre post -> length (text_of pre) = 0 -> pre = [].
Proof.
  intros [_ _ Hs _ _] Hl. apply length_zero_iff_nil in Hl.
  apply Forall_app in Hs as [Hs _]. by apply text_of_nil_inv.
Qed.

Lemma rep_post_nonempty ib pre post :
  rep ib pre post -> length (text_of pre) < length (text_of (pre ++ post)) -> post <> [].
Proof. intros _ Hl ->. rewrite app_nil_r in Hl. lia. Qed.

(** Where the text is not empty its data pointer is not NULL. *)
Lemma rep_ptr ib pre post :
  rep ib pre post -> pre ++ post <> [] -> bs_ptr (text ib) = Some (text_of (pre ++ post)).
Proof.
  intros [Hok Hb Hs _ _] Hne. rewrite <- Hb. apply bs_ptr_some; [done|].
  rewrite Hb. intros E. by apply text_of_nil_inv in E.
Qed.

(** *** Loops over the byte vector *)

Lemma append_all_spec bytes (t : T) :
  bs_ok t -> (Z.of_nat (length (bs_bytes t) + length bytes) < 2 ^ 62)%Z ->
  exists t', append_all t bytes = Ret t' /\ bs_ok t' /\ bs_bytes t' = bs_bytes t ++ bytes.
Proof.
  revert t. induction bytes as [|b bytes IH]; intros t Hok Hl; simpl in *.
  { exists t. by rewrite app_nil_r. }
  destruct (bs_append_ok t b Hok) as (t1 & -> & Hok1 & Hb1); [lia|]. cbn [obind].
  destruct (IH t1 Hok1) as (t' & -> & Hok' & Hb'); [rewrite Hb1; len_lia|].
  exists t'. by rewrite Hb', Hb1, <- app_assoc.
Qed.

Lemma insert_all_spec bytes (t : T) l1 l2 :
  bs_ok t -> bs_bytes t = l1 ++ l2 ->
  (Z.of_nat (length (bs_bytes t) + length bytes) < 2 ^ 62)%Z ->
  exists t', insert_all t (length l1) bytes = Ret t' /\ bs_ok t' /\
             bs_bytes t' = l1 ++ bytes ++ l2.
Proof.
  revert t l1. induction bytes as [|b bytes IH]; intros t l1 Hok Hb Hl; simpl in *; [eauto|].
  destruct (bs_insert_ok t (length l1) b Hok) as (t1 & -> & Hok1 & Hb1);
    [lia | rewrite Hb; len_lia |]. cbn [obind].
  rewrite Hb, insert_at_app in Hb1.
  replace (S (length l1)) with (length (l1 ++ [b])) by len_lia.
  destruct (IH t1 (l1 ++ [b]) Hok1) as (t' & -> & Hok' & Hb').
  - by rewrite Hb1, <- app_assoc.
  - rewrite Hb1, Hb in *. len_lia.
  - exists t'. by rewrite Hb', <- app_assoc.
Qed.

Lemma delete_n_spec m (t : T) l1 l2 :
  bs_ok t -> bs_bytes t = l1 ++ m ++ l2 ->
  exists t', delete_n t (length l1) (length m) = Ret t' /\ bs_ok t' /\
             bs_bytes t' = l1 ++ l2 /\ (bs_ptr t <> None \/ m <> [] -> bs_ptr t' <> None).
Proof.
  revert t. induction m as [|b m IH]; intros t Hok Hb; simpl in *.
  { exists t. split_and!; auto. by intros [?|?]. }
  destruct (bs_delete_ok t (length l1) Hok) as (t1 & -> & Hok1 & Hb1 & Hp1);
    [rewrite Hb; len_lia|]. cbn [obind].
  rewrite Hb, delete_at_app in Hb1.
  destruct (IH t1 Hok1 Hb1) as (t' & ? & ? & ? & Hp). exists t'. split_and!; auto.
Qed.

(** Re-synchronising the cursor after a modification. *)
Lemma sync_cursor_spec ib pre post :
  bs_ok (text ib) -> bs_bytes (text ib) = text_of (pre ++ post) ->
  bs_ptr (text ib) <> None -> Forall scalar (pre ++ post) ->
  sync_cursor (length (text_of pre)) ib
  = Ret (set_cursor (mk_cursor (length (text_of pre)) (clusters (-1) pre)) ib).
Proof.
  intros Hok Hb Hp Hs. unfold sync_cursor, ik_input_buffer_get_text.
  destruct (bs_ptr (text ib)) as [d|] eqn:Hd; [|done].
  apply bs_ptr_bytes in Hd as ->; [|done].
  by rewrite bs_size_ok, Hb, set_position_spec.
Qed.

(** *** Character boundaries in the bytes *)

Lemma back_to_lead_spec pre c rest :
  scalar c ->
  back_to_lead (text_of pre ++ encode_utf8 c ++ rest)
    (length (text_of pre) + (length (encode_utf8 c) - 1)) = length (text_of pre).
Proof.
  intros Hc. destruct (encodes_shape c _ (encodes_scalar c Hc)) as (l & conts & -> & Hconts & Hl & _).
  simpl length. rewrite Nat.sub_succ, Nat.sub_0_r.
  generalize rest. clear rest. induction conts as [|b conts IH] using rev_ind; intros rest.
  - simpl length. rewrite Nat.add_0_r.
    destruct (length (text_of pre)) eqn:Hn; [by simpl|]. cbn [back_to_lead].
    unfold byte_at. rewrite lookup_app_r by lia. rewrite Hn, Nat.sub_diag. simpl. by rewrite Hl.
  - apply Forall_app in Hconts as [Hconts Hb]. inversion Hb as [|?? Hcb _]; subst.
    replace ((l :: conts ++ [b]) ++ rest) with ((l :: conts) ++ b :: rest)
      by (simpl; by rewrite <- app_assoc).
    rewrite length_app, Nat.add_assoc. simpl length. rewrite Nat.add_1_r. cbn [back_to_lead].
    assert (byte_at (text_of pre ++ (l :: conts) ++ b :: rest)
              (S (length (text_of pre) + length conts)) = b) as ->.
    { unfold byte_at. rewrite lookup_app_r by lia.
      replace (S (length (text_of pre) + length conts) - length (text_of pre))
        with (S (length conts)) by lia.
      simpl. by rewrite list_lookup_middle. }
    rewrite Hcb. by apply IH.
Qed.

(** The start of the character before the cursor. *)
Lemma find_prev_char_start_spec pre c post :
  scalar c ->
  find_prev_char_start (text_of ((pre ++ [c]) ++ post)) (length (text_of (pre ++ [c])))
  = Ret (length (text_of pre)).
Proof.
  intros Hc. pose proof (encode_length c Hc). unfold find_prev_char_start.
  rewrite !text_of_app, !text_of_one, <- app_assoc.
  rewrite (proj2 (Nat.ltb_lt _ _)) by len_lia. f_equal.
  rewrite <- (back_to_lead_spec pre c (text_of post) Hc) at 1. f_equal. len_lia.
Qed.

(** The byte the class of a character is taken from. *)
Definition lead_byte (c : Z) : Z := byte_at (encode_utf8 c) 0.

Lemma byte_at_start pre c post :
  scalar c -> byte_at (text_of (pre ++ c :: post)) (length (text_of pre)) = lead_byte c.
Proof.
  intros Hc. pose proof (encode_length c Hc).
  unfold byte_at, lead_byte. rewrite text_of_app, text_of_cons.
  rewrite lookup_app_r, Nat.sub_diag, lookup_app_l by lia. done.
Qed.

Lemma find_next_char_end_spec pre c post :
  scalar c ->
  find_next_char_end (text_of (pre ++ c :: post)) (length (text_of (pre ++ c :: post)))
    (length (text_of pre)) = length (text_of pre) + length (encode_utf8 c).
Proof.
  intros Hc. pose proof (encode_length c Hc). unfold find_next_char_end.
  rewrite (byte_at_start pre c post Hc), text_of_app, text_of_cons.
  rewrite (proj2 (Nat.leb_gt _ _)) by len_lia.
  destruct (encodes_shape c _ (encodes_scalar c Hc)) as (l & conts & E & _ & _ & Hl & _).
  assert (lead_byte c = l) as -> by (unfold lead_byte; by rewrite E).
  rewrite Hl. cbn [default from_option id]. rewrite !E.
  by rewrite (proj2 (Nat.ltb_ge _ _)) by len_lia.
Qed.

(** *** Editing operations on the zipper *)

(** Shared end of the modifying operations: the bytes are those of
    [pre ++ post], the cursor goes between them and the caches are reset. *)
Lemma finish_modified ib pre post (t : T) :
  bs_ok t -> bs_bytes t = text_of (pre ++ post) -> bs_ptr t <> None ->
  Forall scalar (pre ++ post) ->
  let ib' := ik_input_buffer_invalidate_layout (set_target 0
               (set_offset (length (text_of pre)) (set_text_field t ib))) in
  exists ib'', sync_cursor (cursor_byte_offset ib') ib' = Ret ib'' /\ modified ib'' pre post.
Proof.
  intros Hok Hb Hp Hs ib'. eexists. split.
  - apply (sync_cursor_spec ib' pre post); done.
  - by split_and!.
Qed.

Lemma bs_ptr_nonempty (t : T) : bs_ok t -> bs_bytes t <> [] -> bs_ptr t <> None.
Proof. intros Hok Hne. by rewrite bs_ptr_some. Qed.

Lemma text_of_nonempty cps : Forall scalar cps -> cps <> [] -> text_of cps <> [].
Proof. intros Hs Hne E. by apply text_of_nil_inv in E. Qed.

Lemma create_rep :
  exists ib, ik_input_buffer_create = Ret ib /\ rep ib [] [] /\ graphemes_ok ib [] /\
    layout_dirty ib = 1%Z.
Proof.
  unfold ik_input_buffer_create.
  destruct (bs_create_ok (T := T) 64) as (t & -> & Hok & Hb); [lia|lia|].
  eexists. split_and!; [reflexivity| |done|done]. by constructor.
Qed.

Lemma clear_rep ib pre post : rep ib pre post -> modified (ik_input_buffer_clear ib) [] [].
Proof.
  intros [Hok Hb Hs _ _]. destruct (bs_clear_ok _ Hok) as [Hok' Hb'].
  by split_and!.
Qed.

Lemma insert_bytes_rep ib pre post new :
  rep ib pre post -> Forall scalar new -> new <> [] ->
  (Z.of_nat (length (text_of (pre ++ post)) + length (text_of new)) < 2 ^ 62)%Z ->
  exists t, insert_all (text ib) (cursor_byte_offset ib) (text_of new) = Ret t /\ bs_ok t /\
    bs_bytes t = text_of ((pre ++ new) ++ post) /\ bs_ptr t <> None /\
    Forall scalar ((pre ++ new) ++ post).
Proof.
  intros [Hok Hb Hs Ho _] Hn Hne Hl.
  destruct (insert_all_spec (text_of new) (text ib) (text_of pre) (text_of post) Hok)
    as (t & Ht & Hok' & Hb'); [by rewrite Hb, text_of_app | by rewrite Hb |].
  assert (Forall scalar ((pre ++ new) ++ post)) as Hs'.
  { apply Forall_app in Hs as [? ?]. rewrite !Forall_app. auto. }
  exists t. rewrite Ho. split_and!; auto.
  - by rewrite Hb', !text_of_app, app_assoc.
  - apply bs_ptr_nonempty; [done|]. rewrite Hb'. intros E.
    apply app_nil in E as [_ E]. apply app_nil in E as [E _].
    by apply text_of_nil_inv in E.
Qed.

Lemma insert_codepoint_spec ib pre post c :
  rep ib pre post -> has_room (pre ++ post) -> scalar c ->
  exists ib', ik_input_buffer_insert_codepoint ib c = Ret ib' /\ modified ib' (pre ++ [c]) post.
Proof.
  intros Hr Hroom Hc. pose proof (encode_length c Hc). unfold has_room in Hroom.
  destruct (insert_bytes_rep ib pre post [c] Hr) as (t & Ht & Hok & Hb & Hp & Hs);
    [by constructor | done | rewrite text_of_one; lia |].
  unfold ik_input_buffer_insert_codepoint.
  rewrite (proj2 (Nat.eqb_neq _ _)) by lia. rewrite text_of_one in Ht.
  rewrite Ht; cbn [obind]. rewrite (rep_offset _ _ _ Hr), pos_snoc.
  by apply finish_modified.
Qed.

Lemma insert_newline_spec ib pre post :
  rep ib pre post -> has_room (pre ++ post) ->
  exists ib', ik_input_buffer_insert_newline ib = Ret ib' /\ modified ib' (pre ++ [10%Z]) post.
Proof.
  intros Hr Hroom. unfold has_room in Hroom.
  destruct (insert_bytes_rep ib pre post [10%Z] Hr) as (t & Ht & Hok & Hb & Hp & Hs);
    [by repeat constructor | done | simpl; lia |].
  change (text_of [10%Z]) with [10%Z] in Ht. cbn [insert_all] in Ht.
  apply obind_Ret_inv in Ht as (t' & Ht & [= ->]).
  unfold ik_input_buffer_insert_newline. rewrite Ht; cbn [obind].
  rewrite (rep_offset _ _ _ Hr).
  replace (length (text_of pre) + 1) with (length (text_of (pre ++ [10%Z])))
    by (by rewrite <- pos_snoc).
  by apply finish_modified.
Qed.

(** Deleting the code points [m] between [a] and [b]. *)
Lemma delete_range_spec (t : T) a m b :
  bs_ok t -> bs_bytes t = text_of (a ++ m ++ b) -> Forall scalar (a ++ m ++ b) ->
  bs_ptr t <> None \/ m <> [] ->
  exists t', delete_n t (length (text_of a)) (length (text_of (a ++ m)) - length (text_of a))
             = Ret t' /\
    bs_ok t' /\ bs_bytes t' = text_of (a ++ b) /\ Forall scalar (a ++ b) /\ bs_ptr t' <> None.
Proof.
  intros Hok Hb Hs Hm.
  destruct (delete_n_spec (text_of m) t (text_of a) (text_of b) Hok)
    as (t' & Ht & Hok' & Hb' & Hp).
  { by rewrite Hb, !text_of_app. }
  apply Forall_app in Hs as [Hsa Hs]. apply Forall_app in Hs as [Hsm Hsb].
  exists t'. rewrite (text_of_app a m), length_app, Nat.add_comm, Nat.add_sub.
  split_and!; auto; [by rewrite Hb', text_of_app|by apply Forall_app|].
  apply Hp. destruct Hm; [by left|right]. by apply text_of_nonempty.
Qed.

Lemma data_of_spec ib pre post :
  rep ib pre post -> pre ++ post <> [] -> data_of ib = Ret (text_of (pre ++ post)).
Proof. intros Hr Hne. unfold data_of. by rewrite (rep_ptr _ _ _ Hr Hne). Qed.

Lemma offset_pos ib pre c post :
  rep ib (pre ++ [c]) post -> cursor_byte_offset ib <> 0 /\ byte_offset (cursor ib) <> 0 /\ scalar c.
Proof.
  intros [_ _ Hs -> ->]. rewrite <- app_assoc in Hs.
  apply Forall_app in Hs as [_ Hs]. inversion Hs as [|?? Hc _]; subst.
  pose proof (encode_length c Hc). rewrite <- pos_snoc. split_and!; lia || done.
Qed.

Lemma backspace_spec ib pre c post :
  rep ib (pre ++ [c]) post ->
  exists ib', ik_input_buffer_backspace ib = Ret ib' /\ modified ib' pre post.
Proof.
  intros Hr. destruct (offset_pos _ _ _ _ Hr) as (Hz & _ & Hc).
  unfold ik_input_buffer_backspace. rewrite (proj2 (Nat.eqb_neq _ _)) by done.
  rewrite (data_of_spec _ _ _ Hr) by (by destruct pre). cbn [obind].
  destruct Hr as [Hok Hb Hs Ho _]. rewrite Ho, find_prev_char_start_spec by done. cbn [obind].
  rewrite <- app_assoc in Hb, Hs.
  destruct (delete_range_spec (text ib) pre [c] post) as (t & -> & ? & ? & ? & ?); auto.
  cbn [obind]. by apply finish_modified.
Qed.

Lemma backspace_start ib post : rep ib [] post -> ik_input_buffer_backspace ib = Ret ib.
Proof. intros [_ _ _ Ho _]. unfold ik_input_buffer_backspace. by rewrite Ho. Qed.

Lemma delete_spec ib pre c post :
  rep ib pre (c :: post) ->
  exists ib', ik_input_buffer_delete ib = Ret ib' /\ modified ib' pre post.
Proof.
  intros Hr. pose proof (rep_size _ _ _ Hr) as Hsz.
  assert (pre ++ c :: post <> []) as Hne by (by destruct pre).
  pose proof (data_of_spec _ _ _ Hr Hne) as Hd. destruct Hr as [Hok Hb Hs Ho _].
  assert (scalar c) as Hc by (apply Forall_app in Hs as [_ Hs]; by inversion Hs).
  pose proof (encode_length c Hc). unfold ik_input_buffer_delete.
  rewrite Hsz, Ho, (proj2 (Nat.leb_gt _ _)) by (rewrite text_of_app, text_of_cons; len_lia).
  rewrite Hd; cbn [obind]. rewrite find_next_char_end_spec, pos_snoc by done.
  destruct (delete_range_spec (text ib) pre [c] post) as (t & -> & ? & ? & ? & ?); auto.
  cbn [obind].
  assert (set_text_field t ib = set_offset (length (text_of pre)) (set_text_field t ib)) as ->.
  { destruct ib; simpl in *. by rewrite Ho. }
  by apply finish_modified.
Qed.

Lemma delete_end ib pre : rep ib pre [] -> ik_input_buffer_delete ib = Ret ib.
Proof.
  intros Hr. unfold ik_input_buffer_delete.
  rewrite (rep_size _ _ _ Hr), app_nil_r, (rep_offset _ _ _ Hr).
  by rewrite (proj2 (Nat.leb_le _ _)).
Qed.

(** A cursor movement to [pre]|[post] with the text untouched. *)
Definition moved ib ib' (pre post : list Z) : Prop :=
  rep ib' pre post /\ text ib' = text ib /\ layout_dirty ib' = layout_dirty ib /\
  cached_width ib' = cached_width ib /\ physical_lines ib' = physical_lines ib.

Lemma cursor_left_spec ib pre post :
  rep ib pre post -> pre <> [] ->
  exists p c q ib', pre = p ++ c :: q /\ at_boundary p (c :: q ++ post) /\ clusters c q = 0 /\
    ik_input_buffer_cursor_left ib = Ret ib' /\ moved ib ib' p (c :: q ++ post) /\
    graphemes_ok ib' p /\ target_column ib' = 0.
Proof.
  intros Hr Hne.
  assert (pre ++ post <> []) as Hne' by (by destruct pre).
  destruct (move_left_spec pre post (grapheme_offset (cursor ib)) (rep_scalar _ _ _ Hr) Hne)
    as (p & c & q & -> & Hb & Hq & E).
  exists p, c, q. eexists. split_and!; auto.
  - unfold ik_input_buffer_cursor_left, ik_input_buffer_get_text.
    rewrite (rep_ptr _ _ _ Hr Hne'), (rep_size _ _ _ Hr).
    assert (byte_offset (cursor ib) <> 0) as Hz.
    { rewrite (rep_cursor _ _ _ Hr). intros Hz. apply (rep_pre_empty _ _ _ Hr) in Hz. by destruct p. }
    rewrite (proj2 (Nat.eqb_neq _ _) Hz).
    assert (cursor ib = mk_cursor (length (text_of (p ++ c :: q))) (grapheme_offset (cursor ib)))
      as -> by (rewrite <- (rep_cursor _ _ _ Hr); by destruct (cursor ib)).
    rewrite E. reflexivity.
  - destruct Hr as [Hok Hby Hs _ _]. rewrite <- app_assoc in *. by split_and!.
  - done.
  - done.
Qed.

Lemma cursor_right_spec ib pre c post :
  rep ib pre (c :: post) ->
  exists q r ib', post = q ++ r /\ clusters c q = 0 /\ at_boundary (pre ++ c :: q) r /\
    ik_input_buffer_cursor_right ib = Ret ib' /\ moved ib ib' (pre ++ c :: q) r /\
    grapheme_offset (cursor ib') = S (grapheme_offset (cursor ib)) /\ target_column ib' = 0.
Proof.
  intros Hr. assert (pre ++ c :: post <> []) as Hne' by (by destruct pre).
  destruct (move_right_spec pre c post (grapheme_offset (cursor ib)) (rep_scalar _ _ _ Hr))
    as (q & r & -> & Hq & Hb & E).
  assert (scalar c) as Hc.
  { pose proof (rep_scalar _ _ _ Hr) as Hs. apply Forall_app in Hs as [_ Hs]. by inversion Hs. }
  pose proof (encode_length c Hc).
  exists q, r. eexists. split_and!; auto.
  - unfold ik_input_buffer_cursor_right, ik_input_buffer_get_text.
    rewrite (rep_ptr _ _ _ Hr Hne'), (rep_size _ _ _ Hr), (rep_cursor _ _ _ Hr).
    rewrite (proj2 (Nat.leb_gt _ _)) by (rewrite text_of_app, text_of_cons; len_lia).
    assert (cursor ib = mk_cursor (length (text_of pre)) (grapheme_offset (cursor ib)))
      as -> by (rewrite <- (rep_cursor _ _ _ Hr); by destruct (cursor ib)).
    rewrite E. reflexivity.
  - destruct Hr as [Hok Hby Hs _ _]. rewrite app_comm_cons, app_assoc in *. by split_and!.
  - done.
  - done.
Qed.

(** *** delete_word_backward *)

(** The code points that satisfy [keep] right before the cursor. *)
Definition kept (keep : Z -> bool) (c : Z) : Prop := keep (lead_byte c) = true.

Definition stops (keep : Z -> bool) (p : list Z) : Prop :=
  p = [] \/ exists p' c, p = p' ++ [c] /\ keep (lead_byte c) = false.

Lemma back_while_spec keep pre post fuel :
  Forall scalar (pre ++ post) -> length pre < fuel ->
  exists p m, pre = p ++ m /\ Forall (kept keep) m /\ stops keep p /\
    back_while fuel keep (text_of (pre ++ post)) (length (text_of pre))
    = Ret (length (text_of p)).
Proof.
  revert post fuel. induction pre as [|c pre IH] using rev_ind; intros post fuel Hs Hf;
    (destruct fuel as [|fuel]; [simpl in Hf; lia|]); cbn [back_while].
  - exists [], []. rewrite (proj2 (Nat.ltb_ge _ _)) by done. by split_and!; [| |left|].
  - assert (scalar c) as Hc.
    { rewrite <- app_assoc in Hs. apply Forall_app in Hs as [_ Hs]. by inversion Hs. }
    pose proof (encode_length c Hc).
    rewrite (proj2 (Nat.ltb_lt _ _)) by (rewrite <- pos_snoc; lia).
    rewrite find_prev_char_start_spec by done. cbn [obind].
    rewrite <- app_assoc in *. cbn [app] in *. rewrite byte_at_start by done.
    destruct (keep (lead_byte c)) eqn:Hk.
    + destruct (IH (c :: post) fuel) as (p & m & -> & Hm & Hst & E); [done|len_lia|].
      exists p, (m ++ [c]). rewrite E, app_assoc. split_and!; auto.
      apply Forall_app; auto.
    + exists (pre ++ [c]), []. rewrite app_nil_r. split_and!; auto. right. eauto.
Qed.

Lemma stops_last_class keep p : stops keep p -> p <> [] ->
  exists p' c, p = p' ++ [c] /\ keep (lead_byte c) = false.
Proof. intros [->|?]; [done|auto]. Qed.

Definition class_of (c : Z) : char_class := get_char_class (lead_byte c).

(** The cut made by delete_word_backward in the text before the cursor: [s] is
    the run of whitespace, [w] the run of one character class before it. *)
Definition word_cut (pre p w s : list Z) : Prop :=
  pre = p ++ w ++ s /\ Forall (kept is_whitespace) s /\ stops is_whitespace (p ++ w) /\
  (p ++ w = [] \/
   exists cls, w <> [] /\ Forall (fun c => class_of c = cls) w /\
     (p = [] \/ exists p' c, p = p' ++ [c] /\ class_of c <> cls)).

Lemma word_positions ib pre post :
  rep ib pre post -> pre <> [] ->
  exists p w s pos1, word_cut pre p w s /\ pos1 = length (text_of (p ++ w)) /\
    back_while (S (cursor_byte_offset ib)) is_whitespace (text_of (pre ++ post))
      (cursor_byte_offset ib) = Ret pos1 /\
    (if (pos1 =? 0)%nat then Ret pos1
     else
       let! prev_pos := find_prev_char_start (text_of (pre ++ post)) pos1 in
       let target_class := get_char_class (byte_at (text_of (pre ++ post)) prev_pos) in
       back_while (S pos1) (fun b => bool_decide (get_char_class b = target_class))
         (text_of (pre ++ post)) pos1) = Ret (length (text_of p)).
Proof.
  intros Hr Hne. pose proof Hr as [_ _ Hs Ho _]. rewrite Ho.
  assert (Forall scalar pre) as Hsp by (by apply Forall_app in Hs as [? _]).
  destruct (back_while_spec is_whitespace pre post (S (length (text_of pre))) Hs)
    as (q & s & -> & Hws & Hst & E1); [pose proof (length_text_of _ Hsp); lia|].
  apply Forall_app in Hsp as [Hsq _]. rewrite <- app_assoc in Hs.
  destruct (decide (q = [])) as [->|Hq].
  - exists [], [], s, 0. split_and!; try done. split_and!; auto.
  - destruct (stops_last_class _ _ Hst Hq) as (q' & c & -> & Hcw).
    assert (scalar c) as Hc by (apply Forall_app in Hsq as [_ Hsc]; by inversion Hsc).
    pose proof (encode_length c Hc).
    destruct (back_while_spec (fun b => bool_decide (get_char_class b = class_of c))
      (q' ++ [c]) (s ++ post) (S (length (text_of (q' ++ [c]))))) as (p & w & Hpw & Hw & Hsw & E2);
      [done | pose proof (length_text_of _ Hsq); lia|].
    exists p, w, s, (length (text_of (q' ++ [c]))).
    split_and!; auto; [| by rewrite Hpw |].
    + unfold word_cut. rewrite app_assoc, <- Hpw. split_and!; auto. right. exists (class_of c).
      split_and!.
      * intros ->. rewrite app_nil_r in Hpw. subst p.
        destruct Hsw as [?|(p' & d & Hd & Hk)]; [by destruct q'|].
        apply app_inj_tail in Hd as [_ <-]. by apply bool_decide_eq_false in Hk.
      * eapply Forall_impl; [exact Hw|]. intros d Hd. by apply bool_decide_eq_true in Hd.
      * destruct Hsw as [?|(p' & d & Hd & Hk)]; [auto|right]. exists p', d. split; [done|].
        by apply bool_decide_eq_false in Hk.
    + rewrite (proj2 (Nat.eqb_neq _ _)) by (rewrite <- pos_snoc; lia).
      rewrite <- (app_assoc (q' ++ [c])), find_prev_char_start_spec by done. cbn [obind].
      assert (byte_at (text_of ((q' ++ [c]) ++ s ++ post)) (length (text_of q')) = lead_byte c)
        as -> by (rewrite <- app_assoc; by apply byte_at_start).
      exact E2.
Qed.

Lemma delete_word_backward_spec ib pre post :
  rep ib pre post -> pre <> [] ->
  exists p w s ib', word_cut pre p w s /\
    ik_input_buffer_delete_word_backward ib = Ret ib' /\ modified ib' p post.
Proof.
  intros Hr Hne.
  destruct (word_positions ib pre post Hr Hne) as (p & w & s & pos1 & Hcut & Hp1 & E1 & E2).
  pose proof Hcut as (Hpre & _ & Hst & Hw).
  assert (w ++ s <> []) as Hws.
  { intros [-> ->]%app_nil. rewrite !app_nil_r in *. subst.
    destruct Hw as [->|(cls & ? & _)]; done. }
  unfold ik_input_buffer_delete_word_backward.
  rewrite (proj2 (Nat.eqb_neq _ _)).
  2: { rewrite (rep_offset _ _ _ Hr). intros Hz. by apply (rep_pre_empty _ _ _ Hr) in Hz. }
  rewrite (data_of_spec _ _ _ Hr) by (by destruct pre). cbn [obind].
  cbn [obind] in E2. rewrite E1; cbn [obind]. rewrite E2; cbn [obind].
  destruct Hr as [Hok Hb Hs Ho Hc]. rewrite Ho, Hpre.
  rewrite Hpre, <- app_assoc in Hb, Hs.
  destruct (delete_range_spec (text ib) p (w ++ s) post) as (t & -> & Hok' & Hb' & Hs' & Hp'); auto.
  cbn [obind]. erewrite (sync_cursor_spec _ p post); [|done..]. cbn [obind].
  exists p, w, s. eexists. split; [by rewrite <- Hpre|]. split; [reflexivity|]. by split_and!.
Qed.

Lemma delete_word_backward_start ib post :
  rep ib [] post -> ik_input_buffer_delete_word_backward ib = Ret ib.
Proof. intros [_ _ _ Ho _]. unfold ik_input_buffer_delete_word_backward. by rewrite Ho. Qed.

(** *** set_text *)

Lemma set_text_spec ib pre post cps :
  rep ib pre post -> Forall scalar cps -> (Z.of_nat (length (text_of cps)) < 2 ^ 62)%Z ->
  exists ib', ik_input_buffer_set_text ib (text_of cps) = Ret ib' /\ modified ib' [] cps.
Proof.
  intros [Hok _ _ _ _] Hs Hl. destruct (bs_clear_ok _ Hok) as [Hok1 Hb1].
  destruct (append_all_spec (text_of cps) _ Hok1) as (t & Ht & Hok' & Hb');
    [rewrite Hb1; simpl; lia|].
  unfold ik_input_buffer_set_text. rewrite Ht. cbn [obind].
  eexists. split; [reflexivity|]. rewrite Hb1 in Hb'. by split_and!.
Qed.

End refinement.
