(* ===== verification/Multiline.v ===== *)
(** * Multi-line editing (input_buffer/multiline.c)

    Line boundaries, vertical movement with the remembered column, and the
    kill commands, refined to the zipper of [InputBuffer]. *)

From S2P Require Import Prelude ByteArray Utf8 Unicode Cursor InputBuffer.

Definition newline : Z := 10.

(** ** Definitions *)

(** Scan backward from [pos] to the byte after the previous newline. *)
Fixpoint find_line_start (text : list Z) (cursor_pos : nat) : nat :=
  match cursor_pos with
  | 0 => 0
  | S p => if (byte_at text p =? newline)%Z then cursor_pos else find_line_start text p
  end.

(** Scan forward: [n] bytes remain before the end of the text. *)
Fixpoint scan_line_end (text : list Z) (n pos : nat) : nat :=
  match n with
  | 0 => pos
  | S n => if (byte_at text pos =? newline)%Z then pos else scan_line_end text n (S pos)
  end.

Definition find_line_end (text : list Z) (text_len cursor_pos : nat) : nat :=
  scan_line_end text (text_len - cursor_pos) cursor_pos.

(** The common loop of count_graphemes and grapheme_to_byte_offset: advance by
    the length the lead byte announces, while fewer than [limit] steps
    ([None]: no limit) were made.  The result is (byte_pos, grapheme_count). *)
Fixpoint lead_loop (fuel : nat) (text : list Z) (len : nat) (limit : option nat)
    (byte_pos grapheme_count : nat) : outcome (nat * nat) :=
  match fuel with
  | 0 => NoFuel
  | S fuel =>
      if (byte_pos <? len)%nat
         && match limit with Some n => (grapheme_count <? n)%nat | None => true end
      then
        match lead_len (byte_at text byte_pos) with
        | Some char_len =>
            lead_loop fuel text len limit (byte_pos + char_len) (S grapheme_count)
        | None => Panic
        end
      else Ret (byte_pos, grapheme_count)
  end.

Definition count_graphemes (text : list Z) (len : nat) : outcome nat :=
  if (len =? 0)%nat then Ret 0
  else let! (_, grapheme_count) := lead_loop (S len) text len None 0 0 in Ret grapheme_count.

Definition grapheme_to_byte_offset (text : list Z) (len target_grapheme : nat)
  : outcome nat :=
  if (len =? 0)%nat || (target_grapheme =? 0)%nat then Ret 0
  else
    let! (byte_pos, _) := lead_loop (S len) text len (Some target_grapheme) 0 0 in
    Ret byte_pos.

Section operations.
Context {T : Type} `{ByteStore T} `{Utf8proc}.
Implicit Types ib : ik_input_buffer T.

(** The tail of both vertical movements: the column in the line that begins at
    [line_start] and ends at [line_end]. *)
Definition goto_column ib (text : list Z) (text_len column_graphemes line_start line_end : nat)
  : outcome (ik_input_buffer T) :=
  let ib := if (target_column ib =? 0)%nat then set_target column_graphemes ib else ib in
  let! line_graphemes := count_graphemes (drop line_start text) (line_end - line_start) in
  let desired_column :=
    if (0 <? target_column ib)%nat then target_column ib else column_graphemes in
  let target_column :=
    if (desired_column <=? line_graphemes)%nat then desired_column else line_graphemes in
  let! off := grapheme_to_byte_offset (drop line_start text) (line_end - line_start)
                target_column in
  let new_pos := line_start + off in
  let ib := set_offset new_pos ib in
  let! c := ik_input_buffer_cursor_set_position (Some text) text_len new_pos in
  Ret (set_cursor c ib).

Definition ik_input_buffer_cursor_up ib : outcome (ik_input_buffer T) :=
  match ik_input_buffer_get_text ib with
  | (None, _) => Ret ib
  | (Some text, text_len) =>
      if (text_len =? 0)%nat then Ret ib
      else
        let cursor_pos := byte_offset (cursor ib) in
        let current_line_start := find_line_start text cursor_pos in
        if (current_line_start =? 0)%nat then Ret ib
        else
          let! column_graphemes := count_graphemes (drop current_line_start text)
                                     (cursor_pos - current_line_start) in
          let prev_line_start := find_line_start text (current_line_start - 1) in
          let prev_line_end := current_line_start - 1 in
          goto_column ib text text_len column_graphemes prev_line_start prev_line_end
  end.

Definition ik_input_buffer_cursor_down ib : outcome (ik_input_buffer T) :=
  match ik_input_buffer_get_text ib with
  | (None, _) => Ret ib
  | (Some text, text_len) =>
      if (text_len =? 0)%nat then Ret ib
      else
        let cursor_pos := byte_offset (cursor ib) in
        let current_line_start := find_line_start text cursor_pos in
        let current_line_end := find_line_end text text_len cursor_pos in
        if (text_len <=? current_line_end)%nat then Ret ib
        else
          let! column_graphemes := count_graphemes (drop current_line_start text)
                                     (cursor_pos - current_line_start) in
          let next_line_start := current_line_end + 1 in
          let next_line_end := find_line_end text text_len next_line_start in
          goto_column ib text text_len column_graphemes next_line_start next_line_end
  end.

(** Both line movements: go to [target] unless already there. *)
Definition goto_offset ib (text : list Z) (text_len target : nat)
  : outcome (ik_input_buffer T) :=
  if (byte_offset (cursor ib) =? target)%nat then Ret ib
  else
    let ib := set_offset target ib in
    let! c := ik_input_buffer_cursor_set_position (Some text) text_len target in
    Ret (set_target 0 (set_cursor c ib)).

Definition ik_input_buffer_cursor_to_line_start ib : outcome (ik_input_buffer T) :=
  match ik_input_buffer_get_text ib with
  | (None, _) => Ret ib
  | (Some text, text_len) =>
      if (text_len =? 0)%nat then Ret ib
      else goto_offset ib text text_len (find_line_start text (byte_offset (cursor ib)))
  end.

Definition ik_input_buffer_cursor_to_line_end ib : outcome (ik_input_buffer T) :=
  match ik_input_buffer_get_text ib with
  | (None, _) => Ret ib
  | (Some text, text_len) =>
      if (text_len =? 0)%nat then Ret ib
      else goto_offset ib text text_len
             (find_line_end text text_len (byte_offset (cursor ib)))
  end.

Definition ik_input_buffer_kill_to_line_end ib : outcome (ik_input_buffer T) :=
  match ik_input_buffer_get_text ib with
  | (None, _) => Ret ib
  | (Some text0, text_len) =>
      if (text_len =? 0)%nat then Ret ib
      else
        let cursor_pos := byte_offset (cursor ib) in
        let line_end := find_line_end text0 text_len cursor_pos in
        if (line_end <=? cursor_pos)%nat then Ret ib
        else
          let! t := delete_n (text ib) cursor_pos (line_end - cursor_pos) in
          let ib := set_offset cursor_pos (set_text_field t ib) in
          let! ib := sync_cursor cursor_pos ib in
          Ret (ik_input_buffer_invalidate_layout (set_target 0 ib))
  end.

Definition ik_input_buffer_kill_line ib : outcome (ik_input_buffer T) :=
  match ik_input_buffer_get_text ib with
  | (None, _) => Ret ib
  | (Some text0, text_len) =>
      if (text_len =? 0)%nat then Ret ib
      else
        let cursor_pos := byte_offset (cursor ib) in
        let line_start := find_line_start text0 cursor_pos in
        let line_end := find_line_end text0 text_len cursor_pos in
        let delete_end := if (line_end <? text_len)%nat then line_end + 1 else line_end in
        let! t := delete_n (text ib) line_start (delete_end - line_start) in
        let ib := set_text_field t ib in
        let text_len := bs_size (text ib) in
        let new_cursor_pos := if (line_start <=? text_len)%nat then line_start else text_len in
        let ib := set_offset new_cursor_pos ib in
        let! ib := sync_cursor new_cursor_pos ib in
        Ret (ik_input_buffer_invalidate_layout (set_target 0 ib))
  end.

End operations.

(** ** Lines of a text *)

Definition line_begin (a : list Z) : Prop := a = [] \/ exists a', a = a' ++ [newline].
Definition line_finish (b : list Z) : Prop := b = [] \/ exists b', b = newline :: b'.

(** Every text before the cursor is complete lines, then the line so far. *)
Lemma split_last_line (l : list Z) :
  exists a m, l = a ++ m /\ line_begin a /\ newline ∉ m.
Proof.
  induction l as [|c l (a & m & -> & Ha & Hm)] using rev_ind.
  { exists [], []. split_and!; [done|by left|set_solver]. }
  destruct (decide (c = newline)) as [->|Hc].
  - exists ((a ++ m) ++ [newline]), []. rewrite app_nil_r.
    split_and!; [done|right; eauto|set_solver].
  - exists a, (m ++ [c]). rewrite app_assoc. split_and!; auto. set_solver.
Qed.

Lemma split_first_line (l : list Z) :
  exists m b, l = m ++ b /\ line_finish b /\ newline ∉ m.
Proof.
  induction l as [|c l (m & b & -> & Hb & Hm)].
  { exists [], []. split_and!; [done|by left|set_solver]. }
  destruct (decide (c = newline)) as [->|Hc].
  - exists [], (newline :: m ++ b). split_and!; [done|right; eauto|set_solver].
  - exists (c :: m), b. split_and!; auto. set_solver.
Qed.

(** *** Scans at byte level *)

Lemma find_line_start_bytes a m r :
  (a = [] \/ exists a', a = a' ++ [newline]) -> newline ∉ m ->
  find_line_start (a ++ m ++ r) (length a + length m) = length a.
Proof.
  intros Ha. revert r. induction m as [|b m IH] using rev_ind; intros r Hm.
  - rewrite Nat.add_0_r. destruct Ha as [->|[a' ->]]; [done|].
    rewrite length_app, Nat.add_1_r. cbn [find_line_start].
    unfold byte_at. rewrite <- app_assoc. cbn [app].
    by rewrite list_lookup_middle.
  - rewrite length_app, Nat.add_assoc. simpl. rewrite Nat.add_1_r. cbn [find_line_start].
    rewrite <- app_assoc. cbn [app].
    assert (byte_at (a ++ m ++ b :: r) (length a + length m) = b) as ->.
    { unfold byte_at. rewrite app_assoc, <- length_app. by rewrite list_lookup_middle. }
    rewrite (proj2 (Z.eqb_neq _ _)) by set_solver. apply IH. set_solver.
Qed.

Lemma scan_line_end_bytes a m b :
  (b = [] \/ exists b', b = newline :: b') -> newline ∉ m ->
  scan_line_end (a ++ m ++ b) (length m + length b) (length a) = length a + length m.
Proof.
  intros Hb. revert a. induction m as [|c m IH]; intros a Hm; simpl.
  - rewrite Nat.add_0_r. destruct Hb as [->|[b' ->]]; [done|]. simpl.
    unfold byte_at. by rewrite list_lookup_middle.
  - assert (byte_at (a ++ c :: m ++ b) (length a) = c) as ->
      by (unfold byte_at; by rewrite list_lookup_middle).
    rewrite (proj2 (Z.eqb_neq _ _)) by set_solver.
    specialize (IH (a ++ [c])). rewrite <- app_assoc, length_app, Nat.add_1_r in IH.
    cbn [app] in IH. rewrite IH by set_solver. lia.
Qed.

Lemma newline_not_in_text cps : Forall scalar cps -> newline ∉ cps -> newline ∉ text_of cps.
Proof. intros Hs Hn Hin. apply Hn. apply text_of_ascii; done. Qed.

Lemma text_line_begin a : line_begin a -> text_of a = [] \/ exists b, text_of a = b ++ [newline].
Proof. intros [->|[a' ->]]; [by left|right]. exists (text_of a'). by rewrite text_of_snoc. Qed.

Lemma text_line_finish b : line_finish b -> text_of b = [] \/ exists c, text_of b = newline :: c.
Proof. intros [->|[b' ->]]; [by left|right]. by exists (text_of b'). Qed.

Lemma find_line_start_spec a m r :
  line_begin a -> newline ∉ m -> Forall scalar m ->
  find_line_start (text_of (a ++ m ++ r)) (length (text_of (a ++ m))) = length (text_of a).
Proof.
  intros Ha Hm Hs. rewrite !text_of_app, length_app. apply find_line_start_bytes.
  - by apply text_line_begin.
  - by apply newline_not_in_text.
Qed.

Lemma find_line_end_spec a m b :
  line_finish b -> newline ∉ m -> Forall scalar m ->
  find_line_end (text_of (a ++ m ++ b)) (length (text_of (a ++ m ++ b))) (length (text_of a))
  = length (text_of (a ++ m)).
Proof.
  intros Hb Hm Hs. unfold find_line_end. rewrite !text_of_app, !length_app.
  replace (_ - _) with (length (text_of m) + length (text_of b)) by lia.
  apply scan_line_end_bytes; [by apply text_line_finish | by apply newline_not_in_text].
Qed.

(** *** Columns *)

Lemma lead_loop_spec a m r fuel limit n :
  Forall scalar m -> length m < fuel ->
  lead_loop fuel (text_of a ++ text_of m ++ r) (length (text_of (a ++ m)))
    limit (length (text_of a)) n
  = let k := match limit with Some l => Nat.min (l - n) (length m) | None => length m end in
    Ret (length (text_of (a ++ take k m)), n + k).
Proof.
  revert a fuel n. induction m as [|c m IH]; intros a fuel n Hs Hf;
    (destruct fuel as [|fuel]; [simpl in Hf; lia|]); cbn [lead_loop].
  - rewrite app_nil_r, (proj2 (Nat.ltb_ge _ _)) by lia. simpl.
    destruct limit; simpl; rewrite ?Nat.min_0_r; simpl; by rewrite ?app_nil_r, Nat.add_0_r.
  - inversion Hs as [|?? Hc Hs']; subst. pose proof (encode_length c Hc).
    rewrite (proj2 (Nat.ltb_lt (length (text_of a)) _))
      by (rewrite text_of_app, text_of_cons; len_lia).
    assert (lead_len (byte_at (text_of a ++ text_of (c :: m) ++ r) (length (text_of a)))
            = Some (length (encode_utf8 c))) as ->.
    { destruct (encodes_shape c _ (encodes_scalar c Hc)) as (l & conts & E & _ & _ & Hl & _).
      unfold byte_at. rewrite text_of_cons. rewrite E at 1. cbn [app].
      rewrite list_lookup_middle by done. exact Hl. }
    pose proof (IH (a ++ [c]) fuel (S n) Hs' ltac:(simpl in Hf; lia)) as E.
    rewrite <- pos_snoc, text_of_snoc, <- !app_assoc in E. cbn [app] in E.
    rewrite text_of_cons, <- app_assoc.
    destruct limit as [l|]; cbn [andb].
    + destruct (Nat.ltb_spec n l).
      * rewrite E. replace (Nat.min (l - n) (length (c :: m)))
          with (S (Nat.min (l - S n) (length m))) by (simpl length; lia).
        cbn zeta. cbn [take]. generalize (Nat.min (l - S n) (length m)). intros k.
        do 2 f_equal; [by rewrite <- app_assoc|lia].
      * replace (l - n) with 0 by lia. simpl. by rewrite app_nil_r, Nat.add_0_r.
    + rewrite E. cbn [take length]. do 2 f_equal; [by rewrite <- app_assoc|lia].
Qed.

(** The column count is the number of code points of the segment. *)
Lemma count_graphemes_spec m r :
  Forall scalar m -> count_graphemes (text_of m ++ r) (length (text_of m)) = Ret (length m).
Proof.
  intros Hs. unfold count_graphemes. pose proof (length_text_of m Hs).
  destruct (Nat.eqb_spec (length (text_of m)) 0) as [Hz|Hz].
  - assert (length m = 0) as -> by lia. done.
  - pose proof (lead_loop_spec [] m r (S (length (text_of m))) None 0 Hs ltac:(lia)) as E.
    change (text_of []) with (@nil Z) in E. cbn [app length] in E. by rewrite E.
Qed.

Lemma grapheme_to_byte_offset_spec m r n :
  Forall scalar m ->
  grapheme_to_byte_offset (text_of m ++ r) (length (text_of m)) n
  = Ret (length (text_of (take n m))).
Proof.
  intros Hs. unfold grapheme_to_byte_offset. pose proof (length_text_of m Hs).
  destruct (Nat.eqb_spec (length (text_of m)) 0) as [Hz|Hz].
  { assert (m = []) as -> by (apply length_zero_iff_nil; lia). by rewrite take_nil. }
  destruct (Nat.eqb_spec n 0) as [->|Hn]; [done|]. cbn [orb].
  pose proof (lead_loop_spec [] m r (S (length (text_of m))) (Some n) 0 Hs ltac:(lia)) as E.
  change (text_of []) with (@nil Z) in E. cbn [app length] in E. rewrite E. cbn [obind].
  rewrite Nat.sub_0_r. do 2 f_equal.
  destruct (Nat.min_spec n (length m)) as [[? ->]|[? ->]]; [done|].
  by rewrite !take_ge by lia.
Qed.

(** ** Refinement *)

Section refinement.
Context {T : Type} `{!ByteStore T} `{!ByteStoreLaws T} `{!Utf8proc} `{!Utf8procSpec}.
Implicit Types ib : ik_input_buffer T.

(** The column vertical movement aims for: the remembered one, or the current
    column when none is remembered (0 is the sentinel for none). *)
Definition aim (ib : ik_input_buffer T) (column : nat) : nat :=
  if (target_column ib =? 0)%nat then column else target_column ib.

Lemma get_text_spec ib pre post :
  rep ib pre post -> pre ++ post <> [] ->
  ik_input_buffer_get_text ib
  = (Some (text_of (pre ++ post)), length (text_of (pre ++ post))).
Proof.
  intros Hr Hne. unfold ik_input_buffer_get_text.
  by rewrite (rep_ptr _ _ _ Hr Hne), (rep_size _ _ _ Hr).
Qed.

(** The text pointer of an empty buffer may be NULL; both cases return early. *)
Lemma get_text_empty ib :
  rep ib [] [] -> ik_input_buffer_get_text ib = (None, 0) \/
                  ik_input_buffer_get_text ib = (Some [], 0).
Proof.
  intros Hr. unfold ik_input_buffer_get_text. rewrite (rep_size _ _ _ Hr).
  destruct Hr as [Hok Hb _ _ _]. destruct (bs_ptr (text ib)) as [d|] eqn:Hd; [|by left].
  right. apply bs_ptr_bytes in Hd as ->; [|done]. by rewrite Hb.
Qed.

Lemma text_len_nonzero cps :
  Forall scalar cps -> cps <> [] -> (length (text_of cps) =? 0)%nat = false.
Proof.
  intros Hs Hne. apply Nat.eqb_neq. intros Hz. apply length_zero_iff_nil in Hz.
  by apply text_of_nil_inv in Hz.
Qed.

Lemma goto_column_spec ib pre post a l b col :
  rep ib pre post -> pre ++ post = a ++ l ++ b ->
  exists ib', goto_column ib (text_of (pre ++ post)) (length (text_of (pre ++ post))) col
                (length (text_of a)) (length (text_of (a ++ l))) = Ret ib' /\
    moved ib ib' (a ++ take (aim ib col) l) (drop (aim ib col) l ++ b) /\
    graphemes_ok ib' (a ++ take (aim ib col) l) /\ target_column ib' = aim ib col.
Proof.
  intros [Hok Hb Hs Ho Hc] Heq. rewrite Heq in *.
  pose proof Hs as Hs'. apply Forall_app in Hs' as [_ Hs']. apply Forall_app in Hs' as [Hl _].
  unfold goto_column. set (t := aim ib col).
  assert (target_column (if (target_column ib =? 0)%nat then set_target col ib else ib) = t)
    as Ht by (unfold t, aim; by destruct_ifs).
  set (ib1 := if (target_column ib =? 0)%nat then set_target col ib else ib) in *.
  assert (drop (length (text_of a)) (text_of (a ++ l ++ b)) = text_of l ++ text_of b) as ->
    by (by rewrite !text_of_app, drop_app_length).
  assert (length (text_of (a ++ l)) - length (text_of a) = length (text_of l)) as ->
    by (rewrite text_of_app; len_lia).
  rewrite count_graphemes_spec by done. cbn [obind]. rewrite Ht.
  assert ((if (0 <? t)%nat then t else col) = t) as ->.
  { destruct (Nat.ltb_spec 0 t); [done|]. unfold t, aim in *.
    destruct (Nat.eqb_spec (target_column ib) 0); lia. }
  rewrite grapheme_to_byte_offset_spec by done. cbn [obind].
  assert (take (if (t <=? length l)%nat then t else length l) l = take t l) as ->.
  { destruct (Nat.leb_spec t (length l)); [done|]. by rewrite !take_ge by lia. }
  rewrite <- length_app, <- text_of_app.
  assert (a ++ l ++ b = (a ++ take t l) ++ drop t l ++ b) as Hsplit
    by (by rewrite <- !app_assoc, (app_assoc (take t l)), take_drop).
  rewrite Hsplit.
  assert (Forall scalar ((a ++ take t l) ++ drop t l ++ b)) as Hs2.
  { by rewrite <- !app_assoc, (app_assoc (take t l)), take_drop. }
  rewrite set_position_spec by done. cbn [obind]. eexists. split; [reflexivity|].
  assert (text ib1 = text ib /\ layout_dirty ib1 = layout_dirty ib /\
          cached_width ib1 = cached_width ib /\ physical_lines ib1 = physical_lines ib)
    as (E1 & E2 & E3 & E4) by (unfold ib1; by destruct_ifs).
  rewrite Hsplit in Hb. split_and!; try done. unfold moved. split_and!; try done.
  by constructor; simpl; rewrite ?E1.
Qed.

Lemma cursor_up_spec ib a p m post :
  rep ib ((a ++ p) ++ newline :: m) post -> line_begin a -> newline ∉ p -> newline ∉ m ->
  let t := aim ib (length m) in
  exists ib', ik_input_buffer_cursor_up ib = Ret ib' /\
    moved ib ib' (a ++ take t p) (drop t p ++ newline :: m ++ post) /\
    graphemes_ok ib' (a ++ take t p) /\ target_column ib' = t.
Proof.
  intros Hr Ha Hp Hm t.
  assert (((a ++ p) ++ newline :: m) ++ post = a ++ p ++ newline :: m ++ post) as Heq
    by (by rewrite <- !app_assoc).
  assert (((a ++ p) ++ newline :: m) ++ post = (((a ++ p) ++ [newline]) ++ m ++ post)) as Heq2
    by (by rewrite <- !app_assoc).
  pose proof (rep_scalar _ _ _ Hr) as Hs.
  assert (Forall scalar p /\ Forall scalar m) as [Hsp Hsm].
  { rewrite Heq, !Forall_app, Forall_cons, Forall_app in Hs. naive_solver. }
  unfold ik_input_buffer_cursor_up.
  rewrite (get_text_spec _ _ _ Hr) by (by rewrite Heq2; destruct a, p).
  rewrite text_len_nonzero by (done || by rewrite Heq2; destruct a, p).
  rewrite (rep_cursor _ _ _ Hr).
  assert ((a ++ p) ++ newline :: m = ((a ++ p) ++ [newline]) ++ m) as Hpre
    by (by rewrite <- (app_assoc (a ++ p))).
  assert (find_line_start (text_of (((a ++ p) ++ newline :: m) ++ post))
            (length (text_of ((a ++ p) ++ newline :: m)))
          = length (text_of ((a ++ p) ++ [newline]))) as ->.
  { rewrite Heq2, Hpre. apply find_line_start_spec; auto. right; eauto. }
  rewrite (proj2 (Nat.eqb_neq _ _)) by (rewrite text_of_snoc; simpl; len_lia).
  assert (length (text_of ((a ++ p) ++ [newline])) - 1 = length (text_of (a ++ p))) as ->
    by (rewrite <- pos_snoc; simpl; lia).
  assert (find_line_start (text_of (((a ++ p) ++ newline :: m) ++ post))
            (length (text_of (a ++ p))) = length (text_of a)) as ->.
  { rewrite Heq. by apply find_line_start_spec. }
  assert (count_graphemes
    (drop (length (text_of ((a ++ p) ++ [newline]))) (text_of (((a ++ p) ++ newline :: m) ++ post)))
    (length (text_of ((a ++ p) ++ newline :: m)) - length (text_of ((a ++ p) ++ [newline])))
    = Ret (length m)) as ->.
  { rewrite Heq2, Hpre, (text_of_app _ (m ++ post)), drop_app_length, text_of_app.
    rewrite (text_of_app _ m), length_app, Nat.add_comm, Nat.add_sub.
    by apply count_graphemes_spec. }
  cbn [obind]. by apply goto_column_spec.
Qed.

Lemma cursor_up_first_line ib m post :
  rep ib m post -> newline ∉ m -> ik_input_buffer_cursor_up ib = Ret ib.
Proof.
  intros Hr Hm. unfold ik_input_buffer_cursor_up.
  destruct (decide (m ++ post = [])) as [He|Hne].
  { apply app_nil in He as [-> ->].
    destruct (get_text_empty ib Hr) as [-> | ->]; done. }
  rewrite (get_text_spec _ _ _ Hr Hne), text_len_nonzero by (done || apply Hr).
  rewrite (rep_cursor _ _ _ Hr).
  pose proof (rep_scalar _ _ _ Hr) as Hs. apply Forall_app in Hs as [Hs _].
  pose proof (find_line_start_spec [] m post (or_introl eq_refl) Hm Hs) as E.
  cbn [app] in E. by rewrite E.
Qed.

Lemma cursor_down_spec ib a m1 m2 n b :
  rep ib (a ++ m1) (m2 ++ newline :: n ++ b) ->
  line_begin a -> newline ∉ m1 -> newline ∉ m2 -> newline ∉ n -> line_finish b ->
  let t := aim ib (length m1) in
  let down := (a ++ m1 ++ m2 ++ [newline]) ++ take t n in
  exists ib', ik_input_buffer_cursor_down ib = Ret ib' /\
    moved ib ib' down (drop t n ++ b) /\ graphemes_ok ib' down /\ target_column ib' = t.
Proof.
  intros Hr Ha Hm1 Hm2 Hn Hb t down.
  set (cps := (a ++ m1) ++ m2 ++ newline :: n ++ b) in *.
  assert (cps = a ++ m1 ++ m2 ++ newline :: n ++ b) as Heq1 by (unfold cps; by rewrite <- app_assoc).
  assert (cps = (a ++ m1 ++ m2 ++ [newline]) ++ n ++ b) as Heq2
    by (rewrite Heq1; by rewrite <- !app_assoc).
  pose proof (rep_scalar _ _ _ Hr) as Hs. fold cps in Hs.
  assert (Forall scalar m1 /\ Forall scalar m2 /\ Forall scalar n) as (Hs1 & Hs2 & Hsn).
  { rewrite Heq1 in Hs. repeat rewrite ?Forall_app, ?Forall_cons in Hs. naive_solver. }
  assert (cps <> []) as Hne by (rewrite Heq2; by destruct a, m1, m2).
  unfold ik_input_buffer_cursor_down.
  rewrite (get_text_spec _ _ _ Hr Hne), text_len_nonzero by done. fold cps.
  rewrite (rep_cursor _ _ _ Hr).
  assert (find_line_start (text_of cps) (length (text_of (a ++ m1))) = length (text_of a)) as ->
    by (rewrite Heq1; by apply find_line_start_spec).
  assert (find_line_end (text_of cps) (length (text_of cps)) (length (text_of (a ++ m1)))
          = length (text_of ((a ++ m1) ++ m2))) as ->.
  { unfold cps. apply find_line_end_spec; auto. right; eauto. }
  rewrite (proj2 (Nat.leb_gt _ _)).
  2: { unfold cps. rewrite app_assoc, (text_of_app ((a ++ m1) ++ m2)), text_of_cons. simpl. len_lia. }
  assert (count_graphemes (drop (length (text_of a)) (text_of cps))
            (length (text_of (a ++ m1)) - length (text_of a)) = Ret (length m1)) as ->.
  { rewrite Heq1, !text_of_app, drop_app_length, length_app, Nat.add_comm, Nat.add_sub.
    by apply count_graphemes_spec. }
  cbn [obind].
  assert (length (text_of ((a ++ m1) ++ m2)) + 1 = length (text_of (a ++ m1 ++ m2 ++ [newline])))
    as -> by (rewrite !text_of_app; simpl; len_lia).
  assert (find_line_end (text_of cps) (length (text_of cps))
            (length (text_of (a ++ m1 ++ m2 ++ [newline])))
          = length (text_of ((a ++ m1 ++ m2 ++ [newline]) ++ n))) as ->
    by (rewrite Heq2; by apply find_line_end_spec).
  by apply goto_column_spec.
Qed.

Lemma cursor_down_last_line ib pre m2 :
  rep ib pre m2 -> newline ∉ m2 -> ik_input_buffer_cursor_down ib = Ret ib.
Proof.
  intros Hr Hm. unfold ik_input_buffer_cursor_down.
  destruct (decide (pre ++ m2 = [])) as [He|Hne].
  { apply app_nil in He as [-> ->].
    destruct (get_text_empty ib Hr) as [-> | ->]; done. }
  rewrite (get_text_spec _ _ _ Hr Hne), text_len_nonzero by (done || apply Hr).
  rewrite (rep_cursor _ _ _ Hr).
  pose proof (rep_scalar _ _ _ Hr) as Hs. apply Forall_app in Hs as [_ Hs].
  pose proof (find_line_end_spec pre m2 [] (or_introl eq_refl) Hm Hs) as E.
  rewrite app_nil_r in E. by rewrite E, (proj2 (Nat.leb_le _ _)).
Qed.

(** Both line movements on the zipper. *)
Lemma goto_offset_spec ib pre post p q :
  rep ib pre post -> pre ++ post = p ++ q -> pre <> p ->
  exists ib', goto_offset ib (text_of (pre ++ post)) (length (text_of (pre ++ post)))
                (length (text_of p)) = Ret ib' /\
    moved ib ib' p q /\ graphemes_ok ib' p /\ target_column ib' = 0.
Proof.
  intros Hr Heq Hne. unfold goto_offset. rewrite (rep_cursor _ _ _ Hr).
  pose proof (rep_scalar _ _ _ Hr) as Hs. rewrite Heq in Hs.
  rewrite (proj2 (Nat.eqb_neq _ _)).
  2: { intros El. apply Hne. by apply (text_length_inj pre post p q). }
  rewrite Heq, set_position_spec by done. cbn [obind]. eexists. split; [reflexivity|].
  destruct Hr as [Hok Hb _ _ _]. rewrite Heq in Hb. by split_and!.
Qed.

Lemma goto_offset_same ib pre post :
  rep ib pre post ->
  goto_offset ib (text_of (pre ++ post)) (length (text_of (pre ++ post)))
    (length (text_of pre)) = Ret ib.
Proof. intros Hr. unfold goto_offset. by rewrite (rep_cursor _ _ _ Hr), Nat.eqb_refl. Qed.

(** The start of the line: at the start already, or [m] to its left. *)
Lemma line_start_offset ib a m post :
  rep ib (a ++ m) post -> line_begin a -> newline ∉ m ->
  find_line_start (text_of ((a ++ m) ++ post)) (byte_offset (cursor ib)) = length (text_of a).
Proof.
  intros Hr Ha Hm. rewrite (rep_cursor _ _ _ Hr), <- app_assoc.
  apply find_line_start_spec; auto. pose proof (rep_scalar _ _ _ Hr) as Hs.
  rewrite !Forall_app in Hs. naive_solver.
Qed.

Lemma line_end_offset ib pre m b :
  rep ib pre (m ++ b) -> line_finish b -> newline ∉ m ->
  find_line_end (text_of (pre ++ m ++ b)) (length (text_of (pre ++ m ++ b)))
    (byte_offset (cursor ib)) = length (text_of (pre ++ m)).
Proof.
  intros Hr Hb Hm. rewrite (rep_cursor _ _ _ Hr).
  apply find_line_end_spec; auto. pose proof (rep_scalar _ _ _ Hr) as Hs.
  rewrite !Forall_app in Hs. naive_solver.
Qed.

Lemma to_line_start_spec ib a m post :
  rep ib (a ++ m) post -> line_begin a -> newline ∉ m ->
  exists ib', ik_input_buffer_cursor_to_line_start ib = Ret ib' /\ moved ib ib' a (m ++ post) /\
    (m = [] -> ib' = ib) /\ (m <> [] -> graphemes_ok ib' a /\ target_column ib' = 0).
Proof.
  intros Hr Ha Hm. unfold ik_input_buffer_cursor_to_line_start.
  destruct (decide ((a ++ m) ++ post = [])) as [He|Hne].
  { apply app_nil in He as [He ->]. apply app_nil in He as [-> ->]. exists ib.
    split_and!; try done.
    destruct (get_text_empty ib Hr) as [-> | ->]; done. }
  rewrite (get_text_spec _ _ _ Hr Hne), text_len_nonzero by (done || apply Hr).
  rewrite (line_start_offset _ _ _ _ Hr Ha Hm).
  destruct (decide (m = [])) as [->|Hm0].
  - rewrite app_nil_r in *. exists ib. rewrite (goto_offset_same _ _ _ Hr). by split_and!.
  - destruct (goto_offset_spec ib (a ++ m) post a (m ++ post) Hr) as (ib' & E & ?);
      [by rewrite app_assoc| |exists ib'; split_and!; naive_solver].
    intros El. apply Hm0. apply (app_inv_head a). by rewrite app_nil_r.
Qed.

Lemma to_line_end_spec ib pre m b :
  rep ib pre (m ++ b) -> line_finish b -> newline ∉ m ->
  exists ib', ik_input_buffer_cursor_to_line_end ib = Ret ib' /\ moved ib ib' (pre ++ m) b /\
    (m = [] -> ib' = ib) /\ (m <> [] -> graphemes_ok ib' (pre ++ m) /\ target_column ib' = 0).
Proof.
  intros Hr Hb Hm. unfold ik_input_buffer_cursor_to_line_end.
  destruct (decide (pre ++ m ++ b = [])) as [He|Hne].
  { apply app_nil in He as [-> He]. apply app_nil in He as [-> ->]. exists ib.
    split_and!; try done.
    destruct (get_text_empty ib Hr) as [-> | ->]; done. }
  rewrite (get_text_spec _ _ _ Hr Hne), text_len_nonzero by (done || apply Hr).
  rewrite (line_end_offset _ _ _ _ Hr Hb Hm).
  destruct (decide (m = [])) as [->|Hm0].
  - rewrite app_nil_r in *. exists ib. rewrite (goto_offset_same _ _ _ Hr). by split_and!.
  - destruct (goto_offset_spec ib pre (m ++ b) (pre ++ m) b Hr) as (ib' & E & ?);
      [by rewrite app_assoc| |exists ib'; split_and!; naive_solver].
    intros El. apply Hm0, (app_inv_head pre). by rewrite app_nil_r.
Qed.

Lemma kill_to_line_end_spec ib pre m b :
  rep ib pre (m ++ b) -> line_finish b -> newline ∉ m ->
  exists ib', ik_input_buffer_kill_to_line_end ib = Ret ib' /\ rep ib' pre b /\
    (m = [] -> ib' = ib) /\ (m <> [] -> modified ib' pre b).
Proof.
  intros Hr Hb Hm. unfold ik_input_buffer_kill_to_line_end.
  destruct (decide (pre ++ m ++ b = [])) as [He|Hne].
  { apply app_nil in He as [-> He]. apply app_nil in He as [-> ->]. exists ib.
    split_and!; try done.
    destruct (get_text_empty ib Hr) as [-> | ->]; done. }
  rewrite (get_text_spec _ _ _ Hr Hne), text_len_nonzero by (done || apply Hr).
  rewrite (line_end_offset _ _ _ _ Hr Hb Hm), (rep_cursor _ _ _ Hr).
  destruct (decide (m = [])) as [->|Hm0].
  { rewrite app_nil_r, (proj2 (Nat.leb_le _ _)) by done. by exists ib. }
  pose proof Hr as [Hok Hby Hs _ _].
  assert (0 < length (text_of m)) as Hlen.
  { apply Forall_app in Hs as [_ Hs]. apply Forall_app in Hs as [Hs _].
    destruct (text_of m) eqn:E; [by apply text_of_nil_inv in E|simpl; lia]. }
  rewrite (proj2 (Nat.leb_gt _ _)) by (rewrite text_of_app; len_lia).
  destruct (delete_range_spec (text ib) pre m b) as (t & -> & Hok' & Hb' & Hs' & Hp'); auto.
  cbn [obind]. rewrite (sync_cursor_spec _ pre b) by done. cbn [obind].
  eexists. split; [reflexivity|]. by split_and!.
Qed.

(** The text after the line, without the newline that ends it. *)
Definition after_line (b : list Z) : list Z := tail b.

Lemma kill_line_spec ib a m1 m2 b :
  rep ib (a ++ m1) (m2 ++ b) -> (a ++ m1) ++ m2 ++ b <> [] ->
  line_begin a -> newline ∉ m1 -> newline ∉ m2 -> line_finish b ->
  exists ib', ik_input_buffer_kill_line ib = Ret ib' /\ modified ib' a (after_line b).
Proof.
  intros Hr Hne Ha Hm1 Hm2 Hb. unfold ik_input_buffer_kill_line.
  rewrite (get_text_spec _ _ _ Hr Hne), text_len_nonzero by (done || apply Hr).
  rewrite (line_start_offset _ _ _ _ Hr Ha Hm1), (line_end_offset _ _ _ _ Hr Hb Hm2).
  pose proof Hr as [Hok Hby Hs _ _].
  set (e := take 1 b).
  assert (b = e ++ after_line b) as Hbe by (by destruct b).
  assert ((if (length (text_of ((a ++ m1) ++ m2)) <? length (text_of ((a ++ m1) ++ m2 ++ b)))%nat
           then length (text_of ((a ++ m1) ++ m2)) + 1
           else length (text_of ((a ++ m1) ++ m2)))
          = length (text_of (a ++ m1 ++ m2 ++ e))) as ->.
  { unfold e. rewrite !text_of_app. destruct Hb as [->|[b' ->]].
    - change (text_of (take 1 [])) with (@nil Z). change (text_of []) with (@nil Z). rewrite (proj2 (Nat.ltb_ge _ _)) by len_lia. len_lia.
    - rewrite (proj2 (Nat.ltb_lt _ _)) by (rewrite text_of_cons; simpl; len_lia).
      change (text_of (take 1 (newline :: b'))) with [newline]. simpl. len_lia. }
  assert ((a ++ m1) ++ m2 ++ b = a ++ (m1 ++ m2 ++ e) ++ after_line b) as Hsplit
    by (rewrite Hbe at 1; by rewrite <- !app_assoc).
  rewrite Hsplit in Hby, Hs.
  destruct (delete_range_spec (text ib) a (m1 ++ m2 ++ e) (after_line b))
    as (t & -> & Hok' & Hb' & Hs' & Hp'); auto.
  { left. rewrite (rep_ptr _ _ _ Hr Hne). done. }
  cbn [obind text set_text_field]. rewrite bs_size_ok, Hb' by done.
  rewrite (proj2 (Nat.leb_le _ _)) by (rewrite text_of_app; len_lia).
  rewrite (sync_cursor_spec _ a (after_line b)) by done. cbn [obind].
  eexists. split; [reflexivity|]. by split_and!.
Qed.

Lemma kill_line_empty ib : rep ib [] [] -> ik_input_buffer_kill_line ib = Ret ib.
Proof.
  intros Hr. unfold ik_input_buffer_kill_line.
  destruct (get_text_empty ib Hr) as [-> | ->]; done.
Qed.

End refinement.
