(* ===== verification/Layout.v ===== *)
(** * The input buffer's layout cache (input_buffer/layout.c)

    Physical rows of the edited text at a terminal width.  The reference is
    [physical_rows]: one group of rows per line of the text, as many as its
    display width needs. *)

From S2P Require Import Prelude ByteArray Utf8 Unicode Cursor InputBuffer Multiline.

(** ** Definitions *)

Section definitions.
Context {T : Type} `{ByteStore T} `{Utf8proc}.
Implicit Types ib : ik_input_buffer T.

Fixpoint width_loop (fuel : nat) (text : list Z) (len pos display_width : nat) : outcome nat :=
  match fuel with
  | 0 => NoFuel
  | S fuel =>
      if (pos <? len)%nat then
        let skip := ik_ansi_skip_csi text len pos in
        if (0 <? skip)%nat then width_loop fuel text len (pos + skip) display_width
        else
          let '(bytes_read, codepoint) := utf8proc_iterate (drop pos text) in
          if (bytes_read <=? 0)%Z then width_loop fuel text len (S pos) (S display_width)
          else
            let char_width := utf8proc_charwidth codepoint in
            width_loop fuel text len (pos + Z.to_nat bytes_read)
              (if (0 <=? char_width)%Z then display_width + Z.to_nat char_width
               else display_width)
      else Ret display_width
  end.

Definition calculate_display_width (text : list Z) (len : nat) : outcome nat :=
  if (len =? 0)%nat then Ret 0 else width_loop (S len) text len 0 0.

(** The rows of one line: "line_len == 0", "display_width == 0", rounding up,
    and the defensive case of a width that is not positive. *)
Definition line_rows (terminal_width : Z) (display_width : nat) : nat :=
  if (display_width =? 0)%nat then 1
  else if (0 <? terminal_width)%Z then
    (display_width + Z.to_nat terminal_width - 1) / Z.to_nat terminal_width
  else 1.

(** [n] iterations of the scan for newlines remain. *)
Fixpoint layout_loop (n : nat) (text : list Z) (text_len : nat) (terminal_width : Z)
    (i line_start physical_lines : nat) : outcome nat :=
  match n with
  | 0 => Ret physical_lines
  | S n =>
      if (i =? text_len)%nat || (byte_at text i =? newline)%Z then
        let line_len := i - line_start in
        let! rows :=
          if (line_len =? 0)%nat then Ret 1
          else
            let! display_width :=
              calculate_display_width (take line_len (drop line_start text)) line_len in
            Ret (line_rows terminal_width display_width) in
        layout_loop n text text_len terminal_width (S i) (S i) (physical_lines + rows)
      else layout_loop n text text_len terminal_width (S i) line_start physical_lines
  end.

Definition ik_input_buffer_ensure_layout ib (terminal_width : Z)
  : outcome (ik_input_buffer T) :=
  if (layout_dirty ib =? 0)%Z && (cached_width ib =? terminal_width)%Z then Ret ib
  else
    match ik_input_buffer_get_text ib with
    | (None, _) => Ret (set_layout 0 terminal_width 0 ib)
    | (Some text, text_len) =>
        if (text_len =? 0)%nat then Ret (set_layout 0 terminal_width 0 ib)
        else
          let! lines := layout_loop (S text_len) text text_len terminal_width 0 0 0 in
          Ret (set_layout lines terminal_width 0 ib)
    end.

Definition ik_input_buffer_get_physical_lines ib : nat := physical_lines ib.

End definitions.

(** ** Reference *)

(** The lines of a text: what lies between its newlines. *)
Fixpoint lines_of (l : list Z) : list (list Z) :=
  match l with
  | [] => [[]]
  | c :: l =>
      if (c =? newline)%Z then [] :: lines_of l
      else match lines_of l with
           | x :: xs => (c :: x) :: xs
           | [] => [[c]]
           end
  end.

Lemma lines_of_last m : newline ∉ m -> lines_of m = [m].
Proof.
  induction m as [|c m IH]; intros Hm; [done|]. simpl.
  rewrite (proj2 (Z.eqb_neq _ _)) by set_solver. rewrite IH by set_solver. done.
Qed.

Lemma lines_of_first m l : newline ∉ m -> lines_of (m ++ newline :: l) = m :: lines_of l.
Proof.
  induction m as [|c m IH]; intros Hm; simpl; [done|].
  rewrite (proj2 (Z.eqb_neq _ _)) by set_solver. rewrite IH by set_solver. done.
Qed.

(** The lines of the bytes are the bytes of the lines. *)
Lemma lines_of_text cps : Forall scalar cps -> lines_of (text_of cps) = text_of <$> lines_of cps.
Proof.
  remember (length cps) as n eqn:Hn. revert cps Hn.
  induction (lt_wf n) as [n _ IH]; intros cps -> Hs.
  destruct (split_first_line cps) as (m & b & -> & Hb & Hm).
  apply Forall_app in Hs as [Hsm Hsb].
  rewrite text_of_app. destruct Hb as [->|[b' ->]].
  - change (text_of []) with (@nil Z). rewrite !app_nil_r.
    by rewrite !lines_of_last by (try apply newline_not_in_text; done).
  - change (text_of (newline :: b')) with (newline :: text_of b').
    rewrite !lines_of_first by (try apply newline_not_in_text; done).
    cbn [fmap list_fmap]. f_equal. eapply IH; [|done|by apply Forall_cons in Hsb as [_ ?]].
    len_lia.
Qed.

Section reference.
Context `{Utf8proc}.

Definition glyph_width (g : glyph) : nat :=
  match g with
  | Csi => 0
  | Bad => 1
  | Cp c => Z.to_nat (utf8proc_charwidth c)
  end.

Definition glyphs_width (gs : list glyph) : nat := sum_list (glyph_width <$> gs).

Definition physical_rows (width : Z) (bytes : list Z) : nat :=
  match bytes with
  | [] => 0
  | _ => sum_list ((fun line => line_rows width (glyphs_width (glyphs_of line)))
                     <$> lines_of bytes)
  end.

Lemma glyphs_width_cons g gs : glyphs_width (g :: gs) = glyph_width g + glyphs_width gs.
Proof. done. Qed.

(** The width of code points, and the rows of a text of code points. *)
Definition cps_width (cps : list Z) : nat :=
  sum_list ((fun c => Z.to_nat (utf8proc_charwidth c)) <$> cps).

Lemma glyphs_width_cps cps : glyphs_width (Cp <$> cps) = cps_width cps.
Proof. unfold glyphs_width, cps_width. by rewrite <- list_fmap_compose. Qed.

(** [line_rows] is the least positive number of rows that hold the line. *)
Lemma line_rows_least width w :
  (0 < width)%Z ->
  1 <= line_rows width w /\ w <= line_rows width w * Z.to_nat width /\
  forall r, 1 <= r -> w <= r * Z.to_nat width -> line_rows width w <= r.
Proof.
  intros Hw. unfold line_rows. rewrite (proj2 (Z.ltb_lt _ _)) by done.
  assert (0 < Z.to_nat width) as Hk by lia. generalize dependent (Z.to_nat width). intros k Hk.
  destruct (Nat.eqb_spec w 0) as [->|Hz]; [split_and!; intros; lia|].
  pose proof (Nat.div_mod (w + k - 1) k ltac:(lia)).
  pose proof (Nat.mod_upper_bound (w + k - 1) k ltac:(lia)).
  generalize dependent ((w + k - 1) / k). intros q Hq. split_and!.
  - destruct q; [|lia]. rewrite Nat.mul_0_r in Hq. lia.
  - nia.
  - intros r Hr Hle. assert (q < S r); [|lia]. nia.
Qed.

Lemma width_loop_spec fuel text len pos n :
  (len - pos < fuel)%nat ->
  width_loop fuel text len pos n = Ret (n + glyphs_width (glyphs fuel text len pos)).
Proof.
  revert pos n. induction fuel as [|fuel IH]; intros pos n Hf; [lia|].
  cbn [width_loop glyphs]. destruct (Nat.ltb_spec pos len); [|by rewrite Nat.add_0_r].
  unfold glyph_at. destruct (Nat.ltb_spec 0 (ik_ansi_skip_csi text len pos)).
  { rewrite IH by lia. done. }
  destruct (utf8proc_iterate _) as [bytes cp]. destruct (Z.leb_spec bytes 0).
  - rewrite IH, glyphs_width_cons by lia. replace (pos + 1) with (S pos) by lia.
    simpl. f_equal. lia.
  - rewrite IH, glyphs_width_cons by lia. simpl. f_equal.
    destruct (Z.leb_spec 0 (utf8proc_charwidth cp)); lia.
Qed.

Lemma calculate_display_width_spec text :
  calculate_display_width text (length text) = Ret (glyphs_width (glyphs_of text)).
Proof.
  unfold calculate_display_width, glyphs_of. destruct text as [|b text]; [done|].
  cbn [Nat.eqb length]. by rewrite width_loop_spec by lia.
Qed.

(** One line's rows as the loop computes them. *)
Lemma line_rows_loop width a cur rest :
  (if (length a + length cur - length a =? 0)%nat then Ret 1
   else
     let! display_width := calculate_display_width
       (take (length a + length cur - length a) (drop (length a) (a ++ cur ++ rest)))
       (length a + length cur - length a) in
     Ret (line_rows width display_width)) = Ret (line_rows width (glyphs_width (glyphs_of cur))).
Proof.
  replace (length a + length cur - length a) with (length cur) by lia.
  rewrite drop_app_length, take_app_length, calculate_display_width_spec.
  by destruct cur.
Qed.

Lemma layout_loop_spec width rest a cur n :
  newline ∉ cur ->
  layout_loop (S (length rest)) (a ++ cur ++ rest) (length (a ++ cur ++ rest)) width
    (length a + length cur) (length a) n
  = Ret (n + sum_list ((fun l => line_rows width (glyphs_width (glyphs_of l)))
                         <$> lines_of (cur ++ rest))).
Proof.
  revert a cur n. induction rest as [|b rest IH]; intros a cur n Hcur; cbn [layout_loop].
  - rewrite app_nil_r, length_app, Nat.eqb_refl, lines_of_last by done. cbn [orb].
    pose proof (line_rows_loop width a cur []) as E. rewrite app_nil_r in E.
    rewrite E. cbn [obind]. simpl. by rewrite Nat.add_0_r.
  - rewrite (proj2 (Nat.eqb_neq _ (length _))) by len_lia. cbn [orb].
    assert (byte_at (a ++ cur ++ b :: rest) (length a + length cur) = b) as ->.
    { unfold byte_at. by rewrite app_assoc, <- length_app, list_lookup_middle. }
    destruct (Z.eqb_spec b newline) as [->|Hb].
    + pose proof (line_rows_loop width a cur (newline :: rest)) as E.
      rewrite E. cbn [obind]. rewrite lines_of_first by done.
      cbn [fmap list_fmap sum_list sum_list_with foldr].
      pose proof (IH (a ++ cur ++ [newline]) [] (n + line_rows width (glyphs_width (glyphs_of cur)))
                    ltac:(set_solver)) as IH'.
      cbn [app] in IH'. rewrite <- !app_assoc in IH'. cbn [app] in IH'.
      replace (length (a ++ cur ++ [newline]) + length (@nil Z)) with (S (length a + length cur))
        in IH' by len_lia.
      replace (length (a ++ cur ++ [newline])) with (S (length a + length cur)) in IH' by len_lia.
      change (length (newline :: rest)) with (S (length rest)). rewrite IH'.
      f_equal. apply eq_sym, Nat.add_assoc.
    + specialize (IH a (cur ++ [b]) n). rewrite <- !app_assoc in IH. cbn [app] in IH.
      replace (length a + length (cur ++ [b])) with (S (length a + length cur)) in IH by len_lia.
      change (length (b :: rest)) with (S (length rest)). rewrite IH by set_solver. done.
Qed.

End reference.

Section code_points.
Context `{!Utf8proc} `{!Utf8procSpec}.

(** The rows of a text without ESC, on code points: every line takes as many
    rows as the sum of its character widths needs. *)
Lemma physical_rows_cps width cps :
  Forall scalar cps -> 27%Z ∉ cps -> cps <> [] ->
  physical_rows width (text_of cps)
  = sum_list ((fun line => line_rows width (cps_width line)) <$> lines_of cps).
Proof.
  intros Hs Hn Hne. unfold physical_rows.
  destruct (text_of cps) as [|b t] eqn:E; [by apply text_of_nil_inv in E|]. rewrite <- E.
  rewrite lines_of_text, <- list_fmap_compose by done. f_equal.
  assert (Forall (fun l => Forall scalar l /\ 27%Z ∉ l) (lines_of cps)) as Hl.
  { clear E Hne. induction cps as [|c cps IH]; simpl; [repeat constructor; set_solver|].
    apply Forall_cons in Hs as [Hc Hs]. specialize (IH Hs ltac:(set_solver)).
    destruct (Z.eqb_spec c newline); [repeat constructor; auto; set_solver|].
    destruct (lines_of cps); inversion IH; repeat constructor; try naive_solver; set_solver. }
  apply list_fmap_ext. intros i l Hi. simpl.
  rewrite Forall_lookup in Hl. destruct (Hl _ _ Hi).
  by rewrite glyphs_of_text, glyphs_width_cps.
Qed.

End code_points.

(** ** The cache *)

Section cache.
Context {T : Type} `{!ByteStore T} `{!ByteStoreLaws T} `{!Utf8proc} `{!Utf8procSpec}.
Implicit Types ib : ik_input_buffer T.

(** A clean cache holds the rows of the current text at the cached width. *)
Definition layout_ok ib : Prop :=
  layout_dirty ib = 0%Z ->
  physical_lines ib = physical_rows (cached_width ib) (bs_bytes (text ib)).

Lemma ensure_layout_rows ib width :
  bs_ok (text ib) -> layout_ok ib ->
  exists ib', ik_input_buffer_ensure_layout ib width = Ret ib' /\
    ib' = set_layout (physical_rows width (bs_bytes (text ib))) width 0 ib.
Proof.
  intros Hok Hl. unfold ik_input_buffer_ensure_layout.
  destruct (Z.eqb_spec (layout_dirty ib) 0) as [Hd|Hd];
    destruct (Z.eqb_spec (cached_width ib) width) as [<-|Hw]; cbn [andb].
  1: { eexists; split; [reflexivity|]. rewrite <- Hl by done. destruct ib; simpl in *. by rewrite Hd. }
  all: unfold ik_input_buffer_get_text; rewrite bs_size_ok by done.
  all: destruct (bs_ptr (text ib)) as [d|] eqn:Hp;
    [apply bs_ptr_bytes in Hp as ->; [|done]
    |assert (bs_bytes (text ib) = []) as ->
       by (destruct (decide (bs_bytes (text ib) = [])) as [?|Hne]; [done|];
           apply bs_ptr_some in Hne; [congruence|done]); eauto].
  all: destruct (bs_bytes (text ib)) as [|b bs] eqn:Hb; [eauto|].
  all: rewrite (proj2 (Nat.eqb_neq _ _)) by (simpl; lia).
  all: match goal with |- context [layout_loop _ _ _ ?w] =>
         pose proof (layout_loop_spec w (b :: bs) [] [] 0 ltac:(set_solver)) as E end.
  all: cbn [app Nat.add] in E; change (length (@nil Z)) with 0 in E; cbn [Nat.add] in E.
  all: rewrite E; cbn [obind]; eauto.
Qed.

End cache.
