(* ===== verification/Editor.v ===== *)
(** * The input editor as a whole

    The operations of input_buffer/ in arbitrary sequences, refined to an
    abstract editor: a document split at the cursor and the remembered column.
    [run_edits] runs the code's operations, [edits] the abstract ones. *)

From S2P Require Import Prelude ByteArray Utf8 Unicode Cursor InputBuffer Multiline Layout.

(** ** The operations *)

Inductive edit_op : Type :=
| InsertCodepoint (codepoint : Z)
| InsertNewline
| Backspace
| Delete
| CursorLeft
| CursorRight
| CursorUp
| CursorDown
| ToLineStart
| ToLineEnd
| KillToLineEnd
| KillLine
| DeleteWordBackward
| Clear
| SetText (cps : list Z)
| EnsureLayout (terminal_width : Z).

Definition run_edit {T} `{ByteStore T} `{Utf8proc} (op : edit_op) (ib : ik_input_buffer T)
  : outcome (ik_input_buffer T) :=
  match op with
  | InsertCodepoint c => ik_input_buffer_insert_codepoint ib c
  | InsertNewline => ik_input_buffer_insert_newline ib
  | Backspace => ik_input_buffer_backspace ib
  | Delete => ik_input_buffer_delete ib
  | CursorLeft => ik_input_buffer_cursor_left ib
  | CursorRight => ik_input_buffer_cursor_right ib
  | CursorUp => ik_input_buffer_cursor_up ib
  | CursorDown => ik_input_buffer_cursor_down ib
  | ToLineStart => ik_input_buffer_cursor_to_line_start ib
  | ToLineEnd => ik_input_buffer_cursor_to_line_end ib
  | KillToLineEnd => ik_input_buffer_kill_to_line_end ib
  | KillLine => ik_input_buffer_kill_line ib
  | DeleteWordBackward => ik_input_buffer_delete_word_backward ib
  | Clear => Ret (ik_input_buffer_clear ib)
  | SetText cps => ik_input_buffer_set_text ib (text_of cps)
  | EnsureLayout w => ik_input_buffer_ensure_layout ib w
  end.

Fixpoint run_edits {T} `{ByteStore T} `{Utf8proc} (ops : list edit_op)
    (ib : ik_input_buffer T) : outcome (ik_input_buffer T) :=
  match ops with
  | [] => Ret ib
  | op :: ops => let! ib := run_edit op ib in run_edits ops ib
  end.

(** ** The abstract editor *)

Record doc := mk_doc {
  before : list Z;
  after : list Z;
  column : nat
}.

(** The first line of [l] and what follows it, newline included. *)
Fixpoint first_line (l : list Z) : list Z * list Z :=
  match l with
  | [] => ([], [])
  | c :: l' =>
      if (c =? newline)%Z then ([], l)
      else let '(m, r) := first_line l' in (c :: m, r)
  end.

(** The complete lines of [l] and its last line. *)
Definition last_line (l : list Z) : list Z * list Z :=
  let '(m, r) := first_line (reverse l) in (reverse r, reverse m).

(** Code points leave the end of a reversed text while [keep] accepts them. *)
Fixpoint drop_kept (keep : Z -> bool) (rb : list Z) : list Z :=
  match rb with
  | c :: rb' => if keep (lead_byte c) then drop_kept keep rb' else rb
  | [] => []
  end.

Definition drop_word (rb : list Z) : list Z :=
  match drop_kept is_whitespace rb with
  | [] => []
  | c :: rb' =>
      drop_kept (fun b => bool_decide (get_char_class b = class_of c)) (c :: rb')
  end.

Section abstract.
Context `{Utf8proc}.

(** One cluster to the left: [rb] is the text before the cursor, reversed. *)
Fixpoint left_of (rb post : list Z) : list Z * list Z :=
  match rb with
  | [] => ([], post)
  | c :: rb' =>
      if starts_cluster (default (-1)%Z (head rb')) c then (rb', c :: post)
      else left_of rb' (c :: post)
  end.

(** On to the next cluster start; [prev] is the code point just passed. *)
Fixpoint right_of (prev : Z) (rb post : list Z) : list Z * list Z :=
  match post with
  | [] => (rb, [])
  | d :: post' =>
      if starts_cluster prev d then (rb, post) else right_of d (d :: rb) post'
  end.

Definition aimed (d : doc) (col : nat) : nat :=
  if (column d =? 0)%nat then col else column d.

Definition edit (op : edit_op) (d : doc) : doc :=
  match op with
  | InsertCodepoint c => mk_doc (before d ++ [c]) (after d) 0
  | InsertNewline => mk_doc (before d ++ [newline]) (after d) 0
  | Backspace =>
      match reverse (before d) with
      | [] => d
      | _ :: rb => mk_doc (reverse rb) (after d) 0
      end
  | Delete =>
      match after d with
      | [] => d
      | _ :: post => mk_doc (before d) post 0
      end
  | CursorLeft =>
      match before d with
      | [] => d
      | _ => let '(rb, post) := left_of (reverse (before d)) (after d) in
             mk_doc (reverse rb) post 0
      end
  | CursorRight =>
      match after d with
      | [] => d
      | c :: post =>
          let '(rb, post) := right_of c (c :: reverse (before d)) post in
          mk_doc (reverse rb) post 0
      end
  | CursorUp =>
      let '(a, m) := last_line (before d) in
      match reverse a with
      | [] => d
      | _ :: ra =>
          let '(a', p) := last_line (reverse ra) in
          let t := aimed d (length m) in
          mk_doc (a' ++ take t p) (drop t p ++ newline :: m ++ after d) t
      end
  | CursorDown =>
      let '(m2, b) := first_line (after d) in
      match b with
      | [] => d
      | _ :: r =>
          let '(n, b') := first_line r in
          let t := aimed d (length (last_line (before d)).2) in
          mk_doc (before d ++ m2 ++ [newline] ++ take t n) (drop t n ++ b') t
      end
  | ToLineStart =>
      let '(a, m) := last_line (before d) in
      match m with [] => d | _ => mk_doc a (m ++ after d) 0 end
  | ToLineEnd =>
      let '(m, b) := first_line (after d) in
      match m with [] => d | _ => mk_doc (before d ++ m) b 0 end
  | KillToLineEnd =>
      let '(m, b) := first_line (after d) in
      match m with [] => d | _ => mk_doc (before d) b 0 end
  | KillLine =>
      match before d ++ after d with
      | [] => d
      | _ => mk_doc (last_line (before d)).1 (tail (first_line (after d)).2) 0
      end
  | DeleteWordBackward =>
      match before d with
      | [] => d
      | _ => mk_doc (reverse (drop_word (reverse (before d)))) (after d) 0
      end
  | Clear => mk_doc [] [] 0
  | SetText cps => mk_doc [] cps 0
  | EnsureLayout _ => d
  end.

Definition edits (ops : list edit_op) (d : doc) : doc := fold_left (fun d op => edit op d) ops d.

End abstract.

(** What the operations take: code points that UTF-8 can encode. *)
Definition op_valid (op : edit_op) : Prop :=
  match op with
  | InsertCodepoint c => scalar c
  | SetText cps => Forall scalar cps
  | _ => True
  end.

#[export] Instance scalar_decision c : Decision (scalar c).
Proof. unfold scalar. apply _. Defined.

#[export] Instance op_valid_decision op : Decision (op_valid op).
Proof. destruct op; simpl; apply _. Defined.

(** An upper bound on the bytes an operation adds. *)
Definition op_growth (op : edit_op) : nat :=
  match op with SetText cps => length (text_of cps) | _ => 4 end.

(** ** The abstract functions on decomposed texts *)

Lemma first_line_app m b : newline ∉ m -> line_finish b -> first_line (m ++ b) = (m, b).
Proof.
  intros Hm Hb. induction m as [|c m IH]; simpl.
  - by destruct Hb as [->|[b' ->]].
  - rewrite (proj2 (Z.eqb_neq _ _)) by set_solver. by rewrite IH by set_solver.
Qed.

Lemma last_line_app a m : newline ∉ m -> line_begin a -> last_line (a ++ m) = (a, m).
Proof.
  intros Hm Ha. unfold last_line. rewrite reverse_app, first_line_app.
  - by rewrite !reverse_involutive.
  - by rewrite elem_of_reverse.
  - destruct Ha as [->|[a' ->]]; [by left|right]. rewrite reverse_app. by exists (reverse a').
Qed.

Lemma drop_kept_app keep m p :
  Forall (kept keep) m -> stops keep p -> drop_kept keep (reverse (p ++ m)) = reverse p.
Proof.
  intros Hm Hp. induction m as [|c m IH] using rev_ind.
  - rewrite app_nil_r. destruct Hp as [->|(p' & c & -> & Hc)]; [done|].
    rewrite reverse_app. simpl. by rewrite Hc.
  - apply Forall_app in Hm as [Hm Hc]. inversion Hc; subst.
    rewrite app_assoc, reverse_app. simpl. unfold kept in *.
    by replace (keep (lead_byte c)) with true by done; rewrite IH.
Qed.

Lemma drop_word_cut pre p w s : word_cut pre p w s -> reverse (drop_word (reverse pre)) = p.
Proof.
  intros (-> & Hs & Hst & Hw). unfold drop_word.
  rewrite app_assoc, drop_kept_app by done.
  destruct Hw as [Hpw|(cls & Hne & Hcls & Hp)].
  { rewrite Hpw. by apply app_nil in Hpw as [-> ->]. }
  destruct w as [|c w _] using rev_ind; [done|].
  rewrite app_assoc, reverse_app. change (reverse [c]) with [c]. cbn [app].
  apply Forall_app in Hcls as [Hw Hc]. inversion Hc as [|?? Hcc _]; subst.
  change (c :: reverse (p ++ w)) with ([c] ++ reverse (p ++ w)).
  change [c] with (reverse [c]). rewrite <- reverse_app, <- app_assoc.
  rewrite drop_kept_app; [by rewrite reverse_involutive| |].
  - apply Forall_app; split; [|by repeat constructor; apply bool_decide_eq_true].
    eapply Forall_impl; [exact Hw|]. intros d Hd. by apply bool_decide_eq_true.
  - destruct Hp as [->|(p' & d & -> & Hd)]; [by left|right]. exists p', d.
    split; [done|]. by apply bool_decide_eq_false.
Qed.

Section steps.
Context `{Utf8proc}.

Lemma head_reverse (l : list Z) : default (-1)%Z (head (reverse l)) = last_or (-1) l.
Proof. unfold last_or. by rewrite head_reverse. Qed.

Lemma left_of_app p c q post :
  starts_cluster (last_or (-1) p) c = true -> clusters c q = 0 ->
  left_of (reverse (p ++ c :: q)) post = (reverse p, c :: q ++ post).
Proof.
  revert post. induction q as [|d q IH] using rev_ind; intros post Hc Hq.
  - rewrite reverse_app. simpl. by rewrite head_reverse, Hc.
  - rewrite clusters_app in Hq. simpl in Hq.
    rewrite app_comm_cons, app_assoc, reverse_app. simpl. rewrite head_reverse.
    assert (last_or (-1) (p ++ c :: q) = last_or c q) as ->.
    { clear. generalize (-1)%Z. induction p as [|x p IH]; intros y; simpl;
        rewrite last_or_cons; auto. }
    destruct (starts_cluster (last_or c q) d); [lia|].
    rewrite IH by (done || lia). by rewrite <- app_assoc.
Qed.

Lemma right_of_app c rb q r :
  clusters c q = 0 ->
  match r with [] => True | d :: _ => starts_cluster (last_or c q) d = true end ->
  right_of c rb (q ++ r) = (reverse q ++ rb, r).
Proof.
  revert c rb. induction q as [|d q IH]; intros c rb Hq Hr.
  - destruct r as [|d r]; [done|]. simpl. unfold last_or in Hr. simpl in Hr. by rewrite Hr.
  - simpl in *. destruct (starts_cluster c d); [lia|].
    rewrite last_or_cons in Hr. rewrite IH by done.
    by rewrite reverse_cons, <- app_assoc.
Qed.

End steps.

(** ** Refinement *)

Section refinement.
Context {T : Type} `{!ByteStore T} `{!ByteStoreLaws T} `{!Utf8proc} `{!Utf8procSpec}.
Implicit Types ib : ik_input_buffer T.

(** The buffer represents the document: its bytes, both cursor offsets and the
    remembered column, and the layout cache is coherent. *)
Definition edited ib (d : doc) : Prop :=
  rep ib (before d) (after d) /\ target_column ib = column d /\ layout_ok ib.

Definition doc_bytes (d : doc) : list Z := text_of (before d ++ after d).

(** One operation of the code is one step of the abstract editor. *)
Definition step_ok (op : edit_op) ib (d : doc) : Prop :=
  exists ib', run_edit op ib = Ret ib' /\ edited ib' (edit op d) /\
    length (doc_bytes (edit op d)) <= length (doc_bytes d) + op_growth op.

Lemma step_modified op ib ib' d pre post :
  run_edit op ib = Ret ib' -> modified ib' pre post -> edit op d = mk_doc pre post 0 ->
  length (text_of (pre ++ post)) <= length (doc_bytes d) + op_growth op ->
  step_ok op ib d.
Proof.
  intros Hrun (Hr & _ & Hd & Ht) He Hl. exists ib'. rewrite He. split_and!; try done.
  split_and!; try done. unfold layout_ok. by rewrite Hd.
Qed.

Lemma step_moved op ib ib' d pre post t :
  edited ib d -> run_edit op ib = Ret ib' -> moved ib ib' pre post -> target_column ib' = t ->
  edit op d = mk_doc pre post t -> before d ++ after d = pre ++ post -> step_ok op ib d.
Proof.
  intros (_ & _ & Hlay) Hrun (Hr & Htx & Hdi & Hcw & Hpl) Ht He Heq.
  exists ib'. unfold doc_bytes. rewrite He, Heq. cbn [before after].
  split_and!; [done| |lia]. split_and!; [done|done|].
  unfold layout_ok in *. by rewrite Htx, Hdi, Hcw, Hpl.
Qed.

Lemma step_same op ib d :
  edited ib d -> run_edit op ib = Ret ib -> edit op d = d -> step_ok op ib d.
Proof. intros He Hr Hd. exists ib. rewrite Hd. split_and!; [done|done|lia]. Qed.

(** Every document splits into the lines around the cursor. *)
Lemma split_before d : exists a m, before d = a ++ m /\ line_begin a /\ newline ∉ m.
Proof. apply split_last_line. Qed.
Lemma split_after d : exists m b, after d = m ++ b /\ line_finish b /\ newline ∉ m.
Proof. apply split_first_line. Qed.

Lemma aimed_aim ib d col : edited ib d -> aim ib col = aimed d col.
Proof. intros (_ & Ht & _). unfold aim, aimed. by rewrite Ht. Qed.

Lemma step_insert ib d c :
  edited ib d -> has_room (before d ++ after d) -> scalar c -> step_ok (InsertCodepoint c) ib d.
Proof.
  intros (Hr & _) Hroom Hc. pose proof (encode_length c Hc).
  destruct (insert_codepoint_spec _ _ _ c Hr Hroom Hc) as (ib' & Hrun & Hm).
  eapply step_modified; [exact Hrun|exact Hm|done|].
  unfold doc_bytes. rewrite !text_of_app, text_of_one. simpl. len_lia.
Qed.

Lemma step_newline ib d :
  edited ib d -> has_room (before d ++ after d) -> step_ok InsertNewline ib d.
Proof.
  intros (Hr & _) Hroom.
  destruct (insert_newline_spec _ _ _ Hr Hroom) as (ib' & Hrun & Hm).
  eapply step_modified; [exact Hrun|exact Hm|done|].
  unfold doc_bytes. rewrite !text_of_app. simpl. len_lia.
Qed.

Lemma step_backspace ib d : edited ib d -> step_ok Backspace ib d.
Proof.
  intros He. pose proof He as (Hr & _). destruct d as [pre post col]; cbn [before after] in *.
  destruct pre as [|c pre _] using rev_ind.
  - apply step_same; [done| |done]. simpl. by eapply backspace_start.
  - destruct (backspace_spec _ _ _ _ Hr) as (ib' & Hrun & Hm).
    eapply step_modified; [exact Hrun|exact Hm| |].
    + simpl. rewrite reverse_app. simpl. by rewrite reverse_involutive.
    + unfold doc_bytes. cbn [before after]. rewrite !text_of_app. len_lia.
Qed.

Lemma step_delete ib d : edited ib d -> step_ok Delete ib d.
Proof.
  intros He. pose proof He as (Hr & _). destruct d as [pre [|c post] col]; cbn [before after] in *.
  - apply step_same; [done| |done]. simpl. by eapply delete_end.
  - destruct (delete_spec _ _ _ _ Hr) as (ib' & Hrun & Hm).
    eapply step_modified; [exact Hrun|exact Hm|done|].
    unfold doc_bytes. cbn [before after]. rewrite !text_of_app, text_of_cons. len_lia.
Qed.

Lemma step_left ib d : edited ib d -> step_ok CursorLeft ib d.
Proof.
  intros He. pose proof He as (Hr & _). destruct d as [pre post col]; cbn [before after] in *.
  destruct (decide (pre = [])) as [->|Hne].
  - apply step_same; [done| |done]. simpl. unfold ik_input_buffer_cursor_left.
    by rewrite (rep_cursor _ _ _ Hr).
  - destruct (cursor_left_spec _ _ _ Hr Hne) as (p & c & q & ib' & -> & Hb & Hq & Hrun & Hm & _ & Ht).
    eapply step_moved; [exact He|exact Hrun|exact Hm|exact Ht| |].
    + cbn [edit before after]. rewrite (left_of_app p c q post Hb Hq).
      destruct (p ++ c :: q) eqn:E; [by destruct p|]. by rewrite reverse_involutive.
    + cbn [before after]. by rewrite <- app_assoc.
Qed.

Lemma step_right ib d : edited ib d -> step_ok CursorRight ib d.
Proof.
  intros He. pose proof He as (Hr & _). destruct d as [pre [|c post] col]; cbn [before after] in *.
  - apply step_same; [done| |done]. simpl. unfold ik_input_buffer_cursor_right.
    unfold ik_input_buffer_get_text. rewrite (rep_cursor _ _ _ Hr), (rep_size _ _ _ Hr).
    destruct (bs_ptr (text ib)); [|done]. by rewrite app_nil_r, (proj2 (Nat.leb_le _ _)).
  - destruct (cursor_right_spec _ _ _ _ Hr) as (q & r & ib' & -> & Hq & Hb & Hrun & Hm & _ & Ht).
    eapply step_moved; [exact He|exact Hrun|exact Hm|exact Ht| |].
    + cbn [edit before after]. rewrite right_of_app; [|done|].
      * by rewrite reverse_app, reverse_involutive, reverse_cons, reverse_involutive, <- app_assoc.
      * destruct r as [|x r]; [done|]. unfold at_boundary in Hb. rewrite <- Hb. f_equal.
        clear. generalize (-1)%Z. induction pre as [|y pre IH]; intros z; simpl;
          rewrite last_or_cons; auto.
    + cbn [before after]. by rewrite <- app_assoc.
Qed.

Lemma step_up ib d : edited ib d -> step_ok CursorUp ib d.
Proof.
  intros He. pose proof He as (Hr & _).
  destruct (split_before d) as (a & m & Hpre & Ha & Hm).
  destruct d as [pre post col]; cbn [before after] in *. subst pre.
  destruct Ha as [->|[a' ->]].
  - apply step_same; [done|by eapply cursor_up_first_line|].
    cbn [edit before]. by rewrite last_line_app by (done || by left).
  - destruct (split_last_line a') as (a & p & -> & Ha & Hp).
    rewrite <- (app_assoc (a ++ p)) in Hr. cbn [app] in Hr.
    destruct (cursor_up_spec _ _ _ _ _ Hr Ha Hp Hm) as (ib' & Hrun & Hmv & _ & Ht).
    eapply step_moved; [exact He|exact Hrun|exact Hmv|exact Ht| |].
    + cbn [edit before after]. rewrite last_line_app by (done || right; eauto).
      rewrite reverse_app. change (reverse [newline]) with [newline]. cbn [app].
      rewrite reverse_involutive, last_line_app by done. by rewrite (aimed_aim _ _ _ He).
    + cbn [before after]. by rewrite <- !app_assoc, (app_assoc (take _ p)), take_drop.
Qed.

Lemma step_down ib d : edited ib d -> step_ok CursorDown ib d.
Proof.
  intros He. pose proof He as (Hr & _).
  destruct (split_before d) as (a & m1 & Hpre & Ha & Hm1).
  destruct (split_after d) as (m2 & b & Hpost & Hb & Hm2).
  destruct d as [pre post col]; cbn [before after] in *. subst pre post.
  destruct Hb as [->|[b' ->]].
  - rewrite app_nil_r in *. apply step_same; [done|by eapply cursor_down_last_line|].
    cbn [edit after]. pose proof (first_line_app m2 [] Hm2 ltac:(by left)) as E.
    rewrite app_nil_r in E. by rewrite E.
  - destruct (split_first_line b') as (n & b & -> & Hb & Hn).
    destruct (cursor_down_spec _ _ _ _ _ _ Hr Ha Hm1 Hm2 Hn Hb) as (ib' & Hrun & Hmv & _ & Ht).
    eapply step_moved; [exact He|exact Hrun|exact Hmv|exact Ht| |].
    + cbn [edit before after]. rewrite first_line_app by (done || right; eauto).
      rewrite first_line_app, last_line_app by done. cbn [snd].
      by rewrite (aimed_aim _ _ _ He), <- !app_assoc.
    + cbn [before after].
      rewrite <- !app_assoc. cbn [app]. do 4 f_equal. by rewrite app_assoc, take_drop.
Qed.

Lemma step_line_start ib d : edited ib d -> step_ok ToLineStart ib d.
Proof.
  intros He. pose proof He as (Hr & _).
  destruct (split_before d) as (a & m & Hpre & Ha & Hm).
  destruct d as [pre post col]; cbn [before after] in *. subst pre.
  destruct (to_line_start_spec _ _ _ _ Hr Ha Hm) as (ib' & Hrun & Hmv & Hnil & Hne).
  destruct m as [|c m].
  - apply step_same; [done|by rewrite <- (Hnil eq_refl) at 2|].
    cbn [edit before]. by rewrite last_line_app.
  - destruct (Hne ltac:(done)) as [_ Ht].
    eapply step_moved; [exact He|exact Hrun|exact Hmv|exact Ht| |].
    + cbn [edit before]. by rewrite last_line_app.
    + cbn [before after]. by rewrite <- app_assoc.
Qed.

Lemma step_line_end ib d : edited ib d -> step_ok ToLineEnd ib d.
Proof.
  intros He. pose proof He as (Hr & _).
  destruct (split_after d) as (m & b & Hpost & Hb & Hm).
  destruct d as [pre post col]; cbn [before after] in *. subst post.
  destruct (to_line_end_spec _ _ _ _ Hr Hb Hm) as (ib' & Hrun & Hmv & Hnil & Hne).
  destruct m as [|c m].
  - apply step_same; [done|by rewrite <- (Hnil eq_refl) at 2|].
    cbn [edit after]. by rewrite first_line_app.
  - destruct (Hne ltac:(done)) as [_ Ht].
    eapply step_moved; [exact He|exact Hrun|exact Hmv|exact Ht| |].
    + cbn [edit after]. by rewrite first_line_app.
    + cbn [before after]. by rewrite <- app_assoc.
Qed.

Lemma step_kill_to_end ib d : edited ib d -> step_ok KillToLineEnd ib d.
Proof.
  intros He. pose proof He as (Hr & _).
  destruct (split_after d) as (m & b & Hpost & Hb & Hm).
  destruct d as [pre post col]; cbn [before after] in *. subst post.
  destruct (kill_to_line_end_spec _ _ _ _ Hr Hb Hm) as (ib' & Hrun & _ & Hnil & Hne).
  destruct m as [|c m].
  - apply step_same; [done|by rewrite <- (Hnil eq_refl) at 2|].
    cbn [edit after]. by rewrite first_line_app.
  - eapply step_modified; [exact Hrun|by apply Hne| |].
    + cbn [edit after]. by rewrite first_line_app.
    + unfold doc_bytes. cbn [before after]. rewrite !text_of_app. len_lia.
Qed.

Lemma step_kill_line ib d : edited ib d -> step_ok KillLine ib d.
Proof.
  intros He. pose proof He as (Hr & _).
  destruct (split_before d) as (a & m1 & Hpre & Ha & Hm1).
  destruct (split_after d) as (m2 & b & Hpost & Hb & Hm2).
  destruct d as [pre post col]; cbn [before after] in *. subst pre post.
  destruct (decide ((a ++ m1) ++ m2 ++ b = [])) as [Hz|Hne].
  - apply app_nil in Hz as [Hz1 Hz2]. rewrite Hz1, Hz2 in *.
    by apply step_same; [|apply kill_line_empty|].
  - destruct (kill_line_spec _ _ _ _ _ Hr Hne Ha Hm1 Hm2 Hb) as (ib' & Hrun & Hm).
    eapply step_modified; [exact Hrun|exact Hm| |].
    + cbn [edit before after]. destruct ((a ++ m1) ++ m2 ++ b) eqn:E; [done|].
      by rewrite last_line_app, first_line_app.
    + unfold doc_bytes, after_line. cbn [before after].
      assert (length (text_of (tail b)) <= length (text_of b)) by
        (destruct b; [done|]; rewrite text_of_cons; simpl; len_lia).
      rewrite !text_of_app. len_lia.
Qed.

Lemma step_delete_word ib d : edited ib d -> step_ok DeleteWordBackward ib d.
Proof.
  intros He. pose proof He as (Hr & _). destruct d as [pre post col]; cbn [before after] in *.
  destruct (decide (pre = [])) as [->|Hne].
  - apply step_same; [done|by eapply delete_word_backward_start|done].
  - destruct (delete_word_backward_spec _ _ _ Hr Hne) as (p & w & s & ib' & Hcut & Hrun & Hm).
    eapply step_modified; [exact Hrun|exact Hm| |].
    + cbn [edit before after]. rewrite (drop_word_cut _ _ _ _ Hcut). by destruct pre.
    + destruct Hcut as (-> & _). unfold doc_bytes. cbn [before after].
      rewrite !text_of_app. len_lia.
Qed.

Lemma step_set_text ib d cps :
  edited ib d -> Forall scalar cps -> (Z.of_nat (length (text_of cps)) < 2 ^ 62)%Z ->
  step_ok (SetText cps) ib d.
Proof.
  intros (Hr & _) Hs Hl. destruct (set_text_spec _ _ _ _ Hr Hs Hl) as (ib' & Hrun & Hm).
  eapply step_modified; [exact Hrun|exact Hm|done|]. simpl. lia.
Qed.

Lemma step_layout ib d w : edited ib d -> step_ok (EnsureLayout w) ib d.
Proof.
  intros (Hr & Ht & Hlay). pose proof Hr as [Hok Hb Hs Ho Hc].
  destruct (ensure_layout_rows ib w Hok Hlay) as (ib' & Hrun & ->).
  eexists. split_and!; [exact Hrun| |simpl; lia]. split_and!; [by constructor|done|].
  unfold layout_ok. done.
Qed.

Lemma step_edit op ib d :
  edited ib d -> op_valid op ->
  (Z.of_nat (length (doc_bytes d) + op_growth op) < 2 ^ 62)%Z -> step_ok op ib d.
Proof.
  intros He Hv Hb. pose proof He as (Hr & _).
  destruct op; eauto using step_backspace, step_delete, step_left,
    step_right, step_up, step_down, step_line_start, step_line_end, step_kill_to_end,
    step_kill_line, step_delete_word, step_layout.
  - by apply step_insert.
  - by apply step_newline.
  - eapply step_modified; [done|by eapply clear_rep|done|].
    change (text_of ([] ++ [])) with (@nil Z). simpl. lia.
  - apply step_set_text; [done|done|cbn [op_growth] in Hb; lia].
Qed.

Definition growth (ops : list edit_op) : nat := sum_list (op_growth <$> ops).

Lemma growth_cons op ops : growth (op :: ops) = op_growth op + growth ops.
Proof. done. Qed.

Lemma run_edits_refine ops ib d :
  edited ib d -> Forall op_valid ops ->
  (Z.of_nat (length (doc_bytes d) + growth ops) < 2 ^ 62)%Z ->
  exists ib', run_edits ops ib = Ret ib' /\ edited ib' (edits ops d).
Proof.
  revert ib d. induction ops as [|op ops IH]; intros ib d He Hv Hb; [by exists ib|].
  apply Forall_cons in Hv as [Hop Hops]. rewrite growth_cons in Hb.
  destruct (step_edit op ib d He Hop) as (ib1 & Hrun & He1 & Hl); [lia|].
  simpl. rewrite Hrun. cbn [obind]. apply IH; [done|done|]. lia.
Qed.

Lemma create_edited :
  exists ib, ik_input_buffer_create = Ret ib /\ edited ib (mk_doc [] [] 0).
Proof.
  unfold ik_input_buffer_create.
  destruct (bs_create_ok (T := T) 64) as (t & -> & Hok & Hb); [lia|lia|].
  eexists. split; [reflexivity|]. split_and!; [by constructor|done|done].
Qed.

End refinement.

(** ** Properties of the editor *)

Module EditorProps.

Section properties.
Context {T : Type} `{!ByteStore T} `{!ByteStoreLaws T} `{!Utf8proc} `{!Utf8procSpec}.

(** C2: a new input buffer driven by any sequence of operations with valid
    code points never fails an assertion or touches memory out of bounds: it
    computes exactly what the abstract editor computes.  The bytes are the
    well-formed UTF-8 of the document, both cursor offsets sit at the document's
    cursor, and the remembered column agrees. *)
Theorem editor_refines_document (ops : list edit_op) :
  Forall op_valid ops -> (Z.of_nat (growth ops) < 2 ^ 62)%Z ->
  exists ib ib', ik_input_buffer_create (T := T) = Ret ib /\ run_edits ops ib = Ret ib' /\
    let d := edits ops (mk_doc [] [] 0) in
    bs_bytes (text ib') = text_of (before d ++ after d) /\
    cursor_byte_offset ib' = length (text_of (before d)) /\
    byte_offset (cursor ib') = length (text_of (before d)) /\
    target_column ib' = column d /\ Forall scalar (before d ++ after d).
Proof.
  intros Hv Hb. destruct create_edited as (ib & Hc & He).
  destruct (run_edits_refine ops ib _ He Hv) as (ib' & Hr & [Hok Hby Hs Ho Hcu] & Ht & _).
  { exact Hb. }
  exists ib, ib'. by split_and!.
Qed.

(** whatever was edited or resized before, after ensure_layout(width) the
    cached number of physical lines is the sum over the document's lines of the
    rows each needs at that width (1 for an empty line, 0 for an empty text). *)
Theorem layout_counts_rows (ops : list edit_op) (width : Z) :
  Forall op_valid ops -> (Z.of_nat (growth ops) < 2 ^ 62)%Z ->
  27%Z ∉ before (edits ops (mk_doc [] [] 0)) ++ after (edits ops (mk_doc [] [] 0)) ->
  exists ib ib', ik_input_buffer_create (T := T) = Ret ib /\
    run_edits (ops ++ [EnsureLayout width]) ib = Ret ib' /\
    let d := edits ops (mk_doc [] [] 0) in
    let cps := before d ++ after d in
    ik_input_buffer_get_physical_lines ib'
    = match cps with
      | [] => 0
      | _ => sum_list ((fun line => line_rows width (cps_width line)) <$> lines_of cps)
      end /\ cached_width ib' = width.
Proof.
  intros Hv Hb Hesc. destruct create_edited as (ib & Hc & He).
  destruct (run_edits_refine ops ib _ He Hv Hb) as (ib1 & Hr & Hrep & _ & Hlay).
  pose proof Hrep as [Hok Hby Hs _ _].
  destruct (ensure_layout_rows ib1 width Hok Hlay) as (ib' & Hrun & ->).
  exists ib. eexists. split; [done|]. split.
  - assert (forall l1 l2 (x : ik_input_buffer T),
      run_edits (l1 ++ l2) x = obind (run_edits l1 x) (run_edits l2)) as ->.
    { induction l1 as [|o l1 IH]; intros l2 x; [done|]. simpl.
      destruct (run_edit o x); simpl; [apply IH|done..]. }
    rewrite Hr. cbn [obind run_edits run_edit]. rewrite Hrun. reflexivity.
  - unfold ik_input_buffer_get_physical_lines. simpl. split; [|done]. rewrite Hby.
    destruct (before _ ++ after _) as [|c cps] eqn:E; [done|].
    by apply physical_rows_cps.
Qed.

(** with no remembered column, cursor_up on a line that is not the first,
    followed by cursor_down, returns to the same cursor position, however short
    the line above is; the text is untouched. *)
Theorem up_down_returns (ib : ik_input_buffer T) (pre post : list Z) :
  rep ib pre post -> newline ∈ pre -> target_column ib = 0 ->
  exists ib1 ib2, ik_input_buffer_cursor_up ib = Ret ib1 /\
    ik_input_buffer_cursor_down ib1 = Ret ib2 /\
    rep ib2 pre post /\ text ib2 = text ib /\ graphemes_ok ib2 pre.
Proof.
  intros Hr Hnl Ht.
  destruct (split_last_line pre) as (a0 & m & -> & [->|[a1 ->]] & Hm); [set_solver|].
  destruct (split_last_line a1) as (a & p & -> & Ha & Hp).
  destruct (split_first_line post) as (m2 & b & -> & Hb & Hm2).
  rewrite <- (app_assoc (a ++ p)) in *. cbn [app] in *.
  destruct (cursor_up_spec _ _ _ _ _ Hr Ha Hp Hm) as (ib1 & H1 & Hmv & _ & Ht1).
  unfold aim in Hmv, Ht1. rewrite Ht in Hmv, Ht1. cbn [Nat.eqb] in Hmv, Ht1.
  destruct Hmv as (Hr1 & Htx1 & _). rewrite (app_assoc m) in Hr1.
  set (t := length m) in *.
  assert ((newline ∉ take t p) /\ (newline ∉ drop t p)) as [Hp1 Hp2].
  { rewrite <- (take_drop t p) in Hp. set_solver. }
  assert (newline ∉ m ++ m2) as Hn by set_solver.
  destruct (cursor_down_spec _ _ _ _ _ _ Hr1 Ha Hp1 Hp2 Hn Hb) as (ib2 & H2 & Hmv2 & Hg2 & _).
  exists ib1, ib2.
  assert (take (aim ib1 (length (take t p))) (m ++ m2) = m
          /\ drop (aim ib1 (length (take t p))) (m ++ m2) = m2) as [E1 E2].
  { unfold aim. rewrite Ht1. destruct (Nat.eqb_spec t 0) as [Hz|Hz].
    - rewrite Hz in *. unfold t in Hz. apply length_zero_iff_nil in Hz as ->. done.
    - unfold t. by rewrite take_app_length, drop_app_length. }
  rewrite E1, E2 in Hmv2. rewrite E1 in Hg2. destruct Hmv2 as (Hr2 & Htx2 & _).
  assert ((a ++ take t p ++ drop t p ++ [newline]) ++ m = (a ++ p) ++ newline :: m) as Ea.
  { rewrite (app_assoc (take t p)), take_drop. by rewrite <- !app_assoc. }
  rewrite Ea in Hr2, Hg2. split_and!; congruence || done.
Qed.

(** inserting a code point and deleting it with backspace restores the text
    and the cursor, with a grapheme offset that counts the clusters before it. *)
Theorem insert_backspace_returns (ib : ik_input_buffer T) (pre post : list Z) (c : Z) :
  rep ib pre post -> has_room (pre ++ post) -> scalar c ->
  exists ib1 ib2, ik_input_buffer_insert_codepoint ib c = Ret ib1 /\
    ik_input_buffer_backspace ib1 = Ret ib2 /\
    bs_bytes (text ib2) = bs_bytes (text ib) /\
    ik_input_buffer_get_cursor_position ib2 = (length (text_of pre), clusters (-1) pre).
Proof.
  intros Hr Hroom Hc.
  destruct (insert_codepoint_spec _ _ _ _ Hr Hroom Hc) as (ib1 & H1 & Hr1 & _).
  destruct (backspace_spec _ _ _ _ Hr1) as (ib2 & H2 & Hr2 & Hg & _).
  exists ib1, ib2. split_and!; [done|done| |].
  - by rewrite (rep_bytes _ _ _ Hr2), (rep_bytes _ _ _ Hr).
  - unfold ik_input_buffer_get_cursor_position, ik_input_buffer_cursor_get_position.
    by rewrite (rep_cursor _ _ _ Hr2), Hg.
Qed.

(** delete_word_backward removes the run of whitespace before the cursor
    and then the maximal run of one character class before that, nothing else. *)
Theorem delete_word_backward_cuts (ib : ik_input_buffer T) (pre post : list Z) :
  rep ib pre post -> pre <> [] ->
  exists p w s ib', pre = p ++ w ++ s /\
    Forall (fun c => is_whitespace (lead_byte c) = true) s /\
    (w = [] -> p = []) /\
    (forall c d, c ∈ w -> d ∈ w -> class_of c = class_of d) /\
    (forall p' c d, p = p' ++ [c] -> d ∈ w -> class_of c <> class_of d) /\
    ik_input_buffer_delete_word_backward ib = Ret ib' /\
    bs_bytes (text ib') = text_of (p ++ post) /\
    cursor_byte_offset ib' = length (text_of p).
Proof.
  intros Hr Hne.
  destruct (delete_word_backward_spec _ _ _ Hr Hne)
    as (p & w & s & ib' & (-> & Hs & Hst & Hw) & Hrun & Hr' & _).
  exists p, w, s, ib'. pose proof Hr' as [_ Hb _ Ho _].
  destruct Hw as [[-> ->]%app_nil|(cls & Hwne & Hcls & Hp)].
  - split_and!; try done; [set_solver|by intros [] ?? ?].
  - rewrite Forall_forall in Hcls. split_and!; try done.
    + intros c d Hc Hd.
      by rewrite (Hcls c), (Hcls d).
    + intros p' c d -> Hd. rewrite (Hcls d) by done.
      destruct Hp as [?|(p'' & c' & [_ ->]%app_inj_tail & Hc')]; [by destruct p'|done].
Qed.

(** kill_line removes the whole line of the cursor and the newline that
    ends it, leaves every other line as it is, and puts the cursor at the start
    of what follows. *)
Theorem kill_line_removes_line (ib : ik_input_buffer T) (a m1 m2 b : list Z) :
  rep ib (a ++ m1) (m2 ++ b) -> (a ++ m1) ++ m2 ++ b <> [] ->
  (a = [] \/ last a = Some newline) -> newline ∉ m1 -> newline ∉ m2 ->
  (b = [] \/ head b = Some newline) ->
  exists ib', ik_input_buffer_kill_line ib = Ret ib' /\
    bs_bytes (text ib') = text_of (a ++ tail b) /\
    cursor_byte_offset ib' = length (text_of a) /\ layout_dirty ib' = 1%Z.
Proof.
  intros Hr Hne Ha Hm1 Hm2 Hb.
  assert (line_begin a) as Ha'.
  { destruct Ha as [->|[l ->]%last_Some]; [by left|right; eauto]. }
  assert (line_finish b) as Hb'.
  { destruct Hb as [->|[l ->]%head_Some]; [by left|right; eauto]. }
  destruct (kill_line_spec _ _ _ _ _ Hr Hne Ha' Hm1 Hm2 Hb') as (ib' & Hrun & [_ Hby _ Ho _] & _ & Hd & _).
  exists ib'. by split_and!.
Qed.

(** from a cursor at a cluster boundary, cursor_left then cursor_right is
    the identity on both offsets: one whole grapheme cluster each way. *)
Theorem left_right_returns (ib : ik_input_buffer T) (pre post : list Z) :
  rep ib pre post -> pre <> [] -> at_boundary pre post -> graphemes_ok ib pre ->
  exists ib1 ib2, ik_input_buffer_cursor_left ib = Ret ib1 /\
    ik_input_buffer_cursor_right ib1 = Ret ib2 /\
    ik_input_buffer_get_cursor_position ib2 = ik_input_buffer_get_cursor_position ib /\
    text ib2 = text ib.
Proof.
  intros Hr Hne Hb Hg.
  destruct (cursor_left_spec _ _ _ Hr Hne)
    as (p & c & q & ib1 & -> & Hb1 & Hq & H1 & (Hr1 & Htx1 & _) & Hg1 & _).
  destruct (cursor_right_spec _ _ _ _ Hr1)
    as (q' & r & ib2 & Heq & Hq' & Hb2 & H2 & (Hr2 & Htx2 & _) & Hg2 & _).
  exists ib1, ib2. split_and!; [done|done| |congruence].
  assert (q' = q) as ->.
  { assert (forall x y l, last_or x (l ++ c :: y) = last_or c y) as Hlast.
    { intros x y l. revert x. induction l as [|z l IH]; intros x; simpl;
        rewrite last_or_cons; auto. }
    unfold at_boundary in Hb, Hb2. rewrite Hlast in Hb, Hb2. clear -Heq Hq Hq' Hb Hb2.
    revert c q' Heq Hq Hq' Hb Hb2. induction q as [|x q IH]; intros c [|x' q'] Heq Hq Hq' Hb Hb2;
      simplify_eq/=; try done.
    - unfold last_or in Hb. simpl in Hb. rewrite Hb in Hq'. lia.
    - unfold last_or in Hb2. simpl in Hb2. rewrite Hb2 in Hq. lia.
    - rewrite !last_or_cons in *. f_equal. eapply IH; eauto; lia. }
  unfold ik_input_buffer_get_cursor_position, ik_input_buffer_cursor_get_position.
  rewrite (rep_cursor _ _ _ Hr), (rep_cursor _ _ _ Hr2), Hg2, Hg1, Hg.
  f_equal. rewrite clusters_app. simpl. rewrite Hb1. lia.
Qed.

End properties.
End EditorProps.

(** ** The properties on concrete documents *)

Module EditorExamples.
Import EditorProps ZeroAlloc RefUnicode.

Definition buffer : Type := ik_input_buffer Array.ik_array.

(** Text with one, two and three byte code points on three lines. *)
Definition sample_edits : list edit_op :=
  [InsertCodepoint 0x61; InsertCodepoint 0xE9; InsertNewline; InsertCodepoint 0x4E2D;
   InsertCodepoint 0x62; InsertCodepoint 0x20; InsertNewline; InsertCodepoint 0x63;
   CursorUp; EnsureLayout 2; CursorRight; Backspace; InsertCodepoint 0x64; CursorLeft].

(** A buffer with [pre] before the cursor and [post] after it. *)
Definition typed (pre post : list Z) : list edit_op :=
  (InsertCodepoint <$> pre ++ post) ++ ((fun _ => CursorLeft) <$> post).

Lemma typed_buffer ops d :
  edits ops (mk_doc [] [] 0) = d -> forallb (fun op => bool_decide (op_valid op)) ops = true ->
  (Z.of_nat (growth ops) <? 2 ^ 62)%Z = true ->
  exists ib : buffer, edited ib d.
Proof.
  intros <- Hv Hb. destruct (create_edited (T := Array.ik_array)) as (ib & _ & He).
  destruct (run_edits_refine ops ib _ He) as (ib' & _ & He').
  - apply Forall_forall. intros op Hop. rewrite forallb_forall in Hv.
    by apply list_elem_of_In, Hv, bool_decide_eq_true in Hop.
  - apply Z.ltb_lt in Hb. exact Hb.
  - by exists ib'.
Qed.

Lemma editor_refines_document_witness :
  exists ib ib' : buffer, ik_input_buffer_create = Ret ib /\ run_edits sample_edits ib = Ret ib' /\
    let d := edits sample_edits (mk_doc [] [] 0) in
    bs_bytes (text ib') = text_of (before d ++ after d) /\
    cursor_byte_offset ib' = length (text_of (before d)) /\
    byte_offset (cursor ib') = length (text_of (before d)) /\
    target_column ib' = column d /\ Forall scalar (before d ++ after d).
Proof.
  apply (editor_refines_document (T := Array.ik_array) sample_edits);
    [by repeat constructor | reflexivity].
Defined.

Lemma layout_counts_rows_witness :
  exists ib ib' : buffer, ik_input_buffer_create = Ret ib /\
    run_edits (sample_edits ++ [EnsureLayout 2]) ib = Ret ib' /\
    ik_input_buffer_get_physical_lines ib' = 4 /\ cached_width ib' = 2%Z.
Proof.
  destruct (layout_counts_rows (T := Array.ik_array) sample_edits 2)
    as (ib & ib' & Hc & Hr & Hl & Hw); [by repeat constructor | reflexivity | |].
  - apply (bool_decide_unpack _); vm_compute; exact I.
  - exists ib, ib'. split; [exact Hc|]. split; [exact Hr|].
    split; [rewrite Hl; vm_compute; reflexivity | exact Hw].
Defined.

Lemma up_down_returns_witness :
  exists ib ib1 ib2 : buffer, ik_input_buffer_cursor_up ib = Ret ib1 /\
    ik_input_buffer_cursor_down ib1 = Ret ib2 /\
    rep ib2 [0x61; 10; 0x62; 0x63]%Z [0x64]%Z /\ text ib2 = text ib /\
    graphemes_ok ib2 [0x61; 10; 0x62; 0x63]%Z.
Proof.
  destruct (typed_buffer (typed [0x61; 10; 0x62; 0x63]%Z [0x64]%Z)
              (mk_doc [0x61; 10; 0x62; 0x63]%Z [0x64]%Z 0)) as (ib & Hr & Ht & _);
    [reflexivity | reflexivity | reflexivity |].
  exists ib. apply (up_down_returns ib [0x61; 10; 0x62; 0x63]%Z [0x64]%Z); [exact Hr| |exact Ht].
  by apply list_elem_of_lookup_2 with 1.
Defined.

Lemma insert_backspace_returns_witness :
  exists ib ib1 ib2 : buffer, ik_input_buffer_insert_codepoint ib 0x4E2D = Ret ib1 /\
    ik_input_buffer_backspace ib1 = Ret ib2 /\
    bs_bytes (text ib2) = bs_bytes (text ib) /\
    ik_input_buffer_get_cursor_position ib2
    = (length (text_of [0x61]%Z), clusters (-1) [0x61]%Z).
Proof.
  destruct (typed_buffer (typed [0x61]%Z [0x64]%Z) (mk_doc [0x61]%Z [0x64]%Z 0)) as (ib & Hr & _);
    [reflexivity | reflexivity | reflexivity |].
  exists ib. apply (insert_backspace_returns ib [0x61]%Z [0x64]%Z); [exact Hr|done|done].
Defined.

Lemma delete_word_backward_cuts_witness :
  let pre := [0x61; 0x20; 0x62; 0x63; 0x20]%Z in
  exists ib : buffer, exists p w s ib', pre = p ++ w ++ s /\
    Forall (fun c => is_whitespace (lead_byte c) = true) s /\
    (w = [] -> p = []) /\
    (forall c d, c ∈ w -> d ∈ w -> class_of c = class_of d) /\
    (forall p' c d, p = p' ++ [c] -> d ∈ w -> class_of c <> class_of d) /\
    ik_input_buffer_delete_word_backward ib = Ret ib' /\
    bs_bytes (text ib') = text_of (p ++ [0x64]%Z) /\
    cursor_byte_offset ib' = length (text_of p).
Proof.
  intros pre.
  destruct (typed_buffer (typed pre [0x64]%Z) (mk_doc pre [0x64]%Z 0)) as (ib & Hr & _);
    [reflexivity | reflexivity | reflexivity |].
  exists ib. by apply (delete_word_backward_cuts ib pre [0x64]%Z).
Defined.

Lemma kill_line_removes_line_witness :
  exists ib ib' : buffer, ik_input_buffer_kill_line ib = Ret ib' /\
    bs_bytes (text ib') = text_of ([0x61; 10] ++ [0x64])%Z /\
    cursor_byte_offset ib' = length (text_of [0x61; 10]%Z) /\ layout_dirty ib' = 1%Z.
Proof.
  destruct (typed_buffer (typed [0x61; 10; 0x62]%Z [0x63; 10; 0x64]%Z)
              (mk_doc [0x61; 10; 0x62]%Z [0x63; 10; 0x64]%Z 0)) as (ib & Hr & _);
    [reflexivity | reflexivity | reflexivity |].
  exists ib.
  apply (kill_line_removes_line ib [0x61; 10]%Z [0x62]%Z [0x63]%Z [10; 0x64]%Z);
    [exact Hr | done | by right | set_solver by lia | set_solver by lia | by right].
Defined.

Lemma left_right_returns_witness :
  exists ib ib1 ib2 : buffer, ik_input_buffer_cursor_left ib = Ret ib1 /\
    ik_input_buffer_cursor_right ib1 = Ret ib2 /\
    ik_input_buffer_get_cursor_position ib2 = ik_input_buffer_get_cursor_position ib /\
    text ib2 = text ib.
Proof.
  destruct (create_edited (T := Array.ik_array)) as (ib0 & _ & Hr & _).
  destruct (insert_codepoint_spec ib0 [] [] 0x65 Hr) as (ib1 & _ & Hr1 & _); [done|done|].
  destruct (insert_codepoint_spec ib1 [0x65]%Z [] 0x301 Hr1) as (ib & _ & Hr2 & Hg & _);
    [done|done|].
  exists ib. apply (left_right_returns ib [0x65; 0x301]%Z []); [exact Hr2|done|done|exact Hg].
Defined.

(** finding: the grapheme offset can drift.  With a combining accent in the
    buffer, typing "e" before it and moving right leaves the cursor at the end
    of one grapheme cluster with grapheme offset 2; recounting from the text
    gives 1. *)
Theorem grapheme_offset_drifts :
  (let! ib := ik_input_buffer_create (T := Array.ik_array) in
   let! ib := run_edits [InsertCodepoint 0x301; ToLineStart; InsertCodepoint 0x65;
                         CursorRight] ib in
   Ret (bs_bytes (text ib), ik_input_buffer_get_cursor_position ib))
  = Ret (text_of [0x65; 0x301]%Z, (3, 2)) /\
  ik_input_buffer_cursor_set_position (Some (text_of [0x65; 0x301]%Z)) 3 3
  = Ret (mk_cursor 3 1).
Proof. split; vm_compute; reflexivity. Qed.

End EditorExamples.
