(* ===== verification/InputParser.v ===== *)
(** * Key input parsing (input.c, input_escape.c, input_xkb.c)

    A byte-at-a-time state machine: ground, inside a UTF-8 sequence, inside an
    escape sequence.  Buffer accesses are checked, and so are the signed 32-bit
    digit accumulators (overflow of an [int32_t] is undefined in C).
    xkbcommon is a parameter. *)

From S2P Require Import Prelude Utf8 Unicode.

Local Open Scope Z_scope.

(** ** libxkbcommon *)

(** [xkb_key_get_one_sym shift kc] is the keysym of a key with or without the
    Shift modifier in the state; [xkb_available] is false when the context, the
    keymap or the state cannot be created. *)
Class Xkb := {
  xkb_available : bool;
  xkb_key_get_one_sym : bool -> nat -> Z;
  xkb_keysym_to_utf32 : Z -> Z
}.

(** "The Unicode/UTF-32 representation of keysym, or 0". *)
Class XkbSpec `{Xkb} : Prop := {
  utf32_scalar sym : xkb_keysym_to_utf32 sym = 0 \/ scalar (xkb_keysym_to_utf32 sym)
}.

Definition XKB_KEY_NoSymbol : Z := 0.

(** ** Actions and state *)

Inductive ik_input_action : Set :=
| IK_INPUT_CHAR (codepoint : Z)
| IK_INPUT_NEWLINE
| IK_INPUT_INSERT_NEWLINE
| IK_INPUT_BACKSPACE
| IK_INPUT_DELETE
| IK_INPUT_ARROW_LEFT
| IK_INPUT_ARROW_RIGHT
| IK_INPUT_ARROW_UP
| IK_INPUT_ARROW_DOWN
| IK_INPUT_PAGE_UP
| IK_INPUT_PAGE_DOWN
| IK_INPUT_SCROLL_UP
| IK_INPUT_SCROLL_DOWN
| IK_INPUT_CTRL_A
| IK_INPUT_CTRL_C
| IK_INPUT_CTRL_E
| IK_INPUT_CTRL_K
| IK_INPUT_CTRL_N
| IK_INPUT_CTRL_P
| IK_INPUT_CTRL_U
| IK_INPUT_CTRL_W
| IK_INPUT_TAB
| IK_INPUT_ESCAPE
| IK_INPUT_NAV_PREV_SIBLING
| IK_INPUT_NAV_NEXT_SIBLING
| IK_INPUT_NAV_PARENT
| IK_INPUT_NAV_CHILD
| IK_INPUT_UNKNOWN.

#[export] Instance action_eq_dec : EqDecision ik_input_action.
Proof. solve_decision. Defined.

Record ik_input_parser := mk_parser {
  esc_buf : list Z;
  esc_len : nat;
  in_escape : bool;
  utf8_buf : list Z;
  utf8_len : nat;
  utf8_expected : nat;
  in_utf8 : bool;
  reverse_map : list nat;
  xkb_initialized : bool
}.

Definition set_escape (buf : list Z) (len : nat) (esc : bool) (p : ik_input_parser) :=
  mk_parser buf len esc (utf8_buf p) (utf8_len p) (utf8_expected p) (in_utf8 p)
    (reverse_map p) (xkb_initialized p).
Definition set_utf8 (buf : list Z) (len expected : nat) (inu : bool) (p : ik_input_parser) :=
  mk_parser (esc_buf p) (esc_len p) (in_escape p) buf len expected inu
    (reverse_map p) (xkb_initialized p).
Definition set_xkb (map : list nat) (init : bool) (p : ik_input_parser) :=
  mk_parser (esc_buf p) (esc_len p) (in_escape p) (utf8_buf p) (utf8_len p)
    (utf8_expected p) (in_utf8 p) map init.

(** Checked accesses to the two fixed-size buffers. *)
Definition buf_set (i : nat) (b : Z) (buf : list Z) : outcome (list Z) :=
  if decide (i < length buf)%nat then Ret (<[i := b]> buf) else Undef.
Definition buf_get (buf : list Z) (i : nat) : outcome Z :=
  match buf !! i with Some b => Ret b | None => Undef end.

(** A signed 32-bit result; overflow is undefined behaviour. *)
Definition int32_checked (z : Z) : outcome Z :=
  if (- 2 ^ 31 <=? z) && (z <? 2 ^ 31) then Ret z else Undef.

Definition is_digit (c : Z) : bool := (0x30 <=? c) && (c <=? 0x39).

Definition add_digit (acc c : Z) : outcome Z :=
  let! tens := int32_checked (acc * 10) in int32_checked (tens + (c - 0x30)).

(** "mod &= ~128". *)
Definition mask_numlock (m : Z) : Z := Z.land m (Z.lnot 128).

(** ** input_xkb.c *)

Section xkb.
Context `{Xkb}.

(** One key of the walk over keycodes 9..100. *)
Definition reverse_map_step (map : list nat) (kc : nat) : list nat :=
  let sym := xkb_key_get_one_sym false kc in
  if sym =? XKB_KEY_NoSymbol then map
  else
    let utf32 := xkb_keysym_to_utf32 sym in
    if (32 <=? utf32) && (utf32 <? 128)
       && bool_decide (map !! Z.to_nat utf32 = Some 0%nat)
    then <[Z.to_nat utf32 := kc]> map
    else map.

Definition ik_input_xkb_build_reverse_map : list nat :=
  fold_left reverse_map_step (seq 9 92) (replicate 128 0%nat).

Definition ik_input_xkb_init_state (p : ik_input_parser) : ik_input_parser :=
  if xkb_available then set_xkb ik_input_xkb_build_reverse_map true p else p.

Definition ik_input_xkb_translate_shifted_key (p : ik_input_parser) (codepoint : Z)
  : outcome Z :=
  if negb (xkb_initialized p) || (codepoint <? 32) || (128 <=? codepoint)
  then Ret codepoint
  else
    match reverse_map p !! Z.to_nat codepoint with
    | None => Undef
    | Some kc =>
        if (kc =? 0)%nat then Ret codepoint
        else
          let result := xkb_keysym_to_utf32 (xkb_key_get_one_sym true kc) in
          Ret (if result =? 0 then codepoint else result)
    end.

(** ** input.c *)

Definition ik_input_parser_create : ik_input_parser :=
  ik_input_xkb_init_state
    (mk_parser (replicate 16 0) 0 false (replicate 4 0) 0 0 false (replicate 128 0%nat) false).

Definition reset_utf8_state (p : ik_input_parser) : ik_input_parser :=
  set_utf8 (utf8_buf p) 0 0 false p.

Definition parse_utf8_continuation (p : ik_input_parser) (byte : Z)
  : outcome (ik_input_parser * ik_input_action) :=
  if negb (Z.land byte 0xC0 =? 0x80) then Ret (reset_utf8_state p, IK_INPUT_UNKNOWN)
  else
    let! buf := buf_set (utf8_len p) byte (utf8_buf p) in
    let p := set_utf8 buf (S (utf8_len p)) (utf8_expected p) (in_utf8 p) p in
    if (utf8_len p =? utf8_expected p)%nat then
      let! codepoint := decode_utf8_sequence (take (utf8_len p) (utf8_buf p)) in
      Ret (reset_utf8_state p, IK_INPUT_CHAR codepoint)
    else Ret (p, IK_INPUT_UNKNOWN).

(** ** input_escape.c *)

Definition reset_escape_state (p : ik_input_parser) : ik_input_parser :=
  set_escape (esc_buf p) 0 false p.

(** A helper that returns [bool] returns [Some] of the new state and the action
    for true and [None] for false. *)
Definition parse_result : Type := outcome (option (ik_input_parser * ik_input_action)).

Definition or_else (r : parse_result) (k : outcome (ik_input_parser * ik_input_action))
  : outcome (ik_input_parser * ik_input_action) :=
  let! o := r in match o with Some x => Ret x | None => k end.

(** Reset the escape state and return true with an action. *)
Definition finish (p : ik_input_parser) (a : ik_input_action) : parse_result :=
  Ret (Some (reset_escape_state p, a)).

Definition is_discardable_csi_terminal (p : ik_input_parser) (byte : Z) : bool :=
  if (byte =? 0x6D) && (1 <=? esc_len p)%nat then true
  else if (esc_len p =? 3)%nat && (byte =? 0x7E) then true
  else false.

Definition parse_first_escape_byte (p : ik_input_parser) (byte : Z) : parse_result :=
  if byte =? 0x5B then Ret None
  else if byte =? 0x1B then
    let p := reset_escape_state p in
    Ret (Some (set_escape (esc_buf p) 0 true p, IK_INPUT_ESCAPE))
  else finish p IK_INPUT_UNKNOWN.

Definition arrow_action (byte : Z) : ik_input_action :=
  if byte =? 0x41 then IK_INPUT_ARROW_UP
  else if byte =? 0x42 then IK_INPUT_ARROW_DOWN
  else if byte =? 0x43 then IK_INPUT_ARROW_RIGHT
  else IK_INPUT_ARROW_LEFT.

Definition nav_action (byte : Z) : ik_input_action :=
  if byte =? 0x41 then IK_INPUT_NAV_PARENT
  else if byte =? 0x42 then IK_INPUT_NAV_CHILD
  else if byte =? 0x43 then IK_INPUT_NAV_NEXT_SIBLING
  else IK_INPUT_NAV_PREV_SIBLING.

(** [n] bytes from index [i] on, all digits: their value, [None] on another
    byte. *)
Fixpoint number_loop (buf : list Z) (n i : nat) (acc : Z) : outcome (option Z) :=
  match n with
  | O => Ret (Some acc)
  | S n =>
      let! c := buf_get buf i in
      if is_digit c then
        let! acc := add_digit acc c in number_loop buf n (S i) acc
      else Ret None
  end.

(** "esc_buf[1] == '1' && esc_buf[2] == ';'" *)
Definition one_semicolon (buf : list Z) : outcome bool :=
  let! b1 := buf_get buf 1 in
  if b1 =? 0x31 then let! b2 := buf_get buf 2 in Ret (b2 =? 0x3B) else Ret false.

Definition parse_arrow_keys (p : ik_input_parser) (byte : Z) : parse_result :=
  if negb ((byte =? 0x41) || (byte =? 0x42) || (byte =? 0x43) || (byte =? 0x44)) then Ret None
  else if (esc_len p =? 2)%nat then finish p (arrow_action byte)
  else if (5 <=? esc_len p)%nat then
    let! m := one_semicolon (esc_buf p) in
    if m then
      let! m_opt := number_loop (esc_buf p) (esc_len p - 1 - 3) 3 0 in
      match m_opt with
      | None => Ret None
      | Some m =>
          let m := mask_numlock m in
          if m =? 1 then finish p (arrow_action byte)
          else if m =? 5 then finish p (nav_action byte)
          else Ret None
      end
    else Ret None
  else Ret None.

(** Index of the first ';' from [i] on, at most [n] bytes further. *)
Fixpoint find_semicolon (buf : list Z) (n i : nat) : outcome nat :=
  match n with
  | O => Ret i
  | S n =>
      let! c := buf_get buf i in
      if c =? 0x3B then Ret i else find_semicolon buf n (S i)
  end.

Definition parse_mouse_sgr (p : ik_input_parser) (byte : Z) : parse_result :=
  if (esc_len p <? 2)%nat then Ret None
  else
    let! b1 := buf_get (esc_buf p) 1 in
    if negb (b1 =? 0x3C) then Ret None
    else if negb ((byte =? 0x4D) || (byte =? 0x6D)) then Ret None
    else
      let! btn_end := find_semicolon (esc_buf p) (esc_len p - 2) 2 in
      if (esc_len p <=? btn_end)%nat then Ret None
      else if (btn_end - 2 =? 2)%nat then
        let! b0 := buf_get (esc_buf p) 2 in
        let! b1 := buf_get (esc_buf p) 3 in
        if (b0 =? 0x36) && (b1 =? 0x34) then finish p IK_INPUT_SCROLL_UP
        else if (b0 =? 0x36) && (b1 =? 0x35) then finish p IK_INPUT_SCROLL_DOWN
        else finish p IK_INPUT_UNKNOWN
      else finish p IK_INPUT_UNKNOWN.

(** Digits from index [i] while below [i + n]: the index after them and their
    value. *)
Fixpoint digits_loop (buf : list Z) (n i : nat) (acc : Z) : outcome (nat * Z) :=
  match n with
  | O => Ret (i, acc)
  | S n =>
      let! c := buf_get buf i in
      if is_digit c then
        let! acc := add_digit acc c in digits_loop buf n (S i) acc
      else Ret (i, acc)
  end.

(** The action of a CSI u sequence once both numbers are read. *)
Definition csi_u_action (p : ik_input_parser) (keycode modifiers : Z)
  : outcome ik_input_action :=
  if 50000 <? keycode then Ret IK_INPUT_UNKNOWN
  else if keycode =? 13 then
    Ret (if modifiers =? 1 then IK_INPUT_NEWLINE else IK_INPUT_INSERT_NEWLINE)
  else if (modifiers =? 5) && (keycode =? 99) then Ret IK_INPUT_CTRL_C
  else if (modifiers =? 5) && (keycode =? 97) then Ret IK_INPUT_CTRL_A
  else if (modifiers =? 5) && (keycode =? 101) then Ret IK_INPUT_CTRL_E
  else if (modifiers =? 5) && (keycode =? 107) then Ret IK_INPUT_CTRL_K
  else if (modifiers =? 5) && (keycode =? 110) then Ret IK_INPUT_CTRL_N
  else if (modifiers =? 5) && (keycode =? 112) then Ret IK_INPUT_CTRL_P
  else if (modifiers =? 5) && (keycode =? 117) then Ret IK_INPUT_CTRL_U
  else if (modifiers =? 5) && (keycode =? 119) then Ret IK_INPUT_CTRL_W
  else if (modifiers =? 1) && (keycode =? 9) then Ret IK_INPUT_TAB
  else if (modifiers =? 1) && (keycode =? 127) then Ret IK_INPUT_BACKSPACE
  else if (modifiers =? 1) && (keycode =? 27) then Ret IK_INPUT_ESCAPE
  else if (modifiers =? 1) && ((32 <=? keycode) && (keycode <=? 126)) then
    Ret (IK_INPUT_CHAR keycode)
  else if (modifiers =? 1) && ((126 <? keycode) && (keycode <=? 0x10FFFF)) then
    Ret (IK_INPUT_CHAR keycode)
  else if (32 <=? keycode) && (keycode <=? 126) && (modifiers =? 2) then
    let! c := ik_input_xkb_translate_shifted_key p keycode in Ret (IK_INPUT_CHAR c)
  else Ret IK_INPUT_UNKNOWN.

(** [None] is the return value false; the state is not changed. *)
Definition parse_csi_u_sequence (p : ik_input_parser) : outcome (option ik_input_action) :=
  if (esc_len p <? 3)%nat then Ret None
  else
    let! l := buf_get (esc_buf p) (esc_len p - 1) in
    if negb (l =? 0x75) then Ret None
    else
      let! (i, keycode) := digits_loop (esc_buf p) (esc_len p - 1) 1 0 in
      let! modifiers :=
        if (i <? esc_len p)%nat then
          let! c := buf_get (esc_buf p) i in
          if c =? 0x3B then
            let! (_, m) := digits_loop (esc_buf p) (esc_len p - S i) (S i) 0 in Ret m
          else Ret 1
        else Ret 1 in
      let! a := csi_u_action p keycode (mask_numlock modifiers) in
      Ret (Some a).

(** The validity scan of the modified Home/End sequence. *)
Fixpoint all_digits (buf : list Z) (n i : nat) : outcome bool :=
  match n with
  | O => Ret true
  | S n =>
      let! c := buf_get buf i in
      if is_digit c then all_digits buf n (S i) else Ret false
  end.

(** The key number of a tilde sequence: up to a ';' or the final byte. *)
Fixpoint key_loop (buf : list Z) (n i : nat) (key : Z) : outcome (option Z) :=
  match n with
  | O => Ret (Some key)
  | S n =>
      let! c := buf_get buf i in
      if c =? 0x3B then Ret (Some key)
      else if is_digit c then
        let! key := add_digit key c in key_loop buf n (S i) key
      else Ret None
  end.

Definition tilde_action (key : Z) : ik_input_action :=
  if key =? 1 then IK_INPUT_CTRL_A
  else if key =? 3 then IK_INPUT_DELETE
  else if key =? 4 then IK_INPUT_CTRL_E
  else if key =? 5 then IK_INPUT_PAGE_UP
  else if key =? 6 then IK_INPUT_PAGE_DOWN
  else IK_INPUT_UNKNOWN.

Definition home_end (byte : Z) : bool := (byte =? 0x48) || (byte =? 0x46).
Definition home_end_action (byte : Z) : ik_input_action :=
  if byte =? 0x48 then IK_INPUT_CTRL_A else IK_INPUT_CTRL_E.

Definition parse_tilde_sequences (p : ik_input_parser) (byte : Z) : parse_result :=
  if (esc_len p =? 2)%nat && home_end byte then finish p (home_end_action byte)
  else
    let! valid :=
      if home_end byte && (5 <=? esc_len p)%nat then
        let! m := one_semicolon (esc_buf p) in
        if m then all_digits (esc_buf p) (esc_len p - 1 - 3) 3 else Ret false
      else Ret false in
    if valid then finish p (home_end_action byte)
    else if negb (byte =? 0x7E) then Ret None
    else
      let! key_opt := key_loop (esc_buf p) (esc_len p - 1 - 1) 1 0 in
      match key_opt with
      | None => Ret None
      | Some key => if key =? 0 then Ret None else finish p (tilde_action key)
      end.

Definition ik_input_parse_escape_sequence (p : ik_input_parser) (byte : Z)
  : outcome (ik_input_parser * ik_input_action) :=
  let! buf := buf_set (esc_len p) byte (esc_buf p) in
  let n := S (esc_len p) in
  let! buf := buf_set n 0 buf in
  let p := set_escape buf n (in_escape p) p in
  if (16 - 1 <=? esc_len p)%nat then Ret (reset_escape_state p, IK_INPUT_UNKNOWN)
  else
    or_else (if (esc_len p =? 1)%nat then parse_first_escape_byte p byte else Ret None)
    (or_else (parse_arrow_keys p byte)
    (or_else (parse_mouse_sgr p byte)
    (or_else (parse_tilde_sequences p byte)
    (if byte =? 0x75 then
       let! o := parse_csi_u_sequence p in
       Ret (reset_escape_state p, default IK_INPUT_UNKNOWN o)
     else if is_discardable_csi_terminal p byte then
       Ret (reset_escape_state p, IK_INPUT_UNKNOWN)
     else if (esc_len p =? 2)%nat && (0x41 <=? byte) && (byte <=? 0x5A) then
       Ret (reset_escape_state p, IK_INPUT_UNKNOWN)
     else Ret (p, IK_INPUT_UNKNOWN))))).

(** The lead byte of an [n]-byte sequence: "utf8_buf[0] = byte". *)
Definition start_utf8 (p : ik_input_parser) (byte : Z) (n : nat)
  : outcome (ik_input_parser * ik_input_action) :=
  let! buf := buf_set 0 byte (utf8_buf p) in
  Ret (set_utf8 buf 1 n true p, IK_INPUT_UNKNOWN).

Definition ik_input_parse_byte (p : ik_input_parser) (byte : Z)
  : outcome (ik_input_parser * ik_input_action) :=
  if in_utf8 p then parse_utf8_continuation p byte
  else if in_escape p then ik_input_parse_escape_sequence p byte
  else if byte =? 0x1B then Ret (set_escape (esc_buf p) 0 true p, IK_INPUT_UNKNOWN)
  else if byte =? 0x09 then Ret (p, IK_INPUT_TAB)
  else if byte =? 0x0D then Ret (p, IK_INPUT_NEWLINE)
  else if byte =? 0x0A then Ret (p, IK_INPUT_INSERT_NEWLINE)
  else if byte =? 0x01 then Ret (p, IK_INPUT_CTRL_A)
  else if byte =? 0x03 then Ret (p, IK_INPUT_CTRL_C)
  else if byte =? 0x05 then Ret (p, IK_INPUT_CTRL_E)
  else if byte =? 0x0B then Ret (p, IK_INPUT_CTRL_K)
  else if byte =? 0x0E then Ret (p, IK_INPUT_CTRL_N)
  else if byte =? 0x10 then Ret (p, IK_INPUT_CTRL_P)
  else if byte =? 0x15 then Ret (p, IK_INPUT_CTRL_U)
  else if byte =? 0x17 then Ret (p, IK_INPUT_CTRL_W)
  else if (0x20 <=? byte) && (byte <=? 0x7F) then
    if byte =? 0x7F then Ret (p, IK_INPUT_BACKSPACE) else Ret (p, IK_INPUT_CHAR byte)
  else if Z.land byte 0xE0 =? 0xC0 then start_utf8 p byte 2
  else if Z.land byte 0xF0 =? 0xE0 then start_utf8 p byte 3
  else if Z.land byte 0xF8 =? 0xF0 then start_utf8 p byte 4
  else Ret (p, IK_INPUT_UNKNOWN).

(** A stream of bytes: the final state and one action per byte. *)
Fixpoint parse_bytes (p : ik_input_parser) (bytes : list Z)
  : outcome (ik_input_parser * list ik_input_action) :=
  match bytes with
  | [] => Ret (p, [])
  | b :: bytes =>
      let! (p, a) := ik_input_parse_byte p b in
      let! (p, acts) := parse_bytes p bytes in
      Ret (p, a :: acts)
  end.

End xkb.

(** ** Runs of digits

    [short_runs 0 l]: no more than nine digits in a row, so that no number in
    [l] overflows an [int32_t]. *)

Fixpoint short_runs (k : nat) (l : list Z) : bool :=
  match l with
  | [] => true
  | c :: l => if is_digit c then (k <? 9)%nat && short_runs (S k) l else short_runs 0 l
  end.

Lemma short_runs_mono k j l : (j <= k)%nat -> short_runs k l = true -> short_runs j l = true.
Proof.
  revert k j. induction l as [|c l IH]; intros k j Hj Hr; simpl in *; [done|].
  destruct (is_digit c); [|done].
  apply andb_true_iff in Hr as [Hk Hr]. apply Nat.ltb_lt in Hk.
  rewrite (proj2 (Nat.ltb_lt _ _)) by lia. cbn [andb]. eapply IH; [|exact Hr]. lia.
Qed.

Lemma short_runs_suffix k a l : short_runs k (a ++ l) = true -> short_runs 0 l = true.
Proof.
  revert k. induction a as [|c a IH]; intros k Hr; simpl in *.
  - by eapply short_runs_mono; [|exact Hr]; lia.
  - destruct (is_digit c); [apply andb_true_iff in Hr as [_ Hr]|]; eauto.
Qed.

Lemma short_runs_prefix k a l : short_runs k (a ++ l) = true -> short_runs k a = true.
Proof.
  revert k. induction a as [|c a IH]; intros k Hr; simpl in *; [done|].
  destruct (is_digit c); [|eauto].
  apply andb_true_iff in Hr as [-> Hr]. simpl. eauto.
Qed.

Lemma short_runs_segment l n i m :
  short_runs 0 (take m l) = true -> (i + n <= m)%nat -> short_runs 0 (take n (drop i l)) = true.
Proof.
  intros Hr Hm. rewrite <- (take_drop i (take m l)), skipn_firstn_comm in Hr.
  apply short_runs_suffix in Hr. rewrite <- (take_drop n (take (m - i) _)) in Hr.
  apply short_runs_prefix in Hr. by rewrite take_take, Nat.min_l in Hr by lia.
Qed.

Lemma add_digit_ok acc c (k : nat) :
  (k < 9)%nat -> 0 <= acc < 10 ^ Z.of_nat k -> is_digit c = true ->
  add_digit acc c = Ret (acc * 10 + (c - 0x30)) /\
  0 <= acc * 10 + (c - 0x30) < 10 ^ Z.of_nat (S k).
Proof.
  intros Hk Ha Hc. unfold is_digit in Hc. bool_to_prop.
  assert (10 ^ Z.of_nat (S k) = 10 * 10 ^ Z.of_nat k) as Hp
    by (rewrite Nat2Z.inj_succ, Z.pow_succ_r; lia).
  assert (10 ^ Z.of_nat k <= 10 ^ 8) by (apply Z.pow_le_mono_r; lia).
  unfold add_digit, int32_checked.
  assert ((- 2 ^ 31 <=? acc * 10) && (acc * 10 <? 2 ^ 31) = true) as ->
    by (rewrite andb_true_iff, Z.leb_le, Z.ltb_lt; lia).
  cbn [obind].
  assert ((- 2 ^ 31 <=? acc * 10 + (c - 48)) && (acc * 10 + (c - 48) <? 2 ^ 31) = true) as ->
    by (rewrite andb_true_iff, Z.leb_le, Z.ltb_lt; lia).
  split; [done|lia].
Qed.

(** ** The scanning loops terminate with a value *)

Lemma buf_get_ok buf i : (i < length buf)%nat -> exists c, buf_get buf i = Ret c /\
  drop i buf = c :: drop (S i) buf.
Proof.
  intros Hi. destruct (lookup_lt_is_Some_2 buf i Hi) as [c Hc].
  exists c. unfold buf_get. rewrite Hc. split; [done|]. by apply drop_S.
Qed.

(** One step of a loop over a segment with short runs. *)
Ltac scan_step Hr :=
  let c := fresh "c" in let Hg := fresh "Hg" in let Hd := fresh "Hd" in
  match goal with
  | |- context [buf_get ?buf ?i] =>
      destruct (buf_get_ok buf i) as (c & Hg & Hd); [lia|];
      rewrite Hg; cbn [obind]; rewrite Hd in Hr; cbn [take short_runs] in Hr
  end.

Lemma number_loop_ok buf n i acc k :
  (i + n <= length buf)%nat -> short_runs k (take n (drop i buf)) = true ->
  (k <= 9)%nat -> 0 <= acc < 10 ^ Z.of_nat k -> exists r, number_loop buf n i acc = Ret r.
Proof.
  revert i acc k. induction n as [|n IH]; intros i acc k Hi Hr Hk Ha; simpl; [eauto|].
  scan_step Hr. destruct (is_digit c) eqn:Hc; [|eauto].
  apply andb_true_iff in Hr as [Hk9%Nat.ltb_lt Hr].
  destruct (add_digit_ok acc c k Hk9 Ha Hc) as [-> Ha']. cbn [obind].
  apply (IH _ _ (S k)); [lia|done|lia|done].
Qed.

Lemma key_loop_ok buf n i acc k :
  (i + n <= length buf)%nat -> short_runs k (take n (drop i buf)) = true ->
  (k <= 9)%nat -> 0 <= acc < 10 ^ Z.of_nat k -> exists r, key_loop buf n i acc = Ret r.
Proof.
  revert i acc k. induction n as [|n IH]; intros i acc k Hi Hr Hk Ha; simpl; [eauto|].
  scan_step Hr. destruct (c =? 0x3B); [eauto|]. destruct (is_digit c) eqn:Hc; [|eauto].
  apply andb_true_iff in Hr as [Hk9%Nat.ltb_lt Hr].
  destruct (add_digit_ok acc c k Hk9 Ha Hc) as [-> Ha']. cbn [obind].
  apply (IH _ _ (S k)); [lia|done|lia|done].
Qed.

Lemma digits_loop_ok buf n i acc k :
  (i + n <= length buf)%nat -> short_runs k (take n (drop i buf)) = true ->
  (k <= 9)%nat -> 0 <= acc < 10 ^ Z.of_nat k ->
  exists j v, digits_loop buf n i acc = Ret (j, v) /\ (i <= j <= i + n)%nat.
Proof.
  revert i acc k. induction n as [|n IH]; intros i acc k Hi Hr Hk Ha; simpl;
    [exists i, acc; split; [done|lia]|].
  scan_step Hr. destruct (is_digit c) eqn:Hc; [|exists i, acc; split; [done|lia]].
  apply andb_true_iff in Hr as [Hk9%Nat.ltb_lt Hr].
  destruct (add_digit_ok acc c k Hk9 Ha Hc) as [-> Ha']. cbn [obind].
  destruct (IH (S i) (acc * 10 + (c - 0x30)) (S k)) as (j & v & Hj & Hb); [lia|done|lia|done|].
  exists j, v. split; [done|lia].
Qed.

Lemma all_digits_ok buf n i : (i + n <= length buf)%nat -> exists r, all_digits buf n i = Ret r.
Proof.
  revert i. induction n as [|n IH]; intros i Hi; simpl; [eauto|].
  destruct (buf_get_ok buf i) as (c & -> & _); [lia|]. cbn [obind].
  destruct (is_digit c); [apply IH; lia|eauto].
Qed.

Lemma find_semicolon_ok buf n i :
  (i + n <= length buf)%nat -> exists j, find_semicolon buf n i = Ret j.
Proof.
  revert i. induction n as [|n IH]; intros i Hi; simpl; [eauto|].
  destruct (buf_get_ok buf i) as (c & -> & _); [lia|]. cbn [obind].
  destruct (c =? 0x3B); [eauto|apply IH; lia].
Qed.

Lemma one_semicolon_ok buf : (3 <= length buf)%nat -> exists r, one_semicolon buf = Ret r.
Proof.
  intros Hl. unfold one_semicolon.
  destruct (buf_get_ok buf 1) as (c & -> & _); [lia|]. cbn [obind].
  destruct (c =? 0x31); [|eauto].
  destruct (buf_get_ok buf 2) as (d & -> & _); [lia|]. cbn [obind]. eauto.
Qed.

(** ** The state invariant *)

Section invariant.
Context `{!Xkb} `{!XkbSpec}.

(** [hist] is the stream read so far; in an escape sequence the buffer holds
    its last bytes. *)
Record parser_ok (p : ik_input_parser) (hist : list Z) : Prop := {
  ok_esc_buf : length (esc_buf p) = 16%nat;
  ok_utf8_buf : length (utf8_buf p) = 4%nat;
  ok_map : length (reverse_map p) = 128%nat;
  ok_esc_len : (esc_len p <= 14)%nat;
  ok_modes : in_utf8 p = true -> in_escape p = false;
  ok_utf8 : in_utf8 p = true -> (1 <= utf8_len p < utf8_expected p)%nat /\ (utf8_expected p <= 4)%nat;
  ok_escape : in_escape p = true -> exists h, hist = h ++ take (esc_len p) (esc_buf p)
}.

(** The code point of a CHAR action can be encoded. *)
Definition action_ok (a : ik_input_action) : Prop :=
  match a with IK_INPUT_CHAR c => scalar c | _ => True end.

Definition byte_result (hist : list Z) (r : outcome (ik_input_parser * ik_input_action)) : Prop :=
  exists q a, r = Ret (q, a) /\ parser_ok q hist /\ action_ok a.

(** A helper in escape mode either declines or finishes the sequence. *)
Definition helper_result (hist : list Z) (r : parse_result) : Prop :=
  r = Ret None \/
  exists q a, r = Ret (Some (q, a)) /\ parser_ok q hist /\ action_ok a.

Lemma or_else_ok hist r k : helper_result hist r -> byte_result hist k -> byte_result hist (or_else r k).
Proof. intros [-> |(q & a & -> & Hq & Ha)] Hk; [done|]. by exists q, a. Qed.

Lemma reset_escape_ok p hist hist' : parser_ok p hist -> in_utf8 p = false -> parser_ok (reset_escape_state p) hist'.
Proof. intros [] Hu. constructor; simpl; auto; try lia; congruence. Qed.

Lemma reset_utf8_ok p hist hist' : parser_ok p hist -> in_escape p = false -> parser_ok (reset_utf8_state p) hist'.
Proof. intros [] Hu. constructor; simpl; auto; try congruence. Qed.

Lemma byte_intro hist q a : parser_ok q hist -> action_ok a -> byte_result hist (Ret (q, a)).
Proof. intros. by exists q, a. Qed.

Lemma finish_ok p hist a :
  parser_ok p hist -> in_utf8 p = false -> action_ok a -> helper_result hist (finish p a).
Proof.
  intros Hp Hu Ha. right. exists (reset_escape_state p), a.
  split_and!; [done|by eapply reset_escape_ok|done].
Qed.

(** Inside an escape sequence, after the byte was stored. *)
Record in_sequence (p : ik_input_parser) (hist : list Z) : Prop := {
  seq_ok : parser_ok p hist;
  seq_esc : in_escape p = true;
  seq_pos : (1 <= esc_len p)%nat;
  seq_short : short_runs 0 hist = true
}.

Lemma seq_utf8 p hist : in_sequence p hist -> in_utf8 p = false.
Proof. intros [[] He _ _]. destruct (in_utf8 p); [|done]. naive_solver. Qed.

Lemma seq_segment p hist i n :
  in_sequence p hist -> (i + n <= esc_len p)%nat ->
  (i + n <= length (esc_buf p))%nat /\ short_runs 0 (take n (drop i (esc_buf p))) = true.
Proof.
  intros [[] He _ Hs] Hn. split; [lia|].
  destruct ok_escape0 as [h ->]; [done|].
  eapply short_runs_segment; [by eapply short_runs_suffix|done].
Qed.

Hint Resolve finish_ok seq_ok seq_utf8 : core.

(** The helpers start with a case distinction on their guards. *)
Ltac decline := by left.

Lemma parse_arrow_keys_ok p hist byte : in_sequence p hist -> helper_result hist (parse_arrow_keys p byte).
Proof.
  intros Hp. unfold parse_arrow_keys.
  assert (forall b, action_ok (arrow_action b) /\ action_ok (nav_action b)) as Hact
    by (intros b; unfold arrow_action, nav_action; split; destruct_ifs; done).
  destruct (negb _); [decline|]. destruct (Nat.eqb_spec (esc_len p) 2); [apply finish_ok; naive_solver|].
  destruct (Nat.leb_spec 5 (esc_len p)); [|decline].
  destruct (one_semicolon_ok (esc_buf p)) as [m ->];
    [rewrite (ok_esc_buf _ _ (seq_ok _ _ Hp)); lia|].
  cbn [obind]. destruct m; [|decline].
  destruct (seq_segment p hist 3 (esc_len p - 1 - 3) Hp) as [Hl Hs]; [lia|].
  destruct (number_loop_ok _ _ _ 0 0 Hl Hs) as [[m|] ->]; [lia|lia| |decline].
  cbn [obind]. destruct (mask_numlock m =? 1); [apply finish_ok; naive_solver|].
  destruct (mask_numlock m =? 5); [apply finish_ok; naive_solver|decline].
Qed.

Lemma parse_mouse_sgr_ok p hist byte : in_sequence p hist -> helper_result hist (parse_mouse_sgr p byte).
Proof.
  intros Hp. pose proof (ok_esc_buf _ _ (seq_ok _ _ Hp)) as Hbuf.
  pose proof (ok_esc_len _ _ (seq_ok _ _ Hp)) as Hlen. unfold parse_mouse_sgr.
  destruct (Nat.ltb_spec (esc_len p) 2); [decline|].
  destruct (buf_get_ok (esc_buf p) 1) as (b1 & -> & _); [lia|]. cbn [obind].
  destruct (negb (b1 =? 0x3C)); [decline|]. destruct (negb _); [decline|].
  destruct (find_semicolon_ok (esc_buf p) (esc_len p - 2) 2) as [j ->]; [lia|]. cbn [obind].
  destruct (esc_len p <=? j)%nat; [decline|].
  destruct (j - 2 =? 2)%nat; [|apply finish_ok; [eauto|eauto|done]].
  destruct (buf_get_ok (esc_buf p) 2) as (c2 & -> & _); [lia|]. cbn [obind].
  destruct (buf_get_ok (esc_buf p) 3) as (c3 & -> & _); [lia|]. cbn [obind].
  destruct_ifs; (apply finish_ok; [eauto|eauto|done]).
Qed.

Lemma parse_tilde_ok p hist byte : in_sequence p hist -> helper_result hist (parse_tilde_sequences p byte).
Proof.
  intros Hp. pose proof (ok_esc_buf _ _ (seq_ok _ _ Hp)) as Hbuf.
  pose proof (ok_esc_len _ _ (seq_ok _ _ Hp)) as Hlen. unfold parse_tilde_sequences.
  assert (action_ok (home_end_action byte)) as Hhe by (unfold home_end_action; by destruct_ifs).
  destruct (_ && home_end byte); [apply finish_ok; eauto|].
  match goal with |- helper_result _ (obind ?m _) => assert (exists v, m = Ret v) as [v ->] end.
  { destruct (home_end byte && (5 <=? esc_len p)%nat) eqn:E; [|eauto].
    apply andb_true_iff in E as [_ E%Nat.leb_le].
    destruct (one_semicolon_ok (esc_buf p)) as [m ->]; [lia|]. cbn [obind].
    destruct m; [|eauto]. apply all_digits_ok. lia. }
  cbn [obind]. destruct v; [apply finish_ok; eauto|]. destruct (negb _); [decline|].
  destruct (seq_segment p hist 1 (esc_len p - 1 - 1) Hp) as [Hl Hs].
  { pose proof (seq_pos _ _ Hp). destruct (esc_len p) as [|[|n]]; simpl; lia. }
  destruct (key_loop_ok _ _ _ 0 0 Hl Hs) as [[k|] ->]; [lia|lia| |decline].
  cbn [obind]. destruct (k =? 0); [decline|]. apply finish_ok; eauto.
  unfold tilde_action. by destruct_ifs.
Qed.

Lemma small_scalar c : 0 <= c <= 50000 -> scalar c.
Proof. intros. apply scalar_intro; lia. Qed.

Lemma translate_ok p c :
  length (reverse_map p) = 128%nat -> 32 <= c <= 126 ->
  exists d, ik_input_xkb_translate_shifted_key p c = Ret d /\ scalar d.
Proof.
  intros Hm Hc. pose proof (small_scalar c ltac:(lia)) as Hs.
  unfold ik_input_xkb_translate_shifted_key. destruct (_ || _); [eauto|].
  destruct (lookup_lt_is_Some_2 (reverse_map p) (Z.to_nat c)) as [kc ->]; [lia|].
  destruct (kc =? 0)%nat; [eauto|]. eexists. split; [reflexivity|].
  destruct (Z.eqb_spec (xkb_keysym_to_utf32 (xkb_key_get_one_sym true kc)) 0); [done|].
  by destruct (utf32_scalar (xkb_key_get_one_sym true kc)).
Qed.

Lemma csi_u_action_ok p k m :
  length (reverse_map p) = 128%nat -> exists a, csi_u_action p k m = Ret a /\ action_ok a.
Proof.
  intros Hm. unfold csi_u_action.
  assert (forall b (x y : outcome ik_input_action),
    (b = true -> exists a, x = Ret a /\ action_ok a) ->
    (b = false -> exists a, y = Ret a /\ action_ok a) ->
    exists a, (if b then x else y) = Ret a /\ action_ok a) as Hite by (by intros []; auto).
  assert (forall a, action_ok a -> exists a', Ret a = Ret a' /\ action_ok a') as Hret by eauto.
  repeat (apply Hite; intros ?); bool_to_prop; try (apply Hret; done);
    try (apply Hret, small_scalar; lia).
  - apply Hret. by destruct (m =? 1).
  - destruct (translate_ok p k Hm) as (d & -> & Hd); [lia|]. eauto.
Qed.

Lemma parse_csi_u_ok p hist :
  in_sequence p hist ->
  parse_csi_u_sequence p = Ret None \/
  exists a, parse_csi_u_sequence p = Ret (Some a) /\ action_ok a.
Proof.
  intros Hp. pose proof (ok_esc_buf _ _ (seq_ok _ _ Hp)) as Hbuf.
  pose proof (ok_esc_len _ _ (seq_ok _ _ Hp)) as Hlen. unfold parse_csi_u_sequence.
  destruct (Nat.ltb_spec (esc_len p) 3); [by left|].
  destruct (buf_get_ok (esc_buf p) (esc_len p - 1)) as (l & -> & _); [lia|]. cbn [obind].
  destruct (negb _); [by left|]. right.
  destruct (seq_segment p hist 1 (esc_len p - 1) Hp) as [Hl Hs]; [lia|].
  destruct (digits_loop_ok _ _ _ 0 0 Hl Hs) as (i & k & -> & Hi); [lia|lia|]. cbn [obind].
  match goal with |- exists a, obind ?m _ = _ /\ _ => assert (exists v, m = Ret v) as [v ->] end.
  { destruct (Nat.ltb_spec i (esc_len p)); [|eauto].
    destruct (buf_get_ok (esc_buf p) i) as (c & -> & _); [lia|]. cbn [obind].
    destruct (c =? 0x3B); [|eauto].
    destruct (seq_segment p hist (S i) (esc_len p - S i) Hp) as [Hl2 Hs2]; [lia|].
    destruct (digits_loop_ok _ _ _ 0 0 Hl2 Hs2) as (j & m & -> & _); [lia|lia|]. eauto. }
  cbn [obind]. destruct (csi_u_action_ok p k (mask_numlock v)) as (a & -> & Ha);
    [apply (ok_map _ _ (seq_ok _ _ Hp))|]. eauto.
Qed.

Lemma take_insert_end (buf : list Z) n b c :
  (S n < length buf)%nat -> take (S n) (<[S n := c]> (<[n := b]> buf)) = take n buf ++ [b].
Proof.
  intros Hn. rewrite take_insert_ge by lia.
  rewrite (take_S_r _ _ b) by (apply list_lookup_insert_eq; lia). by rewrite take_insert_ge.
Qed.

Lemma parse_escape_ok p hist byte :
  parser_ok p hist -> in_escape p = true -> short_runs 0 (hist ++ [byte]) = true ->
  byte_result (hist ++ [byte]) (ik_input_parse_escape_sequence p byte).
Proof.
  intros Hp He Hs. pose proof Hp as [Hb Hu8 Hmap Hl Hmodes Hu Hesc].
  assert (in_utf8 p = false) as Hnu
    by (destruct (in_utf8 p); [rewrite Hmodes in He by done|]; done).
  unfold ik_input_parse_escape_sequence, buf_set.
  rewrite decide_True by lia. cbn [obind].
  rewrite decide_True by (rewrite length_insert; lia). cbn [obind].
  set (q := set_escape _ _ _ _).
  destruct (Nat.leb_spec (16 - 1) (esc_len q)) as [Hlong|Hshort].
  { apply byte_intro; [|done].
    constructor; simpl; rewrite ?length_insert; auto; try lia; congruence. }
  assert (in_sequence q (hist ++ [byte])) as Hq.
  { simpl in Hshort. constructor; [|done|simpl; lia|done].
    constructor; simpl; rewrite ?length_insert; auto; try lia; try congruence.
    intros _. destruct (Hesc He) as [h ->]. exists h.
    rewrite <- app_assoc. f_equal. symmetry. apply take_insert_end. lia. }
  assert (forall a, action_ok a -> byte_result (hist ++ [byte]) (Ret (reset_escape_state q, a)))
    as Hreset by (intros a Ha; apply byte_intro; [by eapply reset_escape_ok; eauto|done]).
  apply or_else_ok; [|apply or_else_ok; [by apply parse_arrow_keys_ok|
    apply or_else_ok; [by apply parse_mouse_sgr_ok|apply or_else_ok; [by apply parse_tilde_ok|]]]].
  - destruct (esc_len q =? 1)%nat; [|by left]. unfold parse_first_escape_byte.
    destruct (byte =? 0x5B); [by left|]. destruct (byte =? 0x1B); [|apply finish_ok; [apply Hq|by eapply seq_utf8|done]].
    right. eexists _, _. split; [reflexivity|]. split; [|done].
    destruct Hq as [[] _ _ _]. constructor; simpl; auto; try lia; try congruence.
    intros _. exists (hist ++ [byte]). by rewrite app_nil_r.
  - destruct (byte =? 0x75).
    { destruct (parse_csi_u_ok q _ Hq) as [->|(a & -> & Ha)]; cbn [obind default]; by apply Hreset. }
    destruct_ifs; try (by apply Hreset). apply byte_intro; [apply Hq|done].
Qed.

Lemma decode_ok buf :
  (2 <= length buf <= 4)%nat -> exists c, decode_utf8_sequence buf = Ret c /\ scalar c.
Proof.
  intros Hl. unfold decode_utf8_sequence.
  match goal with |- exists c, obind ?m _ = _ /\ _ =>
    assert (exists v, m = Ret v /\ 0 <= v) as (v & -> & Hv) end.
  { destruct buf as [|b0 [|b1 [|b2 [|b3 [|b4 buf]]]]]; simpl in Hl; try lia;
      eexists; (split; [reflexivity|]);
      rewrite ?Z.lor_nonneg, ?Z.shiftl_nonneg, ?Z.land_nonneg; lia. }
  cbn [obind]. destruct_ifs; (eexists; split; [reflexivity|]); try done.
  bool_to_prop. apply scalar_intro; [lia|]. intros [H1 H2].
  match goal with H : _ && _ = false |- _ => apply andb_false_iff in H as [H|H] end;
    bool_to_prop; lia.
Qed.

Lemma parse_utf8_ok p hist byte :
  parser_ok p hist -> in_utf8 p = true ->
  byte_result (hist ++ [byte]) (parse_utf8_continuation p byte).
Proof.
  intros Hp Hin. pose proof Hp as [Hb Hu8 Hmap Hl Hmodes Hu Hesc].
  specialize (Hu Hin). specialize (Hmodes Hin).
  unfold parse_utf8_continuation, buf_set. destruct (negb _).
  { apply byte_intro; [by eapply reset_utf8_ok|done]. }
  rewrite decide_True by lia. cbn [obind set_utf8 utf8_len utf8_expected utf8_buf in_utf8].
  destruct (Nat.eqb_spec (S (utf8_len p)) (utf8_expected p)) as [Heq|Hne].
  - destruct (decode_ok (take (S (utf8_len p)) (<[utf8_len p := byte]> (utf8_buf p))))
      as (c & E & Hc); [rewrite length_take, length_insert; lia|].
    rewrite E. cbn [obind]. apply byte_intro; [|done].
    constructor; simpl; rewrite ?length_insert; auto; try congruence.
  - apply byte_intro; [|done].
    constructor; simpl; rewrite ?length_insert; auto; try congruence; intros; lia.
Qed.

Lemma start_utf8_ok p hist byte n :
  parser_ok p hist -> in_escape p = false -> (2 <= n <= 4)%nat ->
  byte_result (hist ++ [byte]) (start_utf8 p byte n).
Proof.
  intros [Hb Hu8 Hmap Hl Hmodes Hu Hesc] He Hn. unfold start_utf8, buf_set.
  rewrite decide_True by lia. cbn [obind]. apply byte_intro; [|done].
  constructor; simpl; rewrite ?length_insert; auto; try congruence; intros; lia.
Qed.

Lemma parse_byte_ok p hist byte :
  parser_ok p hist -> short_runs 0 (hist ++ [byte]) = true ->
  byte_result (hist ++ [byte]) (ik_input_parse_byte p byte).
Proof.
  intros Hp Hs. unfold ik_input_parse_byte.
  destruct (in_utf8 p) eqn:Hu; [by apply parse_utf8_ok|].
  destruct (in_escape p) eqn:He; [by apply parse_escape_ok|].
  assert (parser_ok p (hist ++ [byte])) as Hp'
    by (destruct Hp; constructor; auto; congruence).
  repeat match goal with
  | |- byte_result _ (if ?b then ?t else _) => destruct b eqn:?;
      [try (apply byte_intro; [exact Hp'|done]); try (apply start_utf8_ok; [done|done|lia])|]
  end.
  - apply byte_intro; [|done]. destruct Hp; constructor; simpl; auto; try lia; try congruence.
    intros _. exists (hist ++ [byte]). by rewrite app_nil_r.
  - bool_to_prop.
    apply byte_intro; [done|]. apply small_scalar. lia.
  - by apply byte_intro.
Qed.

Lemma parse_bytes_ok p hist bytes :
  parser_ok p hist -> short_runs 0 (hist ++ bytes) = true ->
  exists q acts, parse_bytes p bytes = Ret (q, acts) /\ parser_ok q (hist ++ bytes) /\
    Forall action_ok acts /\ length acts = length bytes.
Proof.
  revert p hist. induction bytes as [|b bytes IH]; intros p hist Hp Hs; simpl.
  - exists p, []. rewrite app_nil_r. by split_and!.
  - rewrite cons_middle, app_assoc in Hs |- *.
    destruct (parse_byte_ok p hist b Hp) as (q & a & -> & Hq & Ha);
      [by eapply short_runs_prefix|]. cbn [obind].
    destruct (IH q _ Hq Hs) as (r & acts & -> & Hr & Hacts & Hl). cbn [obind].
    exists r, (a :: acts). split_and!; [done|done|by constructor|by rewrite <- Hl].
Qed.

Lemma create_ok : parser_ok ik_input_parser_create [].
Proof.
  unfold ik_input_parser_create, ik_input_xkb_init_state.
  assert (length ik_input_xkb_build_reverse_map = 128%nat) as Hm.
  { unfold ik_input_xkb_build_reverse_map.
    assert (forall l m, length m = 128%nat -> length (fold_left reverse_map_step l m) = 128%nat)
      as Hf; [|by apply Hf].
    induction l as [|kc l IH]; intros m Hm; [done|]. simpl. apply IH.
    unfold reverse_map_step. destruct_ifs; by rewrite ?length_insert. }
  destruct xkb_available; constructor; simpl; auto; try lia; congruence.
Qed.

End invariant.

(** ** Typed text *)

Section typing.
Context `{!Xkb}.

#[local] Arguments decode_utf8_sequence : simpl never.

(** Between sequences. *)
Record ground (p : ik_input_parser) : Prop := {
  ground_utf8 : in_utf8 p = false;
  ground_escape : in_escape p = false;
  ground_utf8_buf : length (utf8_buf p) = 4%nat;
  ground_esc_buf : length (esc_buf p) = 16%nat
}.

Lemma parse_bytes_app p bs1 bs2 q r acts1 acts2 :
  parse_bytes p bs1 = Ret (q, acts1) -> parse_bytes q bs2 = Ret (r, acts2) ->
  parse_bytes p (bs1 ++ bs2) = Ret (r, acts1 ++ acts2).
Proof.
  revert p acts1. induction bs1 as [|b bs1 IH]; intros p acts1 H1 H2; simpl in *; [by simplify_eq|].
  apply obind_Ret_inv in H1 as ([p1 a] & -> & H1).
  apply obind_Ret_inv in H1 as ([p2 acts] & Hp & H1). simplify_eq. cbn [obind].
  by rewrite (IH _ _ Hp H2).
Qed.

(** The continuation bytes of a sequence: all but the last give UNKNOWN. *)
Lemma feed_conts conts p sofar v :
  conts <> [] -> Forall (fun b => is_cont b = true) conts ->
  in_utf8 p = true -> in_escape p = false ->
  length (utf8_buf p) = 4%nat -> length (esc_buf p) = 16%nat ->
  utf8_len p = length sofar -> take (utf8_len p) (utf8_buf p) = sofar ->
  utf8_expected p = (length sofar + length conts)%nat -> (utf8_expected p <= 4)%nat ->
  decode_utf8_sequence (sofar ++ conts) = Ret v ->
  exists q, parse_bytes p conts
            = Ret (q, replicate (length conts - 1) IK_INPUT_UNKNOWN ++ [IK_INPUT_CHAR v]) /\
            ground q.
Proof.
  revert p sofar. induction conts as [|b conts IH]; intros p sofar Hne Hc Hu He Hb Heb Hl Ht Hx Hx4 Hd;
    [done|].
  apply Forall_cons in Hc as [Hcb Hc]. simpl in Hx.
  cbn [parse_bytes]. unfold ik_input_parse_byte. rewrite Hu. unfold parse_utf8_continuation.
  unfold is_cont in Hcb. rewrite Hcb. cbn [negb]. unfold buf_set.
  rewrite decide_True by lia. cbn [obind set_utf8 utf8_len utf8_expected utf8_buf in_utf8].
  assert (take (S (utf8_len p)) (<[utf8_len p := b]> (utf8_buf p)) = sofar ++ [b]) as Ht'.
  { rewrite (take_S_r _ _ b) by (apply list_lookup_insert_eq; lia).
    by rewrite take_insert_ge, Ht. }
  destruct conts as [|b2 conts].
  - rewrite (proj2 (Nat.eqb_eq _ _)) by (rewrite Hx, Hl; simpl; lia).
    rewrite Ht', Hd. cbn [obind]. eexists. split; [reflexivity|].
    constructor; simpl; rewrite ?length_insert; auto.
  - simpl in Hx. rewrite (proj2 (Nat.eqb_neq _ _)) by (rewrite Hx, Hl; lia). cbn [obind].
    destruct (IH (set_utf8 (<[utf8_len p:=b]> (utf8_buf p)) (S (utf8_len p))
                   (utf8_expected p) (in_utf8 p) p) (sofar ++ [b]))
      as (q & Hq & Hg); simpl; rewrite ?length_insert, ?length_app; simpl; auto; try lia.
    { by rewrite <- app_assoc. }
    simpl in Hq. rewrite Hq. cbn [obind]. exists q. split; [|done]. by rewrite Nat.sub_0_r.
Qed.

Lemma lead_byte_range b n :
  is_byte b -> lead_len b = Some n -> (2 <= n)%nat -> 0xC0 <= b.
Proof.
  intros Hb Hn Hle.
  pose proof (byte_forallb
    (fun b => match lead_len b with Some n => (n <? 2)%nat || (0xC0 <=? b) | None => true end)
    eq_refl b Hb) as Hr.
  simpl in Hr. rewrite Hn in Hr. apply orb_true_iff in Hr as [Hr|Hr]; bool_to_prop; lia.
Qed.

Lemma feed_lead p b n :
  ground p -> is_byte b -> lead_len b = Some n -> (2 <= n)%nat ->
  ik_input_parse_byte p b = Ret (set_utf8 (<[0%nat := b]> (utf8_buf p)) 1 n true p, IK_INPUT_UNKNOWN).
Proof.
  intros [Hu He Hb _] Hby Hn Hle. pose proof (lead_byte_range b n Hby Hn Hle).
  unfold ik_input_parse_byte. rewrite Hu, He. unfold lead_len in Hn.
  assert (start_utf8 p b n
          = Ret (set_utf8 (<[0%nat := b]> (utf8_buf p)) 1 n true p, IK_INPUT_UNKNOWN)) as Hs.
  { unfold start_utf8, buf_set. by rewrite decide_True by lia. }
  repeat rewrite (proj2 (Z.eqb_neq b _)) by lia.
  rewrite (proj2 (Z.leb_gt b _)), andb_false_r by lia.
  destruct (Z.land b 0x80 =? 0); [simplify_eq; lia|].
  destruct_ifs; by simplify_eq.
Qed.

(** What a terminal sends as text: scalar values that are not control
    characters. *)
Definition printable (c : Z) : Prop := scalar c /\ 32 <= c /\ c <> 127.

Lemma feed_char p c :
  ground p -> printable c ->
  exists q n, parse_bytes p (encode_utf8 c)
              = Ret (q, replicate n IK_INPUT_UNKNOWN ++ [IK_INPUT_CHAR c]) /\ ground q.
Proof.
  intros Hg (Hs & H32 & H127). pose proof (encodes_scalar c Hs) as He.
  destruct (Z.lt_ge_cases c 128) as [Hlt|Hge].
  - inversion He; subst; try lia. exists p, 0%nat. split; [|done].
    cbn [parse_bytes]. destruct Hg as [Hu Hesc _ _]. unfold ik_input_parse_byte.
    rewrite Hu, Hesc. repeat rewrite (proj2 (Z.eqb_neq c _)) by lia.
    by rewrite (proj2 (Z.leb_le _ _)), (proj2 (Z.leb_le c _)) by lia.
  - destruct (encodes_shape c _ He) as (l & conts & E & Hc & _ & Hl & Hby).
    pose proof (decode_encodes c _ He ltac:(lia)) as Hd. rewrite Hs in Hd.
    assert (2 <= length (l :: conts) <= 4)%nat as Hlen.
    { rewrite <- E. inversion He; subst; simpl; lia. }
    rewrite E in *. apply Forall_cons in Hby as [Hby _].
    cbn [parse_bytes]. rewrite (feed_lead p l _ Hg Hby Hl) by lia. cbn [obind].
    destruct Hg as [Hu Hesc Hub Heb].
    destruct (feed_conts conts (set_utf8 (<[0%nat:=l]> (utf8_buf p)) 1 (length (l :: conts)) true p)
                [l] c) as (q & -> & Hq);
      simpl in *; rewrite ?length_insert; auto; try lia.
    + by destruct conts; simpl in *; [lia|].
    + by destruct (utf8_buf p).
    + cbn [obind]. by exists q, (S (length conts - 1)).
Qed.

Lemma feed_text cps p :
  ground p -> Forall printable cps ->
  exists q acts, parse_bytes p (text_of cps) = Ret (q, acts) /\ ground q /\
    filter (fun a => a <> IK_INPUT_UNKNOWN) acts = IK_INPUT_CHAR <$> cps.
Proof.
  revert p. induction cps as [|c cps IH]; intros p Hg Hp; [by exists p, []|].
  apply Forall_cons in Hp as [Hc Hp]. rewrite text_of_cons.
  destruct (feed_char p c Hg Hc) as (q & n & H1 & Hq).
  destruct (IH q Hq Hp) as (r & acts & H2 & Hr & Hf).
  exists r. eexists. split; [by eapply parse_bytes_app|]. split; [done|].
  rewrite !filter_app, Hf. rewrite filter_cons_True by done. rewrite filter_nil.
  assert (forall k, filter (fun a => a <> IK_INPUT_UNKNOWN) (replicate k IK_INPUT_UNKNOWN) = [])
    as -> by (induction k as [|k IHk]; [done|]; simpl; by rewrite filter_cons_False by auto).
  done.
Qed.

End typing.

(** ** Leaving an escape sequence *)

Section leaving.
Context `{!Xkb} `{!XkbSpec}.

Definition closes (r : parse_result) : Prop :=
  forall q a, r = Ret (Some (q, a)) -> in_escape q = false.

Lemma closes_finish p a : closes (finish p a).
Proof. intros q b [= <- _]. done. Qed.
Lemma closes_none : closes (Ret None).
Proof. by intros ? ?. Qed.
Lemma closes_bind {A} (m : outcome A) k : (forall x, closes (k x)) -> closes (obind m k).
Proof. intros Hk q a (x & _ & Hx)%obind_Ret_inv. by eapply Hk. Qed.
Lemma closes_if (b : bool) x y : closes x -> closes y -> closes (if b then x else y).
Proof. by destruct b. Qed.

Ltac close :=
  repeat first [ apply closes_finish | apply closes_none | apply closes_if
               | apply closes_bind; intros ? ].

Lemma closes_arrow p b : closes (parse_arrow_keys p b).
Proof. unfold parse_arrow_keys. close. destruct x0; close. Qed.
Lemma closes_mouse p b : closes (parse_mouse_sgr p b).
Proof. unfold parse_mouse_sgr. close. Qed.
Lemma closes_tilde p b : closes (parse_tilde_sequences p b).
Proof. unfold parse_tilde_sequences. close. destruct x0; close. Qed.

(** One byte other than ESC ends the sequence or lengthens it by one. *)
Lemma escape_step p b q a :
  ik_input_parse_escape_sequence p b = Ret (q, a) -> b <> 0x1B ->
  in_escape q = false \/ esc_len q = S (esc_len p).
Proof.
  intros Hp Hb. unfold ik_input_parse_escape_sequence in Hp.
  apply obind_Ret_inv in Hp as (buf & _ & Hp). apply obind_Ret_inv in Hp as (buf' & _ & Hp).
  set (p1 := set_escape _ _ _ _) in Hp.
  assert (esc_len p1 = S (esc_len p)) as Hlen by done.
  destruct (16 - 1 <=? esc_len p1)%nat; [simplify_eq; by left|].
  assert (forall r k, closes r -> or_else r k = Ret (q, a) ->
    (k = Ret (q, a) -> in_escape q = false \/ esc_len q = S (esc_len p)) ->
    in_escape q = false \/ esc_len q = S (esc_len p)) as Hor.
  { intros r k Hr (o & -> & Ho)%obind_Ret_inv Hk. destruct o as [[q' a']|]; [|auto].
    simplify_eq. left. by eapply Hr. }
  eapply Hor; [|exact Hp|clear Hp; intros Hp].
  { apply closes_if; [|apply closes_none]. unfold parse_first_escape_byte.
    rewrite (proj2 (Z.eqb_neq b 0x1B)) by done. close. }
  eapply Hor; [apply closes_arrow|exact Hp|clear Hp; intros Hp].
  eapply Hor; [apply closes_mouse|exact Hp|clear Hp; intros Hp].
  eapply Hor; [apply closes_tilde|exact Hp|clear Hp; intros Hp].
  destruct (b =? 0x75).
  { apply obind_Ret_inv in Hp as (o & _ & Hp). simplify_eq. by left. }
  destruct_ifs; simplify_eq; auto.
Qed.

Lemma leaves_escape p hist bytes :
  parser_ok p hist -> short_runs 0 (hist ++ bytes) = true -> 27 ∉ bytes ->
  (15 <= esc_len p + length bytes)%nat -> in_utf8 p = false ->
  exists k q acts, (k <= 15 - esc_len p)%nat /\ parse_bytes p (take k bytes) = Ret (q, acts) /\
    in_escape q = false.
Proof.
  intros Hp. remember (15 - esc_len p)%nat as n eqn:Hn.
  revert p hist bytes Hp Hn. induction n as [|n IH]; intros p hist bytes Hp Hn Hs Hesc Hlen Hu.
  { pose proof (ok_esc_len _ _ Hp). lia. }
  destruct (in_escape p) eqn:He; [|by exists 0%nat, p, []; split_and!; [lia|..]].
  pose proof (ok_esc_len _ _ Hp).
  destruct bytes as [|b bytes]; [simpl in Hlen; lia|].
  rewrite cons_middle, app_assoc in Hs.
  destruct (parse_byte_ok p hist b Hp) as (q & a & Hq & Hqok & _);
    [by eapply short_runs_prefix|].
  pose proof Hq as Hstep. unfold ik_input_parse_byte in Hstep. rewrite Hu, He in Hstep.
  apply escape_step in Hstep as [Hout|Hlonger]; [| |set_solver].
  - exists 1%nat, q, [a]. cbn [take parse_bytes]. rewrite Hq. split_and!; [lia|done|done].
  - destruct (in_escape q) eqn:Heq.
    + destruct (IH q _ bytes Hqok ltac:(lia) Hs) as (k & r & acts & Hk & Hr & Hout);
        [set_solver|simpl in Hlen; lia| |].
      { destruct (in_utf8 q) eqn:E; [|done]. apply (ok_modes _ _ Hqok) in E. congruence. }
      exists (S k), r, (a :: acts). cbn [take parse_bytes]. rewrite Hq. cbn [obind].
      rewrite Hr. split_and!; [lia|done|done].
    + exists 1%nat, q, [a]. cbn [take parse_bytes]. rewrite Hq. split_and!; [lia|done|done].
Qed.

End leaving.

(** ** CSI u numbers *)

Section csi_u.
Context `{!Xkb}.

(** Decimal digits of [n], most significant first. *)
Fixpoint dec (fuel : nat) (n : Z) (acc : list Z) : list Z :=
  match fuel with
  | O => acc
  | S fuel => if n <? 10 then (48 + n) :: acc else dec fuel (n / 10) ((48 + n `mod` 10) :: acc)
  end.

Definition value (ds : list Z) (n : Z) : Z := fold_left (fun a c => a * 10 + (c - 48)) ds n.

Lemma dec_value fuel n acc : 0 <= n < 10 ^ Z.of_nat fuel -> value (dec fuel n acc) 0 = value acc n.
Proof.
  revert n acc. induction fuel as [|fuel IH]; intros n acc Hn.
  { simpl in *. by replace n with 0 by lia. }
  simpl. destruct (Z.ltb_spec n 10); [cbn; f_equal; lia|].
  rewrite IH; [unfold value; simpl; f_equal; div_lia|].
  rewrite Nat2Z.inj_succ, Z.pow_succ_r in Hn by lia. div_lia.
Qed.

Lemma dec_digits fuel n acc :
  0 <= n -> Forall (fun c => is_digit c = true) acc ->
  Forall (fun c => is_digit c = true) (dec fuel n acc).
Proof.
  assert (forall d, 0 <= d < 10 -> is_digit (48 + d) = true) as Hd.
  { intros d Hd. unfold is_digit. by rewrite !(proj2 (Z.leb_le _ _)) by lia. }
  revert n acc. induction fuel as [|fuel IH]; intros n acc Hn Ha; simpl; [done|].
  destruct (Z.ltb_spec n 10); [constructor; auto|]. apply IH; [div_lia|].
  constructor; [|done]. apply Hd. div_lia.
Qed.

Lemma dec_length fuel n acc : (length (dec fuel n acc) <= fuel + length acc)%nat.
Proof.
  revert n acc. induction fuel as [|fuel IH]; intros n acc; simpl; [lia|].
  destruct (n <? 10); simpl; [lia|]. etrans; [apply IH|]. simpl. lia.
Qed.

Lemma dec_nonempty fuel n acc : (0 < fuel)%nat -> dec fuel n acc <> [].
Proof.
  revert n acc. induction fuel as [|fuel IH]; intros n acc Hf; [lia|]. simpl.
  destruct (n <? 10); [done|]. destruct fuel; [done|]. apply IH. lia.
Qed.

Lemma digits_loop_value buf ds i acc k c n :
  take (length ds) (drop i buf) = ds -> Forall (fun d => is_digit d = true) ds ->
  buf !! (i + length ds)%nat = Some c -> is_digit c = false ->
  (k + length ds <= 9)%nat -> 0 <= acc < 10 ^ Z.of_nat k -> (length ds < n)%nat ->
  digits_loop buf n i acc = Ret ((i + length ds)%nat, value ds acc).
Proof.
  revert i acc k n. induction ds as [|d ds IH]; intros i acc k n Ht Hd Hc Hnc Hk Ha Hn;
    (destruct n as [|n]; [lia|]); cbn [digits_loop]; unfold buf_get.
  - rewrite Nat.add_0_r in Hc |- *. rewrite Hc. cbn [obind]. by rewrite Hnc.
  - apply Forall_cons in Hd as [Hd Hds].
    assert (buf !! i = Some d) as Hi.
    { rewrite <- (Nat.add_0_r i), <- lookup_drop, <- (lookup_take_lt _ (length (d :: ds))), Ht; [done|].
      simpl. lia. }
    rewrite Hi. cbn [obind]. rewrite Hd. simpl in Hk.
    destruct (add_digit_ok acc d k ltac:(lia) Ha Hd) as [-> Ha']. cbn [obind].
    rewrite (IH (S i) _ (S k)); simpl in *; auto; try lia.
    + do 2 f_equal. lia.
    + rewrite (drop_S _ _ _ Hi) in Ht. by injection Ht.
    + by rewrite <- Nat.add_succ_r.
Qed.

(** After ESC [ and the digits [ds]. *)
Record in_csi (p : ik_input_parser) (ds : list Z) : Prop := {
  csi_utf8 : in_utf8 p = false;
  csi_escape : in_escape p = true;
  csi_utf8_buf : length (utf8_buf p) = 4%nat;
  csi_buf : length (esc_buf p) = 16%nat;
  csi_len : esc_len p = S (length ds);
  csi_take : take (esc_len p) (esc_buf p) = 0x5B :: ds
}.

Lemma start_csi p :
  ground p -> exists q, parse_bytes p [0x1B; 0x5B] = Ret (q, replicate 2 IK_INPUT_UNKNOWN) /\ in_csi q [].
Proof.
  intros [Hu He Hub Heb]. cbn [parse_bytes]. unfold ik_input_parse_byte at 1. rewrite Hu, He.
  cbn [Z.eqb Pos.eqb obind]. unfold ik_input_parse_byte. cbn [set_escape in_utf8 in_escape].
  rewrite Hu. unfold ik_input_parse_escape_sequence, buf_set. cbn [set_escape esc_len esc_buf].
  rewrite decide_True by lia. cbn [obind].
  rewrite decide_True by (rewrite ?length_insert; lia).
  eexists. split; [reflexivity|]. constructor; simpl; rewrite ?length_insert; auto.
  by do 2 (destruct (esc_buf p) as [|? [|? ?]]; simpl in *; try lia).
Qed.

Lemma stored_byte p ds c :
  in_csi p ds -> (length ds <= 12)%nat ->
  let buf := <[S (S (length ds)) := 0]> (<[S (length ds) := c]> (esc_buf p)) in
  take (S (S (length ds))) buf = 0x5B :: ds ++ [c] /\ length buf = 16%nat.
Proof.
  intros [] Hl buf. split; [|by unfold buf; rewrite !length_insert].
  unfold buf. rewrite take_insert_end by lia. rewrite <- csi_len0, csi_take0. done.
Qed.

Lemma csi_byte_at p ds c i :
  take (S (length ds)) p = c :: ds -> (i < length ds)%nat -> buf_get p (S i) = Ret (default 0 (ds !! i)).
Proof.
  intros Ht Hi. unfold buf_get.
  rewrite <- (lookup_take_lt p (S (length ds)) (S i)) by lia. rewrite Ht. simpl.
  destruct (lookup_lt_is_Some_2 ds i Hi) as [d Hd]. by rewrite Hd.
Qed.

(** The helpers decline on a digit or on the final 'u' after digits. *)
Lemma csi_declines q ds b :
  esc_len q = S (length ds) -> take (esc_len q) (esc_buf q) = 0x5B :: ds -> ds <> [] ->
  (forall d, head ds = Some d -> d <> 0x3C) ->
  ~ (0x41 <= b <= 0x48) -> b <> 0x7E ->
  parse_arrow_keys q b = Ret None /\ parse_mouse_sgr q b = Ret None /\
  parse_tilde_sequences q b = Ret None.
Proof.
  intros Hl Ht Hne Hhd Hb Htilde. split_and!.
  - unfold parse_arrow_keys. by rewrite !(proj2 (Z.eqb_neq b _)) by lia.
  - unfold parse_mouse_sgr. destruct (esc_len q <? 2)%nat; [done|].
    destruct ds as [|d ds]; [done|].
    rewrite Hl in Ht. rewrite (csi_byte_at _ (d :: ds) 0x5B 0); [|exact Ht|simpl; lia].
    cbn [obind lookup list_lookup default]. by rewrite (proj2 (Z.eqb_neq d _)) by auto.
  - unfold parse_tilde_sequences, home_end.
    rewrite !(proj2 (Z.eqb_neq b _)) by lia. rewrite andb_false_r. done.
Qed.

Lemma csi_digit p ds c :
  in_csi p ds -> Forall (fun d => is_digit d = true) (ds ++ [c]) -> (length ds <= 11)%nat ->
  exists q, ik_input_parse_byte p c = Ret (q, IK_INPUT_UNKNOWN) /\ in_csi q (ds ++ [c]).
Proof.
  intros Hp Hd Hl. destruct (stored_byte p ds c Hp ltac:(lia)) as [Ht Hb].
  pose proof Hp as [Hu He Hub Heb Hlen _].
  assert (is_digit c = true) as Hc by (apply Forall_app in Hd as [_ Hd]; by inversion Hd).
  unfold is_digit in Hc. apply andb_true_iff in Hc as [Hc1%Z.leb_le Hc2%Z.leb_le].
  unfold ik_input_parse_byte. rewrite Hu, He.
  unfold ik_input_parse_escape_sequence, buf_set. rewrite Hlen.
  rewrite decide_True by lia. cbn [obind].
  rewrite decide_True by (rewrite ?length_insert; lia). cbn [obind].
  set (q := set_escape _ _ _ _).
  assert (esc_len q = S (length (ds ++ [c]))) as Hq by (rewrite length_app; simpl; lia).
  assert (take (esc_len q) (esc_buf q) = 0x5B :: ds ++ [c]) as Hqt by exact Ht.
  destruct (csi_declines q (ds ++ [c]) c Hq Hqt) as (E1 & E2 & E3); try lia.
  { by destruct ds. }
  { intros d Hhd ->. assert (is_digit 0x3C = true) as Hx; [|done].
    destruct ds; simplify_eq/=; by apply Forall_cons in Hd as [? _]. }
  rewrite (proj2 (Nat.leb_gt _ _)) by (rewrite Hq, length_app; simpl; lia).
  rewrite (proj2 (Nat.eqb_neq (esc_len q) 1)) by (rewrite Hq, length_app; simpl; lia).
  rewrite E1, E2, E3. cbn [or_else obind].
  rewrite (proj2 (Z.eqb_neq c 0x75)) by lia.
  assert (is_discardable_csi_terminal q c = false) as ->.
  { unfold is_discardable_csi_terminal. rewrite !(proj2 (Z.eqb_neq c _)) by lia.
    by rewrite andb_false_r. }
  rewrite (proj2 (Z.leb_gt 0x41 c)), andb_false_r by lia. cbn [andb].
  exists q. split; [done|]. constructor; auto.
Qed.

Lemma csi_digits ds2 p ds1 :
  in_csi p ds1 -> Forall (fun d => is_digit d = true) (ds1 ++ ds2) ->
  (length ds1 + length ds2 <= 12)%nat ->
  exists q, parse_bytes p ds2 = Ret (q, replicate (length ds2) IK_INPUT_UNKNOWN) /\
    in_csi q (ds1 ++ ds2).
Proof.
  revert p ds1. induction ds2 as [|d ds2 IH]; intros p ds1 Hp Hd Hl.
  { exists p. rewrite app_nil_r. done. }
  rewrite cons_middle, app_assoc in Hd |- *. simpl in Hl.
  destruct (csi_digit p ds1 d Hp) as (q & Hq & Hq');
    [by apply Forall_app in Hd as [? _]|lia|].
  cbn [parse_bytes]. rewrite Hq. cbn [obind].
  destruct (IH q (ds1 ++ [d]) Hq' Hd) as (r & -> & Hr); [rewrite length_app; simpl; lia|].
  by exists r.
Qed.

(** ESC [ digits u: the key's action with no modifier. *)
Lemma csi_final p ds n a :
  in_csi p ds -> ds <> [] -> Forall (fun d => is_digit d = true) ds -> (length ds <= 9)%nat ->
  value ds 0 = n -> (forall q, csi_u_action q n 1 = Ret a) ->
  exists q, ik_input_parse_byte p 0x75 = Ret (q, a) /\ ground q.
Proof.
  intros Hp Hne Hd Hl Hv Ha. destruct (stored_byte p ds 0x75 Hp ltac:(lia)) as [Ht Hb].
  pose proof Hp as [Hu He Hub Heb Hlen _].
  unfold ik_input_parse_byte. rewrite Hu, He.
  unfold ik_input_parse_escape_sequence, buf_set. rewrite Hlen.
  rewrite decide_True by lia. cbn [obind].
  rewrite decide_True by (rewrite ?length_insert; lia). cbn [obind].
  set (q := set_escape _ _ _ _).
  assert (esc_len q = S (length (ds ++ [0x75]))) as Hq by (rewrite length_app; simpl; lia).
  assert (take (esc_len q) (esc_buf q) = 0x5B :: ds ++ [0x75]) as Hqt by exact Ht.
  assert (0 < length ds)%nat as Hpos by (destruct ds; simpl; [done|lia]).
  destruct (csi_declines q (ds ++ [0x75]) 0x75 Hq Hqt) as (E1 & E2 & E3); try lia.
  { by destruct ds. }
  { intros d Hhd ->. assert (is_digit 0x3C = true) as Hx; [|done].
    destruct ds; simplify_eq/=; by apply Forall_cons in Hd as [? _]. }
  assert (esc_len q = length ds + 2)%nat as Hq2 by (rewrite Hq, length_app; simpl; lia).
  rewrite (proj2 (Nat.leb_gt _ _)) by lia.
  rewrite (proj2 (Nat.eqb_neq (esc_len q) 1)) by lia.
  rewrite E1, E2, E3. cbn [or_else obind Z.eqb Pos.eqb].
  assert (forall i, (i < length ds + 1)%nat ->
    buf_get (esc_buf q) (S i) = Ret (default 0 ((ds ++ [0x75]) !! i))) as Hget.
  { intros i Hi. apply (csi_byte_at _ (ds ++ [0x75]) 0x5B); [by rewrite <- Hq|].
    rewrite length_app. simpl. lia. }
  assert ((ds ++ [0x75]) !! length ds = Some 0x75) as Hlast by (by apply list_lookup_middle).
  assert (parse_csi_u_sequence q = Ret (Some a)) as ->.
  { unfold parse_csi_u_sequence. rewrite (proj2 (Nat.ltb_ge _ _)) by lia.
    replace (esc_len q - 1)%nat with (S (length ds)) by lia.
    rewrite Hget, Hlast by lia. cbn [obind default from_option id Z.eqb Pos.eqb negb].
    rewrite (digits_loop_value _ ds 1 0 0 0x75); [|..|lia]; auto; try lia; try done.
    - cbn [obind]. rewrite (proj2 (Nat.ltb_lt _ _)) by lia.
      change (1 + length ds)%nat with (S (length ds)).
      rewrite Hget, Hlast by lia. cbn [obind default from_option id Z.eqb Pos.eqb].
      rewrite Hv. change (mask_numlock 1) with 1. by rewrite Ha.
    - replace (esc_len q) with (S (S (length ds))) in Hqt by lia. clear -Hqt.
      destruct (esc_buf q) as [|x l]; [done|]. cbn [take] in Hqt. injection Hqt as _ Hqt.
      cbn [drop]. rewrite <- (take_app_length ds [0x75]) at 2. rewrite <- Hqt, take_take.
      by rewrite Nat.min_l by lia.
    - pose proof (Hget (length ds) ltac:(lia)) as Hg. unfold buf_get in Hg.
      change (1 + length ds)%nat with (S (length ds)).
      destruct (esc_buf q !! S (length ds)); [|done]. rewrite Hlast in Hg. by injection Hg as ->. }
  cbn [obind default from_option id]. eexists. split; [reflexivity|].
  constructor; simpl; rewrite ?length_insert; auto.
Qed.

End csi_u.

(** ** A concrete keyboard: one key, "a" *)

Module RefXkb.

#[export] Instance ref_xkb : Xkb := {
  xkb_available := true;
  xkb_key_get_one_sym shift kc :=
    if (kc =? 38)%nat then (if shift then 65 else 97) else XKB_KEY_NoSymbol;
  xkb_keysym_to_utf32 sym := if (0 <=? sym) && (sym <? 128) then sym else 0
}.

#[export] Instance ref_xkb_spec : XkbSpec.
Proof.
  constructor. intros sym. simpl. destruct ((0 <=? sym) && (sym <? 128)) eqn:E; [right|by left].
  bool_to_prop. apply scalar_intro; lia.
Qed.

End RefXkb.

Module InputProps.

(** Escape sequences and control bytes with the action of their last byte; every
    byte before it gives UNKNOWN. *)
Definition key_table : list (list Z * ik_input_action) :=
  [ ([0x1B; 0x5B; 0x41], IK_INPUT_ARROW_UP);
    ([0x1B; 0x5B; 0x42], IK_INPUT_ARROW_DOWN);
    ([0x1B; 0x5B; 0x43], IK_INPUT_ARROW_RIGHT);
    ([0x1B; 0x5B; 0x44], IK_INPUT_ARROW_LEFT);
    ([0x1B; 0x5B; 0x31; 0x3B; 0x31; 0x41], IK_INPUT_ARROW_UP);
    ([0x1B; 0x5B; 0x31; 0x3B; 0x31; 0x32; 0x39; 0x42], IK_INPUT_ARROW_DOWN);
    ([0x1B; 0x5B; 0x31; 0x3B; 0x35; 0x41], IK_INPUT_NAV_PARENT);
    ([0x1B; 0x5B; 0x31; 0x3B; 0x35; 0x42], IK_INPUT_NAV_CHILD);
    ([0x1B; 0x5B; 0x31; 0x3B; 0x35; 0x43], IK_INPUT_NAV_NEXT_SIBLING);
    ([0x1B; 0x5B; 0x31; 0x3B; 0x35; 0x44], IK_INPUT_NAV_PREV_SIBLING);
    ([0x1B; 0x5B; 0x48], IK_INPUT_CTRL_A);
    ([0x1B; 0x5B; 0x46], IK_INPUT_CTRL_E);
    ([0x1B; 0x5B; 0x31; 0x3B; 0x32; 0x48], IK_INPUT_CTRL_A);
    ([0x1B; 0x5B; 0x31; 0x7E], IK_INPUT_CTRL_A);
    ([0x1B; 0x5B; 0x33; 0x7E], IK_INPUT_DELETE);
    ([0x1B; 0x5B; 0x34; 0x7E], IK_INPUT_CTRL_E);
    ([0x1B; 0x5B; 0x35; 0x7E], IK_INPUT_PAGE_UP);
    ([0x1B; 0x5B; 0x36; 0x7E], IK_INPUT_PAGE_DOWN);
    ([0x1B; 0x5B; 0x33; 0x3B; 0x35; 0x7E], IK_INPUT_DELETE);
    ([0x1B; 0x5B; 0x3C; 0x36; 0x34; 0x3B; 0x35; 0x3B; 0x37; 0x4D], IK_INPUT_SCROLL_UP);
    ([0x1B; 0x5B; 0x3C; 0x36; 0x35; 0x3B; 0x35; 0x3B; 0x37; 0x4D], IK_INPUT_SCROLL_DOWN);
    ([0x1B; 0x5B; 0x3C; 0x30; 0x3B; 0x35; 0x3B; 0x37; 0x6D], IK_INPUT_UNKNOWN);
    ([0x1B; 0x5B; 0x31; 0x33; 0x75], IK_INPUT_NEWLINE);
    ([0x1B; 0x5B; 0x31; 0x33; 0x3B; 0x32; 0x75], IK_INPUT_INSERT_NEWLINE);
    ([0x1B; 0x5B; 0x39; 0x75], IK_INPUT_TAB);
    ([0x1B; 0x5B; 0x32; 0x37; 0x75], IK_INPUT_ESCAPE);
    ([0x1B; 0x5B; 0x31; 0x32; 0x37; 0x75], IK_INPUT_BACKSPACE);
    ([0x1B; 0x5B; 0x39; 0x37; 0x3B; 0x35; 0x75], IK_INPUT_CTRL_A);
    ([0x1B; 0x5B; 0x39; 0x39; 0x3B; 0x35; 0x75], IK_INPUT_CTRL_C);
    ([0x1B; 0x5B; 0x31; 0x30; 0x31; 0x3B; 0x35; 0x75], IK_INPUT_CTRL_E);
    ([0x1B; 0x5B; 0x31; 0x30; 0x37; 0x3B; 0x35; 0x75], IK_INPUT_CTRL_K);
    ([0x1B; 0x5B; 0x31; 0x31; 0x30; 0x3B; 0x35; 0x75], IK_INPUT_CTRL_N);
    ([0x1B; 0x5B; 0x31; 0x31; 0x32; 0x3B; 0x35; 0x75], IK_INPUT_CTRL_P);
    ([0x1B; 0x5B; 0x31; 0x31; 0x37; 0x3B; 0x35; 0x75], IK_INPUT_CTRL_U);
    ([0x1B; 0x5B; 0x31; 0x31; 0x39; 0x3B; 0x31; 0x33; 0x33; 0x75], IK_INPUT_CTRL_W);
    ([0x1B; 0x5B; 0x30; 0x6D], IK_INPUT_UNKNOWN);
    ([0x09], IK_INPUT_TAB); ([0x0D], IK_INPUT_NEWLINE); ([0x0A], IK_INPUT_INSERT_NEWLINE);
    ([0x7F], IK_INPUT_BACKSPACE); ([0x01], IK_INPUT_CTRL_A); ([0x05], IK_INPUT_CTRL_E);
    ([0x0B], IK_INPUT_CTRL_K); ([0x15], IK_INPUT_CTRL_U); ([0x17], IK_INPUT_CTRL_W);
    ([0x03], IK_INPUT_CTRL_C) ].

Section properties.
Context `{!Xkb} `{!XkbSpec}.

(** C14: any byte stream without ten decimal digits in a row is parsed without
    an out-of-bounds access, an arithmetic overflow or a panic: one action per
    byte, the escape buffer keeps room for its terminator, and every code point
    a CHAR action carries is a Unicode scalar value. *)
Theorem parser_safe (bytes : list Z) :
  short_runs 0 bytes = true ->
  exists q acts, parse_bytes ik_input_parser_create bytes = Ret (q, acts) /\
    length acts = length bytes /\ (esc_len q <= 14)%nat /\
    Forall (fun a => match a with IK_INPUT_CHAR c => scalar c | _ => True end) acts.
Proof.
  intros Hs. destruct (parse_bytes_ok _ [] bytes create_ok Hs) as (q & acts & E & Hq & Ha & Hl).
  exists q, acts. split_and!; [done|done|apply (ok_esc_len _ _ Hq)|done].
Qed.

(** the UTF-8 bytes of any printable text, fed to a parser in its ground
    state, give one CHAR action per code point, in order (UNKNOWN for the bytes
    in between), and leave the parser in its ground state: the parser inverts
    the editor's encoder. *)
Theorem typed_text_decodes (p : ik_input_parser) (cps : list Z) :
  ground p -> Forall printable cps ->
  exists q acts, parse_bytes p (text_of cps) = Ret (q, acts) /\ ground q /\
    filter (fun a => a <> IK_INPUT_UNKNOWN) acts = IK_INPUT_CHAR <$> cps.
Proof. intros. by apply feed_text. Qed.

(** C17: an escape sequence ends, so garbage after ESC cannot capture the
    keyboard.  Take a parser that has read any bytes with no ten digits in a row
    and is not in the middle of a UTF-8 sequence; then within 15 bytes other than
    ESC, among which, with those before, there are still no ten digits in a row,
    it has left escape mode.  Ten digits overflow the parser's number
    ([long_number_overflows]). *)
Theorem escape_sequences_end (hist bytes : list Z) (p : ik_input_parser)
    (acts : list ik_input_action) :
  parse_bytes ik_input_parser_create hist = Ret (p, acts) -> in_utf8 p = false ->
  short_runs 0 (hist ++ bytes) = true -> 27 ∉ bytes -> (15 <= length bytes)%nat ->
  exists k q acts', (k <= 15)%nat /\ parse_bytes p (take k bytes) = Ret (q, acts') /\
    in_escape q = false.
Proof.
  intros Hp Hu Hs Hesc Hl.
  destruct (parse_bytes_ok _ [] hist create_ok) as (p' & acts' & E & Hok & _).
  { by eapply short_runs_prefix. }
  rewrite E in Hp. simplify_eq.
  destruct (leaves_escape p _ bytes Hok Hs Hesc) as (k & q & a & Hk & Hr & Hq); [lia|done|].
  exists k, q, a. split_and!; [lia|done|done].
Qed.

(** every sequence of the key table is recognised from any ground state,
    whatever the buffers still hold, and ends in a ground state. *)
Theorem key_sequences (p : ik_input_parser) :
  ground p ->
  Forall (fun '(seq, a) => exists q,
    parse_bytes p seq = Ret (q, replicate (length seq - 1) IK_INPUT_UNKNOWN ++ [a]) /\ ground q)
    key_table.
Proof.
  intros [Hu He Hub Heb].
  destruct p as [eb el ie ub ul ue iu rm xi]; simpl in *; subst.
  do 16 (destruct eb as [|? eb]; [done|]). destruct eb; [|done].
  unfold key_table. repeat (apply Forall_cons; split);
    [eexists; split; [vm_compute; reflexivity | by constructor] .. | by apply Forall_nil].
Qed.

(** a CSI u report of an unmodified key, ESC [ n u, gives exactly the code
    point n, for every n from 32 to 50000 except DEL. *)
Theorem csi_u_reports (p : ik_input_parser) (n : Z) :
  ground p -> 32 <= n <= 50000 -> n <> 127 ->
  exists q k, parse_bytes p ([0x1B; 0x5B] ++ dec 5 n [] ++ [0x75])
    = Ret (q, replicate k IK_INPUT_UNKNOWN ++ [IK_INPUT_CHAR n]) /\ ground q.
Proof.
  intros Hg Hn Hdel. destruct (start_csi p Hg) as (p1 & H1 & Hp1).
  pose proof (dec_length 5 n []) as Hlen. change (length (@nil Z)) with 0%nat in Hlen.
  pose proof (dec_digits 5 n [] ltac:(lia) ltac:(constructor)) as Hd.
  destruct (csi_digits (dec 5 n []) p1 [] Hp1) as (p2 & H2 & Hp2);
    [done|change (length (@nil Z)) with 0%nat; lia|].
  destruct (csi_final p2 (dec 5 n []) n (IK_INPUT_CHAR n) Hp2) as (q & H3 & Hq).
  - apply dec_nonempty. lia.
  - done.
  - lia.
  - rewrite dec_value by lia. done.
  - intros q. unfold csi_u_action. rewrite (proj2 (Z.ltb_ge 50000 n)) by lia.
    rewrite (proj2 (Z.eqb_neq n 13)), (proj2 (Z.eqb_neq n 9)), (proj2 (Z.eqb_neq n 127)),
      (proj2 (Z.eqb_neq n 27)) by lia. cbn [Z.eqb Pos.eqb andb].
    destruct (Z.leb_spec n 126); [by rewrite (proj2 (Z.leb_le 32 n)) by lia|].
    rewrite andb_false_r, (proj2 (Z.ltb_lt 126 n)), (proj2 (Z.leb_le n _)) by lia. done.
  - exists q, (2 + length (dec 5 n []))%nat. split; [|done].
    rewrite replicate_add, <- app_assoc. eapply parse_bytes_app; [exact H1|].
    eapply parse_bytes_app; [exact H2|]. cbn [parse_bytes]. by rewrite H3.
Qed.

(** finding: ten digits in a CSI sequence overflow the parser's signed
    32-bit accumulator, which is undefined behaviour; nothing in the code bounds
    the number below the 16-byte buffer. *)
Theorem long_number_overflows :
  parse_bytes ik_input_parser_create
    [0x1B; 0x5B; 0x39; 0x39; 0x39; 0x39; 0x39; 0x39; 0x39; 0x39; 0x39; 0x39; 0x75] = Undef.
Proof.
  unfold ik_input_parser_create, ik_input_xkb_init_state.
  destruct xkb_available; reflexivity.
Qed.

End properties.
End InputProps.

Module InputExamples.
Import InputProps RefXkb.

Lemma create_ground : ground ik_input_parser_create.
Proof. by constructor. Qed.

Lemma parser_safe_witness :
  exists q acts, parse_bytes ik_input_parser_create [0x61; 0x1B; 0x5B; 0xC3; 0xA9; 0x41] = Ret (q, acts) /\
    length acts = 6%nat /\ (esc_len q <= 14)%nat /\
    Forall (fun a => match a with IK_INPUT_CHAR c => scalar c | _ => True end) acts.
Proof. apply (parser_safe [0x61; 0x1B; 0x5B; 0xC3; 0xA9; 0x41]); reflexivity. Defined.

Lemma typed_text_decodes_witness :
  exists q acts, parse_bytes ik_input_parser_create (text_of [0x61; 0xE9; 0x4E2D; 0x1F600])
                 = Ret (q, acts) /\ ground q /\
    filter (fun a => a <> IK_INPUT_UNKNOWN) acts
    = IK_INPUT_CHAR <$> [0x61; 0xE9; 0x4E2D; 0x1F600].
Proof.
  apply (typed_text_decodes ik_input_parser_create [0x61; 0xE9; 0x4E2D; 0x1F600]);
    [exact create_ground | by repeat constructor].
Defined.

Lemma escape_sequences_end_witness :
  exists p k q acts', (k <= 15)%nat /\
    parse_bytes p (take k (replicate 15 0x5B)) = Ret (q, acts') /\ in_escape q = false.
Proof.
  destruct (parse_bytes ik_input_parser_create [0x1B; 0x5B]) as [[p acts]| | | |] eqn:E;
    [|discriminate E..].
  exists p. apply (escape_sequences_end [0x1B; 0x5B] (replicate 15 0x5B) p acts E);
    [| reflexivity | apply (bool_decide_unpack _); vm_compute; exact I | reflexivity].
  vm_compute in E. injection E as <- _. reflexivity.
Defined.

Lemma key_sequences_witness :
  Forall (fun '(seq, a) => exists q,
    parse_bytes ik_input_parser_create seq
    = Ret (q, replicate (length seq - 1) IK_INPUT_UNKNOWN ++ [a]) /\ ground q) key_table.
Proof. apply (key_sequences ik_input_parser_create). exact create_ground. Defined.

Lemma csi_u_reports_witness :
  exists q k, parse_bytes ik_input_parser_create [0x1B; 0x5B; 0x32; 0x33; 0x33; 0x75]
    = Ret (q, replicate k IK_INPUT_UNKNOWN ++ [IK_INPUT_CHAR 233]) /\ ground q.
Proof.
  apply (csi_u_reports ik_input_parser_create 233); [exact create_ground | lia | lia].
Defined.

End InputExamples.
