(* ===== verification/ScrollDetector.v ===== *)
(** * Mouse wheel detection (scroll_detector.c)

    A state machine that tells wheel bursts from keyboard arrows by their
    timing.  Timestamps are milliseconds of a monotonic clock; their differences
    are assumed to fit an [int64_t]. *)

From S2P Require Import Prelude InputParser.

Local Open Scope Z_scope.

(** ** Definitions *)

Inductive ik_scroll_state : Set :=
| IK_SCROLL_STATE_IDLE
| IK_SCROLL_STATE_WAITING
| IK_SCROLL_STATE_ABSORBING.

Inductive ik_scroll_result : Set :=
| IK_SCROLL_RESULT_NONE
| IK_SCROLL_RESULT_ABSORBED
| IK_SCROLL_RESULT_SCROLL_UP
| IK_SCROLL_RESULT_SCROLL_DOWN
| IK_SCROLL_RESULT_ARROW_UP
| IK_SCROLL_RESULT_ARROW_DOWN.

#[export] Instance scroll_state_eq_dec : EqDecision ik_scroll_state.
Proof. solve_decision. Defined.
#[export] Instance scroll_result_eq_dec : EqDecision ik_scroll_result.
Proof. solve_decision. Defined.

Record ik_scroll_detector := mk_detector {
  state : ik_scroll_state;
  pending_dir : ik_input_action;
  timer_start_ms : Z;
  burst_threshold_ms : Z
}.

Definition IK_SCROLL_BURST_THRESHOLD_MS : Z := 5.

Definition ik_scroll_detector_create : ik_scroll_detector :=
  mk_detector IK_SCROLL_STATE_IDLE IK_INPUT_ARROW_UP 0 IK_SCROLL_BURST_THRESHOLD_MS.

Definition is_up (a : ik_input_action) : bool := bool_decide (a = IK_INPUT_ARROW_UP).

(** The result for a pending arrow, as wheel or as key. *)
Definition scroll_of (a : ik_input_action) : ik_scroll_result :=
  if is_up a then IK_SCROLL_RESULT_SCROLL_UP else IK_SCROLL_RESULT_SCROLL_DOWN.
Definition arrow_of (a : ik_input_action) : ik_scroll_result :=
  if is_up a then IK_SCROLL_RESULT_ARROW_UP else IK_SCROLL_RESULT_ARROW_DOWN.

Definition ik_scroll_detector_process_arrow (det : ik_scroll_detector)
    (arrow_type : ik_input_action) (timestamp_ms : Z)
  : outcome (ik_scroll_detector * ik_scroll_result) :=
  assert! bool_decide (arrow_type = IK_INPUT_ARROW_UP \/ arrow_type = IK_INPUT_ARROW_DOWN) in
  let elapsed := timestamp_ms - timer_start_ms det in
  let thr := burst_threshold_ms det in
  match state det with
  | IK_SCROLL_STATE_IDLE =>
      Ret (mk_detector IK_SCROLL_STATE_WAITING arrow_type timestamp_ms thr,
           IK_SCROLL_RESULT_NONE)
  | IK_SCROLL_STATE_WAITING =>
      if elapsed <=? thr then
        Ret (mk_detector IK_SCROLL_STATE_ABSORBING (pending_dir det) timestamp_ms thr,
             scroll_of (pending_dir det))
      else
        Ret (mk_detector IK_SCROLL_STATE_WAITING arrow_type timestamp_ms thr,
             arrow_of (pending_dir det))
  | IK_SCROLL_STATE_ABSORBING =>
      if elapsed <=? thr then
        Ret (mk_detector IK_SCROLL_STATE_ABSORBING (pending_dir det) timestamp_ms thr,
             IK_SCROLL_RESULT_ABSORBED)
      else
        Ret (mk_detector IK_SCROLL_STATE_WAITING arrow_type timestamp_ms thr,
             IK_SCROLL_RESULT_NONE)
  end.

Definition set_idle (det : ik_scroll_detector) : ik_scroll_detector :=
  mk_detector IK_SCROLL_STATE_IDLE (pending_dir det) (timer_start_ms det)
    (burst_threshold_ms det).

Definition ik_scroll_detector_check_timeout (det : ik_scroll_detector) (timestamp_ms : Z)
  : ik_scroll_detector * ik_scroll_result :=
  if bool_decide (state det = IK_SCROLL_STATE_IDLE) then (det, IK_SCROLL_RESULT_NONE)
  else
    let elapsed := timestamp_ms - timer_start_ms det in
    if elapsed <=? burst_threshold_ms det then (det, IK_SCROLL_RESULT_NONE)
    else if bool_decide (state det = IK_SCROLL_STATE_WAITING)
    then (set_idle det, arrow_of (pending_dir det))
    else (set_idle det, IK_SCROLL_RESULT_NONE).

Definition ik_scroll_detector_get_timeout_ms (det : ik_scroll_detector) (timestamp_ms : Z) : Z :=
  if bool_decide (state det = IK_SCROLL_STATE_IDLE) then -1
  else
    let elapsed := timestamp_ms - timer_start_ms det in
    let remaining := burst_threshold_ms det - elapsed in
    if remaining <? 0 then 0 else remaining.

Definition ik_scroll_detector_flush (det : ik_scroll_detector)
  : ik_scroll_detector * ik_scroll_result :=
  if bool_decide (state det = IK_SCROLL_STATE_WAITING)
  then (set_idle det, arrow_of (pending_dir det))
  else (set_idle det, IK_SCROLL_RESULT_NONE).

(** ** Event sequences *)

Inductive scroll_event : Set :=
| Arrow (dir : ik_input_action) (timestamp_ms : Z)
| Timeout (timestamp_ms : Z)
| Flush.

Definition scroll_step (det : ik_scroll_detector) (ev : scroll_event)
  : outcome (ik_scroll_detector * ik_scroll_result) :=
  match ev with
  | Arrow d t => ik_scroll_detector_process_arrow det d t
  | Timeout t => Ret (ik_scroll_detector_check_timeout det t)
  | Flush => Ret (ik_scroll_detector_flush det)
  end.

Fixpoint scroll_run (det : ik_scroll_detector) (evs : list scroll_event)
  : outcome (ik_scroll_detector * list ik_scroll_result) :=
  match evs with
  | [] => Ret (det, [])
  | ev :: evs =>
      let! (det, r) := scroll_step det ev in
      let! (det, rs) := scroll_run det evs in
      Ret (det, r :: rs)
  end.

(** ** Accounting *)

Definition vertical (a : ik_input_action) : Prop :=
  a = IK_INPUT_ARROW_UP \/ a = IK_INPUT_ARROW_DOWN.

Definition event_ok (ev : scroll_event) : Prop :=
  match ev with Arrow d _ => vertical d | _ => True end.

(** The arrows of an event sequence. *)
Fixpoint arrows (evs : list scroll_event) : list ik_input_action :=
  match evs with
  | [] => []
  | Arrow d _ :: evs => d :: arrows evs
  | _ :: evs => arrows evs
  end.

(** How many arrows a result answers for, and the direction it reports. *)
Definition weight (r : ik_scroll_result) : nat :=
  match r with
  | IK_SCROLL_RESULT_NONE => 0
  | IK_SCROLL_RESULT_ABSORBED => 1
  | IK_SCROLL_RESULT_SCROLL_UP | IK_SCROLL_RESULT_SCROLL_DOWN => 2
  | IK_SCROLL_RESULT_ARROW_UP | IK_SCROLL_RESULT_ARROW_DOWN => 1
  end%nat.

Definition reported (r : ik_scroll_result) : list ik_input_action :=
  match r with
  | IK_SCROLL_RESULT_SCROLL_UP | IK_SCROLL_RESULT_ARROW_UP => [IK_INPUT_ARROW_UP]
  | IK_SCROLL_RESULT_SCROLL_DOWN | IK_SCROLL_RESULT_ARROW_DOWN => [IK_INPUT_ARROW_DOWN]
  | _ => []
  end.

(** The arrow the detector still holds back. *)
Definition held (det : ik_scroll_detector) : list ik_input_action :=
  match state det with IK_SCROLL_STATE_WAITING => [pending_dir det] | _ => [] end.

Definition total_weight (rs : list ik_scroll_result) : nat := sum_list (weight <$> rs).

Definition det_ok (det : ik_scroll_detector) : Prop := vertical (pending_dir det).

Lemma reported_scroll d : vertical d -> reported (scroll_of d) = [d] /\ weight (scroll_of d) = 2%nat.
Proof. by intros [-> | ->]. Qed.
Lemma reported_arrow d : vertical d -> reported (arrow_of d) = [d] /\ weight (arrow_of d) = 1%nat.
Proof. by intros [-> | ->]. Qed.

(** One step keeps the account: held and new arrows are reported, absorbed or
    held again, in order. *)
Lemma scroll_step_ok det ev :
  det_ok det -> event_ok ev ->
  exists det' r, scroll_step det ev = Ret (det', r) /\ det_ok det' /\
    burst_threshold_ms det' = burst_threshold_ms det /\
    (length (held det) + length (arrows [ev]) = weight r + length (held det'))%nat /\
    sublist (reported r ++ held det') (held det ++ arrows [ev]).
Proof.
  intros Hd He. destruct det as [s d t0 thr]. unfold det_ok in Hd. simpl in Hd.
  destruct (reported_scroll d Hd) as [Hs1 Hs2], (reported_arrow d Hd) as [Ha1 Ha2].
  destruct ev as [a t|t|]; cbn [scroll_step event_ok] in *.
  - unfold ik_scroll_detector_process_arrow. rewrite bool_decide_eq_true_2 by done.
    cbn [state pending_dir timer_start_ms burst_threshold_ms].
    destruct s; [|destruct (_ <=? _)..]; (eexists _, _; split; [reflexivity|]);
      unfold det_ok, held; simpl; rewrite ?Hs1, ?Hs2, ?Ha1, ?Ha2;
      (split_and!; try done; repeat constructor).
  - unfold ik_scroll_detector_check_timeout. simpl.
    destruct s; simpl; [|destruct (_ <=? _); simpl..]; (eexists _, _; split; [reflexivity|]);
      unfold det_ok, held; simpl; rewrite ?Ha1, ?Ha2; (split_and!; try done; repeat constructor).
  - unfold ik_scroll_detector_flush. simpl.
    destruct s; simpl; (eexists _, _; split; [reflexivity|]);
      unfold det_ok, held; simpl; rewrite ?Ha1, ?Ha2; (split_and!; try done; repeat constructor).
Qed.

Lemma arrows_cons ev evs : arrows (ev :: evs) = arrows [ev] ++ arrows evs.
Proof. by destruct ev. Qed.

Lemma scroll_run_ok evs det :
  det_ok det -> Forall event_ok evs ->
  exists det' rs, scroll_run det evs = Ret (det', rs) /\ det_ok det' /\ length rs = length evs /\
    burst_threshold_ms det' = burst_threshold_ms det /\
    (length (held det) + length (arrows evs) = total_weight rs + length (held det'))%nat /\
    sublist ((rs ≫= reported) ++ held det') (held det ++ arrows evs).
Proof.
  revert det. induction evs as [|ev evs IH]; intros det Hd He.
  { exists det, []. simpl. rewrite app_nil_r. by split_and!. }
  apply Forall_cons in He as [He1 He].
  destruct (scroll_step_ok det ev Hd He1) as (d1 & r & H1 & Hd1 & Hb1 & Hw1 & Hs1).
  destruct (IH d1 Hd1 He) as (d2 & rs & H2 & Hd2 & Hl & Hb2 & Hw2 & Hs2).
  exists d2, (r :: rs). cbn [scroll_run]. rewrite H1. cbn [obind]. rewrite H2. cbn [obind].
  rewrite arrows_cons, length_app.
  split_and!; [done|done|simpl; lia|congruence| |].
  - change (total_weight (r :: rs)) with (weight r + total_weight rs)%nat. lia.
  - rewrite bind_cons, <- app_assoc.
    etrans; [by apply sublist_app; [reflexivity|exact Hs2]|].
    rewrite !app_assoc. by apply sublist_app.
Qed.

(** ** Properties *)

Module ScrollProps.

(** no arrow is lost or invented: over any event sequence, the arrows
    received are those reported as keys (one each), as wheel steps (two each),
    absorbed in a burst (one each) or still held; and the directions reported
    are directions received, in order. *)
Theorem arrows_accounted (evs : list scroll_event) :
  Forall event_ok evs ->
  exists det rs, scroll_run ik_scroll_detector_create evs = Ret (det, rs) /\
    length rs = length evs /\
    length (arrows evs) = (total_weight rs + length (held det))%nat /\
    sublist ((rs ≫= reported) ++ held det) (arrows evs).
Proof.
  intros He. destruct (scroll_run_ok evs ik_scroll_detector_create) as (det & rs & H); [by left|done|].
  exists det, rs. naive_solver.
Qed.

(** Arrows at the given times. *)
Definition at_times (l : list (ik_input_action * Z)) : list scroll_event :=
  (fun '(d, t) => Arrow d t) <$> l.

(** Consecutive timestamps, starting from [t], satisfy [gap]. *)
Fixpoint gaps (gap : Z -> bool) (t : Z) (l : list (ik_input_action * Z)) : bool :=
  match l with
  | [] => true
  | (_, t') :: l => gap (t' - t) && gaps gap t' l
  end.

Lemma keys_run l d t thr :
  vertical d -> Forall (fun x => vertical x.1) l -> gaps (fun g => thr <? g) t l = true ->
  exists t', scroll_run (mk_detector IK_SCROLL_STATE_WAITING d t thr) (at_times l)
    = Ret (mk_detector IK_SCROLL_STATE_WAITING (default d (last (l.*1))) t' thr,
           arrow_of <$> take (length l) (d :: l.*1)).
Proof.
  revert d t. induction l as [|[d' t'] l IH]; intros d t Hd Hl Hg; [by exists t|].
  apply Forall_cons in Hl as [Hd' Hl]. simpl in Hg. apply andb_true_iff in Hg as [Hgap Hg].
  destruct (IH d' t' Hd' Hl Hg) as [t2 E]. exists t2. cbn [at_times fmap list_fmap scroll_run].
  cbn [scroll_step]. unfold ik_scroll_detector_process_arrow.
  rewrite bool_decide_eq_true_2 by done. cbn [state timer_start_ms burst_threshold_ms pending_dir].
  apply Z.ltb_lt in Hgap. rewrite (proj2 (Z.leb_gt _ _)) by lia. cbn [obind].
  unfold at_times in E. rewrite E. cbn [obind]. cbn [fst]. rewrite last_cons. by destruct (last l.*1).
Qed.

Lemma scroll_run_app e1 e2 det :
  scroll_run det (e1 ++ e2)
  = let! (det, r1) := scroll_run det e1 in
    let! (det, r2) := scroll_run det e2 in Ret (det, r1 ++ r2).
Proof.
  revert det. induction e1 as [|ev e1 IH]; intros det.
  - simpl. destruct (scroll_run det e2) as [[]| | | |]; done.
  - cbn [app scroll_run]. destruct (scroll_step det ev) as [[d1 r]| | | |]; cbn [obind]; [|done..].
    rewrite IH. destruct (scroll_run d1 e1) as [[d2 r1]| | | |]; cbn [obind]; [|done..].
    destruct (scroll_run d2 e2) as [[d3 r2]| | | |]; done.
Qed.

Lemma take_with_last (d : ik_input_action) l :
  (arrow_of <$> take (length l) (d :: l)) ++ [arrow_of (default d (last l))] = arrow_of <$> d :: l.
Proof.
  revert d. induction l as [|d' l IH]; intros d; [done|].
  cbn [length take fmap list_fmap app]. f_equal. rewrite last_cons.
  specialize (IH d'). cbn [fmap list_fmap] in IH. rewrite <- IH. by destruct (last l).
Qed.

(** keyboard arrows pass: presses more than the threshold apart are all
    reported as arrow keys, each in its direction and in order, the last one by
    the flush, and none as a wheel step. *)
Theorem keyboard_arrows_pass (d : ik_input_action) (t : Z) (l : list (ik_input_action * Z)) :
  vertical d -> Forall (fun x => vertical x.1) l ->
  gaps (fun g => IK_SCROLL_BURST_THRESHOLD_MS <? g) t l = true ->
  exists det, scroll_run ik_scroll_detector_create (Arrow d t :: at_times l ++ [Flush])
    = Ret (det, IK_SCROLL_RESULT_NONE :: (arrow_of <$> d :: l.*1)) /\ held det = [].
Proof.
  intros Hd Hl Hg. cbn [scroll_run]. cbn [scroll_step]. unfold ik_scroll_detector_process_arrow.
  rewrite bool_decide_eq_true_2 by done.
  cbn [ik_scroll_detector_create state timer_start_ms burst_threshold_ms pending_dir obind].
  destruct (keys_run l d t _ Hd Hl Hg) as [t' E].
  rewrite scroll_run_app, E. cbn [obind scroll_run scroll_step].
  unfold ik_scroll_detector_flush. cbn [state]. rewrite bool_decide_eq_true_2 by done.
  cbn [pending_dir obind]. eexists. split.
  - do 3 f_equal. rewrite <- (length_fmap fst l). apply take_with_last.
  - reflexivity.
Qed.

(** a wheel burst is one scroll step: two or more arrows, each within the
    threshold of the one before, give one wheel step in the direction of the
    first and nothing else, whatever the directions of the rest. *)
Theorem burst_is_one_scroll (d : ik_input_action) (t : Z) (x : ik_input_action * Z)
    (l : list (ik_input_action * Z)) :
  vertical d -> Forall (fun x => vertical x.1) (x :: l) ->
  gaps (fun g => g <=? IK_SCROLL_BURST_THRESHOLD_MS) t (x :: l) = true ->
  exists det, scroll_run ik_scroll_detector_create (Arrow d t :: at_times (x :: l))
    = Ret (det, IK_SCROLL_RESULT_NONE :: scroll_of d
             :: replicate (length l) IK_SCROLL_RESULT_ABSORBED) /\ held det = [].
Proof.
  intros Hd Hl Hg. destruct x as [d1 t1]. apply Forall_cons in Hl as [Hd1 Hl]. simpl in Hd1.
  simpl in Hg. apply andb_true_iff in Hg as [Hg1 Hg].
  cbn [at_times fmap list_fmap scroll_run]. cbn [scroll_step].
  unfold ik_scroll_detector_process_arrow at 1. rewrite bool_decide_eq_true_2 by done.
  cbn [ik_scroll_detector_create state timer_start_ms burst_threshold_ms pending_dir obind].
  unfold ik_scroll_detector_process_arrow at 1. rewrite bool_decide_eq_true_2 by done.
  cbn [state timer_start_ms burst_threshold_ms pending_dir obind]. rewrite Hg1. cbn [obind].
  assert (exists det, scroll_run (mk_detector IK_SCROLL_STATE_ABSORBING d t1
             IK_SCROLL_BURST_THRESHOLD_MS) (at_times l)
    = Ret (det, replicate (length l) IK_SCROLL_RESULT_ABSORBED) /\ held det = []) as (det & E & Hh).
  { clear Hg1. revert t1 Hg. induction l as [|[d2 t2] l IH]; intros t1 Hg; [by eexists|].
    apply Forall_cons in Hl as [Hd2 Hl]. simpl in Hg. apply andb_true_iff in Hg as [Hg2 Hg].
    cbn [at_times fmap list_fmap scroll_run]. cbn [scroll_step].
    unfold ik_scroll_detector_process_arrow. rewrite bool_decide_eq_true_2 by done.
    cbn [state timer_start_ms burst_threshold_ms pending_dir]. rewrite Hg2. cbn [obind].
    destruct (IH Hl t2 Hg) as (det & E & Hh). unfold at_times in E. rewrite E.
    by exists det. }
  unfold at_times in E. rewrite E. by exists det.
Qed.

(** finding: the timeout handed to select() is one millisecond short.
    Waking up exactly when it elapses flushes nothing, and the next timeout is
    0; one millisecond later the pending arrow is reported. *)
Theorem timeout_one_short (d : ik_input_action) (t now : Z) :
  vertical d -> t <= now <= t + IK_SCROLL_BURST_THRESHOLD_MS ->
  let det := mk_detector IK_SCROLL_STATE_WAITING d t IK_SCROLL_BURST_THRESHOLD_MS in
  let wait := ik_scroll_detector_get_timeout_ms det now in
  0 <= wait /\
  ik_scroll_detector_check_timeout det (now + wait) = (det, IK_SCROLL_RESULT_NONE) /\
  ik_scroll_detector_get_timeout_ms det (now + wait) = 0 /\
  ik_scroll_detector_check_timeout det (now + wait + 1) = (set_idle det, arrow_of d).
Proof.
  intros Hd Ht. cbn zeta. unfold ik_scroll_detector_get_timeout_ms, ik_scroll_detector_check_timeout.
  cbn [state timer_start_ms burst_threshold_ms pending_dir].
  rewrite bool_decide_eq_false_2, bool_decide_eq_true_2 by done.
  set (thr := IK_SCROLL_BURST_THRESHOLD_MS) in *.
  assert (thr = 5) as Hthr by done. clearbody thr.
  rewrite (proj2 (Z.ltb_ge (thr - (now - t)) 0)) by lia. split; [lia|].
  replace (now + (thr - (now - t)) - t) with thr by lia.
  rewrite Z.leb_refl. rewrite Z.sub_diag. split_and!; [done|done|].
  by rewrite (proj2 (Z.leb_gt _ _)) by lia.
Qed.

Lemma arrows_accounted_witness :
  exists det rs, scroll_run ik_scroll_detector_create
      [Arrow IK_INPUT_ARROW_UP 10; Arrow IK_INPUT_ARROW_DOWN 12; Arrow IK_INPUT_ARROW_UP 14;
       Arrow IK_INPUT_ARROW_UP 40; Timeout 60] = Ret (det, rs) /\
    length rs = 5%nat /\ 4%nat = (total_weight rs + length (held det))%nat /\
    sublist ((rs ≫= reported) ++ held det)
      [IK_INPUT_ARROW_UP; IK_INPUT_ARROW_DOWN; IK_INPUT_ARROW_UP; IK_INPUT_ARROW_UP].
Proof.
  apply (arrows_accounted [Arrow IK_INPUT_ARROW_UP 10; Arrow IK_INPUT_ARROW_DOWN 12;
    Arrow IK_INPUT_ARROW_UP 14; Arrow IK_INPUT_ARROW_UP 40; Timeout 60]).
  repeat constructor; by (left + right).
Defined.

Lemma keyboard_arrows_pass_witness :
  exists det, scroll_run ik_scroll_detector_create
      (Arrow IK_INPUT_ARROW_UP 100 :: at_times [(IK_INPUT_ARROW_DOWN, 200)] ++ [Flush])
    = Ret (det, [IK_SCROLL_RESULT_NONE; IK_SCROLL_RESULT_ARROW_UP; IK_SCROLL_RESULT_ARROW_DOWN]) /\
    held det = [].
Proof.
  apply (keyboard_arrows_pass IK_INPUT_ARROW_UP 100 [(IK_INPUT_ARROW_DOWN, 200)]);
    [by left | repeat constructor; by right | reflexivity].
Defined.

Lemma burst_is_one_scroll_witness :
  exists det, scroll_run ik_scroll_detector_create
      (Arrow IK_INPUT_ARROW_DOWN 100 :: at_times [(IK_INPUT_ARROW_DOWN, 101); (IK_INPUT_ARROW_DOWN, 103)])
    = Ret (det, [IK_SCROLL_RESULT_NONE; IK_SCROLL_RESULT_SCROLL_DOWN; IK_SCROLL_RESULT_ABSORBED]) /\
    held det = [].
Proof.
  apply (burst_is_one_scroll IK_INPUT_ARROW_DOWN 100 (IK_INPUT_ARROW_DOWN, 101)
           [(IK_INPUT_ARROW_DOWN, 103)]);
    [by right | repeat constructor; by right | reflexivity].
Defined.

Lemma timeout_one_short_witness :
  let det := mk_detector IK_SCROLL_STATE_WAITING IK_INPUT_ARROW_UP 100 5 in
  0 <= 3 /\ ik_scroll_detector_check_timeout det 105 = (det, IK_SCROLL_RESULT_NONE) /\
  ik_scroll_detector_get_timeout_ms det 105 = 0 /\
  ik_scroll_detector_check_timeout det 106 = (set_idle det, IK_SCROLL_RESULT_ARROW_UP).
Proof. apply (timeout_one_short IK_INPUT_ARROW_UP 100 102); [by left | unfold IK_SCROLL_BURST_THRESHOLD_MS; lia]. Defined.

End ScrollProps.
