(* ===== verification/History.v ===== *)
(** * Command history (history.c)

    An array of [capacity] string slots; duplicates move to the end, the oldest
    entry leaves when the array is full, and a browsing position walks over the
    entries with the user's pending input after the last one. *)

From S2P Require Import Prelude.
From stdpp Require Import strings.

(** ** Definitions *)

Record ik_history := mk_history {
  entries : list (option string);
  count : nat;
  capacity : nat;
  index : nat;
  pending : option string
}.

(** A C string from a slot: reading outside the array, or comparing a NULL
    pointer, is undefined. *)
Definition slot (h : list (option string)) (i : nat) : outcome string :=
  match h !! i with Some (Some s) => Ret s | _ => Undef end.

Definition slot_set (i : nat) (s : option string) (h : list (option string))
  : outcome (list (option string)) :=
  if decide (i < length h) then Ret (<[i := s]> h) else Undef.

(** capacity is cut to 32 bits in the allocation. *)
Definition ik_history_create (capacity : nat) : outcome ik_history :=
  assert! (0 <? capacity)%nat in
  Ret (mk_history (replicate (wrap32 capacity) None) 0 capacity 0 None).

(** Index of the first equal entry among the [n] from [i] on. *)
Fixpoint find_entry (h : list (option string)) (n i : nat) (entry : string)
  : outcome (option nat) :=
  match n with
  | 0 => Ret None
  | S n =>
      let! s := slot h i in
      if String.eqb s entry then Ret (Some i) else find_entry h n (S i) entry
  end.

(** "entries[i] = entries[i + 1]" for [n] indices from [i] on. *)
Fixpoint shift_down (h : list (option string)) (n i : nat) : outcome (list (option string)) :=
  match n with
  | 0 => Ret h
  | S n =>
      match h !! S i with
      | None => Undef
      | Some s => let! h := slot_set i s h in shift_down h n (S i)
      end
  end.

Definition ik_history_add (hist : ik_history) (entry : string) : outcome ik_history :=
  if String.eqb entry EmptyString then Ret hist
  else
    let! same :=
      if (0 <? count hist)%nat then
        let! s := slot (entries hist) (count hist - 1) in Ret (String.eqb s entry)
      else Ret false in
    if same then
      Ret (mk_history (entries hist) (count hist) (capacity hist) (count hist) None)
    else
      let! existing_index := find_entry (entries hist) (count hist) 0 entry in
      let! (es, n) :=
        match existing_index with
        | Some k =>
            let! es := shift_down (entries hist) (count hist - 1 - k) k in
            Ret (es, count hist - 1)
        | None =>
            if (count hist =? capacity hist)%nat then
              let! es := shift_down (entries hist) (count hist - 1) 0 in
              Ret (es, count hist - 1)
            else Ret (entries hist, count hist)
        end in
      let! es := slot_set n (Some entry) es in
      Ret (mk_history es (S n) (capacity hist) (S n) None).

Definition ik_history_start_browsing (hist : ik_history) (pending_input : string) : ik_history :=
  if (count hist =? 0)%nat
  then mk_history (entries hist) (count hist) (capacity hist) 0 (Some pending_input)
  else mk_history (entries hist) (count hist) (capacity hist) (count hist - 1)
         (Some pending_input).

Definition ik_history_is_browsing (hist : ik_history) : bool := (index hist <? count hist)%nat.

Definition set_index (i : nat) (h : ik_history) : ik_history :=
  mk_history (entries h) (count h) (capacity h) i (pending h).

(** The result is the returned pointer, [None] for NULL. *)
Definition ik_history_prev (hist : ik_history) : outcome (ik_history * option string) :=
  if negb (ik_history_is_browsing hist) || (index hist =? 0)%nat then Ret (hist, None)
  else
    let hist := set_index (index hist - 1) hist in
    let! s := slot (entries hist) (index hist) in Ret (hist, Some s).

Definition ik_history_next (hist : ik_history) : outcome (ik_history * option string) :=
  if (count hist <? index hist)%nat then Ret (hist, None)
  else if (index hist =? count hist)%nat then Ret (set_index (S (index hist)) hist, None)
  else
    let hist := set_index (S (index hist)) hist in
    if (index hist <? count hist)%nat then
      let! s := slot (entries hist) (index hist) in Ret (hist, Some s)
    else Ret (hist, pending hist).

Definition ik_history_stop_browsing (hist : ik_history) : ik_history :=
  mk_history (entries hist) (count hist) (capacity hist) (count hist) None.

Definition ik_history_get_current (hist : ik_history) : outcome (option string) :=
  if (count hist <=? index hist)%nat then Ret (pending hist)
  else let! s := slot (entries hist) (index hist) in Ret (Some s).

(** ** Specification *)

(** Adding on the abstract list of entries, oldest first. *)
Definition add_entry (capacity : nat) (l : list string) (entry : string) : list string :=
  if String.eqb entry EmptyString then l
  else if bool_decide (entry ∈ l) then filter (fun s : string => s <> entry) l ++ [entry]
  else (if (length l =? capacity)%nat then drop 1 l else l) ++ [entry].

(** The array holds [l]; unused slots may hold anything. *)
Record hist_rep (h : ik_history) (l : list string) : Prop := {
  rep_entries : exists r, entries h = (Some <$> l) ++ r;
  rep_count : count h = length l;
  rep_slots : length (entries h) = capacity h;
  rep_capacity : 0 < capacity h;
  rep_nodup : NoDup l;
  rep_nonempty : EmptyString ∉ l;
  rep_index : index h <= S (count h)
}.

Lemma slot_ok h l i s : hist_rep h l -> l !! i = Some s -> slot (entries h) i = Ret s.
Proof.
  intros [[r Hr] _ _ _ _ _ _] Hi. unfold slot. rewrite Hr, lookup_app_l.
  - by rewrite list_lookup_fmap, Hi.
  - rewrite length_fmap. by eapply lookup_lt_Some.
Qed.

Lemma find_entry_spec (l1 l2 : list string) r e :
  find_entry ((Some <$> l1 ++ l2) ++ r) (length l2) (length l1) e
  = Ret (if bool_decide (e ∈ l2) then (fun p => length l1 + p.1) <$> list_find (fun s : string => s = e) l2
         else None).
Proof.
  revert l1. induction l2 as [|s l2 IH]; intros l1; [done|]. cbn [find_entry length].
  unfold slot. rewrite lookup_app_l, list_lookup_fmap by (rewrite length_fmap; len_lia).
  rewrite list_lookup_middle by done. cbn [fmap option_fmap option_map obind].
  destruct (String.eqb_spec s e) as [->|Hne].
  - rewrite bool_decide_eq_true_2 by set_solver. simpl. rewrite decide_True by done.
    simpl. by rewrite Nat.add_0_r.
  - specialize (IH (l1 ++ [s])). rewrite <- app_assoc in IH. cbn [app] in IH.
    rewrite length_app, Nat.add_1_r in IH. rewrite IH. f_equal.
    simpl. rewrite decide_False by done.
    destruct (decide (e ∈ l2)).
    + rewrite !bool_decide_eq_true_2 by set_solver.
      destruct (list_find (fun s : string => s = e) l2) as [[i x]|]; simpl; [f_equal; lia|done].
    + by rewrite !bool_decide_eq_false_2 by set_solver.
Qed.

Lemma shift_down_spec n (l1 : list (option string)) x l2 r :
  length l2 = n ->
  exists r', shift_down (l1 ++ x :: l2 ++ r) n (length l1) = Ret (l1 ++ l2 ++ r') /\
             length r' = S (length r).
Proof.
  intros <-. revert l1 x. induction l2 as [|y l2 IH]; intros l1 x; [by exists (x :: r)|].
  cbn [length shift_down app].
  assert ((l1 ++ x :: y :: l2 ++ r) !! S (length l1) = Some y) as ->.
  { rewrite lookup_app_r by lia. by replace (S (length l1) - length l1) with 1 by lia. }
  unfold slot_set. rewrite decide_True by len_lia. cbn [obind].
  rewrite insert_app_r_alt, Nat.sub_diag by lia. simpl.
  destruct (IH (l1 ++ [y]) y) as (r' & E & Hr).
  rewrite <- app_assoc, length_app, Nat.add_1_r in E. cbn [app] in E. rewrite E.
  exists r'. by rewrite <- app_assoc.
Qed.

Lemma filter_split (l1 l2 : list string) e :
  NoDup (l1 ++ e :: l2) -> filter (fun s : string => s <> e) (l1 ++ e :: l2) = l1 ++ l2.
Proof.
  intros Hnd. apply NoDup_app in Hnd as (_ & Hd & Hnd2). apply NoDup_cons in Hnd2 as [He _].
  rewrite filter_app, filter_cons_False by naive_solver.
  assert (forall l : list string, e ∉ l -> filter (fun s : string => s <> e) l = l) as Hf.
  { induction l as [|s l IH]; intros Hl; [done|].
    rewrite filter_cons_True by set_solver. f_equal. apply IH. set_solver. }
  rewrite !Hf; set_solver.
Qed.

(** The end of add: the new entry goes to the slot after the kept ones. *)
Lemma add_finish (l : list string) r e :
  0 < length r ->
  slot_set (length l) (Some e) ((Some <$> l) ++ r) = Ret ((Some <$> l ++ [e]) ++ drop 1 r).
Proof.
  intros Hr. unfold slot_set. rewrite decide_True by (rewrite length_app, length_fmap; lia).
  f_equal. rewrite insert_app_r_alt, length_fmap, Nat.sub_diag by (rewrite length_fmap; lia).
  destruct r as [|x r]; [simpl in Hr; lia|]. rewrite fmap_app, <- app_assoc. done.
Qed.

Lemma nodup_add cap l e : NoDup l -> NoDup (add_entry cap l e).
Proof.
  intros Hl. unfold add_entry. destruct (String.eqb e EmptyString); [done|].
  case_bool_decide.
  - apply NoDup_app. split_and!; [by apply NoDup_filter| |by apply NoDup_singleton].
    intros s [Hs _]%list_elem_of_filter. set_solver.
  - assert (NoDup (if length l =? cap then drop 1 l else l)
            /\ e ∉ (if length l =? cap then drop 1 l else l)) as [Hn He].
    { destruct (length l =? cap); [|done]. destruct l; [done|]. simpl.
      apply NoDup_cons in Hl as [_ Hl]. set_solver. }
    apply NoDup_app. split_and!; [done| |by apply NoDup_singleton]. set_solver.
Qed.

Lemma nonempty_add cap l e : EmptyString ∉ l -> EmptyString ∉ add_entry cap l e.
Proof.
  intros Hl. unfold add_entry. destruct (String.eqb_spec e EmptyString) as [|Hne]; [done|].
  case_bool_decide; [|destruct (length l =? cap); [destruct l|]];
    rewrite ?elem_of_app, ?list_elem_of_filter, ?elem_of_cons, ?elem_of_nil in *; simpl in *;
    set_solver.
Qed.

(** Closes the clauses of [hist_rep] with the unused slots given. *)
Ltac rep_solve rest :=
  constructor; simpl;
  first [done | by exists rest | lia | len_lia | (destruct rest; simpl in *; len_lia) ].

Lemma history_add_ok h l e :
  hist_rep h l -> length l <= capacity h ->
  exists h', ik_history_add h e = Ret h' /\ hist_rep h' (add_entry (capacity h) l e) /\
    capacity h' = capacity h /\ length (add_entry (capacity h) l e) <= capacity h /\
    (e <> EmptyString -> index h' = count h' /\ pending h' = None).
Proof.
  intros Hr Hcap. pose proof Hr as [[r Hes] Hc Hsl Hpos Hnd Hne Hix].
  pose proof (nodup_add (capacity h) l e Hnd) as Hnd'.
  pose proof (nonempty_add (capacity h) l e Hne) as Hne'.
  unfold ik_history_add, add_entry in *.
  destruct (String.eqb_spec e EmptyString) as [->|He]; [exists h; split_and!; done|].
  rewrite Hes, Hc in *. rewrite length_app, length_fmap in Hsl.
  (* the most recent entry *)
  destruct l as [|s0 l0 _] using rev_ind.
  { cbn [length] in *. rewrite bool_decide_eq_false_2 in * by set_solver.
    rewrite (proj2 (Nat.eqb_neq 0 (capacity h))) in * by lia.
    cbn [Nat.ltb Nat.leb obind find_entry].
    pose proof (add_finish [] r e ltac:(lia)) as E. cbn [length fmap list_fmap app] in E |- *.
    rewrite E. cbn [obind]. eexists. split; [reflexivity|].
    split_and!; simpl; try done; try lia.
    rep_solve (drop 1 r). }
  rewrite (proj2 (Nat.ltb_lt _ _)) by len_lia.
  assert (slot ((Some <$> l0 ++ [s0]) ++ r) (length (l0 ++ [s0]) - 1) = Ret s0) as ->.
  { rewrite <- Hes. apply (slot_ok h (l0 ++ [s0])); [done|].
    rewrite length_app, Nat.add_sub. by apply list_lookup_middle. }
  cbn [obind]. destruct (String.eqb_spec s0 e) as [->|Hs0].
  { eexists. split; [reflexivity|]. rewrite bool_decide_eq_true_2 in * by set_solver.
    rewrite (filter_split l0 [] e), app_nil_r in * by done.
    split_and!; simpl; try done. rep_solve (r). }
  set (l := l0 ++ [s0]) in *.
  pose proof (find_entry_spec [] l r e) as Hfind. cbn [app length] in Hfind.
  rewrite Hfind. cbn [obind]. clear Hfind.
  destruct (decide (e ∈ l)) as [Hin|Hin].
  - rewrite bool_decide_eq_true_2 in * by done.
    destruct (list_find (fun s : string => s = e) l) as [[i x]|] eqn:Hf.
    2: { apply list_find_None in Hf. rewrite Forall_forall in Hf. by apply Hf in Hin. }
    apply list_find_Some in Hf as (Hi & -> & _). cbn [fmap option_fmap option_map fst].
    apply list_elem_of_split_length in Hi as (l1 & l2 & Hl & Hlen).
    simpl. rewrite Hl in *. rewrite filter_split in * by done.
    rewrite fmap_app, <- app_assoc. cbn [fmap list_fmap app].
    destruct (shift_down_spec (length (l1 ++ e :: l2) - 1 - i)
                (Some <$> l1) (Some e) (Some <$> l2) r) as (r' & E & Hr');
      [rewrite length_fmap; len_lia|].
    rewrite length_fmap, <- Hlen in E. rewrite E. cbn [obind].
    replace (length (l1 ++ e :: l2) - 1) with (length (l1 ++ l2)) by len_lia.
    rewrite app_assoc, <- fmap_app, add_finish by lia. cbn [obind].
    eexists. split; [reflexivity|]. split_and!; simpl; try done; try len_lia.
    rep_solve (drop 1 r').
  - rewrite bool_decide_eq_false_2 in * by done.
    destruct (Nat.eqb_spec (length l) (capacity h)) as [Hfull|Hroom].
    + destruct l as [|s1 l1] eqn:Hl; [by destruct l0|]. cbn [fmap list_fmap app drop] in *.
      destruct (shift_down_spec (length (s1 :: l1) - 1) [] (Some s1) (Some <$> l1) r)
        as (r' & E & Hr'); [rewrite length_fmap; simpl; lia|].
      cbn [app length] in E |- *. rewrite E. cbn [obind app].
      replace (S (length l1) - 1) with (length l1) by lia.
      rewrite add_finish by lia. cbn [obind]. rewrite !drop_0 in *.
      eexists. split; [reflexivity|]. simpl in Hfull. split_and!; simpl; try done; try len_lia.
      rep_solve (drop 1 r').
    + cbn [obind]. rewrite add_finish by lia. cbn [obind].
      eexists. split; [reflexivity|]. split_and!; simpl; try done; try len_lia.
      rep_solve (drop 1 r).
Qed.

(** ** Sequences of operations *)

Inductive hist_op : Set :=
| HistAdd (entry : string)
| HistStart (pending_input : string)
| HistPrev
| HistNext
| HistStop.

Definition run_hist_op (h : ik_history) (op : hist_op) : outcome ik_history :=
  match op with
  | HistAdd e => ik_history_add h e
  | HistStart p => Ret (ik_history_start_browsing h p)
  | HistPrev => let! (h, _) := ik_history_prev h in Ret h
  | HistNext => let! (h, _) := ik_history_next h in Ret h
  | HistStop => Ret (ik_history_stop_browsing h)
  end.

Fixpoint run_hist_ops (h : ik_history) (ops : list hist_op) : outcome ik_history :=
  match ops with
  | [] => Ret h
  | op :: ops => let! h := run_hist_op h op in run_hist_ops h ops
  end.

(** Only adding changes the entries. *)
Definition hist_spec_op (cap : nat) (l : list string) (op : hist_op) : list string :=
  match op with HistAdd e => add_entry cap l e | _ => l end.

Definition hist_spec (cap : nat) (ops : list hist_op) : list string :=
  fold_left (hist_spec_op cap) ops [].

(** Moving the browsing position within bounds keeps the representation. *)
Lemma rep_move h l i p :
  hist_rep h l -> i <= S (count h) ->
  hist_rep (mk_history (entries h) (count h) (capacity h) i p) l.
Proof. intros [] Hi. by constructor. Qed.

Lemma entry_at h l i :
  hist_rep h l -> i < length l -> exists s, l !! i = Some s /\ slot (entries h) i = Ret s.
Proof.
  intros Hr Hi. destruct (lookup_lt_is_Some_2 l i Hi) as [s Hs]. exists s.
  split; [done|by eapply slot_ok].
Qed.

Lemma run_hist_op_ok h l op :
  hist_rep h l -> length l <= capacity h ->
  exists h', run_hist_op h op = Ret h' /\ hist_rep h' (hist_spec_op (capacity h) l op) /\
    capacity h' = capacity h /\ length (hist_spec_op (capacity h) l op) <= capacity h.
Proof.
  intros Hr Hcap. pose proof Hr as [_ Hc _ _ _ _ Hix]. destruct op; cbn [run_hist_op hist_spec_op].
  - destruct (history_add_ok h l entry Hr Hcap) as (h' & ? & ? & ? & ? & _). eauto.
  - eexists. split; [reflexivity|]. unfold ik_history_start_browsing.
    destruct (count h =? 0)%nat; (split_and!; [apply rep_move; [done|lia]|done|done]).
  - unfold ik_history_prev, ik_history_is_browsing.
    destruct (Nat.ltb_spec (index h) (count h)); [|by exists h].
    destruct (Nat.eqb_spec (index h) 0); [by exists h|]. cbn [negb orb].
    destruct (entry_at h l (index h - 1) Hr) as (s & _ & Hs); [lia|].
    cbn [set_index entries index]. rewrite Hs. cbn [obind].
    eexists. split; [reflexivity|]. split_and!; [apply rep_move; [done|lia]|done|done].
  - unfold ik_history_next. destruct (Nat.ltb_spec (count h) (index h)); [by exists h|].
    destruct (Nat.eqb_spec (index h) (count h)).
    { eexists. split; [reflexivity|]. split_and!; [apply rep_move; [done|lia]|done|done]. }
    cbn [set_index entries index count]. destruct (Nat.ltb_spec (S (index h)) (count h)).
    + destruct (entry_at h l (S (index h)) Hr) as (s & _ & Hs); [lia|]. rewrite Hs. cbn [obind].
      eexists. split; [reflexivity|]. split_and!; [apply rep_move; [done|lia]|done|done].
    + eexists. split; [reflexivity|]. split_and!; [apply rep_move; [done|lia]|done|done].
  - eexists. split; [reflexivity|]. split_and!; [apply rep_move; [done|lia]|done|done].
Qed.

Lemma run_hist_ops_ok ops h l :
  hist_rep h l -> length l <= capacity h ->
  exists h', run_hist_ops h ops = Ret h' /\
    hist_rep h' (fold_left (hist_spec_op (capacity h)) ops l) /\
    length (fold_left (hist_spec_op (capacity h)) ops l) <= capacity h.
Proof.
  revert h l. induction ops as [|op ops IH]; intros h l Hr Hcap; [by exists h|].
  destruct (run_hist_op_ok h l op Hr Hcap) as (h1 & H1 & Hr1 & Hc1 & Hl1).
  cbn [run_hist_ops fold_left]. rewrite H1. cbn [obind].
  destruct (IH h1 _ Hr1) as (h2 & H2 & Hr2 & Hl2); [lia|]. rewrite Hc1 in *. eauto.
Qed.

(** ** Walking through the entries *)

(** [n] calls of prev (next) and the pointers they return. *)
Fixpoint walk (step : ik_history -> outcome (ik_history * option string)) (n : nat)
    (h : ik_history) : outcome (ik_history * list (option string)) :=
  match n with
  | 0 => Ret (h, [])
  | S n =>
      let! (h, s) := step h in
      let! (h, l) := walk step n h in
      Ret (h, s :: l)
  end.

Lemma walk_prev h l i :
  hist_rep h l -> index h = i -> i < length l ->
  walk ik_history_prev (S i) h = Ret (set_index 0 h, (Some <$> reverse (take i l)) ++ [None]).
Proof.
  revert h. induction i as [|i IH]; intros h Hr Hi Hlt; pose proof (rep_count _ _ Hr) as Hc;
    cbn [walk]; unfold ik_history_prev at 1, ik_history_is_browsing; rewrite Hi.
  - rewrite orb_true_r. cbn [obind].
    assert (set_index 0 h = h) as -> by (unfold set_index; rewrite <- Hi; by destruct h). done.
  - rewrite (proj2 (Nat.ltb_lt _ _)) by lia. cbn [negb orb Nat.eqb Nat.sub].
    rewrite Nat.sub_0_r. destruct (entry_at h l i Hr) as (s & Hs & E); [lia|].
    cbn [set_index entries index]. rewrite E. cbn [obind].
    pose proof (IH (set_index i h)) as Hw. cbn [walk] in Hw. rewrite Hw; [|by apply rep_move; [done|lia]|done|lia].
    cbn [obind]. rewrite (take_S_r _ _ _ Hs), reverse_app. done.
Qed.

Lemma walk_next h l i n :
  hist_rep h l -> index h = i -> i + n = length l -> 0 < n ->
  walk ik_history_next n h
  = Ret (set_index (length l) h, (Some <$> drop (S i) l) ++ [pending h]).
Proof.
  revert h i. induction n as [|n IH]; intros h i Hr Hi Hl Hn; [lia|].
  pose proof (rep_count _ _ Hr) as Hc. cbn [walk]. unfold ik_history_next at 1. rewrite Hi.
  rewrite (proj2 (Nat.ltb_ge _ _)) by lia. rewrite (proj2 (Nat.eqb_neq _ _)) by lia.
  cbn [set_index index count entries pending].
  destruct (decide (n = 0)) as [->|Hn0].
  - rewrite (proj2 (Nat.ltb_ge _ _)) by lia. cbn [obind walk].
    rewrite drop_ge by lia. simpl. do 3 f_equal. lia.
  - rewrite (proj2 (Nat.ltb_lt _ _)) by lia.
    destruct (entry_at h l (S i) Hr) as (s & Hs & E); [lia|]. rewrite E. cbn [obind].
    rewrite (IH (set_index (S i) h) (S i)); [|by apply rep_move; [done|lia]|done|lia|lia].
    cbn [obind]. rewrite (drop_S _ _ _ Hs). done.
Qed.

(** ** Properties *)

Module HistoryProps.

(** C12: whatever the sequence of calls, the history is the abstract list: no
    empty string, no duplicate (a repeated command moves to the end), at most
    [capacity] entries with the oldest evicted first, and no access outside the
    array. *)
Theorem history_refines_list (cap : nat) (ops : list hist_op) :
  0 < cap -> (Z.of_nat cap < 2 ^ 31)%Z ->
  exists h h' r, ik_history_create cap = Ret h /\ run_hist_ops h ops = Ret h' /\
    entries h' = (Some <$> hist_spec cap ops) ++ r /\ count h' = length (hist_spec cap ops) /\
    count h' <= cap /\ NoDup (hist_spec cap ops) /\ (EmptyString ∉ hist_spec cap ops) /\
    index h' <= S (count h').
Proof.
  intros Hpos Hcap. unfold ik_history_create. rewrite (proj2 (Nat.ltb_lt _ _)) by done.
  rewrite wrap32_small by lia. eexists.
  set (h := mk_history _ _ _ _ _).
  assert (hist_rep h []) as Hr.
  { constructor; simpl; rewrite ?length_replicate; try done; [by eexists|apply NoDup_nil_2|
      apply not_elem_of_nil|lia]. }
  destruct (run_hist_ops_ok ops h [] Hr) as (h' & Hrun & Hr' & Hl); [simpl; lia|].
  exists h'. pose proof Hr' as [[r Hes] Hc _ _ Hnd Hne Hix]. exists r.
  split_and!; try done. by rewrite Hc.
Qed.

(** browsing visits every entry: from the newest, prev returns the others
    one by one down to the oldest and then NULL; next comes back through all of
    them, ends with the pending input the user had typed, and leaves browsing
    mode. *)
Theorem browse_there_and_back (h : ik_history) (l : list string) (p : string) :
  hist_rep h l -> l <> [] ->
  let h0 := ik_history_start_browsing h p in
  exists h1 h2, ik_history_get_current h0 = Ret (last l) /\
    walk ik_history_prev (length l) h0 = Ret (h1, (Some <$> drop 1 (reverse l)) ++ [None]) /\
    walk ik_history_next (length l) h1 = Ret (h2, (Some <$> drop 1 l) ++ [Some p]) /\
    ik_history_is_browsing h2 = false /\ ik_history_get_current h2 = Ret (Some p).
Proof.
  intros Hr Hne h0. destruct l as [|s l _] using rev_ind; [done|].
  pose proof (rep_count _ _ Hr) as Hc. rewrite length_app, Nat.add_1_r in Hc.
  assert (h0 = mk_history (entries h) (count h) (capacity h) (length l) (Some p)) as E0.
  { unfold h0, ik_history_start_browsing. rewrite Hc. cbn [Nat.eqb Nat.sub].
    by rewrite Nat.sub_0_r. }
  assert (hist_rep h0 (l ++ [s])) as Hr0 by (rewrite E0; apply rep_move; [done|lia]).
  pose proof (walk_prev h0 (l ++ [s]) (length l) Hr0) as Hp.
  rewrite take_app_length in Hp.
  pose proof (rep_move h0 _ 0 (Some p) Hr0 ltac:(lia)) as Hr1.
  assert (set_index 0 h0 = mk_history (entries h0) (count h0) (capacity h0) 0 (Some p)) as E1
    by (by rewrite E0).
  pose proof (walk_next (set_index 0 h0) (l ++ [s]) 0 (length (l ++ [s]))) as Hn.
  rewrite E1 in Hn. specialize (Hn Hr1 eq_refl eq_refl ltac:(len_lia)).
  exists (set_index 0 h0), (set_index (length (l ++ [s])) (set_index 0 h0)).
  rewrite reverse_app, last_snoc. change (reverse [s]) with [s]. cbn [app drop].
  split_and!.
  - unfold ik_history_get_current. rewrite E0. cbn [count index entries].
    rewrite (proj2 (Nat.leb_gt _ _)) by lia.
    rewrite (slot_ok h (l ++ [s]) (length l) s Hr) by (by apply list_lookup_middle). done.
  - rewrite length_app, Nat.add_1_r. apply Hp; [by rewrite E0|len_lia].
  - rewrite E1, Hn. reflexivity.
  - unfold ik_history_is_browsing. rewrite E0. cbn [set_index count index].
    apply Nat.ltb_ge. len_lia.
  - unfold ik_history_get_current. rewrite E0. cbn [set_index count index pending].
    by rewrite (proj2 (Nat.leb_le _ _)) by len_lia.
Qed.

Lemma history_refines_list_witness :
  exists h h' r, ik_history_create 2 = Ret h /\
    run_hist_ops h [HistAdd "a"; HistAdd "b"; HistAdd "a"; HistStart "x"; HistPrev; HistAdd "c"]
    = Ret h' /\
    entries h' = (Some <$> ["a"; "c"]) ++ r /\ count h' = 2 /\ count h' <= 2 /\
    NoDup ["a"; "c"] /\ (EmptyString ∉ ["a"; "c"]) /\ index h' <= S (count h').
Proof.
  apply (history_refines_list 2
    [HistAdd "a"; HistAdd "b"; HistAdd "a"; HistStart "x"; HistPrev; HistAdd "c"]); [lia|done].
Defined.

Lemma browse_there_and_back_witness :
  let h := mk_history [Some "a"; Some "b"; None] 2 3 2 None in
  let h0 := ik_history_start_browsing h "x" in
  exists h1 h2, ik_history_get_current h0 = Ret (Some "b") /\
    walk ik_history_prev 2 h0 = Ret (h1, [Some "a"; None]) /\
    walk ik_history_next 2 h1 = Ret (h2, [Some "b"; Some "x"]) /\
    ik_history_is_browsing h2 = false /\ ik_history_get_current h2 = Ret (Some "x").
Proof.
  intros h. apply (browse_there_and_back h ["a"; "b"] "x"); [|done].
  constructor; simpl; try lia; try done; [by exists [None]| |].
  - by repeat (apply NoDup_cons; split; [set_solver|]); apply NoDup_nil.
  - set_solver.
Defined.

End HistoryProps.
