(* ===== verification/Scrollback.v ===== *)
(** * The scrollback buffer (scrollback.c, scrollback_layout.c, scrollback_utils.c,
    scrollback_render.c)

    Lines of text in one contiguous buffer, with offsets, lengths and layouts in
    parallel arrays, and the mapping between logical lines and terminal rows. *)

From S2P Require Import Prelude Slots ByteArray Utf8 Unicode Layout.

(** ** State *)

Record ik_line_layout := mk_layout {
  display_width : nat;
  physical_lines : nat;
  newline_count : nat;
  segment_widths : list nat
}.

#[export] Instance ik_line_layout_inhabited : Inhabited ik_line_layout :=
  populate (mk_layout 0 0 0 []).

Record ik_scrollback := mk_scrollback {
  text_buffer : list Z;
  text_offsets : list nat;
  text_lengths : list nat;
  layouts : list ik_line_layout;
  count : nat;
  capacity : nat;
  cached_width : Z;
  total_physical_lines : nat;
  buffer_used : nat;
  buffer_capacity : nat
}.

Section operations.
Context `{Utf8proc} `{Allocator} `{SlotAllocator}.

(** ** scrollback_utils.c

    [text] is the [length] bytes the caller passes. *)

Fixpoint sb_width_loop (fuel : nat) (text : list Z) (length pos display_width : nat)
  : outcome nat :=
  match fuel with
  | 0 => NoFuel
  | S fuel =>
      if (pos <? length)%nat then
        let skip := ik_ansi_skip_csi text length pos in
        if (0 <? skip)%nat then sb_width_loop fuel text length (pos + skip) display_width
        else
          let '(bytes, cp) := utf8proc_iterate (drop pos text) in
          if (bytes <=? 0)%Z then sb_width_loop fuel text length (S pos) (S display_width)
          else if (cp =? 10)%Z then
            sb_width_loop fuel text length (pos + Z.to_nat bytes) display_width
          else
            let width := utf8proc_charwidth cp in
            sb_width_loop fuel text length (pos + Z.to_nat bytes)
              (if (0 <? width)%Z then display_width + Z.to_nat width else display_width)
      else Ret display_width
  end.

Definition ik_scrollback_calculate_display_width (text : list Z) (length : nat) : outcome nat :=
  sb_width_loop (S length) text length 0 0.

Fixpoint newlines_loop (fuel : nat) (text : list Z) (length pos newline_count : nat)
  : outcome nat :=
  match fuel with
  | 0 => NoFuel
  | S fuel =>
      if (pos <? length)%nat then
        let skip := ik_ansi_skip_csi text length pos in
        if (0 <? skip)%nat then newlines_loop fuel text length (pos + skip) newline_count
        else
          let '(bytes, cp) := utf8proc_iterate (drop pos text) in
          if (bytes <=? 0)%Z then newlines_loop fuel text length (S pos) newline_count
          else
            newlines_loop fuel text length (pos + Z.to_nat bytes)
              (if (cp =? 10)%Z then S newline_count else newline_count)
      else Ret newline_count
  end.

Definition ik_scrollback_count_newlines (text : list Z) (length : nat) : outcome nat :=
  newlines_loop (S length) text length 0 0.

(** The kept prefix: trailing space, tab, LF and CR are dropped. *)
Fixpoint trim_end (text : list Z) (end_ : nat) : nat :=
  match end_ with
  | 0 => 0
  | S e =>
      let c := byte_at text e in
      if ((c =? 0x20) || (c =? 0x09) || (c =? 0x0A) || (c =? 0x0D))%Z
      then trim_end text e else end_
  end.

Definition ik_scrollback_trim_trailing (text : list Z) (length : nat) : list Z :=
  if (length =? 0)%nat then [] else take (trim_end text length) text.

(** ** scrollback_layout.c *)

(** "width == 0 ? 1 : (width + terminal_width - 1) / terminal_width": the rows
    of one segment. *)
Definition seg_rows (terminal_width width : nat) : nat :=
  if (width =? 0)%nat then 1 else (width + terminal_width - 1) / terminal_width.

(** The variables of the second pass. *)
Record layout_state := mk_ls {
  ls_widths : list nat;
  ls_physical : nat;
  ls_width : nat;
  ls_segment : nat;
  ls_content : bool;
  ls_newline : bool
}.

Fixpoint sb_layout_loop (fuel : nat) (text : list Z) (length terminal_width pos : nat)
    (s : layout_state) : outcome layout_state :=
  match fuel with
  | 0 => NoFuel
  | S fuel =>
      if (pos <? length)%nat then
        let skip := ik_ansi_skip_csi text length pos in
        if (0 <? skip)%nat then sb_layout_loop fuel text length terminal_width (pos + skip) s
        else
          let '(bytes, cp) := utf8proc_iterate (drop pos text) in
          if (bytes <=? 0)%Z then
            sb_layout_loop fuel text length terminal_width (S pos)
              (mk_ls (ls_widths s) (ls_physical s) (S (ls_width s)) (ls_segment s) true false)
          else if (cp =? 10)%Z then
            let! ws := arr_set (ls_segment s) (ls_width s) (ls_widths s) in
            sb_layout_loop fuel text length terminal_width (pos + Z.to_nat bytes)
              (mk_ls ws (ls_physical s + seg_rows terminal_width (ls_width s)) 0
                 (S (ls_segment s)) (ls_content s) true)
          else
            let width := utf8proc_charwidth cp in
            sb_layout_loop fuel text length terminal_width (pos + Z.to_nat bytes)
              (mk_ls (ls_widths s) (ls_physical s)
                 (if (0 <? width)%Z then ls_width s + Z.to_nat width else ls_width s)
                 (ls_segment s) true false)
      else Ret s
  end.

Definition ik_scrollback_calculate_layout (text : list Z) (length : nat) (terminal_width : Z)
  : outcome ik_line_layout :=
  let tw := Z.to_nat terminal_width in
  let! newline_count := ik_scrollback_count_newlines text length in
  let! segment_widths := or_oom (alloc_slots 0 (S newline_count)) in
  let! s := sb_layout_loop (S length) text length tw 0 (mk_ls segment_widths 0 0 0 false false) in
  let! segment_widths := arr_set (ls_segment s) (ls_width s) (ls_widths s) in
  let physical_lines :=
    if (ls_width s =? 0)%nat && (ls_physical s =? 0)%nat then 1
    else if (0 <? ls_width s)%nat then ls_physical s + (ls_width s + tw - 1) / tw
    else if ls_newline s && ls_content s then S (ls_physical s)
    else ls_physical s in
  let! display_width := ik_scrollback_calculate_display_width text length in
  Ret (mk_layout display_width physical_lines newline_count segment_widths).

(** ** scrollback.c *)

Definition ik_scrollback_create (terminal_width : Z) : outcome ik_scrollback :=
  assert! (0 <? terminal_width)%Z in
  let! offsets := or_panic (alloc_slots 0 16) in
  let! lengths := or_panic (alloc_slots 0 16) in
  let! layouts := or_panic (alloc_slots (mk_layout 0 0 0 []) 16) in
  let! buffer := or_panic (talloc_realloc [] 1024) in
  Ret (mk_scrollback buffer offsets lengths layouts 0 16 terminal_width 0 0 1024).

(** Grow the line arrays when they are full. *)
Definition grow_lines (s : ik_scrollback) : outcome ik_scrollback :=
  if (capacity s <=? count s)%nat then
    let new_capacity := wrap64 (capacity s * 2) in
    let! offsets := or_oom (realloc_slots (text_offsets s) new_capacity) in
    let! lengths := or_oom (realloc_slots (text_lengths s) new_capacity) in
    let! layouts := or_oom (realloc_slots (layouts s) new_capacity) in
    Ret (mk_scrollback (text_buffer s) offsets lengths layouts (count s) new_capacity
           (cached_width s) (total_physical_lines s) (buffer_used s) (buffer_capacity s))
  else Ret s.

(** Grow the text buffer until the line and its terminator fit. *)
Definition grow_text (s : ik_scrollback) (length : nat) : outcome ik_scrollback :=
  let need := wrap64 (buffer_used s + length + 1) in
  if (buffer_capacity s <? need)%nat then
    let! new_capacity := double_until 65 need (wrap64 (buffer_capacity s * 2)) in
    let! buffer := or_oom (talloc_realloc (text_buffer s) new_capacity) in
    Ret (mk_scrollback buffer (text_offsets s) (text_lengths s) (layouts s) (count s)
           (capacity s) (cached_width s) (total_physical_lines s) (buffer_used s) new_capacity)
  else Ret s.

Definition ik_scrollback_append_line (s : ik_scrollback) (text : list Z) (length : nat)
  : outcome ik_scrollback :=
  let! s := grow_lines s in
  let! s := grow_text s length in
  let! offsets := arr_set (count s) (buffer_used s) (text_offsets s) in
  let! lengths := arr_set (count s) length (text_lengths s) in
  let! buffer :=
    if (0 <? length)%nat then mem_write (buffer_used s) (take length text) (text_buffer s)
    else Ret (text_buffer s) in
  let used := buffer_used s + length in
  let! buffer := mem_write used [0%Z] buffer in
  let used := S used in
  let! layout := ik_scrollback_calculate_layout (take length text) length (cached_width s) in
  let! ls := arr_set (count s) layout (layouts s) in
  Ret (mk_scrollback buffer offsets lengths ls (S (count s)) (capacity s) (cached_width s)
         (total_physical_lines s + physical_lines layout) used (buffer_capacity s)).

(** Sum of the rows of the segments from [seg] on. *)
Fixpoint sum_segments (widths : list nat) (terminal_width n seg physical_lines : nat)
  : outcome nat :=
  match n with
  | 0 => Ret physical_lines
  | S n =>
      let! w := arr_get widths seg in
      sum_segments widths terminal_width n (S seg) (physical_lines + seg_rows terminal_width w)
  end.

Fixpoint reflow_loop (terminal_width n i : nat) (ls : list ik_line_layout) (total : nat)
  : outcome (list ik_line_layout * nat) :=
  match n with
  | 0 => Ret (ls, total)
  | S n =>
      let! l := arr_get ls i in
      let! rows := sum_segments (segment_widths l) terminal_width (S (newline_count l)) 0 0 in
      let! ls := arr_set i (mk_layout (display_width l) rows (newline_count l)
                              (segment_widths l)) ls in
      reflow_loop terminal_width n (S i) ls (total + rows)
  end.

Definition ik_scrollback_ensure_layout (s : ik_scrollback) (terminal_width : Z)
  : outcome ik_scrollback :=
  assert! (0 <? terminal_width)%Z in
  if (terminal_width =? cached_width s)%Z then Ret s
  else
    let! (ls, total) := reflow_loop (Z.to_nat terminal_width) (count s) 0 (layouts s) 0 in
    Ret (mk_scrollback (text_buffer s) (text_offsets s) (text_lengths s) ls (count s)
           (capacity s) terminal_width total (buffer_used s) (buffer_capacity s)).

Definition ik_scrollback_get_line_count (s : ik_scrollback) : nat := count s.
Definition ik_scrollback_get_total_physical_lines (s : ik_scrollback) : nat :=
  total_physical_lines s.

(** The offset in the text buffer and the length. *)
Definition ik_scrollback_get_line_text (s : ik_scrollback) (line_index : nat)
  : outcome (nat * nat) :=
  if (count s <=? line_index)%nat then Fail ERR_OUT_OF_RANGE
  else
    let! offset := arr_get (text_offsets s) line_index in
    let! length := arr_get (text_lengths s) line_index in
    Ret (offset, length).

Fixpoint find_row (ls : list ik_line_layout) (n i physical_row current_row : nat)
  : outcome (nat * nat) :=
  match n with
  | 0 => Fail ERR_OUT_OF_RANGE
  | S n =>
      let! l := arr_get ls i in
      if (physical_row <? current_row + physical_lines l)%nat
      then Ret (i, physical_row - current_row)
      else find_row ls n (S i) physical_row (current_row + physical_lines l)
  end.

Definition ik_scrollback_find_logical_line_at_physical_row (s : ik_scrollback)
    (physical_row : nat) : outcome (nat * nat) :=
  if (total_physical_lines s <=? physical_row)%nat then Fail ERR_OUT_OF_RANGE
  else find_row (layouts s) (count s) 0 physical_row 0.

(** The segment arrays of the lines are freed and their pointers cleared. *)
Definition clear_layout (l : ik_line_layout) : ik_line_layout :=
  mk_layout (display_width l) (physical_lines l) (newline_count l) [].

Definition ik_scrollback_clear (s : ik_scrollback) : ik_scrollback :=
  mk_scrollback (text_buffer s) (text_offsets s) (text_lengths s)
    ((clear_layout <$> take (count s) (layouts s)) ++ drop (count s) (layouts s))
    0 (capacity s) (cached_width s) 0 0 (buffer_capacity s).

Fixpoint copy_loop (src : ik_scrollback) (n i : nat) (dest : ik_scrollback)
  : outcome ik_scrollback :=
  match n with
  | 0 => Ret dest
  | S n =>
      let! offset := arr_get (text_offsets src) i in
      let! length := arr_get (text_lengths src) i in
      let! text := mem_read offset length (text_buffer src) in
      let! dest := ik_scrollback_append_line dest text length in
      copy_loop src n (S i) dest
  end.

Definition ik_scrollback_copy_from (dest src : ik_scrollback) : outcome ik_scrollback :=
  copy_loop src (count src) 0 dest.

(** The walk to the display column. *)
Fixpoint column_loop (fuel : nat) (text : list Z) (length display_col pos col : nat)
  : outcome nat :=
  match fuel with
  | 0 => NoFuel
  | S fuel =>
      if (pos <? length)%nat && (col <? display_col)%nat then
        let skip := ik_ansi_skip_csi text length pos in
        if (0 <? skip)%nat then column_loop fuel text length display_col (pos + skip) col
        else
          let '(bytes, cp) := utf8proc_iterate (drop pos text) in
          if (bytes <=? 0)%Z then column_loop fuel text length display_col (S pos) (S col)
          else if (cp =? 10)%Z then
            column_loop fuel text length display_col (pos + Z.to_nat bytes) col
          else
            let width := utf8proc_charwidth cp in
            column_loop fuel text length display_col (pos + Z.to_nat bytes)
              (if (0 <? width)%Z then col + Z.to_nat width else col)
      else Ret pos
  end.

(** ANSI sequences right before the target column. *)
Fixpoint skip_csi_loop (fuel : nat) (text : list Z) (length pos : nat) : outcome nat :=
  match fuel with
  | 0 => NoFuel
  | S fuel =>
      if (pos <? length)%nat then
        let skip := ik_ansi_skip_csi text length pos in
        if (0 <? skip)%nat then skip_csi_loop fuel text length (pos + skip) else Ret pos
      else Ret pos
  end.

Definition ik_scrollback_get_byte_offset_at_display_col (s : ik_scrollback)
    (line_index display_col : nat) : outcome nat :=
  if (count s <=? line_index)%nat then Fail ERR_OUT_OF_RANGE
  else if (display_col =? 0)%nat then Ret 0
  else
    let! offset := arr_get (text_offsets s) line_index in
    let! length := arr_get (text_lengths s) line_index in
    let! text := mem_read offset length (text_buffer s) in
    let! pos := column_loop (S length) text length display_col 0 0 in
    skip_csi_loop (S length) text length pos.

(** ** scrollback_render.c *)

(** The scan over segments: the index reached and the rows into that segment. *)
Fixpoint segment_scan (widths : list nat) (terminal_width n seg_idx rows : nat)
  : outcome (nat * nat) :=
  match n with
  | 0 => Ret (seg_idx, 0)
  | S n =>
      if (0 <? rows)%nat then
        let! w := arr_get widths seg_idx in
        let r := seg_rows terminal_width w in
        if (r <=? rows)%nat then segment_scan widths terminal_width n (S seg_idx) (rows - r)
        else Ret (seg_idx, rows)
      else Ret (seg_idx, 0)
  end.

(** Display columns of the segments before [seg_idx]. *)
Fixpoint sum_widths (widths : list nat) (n s acc : nat) : outcome nat :=
  match n with
  | 0 => Ret acc
  | S n => let! w := arr_get widths s in sum_widths widths n (S s) (acc + w)
  end.

(** The byte after the [n]-th newline from [j] on, [None] when there are
    fewer. *)
Fixpoint after_newline (text : list Z) (rest j n newlines_seen : nat) : option nat :=
  match rest with
  | 0 => None
  | S rest =>
      if (byte_at text j =? 10)%Z then
        if (S newlines_seen =? n)%nat then Some (S j)
        else after_newline text rest (S j) n (S newlines_seen)
      else after_newline text rest (S j) n newlines_seen
  end.

(** The result of get_line_text is ignored ("(void)res"): on an error its
    outputs would be used uninitialised. *)
Definition ignore_error {A} (m : outcome A) : outcome A :=
  match m with Fail _ => Undef | m => m end.

(** Common to both ends: the byte at which [rows] rows of the line are over. *)
Definition byte_after_rows (s : ik_scrollback) (line_index terminal_width rows on_error : nat)
  : outcome nat :=
  let! (offset, line_len) := ignore_error (ik_scrollback_get_line_text s line_index) in
  let! text := mem_read offset line_len (text_buffer s) in
  let! l := arr_get (layouts s) line_index in
  let segment_count := S (newline_count l) in
  let! (seg_idx, partial_rows) :=
    segment_scan (segment_widths l) terminal_width segment_count 0 rows in
  let! cols_in_prev_segments := sum_widths (segment_widths l) seg_idx 0 0 in
  let cols := cols_in_prev_segments + partial_rows * terminal_width in
  match ik_scrollback_get_byte_offset_at_display_col s line_index cols with
  | Fail _ => Ret on_error
  | Ret byte =>
      if (0 <? seg_idx)%nat then
        Ret (default byte (after_newline text line_len 0 seg_idx 0))
      else Ret byte
  | Panic => Panic
  | Undef => Undef
  | NoFuel => NoFuel
  end.

Definition ik_scrollback_calc_start_byte_for_row (s : ik_scrollback)
    (line_index terminal_width start_row_offset : nat) : outcome nat :=
  if (start_row_offset =? 0)%nat then Ret 0
  else byte_after_rows s line_index terminal_width start_row_offset 0.

(** The result is (end byte, is_line_end). *)
Definition ik_scrollback_calc_end_byte_for_row (s : ik_scrollback)
    (line_index terminal_width end_row_offset : nat) : outcome (nat * bool) :=
  let! (_, line_len) := ignore_error (ik_scrollback_get_line_text s line_index) in
  let! l := arr_get (layouts s) line_index in
  if (physical_lines l <=? end_row_offset + 1)%nat then Ret (line_len, true)
  else
    let! byte := byte_after_rows s line_index terminal_width (end_row_offset + 1) line_len in
    Ret (byte, false).

Definition ik_scrollback_calc_byte_range_for_rows (s : ik_scrollback)
    (line_index terminal_width start_row_offset row_count : nat)
  : outcome (nat * nat * bool) :=
  let! start_byte := ik_scrollback_calc_start_byte_for_row s line_index terminal_width
                       start_row_offset in
  let end_row_offset := start_row_offset + row_count - 1 in
  let! (end_byte, is_line_end) :=
    ik_scrollback_calc_end_byte_for_row s line_index terminal_width end_row_offset in
  Ret (start_byte, end_byte, is_line_end).

End operations.

(** ** Lines as glyphs *)

Section glyph_view.
Context `{Utf8proc}.

Definition is_nl (g : glyph) : bool := bool_decide (g = Cp 10).

(** Columns of a glyph in the scrollback: newlines take none. *)
Definition cols (g : glyph) : nat := if is_nl g then 0 else glyph_width g.

Definition newlines (gs : list glyph) : nat := length (filter (fun g => is_nl g = true) gs).

(** The widths between newlines; [w] columns are already in the first. *)
Fixpoint segments (gs : list glyph) (w : nat) : list nat :=
  match gs with
  | [] => [w]
  | g :: gs => if is_nl g then w :: segments gs 0 else segments gs (w + cols g)
  end.

Lemma length_segments gs w : length (segments gs w) = S (newlines gs).
Proof.
  unfold newlines. revert w. induction gs as [|g gs IH]; intros w; [done|]. simpl.
  destruct (is_nl g) eqn:E.
  - rewrite filter_cons_True by done. simpl. by rewrite IH.
  - rewrite filter_cons_False by congruence. apply IH.
Qed.

Lemma sum_segments_cols gs w : sum_list (segments gs w) = w + sum_list (cols <$> gs).
Proof.
  revert w. induction gs as [|g gs IH]; intros w; [done|]. cbn [segments fmap list_fmap].
  rewrite sum_list_cons. destruct (is_nl g) eqn:E; rewrite ?sum_list_cons, IH; [|lia].
  assert (cols g = 0) as -> by (unfold cols; by rewrite E). lia.
Qed.

(** Everything the loops do with a glyph depends on it alone. *)
Lemma sb_width_loop_spec fuel text len pos n :
  (len - pos < fuel)%nat ->
  sb_width_loop fuel text len pos n = Ret (n + sum_list (cols <$> glyphs fuel text len pos)).
Proof.
  revert pos n. induction fuel as [|fuel IH]; intros pos n Hf; [lia|].
  cbn [sb_width_loop glyphs]. destruct (Nat.ltb_spec pos len); [|by rewrite Nat.add_0_r].
  unfold glyph_at. destruct (Nat.ltb_spec 0 (ik_ansi_skip_csi text len pos)).
  { rewrite IH by lia. done. }
  destruct (utf8proc_iterate _) as [bytes cp]. destruct (Z.leb_spec bytes 0).
  { rewrite IH by lia. replace (pos + 1) with (S pos) by lia. cbn [fmap list_fmap].
    rewrite sum_list_cons. change (cols Bad) with 1. f_equal. lia. }
  cbn [fmap list_fmap]. rewrite sum_list_cons.
  assert (cols (Cp cp) = if (cp =? 10)%Z then 0 else Z.to_nat (utf8proc_charwidth cp)) as ->.
  { unfold cols, is_nl. destruct (Z.eqb_spec cp 10) as [->|Hcp]; [done|].
    by rewrite bool_decide_eq_false_2 by congruence. }
  destruct (cp =? 10)%Z; rewrite IH by lia; f_equal; try lia.
  destruct (Z.ltb_spec 0 (utf8proc_charwidth cp)); lia.
Qed.

Lemma newlines_loop_spec fuel text len pos n :
  (len - pos < fuel)%nat ->
  newlines_loop fuel text len pos n = Ret (n + newlines (glyphs fuel text len pos)).
Proof.
  revert pos n. induction fuel as [|fuel IH]; intros pos n Hf; [lia|].
  cbn [newlines_loop glyphs]. unfold newlines in *.
  destruct (Nat.ltb_spec pos len); [|by rewrite Nat.add_0_r].
  unfold glyph_at. destruct (Nat.ltb_spec 0 (ik_ansi_skip_csi text len pos)).
  { rewrite IH by lia. by rewrite filter_cons_False by done. }
  destruct (utf8proc_iterate _) as [bytes cp]. destruct (Z.leb_spec bytes 0).
  { rewrite IH by lia. replace (pos + 1) with (S pos) by lia. by rewrite filter_cons_False by done. }
  rewrite IH by lia. destruct (Z.eqb_spec cp 10) as [->|Hcp].
  - rewrite filter_cons_True by done. simpl. f_equal. lia.
  - rewrite filter_cons_False; [done|]. unfold is_nl. rewrite bool_decide_eq_true. congruence.
Qed.

(** One glyph of the second pass of calculate_layout. *)
Definition layout_step (tw : nat) (s : layout_state) (g : glyph) : outcome layout_state :=
  match g with
  | Csi => Ret s
  | _ =>
      if is_nl g then
        let! ws := arr_set (ls_segment s) (ls_width s) (ls_widths s) in
        Ret (mk_ls ws (ls_physical s + seg_rows tw (ls_width s)) 0 (S (ls_segment s))
               (ls_content s) true)
      else
        Ret (mk_ls (ls_widths s) (ls_physical s) (ls_width s + cols g) (ls_segment s) true false)
  end.

Fixpoint layout_fold (tw : nat) (gs : list glyph) (s : layout_state) : outcome layout_state :=
  match gs with
  | [] => Ret s
  | g :: gs => let! s := layout_step tw s g in layout_fold tw gs s
  end.

Lemma sb_layout_loop_spec fuel text len tw pos s :
  (len - pos < fuel)%nat ->
  sb_layout_loop fuel text len tw pos s = layout_fold tw (glyphs fuel text len pos) s.
Proof.
  revert pos s. induction fuel as [|fuel IH]; intros pos s Hf; [lia|].
  cbn [sb_layout_loop glyphs]. destruct (Nat.ltb_spec pos len); [|done].
  unfold glyph_at. destruct (Nat.ltb_spec 0 (ik_ansi_skip_csi text len pos)).
  { rewrite IH by lia. done. }
  destruct (utf8proc_iterate _) as [bytes cp]. destruct (Z.leb_spec bytes 0).
  { rewrite IH by lia. replace (pos + 1) with (S pos) by lia. cbn [layout_fold layout_step].
    change (is_nl Bad) with false. cbn [obind]. change (cols Bad) with 1.
    by rewrite Nat.add_1_r. }
  cbn [layout_fold layout_step]. unfold is_nl at 1. destruct (Z.eqb_spec cp 10) as [->|Hcp].
  - rewrite bool_decide_eq_true_2 by done. destruct (arr_set _ _ _); [|done..].
    cbn [obind]. by rewrite IH by lia.
  - rewrite bool_decide_eq_false_2 by congruence. cbn [obind]. rewrite IH by lia.
    do 2 f_equal. unfold cols, is_nl. rewrite bool_decide_eq_false_2 by congruence. simpl.
    destruct (Z.ltb_spec 0 (utf8proc_charwidth cp)); lia.
Qed.

(** A glyph that is not a newline or an ANSI sequence was seen; the last one
    that is not an ANSI sequence is a newline. *)
Definition has_content (gs : list glyph) : bool :=
  existsb (fun g => negb (is_nl g) && negb (bool_decide (g = Csi))) gs.
Definition ends_newline (gs : list glyph) : bool :=
  match last (filter (fun g => g <> Csi) gs) with Some g => is_nl g | None => false end.

Definition rows_sum (tw : nat) (ws : list nat) : nat := sum_list (seg_rows tw <$> ws).

Lemma layout_step_nl tw d y r ph w c n g :
  is_nl g = true ->
  layout_step tw (mk_ls (d ++ y :: r) ph w (length d) c n) g
  = Ret (mk_ls ((d ++ [w]) ++ r) (ph + seg_rows tw w) 0 (length (d ++ [w])) c true).
Proof.
  intros Hg. unfold layout_step. rewrite Hg. cbn [ls_segment ls_width ls_widths ls_physical ls_content].
  rewrite arr_set_middle. cbn [obind]. rewrite <- app_assoc, length_app, Nat.add_1_r.
  by destruct g.
Qed.

Lemma layout_step_other tw s g :
  g <> Csi -> is_nl g = false ->
  layout_step tw s g
  = Ret (mk_ls (ls_widths s) (ls_physical s) (ls_width s + cols g) (ls_segment s) true false).
Proof. intros Hc Hg. unfold layout_step. rewrite Hg. by destruct g. Qed.

Lemma layout_fold_spec tw gs d rest w ph c n :
  length rest = S (newlines gs) ->
  exists init wl rest', segments gs w = init ++ [wl] /\ length rest' = 1 /\
    layout_fold tw gs (mk_ls (d ++ rest) ph w (length d) c n)
    = Ret (mk_ls (d ++ init ++ rest') (ph + rows_sum tw init) wl
             (length (d ++ init)) (c || has_content gs)
             (match last (filter (fun g => g <> Csi) gs) with Some g => is_nl g | None => n end)).
Proof.
  revert d rest w ph c n. induction gs as [|g gs IH]; intros d rest w ph c n Hl.
  { exists [], w, rest. rewrite !app_nil_r, orb_false_r. cbn [app]. split_and!; [done|done|].
    unfold rows_sum. simpl. by rewrite Nat.add_0_r. }
  cbn [segments layout_fold]. unfold newlines in *.
  destruct (decide (g = Csi)) as [->|Hg].
  { rewrite filter_cons_False in Hl by done. change (is_nl Csi) with false. cbn [layout_step obind].
    change (cols Csi) with 0. rewrite Nat.add_0_r.
    destruct (IH d rest w ph c n Hl) as (init & wl & r' & Hs & Hr & E).
    exists init, wl, r'. rewrite E. split_and!; [done|done|].
    rewrite filter_cons_False by naive_solver. done. }
  destruct (is_nl g) eqn:Hnl.
  - rewrite filter_cons_True in Hl by done. destruct rest as [|y rest]; [done|].
    cbn [length] in Hl. injection Hl as Hl. rewrite layout_step_nl by done. cbn [obind].
    destruct (IH (d ++ [w]) rest 0 (ph + seg_rows tw w) c true Hl)
      as (init & wl & r' & Hs & Hr & E).
    exists (w :: init), wl, r'. rewrite Hs, E. split_and!; [done|done|].
    rewrite <- !app_assoc. cbn [app]. f_equal. f_equal.
    + unfold rows_sum. cbn [fmap list_fmap]. rewrite sum_list_cons. lia.
    + unfold has_content. cbn [existsb]. by rewrite Hnl.
    + rewrite filter_cons_True by done. rewrite last_cons.
      destruct (last _) eqn:El; [done|]. by rewrite Hnl.
  - rewrite filter_cons_False in Hl by congruence.
    rewrite layout_step_other by done. cbn [obind ls_segment ls_width ls_widths ls_physical].
    destruct (IH d rest (w + cols g) ph true false Hl) as (init & wl & r' & Hs & Hr & E).
    exists init, wl, r'. rewrite E. split_and!; [done|done|]. f_equal. f_equal.
    + unfold has_content. cbn [existsb]. rewrite Hnl, bool_decide_eq_false_2 by done.
      by rewrite orb_true_r.
    + rewrite filter_cons_True by done. rewrite last_cons.
      destruct (last _) eqn:El; [done|]. by rewrite Hnl.
Qed.

End glyph_view.

(** ** Rows of a line *)

Section rows.
Context `{Utf8proc}.

(** The rows calculate_layout computes for a new line. *)
Definition append_rows (tw : nat) (gs : list glyph) : nat :=
  let init := removelast (segments gs 0) in
  let wl := List.last (segments gs 0) 0 in
  let ph := rows_sum tw init in
  if (wl =? 0)%nat && (ph =? 0)%nat then 1
  else if (0 <? wl)%nat then ph + (wl + tw - 1) / tw
  else if ends_newline gs && has_content gs then S ph else ph.

(** The rows ensure_layout computes when the width changes. *)
Definition reflow_rows (tw : nat) (gs : list glyph) : nat := rows_sum tw (segments gs 0).

(** An empty last segment that calculate_layout does not count. *)
Definition uncounted (gs : list glyph) : bool :=
  (0 <? newlines gs)%nat && (List.last (segments gs 0) 0 =? 0)%nat
  && negb (ends_newline gs && has_content gs).

Lemma seg_rows_pos tw w : 0 < tw -> 1 <= seg_rows tw w.
Proof.
  intros Ht. unfold seg_rows. destruct (Nat.eqb_spec w 0); [done|].
  apply Nat.div_le_lower_bound; lia.
Qed.

Lemma rows_sum_app tw l1 l2 : rows_sum tw (l1 ++ l2) = rows_sum tw l1 + rows_sum tw l2.
Proof. unfold rows_sum. by rewrite fmap_app, sum_list_app. Qed.

Lemma rows_sum_pos tw l : 0 < tw -> length l <= rows_sum tw l.
Proof.
  intros Ht. induction l as [|w l IH]; [done|]. unfold rows_sum in *. cbn [fmap list_fmap length].
  rewrite sum_list_cons. pose proof (seg_rows_pos tw w Ht). lia.
Qed.

Lemma segments_snoc gs : exists init wl, segments gs 0 = init ++ [wl].
Proof.
  pose proof (length_segments gs 0). destruct (segments gs 0) as [|w l _] using rev_ind; [done|eauto].
Qed.

Lemma append_reflow tw gs :
  0 < tw -> append_rows tw gs + (if uncounted gs then 1 else 0) = reflow_rows tw gs.
Proof.
  intros Ht. unfold append_rows, reflow_rows, uncounted.
  pose proof (length_segments gs 0) as Hl.
  destruct (segments_snoc gs) as (init & wl & E). rewrite E in *.
  rewrite removelast_last, List.last_last, rows_sum_app.
  rewrite length_app in Hl. cbn [length] in Hl. pose proof (rows_sum_pos tw init Ht) as Hr.
  assert (rows_sum tw [wl] = seg_rows tw wl) as -> by (unfold rows_sum; simpl; lia).
  unfold seg_rows. destruct (Nat.eqb_spec wl 0) as [->|Hwl].
  - rewrite Nat.ltb_irrefl, andb_true_r. cbn [andb].
    destruct (Nat.eqb_spec (rows_sum tw init) 0).
    + rewrite (proj2 (Nat.ltb_ge 0 (newlines gs))) by lia. cbn [andb]. lia.
    + destruct (Nat.ltb_spec 0 (newlines gs)).
      * cbn [andb]. destruct (ends_newline gs && has_content gs); cbn [negb]; lia.
      * destruct init; [unfold rows_sum in *; simpl in *; lia|simpl in Hl; lia].
  - cbn [andb]. rewrite andb_false_r. cbn [andb]. rewrite (proj2 (Nat.ltb_lt 0 wl)) by lia. lia.
Qed.

Lemma append_rows_pos tw gs : 0 < tw -> 1 <= append_rows tw gs.
Proof.
  intros Ht. unfold append_rows.
  destruct (segments_snoc gs) as (init & wl & E). rewrite E, removelast_last, List.last_last.
  destruct (Nat.eqb_spec wl 0) as [->|Hwl]; cbn [andb].
  - rewrite Nat.ltb_irrefl. destruct (Nat.eqb_spec (rows_sum tw init) 0); [done|]. destruct (_ && _); lia.
  - rewrite (proj2 (Nat.ltb_lt 0 wl)) by lia.
    assert (1 <= (wl + tw - 1) / tw); [|lia]. apply Nat.div_le_lower_bound; lia.
Qed.

Lemma reflow_rows_pos tw gs : 0 < tw -> 1 <= reflow_rows tw gs.
Proof.
  intros Ht. unfold reflow_rows. pose proof (rows_sum_pos tw (segments gs 0) Ht).
  rewrite length_segments in *. lia.
Qed.

Context `{!SlotAllocator} `{!SlotAllocatorSpec}.

Lemma calculate_layout_spec text (w : Z) :
  ik_scrollback_calculate_layout text (length text) w
  = Ret (mk_layout (sum_list (cols <$> glyphs_of text)) (append_rows (Z.to_nat w) (glyphs_of text))
           (newlines (glyphs_of text)) (segments (glyphs_of text) 0)).
Proof.
  unfold ik_scrollback_calculate_layout, ik_scrollback_count_newlines,
    ik_scrollback_calculate_display_width.
  rewrite newlines_loop_spec, sb_width_loop_spec by lia. cbn [obind Nat.add].
  fold (glyphs_of text). destruct (alloc_slots_some 0 (S (newlines (glyphs_of text)))) as (l & -> & Hl).
  cbn [or_oom obind]. rewrite sb_layout_loop_spec by lia. fold (glyphs_of text).
  destruct (layout_fold_spec (Z.to_nat w) (glyphs_of text) [] l 0 0 false false Hl)
    as (init & wl & r & Hs & Hr & E).
  cbn [app length] in E. rewrite E. cbn [obind ls_segment ls_width ls_widths ls_physical ls_newline ls_content orb].
  destruct r as [|x [|]]; [done| |done]. rewrite arr_set_middle. cbn [obind].
  unfold append_rows. rewrite Hs, removelast_last, List.last_last. cbn [Nat.add]. done.
Qed.

End rows.

(** ** Representation *)

Section representation.
Context `{!Utf8proc} `{!Allocator} `{!AllocatorSpec} `{!SlotAllocator} `{!SlotAllocatorSpec}.

(** The text buffer: each line followed by its terminator. *)
Definition packed (lines : list (list Z)) : list Z := lines ≫= (fun t => t ++ [0%Z]).

Lemma packed_app l1 l2 : packed (l1 ++ l2) = packed l1 ++ packed l2.
Proof. unfold packed. by rewrite bind_app. Qed.

Lemma packed_one t : packed [t] = t ++ [0%Z].
Proof. unfold packed. simpl. by rewrite app_nil_r. Qed.

(** Where each line starts. *)
Definition offsets_of (lines : list (list Z)) : list nat :=
  (fun i => length (packed (take i lines))) <$> seq 0 (length lines).

Lemma offsets_snoc lines t : offsets_of (lines ++ [t]) = offsets_of lines ++ [length (packed lines)].
Proof.
  unfold offsets_of. rewrite length_app, seq_app, fmap_app. cbn [length seq fmap list_fmap Nat.add].
  rewrite take_app_length. f_equal. apply list_fmap_ext. intros i x Hi.
  apply lookup_seq in Hi as [-> Hi]. cbn [Nat.add]. by rewrite take_app_le by lia.
Qed.

Lemma length_offsets lines : length (offsets_of lines) = length lines.
Proof. unfold offsets_of. by rewrite length_fmap, length_seq. Qed.

(** The layout of a line at the cached width: everything but the rows is
    determined by the text; the rows are those of an append or of a reflow. *)
Record line_ok (tw : nat) (t : list Z) (l : ik_line_layout) : Prop := {
  line_width : display_width l = sum_list (cols <$> glyphs_of t);
  line_newlines : newline_count l = newlines (glyphs_of t);
  line_segments : segment_widths l = segments (glyphs_of t) 0;
  line_rows_ok : physical_lines l = append_rows tw (glyphs_of t) \/
              physical_lines l = reflow_rows tw (glyphs_of t)
}.

Definition rows_total (ls : list ik_line_layout) : nat := sum_list (physical_lines <$> ls).

Record sb_rep (s : ik_scrollback) (lines : list (list Z)) (ls : list ik_line_layout) : Prop := {
  sb_count : count s = length lines;
  sb_offsets : exists r, text_offsets s = offsets_of lines ++ r;
  sb_lengths : exists r, text_lengths s = (length <$> lines) ++ r;
  sb_layouts : exists r, layouts s = ls ++ r;
  sb_lines : Forall2 (line_ok (Z.to_nat (cached_width s))) lines ls;
  sb_total : total_physical_lines s = rows_total ls;
  sb_width : (0 < cached_width s)%Z;
  sb_slots : length (text_offsets s) = capacity s /\ length (text_lengths s) = capacity s /\
             length (layouts s) = capacity s /\ 0 < capacity s;
  sb_used : buffer_used s = length (packed lines);
  sb_buffer : length (text_buffer s) = buffer_capacity s /\ 0 < buffer_capacity s;
  sb_text : exists r, text_buffer s = packed lines ++ r
}.

(** Sizes far enough from 2^64. *)
Definition fits (s : ik_scrollback) (len : nat) : Prop :=
  (Z.of_nat (capacity s) < 2 ^ 62)%Z /\
  (Z.of_nat (buffer_capacity s + buffer_used s + len + 1) < 2 ^ 62)%Z.

Lemma grow_lines_ok s lines ls len :
  sb_rep s lines ls -> fits s len ->
  exists s', grow_lines s = Ret s' /\ sb_rep s' lines ls /\ count s' < capacity s' /\
    capacity s' <= Nat.max (capacity s) (2 * length lines) /\
    buffer_capacity s' = buffer_capacity s /\ buffer_used s' = buffer_used s /\
    cached_width s' = cached_width s.
Proof.
  intros Hr [Hcap _]. pose proof Hr as [Hc [ro Ho] [rl Hle] [ry Hy] Hl Ht Hw (Hs1 & Hs2 & Hs3 & Hs4) Hu Hb Htx].
  unfold grow_lines. destruct (Nat.leb_spec (capacity s) (count s)) as [Hfull|Hroom].
  2: { exists s. split_and!; try done; lia. }
  assert (capacity s = length lines) as Hcl.
  { rewrite Ho, length_app, length_offsets in Hs1. lia. }
  rewrite wrap64_small by lia.
  destruct (realloc_slots_some (text_offsets s) (capacity s * 2)) as (r1 & -> & L1); [lia|].
  destruct (realloc_slots_some (text_lengths s) (capacity s * 2)) as (r2 & -> & L2); [lia|].
  destruct (realloc_slots_some (layouts s) (capacity s * 2)) as (r3 & -> & L3); [lia|].
  cbn [or_oom obind]. eexists. split; [reflexivity|]. split; [|simpl; split_and!; lia].
  constructor; simpl; try done.
  - exists (ro ++ r1). by rewrite Ho, <- app_assoc.
  - exists (rl ++ r2). by rewrite Hle, <- app_assoc.
  - exists (ry ++ r3). by rewrite Hy, <- app_assoc.
  - split_and!; lia.
Qed.

Lemma grow_text_ok s lines ls len :
  sb_rep s lines ls -> (Z.of_nat (buffer_capacity s + buffer_used s + len + 1) < 2 ^ 62)%Z ->
  exists s', grow_text s len = Ret s' /\ sb_rep s' lines ls /\
    buffer_used s' + len + 1 <= buffer_capacity s' /\
    buffer_capacity s' <= Nat.max (buffer_capacity s) (2 * (buffer_used s + len + 1)) /\
    count s' = count s /\ capacity s' = capacity s /\ buffer_used s' = buffer_used s /\
    cached_width s' = cached_width s.
Proof.
  intros Hr Hb. pose proof Hr as [Hc Ho Hle Hy Hl Ht Hw Hsl Hu [Hbc Hbp] [rt Htx]].
  unfold grow_text. rewrite (wrap64_small (buffer_used s + len + 1)) by lia.
  destruct (Nat.ltb_spec (buffer_capacity s) (buffer_used s + len + 1)).
  2: { exists s. split_and!; try done; lia. }
  rewrite wrap64_small by lia.
  destruct (double_until_ok 64 (buffer_used s + len + 1) (buffer_capacity s * 2))
    as (c & -> & Hc1 & Hc2); [lia| |lia|lia|].
  { assert (Z.of_nat (buffer_used s + len + 1) <= Z.of_nat (buffer_capacity s * 2 * 2 ^ 64))%Z;
      [|lia]. rewrite Nat2Z.inj_mul, Nat2Z.inj_pow. lia. }
  cbn [obind]. destruct (realloc_some (text_buffer s) c) as [b Hb']. rewrite Hb'. cbn [or_oom obind].
  pose proof (realloc_length _ _ _ Hb') as Hlen.
  assert (length (text_buffer s) <= c) as Hge by lia.
  pose proof (realloc_prefix _ _ _ Hb' Hge) as Hpre.
  eexists. split; [reflexivity|]. split; [|simpl; split_and!; lia].
  constructor; simpl; try done; [split; lia|].
  exists (rt ++ drop (length (text_buffer s)) b).
  rewrite app_assoc, <- Htx. transitivity (take (length (text_buffer s)) b ++ drop (length (text_buffer s)) b);
    [by rewrite take_drop|by rewrite Hpre].
Qed.

Lemma append_line_ok s lines ls text :
  sb_rep s lines ls -> fits s (length text) ->
  exists s' l, ik_scrollback_append_line s text (length text) = Ret s' /\
    sb_rep s' (lines ++ [text]) (ls ++ [l]) /\
    l = mk_layout (sum_list (cols <$> glyphs_of text))
          (append_rows (Z.to_nat (cached_width s)) (glyphs_of text))
          (newlines (glyphs_of text)) (segments (glyphs_of text) 0) /\
    cached_width s' = cached_width s /\
    capacity s' <= Nat.max (capacity s) (2 * length lines) /\
    buffer_capacity s' <= Nat.max (buffer_capacity s) (2 * (buffer_used s + length text + 1)) /\
    buffer_used s' = buffer_used s + length text + 1.
Proof.
  intros Hr Hfit. unfold ik_scrollback_append_line.
  destruct (grow_lines_ok _ _ _ _ Hr Hfit) as (s1 & -> & Hr1 & Hroom & Hcap1 & Hbc1 & Hbu1 & Hcw1).
  cbn [obind].
  destruct Hfit as [_ Hfit]. rewrite <- Hbc1, <- Hbu1 in Hfit.
  destruct (grow_text_ok _ _ _ _ Hr1 Hfit)
    as (s2 & -> & Hr2 & Hspace & Hbc2 & Hct2 & Hcap2 & Hbu2 & Hcw2). cbn [obind].
  pose proof Hr2 as [Hc [ro Ho] [rl Hle] [ry Hy] Hl Ht Hw (Hs1 & Hs2 & Hs3 & Hs4) Hu [Hbl Hbp] [rt Htx]].
  pose proof (Forall2_length _ _ _ Hl) as Hll.
  assert (count s2 < capacity s2) as Hlt by lia.
  assert (ro <> [] /\ rl <> [] /\ ry <> []) as (Hro & Hrl & Hry).
  { rewrite Ho, length_app, length_offsets in Hs1. rewrite Hle, length_app, length_fmap in Hs2.
    rewrite Hy, length_app in Hs3.
    split_and!; intros ->; simpl in *; lia. }
  rewrite Ho, Hle, Hy, Hc, Hu.
  pose proof (arr_set_end (length (packed lines)) (offsets_of lines) ro Hro) as E1.
  pose proof (arr_set_end (length text) (length <$> lines) rl Hrl) as E2.
  rewrite length_offsets in E1. rewrite length_fmap in E2.
  rewrite E1. cbn [obind]. rewrite E2. cbn [obind].
  rewrite Htx, length_app in Hbl.
  destruct (split_at (length text) rt) as (old & r0 & -> & Hold & _); [lia|].
  rewrite Htx. rewrite length_app in Hbl.
  assert ((if (0 <? length text)%nat
           then mem_write (length (packed lines)) (take (length text) text) (packed lines ++ old ++ r0)
           else Ret (packed lines ++ old ++ r0))
          = Ret (packed lines ++ text ++ r0)) as ->.
  { rewrite firstn_all. destruct (Nat.ltb_spec 0 (length text)) as [|Hz].
    - by apply mem_write_app.
    - destruct text; [|simpl in Hz; lia]. by destruct old. }
  cbn [obind]. destruct r0 as [|b0 r0]; [simpl in *; lia|].
  rewrite app_assoc, <- length_app.
  assert (mem_write (length (packed lines ++ text)) [0%Z] ((packed lines ++ text) ++ b0 :: r0)
          = Ret ((packed lines ++ text) ++ [0%Z] ++ r0)) as ->
    by (by apply (mem_write_app _ [0%Z] _ [b0] r0)).
  cbn [obind]. rewrite firstn_all, calculate_layout_spec. cbn [obind].
  rewrite Hcw2, Hcw1 in *.
  match goal with |- context [arr_set _ ?l (ls ++ ry)] =>
    pose proof (arr_set_end l ls ry Hry) as E3 end.
  rewrite <- Hll in E3. rewrite E3. cbn [obind].
  assert (packed (lines ++ [text]) = (packed lines ++ text) ++ [0%Z]) as Hpk
    by (by rewrite packed_app, packed_one, app_assoc).
  eexists _, _. split; [reflexivity|]. split; [|split; [reflexivity|]].
  2: { simpl. rewrite !length_app. split_and!; [congruence|lia|lia|lia]. }
  constructor; simpl; try done.
  - rewrite length_app. simpl. lia.
  - exists (drop 1 ro). by rewrite offsets_snoc.
  - exists (drop 1 rl). by rewrite fmap_app.
  - by eexists.
  - apply Forall2_app; [done|]. constructor; [|done]. constructor; simpl; auto.
  - unfold rows_total. rewrite fmap_app, sum_list_app. simpl. unfold rows_total in Ht. rewrite Ht. lia.
  - rewrite Ho in Hs1. rewrite Hle in Hs2. rewrite Hy in Hs3.
    rewrite !length_app in *. rewrite !length_drop. cbn [length] in *.
    destruct ro, rl, ry; try done; simpl in *; split_and!; lia.
  - rewrite Hpk, !length_app. simpl. lia.
  - rewrite !length_app in *. simpl in *. split; lia.
  - exists r0. by rewrite Hpk, <- !app_assoc.
Qed.

End representation.

(** ** Reading, resizing and clearing *)

Section queries.
Context `{!Utf8proc} `{!Allocator} `{!AllocatorSpec} `{!SlotAllocator} `{!SlotAllocatorSpec}.

Lemma sum_segments_spec w1 w2 tw acc :
  sum_segments (w1 ++ w2) tw (length w2) (length w1) acc = Ret (acc + rows_sum tw w2).
Proof.
  revert w1 acc. induction w2 as [|w w2 IH]; intros w1 acc; cbn [sum_segments length].
  { unfold rows_sum. simpl. by rewrite Nat.add_0_r. }
  rewrite arr_get_app. cbn [obind]. specialize (IH (w1 ++ [w])).
  rewrite <- app_assoc, length_app, Nat.add_1_r in IH. cbn [app] in IH. rewrite IH.
  f_equal. unfold rows_sum. cbn [fmap list_fmap]. rewrite sum_list_cons. lia.
Qed.

Definition reflowed (tw : nat) (l : ik_line_layout) : ik_line_layout :=
  mk_layout (display_width l) (rows_sum tw (segment_widths l)) (newline_count l)
    (segment_widths l).

Lemma rows_total_nil : rows_total [] = 0.
Proof. done. Qed.

Lemma rows_total_one l : rows_total [l] = physical_lines l.
Proof. apply Nat.add_0_r. Qed.

Lemma rows_total_cons l ls : rows_total (l :: ls) = physical_lines l + rows_total ls.
Proof. done. Qed.

Lemma rows_total_app l1 l2 : rows_total (l1 ++ l2) = rows_total l1 + rows_total l2.
Proof. unfold rows_total. by rewrite fmap_app, sum_list_app. Qed.

Lemma reflow_loop_spec tw d ls r total :
  Forall (fun l => length (segment_widths l) = S (newline_count l)) ls ->
  reflow_loop tw (length ls) (length d) (d ++ ls ++ r) total
  = Ret (d ++ (reflowed tw <$> ls) ++ r, total + rows_total (reflowed tw <$> ls)).
Proof.
  revert d total. induction ls as [|l ls IH]; intros d total Hl; cbn [reflow_loop length].
  { unfold rows_total. simpl. by rewrite Nat.add_0_r. }
  apply Forall_cons in Hl as [Hlen Hl]. cbn [app]. rewrite arr_get_app. cbn [obind].
  pose proof (sum_segments_spec [] (segment_widths l) tw 0) as E. cbn [app length Nat.add] in E.
  rewrite <- Hlen, E. cbn [obind]. rewrite arr_set_middle. cbn [obind].
  specialize (IH (d ++ [reflowed tw l]) (total + rows_sum tw (segment_widths l)) Hl).
  rewrite <- app_assoc, length_app, Nat.add_1_r in IH. cbn [app] in IH.
  unfold reflowed in IH at 1. rewrite IH. cbn [fmap list_fmap]. rewrite <- app_assoc.
  rewrite rows_total_cons. cbn [app physical_lines reflowed]. do 2 f_equal. lia.
Qed.

Lemma ensure_layout_ok s lines ls w :
  sb_rep s lines ls -> (0 < w)%Z ->
  exists s' ls', ik_scrollback_ensure_layout s w = Ret s' /\ sb_rep s' lines ls' /\
    cached_width s' = w /\
    (w = cached_width s -> s' = s /\ ls' = ls) /\
    (w <> cached_width s -> ls' = reflowed (Z.to_nat w) <$> ls) /\
    capacity s' = capacity s /\ buffer_capacity s' = buffer_capacity s /\
    buffer_used s' = buffer_used s.
Proof.
  intros Hr Hw. unfold ik_scrollback_ensure_layout. rewrite (proj2 (Z.ltb_lt _ _)) by done.
  destruct (Z.eqb_spec w (cached_width s)) as [->|Hne]; [exists s, ls; by split_and!|].
  pose proof Hr as [Hc Ho Hle [ry Hy] Hl Ht Hcw (Hs1 & Hs2 & Hs3 & Hs4) Hu Hb Htx].
  pose proof (Forall2_length _ _ _ Hl) as Hll. rewrite Hy, Hc, Hll.
  pose proof (reflow_loop_spec (Z.to_nat w) [] ls ry 0) as E. cbn [app length Nat.add] in E.
  rewrite E; clear E.
  2: { apply Forall_forall. intros l Hin. apply list_elem_of_lookup_1 in Hin as [i Hi].
       destruct (Forall2_lookup_r _ _ _ _ _ Hl Hi) as (t & _ & [_ Hn Hsg _]).
       by rewrite Hsg, Hn, length_segments. }
  cbn [obind]. eexists _, _. split; [reflexivity|]. split_and!; try done.
  constructor; simpl; try done.
  - by exists ry.
  - apply Forall2_fmap_r. eapply Forall2_impl; [exact Hl|].
    intros t l [Hd Hn Hsg _]. constructor; simpl; try done. right. by rewrite Hsg.
  - rewrite Hy, length_app in Hs3. rewrite length_app, length_fmap. split_and!; lia.
Qed.

Lemma clear_ok s lines ls :
  sb_rep s lines ls -> sb_rep (ik_scrollback_clear s) [] [].
Proof.
  intros [Hc Ho Hle [ry Hy] Hl Ht Hcw (Hs1 & Hs2 & Hs3 & Hs4) Hu Hb Htx].
  constructor; simpl; try done; try (by eexists).
  rewrite length_app, length_fmap, length_take, length_drop. split_and!; lia.
Qed.

Lemma create_sb_ok w :
  (0 < w)%Z ->
  exists s, ik_scrollback_create w = Ret s /\ sb_rep s [] [] /\ cached_width s = w /\
    capacity s = 16 /\ buffer_capacity s = 1024 /\ buffer_used s = 0.
Proof.
  intros Hw. unfold ik_scrollback_create. rewrite (proj2 (Z.ltb_lt _ _)) by done.
  destruct (alloc_slots_some 0 16) as (l1 & -> & L1).
  destruct (alloc_slots_some (mk_layout 0 0 0 []) 16) as (l2 & -> & L2).
  cbn [or_panic obind].
  destruct (realloc_some [] 1024) as [b Hb]. rewrite Hb. cbn [or_panic obind].
  pose proof (realloc_length _ _ _ Hb) as Hlen.
  eexists. split; [reflexivity|]. split_and!; try done.
  constructor; simpl; try done; try (by eexists); split_and!; done || lia.
Qed.

Lemma offset_of lines i t :
  lines !! i = Some t -> offsets_of lines !! i = Some (length (packed (take i lines))).
Proof.
  intros Hi. unfold offsets_of. rewrite list_lookup_fmap, lookup_seq_lt by (by eapply lookup_lt_Some).
  done.
Qed.

(** A line's bytes in the packed buffer. *)
Lemma packed_line lines i t r :
  lines !! i = Some t ->
  mem_read (length (packed (take i lines))) (length t) (packed lines ++ r) = Ret t.
Proof.
  intros Hi. rewrite <- (take_drop_middle lines i t Hi) at 2.
  rewrite packed_app. change (t :: drop (S i) lines) with ([t] ++ drop (S i) lines).
  rewrite packed_app, packed_one, <- !app_assoc. by apply mem_read_app.
Qed.

Lemma get_line_text_ok s lines ls i t :
  sb_rep s lines ls -> lines !! i = Some t ->
  ik_scrollback_get_line_text s i = Ret (length (packed (take i lines)), length t) /\
  arr_get (text_offsets s) i = Ret (length (packed (take i lines))) /\
  arr_get (text_lengths s) i = Ret (length t) /\
  mem_read (length (packed (take i lines))) (length t) (text_buffer s) = Ret t.
Proof.
  intros [Hc [ro Ho] [rl Hle] [ry Hy] Hl Ht Hcw _ Hu Hb [rt Htx]] Hi.
  pose proof (lookup_lt_Some _ _ _ Hi). unfold ik_scrollback_get_line_text.
  rewrite (proj2 (Nat.leb_gt _ _)) by lia. rewrite Ho, Hle, Htx.
  rewrite (arr_get_lookup _ ro i _ (offset_of _ _ _ Hi)).
  rewrite (arr_get_lookup (length <$> lines) rl i (length t)) by (by rewrite list_lookup_fmap, Hi).
  split_and!; [done|done|done|]. by apply packed_line.
Qed.

Lemma find_row_spec d ls r row :
  rows_total d <= row < rows_total d + rows_total ls ->
  exists i off l, find_row (d ++ ls ++ r) (length ls) (length d) row (rows_total d)
                  = Ret (length d + i, off) /\
    ls !! i = Some l /\ off < physical_lines l /\ rows_total d + rows_total (take i ls) + off = row.
Proof.
  revert d. induction ls as [|l ls IH]; intros d Hrow; [rewrite rows_total_nil in Hrow; lia|].
  cbn [find_row length app]. rewrite arr_get_app. cbn [obind].
  rewrite rows_total_cons in Hrow.
  destruct (Nat.ltb_spec row (rows_total d + physical_lines l)).
  - exists 0, (row - rows_total d), l. rewrite Nat.add_0_r. cbn [take].
    rewrite rows_total_nil. split_and!; try done; lia.
  - destruct (IH (d ++ [l])) as (i & off & l' & E & Hi & Ho & Hs);
      [rewrite rows_total_app, rows_total_one; lia|].
    rewrite <- app_assoc, length_app, Nat.add_1_r in E. cbn [app] in E.
    rewrite rows_total_app, rows_total_one in E, Hs.
    exists (S i), off, l'. rewrite E. cbn [take].
    rewrite rows_total_cons. split_and!; [f_equal; f_equal; lia|done|done|lia].
Qed.

Lemma find_line_ok s lines ls row :
  sb_rep s lines ls -> row < total_physical_lines s ->
  exists i off l, ik_scrollback_find_logical_line_at_physical_row s row = Ret (i, off) /\
    ls !! i = Some l /\ off < physical_lines l /\ rows_total (take i ls) + off = row.
Proof.
  intros [Hc Ho Hle [ry Hy] Hl Ht Hcw _ Hu Hb Htx] Hrow.
  unfold ik_scrollback_find_logical_line_at_physical_row.
  rewrite (proj2 (Nat.leb_gt _ _)) by lia. rewrite Hc, (Forall2_length _ _ _ Hl), Hy.
  destruct (find_row_spec [] ls ry row) as (i & off & l & E & H'); [rewrite rows_total_nil; lia|].
  exists i, off, l. split; [exact E|exact H'].
Qed.

(** Capacities never exceed [C] slots and [B] bytes while twice what is stored
    stays below them. *)
Definition within (C B : nat) (s : ik_scrollback) : Prop :=
  capacity s <= C /\ buffer_capacity s <= B.

Lemma append_within C B s lines ls text :
  sb_rep s lines ls -> within C B s ->
  2 * length lines <= C -> (Z.of_nat C < 2 ^ 61)%Z ->
  2 * (buffer_used s + length text + 1) <= B -> (Z.of_nat B < 2 ^ 61)%Z ->
  exists s' l, ik_scrollback_append_line s text (length text) = Ret s' /\
    sb_rep s' (lines ++ [text]) (ls ++ [l]) /\
    l = mk_layout (sum_list (cols <$> glyphs_of text))
          (append_rows (Z.to_nat (cached_width s)) (glyphs_of text))
          (newlines (glyphs_of text)) (segments (glyphs_of text) 0) /\
    cached_width s' = cached_width s /\ within C B s' /\
    buffer_used s' = buffer_used s + length text + 1.
Proof.
  intros Hr [Hc Hb] HlC HC HB HB'.
  destruct (append_line_ok s lines ls text Hr) as (s' & l & E & Hr' & El & Hw & Hc' & Hb' & Hu).
  { split; lia. }
  exists s', l. split_and!; try done; unfold within; lia.
Qed.

Lemma copy_loop_ok C B src slines sls n i dest dlines dls :
  sb_rep src slines sls -> sb_rep dest dlines dls -> i + n = length slines ->
  within C B dest -> 2 * (length dlines + n) <= C -> (Z.of_nat C < 2 ^ 61)%Z ->
  2 * (buffer_used dest + length (packed (drop i slines))) <= B -> (Z.of_nat B < 2 ^ 61)%Z ->
  exists dest' dls', copy_loop src n i dest = Ret dest' /\
    sb_rep dest' (dlines ++ drop i slines) dls' /\ cached_width dest' = cached_width dest /\ within C B dest'.
Proof.
  intros Hsrc. revert i dest dlines dls.
  induction n as [|n IH]; intros i dest dlines dls Hd Hi Hwi HlC HC HlB HB; cbn [copy_loop].
  { rewrite drop_ge, app_nil_r by lia. by eexists _, _. }
  destruct (lookup_lt_is_Some_2 slines i) as [t Ht]; [lia|].
  destruct (get_line_text_ok src slines sls i t Hsrc Ht) as (_ & -> & -> & E).
  cbn [obind]. rewrite E. cbn [obind].
  rewrite (drop_S _ _ _ Ht) in HlB |- *.
  change (t :: drop (S i) slines) with ([t] ++ drop (S i) slines) in HlB |- *.
  rewrite packed_app, packed_one, !length_app in HlB. cbn [length] in HlB.
  destruct (append_within C B dest dlines dls t Hd Hwi) as (d' & l & -> & Hd' & _ & Hw' & Hwi' & Hu');
    [lia|done|lia|done|].
  cbn [obind]. rewrite app_assoc, <- Hw'.
  eapply IH; [exact Hd'|lia|done|rewrite length_app; simpl; lia|done|lia|done].
Qed.

End queries.

(** ** Sequences of operations *)

Inductive sb_op : Type :=
| SbAppend (text : list Z)
| SbResize (terminal_width : Z)
| SbClear.

Section runs.
Context `{!Utf8proc} `{!Allocator} `{!SlotAllocator}.

Definition sb_step (s : ik_scrollback) (op : sb_op) : outcome ik_scrollback :=
  match op with
  | SbAppend text => ik_scrollback_append_line s text (length text)
  | SbResize w => ik_scrollback_ensure_layout s w
  | SbClear => Ret (ik_scrollback_clear s)
  end.

Fixpoint sb_run (s : ik_scrollback) (ops : list sb_op) : outcome ik_scrollback :=
  match ops with
  | [] => Ret s
  | op :: ops => let! s := sb_step s op in sb_run s ops
  end.

(** What the operations mean: a list of lines and a width. *)
Definition sb_lines_step (lines : list (list Z)) (op : sb_op) : list (list Z) :=
  match op with
  | SbAppend text => lines ++ [text]
  | SbResize _ => lines
  | SbClear => []
  end.

Definition sb_lines_of (ops : list sb_op) : list (list Z) := fold_left sb_lines_step ops [].

Definition op_bytes (op : sb_op) : nat :=
  match op with SbAppend text => S (length text) | _ => 0 end.
Definition op_ok (op : sb_op) : Prop := match op with SbResize w => (0 < w)%Z | _ => True end.

#[export] Instance op_ok_dec op : Decision (op_ok op).
Proof. destruct op; apply _. Defined.

(** Positive widths, and far fewer lines and bytes than 2^64. *)
Definition ops_ok (ops : list sb_op) : Prop :=
  Forall op_ok ops /\ (Z.of_nat (length ops) < 2 ^ 58)%Z /\
  (Z.of_nat (sum_list (op_bytes <$> ops)) < 2 ^ 58)%Z.

(** The rows of each line, as the layouts of the buffer have them. *)
Definition line_rows (s : ik_scrollback) : list nat := physical_lines <$> take (count s) (layouts s).

Context `{!AllocatorSpec} `{!SlotAllocatorSpec}.

Lemma line_rows_rep s lines ls : sb_rep s lines ls -> line_rows s = physical_lines <$> ls.
Proof.
  intros [Hc _ _ [r Hy] Hl _ _ _ _ _ _]. unfold line_rows.
  by rewrite Hc, Hy, (Forall2_length _ _ _ Hl), take_app_length.
Qed.

Lemma sb_run_ok C B ops s lines ls :
  Forall op_ok ops -> sb_rep s lines ls -> within C B s ->
  2 * (length lines + length ops) <= C -> (Z.of_nat C < 2 ^ 61)%Z ->
  2 * (buffer_used s + sum_list (op_bytes <$> ops)) <= B -> (Z.of_nat B < 2 ^ 61)%Z ->
  exists s' ls', sb_run s ops = Ret s' /\ sb_rep s' (fold_left sb_lines_step ops lines) ls' /\
    within C B s'.
Proof.
  intros Hop. revert s lines ls. induction Hop as [|op ops Hop _ IH]; intros s lines ls Hr Hw HlC HC HlB HB.
  { by exists s, ls. }
  cbn [sb_run fold_left fmap list_fmap] in *. rewrite sum_list_cons in HlB. cbn [length] in HlC.
  destruct op as [text|w|]; cbn [sb_step sb_lines_step op_bytes op_ok] in *.
  - destruct (append_within C B s lines ls text Hr Hw) as (s' & l & -> & Hr' & _ & _ & Hw' & Hu);
      [lia|done|lia|done|].
    cbn [obind]. eapply IH; [exact Hr'|done|rewrite length_app; simpl; lia|done|lia|done].
  - destruct (ensure_layout_ok s lines ls w Hr Hop) as (s' & ls' & -> & Hr' & _ & _ & _ & Ec & Eb & Eu).
    destruct Hw. cbn [obind]. eapply IH; [exact Hr'|by split; rewrite ?Ec, ?Eb|lia|done|rewrite Eu; lia|done].
  - cbn [obind]. eapply IH; [exact (clear_ok _ _ _ Hr)|exact Hw|simpl; lia|done|simpl; lia|done].
Qed.

(** Every run from a new buffer reaches a buffer that represents its lines. *)
Lemma sb_reach w ops :
  (0 < w)%Z -> ops_ok ops ->
  exists s0 s ls, ik_scrollback_create w = Ret s0 /\ sb_run s0 ops = Ret s /\
    sb_rep s (sb_lines_of ops) ls /\
    within (16 + 2 * length ops) (1024 + 2 * sum_list (op_bytes <$> ops)) s.
Proof.
  intros Hw (Hop & Hn & Hb). destruct (create_sb_ok w Hw) as (s0 & E & Hr & _ & Ec & Eb & Eu).
  destruct (sb_run_ok (16 + 2 * length ops) (1024 + 2 * sum_list (op_bytes <$> ops)) ops s0 [] [])
    as (s & ls & E' & Hr' & Hwi); try done; try (simpl; lia).
  { unfold within. lia. }
  by exists s0, s, ls.
Qed.

(** The buffer after [ops] at an initial width. *)
Definition sb_after (w : Z) (ops : list sb_op) : outcome ik_scrollback :=
  let! s := ik_scrollback_create w in sb_run s ops.

Lemma sb_after_rep w ops s :
  (0 < w)%Z -> ops_ok ops -> sb_after w ops = Ret s ->
  exists ls, sb_rep s (sb_lines_of ops) ls /\
    within (16 + 2 * length ops) (1024 + 2 * sum_list (op_bytes <$> ops)) s.
Proof.
  intros Hw Hok. destruct (sb_reach w ops Hw Hok) as (s0 & s' & ls & E & E' & Hr).
  unfold sb_after. rewrite E. cbn [obind]. rewrite E'. intros [= ->]. by exists ls.
Qed.

End runs.

(** ** Rows of the whole buffer *)

Section row_arithmetic.

(** A row belongs to one line only. *)
Lemma prefix_sum_unique (l : list nat) i j a b x y :
  l !! i = Some a -> l !! j = Some b -> x < a -> y < b ->
  sum_list (take i l) + x = sum_list (take j l) + y -> i = j /\ x = y.
Proof.
  revert i j. induction l as [|c l IH]; intros [|i] [|j] Hi Hj Hx Hy Hs; simplify_eq/=; try done; try lia.
  destruct (IH i j Hi Hj Hx Hy) as [-> ->]; [lia|done].
Qed.

Lemma rows_total_sum ls : rows_total ls = sum_list (physical_lines <$> ls).
Proof. done. Qed.

Lemma rows_total_take ls i : rows_total (take i ls) = sum_list (take i (physical_lines <$> ls)).
Proof. unfold rows_total. by rewrite fmap_take. Qed.

Context `{!Utf8proc} `{!Allocator} `{!AllocatorSpec} `{!SlotAllocator} `{!SlotAllocatorSpec}.

Lemma find_line_iff s lines ls row i off :
  sb_rep s lines ls ->
  ik_scrollback_find_logical_line_at_physical_row s row = Ret (i, off) <->
  exists r, line_rows s !! i = Some r /\ off < r /\ sum_list (take i (line_rows s)) + off = row.
Proof.
  intros Hr. rewrite (line_rows_rep _ _ _ Hr). split.
  - intros E. destruct (decide (row < total_physical_lines s)) as [Hlt|Hge].
    + destruct (find_line_ok s lines ls row Hr Hlt) as (i' & off' & l & E' & Hi & Ho & Hs).
      rewrite E in E'. injection E' as <- <-. exists (physical_lines l).
      rewrite list_lookup_fmap, Hi. by rewrite rows_total_take in Hs.
    + unfold ik_scrollback_find_logical_line_at_physical_row in E.
      by rewrite (proj2 (Nat.leb_le _ _)) in E by lia.
  - intros (r & Hi & Ho & Hs).
    assert (row < total_physical_lines s) as Hlt.
    { rewrite (sb_total _ _ _ Hr), rows_total_sum.
      rewrite <- (take_drop_middle _ _ _ Hi), sum_list_app, sum_list_cons. lia. }
    destruct (find_line_ok s lines ls row Hr Hlt) as (i' & off' & l & E & Hi' & Ho' & Hs').
    rewrite rows_total_take in Hs'.
    destruct (prefix_sum_unique (physical_lines <$> ls) i' i (physical_lines l) r off' off)
      as [-> ->]; [by rewrite list_lookup_fmap, Hi'|done..|lia|done].
Qed.

Lemma rep_rows_pos s lines ls : sb_rep s lines ls -> Forall (fun r => 1 <= r) (line_rows s).
Proof.
  intros Hr. rewrite (line_rows_rep _ _ _ Hr). apply Forall_fmap.
  pose proof (sb_lines _ _ _ Hr) as Hl. pose proof (sb_width _ _ _ Hr) as Hw.
  eapply Forall2_Forall_r; [exact Hl|]. apply Forall_true. intros t l [_ _ _ [E|E]];
    cbn [compose]; rewrite E; [apply append_rows_pos|apply reflow_rows_pos]; lia.
Qed.

(** Resizing recomputes every line from its segments. *)
Lemma resize_rows s lines ls w s' :
  sb_rep s lines ls -> (0 < w)%Z -> w <> cached_width s ->
  ik_scrollback_ensure_layout s w = Ret s' ->
  line_rows s' = (fun t => reflow_rows (Z.to_nat w) (glyphs_of t)) <$> lines.
Proof.
  intros Hr Hw Hne E.
  destruct (ensure_layout_ok s lines ls w Hr Hw) as (s1 & ls1 & E1 & Hr1 & _ & _ & Hls & _).
  rewrite E in E1. injection E1 as <-. rewrite (line_rows_rep _ _ _ Hr1), (Hls Hne).
  pose proof (sb_lines _ _ _ Hr) as Hl. clear -Hl.
  induction Hl as [|t l lines ls [_ _ Hsg _] _ IH]; [done|].
  cbn [fmap list_fmap] in *. f_equal; [|exact IH]. simpl. by rewrite Hsg.
Qed.

Lemma appends_rows C B (texts : list (list Z)) s lines ls s' :
  sb_rep s lines ls -> within C B s -> 2 * (length lines + length texts) <= C ->
  (Z.of_nat C < 2 ^ 61)%Z ->
  2 * (buffer_used s + sum_list (op_bytes <$> (SbAppend <$> texts))) <= B ->
  (Z.of_nat B < 2 ^ 61)%Z ->
  sb_run s (SbAppend <$> texts) = Ret s' ->
  cached_width s' = cached_width s /\
  line_rows s' = line_rows s ++
    ((fun t => append_rows (Z.to_nat (cached_width s)) (glyphs_of t)) <$> texts).
Proof.
  revert s lines ls. induction texts as [|t texts IH]; intros s lines ls Hr Hw HlC HC HlB HB.
  { cbn [sb_run fmap list_fmap]. intros [= ->]. by rewrite app_nil_r. }
  cbn [sb_run fmap list_fmap sb_step] in *. rewrite sum_list_cons in HlB.
  cbn [length op_bytes] in HlC, HlB.
  destruct (append_within C B s lines ls t Hr Hw) as (s1 & l & -> & Hr1 & El & Ew & Hw1 & Hu);
    [lia|done|lia|done|]. cbn [obind]. intros E.
  destruct (IH s1 _ _ Hr1 Hw1) as [Ew' Er]; try done; [rewrite length_app; simpl; lia|lia|].
  split; [congruence|]. rewrite Er, (line_rows_rep _ _ _ Hr1), (line_rows_rep _ _ _ Hr), fmap_app.
  rewrite <- app_assoc, Ew. by rewrite El.
Qed.

End row_arithmetic.

(** ** Facts about whole runs *)

Section run_facts.
Context `{!Utf8proc} `{!Allocator} `{!SlotAllocator}.

Lemma appends_lines_acc (texts l : list (list Z)) :
  fold_left sb_lines_step (SbAppend <$> texts) l = l ++ texts.
Proof.
  revert l. induction texts as [|t texts IH]; intros l; [by rewrite app_nil_r|].
  cbn [fmap list_fmap fold_left sb_lines_step] in *. by rewrite IH, <- app_assoc.
Qed.

Lemma appends_lines (texts : list (list Z)) : sb_lines_of (SbAppend <$> texts) = texts.
Proof. exact (appends_lines_acc texts []). Qed.

Lemma uncounted_total tw (texts : list (list Z)) :
  0 < tw ->
  sum_list ((fun t => reflow_rows tw (glyphs_of t)) <$> texts)
  = sum_list ((fun t => append_rows tw (glyphs_of t)) <$> texts)
    + length (filter (fun t => uncounted (glyphs_of t) = true) texts).
Proof.
  intros Ht. induction texts as [|t texts IH]; [done|]. cbn [fmap list_fmap] in *.
  rewrite !sum_list_cons, IH, <- (append_reflow tw (glyphs_of t) Ht).
  destruct (uncounted (glyphs_of t)) eqn:E.
  - rewrite filter_cons_True by done. cbn [length]. lia.
  - rewrite filter_cons_False by congruence. lia.
Qed.

(** A run stores no more than it appends. *)
Lemma lines_bound_acc ops lines :
  length (fold_left sb_lines_step ops lines) <= length lines + length ops /\
  length (packed (fold_left sb_lines_step ops lines))
    <= length (packed lines) + sum_list (op_bytes <$> ops).
Proof.
  revert lines. induction ops as [|op ops IH]; intros lines; [simpl; lia|].
  cbn [fold_left fmap list_fmap length]. rewrite sum_list_cons.
  destruct (IH (sb_lines_step lines op)) as [Hlen Hbytes].
  destruct op as [text|w|]; cbn [sb_lines_step op_bytes length] in *;
    rewrite ?packed_app, ?packed_one, ?length_app in *; cbn [length] in *;
    change (length (packed [])) with 0 in *; lia.
Qed.

Lemma lines_bound ops :
  length (sb_lines_of ops) <= length ops /\
  length (packed (sb_lines_of ops)) <= sum_list (op_bytes <$> ops).
Proof. exact (lines_bound_acc ops []). Qed.

(** A resize touches the layouts only. *)
Lemma ensure_layout_text s w s' :
  ik_scrollback_ensure_layout s w = Ret s' ->
  text_buffer s' = text_buffer s /\ text_offsets s' = text_offsets s /\
  text_lengths s' = text_lengths s /\ count s' = count s.
Proof.
  unfold ik_scrollback_ensure_layout. destruct (0 <? w)%Z; [|done].
  destruct (w =? cached_width s)%Z; [by intros [= ->]|].
  destruct (reflow_loop _ _ _ _ _) as [[ls total]| | | |]; [|done..]. cbn [obind]. by intros [= <-].
Qed.

Context `{!AllocatorSpec} `{!SlotAllocatorSpec}.

(** A line and its terminator in the buffer. *)
Lemma stored_line s lines ls i t :
  sb_rep s lines ls -> lines !! i = Some t ->
  mem_read (length (packed (take i lines))) (S (length t)) (text_buffer s) = Ret (t ++ [0%Z]).
Proof.
  intros Hr Hi. destruct (sb_text _ _ _ Hr) as [r ->].
  rewrite <- (take_drop_middle lines i t Hi) at 2. rewrite packed_app.
  change (t :: drop (S i) lines) with ([t] ++ drop (S i) lines).
  rewrite packed_app, packed_one, <- app_assoc, <- (app_assoc (t ++ [0%Z])).
  apply mem_read_app; [done|]. rewrite length_app. simpl. lia.
Qed.

End run_facts.

(** ** Columns and bytes of one line *)

Section columns.
Context `{!Utf8proc} `{!Utf8procSpec} `{!Allocator} `{!SlotAllocator}.

(** The number of code points before display column [col]. *)
Fixpoint reach (cps : list Z) (col : nat) : nat :=
  match col, cps with
  | 0, _ | _, [] => 0
  | _, c :: cps' => S (reach cps' (col - cols (Cp c)))
  end.

Definition width_of (cps : list Z) : nat := sum_list (cols <$> (Cp <$> cps)).

Lemma cols_cp c :
  cols (Cp c) = if (c =? 10)%Z then 0 else Z.to_nat (utf8proc_charwidth c).
Proof.
  unfold cols, is_nl. destruct (Z.eqb_spec c 10) as [->|Hc]; [done|].
  by rewrite bool_decide_eq_false_2 by congruence.
Qed.

Lemma reach_le cps col : reach cps col <= length cps.
Proof.
  revert col. induction cps as [|c cps IH]; intros [|col]; cbn [reach length]; try lia.
  specialize (IH (S col - cols (Cp c))). lia.
Qed.

(** [reach] is the least prefix that is wide enough. *)
Lemma reach_least cps col k :
  k < reach cps col -> width_of (take k cps) < col.
Proof.
  revert col k. induction cps as [|c cps IH]; intros [|col] k; cbn [reach]; try lia.
  destruct k as [|k]; intros Hk; [unfold width_of; simpl; lia|].
  specialize (IH (S col - cols (Cp c)) k). unfold width_of in *. cbn [take fmap list_fmap] in *.
  rewrite sum_list_cons. lia.
Qed.

Lemma reach_enough cps col : reach cps col < length cps -> col <= width_of (take (reach cps col) cps).
Proof.
  revert col. induction cps as [|c cps IH]; intros [|col]; cbn [reach length]; try lia.
  intros Hk. specialize (IH (S col - cols (Cp c))). unfold width_of in *.
  cbn [take fmap list_fmap] in *. rewrite sum_list_cons. lia.
Qed.

Lemma column_loop_text pre cps fuel target col :
  Forall scalar cps -> 27%Z ∉ cps -> length cps < fuel ->
  column_loop fuel (text_of pre ++ text_of cps) (length (text_of (pre ++ cps))) target
    (length (text_of pre)) col
  = Ret (length (text_of (pre ++ take (reach cps (target - col)) cps))).
Proof.
  revert pre fuel col. induction cps as [|c cps IH]; intros pre fuel col Hs Hn Hf;
    (destruct fuel as [|fuel]; [simpl in Hf; lia|]); cbn [column_loop].
  { rewrite app_nil_r, Nat.ltb_irrefl. cbn [andb]. by rewrite take_nil, app_nil_r. }
  pose proof (byte_at_not_esc pre c cps Hs Hn) as Hne.
  apply Forall_cons in Hs as [Hc Hs]. pose proof (encode_length c Hc) as Hl.
  rewrite (proj2 (Nat.ltb_lt _ _)) by (rewrite text_of_app, text_of_cons; len_lia). cbn [andb].
  destruct (Nat.ltb_spec col target) as [Hlt|Hge].
  2: { replace (target - col) with 0 by lia. by rewrite app_nil_r. }
  rewrite skip_csi_not_esc by done. cbn [Nat.ltb Nat.leb].
  rewrite drop_app_length, text_of_cons, iterate_valid by done.
  rewrite (proj2 (Z.leb_gt _ _)) by lia. rewrite Nat2Z.id.
  replace (reach (c :: cps) (target - col)) with (S (reach cps (target - (col + cols (Cp c)))))
    by (destruct (target - col) eqn:E; [lia|]; cbn [reach]; do 2 f_equal; lia).
  cbn [take]. specialize (IH (pre ++ [c]) fuel).
  assert (length (text_of pre) + length (encode_utf8 c) = length (text_of (pre ++ [c]))) as ->
    by (rewrite text_of_app, text_of_one; len_lia).
  replace (text_of pre ++ encode_utf8 c ++ text_of cps) with (text_of (pre ++ [c]) ++ text_of cps)
    by (by rewrite text_of_app, text_of_one, <- app_assoc).
  rewrite (cons_middle c pre cps), (cons_middle c pre (take _ cps)), !(app_assoc pre [c]).
  simpl in Hf. assert (27%Z ∉ cps) by set_solver.
  rewrite cols_cp. destruct (c =? 10)%Z; (rewrite IH; [|done|done|lia]); [by rewrite Nat.add_0_r|].
  destruct (Z.ltb_spec 0 (utf8proc_charwidth c)); [done|].
  replace (Z.to_nat (utf8proc_charwidth c)) with 0 by lia. by rewrite Nat.add_0_r.
Qed.

Lemma skip_csi_loop_text pre cps fuel :
  Forall scalar cps -> 27%Z ∉ cps ->
  skip_csi_loop (S fuel) (text_of pre ++ text_of cps) (length (text_of (pre ++ cps)))
    (length (text_of pre)) = Ret (length (text_of pre)).
Proof.
  intros Hs Hn. cbn [skip_csi_loop]. destruct (Nat.ltb_spec (length (text_of pre))
    (length (text_of (pre ++ cps)))) as [Hlt|]; [|done].
  destruct cps as [|c cps]; [rewrite app_nil_r in Hlt; lia|].
  rewrite skip_csi_not_esc; [done|]. by apply byte_at_not_esc.
Qed.

(** The byte at a column of a stored line. *)
Lemma byte_at_column `{!AllocatorSpec} `{!SlotAllocatorSpec} s lines ls i cps col :
  sb_rep s lines ls -> lines !! i = Some (text_of cps) -> Forall scalar cps -> 27%Z ∉ cps ->
  ik_scrollback_get_byte_offset_at_display_col s i col
  = Ret (length (text_of (take (reach cps col) cps))).
Proof.
  intros Hr Hi Hs Hn. pose proof (lookup_lt_Some _ _ _ Hi) as Hlt.
  unfold ik_scrollback_get_byte_offset_at_display_col.
  rewrite (proj2 (Nat.leb_gt _ _)) by (rewrite (sb_count _ _ _ Hr); lia).
  destruct (Nat.eqb_spec col 0) as [->|Hcol]; [by destruct cps|].
  destruct (get_line_text_ok s lines ls i _ Hr Hi) as (_ & -> & -> & E).
  cbn [obind]. rewrite E. cbn [obind].
  pose proof (column_loop_text [] cps (S (length (text_of cps))) col 0 Hs Hn) as Hcl.
  cbn [app] in Hcl. change (text_of [] ++ text_of cps) with (text_of cps) in Hcl.
  change (length (text_of [])) with 0 in Hcl. rewrite Hcl by (pose proof (length_text_of cps Hs); lia).
  cbn [obind]. rewrite Nat.sub_0_r.
  pose proof (skip_csi_loop_text (take (reach cps col) cps) (drop (reach cps col) cps)
                (length (text_of cps))) as Hk.
  rewrite take_drop, <- text_of_app, take_drop in Hk. apply Hk; [by apply Forall_drop|].
  intros Hin. apply Hn. rewrite <- (take_drop (reach cps col) cps), elem_of_app. by right.
Qed.

(** *** Byte ranges of rows *)

Context `{!AllocatorSpec} `{!SlotAllocatorSpec}.

Lemma segment_scan_first w ws tw n r :
  r < seg_rows tw w -> 0 < r -> segment_scan (w :: ws) tw (S n) 0 r = Ret (0, r).
Proof.
  intros Hr Hp. cbn [segment_scan]. rewrite (proj2 (Nat.ltb_lt 0 r)) by done.
  change (arr_get (w :: ws) 0) with (Ret w). cbn [obind].
  by rewrite (proj2 (Nat.leb_gt _ _)) by lia.
Qed.

(** The first segment of a line starts at its first byte and its rows are
    found by their column. *)
Lemma byte_after_rows_first s lines ls i cps w ws tw r e :
  sb_rep s lines ls -> lines !! i = Some (text_of cps) -> Forall scalar cps -> 27%Z ∉ cps ->
  segments (glyphs_of (text_of cps)) 0 = w :: ws -> 0 < r < seg_rows tw w ->
  byte_after_rows s i tw r e = Ret (length (text_of (take (reach cps (r * tw)) cps))).
Proof.
  intros Hr Hi Hs Hn Hsg [Hr0 Hrw]. unfold byte_after_rows.
  destruct (get_line_text_ok s lines ls i _ Hr Hi) as (-> & _ & _ & E).
  cbn [ignore_error obind]. rewrite E. cbn [obind].
  destruct (Forall2_lookup_l _ _ _ _ _ (sb_lines _ _ _ Hr) Hi) as (l & Hl & [_ Hnl Hsl _]).
  pose proof (sb_layouts _ _ _ Hr) as [ry Hy]. rewrite Hy, (arr_get_lookup _ _ _ _ Hl).
  cbn [obind]. rewrite Hsl, Hsg, segment_scan_first by done. cbn [obind sum_widths].
  rewrite (byte_at_column s lines ls i cps) by done. done.
Qed.

(** A segment without newlines is one run of columns. *)
Lemma segments_no_newline cps w :
  10%Z ∉ cps -> segments (Cp <$> cps) w = [w + width_of cps].
Proof.
  unfold width_of. revert w. induction cps as [|c cps IH]; intros w Hn;
    [by rewrite Nat.add_0_r|]. cbn [fmap list_fmap segments].
  unfold is_nl. rewrite bool_decide_eq_false_2 by set_solver.
  cbn [fmap list_fmap] in IH. rewrite IH by set_solver. rewrite sum_list_cons. f_equal. lia.
Qed.

Lemma segments_two cps1 cps2 w :
  10%Z ∉ cps1 -> 10%Z ∉ cps2 ->
  segments (Cp <$> cps1 ++ 10%Z :: cps2) w = [w + width_of cps1; width_of cps2].
Proof.
  intros Hn1 Hn2. revert w. induction cps1 as [|c cps1 IH]; intros w.
  - cbn [app fmap list_fmap segments]. change (is_nl (Cp 10)) with true. cbn iota.
    pose proof (segments_no_newline cps2 0 Hn2) as E. cbn [fmap list_fmap] in E. rewrite E.
    unfold width_of at 2. simpl. by rewrite Nat.add_0_r.
  - cbn [app fmap list_fmap segments].
    unfold is_nl at 1. rewrite bool_decide_eq_false_2 by set_solver.
    cbn [fmap list_fmap] in IH. rewrite IH by set_solver. unfold width_of.
    cbn [fmap list_fmap]. rewrite sum_list_cons. f_equal. lia.
Qed.

Lemma newlines_none cps : 10%Z ∉ cps -> newlines (Cp <$> cps) = 0.
Proof.
  intros Hn. pose proof (length_segments (Cp <$> cps) 0) as E.
  rewrite segments_no_newline in E by done. simpl in E. lia.
Qed.

(** A text without newlines takes the rows of its width, appended or
    reflowed. *)
Lemma plain_rows tw cps l :
  0 < tw -> Forall scalar cps -> 27%Z ∉ cps -> 10%Z ∉ cps -> line_ok tw (text_of cps) l ->
  physical_lines l = seg_rows tw (width_of cps).
Proof.
  intros Ht Hs He Hn [_ _ _ Hp]. rewrite glyphs_of_text in Hp by done.
  pose proof (append_reflow tw (Cp <$> cps) Ht) as E.
  unfold uncounted in E. rewrite newlines_none in E by done. cbn [Nat.ltb Nat.leb andb] in E.
  assert (reflow_rows tw (Cp <$> cps) = seg_rows tw (width_of cps)) as Er.
  { unfold reflow_rows. rewrite segments_no_newline by done. unfold rows_sum. simpl. lia. }
  lia.
Qed.

(** The bytes up to a newline, and the byte after the [n]-th newline. *)
Lemma after_newline_skip text rest j n seen k :
  (forall i, i < k -> byte_at text (j + i) <> 10%Z) -> k <= rest ->
  after_newline text rest j n seen = after_newline text (rest - k) (j + k) n seen.
Proof.
  revert rest j. induction k as [|k IH]; intros rest j Hb Hk;
    [by rewrite Nat.sub_0_r, Nat.add_0_r|].
  destruct rest as [|rest]; [lia|]. cbn [after_newline].
  pose proof (Hb 0 ltac:(lia)) as H0b. rewrite Nat.add_0_r in H0b.
  rewrite (proj2 (Z.eqb_neq _ _) H0b). rewrite IH; [f_equal; lia| |lia].
  intros i Hik. replace (S j + i) with (j + S i) by lia. apply Hb. lia.
Qed.

Lemma after_first_newline cps1 cps2 :
  Forall scalar cps1 -> 10%Z ∉ cps1 ->
  after_newline (text_of (cps1 ++ 10%Z :: cps2)) (length (text_of (cps1 ++ 10%Z :: cps2))) 0 1 0
  = Some (S (length (text_of cps1))).
Proof.
  intros Hs Hn. rewrite text_of_app, text_of_cons. cbn [app encode_utf8].
  change (encode_utf8 10) with [10%Z]. cbn [app].
  rewrite (after_newline_skip _ _ _ _ _ (length (text_of cps1))); [|intros i Hi; cbn [Nat.add]|len_lia].
  - cbn [Nat.add]. rewrite length_app. cbn [length].
    replace (length (text_of cps1) + S (length (text_of cps2)) - length (text_of cps1))
      with (S (length (text_of cps2))) by lia. cbn [after_newline].
    unfold byte_at at 1. by rewrite list_lookup_middle.
  - unfold byte_at. destruct (lookup_lt_is_Some_2 (text_of cps1) i Hi) as [b Hb].
    rewrite (lookup_app_l_Some _ _ _ _ Hb). simpl. intros ->.
    apply Hn, (text_of_ascii cps1 10); [done|lia|]. by eapply list_elem_of_lookup_2.
Qed.

(** Rows inside the second segment are all given its first byte. *)
Lemma byte_after_rows_second s lines ls i cps1 cps2 tw r e :
  sb_rep s lines ls -> lines !! i = Some (text_of (cps1 ++ 10%Z :: cps2)) ->
  Forall scalar (cps1 ++ 10%Z :: cps2) -> 27%Z ∉ cps1 ++ 10%Z :: cps2 ->
  10%Z ∉ cps1 -> 10%Z ∉ cps2 -> 0 < tw ->
  seg_rows tw (width_of cps1) <= r < seg_rows tw (width_of cps1) + seg_rows tw (width_of cps2) ->
  byte_after_rows s i tw r e = Ret (S (length (text_of cps1))).
Proof.
  intros Hr Hi Hs He Hn1 Hn2 Ht [Hlo Hhi]. unfold byte_after_rows.
  destruct (get_line_text_ok s lines ls i _ Hr Hi) as (-> & _ & _ & E).
  cbn [ignore_error obind]. rewrite E. cbn [obind].
  destruct (Forall2_lookup_l _ _ _ _ _ (sb_lines _ _ _ Hr) Hi) as (l & Hl & [_ Hnl Hsl _]).
  pose proof (sb_layouts _ _ _ Hr) as [ry Hy]. rewrite Hy, (arr_get_lookup _ _ _ _ Hl).
  cbn [obind]. rewrite glyphs_of_text in Hsl, Hnl by done.
  assert (segment_widths l = [width_of cps1; width_of cps2]) as ->.
  { by rewrite Hsl, segments_two. }
  assert (newline_count l = 1) as ->.
  { rewrite Hnl, fmap_app. unfold newlines. rewrite filter_app, length_app. cbn [fmap list_fmap].
    rewrite filter_cons_True by done. cbn [length]. fold (newlines (Cp <$> cps1)).
    fold (newlines (Cp <$> cps2)). by rewrite !newlines_none by done. }
  assert (exists p, segment_scan [width_of cps1; width_of cps2] tw 2 0 r = Ret (1, p)) as [p ->].
  { cbn [segment_scan]. pose proof (seg_rows_pos tw (width_of cps1) Ht).
    rewrite (proj2 (Nat.ltb_lt 0 r)) by lia.
    change (arr_get [width_of cps1; width_of cps2] 0) with (Ret (width_of cps1)). cbn [obind].
    rewrite (proj2 (Nat.leb_le _ _)) by lia.
    destruct (Nat.ltb_spec 0 (r - seg_rows tw (width_of cps1))); [|eauto].
    change (arr_get [width_of cps1; width_of cps2] 1) with (Ret (width_of cps2)). cbn [obind].
    rewrite (proj2 (Nat.leb_gt _ _)) by lia. eauto. }
  cbn [obind sum_widths]. change (arr_get [width_of cps1; width_of cps2] 0) with (Ret (width_of cps1)).
  cbn [obind]. rewrite (byte_at_column s lines ls i _ _ Hr Hi) by done.
  cbn [Nat.ltb Nat.leb]. by rewrite after_first_newline by (done || by apply Forall_app in Hs as [? _]).
Qed.

(** The byte range of rows of a line that is one segment. *)
Lemma byte_range_plain s lines ls i cps l tw r n :
  sb_rep s lines ls -> lines !! i = Some (text_of cps) -> ls !! i = Some l ->
  Forall scalar cps -> 27%Z ∉ cps ->
  segments (glyphs_of (text_of cps)) 0 = [width_of cps] ->
  physical_lines l = seg_rows tw (width_of cps) ->
  r < seg_rows tw (width_of cps) -> 0 < n ->
  ik_scrollback_calc_byte_range_for_rows s i tw r n =
    Ret (length (text_of (take (reach cps (r * tw)) cps)),
         if (seg_rows tw (width_of cps) <=? r + n)%nat then length (text_of cps)
         else length (text_of (take (reach cps ((r + n) * tw)) cps)),
         (seg_rows tw (width_of cps) <=? r + n)%nat).
Proof.
  intros Hr Hi Hl Hs He Hsg Hp Hrow Hn.
  unfold ik_scrollback_calc_byte_range_for_rows, ik_scrollback_calc_start_byte_for_row,
    ik_scrollback_calc_end_byte_for_row.
  assert ((if (r =? 0)%nat then Ret 0 else byte_after_rows s i tw r 0)
          = Ret (length (text_of (take (reach cps (r * tw)) cps)))) as ->.
  { destruct (Nat.eqb_spec r 0) as [->|Hr0]; [by destruct cps|].
    rewrite (byte_after_rows_first s lines ls i cps (width_of cps) []) by (done || lia). done. }
  cbn [obind]. destruct (get_line_text_ok s lines ls i _ Hr Hi) as (-> & _ & _ & _).
  cbn [ignore_error obind]. pose proof (sb_layouts _ _ _ Hr) as [ry Hy].
  rewrite Hy, (arr_get_lookup _ _ _ _ Hl). cbn [obind]. rewrite Hp.
  replace (r + n - 1 + 1) with (r + n) by lia.
  destruct (Nat.leb_spec (seg_rows tw (width_of cps)) (r + n)); [done|].
  rewrite (byte_after_rows_first s lines ls i cps (width_of cps) []) by (done || lia). done.
Qed.

End columns.

(** ** Properties *)

Module ScrollbackProps.
Section properties.
Context `{!Utf8proc} `{!Utf8procSpec} `{!Allocator} `{!AllocatorSpec}.
Context `{!SlotAllocator} `{!SlotAllocatorSpec}.

(** C7: the scrollback is a list of lines.  Any sequence of appends, resizes
    and clears on a new buffer succeeds, and afterwards the buffer has the
    lines appended since the last clear, in order: get_line_text gives a
    NUL-terminated copy of each, and ERR_OUT_OF_RANGE beyond the last. *)
Theorem scrollback_refines_lines (w : Z) (ops : list sb_op) :
  (0 < w)%Z -> ops_ok ops ->
  exists s, sb_after w ops = Ret s /\
    ik_scrollback_get_line_count s = length (sb_lines_of ops) /\
    (forall i t, sb_lines_of ops !! i = Some t ->
       exists off, ik_scrollback_get_line_text s i = Ret (off, length t) /\
         mem_read off (S (length t)) (text_buffer s) = Ret (t ++ [0%Z])) /\
    (forall i, length (sb_lines_of ops) <= i ->
       ik_scrollback_get_line_text s i = Fail ERR_OUT_OF_RANGE).
Proof.
  intros Hw Hok. destruct (sb_reach w ops Hw Hok) as (s0 & s & ls & E & E' & Hr & _).
  exists s. split; [unfold sb_after; rewrite E; exact E'|].
  pose proof (sb_count _ _ _ Hr) as Hc. split; [done|]. split.
  - intros i t Hi. eexists. destruct (get_line_text_ok _ _ _ _ _ Hr Hi) as [-> _].
    split; [done|]. by apply (stored_line s _ ls).
  - intros i Hi. unfold ik_scrollback_get_line_text. by rewrite (proj2 (Nat.leb_le _ _)) by lia.
Qed.

(** the rows of the terminal are divided among the lines.  After any
    sequence of operations every line has at least one row, the total is the
    sum of the rows, and find_logical_line_at_physical_row answers (i, off)
    exactly when off is a row of line i and the rows of the lines before i plus
    off is the row asked for; rows from the total on are ERR_OUT_OF_RANGE. *)
Theorem rows_partition (w : Z) (ops : list sb_op) (s : ik_scrollback) :
  (0 < w)%Z -> ops_ok ops -> sb_after w ops = Ret s ->
  length (line_rows s) = length (sb_lines_of ops) /\
  Forall (fun r => 1 <= r) (line_rows s) /\
  ik_scrollback_get_total_physical_lines s = sum_list (line_rows s) /\
  (forall row i off,
     ik_scrollback_find_logical_line_at_physical_row s row = Ret (i, off) <->
     exists r, line_rows s !! i = Some r /\ off < r /\
               sum_list (take i (line_rows s)) + off = row) /\
  (forall row, sum_list (line_rows s) <= row ->
     ik_scrollback_find_logical_line_at_physical_row s row = Fail ERR_OUT_OF_RANGE).
Proof.
  intros Hw Hok E. destruct (sb_after_rep w ops s Hw Hok E) as (ls & Hr & _).
  pose proof (line_rows_rep _ _ _ Hr) as Hlr. pose proof (sb_total _ _ _ Hr) as Ht.
  split_and!.
  - by rewrite Hlr, length_fmap, (Forall2_length _ _ _ (sb_lines _ _ _ Hr)).
  - exact (rep_rows_pos _ _ _ Hr).
  - by rewrite Hlr.
  - intros row i off. exact (find_line_iff _ _ _ row i off Hr).
  - intros row Hrow. unfold ik_scrollback_find_logical_line_at_physical_row.
    rewrite (proj2 (Nat.leb_le _ _)); [done|]. rewrite Ht, rows_total_sum, <- Hlr. exact Hrow.
Qed.

(** resizing recomputes the rows from the widths stored with each line.
    The lines stay, and when the width changes every line has, for each of its
    newline-separated segments, one row if the segment is empty and its width
    divided by the terminal's, rounded up, otherwise. *)
Theorem resize_reflows (w w' : Z) (ops : list sb_op) (s : ik_scrollback) :
  (0 < w)%Z -> (0 < w')%Z -> ops_ok ops -> sb_after w ops = Ret s -> w' <> cached_width s ->
  exists s', ik_scrollback_ensure_layout s w' = Ret s' /\ cached_width s' = w' /\
    text_buffer s' = text_buffer s /\ text_offsets s' = text_offsets s /\
    text_lengths s' = text_lengths s /\ count s' = count s /\
    line_rows s' =
      (fun t => sum_list ((fun cs => if (cs =? 0)%nat then 1
                                     else (cs + (Z.to_nat w' - 1)) / Z.to_nat w')
                          <$> segments (glyphs_of t) 0)) <$> sb_lines_of ops /\
    ik_scrollback_get_total_physical_lines s' = sum_list (line_rows s').
Proof.
  intros Hw Hw' Hok E Hne. destruct (sb_after_rep w ops s Hw Hok E) as (ls & Hr & _).
  destruct (ensure_layout_ok s _ ls w' Hr Hw') as (s' & ls' & E' & Hr' & Hcw & _).
  exists s'. split; [done|]. split; [done|].
  pose proof (resize_rows _ _ _ _ _ Hr Hw' Hne E') as Hrows.
  pose proof (ensure_layout_text _ _ _ E') as (? & ? & ? & ?). split_and!; try done.
  - rewrite Hrows. apply list_fmap_ext. intros _ t _. unfold reflow_rows, rows_sum. f_equal.
    apply list_fmap_ext. intros _ x _. unfold seg_rows. destruct (x =? 0)%nat; [done|]. f_equal. lia.
  - unfold ik_scrollback_get_total_physical_lines.
    by rewrite (sb_total _ _ _ Hr'), (line_rows_rep _ _ _ Hr').
Qed.

(** appending and resizing disagree about some lines.  When lines are
    appended to a new buffer and the terminal is resized and resized back, the
    total grows by one row for each line that contains a newline, whose last
    segment is empty, and in which no visible text precedes that end: such a
    line is counted one row short when it is appended. *)
Theorem resize_there_and_back (w w' : Z) (texts : list (list Z)) :
  (0 < w)%Z -> (0 < w')%Z -> w' <> w -> ops_ok (SbAppend <$> texts) ->
  exists s s1 s2, sb_after w (SbAppend <$> texts) = Ret s /\
    ik_scrollback_ensure_layout s w' = Ret s1 /\ ik_scrollback_ensure_layout s1 w = Ret s2 /\
    ik_scrollback_get_total_physical_lines s2 =
      ik_scrollback_get_total_physical_lines s
      + length (filter (fun t => uncounted (glyphs_of t) = true) texts).
Proof.
  intros Hw Hw' Hne Hok. destruct (create_sb_ok w Hw) as (s0 & E0 & Hr0 & Ew0 & Ec & Eb & Eu).
  destruct (sb_reach w _ Hw Hok) as (s0' & s & ls & E0' & E & Hr & _). rewrite E0 in E0'.
  injection E0' as <-. destruct Hok as (_ & Hn & Hb). rewrite length_fmap in Hn.
  assert (sb_lines_of (SbAppend <$> texts) = texts) as Hl by apply appends_lines.
  destruct (appends_rows (16 + 2 * length texts)
              (1024 + 2 * sum_list (op_bytes <$> (SbAppend <$> texts))) texts s0 [] [] s)
    as [Hcw Hrows]; try done; try lia; try (unfold within; cbn [length]; lia).
  destruct (ensure_layout_ok s _ ls w' Hr Hw') as (s1 & ls1 & E1 & Hr1 & Ew1 & _).
  destruct (ensure_layout_ok s1 _ ls1 w Hr1 Hw) as (s2 & ls2 & E2 & Hr2 & _).
  exists s, s1, s2. unfold sb_after. rewrite E0. cbn [obind]. split_and!; try done.
  unfold ik_scrollback_get_total_physical_lines.
  rewrite (sb_total _ _ _ Hr2), (sb_total _ _ _ Hr), !rows_total_sum.
  rewrite <- (line_rows_rep _ _ _ Hr2), <- (line_rows_rep _ _ _ Hr).
  rewrite (resize_rows _ _ _ _ _ Hr1 Hw ltac:(congruence) E2), Hl, Hrows, Ew0.
  rewrite (line_rows_rep _ _ _ Hr0). cbn [fmap list_fmap app].
  apply uncounted_total. lia.
Qed.

(** the bytes of a run of rows of a line without newlines.  The range
    starts at the least prefix whose display width reaches the columns of the
    rows before it, and ends at the least prefix that reaches the columns up to
    its last row, or at the end of the line when the last row is included; the
    rows therefore tile the line.  Here [reach cps col] is the least number of
    code points whose width is at least [col]. *)
Theorem rows_to_bytes (w : Z) (ops : list sb_op) (s : ik_scrollback) i (cps : list Z) (r n : nat) :
  (0 < w)%Z -> ops_ok ops -> sb_after w ops = Ret s ->
  sb_lines_of ops !! i = Some (text_of cps) ->
  Forall scalar cps -> 27%Z ∉ cps -> 10%Z ∉ cps -> 0 < n ->
  let tw := Z.to_nat (cached_width s) in
  let rows := seg_rows tw (width_of cps) in
  line_rows s !! i = Some rows /\
  (r < rows ->
   ik_scrollback_calc_byte_range_for_rows s i tw r n =
     Ret (length (text_of (take (reach cps (r * tw)) cps)),
          if (rows <=? r + n)%nat then length (text_of cps)
          else length (text_of (take (reach cps ((r + n) * tw)) cps)),
          (rows <=? r + n)%nat)).
Proof.
  intros Hw Hok E Hi Hs He Hnl Hn tw rows.
  destruct (sb_after_rep w ops s Hw Hok E) as (ls & Hr & _).
  destruct (Forall2_lookup_l _ _ _ _ _ (sb_lines _ _ _ Hr) Hi) as (l & Hl & Hlo).
  pose proof (sb_width _ _ _ Hr) as Hcw.
  pose proof (plain_rows tw cps l ltac:(lia) Hs He Hnl Hlo) as Hp.
  split; [by rewrite (line_rows_rep _ _ _ Hr), list_lookup_fmap, Hl; simpl; rewrite Hp|].
  intros Hrow. assert (segments (glyphs_of (text_of cps)) 0 = [width_of cps]) as Hsg.
  { rewrite glyphs_of_text by done. exact (segments_no_newline cps 0 Hnl). }
  exact (byte_range_plain s _ ls i cps l tw r n Hr Hi Hl Hs He Hsg Hp Hrow Hn).
Qed.

(** rows of a wrapped segment after a newline are not distinguished.  In a
    line with one newline, every row of the second segment is given the first
    byte of that segment: the columns already drawn in it are ignored, so a
    viewport that starts at its second row draws its first row again, and one
    that ends inside it draws none of it. *)
Theorem second_segment_rows_restart (w : Z) (ops : list sb_op) (s : ik_scrollback) i
    (cps1 cps2 : list Z) (r : nat) :
  (0 < w)%Z -> ops_ok ops -> sb_after w ops = Ret s ->
  sb_lines_of ops !! i = Some (text_of (cps1 ++ 10%Z :: cps2)) ->
  Forall scalar (cps1 ++ 10%Z :: cps2) -> 27%Z ∉ cps1 ++ 10%Z :: cps2 ->
  10%Z ∉ cps1 -> 10%Z ∉ cps2 ->
  let tw := Z.to_nat (cached_width s) in
  seg_rows tw (width_of cps1) <= r < seg_rows tw (width_of cps1) + seg_rows tw (width_of cps2) ->
  ik_scrollback_calc_start_byte_for_row s i tw r = Ret (S (length (text_of cps1))).
Proof.
  intros Hw Hok E Hi Hs He Hn1 Hn2 tw Hr'.
  destruct (sb_after_rep w ops s Hw Hok E) as (ls & Hr & _).
  pose proof (sb_width _ _ _ Hr) as Hcw.
  pose proof (seg_rows_pos tw (width_of cps1) ltac:(lia)).
  unfold ik_scrollback_calc_start_byte_for_row. rewrite (proj2 (Nat.eqb_neq r 0)) by lia.
  exact (byte_after_rows_second s _ ls i cps1 cps2 tw r 0 Hr Hi Hs He Hn1 Hn2 ltac:(lia) Hr').
Qed.

(** copy_from appends the lines of the source, in order, to those of the
    destination, at the destination's width. *)
Theorem copy_from_appends (w1 w2 : Z) (ops1 ops2 : list sb_op) (dest src : ik_scrollback) :
  (0 < w1)%Z -> (0 < w2)%Z -> ops_ok ops1 -> ops_ok ops2 ->
  sb_after w1 ops1 = Ret dest -> sb_after w2 ops2 = Ret src ->
  exists dest', ik_scrollback_copy_from dest src = Ret dest' /\
    cached_width dest' = cached_width dest /\
    ik_scrollback_get_line_count dest' = length (sb_lines_of ops1) + length (sb_lines_of ops2) /\
    (forall i t, (sb_lines_of ops1 ++ sb_lines_of ops2) !! i = Some t ->
       exists off, ik_scrollback_get_line_text dest' i = Ret (off, length t) /\
         mem_read off (S (length t)) (text_buffer dest') = Ret (t ++ [0%Z])).
Proof.
  intros Hw1 Hw2 Hok1 Hok2 E1 E2.
  destruct (sb_after_rep w1 ops1 dest Hw1 Hok1 E1) as (ls1 & Hr1 & Hwi1).
  destruct (sb_after_rep w2 ops2 src Hw2 Hok2 E2) as (ls2 & Hr2 & Hwi2).
  pose proof (lines_bound ops1) as [Hl1 Hb1]. pose proof (lines_bound ops2) as [Hl2 Hb2].
  destruct Hok1 as (_ & Hn1 & Hs1). destruct Hok2 as (_ & Hn2 & Hs2).
  unfold ik_scrollback_copy_from. rewrite (sb_count _ _ _ Hr2).
  destruct (copy_loop_ok (16 + 2 * (length ops1 + length ops2))
    (1024 + 2 * (sum_list (op_bytes <$> ops1) + sum_list (op_bytes <$> ops2)))
    src (sb_lines_of ops2) ls2 (length (sb_lines_of ops2)) 0 dest (sb_lines_of ops1) ls1 Hr2 Hr1)
    as (d & dls & E & Hd & Hcw & _);
    [lia|destruct Hwi1; split; lia|lia|lia| |lia|].
  { rewrite (sb_used _ _ _ Hr1). change (drop 0 (sb_lines_of ops2)) with (sb_lines_of ops2). lia. }
  change (drop 0 (sb_lines_of ops2)) with (sb_lines_of ops2) in Hd.
  exists d. split; [done|]. split; [done|]. split.
  - unfold ik_scrollback_get_line_count. by rewrite (sb_count _ _ _ Hd), length_app.
  - intros i t Hi. eexists. destruct (get_line_text_ok _ _ _ _ _ Hd Hi) as [-> _].
    split; [done|]. by apply (stored_line d _ dls).
Qed.

End properties.
End ScrollbackProps.

(** ** Witnesses and examples *)

Module ScrollbackExamples.
Import ZeroAlloc RefUnicode CopySlots ScrollbackProps.

(** Plain, wide, wrapped and multi-segment lines, a resize and a clear. *)
Definition plain : list Z := [0x61; 0x62; 0x4E2D; 0x63; 0x64; 0x65]%Z.
Definition sample_ops : list sb_op :=
  [SbAppend [0x7A]%Z; SbClear; SbAppend (text_of plain); SbResize 3;
   SbAppend (text_of [0x61; 10; 0x62; 0x63; 0x64; 0x65; 0x66]%Z); SbAppend []].

Lemma ops_okb ops :
  forallb (fun op => bool_decide (op_ok op)) ops = true ->
  (Z.of_nat (length ops) <? 2 ^ 58)%Z = true ->
  (Z.of_nat (sum_list (op_bytes <$> ops)) <? 2 ^ 58)%Z = true -> ops_ok ops.
Proof.
  intros Hv Hn Hb. bool_to_prop. split; [|done]. apply Forall_forall. intros op Hop.
  rewrite forallb_forall in Hv. by apply list_elem_of_In, Hv, bool_decide_eq_true in Hop.
Qed.

Lemma sample_ok : ops_ok sample_ops.
Proof. by apply ops_okb. Qed.

(** A run whose result satisfies a decidable property. *)
Lemma after_some (P : ik_scrollback -> bool) w ops :
  match sb_after w ops with Ret s => P s | _ => false end = true ->
  exists s, sb_after w ops = Ret s /\ P s = true.
Proof. destruct (sb_after w ops) as [s| | | |]; [by exists s|done..]. Qed.

Lemma sample_after : exists s, sb_after 10 sample_ops = Ret s /\ (cached_width s =? 3)%Z = true.
Proof. apply after_some. by vm_compute. Qed.

Lemma scrollback_refines_lines_witness :
  exists s, sb_after 10 sample_ops = Ret s /\ ik_scrollback_get_line_count s = 3 /\
    ik_scrollback_get_line_text s 3 = Fail ERR_OUT_OF_RANGE /\
    exists off, ik_scrollback_get_line_text s 0 = Ret (off, 8).
Proof.
  destruct (scrollback_refines_lines 10 sample_ops ltac:(lia) sample_ok)
    as (s & E & Hc & Ht & Ho).
  exists s. split; [exact E|]. split; [exact Hc|]. split; [apply Ho; by vm_compute|].
  destruct (Ht 0 (text_of plain) eq_refl) as (off & E0 & _). exists off. exact E0.
Defined.

Lemma rows_partition_witness :
  exists s, sb_after 10 sample_ops = Ret s /\ length (line_rows s) = 3 /\
    forall row, sum_list (line_rows s) <= row ->
      ik_scrollback_find_logical_line_at_physical_row s row = Fail ERR_OUT_OF_RANGE.
Proof.
  destruct sample_after as (s & E & _).
  destruct (rows_partition 10 sample_ops s ltac:(lia) sample_ok E) as (Hl & _ & _ & _ & Ho).
  exists s. split; [exact E|]. split; [exact Hl|exact Ho].
Defined.

Lemma resize_reflows_witness :
  exists s s', sb_after 10 sample_ops = Ret s /\ ik_scrollback_ensure_layout s 2 = Ret s' /\
    line_rows s' = [4; 4; 1].
Proof.
  destruct sample_after as (s & E & Hw). apply Z.eqb_eq in Hw.
  destruct (resize_reflows 10 2 sample_ops s ltac:(lia) ltac:(lia) sample_ok E ltac:(lia))
    as (s' & E' & _ & _ & _ & _ & _ & Hr & _).
  exists s, s'. split; [exact E|]. split; [exact E'|]. rewrite Hr. by vm_compute.
Defined.

(** The empty line "\n" has one row when it is appended and two after the
    terminal went from 80 columns to 81 and back. *)
Definition newline_line : list (list Z) := [[10]%Z].

Lemma newline_ok : ops_ok (SbAppend <$> newline_line).
Proof. by apply ops_okb. Qed.

Lemma resize_there_and_back_witness :
  exists s s1 s2, sb_after 80 (SbAppend <$> newline_line) = Ret s /\
    ik_scrollback_ensure_layout s 81 = Ret s1 /\ ik_scrollback_ensure_layout s1 80 = Ret s2 /\
    ik_scrollback_get_total_physical_lines s2 = S (ik_scrollback_get_total_physical_lines s).
Proof.
  destruct (resize_there_and_back 80 81 newline_line ltac:(lia) ltac:(lia) ltac:(lia)
              newline_ok) as (s & s1 & s2 & E & E1 & E2 & Ht).
  exists s, s1, s2. split; [exact E|]. split; [exact E1|]. split; [exact E2|].
  rewrite Ht. replace (length _) with 1 by (by vm_compute). apply Nat.add_1_r.
Defined.

Lemma rows_to_bytes_witness :
  exists s, sb_after 10 sample_ops = Ret s /\
    ik_scrollback_calc_byte_range_for_rows s 0 (Z.to_nat (cached_width s)) 1 1 = Ret (5, 7, false).
Proof.
  destruct sample_after as (s & E & Hw). apply Z.eqb_eq in Hw.
  destruct (rows_to_bytes 10 sample_ops s 0 plain 1 1 ltac:(lia) sample_ok E eq_refl
              ltac:(apply (bool_decide_unpack _); vm_compute; exact I)
              ltac:(apply (bool_decide_unpack _); vm_compute; exact I)
              ltac:(apply (bool_decide_unpack _); vm_compute; exact I) ltac:(lia)) as (_ & Hr).
  exists s. split; [exact E|]. rewrite Hw in *. rewrite Hr by (vm_compute; lia). vm_compute. reflexivity.
Defined.

Lemma second_segment_rows_restart_witness :
  exists s, sb_after 10 sample_ops = Ret s /\
    ik_scrollback_calc_start_byte_for_row s 1 (Z.to_nat (cached_width s)) 2 = Ret 2.
Proof.
  destruct sample_after as (s & E & Hw). apply Z.eqb_eq in Hw. exists s. split; [exact E|].
  exact (second_segment_rows_restart 10 sample_ops s 1 [0x61]%Z [0x62; 0x63; 0x64; 0x65; 0x66]%Z 2
           ltac:(lia) sample_ok E eq_refl
           ltac:(apply (bool_decide_unpack _); vm_compute; exact I)
           ltac:(apply (bool_decide_unpack _); vm_compute; exact I)
           ltac:(apply (bool_decide_unpack _); vm_compute; exact I)
           ltac:(apply (bool_decide_unpack _); vm_compute; exact I)
           ltac:(rewrite Hw; vm_compute; lia)).
Defined.

Lemma copy_from_appends_witness :
  exists dest src dest', sb_after 10 sample_ops = Ret dest /\ sb_after 10 sample_ops = Ret src /\
    ik_scrollback_copy_from dest src = Ret dest' /\ ik_scrollback_get_line_count dest' = 6.
Proof.
  destruct sample_after as (s & E & _).
  destruct (copy_from_appends 10 10 sample_ops sample_ops s s ltac:(lia) ltac:(lia)
              sample_ok sample_ok E E) as (d & Ed & _ & Hc & _).
  exists s, s, d. split; [exact E|]. split; [exact E|]. split; [exact Ed|exact Hc].
Defined.

(** The rows of the second line above: all of its second segment starts at byte
    2, and a viewport that ends inside that segment draws nothing of it. *)
Example wrapped_segment_lost :
  match sb_after 10 sample_ops with
  | Ret s => (ik_scrollback_calc_byte_range_for_rows s 1 3 0 3,
              ik_scrollback_calc_byte_range_for_rows s 1 3 0 2,
              ik_scrollback_calc_byte_range_for_rows s 1 3 2 1)
  | _ => (Undef, Undef, Undef)
  end = (Ret (0, 7, true), Ret (0, 2, false), Ret (2, 7, true)).
Proof. by vm_compute. Qed.

End ScrollbackExamples.
