(* ===== verification/Layers.v ===== *)
(** * The layer cake (layer.c)

    The output buffer that layers write to, layers as an interface, and the
    stack of layers of which a window is rendered.  A layer reads the agent's
    view through pointers; here the view is the state [S] that its functions
    get and give back.  [layer_shows] is what a layer promises, and
    [render_loop_ok] shows that a cake of such layers draws exactly the rows of
    its window. *)

From S2P Require Import Prelude Slots CString ByteArray.

(** ** The output buffer *)

Record ik_output_buffer := mk_out {
  data : list Z;
  size : nat;
  capacity : nat
}.

Section buffer.
Context `{Allocator}.

Definition ik_output_buffer_create (initial_capacity : nat) : outcome ik_output_buffer :=
  assert! (0 <? initial_capacity)%nat in
  let! block := or_panic (talloc_realloc [] initial_capacity) in
  Ret (mk_out block 0 initial_capacity).

(** [len] bytes are copied from [bytes]; reading past them is undefined. *)
Definition ik_output_buffer_append (buf : ik_output_buffer) (bytes : list Z) (len : nat)
  : outcome ik_output_buffer :=
  if (len =? 0)%nat then Ret buf
  else
    let required_capacity := wrap64 (size buf + len) in
    let! buf :=
      if (capacity buf <? required_capacity)%nat then
        let new_capacity := wrap64 (capacity buf * 3) / 2 in
        let new_capacity := if (new_capacity <? required_capacity)%nat then required_capacity
                            else new_capacity in
        let! new_data := or_panic (talloc_realloc (data buf) new_capacity) in
        Ret (mk_out new_data (size buf) new_capacity)
      else Ret buf in
    let! src := mem_read 0 len bytes in
    let! d := mem_write (size buf) src (data buf) in
    Ret (mk_out d (size buf + len) (capacity buf)).

(** A string or a character array of a known length. *)
Definition put (bytes : list Z) (buf : ik_output_buffer) : outcome ik_output_buffer :=
  ik_output_buffer_append buf bytes (length bytes).

(** "\x1b[K\r\n" *)
Definition EOL : list Z := [0x1B; 0x5B; 0x4B; 13; 10]%Z.

(** The buffer holds [bs]; [4096] is the capacity of a frame's buffer. *)
Record out_holds (buf : ik_output_buffer) (bs : list Z) : Prop := {
  oh_size : size buf = length bs;
  oh_data : exists r, data buf = bs ++ r;
  oh_capacity : length (data buf) = capacity buf;
  oh_bound : capacity buf <= Nat.max 4096 (2 * length bs)
}.

Definition out_room (bs : list Z) : Prop := (Z.of_nat (length bs) < 2 ^ 60)%Z.

Context `{!AllocatorSpec}.

Lemma append_out_ok buf bs l :
  out_holds buf bs -> out_room (bs ++ l) ->
  exists buf', put l buf = Ret buf' /\ out_holds buf' (bs ++ l).
Proof.
  intros [Hs [r Hd] Hc Hb] Hroom. unfold put, ik_output_buffer_append, out_room in *.
  rewrite length_app in Hroom. destruct (Nat.eqb_spec (length l) 0) as [Hl|Hl].
  { destruct l; [|done]. rewrite app_nil_r. exists buf. split; [done|]. constructor; [done|by exists r|done..]. }
  rewrite Hs, wrap64_small by lia.
  match goal with |- context [obind ?m _] =>
    assert (exists d c r', m = Ret (mk_out d (length bs) c) /\ d = bs ++ r' /\ length d = c /\
              length bs + length l <= c /\ c <= Nat.max 4096 (2 * length (bs ++ l)))
      as (d & c & r' & -> & Ed & Elen & Hroom' & Hbound) end.
  { rewrite length_app. destruct (Nat.ltb_spec (capacity buf) (length bs + length l)) as [Hlt|Hge].
    - rewrite wrap64_small by lia.
      match goal with |- context [talloc_realloc _ ?n] => set (nc := n) end.
      assert (length bs + length l <= nc /\ nc <= 2 * (length bs + length l)) as [Hn1 Hn2].
      { subst nc. pose proof (Nat.Div0.div_le_upper_bound (capacity buf * 3) 2 (2 * capacity buf) ltac:(lia)).
        destruct (Nat.ltb_spec (capacity buf * 3 / 2) (length bs + length l)); lia. }
      destruct (realloc_some (data buf) nc) as [nd End]. rewrite End. cbn [or_panic obind].
      pose proof (realloc_length _ _ _ End) as Hlen.
      assert (length (data buf) <= nc) as Hle by lia.
      pose proof (realloc_prefix _ _ _ End Hle) as Hpre.
      exists nd, nc, (drop (length bs) nd). split; [done|]. split; [|split_and!; lia].
      rewrite <- (take_drop (length bs) nd) at 1. f_equal.
      apply (f_equal (take (length bs))) in Hpre. rewrite Hd in Hpre.
      rewrite take_take, Nat.min_l, take_app_length in Hpre by len_lia. exact Hpre.
    - exists (data buf), (capacity buf), r. split_and!; try done; try lia. by destruct buf; cbn in *; subst. }
  cbn [obind size data capacity]. rewrite mem_read_ok by lia. rewrite drop_0, firstn_all. cbn [obind].
  rewrite mem_write_ok by lia. cbn [obind]. eexists. split; [reflexivity|].
  subst d. rewrite length_app in Elen. constructor; cbn [size data capacity].
  - by rewrite length_app.
  - exists (drop (length l) r'). rewrite take_app_length, <- app_assoc. do 2 f_equal.
    rewrite drop_app_ge by lia. f_equal. lia.
  - rewrite take_app_length, !length_app, length_drop, length_app. lia.
  - done.
Qed.

(** A writer that appends [out]. *)
Definition emits (m : ik_output_buffer -> outcome ik_output_buffer) (out : list Z) : Prop :=
  forall buf bs, out_holds buf bs -> out_room (bs ++ out) ->
    exists buf', m buf = Ret buf' /\ out_holds buf' (bs ++ out).

Lemma emits_put l : emits (put l) l.
Proof. intros buf bs Hb Hr. by apply append_out_ok. Qed.

Lemma emits_nil : emits (fun buf => Ret buf) [].
Proof. intros buf bs Hb _. rewrite app_nil_r. by exists buf. Qed.

Lemma emits_bind m k out1 out2 :
  emits m out1 -> emits k out2 -> emits (fun buf => obind (m buf) k) (out1 ++ out2).
Proof.
  intros Hm Hk buf bs Hb Hr. destruct (Hm buf bs Hb) as (buf1 & -> & Hb1).
  { unfold out_room in *. rewrite !length_app in *. lia. }
  cbn [obind]. destruct (Hk buf1 (bs ++ out1) Hb1) as (buf2 & -> & Hb2).
  { by rewrite <- app_assoc. }
  exists buf2. split; [done|]. by rewrite <- app_assoc in Hb2.
Qed.

(** A sequence of literal appends. *)
Fixpoint puts (ls : list (list Z)) (buf : ik_output_buffer) : outcome ik_output_buffer :=
  match ls with
  | [] => Ret buf
  | l :: ls => let! buf := put l buf in puts ls buf
  end.

Lemma emits_puts ls : emits (puts ls) (concat ls).
Proof.
  induction ls as [|l ls IH]; [exact emits_nil|]. cbn [puts concat].
  exact (emits_bind (put l) (puts ls) l (concat ls) (emits_put l) IH).
Qed.

Lemma create_out_ok n : 0 < n -> n <= 4096 -> exists buf, ik_output_buffer_create n = Ret buf /\ out_holds buf [].
Proof.
  intros Hn Hm. unfold ik_output_buffer_create. rewrite (proj2 (Nat.ltb_lt _ _)) by done.
  destruct (realloc_some [] n) as [b E]. rewrite E. cbn [or_panic obind].
  pose proof (realloc_length _ _ _ E). eexists. split; [reflexivity|].
  constructor; cbn; [done|by exists b|done|lia].
Qed.

End buffer.

(** ** Layers *)

Record ik_layer (S : Type) := mk_layer {
  name : cstr;
  is_visible : S -> bool;
  get_height : S -> nat -> outcome (nat * S);
  render : S -> ik_output_buffer -> nat -> nat -> nat -> outcome (ik_output_buffer * S)
}.
Arguments mk_layer {S}. Arguments name {S}. Arguments is_visible {S}.
Arguments get_height {S}. Arguments render {S}.

#[export] Instance ik_layer_inhabited S : Inhabited (ik_layer S) :=
  populate (mk_layer [] (fun _ => false) (fun s _ => Ret (0, s)) (fun s b _ _ _ => Ret (b, s))).

Record ik_layer_cake (S : Type) := mk_cake {
  layers : list (ik_layer S);
  layer_count : nat;
  layer_capacity : nat;
  viewport_row : nat;
  viewport_height : nat
}.
Arguments mk_cake {S}. Arguments layers {S}. Arguments layer_count {S}. Arguments layer_capacity {S}.
Arguments viewport_row {S}. Arguments viewport_height {S}.

Section cake.
Context {S : Type} `{SlotAllocator}.

Definition ik_layer_cake_create (viewport_height : nat) : outcome (ik_layer_cake S) :=
  let! slots := or_panic (alloc_slots inhabitant 4) in
  Ret (mk_cake slots 0 4 0 viewport_height).

Definition ik_layer_cake_add_layer (cake : ik_layer_cake S) (layer : ik_layer S)
  : outcome (ik_layer_cake S) :=
  let! (slots, cap) :=
    if (layer_capacity cake <=? layer_count cake)%nat then
      let new_capacity := wrap64 (layer_capacity cake * 2) in
      let! slots := or_panic (realloc_slots (layers cake) new_capacity) in
      Ret (slots, new_capacity)
    else Ret (layers cake, layer_capacity cake) in
  let! slots := arr_set (layer_count cake) layer slots in
  Ret (mk_cake slots (Datatypes.S (layer_count cake)) cap (viewport_row cake) (viewport_height cake)).

(** [n] layers are left, from the [i]-th on. *)
Fixpoint height_loop (cake : ik_layer_cake S) (s : S) (width n i total : nat) : outcome (nat * S) :=
  match n with
  | 0 => Ret (total, s)
  | Datatypes.S n =>
      let! layer := arr_get (layers cake) i in
      if is_visible layer s then
        let! (h, s) := get_height layer s width in
        height_loop cake s width n (Datatypes.S i) (total + h)
      else height_loop cake s width n (Datatypes.S i) total
  end.

Definition ik_layer_cake_get_total_height (cake : ik_layer_cake S) (s : S) (width : nat)
  : outcome (nat * S) :=
  height_loop cake s width (layer_count cake) 0 0.

Fixpoint render_loop (cake : ik_layer_cake S) (s : S) (output : ik_output_buffer)
    (width viewport_end n i current_row : nat) : outcome (ik_output_buffer * S) :=
  match n with
  | 0 => Ret (output, s)
  | Datatypes.S n =>
      let! layer := arr_get (layers cake) i in
      if negb (is_visible layer s) then
        render_loop cake s output width viewport_end n (Datatypes.S i) current_row
      else
        let! (layer_height, s) := get_height layer s width in
        let layer_end := current_row + layer_height in
        let! (output, s) :=
          if (viewport_row cake <? layer_end)%nat && (current_row <? viewport_end)%nat then
            let start_row := if (current_row <? viewport_row cake)%nat
                             then viewport_row cake - current_row else 0 in
            let row_count := layer_height - start_row in
            let row_count := if (viewport_end <? layer_end)%nat
                             then row_count - (layer_end - viewport_end) else row_count in
            render layer s output width start_row row_count
          else Ret (output, s) in
        if (viewport_end <=? layer_end)%nat then Ret (output, s)
        else render_loop cake s output width viewport_end n (Datatypes.S i) layer_end
  end.

Definition ik_layer_cake_render (cake : ik_layer_cake S) (s : S) (output : ik_output_buffer)
    (width : nat) : outcome (ik_output_buffer * S) :=
  assert! (0 <? width)%nat in
  render_loop cake s output width (viewport_row cake + viewport_height cake) (layer_count cake) 0 0.

End cake.

(** ** What a layer promises *)

Section promise.
Context {S : Type} (St : S -> Prop) (width : nat).

(** In the states [St] the layer has the rows [rows], and draws the parts of
    them that [part] admits (start and number of rows); [St] is kept. *)
Record layer_shows (L : ik_layer S) (rows : list (list Z)) (part : nat -> nat -> Prop) : Prop := {
  ls_visible s : St s -> is_visible L s = true;
  ls_height s : St s -> exists s', get_height L s width = Ret (length rows, s') /\ St s';
  ls_render s start count buf bs :
    St s -> start + count <= length rows -> part start count ->
    out_holds buf bs -> out_room (bs ++ concat (take count (drop start rows))) ->
    exists buf' s', render L s buf width start count = Ret (buf', s') /\ St s' /\
      out_holds buf' (bs ++ concat (take count (drop start rows)))
}.

Definition layer_hidden (L : ik_layer S) : Prop := forall s, St s -> is_visible L s = false.

(** A layer of a cake: hidden, or shown with its rows. *)
Definition layer_is (L : ik_layer S) (o : option (list (list Z) * (nat -> nat -> Prop))) : Prop :=
  match o with
  | Some (rows, part) => layer_shows L rows part
  | None => layer_hidden L
  end.

Definition rows_of (o : option (list (list Z) * (nat -> nat -> Prop))) : list (list Z) :=
  match o with Some (rows, _) => rows | None => [] end.

End promise.

(** The rows of [rows], which begin at [cur], that lie in [v, e). *)
Definition window {A} (v e cur : nat) (rows : list A) : list A :=
  take (e - Nat.max cur v) (drop (v - cur) rows).

Lemma window_app {A} v e cur (l1 l2 : list A) :
  window v e cur (l1 ++ l2) = window v e cur l1 ++ window v e (cur + length l1) l2.
Proof.
  unfold window. rewrite drop_app, take_app, length_drop. f_equal. f_equal; [|f_equal]; lia.
Qed.

Lemma window_nil {A} v e cur : window v e cur (@nil A) = [].
Proof. unfold window. by rewrite drop_nil, take_nil. Qed.

Lemma window_empty {A} v e cur (rows : list A) :
  cur + length rows <= v \/ e <= cur -> window v e cur rows = [].
Proof.
  intros Ho. unfold window. destruct Ho.
  - rewrite drop_ge by lia. apply take_nil.
  - replace (e - Nat.max cur v) with 0 by lia. done.
Qed.

(** The part of a layer that lies in the window is one that it can draw. *)
Fixpoint parts_fit (v e cur : nat) (os : list (option (list (list Z) * (nat -> nat -> Prop)))) : Prop :=
  match os with
  | [] => True
  | o :: os =>
      match o with
      | Some (rows, part) =>
          (v < cur + length rows -> cur < e -> part (v - cur) (length (window v e cur rows)))
      | None => True
      end /\ parts_fit v e (cur + length (rows_of o)) os
  end.

Section rendering.
Context `{!Allocator} `{!AllocatorSpec} {S : Type} (St : S -> Prop) (width : nat).

Notation is_layer := (layer_is St width).

Lemma render_loop_ok cake ls os d r v h s output bs cur :
  layers cake = d ++ ls ++ r -> viewport_row cake = v -> Forall2 is_layer ls os -> St s ->
  parts_fit v (v + h) cur os -> out_holds output bs ->
  out_room (bs ++ concat (window v (v + h) cur (os ≫= rows_of))) ->
  exists buf' s', render_loop cake s output width (v + h) (length ls) (length d) cur = Ret (buf', s') /\
    St s' /\ out_holds buf' (bs ++ concat (window v (v + h) cur (os ≫= rows_of))).
Proof.
  intros Hl Hv HF. revert d s output bs cur Hl. induction HF as [|L o ls os HL HF IH];
    intros d s output bs cur Hl Hs Hp Ho Hroom.
  { exists output, s. cbn [mbind list_bind]. rewrite window_nil. cbn [concat]. by rewrite app_nil_r. }
  cbn [render_loop length]. rewrite Hl. rewrite <- app_comm_cons, arr_get_app. cbn [obind].
  assert (layers cake = (d ++ [L]) ++ ls ++ r) as Hl' by (rewrite Hl, <- app_assoc; done).
  specialize (IH (d ++ [L])). rewrite length_app, Nat.add_1_r in IH.
  cbn [parts_fit mbind list_bind] in *. fold (mbind (M := list) rows_of os) in *.
  destruct Hp as [Hpart Hp]. destruct o as [[rows part]|].
  2: { cbn [layer_is] in HL. rewrite (HL s Hs). cbn [negb rows_of app length] in *.
       rewrite Nat.add_0_r in Hp. by apply IH. }
  cbn [layer_is] in HL. rewrite (ls_visible _ _ _ _ _ HL s Hs). cbn [negb].
  destruct (ls_height _ _ _ _ _ HL s Hs) as (s1 & -> & Hs1). cbn [obind rows_of] in *. rewrite Hv.
  rewrite window_app, concat_app in Hroom |- *.
  match goal with |- context [obind ?m _] =>
    assert (exists buf1 s2, m = Ret (buf1, s2) /\ St s2 /\
              out_holds buf1 (bs ++ concat (window v (v + h) cur rows))) as (buf1 & s2 & -> & Hs2 & Ho1) end.
  { destruct ((v <? cur + length rows)%nat && (cur <? v + h)%nat) eqn:Ein.
    2: { rewrite window_empty; [|apply andb_false_iff in Ein; rewrite !Nat.ltb_ge in Ein; lia].
         cbn [concat]. rewrite app_nil_r. by exists output, s1. }
    apply andb_true_iff in Ein as [E1%Nat.ltb_lt E2%Nat.ltb_lt].
    specialize (Hpart E1 E2).
    assert ((if (cur <? v)%nat then v - cur else 0) = v - cur) as ->
      by (destruct (Nat.ltb_spec cur v); lia).
    assert (length (window v (v + h) cur rows) = Nat.min (v + h - Nat.max cur v) (length rows - (v - cur))) as Elen
      by (unfold window; rewrite length_take, length_drop; done).
    assert ((if (v + h <? cur + length rows)%nat
             then length rows - (v - cur) - (cur + length rows - (v + h)) else length rows - (v - cur))
            = length (window v (v + h) cur rows)) as ->
      by (rewrite Elen; destruct (Nat.ltb_spec (v + h) (cur + length rows)); lia).
    assert (window v (v + h) cur rows = take (length (window v (v + h) cur rows)) (drop (v - cur) rows)) as Ew.
    { rewrite Elen. unfold window.
      destruct (Nat.le_ge_cases (v + h - Nat.max cur v) (length rows - (v - cur))).
      - by rewrite Nat.min_l.
      - rewrite Nat.min_r by done. by rewrite !firstn_all2 by (rewrite length_drop; lia). }
    destruct (ls_render _ _ _ _ _ HL s1 (v - cur) (length (window v (v + h) cur rows)) output bs Hs1)
      as (buf1 & s2 & E & Hs2 & Ho1); [rewrite Elen; lia|done|done|..].
    { rewrite <- Ew. unfold out_room in *. rewrite !length_app in *. lia. }
    exists buf1, s2. rewrite <- Ew in Ho1. done. }
  cbn [obind]. destruct (Nat.leb_spec (v + h) (cur + length rows)) as [Hend|Hend].
  - rewrite (window_empty v (v + h) (cur + length rows)) in * by lia. cbn [concat].
    rewrite app_nil_r. by exists buf1, s2.
  - rewrite app_assoc in Hroom |- *. by apply IH.
Qed.

Lemma height_loop_ok cake ls os d r s total :
  layers cake = d ++ ls ++ r -> Forall2 is_layer ls os -> St s ->
  exists s', height_loop cake s width (length ls) (length d) total
    = Ret (total + length (os ≫= rows_of), s') /\ St s'.
Proof.
  intros Hl HF. revert d s total Hl. induction HF as [|L o ls os HL HF IH]; intros d s total Hl Hs.
  { exists s. cbn. by rewrite Nat.add_0_r. }
  cbn [height_loop length]. rewrite Hl. rewrite <- app_comm_cons, arr_get_app. cbn [obind].
  assert (layers cake = (d ++ [L]) ++ ls ++ r) as Hl' by (rewrite Hl, <- app_assoc; done).
  specialize (IH (d ++ [L])). rewrite length_app, Nat.add_1_r in IH.
  cbn [mbind list_bind]. fold (mbind (M := list) rows_of os). rewrite length_app.
  destruct o as [[rows part]|]; cbn [layer_is rows_of length] in *.
  - rewrite (ls_visible _ _ _ _ _ HL s Hs).
    destruct (ls_height _ _ _ _ _ HL s Hs) as (s1 & -> & Hs1). cbn [obind].
    destruct (IH s1 (total + length rows) Hl' Hs1) as (s2 & -> & Hs2). exists s2.
    split; [do 2 f_equal; lia|done].
  - rewrite (HL s Hs). by apply IH.
Qed.

End rendering.

(** *** Building a cake *)

Section building.
Context {S : Type} `{!SlotAllocator} `{!SlotAllocatorSpec}.

Fixpoint add_layers (cake : ik_layer_cake S) (ls : list (ik_layer S)) : outcome (ik_layer_cake S) :=
  match ls with
  | [] => Ret cake
  | L :: ls => let! cake := ik_layer_cake_add_layer cake L in add_layers cake ls
  end.

(** The cake has the layers [ls]. *)
Record cake_rep (cake : ik_layer_cake S) (ls : list (ik_layer S)) : Prop := {
  ck_count : layer_count cake = length ls;
  ck_layers : exists r, layers cake = ls ++ r;
  ck_capacity : length (layers cake) = layer_capacity cake;
  ck_positive : 0 < layer_capacity cake
}.

Lemma create_cake_ok h :
  exists cake, ik_layer_cake_create (S := S) h = Ret cake /\ cake_rep cake [] /\
    viewport_height cake = h /\ viewport_row cake = 0 /\ layer_capacity cake = 4.
Proof.
  unfold ik_layer_cake_create. destruct (alloc_slots_some (inhabitant : ik_layer S) 4) as (l & -> & Hl).
  cbn [or_panic obind]. eexists. split; [reflexivity|]. split_and!; try done.
  constructor; cbn; [done|by exists l|done|lia].
Qed.

Lemma add_layer_ok cake ls L :
  cake_rep cake ls -> (Z.of_nat (layer_capacity cake) < 2 ^ 62)%Z ->
  exists cake', ik_layer_cake_add_layer cake L = Ret cake' /\ cake_rep cake' (ls ++ [L]) /\
    viewport_height cake' = viewport_height cake /\ viewport_row cake' = viewport_row cake /\
    layer_capacity cake' <= 2 * layer_capacity cake.
Proof.
  intros [Hc [r Hl] Hcap Hpos] Hb. unfold ik_layer_cake_add_layer.
  match goal with |- context [obind ?m _] =>
    assert (exists r' cap, m = Ret (ls ++ r', cap) /\ length (ls ++ r') = cap /\ length ls < cap /\
              cap <= 2 * layer_capacity cake) as (r' & cap & -> & Hlen & Hlt & Hcap') end.
  { destruct (Nat.leb_spec (layer_capacity cake) (layer_count cake)) as [Hfull|Hroom].
    - rewrite wrap64_small by lia.
      destruct (realloc_slots_some (layers cake) (layer_capacity cake * 2)) as (rest & -> & Hlen); [lia|].
      cbn [or_panic obind]. rewrite Hl, <- app_assoc in *. exists (r ++ rest), (layer_capacity cake * 2).
      rewrite length_app in Hcap. split_and!; [done|done| |lia].
      rewrite !length_app in Hlen. lia.
    - exists r, (layer_capacity cake). rewrite <- Hl. split_and!; [done|done|lia|lia]. }
  cbn [obind]. rewrite Hc, arr_set_end by (intros ->; rewrite app_nil_r in Hlen; lia).
  cbn [obind]. eexists. split; [reflexivity|]. split_and!; try done.
  constructor; cbn; [rewrite length_app; cbn; lia|by eexists| |lia].
  rewrite !length_app, length_drop in *. cbn. destruct r'; cbn in *; lia.
Qed.

Lemma add_layers_ok cake ls0 ls :
  cake_rep cake ls0 -> (Z.of_nat (layer_capacity cake * 2 ^ length ls) < 2 ^ 62)%Z ->
  exists cake', add_layers cake ls = Ret cake' /\ cake_rep cake' (ls0 ++ ls) /\
    viewport_height cake' = viewport_height cake /\ viewport_row cake' = viewport_row cake.
Proof.
  revert cake ls0. induction ls as [|L ls IH]; intros cake ls0 Hr Hb; cbn [add_layers].
  { exists cake. by rewrite app_nil_r. }
  cbn [length] in Hb. rewrite Nat.pow_succ_r' in Hb. pose proof (Nat.pow_nonzero 2 (length ls) ltac:(lia)).
  destruct (add_layer_ok cake ls0 L Hr) as (c1 & -> & Hr1 & E1 & E2 & Hc1); [nia|]. cbn [obind].
  destruct (IH c1 (ls0 ++ [L]) Hr1) as (c2 & -> & Hr2 & E3 & E4); [nia|].
  exists c2. rewrite <- app_assoc in Hr2. split_and!; [done|done|congruence|congruence].
Qed.

End building.
