(* ===== verification/AgentLayers.v ===== *)
(** * The layers of an agent's screen (layer_banner.c, layer_scrollback.c,
    layer_spinner.c, layer_separator.c, layer_input.c, layer_completion.c,
    layer_status.c, agent_init_layers of agent.c)

    The seven layers over the view of an agent.  The separator's debug numbers
    are left out: nothing in the program sets their pointers. *)

From Stdlib Require Import String.
From stdpp Require Import strings.
From S2P Require Import Prelude Slots CString ByteArray Utf8 Unicode Cursor Layout Scrollback.
From S2P Require Import OutputStyle Layers.

(** ** The view *)

Record ik_spinner_state := mk_spinner {
  frame_index : nat;
  visible : bool;
  last_advance_ms : Z
}.

Record ik_separator_nav_context := mk_nav {
  parent_uuid : option cstr;
  prev_sibling_uuid : option cstr;
  current_uuid : option cstr;
  next_sibling_uuid : option cstr;
  child_count : nat
}.

Record ik_completion := mk_completion {
  candidates : list cstr;
  current : nat
}.

(** The fields of the agent that its layers point to; [input_text] is the text
    with its length. *)
Record view := mk_view {
  banner_visible : bool;
  v_scrollback : ik_scrollback;
  spinner_state : ik_spinner_state;
  separator_visible : bool;
  nav_ctx : ik_separator_nav_context;
  input_buffer_visible : bool;
  input_text : list Z;
  completion : option ik_completion;
  status_visible : bool;
  model : option cstr;
  thinking_level : Z
}.

Definition with_scrollback (s : ik_scrollback) (v : view) : view :=
  mk_view (banner_visible v) s (spinner_state v) (separator_visible v) (nav_ctx v)
    (input_buffer_visible v) (input_text v) (completion v) (status_visible v) (model v)
    (thinking_level v).

(** A layer that is drawn by a writer and leaves the view alone. *)
Definition plain_layer (name : cstr) (is_visible : view -> bool) (height : view -> nat -> nat)
    (draw : view -> nat -> nat -> nat -> ik_output_buffer -> outcome ik_output_buffer) : ik_layer view :=
  mk_layer name is_visible (fun v width => Ret (height v width, v))
    (fun v output width start_row row_count =>
       let! output := draw v width start_row row_count output in Ret (output, v)).

Section layers.
Context `{Allocator}.

(** ** layer_banner.c *)

Definition IK_VERSION : cstr := lit "0.12.0".

(** A box-drawing character, U+2500 to U+257F. *)
Definition box (low : Z) : list Z := [0xE2; 0x95; low]%Z.
Definition BOX_LIGHT_HORIZONTAL : list Z := [0xE2; 0x94; 0x80]%Z.
Definition BOX_LIGHT_VERTICAL : list Z := [0xE2; 0x94; 0x82]%Z.
Definition BLACK_CIRCLE : list Z := [0xE2; 0x97; 0x8F]%Z.

Definition fg (color : Z) : list Z := fst (ik_ansi_fg_256 16 color).

(** The appends of a row of the banner. *)
Definition banner_row (width row : nat) : list (list Z) :=
  let border := [fg 245] ++ replicate width (box 0x90) ++ [IK_ANSI_RESET; EOL] in
  match row with
  | 1 => [lit " "; fg 81; box 0xAD; BOX_LIGHT_HORIZONTAL; box 0xAE; box 0xAD; BOX_LIGHT_HORIZONTAL;
          box 0xAE; IK_ANSI_RESET; EOL]
  | 2 => [fg 211; lit "("; IK_ANSI_RESET; fg 81; BOX_LIGHT_VERTICAL; IK_ANSI_RESET; fg 214; BLACK_CIRCLE;
          IK_ANSI_RESET; fg 81; BOX_LIGHT_VERTICAL; BOX_LIGHT_VERTICAL; IK_ANSI_RESET; fg 214; BLACK_CIRCLE;
          IK_ANSI_RESET; fg 81; BOX_LIGHT_VERTICAL; IK_ANSI_RESET; fg 211; lit ")"; IK_ANSI_RESET;
          lit "    "; fg 153; lit "Ikigai v"; IK_VERSION; IK_ANSI_RESET; EOL]
  | 3 => [lit " "; fg 81; box 0xB0; BOX_LIGHT_HORIZONTAL; box 0xAF; box 0xB0; BOX_LIGHT_HORIZONTAL;
          box 0xAF; IK_ANSI_RESET; lit "     "; fg 250; lit "Agentic Orchestration"; IK_ANSI_RESET; EOL]
  | 4 => [lit "  "; fg 211; box 0xB0; BOX_LIGHT_HORIZONTAL; BOX_LIGHT_HORIZONTAL; box 0xAF;
          IK_ANSI_RESET; EOL]
  | _ => border
  end.

Definition banner_draw_row (width start_row row_count row : nat) (output : ik_output_buffer)
  : outcome ik_output_buffer :=
  if (start_row <=? row)%nat && (row <? start_row + row_count)%nat then puts (banner_row width row) output
  else Ret output.

Definition banner_render (width start_row row_count : nat) (output : ik_output_buffer)
  : outcome ik_output_buffer :=
  let draw := banner_draw_row width start_row row_count in
  let! output := draw 0 output in
  let! output := draw 1 output in
  let! output := draw 2 output in
  let! output := draw 3 output in
  let! output := draw 4 output in
  draw 5 output.

Definition ik_banner_layer : ik_layer view :=
  plain_layer (lit "banner") banner_visible (fun _ _ => 6) (fun _ => banner_render).

(** ** layer_spinner.c *)

Definition SPINNER_FRAMES : list (list Z) :=
  (fun low => [0xE2; 0xA0; low]%Z) <$> [0x8B; 0x99; 0xB9; 0xB8; 0xBC; 0xB4; 0xA6; 0xA7; 0x87; 0x8F]%Z.
Definition SPINNER_FRAME_COUNT : nat := 10.

Definition ik_spinner_get_frame (state : ik_spinner_state) : outcome (list Z) :=
  arr_get SPINNER_FRAMES (frame_index state mod SPINNER_FRAME_COUNT).

Definition ik_spinner_advance (state : ik_spinner_state) : ik_spinner_state :=
  mk_spinner (wrap64 (frame_index state + 1) mod SPINNER_FRAME_COUNT) (visible state) (last_advance_ms state).

Definition ik_spinner_maybe_advance (state : ik_spinner_state) (now_ms : Z) : ik_spinner_state * bool :=
  let elapsed_ms := (now_ms - last_advance_ms state)%Z in
  if (120 <=? elapsed_ms)%Z then
    let state := ik_spinner_advance state in
    (mk_spinner (frame_index state) (visible state) now_ms, true)
  else (state, false).

Definition spinner_render (v : view) (output : ik_output_buffer) : outcome ik_output_buffer :=
  let! frame := ik_spinner_get_frame (spinner_state v) in
  let! output := put frame output in
  let! output := ik_output_buffer_append output (lit " Waiting for response...") 24 in
  put EOL output.

Definition ik_spinner_layer : ik_layer view :=
  plain_layer (lit "spinner") (fun v => visible (spinner_state v)) (fun _ _ => 1)
    (fun v _ _ _ => spinner_render v).

(** ** layer_separator.c *)

Definition ANSI_DIM : cstr := 0x1B%Z :: lit "[2m".
Definition arrow (low : Z) : list Z := [0xE2; 0x86; low]%Z.
Definition ARROW_UP : list Z := arrow 0x91.
Definition ARROW_DOWN : list Z := arrow 0x93.
Definition ARROW_LEFT : list Z := arrow 0x90.
Definition ARROW_RIGHT : list Z := arrow 0x92.

(** "snprintf(s, 32, ARROW "%.6s...", uuid)", or the dimmed arrow. *)
Definition nav_indicator (a : list Z) (uuid : option cstr) : cstr :=
  snprintf 32 (match uuid with
               | Some u => a ++ take 6 u ++ lit "..."
               | None => ANSI_DIM ++ a ++ lit "-" ++ IK_ANSI_RESET
               end).

Definition child_indicator (n : nat) : cstr :=
  snprintf 32 (if (0 <? n)%nat then ARROW_DOWN ++ show_int (Z.of_nat n)
               else ANSI_DIM ++ ARROW_DOWN ++ lit "-" ++ IK_ANSI_RESET).

(** The text before it is cut to the array of 256 bytes. *)
Definition nav_text (nav : ik_separator_nav_context) : cstr :=
  match current_uuid nav with
  | None => []
  | Some uuid =>
      lit " " ++ nav_indicator ARROW_UP (parent_uuid nav) ++ lit " "
        ++ nav_indicator ARROW_LEFT (prev_sibling_uuid nav) ++ lit " "
        ++ snprintf 32 (lit "[" ++ take 6 uuid ++ lit "...]") ++ lit " "
        ++ nav_indicator ARROW_RIGHT (next_sibling_uuid nav) ++ lit " "
        ++ child_indicator (child_count nav) ++ lit " "
  end.

Fixpoint draw_times (n : nat) (bytes : list Z) (output : ik_output_buffer) : outcome ik_output_buffer :=
  match n with
  | 0 => Ret output
  | S n => let! output := put bytes output in draw_times n bytes output
  end.

Definition separator_render `{Utf8proc} (v : view) (width : nat) (output : ik_output_buffer)
  : outcome ik_output_buffer :=
  let nav_str := snprintf 256 (nav_text (nav_ctx v)) in
  let nav_len := length (nav_text (nav_ctx v)) in
  let! nav_visual := ik_scrollback_calculate_display_width nav_str nav_len in
  let info_visual := nav_visual in
  let sep_chars := if (0 <? info_visual)%nat && (info_visual <? width)%nat then width - info_visual
                   else width in
  let! output := draw_times sep_chars BOX_LIGHT_HORIZONTAL output in
  let! output := if (0 <? nav_len)%nat then ik_output_buffer_append output nav_str nav_len
                 else Ret output in
  put EOL output.

Definition ik_separator_layer `{Utf8proc} : ik_layer view :=
  plain_layer (lit "separator") separator_visible (fun _ _ => 1) (fun v width _ _ => separator_render v width).

(** The pointers given to the separator layer. *)
Definition ik_separator_layer_set_nav_context (v : view)
    (parent prev_sibling cur next_sibling : option cstr) (children : nat) : view :=
  mk_view (banner_visible v) (v_scrollback v) (spinner_state v) (separator_visible v)
    (mk_nav parent prev_sibling cur next_sibling children)
    (input_buffer_visible v) (input_text v) (completion v) (status_visible v) (model v) (thinking_level v).

(** ** layer_input.c *)

(** The loop over the bytes of the text. *)
Fixpoint input_height_loop (text : list Z) (width physical_lines current_col : nat) : nat :=
  match text with
  | [] => physical_lines
  | c :: text =>
      if (c =? 10)%Z then input_height_loop text width (S physical_lines) 0
      else if (width <=? S current_col)%nat then input_height_loop text width (S physical_lines) 0
      else input_height_loop text width physical_lines (S current_col)
  end.

Definition input_get_height (v : view) (width : nat) : nat :=
  match input_text v with
  | [] => 1
  | text => input_height_loop text width 1 0
  end.

(** A text with its newlines as ends of lines, byte by byte. *)
Fixpoint draw_text (text : list Z) (output : ik_output_buffer) : outcome ik_output_buffer :=
  match text with
  | [] => Ret output
  | c :: text =>
      let! output := if (c =? 10)%Z then put EOL output else put [c] output in
      draw_text text output
  end.

Definition input_render (v : view) (output : ik_output_buffer) : outcome ik_output_buffer :=
  match input_text v with
  | [] => put EOL output
  | text =>
      let! output := draw_text text output in
      if (byte_at text (length text - 1) =? 10)%Z then Ret output else put EOL output
  end.

Definition ik_input_layer : ik_layer view :=
  plain_layer (lit "input") input_buffer_visible input_get_height (fun v _ _ _ => input_render v).

(** ** layer_completion.c *)

(** The registry of commands.c: names and descriptions. *)
Definition commands : list (cstr * cstr) :=
  [(lit "clear", lit "Clear scrollback, session messages, and marks");
   (lit "mark", lit "Create a checkpoint for rollback (usage: /mark [label])");
   (lit "rewind", lit "Rollback to a checkpoint (usage: /rewind [label])");
   (lit "fork", lit "Create a child agent (usage: /fork)");
   (lit "kill", lit "Terminate agent (usage: /kill [uuid])");
   (lit "send", lit "Send message to agent (usage: /send <uuid> " ++ [34%Z] ++ lit "message" ++ [34%Z] ++ lit ")");
   (lit "wait", lit "Wait for messages (usage: /wait TIMEOUT [UUID...])");
   (lit "reap", lit "Remove dead agents (usage: /reap [uuid])");
   (lit "agents", lit "Display agent hierarchy tree");
   (lit "help", lit "Show available commands");
   (lit "model", lit "Switch LLM model (usage: /model <name>)");
   (lit "system", lit "Set system message (usage: /system <text>)");
   (lit "tool", lit "List tools or show schema (usage: /tool [name])");
   (lit "refresh", lit "Reload tool registry");
   (lit "pin", lit "Manage pinned documents (usage: /pin [path])");
   (lit "unpin", lit "Remove pinned document (usage: /unpin <path>)");
   (lit "toolset", lit "Filter tools visible to LLM (usage: /toolset [tool1, tool2, ...])");
   (lit "exit", lit "Exit the application")].

Definition ik_cmd_get_all : list (cstr * cstr) := commands.

Definition description_of (candidate : cstr) : cstr :=
  match List.find (fun c => strcmp_eq (fst c) candidate) ik_cmd_get_all with
  | Some (_, description) => description
  | None => []
  end.

Definition draw_candidate (width : nat) (is_current : bool) (candidate : cstr) (output : ik_output_buffer)
  : outcome ik_output_buffer :=
  let description := description_of candidate in
  let! output := if is_current then put (0x1B%Z :: lit "[7;1m") output else Ret output in
  let! output := puts [lit "  "; candidate; lit "   "; description] output in
  let! output := if is_current then put (0x1B%Z :: lit "[0m") output else Ret output in
  let visible_len := 2 + length candidate + 3 + length description in
  let! output := draw_times (width - visible_len) (lit " ") output in
  put EOL output.

(** [n] candidates are left, from the [i]-th on. *)
Fixpoint draw_candidates (width : nat) (comp : ik_completion) (n i : nat) (output : ik_output_buffer)
  : outcome ik_output_buffer :=
  match n with
  | 0 => Ret output
  | S n =>
      let! candidate := arr_get (candidates comp) i in
      let! output := draw_candidate width (i =? current comp)%nat candidate output in
      draw_candidates width comp n (S i) output
  end.

Definition completion_render (v : view) (width row_count : nat) (output : ik_output_buffer)
  : outcome ik_output_buffer :=
  match completion v with
  | None => Ret output
  | Some comp =>
      if (row_count =? 0)%nat then Ret output
      else
        let count := length (candidates comp) in
        draw_candidates width comp (if (row_count <? count)%nat then row_count else count) 0 output
  end.

Definition ik_completion_layer : ik_layer view :=
  plain_layer (lit "completion") (fun v => match completion v with Some _ => true | None => false end)
    (fun v _ => match completion v with Some c => length (candidates c) | None => 0 end)
    (fun v width _ row_count => completion_render v width row_count).

(** ** layer_status.c *)

Definition ROBOT_EMOJI : list Z := [0xF0; 0x9F; 0xA4; 0x96]%Z.

Definition ik_commands_thinking_level_to_string (level : Z) : cstr :=
  if (level =? 0)%Z then lit "min" else if (level =? 1)%Z then lit "low"
  else if (level =? 2)%Z then lit "medium" else if (level =? 3)%Z then lit "high" else lit "unknown".

Definition status_line (v : view) : list (list Z) :=
  [ROBOT_EMOJI; lit " "] ++
  match model v with
  | None => [fg 153; lit "(no model)"; IK_ANSI_RESET]
  | Some m =>
      [fg 153; m; lit "/"; ik_commands_thinking_level_to_string (thinking_level v); IK_ANSI_RESET]
  end ++ [EOL].

Definition status_render (v : view) (width : nat) (output : ik_output_buffer) : outcome ik_output_buffer :=
  let! output := draw_times width BOX_LIGHT_HORIZONTAL output in
  let! output := put EOL output in
  puts (status_line v) output.

Definition ik_status_layer : ik_layer view :=
  plain_layer (lit "status") status_visible (fun _ _ => 2) (fun v width _ _ => status_render v width).

(** ** layer_scrollback.c *)

Section scrollback.
Context `{Utf8proc}.

Definition scrollback_get_height (v : view) (width : nat) : outcome (nat * view) :=
  let! s := ik_scrollback_ensure_layout (v_scrollback v) (Z.of_nat width) in
  Ret (ik_scrollback_get_total_physical_lines s, with_scrollback s v).

(** The bytes [j], [j + 1], ... of a line, [n] of them, with its newlines as
    ends of lines; [line_text] is the line's offset in the text buffer. *)
Fixpoint draw_bytes (text_buffer : list Z) (line_text n j : nat) (output : ik_output_buffer)
  : outcome ik_output_buffer :=
  match n with
  | 0 => Ret output
  | S n =>
      let! c := arr_get text_buffer (line_text + j) in
      let! output := if (c =? 10)%Z then put EOL output else put [c] output in
      draw_bytes text_buffer line_text n (S j) output
  end.

(** The lines from [i] on, [n] of them; the last is [end_line_idx]. *)
Fixpoint draw_lines (s : ik_scrollback) (width start_line_idx start_row_offset end_line_idx end_row_offset n i : nat)
    (output : ik_output_buffer) : outcome ik_output_buffer :=
  match n with
  | 0 => Ret output
  | S n =>
      let! (line_text, _) := ignore_error (ik_scrollback_get_line_text s i) in
      let line_start_row := if (i =? start_line_idx)%nat then start_row_offset else 0 in
      let! l := arr_get (layouts s) i in
      let line_row_count := if (i =? end_line_idx)%nat then end_row_offset - line_start_row + 1
                            else physical_lines l - line_start_row in
      let! (render_start, render_end, is_line_end) :=
        ik_scrollback_calc_byte_range_for_rows s i width line_start_row line_row_count in
      let! output := draw_bytes (text_buffer s) line_text (render_end - render_start) render_start output in
      let! output := if is_line_end then put EOL output else Ret output in
      draw_lines s width start_line_idx start_row_offset end_line_idx end_row_offset n (S i) output
  end.

Definition scrollback_render (v : view) (output : ik_output_buffer) (width start_row row_count : nat)
  : outcome (ik_output_buffer * view) :=
  let! s := ik_scrollback_ensure_layout (v_scrollback v) (Z.of_nat width) in
  let v := with_scrollback s v in
  let total_lines := ik_scrollback_get_line_count s in
  if (total_lines =? 0)%nat || (row_count =? 0)%nat then Ret (output, v)
  else
    match ik_scrollback_find_logical_line_at_physical_row s start_row with
    | Fail _ => Ret (output, v)
    | Panic => Panic
    | Undef => Undef
    | NoFuel => NoFuel
    | Ret (start_line_idx, start_row_offset) =>
        let! (end_line_idx, end_row_offset) :=
          match ik_scrollback_find_logical_line_at_physical_row s (start_row + row_count - 1) with
          | Fail _ =>
              let! l := arr_get (layouts s) (total_lines - 1) in
              Ret (total_lines - 1, physical_lines l - 1)
          | m => m
          end in
        assert! (end_line_idx <? total_lines)%nat in
        let! output := draw_lines s width start_line_idx start_row_offset end_line_idx end_row_offset
                         (S end_line_idx - start_line_idx) start_line_idx output in
        Ret (output, v)
    end.

Definition ik_scrollback_layer : ik_layer view :=
  mk_layer (lit "scrollback") (fun _ => true) scrollback_get_height scrollback_render.

(** ** agent.c *)

Definition agent_layers : list (ik_layer view) :=
  [ik_banner_layer; ik_scrollback_layer; ik_spinner_layer; ik_separator_layer; ik_input_layer;
   ik_completion_layer; ik_status_layer].

Definition agent_init_layers `{SlotAllocator} (cake : ik_layer_cake view) : outcome (ik_layer_cake view) :=
  add_layers cake agent_layers.

End scrollback.
End layers.

(** ** What the layers promise *)

Section promises.
Context `{!Allocator} `{!AllocatorSpec}.
Implicit Types (St : view -> Prop) (width : nat).

Lemma plain_layer_shows St width name is_visible height draw rows part :
  (forall v, St v -> is_visible v = true) -> (forall v, St v -> height v width = length rows) ->
  (forall v start count, St v -> start + count <= length rows -> part start count ->
     emits (draw v width start count) (concat (take count (drop start rows)))) ->
  layer_shows St width (plain_layer name is_visible height draw) rows part.
Proof.
  intros Hv Hh Hd. constructor; cbn [Layers.is_visible get_height render plain_layer].
  - exact Hv.
  - intros v Hs. exists v. by rewrite Hh.
  - intros v start count buf bs Hs Hle Hp Hb Hr.
    destruct (Hd v start count Hs Hle Hp buf bs Hb Hr) as (buf' & -> & Hb'). by exists buf', v.
Qed.

(** A layer that is always drawn whole. *)
Definition whole (n start count : nat) : Prop := start = 0 /\ count = n.

Lemma whole_layer_shows St width name is_visible height draw rows :
  (forall v, St v -> is_visible v = true) -> (forall v, St v -> height v width = length rows) ->
  (forall v, St v -> emits (draw v width 0 (length rows)) (concat rows)) ->
  layer_shows St width (plain_layer name is_visible height draw) rows (whole (length rows)).
Proof.
  intros Hv Hh Hd. apply plain_layer_shows; [done|done|].
  intros v start count Hs _ [-> ->]. rewrite drop_0, firstn_all. by apply Hd.
Qed.

Lemma emits_times n b : emits (draw_times n b) (concat (replicate n b)).
Proof.
  induction n as [|n IH]; [exact emits_nil|]. cbn [draw_times replicate concat].
  exact (emits_bind (put b) (draw_times n b) b _ (emits_put b) IH).
Qed.

Lemma emits_eq (m : ik_output_buffer -> outcome ik_output_buffer) out out' : emits m out -> out = out' -> emits m out'.
Proof. by intros ? <-. Qed.

Lemma emits_append l n : n = length l -> emits (fun buf => ik_output_buffer_append buf l n) l.
Proof. intros ->. exact (emits_put l). Qed.

(** *** Banner *)

Definition banner_text width (i : nat) : list Z := concat (banner_row width i).
Definition banner_rows width : list (list Z) := banner_text width <$> seq 0 6.

Lemma banner_row_emits width start count i :
  emits (banner_draw_row width start count i)
    (if (start <=? i)%nat && (i <? start + count)%nat then banner_text width i else []).
Proof. unfold banner_draw_row. destruct (_ && _); [apply emits_puts|exact emits_nil]. Qed.

Lemma banner_shows St width :
  (forall v, St v -> banner_visible v = true) ->
  layer_shows St width ik_banner_layer (banner_rows width) (fun _ _ => True).
Proof.
  intros Hv. apply plain_layer_shows; [done|done|]. intros _ start count _ Hle _.
  unfold banner_render. cbv zeta.
  eapply emits_eq.
  - eapply emits_bind; [apply banner_row_emits|].
    eapply emits_bind; [apply banner_row_emits|].
    eapply emits_bind; [apply banner_row_emits|].
    eapply emits_bind; [apply banner_row_emits|].
    eapply emits_bind; [apply banner_row_emits|].
    apply banner_row_emits.
  - unfold banner_rows in *. rewrite length_fmap, length_seq in Hle.
    generalize (banner_text width). intros f. cbn [fmap list_fmap seq].
    do 7 (destruct start as [|start];
      [do 7 (destruct count as [|count]; [first [lia|cbn; by rewrite ?app_nil_r]|]); lia|]). lia.
Qed.

(** *** Spinner, separator, status *)

Definition spinner_row (frame : list Z) : list Z := frame ++ lit " Waiting for response..." ++ EOL.

Lemma spinner_shows St width frame :
  (forall v, St v -> visible (spinner_state v) = true /\ ik_spinner_get_frame (spinner_state v) = Ret frame) ->
  layer_shows St width ik_spinner_layer [spinner_row frame] (whole 1).
Proof.
  intros Hv. apply (whole_layer_shows St width _ _ _ _ [spinner_row frame]); [by intros v []%Hv|done|].
  intros v [_ Ef]%Hv. unfold spinner_render, spinner_row. rewrite Ef. cbn [obind concat]. rewrite app_nil_r.
  apply (emits_bind (put frame)); [apply emits_put|].
  apply (emits_bind (fun b => ik_output_buffer_append b _ 24)); [by apply emits_append|apply emits_put].
Qed.

Definition status_rows width (m : option cstr) (level : Z) : list (list Z) :=
  [concat (replicate width BOX_LIGHT_HORIZONTAL) ++ EOL;
   ROBOT_EMOJI ++ lit " " ++ fg 153 ++
   match m with
   | None => lit "(no model)"
   | Some m => m ++ lit "/" ++ ik_commands_thinking_level_to_string level
   end ++ IK_ANSI_RESET ++ EOL].

Lemma status_emits v width : emits (status_render v width) (concat (status_rows width (model v) (thinking_level v))).
Proof.
  unfold status_render, status_rows. eapply emits_eq.
  - apply (emits_bind (draw_times width BOX_LIGHT_HORIZONTAL)); [apply emits_times|].
    apply (emits_bind (put EOL)); [apply emits_put|apply emits_puts].
  - cbn [concat]. rewrite app_nil_r, <- !app_assoc. do 2 f_equal. unfold status_line.
    destruct (model v); cbn [app concat]; rewrite <- ?app_assoc, ?app_nil_r; done.
Qed.

Lemma status_shows St width m level :
  (forall v, St v -> status_visible v = true /\ model v = m /\ thinking_level v = level) ->
  layer_shows St width ik_status_layer (status_rows width m level) (whole 2).
Proof.
  intros Hv. apply (whole_layer_shows St width _ _ _ _ (status_rows width m level)); [by intros v []%Hv|done|].
  intros v (_ & <- & <-)%Hv. apply status_emits.
Qed.

(** *** Input *)

(** A text with its newlines drawn as ends of lines. *)
Definition drawn_text (text : list Z) : list Z := text ≫= (fun c => if (c =? 10)%Z then EOL else [c]).

Lemma draw_text_emits text : emits (draw_text text) (drawn_text text).
Proof.
  induction text as [|c text IH]; [exact emits_nil|]. cbn [draw_text]. unfold drawn_text.
  cbn [mbind list_bind]. fold (drawn_text text).
  apply (emits_bind (fun o => if (c =? 10)%Z then put EOL o else put [c] o)); [|exact IH].
  destruct (c =? 10)%Z; apply emits_put.
Qed.

(** The text broken after [width] bytes and at its newlines; [cur] is the
    unfinished row. *)
Fixpoint input_rows_from (text : list Z) (width : nat) (cur : list Z) : list (list Z) :=
  match text with
  | [] => [cur ++ EOL]
  | c :: text =>
      if (c =? 10)%Z then (cur ++ EOL) :: input_rows_from text width []
      else if (width <=? S (length cur))%nat then (cur ++ [c]) :: input_rows_from text width []
      else input_rows_from text width (cur ++ [c])
  end.

Definition input_rows (text : list Z) (width : nat) : list (list Z) := input_rows_from text width [].

Lemma input_rows_length text width n cur :
  input_height_loop text width n (length cur) + 1 = n + length (input_rows_from text width cur).
Proof.
  revert n cur. induction text as [|c text IH]; intros n cur; cbn [input_height_loop input_rows_from]; [done|].
  destruct (c =? 10)%Z; [specialize (IH (S n) []); cbn [length] in *; lia|].
  destruct (_ <=? _)%nat; [specialize (IH (S n) []); cbn [length] in *; lia|].
  specialize (IH n (cur ++ [c])). rewrite length_app in IH. cbn [length] in IH. replace (length cur + 1) with (S (length cur)) in IH by lia. lia.
Qed.

Lemma input_rows_concat text width cur :
  concat (input_rows_from text width cur) = cur ++ drawn_text text ++ EOL.
Proof.
  revert cur. induction text as [|c text IH]; intros cur; cbn [input_rows_from]; [cbn; by rewrite app_nil_r|].
  unfold drawn_text. cbn [mbind list_bind]. fold (drawn_text text).
  destruct (c =? 10)%Z; [cbn [concat]; rewrite IH; by rewrite <- !app_assoc|].
  destruct (_ <=? _)%nat; [cbn [concat]|]; rewrite IH; by rewrite <- !app_assoc.
Qed.

Lemma input_height_rows v width : input_get_height v width = length (input_rows (input_text v) width).
Proof.
  unfold input_get_height. destruct (input_text v) as [|c text] eqn:E; [done|].
  pose proof (input_rows_length (c :: text) width 1 []) as Hl. cbn [length] in Hl.
  unfold input_rows. lia.
Qed.

Lemma input_emits v :
  emits (input_render v)
    (if match last (input_text v) with Some c => (c =? 10)%Z | None => false end
     then drawn_text (input_text v) else drawn_text (input_text v) ++ EOL).
Proof.
  unfold input_render. destruct (input_text v) as [|c0 t0] eqn:Et; [exact (emits_put EOL)|].
  assert (exists t c, c0 :: t0 = t ++ [c]) as (t & c & ->).
  { destruct (exists_last (l := c0 :: t0)) as (t & c & E); [done|]. by exists t, c. }
  rewrite last_snoc, length_app. cbn [length]. rewrite Nat.add_sub.
  assert (byte_at (t ++ [c]) (length t) = c) as ->.
  { unfold byte_at. by rewrite list_lookup_middle. }
  destruct (c =? 10)%Z.
  - eapply emits_eq; [apply (emits_bind (draw_text (t ++ [c])) (fun o => Ret o)); [apply draw_text_emits|exact emits_nil]|].
    apply app_nil_r.
  - apply (emits_bind (draw_text (t ++ [c])) (put EOL)); [apply draw_text_emits|apply emits_put].
Qed.

Lemma input_shows St width text :
  (forall v, St v -> input_buffer_visible v = true /\ input_text v = text) -> last text <> Some 10%Z ->
  layer_shows St width ik_input_layer (input_rows text width) (whole (length (input_rows text width))).
Proof.
  intros Hv Hl. apply whole_layer_shows; [by intros v []%Hv| |].
  - intros v [_ <-]%Hv. apply input_height_rows.
  - intros v [_ Et]%Hv. pose proof (input_emits v) as He. rewrite Et in He.
    unfold input_rows. rewrite input_rows_concat. cbn [app].
    destruct (last text) as [c|]; [|exact He]. destruct (Z.eqb_spec c 10); [congruence|exact He].
Qed.

(** *** Completion *)

Definition candidate_row (width cur i : nat) (candidate : cstr) : list Z :=
  let body := lit "  " ++ candidate ++ lit "   " ++ description_of candidate in
  (if (i =? cur)%nat then (0x1B%Z :: lit "[7;1m") ++ body ++ (0x1B%Z :: lit "[0m") else body)
  ++ concat (replicate (width - length body) (lit " ")) ++ EOL.

Definition completion_rows (width : nat) (comp : ik_completion) : list (list Z) :=
  imap (candidate_row width (current comp)) (candidates comp).

Lemma candidate_emits width cur i candidate :
  emits (draw_candidate width (i =? cur)%nat candidate) (candidate_row width cur i candidate).
Proof.
  unfold draw_candidate, candidate_row. cbv zeta.
  set (body := lit "  " ++ candidate ++ lit "   " ++ description_of candidate).
  assert (2 + length candidate + 3 + length (description_of candidate) = length body) as ->
    by (subst body; rewrite !length_app; simpl; lia).
  assert (emits (puts [lit "  "; candidate; lit "   "; description_of candidate]) body) as Hbody.
  { eapply emits_eq; [apply emits_puts|]. cbn [concat]. by rewrite app_nil_r. }
  eapply emits_eq.
  - apply (emits_bind (fun o => if (i =? cur)%nat then put (0x1B%Z :: lit "[7;1m") o else Ret o) _
             (if (i =? cur)%nat then 0x1B%Z :: lit "[7;1m" else [])).
    { destruct (i =? cur)%nat; [apply emits_put|exact emits_nil]. }
    eapply emits_bind; [exact Hbody|].
    apply (emits_bind (fun o => if (i =? cur)%nat then put (0x1B%Z :: lit "[0m") o else Ret o) _
             (if (i =? cur)%nat then 0x1B%Z :: lit "[0m" else [])).
    { destruct (i =? cur)%nat; [apply emits_put|exact emits_nil]. }
    eapply emits_bind; [apply emits_times|apply emits_put].
  - destruct (i =? cur)%nat; [|done]. by rewrite <- !app_assoc.
Qed.

Lemma candidates_emit width comp pre rest :
  candidates comp = pre ++ rest -> forall n, n <= length rest ->
  emits (draw_candidates width comp n (length pre))
    (concat (take n (imap (fun i => candidate_row width (current comp) (length pre + i)) rest))).
Proof.
  revert pre. induction rest as [|c rest IH]; intros pre Hc n Hn.
  { destruct n; [exact emits_nil|simpl in Hn; lia]. }
  destruct n as [|n]; [exact emits_nil|]. cbn [draw_candidates imap take concat]. rewrite Nat.add_0_r.
  rewrite Hc, arr_get_app. cbn [obind].
  apply (emits_bind (draw_candidate width _ c) _ _ _ (candidate_emits width _ _ c)).
  specialize (IH (pre ++ [c])). rewrite <- app_assoc in IH. specialize (IH Hc n ltac:(simpl in Hn; lia)).
  rewrite length_app, Nat.add_1_r in IH. eapply emits_eq; [exact IH|].
  do 2 f_equal. apply imap_ext. intros i x _. cbn. by rewrite Nat.add_succ_r.
Qed.

Lemma completion_shows St width comp :
  (forall v, St v -> completion v = Some comp) ->
  layer_shows St width ik_completion_layer (completion_rows width comp) (fun start _ => start = 0).
Proof.
  intros Hv. apply plain_layer_shows.
  - intros v ->%Hv. done.
  - intros v ->%Hv. unfold completion_rows. by rewrite length_imap.
  - intros v start count Hs Hle ->. unfold completion_render. rewrite (Hv v Hs), drop_0.
    unfold completion_rows in *. rewrite length_imap in Hle.
    destruct (Nat.eqb_spec count 0) as [->|Hc]; [exact emits_nil|].
    assert ((if (count <? length (candidates comp))%nat then count else length (candidates comp)) = count) as ->
      by (destruct (Nat.ltb_spec count (length (candidates comp))); lia).
    exact (candidates_emit width comp [] (candidates comp) eq_refl count ltac:(lia)).
Qed.

End promises.
