(* ===== verification/AgentScreen.v ===== *)
(** * What an agent's screen shows (agent_init_layers of agent.c, layer.c)

    The separator and the scrollback keep their promises as layers, and so an
    agent's cake draws the window of the rows of its seven layers. *)

From Stdlib Require Import String.
From stdpp Require Import strings.
From S2P Require Import Prelude Slots CString ByteArray Utf8 Unicode Cursor Layout Scrollback.
From S2P Require Import OutputStyle Layers AgentLayers.

(** ** The separator *)

Section separator.
Context `{!Allocator} `{!AllocatorSpec} `{!Utf8proc} `{!Utf8procSpec}.

Definition nav_width (nav : ik_separator_nav_context) : nat :=
  sum_list (cols <$> glyphs_of (nav_text nav)).

Definition separator_row (nav : ik_separator_nav_context) (width : nat) : list Z :=
  concat (replicate (if (0 <? nav_width nav)%nat && (nav_width nav <? width)%nat
                     then width - nav_width nav else width) BOX_LIGHT_HORIZONTAL)
  ++ nav_text nav ++ EOL.

(** The text fits the array it is formatted into. *)
Lemma nav_text_short nav : length (nav_text nav) < 256.
Proof.
  unfold nav_text. destruct (current_uuid nav); [|simpl; lia]. unfold nav_indicator, child_indicator, snprintf.
  rewrite !length_app, !length_take. change (length (lit " ")) with 1. lia.
Qed.

Lemma separator_emits v width : emits (separator_render v width) (separator_row (nav_ctx v) width).
Proof.
  pose proof (nav_text_short (nav_ctx v)) as Hn. unfold separator_render, separator_row. cbv zeta.
  assert (snprintf 256 (nav_text (nav_ctx v)) = nav_text (nav_ctx v)) as ->.
  { unfold snprintf. rewrite take_ge by lia. done. }
  unfold ik_scrollback_calculate_display_width. rewrite sb_width_loop_spec by lia.
  fold (glyphs_of (nav_text (nav_ctx v))). cbn [obind Nat.add]. fold (nav_width (nav_ctx v)).
  eapply emits_bind; [apply emits_times|].
  apply (emits_bind (fun o => if (0 <? length (nav_text (nav_ctx v)))%nat
                              then ik_output_buffer_append o _ _ else Ret o)); [|apply emits_put].
  destruct (Nat.ltb_spec 0 (length (nav_text (nav_ctx v)))) as [|Hz]; [by apply emits_append|].
  destruct (nav_text (nav_ctx v)); [exact emits_nil|simpl in Hz; lia].
Qed.

Lemma separator_shows St width nav :
  (forall v, St v -> separator_visible v = true /\ nav_ctx v = nav) ->
  layer_shows St width ik_separator_layer [separator_row nav width] (whole 1).
Proof.
  intros Hv. apply (whole_layer_shows St width _ _ _ _ [separator_row nav width]);
    [by intros v []%Hv|done|].
  intros v [_ <-]%Hv. cbn [concat]. rewrite app_nil_r. apply separator_emits.
Qed.

End separator.

(** ** The scrollback *)

(** The rows of a line without newlines: from the least prefix that reaches
    the columns of the rows before it on. *)
Section cells.
Context `{!Utf8proc} (tw : nat) (cps : list Z).

Definition bound (r : nat) : nat :=
  if (seg_rows tw (width_of cps) <=? r)%nat then length (text_of cps)
  else length (text_of (take (reach cps (r * tw)) cps)).

Definition cell (r : nat) : list Z :=
  take (bound (S r) - bound r) (drop (bound r) (text_of cps))
  ++ (if (seg_rows tw (width_of cps) <=? S r)%nat then EOL else []).

Definition line_cells : list (list Z) := cell <$> seq 0 (seg_rows tw (width_of cps)).

Lemma reach_mono c1 c2 : c1 <= c2 -> forall l, reach l c1 <= reach l c2.
Proof.
  intros Hc l. revert c1 c2 Hc. induction l as [|c l IH]; intros [|c1] [|c2] Hc; cbn [reach]; try lia.
  specialize (IH (S c1 - cols (Cp c)) (S c2 - cols (Cp c)) ltac:(lia)). lia.
Qed.

Lemma text_take_le a b : a <= b -> length (text_of (take a cps)) <= length (text_of (take b cps)).
Proof.
  intros Hab. rewrite <- (take_drop a (take b cps)), take_take, text_of_app, length_app.
  rewrite Nat.min_l by done. lia.
Qed.

Lemma text_take_all a : length (text_of (take a cps)) <= length (text_of cps).
Proof.
  assert (text_of cps = text_of (take a cps) ++ text_of (drop a cps)) as ->
    by (by rewrite <- text_of_app, take_drop).
  rewrite length_app. lia.
Qed.

Lemma bound_mono r1 r2 : r1 <= r2 -> bound r1 <= bound r2.
Proof.
  intros Hr. unfold bound.
  destruct (Nat.leb_spec (seg_rows tw (width_of cps)) r1), (Nat.leb_spec (seg_rows tw (width_of cps)) r2);
    try lia.
  - apply text_take_all.
  - apply text_take_le, reach_mono. nia.
Qed.

Lemma bound_le r : bound r <= length (text_of cps).
Proof.
  unfold bound. destruct (_ <=? _)%nat; [done|apply text_take_all].
Qed.

Lemma line_cells_length : length line_cells = seg_rows tw (width_of cps).
Proof. unfold line_cells. by rewrite length_fmap, length_seq. Qed.

(** The rows [r], ..., [r + n - 1] are a run of bytes. *)
Lemma cells_concat r n :
  0 < n -> r + n <= seg_rows tw (width_of cps) ->
  concat (take n (drop r line_cells))
  = take (bound (r + n) - bound r) (drop (bound r) (text_of cps))
    ++ (if (seg_rows tw (width_of cps) <=? r + n)%nat then EOL else []).
Proof.
  intros Hn. revert r. induction n as [|n IH]; intros r Hr; [lia|].
  unfold line_cells. rewrite <- fmap_drop, drop_seq, <- fmap_take, take_seq, Nat.min_l by lia.
  rewrite Nat.add_0_l. cbn [seq fmap list_fmap concat]. destruct n as [|n].
  { cbn [seq fmap list_fmap concat]. rewrite app_nil_r. unfold cell. by rewrite Nat.add_1_r. }
  specialize (IH ltac:(lia) (S r) ltac:(lia)). unfold line_cells in IH.
  rewrite <- fmap_drop, drop_seq, <- fmap_take, take_seq, Nat.min_l, Nat.add_0_l in IH by lia.
  cbn [fmap list_fmap] in IH. rewrite IH. unfold cell at 1.
  rewrite (proj2 (Nat.leb_gt _ (S r))) by lia. rewrite app_nil_r, app_assoc.
  replace (S r + S n) with (r + S (S n)) by lia. f_equal.
  pose proof (bound_mono r (S r) ltac:(lia)). pose proof (bound_mono (S r) (r + S (S n)) ltac:(lia)).
  pose proof (bound_le (r + S (S n))).
  replace (drop (bound (S r)) (text_of cps))
    with (drop (bound (S r) - bound r) (drop (bound r) (text_of cps)))
    by (rewrite drop_drop; f_equal; lia).
  rewrite <- (take_drop (bound (S r) - bound r) (drop (bound r) (text_of cps))) at 3.
  rewrite take_app, length_take, length_drop. rewrite Nat.min_l by lia.
  f_equal; [by rewrite take_take, Nat.min_r by lia|f_equal; lia].
Qed.

End cells.

Section scrollback.
Context `{!Allocator} `{!AllocatorSpec} `{!SlotAllocator} `{!SlotAllocatorSpec} `{!Utf8proc} `{!Utf8procSpec}.

(** A text that can be shown as it is. *)
Definition showable (cps : list Z) : Prop := Forall scalar cps /\ 27%Z ∉ cps /\ 10%Z ∉ cps.

Definition sb_rows (tw : nat) (cpss : list (list Z)) : list (list Z) := concat (line_cells tw <$> cpss).

Lemma draw_bytes_emits tb off text j n :
  (forall i, i < length text -> tb !! (off + i) = text !! i) -> 10%Z ∉ text -> j + n <= length text ->
  emits (draw_bytes tb off n j) (take n (drop j text)).
Proof.
  intros Ht Hn. revert j. induction n as [|n IH]; intros j Hj; [exact emits_nil|].
  destruct (lookup_lt_is_Some_2 text j ltac:(lia)) as [c Hc].
  cbn [draw_bytes]. rewrite (drop_S _ _ _ Hc). cbn [take].
  unfold arr_get at 1. rewrite Ht, Hc by lia. cbn [obind].
  assert (c <> 10%Z) as Hc10 by (intros ->; apply Hn; by eapply list_elem_of_lookup_2).
  rewrite (proj2 (Z.eqb_neq _ _) Hc10).
  apply (emits_bind (put [c]) _ [c]); [apply emits_put|]. apply IH. lia.
Qed.

(** The scrollback holds the texts, laid out at width [tw]. *)
Record sb_holds (s : ik_scrollback) (tw : nat) (cpss : list (list Z)) (ls : list ik_line_layout) : Prop := {
  sh_rep : sb_rep s (text_of <$> cpss) ls;
  sh_width : Z.to_nat (cached_width s) = tw;
  sh_texts : Forall showable cpss
}.

Lemma holds_rows s tw cpss ls i cps l :
  sb_holds s tw cpss ls -> cpss !! i = Some cps -> ls !! i = Some l ->
  physical_lines l = length (line_cells tw cps).
Proof.
  intros [Hr <- Ht] Hi Hl. pose proof (sb_width _ _ _ Hr).
  destruct (Forall_lookup_1 _ _ _ _ Ht Hi) as (Hs & He & Hn). rewrite line_cells_length.
  apply plain_rows; [lia|done..|].
  eapply (Forall2_lookup_lr _ _ _ i); [exact (sb_lines _ _ _ Hr)| |exact Hl].
  by rewrite list_lookup_fmap, Hi.
Qed.

Lemma holds_layout s tw cpss ls i cps :
  sb_holds s tw cpss ls -> cpss !! i = Some cps -> exists l, ls !! i = Some l.
Proof.
  intros [Hr _ _] Hi. apply lookup_lt_is_Some_2.
  rewrite <- (Forall2_length _ _ _ (sb_lines _ _ _ Hr)), length_fmap. by eapply lookup_lt_Some.
Qed.

Lemma holds_prefix s tw cpss ls i :
  sb_holds s tw cpss ls -> rows_total (take i ls) = length (sb_rows tw (take i cpss)).
Proof.
  intros Hh. pose proof Hh as [Hr _ _].
  assert (Forall2 (fun l cps => physical_lines l = length (line_cells tw cps)) ls cpss) as HF.
  { apply Forall2_same_length_lookup_2.
    - by rewrite <- (Forall2_length _ _ _ (sb_lines _ _ _ Hr)), length_fmap.
    - intros j l cps Hl Hc. by eapply holds_rows. }
  assert (Forall2 (fun l cps => physical_lines l = length (line_cells tw cps)) (take i ls) (take i cpss)) as HF'
    by by apply Forall2_take.
  unfold rows_total, sb_rows. clear -HF'. induction HF' as [|l cps ls' cpss' E _ IH]; [done|].
  cbn [fmap list_fmap concat]. rewrite sum_list_cons, length_app. cbn [fmap list_fmap] in IH. lia.
Qed.

Lemma holds_total sb tw cpss ls :
  sb_holds sb tw cpss ls -> ik_scrollback_get_total_physical_lines sb = length (sb_rows tw cpss).
Proof.
  intros Hh. pose proof Hh as [Hr _ _]. unfold ik_scrollback_get_total_physical_lines.
  rewrite (sb_total _ _ _ Hr). pose proof (holds_prefix _ _ _ _ (length cpss) Hh) as E.
  rewrite !firstn_all2 in E; [done|lia|].
  rewrite <- (Forall2_length _ _ _ (sb_lines _ _ _ Hr)), length_fmap. lia.
Qed.

(** Consecutive rows of a line. *)
Lemma line_emits s tw cpss ls i cps r n :
  sb_holds s tw cpss ls -> cpss !! i = Some cps -> 0 < n -> r + n <= length (line_cells tw cps) ->
  emits (fun output =>
           let! (line_text, _) := ignore_error (ik_scrollback_get_line_text s i) in
           let! (render_start, render_end, is_line_end) :=
             ik_scrollback_calc_byte_range_for_rows s i tw r n in
           let! output := draw_bytes (text_buffer s) line_text (render_end - render_start) render_start output in
           if is_line_end then put EOL output else Ret output)
    (concat (take n (drop r (line_cells tw cps)))).
Proof.
  intros Hh Hi Hn Hle. pose proof Hh as [Hr Hw Ht].
  destruct (Forall_lookup_1 _ _ _ _ Ht Hi) as (Hs & He & Hnl).
  destruct (holds_layout _ _ _ _ _ _ Hh Hi) as [l Hl].
  assert ((text_of <$> cpss) !! i = Some (text_of cps)) as Hi' by by rewrite list_lookup_fmap, Hi.
  rewrite line_cells_length in Hle. rewrite cells_concat by lia.
  destruct (get_line_text_ok _ _ _ _ _ Hr Hi') as (-> & _ & _ & _). cbn [ignore_error obind].
  rewrite (byte_range_plain s _ ls i cps l) by
    (done || lia || (by rewrite glyphs_of_text, segments_no_newline) ||
     (by rewrite (holds_rows _ _ _ _ _ _ _ Hh Hi Hl), line_cells_length)).
  cbn [obind].
  assert (length (text_of (take (reach cps (r * tw)) cps)) = bound tw cps r) as ->.
  { unfold bound. by rewrite (proj2 (Nat.leb_gt _ _)) by lia. }
  fold (bound tw cps (r + n)).
  eapply emits_bind.
  - apply draw_bytes_emits.
    + intros k Hk. destruct (sb_text _ _ _ Hr) as [x ->].
      rewrite <- (take_drop_middle _ _ _ Hi') at 2. rewrite packed_app, <- app_assoc.
      rewrite lookup_app_r, Nat.add_sub' by lia.
      change (text_of cps :: drop (S i) (text_of <$> cpss)) with ([text_of cps] ++ drop (S i) (text_of <$> cpss)).
      rewrite packed_app, packed_one, <- !app_assoc. by rewrite lookup_app_l.
    + intros Hin. apply Hnl. by apply (text_of_ascii cps 10).
    + pose proof (bound_mono tw cps r (r + n) ltac:(lia)). pose proof (bound_le tw cps (r + n)). lia.
  - destruct (_ <=? r + n)%nat; [apply emits_put|exact emits_nil].
Qed.

Lemma emits_ext (m m' : ik_output_buffer -> outcome ik_output_buffer) out :
  (forall b, m b = m' b) -> emits m' out -> emits m out.
Proof. intros He Hm buf bs. rewrite He. apply Hm. Qed.

Lemma sb_rows_cons tw cps cpss : sb_rows tw (cps :: cpss) = line_cells tw cps ++ sb_rows tw cpss.
Proof. done. Qed.

(** The rows of the first [k] lines. *)
Definition before (tw : nat) (cpss : list (list Z)) (k : nat) : nat := length (sb_rows tw (take k cpss)).

Lemma before_S tw cpss k cps :
  cpss !! k = Some cps -> before tw cpss (S k) = before tw cpss k + length (line_cells tw cps).
Proof.
  intros Hk. unfold before, sb_rows. rewrite (take_S_r _ _ _ Hk), fmap_app, concat_app, length_app.
  cbn [fmap list_fmap concat]. by rewrite app_nil_r.
Qed.

Lemma before_mono tw cpss a b : a <= b -> before tw cpss a <= before tw cpss b.
Proof.
  intros Hab. unfold before, sb_rows. rewrite <- (take_drop a (take b cpss)), take_take, Nat.min_l by done.
  rewrite fmap_app, concat_app, length_app. lia.
Qed.

Lemma before_lt tw cpss a b x cps :
  cpss !! a = Some cps -> x < length (line_cells tw cps) -> a < b -> before tw cpss a + x < before tw cpss b.
Proof.
  intros Ha Hx Hab. pose proof (before_S tw cpss a cps Ha). pose proof (before_mono tw cpss (S a) b Hab). lia.
Qed.

(** The rows [a], ..., [b], where row [a] is row [so] of line [si] and row [b]
    row [eo] of line [ei]. *)
Lemma lines_emit s tw cpss ls si so ei eo n i :
  sb_holds s tw cpss ls -> ei < length cpss ->
  let before := before tw cpss in
  (si = ei -> so <= eo) ->
  (forall cps, cpss !! si = Some cps -> so < length (line_cells tw cps)) ->
  (forall cps, cpss !! ei = Some cps -> eo < length (line_cells tw cps)) ->
  i + n = S ei -> si <= i ->
  emits (draw_lines s tw si so ei eo n i)
    (concat (window (before si + so) (before ei + S eo) (before i) (sb_rows tw (take n (drop i cpss))))).
Proof.
  intros Hh Hei before Hse Hso Heo. revert i.
  induction n as [|n IH]; intros i Hi Hsi; cbn [draw_lines].
  { change (sb_rows tw (take 0 (drop i cpss))) with (@nil (list Z)). rewrite window_nil. exact emits_nil. }
  destruct (lookup_lt_is_Some_2 cpss i ltac:(lia)) as [cps Hc].
  destruct (holds_layout _ _ _ _ _ _ Hh Hc) as [l Hl].
  pose proof (holds_rows _ _ _ _ _ _ _ Hh Hc Hl) as Hp.
  pose proof Hh as [Hr _ _]. destruct (sb_layouts _ _ _ Hr) as [ry Hy].
  rewrite (drop_S _ _ _ Hc). cbn [take]. rewrite sb_rows_cons, window_app, concat_app.
  pose proof (before_S tw cpss i cps Hc) as HSi. fold before in HSi. rewrite <- HSi.
  set (r := if (i =? si)%nat then so else 0).
  set (cnt := if (i =? ei)%nat then eo - r + 1 else length (line_cells tw cps) - r).
  pose proof (seg_rows_pos tw (width_of cps)) as Hpos.
  assert (0 < tw) as Htw by (pose proof (sb_width _ _ _ Hr); pose proof (sh_width _ _ _ _ Hh); lia).
  specialize (Hpos Htw). rewrite <- line_cells_length in Hpos.
  assert (r < length (line_cells tw cps) /\ (i = ei -> r <= eo)) as [Hrl Hre].
  { subst r. destruct (Nat.eqb_spec i si) as [->|]; [split; [by apply Hso|done]|split; lia]. }
  assert (0 < cnt /\ r + cnt <= length (line_cells tw cps)) as [Hc0 Hc1].
  { subst cnt. destruct (Nat.eqb_spec i ei) as [->|]; [|lia]. specialize (Heo _ Hc). lia. }
  assert (window (before si + so) (before ei + S eo) (before i) (line_cells tw cps)
          = take cnt (drop r (line_cells tw cps))) as ->.
  { assert (si < i -> before si + so <= before i) as Hbefore.
    { intros Hlt. destruct (lookup_lt_is_Some_2 cpss si ltac:(lia)) as [c' Hc'].
      pose proof (before_lt tw cpss si i so c' Hc' (Hso _ Hc') Hlt). unfold before. lia. }
    unfold window. assert (before si + so - before i = r) as ->
      by (subst r; destruct (Nat.eqb_spec i si) as [->|]; lia).
    subst cnt. destruct (Nat.eqb_spec i ei) as [->|Hne].
    - f_equal. subst r. destruct (Nat.eqb_spec ei si) as [<-|]; lia.
    - pose proof (before_mono tw cpss (S i) ei ltac:(lia)). unfold before in *.
      rewrite !firstn_all2; [done|rewrite length_drop; lia|].
      rewrite length_drop. subst r. destruct (Nat.eqb_spec i si) as [->|]; lia. }
  eapply emits_ext.
  2: { eapply emits_bind; [exact (line_emits s tw cpss ls i cps r cnt Hh Hc Hc0 Hc1)|].
       apply (IH (S i)); lia. }
  intros b. cbv beta. fold r.
  destruct (ignore_error _) as [[lt ln]| | | |]; [cbn [obind]|done..].
  rewrite Hy, (arr_get_lookup _ _ _ _ Hl). cbn [obind]. rewrite Hp. fold cnt.
  destruct (ik_scrollback_calc_byte_range_for_rows _ _ _ _ _) as [[[rs re] le]| | | |]; [cbn [obind]|done..].
  by destruct (draw_bytes _ _ _ _ _).
Qed.

Lemma sb_rows_app tw l1 l2 : sb_rows tw (l1 ++ l2) = sb_rows tw l1 ++ sb_rows tw l2.
Proof. unfold sb_rows. by rewrite fmap_app, concat_app. Qed.

Lemma find_row_ok s tw cpss ls row :
  sb_holds s tw cpss ls -> row < length (sb_rows tw cpss) ->
  exists i off cps, ik_scrollback_find_logical_line_at_physical_row s row = Ret (i, off) /\
    cpss !! i = Some cps /\ off < length (line_cells tw cps) /\ before tw cpss i + off = row.
Proof.
  intros Hh Hrow. pose proof Hh as [Hr _ _].
  assert (total_physical_lines s = length (sb_rows tw cpss)) as Et
    by exact (holds_total _ _ _ _ Hh).
  destruct (find_line_ok s _ ls row Hr ltac:(lia)) as (i & off & l & E & Hl & Ho & Hs).
  destruct (lookup_lt_is_Some_2 cpss i) as [cps Hc].
  { apply lookup_lt_Some in Hl. rewrite <- (Forall2_length _ _ _ (sb_lines _ _ _ Hr)), length_fmap in Hl. done. }
  exists i, off, cps. rewrite (holds_prefix _ _ _ _ _ Hh) in Hs. rewrite (holds_rows _ _ _ _ _ _ _ Hh Hc Hl) in Ho.
  done.
Qed.

Lemma scrollback_shows (St : view -> Prop) (width : nat) (cpss : list (list Z)) :
  0 < width -> Forall showable cpss ->
  (forall v, St v -> exists ls, sb_rep (v_scrollback v) (text_of <$> cpss) ls) ->
  (forall v s ls, St v -> sb_rep s (text_of <$> cpss) ls -> St (with_scrollback s v)) ->
  layer_shows St width ik_scrollback_layer (sb_rows width cpss) (fun _ _ => True).
Proof.
  intros Hw Ht Hst Hcl.
  assert (forall v, St v -> exists s ls, ik_scrollback_ensure_layout (v_scrollback v) (Z.of_nat width) = Ret s /\
            sb_holds s width cpss ls /\ St (with_scrollback s v)) as He.
  { intros v Hv. destruct (Hst v Hv) as [ls Hr].
    destruct (ensure_layout_ok _ _ _ (Z.of_nat width) Hr ltac:(lia)) as (s' & ls' & E & Hr' & Ew & _).
    exists s', ls'. split; [done|]. split; [|by eapply Hcl]. constructor; [done|lia|done]. }
  constructor; cbn [Layers.is_visible get_height render ik_scrollback_layer].
  - done.
  - intros v Hv. destruct (He v Hv) as (s & ls & E & Hh & Hs). unfold scrollback_get_height. rewrite E.
    cbn [obind]. exists (with_scrollback s v). by rewrite (holds_total _ _ _ _ Hh).
  - intros v start count buf bs Hv Hle _ Hb Hroom. destruct (He v Hv) as (s & ls & E & Hh & Hs).
    unfold scrollback_render. rewrite E. cbn [obind]. unfold ik_scrollback_get_line_count.
    rewrite (sb_count _ _ _ (sh_rep _ _ _ _ Hh)), length_fmap.
    destruct (Nat.eqb_spec (length cpss) 0) as [Hz|Hz].
    { destruct cpss; [|done]. cbn in Hle. assert (count = 0) as -> by lia. cbn [take concat orb].
      rewrite app_nil_r. by exists buf, (with_scrollback s v). }
    destruct (Nat.eqb_spec count 0) as [->|Hc]; cbn [orb].
    { cbn [take concat]. rewrite app_nil_r. by exists buf, (with_scrollback s v). }
    destruct (find_row_ok _ _ _ _ start Hh ltac:(lia)) as (si & so & c1 & -> & Hc1 & Hso & Estart).
    destruct (find_row_ok _ _ _ _ (start + count - 1) Hh ltac:(lia)) as (ei & eo & c2 & -> & Hc2 & Heo & Eend).
    cbn [obind]. rewrite (proj2 (Nat.ltb_lt _ _)) by (by eapply lookup_lt_Some).
    assert (si <= ei) as Hsi.
    { destruct (Nat.le_gt_cases si ei); [done|].
      pose proof (before_lt width cpss ei si eo c2 Hc2 Heo ltac:(done)). lia. }
    pose proof (lines_emit s width cpss ls si so ei eo (S ei - si) si Hh (lookup_lt_Some _ _ _ Hc2)) as Hem.
    cbv zeta in Hem. rewrite Estart in Hem. replace (before width cpss ei + S eo) with (start + count) in Hem by lia.
    assert (window start (start + count) (before width cpss si) (sb_rows width (take (S ei - si) (drop si cpss)))
            = take count (drop start (sb_rows width cpss))) as Ewin.
    { transitivity (window start (start + count) 0 (sb_rows width cpss)).
      2: { unfold window. f_equal; [lia|f_equal; lia]. }
      rewrite <- (take_drop si cpss) at 3. rewrite <- (take_drop (S ei - si) (drop si cpss)) at 2.
      rewrite !sb_rows_app, !window_app. fold (before width cpss si).
      rewrite (window_empty _ _ 0) by (unfold before in Estart; lia). cbn [app Nat.add].
      rewrite (window_empty _ _ (before width cpss si + _)); [by rewrite app_nil_r|right].
      pose proof (before_lt width cpss ei (S ei) eo c2 Hc2 Heo ltac:(lia)).
      assert (before width cpss (S ei) = before width cpss si + length (sb_rows width (take (S ei - si) (drop si cpss)))); [|lia].
      unfold before. replace (S ei) with (si + (S ei - si)) at 1 by lia.
      by rewrite <- take_take_drop, sb_rows_app, length_app. }
    rewrite Ewin in Hem. destruct (Hem ltac:(intros ->; lia)) with (buf := buf) (bs := bs) as (buf' & -> & Hb');
      [intros cps Hcps; congruence|intros cps Hcps; congruence|lia|lia|done|done|].
    by exists buf', (with_scrollback s v).
Qed.

End scrollback.

(** ** The agent's cake *)

(** The layers of a view whose scrollback has the texts [cpss]: the rows, and
    the parts of them that can be drawn. *)
Section agent.
Context `{!Utf8proc}.

Definition all_parts (start count : nat) : Prop := True.

Definition shown_if {A} (b : bool) (a : A) : option A := if b then Some a else None.

Definition spinner_frame (v : view) : list Z :=
  match ik_spinner_get_frame (spinner_state v) with Ret f => f | _ => [] end.

Definition agent_parts (v : view) (cpss : list (list Z)) (width : nat)
  : list (option (list (list Z) * (nat -> nat -> Prop))) :=
  [shown_if (banner_visible v) (banner_rows width, all_parts);
   Some (sb_rows width cpss, all_parts);
   shown_if (visible (spinner_state v)) ([spinner_row (spinner_frame v)], whole 1);
   shown_if (separator_visible v) ([separator_row (nav_ctx v) width], whole 1);
   shown_if (input_buffer_visible v)
     (input_rows (input_text v) width, whole (length (input_rows (input_text v) width)));
   option_map (fun comp => (completion_rows width comp, fun start _ => start = 0)) (completion v);
   shown_if (status_visible v) (status_rows width (model v) (thinking_level v), whole 2)].

(** All rows of the screen's document, from the banner to the status. *)
Definition agent_rows (v : view) (cpss : list (list Z)) (width : nat) : list (list Z) :=
  agent_parts v cpss width ≫= rows_of.

End agent.

Definition set_viewport {S} (row height : nat) (cake : ik_layer_cake S) : ik_layer_cake S :=
  mk_cake (layers cake) (layer_count cake) (layer_capacity cake) row height.

Section agent_cake.
Context `{!Allocator} `{!AllocatorSpec} `{!SlotAllocator} `{!SlotAllocatorSpec} `{!Utf8proc} `{!Utf8procSpec}.

(** The view [v0] with any layout of its scrollback. *)
Definition same_view (v0 : view) (cpss : list (list Z)) (v : view) : Prop :=
  exists s ls, v = with_scrollback s v0 /\ sb_rep s (text_of <$> cpss) ls.

Lemma spinner_frame_ok v : ik_spinner_get_frame (spinner_state v) = Ret (spinner_frame v).
Proof.
  unfold spinner_frame, ik_spinner_get_frame, arr_get.
  destruct (lookup_lt_is_Some_2 SPINNER_FRAMES (frame_index (spinner_state v) mod SPINNER_FRAME_COUNT)) as [f ->].
  { change (length SPINNER_FRAMES) with SPINNER_FRAME_COUNT. by apply Nat.mod_upper_bound. }
  done.
Qed.

Lemma agent_layers_are v0 cpss width :
  0 < width -> Forall showable cpss ->
  last (input_text v0) <> Some 10%Z ->
  Forall2 (layer_is (same_view v0 cpss) width) agent_layers (agent_parts v0 cpss width).
Proof.
  intros Hw Ht Hl. unfold agent_layers, agent_parts.
  repeat apply Forall2_cons_2; [..|apply Forall2_nil_2].
  - destruct (banner_visible v0) eqn:E; cbn [shown_if layer_is].
    + apply banner_shows. by intros v (s & ls & -> & _).
    + by intros v (s & ls & -> & _).
  - cbn [layer_is]. apply scrollback_shows; [done|done| |].
    + intros v (s & ls & -> & Hr). by exists ls.
    + intros v s ls (s0 & ls0 & -> & _) Hr. by exists s, ls.
  - destruct (visible (spinner_state v0)) eqn:E; cbn [shown_if layer_is].
    + apply spinner_shows. intros v (s & ls & -> & _). split; [done|]. exact (spinner_frame_ok v0).
    + by intros v (s & ls & -> & _).
  - destruct (separator_visible v0) eqn:E; cbn [shown_if layer_is].
    + apply separator_shows. by intros v (s & ls & -> & _).
    + by intros v (s & ls & -> & _).
  - destruct (input_buffer_visible v0) eqn:E; cbn [shown_if layer_is].
    + apply input_shows; [|done]. by intros v (s & ls & -> & _).
    + by intros v (s & ls & -> & _).
  - destruct (completion v0) as [comp|] eqn:E; cbn [option_map layer_is].
    + apply completion_shows. by intros v (s & ls & -> & _).
    + intros v (s & ls & -> & _). cbn. by rewrite E.
  - destruct (status_visible v0) eqn:E; cbn [shown_if layer_is].
    + apply status_shows. by intros v (s & ls & -> & _).
    + by intros v (s & ls & -> & _).
Qed.

Lemma agent_cake_ok n :
  exists cake0 cake, ik_layer_cake_create n = Ret cake0 /\ agent_init_layers cake0 = Ret cake /\
    cake_rep cake agent_layers.
Proof.
  destruct (create_cake_ok (S := view) n) as (c0 & E0 & Hr0 & _ & _ & Hc).
  destruct (add_layers_ok c0 [] agent_layers Hr0) as (c & E & Hr & _); [rewrite Hc; done|].
  exists c0, c. by split_and!.
Qed.

(** The cake of the agent draws its window. *)
Lemma agent_cake_draws v0 cpss width cake row height buf bs :
  cake_rep cake agent_layers -> 0 < width -> Forall showable cpss ->
  last (input_text v0) <> Some 10%Z ->
  (exists ls, sb_rep (v_scrollback v0) (text_of <$> cpss) ls) ->
  parts_fit row (row + height) 0 (agent_parts v0 cpss width) ->
  out_holds buf bs -> out_room (bs ++ concat (take height (drop row (agent_rows v0 cpss width)))) ->
  exists out v, ik_layer_cake_render (set_viewport row height cake) v0 buf width = Ret (out, v) /\
    out_holds out (bs ++ concat (take height (drop row (agent_rows v0 cpss width)))) /\
    same_view v0 cpss v.
Proof.
  intros [Hc [r Hl] _ _] Hw Ht Hlast [ls Hr] Hp Hb Hroom.
  unfold ik_layer_cake_render. rewrite (proj2 (Nat.ltb_lt _ _)) by done.
  pose proof (agent_layers_are v0 cpss width Hw Ht Hlast) as HF.
  assert (same_view v0 cpss v0) as Hv by (exists (v_scrollback v0), ls; split; [by destruct v0|done]).
  assert (window row (row + height) 0 (agent_rows v0 cpss width) = take height (drop row (agent_rows v0 cpss width))) as Ew.
  { unfold window. f_equal; [lia|f_equal; lia]. }
  destruct (render_loop_ok (same_view v0 cpss) width (set_viewport row height cake) agent_layers
              (agent_parts v0 cpss width) [] r row height v0 buf bs 0 Hl eq_refl HF Hv Hp Hb)
    as (out & v & E & Hv' & Ho); [fold (agent_rows v0 cpss width); by rewrite Ew|].
  fold (agent_rows v0 cpss width) in Ho. rewrite Ew in Ho.
  exists out, v. split; [|done]. cbn [set_viewport viewport_row viewport_height layer_count length] in *.
  rewrite Hc. exact E.
Qed.

(** The height of the cake. *)
Lemma agent_cake_height v0 cpss width cake :
  cake_rep cake agent_layers -> 0 < width -> Forall showable cpss ->
  last (input_text v0) <> Some 10%Z ->
  (exists ls, sb_rep (v_scrollback v0) (text_of <$> cpss) ls) ->
  exists v, ik_layer_cake_get_total_height cake v0 width = Ret (length (agent_rows v0 cpss width), v) /\
    same_view v0 cpss v.
Proof.
  intros [Hc [r Hl] _ _] Hw Ht Hlast [ls Hr].
  assert (same_view v0 cpss v0) as Hv by (exists (v_scrollback v0), ls; split; [by destruct v0|done]).
  destruct (height_loop_ok (same_view v0 cpss) width cake agent_layers (agent_parts v0 cpss width) [] r v0 0 Hl
              (agent_layers_are v0 cpss width Hw Ht Hlast) Hv) as (v & E & Hv').
  exists v. split; [|done]. unfold ik_layer_cake_get_total_height. rewrite Hc. exact E.
Qed.

End agent_cake.
