(* ===== verification/AgentTree.v ===== *)
(** * The agents of the program (repl_agent_mgmt.c, repl_navigation.c)

    The array of running agents, looking one up by its identifier, and moving
    between siblings, parents and children.  An agent is known by its address
    ([addr]); the context shown in a separator layer is kept in [navs]. *)

From Stdlib Require Import String.
From stdpp Require Import strings gmap.
From S2P Require Import Prelude Slots CString Scrollback OutputStyle Layers AgentLayers.

Record tree_agent := mk_tree_agent {
  addr : nat;
  uuid : cstr;
  parent_of : option cstr;
  created_at : Z
}.

#[export] Instance tree_agent_inhabited : Inhabited tree_agent := populate (mk_tree_agent 0 [] None 0).

(** The fields of the REPL. *)
Record agent_tree := mk_tree {
  agents : list tree_agent;
  agent_count : nat;
  agent_capacity : nat;
  current_agent : option tree_agent;
  navs : gmap nat ik_separator_nav_context
}.

Definition same_agent (a b : tree_agent) : bool := (addr a =? addr b)%nat.

Section management.
Context `{SlotAllocator}.

(** ** repl_agent_mgmt.c *)

Definition ik_repl_add_agent (r : agent_tree) (a : tree_agent) : outcome agent_tree :=
  let! (slots, cap) :=
    if (agent_capacity r <=? agent_count r)%nat then
      let new_capacity := if (agent_capacity r =? 0)%nat then 4 else wrap64 (agent_capacity r * 2) in
      let! slots := or_panic (realloc_slots (agents r) (wrap32 new_capacity)) in
      Ret (slots, new_capacity)
    else Ret (agents r, agent_capacity r) in
  let! slots := arr_set (agent_count r) a slots in
  Ret (mk_tree slots (S (agent_count r)) cap (current_agent r) (navs r)).

(** The first of [n] agents from [i] on whose identifier is [id]. *)
Fixpoint index_of (slots : list tree_agent) (id : cstr) (n i : nat) : outcome (option nat) :=
  match n with
  | 0 => Ret None
  | S n =>
      let! a := arr_get slots i in
      if strcmp_eq (uuid a) id then Ret (Some i) else index_of slots id n (S i)
  end.

Definition ik_repl_remove_agent (r : agent_tree) (id : cstr) : outcome agent_tree :=
  let! found := index_of (agents r) id (agent_count r) 0 in
  match found with
  | None => Fail ERR_AGENT_NOT_FOUND
  | Some index =>
      let! a := arr_get (agents r) index in
      let current := match current_agent r with
                     | Some c => if same_agent a c then None else Some c
                     | None => None
                     end in
      let! slots := close_gap (agents r) (agent_count r - 1 - index) index in
      Ret (mk_tree slots (agent_count r - 1) (agent_capacity r) current (navs r))
  end.

(** The unique agent whose identifier begins with the prefix: the second pass
    of the look-up. *)
Fixpoint prefix_pass (slots : list tree_agent) (prefix : cstr) (n i : nat) (match_ : option tree_agent)
    (match_count : nat) : outcome (option tree_agent) :=
  match n with
  | 0 => Ret match_
  | S n =>
      let! a := arr_get slots i in
      if starts_with prefix (uuid a) then
        if (1 <? S match_count)%nat then Ret None
        else prefix_pass slots prefix n (S i) (Some a) (S match_count)
      else prefix_pass slots prefix n (S i) match_ match_count
  end.

Definition ik_repl_find_agent (r : agent_tree) (uuid_prefix : cstr) : outcome (option tree_agent) :=
  if (length uuid_prefix <? 4)%nat then Ret None
  else
    let! exact := index_of (agents r) uuid_prefix (agent_count r) 0 in
    match exact with
    | Some i => let! a := arr_get (agents r) i in Ret (Some a)
    | None => prefix_pass (agents r) uuid_prefix (agent_count r) 0 None 0
    end.

Fixpoint ambiguous_pass (slots : list tree_agent) (prefix : cstr) (n i match_count : nat) : outcome bool :=
  match n with
  | 0 => Ret false
  | S n =>
      let! a := arr_get slots i in
      if starts_with prefix (uuid a) then
        if (1 <? S match_count)%nat then Ret true else ambiguous_pass slots prefix n (S i) (S match_count)
      else ambiguous_pass slots prefix n (S i) match_count
  end.

Definition ik_repl_uuid_ambiguous (r : agent_tree) (uuid_prefix : cstr) : outcome bool :=
  if (length uuid_prefix <? 4)%nat then Ret false
  else ambiguous_pass (agents r) uuid_prefix (agent_count r) 0 0.

(** ** repl_navigation.c *)

Definition same_parent (parent1 parent2 : option cstr) : bool :=
  match parent1, parent2 with
  | None, None => true
  | Some p1, Some p2 => strcmp_eq p1 p2
  | _, _ => false
  end.

Definition find_agent_by_uuid (r : agent_tree) (id : cstr) : outcome (option tree_agent) :=
  let! found := index_of (agents r) id (agent_count r) 0 in
  match found with
  | Some i => let! a := arr_get (agents r) i in Ret (Some a)
  | None => Ret None
  end.

Definition is_child (current a : tree_agent) : bool :=
  match parent_of a with Some p => strcmp_eq p (uuid current) | None => false end.

(** Whether the best sibling so far is to be replaced: none yet, or the new
    one compares better with its creation time. *)
Definition better (r : agent_tree) (closer : Z -> Z -> bool) (best : option cstr) (a : tree_agent)
  : outcome (option cstr) :=
  match best with
  | None => Ret (Some (uuid a))
  | Some id =>
      let! b := find_agent_by_uuid r id in
      match b with
      | Some b => Ret (if closer (created_at a) (created_at b) then Some (uuid a) else best)
      | None => Ret best
      end
  end.

(** [n] agents are left, from the [i]-th on: (prev, next, children). *)
Fixpoint scan_nav (r : agent_tree) (current : tree_agent) (n i : nat) (prev next : option cstr) (children : nat)
  : outcome (option cstr * option cstr * nat) :=
  match n with
  | 0 => Ret (prev, next, children)
  | S n =>
      let! a := arr_get (agents r) i in
      if same_agent a current then scan_nav r current n (S i) prev next children
      else
        let children := if is_child current a then S children else children in
        if negb (same_parent (parent_of current) (parent_of a)) then
          scan_nav r current n (S i) prev next children
        else if (created_at a <? created_at current)%Z then
          let! prev := better r (fun x y => (y <? x)%Z) prev a in
          scan_nav r current n (S i) prev next children
        else
          let! next := better r (fun x y => (x <? y)%Z) next a in
          scan_nav r current n (S i) prev next children
  end.

Definition ik_repl_update_nav_context (r : agent_tree) : outcome agent_tree :=
  match current_agent r with
  | None => Ret r
  | Some c =>
      let! (prev, next, children) := scan_nav r c (agent_count r) 0 None None 0 in
      Ret (mk_tree (agents r) (agent_count r) (agent_capacity r) (current_agent r)
             (<[addr c := mk_nav (parent_of c) prev (Some (uuid c)) next children]> (navs r)))
  end.

Definition ik_repl_switch_agent (r : agent_tree) (new_agent : option tree_agent) : outcome agent_tree :=
  match new_agent with
  | None => Fail ERR_INVALID_ARG
  | Some a =>
      if match current_agent r with Some c => same_agent a c | None => false end then Ret r
      else ik_repl_update_nav_context
             (mk_tree (agents r) (agent_count r) (agent_capacity r) (Some a) (navs r))
  end.

(** [siblings] is an array of 64 pointers. *)
Fixpoint collect_siblings (r : agent_tree) (parent : option cstr) (n i : nat) (siblings : list tree_agent)
  : outcome (list tree_agent) :=
  match n with
  | 0 => Ret siblings
  | S n =>
      let! a := arr_get (agents r) i in
      if same_parent parent (parent_of a) then
        if (length siblings <? 64)%nat then collect_siblings r parent n (S i) (siblings ++ [a])
        else Undef
      else collect_siblings r parent n (S i) siblings
  end.

Fixpoint position_of (c : tree_agent) (siblings : list tree_agent) (i : nat) : nat :=
  match siblings with
  | [] => 0
  | a :: siblings => if same_agent a c then i else position_of c siblings (S i)
  end.

Definition nav_sibling (step : nat -> nat -> nat) (r : agent_tree) : outcome agent_tree :=
  match current_agent r with
  | None => Panic
  | Some c =>
      let! siblings := collect_siblings r (parent_of c) (agent_count r) 0 [] in
      if (length siblings <=? 1)%nat then Ret r
      else
        let current_idx := position_of c siblings 0 in
        let! a := arr_get siblings (step current_idx (length siblings)) in
        ik_repl_switch_agent r (Some a)
  end.

Definition ik_repl_nav_prev_sibling : agent_tree -> outcome agent_tree :=
  nav_sibling (fun i n => if (i =? 0)%nat then n - 1 else i - 1).

Definition ik_repl_nav_next_sibling : agent_tree -> outcome agent_tree :=
  nav_sibling (fun i n => (i + 1) mod n).

Definition ik_repl_nav_parent (r : agent_tree) : outcome agent_tree :=
  match current_agent r with
  | None => Panic
  | Some c =>
      match parent_of c with
      | None => Ret r
      | Some p =>
          let! parent := ik_repl_find_agent r p in
          match parent with Some a => ik_repl_switch_agent r (Some a) | None => Ret r end
      end
  end.

Fixpoint newest_child (r : agent_tree) (current : tree_agent) (n i : nat) (newest : option tree_agent)
  : outcome (option tree_agent) :=
  match n with
  | 0 => Ret newest
  | S n =>
      let! a := arr_get (agents r) i in
      if is_child current a
         && match newest with None => true | Some b => (created_at b <? created_at a)%Z end
      then newest_child r current n (S i) (Some a)
      else newest_child r current n (S i) newest
  end.

Definition ik_repl_nav_child (r : agent_tree) : outcome agent_tree :=
  match current_agent r with
  | None => Panic
  | Some c =>
      let! newest := newest_child r c (agent_count r) 0 None in
      match newest with Some a => ik_repl_switch_agent r (Some a) | None => Ret r end
  end.

End management.

(** ** The array as a list *)

(** The first element that satisfies [f], with its index. *)
Fixpoint first_at {A} (f : A -> bool) (l : list A) : option (nat * A) :=
  match l with
  | [] => None
  | a :: l => if f a then Some (0, a)
              else match first_at f l with Some (i, b) => Some (S i, b) | None => None end
  end.

Lemma first_at_Some {A} (f : A -> bool) l i a :
  first_at f l = Some (i, a) -> l !! i = Some a /\ f a = true.
Proof.
  revert i. induction l as [|b l IH]; intros i; cbn [first_at]; [done|].
  destruct (f b) eqn:E; [by intros [= <- <-]|].
  destruct (first_at f l) as [[j c]|]; [|done]. intros [= <- <-]. by apply IH.
Qed.

Section representation.
Context `{!SlotAllocator} `{!SlotAllocatorSpec}.
Implicit Types (r : agent_tree) (l : list tree_agent).

Record tree_rep r l : Prop := {
  tr_count : agent_count r = length l;
  tr_agents : exists rest, agents r = l ++ rest;
  tr_capacity : length (agents r) = agent_capacity r
}.

Definition has_id (id : cstr) (a : tree_agent) : bool := strcmp_eq (uuid a) id.
Definition prefixed (p : cstr) (a : tree_agent) : bool := starts_with p (uuid a).

Lemma index_of_ok d l rest id :
  index_of (d ++ l ++ rest) id (length l) (length d)
  = Ret (match first_at (has_id id) l with Some (i, _) => Some (length d + i) | None => None end).
Proof.
  revert d. induction l as [|a l IH]; intros d; [done|]. cbn [index_of length app].
  rewrite arr_get_app. cbn [obind first_at]. unfold has_id at 1.
  destruct (strcmp_eq (uuid a) id); [by rewrite Nat.add_0_r|]. specialize (IH (d ++ [a])). rewrite <- app_assoc in IH. cbn [app] in IH.
  rewrite length_app, Nat.add_1_r in IH. rewrite IH. f_equal.
  destruct (first_at _ l) as [[i b]|]; [|done]. cbn. f_equal. lia.
Qed.

Lemma find_id_ok r l id :
  tree_rep r l ->
  index_of (agents r) id (agent_count r) 0
  = Ret (match first_at (has_id id) l with Some (i, _) => Some i | None => None end).
Proof. intros [-> [rest ->] _]. exact (index_of_ok [] l rest id). Qed.

Lemma prefix_pass_ok d l rest p m k :
  prefix_pass (d ++ l ++ rest) p (length l) (length d) m k
  = Ret (match List.filter (prefixed p) l with
         | [] => m
         | a :: s => if (k + length (a :: s) <=? 1)%nat then Some a else None
         end).
Proof.
  revert d m k. induction l as [|a l IH]; intros d m k; [done|]. cbn [prefix_pass length app].
  rewrite arr_get_app. cbn [obind List.filter]. unfold prefixed at 1.
  assert (forall m k, prefix_pass (d ++ a :: l ++ rest) p (length l) (S (length d)) m k
            = Ret (match List.filter (prefixed p) l with
                   | [] => m
                   | a :: s => if (k + length (a :: s) <=? 1)%nat then Some a else None
                   end)) as IH'.
  { intros m' k'. specialize (IH (d ++ [a]) m' k'). rewrite <- app_assoc in IH. cbn [app] in IH.
    rewrite length_app, Nat.add_1_r in IH. exact IH. }
  destruct (starts_with p (uuid a)); [|apply IH'].
  cbn [length]. destruct (Nat.ltb_spec 1 (S k)) as [Hk|Hk].
  - rewrite (proj2 (Nat.leb_gt _ _)) by lia. done.
  - rewrite IH'. assert (k = 0) as -> by lia. cbn [Nat.add length].
    by destruct (List.filter (prefixed p) l) as [|b s].
Qed.

Lemma ambiguous_pass_ok d l rest p k :
  k <= 1 -> ambiguous_pass (d ++ l ++ rest) p (length l) (length d) k
  = Ret (1 <? k + length (List.filter (prefixed p) l))%nat.
Proof.
  revert d k. induction l as [|a l IH]; intros d k Hk; cbn [ambiguous_pass length app List.filter].
  { rewrite (proj2 (Nat.ltb_ge _ _)) by lia. done. }
  rewrite arr_get_app. cbn [obind]. unfold prefixed at 1.
  assert (forall k, k <= 1 -> ambiguous_pass (d ++ a :: l ++ rest) p (length l) (S (length d)) k
            = Ret (1 <? k + length (List.filter (prefixed p) l))%nat) as IH'.
  { intros k' Hk'. specialize (IH (d ++ [a]) k' Hk'). rewrite <- app_assoc in IH. cbn [app] in IH.
    rewrite length_app, Nat.add_1_r in IH. exact IH. }
  destruct (starts_with p (uuid a)); [|by apply IH'].
  cbn [length]. destruct (Nat.ltb_spec 1 (S k)) as [Hk1|Hk1].
  - rewrite (proj2 (Nat.ltb_lt _ _)) by lia. done.
  - rewrite IH' by done. f_equal. f_equal. lia.
Qed.

(** What the look-up promises: the first exact match, or else the only agent
    with the prefix. *)
Definition find_in l (p : cstr) : option tree_agent :=
  if (length p <? 4)%nat then None
  else match first_at (has_id p) l with
       | Some (_, a) => Some a
       | None => match List.filter (prefixed p) l with [a] => Some a | _ => None end
       end.

Lemma find_agent_ok r l p : tree_rep r l -> ik_repl_find_agent r p = Ret (find_in l p).
Proof.
  intros Hr. unfold ik_repl_find_agent, find_in. destruct (length p <? 4)%nat; [done|].
  rewrite (find_id_ok r l) by done. cbn [obind].
  destruct (first_at (has_id p) l) as [[i a]|] eqn:E.
  - apply first_at_Some in E as [Hi _]. destruct Hr as [_ [rest ->] _].
    by rewrite (arr_get_lookup _ _ _ _ Hi).
  - destruct Hr as [-> [rest ->] _]. pose proof (prefix_pass_ok [] l rest p None 0) as Ep.
    cbn [app length] in Ep. rewrite Ep.
    destruct (List.filter (prefixed p) l) as [|a [|b s]]; done.
Qed.

Lemma uuid_ambiguous_ok r l p :
  tree_rep r l ->
  ik_repl_uuid_ambiguous r p = Ret ((4 <=? length p)%nat && (1 <? length (List.filter (prefixed p) l))%nat).
Proof.
  unfold ik_repl_uuid_ambiguous. intros [-> [rest ->] _].
  destruct (Nat.ltb_spec (length p) 4); [by rewrite (proj2 (Nat.leb_gt _ _)) by lia|].
  rewrite (proj2 (Nat.leb_le _ _)) by lia. apply (ambiguous_pass_ok [] l rest p 0). lia.
Qed.

(** *** Adding and removing *)

Lemma add_agent_ok r l a :
  tree_rep r l -> (Z.of_nat (length (agents r)) < 2 ^ 31)%Z ->
  exists r', ik_repl_add_agent r a = Ret r' /\ tree_rep r' (l ++ [a]) /\ current_agent r' = current_agent r /\
    length (agents r') <= Nat.max (length (agents r)) (Nat.max 4 (2 * length l)).
Proof.
  intros [Hc [rest Hl] Hcap] Hb. pose proof (f_equal length Hl) as Hll. rewrite length_app in Hll. unfold ik_repl_add_agent.
  match goal with |- context [obind ?m _] =>
    assert (exists rest' cap, m = Ret (l ++ rest', cap) /\ length (l ++ rest') = cap /\ length l < cap /\
              cap <= Nat.max (length (agents r)) (Nat.max 4 (2 * length l))) as (rest' & cap & -> & Hlen & Hlt & Hmax) end.
  { destruct (Nat.leb_spec (agent_capacity r) (agent_count r)) as [Hfull|Hroom].
    - set (nc := if (agent_capacity r =? 0)%nat then 4 else wrap64 (agent_capacity r * 2)).
      assert (agent_capacity r < nc /\ nc <= Nat.max 4 (2 * length l)) as [Hn1 Hn2].
      { subst nc. destruct (Nat.eqb_spec (agent_capacity r) 0); [lia|]. rewrite wrap64_small by lia. lia. }
      rewrite wrap32_small by lia. destruct (realloc_slots_some (agents r) nc) as (x & -> & Hx); [lia|]. cbn [or_panic obind].
      rewrite Hl, <- app_assoc in *. exists (rest ++ x), nc. rewrite !length_app in *. split_and!; done || lia.
    - exists rest, (agent_capacity r). rewrite <- Hl. split_and!; done || lia. }
  cbn [obind]. rewrite Hc, arr_set_end by (intros ->; rewrite app_nil_r in Hlen; lia). cbn [obind].
  eexists. split; [reflexivity|]. cbn [agents current_agent].
  assert (length ((l ++ [a]) ++ drop 1 rest') = cap) as E
    by (rewrite !length_app, length_drop in *; cbn [length]; lia).
  split; [|split; [done|lia]]. constructor; cbn; [rewrite length_app; simpl; lia|by eexists|done].
Qed.

(** The list without the first agent that has the identifier. *)
Definition without l (id : cstr) : list tree_agent :=
  match first_at (has_id id) l with Some (i, _) => delete i l | None => l end.

Lemma remove_agent_ok r l id :
  tree_rep r l ->
  match first_at (has_id id) l with
  | None => ik_repl_remove_agent r id = Fail ERR_AGENT_NOT_FOUND
  | Some (i, a) =>
      exists r', ik_repl_remove_agent r id = Ret r' /\ tree_rep r' (delete i l) /\
        length (agents r') = length (agents r) /\
        current_agent r' = match current_agent r with
                           | Some c => if same_agent a c then None else Some c
                           | None => None
                           end
  end.
Proof.
  intros Hr. unfold ik_repl_remove_agent. rewrite (find_id_ok r l) by done. cbn [obind].
  destruct (first_at (has_id id) l) as [[i a]|] eqn:E; [|done].
  apply first_at_Some in E as [Hi _]. destruct Hr as [Hc [rest Hl] Hcap].
  assert (arr_get (agents r) i = Ret a) as -> by (rewrite Hl; by apply arr_get_lookup). cbn [obind].
  pose proof (take_drop_middle l i a Hi) as El. pose proof (lookup_lt_Some _ _ _ Hi) as Hlt.
  assert (close_gap (agents r) (agent_count r - 1 - i) i
          = Ret (delete i l ++ (match last (drop (S i) l) with Some x => x | None => a end) :: rest)) as ->.
  { rewrite Hl, Hc. rewrite <- El at 1. rewrite <- app_assoc. cbn [app].
    assert (length (take i l) = i) as Ei by (rewrite length_take; lia).
    pose proof (close_gap_ok (take i l) a (drop (S i) l) rest) as Es. rewrite Ei, length_drop in Es.
    replace (length l - 1 - i) with (length l - S i) by lia. rewrite Es.
    by rewrite delete_take_drop, <- app_assoc. }
  cbn [obind]. eexists. split; [reflexivity|]. cbn [agents current_agent].
  assert (length (delete i l) = length l - 1) as Ed by (rewrite length_delete; [lia|by exists a]).
  assert (length (delete i l ++ (match last (drop (S i) l) with Some x => x | None => a end) :: rest)
          = length (agents r)) as Elen by (rewrite Hl, !length_app, Ed; cbn [length]; lia).
  split_and!; [|done|done]. constructor; cbn; [lia|by eexists|lia].
Qed.

End representation.

(** ** Siblings *)

Section siblings.
Implicit Types (r : agent_tree) (l : list tree_agent).

Definition siblings_of (c : tree_agent) l : list tree_agent :=
  List.filter (fun a => same_parent (parent_of c) (parent_of a)) l.

Lemma same_parent_true p q : same_parent p q = true <-> p = q.
Proof.
  destruct p, q; cbn; try done. unfold strcmp_eq. rewrite bool_decide_eq_true. naive_solver.
Qed.

Lemma collect_siblings_ok r l rest d p m acc :
  agents r = d ++ l ++ rest -> m = length l -> length acc <= 64 ->
  collect_siblings r p m (length d) acc
  = (if (length acc + length (List.filter (fun a => same_parent p (parent_of a)) l) <=? 64)%nat
     then Ret (acc ++ List.filter (fun a => same_parent p (parent_of a)) l) else Undef).
Proof.
  intros Hl -> Ha. revert d acc Hl Ha. induction l as [|a l IH]; intros d acc Hl Ha;
    cbn [collect_siblings length List.filter].
  { rewrite (proj2 (Nat.leb_le _ _)) by (simpl; lia). by rewrite app_nil_r. }
  rewrite Hl. cbn [app]. rewrite arr_get_app. cbn [obind].
  assert (agents r = (d ++ [a]) ++ l ++ rest) as Hl' by (by rewrite Hl, <- app_assoc).
  pose proof (fun acc => IH (d ++ [a]) acc Hl') as IH'. rewrite length_app, Nat.add_1_r in IH'.
  destruct (same_parent p (parent_of a)); [|by apply IH'].
  destruct (Nat.ltb_spec (length acc) 64) as [Hlt|Hge].
  - rewrite IH' by (rewrite length_app; simpl; lia). rewrite length_app, <- app_assoc. cbn [length app].
    by replace (length acc + 1 + length (List.filter (fun a => same_parent p (parent_of a)) l))
      with (length acc + S (length (List.filter (fun a => same_parent p (parent_of a)) l))) by lia.
  - cbn [length]. by rewrite (proj2 (Nat.leb_gt _ _)) by lia.
Qed.

Lemma better_ok r l f best a : tree_rep r l -> exists best', better r f best a = Ret best'.
Proof.
  intros Hr. unfold better, find_agent_by_uuid. destruct best as [id|]; [|eauto].
  rewrite (find_id_ok r l) by done. cbn [obind].
  destruct (first_at (has_id id) l) as [[i b]|] eqn:E; cbn [obind]; [|eauto].
  apply first_at_Some in E as [Hi _]. destruct Hr as [_ [rest ->] _].
  rewrite (arr_get_lookup _ _ _ _ Hi). cbn [obind]. eauto.
Qed.

Lemma scan_nav_ok r l c n i prev next k :
  tree_rep r l -> i + n <= length l -> exists res, scan_nav r c n i prev next k = Ret res.
Proof.
  intros Hr. revert i prev next k. induction n as [|n IH]; intros i prev next k Hi; cbn [scan_nav]; [eauto|].
  destruct (lookup_lt_is_Some_2 l i ltac:(lia)) as [a Ha].
  assert (arr_get (agents r) i = Ret a) as -> by (destruct Hr as [_ [rest ->] _]; by apply arr_get_lookup).
  cbn [obind]. destruct (same_agent a c); [apply IH; lia|].
  destruct (negb _); [apply IH; lia|].
  destruct (_ <? _)%Z; (edestruct better_ok as [b ->]; [exact Hr|]); cbn [obind]; apply IH; lia.
Qed.

Lemma update_nav_ok r l :
  tree_rep r l -> exists r', ik_repl_update_nav_context r = Ret r' /\ tree_rep r' l /\
    current_agent r' = current_agent r.
Proof.
  intros Hr. unfold ik_repl_update_nav_context. destruct (current_agent r) as [c|] eqn:E; [|by exists r].
  destruct (scan_nav_ok r l c (agent_count r) 0 None None 0 Hr) as [[[p x] k] ->];
    [rewrite (tr_count _ _ Hr); lia|].
  cbn [obind]. eexists. split; [reflexivity|]. split; [|done]. by destruct Hr.
Qed.

Lemma switch_ok r l a :
  tree_rep r l -> NoDup (addr <$> l) -> a ∈ l -> (forall c, current_agent r = Some c -> c ∈ l) ->
  exists r', ik_repl_switch_agent r (Some a) = Ret r' /\ tree_rep r' l /\ current_agent r' = Some a.
Proof.
  intros Hr Hnd Ha Hc. unfold ik_repl_switch_agent.
  destruct (match current_agent r with Some c => same_agent a c | None => false end) eqn:E.
  - destruct (current_agent r) as [c|] eqn:Ec; [|done]. exists r. split_and!; [done|done|].
    rewrite Ec. f_equal. unfold same_agent in E. apply Nat.eqb_eq in E.
    apply list_elem_of_lookup_1 in Ha as [i Hi]. specialize (Hc c eq_refl).
    apply list_elem_of_lookup_1 in Hc as [j Hj].
    assert (i = j) as ->; [|congruence].
    eapply NoDup_lookup; [exact Hnd| |]; rewrite list_lookup_fmap; [by rewrite Hi|by rewrite Hj, E].
  - destruct (update_nav_ok (mk_tree (agents r) (agent_count r) (agent_capacity r) (Some a) (navs r)) l)
      as (r' & E' & Hr' & Ec); [by destruct Hr|]. by exists r'.
Qed.

Lemma position_ok c l i k :
  NoDup (addr <$> l) -> l !! i = Some c -> position_of c l k = k + i.
Proof.
  revert i k. induction l as [|a l IH]; intros i k Hnd Hi; [done|]. cbn [position_of].
  cbn [fmap list_fmap] in Hnd. apply NoDup_cons in Hnd as [Hn Hnd]. destruct i as [|i].
  - injection Hi as ->. unfold same_agent. by rewrite Nat.eqb_refl, Nat.add_0_r.
  - cbn in Hi. unfold same_agent. destruct (Nat.eqb_spec (addr a) (addr c)) as [E|].
    + exfalso. apply Hn. rewrite E. apply list_elem_of_fmap. exists c. split; [done|]. by eapply list_elem_of_lookup_2.
    + rewrite (IH i (S k) Hnd Hi). lia.
Qed.

Lemma siblings_incl c l a : a ∈ siblings_of c l -> a ∈ l /\ parent_of c = parent_of a.
Proof.
  unfold siblings_of. rewrite list_elem_of_In, filter_In. intros [Hin Hp].
  split; [by apply list_elem_of_In|by apply same_parent_true].
Qed.

Lemma siblings_nodup c l : NoDup (addr <$> l) -> NoDup (addr <$> siblings_of c l).
Proof.
  unfold siblings_of. induction l as [|a l IH]; [done|]. cbn [fmap list_fmap List.filter].
  intros [Hn Hnd]%NoDup_cons. destruct (same_parent _ _); [|by apply IH].
  cbn [fmap list_fmap]. apply NoDup_cons. split; [|by apply IH].
  intros (b & Eb & Hb)%list_elem_of_fmap. apply Hn. apply list_elem_of_fmap. exists b. split; [done|].
  apply siblings_incl in Hb. tauto.
Qed.

(** A step to the sibling whose index [step] gives. *)
Lemma nav_sibling_ok step r l c i :
  tree_rep r l -> NoDup (addr <$> l) -> current_agent r = Some c -> siblings_of c l !! i = Some c ->
  2 <= length (siblings_of c l) <= 64 ->
  step i (length (siblings_of c l)) < length (siblings_of c l) ->
  exists r' a, nav_sibling step r = Ret r' /\ tree_rep r' l /\ current_agent r' = Some a /\
    siblings_of c l !! step i (length (siblings_of c l)) = Some a /\ siblings_of a l = siblings_of c l.
Proof.
  intros Hr Hnd Hc Hi Hn Hs. unfold nav_sibling. rewrite Hc.
  destruct (tr_agents _ _ Hr) as [rest Hl].
  pose proof (collect_siblings_ok r l rest [] (parent_of c) (agent_count r) [] Hl (tr_count _ _ Hr)) as Ecol.
  cbn [length Nat.add app] in Ecol. rewrite Ecol by lia. fold (siblings_of c l).
  rewrite (proj2 (Nat.leb_le _ 64)) by lia. cbn [obind]. rewrite (proj2 (Nat.leb_gt _ 1)) by lia.
  rewrite (position_ok c _ i) by (done || by apply siblings_nodup). cbn [Nat.add].
  destruct (lookup_lt_is_Some_2 _ _ Hs) as [a Ha]. unfold arr_get. rewrite Ha. cbn [obind].
  pose proof (siblings_incl c l a (list_elem_of_lookup_2 _ _ _ Ha)) as [Hal Hap].
  destruct (switch_ok r l a Hr Hnd Hal) as (r' & E & Hr' & Ec).
  { intros c' Hc'. rewrite Hc in Hc'. injection Hc' as <-.
    exact (proj1 (siblings_incl c l c (list_elem_of_lookup_2 _ _ _ Hi))). }
  exists r', a. split_and!; try done. unfold siblings_of. by rewrite Hap.
Qed.

End siblings.

(** ** Properties *)

Module TreeProps.
Section properties.
Context `{!SlotAllocator} `{!SlotAllocatorSpec}.
Implicit Types (r : agent_tree) (l : list tree_agent).

(** Additions and removals. *)
Inductive tree_op := AddAgent (a : tree_agent) | RemoveAgent (id : cstr).

(** A removal of an agent that is not there is an error the callers report. *)
Fixpoint tree_run r (ops : list tree_op) : outcome agent_tree :=
  match ops with
  | [] => Ret r
  | AddAgent a :: ops => let! r := ik_repl_add_agent r a in tree_run r ops
  | RemoveAgent id :: ops =>
      match ik_repl_remove_agent r id with
      | Fail ERR_AGENT_NOT_FOUND => tree_run r ops
      | m => let! r := m in tree_run r ops
      end
  end.

Definition list_step l (op : tree_op) : list tree_agent :=
  match op with AddAgent a => l ++ [a] | RemoveAgent id => without l id end.

Lemma tree_run_ok B ops r l :
  tree_rep r l -> length (agents r) <= 4 + 2 * B -> length l + length ops <= B -> (Z.of_nat B < 2 ^ 29)%Z ->
  exists r', tree_run r ops = Ret r' /\ tree_rep r' (fold_left list_step ops l).
Proof.
  intros Hr Hcap Hlen HB. revert r l Hr Hcap Hlen.
  induction ops as [|[a|id] ops IH]; intros r l Hr Hcap Hlen; cbn [tree_run fold_left length list_step] in *;
    [by exists r|..].
  - destruct (add_agent_ok r l a Hr) as (r1 & -> & Hr1 & _ & Hc1); [lia|]. cbn [obind].
    apply IH; [done|lia|rewrite length_app; simpl; lia].
  - pose proof (remove_agent_ok r l id Hr) as Hrm. unfold without.
    destruct (first_at (has_id id) l) as [[i a]|] eqn:E.
    + destruct Hrm as (r1 & -> & Hr1 & Hc1 & _). cbn [obind]. apply IH; [done|lia|].
      apply first_at_Some in E as [Hi _]. rewrite length_delete by (by exists a).
      apply lookup_lt_Some in Hi. lia.
    + rewrite Hrm. apply IH; [done|lia|lia].
Qed.

(** C13: the running agents are a list.  After fewer than 2^29 additions and
    removals, so that the 32-bit length passed to the allocator does not wrap,
    the array holds the agents added and not removed, in order; find_agent
    answers the agent with exactly that identifier, or else the only one whose
    identifier has the prefix of at least four characters, and uuid_ambiguous
    that several have it. *)
Theorem agents_refine_list (ops : list tree_op) :
  (Z.of_nat (length ops) < 2 ^ 29)%Z ->
  let l := fold_left list_step ops [] in
  exists r, tree_run (mk_tree [] 0 0 None ∅) ops = Ret r /\
    agent_count r = length l /\ take (agent_count r) (agents r) = l /\
    (forall p, ik_repl_find_agent r p = Ret (find_in l p)) /\
    (forall p, ik_repl_uuid_ambiguous r p
               = Ret ((4 <=? length p)%nat && (1 <? length (List.filter (prefixed p) l))%nat)).
Proof.
  intros Hn l. destruct (tree_run_ok (length ops) ops (mk_tree [] 0 0 None ∅) []) as (r & E & Hr);
    [constructor; [done|by exists []|done]|simpl; lia|simpl; lia|done|].
  fold l in Hr. exists r. split; [done|]. split; [exact (tr_count _ _ Hr)|]. split_and!.
  - destruct (tr_agents _ _ Hr) as [rest ->]. rewrite (tr_count _ _ Hr). apply take_app_length.
  - intros p. by apply find_agent_ok.
  - intros p. by apply uuid_ambiguous_ok.
Qed.

(** [true] is a step to the next sibling. *)
Fixpoint walk r (moves : list bool) : outcome agent_tree :=
  match moves with
  | [] => Ret r
  | m :: moves =>
      let! r := if m then ik_repl_nav_next_sibling r else ik_repl_nav_prev_sibling r in walk r moves
  end.

Definition steps (moves : list bool) : Z := foldr (fun (m : bool) n => if m then n + 1 else n - 1)%Z 0%Z moves.

(** moving between siblings goes round in a circle.  Among two to 64
    siblings, whatever the moves, the current agent is afterwards the sibling as
    many places further as there were moves to the next less moves to the
    previous one, counted round; so next and previous undo each other. *)
Theorem siblings_circle r l c i (moves : list bool) :
  tree_rep r l -> NoDup (addr <$> l) -> current_agent r = Some c -> siblings_of c l !! i = Some c ->
  2 <= length (siblings_of c l) <= 64 ->
  exists r', walk r moves = Ret r' /\
    current_agent r' = siblings_of c l !! Z.to_nat ((Z.of_nat i + steps moves) mod Z.of_nat (length (siblings_of c l))).
Proof.
  intros Hr Hnd Hc Hi Hn. revert r c i Hr Hc Hi Hn.
  induction moves as [|m moves IH]; intros r c i Hr Hc Hi Hn; set (n := length (siblings_of c l)) in *;
    cbn [walk steps foldr].
  { exists r. split; [done|]. pose proof (lookup_lt_Some _ _ _ Hi).
    rewrite Z.add_0_r, Z.mod_small, Nat2Z.id by lia. congruence. }
  pose proof (lookup_lt_Some _ _ _ Hi) as Hlt. fold n in Hlt.
  set (j := if m then (i + 1) mod n else if (i =? 0)%nat then n - 1 else i - 1).
  assert (j < n /\ forall x, ((Z.of_nat j + x) mod Z.of_nat n = (Z.of_nat i + (if m then x + 1 else x - 1)) mod Z.of_nat n)%Z)
    as [Hj Ej].
  { subst j. destruct m.
    - split; [apply Nat.mod_upper_bound; lia|]. intros x. rewrite Nat2Z.inj_mod, Zplus_mod_idemp_l. f_equal. lia.
    - destruct (Nat.eqb_spec i 0) as [->|]; split; try lia; intros x; [|f_equal; lia].
      replace (Z.of_nat (n - 1) + x)%Z with (Z.of_nat 0 + (x - 1) + 1 * Z.of_nat n)%Z by lia.
      by rewrite Z.mod_add by lia. }
  destruct (nav_sibling_ok (if m then fun i n => (i + 1) mod n else fun i n => if (i =? 0)%nat then n - 1 else i - 1)
              r l c i Hr Hnd Hc Hi Hn) as (r1 & a & E & Hr1 & Hc1 & Ha & Es);
    [fold n; subst j; by destruct m|].
  replace ((if m then fun i n => (i + 1) mod n else fun i n => if (i =? 0)%nat then n - 1 else i - 1) i
             (length (siblings_of c l))) with j in Ha by (subst j; by destruct m).
  destruct (IH r1 a j Hr1 Hc1) as (r' & E' & Ec'); [by rewrite Es|by rewrite Es|].
  rewrite Es in Ec'. fold n in Ec'. fold (steps moves). rewrite <- Ej, <- Ec'.
  exists r'. split; [|done]. unfold ik_repl_nav_next_sibling, ik_repl_nav_prev_sibling in *.
  destruct m; rewrite E; exact E'.
Qed.

(** more than 64 siblings overrun the array they are collected in. *)
Theorem too_many_siblings r l c :
  tree_rep r l -> current_agent r = Some c -> 64 < length (siblings_of c l) ->
  ik_repl_nav_next_sibling r = Undef /\ ik_repl_nav_prev_sibling r = Undef.
Proof.
  intros Hr Hc Hn. unfold ik_repl_nav_next_sibling, ik_repl_nav_prev_sibling, nav_sibling. rewrite Hc.
  destruct (tr_agents _ _ Hr) as [rest Hl].
  pose proof (collect_siblings_ok r l rest [] (parent_of c) (agent_count r) [] Hl (tr_count _ _ Hr)) as Ecol.
  cbn [length Nat.add app] in Ecol. rewrite Ecol by lia. fold (siblings_of c l).
  by rewrite (proj2 (Nat.leb_gt _ _)) by lia.
Qed.

End properties.
End TreeProps.

Module TreeExamples.
Import CopySlots TreeProps.

Definition agent_n (n : nat) (parent : option cstr) : tree_agent :=
  mk_tree_agent n (lit "agent-" ++ show_int (Z.of_nat n)) parent (Z.of_nat n).

(** A root, its three children, and a removal. *)
Definition sample_ops : list tree_op :=
  [AddAgent (agent_n 0 None); AddAgent (agent_n 1 (Some (lit "agent-0"))); AddAgent (agent_n 2 (Some (lit "agent-0")));
   AddAgent (agent_n 3 (Some (lit "agent-0"))); AddAgent (agent_n 10 None); RemoveAgent (lit "agent-2")].

Lemma agents_refine_list_witness :
  exists r, tree_run (mk_tree [] 0 0 None ∅) sample_ops = Ret r /\
    (addr <$> take (agent_count r) (agents r)) = [0; 1; 3; 10] /\
    ik_repl_find_agent r (lit "agent-1") = Ret (Some (agent_n 1 (Some (lit "agent-0")))) /\
    ik_repl_find_agent r (lit "agent-") = Ret None /\ ik_repl_uuid_ambiguous r (lit "agent-") = Ret true.
Proof.
  destruct (agents_refine_list sample_ops) as (r & E & _ & Hl & Hf & Ha); [by vm_compute|].
  exists r. split; [exact E|]. split; [rewrite Hl; vm_compute; reflexivity|].
  split; [rewrite Hf; vm_compute; reflexivity|]. split; [rewrite Hf; vm_compute; reflexivity|].
  rewrite Ha. vm_compute. reflexivity.
Defined.

Definition family (n : nat) : list tree_agent :=
  agent_n 0 None :: ((fun i => agent_n i (Some (lit "agent-0"))) <$> seq 1 n).

Definition family_tree (n k : nat) : agent_tree :=
  mk_tree (family n) (length (family n)) (length (family n)) (family n !! k) ∅.

Lemma family_rep n k : tree_rep (family_tree n k) (family n).
Proof. constructor; [done|exists []; by rewrite app_nil_r|done]. Qed.

Lemma siblings_circle_witness :
  exists r', walk (family_tree 3 2) [true; true; false; true] = Ret r' /\
    current_agent r' = Some (agent_n 1 (Some (lit "agent-0"))).
Proof.
  destruct (siblings_circle (family_tree 3 2) (family 3) (agent_n 2 (Some (lit "agent-0"))) 1
              [true; true; false; true] (family_rep 3 2)) as (r' & E & Ec).
  - apply (bool_decide_unpack _); vm_compute; exact I.
  - reflexivity.
  - vm_compute. reflexivity.
  - apply (bool_decide_unpack _); vm_compute; exact I.
  - exists r'. split; [exact E|]. rewrite Ec. vm_compute. reflexivity.
Defined.

Lemma too_many_siblings_witness : ik_repl_nav_next_sibling (family_tree 65 7) = Undef.
Proof.
  refine (proj1 (too_many_siblings (family_tree 65 7) (family 65) (agent_n 7 (Some (lit "agent-0")))
                   (family_rep 65 7) _ _)).
  - reflexivity.
  - apply (bool_decide_unpack _); vm_compute; exact I.
Defined.

End TreeExamples.
