(* ===== verification/Template.v ===== *)
(** * Templates (template.c)

    Variables in pinned documents: [${agent.field}], [${config.field}],
    [${env.name}], [${func.name}], and [$$] for a dollar.  What the process gets
    from the system (environment, clock, directory, host, random identifiers)
    can differ from one variable to the next: [host n] is what the [n]-th
    variable of the text sees. *)

From Stdlib Require Import String.
From stdpp Require Import strings.
From S2P Require Import Prelude CString.

(** ** The sources of values *)

Record template_agent := mk_template_agent {
  agent_uuid : option cstr;
  agent_name : option cstr;
  agent_parent_uuid : option cstr;
  agent_provider : option cstr;
  agent_model : option cstr;
  agent_created_at : Z
}.

(** [openai_temperature] is the number as "%.2f" prints it. *)
Record template_config := mk_template_config {
  openai_model : option cstr;
  db_host : option cstr;
  db_port : Z;
  db_name : option cstr;
  db_user : option cstr;
  default_provider : option cstr;
  max_tool_turns : Z;
  max_output_size : Z;
  history_size : Z;
  listen_address : option cstr;
  listen_port : Z;
  openai_temperature : cstr;
  openai_max_completion_tokens : Z;
  openai_system_message : option cstr
}.

(** year, month, day, hour, minute, second *)
Record host_values := mk_host {
  getenv : cstr -> option cstr;
  gmtime : option (Z * Z * Z * Z * Z * Z);
  getcwd : option cstr;
  gethostname : option cstr;
  uuid_generate : cstr
}.

Definition field_is (field : cstr) (s : string) : bool := strcmp_eq field (lit s).

Definition resolve_agent_field (field : cstr) (agent : option template_agent) : option cstr :=
  match agent with
  | None => None
  | Some a =>
      if field_is field "uuid" && bool_decide (agent_uuid a <> None) then agent_uuid a
      else if field_is field "name" && bool_decide (agent_name a <> None) then agent_name a
      else if field_is field "parent_uuid" && bool_decide (agent_parent_uuid a <> None) then agent_parent_uuid a
      else if field_is field "provider" && bool_decide (agent_provider a <> None) then agent_provider a
      else if field_is field "model" && bool_decide (agent_model a <> None) then agent_model a
      else if field_is field "created_at" then Some (show_int (agent_created_at a))
      else None
  end.

Definition resolve_config_field (field : cstr) (config : option template_config) : option cstr :=
  match config with
  | None => None
  | Some c =>
      if field_is field "openai_model" && bool_decide (openai_model c <> None) then openai_model c
      else if field_is field "db_host" && bool_decide (db_host c <> None) then db_host c
      else if field_is field "db_port" then Some (show_int (db_port c))
      else if field_is field "db_name" && bool_decide (db_name c <> None) then db_name c
      else if field_is field "db_user" && bool_decide (db_user c <> None) then db_user c
      else if field_is field "default_provider" && bool_decide (default_provider c <> None) then default_provider c
      else if field_is field "max_tool_turns" then Some (show_int (max_tool_turns c))
      else if field_is field "max_output_size" then Some (show_int (max_output_size c))
      else if field_is field "history_size" then Some (show_int (history_size c))
      else if field_is field "listen_address" && bool_decide (listen_address c <> None) then listen_address c
      else if field_is field "listen_port" then Some (show_int (listen_port c))
      else if field_is field "openai_temperature" then Some (openai_temperature c)
      else if field_is field "openai_max_completion_tokens" then Some (show_int (openai_max_completion_tokens c))
      else if field_is field "openai_system_message" && bool_decide (openai_system_message c <> None)
           then openai_system_message c
      else None
  end.

(** "%04d" and "%02d" *)
Definition padded (width : nat) (n : Z) : cstr :=
  let digits := show_int (Z.abs n) in
  let sign := if (n <? 0)%Z then [45]%Z else [] in
  sign ++ replicate (width - length sign - length digits) 48%Z ++ digits.

Definition resolve_func_value (func_name : cstr) (host : host_values) : option cstr :=
  if field_is func_name "now" then
    match gmtime host with
    | None => None
    | Some (year, month, day, hour, minute, second) =>
    Some (padded 4 year ++ lit "-" ++ padded 2 month ++ lit "-" ++ padded 2 day ++ lit "T"
            ++ padded 2 hour ++ lit ":" ++ padded 2 minute ++ lit ":" ++ padded 2 second ++ lit "Z")
    end
  else if field_is func_name "cwd" then getcwd host
  else if field_is func_name "hostname" then gethostname host
  else if field_is func_name "random" then Some (uuid_generate host)
  else None.

Section template.
Context (agent : option template_agent) (config : option template_config) (host : nat -> host_values).

Definition resolve_variable (var : cstr) (host : host_values) : option cstr :=
  if starts_with (lit "agent.") var then resolve_agent_field (drop 6 var) agent
  else if starts_with (lit "config.") var then resolve_config_field (drop 7 var) config
  else if starts_with (lit "env.") var then getenv host (drop 4 var)
  else if starts_with (lit "func.") var then resolve_func_value (drop 5 var) host
  else None.

Definition track_unresolved (unresolved : list cstr) (literal : cstr) : list cstr :=
  if existsb (fun u => strcmp_eq u literal) unresolved then unresolved else unresolved ++ [literal].

Record ik_template_result := mk_template_result {
  processed : cstr;
  unresolved : list cstr
}.

(** The loop over the text [p]; [n] variables came before. *)
Fixpoint template_loop (fuel : nat) (p processed : cstr) (unresolved : list cstr) (n : nat)
  : outcome ik_template_result :=
  match fuel with
  | 0 => NoFuel
  | S fuel =>
      match p with
      | [] => Ret (mk_template_result processed unresolved)
      | c :: rest =>
          if (c =? 36)%Z && match rest with d :: _ => (d =? 36)%Z | [] => false end then
            template_loop fuel (drop 2 p) (processed ++ [36%Z]) unresolved n
          else if (c =? 36)%Z && match rest with d :: _ => (d =? 123)%Z | [] => false end then
            match strchr (drop 2 p) 125 with
            | None => template_loop fuel rest (processed ++ [c]) unresolved n
            | Some var_len =>
                let var := take var_len (drop 2 p) in
                let after := drop (var_len + 3) p in
                match resolve_variable var (host n) with
                | Some value => template_loop fuel after (processed ++ value) unresolved (S n)
                | None =>
                    let literal := take (var_len + 3) p in
                    template_loop fuel after (processed ++ literal) (track_unresolved unresolved literal) (S n)
                end
            end
          else template_loop fuel rest (processed ++ [c]) unresolved n
      end
  end.

Definition ik_template_process (text : cstr) : outcome ik_template_result :=
  template_loop (S (length text)) text [] [] 0.

End template.

(** ** Templates as parts *)

Section parts.
Context (agent : option template_agent) (config : option template_config) (host : nat -> host_values).

Notation resolve := (resolve_variable agent config).
Notation loop := (template_loop agent config host).

(** What a template is written for: text to be shown as it is, and
    variables. *)
Inductive part := Text (t : cstr) | Var (name : cstr).

Definition escape (t : cstr) : cstr := t ≫= (fun c => if (c =? 36)%Z then [36; 36]%Z else [c]).
Definition reference (name : cstr) : cstr := lit "${" ++ name ++ lit "}".

Definition part_source (p : part) : cstr := match p with Text t => escape t | Var name => reference name end.
Definition source (ps : list part) : cstr := ps ≫= part_source.

(** The value of the [n]-th variable, or its reference. *)
Definition var_value (n : nat) (name : cstr) : cstr := default (reference name) (resolve name (host n)).

Fixpoint expand (n : nat) (ps : list part) : cstr :=
  match ps with
  | [] => []
  | Text t :: ps => t ++ expand n ps
  | Var name :: ps => var_value n name ++ expand (S n) ps
  end.

(** The references left unresolved, each once, in order. *)
Fixpoint unresolved_refs (n : nat) (ps : list part) (found : list cstr) : list cstr :=
  match ps with
  | [] => found
  | Text _ :: ps => unresolved_refs n ps found
  | Var name :: ps =>
      unresolved_refs (S n) ps
        (match resolve name (host n) with
         | Some _ => found
         | None => if bool_decide (reference name ∈ found) then found else found ++ [reference name]
         end)
  end.

Lemma track_ok found ref :
  track_unresolved found ref = if bool_decide (ref ∈ found) then found else found ++ [ref].
Proof.
  unfold track_unresolved. assert (existsb (fun u => strcmp_eq u ref) found = bool_decide (ref ∈ found)) as ->; [|done].
  apply eq_true_iff_eq. rewrite existsb_exists, bool_decide_eq_true. unfold strcmp_eq. split.
  - intros (u & Hin & ->%bool_decide_eq_true). by apply list_elem_of_In.
  - intros Hin. exists ref. split; [by apply list_elem_of_In|by apply bool_decide_eq_true].
Qed.

Lemma escape_cons c t : escape (c :: t) = (if (c =? 36)%Z then [36; 36]%Z else [c]) ++ escape t.
Proof. done. Qed.

(** Source text adds itself, a variable its value. *)
Lemma loop_source ps : forall fuel acc un n,
  Forall (fun p => match p with Text _ => True | Var name => 125%Z ∉ name end) ps ->
  length (source ps) < fuel ->
  loop fuel (source ps) acc un n = Ret (mk_template_result (acc ++ expand n ps) (unresolved_refs n ps un)).
Proof.
  induction ps as [|p ps IH]; intros fuel acc un n Hps Hf.
  { destruct fuel; [simpl in Hf; lia|]. cbn. by rewrite app_nil_r. }
  apply Forall_cons in Hps as [Hp Hps]. unfold source in *. cbn [mbind list_bind] in *.
  fold (source ps) in *. destruct p as [t|name]; cbn [part_source expand unresolved_refs].
  - revert fuel acc Hf. induction t as [|c t IHt]; intros fuel acc Hf; [by apply IH|].
    destruct fuel as [|fuel]; [lia|]. cbn [part_source] in *. rewrite escape_cons in Hf |- *.
    destruct (Z.eqb_spec c 36) as [->|Hc].
    + cbn [part_source app length template_loop] in *. rewrite Z.eqb_refl. cbn [andb drop].
      rewrite IHt by (cbn [part_source]; lia). by rewrite <- app_assoc.
    + cbn [part_source app length template_loop] in *. rewrite (proj2 (Z.eqb_neq _ _) Hc). cbn [andb].
      rewrite IHt by (cbn [part_source]; lia). by rewrite <- app_assoc.
  - cbn [part_source] in Hf. destruct fuel as [|fuel]; [lia|].
    assert (reference name ++ source ps = 36%Z :: 123%Z :: name ++ 125%Z :: source ps) as Es.
    { unfold reference. rewrite <- !app_assoc. done. }
    rewrite Es in *. cbn [template_loop]. rewrite !Z.eqb_refl. cbn [andb]. change (123 =? 36)%Z with false.
    cbn [andb drop]. rewrite !drop_0, strchr_app by done.
    rewrite take_app_length.
    assert (drop (length name + 3) (36%Z :: 123%Z :: name ++ 125%Z :: source ps) = source ps) as ->.
    { replace (length name + 3) with (S (S (length name + 1))) by lia. cbn [drop].
      rewrite drop_app_ge by lia. by replace (length name + 1 - length name) with 1 by lia. }
    assert (take (length name + 3) (36%Z :: 123%Z :: name ++ 125%Z :: source ps) = reference name) as ->.
    { replace (length name + 3) with (S (S (length name + 1))) by lia. cbn [take].
      rewrite take_app_ge by lia. by replace (length name + 1 - length name) with 1 by lia. }
    cbn [length] in Hf. rewrite length_app in Hf. cbn [length] in Hf. unfold var_value.
    destruct (resolve name (host n)) as [v|]; cbn [default]; rewrite IH by (done || lia);
      rewrite <- app_assoc; [done|by rewrite track_ok].
Qed.

Lemma loop_ends fuel p acc un n : length p < fuel -> exists r, loop fuel p acc un n = Ret r.
Proof.
  revert p acc un n. induction fuel as [|fuel IH]; intros p acc un n Hf; [lia|].
  cbn [template_loop]. destruct p as [|c rest]; [eauto|]. cbn [length] in Hf.
  assert (forall k, length (drop (S k) (c :: rest)) < fuel) as Hd
    by (intros k; rewrite length_drop; cbn [length]; lia).
  destruct (_ && _); [apply IH, Hd|]. destruct (_ && _); [|apply IH; lia].
  destruct (strchr _ _) as [k|]; [|apply IH; lia].
  replace (k + 3) with (S (k + 2)) by lia. destruct (resolve _ _); apply IH, Hd.
Qed.

End parts.

(** ** Properties *)

Module TemplateProps.

(** templates expand.  Processing ends for every text.  For a template made
    of text, with its dollars doubled, and of variables, the result is the text
    and the values of the variables in order, where a variable without a value
    is kept as it was written; the unresolved references are listed once each,
    in the order of their first use. *)
Theorem templates_expand agent config host (ps : list part) :
  (forall text, exists r, ik_template_process agent config host text = Ret r) /\
  (Forall (fun p => match p with Text _ => True | Var name => 125%Z ∉ name end) ps ->
   ik_template_process agent config host (source ps)
   = Ret (mk_template_result (expand agent config host 0 ps) (unresolved_refs agent config host 0 ps []))).
Proof.
  unfold ik_template_process. split; [intros text; apply loop_ends; lia|].
  intros Hps. rewrite loop_source by (done || lia). done.
Qed.

End TemplateProps.

Module TemplateExamples.
Import TemplateProps.

Definition an_agent : template_agent :=
  mk_template_agent (Some (lit "id-1")) None None (Some (lit "openai")) None 12.

(** Every look-up sees another random number; HOME is set. *)
Definition a_host (n : nat) : host_values :=
  mk_host (fun name => if strcmp_eq name (lit "HOME") then Some (lit "/root") else None)
    (Some (2026, 1, 2, 3, 4, 5))%Z None (Some (lit "box")) (show_int (Z.of_nat n)).

Definition a_template : list part :=
  [Text (lit "Costs $5, agent "); Var (lit "agent.uuid"); Var (lit "agent.name"); Text (lit " ");
   Var (lit "func.random"); Var (lit "func.random"); Text (lit "$"); Var (lit "agent.name"); Var (lit "env.HOME");
   Var (lit "func.now"); Var (lit "x")].

Example a_template_source :
  source a_template
  = lit "Costs $$5, agent ${agent.uuid}${agent.name} ${func.random}${func.random}$$${agent.name}${env.HOME}${func.now}${x}".
Proof. vm_compute. reflexivity. Qed.

Lemma templates_expand_witness :
  ik_template_process (Some an_agent) None a_host (source a_template)
  = Ret (mk_template_result (lit "Costs $5, agent id-1${agent.name} 23$${agent.name}/root2026-01-02T03:04:05Z${x}")
           [lit "${agent.name}"; lit "${x}"]).
Proof.
  etransitivity; [apply (templates_expand (Some an_agent) None a_host a_template)|vm_compute; reflexivity].
  repeat (apply Forall_cons_2 || apply Forall_nil_2 || exact I); apply (bool_decide_unpack _); vm_compute; exact I.
Defined.

End TemplateExamples.
