(* ===== verification/Paths.v ===== *)
(** * Paths and ik:// references (paths.c)

    Directories come from the environment.  Arguments of tools name shared
    files as ik://..., results of tools name them by their path; the two
    translations replace every occurrence in a text.  Each of them first counts
    the occurrences, sizes a buffer from the counts and then fills it: the
    buffer is memory of that size here, so that a wrong count is visible. *)

From Stdlib Require Import String.
From stdpp Require Import strings.
From S2P Require Import Prelude CString.

Record ik_paths := mk_paths {
  bin_dir : cstr;
  config_dir : cstr;
  data_dir : cstr;
  libexec_dir : cstr;
  cache_dir : cstr;
  state_dir : cstr;
  runtime_dir : cstr;
  tools_user_dir : cstr;
  tools_project_dir : cstr
}.

(** ** Directories from the environment *)

Section environment.
Context (getenv : cstr -> option cstr).

Definition ik_paths_expand_tilde (path : option cstr) : outcome cstr :=
  match path with
  | None => Fail ERR_INVALID_ARG
  | Some path =>
      if negb (starts_with (lit "~") path) || negb match drop 1 path with [] => true | c :: _ => (c =? 47)%Z end
      then Ret path
      else
        match getenv (lit "HOME") with
        | None => Fail ERR_IO
        | Some home => match drop 1 path with [] => Ret home | rest => Ret (home ++ rest) end
        end
  end.

(** A variable that is set and not empty. *)
Definition required (name : string) : outcome cstr :=
  match getenv (lit name) with
  | None => Fail ERR_INVALID_ARG
  | Some [] => Fail ERR_INVALID_ARG
  | Some dir => Ret dir
  end.

Definition ik_paths_init : outcome ik_paths :=
  let! bin := required "IKIGAI_BIN_DIR" in
  let! config := required "IKIGAI_CONFIG_DIR" in
  let! data := required "IKIGAI_DATA_DIR" in
  let! libexec := required "IKIGAI_LIBEXEC_DIR" in
  let! cache := required "IKIGAI_CACHE_DIR" in
  let! state := required "IKIGAI_STATE_DIR" in
  let! runtime := required "IKIGAI_RUNTIME_DIR" in
  let! tools_user := ik_paths_expand_tilde (Some (lit "~/.ikigai/tools/")) in
  Ret (mk_paths bin config data libexec cache state runtime tools_user (lit ".ikigai/tools/")).

End environment.

(** ** The buffer being filled *)

Record out_buf := mk_out { block : list Z; dest : nat }.

(** "memcpy(dest, bs, len); dest += len;" *)
Definition copy_to (bs : list Z) (b : out_buf) : outcome out_buf :=
  let! m := mem_write (dest b) bs (block b) in Ret (mk_out m (dest b + length bs)).

(** A sum in size_t, cast to unsigned int for the allocation of a zeroed
    block. *)
Definition zero_array (size : Z) : out_buf :=
  mk_out (replicate (wrap32 (Z.to_nat (size `mod` 2 ^ 64))) 0%Z) 0.

(** "*dest = 0;", and the string the block then holds *)
Definition finish_string (b : out_buf) : outcome cstr := let! b := copy_to [0%Z] b in c_string (block b).

(** ** The translations *)

Definition uri_prefix : cstr := lit "ik://".
Definition system_suffix : cstr := lit "system".

Definition is_alnum_or_underscore (c : Z) : bool :=
  ((97 <=? c) && (c <=? 122))%Z || ((65 <=? c) && (c <=? 90))%Z || ((48 <=? c) && (c <=? 57))%Z || (c =? 95)%Z.

Definition starts_slash (s : cstr) : bool := match s with c :: _ => (c =? 47)%Z | [] => false end.
Definition is_end (s : cstr) : bool := match s with [] => true | _ => false end.

Section translate.
Context (paths : ik_paths).
Notation state := (state_dir paths).
Notation data := (data_dir paths).

(** The prefix at [pos] ends a longer word. *)
Definition is_false_positive (input : cstr) (pos : nat) : bool :=
  match pos with
  | 0 => false
  | S before => match input !! before with Some c => is_alnum_or_underscore c | None => false end
  end.

(** "system" follows, and nothing or a slash after it. *)
Definition system_boundary (after : cstr) : bool :=
  starts_with system_suffix after && (is_end (drop 6 after) || starts_slash (drop 6 after)).

Fixpoint count_uris (fuel : nat) (input : cstr) (pos generic_count system_count : nat) : outcome (nat * nat) :=
  match fuel with
  | 0 => NoFuel
  | S fuel =>
      match strstr (drop pos input) uri_prefix with
      | None => Ret (generic_count, system_count)
      | Some d =>
          let pos := pos + d in
          if is_false_positive input pos then count_uris fuel input (pos + 5) generic_count system_count
          else if system_boundary (drop (pos + 5) input) then
            count_uris fuel input (pos + 11) generic_count (S system_count)
          else count_uris fuel input (pos + 5) (S generic_count) system_count
      end
  end.

(** The last byte of the state directory is read only if a name follows. *)
Definition need_slash (after : cstr) : outcome bool :=
  if negb (is_end after) && negb (starts_slash after) then
    match state !! (length state - 1) with Some c => Ret (negb (c =? 47)%Z) | None => Undef end
  else Ret false.

Fixpoint fill_paths (fuel : nat) (input : cstr) (src : nat) (b : out_buf) : outcome out_buf :=
  match fuel with
  | 0 => NoFuel
  | S fuel =>
      let rest := drop src input in
      if is_end rest then Ret b
      else
        match strstr rest uri_prefix with
        | None => copy_to rest b
        | Some d =>
            let next := src + d in
            if is_false_positive input next then
              let! b := copy_to (take (d + 5) rest) b in
              fill_paths fuel input (next + 5) b
            else
              let! b := if (0 <? d)%nat then copy_to (take d rest) b else Ret b in
              let after_prefix := drop (next + 5) input in
              if system_boundary after_prefix then
                let! b := copy_to data b in
                let! b := copy_to (lit "/") b in
                let! b := copy_to system_suffix b in
                fill_paths fuel input (next + 11) b
              else
                let! b := copy_to state b in
                let! slash := need_slash after_prefix in
                let! b := if slash : bool then copy_to (lit "/") b else Ret b in
                fill_paths fuel input (next + 5) b
        end
  end.

Definition ik_paths_translate_ik_uri_to_path (input : option cstr) : outcome cstr :=
  match input with
  | None => Fail ERR_INVALID_ARG
  | Some input =>
      let! (generic_count, system_count) := count_uris (S (length input)) input 0 0 0 in
      if (generic_count =? 0) && (system_count =? 0) then Ret input
      else
        let size := (Z.of_nat (length input)
                     + (Z.of_nat (length state) - 5 + 1) * Z.of_nat generic_count
                     + (Z.of_nat (length data) + 6 + 1 - 5 - 6 + 1) * Z.of_nat system_count + 1)%Z in
        let! b := fill_paths (S (length input)) input 0 (zero_array size) in
        finish_string b
  end.

Definition system_path : cstr := data ++ lit "/system".

(** Which of the two directories comes first in the text, and where. *)
Definition next_match (rest : cstr) : option (bool * nat) :=
  match strstr rest system_path, strstr rest state with
  | None, None => None
  | Some system_match, None => Some (true, system_match)
  | None, Some state_match => Some (false, state_match)
  | Some system_match, Some state_match =>
      if system_match <? state_match then Some (true, system_match) else Some (false, state_match)
  end.

Definition match_len (use_system : bool) : nat := if use_system then length data + 1 + 6 else length state.

Fixpoint count_paths (fuel : nat) (input : cstr) (pos generic_count system_count : nat) : outcome (nat * nat) :=
  match fuel with
  | 0 => NoFuel
  | S fuel =>
      match next_match (drop pos input) with
      | None => Ret (generic_count, system_count)
      | Some (true, d) => count_paths fuel input (pos + d + match_len true) generic_count (S system_count)
      | Some (false, d) => count_paths fuel input (pos + d + match_len false) (S generic_count) system_count
      end
  end.

Fixpoint fill_uris (fuel : nat) (input : cstr) (src : nat) (b : out_buf) : outcome out_buf :=
  match fuel with
  | 0 => NoFuel
  | S fuel =>
      let rest := drop src input in
      if is_end rest then Ret b
      else
        match next_match rest with
        | None => copy_to rest b
        | Some (use_system, d) =>
            let! b := if (0 <? d)%nat then copy_to (take d rest) b else Ret b in
            let! b := copy_to uri_prefix b in
            let! b := if use_system then copy_to system_suffix b else Ret b in
            let src := src + d + match_len use_system in
            if starts_slash (drop src input) then
              let! b := if use_system then copy_to (lit "/") b else Ret b in
              fill_uris fuel input (S src) b
            else fill_uris fuel input src b
        end
  end.

Definition ik_paths_translate_path_to_ik_uri (input : option cstr) : outcome cstr :=
  match input with
  | None => Fail ERR_INVALID_ARG
  | Some input =>
      let! (generic_count, system_count) := count_paths (S (length input)) input 0 0 0 in
      if (generic_count =? 0) && (system_count =? 0) then Ret input
      else
        let size := (Z.of_nat (length input)
                     + (5 - Z.of_nat (length state)) * Z.of_nat generic_count
                     + (5 + 6 - (Z.of_nat (length data) + 1 + 6)) * Z.of_nat system_count
                     + Z.of_nat generic_count + Z.of_nat system_count + 1)%Z in
        let! b := fill_uris (S (length input)) input 0 (zero_array size) in
        finish_string b
  end.

End translate.

(** ** Filling a buffer *)

Definition holding (w : cstr) (k : nat) : out_buf := mk_out (w ++ replicate k 0%Z) (length w).

Lemma copy_to_ok bs w k : length bs <= k -> copy_to bs (holding w k) = Ret (holding (w ++ bs) (k - length bs)).
Proof.
  intros Hk. unfold copy_to, holding. cbn [block dest].
  assert (replicate k 0%Z = replicate (length bs) 0%Z ++ replicate (k - length bs) 0%Z) as ->.
  { rewrite <- replicate_add. f_equal. lia. }
  rewrite mem_write_app by (rewrite ?length_replicate; done). cbn [obind].
  by rewrite length_app, <- app_assoc.
Qed.

Lemma copy_to_none w k : holding w k = holding (w ++ []) (k - 0).
Proof. by rewrite app_nil_r, Nat.sub_0_r. Qed.

Lemma zero_array_ok z : (0 <= z < 2 ^ 32)%Z -> zero_array z = holding [] (Z.to_nat z).
Proof.
  intros Hz. unfold zero_array, holding. rewrite Z.mod_small by lia. by rewrite wrap32_small by lia.
Qed.

Lemma finish_string_ok w k : 0 < k -> (0%Z ∉ w) -> finish_string (holding w k) = Ret w.
Proof.
  intros Hk Hw. unfold finish_string. rewrite copy_to_ok by (cbn; lia). cbn [obind block holding].
  rewrite <- app_assoc. cbn [app]. by apply c_string_app.
Qed.

Lemma overrun bs w k : k < length bs -> copy_to bs (holding w k) = Undef.
Proof.
  intros Hk. unfold copy_to, mem_write, holding. cbn [block dest].
  rewrite decide_False; [done|]. rewrite length_app, length_replicate. lia.
Qed.

(** ** Occurrences *)

Lemma strstr_some s p d : strstr s p = Some d -> exists a r, s = a ++ p ++ r /\ length a = d.
Proof.
  revert d. induction s as [|b s IH]; intros d; cbn [strstr].
  - destruct (starts_with p []) eqn:E; [intros [= <-]|done].
    apply starts_with_spec in E as [r ->]. by exists [], r.
  - destruct (starts_with p (b :: s)) eqn:E.
    + intros [= <-]. apply starts_with_spec in E as [r ->]. by exists [], r.
    + intros (d' & Hd & ->)%fmap_Some_1. destruct (IH _ Hd) as (a & r & -> & <-).
      by exists (b :: a), r.
Qed.

Lemma strstr_tail c s p :
  strstr s p = match strstr (c :: s) p with Some (S n) => Some n | Some 0 => strstr s p | None => None end.
Proof. cbn [strstr]. destruct (starts_with p (c :: s)); [done|]. by destruct (strstr s p). Qed.

Lemma strstr_head p r : strstr (p ++ r) p = Some 0.
Proof. destruct (p ++ r) eqn:E; cbn [strstr]; rewrite <- E, starts_with_app; done. Qed.

Lemma strstr_short s p : length s < length p -> strstr s p = None.
Proof.
  intros H. destruct (strstr s p) as [d|] eqn:E; [|done].
  apply strstr_some in E as (a & r & -> & _). rewrite !length_app in H. lia.
Qed.

Lemma no_nul_take n s : (0%Z ∉ s) -> (0%Z ∉ take n s).
Proof. intros H Hin. apply H. by apply elem_of_take in Hin as (? & ?%list_elem_of_lookup_2 & _). Qed.

Lemma no_nul_drop n s : (0%Z ∉ s) -> (0%Z ∉ drop n s).
Proof. intros H Hin. apply H. rewrite <- (take_drop n s). apply elem_of_app. by right. Qed.

Ltac no_nul :=
  repeat (apply not_elem_of_app; split);
  first [assumption | by apply no_nul_take | by apply no_nul_drop | apply (bool_decide_unpack _); vm_compute; exact I].

(** ** References to paths: the buffer fits *)

Section fits.
Context (paths : ik_paths).
Context (Hstate : state_dir paths <> []) (Hs0 : (0%Z ∉ state_dir paths)) (Hd0 : (0%Z ∉ data_dir paths)).
Notation state := (state_dir paths).
Notation data := (data_dir paths).

Lemma need_slash_ok after : exists b, need_slash paths after = Ret b.
Proof using Hstate.
  clear Hs0 Hd0. unfold need_slash. destruct (_ && _); [|eauto].
  destruct (lookup_lt_is_Some_2 state (length state - 1)) as [c ->]; [|eauto].
  destruct state; [done|cbn [length]; lia].
Qed.

(** The text between two references and the prefix of the second. *)
Lemma prefix_found input pos d :
  strstr (drop pos input) uri_prefix = Some d ->
  length (drop pos input) = d + 5 + length (drop (pos + d + 5) input).
Proof.
  intros (a & r & E & <-)%strstr_some. apply (f_equal length) in E.
  rewrite !length_app in E. change (length uri_prefix) with 5 in E. rewrite !length_drop in *. lia.
Qed.

Lemma boundary_found input pos :
  system_boundary (drop (pos + 5) input) = true ->
  length (drop (pos + 5) input) = 6 + length (drop (pos + 11) input).
Proof.
  unfold system_boundary. rewrite andb_true_iff. intros [(r & E)%starts_with_spec _].
  apply (f_equal length) in E. rewrite length_drop, length_app in E. rewrite !length_drop.
  change (length system_suffix) with 6 in E. lia.
Qed.

Lemma count_then_fill input fuel pos :
  (0%Z ∉ input) -> length (drop pos input) < fuel ->
  exists dg ds,
    (forall g s, count_uris fuel input pos g s = Ret (g + dg, s + ds)) /\
    5 * dg + 11 * ds <= length (drop pos input) /\
    forall w k, (0%Z ∉ w) ->
      length (drop pos input) + dg * length state + ds * length data < k + 4 * dg + 3 * ds ->
      exists t k', fill_paths paths fuel input pos (holding w k) = Ret (holding t k') /\ 0 < k' /\ (0%Z ∉ t).
Proof using Hstate Hs0 Hd0.
  intros Hi. revert pos. induction fuel as [|fuel IH]; intros pos Hf; [lia|].
  pose proof (no_nul_drop pos _ Hi) as Hr.
  cbn [count_uris fill_paths]. destruct (strstr (drop pos input) uri_prefix) as [d|] eqn:Ed.
  2: { exists 0, 0. split_and!; [intros; by rewrite !Nat.add_0_r|lia|]. intros w k Hw Hk.
       destruct (is_end _) eqn:Ee; [exists w, k; split_and!; [done|lia|done]|].
       rewrite copy_to_ok by lia. eexists _, _. split_and!; [reflexivity|lia|no_nul]. }
  pose proof (prefix_found _ _ _ Ed) as Hl.
  assert (is_end (drop pos input) = false) as -> by (destruct (drop pos input); [cbn in Hl; lia|done]).
  destruct (is_false_positive input (pos + d)) eqn:Efp.
  { destruct (IH (pos + d + 5)) as (dg & ds & Hc & Hb & Hfill); [lia|].
    exists dg, ds. split_and!; [done|lia|]. intros w k Hw Hk.
    assert (length (take (d + 5) (drop pos input)) = d + 5) as Ht by (rewrite length_take; lia).
    rewrite copy_to_ok by lia. cbn [obind]. apply Hfill; [no_nul|rewrite Ht; lia]. }
  assert (forall w k, d <= k -> (if 0 <? d then copy_to (take d (drop pos input)) (holding w k) else Ret (holding w k))
    = Ret (holding (w ++ take d (drop pos input)) (k - d))) as Hcopy.
  { intros w k Hk. assert (length (take d (drop pos input)) = d) as Ht by (rewrite length_take; lia).
    destruct (Nat.ltb_spec 0 d); [rewrite copy_to_ok by lia; by rewrite Ht|].
    replace d with 0 by lia. by rewrite <- copy_to_none. }
  destruct (system_boundary (drop (pos + d + 5) input)) eqn:Eb.
  - apply boundary_found in Eb. destruct (IH (pos + d + 11)) as (dg & ds & Hc & Hb & Hfill); [lia|].
    exists dg, (S ds). split_and!; [intros; rewrite Hc; do 2 f_equal; lia|lia|]. intros w k Hw Hk.
    rewrite Hcopy by lia. cbn [obind]. rewrite copy_to_ok by lia. cbn [obind].
    rewrite copy_to_ok by (cbn; lia). cbn [obind]. rewrite copy_to_ok by (cbn; lia). cbn [obind].
    apply Hfill; [no_nul|cbn; lia].
  - destruct (IH (pos + d + 5)) as (dg & ds & Hc & Hb & Hfill); [lia|].
    exists (S dg), ds. split_and!; [intros; rewrite Hc; do 2 f_equal; lia|lia|]. intros w k Hw Hk.
    rewrite Hcopy by lia. cbn [obind]. rewrite copy_to_ok by lia. cbn [obind].
    destruct (need_slash_ok (drop (pos + d + 5) input)) as [b ->]. cbn [obind].
    destruct b; [rewrite copy_to_ok by (cbn; lia)|]; cbn [obind]; apply Hfill; no_nul || cbn; lia.
Qed.

End fits.

Lemma uri_to_path_total input paths :
  state_dir paths <> [] -> (0%Z ∉ state_dir paths) -> (0%Z ∉ data_dir paths) -> (0%Z ∉ input) ->
  (Z.of_nat (length input) * (1 + Z.of_nat (length (state_dir paths)) + Z.of_nat (length (data_dir paths))) + 1
   < 2 ^ 32)%Z ->
  exists out, ik_paths_translate_ik_uri_to_path paths (Some input) = Ret out.
Proof.
  intros Hst Hs0 Hd0 Hi Hlen. unfold ik_paths_translate_ik_uri_to_path.
  destruct (count_then_fill paths Hst Hs0 Hd0 input (S (length input)) 0) as (dg & ds & Hc & Hb & Hfill);
    [done|rewrite drop_0; lia|].
  rewrite Hc. cbn [obind Nat.add]. destruct (_ && _); [eauto|]. rewrite drop_0 in *.
  rewrite zero_array_ok by nia.
  match goal with |- context [holding [] ?k] => destruct (Hfill [] k) as (t & k' & -> & Hk & Ht) end;
    [apply not_elem_of_nil|nia|].
  cbn [obind]. eexists. by apply finish_string_ok.
Qed.

(** ** Texts with references *)

Section documents.
Context (paths : ik_paths).
Notation state := (state_dir paths).
Notation data := (data_dir paths).

Inductive reference := Shared | System.

(** A text, and references each followed by a text. *)
Abbreviation tail_of := (list (reference * cstr)).
Definition document : Type := cstr * tail_of.

Definition ref_uri (r : reference) : cstr :=
  match r with Shared => uri_prefix | System => uri_prefix ++ system_suffix end.

(** A slash separates the state directory from a name after it. *)
Definition ref_path (r : reference) (after : cstr) : cstr :=
  match r with
  | Shared => state ++ if is_end after then [] else lit "/"
  | System => system_path paths
  end.

Fixpoint tail_uris (l : tail_of) : cstr :=
  match l with [] => [] | (r, t) :: l => ref_uri r ++ t ++ tail_uris l end.
Fixpoint tail_paths (l : tail_of) : cstr :=
  match l with [] => [] | (r, t) :: l => ref_path r (t ++ tail_uris l) ++ t ++ tail_paths l end.

Definition with_uris (d : document) : cstr := d.1 ++ tail_uris d.2.
Definition with_paths (d : document) : cstr := d.1 ++ tail_paths d.2.

Definition is_system (r : reference) : bool := match r with Shared => false | System => true end.

Definition not_word_end (t : cstr) : bool :=
  match last t with Some c => negb (is_alnum_or_underscore c) | None => true end.

(** The first prefix of [t] and what follows belongs to the next reference,
    and is not the end of a word. *)
Definition uri_next (t : cstr) (l : tail_of) : bool :=
  match l with
  | [] => bool_decide (strstr t uri_prefix = None)
  | _ => bool_decide (strstr (t ++ tail_uris l) uri_prefix = Some (length t)) && not_word_end t
  end.

(** The first directory in [t] and what follows belongs to the next reference. *)
Definition path_next (t : cstr) (l : tail_of) : bool :=
  bool_decide (next_match paths (t ++ tail_paths l)
               = match l with [] => None | (r, _) :: _ => Some (is_system r, length t) end).

(** [System] ends a name, [Shared] is followed by another one. *)
Fixpoint tail_wf (l : tail_of) : bool :=
  match l with
  | [] => true
  | (r, t) :: l =>
      let after := t ++ tail_uris l in
      uri_next t l && tail_wf l &&
      match r with
      | Shared => negb (system_boundary after) && negb (starts_slash after)
                  && path_next (if is_end after then [] else lit "/" ++ t) l
      | System => (is_end after || starts_slash t) && path_next t l
      end
  end.

Definition document_wf (d : document) : bool := uri_next d.1 d.2 && path_next d.1 d.2 && tail_wf d.2.

Fixpoint shareds (l : tail_of) : nat :=
  match l with [] => 0 | (Shared, _) :: l => S (shareds l) | (System, _) :: l => shareds l end.
Fixpoint systems (l : tail_of) : nat :=
  match l with [] => 0 | (Shared, _) :: l => systems l | (System, _) :: l => S (systems l) end.

Context (Hstate : state <> []) (Hlast : last state <> Some 47%Z).

Lemma need_slash_spec after :
  starts_slash after = false -> need_slash paths after = Ret (negb (is_end after)).
Proof using Hstate Hlast.
  intros Ha. unfold need_slash. rewrite Ha. destruct (is_end after); [done|]. cbn [negb andb].
  rewrite last_lookup in Hlast. rewrite Nat.sub_1_r.
  destruct (state !! Nat.pred (length state)) as [c|] eqn:E.
  - destruct (Z.eqb_spec c 47) as [->|]; [done|done].
  - apply lookup_ge_None in E. destruct state; [done|cbn in E; lia].
Qed.

Lemma false_positive_end s r : is_false_positive (s ++ r) (length s) = negb (not_word_end s).
Proof using.
  unfold is_false_positive, not_word_end. destruct s as [|x s' _] using rev_ind; [done|].
  rewrite last_snoc, length_app, Nat.add_1_r. rewrite <- app_assoc, lookup_app_r, Nat.sub_diag by lia.
  by rewrite negb_involutive.
Qed.

Lemma word_end_app p t :
  not_word_end t = true -> (t = [] -> not_word_end p = true) -> not_word_end (p ++ t) = true.
Proof using.
  unfold not_word_end. destruct t as [|x t' _] using rev_ind; [by rewrite app_nil_r; auto|].
  by rewrite app_assoc, !last_snoc.
Qed.

Lemma tail_uris_nil l : tail_uris l = [] -> l = [].
Proof using. destruct l as [|[[] t] l]; cbn [tail_uris ref_uri]; done. Qed.

Lemma end_after t l : is_end (t ++ tail_uris l) = true -> t = [] /\ l = [].
Proof using. destruct t; [|done]. cbn [app]. destruct (tail_uris l) eqn:E; [|done]. by apply tail_uris_nil in E. Qed.

Lemma uri_next_word_end p t l :
  uri_next t l = true -> (t = [] -> not_word_end p = true) -> l <> [] -> not_word_end (p ++ t) = true.
Proof using.
  intros Hn Hp Hl. apply word_end_app; [|done]. unfold uri_next in Hn. destruct l; [done|].
  by apply andb_true_iff in Hn as [_ ?].
Qed.

Lemma after_prefix_word_end p : not_word_end (p ++ uri_prefix) = true.
Proof using. unfold not_word_end. by rewrite last_app. Qed.

Lemma boundary_ok r : is_end r || starts_slash r = true -> system_boundary (system_suffix ++ r) = true.
Proof using.
  intros H. unfold system_boundary. rewrite starts_with_app.
  change 6 with (length system_suffix). by rewrite drop_app_length.
Qed.

(** A reference to the system directory is not followed by another one. *)
Lemma system_text t l :
  is_end (t ++ tail_uris l) || starts_slash t = true ->
  (t = [] /\ l = []) \/ exists t', t = 47%Z :: t'.
Proof using.
  intros [He|Hs]%orb_true_iff; [left; by apply end_after|right].
  destruct t as [|c t']; [done|]. cbn in Hs. apply Z.eqb_eq in Hs as ->. by exists t'.
Qed.

Lemma system_text_boundary t l :
  is_end (t ++ tail_uris l) || starts_slash t = true ->
  is_end (t ++ tail_uris l) || starts_slash (t ++ tail_uris l) = true.
Proof using. intros [[-> ->]|[t' ->]]%system_text; done. Qed.

Lemma system_word_end p t l :
  is_end (t ++ tail_uris l) || starts_slash t = true -> uri_next t l = true -> l <> [] ->
  not_word_end (p ++ t) = true.
Proof using.
  intros [[-> ->]|[t' ->]]%system_text Hn Hl; [done|]. by eapply uri_next_word_end.
Qed.

Lemma past_prefix s : length s + 5 = length (s ++ uri_prefix).
Proof using. by rewrite (length_app s). Qed.

Lemma past_system s : length s + 11 = length ((s ++ uri_prefix) ++ system_suffix).
Proof using. by rewrite <- app_assoc, (length_app s). Qed.

Lemma count_uris_doc l : forall p t fuel g s,
  tail_wf l = true -> uri_next t l = true -> (l <> [] -> not_word_end (p ++ t) = true) ->
  length (t ++ tail_uris l) < fuel ->
  count_uris fuel (p ++ t ++ tail_uris l) (length p) g s = Ret (g + shareds l, s + systems l).
Proof using.
  induction l as [|[r t2] l IH]; intros p t fuel g s Hwf Hn Hw Hf; (destruct fuel as [|fuel]; [lia|]);
    cbn [count_uris]; rewrite drop_app_length; unfold uri_next in Hn; fold uri_next in Hn.
  { apply bool_decide_eq_true in Hn. cbn [tail_uris shareds systems]. rewrite app_nil_r, Hn. do 2 f_equal; lia. }
  apply andb_true_iff in Hn as [->%bool_decide_eq_true Hn].
  rewrite <- length_app, app_assoc, false_positive_end, Hw by done. cbn [negb].
  cbn [tail_wf] in Hwf. apply andb_true_iff in Hwf as [[Hn2 Hwf]%andb_true_iff Hr].
  cbn [tail_uris] in *. rewrite !length_app in Hf.
  pose proof (past_prefix (p ++ t)) as E5.
  destruct r; cbn [ref_uri shareds systems] in *.
  - apply andb_true_iff in Hr as [[Hb Hs]%andb_true_iff _]. apply negb_true_iff in Hb.
    rewrite E5, (app_assoc (p ++ t)), drop_app_length, Hb, IH; [do 2 f_equal; lia|done|done| |].
    + intros Hl. apply (uri_next_word_end _ _ _ Hn2); [intros _; apply after_prefix_word_end|done].
    + rewrite length_app in *. cbn in Hf. lia.
  - apply andb_true_iff in Hr as [Hb _].
    rewrite E5, <- (app_assoc uri_prefix), (app_assoc (p ++ t)), drop_app_length.
    rewrite boundary_ok by (by apply system_text_boundary).
    rewrite past_system, (app_assoc (_ ++ uri_prefix)), IH; [do 2 f_equal; lia|done|done| |].
    + intros Hl. by apply (system_word_end _ _ _ Hb).
    + rewrite length_app in *. cbn in Hf. lia.
Qed.

Lemma fill_paths_doc l : forall p t fuel w k,
  tail_wf l = true -> uri_next t l = true -> (l <> [] -> not_word_end (p ++ t) = true) ->
  length (t ++ tail_uris l) < fuel -> length (t ++ tail_paths l) < k ->
  fill_paths paths fuel (p ++ t ++ tail_uris l) (length p) (holding w k)
  = Ret (holding (w ++ t ++ tail_paths l) (k - length (t ++ tail_paths l))).
Proof using Hstate Hlast.
  induction l as [|[r t2] l IH]; intros p t fuel w k Hwf Hn Hw Hf Hk; (destruct fuel as [|fuel]; [lia|]);
    cbn [fill_paths]; rewrite drop_app_length; unfold uri_next in Hn; fold uri_next in Hn.
  { apply bool_decide_eq_true in Hn. cbn [tail_uris tail_paths] in *. rewrite !app_nil_r in *. rewrite Hn.
    destruct t as [|c t]; [cbn [is_end]; by rewrite <- copy_to_none|]. cbn [is_end]. rewrite copy_to_ok by lia. done. }
  apply andb_true_iff in Hn as [->%bool_decide_eq_true Hn].
  assert (is_end (t ++ tail_uris ((r, t2) :: l)) = false) as -> by (by destruct t, r).
  rewrite take_app_length, <- length_app, (app_assoc p), false_positive_end, Hw by done. cbn [negb].
  cbn [tail_wf] in Hwf. apply andb_true_iff in Hwf as [[Hn2 Hwf]%andb_true_iff Hr].
  cbn [tail_uris tail_paths] in *. rewrite !length_app in Hf, Hk.
  assert ((if 0 <? length t then copy_to t (holding w k) else Ret (holding w k))
          = Ret (holding (w ++ t) (k - length t))) as ->.
  { destruct t; [by rewrite <- copy_to_none|]. cbn [length Nat.ltb Nat.leb]. rewrite copy_to_ok by lia. done. }
  cbn [obind].
  pose proof (past_prefix (p ++ t)) as E5.
  destruct r; cbn [ref_uri ref_path] in *.
  - apply andb_true_iff in Hr as [[Hb Hs]%andb_true_iff _]. apply negb_true_iff in Hb, Hs.
    rewrite !length_app in Hk.
    rewrite E5, (app_assoc (p ++ t)), drop_app_length, Hb. rewrite copy_to_ok by lia. cbn [obind].
    rewrite need_slash_spec by done. cbn [obind].
    destruct (is_end (t2 ++ tail_uris l)); cbn [negb obind];
      [|rewrite copy_to_ok by (cbn in *; lia); cbn [obind]];
      rewrite IH;
      try (rewrite ?length_app in *; cbn in *; lia); try done;
      try (intros Hl; apply (uri_next_word_end _ _ _ Hn2); [intros _; apply after_prefix_word_end|done]).
    + rewrite !app_nil_r, !length_app, <- !app_assoc. do 2 f_equal. lia.
    + rewrite !length_app, <- !app_assoc. do 2 f_equal. cbn. lia.
  - apply andb_true_iff in Hr as [Hb _]. unfold system_path in *. rewrite !length_app in Hk.
    change (lit "/system") with (lit "/" ++ system_suffix) in *.
    rewrite E5, <- (app_assoc uri_prefix), (app_assoc (p ++ t)), drop_app_length.
    rewrite boundary_ok by (by apply system_text_boundary).
    rewrite past_system. rewrite length_app in Hk. rewrite copy_to_ok by lia. cbn [obind]. rewrite copy_to_ok by lia. cbn [obind].
    rewrite copy_to_ok by lia. cbn [obind].
    rewrite (app_assoc (_ ++ uri_prefix)), IH; [|done|done| | |].
    + rewrite !length_app, <- !app_assoc. do 2 f_equal. lia.
    + intros Hl. by apply (system_word_end _ _ _ Hb).
    + rewrite length_app in *. cbn in Hf. lia.
    + rewrite length_app in *. lia.
Qed.

(** ** Paths back to references *)

Lemma next_match_some s b n :
  next_match paths s = Some (b, n) -> exists a r, s = a ++ (if b then system_path paths else state) ++ r /\ length a = n.
Proof using.
  unfold next_match. destruct (strstr s (system_path paths)) as [i|] eqn:Ei, (strstr s state) as [j|] eqn:Ej;
    try destruct (i <? j); intros [= <- <-]; by apply strstr_some.
Qed.

Lemma next_match_tail c s :
  match next_match paths (c :: s) with
  | None => next_match paths s = None
  | Some (b, S n) => next_match paths s = Some (b, n)
  | Some (_, 0) => True
  end.
Proof using.
  unfold next_match. rewrite (strstr_tail c s (system_path paths)), (strstr_tail c s state).
  destruct (strstr (c :: s) (system_path paths)) as [[|i]|], (strstr (c :: s) state) as [[|j]|]; try done.
  change (S i <? S j) with (i <? j). by destruct (i <? j).
Qed.

Lemma path_next_tail c u l : path_next (c :: u) l = true -> path_next u l = true.
Proof using.
  unfold path_next. rewrite !bool_decide_eq_true. intros E. pose proof (next_match_tail c (u ++ tail_paths l)) as Ht.
  cbn [app] in E. rewrite E in Ht. by destruct l as [|[r t] l].
Qed.

(** The text after the reference [r], with the slash that separates it. *)
Definition text_after (r : reference) (t : cstr) (l : tail_of) : cstr :=
  match r with Shared => if is_end (t ++ tail_uris l) then [] else lit "/" ++ t | System => t end.

Definition dir_of (r : reference) : cstr := match r with Shared => state | System => system_path paths end.

Lemma tail_paths_cons r t l : tail_paths ((r, t) :: l) = dir_of r ++ text_after r t l ++ tail_paths l.
Proof using.
  cbn [tail_paths]. destruct r; cbn [ref_path dir_of text_after]; [|done].
  destruct (is_end (t ++ tail_uris l)) eqn:E; [|by rewrite <- !app_assoc].
  apply end_after in E as [-> ->]. by rewrite !app_nil_r.
Qed.

Lemma tail_wf_next r t l : tail_wf ((r, t) :: l) = true -> path_next (text_after r t l) l = true /\ tail_wf l = true.
Proof using.
  cbn [tail_wf]. intros [[_ Hwf]%andb_true_iff Hr]%andb_true_iff. split; [|done].
  destruct r; cbn [text_after]; by apply andb_true_iff in Hr as [_ ?].
Qed.

Lemma match_len_dir r : match_len paths (is_system r) = length (dir_of r).
Proof using.
  destruct r; cbn [is_system match_len dir_of]; [done|]. unfold system_path.
  rewrite length_app, <- Nat.add_assoc. done.
Qed.

Lemma dir_nonempty r : 0 < length (dir_of r).
Proof using Hstate Hlast.
  destruct r; cbn [dir_of]; [destruct state; [done|cbn; lia]|].
  unfold system_path. rewrite length_app. cbn. lia.
Qed.

(** One step over a reference. *)
Lemma path_step p u r t l :
  path_next u ((r, t) :: l) = true ->
  next_match paths (u ++ tail_paths ((r, t) :: l)) = Some (is_system r, length u) /\
  p ++ u ++ tail_paths ((r, t) :: l) = (p ++ u ++ dir_of r) ++ text_after r t l ++ tail_paths l /\
  length p + length u + match_len paths (is_system r) = length (p ++ u ++ dir_of r).
Proof using.
  unfold path_next. intros E%bool_decide_eq_true. split_and!; [done| |].
  - by rewrite tail_paths_cons, <- !app_assoc.
  - rewrite match_len_dir, !length_app. lia.
Qed.

Lemma count_paths_doc l : forall p u fuel g s,
  tail_wf l = true -> path_next u l = true -> length (u ++ tail_paths l) < fuel ->
  count_paths paths fuel (p ++ u ++ tail_paths l) (length p) g s = Ret (g + shareds l, s + systems l).
Proof using Hstate Hlast.
  induction l as [|[r t] l IH]; intros p u fuel g s Hwf Hn Hf; (destruct fuel as [|fuel]; [lia|]);
    cbn [count_paths]; rewrite drop_app_length.
  { apply bool_decide_eq_true in Hn as ->. cbn [shareds systems]. do 2 f_equal; lia. }
  apply tail_wf_next in Hwf as [Hn' Hwf]. destruct (path_step p _ _ _ _ Hn) as (-> & -> & E).
  pose proof (dir_nonempty r). rewrite tail_paths_cons, !length_app in Hf.
  destruct r; cbn [is_system] in *; rewrite E, IH by (done || (rewrite length_app; lia));
    cbn [shareds systems]; do 2 f_equal; lia.
Qed.

(** What is written for a reference: in the buffer the slash after "system" is
    copied, the one after the state directory is dropped. *)
Lemma text_after_slash r t l :
  tail_wf ((r, t) :: l) = true ->
  (text_after r t l = [] /\ t = [] /\ l = []) \/
  (r = Shared /\ text_after r t l = 47%Z :: t) \/ (r = System /\ exists t', t = 47%Z :: t' /\ text_after r t l = 47%Z :: t').
Proof using.
  cbn [tail_wf]. intros [_ Hr]%andb_true_iff. destruct r; cbn [text_after].
  - destruct (is_end (t ++ tail_uris l)) eqn:E; [|by right; left].
    apply end_after in E as [-> ->]. by left.
  - apply andb_true_iff in Hr as [[[-> ->]|[t' ->]]%system_text _]; [by left|]. right; right. eauto.
Qed.

Lemma fill_uris_doc l : forall p u fuel w k,
  tail_wf l = true -> path_next u l = true -> length (u ++ tail_paths l) < fuel ->
  length (u ++ tail_uris l) < k ->
  fill_uris paths fuel (p ++ u ++ tail_paths l) (length p) (holding w k)
  = Ret (holding (w ++ u ++ tail_uris l) (k - length (u ++ tail_uris l))).
Proof using Hstate Hlast.
  induction l as [|[r t] l IH]; intros p u fuel w k Hwf Hn Hf Hk; (destruct fuel as [|fuel]; [lia|]);
    cbn [fill_uris]; rewrite drop_app_length.
  { apply bool_decide_eq_true in Hn as ->. cbn [tail_paths tail_uris] in *. rewrite !app_nil_r in *.
    destruct u as [|c u]; [by rewrite <- copy_to_none|]. cbn [is_end]. by rewrite copy_to_ok by lia. }
  pose proof (tail_wf_next _ _ _ Hwf) as [Hn' Hwf'].
  destruct (path_step p _ _ _ _ Hn) as (Em & Ep & E). rewrite Em.
  pose proof (dir_nonempty r).
  assert (is_end (u ++ tail_paths ((r, t) :: l)) = false) as ->.
  { rewrite tail_paths_cons. destruct u; [|done]. by destruct (dir_of r); [cbn in *; lia|]. }
  rewrite take_app_length. cbn [tail_uris] in *.
  assert (length (ref_uri r) = 5 + if is_system r then 6 else 0) as Er by (by destruct r).
  rewrite !length_app, Er in Hk. rewrite tail_paths_cons, !length_app in Hf.
  assert ((if 0 <? length u then copy_to u (holding w k) else Ret (holding w k))
          = Ret (holding (w ++ u) (k - length u))) as ->.
  { destruct u; [by rewrite <- copy_to_none|]. cbn [length Nat.ltb Nat.leb]. by rewrite copy_to_ok by lia. }
  cbn [obind]. rewrite copy_to_ok by (change (length uri_prefix) with 5; lia). cbn [obind].
  assert ((if is_system r then copy_to system_suffix (holding ((w ++ u) ++ uri_prefix) (k - length u - length uri_prefix))
           else Ret (holding ((w ++ u) ++ uri_prefix) (k - length u - length uri_prefix)))
          = Ret (holding ((w ++ u) ++ ref_uri r) (k - length u - length (ref_uri r)))) as ->.
  { destruct r; cbn [is_system ref_uri] in *; [done|].
    rewrite copy_to_ok by (change (length system_suffix) with 6; change (length uri_prefix) with 5; lia).
    rewrite <- (app_assoc _ uri_prefix), Er.
    do 2 f_equal. change (length system_suffix) with 6. change (length uri_prefix) with 5. lia. }
  cbn [obind]. rewrite E, Ep, drop_app_length. rewrite Er.
  destruct (text_after_slash _ _ _ Hwf) as [(Ha & -> & ->)|[(-> & Ha)|(-> & t' & -> & Ha)]]; rewrite Ha in *;
    cbn [app starts_slash is_system Z.eqb Pos.eqb tail_paths tail_uris] in *.
  - destruct fuel as [|fuel]; [cbn in Hf; lia|]. cbn [fill_uris]. rewrite !app_nil_r, drop_all.
    cbn [is_end]. rewrite !app_assoc, !length_app, Er, ?app_nil_r. cbn [length]. do 2 f_equal. lia.
  - assert (S (length (p ++ u ++ dir_of Shared)) = length ((p ++ u ++ dir_of Shared) ++ [47%Z])) as ->
      by (rewrite (length_app _ [_]); cbn [length]; lia).
    change (47%Z :: t ++ tail_paths l) with ([47%Z] ++ t ++ tail_paths l). rewrite (app_assoc _ [47%Z]).
    apply path_next_tail in Hn'. cbn [length obind] in *.
    rewrite IH by (done || (rewrite ?length_app in *; lia)).
    rewrite !length_app, <- !app_assoc. do 2 f_equal. change (length (ref_uri Shared)) with 5. lia.
  - cbn [length] in Hf, Hk. rewrite copy_to_ok by (change (length (lit "/")) with 1; lia). cbn [obind].
    assert (S (length (p ++ u ++ dir_of System)) = length ((p ++ u ++ dir_of System) ++ [47%Z])) as ->
      by (rewrite (length_app _ [_]); cbn [length]; lia).
    change (47%Z :: t' ++ tail_paths l) with ([47%Z] ++ t' ++ tail_paths l). rewrite (app_assoc _ [47%Z]).
    apply path_next_tail in Hn'. cbn [obind] in *.
    rewrite IH by (done || (rewrite ?length_app in *; change (length (lit "/")) with 1; lia)).
    rewrite !length_app, <- !app_assoc. do 2 f_equal. change (length (ref_uri System)) with 11.
    change (length (lit "/")) with 1. cbn [length]. rewrite ?length_app. lia.
Qed.

(** ** Sizes *)

Lemma tail_lengths l :
  length (tail_paths l) + 5 * shareds l + 11 * systems l
  <= length (tail_uris l) + shareds l * (length state + 1) + systems l * (length data + 7) /\
  length (tail_uris l) + shareds l * length state + systems l * (length data + 7)
  <= length (tail_paths l) + 5 * shareds l + 11 * systems l /\
  5 * shareds l + 11 * systems l <= length (tail_uris l) /\ (l <> [] -> 0 < shareds l + systems l).
Proof using.
  induction l as [|[r t] l (IH1 & IH2 & IH3 & _)]; [cbn; split_and!; lia || done|].
  cbn [tail_paths tail_uris]. rewrite !length_app.
  destruct r; cbn [ref_path ref_uri shareds systems].
  - rewrite length_app. change (length uri_prefix) with 5.
    assert (length (if is_end (t ++ tail_uris l) then [] else lit "/") <= 1) by (destruct (is_end _); cbn; lia).
    split_and!; lia.
  - unfold system_path. rewrite length_app. change (length (uri_prefix ++ system_suffix)) with 11.
    change (length (lit "/system")) with 7. split_and!; lia.
Qed.

Lemma tail_paths_no_nul l :
  (0%Z ∉ state) -> (0%Z ∉ data) -> (0%Z ∉ tail_uris l) -> (0%Z ∉ tail_paths l).
Proof using.
  intros Hs Hd. induction l as [|[r t] l IH]; cbn [tail_uris tail_paths]; [done|].
  rewrite !not_elem_of_app. intros (_ & Ht & Hl). split_and!; [|done|by apply IH].
  destruct r; cbn [ref_path]; [destruct (is_end _); no_nul|]. unfold system_path. no_nul.
Qed.

Lemma document_paths d :
  document_wf d = true ->
  (0%Z ∉ state) -> (0%Z ∉ data) -> (0%Z ∉ with_uris d) ->
  (Z.of_nat (length (with_uris d) + length (with_paths d)) < 2 ^ 31)%Z ->
  ik_paths_translate_ik_uri_to_path paths (Some (with_uris d)) = Ret (with_paths d).
Proof using Hstate Hlast.
  destruct d as [t l]. unfold document_wf, with_uris, with_paths. cbn [fst snd].
  intros [[Hn _]%andb_true_iff Hwf]%andb_true_iff Hs Hd Hu Hlen.
  unfold ik_paths_translate_ik_uri_to_path. rewrite !length_app in Hlen.
  pose proof (count_uris_doc l [] t (S (length (t ++ tail_uris l))) 0 0 Hwf Hn
    ltac:(by apply (uri_next_word_end [] _ _ Hn)) ltac:(lia)) as Hc.
  pose proof (tail_lengths l) as (L1 & L2 & L3 & L4).
  cbn [app length Nat.add] in Hc. rewrite Hc. cbn [obind].
  destruct ((shareds l =? 0) && (systems l =? 0)) eqn:E0.
  { apply andb_true_iff in E0 as [?%Nat.eqb_eq ?%Nat.eqb_eq]. destruct l; [done|]. specialize (L4 ltac:(done)). lia. }
  rewrite length_app, zero_array_ok by nia.
  match goal with |- context [holding [] ?k] =>
    pose proof (fill_paths_doc l [] t (S (length (t ++ tail_uris l))) [] k Hwf Hn) as Hf end.
  cbn [app length] in Hf. rewrite length_app in Hf. rewrite Hf; clear Hf;
    [|by apply (uri_next_word_end [] _ _ Hn)|lia|rewrite length_app; nia].
  cbn [obind]. apply finish_string_ok; [rewrite length_app; nia|].
  apply not_elem_of_app in Hu as [Ht Hl]. apply not_elem_of_app. split; [done|by apply tail_paths_no_nul].
Qed.

Lemma document_uris d :
  document_wf d = true -> (0%Z ∉ with_uris d) ->
  (Z.of_nat (length (with_uris d) + length (with_paths d)) < 2 ^ 31)%Z ->
  ik_paths_translate_path_to_ik_uri paths (Some (with_paths d)) = Ret (with_uris d).
Proof using Hstate Hlast.
  destruct d as [t l]. unfold document_wf, with_uris, with_paths. cbn [fst snd].
  intros [[_ Hn]%andb_true_iff Hwf]%andb_true_iff Hu Hlen.
  unfold ik_paths_translate_path_to_ik_uri. rewrite !length_app in Hlen.
  pose proof (count_paths_doc l [] t (S (length (t ++ tail_paths l))) 0 0 Hwf Hn ltac:(lia)) as Hc.
  pose proof (tail_lengths l) as (L1 & L2 & L3 & L4).
  cbn [app length Nat.add] in Hc. rewrite Hc. cbn [obind].
  destruct ((shareds l =? 0) && (systems l =? 0)) eqn:E0.
  { apply andb_true_iff in E0 as [?%Nat.eqb_eq ?%Nat.eqb_eq]. destruct l; [done|]. specialize (L4 ltac:(done)). lia. }
  rewrite length_app, zero_array_ok by nia.
  match goal with |- context [holding [] ?k] =>
    pose proof (fill_uris_doc l [] t (S (length (t ++ tail_paths l))) [] k Hwf Hn) as Hf end.
  cbn [app length] in Hf. rewrite length_app in Hf. rewrite Hf; clear Hf; [|lia|rewrite length_app; nia].
  cbn [obind]. apply finish_string_ok; [rewrite length_app; nia|done].
Qed.

End documents.

(** ** A directory that follows itself *)

Lemma strstr_drop n s p : strstr s p = None -> strstr (drop n s) p = None.
Proof.
  revert s. induction n as [|n IH]; intros s E; [by rewrite drop_0|].
  destruct s as [|c s]; [done|]. cbn [drop]. apply IH. rewrite (strstr_tail c), E. done.
Qed.

Lemma next_match_state paths s :
  strstr s (system_path paths) = None -> strstr s (state_dir paths) = Some 0 -> next_match paths s = Some (false, 0).
Proof. intros E1 E2. unfold next_match. by rewrite E1, E2. Qed.

Lemma next_match_none paths s :
  strstr s (system_path paths) = None -> length s < length (state_dir paths) -> next_match paths s = None.
Proof. intros E1 E2. unfold next_match. by rewrite E1, strstr_short. Qed.

(** ** Properties *)

Module PathsProps.

(** C8: references survive the way to the file system and back.  A text in
    which every ik:// stands at the start of a word and every directory belongs
    to a reference is translated to the text with the directories, and that
    text back to the first one; both times the buffer computed from the counts
    holds the result. *)
Theorem references_round_trip paths (d : document) :
  state_dir paths <> [] -> last (state_dir paths) <> Some 47%Z ->
  (0%Z ∉ state_dir paths) -> (0%Z ∉ data_dir paths) ->
  document_wf paths d = true -> (0%Z ∉ with_uris d) ->
  (Z.of_nat (length (with_uris d) + length (with_paths paths d)) < 2 ^ 31)%Z ->
  ik_paths_translate_ik_uri_to_path paths (Some (with_uris d)) = Ret (with_paths paths d) /\
  ik_paths_translate_path_to_ik_uri paths (Some (with_paths paths d)) = Ret (with_uris d).
Proof. intros. split; [by apply document_paths|by apply document_uris]. Qed.

(** the translation of references to paths writes no byte outside its
    buffer.  With the directories that start-up accepts, every text is
    translated: the pass that counts and the pass that fills agree, the slash
    that may be added is accounted for, and the last byte of the state
    directory exists when it is read. *)
Theorem uri_translation_fits getenv paths input :
  ik_paths_init getenv = Ret paths ->
  (forall name v, getenv name = Some v -> (0%Z ∉ v)) -> (0%Z ∉ input) ->
  (Z.of_nat (length input) * (1 + Z.of_nat (length (state_dir paths)) + Z.of_nat (length (data_dir paths))) + 1
   < 2 ^ 32)%Z ->
  exists out, ik_paths_translate_ik_uri_to_path paths (Some input) = Ret out.
Proof.
  intros Hinit Hnul Hi Hlen.
  assert (forall name dir, required getenv name = Ret dir -> dir <> [] /\ (0%Z ∉ dir)) as Hr.
  { intros name dir. unfold required. destruct (getenv (lit name)) as [[|c v]|] eqn:E; try done.
    intros [= <-]. split; [done|by eapply Hnul]. }
  unfold ik_paths_init in Hinit. repeat (apply obind_Ret_inv in Hinit as (? & ? & Hinit)).
  injection Hinit as <-. cbn [state_dir data_dir] in *. apply uri_to_path_total; naive_solver.
Qed.

(** translating a result back can overrun its buffer.  When the text is the
    state directory written twice in a row, the pass that counts finds it twice,
    the pass that fills skips the slash after the first one and finds it once:
    the buffer, sized for two short references, is too small for any directory
    of ten bytes or more. *)
Theorem doubled_directory_overruns paths :
  starts_slash (state_dir paths) = true -> (10 <= Z.of_nat (length (state_dir paths)) < 2 ^ 31)%Z ->
  strstr (state_dir paths ++ state_dir paths) (system_path paths) = None ->
  ik_paths_translate_path_to_ik_uri paths (Some (state_dir paths ++ state_dir paths)) = Undef.
Proof.
  intros Hsl Hlen Hsys. set (s := state_dir paths) in *. set (input := s ++ s) in *.
  assert (drop (length s) input = s) as Hd by apply drop_app_length.
  assert (length input = length s + length s) as Hl by apply length_app.
  assert (next_match paths input = Some (false, 0)) as E0 by (by apply next_match_state, strstr_head).
  assert (next_match paths s = Some (false, 0)) as E1.
  { apply next_match_state; [rewrite <- Hd; by apply strstr_drop|]. fold s. pose proof (strstr_head s []) as E.
    by rewrite app_nil_r in E. }
  assert (next_match paths [] = None) as E2.
  { apply next_match_none; [|fold s; cbn; lia]. rewrite <- (drop_all input). by apply strstr_drop. }
  assert (next_match paths (drop 1 s) = None) as E3.
  { apply next_match_none; [rewrite <- Hd, drop_drop; by apply strstr_drop|]. fold s. rewrite length_drop. lia. }
  assert (exists n, length input = S (S n)) as [n Hn] by (exists (length input - 2); lia).
  assert (count_paths paths (S (length input)) input 0 0 0 = Ret (2, 0)) as Ec.
  { rewrite Hn. cbn [count_paths]. rewrite drop_0, E0. cbn [Nat.add match_len]. fold s. rewrite Hd, E1.
    cbn [match_len]. fold s. rewrite Nat.add_0_r, <- Hl, drop_all, E2. done. }
  unfold ik_paths_translate_path_to_ik_uri. rewrite Ec. cbn [obind Nat.eqb andb]. fold s.
  rewrite zero_array_ok by lia.
  match goal with |- context [Z.to_nat ?z] => assert (Z.to_nat z = 13) as -> by lia end.
  rewrite Hn. cbn [fill_uris]. rewrite drop_0, E0.
  assert (is_end input = false) as -> by (destruct input; done).
  cbn [Nat.ltb Nat.leb obind]. rewrite copy_to_ok by (cbn; lia). cbn [obind Nat.add match_len]. fold s.
  rewrite Hd, Hsl.
  assert (drop (S (length s)) input = drop 1 s) as -> by (rewrite <- Hd at 2; rewrite drop_drop; f_equal; lia).
  assert (is_end (drop 1 s) = false) as -> by (destruct s as [|? [|? ?]]; cbn in Hlen; try lia; done).
  rewrite E3, overrun; [done|]. rewrite length_drop. cbn. lia.
Qed.

End PathsProps.

Module PathsExamples.
Import PathsProps.

Definition env (name : cstr) : option cstr :=
  if strcmp_eq name (lit "IKIGAI_STATE_DIR") then Some (lit "/home/u/.local/state/ikigai")
  else if strcmp_eq name (lit "IKIGAI_DATA_DIR") then Some (lit "/usr/share/ikigai")
  else if strcmp_eq name (lit "HOME") then Some (lit "/home/u") else Some (lit "/x").

Definition some_paths : ik_paths :=
  mk_paths (lit "/x") (lit "/x") (lit "/usr/share/ikigai") (lit "/x") (lit "/x") (lit "/home/u/.local/state/ikigai")
    (lit "/x") (lit "/home/u/.ikigai/tools/") (lit ".ikigai/tools/").

Example paths_from_env : ik_paths_init env = Ret some_paths.
Proof. vm_compute. reflexivity. Qed.

Definition some_text : document :=
  (lit "cp ", [(Shared, lit "a/b.md "); (System, lit "/prompts "); (Shared, []); (Shared, lit "x;"); (System, [])]).

Example some_text_uris : with_uris some_text = lit "cp ik://a/b.md ik://system/prompts ik://ik://x;ik://system".
Proof. vm_compute. reflexivity. Qed.

Lemma references_round_trip_witness :
  ik_paths_translate_ik_uri_to_path some_paths (Some (with_uris some_text)) = Ret (with_paths some_paths some_text) /\
  ik_paths_translate_path_to_ik_uri some_paths (Some (with_paths some_paths some_text)) = Ret (with_uris some_text).
Proof.
  apply (references_round_trip some_paths some_text); try (vm_compute; reflexivity);
    try (apply (bool_decide_unpack _); vm_compute; exact I).
Defined.

Lemma uri_translation_fits_witness :
  exists out, ik_paths_translate_ik_uri_to_path some_paths (Some (lit "xik://a ik://system ik://")) = Ret out.
Proof.
  apply (uri_translation_fits env); [vm_compute; reflexivity| | |vm_compute; reflexivity].
  - intros name v. unfold env. repeat destruct (strcmp_eq _ _); intros [= <-];
      apply (bool_decide_unpack _); vm_compute; exact I.
  - apply (bool_decide_unpack _); vm_compute; exact I.
Defined.

Lemma doubled_directory_overruns_witness :
  ik_paths_translate_path_to_ik_uri some_paths (Some (state_dir some_paths ++ state_dir some_paths)) = Undef.
Proof.
  apply (doubled_directory_overruns some_paths); [vm_compute; reflexivity|split; vm_compute; done|].
  vm_compute. reflexivity.
Defined.

End PathsExamples.
