(* ===== verification/Render.v ===== *)
(** * Direct rendering (render_text.c, render_cursor.c, render.c)

    Where the cursor of a text stands on the screen, and the frames written
    without the layer cake.  A frame buffer is a block of a size fixed before
    it is filled: [fb_put] past its end is undefined.  [write] is what the
    terminal's write call returns for the bytes of a frame. *)

From Stdlib Require Import String.
From stdpp Require Import strings.
From S2P Require Import Prelude Slots CString ByteArray Utf8 Unicode Cursor InputBuffer Multiline Layout.
From S2P Require Import Scrollback.

(** ** render_text.c *)

Fixpoint ik_render_count_newlines (text : list Z) : nat :=
  match text with
  | [] => 0
  | c :: text => if (c =? 10)%Z then S (ik_render_count_newlines text) else ik_render_count_newlines text
  end.

(** The bytes written so far to a block of [size] bytes. *)
Definition fb_put (size : nat) (l bytes : list Z) : outcome (list Z) :=
  if (length bytes + length l <=? size)%nat then Ret (bytes ++ l) else Undef.

Fixpoint ik_render_copy_text_with_crlf (size : nat) (src dest : list Z) : outcome (list Z) :=
  match src with
  | [] => Ret dest
  | c :: src =>
      let! dest := if (c =? 10)%Z then fb_put size [13; 10]%Z dest else fb_put size [c] dest in
      ik_render_copy_text_with_crlf size src dest
  end.

(** ** render_cursor.c *)

Section definitions.
Context `{Utf8proc}.

(** The variables row, col and pos; every iteration moves [pos] forward. *)
Fixpoint cursor_loop (fuel : nat) (text : list Z) (text_len cursor_byte_offset : nat) (terminal_width row col : Z)
    (pos : nat) : outcome (Z * Z) :=
  match fuel with
  | 0 => NoFuel
  | S fuel =>
      if (pos <? cursor_byte_offset)%nat then
        let! c := arr_get text pos in
        if (c =? 10)%Z then
          cursor_loop fuel text text_len cursor_byte_offset terminal_width (row + 1) 0 (S pos)
        else
          let skip := ik_ansi_skip_csi text text_len pos in
          if (0 <? skip)%nat then
            cursor_loop fuel text text_len cursor_byte_offset terminal_width row col (pos + skip)
          else
            let '(bytes, cp) := utf8proc_iterate (drop pos text) in
            if (bytes <=? 0)%Z then Fail ERR_INVALID_ARG
            else
              let width := utf8proc_charwidth cp in
              let '(row, col) := if (terminal_width <? col + width)%Z then (row + 1, 0)%Z else (row, col) in
              cursor_loop fuel text text_len cursor_byte_offset terminal_width row (col + width)
                (pos + Z.to_nat bytes)
      else Ret (row, col)
  end.

(** (screen_row, screen_col) *)
Definition calculate_cursor_screen_position (text : list Z) (text_len cursor_byte_offset : nat)
    (terminal_width : Z) : outcome (Z * Z) :=
  let! (row, col) :=
    cursor_loop (S cursor_byte_offset) text text_len cursor_byte_offset terminal_width 0 0 0 in
  if (col =? terminal_width)%Z then Ret (row + 1, 0)%Z else Ret (row, col).

(** ** render.c *)

Record ik_render_ctx := mk_render { rows : Z; cols : Z; tty_fd : Z }.

Definition ik_render_create (rows cols tty_fd : Z) : outcome ik_render_ctx :=
  if (rows <=? 0)%Z || (cols <=? 0)%Z then Fail ERR_INVALID_ARG
  else Ret (mk_render rows cols tty_fd).

Definition CLEAR_SCREEN : list Z := 0x1B%Z :: lit "[2J".
Definition HIDE_CURSOR : list Z := 0x1B%Z :: lit "[?25l".
Definition SHOW_CURSOR : list Z := 0x1B%Z :: lit "[?25h".
Definition HOME : list Z := 0x1B%Z :: lit "[H".

(** "\x1b[%d;%dH": terminal coordinates are 1-based. *)
Definition cursor_escape (row col : Z) : list Z :=
  (0x1B%Z :: lit "[") ++ show_int (row + 1) ++ lit ";" ++ show_int (col + 1) ++ lit "H".

(** The frame that was written. *)
Definition written (write : Z -> list Z -> Z) (fd : Z) (frame : list Z) : outcome (list Z) :=
  if (write fd frame <? 0)%Z then Fail ERR_IO else Ret frame.

Definition ik_render_input_buffer (write : Z -> list Z -> Z) (ctx : ik_render_ctx) (text : list Z)
    (cursor_byte_offset : nat) : outcome (list Z) :=
  let text_len := length text in
  let! (screen_row, screen_col) :=
    if (text_len =? 0)%nat then Ret (0, 0)%Z
    else calculate_cursor_screen_position text text_len cursor_byte_offset (cols ctx) in
  let newline_count := ik_render_count_newlines text in
  let size := 7 + text_len + newline_count + 20 in
  let! fb := fb_put size CLEAR_SCREEN [] in
  let! fb := fb_put size HIDE_CURSOR fb in
  let! fb := fb_put size HOME fb in
  let! fb := if (0 <? text_len)%nat then ik_render_copy_text_with_crlf size text fb else Ret fb in
  let! fb := fb_put size (cursor_escape screen_row screen_col) fb in
  written write (tty_fd ctx) fb.

(** A scrollback line's bytes. *)
Definition line_bytes (s : ik_scrollback) (i : nat) : outcome (list Z) :=
  let! (off, len) := ik_scrollback_get_line_text s i in
  mem_read off len (text_buffer s).

(** The loops over [n] lines from [i] on: rows, bytes, and the copies. *)
Fixpoint rows_used (s : ik_scrollback) (n i : nat) (acc : Z) : outcome Z :=
  match n with
  | 0 => Ret acc
  | S n =>
      let! l := arr_get (layouts s) i in
      rows_used s n (S i) (acc + int32_wrap (Z.of_nat (Scrollback.physical_lines l)))
  end.

Fixpoint lines_size (s : ik_scrollback) (n i acc : nat) : outcome nat :=
  match n with
  | 0 => Ret acc
  | S n =>
      let! line := line_bytes s i in
      lines_size s n (S i) (acc + (length line + ik_render_count_newlines line + 2))
  end.

Fixpoint copy_lines (size : nat) (s : ik_scrollback) (nothing_after : bool) (n i : nat) (fb : list Z)
  : outcome (list Z) :=
  match n with
  | 0 => Ret fb
  | S n =>
      let! line := line_bytes s i in
      let! fb := ik_render_copy_text_with_crlf size line fb in
      let! fb := if negb (n =? 0)%nat || negb nothing_after then fb_put size [13; 10]%Z fb else Ret fb in
      copy_lines size s nothing_after n (S i) fb
  end.

Definition ik_render_combined (write : Z -> list Z -> Z) (ctx : ik_render_ctx) (scrollback : ik_scrollback)
    (scrollback_start_line scrollback_line_count : nat) (input_text : list Z) (input_cursor_offset : nat)
    (render_separator render_input_buffer : bool) : outcome (list Z) :=
  let! s := ik_scrollback_ensure_layout scrollback (cols ctx) in
  let total_lines := ik_scrollback_get_line_count s in
  if (0 <? scrollback_line_count)%nat && (total_lines <=? scrollback_start_line)%nat then Fail ERR_INVALID_ARG
  else
    let scrollback_end_line := if (total_lines <? scrollback_start_line + scrollback_line_count)%nat
                               then total_lines else scrollback_start_line + scrollback_line_count in
    let n := scrollback_end_line - scrollback_start_line in
    let! scrollback_rows_used := rows_used s n scrollback_start_line 0 in
    let input_text_len := length input_text in
    let! (screen_row, screen_col) :=
      if (0 <? input_text_len)%nat
      then calculate_cursor_screen_position input_text input_text_len input_cursor_offset (cols ctx)
      else Ret (0, 0)%Z in
    let final_cursor_row := (scrollback_rows_used + screen_row)%Z in
    let final_cursor_col := screen_col in
    let size := 7 + 6 + 20 in
    let size := if render_separator then size + (Z.to_nat (cols ctx) + 2) else size in
    let! size := lines_size s n scrollback_start_line size in
    let size := if render_input_buffer && (0 <? input_text_len)%nat
                then size + (input_text_len + ik_render_count_newlines input_text) else size in
    let! fb := fb_put size CLEAR_SCREEN [] in
    let! fb := fb_put size HIDE_CURSOR fb in
    let! fb := fb_put size HOME fb in
    let! fb := copy_lines size s (negb render_separator && negb render_input_buffer) n scrollback_start_line fb in
    let! (fb, final_cursor_row) :=
      if render_separator then
        let! fb := fb_put size (replicate (Z.to_nat (cols ctx)) 45%Z) fb in
        let! fb := if render_input_buffer then fb_put size [13; 10]%Z fb else Ret fb in
        Ret (fb, (final_cursor_row + 1)%Z)
      else Ret (fb, final_cursor_row) in
    let! fb := if render_input_buffer && (0 <? input_text_len)%nat
               then ik_render_copy_text_with_crlf size input_text fb else Ret fb in
    let! fb := fb_put size (if render_input_buffer then SHOW_CURSOR else HIDE_CURSOR) fb in
    let! fb := if render_input_buffer then fb_put size (cursor_escape final_cursor_row final_cursor_col) fb
               else Ret fb in
    written write (tty_fd ctx) fb.

End definitions.

(** ** The cursor of a text *)

Section cursor.
Context `{!Utf8proc} `{!Utf8procSpec}.

(** One code point moves the cursor. *)
Definition cursor_step (w : Z) (pos : Z * Z) (c : Z) : Z * Z :=
  let '(row, col) := pos in
  if (c =? 10)%Z then (row + 1, 0)%Z
  else
    let width := utf8proc_charwidth c in
    let '(row, col) := if (w <? col + width)%Z then (row + 1, 0)%Z else (row, col) in
    (row, col + width)%Z.

Lemma encode_head c : scalar c -> exists b t, encode_utf8 c = b :: t.
Proof. intros Hc%encode_length. destruct (encode_utf8 c); [simpl in Hc; lia|eauto]. Qed.

Lemma cursor_loop_text w pre cps post fuel row col :
  Forall scalar (cps ++ post) -> 27%Z ∉ cps ++ post -> length cps < fuel ->
  cursor_loop fuel (text_of (pre ++ cps ++ post)) (length (text_of (pre ++ cps ++ post)))
    (length (text_of (pre ++ cps))) w row col (length (text_of pre))
  = Ret (fold_left (cursor_step w) cps (row, col)).
Proof.
  revert pre fuel row col. induction cps as [|c cps IH]; intros pre fuel row col Hs Hn Hf;
    (destruct fuel as [|fuel]; [simpl in Hf; lia|]); cbn [cursor_loop fold_left].
  { by rewrite app_nil_r, Nat.ltb_irrefl. }
  cbn [app] in *. pose proof (byte_at_not_esc pre c (cps ++ post) Hs Hn) as Hne.
  rewrite <- text_of_app in Hne.
  apply Forall_cons in Hs as [Hc Hs]. pose proof (encode_length c Hc) as Hl.
  rewrite (proj2 (Nat.ltb_lt _ _)) by (rewrite (text_of_app pre (c :: cps)), text_of_cons; len_lia).
  rewrite skip_csi_not_esc by done. cbn [Nat.ltb Nat.leb].
  rewrite (text_of_app pre (c :: cps ++ post)), text_of_cons.
  rewrite drop_app_length, iterate_valid by done.
  assert (exists b t, encode_utf8 c = b :: t /\ (b =? 10)%Z = (c =? 10)%Z) as (b & t & Eb & Hb).
  { destruct (encode_head c Hc) as (b & t & Eb). exists b, t. split; [done|].
    destruct (Z.eqb_spec c 10) as [->|Hc10]; [vm_compute in Eb; injection Eb as <- <-; done|].
    apply Z.eqb_neq. intros ->. apply Hc10. symmetry. apply list_elem_of_singleton.
    apply text_of_ascii; [by apply Forall_singleton|lia|]. rewrite text_of_one, Eb. set_solver. }
  assert (arr_get (text_of pre ++ encode_utf8 c ++ text_of (cps ++ post)) (length (text_of pre)) = Ret b) as ->
    by (rewrite Eb; apply arr_get_app).
  cbn [obind]. rewrite Hb. rewrite (proj2 (Z.leb_gt _ _)) by lia. rewrite Nat2Z.id.
  replace (text_of pre ++ encode_utf8 c ++ text_of (cps ++ post)) with (text_of ((pre ++ [c]) ++ cps ++ post))
    by (by rewrite !text_of_app, text_of_one, <- !app_assoc).
  rewrite (cons_middle c pre cps), (app_assoc pre [c] cps).
  assert (length (text_of pre) + length (encode_utf8 c) = length (text_of (pre ++ [c]))) as Elen
    by (rewrite text_of_app, text_of_one; len_lia).
  simpl in Hf. assert (27%Z ∉ cps ++ post) by set_solver. cbn [cursor_step].
  destruct (Z.eqb_spec c 10) as [->|Hc10].
  - change (length (encode_utf8 10)) with 1 in Elen. rewrite Nat.add_1_r in Elen. rewrite Elen.
    apply IH; [done|done|lia].
  - rewrite Elen. destruct (w <? col + utf8proc_charwidth c)%Z; (apply IH; [done|done|lia]).
Qed.

(** A character that takes one column, or a newline. *)
Definition narrow (c : Z) : Prop := c = 10%Z \/ utf8proc_charwidth c = 1%Z.

(** The position after [m] columns of a line that begins on row [r], before
    the wrap at the terminal's width. *)
Definition line_end (w : Z) (r : Z) (m : nat) : Z * Z :=
  if (m =? 0)%nat then (r, 0)%Z else (r + (Z.of_nat m - 1) / w, (Z.of_nat m - 1) mod w + 1)%Z.

Lemma line_end_S w r m :
  (0 < w)%Z ->
  line_end w r (S m) = (let '(row, col) := line_end w r m in
                        let '(row, col) := if (w <? col + 1)%Z then (row + 1, 0)%Z else (row, col) in
                        (row, col + 1)%Z).
Proof.
  intros Hw. unfold line_end. cbn [Nat.eqb]. replace (Z.of_nat (S m) - 1)%Z with (Z.of_nat m) by lia.
  destruct (Nat.eqb_spec m 0) as [->|Hm].
  { rewrite (proj2 (Z.ltb_ge _ _)) by lia. change (Z.of_nat 0) with 0%Z.
    by rewrite Z.div_0_l, Z.mod_0_l, Z.add_0_r by lia. }
  pose proof (Z.div_mod (Z.of_nat m - 1) w ltac:(lia)) as E.
  pose proof (Z.mod_pos_bound (Z.of_nat m - 1) w Hw) as Hb.
  set (q := ((Z.of_nat m - 1) / w)%Z) in *. set (k := ((Z.of_nat m - 1) mod w)%Z) in *.
  destruct (Z.ltb_spec w (k + 1 + 1)) as [Hlt|Hge].
  - assert (Z.of_nat m = (q + 1) * w)%Z as -> by nia. rewrite Z.div_mul, Z.mod_mul by lia. f_equal; lia.
  - assert (Z.of_nat m = (k + 1) + q * w)%Z as -> by nia.
    rewrite Z.div_add, Z.mod_add, Z.div_small, Z.mod_small by lia. f_equal; lia.
Qed.

Lemma cursor_line w r m l :
  (0 < w)%Z -> Forall narrow l -> 10%Z ∉ l ->
  fold_left (cursor_step w) l (line_end w r m) = line_end w r (m + length l).
Proof.
  intros Hw Hl Hn. revert m. induction l as [|c l IH]; intros m; cbn [fold_left length]; [by rewrite Nat.add_0_r|].
  apply Forall_cons in Hl as [[->|Hc] Hl]; [set_solver|].
  rewrite <- Nat.add_succ_comm, <- IH by (done || set_solver). f_equal.
  rewrite line_end_S by done. unfold cursor_step. destruct (line_end w r m) as [row col].
  assert (c <> 10%Z) as Hc10%Z.eqb_neq by set_solver. by rewrite Hc10, Hc.
Qed.

Lemma line_end_rows w r m :
  (0 < w)%Z -> (fst (line_end w r m) + 1 = r + Z.of_nat (Layout.line_rows w m))%Z.
Proof.
  intros Hw. unfold line_end, Layout.line_rows. rewrite (proj2 (Z.ltb_lt _ _)) by done.
  destruct (Nat.eqb_spec m 0) as [->|Hm]; [simpl; lia|]. cbn [fst].
  rewrite Nat2Z.inj_div, Nat2Z.inj_sub, Nat2Z.inj_add, Z2Nat.id by lia.
  replace (Z.of_nat m + w - Z.of_nat 1)%Z with ((Z.of_nat m - 1) + 1 * w)%Z by lia. rewrite Z.div_add by lia. lia.
Qed.

(** The position in a text of narrow characters: its finished lines, and the
    length of the line of the cursor. *)
Lemma cursor_lines w r pre ls l :
  (0 < w)%Z -> Forall narrow pre -> lines_of pre = ls ++ [l] ->
  fold_left (cursor_step w) pre (r, 0%Z)
  = line_end w (r + Z.of_nat (sum_list ((fun l => Layout.line_rows w (length l)) <$> ls))) (length l).
Proof.
  intros Hw. remember (length pre) as n eqn:Hlen. revert pre Hlen r ls.
  induction (lt_wf n) as [n _ IH]. intros pre -> r ls Hn E.
  destruct (split_first_line pre) as (m & b & -> & Hb & Hm). destruct Hb as [->|[b' ->]].
  - rewrite app_nil_r in *. rewrite lines_of_last in E by done.
    destruct ls as [|x [|]]; [|done|done]. injection E as <-. cbn. rewrite Z.add_0_r.
    exact (cursor_line w r 0 m Hw Hn Hm).
  - rewrite lines_of_first in E by done. destruct ls as [|x ls].
    { exfalso. injection E as _ E. by destruct b' as [|c b']; cbn in E; [|destruct (c =? newline)%Z; [|destruct (lines_of b')]]. }
    injection E as <- E. apply Forall_app in Hn as [Hn1 Hn2]. apply Forall_cons in Hn2 as [_ Hn2].
    rewrite fold_left_app. cbn [fold_left]. pose proof (cursor_line w r 0 m Hw Hn1 Hm) as Em.
    cbn [Nat.add] in Em. change (line_end w r 0) with (r, 0%Z) in Em. rewrite Em.
    pose proof (line_end_rows w r (length m) Hw) as Er.
    destruct (line_end w r (length m)) as [row col]. cbn [cursor_step fst] in *.
    change (newline =? 10)%Z with true. cbn iota. rewrite Er.
    rewrite (IH (length b')) with (ls := ls); [|len_lia|done|done|done]. f_equal.
    cbn [fmap list_fmap]. rewrite sum_list_cons. lia.
Qed.

Lemma line_end_wrap w r m :
  (0 < w)%Z ->
  (let '(row, col) := line_end w r m in if (col =? w)%Z then (row + 1, 0)%Z else (row, col))
  = (r + Z.of_nat m / w, Z.of_nat m mod w)%Z.
Proof.
  intros Hw. unfold line_end. destruct (Nat.eqb_spec m 0) as [->|Hm].
  { rewrite (proj2 (Z.eqb_neq _ _)) by lia. change (Z.of_nat 0) with 0%Z.
    by rewrite Z.div_0_l, Z.mod_0_l, Z.add_0_r by lia. }
  pose proof (Z.div_mod (Z.of_nat m - 1) w ltac:(lia)) as E.
  pose proof (Z.mod_pos_bound (Z.of_nat m - 1) w Hw) as Hb.
  set (q := ((Z.of_nat m - 1) / w)%Z) in *. set (k := ((Z.of_nat m - 1) mod w)%Z) in *.
  destruct (Z.eqb_spec (k + 1) w) as [He|Hne].
  - assert (Z.of_nat m = (q + 1) * w)%Z as -> by nia. rewrite Z.div_mul, Z.mod_mul by lia. f_equal; lia.
  - assert (Z.of_nat m = (k + 1) + q * w)%Z as -> by nia.
    rewrite Z.div_add, Z.mod_add, Z.div_small, Z.mod_small by lia. f_equal; lia.
Qed.

(** The cursor of a text of narrow characters. *)
Lemma cursor_position w pre post ls l :
  (0 < w)%Z -> Forall scalar (pre ++ post) -> 27%Z ∉ pre ++ post -> Forall narrow pre ->
  lines_of pre = ls ++ [l] ->
  calculate_cursor_screen_position (text_of (pre ++ post)) (length (text_of (pre ++ post)))
    (length (text_of pre)) w
  = Ret (Z.of_nat (sum_list ((fun l => Layout.line_rows w (length l)) <$> ls)) + Z.of_nat (length l) / w,
         Z.of_nat (length l) mod w)%Z.
Proof.
  intros Hw Hs He Hn E. unfold calculate_cursor_screen_position.
  apply Forall_app in Hs as Hs'. pose proof (length_text_of pre (proj1 Hs')).
  pose proof (cursor_loop_text w [] pre post (S (length (text_of pre))) 0 0 Hs He ltac:(lia)) as El.
  cbn [app] in El. change (length (text_of [])) with 0 in El. rewrite El. cbn [obind].
  rewrite (cursor_lines w 0 pre ls l Hw Hn E). cbn [Z.add].
  rewrite <- (line_end_wrap w _ (length l) Hw). destruct (line_end _ _ _) as [row col].
  by destruct (col =? w)%Z.
Qed.

End cursor.
