(* ===== verification/Conversation.v ===== *)
(** * Conversations and requests (message.c, agent_messages.c,
    providers/request.c, the message part of providers/request_tools.c)

    Messages made of content blocks, the message array of an agent, the deep
    copies made when an agent forks and when a request is built, and the
    restoration of messages from the database.  C strings are lists of bytes
    without the terminator and [NULL] is [None].  JSON text is read and
    written by yyjson, a parameter (Json). *)

From Stdlib Require Import String Ascii.
From stdpp Require Import strings.
From S2P Require Import Prelude Slots CString Json.

(** ** Data (providers/provider.h) *)

Inductive ik_role : Set := IK_ROLE_USER | IK_ROLE_ASSISTANT | IK_ROLE_TOOL.

Inductive ik_thinking_level : Set := IK_THINKING_MIN | IK_THINKING_LOW | IK_THINKING_MED | IK_THINKING_HIGH.

#[export] Instance ik_role_eq_dec : EqDecision ik_role.
Proof. solve_decision. Defined.

Inductive ik_content_block : Type :=
| IK_CONTENT_TEXT (text : option cstr)
| IK_CONTENT_TOOL_CALL (id name arguments : option cstr) (thought_signature : option cstr)
| IK_CONTENT_TOOL_RESULT (tool_call_id content : option cstr) (is_error : bool)
| IK_CONTENT_THINKING (text : option cstr) (signature : option cstr)
| IK_CONTENT_REDACTED_THINKING (data : option cstr).

#[export] Instance ik_content_block_eq_dec : EqDecision ik_content_block.
Proof. solve_decision. Defined.

Record ik_message := mk_message {
  role : ik_role;
  content_blocks : list ik_content_block;
  provider_metadata : option cstr;
  interrupted : bool
}.

#[export] Instance ik_message_eq_dec : EqDecision ik_message.
Proof. solve_decision. Defined.

(** The zeroed message. *)
#[export] Instance ik_message_inhabited : Inhabited ik_message :=
  populate (mk_message IK_ROLE_USER [] None false).

Record ik_tool_def := mk_tool {
  tool_name : cstr;
  tool_description : cstr;
  tool_parameters : cstr;
  tool_strict : bool
}.

#[export] Instance ik_tool_def_inhabited : Inhabited ik_tool_def := populate (mk_tool [] [] [] false).

Record ik_request := mk_request {
  system_prompt : option cstr;
  req_messages : list ik_message;
  model : option cstr;
  thinking : ik_thinking_level * bool;
  tools : list ik_tool_def;
  max_output_tokens : Z;
  tool_choice : Z * option cstr
}.

(** ** message.c *)

Definition ik_message_create_text (r : ik_role) (text : cstr) : ik_message :=
  mk_message r [IK_CONTENT_TEXT (Some text)] None false.

Definition ik_message_create_tool_call (id name arguments : cstr) : ik_message :=
  mk_message IK_ROLE_ASSISTANT [IK_CONTENT_TOOL_CALL (Some id) (Some name) (Some arguments) None]
    None false.

Definition ik_message_create_tool_call_with_thinking
    (thinking_text thinking_sig redacted_data : option cstr)
    (tool_id tool_name tool_args : cstr) (tool_thought_sig : option cstr) : ik_message :=
  mk_message IK_ROLE_ASSISTANT
    (match thinking_text with
     | Some t => [IK_CONTENT_THINKING (Some t) thinking_sig]
     | None => []
     end ++
     match redacted_data with
     | Some d => [IK_CONTENT_REDACTED_THINKING (Some d)]
     | None => []
     end ++
     [IK_CONTENT_TOOL_CALL (Some tool_id) (Some tool_name) (Some tool_args) tool_thought_sig])
    None false.

Definition ik_message_create_tool_result (tool_call_id content : cstr) (is_error : bool)
  : ik_message :=
  mk_message IK_ROLE_TOOL [IK_CONTENT_TOOL_RESULT (Some tool_call_id) (Some content) is_error]
    None false.

Record ik_msg := mk_msg {
  kind : cstr;
  content : option cstr;
  data_json : option cstr
}.

Section from_db.
Context `{Yyjson}.

(** The tool_call branch. *)
Definition tool_call_from_json (data : cstr) : outcome ik_message :=
  match yyjson_read data with
  | None => Fail ERR_PARSE
  | Some root =>
      match yyjson_obj_get (Some root) (lit "tool_call_id"),
            yyjson_obj_get (Some root) (lit "tool_name"),
            yyjson_obj_get (Some root) (lit "tool_args") with
      | Some id_val, Some name_val, Some args_val =>
          match yyjson_get_str (Some id_val), yyjson_get_str (Some name_val),
                yyjson_get_str (Some args_val) with
          | Some id, Some name, Some arguments =>
              let thinking_obj := yyjson_obj_get (Some root) (lit "thinking") in
              let redacted_obj := yyjson_obj_get (Some root) (lit "redacted_thinking") in
              let '(thinking_text, thinking_sig) :=
                if yyjson_is_obj thinking_obj
                then (yyjson_get_str (yyjson_obj_get thinking_obj (lit "text")),
                      yyjson_get_str (yyjson_obj_get thinking_obj (lit "signature")))
                else (None, None) in
              let redacted_data :=
                if yyjson_is_obj redacted_obj
                then yyjson_get_str (yyjson_obj_get redacted_obj (lit "data")) else None in
              match thinking_text, redacted_data with
              | None, None => Ret (ik_message_create_tool_call id name arguments)
              | _, _ =>
                  Ret (ik_message_create_tool_call_with_thinking thinking_text thinking_sig
                         redacted_data id name arguments None)
              end
          | _, _, _ => Fail ERR_PARSE
          end
      | _, _, _ => Fail ERR_PARSE
      end
  end.

(** The tool_result branch. *)
Definition tool_result_from_json (data : cstr) : outcome ik_message :=
  match yyjson_read data with
  | None => Fail ERR_PARSE
  | Some root =>
      match yyjson_obj_get (Some root) (lit "tool_call_id"),
            yyjson_obj_get (Some root) (lit "output") with
      | Some id_val, Some output_val =>
          match yyjson_get_str (Some id_val), yyjson_get_str (Some output_val) with
          | Some tool_call_id, Some output =>
              let is_error :=
                match yyjson_obj_get (Some root) (lit "success") with
                | Some success_val => negb (yyjson_get_bool (Some success_val))
                | None => false
                end in
              Ret (ik_message_create_tool_result tool_call_id output is_error)
          | _, _ => Fail ERR_PARSE
          end
      | _, _ => Fail ERR_PARSE
      end
  end.

(** [None] is the [NULL] message of a system event. *)
Definition ik_message_from_db_msg (db_msg : ik_msg) : outcome (option ik_message) :=
  if strcmp_eq (kind db_msg) (lit "system") then Ret None
  else if strcmp_eq (kind db_msg) (lit "user") then
    match content db_msg with
    | None => Fail ERR_PARSE
    | Some c => Ret (Some (ik_message_create_text IK_ROLE_USER c))
    end
  else if strcmp_eq (kind db_msg) (lit "assistant") then
    match content db_msg with
    | None => Fail ERR_PARSE
    | Some c => Ret (Some (ik_message_create_text IK_ROLE_ASSISTANT c))
    end
  else if strcmp_eq (kind db_msg) (lit "tool_call") then
    match data_json db_msg with
    | None => Fail ERR_PARSE
    | Some data => let! m := tool_call_from_json data in Ret (Some m)
    end
  else if strcmp_eq (kind db_msg) (lit "tool_result") || strcmp_eq (kind db_msg) (lit "tool") then
    match data_json db_msg with
    | None => Fail ERR_PARSE
    | Some data => let! m := tool_result_from_json data in Ret (Some m)
    end
  else Fail ERR_PARSE.

End from_db.

(** ** agent_messages.c *)

(** The messages of an agent: the array, the messages in use, its capacity. *)
Record conversation := mk_conv {
  messages : list ik_message;
  message_count : nat;
  message_capacity : nat
}.

Definition no_conversation : conversation := mk_conv [] 0 0.

(** talloc_strdup of a possibly [NULL] string followed by the PANIC on
    [NULL]. *)
Definition strdup (s : option cstr) : outcome (option cstr) :=
  match s with Some s => Ret (Some s) | None => Panic end.

(** A copy that is made only when the source is not [NULL]. *)
Definition strdup_opt (s : option cstr) : outcome (option cstr) := Ret s.

Definition clone_content_block (src : ik_content_block) : outcome ik_content_block :=
  match src with
  | IK_CONTENT_TEXT text => let! text := strdup text in Ret (IK_CONTENT_TEXT text)
  | IK_CONTENT_TOOL_CALL id name arguments _ =>
      let! id := strdup id in
      let! name := strdup name in
      let! arguments := strdup arguments in
      Ret (IK_CONTENT_TOOL_CALL id name arguments None)
  | IK_CONTENT_TOOL_RESULT tool_call_id content is_error =>
      let! tool_call_id := strdup tool_call_id in
      let! content := strdup content in
      Ret (IK_CONTENT_TOOL_RESULT tool_call_id content is_error)
  | IK_CONTENT_THINKING text signature =>
      let! text := strdup text in
      let! signature := strdup_opt signature in
      Ret (IK_CONTENT_THINKING text signature)
  | IK_CONTENT_REDACTED_THINKING data =>
      let! data := strdup data in Ret (IK_CONTENT_REDACTED_THINKING data)
  end.

(** The loop over the content blocks. *)
Fixpoint copy_blocks (copy : ik_content_block -> outcome ik_content_block)
    (src : list ik_content_block) : outcome (list ik_content_block) :=
  match src with
  | [] => Ret []
  | b :: src => let! d := copy b in let! ds := copy_blocks copy src in Ret (d :: ds)
  end.

(** The new message is zeroed, so [interrupted] is false. *)
Definition clone_message (src : ik_message) : outcome ik_message :=
  let! blocks := copy_blocks clone_content_block (content_blocks src) in
  let! metadata := strdup_opt (provider_metadata src) in
  Ret (mk_message (role src) blocks metadata false).

Section messages.
Context `{SlotAllocator}.

Definition ik_agent_add_message (a : conversation) (msg : ik_message) : outcome conversation :=
  let! a :=
    if (message_capacity a <=? message_count a)%nat then
      let new_capacity := if (message_capacity a =? 0)%nat then 16
                          else wrap64 (message_capacity a * 2) in
      let! ms := or_panic (realloc_slots (messages a) (wrap32 new_capacity)) in
      Ret (mk_conv ms (message_count a) new_capacity)
    else Ret a in
  let! ms := arr_set (message_count a) msg (messages a) in
  Ret (mk_conv ms (S (message_count a)) (message_capacity a)).

Definition ik_agent_clear_messages (a : conversation) : conversation := mk_conv [] 0 0.

Fixpoint clone_loop (src : list ik_message) (n i : nat) (dest : list ik_message)
  : outcome (list ik_message) :=
  match n with
  | 0 => Ret dest
  | S n =>
      let! m := arr_get src i in
      let! c := clone_message m in
      let! dest := arr_set i c dest in
      clone_loop src n (S i) dest
  end.

Definition ik_agent_clone_messages (dest src : conversation) : outcome conversation :=
  let dest := ik_agent_clear_messages dest in
  if (message_count src =? 0)%nat then Ret dest
  else
    let! ms := or_panic (alloc_slots inhabitant (wrap32 (message_count src))) in
    let! ms := clone_loop (messages src) (message_count src) 0 ms in
    Ret (mk_conv ms (message_count src) (message_count src)).

(** ** providers/request.c *)

Definition ik_request_create (m : cstr) : ik_request :=
  mk_request None [] (Some m) (IK_THINKING_MIN, false) [] (-1) (0%Z, None).

Definition ik_request_set_system (req : ik_request) (text : cstr) : ik_request :=
  mk_request (Some text) (req_messages req) (model req) (thinking req) (tools req)
    (max_output_tokens req) (tool_choice req).

Definition ik_request_set_thinking (req : ik_request) (level : ik_thinking_level) (include_summary : bool)
  : ik_request :=
  mk_request (system_prompt req) (req_messages req) (model req) (level, include_summary)
    (tools req) (max_output_tokens req) (tool_choice req).

(** An array grown by one element: the message and tool arrays of a request. *)
Definition push_slot {A} `{Inhabited A} (l : list A) (x : A) : outcome (list A) :=
  let! l' := or_panic (realloc_slots l (wrap32 (S (length l)))) in
  arr_set (length l) x l'.

Definition push_message (req : ik_request) (msg : ik_message) : outcome ik_request :=
  let! ms := push_slot (req_messages req) msg in
  Ret (mk_request (system_prompt req) ms (model req) (thinking req) (tools req)
         (max_output_tokens req) (tool_choice req)).

Definition ik_request_add_message (req : ik_request) (r : ik_role) (text : cstr)
  : outcome ik_request :=
  push_message req (mk_message r [IK_CONTENT_TEXT (Some text)] None false).

Definition ik_request_add_message_blocks (req : ik_request) (r : ik_role)
    (blocks : list ik_content_block) : outcome ik_request :=
  assert! (0 <? length blocks)%nat in
  push_message req (mk_message r blocks None false).

Definition ik_request_add_tool (req : ik_request) (name description parameters : cstr)
    (strict : bool) : outcome ik_request :=
  let! ts := push_slot (tools req) (mk_tool name description parameters strict) in
  Ret (mk_request (system_prompt req) (req_messages req) (model req) (thinking req) ts
         (max_output_tokens req) (tool_choice req)).

(** ** providers/request_tools.c *)

Definition copy_block_direct (src : ik_content_block) : outcome ik_content_block :=
  match src with
  | IK_CONTENT_TOOL_CALL id name arguments sig =>
      let! id := strdup id in
      let! name := strdup name in
      let! arguments := strdup arguments in
      let! sig := strdup_opt sig in
      Ret (IK_CONTENT_TOOL_CALL id name arguments sig)
  | _ => clone_content_block src
  end.

Definition ik_request_add_message_direct (req : ik_request) (msg : ik_message)
  : outcome ik_request :=
  let! blocks := copy_blocks copy_block_direct (content_blocks msg) in
  push_message req (mk_message (role msg) blocks None false).

(** The loop over the conversation from [i]. *)
Fixpoint add_messages_loop (req : ik_request) (ms : list ik_message) (n i : nat)
  : outcome ik_request :=
  match n with
  | 0 => Ret req
  | S n =>
      let! msg := arr_get ms i in
      let! req := ik_request_add_message_direct req msg in
      add_messages_loop req ms n (S i)
  end.

(** A registered tool: its name and the root of its JSON schema. *)
Record ik_tool_registry_entry := mk_entry {
  entry_name : cstr;
  schema_root : json
}.

Section tools.
Context `{!Yyjson}.

Definition tool_allowed (toolset_filter : list cstr) (name : cstr) : bool :=
  match toolset_filter with
  | [] => true
  | _ => existsb (strcmp_eq name) toolset_filter
  end.

Fixpoint add_tools_from_registry (req : ik_request) (registry : list ik_tool_registry_entry)
    (toolset_filter : list cstr) : outcome ik_request :=
  match registry with
  | [] => Ret req
  | entry :: registry =>
      if tool_allowed toolset_filter (entry_name entry) then
        let description :=
          default [] (yyjson_get_str (yyjson_obj_get (Some (schema_root entry)) (lit "description"))) in
        let! parameters :=
          match yyjson_obj_get (Some (schema_root entry)) (lit "parameters") with
          | Some p => or_panic (yyjson_write p)
          | None => Ret (lit "{}")
          end in
        let! req := ik_request_add_tool req (entry_name entry) description parameters false in
        add_tools_from_registry req registry toolset_filter
      else add_tools_from_registry req registry toolset_filter
  end.

(** [start_idx] is the context start index of the token cache, and
    [effective_prompt] the result of ik_agent_get_effective_system_prompt. *)
Definition ik_request_build_from_conversation (agent_model : option cstr) (thinking_level : ik_thinking_level)
    (effective_prompt : option cstr) (conv : conversation) (start_idx : nat)
    (registry : list ik_tool_registry_entry) (toolset_filter : list cstr) : outcome ik_request :=
  match agent_model with
  | None | Some [] => Fail ERR_INVALID_ARG
  | Some m =>
      let req := ik_request_set_thinking (ik_request_create m) thinking_level false in
      let req := match effective_prompt with
                 | Some (b :: p) => ik_request_set_system req (b :: p)
                 | _ => req
                 end in
      let! req := add_messages_loop req (messages conv) (message_count conv - start_idx) start_idx in
      add_tools_from_registry req registry toolset_filter
  end.

End tools.
End messages.

(** ** Representation *)

(** The message array holds [ms] and then unused slots. *)
Record conv_rep (c : conversation) (ms : list ik_message) : Prop := {
  conv_count : message_count c = length ms;
  conv_messages : exists r, messages c = ms ++ r;
  conv_capacity : length (messages c) = message_capacity c
}.

Lemma conv_rep_empty : conv_rep no_conversation [].
Proof. constructor; [done|by exists []|done]. Qed.

(** Truncation keeps the array. *)
Lemma conv_rep_truncate c ms n :
  conv_rep c ms -> n <= length ms -> conv_rep (mk_conv (messages c) n (message_capacity c)) (take n ms).
Proof.
  intros [Hc [r Hm] Hl] Hn. constructor; simpl; [|exists (drop n ms ++ r)|done].
  - rewrite length_take. lia.
  - by rewrite Hm, app_assoc, take_drop.
Qed.

(** A string is required, and present. *)
Definition present (s : option cstr) : bool := bool_decide (is_Some s).

(** The strings every copy duplicates are not [NULL]. *)
Definition complete_block (b : ik_content_block) : bool :=
  match b with
  | IK_CONTENT_TEXT t => present t
  | IK_CONTENT_TOOL_CALL id name args _ => present id && present name && present args
  | IK_CONTENT_TOOL_RESULT id c _ => present id && present c
  | IK_CONTENT_THINKING t _ => present t
  | IK_CONTENT_REDACTED_THINKING d => present d
  end.

Definition complete (m : ik_message) : bool := forallb complete_block (content_blocks m).

(** What the copy of an agent's conversation keeps of a block. *)
Definition forget_signature (b : ik_content_block) : ik_content_block :=
  match b with
  | IK_CONTENT_TOOL_CALL id name args _ => IK_CONTENT_TOOL_CALL id name args None
  | b => b
  end.

Definition cloned (m : ik_message) : ik_message :=
  mk_message (role m) (forget_signature <$> content_blocks m) (provider_metadata m) false.

(** What a request keeps of a message. *)
Definition requested (m : ik_message) : ik_message :=
  mk_message (role m) (content_blocks m) None false.

Lemma strdup_present s : strdup s = if present s then Ret s else Panic.
Proof. by destruct s. Qed.

Lemma clone_block_spec b :
  clone_content_block b = if complete_block b then Ret (forget_signature b) else Panic.
Proof.
  destruct b as [t|id nm ar sg|id c e|t sg|d]; cbn [clone_content_block complete_block forget_signature];
    unfold strdup_opt; rewrite !strdup_present; repeat (destruct (present _); try done).
Qed.

Lemma copy_block_spec b : copy_block_direct b = if complete_block b then Ret b else Panic.
Proof.
  destruct b as [t|id nm ar sg|id c e|t sg|d];
    try (cbn [copy_block_direct]; by rewrite clone_block_spec).
  cbn [copy_block_direct complete_block]; unfold strdup_opt; rewrite !strdup_present;
    repeat (destruct (present _); try done).
Qed.

Lemma copy_blocks_spec copy f l :
  (forall b, copy b = if complete_block b then Ret (f b) else Panic) ->
  copy_blocks copy l = if forallb complete_block l then Ret (f <$> l) else Panic.
Proof.
  intros Hc. induction l as [|b l IH]; [done|]. cbn [copy_blocks forallb]. rewrite Hc.
  destruct (complete_block b); [|done]. cbn [obind andb]. rewrite IH.
  by destruct (forallb complete_block l).
Qed.

Lemma clone_message_spec m : clone_message m = if complete m then Ret (cloned m) else Panic.
Proof.
  unfold clone_message, complete. rewrite (copy_blocks_spec _ forget_signature) by apply clone_block_spec.
  by destruct (forallb _ _).
Qed.

Section proofs.
Context `{!SlotAllocator} `{!SlotAllocatorSpec}.

Lemma add_message_ok C c ms m :
  conv_rep c ms -> message_capacity c <= C -> 2 * length ms <= C -> 16 <= C ->
  (Z.of_nat C < 2 ^ 32)%Z ->
  exists c', ik_agent_add_message c m = Ret c' /\ conv_rep c' (ms ++ [m]) /\ message_capacity c' <= C.
Proof.
  intros [Hc [r Hm] Hl] HC H2 H16 Hb. unfold ik_agent_add_message.
  set (grown := if (message_capacity c <=? message_count c)%nat then _ else _).
  assert (exists c1, grown = Ret c1 /\ conv_rep c1 ms /\ message_count c1 < message_capacity c1 /\
            message_capacity c1 <= C) as (c1 & -> & [Hc1 [r1 Hm1] Hl1] & Hlt & HC1).
  { subst grown. destruct (Nat.leb_spec (message_capacity c) (message_count c)) as [Hfull|Hroom].
    2: { exists c. split_and!; try done. split; eauto. }
    assert (message_capacity c = length ms) as Hcap by (rewrite Hm, length_app in Hl; lia).
    set (nc := if (message_capacity c =? 0)%nat then 16 else _).
    assert (nc <= C /\ length ms < nc) as [Hnc Hnc'].
    { subst nc. destruct (Nat.eqb_spec (message_capacity c) 0); [lia|].
      rewrite wrap64_small by lia. lia. }
    rewrite wrap32_small by lia.
    destruct (realloc_slots_some (messages c) nc) as (rest & -> & Hlen); [lia|].
    cbn [or_panic obind]. eexists. split; [reflexivity|]. simpl. split_and!; try lia.
    constructor; simpl; [done| |done]. exists (r ++ rest). by rewrite Hm, <- app_assoc. }
  cbn [obind]. rewrite Hm1, Hc1.
  assert (r1 <> []) as Hr1 by (intros ->; rewrite Hm1, app_nil_r in Hl1; lia).
  rewrite arr_set_end by done. cbn [obind]. eexists. split; [reflexivity|].
  split; [|done]. constructor; simpl; [rewrite length_app; simpl; lia|by eexists|].
  rewrite <- Hl1, Hm1, !length_app, length_drop. destruct r1; [done|]. simpl. lia.
Qed.

Lemma clone_loop_spec d src r dest :
  length dest = length src ->
  clone_loop (d ++ src ++ r) (length src) (length d) ((cloned <$> d) ++ dest)
  = if forallb complete src then Ret (cloned <$> d ++ src) else Panic.
Proof.
  revert d dest. induction src as [|m src IH]; intros d dest Hl.
  { destruct dest; [|done]. cbn [clone_loop length forallb]. by rewrite !app_nil_r. }
  destruct dest as [|x dest]; [done|]. cbn [clone_loop length forallb app] in *.
  rewrite arr_get_app. cbn [obind]. rewrite clone_message_spec.
  destruct (complete m); [|done]. cbn [obind andb].
  pose proof (arr_set_middle (cloned m) x (cloned <$> d) dest) as E.
  rewrite length_fmap in E. rewrite E. cbn [obind].
  specialize (IH (d ++ [m]) dest ltac:(lia)).
  rewrite length_app, Nat.add_1_r, fmap_app, <- !app_assoc in IH. exact IH.
Qed.

Lemma clone_messages_spec dest src ms :
  conv_rep src ms -> (Z.of_nat (length ms) < 2 ^ 32)%Z ->
  if forallb complete ms
  then exists d, ik_agent_clone_messages dest src = Ret d /\ conv_rep d (cloned <$> ms) /\
         message_capacity d = length ms
  else ik_agent_clone_messages dest src = Panic.
Proof.
  intros [Hc [r Hm] Hl] Hb. unfold ik_agent_clone_messages. rewrite Hc, Hm.
  destruct (Nat.eqb_spec (length ms) 0) as [Hz|Hz].
  { destruct ms; [|done]. eexists. split; [done|]. by split; [apply conv_rep_empty|]. }
  rewrite wrap32_small by done.
  destruct (alloc_slots_some (inhabitant : ik_message) (length ms)) as (l & -> & Hll).
  cbn [or_panic obind].
  pose proof (clone_loop_spec [] ms r l Hll) as E. cbn [app length fmap list_fmap] in E.
  rewrite E. destruct (forallb complete ms); [|done].
  cbn [obind]. eexists. split; [reflexivity|]. split; [|done].
  constructor; simpl; [by rewrite length_fmap|by exists []; rewrite app_nil_r|by rewrite length_fmap].
Qed.

Lemma push_slot_ok {A} `{!Inhabited A} (l : list A) x :
  (Z.of_nat (S (length l)) < 2 ^ 32)%Z -> push_slot l x = Ret (l ++ [x]).
Proof.
  intros Hb. unfold push_slot. rewrite wrap32_small by done.
  destruct (realloc_slots_some l (S (length l))) as (r & -> & Hl); [lia|].
  cbn [or_panic obind]. rewrite length_app in Hl.
  destruct r as [|y [|]]; simpl in Hl; try lia. by rewrite arr_set_middle.
Qed.

Lemma add_message_direct_ok req m :
  (Z.of_nat (S (length (req_messages req))) < 2 ^ 32)%Z -> complete m = true ->
  ik_request_add_message_direct req m =
    Ret (mk_request (system_prompt req) (req_messages req ++ [requested m]) (model req)
           (thinking req) (tools req) (max_output_tokens req) (tool_choice req)).
Proof.
  intros Hb Hm. unfold ik_request_add_message_direct.
  rewrite (copy_blocks_spec _ id) by apply copy_block_spec. unfold complete in Hm.
  rewrite Hm, list_fmap_id. cbn [obind]. unfold push_message. by rewrite push_slot_ok.
Qed.

Lemma add_messages_loop_ok req pre ms r :
  (Z.of_nat (length (req_messages req) + length ms) < 2 ^ 32)%Z -> forallb complete ms = true ->
  add_messages_loop req (pre ++ ms ++ r) (length ms) (length pre) =
    Ret (mk_request (system_prompt req) (req_messages req ++ (requested <$> ms)) (model req)
           (thinking req) (tools req) (max_output_tokens req) (tool_choice req)).
Proof.
  revert req pre. induction ms as [|m ms IH]; intros req pre Hb Hc; cbn [add_messages_loop length].
  { destruct req. simpl. by rewrite app_nil_r. }
  cbn [app forallb length] in *. apply andb_true_iff in Hc as [Hm Hc].
  rewrite arr_get_app. cbn [obind]. rewrite add_message_direct_ok by (done || lia). cbn [obind].
  specialize (IH (mk_request (system_prompt req) (req_messages req ++ [requested m]) (model req)
           (thinking req) (tools req) (max_output_tokens req) (tool_choice req)) (pre ++ [m])).
  rewrite <- !app_assoc, length_app, Nat.add_1_r in IH. cbn [app] in IH.
  rewrite IH; [|cbn [req_messages]; rewrite length_app; simpl; lia|done].
  cbn [req_messages system_prompt model thinking tools max_output_tokens tool_choice fmap list_fmap].
  by rewrite <- app_assoc.
Qed.

(** *** Tools *)

Context `{!Yyjson}.

(** The definition a registered tool gives, when its parameters can be
    written. *)
Definition tool_def_of (e : ik_tool_registry_entry) : option ik_tool_def :=
  let description :=
    default [] (yyjson_get_str (yyjson_obj_get (Some (schema_root e)) (lit "description"))) in
  p ← match yyjson_obj_get (Some (schema_root e)) (lit "parameters") with
      | Some p => yyjson_write p
      | None => Some (lit "{}")
      end;
  Some (mk_tool (entry_name e) description p false).

(** The entries the agent's toolset admits; an empty toolset admits all. *)
Definition admitted (toolset : list cstr) (e : ik_tool_registry_entry) : Prop :=
  toolset = [] \/ entry_name e ∈ toolset.

Lemma tool_allowed_spec toolset e : tool_allowed toolset (entry_name e) = true <-> admitted toolset e.
Proof.
  unfold admitted, tool_allowed. destruct toolset as [|a toolset]; [naive_solver|].
  split.
  - intros (x & Hx & Hs)%existsb_exists. right. unfold strcmp_eq in Hs.
    apply bool_decide_eq_true in Hs as ->. by apply list_elem_of_In.
  - intros [?|Hin]; [done|]. apply existsb_exists. exists (entry_name e).
    split; [by apply list_elem_of_In|]. unfold strcmp_eq. by rewrite bool_decide_eq_true_2.
Qed.

#[export] Instance admitted_dec toolset e : Decision (admitted toolset e).
Proof. unfold admitted. apply _. Defined.

Lemma add_tools_ok req registry toolset defs :
  tool_def_of <$> filter (admitted toolset) registry = Some <$> defs ->
  (Z.of_nat (length (tools req) + length defs) < 2 ^ 32)%Z ->
  add_tools_from_registry req registry toolset =
    Ret (mk_request (system_prompt req) (req_messages req) (model req) (thinking req)
           (tools req ++ defs) (max_output_tokens req) (tool_choice req)).
Proof.
  revert req defs. induction registry as [|e registry IH]; intros req defs Hd Hb;
    cbn [add_tools_from_registry].
  { destruct defs; [|done]. destruct req. simpl. by rewrite app_nil_r. }
  destruct (tool_allowed toolset (entry_name e)) eqn:Ha.
  - apply tool_allowed_spec in Ha. rewrite filter_cons_True in Hd by done.
    destruct defs as [|td defs]; [done|]. cbn [fmap list_fmap] in Hd. injection Hd as Htd Hd.
    unfold tool_def_of in Htd. cbn [length] in Hb.
    destruct (yyjson_obj_get (Some (schema_root e)) (lit "parameters")) as [pv|];
      [destruct (yyjson_write pv) as [pw|]; [|done]|];
      cbn [mbind option_bind or_panic obind] in *; injection Htd as <-;
      unfold ik_request_add_tool; rewrite push_slot_ok by lia; cbn [obind];
      (rewrite IH with (defs := defs); [|done|cbn [tools]; rewrite length_app; simpl; lia]);
      cbn [tools system_prompt req_messages model thinking max_output_tokens tool_choice];
      by rewrite <- app_assoc.
  - rewrite filter_cons_False in Hd by (rewrite <- tool_allowed_spec; congruence). by apply IH.
Qed.

(** The request of an agent with a model. *)
Lemma build_request_ok (m : cstr) (level : ik_thinking_level) (start : nat) (prompt : option cstr)
    (conv : conversation) (ms : list ik_message) (registry : list ik_tool_registry_entry)
    (toolset : list cstr) (defs : list ik_tool_def) :
  m <> [] -> conv_rep conv ms -> start <= length ms ->
  (Z.of_nat (length ms) < 2 ^ 32)%Z -> (Z.of_nat (length defs) < 2 ^ 32)%Z ->
  forallb complete ms = true ->
  tool_def_of <$> filter (admitted toolset) registry = Some <$> defs ->
  ik_request_build_from_conversation (Some m) level prompt conv start registry toolset =
    Ret (mk_request (match prompt with Some [] => None | p => p end)
           ((fun msg => mk_message (role msg) (content_blocks msg) None false) <$> drop start ms)
           (Some m) (level, false) defs (-1) (0%Z, None)).
Proof.
  intros Hm [Hc [r Hms] Hl] Hst Hb Hbd Hall Hd. unfold ik_request_build_from_conversation.
  destruct m as [|b m]; [done|].
  assert (forallb complete (drop start ms) = true) as Hall'.
  { apply forallb_forall. intros x Hx. rewrite forallb_forall in Hall. apply Hall.
    apply list_elem_of_In. apply list_elem_of_In in Hx.
    rewrite <- (take_drop start ms), elem_of_app. by right. }
  rewrite Hc, Hms. rewrite <- (take_drop start ms) at 1. rewrite <- app_assoc.
  pose proof (add_messages_loop_ok
    (match prompt with
     | Some (b0 :: p) => ik_request_set_system
         (ik_request_set_thinking (ik_request_create (b :: m)) level false) (b0 :: p)
     | _ => ik_request_set_thinking (ik_request_create (b :: m)) level false end)
    (take start ms) (drop start ms) r) as E.
  rewrite length_take_le, length_drop in E by done.
  rewrite E; [clear E|destruct prompt as [[|]|]; simpl; lia|done]. cbn [obind].
  erewrite add_tools_ok; [|done|destruct prompt as [[|]|]; simpl; lia].
  by destruct prompt as [[|]|].
Qed.

End proofs.

(** ** Restored messages *)

Section restored.
Context `{!Yyjson}.

(** The last block of an assistant message that calls a tool. *)
Definition calls_tool (m : ik_message) : Prop :=
  role m = IK_ROLE_ASSISTANT /\ interrupted m = false /\
  exists i n a, last (content_blocks m) = Some (IK_CONTENT_TOOL_CALL i n a None).

Lemma with_thinking_calls t s d i n a :
  calls_tool (ik_message_create_tool_call_with_thinking t s d i n a None).
Proof.
  unfold calls_tool, ik_message_create_tool_call_with_thinking. cbn [content_blocks role interrupted].
  split_and!; [done|done|]. do 3 eexists. rewrite app_assoc. apply last_snoc.
Qed.

Lemma tool_call_calls i n a : calls_tool (ik_message_create_tool_call i n a).
Proof. split_and!; [done|done|]. by do 3 eexists. Qed.

Lemma tool_call_result data :
  match tool_call_from_json data with
  | Ret m => calls_tool m
  | Fail e => e = ERR_PARSE
  | _ => False
  end.
Proof.
  unfold tool_call_from_json.
  repeat case_match; simplify_eq; auto using with_thinking_calls, tool_call_calls.
Qed.

Lemma tool_result_result data :
  match tool_result_from_json data with
  | Ret m => role m = IK_ROLE_TOOL /\ interrupted m = false /\
      exists i c e, last (content_blocks m) = Some (IK_CONTENT_TOOL_RESULT i c e)
  | Fail e => e = ERR_PARSE
  | _ => False
  end.
Proof. unfold tool_result_from_json. repeat case_match; try done; simplify_eq; naive_solver. Qed.

(** *** What a row stores *)

(** The member of the row's data at a path of keys. *)
Definition stored_field (db : ik_msg) (path : list cstr) : option json :=
  match data_json db with
  | Some d => match yyjson_read d with Some root => foldl yyjson_obj_get (Some root) path | None => None end
  | None => None
  end.

Definition stored_str (db : ik_msg) (path : list cstr) : option cstr :=
  yyjson_get_str (stored_field db path).

(** The thinking stored with a tool call. *)
Definition stored_thinking (db : ik_msg) : list ik_content_block :=
  match stored_str db [lit "thinking"; lit "text"] with
  | Some t => [IK_CONTENT_THINKING (Some t) (stored_str db [lit "thinking"; lit "signature"])]
  | None => []
  end ++
  match stored_str db [lit "redacted_thinking"; lit "data"] with
  | Some d => [IK_CONTENT_REDACTED_THINKING (Some d)]
  | None => []
  end.

(** A result failed when it has a success member other than true. *)
Definition stored_failure (db : ik_msg) : bool :=
  match stored_field db [lit "success"] with
  | None | Some (JBool true) => false
  | Some _ => true
  end.

(** The message a row stores. *)
Inductive stored_as (db : ik_msg) : option ik_message -> Prop :=
| stored_system : kind db = lit "system" -> stored_as db None
| stored_text r t :
    (kind db, r) ∈ [(lit "user", IK_ROLE_USER); (lit "assistant", IK_ROLE_ASSISTANT)] ->
    content db = Some t ->
    stored_as db (Some (mk_message r [IK_CONTENT_TEXT (Some t)] None false))
| stored_call id name arguments :
    kind db = lit "tool_call" ->
    stored_str db [lit "tool_call_id"] = Some id ->
    stored_str db [lit "tool_name"] = Some name ->
    stored_str db [lit "tool_args"] = Some arguments ->
    stored_as db (Some (mk_message IK_ROLE_ASSISTANT
      (stored_thinking db ++ [IK_CONTENT_TOOL_CALL (Some id) (Some name) (Some arguments) None])
      None false))
| stored_result id output :
    kind db ∈ [lit "tool_result"; lit "tool"] ->
    stored_str db [lit "tool_call_id"] = Some id ->
    stored_str db [lit "output"] = Some output ->
    stored_as db (Some (mk_message IK_ROLE_TOOL
      [IK_CONTENT_TOOL_RESULT (Some id) (Some output) (stored_failure db)] None false)).

(** A member that is not an object has no members. *)
Lemma get_str_in_obj v k :
  (if yyjson_is_obj v then yyjson_get_str (yyjson_obj_get v k) else None) =
    yyjson_get_str (yyjson_obj_get v k).
Proof. by destruct v as [[]|]. Qed.

Lemma get_str_some v s : yyjson_get_str v = Some s -> is_Some v.
Proof. by destruct v. Qed.

(** The data of a tool call, read. *)
Definition read_call (root : json) : outcome ik_message :=
  let str path := yyjson_get_str (foldl yyjson_obj_get (Some root) path) in
  match str [lit "tool_call_id"], str [lit "tool_name"], str [lit "tool_args"] with
  | Some id, Some name, Some arguments =>
      Ret (ik_message_create_tool_call_with_thinking (str [lit "thinking"; lit "text"])
             (str [lit "thinking"; lit "signature"]) (str [lit "redacted_thinking"; lit "data"])
             id name arguments None)
  | _, _, _ => Fail ERR_PARSE
  end.

Lemma tool_call_read data :
  tool_call_from_json data =
    match yyjson_read data with Some root => read_call root | None => Fail ERR_PARSE end.
Proof.
  unfold tool_call_from_json, read_call. destruct (yyjson_read data) as [root|]; [|done]. cbn [foldl].
  destruct (yyjson_obj_get (Some root) (lit "tool_call_id")) as [v1|]; [|done].
  destruct (yyjson_obj_get (Some root) (lit "tool_name")) as [v2|]; [|by case_match].
  destruct (yyjson_obj_get (Some root) (lit "tool_args")) as [v3|]; [|by repeat case_match].
  repeat (destruct (yyjson_get_str (Some _)); [|done]).
  rewrite <- (get_str_in_obj _ (lit "text")), <- (get_str_in_obj _ (lit "signature")),
    <- (get_str_in_obj _ (lit "data")).
  destruct (yyjson_is_obj (yyjson_obj_get (Some root) (lit "thinking"))),
    (yyjson_is_obj (yyjson_obj_get (Some root) (lit "redacted_thinking")));
    repeat destruct (yyjson_get_str _); done.
Qed.

Definition read_result (root : json) : outcome ik_message :=
  let str k := yyjson_get_str (yyjson_obj_get (Some root) k) in
  match str (lit "tool_call_id"), str (lit "output") with
  | Some id, Some output =>
      Ret (ik_message_create_tool_result id output
             match yyjson_obj_get (Some root) (lit "success") with
             | None | Some (JBool true) => false
             | Some _ => true
             end)
  | _, _ => Fail ERR_PARSE
  end.

Lemma tool_result_read data :
  tool_result_from_json data =
    match yyjson_read data with Some root => read_result root | None => Fail ERR_PARSE end.
Proof.
  unfold tool_result_from_json, read_result. destruct (yyjson_read data) as [root|]; [|done].
  destruct (yyjson_obj_get (Some root) (lit "tool_call_id")) as [v1|]; [|done].
  destruct (yyjson_obj_get (Some root) (lit "output")) as [v2|]; [|by case_match].
  repeat (destruct (yyjson_get_str (Some _)); [|done]).
  by destruct (yyjson_obj_get (Some root) (lit "success")) as [[| [] | | | | |]|].
Qed.

(** Reading a row, by its kind. *)
Definition read_row (db : ik_msg) (read : json -> outcome ik_message) : outcome (option ik_message) :=
  match data_json db with
  | None => Fail ERR_PARSE
  | Some d =>
      match yyjson_read d with Some root => let! m := read root in Ret (Some m) | None => Fail ERR_PARSE end
  end.

Lemma row_call db :
  read_row db read_call =
    match stored_str db [lit "tool_call_id"], stored_str db [lit "tool_name"],
          stored_str db [lit "tool_args"] with
    | Some id, Some name, Some arguments =>
        Ret (Some (mk_message IK_ROLE_ASSISTANT
          (stored_thinking db ++ [IK_CONTENT_TOOL_CALL (Some id) (Some name) (Some arguments) None])
          None false))
    | _, _, _ => Fail ERR_PARSE
    end.
Proof.
  unfold read_row, stored_thinking, stored_str, stored_field.
  destruct (data_json db) as [d|]; [|done]. destruct (yyjson_read d) as [root|]; [|done].
  unfold read_call. repeat case_match; cbn [obind]; simplify_eq; done.
Qed.

Lemma row_result db :
  read_row db read_result =
    match stored_str db [lit "tool_call_id"], stored_str db [lit "output"] with
    | Some id, Some output =>
        Ret (Some (mk_message IK_ROLE_TOOL
          [IK_CONTENT_TOOL_RESULT (Some id) (Some output) (stored_failure db)] None false))
    | _, _ => Fail ERR_PARSE
    end.
Proof.
  unfold read_row, stored_str, stored_failure, stored_field.
  destruct (data_json db) as [d|]; [|done]. destruct (yyjson_read d) as [root|]; [|done].
  unfold read_result. cbn [foldl].
  repeat (destruct (yyjson_get_str _); [|done]). done.
Qed.

Lemma from_db_read db :
  ik_message_from_db_msg db =
    if decide (kind db = lit "system") then Ret None
    else if decide (kind db = lit "user" \/ kind db = lit "assistant") then
      match content db with
      | None => Fail ERR_PARSE
      | Some c =>
          Ret (Some (ik_message_create_text
            (if decide (kind db = lit "user") then IK_ROLE_USER else IK_ROLE_ASSISTANT) c))
      end
    else if decide (kind db = lit "tool_call") then read_row db read_call
    else if decide (kind db = lit "tool_result" \/ kind db = lit "tool") then read_row db read_result
    else Fail ERR_PARSE.
Proof.
  unfold ik_message_from_db_msg, strcmp_eq, read_row.
  repeat case_bool_decide; repeat case_decide; try tauto; try congruence; cbn [orb];
    try (destruct (data_json db); [|done]; rewrite ?tool_call_read, ?tool_result_read;
         destruct (yyjson_read _)); done.
Qed.

(** Reading ends with a message, nothing or a parse error. *)
Lemma from_db_returns db :
  (exists m, ik_message_from_db_msg db = Ret m) \/ ik_message_from_db_msg db = Fail ERR_PARSE.
Proof.
  rewrite from_db_read, row_call, row_result. repeat case_match; eauto.
Qed.

Lemma from_db_sound db m : ik_message_from_db_msg db = Ret m -> stored_as db m.
Proof.
  rewrite from_db_read, row_call, row_result. case_decide as K1; [by intros [= <-]; constructor|].
  case_decide as K2.
  { destruct (content db) eqn:Ec; [|done]. intros [= <-]. apply stored_text; [|done].
    case_decide as K; [|destruct K2 as [?|K2]; [done|]]; rewrite ?K, ?K2; set_solver. }
  case_decide as K3; [|case_decide as K4; [|done]].
  - repeat (case_match; [|done]). intros [= <-]. by apply stored_call.
  - repeat (case_match; [|done]). intros [= <-]. apply stored_result; [set_solver|done..].
Qed.

Lemma from_db_complete db m : stored_as db m -> ik_message_from_db_msg db = Ret m.
Proof.
  rewrite from_db_read, row_call, row_result.
  intros [K|r t K Ec|id name arguments K Ei En Ea|id output K Ei Eo].
  - by rewrite K.
  - rewrite Ec. apply elem_of_cons in K as [[= K ->]|K%list_elem_of_singleton]; [by rewrite K|].
    injection K as K ->. by rewrite K.
  - by rewrite K, Ei, En, Ea.
  - rewrite Ei, Eo. apply elem_of_cons in K as [K|K%list_elem_of_singleton]; by rewrite K.
Qed.

End restored.

(** ** Properties *)

Module ConversationProps.
Section properties.
Context `{!SlotAllocator} `{!SlotAllocatorSpec} `{!Yyjson}.

(** a fork copies the parent's conversation, except what the copy drops.
    Every message keeps its role, metadata and content blocks in order; tool
    calls lose their thought signature and messages their interrupted flag.  A
    missing string stops the process. *)
Theorem clone_keeps_all_but_signatures (dest src : conversation) (ms : list ik_message) :
  conv_rep src ms -> (Z.of_nat (length ms) < 2 ^ 32)%Z ->
  if forallb complete ms
  then exists d, ik_agent_clone_messages dest src = Ret d /\
         conv_rep d ((fun m => mk_message (role m) (forget_signature <$> content_blocks m)
                                 (provider_metadata m) false) <$> ms)
  else ik_agent_clone_messages dest src = Panic.
Proof.
  intros Hr Hb. pose proof (clone_messages_spec dest src ms Hr Hb) as Hs.
  destruct (forallb complete ms); [|done]. destruct Hs as (d & E & Hd & _). by exists d.
Qed.

(** the request built for an agent holds the messages from the context
    start on, with their blocks (thought signatures included) but without
    metadata and interrupted flags; the system prompt unless it is empty; and
    the tools its toolset admits, in registry order. *)
Theorem build_request_contents (m : cstr) (level : ik_thinking_level) (start : nat) (prompt : option cstr)
    (conv : conversation) (ms : list ik_message) (registry : list ik_tool_registry_entry)
    (toolset : list cstr) (defs : list ik_tool_def) :
  m <> [] -> conv_rep conv ms -> start <= length ms ->
  (Z.of_nat (length ms) < 2 ^ 32)%Z -> (Z.of_nat (length defs) < 2 ^ 32)%Z ->
  forallb complete ms = true ->
  tool_def_of <$> filter (admitted toolset) registry = Some <$> defs ->
  ik_request_build_from_conversation (Some m) level prompt conv start registry toolset =
    Ret (mk_request (match prompt with Some [] => None | p => p end)
           ((fun msg => mk_message (role msg) (content_blocks msg) None false) <$> drop start ms)
           (Some m) (level, false) defs (-1) (0%Z, None)).
Proof. exact (build_request_ok m level start prompt conv ms registry toolset defs). Qed.

(** C18: a message restored from the database is the one its row describes.
    The row is read exactly when it is a system event, which gives no message, a
    text event with content, a tool call whose data have an identifier, a name
    and arguments, or a tool result whose data have an identifier and an output;
    the message then has the role of the kind and carries those fields, each in
    its place ([stored_as]).  Every other row, of an unknown kind or with a
    field missing or not a string, gives ERR_PARSE. *)
Theorem from_db_msg_roles (db : ik_msg) :
  (forall m, ik_message_from_db_msg db = Ret m <-> stored_as db m) /\
  ((forall m, ~ stored_as db m) <-> ik_message_from_db_msg db = Fail ERR_PARSE).
Proof.
  assert (forall m, ik_message_from_db_msg db = Ret m <-> stored_as db m) as Hiff.
  { split; [apply from_db_sound|apply from_db_complete]. }
  split; [exact Hiff|]. split.
  - intros Hno. destruct (from_db_returns db) as [[m E]|E]; [|done].
    by destruct (Hno m); apply Hiff.
  - intros E m Hm%Hiff. congruence.
Qed.

End properties.
End ConversationProps.

(** ** Witnesses *)

Module ConversationExamples.
Import CopySlots CodedJson ConversationProps.

(** A tool call with a signature, its result and an interrupted answer. *)
Definition sample : list ik_message :=
  [ik_message_create_text IK_ROLE_USER (lit "hi");
   ik_message_create_tool_call_with_thinking None None None (lit "1") (lit "bash") (lit "{}")
     (Some (lit "sig"));
   ik_message_create_tool_result (lit "1") (lit "ok") false;
   mk_message IK_ROLE_ASSISTANT [IK_CONTENT_TEXT (Some (lit "bye"))] None true].

Definition sample_conv : conversation := mk_conv sample 4 4.

Lemma sample_rep : conv_rep sample_conv sample.
Proof. constructor; [done|by exists []|done]. Qed.

Lemma clone_keeps_all_but_signatures_witness :
  exists d, ik_agent_clone_messages no_conversation sample_conv = Ret d /\
    conv_rep d [ik_message_create_text IK_ROLE_USER (lit "hi");
                ik_message_create_tool_call (lit "1") (lit "bash") (lit "{}");
                ik_message_create_tool_result (lit "1") (lit "ok") false;
                ik_message_create_text IK_ROLE_ASSISTANT (lit "bye")].
Proof.
  exact (clone_keeps_all_but_signatures no_conversation sample_conv sample sample_rep
           ltac:(simpl; lia)).
Defined.

Definition sample_tools : list ik_tool_registry_entry :=
  [mk_entry (lit "bash") (JObj []); mk_entry (lit "web") (JObj [])].

Lemma build_request_contents_witness :
  exists req, ik_request_build_from_conversation (Some (lit "m")) IK_THINKING_MIN (Some []) sample_conv 2
                sample_tools [lit "web"] = Ret req /\
    length (req_messages req) = 2 /\ system_prompt req = None /\
    tools req = [mk_tool (lit "web") [] (lit "{}") false].
Proof.
  eexists. split.
  - apply (build_request_contents (lit "m") IK_THINKING_MIN 2 (Some []) sample_conv sample sample_tools
             [lit "web"] [mk_tool (lit "web") [] (lit "{}") false]);
      [done|exact sample_rep|simpl; lia|simpl; lia|simpl; lia|by vm_compute|by vm_compute].
  - split; [done|]. split; done.
Defined.

End ConversationExamples.
