(* ===== verification/Provider.v ===== *)
(** * Provider interface (providers/provider.h, providers/provider_stream.h)

    What a provider's stream delivers: events while the response arrives, and a
    completion with the response built from them. *)

From S2P Require Import Prelude CString Conversation.

Inductive ik_finish_reason : Set :=
| IK_FINISH_STOP
| IK_FINISH_LENGTH
| IK_FINISH_TOOL_USE
| IK_FINISH_CONTENT_FILTER
| IK_FINISH_ERROR
| IK_FINISH_UNKNOWN.

Inductive ik_error_category : Set :=
| IK_ERR_CAT_AUTH
| IK_ERR_CAT_RATE_LIMIT
| IK_ERR_CAT_INVALID_ARG
| IK_ERR_CAT_NOT_FOUND
| IK_ERR_CAT_SERVER
| IK_ERR_CAT_TIMEOUT
| IK_ERR_CAT_CONTENT_FILTER
| IK_ERR_CAT_NETWORK
| IK_ERR_CAT_UNKNOWN.

Record ik_usage := mk_usage {
  input_tokens : Z;
  output_tokens : Z;
  thinking_tokens : Z;
  cached_tokens : Z;
  total_tokens : Z
}.

Definition no_usage : ik_usage := mk_usage 0 0 0 0 0.

Record ik_response := mk_response {
  resp_content_blocks : list ik_content_block;
  resp_finish_reason : ik_finish_reason;
  resp_usage : ik_usage;
  resp_model : option cstr
}.

Inductive ik_stream_payload : Type :=
| IK_STREAM_START (model : option cstr)
| IK_STREAM_TEXT_DELTA (text : option cstr)
| IK_STREAM_THINKING_DELTA (text : option cstr)
| IK_STREAM_TOOL_CALL_START (id name : option cstr)
| IK_STREAM_TOOL_CALL_DELTA (arguments : option cstr)
| IK_STREAM_TOOL_CALL_DONE
| IK_STREAM_DONE (finish_reason : ik_finish_reason) (usage : ik_usage)
| IK_STREAM_ERROR (category : ik_error_category) (message : option cstr).

Record ik_stream_event := mk_stream_event {
  index : Z;
  payload : ik_stream_payload
}.

Record ik_provider_completion := mk_completion {
  success : bool;
  http_status : Z;
  response : option ik_response;
  error_category : ik_error_category;
  error_message : option cstr;
  retry_after_ms : Z
}.

(** Signed addition: an overflow is undefined. *)
Definition int_add (a b : Z) : outcome Z :=
  if decide (- 2 ^ 31 <= a + b < 2 ^ 31)%Z then Ret (a + b)%Z else Undef.

Lemma int_add_ok a b : (- 2 ^ 31 <= a + b < 2 ^ 31)%Z -> int_add a b = Ret (a + b)%Z.
Proof. intros. unfold int_add. by rewrite decide_True. Qed.

Definition int_sub (a b : Z) : outcome Z :=
  if decide (- 2 ^ 31 <= a - b < 2 ^ 31)%Z then Ret (a - b)%Z else Undef.
