(* ===== verification/Thinking.v ===== *)
(** * Thinking levels (providers/openai/reasoning.c, providers/anthropic/thinking.c, providers/google/thinking.c)

    How each provider expresses a thinking level: an effort, a budget of tokens
    or a level of its own, looked up in tables by the model's name. *)

From Stdlib Require Import String.
From stdpp Require Import strings.
From S2P Require Import Prelude CString Conversation.

(** The rank of a level. *)
Definition level_rank (l : ik_thinking_level) : nat :=
  match l with IK_THINKING_MIN => 0 | IK_THINKING_LOW => 1 | IK_THINKING_MED => 2 | IK_THINKING_HIGH => 3 end.

(** "for (i = 0; TABLE[i] != NULL; i++) if (strcmp(...) == 0)" *)
Definition table_row {A} (test : cstr -> bool) (table : list (cstr * A)) : option A :=
  snd <$> List.find (fun row => test (fst row)) table.

Definition exact (model : cstr) (name : cstr) : bool := strcmp_eq model name.

(** "strncmp(model, pattern, strlen(pattern)) == 0" *)
Definition prefixed (model : cstr) (pattern : cstr) : bool := starts_with pattern model.

(** ** OpenAI *)

Module OpenAI.

Definition REASONING_MODELS : list cstr :=
  [lit "o1"; lit "o3"; lit "o3-mini"; lit "o4-mini"; lit "o3-pro"; lit "gpt-5"; lit "gpt-5-mini";
   lit "gpt-5-nano"; lit "gpt-5-pro"; lit "gpt-5.1"; lit "gpt-5.1-chat-latest"; lit "gpt-5.1-codex";
   lit "gpt-5.1-codex-mini"; lit "gpt-5.2"; lit "gpt-5.2-chat-latest"; lit "gpt-5.2-codex";
   lit "gpt-5.2-pro"].

Definition listed (model : option cstr) (table : list cstr) : bool :=
  match model with
  | None | Some [] => false
  | Some m => existsb (exact m) table
  end.

Definition ik_openai_is_reasoning_model (model : option cstr) : bool := listed model REASONING_MODELS.

Definition row (a b c d : string) : cstr * cstr * cstr * cstr := (lit a, lit b, lit c, lit d).

Definition EFFORT_MAP : list (cstr * (cstr * cstr * cstr * cstr)) :=
  [(lit "o1", row "low" "low" "medium" "high");
   (lit "o3-mini", row "low" "low" "medium" "high");
   (lit "o3", row "none" "low" "medium" "high");
   (lit "o3-pro", row "none" "low" "medium" "high");
   (lit "o4-mini", row "none" "low" "medium" "high");
   (lit "gpt-5", row "minimal" "low" "medium" "high");
   (lit "gpt-5-mini", row "minimal" "low" "medium" "high");
   (lit "gpt-5-nano", row "minimal" "low" "medium" "high");
   (lit "gpt-5-pro", row "high" "high" "high" "high");
   (lit "gpt-5.1", row "none" "low" "medium" "high");
   (lit "gpt-5.1-chat-latest", row "medium" "medium" "medium" "medium");
   (lit "gpt-5.1-codex", row "none" "low" "medium" "high");
   (lit "gpt-5.1-codex-mini", row "none" "low" "medium" "high");
   (lit "gpt-5.2", row "none" "low" "medium" "xhigh");
   (lit "gpt-5.2-chat-latest", row "medium" "medium" "medium" "medium");
   (lit "gpt-5.2-codex", row "none" "low" "medium" "xhigh");
   (lit "gpt-5.2-pro", row "medium" "medium" "high" "xhigh")].

Definition ik_openai_reasoning_effort (model : option cstr) (level : ik_thinking_level) : option cstr :=
  match model with
  | None => None
  | Some m =>
      match table_row (exact m) EFFORT_MAP with
      | None => None
      | Some (min, low, med, high) =>
          Some (match level with
                | IK_THINKING_MIN => min
                | IK_THINKING_LOW => low
                | IK_THINKING_MED => med
                | IK_THINKING_HIGH => high
                end)
      end
  end.

Definition RESPONSES_API_MODELS : list cstr :=
  [lit "o1"; lit "o3"; lit "o3-mini"; lit "o4-mini"; lit "o3-pro"; lit "gpt-5"; lit "gpt-5-mini";
   lit "gpt-5-nano"; lit "gpt-5-pro"; lit "gpt-5.1"; lit "gpt-5.1-chat-latest"; lit "gpt-5.1-codex";
   lit "gpt-5.1-codex-mini"; lit "gpt-5.2"; lit "gpt-5.2-chat-latest"; lit "gpt-5.2-codex";
   lit "gpt-5.2-pro"].

Definition ik_openai_use_responses_api (model : option cstr) : bool := listed model RESPONSES_API_MODELS.

End OpenAI.

(** ** Budgets of tokens *)

(** n is a 32-bit integer; the shifts of a positive number are those of its
    value. *)
Definition floor_power_of_2 (n : Z) : Z :=
  if (n <=? 0)%Z then 0%Z
  else
    let n := Z.lor n (Z.shiftr n 1) in
    let n := Z.lor n (Z.shiftr n 2) in
    let n := Z.lor n (Z.shiftr n 4) in
    let n := Z.lor n (Z.shiftr n 8) in
    let n := Z.lor n (Z.shiftr n 16) in
    (Z.shiftr n 1 + 1)%Z.

(** The budget at a level, between the limits of a model. *)
Definition budget_between (min_budget max_budget : Z) (level : ik_thinking_level) : Z :=
  let range := (max_budget - min_budget)%Z in
  match level with
  | IK_THINKING_MIN => min_budget
  | IK_THINKING_LOW => floor_power_of_2 (min_budget + Z.quot range 3)
  | IK_THINKING_MED => floor_power_of_2 (min_budget + Z.quot (2 * range) 3)
  | IK_THINKING_HIGH => max_budget
  end.

(** ** Anthropic *)

Module Anthropic.

Definition BUDGET_TABLE : list (cstr * (Z * Z)) :=
  [(lit "claude-sonnet-4-5", (1024, 65536)%Z);
   (lit "claude-haiku-4-5", (1024, 32768)%Z);
   (lit "claude-opus-4-5", (1024, 65536)%Z)].

Definition DEFAULT_MIN_BUDGET : Z := 1024.
Definition DEFAULT_MAX_BUDGET : Z := 32768.

Definition ik_anthropic_supports_thinking (model : option cstr) : bool :=
  match model with None => false | Some m => prefixed m (lit "claude-") end.

Definition ADAPTIVE_MODELS : list cstr := [lit "claude-opus-4-6"; lit "claude-sonnet-4-6"].

Definition ik_anthropic_is_adaptive_model (model : option cstr) : bool :=
  match model with None => false | Some m => existsb (prefixed m) ADAPTIVE_MODELS end.

Definition ik_anthropic_thinking_effort (model : option cstr) (level : ik_thinking_level) : option cstr :=
  if negb (ik_anthropic_is_adaptive_model model) then None
  else
    match level with
    | IK_THINKING_MIN => None
    | IK_THINKING_LOW => Some (lit "low")
    | IK_THINKING_MED => Some (lit "medium")
    | IK_THINKING_HIGH => Some (lit "high")
    end.

Definition ik_anthropic_thinking_budget (model : option cstr) (level : ik_thinking_level) : Z :=
  match model with
  | None => -1
  | Some m =>
      if negb (ik_anthropic_supports_thinking (Some m)) then -1
      else
        let '(min_budget, max_budget) :=
          default (DEFAULT_MIN_BUDGET, DEFAULT_MAX_BUDGET) (table_row (prefixed m) BUDGET_TABLE) in
        budget_between min_budget max_budget level
  end%Z.

End Anthropic.

(** ** Google *)

Module Google.

Inductive ik_gemini_series : Set := IK_GEMINI_2_5 | IK_GEMINI_3 | IK_GEMINI_OTHER.

Definition BUDGET_TABLE : list (cstr * (Z * Z)) :=
  [(lit "gemini-2.5-pro", (128, 32768)%Z);
   (lit "gemini-2.5-flash-lite", (512, 24576)%Z);
   (lit "gemini-2.5-flash", (0, 24576)%Z)].

Definition names (model : cstr) (part : string) : bool :=
  match strstr model (lit part) with Some _ => true | None => false end.

Definition ik_google_model_series (model : option cstr) : ik_gemini_series :=
  match model with
  | None => IK_GEMINI_OTHER
  | Some m =>
      if names m "gemini-3" then IK_GEMINI_3
      else if names m "gemini-2.5" then IK_GEMINI_2_5
      else IK_GEMINI_OTHER
  end.

Definition ik_google_supports_thinking (model : option cstr) : bool :=
  match ik_google_model_series model with IK_GEMINI_OTHER => false | _ => true end.

Definition ik_google_can_disable_thinking (model : option cstr) : bool :=
  match model with
  | None => false
  | Some m =>
      match ik_google_model_series (Some m) with
      | IK_GEMINI_2_5 =>
          match table_row (exact m) BUDGET_TABLE with
          | Some (min_budget, _) => (min_budget =? 0)%Z
          | None => false
          end
      | _ => false
      end
  end.

Definition ik_google_thinking_budget (model : option cstr) (level : ik_thinking_level) : Z :=
  match model with
  | None => -1
  | Some m =>
      match ik_google_model_series (Some m) with
      | IK_GEMINI_2_5 =>
          match table_row (exact m) BUDGET_TABLE with
          | None => -1
          | Some (min_budget, max_budget) =>
              if (min_budget =? -1)%Z then -1 else budget_between min_budget max_budget level
          end
      | _ => -1
      end
  end%Z.

Definition LEVEL_TABLE : list (cstr * (cstr * cstr * cstr * cstr)) :=
  [(lit "gemini-3-flash-preview", (lit "minimal", lit "low", lit "medium", lit "high"));
   (lit "gemini-3-pro-preview", (lit "low", lit "low", lit "high", lit "high"));
   (lit "gemini-3.1-pro-preview", (lit "low", lit "low", lit "medium", lit "high"))].

Definition ik_google_thinking_level_str (model : option cstr) (level : ik_thinking_level) : cstr :=
  match (m ← model; table_row (exact m) LEVEL_TABLE) with
  | None =>
      match level with
      | IK_THINKING_MIN | IK_THINKING_LOW => lit "low"
      | IK_THINKING_MED | IK_THINKING_HIGH => lit "high"
      end
  | Some (min_str, low_str, med_str, high_str) =>
      match level with
      | IK_THINKING_MIN => min_str
      | IK_THINKING_LOW => low_str
      | IK_THINKING_MED => med_str
      | IK_THINKING_HIGH => high_str
      end
  end.

(** The error's message names the model; its code is the result. *)
Definition ik_google_validate_thinking (model : option cstr) (level : ik_thinking_level) : option err_code :=
  match model with
  | None => Some ERR_INVALID_ARG
  | Some m =>
      match level with
      | IK_THINKING_MIN =>
          match ik_google_model_series (Some m) with
          | IK_GEMINI_2_5 => if ik_google_can_disable_thinking (Some m) then None else Some ERR_INVALID_ARG
          | _ => None
          end
      | _ => if ik_google_supports_thinking (Some m) then None else Some ERR_INVALID_ARG
      end
  end.

End Google.

(** ** Lemmas *)

(** Every bit from [k - w] (exclusive) to [k] is set and none above. *)
Definition top_bits (k w n : Z) : Prop :=
  (0 <= n)%Z /\ (forall i, (k - w < i <= k)%Z -> (0 <= i)%Z -> Z.testbit n i = true) /\
  (forall i, (k < i)%Z -> Z.testbit n i = false).

(** One round of the smearing doubles the run of set bits. *)
Lemma smear k w n : (0 < w)%Z -> top_bits k w n -> top_bits k (2 * w) (Z.lor n (Z.shiftr n w)).
Proof.
  intros Hw (Hn & Hs & Ha). split_and!.
  - apply Z.lor_nonneg. split; [done|by apply Z.shiftr_nonneg].
  - intros i Hi H0. rewrite Z.lor_spec, Z.shiftr_spec by done.
    destruct (Z.lt_ge_cases (k - w) i) as [Hlt|Hge]; [by rewrite Hs by lia|].
    rewrite (Hs (i + w)%Z) by lia. apply orb_true_r.
  - intros i Hi. destruct (Z.lt_ge_cases i 0) as [Hneg|H0]; [by apply Z.testbit_neg_r|].
    rewrite Z.lor_spec, Z.shiftr_spec, !Ha by lia. done.
Qed.

Lemma top_bits_ones k w n : (0 <= k)%Z -> (k < w)%Z -> top_bits k w n -> n = Z.ones (k + 1).
Proof.
  intros Hk Hw (Hn & Hs & Ha). apply Z.bits_inj'. intros i Hi.
  destruct (Z.lt_ge_cases k i) as [Hlt|Hge].
  - rewrite Ha by done. symmetry. apply Z.ones_spec_high. lia.
  - rewrite Hs by lia. symmetry. apply Z.ones_spec_low. lia.
Qed.

(** The greatest power of two that is not above a positive number of 32 bits. *)
Lemma floor_power_of_2_spec n :
  (n < 2 ^ 31)%Z -> floor_power_of_2 n = if (n <=? 0)%Z then 0%Z else (2 ^ Z.log2 n)%Z.
Proof.
  intros Hn. unfold floor_power_of_2. destruct (Z.leb_spec n 0) as [|Hp]; [done|].
  assert (0 <= Z.log2 n < 31)%Z as Hk.
  { split; [apply Z.log2_nonneg|]. apply Z.log2_lt_pow2; lia. }
  assert (top_bits (Z.log2 n) 1 n) as H0.
  { split_and!; [lia| |].
    - intros i Hi _. replace i with (Z.log2 n) by lia. by apply Z.bit_log2.
    - intros i Hi. apply Z.bits_above_log2; lia. }
  apply smear in H0; [|lia]. apply smear in H0; [|lia]. apply smear in H0; [|lia]. apply smear in H0; [|lia].
  apply smear in H0; [|lia]. apply (top_bits_ones _ _ _ (proj1 Hk)) in H0; [|lia].
  change (2 * 1)%Z with 2%Z in H0. change (2 * 2)%Z with 4%Z in H0. change (2 * 4)%Z with 8%Z in H0.
  change (2 * 8)%Z with 16%Z in H0. rewrite H0. rewrite Z.shiftr_div_pow2 by lia.
  rewrite Z.ones_equiv. rewrite Z.pow_1_r, Z.pow_add_r, Z.pow_1_r by lia.
  pose proof (Z.pow_pos_nonneg 2 (Z.log2 n) ltac:(lia) ltac:(lia)).
  rewrite <- (Z.div_unique_pos (Z.pred (2 ^ Z.log2 n * 2)) 2 (2 ^ Z.log2 n - 1) 1)%Z; lia.
Qed.

Lemma table_row_in {A} test (table : list (cstr * A)) r :
  table_row test table = Some r -> exists name, (name, r) ∈ table /\ test name = true.
Proof.
  unfold table_row. destruct (List.find _ table) as [[name r']|] eqn:E; [|done]. intros [= <-].
  apply List.find_some in E as [Hi Ht]. exists name. split; [by apply list_elem_of_In|done].
Qed.

Lemma table_row_none {A} test (table : list (cstr * A)) :
  table_row test table = None -> forallb (fun row => negb (test (fst row))) table = true.
Proof.
  unfold table_row. destruct (List.find _ table) as [[name r']|] eqn:E; [done|]. intros _.
  apply forallb_forall. intros x Hx. by rewrite (List.find_none _ _ E x Hx).
Qed.

(** A model is found in the table of efforts when it is listed. *)
Lemma effort_listed m :
  match table_row (exact m) OpenAI.EFFORT_MAP with
  | Some r => OpenAI.ik_openai_is_reasoning_model (Some m) = true /\ r ∈ (snd <$> OpenAI.EFFORT_MAP)
  | None => OpenAI.ik_openai_is_reasoning_model (Some m) = false
  end.
Proof.
  destruct (table_row (exact m) OpenAI.EFFORT_MAP) as [r|] eqn:E.
  - apply table_row_in in E as (name & Hi & Ht). apply bool_decide_eq_true in Ht as <-. split.
    + assert (forallb (fun row => OpenAI.ik_openai_is_reasoning_model (Some (fst row))) OpenAI.EFFORT_MAP = true) as Hall
        by (vm_compute; reflexivity).
      rewrite forallb_forall in Hall. exact (Hall (m, r) (proj1 (list_elem_of_In _ _) Hi)).
    + apply list_elem_of_fmap. by exists (m, r).
  - apply table_row_none in E. rewrite forallb_forall in E.
    destruct m as [|b m]; [done|].
    change (OpenAI.ik_openai_is_reasoning_model (Some (b :: m))) with (existsb (exact (b :: m)) OpenAI.REASONING_MODELS).
    destruct (existsb (exact (b :: m)) OpenAI.REASONING_MODELS) eqn:Ex; [|done].
    apply existsb_exists in Ex as (name & Hi & Ht). apply bool_decide_eq_true in Ht as Hm.
    assert (forallb (fun n => existsb (fun row => strcmp_eq n (fst row)) OpenAI.EFFORT_MAP) OpenAI.REASONING_MODELS = true)
      as Hall by (vm_compute; reflexivity).
    rewrite forallb_forall in Hall. specialize (Hall name Hi). apply existsb_exists in Hall as (row & Hr & Hn).
    specialize (E row Hr). unfold exact in E. rewrite Hm, Hn in E. done.
Qed.

Definition levels : list ik_thinking_level := [IK_THINKING_MIN; IK_THINKING_LOW; IK_THINKING_MED; IK_THINKING_HIGH].

Lemma level_in l : l ∈ levels.
Proof. destruct l; unfold levels; rewrite !elem_of_cons; tauto. Qed.

(** Budgets within limits that grow with the level, checked on a table. *)
Definition ordered_between (limits : Z * Z) : bool :=
  forallb (fun l => forallb (fun l' =>
    negb (level_rank l <=? level_rank l')%nat ||
    ((limits.1 <=? budget_between limits.1 limits.2 l)%Z &&
     (budget_between limits.1 limits.2 l <=? budget_between limits.1 limits.2 l')%Z &&
     (budget_between limits.1 limits.2 l' <=? limits.2)%Z)) levels) levels.

Lemma ordered_between_spec limits l l' :
  ordered_between limits = true -> level_rank l <= level_rank l' ->
  (limits.1 <= budget_between limits.1 limits.2 l <= budget_between limits.1 limits.2 l')%Z /\
  (budget_between limits.1 limits.2 l' <= limits.2)%Z.
Proof.
  unfold ordered_between. rewrite forallb_forall. intros Hf Hr.
  specialize (Hf l (proj1 (list_elem_of_In _ _) (level_in l))). rewrite forallb_forall in Hf.
  specialize (Hf l' (proj1 (list_elem_of_In _ _) (level_in l'))).
  apply Nat.leb_le in Hr. rewrite Hr in Hf. cbn [negb orb] in Hf. lia.
Qed.

(** The rank of an effort. *)
Definition effort_rank (e : cstr) : nat :=
  if strcmp_eq e (lit "none") then 0
  else if strcmp_eq e (lit "minimal") then 1
  else if strcmp_eq e (lit "low") then 2
  else if strcmp_eq e (lit "medium") then 3
  else if strcmp_eq e (lit "high") then 4
  else 5.

(** The string at a level of a row. *)
Definition at_level (r : cstr * cstr * cstr * cstr) (l : ik_thinking_level) : cstr :=
  let '(min, low, med, high) := r in
  match l with IK_THINKING_MIN => min | IK_THINKING_LOW => low | IK_THINKING_MED => med | IK_THINKING_HIGH => high end.

Definition row_ordered (r : cstr * cstr * cstr * cstr) : bool :=
  forallb (fun l => forallb (fun l' =>
    negb (level_rank l <=? level_rank l')%nat || (effort_rank (at_level r l) <=? effort_rank (at_level r l'))%nat) levels) levels.

Lemma row_ordered_spec r l l' :
  row_ordered r = true -> level_rank l <= level_rank l' -> effort_rank (at_level r l) <= effort_rank (at_level r l').
Proof.
  unfold row_ordered. rewrite forallb_forall. intros Hf Hr.
  specialize (Hf l (proj1 (list_elem_of_In _ _) (level_in l))). rewrite forallb_forall in Hf.
  specialize (Hf l' (proj1 (list_elem_of_In _ _) (level_in l'))).
  apply Nat.leb_le in Hr. rewrite Hr in Hf. cbn [negb orb] in Hf. by apply Nat.leb_le.
Qed.

Lemma table_row_ordered {A} (table : list (cstr * A)) (check : A -> bool) r :
  forallb (fun row => check (snd row)) table = true -> r ∈ (snd <$> table) -> check r = true.
Proof.
  rewrite forallb_forall. intros Hf (row & -> & Hi)%list_elem_of_fmap. apply Hf. by apply list_elem_of_In.
Qed.

Lemma found_row {A} test (table : list (cstr * A)) r : table_row test table = Some r -> r ∈ (snd <$> table).
Proof. intros (name & Hi & _)%table_row_in. apply list_elem_of_fmap. by exists (name, r). Qed.

(** The limits of a Claude model. *)
Lemma anthropic_limits m :
  let limits := default (Anthropic.DEFAULT_MIN_BUDGET, Anthropic.DEFAULT_MAX_BUDGET)
                  (table_row (prefixed m) Anthropic.BUDGET_TABLE) in
  ordered_between limits = true /\ limits.1 = 1024%Z /\ (limits.2 <= 65536)%Z.
Proof.
  destruct (table_row (prefixed m) Anthropic.BUDGET_TABLE) as [r|] eqn:E; cbn [default from_option id];
    [|split_and!; [vm_compute; reflexivity|done|done]].
  apply found_row in E.
  apply (table_row_ordered Anthropic.BUDGET_TABLE
           (fun limits => ordered_between limits && (limits.1 =? 1024)%Z && (limits.2 <=? 65536)%Z)) in E;
    [|vm_compute; reflexivity].
  rewrite !andb_true_iff in E. split_and!; [apply E|lia|lia].
Qed.

Lemma openai_grows (model : option cstr) (l l' : ik_thinking_level) :
  level_rank l <= level_rank l' ->
  match OpenAI.ik_openai_reasoning_effort model l, OpenAI.ik_openai_reasoning_effort model l' with
  | Some e, Some e' => effort_rank e <= effort_rank e' /\ OpenAI.ik_openai_is_reasoning_model model = true
  | None, None => OpenAI.ik_openai_is_reasoning_model model = false
  | _, _ => False
  end.
Proof.
  intros Hl. destruct model as [m|]; [|done]. unfold OpenAI.ik_openai_reasoning_effort.
  pose proof (effort_listed m) as He. destruct (table_row (exact m) OpenAI.EFFORT_MAP) as [r|]; [|done].
  destruct He as [He Hi].
  apply (table_row_ordered OpenAI.EFFORT_MAP row_ordered) in Hi; [|vm_compute; reflexivity].
  pose proof (row_ordered_spec r l l' Hi Hl) as Ho. destruct r as [[[a b] c] d]. by split.
Qed.

Lemma anthropic_grows (model : option cstr) (l l' : ik_thinking_level) :
  level_rank l <= level_rank l' ->
  (Anthropic.ik_anthropic_thinking_budget model l <= Anthropic.ik_anthropic_thinking_budget model l')%Z /\
  (if Anthropic.ik_anthropic_supports_thinking model
   then (1024 <= Anthropic.ik_anthropic_thinking_budget model l <= 65536)%Z
   else Anthropic.ik_anthropic_thinking_budget model l = (-1)%Z).
Proof.
  intros Hl. destruct model as [m|]; [|done]. unfold Anthropic.ik_anthropic_thinking_budget.
  destruct (Anthropic.ik_anthropic_supports_thinking (Some m)); [|done]. cbn [negb].
  pose proof (anthropic_limits m) as Hm. cbv zeta in Hm. destruct Hm as (Ho & H1 & H2).
  destruct (default _ _) as [lo hi]. cbn [fst snd] in *.
  destruct (ordered_between_spec (lo, hi) l l' Ho Hl) as [? ?]. cbn [fst snd] in *. lia.
Qed.

Lemma google_grows (model : option cstr) (l l' : ik_thinking_level) :
  level_rank l <= level_rank l' ->
  (Google.ik_google_thinking_budget model l <= Google.ik_google_thinking_budget model l')%Z /\
  effort_rank (Google.ik_google_thinking_level_str model l) <= effort_rank (Google.ik_google_thinking_level_str model l').
Proof.
  intros Hl. split.
  - destruct model as [m|]; [|done]. unfold Google.ik_google_thinking_budget.
    destruct (Google.ik_google_model_series (Some m)); [|done..].
    destruct (table_row (exact m) Google.BUDGET_TABLE) as [[lo hi]|] eqn:E; [|done].
    apply found_row, (table_row_ordered Google.BUDGET_TABLE ordered_between) in E; [|vm_compute; reflexivity].
    destruct (lo =? -1)%Z; [done|]. by apply (ordered_between_spec (lo, hi) l l' E Hl).
  - unfold Google.ik_google_thinking_level_str.
    destruct (m ← model; table_row (exact m) Google.LEVEL_TABLE) as [r|] eqn:E.
    + destruct model as [m|]; [|done]. change (table_row (exact m) Google.LEVEL_TABLE = Some r) in E.
      apply found_row, (table_row_ordered Google.LEVEL_TABLE row_ordered) in E; [|vm_compute; reflexivity].
      pose proof (row_ordered_spec r l l' E Hl) as Ho. by destruct r as [[[a b] c] d].
    + destruct l, l'; cbn in Hl; try lia; vm_compute; lia.
Qed.

Module ThinkingProps.

(** thinking grows with its level.  For every model and two levels in
    order, the effort for OpenAI, the budget for Anthropic and for Google and
    the level for Google at the higher one are at least those at the lower one;
    OpenAI models that take an effort are those listed as reasoning models,
    which are the ones served by the Responses API; a Claude model always has a
    budget between 1024 and 65536 tokens. *)
Theorem thinking_grows (model : option cstr) (l l' : ik_thinking_level) :
  level_rank l <= level_rank l' ->
  (match OpenAI.ik_openai_reasoning_effort model l, OpenAI.ik_openai_reasoning_effort model l' with
   | Some e, Some e' => effort_rank e <= effort_rank e' /\ OpenAI.ik_openai_is_reasoning_model model = true
   | None, None => OpenAI.ik_openai_is_reasoning_model model = false
   | _, _ => False
   end) /\
  OpenAI.ik_openai_use_responses_api model = OpenAI.ik_openai_is_reasoning_model model /\
  (Anthropic.ik_anthropic_thinking_budget model l <= Anthropic.ik_anthropic_thinking_budget model l')%Z /\
  (if Anthropic.ik_anthropic_supports_thinking model
   then (1024 <= Anthropic.ik_anthropic_thinking_budget model l <= 65536)%Z
   else Anthropic.ik_anthropic_thinking_budget model l = (-1)%Z) /\
  (Google.ik_google_thinking_budget model l <= Google.ik_google_thinking_budget model l')%Z /\
  effort_rank (Google.ik_google_thinking_level_str model l) <= effort_rank (Google.ik_google_thinking_level_str model l').
Proof.
  intros Hl. destruct (anthropic_grows model l l' Hl) as [Ha Hr]. destruct (google_grows model l l' Hl) as [Hg Hs].
  split_and!; try done. exact (openai_grows model l l' Hl).
Qed.

(** The budgets between the limits are powers of two: rounding gives the
    greatest power of two that is not above a positive 32-bit number. *)
Theorem rounding_is_log2 (n : Z) :
  (n < 2 ^ 31)%Z -> floor_power_of_2 n = if (n <=? 0)%Z then 0%Z else (2 ^ Z.log2 n)%Z.
Proof. apply floor_power_of_2_spec. Qed.

End ThinkingProps.

Module ThinkingExamples.
Import ThinkingProps.

Lemma thinking_grows_witness :
  Anthropic.ik_anthropic_thinking_budget (Some (lit "claude-sonnet-4-5")) IK_THINKING_LOW = 16384%Z /\
  (Anthropic.ik_anthropic_thinking_budget (Some (lit "claude-sonnet-4-5")) IK_THINKING_LOW
   <= Anthropic.ik_anthropic_thinking_budget (Some (lit "claude-sonnet-4-5")) IK_THINKING_HIGH)%Z.
Proof.
  split; [vm_compute; reflexivity|].
  destruct (thinking_grows (Some (lit "claude-sonnet-4-5")) IK_THINKING_LOW IK_THINKING_HIGH) as (_ & _ & H & _);
    [cbn; lia|exact H].
Defined.

Lemma rounding_is_log2_witness : (45000 < 2 ^ 31)%Z /\ floor_power_of_2 45000 = 32768%Z.
Proof. split; [lia|]. rewrite (rounding_is_log2 45000) by lia. reflexivity. Defined.

End ThinkingExamples.
