(* ===== verification/RequestJson.v ===== *)
(** * The JSON objects of requests

    Fields appended in the order of the calls, as the serialisers of the three
    providers do it, and what a reader of the object finds. *)

From Stdlib Require Import String.
From stdpp Require Import strings.
From S2P Require Import Prelude Slots CString Json.

Abbreviation fields := (list (list Z * json)).

(** "if (!yyjson_mut_obj_add_str_(...)) return false" *)
Definition put_str (k : string) (s : option cstr) (o : fields) : option fields := yyjson_mut_obj_add_str o (lit k) s.
Definition put_val (k : string) (v : json) (o : fields) : fields := obj_add_val o (lit k) v.

Definition str (o : fields) (k : string) : option cstr := yyjson_get_str (find_field o (lit k)).

(** A string a C program and a JSON reader agree on. *)
Definition c_text (s : option cstr) : Prop := exists t, s = Some t /\ (0%Z ∉ t).

(** The fields added after [k] do not hide it. *)
Lemma find_kept (o o' : fields) k v : find_field o k = Some v -> find_field (o ++ o') k = Some v.
Proof.
  unfold find_field. induction o as [|[k1 w] o IH]; [done|]. cbn [app List.find].
  destruct (bool_decide _); [done|exact IH].
Qed.

(** Fields with other names before it do not either. *)
Lemma find_absent (o o' : fields) k :
  forallb (fun f => negb (bool_decide (fst f = k))) o = true -> find_field (o ++ o') k = find_field o' k.
Proof.
  unfold find_field. induction o as [|[k1 w] o IH]; [done|]. cbn [app List.find forallb fst].
  destruct (bool_decide (k1 = k)); [done|]. exact IH.
Qed.

(** A loop that appends to an array, stopping at the first failure. *)
Fixpoint append_each {A} (step : list json -> A -> option (list json)) (arr : list json) (l : list A) : option (list json) :=
  match l with
  | [] => Some arr
  | a :: l => arr ← step arr a; append_each step arr l
  end.

Lemma append_each_read_back {A B} (step : list json -> A -> option (list json)) (read : json -> option B) (f : A -> B) l :
  Forall (fun a => forall arr, exists v, step arr a = Some (arr ++ [v]) /\ read v = Some (f a)) l ->
  forall arr, exists vs, append_each step arr l = Some (arr ++ vs) /\ mapM read vs = Some (f <$> l).
Proof.
  induction 1 as [|a l Ha _ IH]; intros arr; cbn [append_each].
  { exists []. by rewrite app_nil_r. }
  destruct (Ha arr) as (v & Ev & Er). rewrite Ev. cbn [mbind option_bind].
  destruct (IH (arr ++ [v])) as (vs & -> & El). exists (v :: vs).
  split; [by rewrite <- app_assoc|]. cbn [mapM fmap list_fmap]. rewrite Er. cbn [mbind option_bind]. by rewrite El.
Qed.

Lemma mapM_app_some {A B} (f : A -> option B) l l' k k' :
  mapM f l = Some k -> mapM f l' = Some k' -> mapM f (l ++ l') = Some (k ++ k').
Proof. rewrite !mapM_Some. apply Forall2_app. Qed.

(** Closed requests: their texts and that they can be written. *)
Ltac closed_text := eexists; split; [reflexivity|apply (bool_decide_unpack _); vm_compute; exact I].

Ltac closed_writable :=
  repeat first
    [ apply writable_obj | apply writable_arr | apply writable_bool | apply writable_str | apply writable_int; lia
    | apply Forall_cons; split | apply Forall_nil | split | apply lit_utf8; vm_compute; reflexivity ].
