(* ===== verification/OpenAIRequest.v ===== *)
(** * OpenAI requests (providers/openai/serialize.c, request_chat.c, request_responses.c)

    Messages, tools and whole requests as the JSON of both APIs.  An object
    under construction is the list of its fields. *)

From Stdlib Require Import String.
From stdpp Require Import strings.
From S2P Require Import Prelude Slots CString Json RequestJson Conversation Thinking.


(** "if (!yyjson_mut_obj_add_str(...)) PANIC": it fails for [NULL]. *)
Definition add_str (o : fields) (k : string) (s : option cstr) : outcome fields :=
  or_panic (yyjson_mut_obj_add_str o (lit k) s).

Definition NEWLINES : list Z := [10; 10]%Z.

(** ** serialize.c *)

Definition map_role_to_string (r : ik_role) : cstr :=
  match r with
  | IK_ROLE_USER => lit "user"
  | IK_ROLE_ASSISTANT => lit "assistant"
  | IK_ROLE_TOOL => lit "tool"
  end.

Definition add_tool_result_content (msg_obj : fields) (msg : ik_message) : outcome fields :=
  match content_blocks msg with
  | IK_CONTENT_TOOL_RESULT tool_call_id content _ :: _ =>
      let! msg_obj := add_str msg_obj "tool_call_id" tool_call_id in
      add_str msg_obj "content" content
  | _ => Ret msg_obj
  end.

Definition is_tool_call (b : ik_content_block) : bool :=
  match b with IK_CONTENT_TOOL_CALL _ _ _ _ => true | _ => false end.

Definition has_tool_calls (msg : ik_message) : bool := existsb is_tool_call (content_blocks msg).

Definition add_tool_call_to_array (tool_calls_arr : list json) (id name arguments : option cstr) : outcome (list json) :=
  let! tc_obj := add_str [] "id" id in
  let! tc_obj := add_str tc_obj "type" (Some (lit "function")) in
  let! func_obj := add_str [] "name" name in
  let! func_obj := add_str func_obj "arguments" arguments in
  Ret (tool_calls_arr ++ [JObj (obj_add_val tc_obj (lit "function") (JObj func_obj))]).

Fixpoint tool_calls_loop (blocks : list ik_content_block) (arr : list json) : outcome (list json) :=
  match blocks with
  | [] => Ret arr
  | IK_CONTENT_TOOL_CALL id name arguments _ :: blocks =>
      let! arr := add_tool_call_to_array arr id name arguments in
      tool_calls_loop blocks arr
  | _ :: blocks => tool_calls_loop blocks arr
  end.

Definition add_tool_calls_content (msg_obj : fields) (msg : ik_message) : outcome fields :=
  let msg_obj := obj_add_val msg_obj (lit "content") JNull in
  let! arr := tool_calls_loop (content_blocks msg) [] in
  Ret (obj_add_val msg_obj (lit "tool_calls") (JArr arr)).

(** The first pass: strlen of a [NULL] text is undefined. *)
Fixpoint calculate_text_content_length (blocks : list ik_content_block) (total_len : nat) : outcome nat :=
  match blocks with
  | [] => Ret total_len
  | IK_CONTENT_TEXT text :: blocks =>
      let total_len := if (0 <? total_len)%nat then wrap64 (total_len + 2) else total_len in
      match text with
      | None => Undef
      | Some text => calculate_text_content_length blocks (wrap64 (total_len + length text))
      end
  | _ :: blocks => calculate_text_content_length blocks total_len
  end.

(** The second pass, into the block [content]; [dest] is an offset. *)
Fixpoint concatenate_text_blocks (blocks : list ik_content_block) (content : list Z) (dest : nat) (first : bool)
  : outcome (list Z) :=
  match blocks with
  | [] => mem_write dest [0%Z] content
  | IK_CONTENT_TEXT text :: blocks =>
      let! (content, dest) :=
        if first then Ret (content, dest)
        else let! content := mem_write dest NEWLINES content in Ret (content, dest + 2) in
      match text with
      | None => Undef
      | Some text =>
          let! content := mem_write dest text content in
          concatenate_text_blocks blocks content (dest + length text) false
      end
  | _ :: blocks => concatenate_text_blocks blocks content dest first
  end.

(** The text of a message, or the empty one: what both APIs send as content. *)
Definition joined_text (msg : ik_message) : outcome (option cstr) :=
  let! total_len := calculate_text_content_length (content_blocks msg) 0 in
  if (total_len =? 0)%nat then Ret None
  else
    let! content := concatenate_text_blocks (content_blocks msg) (replicate (wrap64 (total_len + 1)) 0%Z) 0 true in
    let! s := c_string content in
    Ret (Some s).

Definition add_text_content (msg_obj : fields) (msg : ik_message) : outcome fields :=
  let! text := joined_text msg in
  add_str msg_obj "content" (Some (default [] text)).

Definition ik_openai_serialize_message (msg : ik_message) : outcome json :=
  let! msg_obj := add_str [] "role" (Some (map_role_to_string (role msg))) in
  let! msg_obj :=
    if decide (role msg = IK_ROLE_TOOL) then add_tool_result_content msg_obj msg
    else if has_tool_calls msg then add_tool_calls_content msg_obj msg
    else add_text_content msg_obj msg in
  Ret (JObj msg_obj).

(** One item per block; thinking is not sent. *)
Definition serialize_item (r : ik_role) (block : ik_content_block) : outcome (list json) :=
  match block with
  | IK_CONTENT_TEXT text =>
      let! item := add_str [] "role" (Some (map_role_to_string r)) in
      let! item := add_str item "content" text in
      Ret [JObj item]
  | IK_CONTENT_TOOL_CALL id name arguments _ =>
      let! item := add_str [] "type" (Some (lit "function_call")) in
      let! item := add_str item "call_id" id in
      let! item := add_str item "name" name in
      let! item := add_str item "arguments" arguments in
      Ret [JObj item]
  | IK_CONTENT_TOOL_RESULT tool_call_id content _ =>
      let! item := add_str [] "type" (Some (lit "function_call_output")) in
      let! item := add_str item "call_id" tool_call_id in
      let! item := add_str item "output" content in
      Ret [JObj item]
  | _ => Ret []
  end.

Fixpoint serialize_items (r : ik_role) (blocks : list ik_content_block) (out_arr : list json) : outcome (list json) :=
  match blocks with
  | [] => Ret out_arr
  | block :: blocks =>
      let! items := serialize_item r block in
      serialize_items r blocks (out_arr ++ items)
  end.

Definition ik_openai_serialize_responses_message (msg : ik_message) (out_arr : list json) : outcome (list json) :=
  serialize_items (role msg) (content_blocks msg) out_arr.

(** ** Tools: the same helpers in request_chat.c and request_responses.c *)

(** The first field with the key, changed in place. *)
Fixpoint update_field (o : fields) (k : cstr) (f : json -> json) : fields :=
  match o with
  | [] => []
  | (k', v) :: o => if decide (k' = k) then (k', f v) :: o else (k', v) :: update_field o k f
  end.

Definition combinators : list cstr := [lit "oneOf"; lit "anyOf"; lit "allOf"].

(** The recursion goes down the schema: its depth is enough fuel. *)
Fixpoint json_depth (v : json) : nat :=
  match v with
  | JArr l => S (foldr Nat.max 0 (json_depth <$> l))
  | JObj fs => S (foldr Nat.max 0 ((fun f => json_depth (snd f)) <$> fs))
  | _ => 0
  end.

Fixpoint remove_format (fuel : nat) (schema : json) : json :=
  match fuel, schema with
  | S fuel, JObj o =>
      let o := obj_remove_key o (lit "format") in
      let o := update_field o (lit "properties") (fun v =>
                 match v with JObj ps => JObj ((fun p => (fst p, remove_format fuel (snd p))) <$> ps) | _ => v end) in
      let o := update_field o (lit "items") (fun v =>
                 match v with JObj _ => remove_format fuel v | _ => v end) in
      JObj (foldl (fun o k => update_field o k (fun v =>
                     match v with JArr l => JArr (remove_format fuel <$> l) | _ => v end)) o combinators)
  | _, _ => schema
  end.

Definition remove_format_validators (schema : json) : json := remove_format (json_depth schema) schema.

Definition ensure_all_properties_required (params : json) : json :=
  match params with
  | JObj o =>
      match find_field o (lit "properties") with
      | Some (JObj ps) =>
          JObj (obj_add_val (obj_remove_key o (lit "required")) (lit "required") (JArr ((fun p => JStr (fst p)) <$> ps)))
      | _ => params
      end
  | _ => params
  end.

Section tools.
Context `{Yyjson}.

(** The parameters of a tool in strict mode; [None] when they are no JSON
    object. *)
Definition strict_parameters (tool : ik_tool_def) : option json :=
  match yyjson_read (tool_parameters tool) with
  | None => None
  | Some params =>
      match ensure_all_properties_required (remove_format_validators params) with
      | JObj o => Some (JObj (obj_add_val o (lit "additionalProperties") (JBool false)))
      | _ => None
      end
  end.

Definition serialize_chat_tool (tools_arr : list json) (tool : ik_tool_def) : option (list json) :=
  let tool_obj := obj_add_str [] (lit "type") (Some (lit "function")) in
  let func_obj := obj_add_str [] (lit "name") (Some (tool_name tool)) in
  let func_obj := obj_add_str func_obj (lit "description") (Some (tool_description tool)) in
  match strict_parameters tool with
  | None => None
  | Some params =>
      let func_obj := obj_add_val func_obj (lit "parameters") params in
      let func_obj := obj_add_val func_obj (lit "strict") (JBool true) in
      Some (tools_arr ++ [JObj (obj_add_val tool_obj (lit "function") (JObj func_obj))])
  end.

Definition serialize_responses_tool (tools_arr : list json) (tool : ik_tool_def) : option (list json) :=
  let tool_obj := obj_add_str [] (lit "type") (Some (lit "function")) in
  let tool_obj := obj_add_str tool_obj (lit "name") (Some (tool_name tool)) in
  let tool_obj := obj_add_str tool_obj (lit "description") (Some (tool_description tool)) in
  match strict_parameters tool with
  | None => None
  | Some params =>
      let tool_obj := obj_add_val tool_obj (lit "parameters") params in
      Some (tools_arr ++ [JObj (obj_add_val tool_obj (lit "strict") (JBool true))])
  end.

Fixpoint tools_loop (serialize : list json -> ik_tool_def -> option (list json)) (arr : list json) (ts : list ik_tool_def)
  : option (list json) :=
  match ts with
  | [] => Some arr
  | t :: ts => arr ← serialize arr t; tools_loop serialize arr ts
  end.

Definition add_tool_choice (root : fields) (tool_choice_mode : Z) : fields :=
  let choice_str := if (tool_choice_mode =? 1)%Z then "none"%string
                    else if (tool_choice_mode =? 2)%Z then "required"%string
                    else "auto"%string in
  obj_add_str root (lit "tool_choice") (Some (lit choice_str)).

(** ** request_chat.c *)

(** The part of the loop over the messages. *)
Fixpoint messages_loop (arr : list json) (ms : list ik_message) : outcome (list json) :=
  match ms with
  | [] => Ret arr
  | m :: ms => let! msg_obj := ik_openai_serialize_message m in messages_loop (arr ++ [msg_obj]) ms
  end.

(** "system_prompt != NULL && strlen(system_prompt) > 0" *)
Definition prompt_of (req : ik_request) : option cstr :=
  match system_prompt req with Some (c :: s) => Some (c :: s) | _ => None end.

Definition chat_body (model : cstr) (req : ik_request) (streaming : bool) : outcome (option fields) :=
  let root := obj_add_str [] (lit "model") (Some model) in
  let messages_arr :=
    match prompt_of req with
    | Some p => [JObj (obj_add_str (obj_add_str [] (lit "role") (Some (lit "system"))) (lit "content") (Some p))]
    | None => []
    end in
  let! messages_arr := messages_loop messages_arr (req_messages req) in
  let root := obj_add_val root (lit "messages") (JArr messages_arr) in
  let root := if (0 <? max_output_tokens req)%Z
              then obj_add_val root (lit "max_completion_tokens") (JInt (max_output_tokens req)) else root in
  let root := if streaming
              then obj_add_val (obj_add_val root (lit "stream") (JBool true)) (lit "stream_options")
                     (JObj (obj_add_val [] (lit "include_usage") (JBool true)))
              else root in
  if (0 <? length (tools req))%nat then
    match tools_loop serialize_chat_tool [] (tools req) with
    | None => Ret None
    | Some tools_arr =>
        let root := obj_add_val root (lit "tools") (JArr tools_arr) in
        let root := add_tool_choice root (fst (tool_choice req)) in
        Ret (Some (obj_add_val root (lit "parallel_tool_calls") (JBool true)))
    end
  else Ret (Some root).

Definition ik_openai_serialize_chat_request (req : ik_request) (streaming : bool) : outcome cstr :=
  match model req with
  | None => Fail ERR_INVALID_ARG
  | Some model =>
      let! root := chat_body model req streaming in
      match root with
      | None => Fail ERR_PARSE
      | Some root => or_panic (yyjson_write (JObj root))
      end
  end.

Definition ik_openai_build_chat_url (base_url : cstr) : cstr := base_url ++ lit "/v1/chat/completions".

Definition ik_openai_build_headers (api_key : cstr) : list cstr :=
  [lit "Authorization: Bearer " ++ api_key; lit "Content-Type: application/json"].

(** ** request_responses.c *)

(** The same two passes as in serialize.c. *)
Definition build_string_input (msg : ik_message) : outcome (option cstr) := joined_text msg.

Definition add_string_input (root : fields) (msg : ik_message) : outcome fields :=
  let! input_text := build_string_input msg in
  Ret (obj_add_str root (lit "input") (Some (default [] input_text))).

Fixpoint input_loop (arr : list json) (ms : list ik_message) : outcome (list json) :=
  match ms with
  | [] => Ret arr
  | m :: ms => let! arr := ik_openai_serialize_responses_message m arr in input_loop arr ms
  end.

Definition add_array_input (root : fields) (req : ik_request) : outcome fields :=
  let! input_arr := input_loop [] (req_messages req) in
  Ret (obj_add_val root (lit "input") (JArr input_arr)).

Definition add_input_field (root : fields) (req : ik_request) : outcome fields :=
  match req_messages req with
  | [m] =>
      if decide (role m = IK_ROLE_USER) then
        match content_blocks m with
        | [] => add_array_input root req
        | _ => add_string_input root m
        end
      else add_array_input root req
  | _ => add_array_input root req
  end.

Definition add_reasoning_config (root : fields) (req : ik_request) : fields :=
  if negb (OpenAI.ik_openai_is_reasoning_model (model req)) then root
  else
    match OpenAI.ik_openai_reasoning_effort (model req) (fst (thinking req)) with
    | None => root
    | Some effort => obj_add_val root (lit "reasoning") (JObj (obj_add_str [] (lit "effort") (Some effort)))
    end.

Definition add_tools_and_choice (root : fields) (req : ik_request) : option fields :=
  if (length (tools req) =? 0)%nat then Some root
  else
    match tools_loop serialize_responses_tool [] (tools req) with
    | None => None
    | Some tools_arr =>
        Some (add_tool_choice (obj_add_val root (lit "tools") (JArr tools_arr)) (fst (tool_choice req)))
    end.

Definition responses_body (model : cstr) (req : ik_request) (streaming : bool) : outcome (option fields) :=
  let root := obj_add_str [] (lit "model") (Some model) in
  let root := match prompt_of req with
              | Some p => obj_add_str root (lit "instructions") (Some p)
              | None => root
              end in
  let! root := add_input_field root req in
  let root := if (0 <? max_output_tokens req)%Z
              then obj_add_val root (lit "max_output_tokens") (JInt (max_output_tokens req)) else root in
  let root := if streaming then obj_add_val root (lit "stream") (JBool true) else root in
  let root := add_reasoning_config root req in
  Ret (add_tools_and_choice root req).

Definition ik_openai_serialize_responses_request (req : ik_request) (streaming : bool) : outcome cstr :=
  match model req with
  | None => Fail ERR_INVALID_ARG
  | Some model =>
      let! root := responses_body model req streaming in
      match root with
      | None => Fail ERR_PARSE
      | Some root => or_panic (yyjson_write (JObj root))
      end
  end.

Definition ik_openai_build_responses_url (base_url : cstr) : cstr := base_url ++ lit "/v1/responses".

End tools.

(** ** The text of a message *)

Definition text_of_block (b : ik_content_block) : option cstr :=
  match b with IK_CONTENT_TEXT text => text | _ => None end.

(** The texts of a message in order. *)
Definition texts (blocks : list ik_content_block) : list cstr := omap text_of_block blocks.

(** No text is [NULL], and none has a NUL inside. *)
Definition texts_ok (blocks : list ik_content_block) : Prop :=
  Forall (fun b => match b with IK_CONTENT_TEXT text => exists t, text = Some t /\ (0%Z ∉ t) | _ => True end) blocks.

Definition separated (ts : list cstr) : cstr := concat ((fun t => NEWLINES ++ t) <$> ts).

Definition joined (ts : list cstr) : cstr := match ts with [] => [] | t :: ts => t ++ separated ts end.

(** What the first pass counts. *)
Fixpoint measured (ts : list cstr) (acc : nat) : nat :=
  match ts with
  | [] => acc
  | t :: ts => measured ts ((if (0 <? acc)%nat then acc + 2 else acc) + length t)
  end.

Lemma measured_pos ts acc : 0 < acc -> measured ts acc = acc + length (separated ts).
Proof.
  revert acc. induction ts as [|t ts IH]; intros acc Ha; cbn [measured]; [cbn; lia|].
  rewrite (proj2 (Nat.ltb_lt _ _)) by done. rewrite IH by lia. unfold separated. cbn [fmap list_fmap concat].
  rewrite !length_app. cbn [length NEWLINES]. lia.
Qed.

Lemma measured_zero ts : ts <> [] -> measured ts 0 + 2 <= length (separated ts).
Proof.
  induction ts as [|t ts IH]; [done|]. intros _. cbn [measured Nat.ltb Nat.leb]. unfold separated in *.
  cbn [fmap list_fmap concat]. rewrite !length_app. cbn [length NEWLINES].
  destruct t as [|b t]; cbn [length Nat.add].
  - destruct ts as [|t ts]; [cbn; lia|]. specialize (IH ltac:(done)). lia.
  - rewrite measured_pos by lia. unfold separated. lia.
Qed.

Lemma measured_none ts acc : measured ts acc = 0 -> acc = 0 /\ Forall (fun t => t = []) ts.
Proof.
  revert acc. induction ts as [|t ts IH]; intros acc; cbn [measured]; [by split; [|constructor]|].
  intros [Hz Hf]%IH. destruct (Nat.ltb_spec 0 acc); [lia|].
  assert (t = []) by (apply nil_length_inv; lia). subst. split; [lia|by constructor].
Qed.

Lemma measured_all_empty ts : Forall (fun t => t = []) ts -> measured ts 0 = 0.
Proof. induction 1 as [|t ts -> _ IH]; done. Qed.

Lemma length_pass blocks acc :
  texts_ok blocks -> (Z.of_nat (measured (texts blocks) acc) < 2 ^ 64)%Z ->
  calculate_text_content_length blocks acc = Ret (measured (texts blocks) acc).
Proof.
  revert acc. induction blocks as [|b blocks IH]; intros acc Hok Hm; [done|].
  apply Forall_cons in Hok as [Hb Hok]. destruct b as [text|id nm ar sg|id ct er|text sg|d];
    cbn [calculate_text_content_length]; [|by apply IH..].
  destruct Hb as (t & -> & _). unfold texts in *. cbn [omap list_omap text_of_block measured] in *.
  assert (forall ts a, a <= measured ts a) as Hle.
  { induction ts as [|t' ts IHt]; intros a; cbn [measured]; [done|]. etransitivity; [|apply IHt].
    destruct (Nat.ltb_spec 0 a); lia. }
  pose proof (Hle (omap text_of_block blocks) ((if (0 <? acc)%nat then acc + 2 else acc) + length t)) as Hl.
  destruct (Nat.ltb_spec 0 acc); [rewrite (wrap64_small (acc + 2)) by lia|]; rewrite wrap64_small by lia; by apply IH.
Qed.

Lemma mem_write_at p bs r :
  mem_write (length p) bs (p ++ r) = if (length bs <=? length r)%nat then Ret (p ++ bs ++ drop (length bs) r) else Undef.
Proof.
  unfold mem_write. rewrite length_app. destruct (Nat.leb_spec (length bs) (length r)).
  - rewrite decide_True by lia. rewrite take_app_length. do 3 f_equal.
    rewrite drop_app_ge by lia. f_equal. lia.
  - by rewrite decide_False by lia.
Qed.

(** The second pass after the first text: all of it is written, or it leaves the
    block. *)
Lemma concat_pass blocks p r :
  texts_ok blocks ->
  concatenate_text_blocks blocks (p ++ r) (length p) false =
    let w := separated (texts blocks) in
    if (length w + 1 <=? length r)%nat then Ret (p ++ w ++ 0%Z :: drop (length w + 1) r) else Undef.
Proof.
  revert p r. induction blocks as [|b blocks IH]; intros p r Hok.
  { cbn [concatenate_text_blocks]. rewrite mem_write_at. reflexivity. }
  apply Forall_cons in Hok as [Hb Hok]. destruct b as [text|id nm ar sg|id ct er|text sg|d];
    cbn [concatenate_text_blocks]; [|by apply IH..].
  destruct Hb as (t & -> & _). rewrite mem_write_at. cbv zeta. unfold texts in *. cbn [omap list_omap text_of_block].
  unfold separated in *. cbn [fmap list_fmap concat]. rewrite !length_app. change (length NEWLINES) with 2 in *.
  destruct (Nat.leb_spec 2 (length r)) as [H2|H2]; cycle 1.
  { cbn [obind]. destruct (Nat.leb_spec (2 + length t + length (concat ((fun t => NEWLINES ++ t) <$> omap text_of_block blocks)) + 1) (length r)); [lia|done]. }
  cbn [obind]. rewrite (app_assoc p NEWLINES).
  replace (length p + 2) with (length (p ++ NEWLINES)) by (rewrite length_app; done).
  rewrite mem_write_at, length_drop.
  destruct (Nat.leb_spec (length t) (length r - 2)) as [Ht|Ht]; cycle 1.
  { cbn [obind]. destruct (Nat.leb_spec (2 + length t + length (concat ((fun t => NEWLINES ++ t) <$> omap text_of_block blocks)) + 1) (length r)); [lia|done]. }
  cbn [obind]. rewrite (app_assoc (p ++ NEWLINES) t), <- length_app, IH by done. cbv zeta.
  rewrite !length_drop, !drop_drop.
  destruct (Nat.leb_spec (length (concat ((fun t => NEWLINES ++ t) <$> omap text_of_block blocks)) + 1) (length r - 2 - length t));
    destruct (Nat.leb_spec (2 + length t + length (concat ((fun t => NEWLINES ++ t) <$> omap text_of_block blocks)) + 1) (length r)); try lia; [|done].
  rewrite <- !app_assoc. do 6 f_equal. f_equal. lia.
Qed.

(** The same from the start. *)
Lemma concat_first blocks r :
  texts_ok blocks ->
  concatenate_text_blocks blocks r 0 true =
    match texts blocks with
    | [] => mem_write 0 [0%Z] r
    | t :: ts =>
        let w := t ++ separated ts in
        if (length w + 1 <=? length r)%nat then Ret (w ++ 0%Z :: drop (length w + 1) r) else Undef
    end.
Proof.
  induction blocks as [|b blocks IH]; intros Hok; [done|].
  apply Forall_cons in Hok as [Hb Hok]. destruct b as [text|id nm ar sg|id ct er|text sg|d];
    cbn [concatenate_text_blocks]; [|by apply IH..].
  destruct Hb as (t & -> & _). unfold texts in *. cbn [omap list_omap text_of_block obind]. cbv zeta.
  pose proof (mem_write_at [] t r) as Hw. cbn [length app] in Hw. rewrite Hw. rewrite length_app.
  destruct (Nat.leb_spec (length t) (length r)) as [Ht|Ht]; cycle 1.
  { cbn [obind]. destruct (Nat.leb_spec (length t + length (separated (omap text_of_block blocks)) + 1) (length r)); [lia|done]. }
  cbn [obind]. change (0 + length t) with (length t). rewrite (concat_pass blocks t (drop (length t) r) Hok). cbv zeta.
  rewrite length_drop, drop_drop. unfold texts.
  destruct (Nat.leb_spec (length (separated (omap text_of_block blocks)) + 1) (length r - length t));
    destruct (Nat.leb_spec (length t + length (separated (omap text_of_block blocks)) + 1) (length r)); try lia; [|done].
  rewrite <- !app_assoc. do 4 f_equal. f_equal. lia.
Qed.

Lemma joined_no_nul blocks : texts_ok blocks -> (0%Z ∉ joined (texts blocks)).
Proof.
  intros Hok. assert (Forall (fun t => 0%Z ∉ t) (texts blocks)) as Hf.
  { induction Hok as [|b blocks Hb Hok IH]; [constructor|]. unfold texts in *. destruct b; cbn [omap list_omap text_of_block]; try done.
    destruct Hb as (t & -> & Ht). by constructor. }
  destruct Hf as [|t ts Ht Hts]; [apply not_elem_of_nil|]. cbn [joined]. rewrite not_elem_of_app. split; [done|].
  unfold separated. induction Hts as [|t' ts Ht' _ IH]; [apply not_elem_of_nil|]. cbn [fmap list_fmap concat].
  rewrite !not_elem_of_app. split_and!; try done. apply (bool_decide_unpack _). vm_compute. exact I.
Qed.

Lemma measured_joined ts : measured ts 0 <= length (joined ts).
Proof.
  destruct ts as [|t ts]; [done|]. cbn [measured Nat.ltb Nat.leb joined Nat.add]. rewrite length_app.
  destruct t as [|b t]; [|rewrite measured_pos by (cbn; lia); lia]. cbn [length].
  destruct ts as [|t' ts]; [done|]. pose proof (measured_zero (t' :: ts) ltac:(done)). lia.
Qed.

(** Schemas at whose positions there is no "format". *)
Inductive format_free : json -> Prop :=
| format_free_other v : (forall o, v <> JObj o) -> format_free v
| format_free_obj o :
    find_field o (lit "format") = None ->
    (forall ps p, find_field o (lit "properties") = Some (JObj ps) -> p ∈ ps -> format_free (snd p)) ->
    (forall o', find_field o (lit "items") = Some (JObj o') -> format_free (JObj o')) ->
    (forall k l v, k ∈ combinators -> find_field o k = Some (JArr l) -> v ∈ l -> format_free v) ->
    format_free (JObj o).

(** ** Lemmas on fields *)

Lemma find_remove o k k' : find_field (obj_remove_key o k) k' = if decide (k' = k) then None else find_field o k'.
Proof.
  unfold find_field, obj_remove_key. induction o as [|[k1 v] o IH]; [by destruct (decide _)|].
  destruct (decide (k1 = k)) as [->|Hk].
  - rewrite filter_cons_False by (cbn; tauto). rewrite IH. destruct (decide (k' = k)) as [->|Hk']; [done|].
    cbn [List.find fst]. by rewrite bool_decide_eq_false_2 by congruence.
  - rewrite filter_cons_True by done. cbn [List.find fst].
    destruct (bool_decide_reflect (k1 = k')) as [->|]; [by rewrite decide_False by done|]. apply IH.
Qed.

Lemma find_update o k f k' :
  find_field (update_field o k f) k' = if decide (k' = k) then f <$> find_field o k' else find_field o k'.
Proof.
  unfold find_field. induction o as [|[k1 v] o IH]; [by destruct (decide _)|]. cbn [update_field].
  destruct (decide (k1 = k)) as [->|Hk]; cbn [List.find fst snd].
  - destruct (bool_decide_reflect (k = k')) as [<-|]; [by rewrite decide_True by done|].
    destruct (decide (k' = k)) as [->|]; [done|]. done.
  - destruct (bool_decide_reflect (k1 = k')) as [<-|]; [by rewrite decide_False by done|]. exact IH.
Qed.

Lemma find_update_other o k f k' : k' <> k -> find_field (update_field o k f) k' = find_field o k'.
Proof. intros. rewrite find_update. by rewrite decide_False. Qed.

Lemma find_update_same o k f : find_field (update_field o k f) k = f <$> find_field o k.
Proof. rewrite find_update. by rewrite decide_True. Qed.

Lemma find_app o k v k' :
  find_field (o ++ [(k, v)]) k' =
    match find_field o k' with Some w => Some w | None => if decide (k' = k) then Some v else None end.
Proof.
  unfold find_field. induction o as [|[k1 w] o IH]; cbn [app List.find fst snd].
  - destruct (bool_decide_reflect (k = k')) as [->|]; [by rewrite decide_True|]. by rewrite decide_False by congruence.
  - destruct (bool_decide (k1 = k')); [done|]. exact IH.
Qed.

Lemma find_field_in o k v : find_field o k = Some v -> (k, v) ∈ o.
Proof.
  unfold find_field. destruct (List.find _ o) as [[k1 w]|] eqn:E; [|done]. intros [= <-].
  apply List.find_some in E as [Hi Ht]. cbn [fst] in Ht. apply bool_decide_eq_true in Ht as ->.
  by apply list_elem_of_In.
Qed.

Lemma max_in (l : list nat) n : n ∈ l -> n <= foldr Nat.max 0 l.
Proof. induction l as [|m l IH]; [by intros ?%not_elem_of_nil|]. cbn [foldr]. intros [-> | H%IH]%elem_of_cons; lia. Qed.

Lemma depth_arr l v : v ∈ l -> json_depth v < json_depth (JArr l).
Proof. intros Hi. cbn [json_depth]. apply Nat.lt_succ_r, max_in. by apply list_elem_of_fmap_2. Qed.

Lemma depth_obj o k v : (k, v) ∈ o -> json_depth v < json_depth (JObj o).
Proof. intros Hi. cbn [json_depth]. apply Nat.lt_succ_r, max_in. apply (list_elem_of_fmap_2 (fun f => json_depth (snd f)) _ _ Hi). Qed.

Ltac distinct_keys := apply (bool_decide_unpack _); vm_compute; exact I.

(** Fields that agree on the positions of schemas. *)
Lemma format_free_same o o' :
  (forall k, k ∈ [lit "format"; lit "properties"; lit "items"] ++ combinators -> find_field o' k = find_field o k) ->
  format_free (JObj o) -> format_free (JObj o').
Proof.
  intros Hs Hf. inversion Hf as [v Hv|o1 H1 H2 H3 H4]; subst; [by destruct (Hv o)|].
  apply format_free_obj.
  - rewrite Hs by distinct_keys. done.
  - intros ps p. rewrite Hs by distinct_keys. apply H2.
  - intros o''. rewrite Hs by distinct_keys. apply H3.
  - intros k l v Hk. rewrite Hs by (rewrite elem_of_app; by right). by apply H4.
Qed.

Lemma remove_format_free fuel : forall schema, json_depth schema <= fuel -> format_free (remove_format fuel schema).
Proof.
  induction fuel as [|fuel IH]; intros schema Hd.
  { change (remove_format 0 schema) with schema. apply format_free_other. intros o ->. cbn [json_depth] in Hd. lia. }
  destruct schema as [| | | | | |o]; try (apply format_free_other; done).
  cbn [remove_format]. set (fp := fun v => match v with JObj ps => _ | _ => v end).
  set (fi := fun v : json => match v with JObj _ => remove_format fuel v | _ => v end).
  set (fa := fun v => match v with JArr l => _ | _ => v end). unfold combinators. cbn [foldl].
  assert (forall k v w, find_field (obj_remove_key o (lit "format")) k = Some v -> w = v \/ json_depth w < json_depth v ->
    json_depth w <= fuel) as Hin.
  { intros k v w Hf Hw. rewrite find_remove in Hf. destruct (decide _); [done|].
    apply find_field_in, depth_obj in Hf. destruct Hw as [-> | Hw]; lia. }
  apply format_free_obj.
  - rewrite !find_update_other by distinct_keys. rewrite find_remove. by rewrite decide_True.
  - intros ps p. rewrite !find_update_other, find_update_same by distinct_keys.
    destruct (find_field _ (lit "properties")) as [v|] eqn:E; [|done]. intros [= Hv] Hp.
    unfold fp in Hv. destruct v; try done. injection Hv as <-. apply list_elem_of_fmap in Hp as ([k v] & -> & Hp).
    cbn [snd fst]. apply IH. eapply Hin; [exact E|]. right. by apply (depth_obj _ k).
  - intros o'. rewrite !find_update_other, find_update_same, find_update_other by distinct_keys.
    destruct (find_field _ (lit "items")) as [v|] eqn:E; [|done]. intros [= Hv].
    unfold fi in Hv. destruct v; try done. rewrite <- Hv. apply IH. eapply Hin; [exact E|]. by left.
  - intros k l v Hk Hl Hv.
    assert (exists w, find_field (obj_remove_key o (lit "format")) k = Some w /\ fa w = JArr l) as (w & Ew & Hw).
    { unfold combinators in Hk. rewrite !elem_of_cons in Hk. destruct Hk as [-> | [-> | [-> | []%elem_of_nil]]];
        rewrite ?find_update_same, ?find_update_other in Hl by distinct_keys;
        rewrite ?find_update_same, ?find_update_other in Hl by distinct_keys;
        destruct (find_field _ _) as [w|]; try done; injection Hl as Hl; by exists w. }
    unfold fa in Hw. destruct w; try done. injection Hw as <-. apply list_elem_of_fmap in Hv as (v' & -> & Hv).
    apply IH. eapply Hin; [exact Ew|]. right. by apply depth_arr.
Qed.

Lemma find_properties_kept fuel o :
  exists o', remove_format (S fuel) (JObj o) = JObj o' /\
    (forall ps, find_field o (lit "properties") = Some (JObj ps) ->
      exists ps', find_field o' (lit "properties") = Some (JObj ps') /\ fst <$> ps' = fst <$> ps).
Proof.
  cbn [remove_format]. eexists. split; [reflexivity|]. intros ps Hps. unfold combinators. cbn [foldl].
  rewrite !find_update_other, find_update_same, find_remove by distinct_keys.
  rewrite decide_False by distinct_keys. rewrite Hps. eexists. split; [reflexivity|].
  rewrite <- list_fmap_compose. by apply list_fmap_ext.
Qed.

Lemma required_listed o :
  format_free (JObj o) ->
  exists o', ensure_all_properties_required (JObj o) = JObj o' /\ format_free (JObj o') /\
    (forall ps, find_field o' (lit "properties") = Some (JObj ps) ->
       find_field o' (lit "required") = Some (JArr ((fun p => JStr (fst p)) <$> ps))) /\
    find_field o' (lit "properties") = find_field o (lit "properties").
Proof.
  intros Hf. cbn [ensure_all_properties_required].
  assert (forall v, find_field (obj_add_val (obj_remove_key o (lit "required")) (lit "required") v) (lit "properties")
                    = find_field o (lit "properties")) as Hp.
  { intros v. unfold obj_add_val. rewrite find_app, find_remove, (decide_False (P := lit "properties" = lit "required")) by distinct_keys.
    by destruct (find_field o (lit "properties")). }
  destruct (find_field o (lit "properties")) as [v|] eqn:E; cycle 1.
  { exists o. split_and!; try done. intros ps. by rewrite E. }
  destruct v as [| | | | | |ps]; try (exists o; split_and!; try done; intros ps; by rewrite E).
  eexists. split; [reflexivity|]. split; [|split; [|apply Hp]].
  - revert Hf. apply format_free_same. intros k Hk. unfold obj_add_val. rewrite find_app, find_remove.
    assert (k <> lit "required") as Hne.
    { intros ->. revert Hk. distinct_keys. }
    rewrite !decide_False by done. by destruct (find_field o k).
  - intros ps'. rewrite Hp. intros [= <-]. unfold obj_add_val. rewrite find_app, find_remove.
    rewrite !decide_True by done. reflexivity.
Qed.

(** ** Properties *)

Module OpenAIRequestProps.

(** the text of a message is written by two passes that disagree on empty
    texts.  When the first text is not empty, the content sent is the texts with
    blank lines between them; when all are empty, it is empty; but when the first
    one is empty and another is not, the second pass writes beyond the block the
    first one sized. *)
Theorem text_passes_disagree (msg : ik_message) :
  let ts := texts (content_blocks msg) in
  texts_ok (content_blocks msg) -> (Z.of_nat (length (joined ts)) < 2 ^ 64 - 1)%Z ->
  joined_text msg =
    if forallb (fun t => bool_decide (t = [])) ts then Ret None
    else match ts with
         | [] :: _ => Undef
         | _ => Ret (Some (joined ts))
         end.
Proof.
  intros ts Hok Hl. pose proof (measured_joined ts) as Hm. unfold joined_text. fold ts in Hm.
  rewrite length_pass by (done || (fold ts; lia)). fold ts. cbn [obind].
  destruct (forallb (fun t => bool_decide (t = [])) ts) eqn:Ee.
  { rewrite measured_all_empty; [done|]. apply Forall_forall. intros t Ht. rewrite forallb_forall in Ee.
    apply list_elem_of_In, Ee in Ht. by apply bool_decide_eq_true in Ht. }
  destruct (measured ts 0) as [|n] eqn:En.
  { apply measured_none in En as [_ Hf]. apply not_true_iff_false in Ee. exfalso. apply Ee, forallb_forall.
    intros t Ht. apply bool_decide_eq_true_2. rewrite Forall_forall in Hf. by apply Hf, list_elem_of_In. }
  cbn [Nat.eqb]. rewrite concat_first by done. fold ts. destruct ts as [|t ts'] eqn:Et; [done|]. rewrite length_replicate.
  cbn [joined] in Hl, Hm. cbv zeta. rewrite wrap64_small by lia. destruct t as [|b t].
  - cbn [app]. destruct ts' as [|t' ts']; [done|]. pose proof (measured_zero (t' :: ts') ltac:(done)) as H0.
    change (measured ([] :: t' :: ts') 0) with (measured (t' :: ts') 0) in En. rewrite En in H0.
    rewrite (proj2 (Nat.leb_gt _ _)) by lia. done.
  - cbn [measured Nat.ltb Nat.leb Nat.add] in En. rewrite measured_pos in En by (cbn; lia).
    rewrite (proj2 (Nat.leb_le _ _)) by (rewrite length_app; lia). cbn [obind].
    pose proof (joined_no_nul (content_blocks msg) Hok) as Hn. fold ts in Hn. rewrite Et in Hn. cbn [joined] in Hn.
    by rewrite c_string_app.
Qed.

(** tools are sent with schemas for strict mode.  A tool whose parameters are
    an object gets an object that ends with "additionalProperties": false, has no
    "format" at any position of a schema, and requires exactly the properties
    of the tool in their order; other parameters make the request fail. *)
Theorem tools_are_strict `{Yyjson} (tool : ik_tool_def) :
  match yyjson_read (tool_parameters tool) with
  | Some (JObj o0) =>
      exists o, strict_parameters tool = Some (JObj (o ++ [(lit "additionalProperties", JBool false)])) /\
        format_free (JObj (o ++ [(lit "additionalProperties", JBool false)])) /\
        (forall ps, find_field o0 (lit "properties") = Some (JObj ps) ->
           find_field o (lit "required") = Some (JArr (JStr <$> (fst <$> ps))))
  | _ => strict_parameters tool = None
  end.
Proof.
  unfold strict_parameters. destruct (yyjson_read _) as [params|]; [|done].
  destruct params as [| | | | | |o0]; try done.
  unfold remove_format_validators. pose proof (remove_format_free _ (JObj o0) (le_n _)) as Hf.
  cbn [json_depth] in *. set (d := foldr _ _ _) in *.
  destruct (find_properties_kept d o0) as (o1 & E1 & Hp1). rewrite E1 in *.
  destruct (required_listed o1 Hf) as (o2 & E2 & Hf2 & Hr2 & Hp2). rewrite E2.
  exists o2. split; [reflexivity|]. split.
  - revert Hf2. apply format_free_same. intros k Hk. rewrite find_app.
    assert (k <> lit "additionalProperties") as Hne by (intros ->; revert Hk; distinct_keys).
    rewrite decide_False by done. by destruct (find_field o2 k).
  - intros ps Hps. destruct (Hp1 ps Hps) as (ps' & Ep & Efst). rewrite (Hr2 ps') by (by rewrite Hp2).
    rewrite <- Efst, <- list_fmap_compose. reflexivity.
Qed.

End OpenAIRequestProps.

Module OpenAIRequestExamples.
Import OpenAIRequestProps.

Lemma text_passes_disagree_witness :
  joined_text (mk_message IK_ROLE_USER [IK_CONTENT_TEXT (Some []); IK_CONTENT_TEXT (Some (lit "hi"))] None false) = Undef /\
  joined_text (mk_message IK_ROLE_USER [IK_CONTENT_TEXT (Some (lit "hi")); IK_CONTENT_TEXT (Some [])] None false)
  = Ret (Some (lit "hi" ++ NEWLINES)).
Proof.
  split.
  - apply (text_passes_disagree (mk_message IK_ROLE_USER [IK_CONTENT_TEXT (Some []); IK_CONTENT_TEXT (Some (lit "hi"))] None false)).
    + repeat constructor; eexists; (split; [reflexivity|]); apply (bool_decide_unpack _); vm_compute; exact I.
    + cbn. lia.
  - apply (text_passes_disagree (mk_message IK_ROLE_USER [IK_CONTENT_TEXT (Some (lit "hi")); IK_CONTENT_TEXT (Some [])] None false)).
    + repeat constructor; eexists; (split; [reflexivity|]); apply (bool_decide_unpack _); vm_compute; exact I.
    + cbn. lia.
Defined.

(** A schema with a format to remove at every position. *)
Definition uri_schema : json :=
  JObj [(lit "type", JStr (lit "object"));
        (lit "properties", JObj [(lit "url", JObj [(lit "format", JStr (lit "uri"))]);
                                 (lit "tags", JObj [(lit "items", JObj [(lit "format", JStr (lit "x"))])])]);
        (lit "oneOf", JArr [JObj [(lit "format", JNull)]])].

Example uri_removed :
  remove_format_validators uri_schema =
  JObj [(lit "type", JStr (lit "object"));
        (lit "properties", JObj [(lit "url", JObj []); (lit "tags", JObj [(lit "items", JObj [])])]);
        (lit "oneOf", JArr [JObj []])].
Proof. vm_compute. reflexivity. Qed.

End OpenAIRequestExamples.
