(* ===== verification/AnthropicRequest.v ===== *)
(** * Anthropic requests (providers/anthropic/request.c, request_serialize.c, error.c)

    Messages, tools, thinking and the whole request as the JSON of the Messages
    API, and the category of an error response. *)

From Stdlib Require Import String.
From stdpp Require Import strings.
From S2P Require Import Prelude Slots CString Json RequestJson Conversation Provider Thinking.

Section request.
Context `{Yyjson}.

(** ** request_serialize.c *)

Definition serialize_text_block (o : fields) (text : option cstr) : option fields :=
  o ← put_str "type" (Some (lit "text")) o;
  put_str "text" text o.

(** A [NULL] or empty text is refused. *)
Definition not_empty (s : option cstr) : option cstr := match s with Some (c :: s) => Some (c :: s) | _ => None end.

Definition serialize_thinking_block (o : fields) (text signature : option cstr) : option fields :=
  o ← put_str "type" (Some (lit "thinking")) o;
  t ← not_empty text;
  o ← put_str "thinking" (Some t) o;
  match signature with Some s => put_str "signature" (Some s) o | None => Some o end.

Definition serialize_tool_call_block (o : fields) (id name arguments : option cstr) : option fields :=
  o ← put_str "type" (Some (lit "tool_use")) o;
  o ← put_str "id" id o;
  o ← put_str "name" name o;
  args ← yyjson_read (default (lit "{}") (not_empty arguments));
  Some (put_val "input" args o).

Definition serialize_tool_result_block (o : fields) (tool_call_id content : option cstr) (is_error : bool) : option fields :=
  o ← put_str "type" (Some (lit "tool_result")) o;
  o ← put_str "tool_use_id" tool_call_id o;
  o ← put_str "content" content o;
  Some (put_val "is_error" (JBool is_error) o).

Definition serialize_redacted_thinking_block (o : fields) (data : option cstr) : option fields :=
  o ← put_str "type" (Some (lit "redacted_thinking")) o;
  d ← not_empty data;
  put_str "data" (Some d) o.

Definition ik_anthropic_serialize_content_block (arr : list json) (block : ik_content_block) : option (list json) :=
  o ← match block with
      | IK_CONTENT_TEXT text => serialize_text_block [] text
      | IK_CONTENT_THINKING text signature => serialize_thinking_block [] text signature
      | IK_CONTENT_TOOL_CALL id name arguments _ => serialize_tool_call_block [] id name arguments
      | IK_CONTENT_TOOL_RESULT id content is_error => serialize_tool_result_block [] id content is_error
      | IK_CONTENT_REDACTED_THINKING data => serialize_redacted_thinking_block [] data
      end;
  Some (arr ++ [JObj o]).

Definition ik_anthropic_serialize_message_content (msg_obj : fields) (message : ik_message) : option fields :=
  match content_blocks message with
  | [IK_CONTENT_TEXT text] => put_str "content" text msg_obj
  | blocks => arr ← append_each ik_anthropic_serialize_content_block [] blocks; Some (put_val "content" (JArr arr) msg_obj)
  end.

Definition ik_anthropic_role_to_string (r : ik_role) : cstr :=
  match r with
  | IK_ROLE_USER => lit "user"
  | IK_ROLE_ASSISTANT => lit "assistant"
  | IK_ROLE_TOOL => lit "user"
  end.

(** One round of the loop over the messages. *)
Definition serialize_message (arr : list json) (m : ik_message) : option (list json) :=
  msg_obj ← put_str "role" (Some (ik_anthropic_role_to_string (role m))) [];
  msg_obj ← ik_anthropic_serialize_message_content msg_obj m;
  Some (arr ++ [JObj msg_obj]).

Definition ik_anthropic_serialize_messages (root : fields) (req : ik_request) : option fields :=
  arr ← append_each serialize_message [] (req_messages req);
  Some (put_val "messages" (JArr arr) root).

(** ** request.c *)

Definition calculate_max_tokens (req : ik_request) : Z :=
  let max_tokens := if (max_output_tokens req <=? 0)%Z then 4096%Z else max_output_tokens req in
  match fst (thinking req) with
  | IK_THINKING_MIN => max_tokens
  | level =>
      if Anthropic.ik_anthropic_is_adaptive_model (model req) then max_tokens
      else
        let budget := Anthropic.ik_anthropic_thinking_budget (model req) level in
        if (0 <? budget)%Z && (max_tokens <=? budget)%Z then (budget + 4096)%Z else max_tokens
  end.

Definition add_thinking_config (root : fields) (req : ik_request) : fields :=
  match fst (thinking req) with
  | IK_THINKING_MIN => root
  | level =>
      if Anthropic.ik_anthropic_is_adaptive_model (model req) then
        match Anthropic.ik_anthropic_thinking_effort (model req) level with
        | None => root
        | Some effort =>
            let root := put_val "thinking" (JObj (obj_add_str [] (lit "type") (Some (lit "adaptive")))) root in
            put_val "output_config" (JObj (obj_add_str [] (lit "effort") (Some effort))) root
        end
      else
        let budget := Anthropic.ik_anthropic_thinking_budget (model req) level in
        if (budget =? -1)%Z then root
        else
          let thinking_obj := obj_add_str [] (lit "type") (Some (lit "enabled")) in
          let thinking_obj := put_val "budget_tokens" (JInt budget) thinking_obj in
          put_val "thinking" (JObj thinking_obj) root
  end.

Definition serialize_tool (tools_arr : list json) (tool : ik_tool_def) : outcome (list json) :=
  let tool_obj := obj_add_str [] (lit "name") (Some (tool_name tool)) in
  let tool_obj := obj_add_str tool_obj (lit "description") (Some (tool_description tool)) in
  match yyjson_read (tool_parameters tool) with
  | None => Fail ERR_PARSE
  | Some params => Ret (tools_arr ++ [JObj (put_val "input_schema" params tool_obj)])
  end.

Fixpoint serialize_tools (tools_arr : list json) (ts : list ik_tool_def) : outcome (list json) :=
  match ts with
  | [] => Ret tools_arr
  | t :: ts => let! tools_arr := serialize_tool tools_arr t in serialize_tools tools_arr ts
  end.

Definition map_tool_choice_type (tool_choice_mode : Z) : cstr :=
  if (tool_choice_mode =? 1)%Z then lit "none"
  else if (tool_choice_mode =? 0)%Z then lit "auto"
  else if (tool_choice_mode =? 2)%Z then lit "any"
  else lit "auto".

Definition add_tool_choice (root : fields) (req : ik_request) : fields :=
  put_val "tool_choice" (JObj (obj_add_str [] (lit "type") (Some (map_tool_choice_type (fst (tool_choice req)))))) root.

Definition add_tools (root : fields) (req : ik_request) : outcome fields :=
  if (length (tools req) =? 0)%nat then Ret root
  else
    let! tools_arr := serialize_tools [] (tools req) in
    Ret (add_tool_choice (put_val "tools" (JArr tools_arr) root) req).

(** The fields of the request, before they are written. *)
Definition request_fields (model : cstr) (req : ik_request) (skip_output_fields : bool) : outcome fields :=
  let root := obj_add_str [] (lit "model") (Some model) in
  let root := if skip_output_fields then root
              else put_val "stream" (JBool true) (put_val "max_tokens" (JInt (calculate_max_tokens req)) root) in
  let root := match system_prompt req with Some p => obj_add_str root (lit "system") (Some p) | None => root end in
  match ik_anthropic_serialize_messages root req with
  | None => Fail ERR_PARSE
  | Some root => add_tools (add_thinking_config root req) req
  end.

Definition serialize_request_internal (req : ik_request) (skip_output_fields : bool) : outcome cstr :=
  match model req with
  | None => Fail ERR_INVALID_ARG
  | Some model =>
      let! root := request_fields model req skip_output_fields in
      or_panic (yyjson_write (JObj root))
  end.

Definition ik_anthropic_serialize_request_stream (req : ik_request) : outcome cstr :=
  serialize_request_internal req false.

Definition ik_anthropic_serialize_request_count_tokens (req : ik_request) : outcome cstr :=
  serialize_request_internal req true.

(** ** error.c *)

Definition anthropic_status_category (status : Z) : ik_error_category :=
  if (status =? 401)%Z || (status =? 403)%Z then IK_ERR_CAT_AUTH
  else if (status =? 429)%Z then IK_ERR_CAT_RATE_LIMIT
  else if (status =? 400)%Z then IK_ERR_CAT_INVALID_ARG
  else if (status =? 404)%Z then IK_ERR_CAT_NOT_FOUND
  else if (status =? 500)%Z || (status =? 529)%Z then IK_ERR_CAT_SERVER
  else IK_ERR_CAT_UNKNOWN.

(** The body is only read to be checked. *)
Definition ik_anthropic_handle_error (status : Z) (body : cstr) : ik_error_category * option err_code :=
  (anthropic_status_category status, match yyjson_read body with None => Some ERR_PARSE | Some _ => None end).

End request.

(** ** Reading a request back

    What the API finds in the messages of a request. *)

Section reader.
Context `{Yyjson}.

Definition read_block (v : json) : option ik_content_block :=
  match v with
  | JObj o =>
      let named k := match str o "type" with Some t => strcmp_eq t (lit k) | None => false end in
      if named "text" then Some (IK_CONTENT_TEXT (str o "text"))
      else if named "thinking" then Some (IK_CONTENT_THINKING (str o "thinking") (str o "signature"))
      else if named "tool_use" then
        input ← find_field o (lit "input");
        Some (IK_CONTENT_TOOL_CALL (str o "id") (str o "name") (yyjson_write input) None)
      else if named "tool_result" then
        Some (IK_CONTENT_TOOL_RESULT (str o "tool_use_id") (str o "content")
                (yyjson_get_bool (find_field o (lit "is_error"))))
      else if named "redacted_thinking" then Some (IK_CONTENT_REDACTED_THINKING (str o "data"))
      else None
  | _ => None
  end.

Definition read_message (v : json) : option (bool * list ik_content_block) :=
  match v with
  | JObj o =>
      r ← str o "role";
      blocks ← match find_field o (lit "content") with
               | Some (JStr s) => Some [IK_CONTENT_TEXT (Some (until_nul s))]
               | Some (JArr l) => mapM read_block l
               | _ => None
               end;
      Some (strcmp_eq r (lit "assistant"), blocks)
  | _ => None
  end.

Definition read_messages (v : option json) : option (list (bool * list ik_content_block)) :=
  match v with Some (JArr l) => mapM read_message l | _ => None end.

(** The arguments as the API sees them. *)
Definition sent_block (b : ik_content_block) : ik_content_block :=
  match b with
  | IK_CONTENT_TOOL_CALL id name arguments _ =>
      IK_CONTENT_TOOL_CALL id name (yyjson_read (default (lit "{}") (not_empty arguments)) ≫= yyjson_write) None
  | b => b
  end.

Definition from_assistant (m : ik_message) : bool := bool_decide (role m = IK_ROLE_ASSISTANT).

Definition sent_message (m : ik_message) : bool * list ik_content_block :=
  (from_assistant m, sent_block <$> content_blocks m).

(** Blocks that can be sent: texts are there, thinking is not empty, and the
    arguments of a call are JSON. *)
Definition sendable (b : ik_content_block) : Prop :=
  match b with
  | IK_CONTENT_TEXT text => c_text text
  | IK_CONTENT_THINKING text signature =>
      c_text text /\ text <> Some [] /\ (signature = None \/ c_text signature)
  | IK_CONTENT_TOOL_CALL id name arguments _ =>
      c_text id /\ c_text name /\ is_Some (yyjson_read (default (lit "{}") (not_empty arguments)))
  | IK_CONTENT_TOOL_RESULT id content _ => c_text id /\ c_text content
  | IK_CONTENT_REDACTED_THINKING data => c_text data /\ data <> Some []
  end.

End reader.

(** ** Lemmas *)

Section lemmas.
Context `{!Yyjson}.

Lemma not_empty_text s : c_text s -> s <> Some [] -> not_empty s = s.
Proof. intros (t & -> & _) Hne. by destruct t. Qed.

Lemma block_reads_back arr b :
  sendable b -> exists o, ik_anthropic_serialize_content_block arr b = Some (arr ++ [JObj o]) /\
    read_block (JObj o) = Some (sent_block b).
Proof.
  destruct b as [text|id nm args sg|id ct er|text sg|d]; cbn [sendable sent_block].
  - intros (t & -> & Ht). eexists. split; [reflexivity|].
    change (read_block _) with (Some (IK_CONTENT_TEXT (Some (until_nul t)))). by rewrite until_nul_id.
  - intros ((i & -> & Hi) & (n & -> & Hn) & [j Hj]). unfold ik_anthropic_serialize_content_block, serialize_tool_call_block.
    rewrite Hj. eexists. split; [reflexivity|].
    change (read_block _) with (Some (IK_CONTENT_TOOL_CALL (Some (until_nul i)) (Some (until_nul n)) (yyjson_write j) None)).
    by rewrite !until_nul_id.
  - intros ((i & -> & Hi) & (c & -> & Hc)). eexists. split; [reflexivity|].
    change (read_block _) with (Some (IK_CONTENT_TOOL_RESULT (Some (until_nul i)) (Some (until_nul c)) er)).
    by rewrite !until_nul_id.
  - intros (Ht & Hne & Hs). pose proof (not_empty_text _ Ht Hne) as E. destruct Ht as (t & -> & Ht).
    unfold ik_anthropic_serialize_content_block, serialize_thinking_block. rewrite E.
    destruct Hs as [-> | (s & -> & Hs)]; (eexists; split; [reflexivity|]).
    + change (read_block _) with (Some (IK_CONTENT_THINKING (Some (until_nul t)) None)). by rewrite until_nul_id.
    + change (read_block _) with (Some (IK_CONTENT_THINKING (Some (until_nul t)) (Some (until_nul s)))).
      by rewrite !until_nul_id.
  - intros (Ht & Hne). pose proof (not_empty_text _ Ht Hne) as E. destruct Ht as (t & -> & Ht).
    unfold ik_anthropic_serialize_content_block, serialize_redacted_thinking_block. rewrite E. eexists. split; [reflexivity|].
    change (read_block _) with (Some (IK_CONTENT_REDACTED_THINKING (Some (until_nul t)))). by rewrite until_nul_id.
Qed.

Lemma blocks_read_back blocks : Forall sendable blocks -> forall arr,
  exists l, append_each ik_anthropic_serialize_content_block arr blocks = Some (arr ++ l) /\
            mapM read_block l = Some (sent_block <$> blocks).
Proof.
  intros Hs. apply append_each_read_back. eapply Forall_impl; [exact Hs|]. intros b Hb arr. cbv beta.
  destruct (block_reads_back arr b Hb) as (o & E & Er). by exists (JObj o).
Qed.

Lemma message_reads_back m :
  Forall sendable (content_blocks m) -> exists o0 o,
    put_str "role" (Some (ik_anthropic_role_to_string (role m))) [] = Some o0 /\
    ik_anthropic_serialize_message_content o0 m = Some o /\ read_message (JObj o) = Some (sent_message m).
Proof.
  intros Hm. exists [(lit "role", JStr (ik_anthropic_role_to_string (role m)))].
  assert (forall v, find_field [(lit "role", JStr (ik_anthropic_role_to_string (role m))); (lit "content", v)] (lit "content") = Some v) as Hc
    by reflexivity.
  assert (forall v, str [(lit "role", JStr (ik_anthropic_role_to_string (role m))); (lit "content", v)] "role"
                    = Some (ik_anthropic_role_to_string (role m))) as Hr.
  { intros v. change (Some (until_nul (ik_anthropic_role_to_string (role m))) = Some (ik_anthropic_role_to_string (role m))).
    by destruct (role m). }
  assert (strcmp_eq (ik_anthropic_role_to_string (role m)) (lit "assistant") = from_assistant m) as Hf
    by (unfold from_assistant; by destruct (role m)).
  assert ((exists text, content_blocks m = [IK_CONTENT_TEXT text]) \/
    forall o, ik_anthropic_serialize_message_content o m =
      (arr ← append_each ik_anthropic_serialize_content_block [] (content_blocks m); Some (put_val "content" (JArr arr) o))) as [(text & Et)|Hn].
  { unfold ik_anthropic_serialize_message_content. destruct (content_blocks m) as [|b [|b' bs]]; [by right| |by right; destruct b].
    destruct b; [left; by eexists|by right..]. }
  - unfold ik_anthropic_serialize_message_content, sent_message. rewrite Et in *.
    apply Forall_singleton in Hm as (t & -> & Hz). eexists. split; [reflexivity|]. split; [reflexivity|].
    unfold read_message. cbn [app]. rewrite Hr, Hc. cbn [mbind option_bind]. rewrite Hf. cbn [fmap list_fmap sent_block].
    by rewrite until_nul_id.
  - destruct (blocks_read_back _ Hm []) as (l & El & Ml). cbn [app] in El.
    rewrite Hn, El.
    eexists. split; [reflexivity|]. split; [reflexivity|].
    unfold read_message, put_val, obj_add_val. cbn [app]. rewrite Hr, Hc. cbn [mbind option_bind]. rewrite Ml. cbn [mbind option_bind]. by rewrite Hf.
Qed.

Lemma messages_read_back ms : Forall (fun m => Forall sendable (content_blocks m)) ms -> forall arr,
  exists l, append_each serialize_message arr ms = Some (arr ++ l) /\ mapM read_message l = Some (sent_message <$> ms).
Proof.
  intros Hs. apply append_each_read_back. eapply Forall_impl; [exact Hs|]. intros m Hm arr. cbv beta.
  destruct (message_reads_back m Hm) as (o0 & o & E0 & E & Er). exists (JObj o). split; [|exact Er].
  unfold serialize_message. rewrite E0. cbn [mbind option_bind]. by rewrite E.
Qed.

Lemma tools_serialize ts : Forall (fun t => is_Some (yyjson_read (tool_parameters t))) ts -> forall arr,
  exists l, serialize_tools arr ts = Ret (arr ++ l).
Proof.
  induction 1 as [|t ts [j Hj] _ IH]; intros arr; cbn [serialize_tools]; [exists []; by rewrite app_nil_r|].
  unfold serialize_tool. rewrite Hj. cbn [obind]. destruct (IH (arr ++ [JObj (put_val "input_schema" j
    (obj_add_str (obj_add_str [] (lit "name") (Some (tool_name t))) (lit "description") (Some (tool_description t))))])) as (l & ->).
  eexists. by rewrite <- app_assoc.
Qed.

Definition head_fields (mdl : cstr) (req : ik_request) (skip : bool) : fields :=
  [(lit "model", JStr mdl)]
  ++ (if skip then [] else [(lit "max_tokens", JInt (calculate_max_tokens req)); (lit "stream", JBool true)])
  ++ match system_prompt req with Some p => [(lit "system", JStr p)] | None => [] end.

(** What thinking adds. *)
Definition thinking_fields (req : ik_request) : fields := add_thinking_config [] req.

Lemma add_thinking_app root req : add_thinking_config root req = root ++ thinking_fields req.
Proof.
  unfold thinking_fields, add_thinking_config, put_val, obj_add_val.
  destruct (fst (thinking req)); [by rewrite app_nil_r|..];
    (destruct (Anthropic.ik_anthropic_is_adaptive_model _);
      [destruct (Anthropic.ik_anthropic_thinking_effort _ _); [by rewrite <- app_assoc|by rewrite app_nil_r]
      |destruct (_ =? -1)%Z; [by rewrite app_nil_r|done]]).
Qed.

Lemma add_tools_app root req :
  (exists y, add_tools root req = Ret (root ++ y) /\ Forall (fun f => fst f = lit "tools" \/ fst f = lit "tool_choice") y) \/
  add_tools root req = Fail ERR_PARSE.
Proof.
  unfold add_tools. destruct (length (tools req) =? 0)%nat; [left; exists []; by rewrite app_nil_r|].
  assert (forall ts arr, (exists l, serialize_tools arr ts = Ret l) \/ serialize_tools arr ts = Fail ERR_PARSE) as Ht.
  { induction ts as [|t ts IH]; intros arr; cbn [serialize_tools]; [left; by eexists|].
    unfold serialize_tool. destruct (yyjson_read _); cbn [obind]; [apply IH|by right]. }
  destruct (Ht (tools req) []) as [(l & ->) | ->]; [|by right]. left. cbn [obind]. eexists. split.
  - unfold add_tool_choice, put_val, obj_add_val. by rewrite <- app_assoc.
  - apply Forall_cons. split; [by left|]. apply Forall_cons. split; [by right|constructor].
Qed.

(** The shape of a request. *)
Lemma request_shape mdl req skip root :
  request_fields mdl req skip = Ret root ->
  exists l y, append_each serialize_message [] (req_messages req) = Some l /\
    root = head_fields mdl req skip ++ [(lit "messages", JArr l)] ++ thinking_fields req ++ y /\
    Forall (fun f => fst f = lit "tools" \/ fst f = lit "tool_choice") y.
Proof.
  unfold request_fields, ik_anthropic_serialize_messages.
  destruct (append_each serialize_message [] (req_messages req)) as [l|]; [|done]. cbn [mbind option_bind].
  rewrite add_thinking_app. intros E. destruct (add_tools_app (put_val "messages" (JArr l)
    (match system_prompt req with
     | Some p => obj_add_str (if skip then obj_add_str [] (lit "model") (Some mdl)
         else put_val "stream" (JBool true) (put_val "max_tokens" (JInt (calculate_max_tokens req)) (obj_add_str [] (lit "model") (Some mdl))))
         (lit "system") (Some p)
     | None => if skip then obj_add_str [] (lit "model") (Some mdl)
         else put_val "stream" (JBool true) (put_val "max_tokens" (JInt (calculate_max_tokens req)) (obj_add_str [] (lit "model") (Some mdl)))
     end) ++ thinking_fields req) req) as [(y & Ey & Hy)|Ey]; [|by rewrite Ey in E].
  rewrite Ey in E. injection E as <-. exists l, y. split; [done|]. split; [|done].
  rewrite <- app_assoc. unfold head_fields, put_val, obj_add_val, obj_add_str.
  destruct skip, (system_prompt req); cbn [app]; by rewrite <- ?app_assoc.
Qed.

Lemma head_without mdl req skip k :
  forallb (fun n => negb (bool_decide (lit n = k))) ["model"; "max_tokens"; "stream"; "system"]%string = true ->
  forallb (fun f => negb (bool_decide (fst f = k))) (head_fields mdl req skip) = true.
Proof.
  cbn [forallb]. rewrite !andb_true_iff. intros (H1 & H2 & H3 & H4 & _). unfold head_fields.
  rewrite !forallb_app, !andb_true_iff. cbn [forallb fst]. rewrite H1.
  split_and!; [done|destruct skip; cbn [forallb fst]; [done|by rewrite H2, H3]|destruct (system_prompt req); cbn [forallb fst]; [by rewrite H4|done]].
Qed.

Lemma find_messages mdl req skip l rest :
  find_field (head_fields mdl req skip ++ [(lit "messages", JArr l)] ++ rest) (lit "messages") = Some (JArr l).
Proof. rewrite find_absent by (apply head_without; vm_compute; reflexivity). reflexivity. Qed.

End lemmas.

Module AnthropicRequestProps.

Section props.
Context `{!Yyjson} `{!YyjsonSpec}.

(** C9: the API reads the conversation that was sent.  When every block can be
    sent, the tools' parameters are JSON and the request's strings are UTF-8,
    the text written is JSON from which the messages are read back in order: the
    assistant's and the others', with their texts, thinking, tool calls (their
    arguments as a JSON value) and results. *)
Theorem conversation_reads_back (mdl : cstr) (req : ik_request) :
  model req = Some mdl -> Forall (fun m => Forall sendable (content_blocks m)) (req_messages req) ->
  Forall (fun t => is_Some (yyjson_read (tool_parameters t))) (tools req) ->
  (forall root, request_fields mdl req false = Ret root -> writable (JObj root)) ->
  exists js root, ik_anthropic_serialize_request_stream req = Ret js /\ yyjson_read js = Some (JObj root) /\
    read_messages (find_field root (lit "messages")) = Some (sent_message <$> req_messages req).
Proof.
  intros Hm Hs Ht Hw. destruct (messages_read_back _ Hs []) as (l & El & Ml). cbn [app] in El.
  assert (exists root, request_fields mdl req false = Ret root) as [root Er].
  { unfold request_fields, ik_anthropic_serialize_messages. rewrite El. cbn [mbind option_bind]. unfold add_tools.
    destruct (length (tools req) =? 0)%nat; [by eexists|]. destruct (tools_serialize _ Ht []) as (tl & ->). by eexists. }
  destruct (request_shape _ _ _ _ Er) as (l' & y & El' & Eroot & _). rewrite El in El'. injection El' as <-.
  destruct (write_some _ (Hw root Er)) as [js Ejs]. exists js, root.
  unfold ik_anthropic_serialize_request_stream, serialize_request_internal. rewrite Hm, Er. cbn [obind]. rewrite Ejs.
  split; [done|]. split; [by apply write_read|]. rewrite Eroot, find_messages. exact Ml.
Qed.

(** C19: a thinking budget is always below the limit of the answer.  In every
    request with a budget of thinking tokens, the budget is at least 1024 and
    "max_tokens" is a positive 32-bit integer above it, whatever limit the
    request asks for. *)
Theorem budget_below_max_tokens (mdl : cstr) (req : ik_request) (root t : fields) (b : Z) :
  (max_output_tokens req < 2 ^ 31)%Z -> request_fields mdl req false = Ret root ->
  find_field root (lit "thinking") = Some (JObj t) -> find_field t (lit "budget_tokens") = Some (JInt b) ->
  exists max_tokens, find_field root (lit "max_tokens") = Some (JInt max_tokens) /\
    (1024 <= b < max_tokens)%Z /\ (max_tokens < 2 ^ 31)%Z.
Proof.
  intros Hmax Er Ht Hb. destruct (request_shape _ _ _ _ Er) as (l & y & _ & -> & Hy).
  exists (calculate_max_tokens req). split; [reflexivity|].
  rewrite find_absent in Ht by (apply head_without; vm_compute; reflexivity).
  change (find_field ([(lit "messages", JArr l)] ++ thinking_fields req ++ y) (lit "thinking"))
    with (find_field (thinking_fields req ++ y) (lit "thinking")) in Ht.
  assert (find_field y (lit "thinking") = None) as Hnone.
  { unfold find_field. clear -Hy. induction Hy as [|[k v] y Hk _ IH]; [done|]. cbn [List.find fst].
    rewrite bool_decide_eq_false_2; [done|]. cbn [fst] in Hk. destruct Hk as [-> | ->]; by vm_compute. }
  unfold thinking_fields, add_thinking_config, calculate_max_tokens, put_val, obj_add_val in *.
  destruct (fst (thinking req)) eqn:El; [by rewrite app_nil_l, Hnone in Ht|..];
    (destruct (Anthropic.ik_anthropic_is_adaptive_model (model req));
      [destruct (Anthropic.ik_anthropic_thinking_effort _ _);
         [injection Ht as <-; done|by rewrite app_nil_l, Hnone in Ht]|]);
    match goal with |- context [Anthropic.ik_anthropic_thinking_budget (model req) ?lv] =>
      pose proof (anthropic_grows (model req) lv lv (le_n _)) as [_ Hr];
      destruct (Z.eqb_spec (Anthropic.ik_anthropic_thinking_budget (model req) lv) (-1)) as [|Hne];
        [by rewrite app_nil_l, Hnone in Ht|];
      injection Ht as <-; injection Hb as <-;
      destruct (Anthropic.ik_anthropic_supports_thinking (model req)); [|done];
      set (bu := Anthropic.ik_anthropic_thinking_budget (model req) lv) in *
    end;
    (destruct (Z.leb_spec (max_output_tokens req) 0));
    destruct (Z.ltb_spec 0 bu); cbn [andb]; try lia;
    match goal with |- context [if ?c then _ else _] => destruct c eqn:Ec end; lia.
Qed.

End props.
End AnthropicRequestProps.

Module AnthropicRequestExamples.
Import CodedJson AnthropicRequestProps.

(** A question, the assistant's call and its result. *)
Definition asked : ik_request :=
  mk_request (Some (lit "be brief"))
    [mk_message IK_ROLE_USER [IK_CONTENT_TEXT (Some (lit "list"))] None false;
     mk_message IK_ROLE_ASSISTANT
       [IK_CONTENT_THINKING (Some (lit "hm")) None; IK_CONTENT_TOOL_CALL (Some (lit "t1")) (Some (lit "ls")) (Some []) None] None false;
     mk_message IK_ROLE_TOOL [IK_CONTENT_TOOL_RESULT (Some (lit "t1")) (Some (lit "a b")) false] None false]
    (Some (lit "claude-haiku-4-5")) (IK_THINKING_HIGH, false) [mk_tool (lit "ls") (lit "lists") (lit "{}") true] 100 (0%Z, None).

Lemma asked_fields :
  request_fields (lit "claude-haiku-4-5") asked false = Ret
    [(lit "model", JStr (lit "claude-haiku-4-5")); (lit "max_tokens", JInt 36864); (lit "stream", JBool true);
     (lit "system", JStr (lit "be brief"));
     (lit "messages", JArr
       [JObj [(lit "role", JStr (lit "user")); (lit "content", JStr (lit "list"))];
        JObj [(lit "role", JStr (lit "assistant")); (lit "content", JArr
          [JObj [(lit "type", JStr (lit "thinking")); (lit "thinking", JStr (lit "hm"))];
           JObj [(lit "type", JStr (lit "tool_use")); (lit "id", JStr (lit "t1")); (lit "name", JStr (lit "ls"));
                 (lit "input", JObj [])]])];
        JObj [(lit "role", JStr (lit "user")); (lit "content", JArr
          [JObj [(lit "type", JStr (lit "tool_result")); (lit "tool_use_id", JStr (lit "t1"));
                 (lit "content", JStr (lit "a b")); (lit "is_error", JBool false)]])]]);
     (lit "thinking", JObj [(lit "type", JStr (lit "enabled")); (lit "budget_tokens", JInt 32768)]);
     (lit "tools", JArr [JObj [(lit "name", JStr (lit "ls")); (lit "description", JStr (lit "lists"));
                               (lit "input_schema", JObj [])]]);
     (lit "tool_choice", JObj [(lit "type", JStr (lit "auto"))])].
Proof. vm_compute. reflexivity. Qed.

Lemma conversation_reads_back_witness :
  exists js root, ik_anthropic_serialize_request_stream asked = Ret js /\ yyjson_read js = Some (JObj root) /\
    read_messages (find_field root (lit "messages")) =
      Some [(false, [IK_CONTENT_TEXT (Some (lit "list"))]);
            (true, [IK_CONTENT_THINKING (Some (lit "hm")) None;
                    IK_CONTENT_TOOL_CALL (Some (lit "t1")) (Some (lit "ls")) (yyjson_write (JObj [])) None]);
            (false, [IK_CONTENT_TOOL_RESULT (Some (lit "t1")) (Some (lit "a b")) false])].
Proof.
  destruct (conversation_reads_back (lit "claude-haiku-4-5") asked) as (js & root & E1 & E2 & E3).
  - reflexivity.
  - unfold asked. cbn [req_messages]. repeat (apply Forall_cons; split); try apply Forall_nil; cbn [content_blocks];
      repeat (apply Forall_cons; split); try apply Forall_nil; cbn [sendable]; repeat split; try closed_text; try done.
    by left.
  - unfold asked. cbn [tools]. apply Forall_singleton. by eexists.
  - intros root E. rewrite asked_fields in E. injection E as <-. closed_writable.
  - exists js, root. split; [exact E1|]. split; [exact E2|]. rewrite E3. reflexivity.
Defined.

Lemma budget_below_max_tokens_witness :
  exists max_tokens, (1024 <= 32768 < max_tokens)%Z /\ (max_tokens < 2 ^ 31)%Z.
Proof.
  destruct (budget_below_max_tokens (lit "claude-haiku-4-5") asked _
              [(lit "type", JStr (lit "enabled")); (lit "budget_tokens", JInt 32768)] 32768 ltac:(cbn; lia) asked_fields)
    as (mt & _ & H1 & H2); [vm_compute; reflexivity|vm_compute; reflexivity|].
  by exists mt.
Defined.

End AnthropicRequestExamples.
