(* ===== verification/GoogleRequest.v ===== *)
(** * Google requests (providers/google/request.c, request_helpers.c)

    Contents, tools and the generation settings as the JSON of the Gemini API,
    and its URL and headers.  A helper's [false] is [Fail ERR_PARSE], the error
    ik_google_serialize_request turns it into. *)

From Stdlib Require Import String.
From stdpp Require Import strings.
From S2P Require Import Prelude Slots CString Json RequestJson Conversation Thinking.

Section request.
Context `{Yyjson}.

(** ** request_helpers.c *)

Definition put_field (k : string) (s : option cstr) (o : fields) : outcome fields :=
  match put_str k s o with Some o => Ret o | None => Fail ERR_PARSE end.

Definition ik_google_role_to_string (r : ik_role) (model : option cstr) : cstr :=
  match r with
  | IK_ROLE_USER => lit "user"
  | IK_ROLE_ASSISTANT => lit "model"
  | IK_ROLE_TOOL =>
      match Google.ik_google_model_series model with Google.IK_GEMINI_3 => lit "user" | _ => lit "function" end
  end.

(** The inner loop: the name of the first call of the message with the id. *)
Fixpoint find_in_blocks (blocks : list ik_content_block) (tool_call_id : option cstr) : outcome (option (option cstr)) :=
  match blocks with
  | [] => Ret None
  | IK_CONTENT_TOOL_CALL id name _ _ :: blocks =>
      match id, tool_call_id with
      | Some i, Some t => if strcmp_eq i t then Ret (Some name) else find_in_blocks blocks tool_call_id
      | _, _ => Undef
      end
  | _ :: blocks => find_in_blocks blocks tool_call_id
  end.

Fixpoint find_in_messages (messages : list ik_message) (tool_call_id : option cstr) : outcome (option cstr) :=
  match messages with
  | [] => Ret None
  | msg :: messages =>
      let! found := find_in_blocks (content_blocks msg) tool_call_id in
      match found with Some name => Ret name | None => find_in_messages messages tool_call_id end
  end.

Definition find_function_name_for_tool_call (messages : list ik_message) (current_idx : nat) (tool_call_id : option cstr)
  : outcome (option cstr) := find_in_messages (take current_idx messages) tool_call_id.

Definition ik_google_serialize_content_block (arr : list json) (block : ik_content_block) (model : option cstr)
    (messages : list ik_message) (current_msg_idx : nat) : outcome (list json) :=
  let! obj := match block with
    | IK_CONTENT_TEXT text => put_field "text" text []
    | IK_CONTENT_THINKING text _ =>
        let! obj := put_field "text" text [] in Ret (put_val "thought" (JBool true) obj)
    | IK_CONTENT_TOOL_CALL _ name arguments thought_signature =>
        let! obj := match thought_signature, Google.ik_google_model_series model with
                    | Some s, Google.IK_GEMINI_3 => put_field "thoughtSignature" (Some s) []
                    | _, _ => Ret []
                    end in
        let! func_obj := put_field "name" name [] in
        match arguments with
        | None => Undef
        | Some a =>
            match yyjson_read a with
            | None => Fail ERR_PARSE
            | Some args => Ret (put_val "functionCall" (JObj (put_val "args" args func_obj)) obj)
            end
        end
    | IK_CONTENT_TOOL_RESULT tool_call_id content _ =>
        let! func_name := find_function_name_for_tool_call messages current_msg_idx tool_call_id in
        let name_to_use := match func_name with Some n => Some n | None => tool_call_id end in
        let! func_resp := put_field "name" name_to_use [] in
        let! response_obj := put_field "content" content [] in
        Ret (put_val "functionResponse" (JObj (put_val "response" (JObj response_obj) func_resp)) [])
    | IK_CONTENT_REDACTED_THINKING _ => Fail ERR_PARSE
    end in
  Ret (arr ++ [JObj obj]).

Definition ik_google_extract_thought_signature (metadata : option cstr) : option cstr :=
  match metadata with
  | None | Some [] => None
  | Some text =>
      root ← yyjson_read text;
      match yyjson_get_str (yyjson_obj_get (Some root) (lit "thought_signature")) with
      | None | Some [] => None
      | Some sig => Some sig
      end
  end.

(** The loop from the last of the first [i] messages. *)
Fixpoint latest_signature (messages : list ik_message) (i : nat) : option cstr :=
  match i with
  | 0 => None
  | S i =>
      let msg := messages !!! i in
      if bool_decide (role msg = IK_ROLE_ASSISTANT) then
        match ik_google_extract_thought_signature (provider_metadata msg) with
        | Some sig => Some sig
        | None => latest_signature messages i
        end
      else latest_signature messages i
  end.

Definition ik_google_find_latest_thought_signature (req : ik_request) : option cstr :=
  match Google.ik_google_model_series (model req) with
  | Google.IK_GEMINI_3 => latest_signature (req_messages req) (length (req_messages req))
  | _ => None
  end.

Fixpoint parts_loop (arr : list json) (blocks : list ik_content_block) (model : option cstr) (messages : list ik_message)
    (current_msg_idx : nat) : outcome (list json) :=
  match blocks with
  | [] => Ret arr
  | b :: blocks =>
      let! arr := ik_google_serialize_content_block arr b model messages current_msg_idx in
      parts_loop arr blocks model messages current_msg_idx
  end.

Definition ik_google_serialize_message_parts (content_obj : fields) (message : ik_message) (thought_sig : option cstr)
    (is_first_assistant : bool) (model : option cstr) (messages : list ik_message) (current_msg_idx : nat)
  : outcome fields :=
  let parts_arr := match thought_sig with
                   | Some sig => if is_first_assistant then [JObj (obj_add_str [] (lit "thoughtSignature") (Some sig))] else []
                   | None => []
                   end in
  let! parts_arr := parts_loop parts_arr (content_blocks message) model messages current_msg_idx in
  Ret (put_val "parts" (JArr parts_arr) content_obj).

(** ** request.c *)

Definition serialize_system_instruction (root : fields) (req : ik_request) : fields :=
  match system_prompt req with
  | None | Some [] => root
  | Some p => put_val "systemInstruction" (JObj [(lit "parts", JArr [JObj (obj_add_str [] (lit "text") (Some p))])]) root
  end.

Definition is_assistant (m : ik_message) : bool := bool_decide (role m = IK_ROLE_ASSISTANT).

(** The loop over the messages from index [i]. *)
Fixpoint contents_loop (contents_arr : list json) (seen_assistant : bool) (i : nat) (rest : list ik_message)
    (req : ik_request) (thought_sig : option cstr) : outcome (list json) :=
  match rest with
  | [] => Ret contents_arr
  | msg :: rest =>
      let! content_obj := put_field "role" (Some (ik_google_role_to_string (role msg) (model req))) [] in
      let is_first_assistant := is_assistant msg && negb seen_assistant in
      let! content_obj := ik_google_serialize_message_parts content_obj msg thought_sig is_first_assistant (model req)
                            (req_messages req) i in
      contents_loop (contents_arr ++ [JObj content_obj]) (is_assistant msg || seen_assistant) (S i) rest req thought_sig
  end.

Definition serialize_contents (root : fields) (req : ik_request) (thought_sig : option cstr) : outcome fields :=
  let! contents_arr := contents_loop [] false 0 (req_messages req) req thought_sig in
  Ret (put_val "contents" (JArr contents_arr) root).

(** Removing a key of a value that is no object does nothing. *)
Definition remove_additional (params : json) : json :=
  match params with JObj o => JObj (obj_remove_key o (lit "additionalProperties")) | v => v end.

Definition serialize_tool (func_decls_arr : list json) (tool : ik_tool_def) : option (list json) :=
  func_obj ← put_str "name" (Some (tool_name tool)) [];
  func_obj ← put_str "description" (Some (tool_description tool)) func_obj;
  params ← yyjson_read (tool_parameters tool);
  Some (func_decls_arr ++ [JObj (put_val "parameters" (remove_additional params) func_obj)]).

Definition serialize_tools (root : fields) (req : ik_request) : outcome fields :=
  if (length (tools req) =? 0)%nat then Ret root
  else
    match append_each serialize_tool [] (tools req) with
    | None => Fail ERR_PARSE
    | Some func_decls_arr =>
        Ret (put_val "tools" (JArr [JObj (put_val "functionDeclarations" (JArr func_decls_arr) [])]) root)
    end.

Definition tool_mode (tool_choice_mode : Z) : cstr :=
  if (tool_choice_mode =? 0)%Z then lit "AUTO"
  else if (tool_choice_mode =? 1)%Z then lit "NONE"
  else if (tool_choice_mode =? 2)%Z then lit "ANY"
  else lit "AUTO".

Definition serialize_tool_config (root : fields) (req : ik_request) : fields :=
  if (length (tools req) =? 0)%nat then root
  else
    let func_config := obj_add_str [] (lit "mode") (Some (tool_mode (fst (tool_choice req)))) in
    put_val "toolConfig" (JObj (put_val "functionCallingConfig" (JObj func_config) [])) root.

Definition serialize_generation_config (root : fields) (req : ik_request) : fields :=
  let need_max_tokens := (0 <? max_output_tokens req)%Z in
  let series := Google.ik_google_model_series (model req) in
  let level := fst (thinking req) in
  let need_thinking := match series with
                       | Google.IK_GEMINI_3 => true
                       | _ => match level with IK_THINKING_MIN => false | _ => Google.ik_google_supports_thinking (model req) end
                       end in
  if negb need_max_tokens && negb need_thinking then root
  else
    let gen_config := if need_max_tokens then put_val "maxOutputTokens" (JInt (max_output_tokens req)) [] else [] in
    let gen_config :=
      if need_thinking then
        let thinking_config := put_val "includeThoughts" (JBool true) [] in
        let thinking_config :=
          match series with
          | Google.IK_GEMINI_2_5 =>
              let budget := Google.ik_google_thinking_budget (model req) level in
              if (0 <=? budget)%Z then put_val "thinkingBudget" (JInt budget) thinking_config else thinking_config
          | Google.IK_GEMINI_3 =>
              obj_add_str thinking_config (lit "thinkingLevel") (Some (Google.ik_google_thinking_level_str (model req) level))
          | Google.IK_GEMINI_OTHER => thinking_config
          end in
        put_val "thinkingConfig" (JObj thinking_config) gen_config
      else gen_config in
    put_val "generationConfig" (JObj gen_config) root.

(** The components, in order. *)
Definition google_fields (req : ik_request) : outcome fields :=
  let thought_sig := ik_google_find_latest_thought_signature req in
  let root := serialize_system_instruction [] req in
  let! root := serialize_contents root req thought_sig in
  let! root := serialize_tools root req in
  Ret (serialize_generation_config (serialize_tool_config root req) req).

Definition ik_google_serialize_request (req : ik_request) : outcome cstr :=
  match model req with
  | None => Fail ERR_INVALID_ARG
  | Some _ =>
      let! root := google_fields req in
      match yyjson_write (JObj root) with Some js => Ret js | None => Fail ERR_PARSE end
  end.

Definition ik_google_build_url (base_url model api_key : cstr) (streaming : bool) : cstr :=
  let method := if streaming then lit "streamGenerateContent" else lit "generateContent" in
  let alt_param := if streaming then lit "&alt=sse" else [] in
  base_url ++ lit "/models/" ++ model ++ lit ":" ++ method ++ lit "?key=" ++ api_key ++ alt_param.

Definition ik_google_build_headers (streaming : bool) : list cstr :=
  lit "Content-Type: application/json" :: (if streaming then [lit "Accept: text/event-stream"] else []).

End request.

(** ** Reading a request back

    What the API finds in the contents of a request. *)

Inductive gemini_part : Type :=
| PText (text : option cstr)
| PThought (text : option cstr)
| PCall (signature name : option cstr) (args : option json)
| PResult (name content : option cstr)
| PSignature (signature : option cstr).

Section reader.
Context `{Yyjson}.

Definition read_part (v : json) : option gemini_part :=
  match v with
  | JObj o =>
      match find_field o (lit "functionCall"), find_field o (lit "functionResponse"), find_field o (lit "text") with
      | Some (JObj f), _, _ => Some (PCall (str o "thoughtSignature") (str f "name") (find_field f (lit "args")))
      | None, Some (JObj f), _ =>
          Some (PResult (str f "name") (r ← find_field f (lit "response"); yyjson_get_str (yyjson_obj_get (Some r) (lit "content"))))
      | None, None, Some _ =>
          Some (if yyjson_get_bool (find_field o (lit "thought")) then PThought (str o "text") else PText (str o "text"))
      | None, None, None => Some (PSignature (str o "thoughtSignature"))
      | _, _, _ => None
      end
  | _ => None
  end.

Definition read_content (v : json) : option (option cstr * list gemini_part) :=
  match v with
  | JObj o =>
      match find_field o (lit "parts") with
      | Some (JArr l) => parts ← mapM read_part l; Some (str o "role", parts)
      | _ => None
      end
  | _ => None
  end.

Definition read_contents (v : option json) : option (list (option cstr * list gemini_part)) :=
  match v with Some (JArr l) => mapM read_content l | _ => None end.

(** The calls of messages, oldest first: id and name. *)
Definition call_of (b : ik_content_block) : option (cstr * cstr) :=
  match b with IK_CONTENT_TOOL_CALL (Some i) (Some n) _ _ => Some (i, n) | _ => None end.

Definition calls_of (ms : list ik_message) : list (cstr * cstr) := omap call_of (mjoin (content_blocks <$> ms)).

(** The function a result answers: that of the oldest call with its id, or the
    id itself. *)
Definition answered (earlier : list ik_message) (id : option cstr) : option cstr :=
  i ← id; Some (default i (snd <$> List.find (fun c => strcmp_eq (fst c) i) (calls_of earlier))).

Definition gemini3 (req : ik_request) : bool :=
  match Google.ik_google_model_series (model req) with Google.IK_GEMINI_3 => true | _ => false end.

Definition sent_part (req : ik_request) (i : nat) (b : ik_content_block) : gemini_part :=
  match b with
  | IK_CONTENT_TEXT text => PText text
  | IK_CONTENT_THINKING text _ => PThought text
  | IK_CONTENT_TOOL_CALL _ name arguments sig =>
      PCall (if gemini3 req then sig else None) name (a ← arguments; yyjson_read a)
  | IK_CONTENT_TOOL_RESULT id content _ => PResult (answered (take i (req_messages req)) id) content
  | IK_CONTENT_REDACTED_THINKING _ => PText None
  end.

(** The last signature among the metadata of the assistant's messages. *)
Definition last_signature (ms : list ik_message) : option cstr :=
  last (omap (fun m => if is_assistant m then ik_google_extract_thought_signature (provider_metadata m) else None) ms).

(** It is sent in front of the first message of the assistant. *)
Definition signature_part (req : ik_request) (i : nat) (m : ik_message) : list gemini_part :=
  if gemini3 req && is_assistant m && negb (existsb is_assistant (take i (req_messages req)))
  then match last_signature (req_messages req) with Some s => [PSignature (Some s)] | None => [] end
  else [].

Definition sent_content (req : ik_request) (i : nat) (m : ik_message) : option cstr * list gemini_part :=
  (Some (ik_google_role_to_string (role m) (model req)), signature_part req i m ++ (sent_part req i <$> content_blocks m)).

(** Blocks that can be sent. *)
Definition sendable (b : ik_content_block) : Prop :=
  match b with
  | IK_CONTENT_TEXT text | IK_CONTENT_THINKING text _ => c_text text
  | IK_CONTENT_TOOL_CALL id name arguments sig =>
      c_text id /\ c_text name /\ (sig = None \/ c_text sig) /\ exists a, arguments = Some a /\ is_Some (yyjson_read a)
  | IK_CONTENT_TOOL_RESULT id content _ => c_text id /\ c_text content
  | IK_CONTENT_REDACTED_THINKING _ => False
  end.

End reader.

(** ** Lemmas *)

Lemma find_app_or {A} (f : A -> bool) l l' :
  List.find f (l ++ l') = match List.find f l with Some x => Some x | None => List.find f l' end.
Proof. induction l as [|a l IH]; [done|]. cbn [app List.find]. by destruct (f a). Qed.

Section lemmas.
Context `{!Yyjson}.

Lemma find_in_blocks_spec blocks t : Forall sendable blocks ->
  find_in_blocks blocks (Some t) =
  Ret ((fun c => Some (snd c)) <$> List.find (fun c => strcmp_eq (fst c) t) (omap call_of blocks)).
Proof.
  induction 1 as [|b blocks Hb _ IH]; [done|].
  destruct b as [| | | |]; cbn [find_in_blocks]; [exact IH| |exact IH..].
  destruct Hb as ((i & -> & _) & (n & -> & _) & _).
  change (omap call_of (IK_CONTENT_TOOL_CALL (Some i) (Some n) arguments thought_signature :: blocks))
    with ((i, n) :: omap call_of blocks). cbn [List.find fst]. by destruct (strcmp_eq i t).
Qed.

Lemma find_in_messages_spec ms t : Forall (fun m => Forall sendable (content_blocks m)) ms ->
  find_in_messages ms (Some t) = Ret (snd <$> List.find (fun c => strcmp_eq (fst c) t) (calls_of ms)).
Proof.
  induction 1 as [|m ms Hm _ IH]; [done|]. cbn [find_in_messages]. rewrite find_in_blocks_spec by done. cbn [obind].
  unfold calls_of in *. cbn [fmap list_fmap mjoin list_join]. rewrite omap_app, find_app_or.
  destruct (List.find _ (omap call_of (content_blocks m))); [done|]. exact IH.
Qed.

Lemma calls_of_text ms c : Forall (fun m => Forall sendable (content_blocks m)) ms -> c ∈ calls_of ms -> (0%Z ∉ snd c).
Proof.
  intros Hms Hc. apply list_elem_of_omap in Hc as (b & Hb & Ec). apply list_elem_of_join in Hb as (l & Hb & Hl).
  apply list_elem_of_fmap in Hl as (m & -> & Hm). pose proof (proj1 (Forall_forall _ _) Hms _ Hm) as Hs. cbv beta in Hs.
  pose proof (proj1 (Forall_forall _ _) Hs _ Hb) as Hn. destruct b as [|[i|] [n|] ? ?| | |]; try done.
  injection Ec as <-. destruct Hn as (_ & (n' & [= <-] & Hn) & _). exact Hn.
Qed.

Lemma part_reads_back (req : ik_request) i b arr :
  Forall (fun m => Forall sendable (content_blocks m)) (req_messages req) -> sendable b ->
  exists v, ik_google_serialize_content_block arr b (model req) (req_messages req) i = Ret (arr ++ [v]) /\
            read_part v = Some (sent_part req i b).
Proof.
  intros Hms. destruct b as [text|id nm args sg|id ct er|text sg|d]; cbn [sendable sent_part].
  - intros (t & -> & Ht). eexists. split; [reflexivity|].
    change (read_part _) with (Some (PText (Some (until_nul t)))). by rewrite until_nul_id.
  - intros (_ & (n & -> & Hn) & Hs & (a & -> & [j Hj])).
    unfold ik_google_serialize_content_block, gemini3.
    destruct (Google.ik_google_model_series (model req)), sg as [s|]; cbn [obind put_field put_str]; cbn [mbind option_bind];
      rewrite Hj; cbn [obind]; eexists; (split; [reflexivity|]);
      try (change (read_part _) with (Some (PCall None (Some (until_nul n)) (Some j))); by rewrite until_nul_id).
    destruct Hs as [|(s' & [= <-] & Hs)]; [done|].
    change (read_part _) with (Some (PCall (Some (until_nul s)) (Some (until_nul n)) (Some j))).
    by rewrite !until_nul_id.
  - intros ((t & -> & Ht) & (c & -> & Hc)). unfold ik_google_serialize_content_block, find_function_name_for_tool_call.
    rewrite find_in_messages_spec by by apply Forall_take. cbn [obind]. unfold answered. cbn [mbind option_bind].
    set (nm := snd <$> _).
    assert (0%Z ∉ default t nm) as Hd.
    { unfold nm. destruct (List.find _ _) as [[k n]|] eqn:Ef; [|exact Ht]. cbn [fmap option_fmap option_map default snd].
      apply List.find_some in Ef as [Hin _]. apply list_elem_of_In in Hin.
      exact (calls_of_text _ _ (Forall_take _ _ _ Hms) Hin). }
    exists (JObj [(lit "functionResponse", JObj [(lit "name", JStr (default t nm)); (lit "response", JObj [(lit "content", JStr c)])])]).
    split; [by destruct nm|].
    change (read_part _) with (Some (PResult (Some (until_nul (default t nm))) (Some (until_nul c)))). by rewrite !until_nul_id.
  - intros (t & -> & Ht). eexists. split; [reflexivity|].
    change (read_part _) with (Some (PThought (Some (until_nul t)))). by rewrite until_nul_id.
  - done.
Qed.

Lemma parts_read_back (req : ik_request) i blocks :
  Forall (fun m => Forall sendable (content_blocks m)) (req_messages req) -> Forall sendable blocks -> forall arr,
  exists vs, parts_loop arr blocks (model req) (req_messages req) i = Ret (arr ++ vs) /\
             mapM read_part vs = Some (sent_part req i <$> blocks).
Proof.
  intros Hms. induction 1 as [|b blocks Hb _ IH]; intros arr; cbn [parts_loop]; [exists []; by rewrite app_nil_r|].
  destruct (part_reads_back req i b arr Hms Hb) as (v & -> & Ev). cbn [obind].
  destruct (IH (arr ++ [v])) as (vs & -> & El). exists (v :: vs).
  split; [by rewrite <- app_assoc|]. cbn [mapM fmap list_fmap]. rewrite Ev. cbn [mbind option_bind]. by rewrite El.
Qed.

Lemma latest_is_last ms i : i <= length ms -> latest_signature ms i = last_signature (take i ms).
Proof.
  unfold last_signature. induction i as [|i IH]; intros Hi; [done|]. cbn [latest_signature].
  destruct (lookup_lt_is_Some_2 ms i ltac:(lia)) as [m Em]. rewrite (list_lookup_total_correct _ _ _ Em).
  rewrite (take_S_r _ _ _ Em), omap_app. cbn [omap list_omap]. fold (is_assistant m).
  rewrite IH by lia. destruct (is_assistant m); [|by rewrite app_nil_r].
  destruct (ik_google_extract_thought_signature (provider_metadata m)); [by rewrite last_snoc|by rewrite app_nil_r].
Qed.

Lemma signature_text ms s : last_signature ms = Some s -> (0%Z ∉ s).
Proof.
  unfold last_signature. intros Hl. apply last_Some_elem_of in Hl. apply list_elem_of_omap in Hl as (m & _ & Hm).
  destruct (is_assistant m); [|done]. unfold ik_google_extract_thought_signature in Hm.
  destruct (provider_metadata m) as [[|c t]|]; [done| |done].
  destruct (yyjson_read (c :: t)) as [root|]; [|done]. cbn [mbind option_bind] in Hm.
  destruct (yyjson_obj_get (Some root) (lit "thought_signature")) as [[]|]; try done. cbn [yyjson_get_str] in Hm.
  destruct (until_nul s0) eqn:E; [done|]. injection Hm as <-. rewrite <- E. apply until_nul_no_nul.
Qed.

Lemma role_text r mdl : (0%Z ∉ ik_google_role_to_string r mdl).
Proof.
  destruct r; cbn [ik_google_role_to_string]; [| |destruct (Google.ik_google_model_series mdl)];
    apply (bool_decide_unpack _); vm_compute; exact I.
Qed.

Lemma content_read r mdl l :
  read_content (JObj (put_val "parts" (JArr l) [(lit "role", JStr (ik_google_role_to_string r mdl))])) =
  (parts ← mapM read_part l; Some (Some (ik_google_role_to_string r mdl), parts)).
Proof.
  transitivity (parts ← mapM read_part l; Some (Some (until_nul (ik_google_role_to_string r mdl)), parts)); [reflexivity|].
  by rewrite (until_nul_id _ (role_text _ _)).
Qed.

Lemma contents_read_back (req : ik_request) :
  Forall (fun m => Forall sendable (content_blocks m)) (req_messages req) -> forall rest before arr,
  req_messages req = before ++ rest ->
  exists vs, contents_loop arr (existsb is_assistant before) (length before) rest req
               (ik_google_find_latest_thought_signature req) = Ret (arr ++ vs) /\
             mapM read_content vs = Some (imap (fun k m => sent_content req (length before + k) m) rest).
Proof.
  intros Hms. induction rest as [|m rest IH]; intros before arr Er; cbn [contents_loop]; [exists []; by rewrite app_nil_r|].
  assert (Forall sendable (content_blocks m)) as Hm.
  { apply (proj1 (Forall_forall _ _) Hms). rewrite Er. apply elem_of_app. right. by left. }
  set (sg := match ik_google_find_latest_thought_signature req with
             | Some sig => if is_assistant m && negb (existsb is_assistant before)
                           then [JObj (obj_add_str [] (lit "thoughtSignature") (Some sig))] else []
             | None => [] end).
  assert (mapM read_part sg = Some (signature_part req (length before) m)) as Hsg.
  { unfold sg, signature_part, ik_google_find_latest_thought_signature, gemini3.
    replace (take (length before) (req_messages req)) with before by (rewrite Er; by rewrite take_app_length).
    destruct (Google.ik_google_model_series (model req)); [done| |done].
    rewrite latest_is_last, firstn_all by done. cbn [andb].
    destruct (last_signature (req_messages req)) as [s|] eqn:Es; [|by destruct (_ && _)].
    destruct (is_assistant m && _); [|done].
    change (mapM read_part _) with (Some [PSignature (Some (until_nul s))]).
    by rewrite (until_nul_id _ (signature_text _ _ Es)). }
  destruct (parts_read_back req (length before) (content_blocks m) Hms Hm sg) as (vs & Ev & Mv).
  unfold put_field, put_str. cbn [yyjson_mut_obj_add_str obind app].
  unfold ik_google_serialize_message_parts. fold sg. rewrite Ev. cbn [obind].
  destruct (IH (before ++ [m]) (arr ++ [JObj (put_val "parts" (JArr (sg ++ vs))
     [(lit "role", JStr (ik_google_role_to_string (role m) (model req)))])])) as (ws & Ew & Mw).
  { by rewrite <- app_assoc. }
  rewrite existsb_app in Ew. cbn [existsb] in Ew. rewrite orb_false_r, orb_comm, length_app, Nat.add_1_r in Ew.
  rewrite Ew. eexists (_ :: ws). split; [by rewrite <- app_assoc|].
  cbn [mapM]. rewrite content_read, (mapM_app_some read_part _ _ _ _ Hsg Mv). cbn [mbind option_bind].
  rewrite Mw. cbn [mbind option_bind imap]. rewrite Nat.add_0_r. do 2 f_equal. apply imap_ext. intros k x _. cbn.
  by rewrite length_app, Nat.add_1_r, Nat.add_succ_r.
Qed.

Lemma google_tools_serialize ts : Forall (fun t => is_Some (yyjson_read (tool_parameters t))) ts -> forall arr,
  exists l, append_each serialize_tool arr ts = Some (arr ++ l).
Proof.
  intros Hs arr. destruct (append_each_read_back serialize_tool (fun _ => Some tt) (fun _ => tt) ts) with (arr := arr)
    as (l & El & _); [|by exists l].
  eapply Forall_impl; [exact Hs|]. intros t [j Hj] a. unfold serialize_tool. cbn [put_str yyjson_mut_obj_add_str mbind option_bind].
  rewrite Hj. cbn [mbind option_bind]. by eexists.
Qed.

Lemma config_appends root req : exists y, serialize_generation_config (serialize_tool_config root req) req = root ++ y.
Proof.
  assert (exists a, serialize_tool_config root req = root ++ a) as [a ->].
  { unfold serialize_tool_config. destruct (_ =? _)%nat; [exists []; by rewrite app_nil_r|by eexists]. }
  unfold serialize_generation_config. destruct (_ && _); [by exists a|]. eexists. unfold put_val, obj_add_val. by rewrite <- app_assoc.
Qed.

(** The contents are found in the request. *)
Lemma google_fields_shape (req : ik_request) vs :
  contents_loop [] false 0 (req_messages req) req (ik_google_find_latest_thought_signature req) = Ret vs ->
  Forall (fun t => is_Some (yyjson_read (tool_parameters t))) (tools req) ->
  exists root, google_fields req = Ret root /\ find_field root (lit "contents") = Some (JArr vs).
Proof.
  intros Ev Ht. unfold google_fields, serialize_contents. rewrite Ev. cbn [obind].
  assert (find_field (put_val "contents" (JArr vs) (serialize_system_instruction [] req)) (lit "contents") = Some (JArr vs)) as Hc.
  { unfold put_val, obj_add_val. rewrite find_absent; [done|]. unfold serialize_system_instruction.
    by destruct (system_prompt req) as [[|c t]|]. }
  assert (exists x, serialize_tools (put_val "contents" (JArr vs) (serialize_system_instruction [] req)) req =
                    Ret (put_val "contents" (JArr vs) (serialize_system_instruction [] req) ++ x)) as [x Ex].
  { unfold serialize_tools. destruct (length (tools req) =? 0)%nat; [exists []; by rewrite app_nil_r|].
    destruct (google_tools_serialize _ Ht []) as (l & ->). by eexists. }
  rewrite Ex. cbn [obind]. destruct (config_appends (put_val "contents" (JArr vs) (serialize_system_instruction [] req) ++ x) req)
    as [y ->]. eexists. split; [reflexivity|]. by apply find_kept, find_kept.
Qed.

End lemmas.

Module GoogleRequestProps.

Section props.
Context `{!Yyjson} `{!YyjsonSpec}.

(** C10: Gemini reads the conversation that was sent.  When every block can be
    sent, the tools' parameters are JSON and the request's strings are UTF-8,
    the text written is JSON whose contents are, message by message, the parts
    of that message: a result under the name of the function its id was given
    to, the last thought signature of the conversation in front of the first
    message of the assistant, and signatures for Gemini 3 only. *)
Theorem contents_sent_read_back (req : ik_request) :
  is_Some (model req) -> Forall (fun m => Forall sendable (content_blocks m)) (req_messages req) ->
  Forall (fun t => is_Some (yyjson_read (tool_parameters t))) (tools req) ->
  (forall root, google_fields req = Ret root -> writable (JObj root)) ->
  exists js root, ik_google_serialize_request req = Ret js /\ yyjson_read js = Some (JObj root) /\
    read_contents (find_field root (lit "contents")) = Some (imap (sent_content req) (req_messages req)).
Proof.
  intros [mdl Hm] Hs Ht Hw. destruct (contents_read_back req Hs (req_messages req) [] []) as (vs & Ev & Mv); [done|].
  cbn [existsb length app] in Ev.
  destruct (google_fields_shape req vs Ev Ht) as (root & Er & Ef).
  destruct (write_some _ (Hw root Er)) as [js Ejs]. exists js, root.
  unfold ik_google_serialize_request. rewrite Hm, Er. cbn [obind]. rewrite Ejs.
  split; [done|]. split; [by apply write_read|]. rewrite Ef. exact Mv.
Qed.

End props.
End GoogleRequestProps.

Module GoogleRequestExamples.
Import CodedJson GoogleRequestProps.

Definition signed : cstr := default [] (yyjson_write (JObj [(lit "thought_signature", JStr (lit "sig"))])).

(** Two questions; the second answer calls a tool and carries a signature. *)
Definition chat : ik_request :=
  mk_request (Some (lit "be brief"))
    [mk_message IK_ROLE_USER [IK_CONTENT_TEXT (Some (lit "list"))] None false;
     mk_message IK_ROLE_ASSISTANT [IK_CONTENT_TEXT (Some (lit "which?"))] None false;
     mk_message IK_ROLE_USER [IK_CONTENT_TEXT (Some (lit "all"))] None false;
     mk_message IK_ROLE_ASSISTANT
       [IK_CONTENT_THINKING (Some (lit "hm")) None; IK_CONTENT_TOOL_CALL (Some (lit "t1")) (Some (lit "ls")) (Some (lit "{}")) None]
       (Some signed) false;
     mk_message IK_ROLE_TOOL [IK_CONTENT_TOOL_RESULT (Some (lit "t1")) (Some (lit "a b")) false] None false]
    (Some (lit "gemini-3-pro-preview")) (IK_THINKING_HIGH, false) [mk_tool (lit "ls") (lit "lists") (lit "{}") true] 100 (0%Z, None).

Lemma chat_fields :
  google_fields chat = Ret
    [(lit "systemInstruction", JObj [(lit "parts", JArr [JObj [(lit "text", JStr (lit "be brief"))]])]);
     (lit "contents", JArr
       [JObj [(lit "role", JStr (lit "user")); (lit "parts", JArr [JObj [(lit "text", JStr (lit "list"))]])];
        JObj [(lit "role", JStr (lit "model")); (lit "parts", JArr
          [JObj [(lit "thoughtSignature", JStr (lit "sig"))]; JObj [(lit "text", JStr (lit "which?"))]])];
        JObj [(lit "role", JStr (lit "user")); (lit "parts", JArr [JObj [(lit "text", JStr (lit "all"))]])];
        JObj [(lit "role", JStr (lit "model")); (lit "parts", JArr
          [JObj [(lit "text", JStr (lit "hm")); (lit "thought", JBool true)];
           JObj [(lit "functionCall", JObj [(lit "name", JStr (lit "ls")); (lit "args", JObj [])])]])];
        JObj [(lit "role", JStr (lit "user")); (lit "parts", JArr
          [JObj [(lit "functionResponse", JObj [(lit "name", JStr (lit "ls"));
                    (lit "response", JObj [(lit "content", JStr (lit "a b"))])])]])]]);
     (lit "tools", JArr [JObj [(lit "functionDeclarations", JArr
        [JObj [(lit "name", JStr (lit "ls")); (lit "description", JStr (lit "lists")); (lit "parameters", JObj [])]])]]);
     (lit "toolConfig", JObj [(lit "functionCallingConfig", JObj [(lit "mode", JStr (lit "AUTO"))])]);
     (lit "generationConfig", JObj [(lit "maxOutputTokens", JInt 100);
        (lit "thinkingConfig", JObj [(lit "includeThoughts", JBool true); (lit "thinkingLevel", JStr (lit "high"))])])].
Proof. vm_compute. reflexivity. Qed.

Lemma contents_sent_read_back_witness :
  exists js root, ik_google_serialize_request chat = Ret js /\ yyjson_read js = Some (JObj root) /\
    read_contents (find_field root (lit "contents")) =
      Some [(Some (lit "user"), [PText (Some (lit "list"))]);
            (Some (lit "model"), [PSignature (Some (lit "sig")); PText (Some (lit "which?"))]);
            (Some (lit "user"), [PText (Some (lit "all"))]);
            (Some (lit "model"), [PThought (Some (lit "hm")); PCall None (Some (lit "ls")) (Some (JObj []))]);
            (Some (lit "user"), [PResult (Some (lit "ls")) (Some (lit "a b"))])].
Proof.
  destruct (contents_sent_read_back chat) as (js & root & E1 & E2 & E3).
  - by eexists.
  - unfold chat. cbn [req_messages]. repeat (apply Forall_cons; split); try apply Forall_nil; cbn [content_blocks];
      repeat (apply Forall_cons; split); try apply Forall_nil; cbn [sendable]; repeat split; try closed_text; try (by left).
  - unfold chat. cbn [tools]. apply Forall_singleton. by eexists.
  - intros root E. rewrite chat_fields in E. injection E as <-. closed_writable.
  - exists js, root. split; [exact E1|]. split; [exact E2|]. rewrite E3. vm_compute. reflexivity.
Defined.

End GoogleRequestExamples.
