(* ===== verification/EventRender.v ===== *)
(** * Rendering events (event_render.c, event_render_format.c)

    The lines an event adds to a scrollback: a coloured text followed by a
    blank line.  [RenderProps] shows that the colour sequences do not change the
    layout of the text, and what each kind of event adds. *)

From Stdlib Require Import String.
From stdpp Require Import strings.
From S2P Require Import Prelude Slots CString ByteArray Utf8 Unicode Multiline Layout Json.
From S2P Require Import OutputStyle Format Scrollback Conversation Provider.

Definition NEWLINE : Z := 10.

Section render.
Context `{!AnsiColors} `{!Screen} `{!Yyjson} `{!Printf} {T : Type} `{!ByteStore T}.

(** "(color_code >= 0) ? (uint8_t)color_code : 0" *)
Definition color_of (c : ik_output_category) : Z :=
  let color_code := ik_output_color c in
  if (0 <=? color_code)%Z then (color_code `mod` 256)%Z else 0%Z.

(** The loop over the lines before the last newline; each round takes one. *)
Fixpoint style_loop (fuel : nat) (color_seq line_start result : cstr) : outcome cstr :=
  match fuel with
  | 0 => NoFuel
  | S fuel =>
      match strchr line_start NEWLINE with
      | Some line_len =>
          style_loop fuel color_seq (drop (S line_len) line_start)
            (result ++ color_seq ++ take line_len line_start ++ IK_ANSI_RESET ++ [NEWLINE])
      | None =>
          Ret match line_start with
              | [] => result
              | _ => result ++ color_seq ++ line_start ++ IK_ANSI_RESET
              end
      end
  end.

Definition apply_style (content : cstr) (color : Z) : outcome cstr :=
  if negb ik_ansi_colors_enabled || (color =? 0)%Z then Ret content
  else
    let color_seq := fst (ik_ansi_fg_256 16 color) in
    match strchr content NEWLINE with
    | None => Ret (color_seq ++ content ++ IK_ANSI_RESET)
    | Some _ => style_loop (S (length content)) color_seq content []
    end.

(** A string field that is not empty. *)
Definition field_text (data_json : option cstr) (k : cstr) : option cstr :=
  match data_json with
  | None => None
  | Some d =>
      match yyjson_get_str (yyjson_obj_get (yyjson_read d) k) with
      | Some (c :: s) => Some (c :: s)
      | _ => None
      end
  end.

Definition extract_label_from_json (data_json : option cstr) : option cstr :=
  field_text data_json (lit "label").

Definition render_mark_event (scrollback : screen) (data_json : option cstr) : outcome screen :=
  let text := match extract_label_from_json data_json with
              | Some label => lit "/mark " ++ label
              | None => lit "/mark"
              end in
  let! scrollback := screen_append scrollback text in
  screen_append scrollback [].

Definition render_command_event (scrollback : screen) (content data_json : option cstr)
  : outcome screen :=
  let! scrollback :=
    match field_text data_json (lit "echo") with
    | Some echo =>
        let! styled_echo := apply_style echo (color_of IK_OUTPUT_SLASH_CMD) in
        let! scrollback := screen_append scrollback styled_echo in
        screen_append scrollback []
    | None => Ret scrollback
    end in
  match content with
  | None | Some [] => Ret scrollback
  | Some content =>
      match ik_scrollback_trim_trailing content (length content) with
      | [] => Ret scrollback
      | trimmed =>
          let! styled_output := apply_style trimmed (color_of IK_OUTPUT_SLASH_OUTPUT) in
          let! scrollback := screen_append scrollback styled_output in
          screen_append scrollback []
      end
  end.

(** "(val && yyjson_is_int(val)) ? (int32_t)yyjson_get_int(val) : 0" *)
Definition int_field (root : option json) (k : cstr) : Z :=
  let v := yyjson_obj_get root k in if yyjson_is_int v then yyjson_get_int v else 0%Z.

Definition token_line (in_tok out_tok think_tok total : Z) : cstr :=
  snprintf 128
    (if (0 <? think_tok)%Z
     then lit "Tokens: " ++ show_int in_tok ++ lit " in + " ++ show_int out_tok ++ lit " out + "
            ++ show_int think_tok ++ lit " thinking = " ++ show_int total
     else lit "Tokens: " ++ show_int in_tok ++ lit " in + " ++ show_int out_tok ++ lit " out = "
            ++ show_int (in_tok + out_tok)).

Definition render_token_usage (scrollback : screen) (data_json : option cstr) : outcome screen :=
  match data_json with
  | None => Ret scrollback
  | Some d =>
      match yyjson_read d with
      | None => Ret scrollback
      | Some root =>
          let in_tok := int_field (Some root) (lit "input_tokens") in
          let out_tok := int_field (Some root) (lit "output_tokens") in
          let think_tok := int_field (Some root) (lit "thinking_tokens") in
          let! total := int_add in_tok out_tok in
          let! total := int_add total think_tok in
          if (total =? 0)%Z then Ret scrollback
          else
            let! styled := apply_style (token_line in_tok out_tok think_tok total)
                             IK_ANSI_GRAY_SUBDUED in
            screen_append scrollback styled
      end
  end.

Definition render_content_event (scrollback : screen) (content : option cstr) (color : Z)
    (prefix : option cstr) : outcome screen :=
  match content with
  | None | Some [] => Ret scrollback
  | Some content =>
      let content := match prefix with Some prefix => prefix ++ [32%Z] ++ content | None => content end in
      match ik_scrollback_trim_trailing content (length content) with
      | [] => Ret scrollback
      | trimmed =>
          let! styled := apply_style trimmed color in
          let! scrollback := screen_append scrollback styled in
          screen_append scrollback []
      end
  end.

(** ** event_render_format.c *)

(** "content != NULL && strncmp(content, prefix, strlen(prefix)) == 0" *)
Definition has_prefix (content : option cstr) (c : ik_output_category) : bool :=
  match content, ik_output_prefix c with
  | Some content, Some prefix => starts_with prefix content
  | _, _ => false
  end.

Definition ik_event_render_format_tool_call (content data_json : option cstr)
  : outcome (option cstr) :=
  if has_prefix content IK_OUTPUT_TOOL_REQUEST then Ret content
  else
    match data_json with
    | None => Ret content
    | Some d =>
        let root := yyjson_read d in
        match yyjson_get_str (yyjson_obj_get root (lit "tool_name")),
              yyjson_get_str (yyjson_obj_get root (lit "tool_args")),
              yyjson_get_str (yyjson_obj_get root (lit "tool_call_id")) with
        | Some name, Some args, Some id =>
            let! formatted := ik_format_tool_call (T := T) (mk_tool_call id name (Some args)) in
            Ret (Some formatted)
        | _, _, _ => Ret content
        end
    end.

Definition ik_event_render_format_tool_result_raw (content : option cstr) : outcome cstr :=
  let! buf := ik_format_buffer_create (T := T) in
  let prefix := default [] (ik_output_prefix IK_OUTPUT_TOOL_RESPONSE) in
  let! buf := or_die (ik_format_appendf buf (prefix ++ [32%Z])) in
  let! buf := match content with
              | None => or_die (ik_format_append buf (lit "(no output)"))
              | Some content => ik_format_truncate_and_append buf content (length content)
              end in
  ik_format_get_string buf.

Definition ik_event_render_format_tool_result (content data_json : option cstr)
  : outcome (option cstr) :=
  if has_prefix content IK_OUTPUT_TOOL_RESPONSE then Ret content
  else
    let raw := let! s := ik_event_render_format_tool_result_raw content in Ret (Some s) in
    match data_json with
    | None => raw
    | Some d =>
        match yyjson_read d with
        | None => raw
        | Some root =>
            match yyjson_get_str (yyjson_obj_get (Some root) (lit "name")) with
            | None => raw
            | Some tool_name =>
                let output := yyjson_get_str (yyjson_obj_get (Some root) (lit "output")) in
                let! s := ik_format_tool_result (T := T) tool_name output in
                Ret (Some s)
            end
        end
    end.

(** ** ik_event_render *)

Definition kind_is (kind : cstr) (names : list cstr) : bool := existsb (strcmp_eq kind) names.

(** The colour and the prefix of a kind. *)
Definition event_style (kind : cstr) (interrupted : bool) : Z * option cstr :=
  if interrupted && kind_is kind [lit "user"; lit "tool_call"; lit "tool_result"] then
    (color_of IK_OUTPUT_CANCELLED, ik_output_prefix IK_OUTPUT_CANCELLED)
  else if strcmp_eq kind (lit "assistant") then
    (IK_ANSI_GRAY_LIGHT, ik_output_prefix IK_OUTPUT_MODEL_TEXT)
  else if strcmp_eq kind (lit "user") then (0%Z, ik_output_prefix IK_OUTPUT_USER_INPUT)
  else if strcmp_eq kind (lit "tool_call") then (color_of IK_OUTPUT_TOOL_REQUEST, None)
  else if strcmp_eq kind (lit "tool_result") then (color_of IK_OUTPUT_TOOL_RESPONSE, None)
  else if strcmp_eq kind (lit "fork") then (color_of IK_OUTPUT_SLASH_OUTPUT, None)
  else (0%Z, None).

Definition ik_event_render (scrollback : screen) (kind : cstr) (content data_json : option cstr)
    (interrupted : bool) : outcome screen :=
  let '(color, prefix) := event_style kind interrupted in
  if kind_is kind [lit "assistant"; lit "user"; lit "fork"] then
    render_content_event scrollback content color prefix
  else if strcmp_eq kind (lit "tool_call") then
    let! formatted := ik_event_render_format_tool_call content data_json in
    render_content_event scrollback formatted color prefix
  else if strcmp_eq kind (lit "tool_result") then
    let! formatted := ik_event_render_format_tool_result content data_json in
    render_content_event scrollback formatted color prefix
  else if strcmp_eq kind (lit "command") then render_command_event scrollback content data_json
  else if strcmp_eq kind (lit "mark") then render_mark_event scrollback data_json
  else if strcmp_eq kind (lit "usage") then
    let! scrollback := render_token_usage scrollback data_json in
    screen_append scrollback []
  else if kind_is kind [lit "system"; lit "rewind"; lit "clear"; lit "agent_killed"] then
    Ret scrollback
  else Fail ERR_INVALID_ARG.

(** *** scrollback_utils.c *)

Definition ik_scrollback_format_warning (text : cstr) : cstr :=
  let prefix := default [] (ik_output_prefix IK_OUTPUT_WARNING) in
  let color_code := ik_output_color IK_OUTPUT_WARNING in
  if negb ik_ansi_colors_enabled || (color_code <? 0)%Z then prefix ++ [32%Z] ++ text
  else
    fst (ik_ansi_fg_256 16 (color_code `mod` 256)) ++ prefix ++ [32%Z] ++ text ++ IK_ANSI_RESET.

End render.

(** ** Texts with colour sequences *)

(** A text as CSI sequences and code points. *)
Inductive piece : Type :=
| PCsi (params : list Z) (final : Z)
| PCp (c : Z).

Definition piece_bytes (p : piece) : list Z :=
  match p with PCsi params final => [0x1B; 0x5B]%Z ++ params ++ [final] | PCp c => encode_utf8 c end.

Definition piece_glyph (p : piece) : glyph :=
  match p with PCsi _ _ => Csi | PCp c => Cp c end.

Definition piece_ok (p : piece) : Prop :=
  match p with
  | PCsi params final => Forall (fun b => (0x20 <= b <= 0x3F)%Z) params /\ (0x40 <= final <= 0x7E)%Z
  | PCp c => scalar c /\ c <> 27%Z
  end.

Definition bytes_of (ps : list piece) : list Z := ps ≫= piece_bytes.

(** The glyphs that are drawn. *)
Fixpoint visible (gs : list glyph) : list glyph :=
  match gs with
  | [] => []
  | Csi :: gs => visible gs
  | g :: gs => g :: visible gs
  end.

Lemma visible_app a b : visible (a ++ b) = visible a ++ visible b.
Proof. induction a as [|[] a IH]; simpl; congruence. Qed.

Lemma visible_cps cps : visible (Cp <$> cps) = Cp <$> cps.
Proof. induction cps as [|c cps IH]; [done|]. cbn [fmap list_fmap visible]. f_equal. exact IH. Qed.

Lemma bytes_of_app a b : bytes_of (a ++ b) = bytes_of a ++ bytes_of b.
Proof. apply bind_app. Qed.

Lemma bytes_of_cps cps : bytes_of (PCp <$> cps) = text_of cps.
Proof. induction cps as [|c cps IH]; [done|]. cbn. by rewrite text_of_cons, <- IH. Qed.

Lemma cps_ok cps : Forall scalar cps -> (27%Z ∉ cps) -> Forall piece_ok (PCp <$> cps).
Proof.
  induction 1 as [|c cps Hc _ IH]; intros Hn; [constructor|]. cbn [fmap list_fmap].
  apply not_elem_of_cons in Hn as [Hn1 Hn2]. constructor; [by split|by apply IH].
Qed.

Lemma csi_scan_params params final pre rest fuel len pos :
  Forall (fun b => (0x20 <= b <= 0x3F)%Z) params -> (0x40 <= final <= 0x7E)%Z ->
  length params < fuel -> length pre + length params < len ->
  csi_scan fuel (pre ++ params ++ final :: rest) len pos (length pre)
    = S (length pre + length params) - pos.
Proof.
  revert pre fuel. induction params as [|b params IH]; intros pre fuel Hp Hf Hfuel Hlen;
    (destruct fuel as [|fuel]; [simpl in Hfuel; lia|]); cbn [csi_scan];
    rewrite (proj2 (Nat.ltb_lt _ _)) by lia;
    unfold byte_at; rewrite lookup_app_r, Nat.sub_diag by done; cbn [app lookup list_lookup default from_option]; unfold id.
  - destruct ((_ || _)%bool) eqn:E; [apply orb_true_iff in E as [E|E]; apply andb_true_iff in E; lia|].
    rewrite (proj2 (andb_true_iff _ _)) by (split; apply Z.leb_le; lia). simpl. lia.
  - apply Forall_cons in Hp as [Hb Hp].
    assert (((48 <=? b) && (b <=? 63) || (32 <=? b) && (b <=? 47))%Z = true) as -> by lia.
    simpl in Hfuel, Hlen.
    specialize (IH (pre ++ [b]) fuel Hp Hf ltac:(lia)). rewrite <- app_assoc in IH.
    rewrite length_app in IH. cbn [length app] in IH. rewrite Nat.add_1_r in IH.
    rewrite IH by lia. simpl. lia.
Qed.

Lemma byte_at_middle pre b rest : byte_at (pre ++ b :: rest) (length pre) = b.
Proof. unfold byte_at. by rewrite lookup_app_r, Nat.sub_diag by done. Qed.

Section glyphs_of_pieces.
Context `{Utf8procSpec}.

Lemma glyph_at_piece pre p rest :
  piece_ok p ->
  glyph_at (pre ++ piece_bytes p ++ rest) (length pre + length (piece_bytes p ++ rest)) (length pre)
    = (piece_glyph p, length (piece_bytes p)).
Proof.
  destruct p as [params final|c]; cbn [piece_ok piece_bytes piece_glyph].
  - intros [Hp Hf]. unfold glyph_at, ik_ansi_skip_csi.
    rewrite (proj2 (Nat.leb_gt _ _)) by len_lia.
    set (r := params ++ final :: rest).
    assert (([27; 91]%Z ++ params ++ [final]) ++ rest = 27%Z :: 91%Z :: r) as ->
      by (unfold r; by rewrite <- !app_assoc).
    rewrite byte_at_middle.
    assert (byte_at (pre ++ 27%Z :: 91%Z :: r) (length pre + 1) = 91%Z) as ->.
    { pose proof (byte_at_middle (pre ++ [27%Z]) 91 r) as E.
      by rewrite <- app_assoc, length_app in E. }
    cbn [Z.eqb Pos.eqb negb orb].
    pose proof (csi_scan_params params final (pre ++ [27; 91]%Z) rest
      (S (length pre + length (27%Z :: 91%Z :: r))) (length pre + length (27%Z :: 91%Z :: r))
      (length pre) Hp Hf) as E.
    rewrite <- app_assoc, (length_app pre [27; 91]%Z) in E. cbn [app] in E. fold r in E.
    cbn [length] in *. rewrite E by (unfold r; len_lia).
    rewrite (proj2 (Nat.ltb_lt _ _)) by lia. f_equal. len_lia.
  - intros [Hc Hn]. pose proof (encode_length c Hc) as Hl. unfold glyph_at.
    rewrite skip_csi_not_esc.
    2: { pose proof (byte_at_not_esc [] c [] ltac:(by repeat constructor) ltac:(set_solver)) as Hb.
         unfold byte_at in *. rewrite lookup_app_r, Nat.sub_diag by done.
         rewrite text_of_one in Hb. cbn in Hb.
         destruct (encode_utf8 c) as [|b t]; [simpl in Hl; lia|]. done. }
    cbn [Nat.ltb Nat.leb]. rewrite drop_app_length, iterate_valid by done.
    rewrite (proj2 (Z.leb_gt _ _)) by lia. by rewrite Nat2Z.id.
Qed.

Lemma glyphs_pieces pre ps fuel :
  Forall piece_ok ps -> length ps < fuel ->
  glyphs fuel (pre ++ bytes_of ps) (length pre + length (bytes_of ps)) (length pre)
    = piece_glyph <$> ps.
Proof.
  revert pre fuel. induction ps as [|p ps IH]; intros pre fuel Hok Hf;
    (destruct fuel as [|fuel]; [simpl in Hf; lia|]); cbn [glyphs].
  - change (bytes_of []) with (@nil Z). by rewrite (proj2 (Nat.ltb_ge _ _)) by (simpl; lia).
  - apply Forall_cons in Hok as [Hp Hok]. change (bytes_of (p :: ps)) with (piece_bytes p ++ bytes_of ps).
    assert (0 < length (piece_bytes p)) as Hpos.
    { destruct p as [params final|c]; [simpl; lia|]. destruct Hp as [Hp _].
      pose proof (encode_length c Hp). simpl. lia. }
    rewrite (proj2 (Nat.ltb_lt _ _)) by len_lia. rewrite glyph_at_piece by done.
    cbn [fmap list_fmap]. f_equal. specialize (IH (pre ++ piece_bytes p) fuel Hok).
    rewrite <- app_assoc, length_app in IH. rewrite length_app, Nat.add_assoc. apply IH. simpl in Hf. lia.
Qed.

Lemma length_bytes_of ps : Forall piece_ok ps -> length ps <= length (bytes_of ps).
Proof.
  induction 1 as [|p ps Hp _ IH]; [simpl; lia|].
  change (bytes_of (p :: ps)) with (piece_bytes p ++ bytes_of ps). rewrite length_app. cbn [length].
  destruct p as [params final|c]; [simpl; lia|]. destruct Hp as [Hp _].
  pose proof (encode_length c Hp). simpl. lia.
Qed.

Lemma glyphs_of_pieces ps : Forall piece_ok ps -> glyphs_of (bytes_of ps) = piece_glyph <$> ps.
Proof.
  intros Hok. pose proof (length_bytes_of ps Hok).
  apply (glyphs_pieces [] ps (S (length (bytes_of ps)))); [done|lia].
Qed.

End glyphs_of_pieces.

(** ** Styled texts *)

Definition color_piece (color : Z) : piece := PCsi (lit "38;5;" ++ show_int color) 0x6D.
Definition reset_piece : piece := PCsi (lit "0") 0x6D.

(** Each line between the colour and the reset, and no line after a final
    newline. *)
Fixpoint styled_lines (color : Z) (lines : list (list Z)) : list piece :=
  match lines with
  | [] => []
  | [[]] => []
  | [l] => color_piece color :: (PCp <$> l) ++ [reset_piece]
  | l :: lines => color_piece color :: (PCp <$> l) ++ [reset_piece; PCp 10] ++ styled_lines color lines
  end.

Lemma color_seq_bytes color :
  (0 <= color < 256)%Z ->
  fst (ik_ansi_fg_256 16 color) = piece_bytes (color_piece color) /\ piece_ok (color_piece color).
Proof.
  intros Hc.
  assert (bool_decide (fst (ik_ansi_fg_256 16 color) = piece_bytes (color_piece color)) = true) as E.
  { revert color Hc. apply byte_forallb. by vm_compute. }
  split; [by apply bool_decide_eq_true in E|]. split; [|lia]. apply Forall_app. split.
  - apply (bool_decide_unpack _); vm_compute; exact I.
  - eapply Forall_impl; [apply show_int_printable|]. intros b Hb. cbn beta in *. lia.
Qed.

Lemma reset_bytes : IK_ANSI_RESET = piece_bytes reset_piece /\ piece_ok reset_piece.
Proof. split; [done|]. split; [by repeat constructor|lia]. Qed.

Lemma styled_lines_cons color l ls :
  ls <> [] ->
  styled_lines color (l :: ls) =
    color_piece color :: (PCp <$> l) ++ [reset_piece; PCp 10] ++ styled_lines color ls.
Proof. by destruct ls, l. Qed.

Lemma lines_of_not_nil l : lines_of l <> [].
Proof. destruct l as [|c l]; [done|]. simpl. destruct (c =? newline)%Z; [done|]. by destruct (lines_of l). Qed.

Section styling.
Context `{!AnsiColors}.

Lemma style_loop_ok fuel color cps result :
  Forall scalar cps -> (0 <= color < 256)%Z -> length (text_of cps) < fuel ->
  style_loop fuel (fst (ik_ansi_fg_256 16 color)) (text_of cps) result
    = Ret (result ++ bytes_of (styled_lines color (lines_of cps))).
Proof.
  intros Hs Hc. pose proof (color_seq_bytes color Hc) as [-> _].
  revert cps result Hs. induction fuel as [|fuel IH]; intros cps result Hs Hf; [lia|].
  cbn [style_loop]. destruct (split_first_line cps) as (m & b & -> & Hb & Hm).
  apply Forall_app in Hs as [Hsm Hsb]. destruct Hb as [->|[b' ->]].
  - rewrite app_nil_r, lines_of_last by done.
    rewrite strchr_none by (by apply newline_not_in_text).
    destruct m as [|c m]; [by rewrite app_nil_r|].
    destruct (text_of (c :: m)) as [|x t] eqn:E; [by apply text_of_nil_inv in E|].
    rewrite <- E, <- bytes_of_cps. cbn [styled_lines].
    change (bytes_of (?a :: ?l)) with (piece_bytes a ++ bytes_of l). rewrite bytes_of_app.
    change (bytes_of [reset_piece]) with IK_ANSI_RESET. done.
  - apply Forall_cons in Hsb as [_ Hsb].
    rewrite text_of_app. change (text_of (newline :: b')) with (NEWLINE :: text_of b').
    rewrite strchr_app by (by apply newline_not_in_text).
    rewrite take_app_length.
    replace (drop (S (length (text_of m))) _) with (text_of b')
      by (change (NEWLINE :: text_of b') with ([NEWLINE] ++ text_of b');
          rewrite app_assoc, drop_app_length'; [done|len_lia]).
    rewrite IH; [|done|].
    2: { rewrite text_of_app in Hf. change (text_of (newline :: b')) with (NEWLINE :: text_of b') in Hf. len_lia. }
    rewrite lines_of_first by done. rewrite styled_lines_cons by apply lines_of_not_nil.
    change (bytes_of (?a :: ?l)) with (piece_bytes a ++ bytes_of l).
    rewrite !bytes_of_app, bytes_of_cps.
    change (bytes_of [reset_piece; PCp 10]) with (IK_ANSI_RESET ++ [NEWLINE]).
    by rewrite <- !app_assoc.
Qed.

(** The text of a non-empty content, coloured. *)
Definition style_pieces (color : Z) (cps : list Z) : list piece :=
  if negb ik_ansi_colors_enabled || (color =? 0)%Z then PCp <$> cps
  else styled_lines color (lines_of cps).

Lemma apply_style_ok color cps :
  Forall scalar cps -> (0 <= color < 256)%Z -> cps <> [] ->
  apply_style (text_of cps) color = Ret (bytes_of (style_pieces color cps)).
Proof.
  intros Hs Hc Hne. unfold apply_style, style_pieces.
  destruct (negb ik_ansi_colors_enabled || (color =? 0)%Z); [by rewrite bytes_of_cps|].
  destruct (strchr (text_of cps) NEWLINE) as [k|] eqn:E.
  - rewrite style_loop_ok by (done || lia). done.
  - assert (newline ∉ cps) as Hn.
    { intros (l1 & l2 & ->)%list_elem_of_split. rewrite text_of_app in E.
      change (text_of (newline :: l2)) with (NEWLINE :: text_of l2) in E.
      clear - E. revert E. generalize (text_of l1) as t. intros t.
      induction t as [|b t IH]; simpl; [done|]. destruct (b =? NEWLINE)%Z; [done|].
      destruct (strchr _ _) in *; [done|]. auto. }
    rewrite lines_of_last by done. destruct cps as [|c cps]; [done|].
    cbn [styled_lines]. pose proof (color_seq_bytes color Hc) as [-> _].
    change (bytes_of (?a :: ?l)) with (piece_bytes a ++ bytes_of l).
    by rewrite bytes_of_app, bytes_of_cps.
Qed.

Lemma styled_lines_visible color cps :
  (0 <= color < 256)%Z -> Forall scalar cps -> (27%Z ∉ cps) ->
  Forall piece_ok (styled_lines color (lines_of cps)) /\
  visible (piece_glyph <$> styled_lines color (lines_of cps)) = Cp <$> cps.
Proof.
  intros Hc. remember (length cps) as n eqn:Hn. revert cps Hn.
  pose proof (color_seq_bytes color Hc) as [_ Hok1]. pose proof reset_bytes as [_ Hok2].
  induction (lt_wf n) as [n _ IH]; intros cps -> Hs He.
  destruct (split_first_line cps) as (m & b & -> & Hb & Hm).
  apply Forall_app in Hs as [Hsm Hsb]. apply not_elem_of_app in He as [Hem Heb].
  pose proof (cps_ok m Hsm Hem) as Hmok.
  destruct Hb as [->|[b' ->]].
  - rewrite app_nil_r, lines_of_last by done. destruct m as [|c m]; [done|]. cbn [styled_lines]. split.
    + constructor; [done|]. apply Forall_app. split; [exact Hmok|]. constructor; [exact Hok2|constructor].
    + rewrite fmap_cons, fmap_app, <- list_fmap_compose. cbn [piece_glyph visible color_piece].
      rewrite visible_app, visible_cps. cbn [fmap list_fmap piece_glyph reset_piece visible].
      by rewrite app_nil_r.
  - apply Forall_cons in Hsb as [_ Hsb]. apply not_elem_of_cons in Heb as [_ Heb].
    rewrite lines_of_first, styled_lines_cons by (done || apply lines_of_not_nil).
    destruct (IH (length b') ltac:(len_lia) b' eq_refl Hsb Heb) as [Hok Hv]. split.
    + constructor; [done|]. apply Forall_app. split; [done|]. apply Forall_app. split; [|done].
      constructor; [exact Hok2|]. constructor; [by split|constructor].
    + rewrite fmap_cons, !fmap_app, <- list_fmap_compose. cbn [piece_glyph visible color_piece].
      rewrite !visible_app, Hv, visible_cps.
      cbn [fmap list_fmap piece_glyph reset_piece visible app]. done.
Qed.

Lemma style_pieces_visible color cps :
  (0 <= color < 256)%Z -> Forall scalar cps -> (27%Z ∉ cps) ->
  Forall piece_ok (style_pieces color cps) /\ visible (piece_glyph <$> style_pieces color cps) = Cp <$> cps.
Proof.
  intros Hc Hs He. unfold style_pieces.
  destruct (negb ik_ansi_colors_enabled || (color =? 0)%Z); [|by apply styled_lines_visible].
  split; [by apply cps_ok|]. rewrite <- list_fmap_compose. apply visible_cps.
Qed.

End styling.

(** ** Layouts ignore what is not drawn *)

Section layout.
Context `{!Utf8proc} `{!SlotAllocator}.

Lemma cols_visible gs : sum_list (cols <$> visible gs) = sum_list (cols <$> gs).
Proof. induction gs as [|[] gs IH]; cbn [visible fmap list_fmap]; rewrite ?sum_list_cons, ?IH; done. Qed.

Lemma newlines_visible gs : newlines (visible gs) = newlines gs.
Proof.
  unfold newlines. induction gs as [|[] gs IH]; cbn [visible]; [done|done| |];
    rewrite !filter_cons; destruct (decide _); cbn [length]; congruence.
Qed.

Lemma layout_fold_visible tw gs s : layout_fold tw (visible gs) s = layout_fold tw gs s.
Proof.
  revert s. induction gs as [|[] gs IH]; intros s; cbn [visible layout_fold]; [done| | |].
  - cbn [layout_step obind]. apply IH.
  - destruct (layout_step tw s Bad); cbn [obind]; auto.
  - destruct (layout_step tw s (Cp codepoint)); cbn [obind]; auto.
Qed.

(** A layout depends only on the glyphs that are drawn. *)
Lemma layout_visible text1 text2 (w : Z) :
  visible (glyphs_of text1) = visible (glyphs_of text2) ->
  ik_scrollback_calculate_layout text1 (length text1) w
    = ik_scrollback_calculate_layout text2 (length text2) w.
Proof.
  intros E. unfold ik_scrollback_calculate_layout, ik_scrollback_count_newlines,
    ik_scrollback_calculate_display_width.
  rewrite !newlines_loop_spec, !sb_width_loop_spec by lia. cbn [obind Nat.add].
  change (glyphs (S (length text1)) text1 (length text1) 0) with (glyphs_of text1).
  change (glyphs (S (length text2)) text2 (length text2) 0) with (glyphs_of text2).
  rewrite <- (newlines_visible (glyphs_of text1)), <- (newlines_visible (glyphs_of text2)),
    <- (cols_visible (glyphs_of text1)), <- (cols_visible (glyphs_of text2)), E.
  destruct (or_oom (alloc_slots _ _)) as [l| | | |]; cbn [obind]; try done.
  rewrite !sb_layout_loop_spec by lia.
  change (glyphs (S (length text1)) text1 (length text1) 0) with (glyphs_of text1).
  change (glyphs (S (length text2)) text2 (length text2) 0) with (glyphs_of text2).
  by rewrite <- (layout_fold_visible _ (glyphs_of text1)), <- (layout_fold_visible _ (glyphs_of text2)), E.
Qed.

End layout.

(** ** What an event adds *)

Section events.
Context `{!AnsiColors} `{!Screen} `{!Yyjson} `{!Printf} {T : Type} `{!ByteStore T}.

Fixpoint append_lines (s : screen) (lines : list cstr) : outcome screen :=
  match lines with
  | [] => Ret s
  | l :: lines => let! s := screen_append s l in append_lines s lines
  end.

Lemma append_lines_app s a b :
  append_lines s (a ++ b) = let! s := append_lines s a in append_lines s b.
Proof.
  revert s. induction a as [|l a IH]; intros s; cbn [app append_lines]; [done|].
  destruct (screen_append s l); cbn [obind]; auto.
Qed.

Lemma append_lines_some `{!ScreenSpec} s lines : exists s', append_lines s lines = Ret s'.
Proof.
  revert s. induction lines as [|l lines IH]; intros s; cbn [append_lines]; [by eexists|].
  destruct (screen_append_some s l) as [s' ->]. apply IH.
Qed.

Lemma strchr_bound s c k : strchr s c = Some k -> k < length s.
Proof.
  revert k. induction s as [|b s IH]; intros k; simpl; [done|].
  destruct (b =? c)%Z; [intros [= <-]; lia|].
  destruct (strchr s c) as [j|]; [|done]. intros [= <-]. specialize (IH j eq_refl). simpl. lia.
Qed.

Lemma style_loop_some fuel seq s r : length s < fuel -> exists t, style_loop fuel seq s r = Ret t.
Proof.
  revert s r. induction fuel as [|fuel IH]; intros s r Hf; [lia|]. cbn [style_loop].
  destruct (strchr s NEWLINE) as [k|] eqn:E; [|by eexists].
  apply strchr_bound in E. apply IH. rewrite length_drop. lia.
Qed.

Lemma apply_style_some content color : exists t, apply_style content color = Ret t.
Proof.
  unfold apply_style. destruct (_ || _); [by eexists|].
  destruct (strchr content NEWLINE); [apply style_loop_some; lia|by eexists].
Qed.

(** The lines added: none, or some lines and a blank one. *)
Definition spaced (lines : list cstr) : Prop := lines = [] \/ exists l, lines = l ++ [[]].

Definition adds (m : screen -> outcome screen) (lines : list cstr) : Prop :=
  forall s, m s = append_lines s lines.

Lemma two_lines s r :
  (let! s := screen_append s r in screen_append s []) = append_lines s [r; []].
Proof.
  cbn [append_lines]. destruct (screen_append s r) as [s'| | | |]; cbn [obind]; [|done..].
  by destruct (screen_append s' []).
Qed.

Lemma spaced_none : spaced [].
Proof. by left. Qed.

Lemma spaced_two r : spaced [r; []].
Proof. right. by exists [r]. Qed.

(** A text that is styled and shown when there is one. *)
Lemma styled_adds (text : option cstr) color :
  exists lines, adds (fun s => match text with
    | Some t => let! styled := apply_style t color in
                let! s := screen_append s styled in screen_append s []
    | None => Ret s
    end) lines /\ spaced lines.
Proof.
  destruct text as [t|]; [|exists []; split; [done|apply spaced_none]].
  destruct (apply_style_some t color) as [r Er].
  exists [r; []]. split; [|apply spaced_two]. intros s. rewrite Er. apply two_lines.
Qed.

Lemma content_event_adds content color prefix :
  exists lines, adds (fun s => render_content_event s content color prefix) lines /\ spaced lines.
Proof.
  assert (adds (fun s => render_content_event s content color prefix) [] \/
    exists t, forall s, render_content_event s content color prefix =
      let! styled := apply_style t color in
      let! s := screen_append s styled in screen_append s []) as [He|[t He]].
  { unfold adds, render_content_event. destruct content as [[|b content]|]; [by left| |by left].
    match goal with |- context [ik_scrollback_trim_trailing ?t ?n] =>
      destruct (ik_scrollback_trim_trailing t n) as [|x t'] end; [by left|right; by eexists]. }
  - exists []. split; [done|apply spaced_none].
  - destruct (styled_adds (Some t) color) as (lines & Ha & Hs). exists lines. split; [|done].
    intros s. rewrite He. apply Ha.
Qed.

Lemma mark_event_adds data :
  exists line, adds (fun s => render_mark_event s data) [line; []].
Proof. eexists. intros s. apply two_lines. Qed.

Lemma command_event_adds content data :
  exists lines, adds (fun s => render_command_event s content data) lines /\ spaced lines.
Proof.
  set (text := match content with
               | None | Some [] => None
               | Some content =>
                   match ik_scrollback_trim_trailing content (length content) with
                   | [] => None | trimmed => Some trimmed end
               end).
  destruct (styled_adds (field_text data (lit "echo")) (color_of IK_OUTPUT_SLASH_CMD)) as (l1 & Ha1 & Hs1).
  destruct (styled_adds text (color_of IK_OUTPUT_SLASH_OUTPUT)) as (l2 & Ha2 & Hs2).
  exists (l1 ++ l2). split.
  - intros s. unfold render_command_event. rewrite append_lines_app, <- Ha1.
    destruct (match field_text data (lit "echo") with Some _ => _ | None => _ end) as [s'| | | |];
      cbn [obind]; [|done..]. rewrite <- Ha2. subst text. destruct content as [[|b c]|]; [done| |done].
    by destruct (ik_scrollback_trim_trailing _ _).
  - destruct Hs2 as [->|[l ->]]; [by rewrite app_nil_r|]. right. exists (l1 ++ l). by rewrite app_assoc.
Qed.

(** The token counts of a usage event add up. *)
Definition usage_fits (data_json : option cstr) : Prop :=
  forall d root, data_json = Some d -> yyjson_read d = Some root ->
    let i := int_field (Some root) (lit "input_tokens") in
    let o := int_field (Some root) (lit "output_tokens") in
    let t := int_field (Some root) (lit "thinking_tokens") in
    (- 2 ^ 31 <= i + o < 2 ^ 31)%Z /\ (- 2 ^ 31 <= i + o + t < 2 ^ 31)%Z.

Lemma usage_event_adds data :
  usage_fits data ->
  exists lines, adds (fun s => let! s := render_token_usage s data in screen_append s []) (lines ++ [[]]).
Proof.
  intros Hu.
  assert (exists lines, adds (fun s => render_token_usage s data) lines) as [lines Ha].
  { unfold adds, render_token_usage. destruct data as [d|]; [|by exists []].
    destruct (yyjson_read d) as [root|] eqn:Ed; [|by exists []].
    destruct (Hu d root eq_refl Ed) as [Hu1 Hu2]. cbv zeta in *.
    rewrite !int_add_ok by done. cbn [obind]. rewrite int_add_ok by done. cbn [obind].
    destruct (_ =? 0)%Z; [by exists []|].
    match goal with |- context [apply_style ?t ?c] => destruct (apply_style_some t c) as [r ->] end.
    exists [r]. intros s. cbn [obind append_lines]. by destruct (screen_append s r). }
  exists lines. intros s. unfold adds in Ha. rewrite Ha, append_lines_app. cbn [append_lines].
  destruct (append_lines s lines) as [s'| | | |]; cbn [obind]; [|done..]. by destruct (screen_append s' []).
Qed.

Definition known_kinds : list cstr :=
  [lit "assistant"; lit "user"; lit "fork"; lit "tool_call"; lit "tool_result"; lit "command";
   lit "mark"; lit "usage"; lit "system"; lit "rewind"; lit "clear"; lit "agent_killed"].

(** The formatting of tool events succeeds. *)
Definition formats (kind : cstr) (content data_json : option cstr) : Prop :=
  (kind = lit "tool_call" ->
     exists f, ik_event_render_format_tool_call (T := T) content data_json = Ret f) /\
  (kind = lit "tool_result" ->
     exists f, ik_event_render_format_tool_result (T := T) content data_json = Ret f) /\
  (kind = lit "usage" -> usage_fits data_json).

Lemma event_adds kind content data interrupted :
  kind ∈ known_kinds -> formats kind content data ->
  exists lines, adds (fun s => ik_event_render (T := T) s kind content data interrupted) lines /\
    spaced lines.
Proof.
  intros Hk (Hc & Hr & Hu). unfold ik_event_render.
  destruct (event_style kind interrupted) as [color prefix].
  unfold known_kinds in Hk.
  repeat (apply elem_of_cons in Hk as [->|Hk]); [..|by apply not_elem_of_nil in Hk].
  1-3: exact (content_event_adds content color prefix).
  - destruct (Hc eq_refl) as [f ->]. exact (content_event_adds f color prefix).
  - destruct (Hr eq_refl) as [f ->]. exact (content_event_adds f color prefix).
  - exact (command_event_adds content data).
  - destruct (mark_event_adds data) as [line Ha]. exists [line; []]. split; [exact Ha|apply spaced_two].
  - destruct (usage_event_adds data (Hu eq_refl)) as [lines Ha]. exists (lines ++ [[]]).
    split; [exact Ha|right; by exists lines].
  - exists []. split; [done|apply spaced_none].
  - exists []. split; [done|apply spaced_none].
  - exists []. split; [done|apply spaced_none].
  - exists []. split; [done|apply spaced_none].
Qed.

Lemma c_string_some a b : exists s, c_string (a ++ 0%Z :: b) = Ret s.
Proof.
  induction a as [|x a [s IH]]; simpl; [by eexists|]. destruct (x =? 0)%Z; [by eexists|].
  rewrite IH. by eexists.
Qed.

Lemma get_string_some `{!ByteStoreLaws T} (buf : T) s :
  holds buf s -> exists t, ik_format_get_string buf = Ret t.
Proof.
  intros (Hok & Hb & Hl). unfold ik_format_get_string.
  assert (exists t, terminated buf = Ret t /\ (t = true -> exists a, s = a ++ [0%Z])) as (t & -> & Ht).
  { unfold terminated. rewrite (bs_size_ok buf Hok), Hb.
    destruct s as [|x s' _] using rev_ind; [by exists false|].
    rewrite (proj2 (Nat.ltb_lt _ _)) by len_lia. unfold data_at.
    rewrite (bs_ptr_some buf Hok) by (rewrite Hb; by destruct s').
    rewrite Hb, lookup_app_r by len_lia. rewrite length_app. cbn [length].
    replace (length s' + 1 - 1 - length s') with 0 by lia. cbn. exists (x =? 0)%Z. split; [done|].
    intros E. apply Z.eqb_eq in E. subst x. by exists s'. }
  cbn [obind]. destruct t.
  - destruct (Ht eq_refl) as [a Ha]. cbn [obind].
    rewrite (bs_ptr_some buf Hok) by (rewrite Hb, Ha; by destruct a). rewrite Hb, Ha. apply c_string_some.
  - destruct (bs_append_ok buf 0%Z Hok) as (t & -> & Ht' & Hbt); [rewrite Hb; lia|].
    cbn [or_die obind]. rewrite (bs_ptr_some t Ht') by (rewrite Hbt; by destruct (bs_bytes buf)).
    rewrite Hbt. apply c_string_some.
Qed.

Lemma raw_result_some `{!ByteStoreLaws T} content :
  exists s, ik_event_render_format_tool_result_raw (T := T) content = Ret s.
Proof.
  unfold ik_event_render_format_tool_result_raw.
  destruct buffer_create_ok as (b0 & -> & Hb0). cbn [obind].
  destruct (appendf_ok b0 [] ([0xE2; 0x86; 0x90; 0x20]%Z) Hb0 ltac:(simpl; lia) ltac:(simpl; lia))
    as (b1 & E1 & Hb1).
  change (default [] (ik_output_prefix IK_OUTPUT_TOOL_RESPONSE) ++ [32%Z])
    with [0xE2; 0x86; 0x90; 0x20]%Z. rewrite E1. cbn [obind].
  destruct content as [c|].
  - destruct (truncate_ok b1 _ c Hb1 ltac:(simpl; lia)) as (b2 & -> & Hb2). by eapply get_string_some.
  - destruct (append_ok b1 _ (lit "(no output)") Hb1 ltac:(simpl; lia)) as (b2 & -> & Hb2).
    by eapply get_string_some.
Qed.

End events.

(** ** The display of an agent

    What the conversation's handlers use: a screen, and the renderer with its
    data always present.  Their theorems are proved for every display that
    draws these events; [render_display] is the renderer above. *)

Class Display := {
  #[global] display_screen :: Screen;
  #[global] display_colors :: AnsiColors;
  event_render : screen -> cstr -> option cstr -> cstr -> bool -> outcome screen
}.

Class DisplaySpec `{Display} : Prop := {
  #[global] display_screen_spec :: ScreenSpec;
  event_render_some s k c d i :
    k ∈ [lit "user"; lit "assistant"; lit "mark"; lit "system"] \/
    (k ∈ [lit "tool_call"; lit "tool_result"] /\ d = lit "{}") ->
    exists s', event_render s k c d i = Ret s'
}.

Section display.
Context `{!AnsiColors} `{!Screen} `{!Yyjson} `{!Printf} {T : Type} `{!ByteStore T}.

Definition render_display : Display := {|
  event_render s k c d i := ik_event_render (T := T) s k c (Some d) i
|}.

Lemma render_display_spec `{!ScreenSpec} `{!YyjsonSpec} `{!ByteStoreLaws T} :
  @DisplaySpec render_display.
Proof.
  constructor; [done|]. intros s k c d i Hk. cbn [event_render render_display].
  destruct (event_adds (T := T) k c (Some d) i) as (lines & Ha & _).
  - destruct Hk as [Hk|[Hk _]]; rewrite !elem_of_cons in Hk;
      repeat destruct Hk as [->|Hk]; try (apply (bool_decide_unpack _); vm_compute; exact I);
      by apply not_elem_of_nil in Hk.
  - assert (k <> lit "usage" /\ (k = lit "tool_call" \/ k = lit "tool_result" -> d = lit "{}")) as (Hk2 & Hk3).
    { destruct Hk as [Hk|[Hk ->]]; rewrite !elem_of_cons in Hk;
        repeat destruct Hk as [->|Hk]; try (split; [done|]; intros [?|?]; done);
        by apply not_elem_of_nil in Hk. }
    split_and!; intros E; [..|done]; rewrite (Hk3 ltac:(auto)).
    + unfold ik_event_render_format_tool_call. destruct (has_prefix c _); [by eexists|].
      rewrite read_empty_object. by eexists.
    + unfold ik_event_render_format_tool_result. destruct (has_prefix c _); [by eexists|].
      rewrite read_empty_object. cbn [yyjson_obj_get find_field List.find fmap option_fmap option_map yyjson_get_str].
      destruct (raw_result_some (T := T) c) as [r ->]. by eexists.
  - unfold adds in Ha. rewrite Ha. apply append_lines_some.
Qed.

End display.

(** ** Properties *)

Lemma trim_kept (t : list Z) (b : Z) :
  (b ∉ [0x20; 0x09; 0x0A; 0x0D]%Z) ->
  ik_scrollback_trim_trailing (t ++ [b]) (length (t ++ [b])) = t ++ [b].
Proof.
  intros Hb. unfold ik_scrollback_trim_trailing. rewrite length_app. cbn [length].
  rewrite Nat.add_1_r. cbn [Nat.eqb trim_end]. rewrite byte_at_middle.
  destruct (_ || _)%bool eqn:E.
  - exfalso. apply Hb. rewrite !orb_true_iff, !Z.eqb_eq in E. set_solver.
  - by rewrite firstn_all2 by len_lia.
Qed.

Module RenderProps.

Section props.
Context `{!AnsiColors} `{!Screen} `{!Yyjson} `{!Printf} {T : Type} `{!ByteStore T}.

(** Every event of a known kind adds nothing or ends with a blank line, so
    two events never touch; an unknown kind is an error and adds nothing. *)
Theorem events_end_blank (kind : cstr) (content data_json : option cstr) (interrupted : bool) :
  (kind ∈ known_kinds -> formats (T := T) kind content data_json ->
     exists lines, spaced lines /\
       forall s, ik_event_render (T := T) s kind content data_json interrupted = append_lines s lines) /\
  ((kind ∉ known_kinds) ->
     forall s, ik_event_render (T := T) s kind content data_json interrupted = Fail ERR_INVALID_ARG).
Proof.
  split.
  - intros Hk Hf. destruct (event_adds kind content data_json interrupted Hk Hf) as (lines & Ha & Hs).
    by exists lines.
  - intros Hk s. unfold ik_event_render. destruct (event_style kind interrupted) as [color prefix].
    unfold known_kinds in Hk. rewrite !not_elem_of_cons in Hk.
    destruct Hk as (? & ? & ? & ? & ? & ? & ? & ? & ? & ? & ? & ? & _).
    unfold kind_is, strcmp_eq. cbn [existsb].
    by rewrite !bool_decide_eq_false_2.
Qed.

(** A user or assistant message is shown as its prefix, a space and its
    text, coloured line by line, and a blank line; in the scrollback the coloured
    line has, at every width, the layout of the plain one.  Text with trailing
    white space or with escape sequences is not covered. *)
Theorem message_shown `{!Utf8proc} `{!Utf8procSpec} `{!SlotAllocator}
    (kind : cstr) (cps : list Z) (t : list Z) (b : Z) (data_json : option cstr) (interrupted : bool) :
  kind ∈ [lit "user"; lit "assistant"] ->
  Forall scalar cps -> (27%Z ∉ cps) -> text_of cps = t ++ [b] -> (b ∉ [0x20; 0x09; 0x0A; 0x0D]%Z) ->
  exists prefix styled,
    snd (event_style kind interrupted) = Some (text_of prefix) /\
    (forall s, ik_event_render (T := T) s kind (Some (text_of cps)) data_json interrupted
               = append_lines s [styled; []]) /\
    let plain := text_of (prefix ++ 32%Z :: cps) in
    forall w : Z,
      ik_scrollback_calculate_layout styled (length styled) w
      = ik_scrollback_calculate_layout plain (length plain) w.
Proof.
  intros Hk Hs He Et Hb.
  assert (exists p color, event_style kind interrupted = (color, Some (encode_utf8 p)) /\
            (scalar p /\ p <> 27%Z) /\ (0 <= color < 256)%Z) as (p & color & Est & [Hp Hp'] & Hc).
  { rewrite !elem_of_cons in Hk. destruct Hk as [->|[->|Hk]]; [| |by apply not_elem_of_nil in Hk].
    - destruct interrupted;
        [exists 0x2717%Z, 242%Z|exists 0x276F%Z, 0%Z]; (split; [vm_compute; reflexivity|]); (split; [by split|lia]).
    - destruct interrupted; exists 0x25CF%Z, 249%Z; (split; [vm_compute; reflexivity|]); (split; [by split|lia]). }
  set (plain := p :: 32%Z :: cps).
  assert (Forall scalar plain /\ 27%Z ∉ plain) as [Hsp Hep].
  { unfold plain. split; [repeat (constructor; [done|]); done|]. rewrite !not_elem_of_cons.
    by split_and!. }
  exists [p], (bytes_of (style_pieces color plain)). rewrite Est, text_of_one. split; [done|]. split.
  - intros s. rewrite <- two_lines. unfold ik_event_render. rewrite Est.
    assert (kind_is kind [lit "assistant"; lit "user"; lit "fork"] = true) as ->.
    { rewrite !elem_of_cons in Hk.
      destruct Hk as [->|[->|Hk]]; [vm_compute; reflexivity..|by apply not_elem_of_nil in Hk]. }
    unfold render_content_event. rewrite Et.
    destruct (t ++ [b]) as [|x l] eqn:El; [by destruct t|]. rewrite <- El.
    assert (encode_utf8 p ++ [32%Z] ++ t ++ [b] = (encode_utf8 p ++ [32%Z] ++ t) ++ [b]) as ->
      by (by rewrite <- !app_assoc).
    rewrite trim_kept by done.
    assert ((encode_utf8 p ++ [32%Z] ++ t) ++ [b] = text_of plain) as ->.
    { unfold plain. rewrite !text_of_cons, Et, <- El. by rewrite <- !app_assoc. }
    assert (plain <> []) as Hne by done.
    destruct (text_of plain) as [|y m] eqn:Em; [by destruct Hne; apply text_of_nil_inv|]. rewrite <- Em.
    by rewrite apply_style_ok.
  - cbv zeta. intros w. apply layout_visible.
    destruct (style_pieces_visible color plain Hc Hsp Hep) as [Hok Hv].
    rewrite glyphs_of_pieces, Hv by done. cbn [app]. fold plain.
    by rewrite glyphs_of_text, visible_cps by done.
Qed.

End props.
End RenderProps.

Module RenderExamples.
Import CodedJson ListScreen RefUnicode CopySlots ZeroAlloc RenderProps.

#[local] Instance no_reals : Printf := fun _ => lit "0".
#[local] Instance colors_on : AnsiColors := true.

Lemma events_end_blank_witness :
  exists lines, spaced lines /\
    ik_event_render (T := Array.ik_array) [] (lit "user") (Some (lit "hi")) None false = Ret lines.
Proof.
  destruct (proj1 (events_end_blank (T := Array.ik_array) (lit "user") (Some (lit "hi")) None false))
    as (lines & Hs & E).
  - apply (bool_decide_unpack _); vm_compute; exact I.
  - split; [|split]; intros E; discriminate E.
  - exists lines. split; [exact Hs|]. specialize (E []). rewrite E.
    destruct Hs as [->|[l ->]]; [done|]. clear. rewrite append_lines_app.
    assert (forall acc : list cstr, append_lines acc l = Ret (acc ++ l)) as H.
    { induction l as [|x l IH]; intros acc; cbn [append_lines]; [by rewrite app_nil_r|].
      cbn [screen_append list_screen obind]. rewrite IH. by rewrite <- app_assoc. }
    by rewrite H.
Defined.

Lemma message_shown_witness :
  exists styled,
    ik_event_render (T := Array.ik_array) [] (lit "assistant") (Some (lit "hi")) None false
      = Ret [styled; []] /\
    ik_scrollback_calculate_layout styled (length styled) 80 =
    ik_scrollback_calculate_layout (text_of [0x25CF; 32; 104; 105]%Z) 6 80.
Proof.
  destruct (message_shown (T := Array.ik_array) (lit "assistant") [104; 105]%Z [104]%Z 105 None false)
    as (prefix & styled & Ep & Er & El).
  - apply (bool_decide_unpack _); vm_compute; exact I.
  - repeat constructor.
  - apply (bool_decide_unpack _); vm_compute; exact I.
  - vm_compute; reflexivity.
  - apply (bool_decide_unpack _); vm_compute; exact I.
  - exists styled. split; [exact (Er [])|].
    assert (text_of (prefix ++ [32; 104; 105]%Z) = text_of [0x25CF; 32; 104; 105]%Z) as E.
    { rewrite text_of_app. injection Ep as Ep. rewrite <- Ep. by vm_compute. }
    specialize (El 80%Z). cbv zeta in El. rewrite E in El. exact El.
Defined.

(** A message of spaces shows its bare prefix. *)
Example spaces_show_prefix :
  ik_event_render (T := Array.ik_array) [] (lit "user") (Some (lit "   ")) None false
    = Ret [[0xE2; 0x9D; 0xAF]%Z; []].
Proof. vm_compute; reflexivity. Qed.

End RenderExamples.

(** A display of a list of lines. *)
Module ListDisplay.
Import CodedJson ListScreen ZeroAlloc.

#[export] Instance list_display : Display :=
  @render_display false list_screen coded_json (fun _ => lit "0") Array.ik_array _.

#[export] Instance list_display_spec : DisplaySpec.
Proof. apply (@render_display_spec false list_screen coded_json (fun _ => lit "0") Array.ik_array _ _ _ _). Qed.

End ListDisplay.
