(* ===== verification/TokenCache.v ===== *)
(** * The sliding context window (token_cache.c, token_count.c, the token part
    of agent_state.c, marks.c, repl/agent_restore_replay.c)

    Token costs per turn with a cached total, the pruning of old turns against
    a budget, and the operations of an agent that add, drop and restore
    messages.  The cache points to its agent; here the agent is an argument.
    What the screen shows is behind the interface [Display], and the provider's
    token count (a vtable entry that calls a remote service) is a field of the
    agent. *)

From Stdlib Require Import String.
From stdpp Require Import strings.
From S2P Require Import Prelude Slots CString Json OutputStyle EventRender Conversation.

(** ** State *)

Definition TOKEN_UNCACHED : Z := -1.
Definition TURN_CAP_INITIAL : nat := 8.

Record ik_token_cache := mk_cache {
  context_start_index : nat;
  system_tokens : Z;
  tool_tokens : Z;
  turn_tokens : list Z;
  turn_count : nat;
  turn_capacity : nat;
  total_tokens : Z;
  budget : Z;
  pruned_turn_count : nat
}.

Record ik_mark := mk_mark {
  message_index : nat;
  label : option cstr;
  timestamp : cstr
}.

#[export] Instance ik_mark_inhabited : Inhabited ik_mark := populate (mk_mark 0 None []).

(** [count_tokens] is [None] when the agent has no provider instance or the
    provider no counting function, and gives [None] when the call fails.
    [effective_prompt] is the result of ik_agent_get_effective_system_prompt,
    which reads files, [None] when it fails. *)
Record ik_agent `{Display} := mk_agent {
  conv : conversation;
  token_cache : option ik_token_cache;
  marks : list ik_mark;
  agent_model : option cstr;
  count_tokens : option (ik_request -> option Z);
  effective_prompt : option (option cstr);
  response_input_tokens : Z;
  prev_response_input_tokens : Z;
  agent_screen : screen;
  screen_cols : Z
}.

Section cache.
Context `{Display} `{SlotAllocator}.

(** ** token_count.c *)

Definition ik_token_count_from_bytes (byte_count : nat) : Z :=
  int32_wrap (Z.of_nat (byte_count / 4)).

(** ** Helpers of token_cache.c *)

Definition alloc_cache (capacity : nat) : outcome ik_token_cache :=
  let! ts := if (0 <? capacity)%nat then or_panic (alloc_slots 0%Z (wrap32 capacity)) else Ret [] in
  Ret (mk_cache 0 TOKEN_UNCACHED TOKEN_UNCACHED ts 0 capacity TOKEN_UNCACHED 100000 0).

Definition strlen_opt (s : option cstr) : nat := match s with Some s => length s | None => 0 end.

Definition block_bytes (blk : ik_content_block) : nat :=
  match blk with
  | IK_CONTENT_TEXT text => strlen_opt text
  | IK_CONTENT_TOOL_CALL _ _ arguments _ => strlen_opt arguments
  | IK_CONTENT_TOOL_RESULT _ content _ => strlen_opt content
  | IK_CONTENT_THINKING text _ => strlen_opt text
  | IK_CONTENT_REDACTED_THINKING _ => 0
  end.

Fixpoint estimate_loop (ms : list ik_message) (n i total : nat) : outcome nat :=
  match n with
  | 0 => Ret total
  | S n =>
      let! msg := arr_get ms i in
      estimate_loop ms n (S i) (total + sum_list (block_bytes <$> content_blocks msg))
  end.

Definition estimate_turn_bytes (a : ik_agent) (start end_ : nat) : outcome nat :=
  estimate_loop (messages (conv a)) (end_ - start) start 0.

Definition is_user (m : ik_message) : bool := bool_decide (role m = IK_ROLE_USER).

(** The scan for the bounds of a turn; [turn_start] is set once it is found. *)
Fixpoint bounds_loop (ms : list ik_message) (n i turn_index user_count : nat)
    (turn_start : option nat) : outcome (option (nat * nat)) :=
  match n with
  | 0 => Ret (match turn_start with Some s => Some (s, i) | None => None end)
  | S n =>
      let! msg := arr_get ms i in
      if is_user msg then
        if (user_count =? turn_index)%nat then
          bounds_loop ms n (S i) turn_index (S user_count) (Some i)
        else
          match turn_start with
          | Some s =>
              if (user_count =? turn_index + 1)%nat then Ret (Some (s, i))
              else bounds_loop ms n (S i) turn_index (S user_count) (Some s)
          | None => bounds_loop ms n (S i) turn_index (S user_count) None
          end
      else bounds_loop ms n (S i) turn_index user_count turn_start
  end.

Definition find_turn_bounds (c : ik_token_cache) (a : ik_agent) (turn_index : nat)
  : outcome (option (nat * nat)) :=
  bounds_loop (messages (conv a)) (message_count (conv a) - context_start_index c)
    (context_start_index c) turn_index 0 None.

Definition provider_count (a : ik_agent) (req : ik_request) : Z :=
  match count_tokens a with
  | None => TOKEN_UNCACHED
  | Some count => default TOKEN_UNCACHED (count req)
  end.

Definition model_or_default (a : ik_agent) : cstr := default (lit "default") (agent_model a).

Fixpoint add_blocks_loop (req : ik_request) (ms : list ik_message) (n i : nat)
  : outcome ik_request :=
  match n with
  | 0 => Ret req
  | S n =>
      let! msg := arr_get ms i in
      let! req := ik_request_add_message_blocks req (role msg) (content_blocks msg) in
      add_blocks_loop req ms n (S i)
  end.

Definition count_turn_via_provider (a : ik_agent) (msg_start msg_end : nat) : outcome Z :=
  let! req := add_blocks_loop (ik_request_create (model_or_default a)) (messages (conv a))
                (msg_end - msg_start) msg_start in
  Ret (provider_count a req).

(** ** Lifecycle *)

Definition ik_token_cache_create : outcome ik_token_cache := alloc_cache TURN_CAP_INITIAL.

Fixpoint copy_turns (src : list Z) (n i : nat) (dest : list Z) : outcome (list Z) :=
  match n with
  | 0 => Ret dest
  | S n => let! v := arr_get src i in let! dest := arr_set i v dest in copy_turns src n (S i) dest
  end.

Definition ik_token_cache_clone (src : ik_token_cache) : outcome ik_token_cache :=
  let cap := if (0 <? turn_capacity src)%nat then turn_capacity src else TURN_CAP_INITIAL in
  let! c := alloc_cache cap in
  let! ts := copy_turns (turn_tokens src) (turn_count src) 0 (turn_tokens c) in
  Ret (mk_cache (context_start_index src) (system_tokens src) (tool_tokens src) ts
         (turn_count src) cap (total_tokens src) (budget src) (pruned_turn_count src)).

(** ** Getters *)

Definition set_system (v : Z) (c : ik_token_cache) : ik_token_cache :=
  mk_cache (context_start_index c) v (tool_tokens c) (turn_tokens c) (turn_count c)
    (turn_capacity c) TOKEN_UNCACHED (budget c) (pruned_turn_count c).

Definition set_tools (v : Z) (c : ik_token_cache) : ik_token_cache :=
  mk_cache (context_start_index c) (system_tokens c) v (turn_tokens c) (turn_count c)
    (turn_capacity c) TOKEN_UNCACHED (budget c) (pruned_turn_count c).

Definition set_turns (ts : list Z) (c : ik_token_cache) : ik_token_cache :=
  mk_cache (context_start_index c) (system_tokens c) (tool_tokens c) ts (turn_count c)
    (turn_capacity c) TOKEN_UNCACHED (budget c) (pruned_turn_count c).

Definition ik_token_cache_get_system_tokens (c : ik_token_cache) (a : ik_agent)
  : Z * ik_token_cache :=
  if negb (system_tokens c =? TOKEN_UNCACHED)%Z then (system_tokens c, c)
  else
    let prompt := match effective_prompt a with Some p => p | None => None end in
    let count :=
      match effective_prompt a with
      | Some _ =>
          let req := ik_request_create (model_or_default a) in
          let req := match prompt with Some p => ik_request_set_system req p | None => req end in
          provider_count a req
      | None => TOKEN_UNCACHED
      end in
    if negb (count =? TOKEN_UNCACHED)%Z then (count, set_system count c)
    else (ik_token_count_from_bytes (strlen_opt prompt), c).

Definition ik_token_cache_get_tool_tokens (c : ik_token_cache) (a : ik_agent)
  : Z * ik_token_cache :=
  if negb (tool_tokens c =? TOKEN_UNCACHED)%Z then (tool_tokens c, c)
  else
    let count := provider_count a (ik_request_create (model_or_default a)) in
    if negb (count =? TOKEN_UNCACHED)%Z then (count, set_tools count c)
    else (0%Z, c).

Definition ik_token_cache_get_turn_tokens (c : ik_token_cache) (a : ik_agent) (turn_index : nat)
  : outcome (Z * ik_token_cache) :=
  if (turn_count c <=? turn_index)%nat then Panic
  else
    let! v := arr_get (turn_tokens c) turn_index in
    if negb (v =? TOKEN_UNCACHED)%Z then Ret (v, c)
    else
      let! bounds := find_turn_bounds c a turn_index in
      match bounds with
      | None => Ret (0%Z, c)
      | Some (msg_start, msg_end) =>
          let! count := count_turn_via_provider a msg_start msg_end in
          if negb (count =? TOKEN_UNCACHED)%Z then
            let! ts := arr_set turn_index count (turn_tokens c) in
            Ret (count, set_turns ts c)
          else
            let! bytes := estimate_turn_bytes a msg_start msg_end in
            Ret (ik_token_count_from_bytes bytes, c)
      end.

Fixpoint total_loop (c : ik_token_cache) (a : ik_agent) (n i : nat) (total : Z)
  : outcome (Z * ik_token_cache) :=
  match n with
  | 0 => Ret (total, c)
  | S n =>
      let! (v, c) := ik_token_cache_get_turn_tokens c a i in
      total_loop c a n (S i) (int32_wrap (total + v))
  end.

Definition set_total (v : Z) (c : ik_token_cache) : ik_token_cache :=
  mk_cache (context_start_index c) (system_tokens c) (tool_tokens c) (turn_tokens c)
    (turn_count c) (turn_capacity c) v (budget c) (pruned_turn_count c).

Definition ik_token_cache_get_total (c : ik_token_cache) (a : ik_agent)
  : outcome (Z * ik_token_cache) :=
  if negb (total_tokens c =? TOKEN_UNCACHED)%Z then Ret (total_tokens c, c)
  else
    let '(s, c) := ik_token_cache_get_system_tokens c a in
    let '(t, c) := ik_token_cache_get_tool_tokens c a in
    let! (total, c) := total_loop c a (turn_count c) 0 (int32_wrap (int32_wrap (0 + s) + t)) in
    Ret (total, set_total total c).

(** ** Recording and invalidation *)

Definition ik_token_cache_record_turn (c : ik_token_cache) (turn_index : nat) (tokens : Z)
  : outcome ik_token_cache :=
  if (turn_count c <=? turn_index)%nat then Panic
  else let! ts := arr_set turn_index tokens (turn_tokens c) in Ret (set_turns ts c).

Fixpoint fill_uncached (n i : nat) (ts : list Z) : outcome (list Z) :=
  match n with
  | 0 => Ret ts
  | S n => let! ts := arr_set i TOKEN_UNCACHED ts in fill_uncached n (S i) ts
  end.

Definition ik_token_cache_invalidate_all (c : ik_token_cache) : outcome ik_token_cache :=
  let! ts := fill_uncached (turn_count c) 0 (turn_tokens c) in
  Ret (mk_cache (context_start_index c) TOKEN_UNCACHED TOKEN_UNCACHED ts (turn_count c)
         (turn_capacity c) TOKEN_UNCACHED (budget c) (pruned_turn_count c)).

Definition ik_token_cache_reset (c : ik_token_cache) : ik_token_cache :=
  mk_cache 0 TOKEN_UNCACHED TOKEN_UNCACHED (turn_tokens c) 0 (turn_capacity c) TOKEN_UNCACHED
    (budget c) 0.

Definition ik_token_cache_invalidate_system (c : ik_token_cache) : ik_token_cache :=
  set_system TOKEN_UNCACHED c.
Definition ik_token_cache_invalidate_tools (c : ik_token_cache) : ik_token_cache :=
  set_tools TOKEN_UNCACHED c.

(** ** Structure *)

(** "total -= tokens; if (total < 0) total = TOKEN_UNCACHED" *)
Definition subtract_turn (total tokens : Z) : Z :=
  let total := int32_wrap (total - tokens) in
  if (total <? 0)%Z then TOKEN_UNCACHED else total.

(** The index of the second user message from [i] on, if there is one. *)
Fixpoint second_user (ms : list ik_message) (n i user_count : nat) : outcome (option nat) :=
  match n with
  | 0 => Ret None
  | S n =>
      let! msg := arr_get ms i in
      if is_user msg then
        if (S user_count =? 2)%nat then Ret (Some i)
        else second_user ms n (S i) (S user_count)
      else second_user ms n (S i) user_count
  end.

(** memmove of the turns after the first one to the front. *)
Definition shift_turns (n : nat) (ts : list Z) : outcome (list Z) :=
  if decide (S n <= length ts) then Ret (take n (drop 1 ts) ++ drop n ts) else Undef.

Definition ik_token_cache_prune_oldest_turn (c : ik_token_cache) (a : ik_agent)
  : outcome ik_token_cache :=
  if (turn_count c =? 0)%nat then Ret c
  else
    let! total :=
      if negb (total_tokens c =? TOKEN_UNCACHED)%Z then
        let! v := arr_get (turn_tokens c) 0 in
        Ret (if negb (v =? TOKEN_UNCACHED)%Z then subtract_turn (total_tokens c) v
             else TOKEN_UNCACHED)
      else Ret TOKEN_UNCACHED in
    let! second := second_user (messages (conv a)) (message_count (conv a) - context_start_index c)
                     (context_start_index c) 0 in
    let start := default (message_count (conv a)) second in
    let n := turn_count c - 1 in
    let! ts := if (0 <? n)%nat then shift_turns n (turn_tokens c) else Ret (turn_tokens c) in
    Ret (mk_cache start (system_tokens c) (tool_tokens c) ts n (turn_capacity c) total (budget c)
           (S (pruned_turn_count c))).

Definition ik_token_cache_add_turn (c : ik_token_cache) : outcome ik_token_cache :=
  let! c :=
    if (turn_capacity c <=? turn_count c)%nat then
      let new_cap := if (0 <? turn_capacity c)%nat then wrap64 (turn_capacity c * 2)
                     else TURN_CAP_INITIAL in
      let! ts := or_panic (realloc_slots (turn_tokens c) (wrap32 new_cap)) in
      Ret (mk_cache (context_start_index c) (system_tokens c) (tool_tokens c) ts (turn_count c)
             new_cap (total_tokens c) (budget c) (pruned_turn_count c))
    else Ret c in
  let! ts := arr_set (turn_count c) TOKEN_UNCACHED (turn_tokens c) in
  Ret (mk_cache (context_start_index c) (system_tokens c) (tool_tokens c) ts (S (turn_count c))
         (turn_capacity c) TOKEN_UNCACHED (budget c) (pruned_turn_count c)).

(** The removed turns' costs leave the total until an uncached one is met. *)
Fixpoint subtract_loop (ts : list Z) (n i : nat) (total : Z) : outcome Z :=
  match n with
  | 0 => Ret total
  | S n =>
      let! v := arr_get ts i in
      if (v =? TOKEN_UNCACHED)%Z then Ret TOKEN_UNCACHED
      else subtract_loop ts n (S i)
             (if negb (total =? TOKEN_UNCACHED)%Z then subtract_turn total v else total)
  end.

Definition ik_token_cache_remove_turns_from (c : ik_token_cache) (turn_index : nat)
  : outcome ik_token_cache :=
  if (turn_count c <? turn_index)%nat then Panic
  else if (turn_index =? turn_count c)%nat then Ret c
  else
    let! total := subtract_loop (turn_tokens c) (turn_count c - turn_index) turn_index
                    (total_tokens c) in
    if (turn_index =? 0)%nat && (0 <? context_start_index c)%nat
    then Ret (mk_cache 0 (system_tokens c) (tool_tokens c) (turn_tokens c) turn_index
                (turn_capacity c) total (budget c) 0)
    else Ret (mk_cache (context_start_index c) (system_tokens c) (tool_tokens c) (turn_tokens c)
                turn_index (turn_capacity c) total (budget c) (pruned_turn_count c)).

(** ** Introspection *)

Definition ik_token_cache_get_budget (c : ik_token_cache) : Z := budget c.
Definition ik_token_cache_set_budget (c : ik_token_cache) (b : Z) : ik_token_cache :=
  mk_cache (context_start_index c) (system_tokens c) (tool_tokens c) (turn_tokens c)
    (turn_count c) (turn_capacity c) (total_tokens c) b (pruned_turn_count c).
Definition ik_token_cache_get_turn_count (c : ik_token_cache) : nat := turn_count c.
Definition ik_token_cache_get_context_start_turn (c : ik_token_cache) : nat := pruned_turn_count c.
Definition ik_token_cache_get_context_start_index (c : ik_token_cache) : nat :=
  context_start_index c.
Definition ik_token_cache_peek_total (c : ik_token_cache) : Z :=
  if (total_tokens c =? TOKEN_UNCACHED)%Z then 0%Z else total_tokens c.
Definition ik_token_cache_peek_turn_tokens (c : ik_token_cache) (turn_index : nat) : outcome Z :=
  if (turn_count c <=? turn_index)%nat then Panic
  else
    let! v := arr_get (turn_tokens c) turn_index in
    Ret (if (v =? TOKEN_UNCACHED)%Z then 0%Z else v).

End cache.

(** ** The agent (agent_state.c, marks.c, and the handlers that change the
    conversation) *)

Section agent.
Context `{Display} `{SlotAllocator} `{Yyjson}.

Definition with_cache (c : ik_token_cache) (a : ik_agent) : ik_agent :=
  mk_agent _ (conv a) (Some c) (marks a) (agent_model a) (count_tokens a) (effective_prompt a)
    (response_input_tokens a) (prev_response_input_tokens a) (agent_screen a) (screen_cols a).

Definition with_conv (c : conversation) (a : ik_agent) : ik_agent :=
  mk_agent _ c (token_cache a) (marks a) (agent_model a) (count_tokens a) (effective_prompt a)
    (response_input_tokens a) (prev_response_input_tokens a) (agent_screen a) (screen_cols a).

Definition with_marks (m : list ik_mark) (a : ik_agent) : ik_agent :=
  mk_agent _ (conv a) (token_cache a) m (agent_model a) (count_tokens a) (effective_prompt a)
    (response_input_tokens a) (prev_response_input_tokens a) (agent_screen a) (screen_cols a).

Definition with_prev_tokens (n : Z) (a : ik_agent) : ik_agent :=
  mk_agent _ (conv a) (token_cache a) (marks a) (agent_model a) (count_tokens a)
    (effective_prompt a) (response_input_tokens a) n (agent_screen a) (screen_cols a).

Definition with_screen (s : screen) (a : ik_agent) : ik_agent :=
  mk_agent _ (conv a) (token_cache a) (marks a) (agent_model a) (count_tokens a)
    (effective_prompt a) (response_input_tokens a) (prev_response_input_tokens a) s (screen_cols a).

(** *** The context rule *)

Definition rule (n : nat) : cstr := concat (replicate n [0xE2; 0x94; 0x80]%Z).

Definition append_context_hr (s : screen) (cols : Z) : outcome screen :=
  let label := lit " context " in
  let remaining := (cols - Z.of_nat (length label))%Z in
  let remaining := if (remaining <? 0)%Z then 0%Z else remaining in
  let left := Z.to_nat (remaining / 2) in
  let right := (Z.to_nat remaining - left)%nat in
  let hr := rule left ++ label ++ rule right in
  let hr_line := if ik_ansi_colors_enabled then fst (ik_ansi_fg_256 16 153) ++ hr ++ IK_ANSI_RESET
                 else hr in
  let! s := keep_on_error s (screen_append s []) in
  let! s := keep_on_error s (screen_append s hr_line) in
  keep_on_error s (screen_append s []).

(** The kind and content a message is drawn with. *)
Definition render_kind (m : ik_message) : cstr :=
  match role m with
  | IK_ROLE_USER => lit "user"
  | IK_ROLE_ASSISTANT => lit "assistant"
  | IK_ROLE_TOOL => lit "tool_result"
  end.

Definition render_content (m : ik_message) (block : ik_content_block) : option cstr :=
  match role m, block with
  | IK_ROLE_USER, IK_CONTENT_TEXT text | IK_ROLE_ASSISTANT, IK_CONTENT_TEXT text => text
  | IK_ROLE_TOOL, IK_CONTENT_TOOL_RESULT _ content _ => content
  | _, _ => None
  end.

Fixpoint refresh_loop (s : screen) (cols : Z) (ctx_idx : nat) (ms : list ik_message) (n i : nat)
  : outcome screen :=
  match n with
  | 0 => Ret s
  | S n =>
      let! s := if (i =? ctx_idx)%nat then append_context_hr s cols else Ret s in
      let! m := arr_get ms i in
      let! s :=
        match content_blocks m with
        | [] => Ret s
        | block :: _ =>
            match render_content m block with
            | Some text =>
                keep_on_error s
                  (event_render s (render_kind m) (Some text) (lit "{}") (interrupted m))
            | None => Ret s
            end
        end in
      refresh_loop s cols ctx_idx ms n (S i)
  end.

Definition refresh_scrollback_with_hr (a : ik_agent) : outcome ik_agent :=
  match token_cache a with
  | None => Ret a
  | Some c =>
      let ctx_idx := ik_token_cache_get_context_start_index c in
      if (ctx_idx =? 0)%nat then Ret a
      else
        let! s := refresh_loop (screen_clear (agent_screen a)) (screen_cols a) ctx_idx
                    (messages (conv a)) (message_count (conv a)) 0 in
        Ret (with_screen s a)
  end.

(** *** Pruning *)

(** The loop of ik_agent_prune_token_cache; each round drops a turn, so the
    number of turns bounds the rounds. *)
Fixpoint prune_loop (fuel : nat) (c : ik_token_cache) (a : ik_agent) (budget : Z)
  : outcome ik_token_cache :=
  match fuel with
  | 0 => NoFuel
  | S fuel =>
      let! (total, c) := ik_token_cache_get_total c a in
      if (budget <? total)%Z && (1 <? ik_token_cache_get_turn_count c)%nat then
        let! c := ik_token_cache_prune_oldest_turn c a in
        prune_loop fuel c a budget
      else Ret c
  end.

Definition ik_agent_prune_token_cache (a : ik_agent) : outcome ik_agent :=
  match token_cache a with
  | None => Ret a
  | Some c =>
      let! c := prune_loop (S (turn_count c)) c a (ik_token_cache_get_budget c) in
      refresh_scrollback_with_hr (with_cache c a)
  end.

Definition ik_agent_record_and_prune_token_cache (a : ik_agent) (was_success : bool)
  : outcome ik_agent :=
  match token_cache a with
  | None => Ret a
  | Some c =>
      if negb was_success then Ret a
      else
        let turn_count := ik_token_cache_get_turn_count c in
        let! c :=
          if (0 <? turn_count)%nat then
            let last_turn := turn_count - 1 in
            let delta := int32_wrap (response_input_tokens a - prev_response_input_tokens a) in
            if (0 <? delta)%Z then ik_token_cache_record_turn c last_turn delta
            else
              let! (est, c) := ik_token_cache_get_turn_tokens c a last_turn in
              if (0 <? est)%Z then ik_token_cache_record_turn c last_turn est else Ret c
          else Ret c in
        ik_agent_prune_token_cache
          (with_prev_tokens (response_input_tokens a) (with_cache c a))
  end.

(** *** Handlers that add or drop messages *)

(** The start of send_to_llm_for_agent: the user's message and its turn. *)
Definition add_user_message (a : ik_agent) (text : cstr) : outcome ik_agent :=
  match agent_model a with
  | None | Some [] =>
      let! s := keep_on_error (agent_screen a)
                  (screen_append (agent_screen a) (lit "Error: No model configured")) in
      Ret (with_screen s a)
  | Some _ =>
      let! cv := ik_agent_add_message (conv a) (ik_message_create_text IK_ROLE_USER text) in
      let a := with_conv cv a in
      match token_cache a with
      | None => Ret a
      | Some c => let! c := ik_token_cache_add_turn c in Ret (with_cache c a)
      end
  end.

(** A message of the model or a tool: ik_agent_add_message alone. *)
Definition add_reply (a : ik_agent) (m : ik_message) : outcome ik_agent :=
  let! cv := ik_agent_add_message (conv a) m in Ret (with_conv cv a).

(** The /clear command's changes to the agent. *)
Definition clear_agent (a : ik_agent) : ik_agent :=
  let a := with_screen (screen_clear (agent_screen a)) a in
  let a := with_conv (ik_agent_clear_messages (conv a)) a in
  let a := match token_cache a with
           | Some c => with_cache (ik_token_cache_reset c) a
           | None => a
           end in
  with_marks [] a.

(** The /model command's changes to the token cache. *)
Definition switch_model (a : ik_agent) (m : cstr) (count : option (ik_request -> option Z))
  : outcome ik_agent :=
  let a := mk_agent _ (conv a) (token_cache a) (marks a) (Some m) count (effective_prompt a)
             (response_input_tokens a) (prev_response_input_tokens a) (agent_screen a)
             (screen_cols a) in
  match token_cache a with
  | None => Ret a
  | Some c =>
      let! c := ik_token_cache_invalidate_all c in
      ik_agent_prune_token_cache (with_cache c a)
  end.

Definition is_conversation_kind (k : cstr) : bool :=
  existsb (strcmp_eq k)
    [lit "system"; lit "user"; lit "assistant"; lit "tool_call"; lit "tool_result"; lit "tool"].

(** The replayed events and whether each was interrupted. *)
Fixpoint ik_agent_restore_populate_conversation (a : ik_agent) (replay : list (ik_msg * bool))
  : outcome ik_agent :=
  match replay with
  | [] => Ret a
  | (msg, interrupted) :: replay =>
      if is_conversation_kind (kind msg) && negb interrupted then
        match ik_message_from_db_msg msg with
        | Fail _ => ik_agent_restore_populate_conversation a replay
        | Ret None => ik_agent_restore_populate_conversation a replay
        | Ret (Some m) =>
            let! a :=
              match token_cache a with
              | Some c => if is_user m
                          then let! c := ik_token_cache_add_turn c in Ret (with_cache c a)
                          else Ret a
              | None => Ret a
              end in
            let! cv := ik_agent_add_message (conv a) m in
            ik_agent_restore_populate_conversation (with_conv cv a) replay
        | Panic => Panic
        | Undef => Undef
        | NoFuel => NoFuel
        end
      else ik_agent_restore_populate_conversation a replay
  end.

(** A forked agent: a new agent with its own token cache, and the parent's
    conversation.  [blank] is the agent that ik_agent_create made. *)
Definition fork_conversation (blank parent : ik_agent) : outcome ik_agent :=
  let! cv := ik_agent_clone_messages (conv blank) (conv parent) in
  Ret (with_conv cv blank).

(** *** Marks *)

(** The JSON object with the mark's label. *)
Definition mark_json (label : option cstr) : cstr :=
  match label with
  | Some l => [0x7B; 0x22]%Z ++ lit "label" ++ [0x22; 0x3A; 0x22]%Z ++ l ++ [0x22; 0x7D]%Z
  | None => lit "{}"
  end.

(** [now] is the result of get_iso8601_timestamp. *)
Definition ik_mark_create (a : ik_agent) (label : option cstr) (now : outcome cstr)
  : outcome ik_agent :=
  let! timestamp := now in
  let mark := mk_mark (message_count (conv a)) label timestamp in
  let! new_marks := push_slot (marks a) mark in
  let a := with_marks new_marks a in
  let! s := event_render (agent_screen a) (lit "mark") None (mark_json label) false in
  Ret (with_screen s a).

(** The search from the most recent mark: [n] marks are left. *)
Fixpoint find_mark_loop (ms : list ik_mark) (n : nat) (l : cstr) : outcome nat :=
  match n with
  | 0 => Fail ERR_INVALID_ARG
  | S n =>
      let! mark := arr_get ms n in
      match label mark with
      | Some l' => if strcmp_eq l' l then Ret n else find_mark_loop ms n l
      | None => find_mark_loop ms n l
      end
  end.

(** The index of the mark found. *)
Definition ik_mark_find (a : ik_agent) (label : option cstr) : outcome nat :=
  if (length (marks a) =? 0)%nat then Fail ERR_INVALID_ARG
  else
    match label with
    | None => Ret (length (marks a) - 1)
    | Some l => find_mark_loop (marks a) (length (marks a)) l
    end.

Fixpoint count_users (ms : list ik_message) (n i acc : nat) : outcome nat :=
  match n with
  | 0 => Ret acc
  | S n =>
      let! m := arr_get ms i in
      count_users ms n (S i) (if is_user m then S acc else acc)
  end.

Fixpoint render_messages (s : screen) (ms : list ik_message) (n i : nat) : outcome screen :=
  match n with
  | 0 => Ret s
  | S n =>
      let! m := arr_get ms i in
      let! s :=
        match content_blocks m with
        | IK_CONTENT_TEXT text :: _ =>
            event_render s (render_kind m) text (lit "{}") (interrupted m)
        | _ => Ret s
        end in
      render_messages s ms n (S i)
  end.

Fixpoint render_marks (s : screen) (ms : list ik_mark) : outcome screen :=
  match ms with
  | [] => Ret s
  | m :: ms =>
      let! s := event_render s (lit "mark") None (mark_json (label m)) false in
      render_marks s ms
  end.

(** [target] is the index of the target mark, [system] the configured system
    message. *)
Definition ik_mark_rewind_to_mark (a : ik_agent) (system : option cstr) (target : nat)
  : outcome ik_agent :=
  let! mark := arr_get (marks a) target in
  let n := message_index mark in
  let a := with_conv (mk_conv (messages (conv a)) n (message_capacity (conv a))) a in
  let! a :=
    match token_cache a with
    | None => Ret a
    | Some c =>
        let csi := ik_token_cache_get_context_start_index c in
        let! new_turn_count := count_users (messages (conv a)) (n - csi) csi 0 in
        let! c := ik_token_cache_remove_turns_from c new_turn_count in
        Ret (with_cache c a)
    end in
  let a := with_marks (take (S target) (marks a)) a in
  let! s :=
    match system with
    | Some text =>
        event_render (screen_clear (agent_screen a)) (lit "system") (Some text) (lit "{}") false
    | None => Ret (screen_clear (agent_screen a))
    end in
  let! s := render_messages s (messages (conv a)) n 0 in
  let! s := render_marks s (marks a) in
  Ret (with_screen s a).

Definition ik_mark_rewind_to (a : ik_agent) (system : option cstr) (label : option cstr)
  : outcome ik_agent :=
  let! target := ik_mark_find a label in
  ik_mark_rewind_to_mark a system target.

End agent.

(** ** Turns *)

(** The positions of the user messages of [ms], which starts at [i]. *)
Fixpoint user_positions (ms : list ik_message) (i : nat) : list nat :=
  match ms with
  | [] => []
  | m :: ms => if is_user m then i :: user_positions ms (S i) else user_positions ms (S i)
  end.

(** The messages before the next user message. *)
Fixpoint until_user (ms : list ik_message) : list ik_message :=
  match ms with
  | [] => []
  | m :: ms => if is_user m then [] else m :: until_user ms
  end.

(** A turn is a user message and what follows it up to the next one. *)
Fixpoint turns (ms : list ik_message) : list (list ik_message) :=
  match ms with
  | [] => []
  | m :: ms => if is_user m then (m :: until_user ms) :: turns ms else turns ms
  end.

Lemma length_turns ms i : length (turns ms) = length (user_positions ms i).
Proof.
  revert i. induction ms as [|m ms IH]; intros i; [done|]. cbn [turns user_positions].
  destruct (is_user m); cbn [length]; by rewrite (IH (S i)).
Qed.

Lemma turns_app ms1 m ms2 : is_user m = true -> turns (ms1 ++ m :: ms2) = turns ms1 ++ turns (m :: ms2).
Proof.
  intros Hm. induction ms1 as [|x ms1 IH]; [done|]. cbn [app turns]. rewrite IH.
  destruct (is_user x); [|done]. cbn [app]. f_equal. f_equal.
  clear IH. induction ms1 as [|y ms1 IH]; cbn [app until_user]; [by rewrite Hm|].
  destruct (is_user y); [done|]. by rewrite IH.
Qed.

Lemma user_positions_bounds ms i p : p ∈ user_positions ms i -> i <= p < i + length ms.
Proof.
  revert i. induction ms as [|m ms IH]; intros i; cbn [user_positions length]; [set_solver|].
  destruct (is_user m).
  - intros [->|Hp]%elem_of_cons; [lia|]. apply IH in Hp. lia.
  - intros Hp. apply IH in Hp. lia.
Qed.

Lemma user_positions_app ms1 ms2 i :
  user_positions (ms1 ++ ms2) i = user_positions ms1 i ++ user_positions ms2 (i + length ms1).
Proof.
  revert i. induction ms1 as [|m ms1 IH]; intros i; cbn [app user_positions length];
    [by rewrite Nat.add_0_r|].
  rewrite IH. replace (S i + length ms1) with (i + S (length ms1)) by lia. by destruct (is_user m).
Qed.

Lemma user_positions_sorted ms i j k p q :
  j < k -> user_positions ms i !! j = Some p -> user_positions ms i !! k = Some q -> p < q.
Proof.
  revert i j k. induction ms as [|m ms IH]; intros i j k Hjk Hj Hk; [done|].
  cbn [user_positions] in *. destruct (is_user m); [|by eapply IH].
  destruct k as [|k]; [lia|]. cbn [lookup list_lookup] in Hk. destruct j as [|j]; cbn [lookup list_lookup] in Hj.
  - injection Hj as <-.
    pose proof (user_positions_bounds ms (S i) q (list_elem_of_lookup_2 _ _ _ Hk)). lia.
  - eapply (IH (S i) j k); [lia|done|done].
Qed.

(** Dropping the messages before the [k]-th user message drops [k] turns. *)
Lemma turns_drop_position ms i k p :
  user_positions ms i !! k = Some p ->
  turns (drop (p - i) ms) = drop k (turns ms) /\
  user_positions (drop (p - i) ms) p = drop k (user_positions ms i).
Proof.
  revert i k. induction ms as [|m ms IH]; intros i k Hk; [done|].
  pose proof (user_positions_bounds (m :: ms) i p (list_elem_of_lookup_2 _ _ _ Hk)) as Hb.
  cbn [user_positions turns] in *. destruct (is_user m) eqn:Hm.
  - destruct k as [|k]; cbn [lookup list_lookup] in Hk.
    + injection Hk as <-. rewrite Nat.sub_diag. cbn [drop turns user_positions]. by rewrite Hm.
    + pose proof (user_positions_bounds ms (S i) p (list_elem_of_lookup_2 _ _ _ Hk)).
      replace (p - i) with (S (p - S i)) by lia. cbn [drop]. by apply IH.
  - pose proof (user_positions_bounds ms (S i) p (list_elem_of_lookup_2 _ _ _ Hk)).
    replace (p - i) with (S (p - S i)) by lia. cbn [drop]. by apply IH.
Qed.

Lemma until_user_take ms i :
  until_user ms = take (default (i + length ms) (head (user_positions ms i)) - i) ms.
Proof.
  revert i. induction ms as [|m ms IH]; intros i; [by rewrite take_nil|]. cbn [until_user user_positions].
  destruct (is_user m); [by rewrite Nat.sub_diag|]. rewrite (IH (S i)).
  assert (S i <= default (S i + length ms) (head (user_positions ms (S i)))) as Hle.
  { destruct (user_positions ms (S i)) as [|p ps] eqn:E; simpl; [lia|].
    apply (user_positions_bounds ms (S i)). rewrite E. set_solver. }
  cbn [length]. rewrite Nat.add_succ_r.
  set (e := default _ _) in *. replace (e - i) with (S (e - S i)) by lia. done.
Qed.

(** A turn is a slice of the messages between two positions. *)
Lemma turn_slice ms i k p :
  user_positions ms i !! k = Some p ->
  turns ms !! k =
    Some (take (default (i + length ms) (user_positions ms i !! S k) - p) (drop (p - i) ms)).
Proof.
  intros Hk. destruct (turns_drop_position ms i k p Hk) as [Ht Hu].
  pose proof (user_positions_bounds ms i p (list_elem_of_lookup_2 _ _ _ Hk)) as Hb.
  assert (turns ms !! k = turns (drop (p - i) ms) !! 0) as -> by (by rewrite Ht, lookup_drop, Nat.add_0_r).
  assert (user_positions ms i !! S k = user_positions (drop (p - i) ms) p !! 1) as ->
    by (rewrite Hu, lookup_drop; f_equal; lia).
  assert (user_positions (drop (p - i) ms) p !! 0 = Some p) as H0p
    by (by rewrite Hu, lookup_drop, Nat.add_0_r).
  assert (i + length ms = p + length (drop (p - i) ms)) as -> by (rewrite length_drop; lia).
  set (l := drop (p - i) ms) in *. clearbody l. destruct l as [|m l]; [done|].
  cbn [user_positions] in H0p |- *. cbn [turns]. destruct (is_user m) eqn:Hm.
  2: { pose proof (user_positions_bounds l (S p) p (list_elem_of_lookup_2 _ _ _ H0p)). lia. }
  assert ((p :: user_positions l (S p)) !! 1 = head (user_positions l (S p))) as ->
    by (by destruct (user_positions l (S p))).
  cbn [lookup list_lookup length]. f_equal. rewrite (until_user_take l (S p)), Nat.add_succ_r.
  assert (S p <= default (S p + length l) (head (user_positions l (S p)))) as Hle.
  { destruct (user_positions l (S p)) as [|q ps] eqn:E; simpl; [lia|].
    apply (user_positions_bounds l (S p)). rewrite E. set_solver. }
  change (S (p + length l)) with (S p + length l). set (e := default _ _) in *.
  by replace (e - p) with (S (e - S p)) by lia.
Qed.

(** The scans of the code find these positions. *)
Lemma bounds_loop_found pre ms r t s :
  bounds_loop (pre ++ ms ++ r) (length ms) (length pre) t (S t) (Some s)
  = Ret (Some (s, default (length pre + length ms) (head (user_positions ms (length pre))))).
Proof.
  revert pre. induction ms as [|m ms IH]; intros pre; cbn [bounds_loop length user_positions];
    [by rewrite Nat.add_0_r|].
  cbn [app]. rewrite arr_get_app. cbn [obind].
  rewrite (proj2 (Nat.eqb_neq (S t) t)) by lia.
  replace (S t =? t + 1)%nat with true by (symmetry; apply Nat.eqb_eq; lia).
  destruct (is_user m); [done|].
  specialize (IH (pre ++ [m])). rewrite <- app_assoc, length_app, Nat.add_1_r in IH. cbn [app] in IH.
  rewrite IH. do 3 f_equal. by rewrite Nat.add_succ_r.
Qed.

Lemma bounds_loop_spec pre ms r t uc :
  uc <= t ->
  bounds_loop (pre ++ ms ++ r) (length ms) (length pre) t uc None
  = Ret (match user_positions ms (length pre) !! (t - uc) with
         | Some s => Some (s, default (length pre + length ms)
                                (user_positions ms (length pre) !! S (t - uc)))
         | None => None
         end).
Proof.
  revert pre uc. induction ms as [|m ms IH]; intros pre uc Huc; cbn [bounds_loop length user_positions].
  { done. }
  cbn [app]. rewrite arr_get_app. cbn [obind].
  assert (pre ++ m :: ms ++ r = (pre ++ [m]) ++ ms ++ r) as -> by (by rewrite <- app_assoc).
  replace (S (length pre)) with (length (pre ++ [m])) by (rewrite length_app; simpl; lia).
  replace (length pre + S (length ms)) with (length (pre ++ [m]) + length ms)
    by (rewrite length_app; simpl; lia).
  destruct (is_user m).
  - destruct (Nat.eqb_spec uc t) as [->|Hne].
    + rewrite bounds_loop_found, Nat.sub_diag. cbn [lookup list_lookup]. do 3 f_equal.
      by destruct (user_positions ms _).
    + rewrite IH by lia. replace (t - uc) with (S (t - S uc)) by lia. done.
  - by rewrite IH.
Qed.

Lemma second_user_one pre ms r :
  second_user (pre ++ ms ++ r) (length ms) (length pre) 1 = Ret (head (user_positions ms (length pre))).
Proof.
  revert pre. induction ms as [|m ms IH]; intros pre; cbn [second_user length user_positions]; [done|].
  cbn [app]. rewrite arr_get_app. cbn [obind]. destruct (is_user m); [done|].
  specialize (IH (pre ++ [m])). rewrite <- app_assoc, length_app, Nat.add_1_r in IH. exact IH.
Qed.

Lemma second_user_spec pre ms r :
  second_user (pre ++ ms ++ r) (length ms) (length pre) 0 = Ret (user_positions ms (length pre) !! 1).
Proof.
  revert pre. induction ms as [|m ms IH]; intros pre; cbn [second_user length user_positions]; [done|].
  cbn [app]. rewrite arr_get_app. cbn [obind].
  pose proof (second_user_one (pre ++ [m]) ms r) as E1. specialize (IH (pre ++ [m])).
  rewrite <- app_assoc, length_app, Nat.add_1_r in IH, E1. cbn [app] in IH, E1.
  destruct (is_user m); [|exact IH]. cbn [Nat.eqb]. rewrite E1. cbn [lookup list_lookup].
  by destruct (user_positions ms _).
Qed.

Lemma count_users_spec pre ms r acc :
  count_users (pre ++ ms ++ r) (length ms) (length pre) acc
  = Ret (acc + length (user_positions ms (length pre))).
Proof.
  revert pre acc. induction ms as [|m ms IH]; intros pre acc; cbn [count_users length user_positions];
    [by rewrite Nat.add_0_r|].
  cbn [app]. rewrite arr_get_app. cbn [obind]. specialize (IH (pre ++ [m])).
  rewrite <- app_assoc, length_app, Nat.add_1_r in IH. cbn [app] in IH.
  destruct (is_user m); rewrite IH; cbn [length]; f_equal; lia.
Qed.

(** ** Representation of a cache and the cost of a context *)

Record cache_rep (c : ik_token_cache) (ts : list Z) : Prop := {
  rep_count : turn_count c = length ts;
  rep_turns : exists r, turn_tokens c = ts ++ r;
  rep_capacity : length (turn_tokens c) = turn_capacity c
}.

(** What reading the costs leaves alone. *)
Definition same_context (c c' : ik_token_cache) : Prop :=
  context_start_index c' = context_start_index c /\ turn_count c' = turn_count c /\
  turn_capacity c' = turn_capacity c /\ budget c' = budget c /\
  pruned_turn_count c' = pruned_turn_count c.

#[export] Instance same_context_preorder : PreOrder same_context.
Proof.
  split; [done|]. intros c1 c2 c3 (?&?&?&?&?) (?&?&?&?&?). unfold same_context. split_and!; congruence.
Qed.

Lemma rep_set_turn c ts i v x :
  cache_rep c ts -> ts !! i = Some x ->
  exists arr, arr_set i v (turn_tokens c) = Ret arr /\ cache_rep (set_turns arr c) (<[i := v]> ts).
Proof.
  intros [Hc [r Ht] Hl] Hi. rewrite Ht, (arr_set_lookup _ _ _ _ _ Hi). eexists. split; [done|].
  constructor; simpl; [by rewrite length_insert|by eexists|].
  rewrite <- Hl, Ht, !length_app, length_insert. done.
Qed.

Lemma rep_total c ts v : cache_rep c ts -> cache_rep (set_total v c) ts.
Proof. intros [Hc Ht Hl]. by constructor. Qed.

Section costs.
Context `{!Display} `{!SlotAllocator} `{!SlotAllocatorSpec}.

(** Every message has a content block, and there are fewer than 2^31. *)
Definition messages_ok (ms : list ik_message) : Prop :=
  Forall (fun m => content_blocks m <> []) ms /\ (Z.of_nat (length ms) < 2 ^ 31)%Z.

(** The request that counts some messages, and its cost. *)
Definition turn_request (a : ik_agent) (t : list ik_message) : ik_request :=
  mk_request None (requested <$> t) (Some (model_or_default a)) (IK_THINKING_MIN, false) [] (-1) (0%Z, None).

Definition bytes_of (t : list ik_message) : nat :=
  sum_list ((fun m => sum_list (block_bytes <$> content_blocks m)) <$> t).

Definition counted_or (a : ik_agent) (req : ik_request) (estimate : Z) : Z :=
  let n := provider_count a req in if (n =? TOKEN_UNCACHED)%Z then estimate else n.

(** The cost of a turn whose cached value is [v]. *)
Definition turn_cost (a : ik_agent) (v : Z) (t : list ik_message) : Z :=
  if negb (v =? TOKEN_UNCACHED)%Z then v
  else counted_or a (turn_request a t) (ik_token_count_from_bytes (bytes_of t)).

Definition costs (a : ik_agent) (ts : list Z) (ms : list ik_message) : list Z :=
  zip_with (turn_cost a) ts (turns ms).

(** The request that counts the system prompt, and its cost. *)
Definition system_count (a : ik_agent) : Z :=
  match effective_prompt a with
  | Some p =>
      provider_count a (match p with
                        | Some p => ik_request_set_system (ik_request_create (model_or_default a)) p
                        | None => ik_request_create (model_or_default a)
                        end)
  | None => TOKEN_UNCACHED
  end.

Definition system_cost (a : ik_agent) (c : ik_token_cache) : Z :=
  if negb (system_tokens c =? TOKEN_UNCACHED)%Z then system_tokens c
  else if negb (system_count a =? TOKEN_UNCACHED)%Z then system_count a
  else ik_token_count_from_bytes
         (strlen_opt match effective_prompt a with Some p => p | None => None end).

Definition tool_cost (a : ik_agent) (c : ik_token_cache) : Z :=
  if negb (tool_tokens c =? TOKEN_UNCACHED)%Z then tool_tokens c
  else counted_or a (ik_request_create (model_or_default a)) 0.

Definition zsum (l : list Z) : Z := foldr Z.add 0%Z l.

Lemma zsum_app l1 l2 : zsum (l1 ++ l2) = (zsum l1 + zsum l2)%Z.
Proof. induction l1 as [|x l1 IH]; [done|]. simpl. rewrite IH. lia. Qed.

Lemma zsum_nonneg l : Forall (fun x => 0 <= x)%Z l -> (0 <= zsum l)%Z.
Proof. induction 1; simpl; lia. Qed.

Lemma get_system_ok a c :
  exists c', ik_token_cache_get_system_tokens c a = (system_cost a c, c') /\ same_context c c' /\
    turn_tokens c' = turn_tokens c /\ system_cost a c' = system_cost a c /\
    tool_cost a c' = tool_cost a c /\
    (total_tokens c' = total_tokens c \/ total_tokens c' = TOKEN_UNCACHED).
Proof.
  unfold system_cost, tool_cost, ik_token_cache_get_system_tokens.
  destruct (system_tokens c =? TOKEN_UNCACHED)%Z eqn:Es; cbn [negb].
  2: { exists c. rewrite Es. split_and!; try done. by left. }
  set (n := match effective_prompt a with Some _ => _ | None => TOKEN_UNCACHED end).
  assert (n = system_count a) as -> by (subst n; unfold system_count; by destruct (effective_prompt a)).
  destruct (system_count a =? TOKEN_UNCACHED)%Z eqn:En; cbn [negb].
  - exists c. rewrite Es. cbn [negb]. split_and!; try done. by left.
  - exists (set_system (system_count a) c). cbn [set_system system_tokens]. rewrite En. cbn [negb].
    split_and!; try done. by right.
Qed.

Lemma get_tool_ok a c :
  exists c', ik_token_cache_get_tool_tokens c a = (tool_cost a c, c') /\ same_context c c' /\
    turn_tokens c' = turn_tokens c /\ system_cost a c' = system_cost a c /\
    tool_cost a c' = tool_cost a c /\
    (total_tokens c' = total_tokens c \/ total_tokens c' = TOKEN_UNCACHED).
Proof.
  unfold tool_cost, ik_token_cache_get_tool_tokens, counted_or.
  destruct (tool_tokens c =? TOKEN_UNCACHED)%Z eqn:Es; cbn [negb].
  2: { exists c. rewrite Es. split_and!; try done. by left. }
  destruct (provider_count a _ =? TOKEN_UNCACHED)%Z eqn:En; cbn [negb].
  - exists c. rewrite Es. cbn [negb]. split_and!; try done. by left.
  - exists (set_tools (provider_count a (ik_request_create (model_or_default a))) c).
    cbn [set_tools tool_tokens]. rewrite En. cbn [negb]. split_and!; try done. by right.
Qed.

Lemma add_blocks_loop_ok req pre ms r :
  (Z.of_nat (length (req_messages req) + length ms) < 2 ^ 32)%Z ->
  Forall (fun m => content_blocks m <> []) ms ->
  add_blocks_loop req (pre ++ ms ++ r) (length ms) (length pre) =
    Ret (mk_request (system_prompt req) (req_messages req ++ (requested <$> ms)) (model req)
           (thinking req) (tools req) (max_output_tokens req) (tool_choice req)).
Proof.
  revert req pre. induction ms as [|m ms IH]; intros req pre Hb Hc; cbn [add_blocks_loop length].
  { destruct req. simpl. by rewrite app_nil_r. }
  cbn [app length] in *. apply Forall_cons in Hc as [Hm Hc].
  rewrite arr_get_app. cbn [obind]. unfold ik_request_add_message_blocks.
  rewrite (proj2 (Nat.ltb_lt _ _)) by (destruct (content_blocks m); [done|simpl; lia]).
  unfold push_message. rewrite push_slot_ok by lia. cbn [obind].
  specialize (IH (mk_request (system_prompt req) (req_messages req ++ [requested m]) (model req)
           (thinking req) (tools req) (max_output_tokens req) (tool_choice req)) (pre ++ [m])).
  rewrite <- !app_assoc, length_app, Nat.add_1_r in IH. cbn [app] in IH.
  change (mk_message (role m) (content_blocks m) None false) with (requested m).
  rewrite IH; [|cbn [req_messages]; rewrite length_app; simpl; lia|done].
  cbn [req_messages system_prompt model thinking tools max_output_tokens tool_choice fmap list_fmap].
  by rewrite <- app_assoc.
Qed.

Lemma estimate_loop_ok pre ms r total :
  estimate_loop (pre ++ ms ++ r) (length ms) (length pre) total = Ret (total + bytes_of ms).
Proof.
  unfold bytes_of. revert pre total. induction ms as [|m ms IH]; intros pre total;
    cbn [estimate_loop length]; [by rewrite Nat.add_0_r|].
  cbn [app]. rewrite arr_get_app. cbn [obind]. specialize (IH (pre ++ [m])).
  rewrite <- app_assoc, length_app, Nat.add_1_r in IH. cbn [app] in IH. rewrite IH.
  cbn [fmap list_fmap]. rewrite sum_list_cons. f_equal. lia.
Qed.

(** The messages of a turn in the array. *)
Lemma slice_split (ms r : list ik_message) s e :
  s <= e <= length ms ->
  ms ++ r = take s ms ++ take (e - s) (drop s ms) ++ (drop (e - s) (drop s ms) ++ r) /\
  length (take s ms) = s /\ length (take (e - s) (drop s ms)) = e - s.
Proof.
  intros Hse. split_and!; [|rewrite length_take; lia|rewrite length_take, length_drop; lia].
  by rewrite !app_assoc, <- (app_assoc (take s ms)), take_drop, take_drop.
Qed.

End costs.

(** A cache that has one entry for every turn in the context of its agent. *)
Record aligned `{Display} (a : ik_agent) (c : ik_token_cache) (ms : list ik_message)
    (ts : list Z) : Prop := {
  al_conv : conv_rep (conv a) ms;
  al_cache : cache_rep c ts;
  al_start : context_start_index c <= length ms;
  al_turns : length ts = length (turns (drop (context_start_index c) ms))
}.

Section reading.
Context `{!Display} `{!SlotAllocator} `{!SlotAllocatorSpec}.

(** The messages in the context. *)
Definition context (c : ik_token_cache) (ms : list ik_message) : list ik_message :=
  drop (context_start_index c) ms.

Definition starts (c : ik_token_cache) (ms : list ik_message) : list nat :=
  user_positions (context c ms) (context_start_index c).

Lemma aligned_same a c c' ms ts :
  aligned a c ms ts -> same_context c c' -> turn_tokens c' = turn_tokens c -> aligned a c' ms ts.
Proof.
  intros [Hcv [Hc Ht Hl] Hs Hn] (E1 & E2 & E3 & E4 & E5) E. constructor; [done| |congruence|by rewrite E1].
  constructor; [congruence|by rewrite E|congruence].
Qed.

Lemma find_bounds_ok a c ms ts i :
  aligned a c ms ts ->
  find_turn_bounds c a i =
    Ret (match starts c ms !! i with
         | Some s => Some (s, default (length ms) (starts c ms !! S i))
         | None => None
         end).
Proof.
  intros [[Hc [r Hm] _] _ Hs _]. unfold find_turn_bounds, starts, context. rewrite Hc, Hm.
  rewrite <- (take_drop (context_start_index c) ms) at 1. rewrite <- app_assoc.
  pose proof (bounds_loop_spec (take (context_start_index c) ms) (drop (context_start_index c) ms) r i 0
    ltac:(lia)) as E.
  rewrite length_take_le, length_drop, Nat.sub_0_r in E by done. rewrite E.
  by replace (context_start_index c + (length ms - context_start_index c)) with (length ms) by lia.
Qed.

Lemma counted_slice a ms r s e t :
  messages_ok ms -> s <= e <= length ms -> t = take (e - s) (drop s ms) ->
  messages (conv a) = ms ++ r ->
  count_turn_via_provider a s e = Ret (provider_count a (turn_request a t)) /\
  estimate_turn_bytes a s e = Ret (bytes_of t).
Proof.
  intros [Hok Hlen] Hse -> Hm. unfold count_turn_via_provider, estimate_turn_bytes. rewrite Hm.
  destruct (slice_split ms r s e Hse) as (E & El & Em).
  set (pre := take s ms) in *. set (t := take (e - s) (drop s ms)) in *.
  assert (Forall (fun m => content_blocks m <> []) t) as Hok'
    by (apply Forall_take, Forall_drop, Hok).
  pose proof (add_blocks_loop_ok (ik_request_create (model_or_default a)) pre t
                (drop (e - s) (drop s ms) ++ r)) as E1.
  pose proof (estimate_loop_ok pre t (drop (e - s) (drop s ms) ++ r) 0) as E2.
  rewrite El, Em, <- E in E1, E2. rewrite E1, E2; [done| |done].
  cbn [req_messages ik_request_create length]. lia.
Qed.

Lemma get_turn_ok a c ms ts i v :
  aligned a c ms ts -> messages_ok ms -> ts !! i = Some v ->
  exists t c' ts', turns (context c ms) !! i = Some t /\
    ik_token_cache_get_turn_tokens c a i = Ret (turn_cost a v t, c') /\
    same_context c c' /\ aligned a c' ms ts' /\ costs a ts' (context c ms) = costs a ts (context c ms) /\
    system_cost a c' = system_cost a c /\ tool_cost a c' = tool_cost a c /\
    (c' = c \/ total_tokens c' = TOKEN_UNCACHED).
Proof.
  intros Hal Hok Hi. pose proof Hal as [[Hc [r Hm] Hcap] Hrep Hs Hn].
  pose proof (lookup_lt_Some _ _ _ Hi) as Hlt.
  destruct (lookup_lt_is_Some_2 (starts c ms) i) as [p Hp].
  { unfold starts, context. rewrite <- (length_turns _ (context_start_index c)). lia. }
  pose proof (turn_slice _ _ _ _ Hp) as Ht. fold (starts c ms) in Ht.
  pose proof (user_positions_bounds _ _ _ (list_elem_of_lookup_2 _ _ _ Hp)) as Hb.
  unfold context in Ht at 2 3. unfold context in Hb. rewrite length_drop in Hb.
  rewrite length_drop, drop_drop in Ht.
  replace (context_start_index c + (length ms - context_start_index c)) with (length ms) in Ht by lia.
  replace (context_start_index c + (p - context_start_index c)) with p in Ht by lia.
  set (e := default (length ms) (starts c ms !! S i)) in Ht.
  assert (p <= e <= length ms) as Hpe.
  { subst e. destruct (starts c ms !! S i) as [q|] eqn:Hq; simpl; [|lia].
    pose proof (user_positions_bounds _ _ _ (list_elem_of_lookup_2 _ _ _ Hq)) as Hq'.
    unfold context in Hq'. rewrite length_drop in Hq'.
    pose proof (user_positions_sorted _ _ i (S i) p q (Nat.lt_succ_diag_r i) Hp Hq). lia. }
  eexists _. unfold ik_token_cache_get_turn_tokens.
  pose proof Hrep as [Hcnt [tr Htr] Htc].
  rewrite (proj2 (Nat.leb_gt _ _)) by lia. rewrite Htr, (arr_get_lookup _ _ _ _ Hi). cbn [obind].
  unfold turn_cost. destruct (v =? TOKEN_UNCACHED)%Z eqn:Ev; cbn [negb].
  2: { exists c, ts. split; [exact Ht|]. split_and!; try done. by left. }
  rewrite (find_bounds_ok a c ms ts i Hal), Hp. cbn [obind]. fold e.
  destruct (counted_slice a ms r p e _ Hok Hpe eq_refl Hm) as [-> ->]. cbn [obind].
  set (t := take (e - p) (drop p ms)) in *. unfold counted_or.
  destruct (provider_count a (turn_request a t) =? TOKEN_UNCACHED)%Z eqn:En; cbn [negb obind].
  { exists c, ts. split; [exact Ht|]. split_and!; try done. by left. }
  set (n := provider_count a (turn_request a t)) in *.
  destruct (rep_set_turn c ts i n v Hrep Hi) as (arr & Ea & Hrep'). rewrite Htr in Ea. rewrite Ea.
  cbn [obind]. exists (set_turns arr c), (<[i := n]> ts). split; [exact Ht|].
  split_and!; try done.
  - constructor; [by constructor; [|by exists r|]|done|done|]. rewrite length_insert. exact Hn.
  - apply list_eq. intros j. unfold costs. rewrite !lookup_zip_with.
    destruct (decide (i = j)) as [<-|Hij]; [|by rewrite list_lookup_insert_ne].
    rewrite list_lookup_insert_eq by done. rewrite Hi, Ht. cbn [mbind option_bind].
    f_equal. unfold turn_cost. rewrite En, Ev. cbn [negb]. unfold counted_or. fold n. by rewrite En.
  - by right.
Qed.

(** The int32 sum the code computes. *)
Definition wrapped_sum (acc : Z) (l : list Z) : Z :=
  fold_left (fun acc v => int32_wrap (acc + v)) l acc.

Lemma wrapped_sum_exact acc l :
  (0 <= acc)%Z -> Forall (fun x => 0 <= x)%Z l -> (acc + zsum l < 2 ^ 31)%Z ->
  wrapped_sum acc l = (acc + zsum l)%Z.
Proof.
  intros Ha Hl. revert acc Ha. induction Hl as [|x l Hx Hl IH]; intros acc Ha Hb; [simpl; lia|].
  pose proof (zsum_nonneg l Hl). unfold wrapped_sum in *. cbn [fold_left zsum foldr] in *.
  fold (zsum l) in *. rewrite int32_wrap_small, IH by lia. lia.
Qed.

Lemma total_loop_ok n a c ms ts i acc :
  aligned a c ms ts -> messages_ok ms -> i + n = length ts ->
  exists c' ts', total_loop c a n i acc =
      Ret (wrapped_sum acc (drop i (costs a ts (context c ms))), c') /\
    same_context c c' /\ aligned a c' ms ts' /\
    costs a ts' (context c ms) = costs a ts (context c ms) /\
    system_cost a c' = system_cost a c /\ tool_cost a c' = tool_cost a c.
Proof.
  revert c ts i acc. induction n as [|n IH]; intros c ts i acc Hal Hok Hi; cbn [total_loop].
  { exists c, ts. rewrite drop_ge; [done|]. unfold costs. rewrite length_zip_with. lia. }
  destruct (lookup_lt_is_Some_2 ts i) as [v Hv]; [lia|].
  destruct (get_turn_ok a c ms ts i v Hal Hok Hv)
    as (t & c1 & ts1 & Ht & -> & Hsame & Hal1 & Hcost & Hsc & Htc & _).
  cbn [obind]. pose proof Hsame as (Es & _).
  assert (context c1 ms = context c ms) as Ec by (unfold context; by rewrite Es).
  destruct (IH c1 ts1 (S i) (int32_wrap (acc + turn_cost a v t)) Hal1 Hok)
    as (c2 & ts2 & -> & Hsame2 & Hal2 & Hcost2 & Hsc2 & Htc2).
  { pose proof (al_turns _ _ _ _ Hal). pose proof (al_turns _ _ _ _ Hal1).
    unfold context in Ec. rewrite Ec in *. lia. }
  rewrite Ec, Hcost in *. exists c2, ts2. split; [|split_and!; try congruence; by etransitivity].
  do 2 f_equal. assert (costs a ts (context c ms) !! i = Some (turn_cost a v t)) as Hci
    by (unfold costs; by rewrite lookup_zip_with, Hv, Ht).
  by rewrite (drop_S _ _ _ Hci).
Qed.

(** The total of a context, as the code adds it. *)
Definition summed (a : ik_agent) (c : ik_token_cache) (ts : list Z) (ms : list ik_message) : Z :=
  wrapped_sum (int32_wrap (int32_wrap (0 + system_cost a c) + tool_cost a c))
    (costs a ts (context c ms)).

Lemma get_total_ok a c ms ts :
  aligned a c ms ts -> messages_ok ms ->
  exists v c' ts', ik_token_cache_get_total c a = Ret (v, c') /\
    v = (if negb (total_tokens c =? TOKEN_UNCACHED)%Z then total_tokens c else summed a c ts ms) /\
    total_tokens c' = v /\ same_context c c' /\ aligned a c' ms ts' /\
    costs a ts' (context c ms) = costs a ts (context c ms) /\
    system_cost a c' = system_cost a c /\ tool_cost a c' = tool_cost a c.
Proof.
  intros Hal Hok. unfold ik_token_cache_get_total.
  destruct (total_tokens c =? TOKEN_UNCACHED)%Z eqn:Et; cbn [negb].
  2: { exists (total_tokens c), c, ts. split_and!; done. }
  destruct (get_system_ok a c) as (c1 & -> & Hs1 & Ht1 & Hsc1 & Htc1 & _).
  destruct (get_tool_ok a c1) as (c2 & -> & Hs2 & Ht2 & Hsc2 & Htc2 & _).
  pose proof (aligned_same _ _ _ _ _ Hal Hs1 Ht1) as Hal1.
  pose proof (aligned_same _ _ _ _ _ Hal1 Hs2 Ht2) as Hal2.
  rewrite (rep_count _ _ (al_cache _ _ _ _ Hal2)).
  destruct (total_loop_ok (length ts) a c2 ms ts 0
              (int32_wrap (int32_wrap (0 + system_cost a c) + tool_cost a c1)) Hal2 Hok eq_refl)
    as (c3 & ts3 & -> & Hs3 & Hal3 & Hcost3 & Hsc3 & Htc3).
  cbn [obind]. pose proof Hs1 as (E1 & _). pose proof Hs2 as (E2 & _).
  assert (context c2 ms = context c ms) as Ec by (unfold context; by rewrite E2, E1).
  rewrite Ec in *. rewrite Htc1. eexists _, (set_total _ c3), ts3.
  split; [reflexivity|]. split; [done|]. split; [done|].
  assert (same_context c c3) as Hs by (etransitivity; [exact Hs1|]; by etransitivity).
  split_and!; try done; try (unfold system_cost, tool_cost in *; simpl in *; congruence).
  destruct Hal3 as [Hcv Hrep Hst Hn]. constructor; [done|by apply rep_total|done|done].
Qed.

Lemma prune_oldest_ok a c ms ts v :
  aligned a c ms (v :: ts) ->
  exists c', ik_token_cache_prune_oldest_turn c a = Ret c' /\ aligned a c' ms ts /\
    turns (context c' ms) = tail (turns (context c ms)) /\
    starts c' ms = tail (starts c ms) /\
    context_start_index c' = default (length ms) (starts c ms !! 1) /\
    system_cost a c' = system_cost a c /\ tool_cost a c' = tool_cost a c /\
    budget c' = budget c /\ pruned_turn_count c' = S (pruned_turn_count c) /\
    total_tokens c' =
      (if negb (total_tokens c =? TOKEN_UNCACHED)%Z && negb (v =? TOKEN_UNCACHED)%Z
       then subtract_turn (total_tokens c) v else TOKEN_UNCACHED).
Proof.
  intros [[Hc [r Hm] Hcap] [Hcnt [tr Htr] Htc] Hs Hn]. unfold ik_token_cache_prune_oldest_turn.
  rewrite Hcnt. cbn [length Nat.eqb].
  rewrite Htr. change ((v :: ts) ++ tr) with (v :: (ts ++ tr)).
  change (arr_get (v :: ts ++ tr) 0) with (Ret v). cbn [obind].
  set (total := if negb (total_tokens c =? TOKEN_UNCACHED)%Z then _ else Ret TOKEN_UNCACHED).
  assert (total = Ret (if negb (total_tokens c =? TOKEN_UNCACHED)%Z && negb (v =? TOKEN_UNCACHED)%Z
       then subtract_turn (total_tokens c) v else TOKEN_UNCACHED)) as ->
    by (subst total; by destruct (total_tokens c =? TOKEN_UNCACHED)%Z).
  cbn [obind]. rewrite Hc, Hm.
  pose proof (second_user_spec (take (context_start_index c) ms) (context c ms) r) as E.
  unfold context in E at 1 2. rewrite length_take_le, length_drop, app_assoc, take_drop in E by done.
  rewrite E. cbn [obind].
  fold (context c ms). fold (starts c ms).
  replace (S (length ts) - 1) with (length ts) by lia.
  assert ((if (0 <? length ts)%nat then shift_turns (length ts) (v :: ts ++ tr)
           else Ret (v :: ts ++ tr)) = Ret (ts ++ drop (length ts) (v :: ts ++ tr))) as ->.
  { destruct (Nat.ltb_spec 0 (length ts)) as [|Hz]; [|by destruct ts; simpl in *; try lia].
    unfold shift_turns. rewrite decide_True by (simpl; rewrite length_app; lia).
    change (drop 1 (v :: ts ++ tr)) with (drop 0 (ts ++ tr)).
    by rewrite drop_0, take_app_length. }
  cbn [obind]. eexists. split; [reflexivity|].
  set (csi' := default (length ms) (starts c ms !! 1)).
  assert (csi' <= length ms /\ turns (drop csi' ms) = tail (turns (context c ms)) /\
          user_positions (drop csi' ms) csi' = tail (starts c ms)) as (Hle & Hts & Hst).
  { subst csi'. destruct (starts c ms !! 1) as [p|] eqn:Hp; cbn [default from_option id].
    - pose proof (user_positions_bounds _ _ _ (list_elem_of_lookup_2 _ _ _ Hp)) as Hb.
      destruct (turns_drop_position _ _ _ _ Hp) as [Ht Hu].
      unfold context in Hb, Ht, Hu. rewrite length_drop in Hb. rewrite drop_drop in Ht, Hu.
      replace (context_start_index c + (p - context_start_index c)) with p in Ht, Hu by lia.
      split; [lia|]. rewrite Ht, Hu. unfold starts, context.
      split; [by destruct (turns _)|by destruct (user_positions _ _)].
    - rewrite drop_ge by lia. cbn [turns user_positions].
      apply lookup_ge_None in Hp. unfold starts in *.
      pose proof (length_turns (context c ms) (context_start_index c)).
      destruct (user_positions (context c ms) _) as [|? [|]]; simpl in Hp; try lia;
        destruct (turns (context c ms)) as [|? [|]]; simpl in *; try lia; done. }
  split_and!; try done.
  constructor; simpl; [by constructor; [|exists r|]| |done|].
  - constructor; simpl; [done|by eexists|]. rewrite <- Htc, Htr, length_app, length_drop. simpl.
    rewrite length_app. lia.
  - rewrite Hts. unfold context. simpl in Hn. destruct (turns _); simpl in *; lia.
Qed.

(** What a context costs, and when the code's arithmetic computes it. *)
Definition context_cost (a : ik_agent) (c : ik_token_cache) (ts : list Z) (ms : list ik_message) : Z :=
  (system_cost a c + tool_cost a c + zsum (costs a ts (context c ms)))%Z.

Record affordable (a : ik_agent) (c : ik_token_cache) (ts : list Z) (ms : list ik_message) : Prop := {
  aff_system : (0 <= system_cost a c)%Z;
  aff_tools : (0 <= tool_cost a c)%Z;
  aff_turns : Forall (fun v => 0 <= v)%Z (costs a ts (context c ms));
  aff_total : (context_cost a c ts ms < 2 ^ 31)%Z
}.

(** The cached total, if there is one, is the cost of the context. *)
Definition coherent (a : ik_agent) (c : ik_token_cache) (ts : list Z) (ms : list ik_message) : Prop :=
  total_tokens c = TOKEN_UNCACHED \/ total_tokens c = context_cost a c ts ms.

Lemma summed_exact a c ts ms : affordable a c ts ms -> summed a c ts ms = context_cost a c ts ms.
Proof.
  intros [Hs Ht Hv Hb]. unfold summed, context_cost in *. pose proof (zsum_nonneg _ Hv).
  rewrite (int32_wrap_small (0 + _)), int32_wrap_small, wrapped_sum_exact; [lia|lia|done|lia|lia|lia].
Qed.

Lemma get_total_exact a c ms ts :
  aligned a c ms ts -> messages_ok ms -> affordable a c ts ms -> coherent a c ts ms ->
  exists c' ts', ik_token_cache_get_total c a = Ret (context_cost a c ts ms, c') /\
    total_tokens c' = context_cost a c ts ms /\ same_context c c' /\ aligned a c' ms ts' /\
    costs a ts' (context c ms) = costs a ts (context c ms) /\
    system_cost a c' = system_cost a c /\ tool_cost a c' = tool_cost a c.
Proof.
  intros Hal Hok Haff Hco. destruct (get_total_ok a c ms ts Hal Hok) as (v & c' & ts' & E & Hv & Hr).
  assert (v = context_cost a c ts ms) as ->.
  { rewrite Hv, (summed_exact _ _ _ _ Haff). destruct Hco as [->| ->]; [done|]. by destruct (context_cost a c ts ms =? TOKEN_UNCACHED)%Z. }
  exists c', ts'. split; [exact E|exact Hr].
Qed.

Lemma costs_cons a v ts ms t tt :
  turns ms = t :: tt -> costs a (v :: ts) ms = turn_cost a v t :: zip_with (turn_cost a) ts tt.
Proof. intros E. unfold costs. by rewrite E. Qed.

(** One round of pruning takes the first turn's cost off the total. *)
Lemma prune_oldest_cost a c ms ts v :
  aligned a c ms (v :: ts) -> affordable a c (v :: ts) ms ->
  total_tokens c = context_cost a c (v :: ts) ms ->
  exists c', ik_token_cache_prune_oldest_turn c a = Ret c' /\ aligned a c' ms ts /\
    costs a ts (context c' ms) = tail (costs a (v :: ts) (context c ms)) /\
    starts c' ms = tail (starts c ms) /\
    context_start_index c' = default (length ms) (starts c ms !! 1) /\
    system_cost a c' = system_cost a c /\ tool_cost a c' = tool_cost a c /\
    budget c' = budget c /\ pruned_turn_count c' = S (pruned_turn_count c) /\
    affordable a c' ts ms /\ coherent a c' ts ms.
Proof.
  intros Hal [Hs Ht Hv Hb] Htot.
  destruct (prune_oldest_ok a c ms ts v Hal) as (c' & E & Hal' & Htn & Hst & Hcs & Hsc & Htc & Hbu & Hpr & Hto).
  pose proof (al_turns _ _ _ _ Hal) as Hn. fold (context c ms) in Hn.
  destruct (turns (context c ms)) as [|t tt] eqn:Etn; [done|].
  assert (costs a ts (context c' ms) = tail (costs a (v :: ts) (context c ms))) as Hc
    by (rewrite (costs_cons _ _ _ _ _ _ Etn); unfold costs; by rewrite Htn).
  unfold context_cost in *. rewrite (costs_cons _ _ _ _ _ _ Etn) in Hv, Hb, Htot.
  apply Forall_cons in Hv as [Hv0 Hv]. cbn [zsum foldr] in Hb, Htot. fold (zsum (zip_with (turn_cost a) ts tt)) in Hb, Htot.
  pose proof (zsum_nonneg _ Hv). rewrite (costs_cons _ _ _ _ _ _ Etn) in Hc. cbn [tail] in Hc.
  exists c'. rewrite (costs_cons _ _ _ _ _ _ Etn). split_and!; try done.
  - constructor; rewrite ?Hsc, ?Htc, ?Hc; try done.
    unfold context_cost. rewrite Hsc, Htc, Hc. lia.
  - unfold coherent, context_cost. rewrite Hsc, Htc, Hc, Hto.
    destruct (total_tokens c =? TOKEN_UNCACHED)%Z; cbn [negb andb]; [by left|].
    destruct (v =? TOKEN_UNCACHED)%Z eqn:Ev; cbn [negb]; [by left|]. right.
    assert (turn_cost a v t = v) as Ect by (unfold turn_cost; by rewrite Ev).
    rewrite Ect in Htot, Hv0, Hb.
    unfold subtract_turn. rewrite Htot, int32_wrap_small by lia.
    rewrite (proj2 (Z.ltb_ge _ _)) by lia. lia.
Qed.

Lemma drop_tail {A} j (l : list A) : drop j (tail l) = drop (S j) l.
Proof. destruct l; [apply drop_nil|done]. Qed.

Lemma prune_loop_exact fuel B a c ms ts :
  length ts < fuel -> aligned a c ms ts -> messages_ok ms -> affordable a c ts ms ->
  coherent a c ts ms ->
  exists c' ts' k, prune_loop fuel c a B = Ret c' /\ aligned a c' ms ts' /\
    budget c' = budget c /\ pruned_turn_count c' = pruned_turn_count c + k /\
    starts c' ms = drop k (starts c ms) /\ (k = 0 -> context_start_index c' = context_start_index c) /\
    (0 < k -> starts c ms !! k = Some (context_start_index c')) /\
    length ts' = length ts - k /\ k <= length ts /\
    let cost j := (system_cost a c + tool_cost a c + zsum (drop j (costs a ts (context c ms))))%Z in
    total_tokens c' = cost k /\ ((cost k <= B)%Z \/ length ts - k <= 1) /\
    forall j, j < k -> (B < cost j)%Z /\ 1 < length ts - j.
Proof.
  revert c ts. induction fuel as [|fuel IH]; intros c ts Hf Hal Hok Haff Hco; [lia|].
  cbn [prune_loop].
  destruct (get_total_exact a c ms ts Hal Hok Haff Hco)
    as (c1 & ts1 & -> & Htot & Hsame & Hal1 & Hcost & Hsc & Htc). cbn [obind].
  pose proof Hsame as (Es & Et & _ & Eb & Ep).
  assert (context c1 ms = context c ms) as Ec by (unfold context; by rewrite Es).
  assert (starts c1 ms = starts c ms) as Est by (unfold starts; by rewrite Ec, Es).
  assert (length ts1 = length ts) as Elen.
  { pose proof (al_turns _ _ _ _ Hal) as N1. pose proof (al_turns _ _ _ _ Hal1) as N2.
    fold (context c ms) in N1. fold (context c1 ms) in N2. rewrite Ec in N2. lia. }
  unfold ik_token_cache_get_turn_count. rewrite (rep_count _ _ (al_cache _ _ _ _ Hal1)), Elen.
  destruct ((B <? context_cost a c ts ms)%Z && (1 <? length ts)%nat) eqn:Econd.
  2: { exists c1, ts1, 0. rewrite Nat.sub_0_r, drop_0, Htot. split_and!; try done; try lia.
       apply andb_false_iff in Econd as [Hc|Hc]; [apply Z.ltb_ge in Hc|apply Nat.ltb_ge in Hc];
         [left; unfold context_cost in *; rewrite drop_0; lia|by right]. }
  apply andb_true_iff in Econd as [HB%Z.ltb_lt Hn%Nat.ltb_lt].
  assert (context_cost a c1 ts1 ms = context_cost a c ts ms) as Ecc
    by (unfold context_cost; by rewrite Ec, Hcost, Hsc, Htc).
  destruct ts1 as [|v ts1]; [simpl in Elen; lia|].
  destruct (prune_oldest_cost a c1 ms ts1 v Hal1) as
    (c2 & -> & Hal2 & Hcost2 & Hst2 & Hcs2 & Hsc2 & Htc2 & Hb2 & Hp2 & Haff2 & Hco2).
  { destruct Haff. constructor; rewrite ?Ec, ?Hcost, ?Hsc, ?Htc; try done. by rewrite Ecc. }
  { by rewrite Ecc. }
  cbn [obind]. rewrite Ec, Hcost in Hcost2. rewrite Est in Hst2, Hcs2.
  destruct (IH c2 ts1) as (c3 & ts3 & k & -> & Hal3 & Hb3 & Hp3 & Hst3 & Hk0 & Hk1 & Hl3 & Hkl & Hto3 & Hor3 & Hmin);
    [simpl in Elen; lia|done..|].
  exists c3, ts3, (S k).
  assert (forall j, (system_cost a c2 + tool_cost a c2 + zsum (drop j (costs a ts1 (context c2 ms))))%Z
            = (system_cost a c + tool_cost a c + zsum (drop (S j) (costs a ts (context c ms))))%Z) as Hcj.
  { intros j. rewrite Hcost2, Hsc2, Htc2, Hsc, Htc. do 2 f_equal.
    by rewrite drop_tail. }
  assert (length (starts c ms) = length ts) as Hlst.
  { unfold starts. rewrite <- length_turns. symmetry. exact (al_turns _ _ _ _ Hal). }
  simpl in Elen. split_and!.
  - done.
  - done.
  - congruence.
  - lia.
  - by rewrite Hst3, Hst2, drop_tail.
  - lia.
  - intros _. destruct (decide (k = 0)) as [->|Hk].
    + rewrite (Hk0 eq_refl), Hcs2. destruct (lookup_lt_is_Some_2 (starts c ms) 1) as [p Hp]; [lia|].
      by rewrite Hp.
    + rewrite <- Hk1 by lia. rewrite Hst2. by destruct (starts c ms).
  - lia.
  - lia.
  - by rewrite <- Hcj.
  - rewrite <- Hcj. destruct Hor3; [by left|right; lia].
  - intros [|j] Hj.
    + rewrite drop_0. unfold context_cost in HB. lia.
    + rewrite <- Hcj. destruct (Hmin j ltac:(lia)). split; [done|lia].
Qed.

(** Whatever the costs are, pruning ends and keeps the turns aligned. *)
Lemma prune_loop_aligned fuel B a c ms ts :
  length ts < fuel -> aligned a c ms ts -> messages_ok ms ->
  exists c' ts', prune_loop fuel c a B = Ret c' /\ aligned a c' ms ts'.
Proof.
  revert c ts. induction fuel as [|fuel IH]; intros c ts Hf Hal Hok; [lia|]. cbn [prune_loop].
  destruct (get_total_ok a c ms ts Hal Hok) as (v & c1 & ts1 & -> & _ & _ & Hsame & Hal1 & _).
  cbn [obind]. pose proof Hsame as (Es & _).
  assert (length ts1 = length ts) as Elen.
  { pose proof (al_turns _ _ _ _ Hal) as N1. pose proof (al_turns _ _ _ _ Hal1) as N2.
    rewrite Es in N2. lia. }
  unfold ik_token_cache_get_turn_count. rewrite (rep_count _ _ (al_cache _ _ _ _ Hal1)).
  destruct ((B <? v)%Z && (1 <? length ts1)%nat) eqn:Econd; [|by exists c1, ts1].
  destruct ts1 as [|x ts1]; [by rewrite andb_false_r in Econd|].
  destruct (prune_oldest_ok a c1 ms ts1 x Hal1) as (c2 & -> & Hal2 & _). cbn [obind].
  apply (IH c2 ts1); [simpl in Elen; lia|done|done].
Qed.

End reading.

(** ** Operations of an agent *)

Inductive agent_op : Type :=
| OpUser (text : cstr)
| OpReply (m : ik_message)
| OpDone (was_success : bool) (input_tokens : Z)
| OpModel (m : cstr) (count : option (ik_request -> option Z))
| OpClear
| OpMark (label : option cstr) (now : outcome cstr)
| OpRewind (system : option cstr) (label : option cstr).

Section steps.
Context `{!Display} `{!SlotAllocator}.

(** The response's token count is stored before the turn is recorded. *)
Definition with_input_tokens (n : Z) (a : ik_agent) : ik_agent :=
  mk_agent _ (conv a) (token_cache a) (marks a) (agent_model a) (count_tokens a) (effective_prompt a)
    n (prev_response_input_tokens a) (agent_screen a) (screen_cols a).

Definition agent_step (a : ik_agent) (op : agent_op) : outcome ik_agent :=
  match op with
  | OpUser text => add_user_message a text
  | OpReply m => add_reply a m
  | OpDone was_success n => ik_agent_record_and_prune_token_cache (with_input_tokens n a) was_success
  | OpModel m count => switch_model a m count
  | OpClear => Ret (clear_agent a)
  | OpMark label now => ik_mark_create a label now
  | OpRewind system label => ik_mark_rewind_to a system label
  end.

Context `{!DisplaySpec} `{!SlotAllocatorSpec}.

Lemma append_hr_ok s cols : exists s', append_context_hr s cols = Ret s'.
Proof.
  unfold append_context_hr. destruct (append_keep s []) as [s1 ->]. cbn [obind].
  match goal with |- context [screen_append s1 ?t] => destruct (append_keep s1 t) as [s2 ->] end.
  cbn [obind]. apply append_keep.
Qed.

Lemma render_kind_known m :
  render_kind m ∈ [lit "user"; lit "assistant"; lit "mark"; lit "system"] \/
  (render_kind m ∈ [lit "tool_call"; lit "tool_result"] /\ lit "{}" = lit "{}").
Proof using Type. unfold render_kind. destruct (role m); [left|left|right; split; [|done]]; rewrite !elem_of_cons; auto. Qed.

Lemma refresh_loop_ok s cols idx pre ms r :
  exists s', refresh_loop s cols idx (pre ++ ms ++ r) (length ms) (length pre) = Ret s'.
Proof.
  revert s pre. induction ms as [|m ms IH]; intros s pre; cbn [refresh_loop length]; [by eexists|].
  assert (exists s1, (if (length pre =? idx)%nat then append_context_hr s cols else Ret s) = Ret s1)
    as [s1 ->] by (destruct (_ =? _)%nat; [apply append_hr_ok|by eexists]).
  cbn [obind app]. rewrite arr_get_app. cbn [obind].
  match goal with |- context [obind ?x _] => assert (exists s2, x = Ret s2) as [s2 ->] end.
  { destruct (content_blocks m) as [|b bs]; [by eexists|].
    destruct (render_content m b) as [text|]; [|by eexists].
    destruct (event_render_some s1 (render_kind m) (Some text) (lit "{}") (interrupted m)
                (render_kind_known m)) as [s2 ->]. by exists s2. }
  cbn [obind]. specialize (IH s2 (pre ++ [m])).
  rewrite <- app_assoc, length_app, Nat.add_1_r in IH. exact IH.
Qed.

Lemma refresh_ok a ms :
  conv_rep (conv a) ms -> exists s, refresh_scrollback_with_hr a = Ret (with_screen s a).
Proof.
  assert (with_screen (agent_screen a) a = a) as Hid by (by destruct a).
  intros [Hc [r Hm] _]. unfold refresh_scrollback_with_hr.
  destruct (token_cache a) as [c|]; [|by exists (agent_screen a); rewrite Hid].
  destruct (_ =? 0)%nat; [by exists (agent_screen a); rewrite Hid|].
  rewrite Hc, Hm.
  destruct (refresh_loop_ok (screen_clear (agent_screen a)) (screen_cols a)
              (ik_token_cache_get_context_start_index c) [] ms r) as [s E].
  cbn [app length] in E. rewrite E. by exists s.
Qed.

Lemma render_messages_ok s pre ms r :
  exists s', render_messages s (pre ++ ms ++ r) (length ms) (length pre) = Ret s'.
Proof.
  revert s pre. induction ms as [|m ms IH]; intros s pre; cbn [render_messages length]; [by eexists|].
  cbn [app]. rewrite arr_get_app. cbn [obind].
  match goal with |- context [obind ?x _] => assert (exists s2, x = Ret s2) as [s2 ->] end.
  { destruct (content_blocks m) as [|[]]; try (by eexists).
    apply event_render_some, render_kind_known. }
  cbn [obind]. specialize (IH s2 (pre ++ [m])).
  rewrite <- app_assoc, length_app, Nat.add_1_r in IH. exact IH.
Qed.

Lemma render_marks_ok s ms : exists s', render_marks s ms = Ret s'.
Proof.
  revert s. induction ms as [|m ms IH]; intros s; cbn [render_marks]; [by eexists|].
  destruct (event_render_some s (lit "mark") None (mark_json (label m)) false) as [s1 ->];
    [left; set_solver|]. cbn [obind]. apply IH.
Qed.

(** *** The cache's own operations on the turn array *)

Lemma add_turn_ok c ts :
  cache_rep c ts -> (Z.of_nat (turn_capacity c) < 2 ^ 31)%Z ->
  exists c', ik_token_cache_add_turn c = Ret c' /\ cache_rep c' (ts ++ [TOKEN_UNCACHED]) /\
    context_start_index c' = context_start_index c /\ budget c' = budget c /\
    pruned_turn_count c' = pruned_turn_count c /\ total_tokens c' = TOKEN_UNCACHED /\
    turn_capacity c' <= Nat.max (turn_capacity c) (Nat.max 8 (2 * length ts)).
Proof.
  intros [Hc [r Ht] Hl] Hcap. unfold ik_token_cache_add_turn.
  match goal with |- context [obind ?x _] => set (grown := x) end.
  assert (exists c1, grown = Ret c1 /\ cache_rep c1 ts /\ turn_count c1 < turn_capacity c1 /\
            context_start_index c1 = context_start_index c /\ budget c1 = budget c /\
            pruned_turn_count c1 = pruned_turn_count c /\
            turn_capacity c1 <= Nat.max (turn_capacity c) (Nat.max 8 (2 * length ts)))
    as (c1 & -> & [Hc1 [r1 Ht1] Hl1] & Hlt & E1 & E2 & E3 & E4).
  { subst grown. destruct (Nat.leb_spec (turn_capacity c) (turn_count c)) as [Hfull|Hroom].
    2: { exists c. split_and!; try done; [split; eauto|lia]. }
    assert (turn_capacity c = length ts) as Ecap by (rewrite Ht, length_app in Hl; lia).
    set (nc := if (0 <? turn_capacity c)%nat then _ else _).
    assert (length ts < nc /\ (Z.of_nat nc < 2 ^ 32)%Z /\ nc <= Nat.max 8 (2 * length ts))
      as (Hnc & Hnb & Hnm).
    { subst nc. destruct (Nat.ltb_spec 0 (turn_capacity c)); [rewrite wrap64_small by lia; lia|].
      unfold TURN_CAP_INITIAL. lia. }
    rewrite wrap32_small by done.
    destruct (realloc_slots_some (turn_tokens c) nc) as (rest & -> & Hlen); [lia|].
    cbn [or_panic obind]. eexists. split; [reflexivity|]. simpl. split_and!; try done; [|lia|lia].
    constructor; simpl; [done|exists (r ++ rest); by rewrite Ht, <- app_assoc|done]. }
  cbn [obind]. rewrite Ht1, Hc1.
  assert (r1 <> []) as Hr1 by (intros ->; rewrite Ht1, app_nil_r in Hl1; lia).
  rewrite arr_set_end by done. cbn [obind]. eexists. split; [reflexivity|]. simpl.
  split_and!; try done.
  constructor; simpl; [rewrite length_app; simpl; lia|by eexists|].
  rewrite <- Hl1, Ht1, !length_app, length_drop. destruct r1; [done|]. simpl. lia.
Qed.

Lemma fill_uncached_ok d ts r :
  fill_uncached (length ts) (length d) (d ++ ts ++ r) =
    Ret (d ++ replicate (length ts) TOKEN_UNCACHED ++ r).
Proof.
  revert d. induction ts as [|x ts IH]; intros d; [done|]. cbn [fill_uncached length app replicate].
  rewrite arr_set_middle. cbn [obind]. specialize (IH (d ++ [TOKEN_UNCACHED])).
  rewrite <- !app_assoc, length_app, Nat.add_1_r in IH. exact IH.
Qed.

Lemma invalidate_all_ok c ts :
  cache_rep c ts ->
  exists c', ik_token_cache_invalidate_all c = Ret c' /\
    cache_rep c' (replicate (length ts) TOKEN_UNCACHED) /\
    context_start_index c' = context_start_index c /\ total_tokens c' = TOKEN_UNCACHED.
Proof.
  intros [Hc [r Ht] Hl]. unfold ik_token_cache_invalidate_all. rewrite Hc, Ht.
  pose proof (fill_uncached_ok [] ts r) as E. cbn [app length] in E. rewrite E. cbn [obind].
  eexists. split; [reflexivity|]. split_and!; try done.
  constructor; simpl; [by rewrite length_replicate|by eexists|].
  by rewrite <- Hl, Ht, !length_app, length_replicate.
Qed.

Lemma subtract_loop_ok d ts r total :
  exists t, subtract_loop (d ++ ts ++ r) (length ts) (length d) total = Ret t.
Proof.
  revert d total. induction ts as [|x ts IH]; intros d total; cbn [subtract_loop length]; [by eexists|].
  cbn [app]. rewrite arr_get_app. cbn [obind]. destruct (x =? TOKEN_UNCACHED)%Z; [by eexists|].
  match goal with |- context [subtract_loop _ _ _ ?t] => specialize (IH (d ++ [x]) t) end.
  rewrite <- !app_assoc, length_app, Nat.add_1_r in IH. exact IH.
Qed.

Lemma remove_turns_ok c ts k :
  cache_rep c ts -> k <= length ts ->
  exists c', ik_token_cache_remove_turns_from c k = Ret c' /\ cache_rep c' (take k ts) /\
    context_start_index c' =
      (if (k =? 0)%nat && negb (length ts =? 0)%nat then 0 else context_start_index c).
Proof.
  intros Hrep Hk. pose proof Hrep as [Hc [r Ht] Hl]. unfold ik_token_cache_remove_turns_from.
  rewrite Hc, (proj2 (Nat.ltb_ge _ _)) by lia.
  destruct (Nat.eqb_spec k (length ts)) as [->|Hne].
  { exists c. rewrite firstn_all. split_and!; try done.
    by destruct (Nat.eqb_spec (length ts) 0) as [E|E]. }
  pose proof (subtract_loop_ok (take k ts) (drop k ts) r (total_tokens c)) as [t E].
  rewrite length_take_le, length_drop, app_assoc, take_drop in E by lia. rewrite Ht, E. cbn [obind].
  assert (cache_rep (mk_cache (context_start_index c) (system_tokens c) (tool_tokens c) (ts ++ r) k
            (turn_capacity c) t (budget c) (pruned_turn_count c)) (take k ts)) as Hrep'.
  { constructor; simpl; [rewrite length_take; lia| |by rewrite <- Hl, Ht].
    exists (drop k ts ++ r). by rewrite app_assoc, take_drop. }
  destruct (Nat.eqb_spec k 0) as [->|Hk0]; cbn [andb].
  - rewrite (proj2 (Nat.eqb_neq (length ts) 0)) by lia. cbn [negb].
    destruct (Nat.ltb_spec 0 (context_start_index c)).
    + eexists. split; [reflexivity|]. split; [|done]. destruct Hrep'. by constructor.
    + eexists. split; [reflexivity|]. split; [exact Hrep'|]. simpl. lia.
  - eexists. split; [reflexivity|]. by split.
Qed.

End steps.

(** ** The invariant of an agent *)

Section invariant.
Context `{!Display} `{!DisplaySpec} `{!SlotAllocator} `{!SlotAllocatorSpec}.

(** Marks are in the order of the positions they point to, all within the
    conversation. *)
Definition marks_ok (ms : list ik_mark) (n : nat) : Prop :=
  forall i j mi mj, i <= j -> ms !! i = Some mi -> ms !! j = Some mj ->
    message_index mi <= message_index mj <= n.

Record agent_inv (a : ik_agent) (ms : list ik_message) : Prop := {
  inv_cache : exists c ts, token_cache a = Some c /\ aligned a c ms ts;
  inv_blocks : Forall (fun m => content_blocks m <> []) ms;
  inv_marks : marks_ok (marks a) (length ms)
}.

(** Far from the sizes at which the arrays' 32-bit lengths wrap. *)
Definition small (a : ik_agent) (ms : list ik_message) : Prop :=
  (Z.of_nat (length ms) < 2 ^ 30)%Z /\ (Z.of_nat (message_capacity (conv a)) < 2 ^ 31)%Z /\
  (forall c, token_cache a = Some c -> (Z.of_nat (turn_capacity c) < 2 ^ 31)%Z).

(** A reply is not a user's message and has a block; a mark has its
    timestamp and fewer than 2^31 others before it; a rewind finds its mark, and
    either nothing was pruned or a turn of the context remains before the
    mark. *)
Definition op_fits (a : ik_agent) (ms : list ik_message) (op : agent_op) : Prop :=
  match op with
  | OpReply m => is_user m = false /\ content_blocks m <> []
  | OpMark _ now => (exists t, now = Ret t) /\ (Z.of_nat (length (marks a)) < 2 ^ 31)%Z
  | OpRewind _ label =>
      exists i mark c, ik_mark_find a label = Ret i /\ marks a !! i = Some mark /\
        token_cache a = Some c /\
        (context_start_index c = 0 \/
         Exists (fun m => is_user m = true)
           (drop (context_start_index c) (take (message_index mark) ms)))
  | _ => True
  end.

(** The conversation after an operation. *)
Definition op_messages (a : ik_agent) (ms : list ik_message) (op : agent_op) : list ik_message :=
  match op with
  | OpUser text =>
      match agent_model a with
      | Some (_ :: _) => ms ++ [ik_message_create_text IK_ROLE_USER text]
      | _ => ms
      end
  | OpReply m => ms ++ [m]
  | OpClear => []
  | OpRewind _ label =>
      match ik_mark_find a label with
      | Ret i => match marks a !! i with Some m => take (message_index m) ms | None => ms end
      | _ => ms
      end
  | _ => ms
  end.

Lemma add_message_small c ms m :
  conv_rep c ms -> (Z.of_nat (length ms) < 2 ^ 30)%Z -> (Z.of_nat (message_capacity c) < 2 ^ 31)%Z ->
  exists c', ik_agent_add_message c m = Ret c' /\ conv_rep c' (ms ++ [m]).
Proof.
  intros Hr Hl Hc.
  destruct (add_message_ok (Nat.max 16 (Nat.max (message_capacity c) (2 * length ms))) c ms m Hr)
    as (c' & E & Hr' & _); try lia. by exists c'.
Qed.

Lemma drop_snoc {A} n (l : list A) x : n <= length l -> drop n (l ++ [x]) = drop n l ++ [x].
Proof. intros. by rewrite drop_app_le. Qed.

Lemma turns_snoc_reply ms m : is_user m = false -> length (turns (ms ++ [m])) = length (turns ms).
Proof.
  intros Hm. rewrite !(length_turns _ 0), user_positions_app. cbn [user_positions]. rewrite Hm.
  by rewrite app_nil_r.
Qed.

Lemma turns_snoc_user ms m : is_user m = true -> length (turns (ms ++ [m])) = S (length (turns ms)).
Proof.
  intros Hm. rewrite !(length_turns _ 0), user_positions_app. cbn [user_positions]. rewrite Hm.
  rewrite length_app. simpl. lia.
Qed.

Lemma marks_ok_grow ms n n' : marks_ok ms n -> n <= n' -> marks_ok ms n'.
Proof. intros Hm Hn i j mi mj Hij Hi Hj. pose proof (Hm i j mi mj Hij Hi Hj). lia. Qed.

Lemma marks_ok_snoc ms n m : marks_ok ms n -> message_index m = n -> marks_ok (ms ++ [m]) n.
Proof.
  intros Hm Hn i j mi mj Hij Hi Hj.
  apply lookup_app_Some in Hj as [Hj|[Hlj Hj]].
  - apply (Hm i j mi mj Hij); [|done]. rewrite lookup_app_l in Hi; [done|].
    apply lookup_lt_Some in Hj. lia.
  - apply list_lookup_singleton_Some in Hj as [Hj <-].
    apply lookup_app_Some in Hi as [Hi|[_ Hi]].
    + pose proof (Hm i i mi mi ltac:(lia) Hi Hi). lia.
    + apply list_lookup_singleton_Some in Hi as [_ <-]. lia.
Qed.

(** The agent with another cache, conversation or screen. *)
Lemma inv_intro a ms c ts :
  token_cache a = Some c -> conv_rep (conv a) ms -> cache_rep c ts ->
  context_start_index c <= length ms -> length ts = length (turns (drop (context_start_index c) ms)) ->
  Forall (fun m => content_blocks m <> []) ms -> marks_ok (marks a) (length ms) -> agent_inv a ms.
Proof. intros Ec Hcv Hr Hs Hn Hb Hm. constructor; [|done|done]. exists c, ts. by split. Qed.

Lemma step_user a ms text :
  agent_inv a ms -> small a ms ->
  exists a', add_user_message a text = Ret a' /\ agent_inv a' (op_messages a ms (OpUser text)).
Proof.
  intros [(c & ts & Ec & [Hcv Hr Hs Hn]) Hb Hm] (Hl & Hcap & Htc). unfold add_user_message, op_messages.
  destruct (agent_model a) as [[|b p]|].
  1,3: match goal with |- context [screen_append ?s ?t] => destruct (append_keep s t) as [s' ->] end;
    eexists; (split; [reflexivity|]); by apply (inv_intro _ _ c ts).
  destruct (add_message_small (conv a) ms (ik_message_create_text IK_ROLE_USER text) Hcv Hl Hcap)
    as (cv & -> & Hcv'). cbn [obind]. change (token_cache (with_conv cv a)) with (token_cache a).
  rewrite Ec. destruct (add_turn_ok c ts Hr (Htc c Ec)) as (c' & -> & Hr' & Es & _). cbn [obind].
  eexists. split; [reflexivity|].
  apply (inv_intro _ _ c' (ts ++ [TOKEN_UNCACHED])); try done; rewrite ?Es, ?length_app; simpl; try lia.
  - rewrite drop_snoc, turns_snoc_user by done. rewrite Hn. lia.
  - apply Forall_app. split; [done|]. by repeat constructor.
  - eapply marks_ok_grow; [exact Hm|]. lia.
Qed.

Lemma step_reply a ms m :
  agent_inv a ms -> small a ms -> is_user m = false -> content_blocks m <> [] ->
  exists a', add_reply a m = Ret a' /\ agent_inv a' (ms ++ [m]).
Proof.
  intros [(c & ts & Ec & [Hcv Hr Hs Hn]) Hb Hm] (Hl & Hcap & _) Hu Hblk. unfold add_reply.
  destruct (add_message_small (conv a) ms m Hcv Hl Hcap) as (cv & -> & Hcv'). cbn [obind].
  eexists. split; [reflexivity|].
  apply (inv_intro _ _ c ts); try done; rewrite ?length_app; simpl; try lia.
  - by rewrite drop_snoc, turns_snoc_reply by done.
  - apply Forall_app. split; [done|]. by repeat constructor.
  - eapply marks_ok_grow; [exact Hm|]. lia.
Qed.

Lemma step_prune a ms c ts :
  token_cache a = Some c -> aligned a c ms ts -> Forall (fun m => content_blocks m <> []) ms ->
  (Z.of_nat (length ms) < 2 ^ 30)%Z -> marks_ok (marks a) (length ms) ->
  exists a', ik_agent_prune_token_cache a = Ret a' /\ agent_inv a' ms.
Proof.
  intros Ec Hal Hb Hl Hm. unfold ik_agent_prune_token_cache. rewrite Ec.
  assert (messages_ok ms) as Hok by (split; [done|lia]).
  destruct (prune_loop_aligned (S (turn_count c)) (ik_token_cache_get_budget c) a c ms ts)
    as (c' & ts' & -> & [Hcv Hr Hs Hn]); [rewrite (rep_count _ _ (al_cache _ _ _ _ Hal)); lia|done..|].
  cbn [obind]. destruct (refresh_ok (with_cache c' a) ms Hcv) as [s ->].
  eexists. split; [reflexivity|]. by apply (inv_intro _ _ c' ts').
Qed.

Lemma step_done a ms ok n :
  agent_inv a ms -> small a ms ->
  exists a', ik_agent_record_and_prune_token_cache (with_input_tokens n a) ok = Ret a' /\ agent_inv a' ms.
Proof.
  intros [(c & ts & Ec & Hal) Hb Hm] (Hl & _ & _). unfold ik_agent_record_and_prune_token_cache.
  change (token_cache (with_input_tokens n a)) with (token_cache a). rewrite Ec.
  set (a1 := with_input_tokens n a). assert (aligned a1 c ms ts) as Hal' by (by destruct Hal).
  destruct ok; cbn [negb]; [|eexists; split; [reflexivity|]; constructor; [by exists c, ts|done|done]].
  match goal with |- context [obind ?x _] => set (recorded := x) end.
  assert (exists c' ts', recorded = Ret c' /\ aligned a1 c' ms ts') as (c' & ts' & -> & Hal2).
  { subst recorded. unfold ik_token_cache_get_turn_count.
    pose proof (al_cache _ _ _ _ Hal') as Hrep. rewrite (rep_count _ _ Hrep).
    destruct (Nat.ltb_spec 0 (length ts)) as [Hpos|]; [|by exists c, ts].
    destruct (lookup_lt_is_Some_2 ts (length ts - 1)) as [v Hv]; [lia|].
    assert (forall c1 ts1 x, aligned a1 c1 ms ts1 -> length ts1 = length ts ->
      exists c' ts', ik_token_cache_record_turn c1 (length ts - 1) x = Ret c' /\ aligned a1 c' ms ts')
      as Hrec.
    { intros c1 ts1 x [Hcv1 Hr1 Hs1 Hn1] Hlen. unfold ik_token_cache_record_turn.
      rewrite (rep_count _ _ Hr1), (proj2 (Nat.leb_gt _ _)) by lia.
      destruct (lookup_lt_is_Some_2 ts1 (length ts - 1)) as [w Hw]; [lia|].
      destruct (rep_set_turn c1 ts1 _ x w Hr1 Hw) as (arr & -> & Hr2). cbn [obind].
      eexists _, _. split; [reflexivity|]. by constructor; [|exact Hr2| |rewrite length_insert]. }
    match goal with |- context [(0 <? ?d)%Z] => destruct (0 <? d)%Z end; [by apply (Hrec c ts)|].
    destruct (get_turn_ok a1 c ms ts _ v Hal' ltac:(split; [done|lia]) Hv)
      as (t & c1 & ts1 & _ & -> & Hsame & Hal1 & _). cbn [obind].
    destruct (0 <? turn_cost a1 v t)%Z; [|by exists c1, ts1]. apply (Hrec c1 ts1); [done|].
    pose proof (al_turns _ _ _ _ Hal1) as N1. pose proof (al_turns _ _ _ _ Hal') as N2.
    destruct Hsame as (Es & _). rewrite Es in N1. lia. }
  cbn [obind]. eapply (step_prune _ ms c' ts'); try done. by destruct Hal2.
Qed.

Lemma step_model a ms m count :
  agent_inv a ms -> small a ms -> exists a', switch_model a m count = Ret a' /\ agent_inv a' ms.
Proof.
  intros [(c & ts & Ec & [Hcv Hr Hs Hn]) Hb Hm] (Hl & _ & _). unfold switch_model.
  cbn [token_cache]. rewrite Ec.
  destruct (invalidate_all_ok c ts Hr) as (c' & -> & Hr' & Es & _). cbn [obind].
  eapply (step_prune _ ms c' (replicate (length ts) TOKEN_UNCACHED)); try done.
  by constructor; [|exact Hr'|rewrite Es|rewrite Es, length_replicate].
Qed.

Lemma step_clear a ms : agent_inv a ms -> agent_inv (clear_agent a) [].
Proof.
  intros [(c & ts & Ec & [Hcv [Hct [r Ht] Hl] Hs Hn]) Hb Hm].
  unfold clear_agent. cbn [token_cache with_conv with_screen]. rewrite Ec.
  apply (inv_intro _ _ (ik_token_cache_reset c) []); try done; [exact conv_rep_empty|].
  constructor; simpl; [done|by eexists|done].
Qed.

Lemma step_mark a ms label t :
  agent_inv a ms -> (Z.of_nat (length (marks a)) < 2 ^ 31)%Z ->
  exists a', ik_mark_create a label (Ret t) = Ret a' /\ agent_inv a' ms.
Proof.
  intros [(c & ts & Ec & [Hcv Hr Hs Hn]) Hb Hm] Hsm. unfold ik_mark_create. cbn [obind].
  rewrite push_slot_ok by lia. cbn [obind].
  match goal with |- context [event_render ?s ?k ?x ?d ?i] =>
    destruct (event_render_some s k x d i) as [s' ->]; [left; set_solver|] end.
  cbn [obind]. eexists. split; [reflexivity|]. apply (inv_intro _ _ c ts); try done.
  apply marks_ok_snoc; [done|]. exact (conv_count _ _ Hcv).
Qed.

(** *** Rewinding *)

Lemma length_turns_take ms n k : length (turns (drop k (take n ms))) <= length (turns (drop k ms)).
Proof.
  rewrite <- (take_drop n ms) at 2. rewrite drop_app, !(length_turns _ 0), user_positions_app, length_app. lia.
Qed.

Lemma count_users_from ms r n k :
  n <= length ms ->
  count_users (ms ++ r) (n - k) k 0 = Ret (length (turns (drop k (take n ms)))).
Proof.
  intros Hn. destruct (decide (k <= n)) as [Hk|Hk].
  - pose proof (count_users_spec (take k ms) (drop k (take n ms)) (drop n ms ++ r) 0) as E.
    rewrite length_take_le in E by lia. rewrite length_drop, length_take_le in E by lia.
    rewrite Nat.add_0_l in E. rewrite (length_turns _ k), <- E. f_equal.
    assert (take k ms = take k (take n ms)) as -> by (rewrite take_take; f_equal; lia).
    by rewrite !app_assoc, take_drop, take_drop.
  - replace (n - k) with 0 by lia. cbn [count_users].
    by rewrite drop_ge by (rewrite length_take; lia).
Qed.

(** What a rewind to mark [i] leaves. *)
Lemma rewind_result a ms c ts system label i mark :
  token_cache a = Some c -> aligned a c ms ts -> marks_ok (marks a) (length ms) ->
  ik_mark_find a label = Ret i -> marks a !! i = Some mark ->
  let n := message_index mark in
  let k := length (turns (drop (context_start_index c) (take n ms))) in
  exists a' c', ik_mark_rewind_to a system label = Ret a' /\
    conv_rep (conv a') (take n ms) /\ marks a' = take (S i) (marks a) /\
    token_cache a' = Some c' /\ cache_rep c' (take k ts) /\ k <= length ts /\
    context_start_index c' =
      (if (k =? 0)%nat && negb (length ts =? 0)%nat then 0 else context_start_index c).
Proof.
  intros Ec [Hcv Hr Hs Hn] Hm Hf Hi n k. unfold ik_mark_rewind_to. rewrite Hf. cbn [obind].
  unfold ik_mark_rewind_to_mark. unfold arr_get at 1. rewrite Hi. cbn [obind]. fold n.
  pose proof (Hm i i mark mark ltac:(lia) Hi Hi) as [_ Hle]. fold n in Hle.
  cbn [token_cache with_conv]. rewrite Ec.
  pose proof Hcv as [_ [r Hms] _]. cbn [conv messages with_conv]. rewrite Hms.
  unfold ik_token_cache_get_context_start_index.
  rewrite (count_users_from ms r n (context_start_index c) Hle). cbn [obind].
  assert (k <= length ts) as Hk by (rewrite Hn; apply length_turns_take).
  destruct (remove_turns_ok c ts k Hr Hk) as (c' & Ek & Hr' & Es). fold k. rewrite Ek. cbn [obind].
  cbn [marks with_cache with_marks agent_screen conv messages].
  match goal with |- context [obind ?x _] => assert (exists s, x = Ret s) as [s ->] end.
  { destruct system as [text|]; [|by eexists]. apply event_render_some. left. set_solver. }
  pose proof (render_messages_ok s [] (take n ms) (drop n ms ++ r)) as [s1 E1].
  cbn [app length] in E1. rewrite length_take_le, app_assoc, take_drop in E1 by done.
  cbn [obind conv with_cache with_conv with_marks messages marks]. rewrite E1. cbn [obind].
  destruct (render_marks_ok s1 (take (S i) (marks a))) as [s2 ->]. cbn [obind].
  eexists _, c'. split; [reflexivity|]. split_and!; try done.
  pose proof (conv_rep_truncate _ _ n Hcv Hle) as Hcv'. by rewrite Hms in Hcv'.
Qed.

Lemma exists_user_turns ms : Exists (fun m => is_user m = true) ms -> 0 < length (turns ms).
Proof.
  induction 1 as [m ms Hm|m ms _ IH]; cbn [turns]; [rewrite Hm; simpl; lia|].
  destruct (is_user m); simpl; lia.
Qed.

Lemma marks_ok_take ms n i m :
  marks_ok ms n -> ms !! i = Some m -> marks_ok (take (S i) ms) (message_index m).
Proof.
  intros Hm Hi j k mj mk Hjk Hj Hk.
  apply lookup_take_Some in Hj as [Hj Hjl]. apply lookup_take_Some in Hk as [Hk Hkl].
  pose proof (Hm j k mj mk Hjk Hj Hk). pose proof (Hm k i mk m ltac:(lia) Hk Hi). lia.
Qed.

Lemma step_rewind a ms system label :
  agent_inv a ms -> op_fits a ms (OpRewind system label) ->
  exists a', ik_mark_rewind_to a system label = Ret a' /\
    agent_inv a' (op_messages a ms (OpRewind system label)).
Proof.
  intros [(c & ts & Ec & Hal) Hb Hm] (i & mark & c0 & Hf & Hi & Ec0 & Hctx). rewrite Ec in Ec0.
  injection Ec0 as <-. cbn [op_messages]. rewrite Hf, Hi.
  destruct (rewind_result a ms c ts system label i mark Ec Hal Hm Hf Hi)
    as (a' & c' & E & Hcv & Hmk & Ec' & Hr & Hk & Es).
  exists a'. split; [exact E|].
  pose proof (Hm i i mark mark ltac:(lia) Hi Hi) as [_ Hle]. pose proof (al_start _ _ _ _ Hal) as Hs.
  assert (context_start_index c' = context_start_index c) as Ecs.
  { rewrite Es. destruct Hctx as [->|Hex%exists_user_turns]; [match goal with |- (if ?b then _ else _) = _ => by destruct b end|].
    by rewrite (proj2 (Nat.eqb_neq _ _)) by lia. }
  eapply (inv_intro _ _ c' _ Ec' Hcv Hr).
  - rewrite Ecs, length_take_le by lia.
    destruct Hctx as [->|Hex%exists_user_turns]; [lia|].
    destruct (decide (context_start_index c <= message_index mark)) as [|Hgt]; [done|].
    rewrite drop_ge in Hex by (rewrite length_take; lia). simpl in Hex. lia.
  - rewrite Ecs, length_take. lia.
  - by apply Forall_take.
  - rewrite Hmk, length_take_le by lia. by eapply marks_ok_take.
Qed.

End invariant.

(** ** Restoration *)

Section restore.
Context `{!Display} `{!SlotAllocator} `{!SlotAllocatorSpec} `{!Yyjson}.

(** The messages that replayed events give. *)
Definition restored_message (e : ik_msg * bool) : option ik_message :=
  if is_conversation_kind (kind (fst e)) && negb (snd e) then
    match ik_message_from_db_msg (fst e) with Ret (Some m) => Some m | _ => None end
  else None.

Definition restored (replay : list (ik_msg * bool)) : list ik_message := omap restored_message replay.

Lemma from_db_outcome db :
  match ik_message_from_db_msg db with
  | Ret (Some m) => content_blocks m <> []
  | Ret None | Fail _ => True
  | _ => False
  end.
Proof.
  assert (forall m b, last (content_blocks m) = Some b -> content_blocks m <> []) as Hl
    by (intros m b E En; by rewrite En in E).
  unfold ik_message_from_db_msg. destruct (strcmp_eq _ _); [done|].
  destruct (strcmp_eq _ _); [by destruct (content db)|].
  destruct (strcmp_eq _ _); [by destruct (content db)|].
  destruct (strcmp_eq _ _).
  { destruct (data_json db) as [d|]; [|done]. pose proof (tool_call_result d) as Hd.
    destruct (tool_call_from_json d); try done. destruct Hd as (_ & _ & i & n & x & E).
    cbn [obind]. by eapply Hl. }
  destruct (strcmp_eq _ _ || strcmp_eq _ _); [|done].
  destruct (data_json db) as [d|]; [|done]. pose proof (tool_result_result d) as Hd.
  destruct (tool_result_from_json d); try done. destruct Hd as (_ & _ & i & n & x & E).
  cbn [obind]. by eapply Hl.
Qed.

Lemma restored_blocks replay : Forall (fun m => content_blocks m <> []) (restored replay).
Proof.
  apply Forall_forall. intros m (e & He & Hm)%list_elem_of_omap. unfold restored_message in Hm.
  destruct (_ && _); [|done]. pose proof (from_db_outcome (fst e)) as Ho.
  destruct (ik_message_from_db_msg (fst e)) as [[m'|]| | | |]; simplify_eq. done.
Qed.

Lemma length_turns_le ms : length (turns ms) <= length ms.
Proof. induction ms as [|m ms IH]; [done|]. cbn [turns]. destruct (is_user m); simpl; lia. Qed.

(** One restored message. *)
Lemma restore_one C a c ms ts m :
  token_cache a = Some c -> aligned a c ms ts -> message_capacity (conv a) <= C ->
  turn_capacity c <= C -> 16 <= C -> 2 * length ms <= C -> (Z.of_nat C < 2 ^ 31)%Z ->
  exists a' c' ts',
    (let! a := (if is_user m
                then let! c := ik_token_cache_add_turn c in Ret (with_cache c a) else Ret a) in
     let! cv := ik_agent_add_message (conv a) m in Ret (with_conv cv a)) = Ret a' /\
    token_cache a' = Some c' /\ aligned a' c' (ms ++ [m]) ts' /\
    message_capacity (conv a') <= C /\ turn_capacity c' <= C /\
    context_start_index c' = context_start_index c /\ marks a' = marks a.
Proof.
  intros Ec [Hcv Hr Hs Hn] HC1 HC2 H16 Hroom HC.
  destruct (add_message_ok C (conv a) ms m Hcv HC1 Hroom H16 ltac:(lia)) as (cv & Ev & Hcv' & HC3).
  pose proof (length_turns_le (drop (context_start_index c) ms)) as Hle. rewrite length_drop in Hle.
  destruct (is_user m) eqn:Hu.
  - destruct (add_turn_ok c ts Hr ltac:(lia)) as (c1 & -> & Hr1 & Es & _ & _ & _ & Hcap).
    cbn [obind conv with_cache]. rewrite Ev. cbn [obind].
    eexists _, c1, _. split; [reflexivity|]. split_and!; try done; [|lia].
    constructor; [done|exact Hr1|rewrite Es, length_app; lia|].
    rewrite Es, drop_snoc, turns_snoc_user, length_app by done. simpl. lia.
  - cbn [obind]. rewrite Ev. cbn [obind].
    eexists _, c, ts. split; [reflexivity|]. split_and!; try done.
    constructor; [done|done|rewrite length_app; lia|].
    by rewrite drop_snoc, turns_snoc_reply by done.
Qed.

Lemma restore_ok C replay a c ms ts :
  token_cache a = Some c -> aligned a c ms ts -> message_capacity (conv a) <= C ->
  turn_capacity c <= C -> 16 <= C -> 2 * (length ms + length replay) <= C -> (Z.of_nat C < 2 ^ 31)%Z ->
  exists a' c' ts', ik_agent_restore_populate_conversation a replay = Ret a' /\
    token_cache a' = Some c' /\ aligned a' c' (ms ++ restored replay) ts' /\
    context_start_index c' = context_start_index c /\ marks a' = marks a.
Proof.
  revert a c ms ts. induction replay as [|[db i] replay IH]; intros a c ms ts Ec Hal HC1 HC2 H16 Hroom HC.
  { exists a, c, ts. unfold restored. cbn [omap list_omap]. by rewrite app_nil_r. }
  cbn [ik_agent_restore_populate_conversation length] in *. unfold restored.
  cbn [omap list_omap]. unfold restored_message at 1. cbn [fst snd].
  destruct (is_conversation_kind (kind db) && negb i); [|by apply (IH a c ms ts); try done; lia].
  pose proof (from_db_outcome db) as Ho.
  destruct (ik_message_from_db_msg db) as [[m|]|e| | |]; try done;
    try (apply (IH a c ms ts); try done; lia).
  rewrite Ec. destruct (restore_one C a c ms ts m Ec Hal HC1 HC2 H16 ltac:(lia) HC)
    as (a1 & c1 & ts1 & E & Ec1 & Hal1 & HC3 & HC4 & Es & Em).
  match goal with |- context [obind ?x _] => destruct x as [a2| | | |]; try done end.
  cbn [obind] in E |- *. destruct (ik_agent_add_message (conv a2) m) as [cv| | | |]; try done.
  cbn [obind] in E |- *. injection E as ->.
  destruct (IH a1 c1 (ms ++ [m]) ts1) as (a3 & c3 & ts3 & -> & Ec3 & Hal3 & Es3 & Em3); try done;
    [rewrite length_app; simpl; lia|].
  exists a3, c3, ts3. rewrite <- app_assoc in Hal3. split_and!; try done; congruence.
Qed.

End restore.

(** The number of turns is the number of user messages. *)
Definition user_count (ms : list ik_message) : nat := length (filter (fun m => is_user m = true) ms).

Lemma length_turns_users ms : length (turns ms) = user_count ms.
Proof.
  unfold user_count. induction ms as [|m ms IH]; [done|]. cbn [turns].
  destruct (is_user m) eqn:E.
  - rewrite filter_cons_True by done. cbn [length]. by rewrite IH.
  - rewrite filter_cons_False by congruence. done.
Qed.

Lemma turns_none ms : Forall (fun m => is_user m = false) ms -> turns ms = [].
Proof. induction 1 as [|m ms Hm _ IH]; [done|]. cbn [turns]. by rewrite Hm. Qed.

(** A cache without turns never prunes. *)
Lemma prune_no_turns `{!Display} `{!SlotAllocator} `{!SlotAllocatorSpec} a c ms :
  token_cache a = Some c -> conv_rep (conv a) ms -> turn_count c = 0 -> context_start_index c = 0 ->
  exists a' c', ik_agent_prune_token_cache a = Ret a' /\ token_cache a' = Some c' /\
    turn_count c' = 0 /\ context_start_index c' = 0 /\ conv a' = conv a.
Proof.
  intros Ec Hcv Hn Hs. unfold ik_agent_prune_token_cache. rewrite Ec.
  assert (exists v c', ik_token_cache_get_total c a = Ret (v, c') /\ same_context c c')
    as (v & c' & E & Hsame).
  { unfold ik_token_cache_get_total. destruct (negb _); [by exists (total_tokens c), c|].
    destruct (get_system_ok a c) as (c1 & -> & Hs1 & _). destruct (get_tool_ok a c1) as (c2 & -> & Hs2 & _).
    assert (turn_count c2 = 0) as -> by (destruct Hs1 as (_ & E1 & _), Hs2 as (_ & E2 & _); congruence).
    cbn [total_loop obind]. eexists _, _. split; [reflexivity|].
    by etransitivity. }
  cbn [prune_loop]. rewrite E. cbn [obind]. destruct Hsame as (E1 & E2 & _).
  unfold ik_token_cache_get_turn_count. rewrite E2, Hn, andb_false_r. cbn [obind].
  unfold refresh_scrollback_with_hr. cbn [token_cache with_cache].
  unfold ik_token_cache_get_context_start_index. rewrite E1, Hs. cbn [Nat.eqb].
  eexists _, c'. split; [reflexivity|]. split_and!; congruence || done.
Qed.

(** ** Properties *)

Module TokenProps.
Section properties.
Context `{!Display} `{!DisplaySpec} `{!SlotAllocator} `{!SlotAllocatorSpec} `{!Yyjson}.

(** pruning fits the context to the budget and drops no more than it must.
    The loop ends; it leaves the messages alone and drops the [k] oldest turns,
    where [k] is the least number for which the system, tool and remaining turn
    costs are within the budget or one turn is left; the context starts at the
    user message of the oldest turn kept, and the cached total is its cost. *)
Theorem prune_within_budget (a : ik_agent) (c : ik_token_cache) (ms : list ik_message) (ts : list Z) :
  token_cache a = Some c -> aligned a c ms ts -> messages_ok ms -> affordable a c ts ms ->
  coherent a c ts ms ->
  exists a' c' k, ik_agent_prune_token_cache a = Ret a' /\ token_cache a' = Some c' /\
    conv a' = conv a /\
    let cost j := (system_cost a c + tool_cost a c + zsum (drop j (costs a ts (context c ms))))%Z in
    k <= turn_count c /\ turn_count c' = turn_count c - k /\
    pruned_turn_count c' = pruned_turn_count c + k /\
    (k = 0 -> context_start_index c' = context_start_index c) /\
    (0 < k -> starts c ms !! k = Some (context_start_index c')) /\
    ik_token_cache_peek_total c' = cost k /\
    ((cost k <= budget c)%Z \/ turn_count c' <= 1) /\
    forall j, j < k -> (budget c < cost j)%Z /\ 1 < turn_count c - j.
Proof.
  intros Ec Hal Hok Haff Hco. unfold ik_agent_prune_token_cache. rewrite Ec.
  pose proof (rep_count _ _ (al_cache _ _ _ _ Hal)) as Hcnt.
  destruct (prune_loop_exact (S (turn_count c)) (budget c) a c ms ts)
    as (c' & ts' & k & E & Hal' & _ & Hp & _ & Hk0 & Hk1 & Hl & Hkl & Ht & Hor & Hmin);
    [lia|done..|].
  unfold ik_token_cache_get_budget. rewrite E. cbn [obind].
  destruct (refresh_ok (with_cache c' a) ms (al_conv _ _ _ _ Hal')) as [s ->].
  exists (with_screen s (with_cache c' a)), c', k.
  pose proof (rep_count _ _ (al_cache _ _ _ _ Hal')) as Hcnt'.
  rewrite Hcnt, Hcnt', Hl. split_and!; try done.
  unfold ik_token_cache_peek_total. destruct (Z.eqb_spec (total_tokens c') TOKEN_UNCACHED) as [Eu|]; [|done].
  exfalso. destruct Haff as [H1a H2a H3a _].
  assert (0 <= zsum (drop k (costs a ts (context c ms))))%Z by (by apply zsum_nonneg, Forall_drop).
  rewrite Ht in Eu. unfold TOKEN_UNCACHED in Eu. lia.
Qed.

(** C5: the token cache follows the conversation.  Take an agent whose cache has
    an entry for each turn in the context and whose arrays are far from 2^30
    messages and 2^31 slots ([small]).  Then a user message, a reply that is not
    a user's and has a block, the end of a response, a model switch, /clear, a
    mark (with its timestamp and fewer than 2^31 marks), and a rewind to a mark
    that exists, provided nothing was pruned or a user message of the context
    remains before the mark ([op_fits]), each succeed, change the conversation as
    they should, and leave as many entries as there are user messages from the
    context start on.  A rewind further back breaks this
    ([rewind_past_context_drops_turns]), and so does a fork, which is not among
    these operations ([fork_has_no_turns]). *)
Theorem turns_follow_messages (a : ik_agent) (ms : list ik_message) (op : agent_op) :
  agent_inv a ms -> small a ms -> op_fits a ms op ->
  exists a' c', agent_step a op = Ret a' /\ token_cache a' = Some c' /\
    agent_inv a' (op_messages a ms op) /\ conv_rep (conv a') (op_messages a ms op) /\
    ik_token_cache_get_turn_count c' =
      user_count (drop (ik_token_cache_get_context_start_index c') (op_messages a ms op)).
Proof.
  intros Hinv Hsm Hop.
  assert (exists a', agent_step a op = Ret a' /\ agent_inv a' (op_messages a ms op))
    as (a' & E & Hinv').
  { destruct op as [text|m|ok n|m count| |label now|system label]; cbn [agent_step op_messages op_fits] in *.
    - by apply step_user.
    - destruct Hop. by apply step_reply.
    - by apply step_done.
    - by apply step_model.
    - eexists. split; [done|]. by apply (step_clear _ ms).
    - destruct Hop as [[t ->] Hmk]. by apply step_mark.
    - by apply step_rewind. }
  destruct (inv_cache _ _ Hinv') as (c' & ts & Ec & [Hcv Hr Hs Hn]).
  exists a', c'. split_and!; try done. unfold ik_token_cache_get_turn_count.
  by rewrite (rep_count _ _ Hr), Hn, length_turns_users.
Qed.

(** a rewind past the context loses the turns that come back.  When turns
    were pruned and no user message of the context remains before the mark, the
    rewind starts the context again at the first message, so the pruned turns
    are sent again, but the cache has no entry for any of them. *)
Theorem rewind_past_context_drops_turns (a : ik_agent) (ms : list ik_message) (c : ik_token_cache)
    (system label : option cstr) (i : nat) (mark : ik_mark) :
  agent_inv a ms -> token_cache a = Some c -> 0 < turn_count c ->
  ik_mark_find a label = Ret i -> marks a !! i = Some mark ->
  Forall (fun m => is_user m = false) (drop (context_start_index c) (take (message_index mark) ms)) ->
  exists a' c', ik_mark_rewind_to a system label = Ret a' /\ token_cache a' = Some c' /\
    conv_rep (conv a') (take (message_index mark) ms) /\
    ik_token_cache_get_context_start_index c' = 0 /\ ik_token_cache_get_turn_count c' = 0.
Proof.
  intros [(c0 & ts & Ec0 & Hal) Hb Hm] Ec Hpos Hf Hi Hnone. rewrite Ec in Ec0. injection Ec0 as <-.
  destruct (rewind_result a ms c ts system label i mark Ec Hal Hm Hf Hi)
    as (a' & c' & E & Hcv & _ & Ec' & Hr & Hk & Es).
  assert (length (turns (drop (context_start_index c) (take (message_index mark) ms))) = 0) as Hz.
  { by rewrite turns_none. }
  rewrite Hz in *. pose proof (rep_count _ _ (al_cache _ _ _ _ Hal)) as Hcnt.
  exists a', c'. split_and!; try done.
  - unfold ik_token_cache_get_context_start_index. rewrite Es.
    by rewrite (proj2 (Nat.eqb_neq (length ts) 0)) by lia.
  - unfold ik_token_cache_get_turn_count. by rewrite (rep_count _ _ Hr).
Qed.

(** a forked agent's budget is not enforced.  The child has the parent's
    whole conversation and a new cache without turns, so recording a response
    and pruning change nothing: whatever the budget, the context still starts
    at the first message and the cache still has no turns. *)
Theorem fork_has_no_turns (blank parent : ik_agent) (ms : list ik_message) (c0 : ik_token_cache) (n b : Z) :
  conv_rep (conv parent) ms -> (Z.of_nat (length ms) < 2 ^ 32)%Z -> forallb complete ms = true ->
  ik_token_cache_create = Ret c0 -> token_cache blank = Some (ik_token_cache_set_budget c0 b) ->
  exists child child' c', fork_conversation blank parent = Ret child /\
    conv_rep (conv child) (cloned <$> ms) /\
    ik_agent_record_and_prune_token_cache (with_input_tokens n child) true = Ret child' /\
    conv child' = conv child /\ token_cache child' = Some c' /\
    ik_token_cache_get_turn_count c' = 0 /\ ik_token_cache_get_context_start_index c' = 0.
Proof.
  intros Hcv Hl Hall E0 Ec. unfold fork_conversation.
  pose proof (clone_messages_spec (conv blank) (conv parent) ms Hcv Hl) as Hs. rewrite Hall in Hs.
  destruct Hs as (d & -> & Hd & _). cbn [obind].
  assert (turn_count c0 = 0 /\ context_start_index c0 = 0) as [Hn Hst].
  { unfold ik_token_cache_create, alloc_cache in E0.
    destruct (if (0 <? TURN_CAP_INITIAL)%nat then _ else _) as [l| | | |]; simplify_eq/=. done. }
  exists (with_conv d blank). unfold ik_agent_record_and_prune_token_cache.
  cbn [token_cache with_input_tokens with_conv]. rewrite Ec. cbn [negb].
  unfold ik_token_cache_get_turn_count at 1. cbn [turn_count ik_token_cache_set_budget].
  rewrite Hn. cbn [Nat.ltb Nat.leb obind].
  match goal with |- context [ik_agent_prune_token_cache ?x] =>
    destruct (prune_no_turns x (ik_token_cache_set_budget c0 b) (cloned <$> ms))
      as (a' & c' & -> & Ec' & Hn' & Hs' & Hcv'); [done..|] end.
  exists a', c'. by split_and!.
Qed.

(** the total is the sum of the parts, and reading it again costs nothing.
    get_total gives the system, tool and turn costs added up, whichever of them
    were cached; it caches the sum, so that peek_total shows it and a second
    call returns it without a change to the cache. *)
Theorem get_total_sums (a : ik_agent) (c : ik_token_cache) (ms : list ik_message) (ts : list Z) :
  aligned a c ms ts -> messages_ok ms -> affordable a c ts ms -> coherent a c ts ms ->
  let total := (system_cost a c + tool_cost a c + zsum (costs a ts (context c ms)))%Z in
  exists c', ik_token_cache_get_total c a = Ret (total, c') /\
    ik_token_cache_peek_total c' = total /\ ik_token_cache_get_total c' a = Ret (total, c') /\
    same_context c c'.
Proof.
  intros Hal Hok Haff Hco total.
  destruct (get_total_exact a c ms ts Hal Hok Haff Hco) as (c' & ts' & E & Ht & Hs & _).
  change (context_cost a c ts ms) with total in *. exists c'.
  assert (total <> TOKEN_UNCACHED) as Hne.
  { destruct Haff as [Ha1 Ha2 Ha3 _]. pose proof (zsum_nonneg _ Ha3). unfold TOKEN_UNCACHED. subst total. lia. }
  apply Z.eqb_neq in Hne. split; [exact E|].
  unfold ik_token_cache_peek_total, ik_token_cache_get_total. by rewrite Ht, Hne.
Qed.

(** restoring an agent from the database rebuilds its turns.  The
    conversation becomes the messages of the replayed events that are not
    interrupted and parse, in order, and the new cache gets one entry for each
    user message among them. *)
Theorem restore_rebuilds_turns (a : ik_agent) (c0 : ik_token_cache) (replay : list (ik_msg * bool)) :
  conv a = no_conversation -> ik_token_cache_create = Ret c0 -> token_cache a = Some c0 ->
  marks a = [] -> (Z.of_nat (length replay) < 2 ^ 29)%Z ->
  exists a' c', ik_agent_restore_populate_conversation a replay = Ret a' /\
    token_cache a' = Some c' /\ conv_rep (conv a') (restored replay) /\
    agent_inv a' (restored replay) /\ ik_token_cache_get_context_start_index c' = 0 /\
    ik_token_cache_get_turn_count c' = user_count (restored replay).
Proof.
  intros Ecv E0 Ec Hmk Hlen.
  assert (cache_rep c0 [] /\ context_start_index c0 = 0 /\ turn_capacity c0 = 8) as (Hr & Hst & Hcap).
  { unfold ik_token_cache_create, alloc_cache in E0. cbn [Nat.ltb Nat.leb TURN_CAP_INITIAL] in E0.
    destruct (alloc_slots_some 0%Z (wrap32 TURN_CAP_INITIAL)) as (l & El & Hll).
    rewrite El in E0. cbn [or_panic obind] in E0. injection E0 as <-.
    split_and!; [constructor; simpl; [done|by exists l|exact Hll]|done|done]. }
  destruct (restore_ok (16 + 2 * length replay) replay a c0 [] [])
    as (a' & c' & ts' & E & Ec' & Hal & Es & Em); try done; try (rewrite Ecv; simpl; lia); try (simpl; lia).
  { constructor; [rewrite Ecv; exact conv_rep_empty|done|rewrite Hst; done|by rewrite Hst]. }
  cbn [app] in Hal. exists a', c'. pose proof Hal as [Hcv Hr' _ Hn].
  unfold ik_token_cache_get_turn_count, ik_token_cache_get_context_start_index.
  rewrite Es, Hst in *. split_and!; try done.
  - constructor; [by exists c', ts'|apply restored_blocks|]. rewrite Em, Hmk. intros i j mi mj _ Hi. done.
  - by rewrite (rep_count _ _ Hr'), Hn, length_turns_users.
Qed.

End properties.
End TokenProps.

(** ** Witnesses *)

Module TokenExamples.
Import CopySlots CodedJson ListDisplay TokenProps.

(** Three questions with their answers, eight bytes in each turn: two tokens
    by the estimate. *)
Definition turn_of (c : cstr) : list ik_message :=
  [ik_message_create_text IK_ROLE_USER c; ik_message_create_text IK_ROLE_ASSISTANT (lit "okay")].

Definition sample : list ik_message := turn_of (lit "one ") ++ turn_of (lit "two ") ++ turn_of (lit "tree").

Definition sample_cache (b : Z) : ik_token_cache :=
  mk_cache 0 TOKEN_UNCACHED TOKEN_UNCACHED (replicate 8 TOKEN_UNCACHED) 3 8 TOKEN_UNCACHED b 0.

(** The agent has a mark before the second question. *)
Definition sample_agent (b : Z) : ik_agent :=
  mk_agent _ (mk_conv sample 6 6) (Some (sample_cache b)) [mk_mark 2 None []] (Some (lit "m")) None
    (Some None) 0 0 [] 80.

Lemma sample_aligned b : aligned (sample_agent b) (sample_cache b) sample (replicate 3 TOKEN_UNCACHED).
Proof.
  constructor; [constructor; [done|by exists []|done]| |simpl; lia|done].
  constructor; [done|by exists (replicate 5 TOKEN_UNCACHED)|done].
Qed.

Lemma sample_messages_ok : messages_ok sample.
Proof. split; [by repeat constructor|simpl; lia]. Qed.

Lemma sample_affordable b :
  affordable (sample_agent b) (sample_cache b) (replicate 3 TOKEN_UNCACHED) sample.
Proof. constructor; vm_compute; try done. repeat constructor; done. Qed.

Lemma sample_inv b : agent_inv (sample_agent b) sample.
Proof.
  constructor; [eexists _, _; split; [done|]; exact (sample_aligned b)|apply sample_messages_ok|].
  intros i j mi mj _ Hi Hj. apply list_lookup_singleton_Some in Hi as [_ <-].
  apply list_lookup_singleton_Some in Hj as [_ <-]. simpl. lia.
Qed.

(** A budget of three tokens keeps one turn of two. *)
Lemma prune_within_budget_witness :
  exists a' c' k, ik_agent_prune_token_cache (sample_agent 3) = Ret a' /\ token_cache a' = Some c' /\
    ik_token_cache_peek_total c' = (6 - 2 * Z.of_nat k)%Z /\
    ((6 - 2 * Z.of_nat k <= 3)%Z \/ turn_count c' <= 1).
Proof.
  destruct (prune_within_budget (sample_agent 3) (sample_cache 3) sample (replicate 3 TOKEN_UNCACHED)
              eq_refl (sample_aligned 3) sample_messages_ok (sample_affordable 3) (or_introl eq_refl))
    as (a' & c' & k & E & Ec & _ & Hk & Hn & _ & _ & _ & Hp & Hor & _).
  exists a', c', k. split; [exact E|]. split; [exact Ec|].
  assert (k <= 3) as Hk3 by exact Hk.
  destruct k as [|[|[|[|k]]]]; [| | | |lia]; split; try exact Hp; exact Hor.
Defined.

(** The loop itself on that agent. *)
Example prune_sample :
  match ik_agent_prune_token_cache (sample_agent 3) with
  | Ret a => (fun c => (context_start_index c, turn_count c, total_tokens c)) <$> token_cache a
  | _ => None
  end = Some (4, 1, 2%Z).
Proof. by vm_compute. Qed.

Lemma sample_small b : small (sample_agent b) sample.
Proof.
  split; [simpl; lia|]. split; [simpl; lia|]. intros c [= <-]. simpl. lia.
Qed.

Lemma turns_follow_messages_witness :
  exists a' c', agent_step (sample_agent 3) (OpRewind None None) = Ret a' /\ token_cache a' = Some c' /\
    ik_token_cache_get_turn_count c' = user_count (drop (context_start_index c') (take 2 sample)).
Proof.
  destruct (turns_follow_messages (sample_agent 3) sample (OpRewind None None) (sample_inv 3)
              (sample_small 3)) as (a' & c' & E & Ec & _ & _ & Hn).
  { exists 0, (mk_mark 2 None []), (sample_cache 3). split; [done|]. split; [done|]. split; [done|]. by left. }
  exists a', c'. split; [exact E|]. split; [exact Ec|exact Hn].
Defined.

(** The agent after pruning: the context starts at the third question. *)
Definition pruned_agent : ik_agent :=
  with_cache (mk_cache 4 TOKEN_UNCACHED TOKEN_UNCACHED (replicate 8 TOKEN_UNCACHED) 1 8 TOKEN_UNCACHED 3 2)
    (sample_agent 3).

Lemma pruned_inv : agent_inv pruned_agent sample.
Proof.
  destruct (sample_inv 3) as [_ Hb Hm]. constructor; [|done|exact Hm].
  eexists _, [TOKEN_UNCACHED]. split; [done|].
  constructor; [constructor; [done|by exists []|done]| |simpl; lia|done].
  constructor; [done|by exists (replicate 7 TOKEN_UNCACHED)|done].
Qed.

(** The first turn is sent again and no entry counts it. *)
Lemma rewind_past_context_drops_turns_witness :
  exists a' c', ik_mark_rewind_to pruned_agent None None = Ret a' /\ token_cache a' = Some c' /\
    conv_rep (conv a') (turn_of (lit "one ")) /\ user_count (turn_of (lit "one ")) = 1 /\
    ik_token_cache_get_turn_count c' = 0.
Proof.
  destruct (rewind_past_context_drops_turns pruned_agent sample _ None None 0 (mk_mark 2 None [])
              pruned_inv eq_refl ltac:(simpl; lia) eq_refl eq_refl ltac:(constructor))
    as (a' & c' & E & Ec & Hcv & _ & Hn).
  exists a', c'. split; [exact E|]. split; [exact Ec|]. split; [exact Hcv|]. split; [done|exact Hn].
Defined.

Definition blank_agent (b : Z) : ik_agent :=
  mk_agent _ no_conversation
    (Some (mk_cache 0 TOKEN_UNCACHED TOKEN_UNCACHED (replicate 8 0%Z) 0 8 TOKEN_UNCACHED b 0)) []
    (Some (lit "m")) None (Some None) 0 0 [] 80.

(** What [ik_token_cache_create] returns. *)
Definition fresh_cache : ik_token_cache :=
  mk_cache 0 TOKEN_UNCACHED TOKEN_UNCACHED (replicate 8 0%Z) 0 8 TOKEN_UNCACHED 100000 0.

Lemma fresh_cache_created : ik_token_cache_create = Ret fresh_cache.
Proof. by vm_compute. Qed.

Lemma fork_has_no_turns_witness :
  exists child child' c', fork_conversation (blank_agent 1) (sample_agent 3) = Ret child /\
    ik_agent_record_and_prune_token_cache (with_input_tokens 1000 child) true = Ret child' /\
    token_cache child' = Some c' /\ ik_token_cache_get_turn_count c' = 0 /\
    user_count (cloned <$> sample) = 3.
Proof.
  destruct (fork_has_no_turns (blank_agent 1) (sample_agent 3) sample fresh_cache 1000 1
              (al_conv _ _ _ _ (sample_aligned 3)) ltac:(simpl; lia) eq_refl fresh_cache_created eq_refl)
    as (child & child' & c' & E & _ & E' & _ & Ec & Hn & _).
  exists child, child', c'. split; [exact E|]. split; [exact E'|]. split; [exact Ec|].
  split; [exact Hn|done].
Defined.

Lemma get_total_sums_witness :
  exists c', ik_token_cache_get_total (sample_cache 3) (sample_agent 3) = Ret (6%Z, c') /\
    ik_token_cache_peek_total c' = 6%Z.
Proof.
  destruct (get_total_sums (sample_agent 3) (sample_cache 3) sample (replicate 3 TOKEN_UNCACHED)
              (sample_aligned 3) sample_messages_ok (sample_affordable 3) (or_introl eq_refl))
    as (c' & E & Hp & _).
  exists c'. split; [exact E|exact Hp].
Defined.

Definition sample_replay : list (ik_msg * bool) :=
  [(mk_msg (lit "user") (Some (lit "hi")) None, false); (mk_msg (lit "clear") None None, false);
   (mk_msg (lit "assistant") (Some (lit "cut")) None, true);
   (mk_msg (lit "tool_call") None (Some (lit "{}")), false);
   (mk_msg (lit "assistant") (Some (lit "bye")) None, false)].

Lemma restore_rebuilds_turns_witness :
  exists a' c', ik_agent_restore_populate_conversation (blank_agent 100000) sample_replay = Ret a' /\
    token_cache a' = Some c' /\
    conv_rep (conv a') [ik_message_create_text IK_ROLE_USER (lit "hi");
                        ik_message_create_text IK_ROLE_ASSISTANT (lit "bye")] /\
    ik_token_cache_get_turn_count c' = 1.
Proof.
  destruct (restore_rebuilds_turns (blank_agent 100000) fresh_cache sample_replay eq_refl fresh_cache_created eq_refl eq_refl
              ltac:(simpl; lia)) as (a' & c' & E & Ec & Hcv & _ & _ & Hn).
  exists a', c'. split; [exact E|]. split; [exact Ec|]. split; [exact Hcv|exact Hn].
Defined.

End TokenExamples.
