(* ===== verification/CountTokens.v ===== *)
(** * Token counting (count_tokens.c of the three providers)

    A blocking request to the provider's counting service, the accumulator of
    its answer, and the estimate used when anything fails.  libcurl is a
    parameter. *)

From Stdlib Require Import String.
From stdpp Require Import strings.
From S2P Require Import Prelude Slots CString ByteArray Format Json RequestJson Conversation Thinking TokenCache OpenAIRequest AnthropicRequest GoogleRequest.

(** [curl_slist_append h] tells whether appending the header [h] succeeds, and
    [curl_easy_perform url headers body] gives the status and the pieces of the
    answer in the order they are handed to the callback, or [None] for a failed
    transfer. *)
Class Curl := {
  curl_easy_init : bool;
  curl_slist_append : cstr -> bool;
  curl_easy_perform : cstr -> list cstr -> cstr -> option (Z * list (list Z))
}.

(** The accumulators of the three files: block, used length, capacity. *)
Record resp_buf_t := mk_resp { buf : list Z; len : nat; cap : nat }.

Section accumulate.
Context `{Allocator}.

(** The bytes and the terminating NUL. *)
Definition store_bytes (b : resp_buf_t) (data : list Z) : outcome (resp_buf_t * nat) :=
  let! block := mem_write (len b) data (buf b) in
  let! block := mem_write (len b + length data) [0%Z] block in
  Ret (mk_resp block (len b + length data) (cap b), length data).

(** The callback of anthropic/count_tokens.c; openai/count_tokens.c has the
    same text. *)
Definition doubling_write_cb (b : resp_buf_t) (data : list Z) : outcome (resp_buf_t * nat) :=
  let new_len := wrap64 (len b + length data) in
  if (cap b <? wrap64 (new_len + 1))%nat then
    let new_cap := wrap64 (cap b * 2) in
    let new_cap := if (new_cap <? new_len + 1)%nat then wrap64 (new_len + 1) else new_cap in
    let! new_buf := or_panic (talloc_realloc (buf b) new_cap) in
    store_bytes (mk_resp new_buf (len b) new_cap) data
  else store_bytes b data.

Definition openai_write_callback : resp_buf_t -> list Z -> outcome (resp_buf_t * nat) := doubling_write_cb.

(** google/count_tokens.c: the size of the block goes through unsigned. *)
Definition google_write_cb (b : resp_buf_t) (data : list Z) : outcome (resp_buf_t * nat) :=
  let needed := wrap64 (len b + length data + 1) in
  if (cap b <? needed)%nat then
    let new_cap := wrap64 (needed * 2) in
    match talloc_realloc (buf b) (wrap32 new_cap) with
    | None => Ret (b, 0)
    | Some new_buf => store_bytes (mk_resp new_buf (len b) new_cap) data
    end
  else store_bytes b data.

(** The pieces one after another; a callback that takes less ends the
    transfer. *)
Fixpoint deliver (write : resp_buf_t -> list Z -> outcome (resp_buf_t * nat)) (b : resp_buf_t) (chunks : list (list Z))
  : outcome (option resp_buf_t) :=
  match chunks with
  | [] => Ret (Some b)
  | data :: chunks =>
      let! (b, taken) := write b data in
      if (taken =? length data)%nat then deliver write b chunks else Ret None
  end.

Context `{Curl}.

(** curl_easy_perform and CURLINFO_RESPONSE_CODE. *)
Definition perform (write : resp_buf_t -> list Z -> outcome (resp_buf_t * nat)) (b : resp_buf_t) (url : cstr)
    (headers : list cstr) (body : cstr) : outcome (option (Z * resp_buf_t)) :=
  match curl_easy_perform url headers body with
  | None => Ret None
  | Some (status, chunks) =>
      let! r := deliver write b chunks in
      Ret (match r with Some b => Some (status, b) | None => None end)
  end.

Definition is_2xx (status : Z) : bool := negb ((status <? 200)%Z || (300 <=? status)%Z).

(** "if (is_err(&r)) fallback": only an error is caught. *)
Definition or_estimate (r : outcome cstr) (estimate : nat) (k : cstr -> outcome Z) : outcome Z :=
  match r with
  | Ret body => k body
  | Fail _ => Ret (ik_token_count_from_bytes estimate)
  | Panic => Panic
  | Undef => Undef
  | NoFuel => NoFuel
  end.

Context `{Yyjson}.

(** The integer of a field of the answer's object. *)
Definition answer_field (text : list Z) (k : cstr) : option json :=
  root ← yyjson_read text;
  v ← yyjson_obj_get (Some root) k;
  if yyjson_is_int (Some v) then Some v else None.

(** ** google/count_tokens.c *)

Definition quoted (s : cstr) : list Z := [34%Z] ++ s ++ [34%Z].

Definition google_count_body (model body_json : cstr) : cstr :=
  let head := lit "{" ++ quoted (lit "generateContentRequest") ++ lit ":{" ++ quoted (lit "model") ++ lit ":"
              ++ quoted (lit "models/" ++ model) in
  if (length body_json <=? 2)%nat then head ++ lit "}}" else head ++ lit "," ++ drop 1 body_json ++ lit "}".

Definition ik_google_count_tokens (base_url api_key : cstr) (req : ik_request) : outcome Z :=
  or_estimate (ik_google_serialize_request req) 0 (fun body_json =>
    let mdl := default [] (model req) in
    let count_body := google_count_body mdl body_json in
    let estimate := ik_token_count_from_bytes (length count_body) in
    let url := base_url ++ lit "/models/" ++ mdl ++ lit ":countTokens?key=" ++ api_key in
    if negb curl_easy_init then Ret estimate
    else
      let! block := or_panic (talloc_realloc [] 512) in
      let! block := mem_write 0 [0%Z] block in
      let header := lit "Content-Type: application/json" in
      if negb (curl_slist_append header) then Ret estimate
      else
        let! r := perform google_write_cb (mk_resp block 0 512) url [header] count_body in
        match r with
        | None => Ret estimate
        | Some (http_status, b) =>
            if negb (is_2xx http_status) then Ret estimate
            else
              match answer_field (take (len b) (buf b)) (lit "totalTokens") with
              | None => Ret estimate
              | Some v =>
                  let count := yyjson_get_int (Some v) in
                  Ret (if (2 ^ 31 - 1 <? count)%Z then (2 ^ 31 - 1)%Z else count)
              end
        end).

(** ** openai/count_tokens.c *)

(** The headers are appended until one fails. *)
Fixpoint append_headers (header_list headers : list cstr) : option (list cstr) :=
  match headers with
  | [] => Some header_list
  | h :: headers => if curl_slist_append h then append_headers (header_list ++ [h]) headers else None
  end.

Definition ik_openai_count_tokens (base_url api_key : cstr) (req : ik_request) : outcome Z :=
  or_estimate (ik_openai_serialize_responses_request req false) (strlen_opt (system_prompt req)) (fun json_body =>
    let estimate := ik_token_count_from_bytes (length json_body) in
    let url := base_url ++ lit "/v1/responses/input_tokens" in
    let headers := ik_openai_build_headers api_key in
    if negb curl_easy_init then Ret estimate
    else
      match append_headers [] headers with
      | None => Ret estimate
      | Some header_list =>
          let! r := perform openai_write_callback (mk_resp (replicate 256 0%Z) 0 256) url header_list json_body in
          match r with
          | None => Ret estimate
          | Some (http_code, b) =>
              if negb (is_2xx http_code) then Ret estimate
              else
                match answer_field (take (len b) (buf b)) (lit "input_tokens") with
                | None => Ret estimate
                | Some v => Ret (yyjson_get_int (Some v))
                end
          end
      end).

(** ** anthropic/count_tokens.c *)

(** A failed append gives NULL, to which the next one appends. *)
Definition slist_append (headers : list cstr) (h : cstr) : list cstr :=
  if curl_slist_append h then headers ++ [h] else [].

(** [None] is an ERR_IO. *)
Definition ik_anthropic_count_tokens_http (url api_key body : cstr) : outcome (option (cstr * Z)) :=
  let headers := slist_append [] (lit "Content-Type: application/json") in
  let headers := slist_append headers (lit "anthropic-version: 2023-06-01") in
  let headers := slist_append headers (lit "x-api-key: " ++ api_key) in
  if negb curl_easy_init then Ret None
  else
    let! r := perform doubling_write_cb (mk_resp (replicate 4096 0%Z) 0 4096) url headers body in
    Ret (match r with Some (http_code, b) => Some (until_nul (buf b), http_code) | None => None end).

Definition parse_input_tokens (json_body : cstr) : option Z :=
  match json_body with
  | [] => None
  | text =>
      v ← answer_field text (lit "input_tokens");
      let count := yyjson_get_sint (Some v) in
      if (count <? 0)%Z then None else Some (int32_wrap count)
  end.

(** The texts of the prompt and the messages. *)
Definition text_bytes (blk : ik_content_block) : nat :=
  match blk with IK_CONTENT_TEXT (Some t) => length t | _ => 0 end.

Definition estimate_request_bytes (req : ik_request) : nat :=
  strlen_opt (system_prompt req) + sum_list (text_bytes <$> mjoin (content_blocks <$> req_messages req)).

Definition ik_anthropic_count_tokens (base_url api_key : cstr) (req : ik_request) : outcome Z :=
  or_estimate (ik_anthropic_serialize_request_count_tokens req) (estimate_request_bytes req) (fun body =>
    let estimate := ik_token_count_from_bytes (length body) in
    let url := base_url ++ lit "/v1/messages/count_tokens" in
    let! r := ik_anthropic_count_tokens_http url api_key body in
    match r with
    | None => Ret estimate
    | Some (response, http_status) =>
        if negb (is_2xx http_status) then Ret estimate
        else match parse_input_tokens response with None => Ret estimate | Some count => Ret count end
    end).

End accumulate.

(** ** Lemmas *)

Section lemmas.
Context `{!Allocator} `{!AllocatorSpec}.

(** The block holds the bytes received, terminated. *)
Record resp_rep (b : resp_buf_t) (bs : list Z) : Prop := {
  resp_bytes : exists rest, buf b = bs ++ 0%Z :: rest;
  resp_len : len b = length bs;
  resp_cap : cap b = length (buf b);
  resp_bound : cap b <= 4096 + 2 * (length bs + 1)
}.

Lemma store_ok block n (bs data : list Z) :
  (exists rest, block = bs ++ rest /\ length data + 1 <= length rest) -> n = length block ->
  n <= 4096 + 2 * (length bs + length data + 1) ->
  exists b', store_bytes (mk_resp block (length bs) n) data = Ret (b', length data) /\ resp_rep b' (bs ++ data).
Proof.
  intros (rest & -> & Hr) Hn Hb. unfold store_bytes. cbn [len buf cap].
  destruct (split_at (length data) rest) as (old & r1 & -> & Ho & Hr1); [lia|].
  rewrite mem_write_app by done. cbn [obind]. rewrite length_app in Hr.
  destruct r1 as [|x r1]; [cbn [length] in *; lia|].
  change (bs ++ data ++ x :: r1) with (bs ++ data ++ [x] ++ r1). rewrite app_assoc.
  rewrite mem_write_app by (rewrite ?length_app; lia || done). cbn [obind].
  eexists. split; [reflexivity|]. constructor; cbn [buf len cap].
  - by exists r1.
  - by rewrite length_app.
  - rewrite Hn, !length_app. cbn [length]. lia.
  - rewrite length_app. lia.
Qed.

(** A block grown to [n] bytes keeps the bytes received. *)
Lemma grown b bs n :
  resp_rep b bs -> cap b <= n -> exists block, talloc_realloc (buf b) n = Some block /\
    length block = n /\ exists rest, block = bs ++ rest.
Proof.
  intros [(rest & Eb) El Ec _] Hn. destruct (realloc_some (buf b) n) as [block E]. exists block.
  pose proof (realloc_length _ _ _ E). pose proof (realloc_prefix _ _ _ E ltac:(lia)) as Hp.
  split; [done|]. split; [done|]. exists ((0%Z :: rest) ++ drop (length (buf b)) block).
  rewrite <- (take_drop (length (buf b)) block) at 1. rewrite Hp, Eb at 1. by rewrite <- app_assoc.
Qed.

Definition takes_all (write : resp_buf_t -> list Z -> outcome (resp_buf_t * nat)) : Prop :=
  forall b bs data, resp_rep b bs -> (Z.of_nat (length bs + length data) < 2 ^ 30)%Z ->
  exists b', write b data = Ret (b', length data) /\ resp_rep b' (bs ++ data).

Lemma append_in_place b bs data :
  resp_rep b bs -> length bs + length data + 1 <= cap b ->
  exists b', store_bytes b data = Ret (b', length data) /\ resp_rep b' (bs ++ data).
Proof.
  intros [(rest & Eb) El Ec Hb] Hc. destruct b as [block l n]. cbn [buf len cap] in *. subst l.
  apply store_ok; [|done|lia]. exists (0%Z :: rest). split; [done|]. rewrite Eb, length_app in Ec. lia.
Qed.

Lemma append_grown b bs data n block :
  resp_rep b bs -> talloc_realloc (buf b) n = Some block -> length block = n -> (exists rest, block = bs ++ rest) ->
  length bs + length data + 1 <= n -> n <= 4096 + 2 * (length bs + length data + 1) ->
  exists b', store_bytes (mk_resp block (length bs) n) data = Ret (b', length data) /\ resp_rep b' (bs ++ data).
Proof.
  intros [_ El _ _] _ Hn (rest & Er) H1 H2. apply store_ok; [|done|lia].
  exists rest. split; [done|]. apply (f_equal length) in Er. rewrite length_app in Er. lia.
Qed.

Lemma doubling_takes_all : takes_all doubling_write_cb.
Proof.
  intros b bs data Hr Hl. pose proof (resp_len _ _ Hr) as El. pose proof (resp_bound _ _ Hr) as Hb.
  unfold doubling_write_cb. rewrite El, (wrap64_small (length bs + length data)) by lia.
  rewrite (wrap64_small (length bs + length data + 1)), (wrap64_small (cap b * 2)) by lia.
  destruct (Nat.ltb_spec (cap b) (length bs + length data + 1)) as [Hc|Hc]; [|by apply append_in_place].
  set (n := if (_ <? _)%nat then _ else _).
  assert (cap b <= n /\ length bs + length data + 1 <= n /\ n <= 4096 + 2 * (length bs + length data + 1)) as (H1 & H2 & H3).
  { unfold n. destruct (Nat.ltb_spec (cap b * 2) (length bs + length data + 1)); lia. }
  destruct (grown b bs n Hr H1) as (block & E & Hn & Hp). rewrite E. cbn [or_panic obind].
  by eapply append_grown.
Qed.

Lemma google_takes_all : takes_all google_write_cb.
Proof.
  intros b bs data Hr Hl. pose proof (resp_len _ _ Hr) as El. pose proof (resp_bound _ _ Hr) as Hb.
  unfold google_write_cb. rewrite El, (wrap64_small (length bs + length data + 1)) by lia.
  rewrite (wrap64_small ((length bs + length data + 1) * 2)), (wrap32_small ((length bs + length data + 1) * 2)) by lia.
  destruct (Nat.ltb_spec (cap b) (length bs + length data + 1)) as [Hc|Hc]; [|by apply append_in_place].
  destruct (grown b bs ((length bs + length data + 1) * 2) Hr ltac:(lia)) as (block & E & Hn & Hp). rewrite E.
  eapply append_grown; try done; lia.
Qed.

Lemma deliver_all write : takes_all write -> forall chunks b bs,
  resp_rep b bs -> (Z.of_nat (length bs + length (concat chunks)) < 2 ^ 30)%Z ->
  exists b', deliver write b chunks = Ret (Some b') /\ resp_rep b' (bs ++ concat chunks).
Proof.
  intros Hw. induction chunks as [|data chunks IH]; intros b bs Hr Hl; cbn [deliver concat] in *.
  { rewrite app_nil_r. by exists b. }
  rewrite length_app in Hl. destruct (Hw b bs data Hr ltac:(lia)) as (b1 & -> & Hr1). cbn [obind].
  rewrite Nat.eqb_refl, app_assoc. apply IH; [done|]. rewrite length_app. lia.
Qed.

End lemmas.

(** ** The contract *)

Inductive token_service := COUNT_GOOGLE | COUNT_OPENAI | COUNT_ANTHROPIC.

Section contract.
Context `{!Allocator} `{!Curl} `{!Yyjson}.

Definition count (p : token_service) (base_url api_key : cstr) (req : ik_request) : outcome Z :=
  match p with
  | COUNT_GOOGLE => ik_google_count_tokens base_url api_key req
  | COUNT_OPENAI => ik_openai_count_tokens base_url api_key req
  | COUNT_ANTHROPIC => ik_anthropic_count_tokens base_url api_key req
  end.

(** What is asked: the address, the headers and the body. *)
Definition count_url (p : token_service) (base_url api_key : cstr) (req : ik_request) : cstr :=
  match p with
  | COUNT_GOOGLE => base_url ++ lit "/models/" ++ default [] (model req) ++ lit ":countTokens?key=" ++ api_key
  | COUNT_OPENAI => base_url ++ lit "/v1/responses/input_tokens"
  | COUNT_ANTHROPIC => base_url ++ lit "/v1/messages/count_tokens"
  end.

Definition count_headers (p : token_service) (api_key : cstr) : list cstr :=
  match p with
  | COUNT_GOOGLE => [lit "Content-Type: application/json"]
  | COUNT_OPENAI => ik_openai_build_headers api_key
  | COUNT_ANTHROPIC =>
      [lit "Content-Type: application/json"; lit "anthropic-version: 2023-06-01"; lit "x-api-key: " ++ api_key]
  end.

Definition count_body (p : token_service) (req : ik_request) : outcome cstr :=
  match p with
  | COUNT_GOOGLE => let! js := ik_google_serialize_request req in Ret (google_count_body (default [] (model req)) js)
  | COUNT_OPENAI => ik_openai_serialize_responses_request req false
  | COUNT_ANTHROPIC => ik_anthropic_serialize_request_count_tokens req
  end.

Definition count_key (p : token_service) : cstr :=
  match p with COUNT_GOOGLE => lit "totalTokens" | _ => lit "input_tokens" end.

(** The number the service gives, whatever the pieces it arrives in. *)
Definition served (p : token_service) (base_url api_key : cstr) (req : ik_request) (body : cstr) : option Z :=
  answer ← curl_easy_perform (count_url p base_url api_key req) (count_headers p api_key) body;
  if curl_easy_init && is_2xx (fst answer) then
    v ← answer_field (concat (snd answer)) (count_key p);
    match v with JInt n => Some n | _ => None end
  else None.

(** Answers shorter than 2^30 bytes, without NUL bytes. *)
Definition plain_answer (p : token_service) (base_url api_key : cstr) (req : ik_request) (body : cstr) : Prop :=
  match curl_easy_perform (count_url p base_url api_key req) (count_headers p api_key) body with
  | None => True
  | Some (_, chunks) => (Z.of_nat (length (concat chunks)) < 2 ^ 30)%Z /\ (0%Z ∉ concat chunks)
  end.

End contract.

Section contract_lemmas.
Context `{!Allocator} `{!AllocatorSpec} `{!Curl} `{!Yyjson} `{!YyjsonSpec}.

Lemma start_rep block : (exists rest, block = 0%Z :: rest) -> length block <= 4096 ->
  resp_rep (mk_resp block 0 (length block)) [].
Proof. intros (rest & ->) Hl. constructor; cbn [buf len cap app]; [by exists rest|done|done|cbn [length] in *; lia]. Qed.

Lemma resp_text b bs : resp_rep b bs -> take (len b) (buf b) = bs.
Proof. intros [(rest & ->) -> _ _]. by rewrite take_app_length. Qed.

Lemma resp_c_text b bs : resp_rep b bs -> (0%Z ∉ bs) -> until_nul (buf b) = bs.
Proof. intros [(rest & ->) _ _ _] Hn. by apply until_nul_app. Qed.

(** The transfer as seen by the three functions. *)
Lemma perform_ok write b url headers body :
  takes_all write -> resp_rep b [] ->
  match curl_easy_perform url headers body with
  | None => perform write b url headers body = Ret None
  | Some (status, chunks) =>
      (Z.of_nat (length (concat chunks)) < 2 ^ 30)%Z ->
      exists b', perform write b url headers body = Ret (Some (status, b')) /\ resp_rep b' (concat chunks)
  end.
Proof.
  intros Hw Hr. unfold perform. destruct (curl_easy_perform url headers body) as [[status chunks]|]; [|done].
  intros Hl. destruct (deliver_all write Hw chunks b [] Hr) as (b' & -> & Hb); [done|]. by exists b'.
Qed.

Lemma answer_is_int text k v : answer_field text k = Some v -> exists n, v = JInt n.
Proof.
  unfold answer_field. destruct (yyjson_read text); [|done]. cbn [mbind option_bind].
  destruct (yyjson_obj_get _ k) as [[]|]; try done. intros [= <-]. by eexists.
Qed.

(** The last steps of the Google and the OpenAI function. *)
Lemma served_cases (p : token_service) base_url api_key req body :
  plain_answer p base_url api_key req body -> curl_easy_init = true ->
  forall write b, takes_all write -> resp_rep b [] ->
  (perform write b (count_url p base_url api_key req) (count_headers p api_key) body = Ret None /\
   served p base_url api_key req body = None) \/
  exists status b' bs, perform write b (count_url p base_url api_key req) (count_headers p api_key) body = Ret (Some (status, b')) /\
    resp_rep b' bs /\ (0%Z ∉ bs) /\
    served p base_url api_key req body =
      if is_2xx status then v ← answer_field bs (count_key p); match v with JInt n => Some n | _ => None end else None.
Proof.
  unfold plain_answer, served. intros Hp Hi write b Hw Hr. rewrite Hi. cbn [andb].
  pose proof (perform_ok write b (count_url p base_url api_key req) (count_headers p api_key) body Hw Hr) as Hf.
  destruct (curl_easy_perform _ _ _) as [[status chunks]|]; [|left; by split].
  destruct Hp as [Hl Hz]. destruct (Hf Hl) as (b' & E & Hb'). right. by exists status, b', (concat chunks).
Qed.

Definition as_served (p : token_service) : Prop :=
  forall base_url api_key req body,
  (forall h, curl_slist_append h = true) -> count_body p req = Ret body -> plain_answer p base_url api_key req body ->
  let estimate := ik_token_count_from_bytes (length body) in
  match served p base_url api_key req body with
  | Some n =>
      (- 2 ^ 63 <= n < 2 ^ 63)%Z ->
      count p base_url api_key req =
      Ret (match p with COUNT_ANTHROPIC => if (n <? 0)%Z then estimate else int32_wrap n | _ => int32_wrap n end)
  | None => count p base_url api_key req = Ret estimate
  end.

Lemma not_served p base_url api_key req body : curl_easy_init = false -> served p base_url api_key req body = None.
Proof. unfold served. intros ->. cbn [andb]. by destruct (curl_easy_perform _ _ _). Qed.

Lemma openai_counts : as_served COUNT_OPENAI.
Proof.
  intros base_url api_key req body Hh Hb Hp estimate. cbn [count count_body] in *. unfold ik_openai_count_tokens.
  rewrite Hb. cbn [or_estimate]. fold estimate.
  destruct curl_easy_init eqn:Hi; cbn [negb]; [|by rewrite not_served].
  unfold ik_openai_build_headers. cbn [append_headers]. rewrite !Hh. cbn [app].
  destruct (served_cases _ _ _ _ _ Hp Hi openai_write_callback (mk_resp (replicate 256 0%Z) 0 256)) as [[E ->]|(st & b' & bs & E & Hr & _ & ->)];
    [exact doubling_takes_all|apply (start_rep (replicate 256 0%Z)); [by eexists|vm_compute; lia]| |];
    cbn [count_url count_headers] in E; unfold ik_openai_build_headers in E; rewrite E; cbn [obind]; [done|].
  destruct (is_2xx st); cbn [negb]; [|done]. rewrite (resp_text _ _ Hr). cbn [count_key].
  destruct (answer_field bs (lit "input_tokens")) as [v|] eqn:Ea; [|done]. cbn [mbind option_bind].
  apply answer_is_int in Ea as [n ->]. done.
Qed.

Lemma google_counts : as_served COUNT_GOOGLE.
Proof.
  intros base_url api_key req body Hh Hb Hp estimate. cbn [count count_body] in *. unfold ik_google_count_tokens.
  destruct (ik_google_serialize_request req) as [js| | | |]; try done. cbn [obind] in Hb. injection Hb as Hb.
  cbn [or_estimate]. rewrite Hb. fold estimate.
  destruct curl_easy_init eqn:Hi; cbn [negb]; [|by rewrite not_served].
  destruct (realloc_some [] 512) as [block Eb]. rewrite Eb. cbn [or_panic obind]. pose proof (realloc_length _ _ _ Eb) as Hl.
  destruct block as [|x block]; [done|]. change (x :: block) with ([] ++ [x] ++ block). rewrite mem_write_app by done.
  cbn [obind app]. rewrite Hh. cbn [negb].
  destruct (served_cases _ _ _ _ _ Hp Hi google_write_cb (mk_resp (0%Z :: block) 0 512)) as [[E ->]|(st & b' & bs & E & Hr & _ & ->)];
    [exact google_takes_all| | |].
  { change (length (0%Z :: block) = 512) in Hl. rewrite <- Hl. apply start_rep; [by eexists|lia]. }
  { cbn [count_url count_headers] in E. by rewrite E. }
  cbn [count_url count_headers] in E. rewrite E. cbn [obind].
  destruct (is_2xx st); cbn [negb]; [|done]. rewrite (resp_text _ _ Hr). cbn [count_key].
  destruct (answer_field bs (lit "totalTokens")) as [v|] eqn:Ea; [|done]. cbn [mbind option_bind].
  apply answer_is_int in Ea as [n ->]. intros _. cbn [yyjson_get_int]. pose proof (int32_wrap_range n).
  by rewrite (proj2 (Z.ltb_ge _ _)) by lia.
Qed.

Lemma anthropic_counts : as_served COUNT_ANTHROPIC.
Proof.
  intros base_url api_key req body Hh Hb Hp estimate. cbn [count count_body] in *. unfold ik_anthropic_count_tokens.
  rewrite Hb. cbn [or_estimate]. fold estimate. unfold ik_anthropic_count_tokens_http, slist_append. rewrite !Hh. cbn [app].
  destruct curl_easy_init eqn:Hi; cbn [negb obind]; [|by rewrite not_served].
  destruct (served_cases _ _ _ _ _ Hp Hi doubling_write_cb (mk_resp (replicate 4096 0%Z) 0 4096)) as [[E ->]|(st & b' & bs & E & Hr & Hz & ->)];
    [exact doubling_takes_all
    |rewrite <- (length_replicate 4096 0%Z) at 2; apply start_rep; [by exists (replicate 4095 0%Z)|by rewrite length_replicate]| |];
    cbn [count_url count_headers] in E; rewrite E; cbn [obind]; [done|].
  destruct (is_2xx st); cbn [negb]; [|done]. rewrite (resp_c_text _ _ Hr Hz). cbn [count_key]. unfold parse_input_tokens.
  destruct bs as [|c bs]; [unfold answer_field; by rewrite read_nothing|].
  destruct (answer_field (c :: bs) (lit "input_tokens")) as [v|] eqn:Ea; [|done]. cbn [mbind option_bind].
  apply answer_is_int in Ea as [n ->]. intros Hn. cbn [yyjson_get_sint].
  rewrite Z.mod_small by lia. replace (n + 2 ^ 63 - 2 ^ 63)%Z with n by lia. by destruct (n <? 0)%Z.
Qed.

End contract_lemmas.

Module CountTokensProps.

Section props.
Context `{!Allocator} `{!AllocatorSpec} `{!Curl} `{!Yyjson} `{!YyjsonSpec}.

(** counting tokens does not fail.  When the headers can be built and the
    request serialised, each provider's function gives the number its service
    answers, converted to 32 bits, and a quarter of the bytes sent when there is
    no such number: no connection, another status, no JSON, no integer, and for
    Anthropic a negative one. *)
Theorem counts_as_served (p : token_service) (base_url api_key : cstr) (req : ik_request) (body : cstr) :
  (forall h, curl_slist_append h = true) -> count_body p req = Ret body -> plain_answer p base_url api_key req body ->
  let estimate := ik_token_count_from_bytes (length body) in
  match served p base_url api_key req body with
  | Some n =>
      (- 2 ^ 63 <= n < 2 ^ 63)%Z ->
      count p base_url api_key req =
      Ret (match p with COUNT_ANTHROPIC => if (n <? 0)%Z then estimate else int32_wrap n | _ => int32_wrap n end)
  | None => count p base_url api_key req = Ret estimate
  end.
Proof.
  intros Hh Hb Hp estimate. destruct p; [exact (google_counts base_url api_key req body Hh Hb Hp)
    |exact (openai_counts base_url api_key req body Hh Hb Hp)|exact (anthropic_counts base_url api_key req body Hh Hb Hp)].
Qed.

End props.
End CountTokensProps.

Module CountTokensExamples.
Import ZeroAlloc CodedJson CountTokensProps.

(** A service that answers 1234 in two pieces. *)
Definition answer_text : list Z := default [] (yyjson_write (JObj [(lit "input_tokens", JInt 1234)])).

#[local] Instance answering : Curl := {|
  curl_easy_init := true;
  curl_slist_append _ := true;
  curl_easy_perform _ _ _ := Some (200%Z, [take 5 answer_text; drop 5 answer_text])
|}.

Lemma counts_as_served_witness :
  exists body, count_body COUNT_ANTHROPIC AnthropicRequestExamples.asked = Ret body /\
    count COUNT_ANTHROPIC (lit "http://h") (lit "k") AnthropicRequestExamples.asked = Ret 1234%Z.
Proof.
  assert (exists body, count_body COUNT_ANTHROPIC AnthropicRequestExamples.asked = Ret body) as [body Eb]
    by (eexists; vm_compute; reflexivity).
  exists body. split; [exact Eb|].
  pose proof (counts_as_served COUNT_ANTHROPIC (lit "http://h") (lit "k") AnthropicRequestExamples.asked body
    (fun _ => eq_refl) Eb) as Hc.
  assert (served COUNT_ANTHROPIC (lit "http://h") (lit "k") AnthropicRequestExamples.asked body = Some 1234%Z)
    as Es by (vm_compute; reflexivity).
  rewrite Es in Hc. apply Hc; [|lia]. split; [vm_compute; reflexivity|apply (bool_decide_unpack _); vm_compute; exact I].
Defined.

End CountTokensExamples.
