(* ===== verification/Growing.v ===== *)
(** * Growing arrays of structures

    A talloc array that doubles when it is full, as several components keep
    their elements: the array, the count and the capacity. *)

From S2P Require Import Prelude Slots.

(** A talloc array with its count and capacity. *)
Record growing (A : Type) := mk_growing { items : list A; used : nat; room : nat }.
Arguments mk_growing {A} items used room.
Arguments items {A} g.
Arguments used {A} g.
Arguments room {A} g.

Section growing.
Context `{!SlotAllocator}.

(** "if (count >= capacity) { grow }" *)
Definition grow {A} `{Inhabited A} (first : nat) (g : growing A) : outcome (growing A) :=
  if (room g <=? used g)%nat then
    let capacity := if (room g =? 0)%nat then first else wrap64 (room g * 2) in
    let! slots := or_panic (realloc_slots (items g) (wrap32 capacity)) in
    Ret (mk_growing slots (used g) capacity)
  else Ret g.

(** "a[count] = x; count++", after growing. *)
Definition push {A} `{Inhabited A} (first : nat) (g : growing A) (x : A) : outcome (growing A) :=
  let! g := grow first g in
  let! slots := arr_set (used g) x (items g) in
  Ret (mk_growing slots (S (used g)) (room g)).

End growing.

Section growing_lemmas.
Context `{!SlotAllocator} `{!SlotAllocatorSpec}.

Record grown_to {A} (g : growing A) (l : list A) : Prop := {
  grown_items : exists rest, items g = l ++ rest;
  grown_used : used g = length l;
  grown_room : room g = length (items g);
  grown_bound : (Z.of_nat (room g) < 2 ^ 30)%Z
}.

Lemma grow_ok {A} `{Inhabited A} first (g : growing A) l :
  grown_to g l -> 0 < first <= 16 -> (Z.of_nat (length l) < 2 ^ 28)%Z ->
  exists g' rest, grow first g = Ret g' /\ items g' = l ++ rest /\ rest <> [] /\ used g' = length l /\
    room g' = length (items g') /\ (Z.of_nat (room g') < 2 ^ 30)%Z.
Proof.
  intros [(rest & Er) Eu Em Hb] Hf Hl. unfold grow. pose proof (f_equal length Er) as El. rewrite length_app in El.
  destruct (Nat.leb_spec (room g) (used g)) as [Hg|Hg].
  - set (c := if (room g =? 0)%nat then first else wrap64 (room g * 2)).
    assert (room g < c /\ (Z.of_nat c < 2 ^ 30)%Z) as [Hc1 Hc2].
    { unfold c. destruct (Nat.eqb_spec (room g) 0) as [E0|E0]; [lia|]. rewrite wrap64_small by lia. lia. }
    rewrite wrap32_small by lia. destruct (realloc_slots_some (items g) c) as (r2 & -> & E2); [lia|].
    cbn [or_panic obind]. eexists _, (rest ++ r2). split; [reflexivity|]. cbn [items used room].
    split; [by rewrite Er, <- app_assoc|]. split; [|done].
    intros En. apply (f_equal length) in En. rewrite length_app in E2, En. cbn [length] in En. lia.
  - exists g, rest. split; [done|]. split; [done|]. split; [|split; [done|split; [done|lia]]].
    intros ->. cbn [length] in El. lia.
Qed.

Lemma push_ok {A} `{Inhabited A} first (g : growing A) l x :
  grown_to g l -> 0 < first <= 16 -> (Z.of_nat (length l) < 2 ^ 28)%Z ->
  exists g', push first g x = Ret g' /\ grown_to g' (l ++ [x]).
Proof.
  intros Hg Hf Hl. destruct (grow_ok first g l Hg Hf Hl) as (g1 & rest & E & Ei & Hne & Eu & Em & Hb).
  unfold push. rewrite E. cbn [obind]. rewrite Ei, Eu, arr_set_end by done. cbn [obind]. eexists. split; [reflexivity|].
  destruct rest as [|y rest]; [done|]. change (drop 1 (y :: rest)) with rest.
  constructor; cbn [items used room].
  - by exists rest.
  - rewrite length_app. cbn [length]. lia.
  - rewrite Em, Ei, !length_app. cbn [length]. lia.
  - done.
Qed.

Lemma grown_nil {A} (slots : list A) : (Z.of_nat (length slots) < 2 ^ 30)%Z ->
  grown_to (mk_growing slots 0 (length slots)) [].
Proof. intros Hl. constructor; cbn [items used room length]; [by exists slots|done|done|done]. Qed.

End growing_lemmas.
