(* ===== verification/DocCache.v ===== *)
(** * The document cache (doc_cache.c, file_utils.c)

    Pinned documents by canonical path, read once until they are invalidated.
    The files are a parameter. *)

From Stdlib Require Import String.
From stdpp Require Import gmap strings.
From S2P Require Import Prelude Slots CString Growing Paths.

Record ik_doc_cache_entry := mk_entry { entry_path : cstr; entry_content : list Z }.
#[export] Instance ik_doc_cache_entry_inhabited : Inhabited ik_doc_cache_entry := populate (mk_entry [] []).

(** The contents of the files that can be opened and read. *)
Definition files : Type := cstr -> option (list Z).

Definition ik_file_read_all (fs : files) (path : cstr) : outcome (list Z) :=
  match fs path with
  | None => Fail ERR_IO
  | Some content => if (2 ^ 32 - 1 - 1 <? Z.of_nat (length content))%Z then Fail ERR_IO else Ret content
  end.

Section cache.
Context (paths : ik_paths) `{!SlotAllocator}.

Definition ik_doc_cache_create : growing ik_doc_cache_entry := mk_growing [] 0 0.

(** The index of the entry, in the first [n] from [i]. *)
Fixpoint cached_entry (entries : list ik_doc_cache_entry) (n i : nat) (canonical_path : cstr) : outcome (option nat) :=
  match n with
  | 0 => Ret None
  | S n =>
      let! e := arr_get entries i in
      if strcmp_eq (entry_path e) canonical_path then Ret (Some i) else cached_entry entries n (S i) canonical_path
  end.

Definition ik_doc_cache_get (fs : files) (cache : growing ik_doc_cache_entry) (path : cstr)
  : outcome (list Z * growing ik_doc_cache_entry) :=
  let! canonical_path := ik_paths_translate_ik_uri_to_path paths (Some path) in
  let! found := cached_entry (items cache) (used cache) 0 canonical_path in
  match found with
  | Some i => let! e := arr_get (items cache) i in Ret (entry_content e, cache)
  | None =>
      let! content := ik_file_read_all fs canonical_path in
      let! cache := push 4 cache (mk_entry canonical_path content) in
      Ret (content, cache)
  end.

Definition ik_doc_cache_invalidate (cache : growing ik_doc_cache_entry) (path : cstr)
  : outcome (growing ik_doc_cache_entry) :=
  match ik_paths_translate_ik_uri_to_path paths (Some path) with
  | Fail _ => Ret cache
  | translated =>
      let! canonical_path := translated in
      let! found := cached_entry (items cache) (used cache) 0 canonical_path in
      match found with
      | None => Ret cache
      | Some i =>
          let! entries := close_gap (items cache) (used cache - 1 - i) i in
          Ret (mk_growing entries (used cache - 1) (room cache))
      end
  end.

Definition ik_doc_cache_clear (cache : growing ik_doc_cache_entry) : growing ik_doc_cache_entry :=
  mk_growing (items cache) 0 (room cache).

(** ** A history of calls *)

Inductive cache_op := Get (fs : files) (path : cstr) | Invalidate (path : cstr) | Clear.

(** One call: what it gives, and the cache after it. *)
Definition cache_step (cache : growing ik_doc_cache_entry) (op : cache_op) : outcome (list Z) * growing ik_doc_cache_entry :=
  match op with
  | Get fs path =>
      match ik_doc_cache_get fs cache path with
      | Ret (content, cache) => (Ret content, cache)
      | Fail e => (Fail e, cache)
      | Panic => (Panic, cache)
      | Undef => (Undef, cache)
      | NoFuel => (NoFuel, cache)
      end
  | Invalidate path =>
      match ik_doc_cache_invalidate cache path with
      | Ret cache => (Ret [], cache)
      | Fail e => (Fail e, cache)
      | Panic => (Panic, cache)
      | Undef => (Undef, cache)
      | NoFuel => (NoFuel, cache)
      end
  | Clear => (Ret [], ik_doc_cache_clear cache)
  end.

Fixpoint cache_run (cache : growing ik_doc_cache_entry) (ops : list cache_op) : list (outcome (list Z)) :=
  match ops with
  | [] => []
  | op :: ops => let '(r, cache) := cache_step cache op in r :: cache_run cache ops
  end.

(** ** The specification: a map from canonical paths to contents *)

Definition map_step (m : gmap cstr (list Z)) (op : cache_op) : outcome (list Z) * gmap cstr (list Z) :=
  match op with
  | Get fs path =>
      match ik_paths_translate_ik_uri_to_path paths (Some path) with
      | Ret c =>
          match m !! c with
          | Some content => (Ret content, m)
          | None => match ik_file_read_all fs c with
                    | Ret content => (Ret content, <[c := content]> m)
                    | r => (r, m)
                    end
          end
      | Fail e => (Fail e, m)
      | Panic => (Panic, m)
      | Undef => (Undef, m)
      | NoFuel => (NoFuel, m)
      end
  | Invalidate path =>
      match ik_paths_translate_ik_uri_to_path paths (Some path) with
      | Ret c => (Ret [], delete c m)
      | Fail _ => (Ret [], m)
      | Panic => (Panic, m)
      | Undef => (Undef, m)
      | NoFuel => (NoFuel, m)
      end
  | Clear => (Ret [], ∅)
  end.

Fixpoint map_run (m : gmap cstr (list Z)) (ops : list cache_op) : list (outcome (list Z)) :=
  match ops with
  | [] => []
  | op :: ops => let '(r, m) := map_step m op in r :: map_run m ops
  end.

End cache.

(** ** Lemmas *)

Section lemmas.
Context (paths : ik_paths) `{!SlotAllocator} `{!SlotAllocatorSpec}.

Definition pairs (l : list ik_doc_cache_entry) : list (cstr * list Z) := (fun e => (entry_path e, entry_content e)) <$> l.

Record cache_rep (cache : growing ik_doc_cache_entry) (l : list ik_doc_cache_entry) (m : gmap cstr (list Z)) : Prop := {
  rep_entries : grown_to cache l;
  rep_distinct : NoDup (pairs l).*1;
  rep_map : m = list_to_map (pairs l)
}.

Lemma cached_entry_ok c rest b : forall a,
  cached_entry (a ++ b ++ rest) (length b) (length a) c =
  Ret ((fun f => length a + fst f) <$> list_find (fun e => entry_path e = c) b).
Proof.
  induction b as [|e b IH]; intros a; [done|]. cbn [length cached_entry app list_find].
  rewrite arr_get_app. cbn [obind]. unfold strcmp_eq.
  destruct (decide (entry_path e = c)) as [E|E].
  - rewrite bool_decide_eq_true_2 by done. cbn. by rewrite Nat.add_0_r.
  - rewrite bool_decide_eq_false_2 by done. specialize (IH (a ++ [e])). rewrite length_app, Nat.add_1_r, <- app_assoc in IH.
    cbn [app] in IH. rewrite IH. destruct (list_find _ b) as [[k x]|]; [|done]. cbn. by rewrite Nat.add_succ_r.
Qed.

Lemma pairs_app a b : pairs (a ++ b) = pairs a ++ pairs b.
Proof. apply fmap_app. Qed.

(** The search, in terms of the map. *)
Lemma found_in_map cache l m c :
  cache_rep cache l m ->
  exists found, cached_entry (items cache) (used cache) 0 c = Ret found /\
  match found with
  | Some i => exists d e l2 rest, l = d ++ e :: l2 /\ length d = i /\ items cache = l ++ rest /\ entry_path e = c /\ m !! c = Some (entry_content e)
  | None => m !! c = None /\ (c ∉ (pairs l).*1)
  end.
Proof.
  intros [Hg Hd ->]. destruct (grown_items _ _ Hg) as [rest Er]. pose proof (cached_entry_ok c rest l []) as E. cbn [app length] in E.
  rewrite Er, (grown_used _ _ Hg), E. eexists. split; [reflexivity|].
  destruct (list_find _ l) as [[i e]|] eqn:Ef; cbn [fmap option_fmap option_map fst].
  - apply list_find_Some in Ef as (Ei & Ep & _). exists (take i l), e, (drop (S i) l), rest.
    split; [by rewrite take_drop_middle|]. split; [apply lookup_lt_Some in Ei; rewrite length_take; lia|]. split; [done|].
    split; [done|]. apply elem_of_list_to_map_1; [done|]. apply list_elem_of_fmap. exists e. rewrite <- Ep. split; [done|].
    by eapply list_elem_of_lookup_2.
  - apply list_find_None in Ef. assert (c ∉ (pairs l).*1) as Hn.
    { intros Hc. apply list_elem_of_fmap in Hc as ([k v] & -> & Hc). apply list_elem_of_fmap in Hc as (e & [= -> ->] & He).
      by apply (proj1 (Forall_forall _ _) Ef e He). }
    split; [|done]. by apply not_elem_of_list_to_map_1.
Qed.

(** A call on the cache is the call on the map. *)
Lemma step_refines cache l m op :
  cache_rep cache l m -> (Z.of_nat (length l) < 2 ^ 28)%Z ->
  exists l', fst (cache_step paths cache op) = fst (map_step paths m op) /\
    cache_rep (snd (cache_step paths cache op)) l' (snd (map_step paths m op)) /\ length l' <= S (length l).
Proof.
  intros Hr Hl. pose proof Hr as [Hg Hd Hm]. destruct op as [fs path|path|]; cbn [cache_step map_step].
  - unfold ik_doc_cache_get. destruct (ik_paths_translate_ik_uri_to_path paths (Some path)) as [c| | | |]; cbn [obind fst snd];
      try (exists l; split_and!; [done|done|lia]).
    destruct (found_in_map cache l m c Hr) as ([i|] & Ef & Hf); rewrite Ef; cbn [obind].
    + destruct Hf as (d & e & l2 & rest & -> & <- & Ei & Ep & ->). rewrite Ei, <- app_assoc. cbn [app].
      rewrite arr_get_app. cbn [obind fst snd]. eexists. split_and!; [done|exact Hr|lia].
    + destruct Hf as [-> Hn]. destruct (ik_file_read_all fs c) as [content| | | |]; cbn [obind fst snd];
        try (exists l; split_and!; [done|done|lia]).
      destruct (push_ok 4 cache l (mk_entry c content) Hg ltac:(lia) Hl) as (cache' & -> & Hg'). cbn [obind fst snd].
      exists (l ++ [mk_entry c content]). split; [done|]. split; [|rewrite length_app; cbn [length]; lia].
      constructor; [done| |]; rewrite pairs_app.
      * rewrite fmap_app. apply NoDup_app. split; [done|]. split; [|apply NoDup_singleton].
        intros x Hx Hc. apply list_elem_of_singleton in Hc. cbn in Hc. by subst x.
      * change (pairs [mk_entry c content]) with [(c, content)]. rewrite list_to_map_snoc by exact Hn. by rewrite Hm.
  - unfold ik_doc_cache_invalidate. destruct (ik_paths_translate_ik_uri_to_path paths (Some path)) as [c| | | |]; cbn [obind fst snd];
      try (exists l; split_and!; [done|done|lia]).
    destruct (found_in_map cache l m c Hr) as ([i|] & Ef & Hf); rewrite Ef; cbn [obind fst snd].
    + destruct Hf as (d & e & l2 & rest & -> & <- & Ei & Ep & Em). rewrite (grown_used _ _ Hg), Ei.
      replace (length (d ++ e :: l2) - 1 - length d) with (length l2) by (rewrite length_app; cbn [length]; lia).
      rewrite <- app_assoc. cbn [app]. rewrite close_gap_ok. cbn [obind fst snd].
      exists (d ++ l2). split; [done|]. split; [|rewrite !length_app; cbn [length]; lia].
      assert (pairs (d ++ e :: l2) ≡ₚ (c, entry_content e) :: pairs (d ++ l2)) as Hperm.
      { rewrite !pairs_app. change (pairs (e :: l2)) with ((entry_path e, entry_content e) :: pairs l2). rewrite Ep.
        symmetry. apply Permutation_middle. }
      assert (NoDup (((c, entry_content e) :: pairs (d ++ l2)).*1)) as Hd' by (by rewrite <- Hperm).
      constructor.
      * constructor; cbn [items used room].
        -- eexists. by rewrite <- app_assoc.
        -- rewrite !length_app. cbn [length]. lia.
        -- rewrite (grown_room _ _ Hg), Ei, !length_app. cbn [length]. lia.
        -- apply (grown_bound _ _ Hg).
      * cbn [fmap list_fmap] in Hd'. by apply NoDup_cons in Hd' as [_ ?].
      * rewrite Hm. rewrite (list_to_map_proper _ _ Hd Hperm). cbn [list_to_map foldr]. cbn [fmap list_fmap fst] in Hd'.
        apply NoDup_cons in Hd' as [Hc _]. apply delete_insert_id. by apply not_elem_of_list_to_map_1.
    + exists l. destruct Hf as [Hn _]. rewrite (delete_id m c Hn). split_and!; [done|exact Hr|lia].
  - exists []. split; [done|]. split; [|cbn [length]; lia]. constructor; [|constructor|done].
    destruct (grown_items _ _ Hg) as [rest Er]. constructor; cbn [ik_doc_cache_clear items used room length].
    + by eexists.
    + done.
    + apply (grown_room _ _ Hg).
    + apply (grown_bound _ _ Hg).
Qed.


End lemmas.

Module DocCacheProps.

Section props.
Context `{!SlotAllocator} `{!SlotAllocatorSpec}.

(** the document cache is a map.  In every history of calls, with the files
    changing in between, each call gives what the map from canonical paths gives:
    the content of the file when it was first asked for since its path was
    invalidated or the cache cleared, whatever the file holds by now. *)
Theorem doc_cache_refines_map (paths : ik_paths) (ops : list cache_op) :
  (Z.of_nat (length ops) < 2 ^ 28)%Z -> cache_run paths ik_doc_cache_create ops = map_run paths ∅ ops.
Proof.
  assert (forall cache l m, cache_rep cache l m -> (Z.of_nat (length l + length ops) < 2 ^ 28)%Z ->
    cache_run paths cache ops = map_run paths m ops) as Hrun.
  { induction ops as [|op ops IH]; intros cache l m Hr Hl; [done|]. cbn [cache_run map_run length] in *.
    destruct (step_refines paths cache l m op Hr ltac:(lia)) as (l' & E & Hr' & Hlen).
    destruct (cache_step paths cache op) as [r cache'], (map_step paths m op) as [r' m']. cbn [fst snd] in *. subst r'. f_equal.
    apply (IH cache' l' m' Hr'). lia. }
  intros Hl. apply (Hrun _ [] ∅); [|exact Hl]. constructor; [by apply (grown_nil [])|constructor|done].
Qed.

End props.
End DocCacheProps.

Module DocCacheExamples.
Import CopySlots DocCacheProps.

Definition dirs : ik_paths :=
  mk_paths (lit "/b") (lit "/c") (lit "/d") (lit "/l") (lit "/k") (lit "/s") (lit "/r") (lit "/u") (lit "/p").

Definition one (path : cstr) (content : list Z) : files := fun p => if strcmp_eq p path then Some content else None.

(** The file changes between the calls; its URI and its path are one entry. *)
Definition calls : list cache_op :=
  [Get (one (lit "/s/a") (lit "first")) (lit "ik://a"); Get (one (lit "/s/a") (lit "second")) (lit "/s/a");
   Invalidate (lit "ik://a"); Get (one (lit "/s/a") (lit "third")) (lit "/s/a"); Get (one (lit "/x") (lit "x")) (lit "/y")].

Lemma doc_cache_refines_map_witness : cache_run dirs ik_doc_cache_create calls = map_run dirs ∅ calls.
Proof. apply (doc_cache_refines_map dirs calls). vm_compute. reflexivity. Defined.

Example calls_give :
  cache_run dirs ik_doc_cache_create calls = [Ret (lit "first"); Ret (lit "first"); Ret []; Ret (lit "third"); Fail ERR_IO].
Proof. vm_compute. reflexivity. Qed.

End DocCacheExamples.
