(* ===== verification/Database.v ===== *)
(** * The database (db/agent.c, agent_row.c, agent_names.c, agent_zero.c,
    message.c, session.c, mail.c, notify.c)

    Every function with its SQL text.  libpq and the server are a parameter:
    what a statement answers and how it changes the database. *)

From Stdlib Require Import String.
From stdpp Require Import strings.
From S2P Require Import Prelude Slots CString Json RequestJson Conversation.

(** ** libpq *)

(** PGRES_TUPLES_OK with the rows, PGRES_COMMAND_OK with PQcmdTuples, or any
    other status. *)
Inductive pg_result :=
| PGRES_TUPLES_OK (rows : list (list (option cstr)))
| PGRES_COMMAND_OK (cmd_tuples : cstr)
| PGRES_FATAL_ERROR.

Class Libpq (DB : Type) := pq_exec_params : cstr -> list (option cstr) -> DB -> pg_result * DB.

(** A function of the program: its result and the database after it. *)
Definition dbm (DB A : Type) : Type := DB -> outcome A * DB.
Definition dret {DB A} (a : A) : dbm DB A := fun d => (Ret a, d).
Definition dlift {DB A} (o : outcome A) : dbm DB A := fun d => (o, d).
Definition dbind {DB A B} (m : dbm DB A) (k : A -> dbm DB B) : dbm DB B :=
  fun d => let '(o, d) := m d in
           match o with
           | Ret a => k a d
           | Fail e => (Fail e, d)
           | Panic => (Panic, d)
           | Undef => (Undef, d)
           | NoFuel => (NoFuel, d)
           end.
Notation "'do!' x ':=' m 'in' k" := (dbind m (fun x => k))
  (at level 10, x pattern, m at level 100, k at level 200).

Section calls.
Context {DB : Type}.

(** A call whose error is ignored. *)
Definition ignoring {A} (m : dbm DB A) : dbm DB unit :=
  fun d => match m d with
           | (Ret _, d) | (Fail _, d) => (Ret tt, d)
           | (Panic, d) => (Panic, d)
           | (Undef, d) => (Undef, d)
           | (NoFuel, d) => (NoFuel, d)
           end.

(** The result of a call, or its error. *)
Definition attempt {A} (m : dbm DB A) : dbm DB (err_code + A) :=
  fun d => match m d with
           | (Ret a, d) => (Ret (inr a), d)
           | (Fail e, d) => (Ret (inl e), d)
           | (Panic, d) => (Panic, d)
           | (Undef, d) => (Undef, d)
           | (NoFuel, d) => (NoFuel, d)
           end.

(** The result of a call, or nothing when it fails. *)
Definition trying {A} (m : dbm DB A) : dbm DB (option A) :=
  do! r := attempt m in dret (match r with inr a => Some a | inl _ => None end).

End calls.

(** What a call ends with, [N] if its fuel does not suffice. *)
Section wp.
Context {DB : Type} (N : Prop).

Definition wp {A} (m : dbm DB A) (d : DB) (R : A -> DB -> Prop) (F : DB -> Prop) : Prop :=
  match m d with
  | (Ret a, d) => R a d
  | (Fail _, d) => F d
  | (NoFuel, _) => N
  | _ => False
  end.

Lemma wp_ret {A} (a : A) d (R : A -> DB -> Prop) F : R a d -> wp (dret a) d R F.
Proof. done. Qed.

Lemma wp_bind {A B} (m : dbm DB A) (k : A -> dbm DB B) d R F : wp m d (fun a d => wp (k a) d R F) F -> wp (dbind m k) d R F.
Proof. unfold wp, dbind. destruct (m d) as [o d1]. by destruct o. Qed.

Lemma wp_mono {A} (m : dbm DB A) d (R R' : A -> DB -> Prop) (F F' : DB -> Prop) :
  wp m d R F -> (forall a d, R a d -> R' a d) -> (forall d, F d -> F' d) -> wp m d R' F'.
Proof. unfold wp. destruct (m d) as [o d1]. destruct o; eauto. Qed.

Lemma wp_ignoring {A} (m : dbm DB A) d (R : unit -> DB -> Prop) F : wp m d (fun _ => R tt) (R tt) -> wp (ignoring m) d R F.
Proof. unfold wp, ignoring. destruct (m d) as [o d1]. by destruct o. Qed.

Lemma wp_trying {A} (m : dbm DB A) d (R : option A -> DB -> Prop) F :
  wp m d (fun a => R (Some a)) (R None) -> wp (trying m) d R F.
Proof. unfold wp, trying, attempt, dbind. destruct (m d) as [o d1]. by destruct o. Qed.

Lemma wp_attempt {A} (m : dbm DB A) d (R : err_code + A -> DB -> Prop) F :
  wp m d (fun a => R (inr a)) (fun d => forall e, R (inl e) d) -> wp (attempt m) d R F.
Proof. unfold wp, attempt. destruct (m d) as [o d1]. destruct o; auto. Qed.

Lemma wp_lift {A} (a : A) d (R : A -> DB -> Prop) F : R a d -> wp (dlift (Ret a)) d R F.
Proof. done. Qed.
End wp.

(** ** Numbers in results *)

(** The digits from the start of a string, as a number. *)
Fixpoint digits_value (s : cstr) (acc : Z) : Z :=
  match s with
  | c :: s => if (48 <=? c)%Z && (c <=? 57)%Z then digits_value s (acc * 10 + (c - 48))%Z else acc
  | [] => acc
  end.

Definition starts_digit (s : cstr) : bool := match s with c :: _ => (48 <=? c)%Z && (c <=? 57)%Z | [] => false end.

(** isspace *)
Fixpoint skip_spaces (s : cstr) : cstr :=
  match s with c :: s' => if (c =? 32)%Z || ((9 <=? c)%Z && (c <=? 13)%Z) then skip_spaces s' else s | [] => [] end.

Definition scan_int (s : cstr) : option Z :=
  match skip_spaces s with
  | c :: s =>
      if (c =? 45)%Z then (if starts_digit s then Some (- digits_value s 0)%Z else None)
      else if (c =? 43)%Z then (if starts_digit s then Some (digits_value s 0) else None)
      else if starts_digit (c :: s) then Some (digits_value (c :: s) 0) else None
  | [] => None
  end.

Definition in_int64 (z : Z) : bool := (- 2 ^ 63 <=? z)%Z && (z <? 2 ^ 63)%Z.

(** sscanf(s, "%lld", &x): 1 and x, or not 1; a number that does not fit is
    undefined. *)
Definition sscanf_lld (s : cstr) : outcome (option Z) :=
  match scan_int s with
  | None => Ret None
  | Some z => if in_int64 z then Ret (Some z) else Undef
  end.

Definition strtoll (s : cstr) : Z :=
  match scan_int s with
  | None => 0
  | Some z => Z.max (- 2 ^ 63) (Z.min (2 ^ 63 - 1) z)
  end%Z.

(** PQgetvalue: the empty string for NULL, no pointer out of range. *)
Definition PQgetvalue (rows : list (list (option cstr))) (i j : nat) : outcome cstr :=
  match (r ← rows !! i; r !! j) with Some v => Ret (default [] v) | None => Undef end.

Definition PQgetisnull (rows : list (list (option cstr))) (i j : nat) : bool :=
  match (r ← rows !! i; r !! j) with Some (Some _) => false | _ => true end.

(** A nullable column. *)
Definition nullable (rows : list (list (option cstr))) (i j : nat) : outcome (option cstr) :=
  if PQgetisnull rows i j then Ret None else let! v := PQgetvalue rows i j in Ret (Some v).

(** "if (sscanf(...) != 1) return ERR(PARSE)" *)
Definition parse_lld (s : cstr) : outcome Z :=
  let! n := sscanf_lld s in
  match n with Some z => Ret z | None => Fail ERR_PARSE end.

Section db.
Context {DB : Type} `{!Libpq DB}.

(** "if (PQresultStatus(res) != PGRES_TUPLES_OK) return ERR(IO)" *)
Definition tuples (query : cstr) (params : list (option cstr)) : dbm DB (list (list (option cstr))) :=
  fun d => let '(r, d) := pq_exec_params query params d in
           (match r with PGRES_TUPLES_OK rows => Ret rows | _ => Fail ERR_IO end, d).

(** "if (PQresultStatus(res) != PGRES_COMMAND_OK) return ERR(IO)" *)
Definition command (query : cstr) (params : list (option cstr)) : dbm DB cstr :=
  fun d => let '(r, d) := pq_exec_params query params d in
           (match r with PGRES_COMMAND_OK n => Ret n | _ => Fail ERR_IO end, d).

Definition command_ (query : cstr) (params : list (option cstr)) : dbm DB unit :=
  do! _ := command query params in dret tt.

(** "assert(b)" *)
Definition asserting {A} (b : bool) (m : dbm DB A) : dbm DB A := if b then m else dlift Panic.

(** ** agent_row.c *)

Record ik_db_agent_row := mk_agent_row {
  uuid : cstr;
  name : option cstr;
  parent_uuid : option cstr;
  fork_message_id : cstr;
  status : cstr;
  created_at : Z;
  ended_at : Z;
  provider : option cstr;
  row_model : option cstr;
  thinking_level : option cstr;
  idle : bool
}.

Definition ik_db_agent_parse_row (rows : list (list (option cstr))) (i : nat) : outcome ik_db_agent_row :=
  let! u := PQgetvalue rows i 0 in
  let! n := nullable rows i 1 in
  let! p := nullable rows i 2 in
  let! f := PQgetvalue rows i 3 in
  let! s := PQgetvalue rows i 4 in
  let! created_at_str := PQgetvalue rows i 5 in
  let! c := parse_lld created_at_str in
  let! ended_at_str := PQgetvalue rows i 6 in
  let! e := parse_lld ended_at_str in
  let! pr := nullable rows i 7 in
  let! m := nullable rows i 8 in
  let! t := nullable rows i 9 in
  let! idle_str := PQgetvalue rows i 10 in
  let idl := match idle_str with c :: _ => (c =? 116)%Z || (c =? 84)%Z | [] => false end in
  Ret (mk_agent_row u n p f s c e pr m t idl).

(** The loop over the rows. *)
Fixpoint parse_rows (rows : list (list (option cstr))) (n i : nat) : outcome (list ik_db_agent_row) :=
  match n with
  | 0 => Ret []
  | S n =>
      let! row := ik_db_agent_parse_row rows i in
      let! rest := parse_rows rows n (S i) in
      Ret (row :: rest)
  end.

(** ** agent.c *)

(** What ik_db_agent_insert reads of an agent. *)
Record agent_fields := mk_agent_fields {
  af_session_id : Z;
  af_uuid : cstr;
  af_name : option cstr;
  af_parent_uuid : option cstr;
  af_created_at : Z;
  af_fork_message_id : Z;
  af_provider : option cstr;
  af_model : option cstr;
  af_thinking_level : Z
}.

Definition thinking_level_param (level : Z) : option cstr :=
  if (level =? 0)%Z then None
  else if (level =? 1)%Z then Some (lit "low")
  else if (level =? 2)%Z then Some (lit "med")
  else if (level =? 3)%Z then Some (lit "high")
  else Some (lit "min").

Definition INSERT_AGENT : cstr :=
  lit ("INSERT INTO agents (session_id, uuid, name, parent_uuid, status, created_at, fork_message_id, " ++
       "provider, model, thinking_level) VALUES ($1, $2, $3, $4, 'running', $5, $6, $7, $8, $9)").

Definition ik_db_agent_insert (a : agent_fields) : dbm DB unit :=
  command_ INSERT_AGENT
    [Some (show_int (af_session_id a)); Some (af_uuid a); af_name a; af_parent_uuid a; Some (show_int (af_created_at a));
     Some (show_int (af_fork_message_id a)); af_provider a; af_model a; thinking_level_param (af_thinking_level a)].

Definition MARK_DEAD : cstr :=
  lit "UPDATE agents SET status = 'dead', ended_at = $1 WHERE uuid = $2 AND status = 'running'".

(** [now] is time(NULL). *)
Definition ik_db_agent_mark_dead (now : Z) (u : cstr) : dbm DB unit := command_ MARK_DEAD [Some (show_int now); Some u].

Definition AGENT_COLUMNS : string :=
  "SELECT uuid, name, parent_uuid, fork_message_id, status::text, created_at, COALESCE(ended_at, 0) as ended_at, " ++
  "provider, model, thinking_level, idle FROM agents WHERE ".

Definition GET_AGENT : cstr := lit (AGENT_COLUMNS ++ "uuid = $1").

Definition ik_db_agent_get (u : cstr) : dbm DB ik_db_agent_row :=
  do! rows := tuples GET_AGENT [Some u] in
  dlift (match rows with [] => Fail ERR_IO | _ => ik_db_agent_parse_row rows 0 end).

Definition LIST_RUNNING : cstr := lit (AGENT_COLUMNS ++ "status = 'running' ORDER BY created_at").

Definition ik_db_agent_list_running : dbm DB (list ik_db_agent_row) :=
  do! rows := tuples LIST_RUNNING [] in dlift (parse_rows rows (length rows) 0).

Definition LIST_ACTIVE : cstr :=
  lit (AGENT_COLUMNS ++ "session_id = $1 AND status IN ('running', 'dead') ORDER BY created_at").

Definition ik_db_agent_list_active (session_id : Z) : dbm DB (list ik_db_agent_row) :=
  do! rows := tuples LIST_ACTIVE [Some (show_int session_id)] in dlift (parse_rows rows (length rows) 0).

Definition LAST_MESSAGE_ID : cstr := lit "SELECT COALESCE(MAX(id), 0) FROM messages WHERE agent_uuid = $1".

Definition ik_db_agent_get_last_message_id (u : cstr) : dbm DB Z :=
  do! rows := tuples LAST_MESSAGE_ID [Some u] in
  dlift (let! id_str := PQgetvalue rows 0 0 in parse_lld id_str).

Definition UPDATE_PROVIDER : cstr :=
  lit "UPDATE agents SET provider = $1, model = $2, thinking_level = $3 WHERE uuid = $4".

Definition ik_db_agent_update_provider (u : cstr) (pr m t : option cstr) : dbm DB unit :=
  command_ UPDATE_PROVIDER [pr; m; t; Some u].

Definition SET_IDLE : cstr := lit "UPDATE agents SET idle = $1 WHERE uuid = $2".

Definition ik_db_agent_set_idle (u : cstr) (i : bool) : dbm DB unit :=
  command_ SET_IDLE [Some (if i then lit "true" else lit "false"); Some u].

Definition MARK_REAPED : cstr := lit "UPDATE agents SET status = 'reaped' WHERE uuid = $1".

Definition ik_db_agent_mark_reaped (u : cstr) : dbm DB unit := command_ MARK_REAPED [Some u].

Definition REAP_ALL_DEAD : cstr := lit "UPDATE agents SET status = 'reaped' WHERE status = 'dead'".

Definition ik_db_agent_reap_all_dead : dbm DB unit := command_ REAP_ALL_DEAD [].

(** ** agent_names.c *)

(** "$1,$2,...,$n" *)
Fixpoint placeholders (n i : nat) : cstr :=
  match n with
  | 0 => []
  | S n =>
      lit "$" ++ show_int (Z.of_nat (i + 1)) ++ (match n with 0 => [] | _ => lit "," end) ++ placeholders n (S i)
  end.

Fixpoint name_entries (rows : list (list (option cstr))) (n i : nat) : outcome (list (cstr * option cstr)) :=
  match n with
  | 0 => Ret []
  | S n =>
      let! u := PQgetvalue rows i 0 in
      let! nm := nullable rows i 1 in
      let! rest := name_entries rows n (S i) in
      Ret ((u, nm) :: rest)
  end.

Definition ik_db_agent_get_names_batch (uuids : list cstr) : dbm DB (list (cstr * option cstr)) :=
  match uuids with
  | [] => dret []
  | _ =>
      do! rows := tuples (lit "SELECT uuid, name FROM agents WHERE uuid IN (" ++ placeholders (length uuids) 0 ++ lit ")")
                    (Some <$> uuids) in
      dlift (name_entries rows (length rows) 0)
  end.

(** ** message.c *)

Definition VALID_KINDS : list cstr :=
  lit <$> ["clear"; "system"; "user"; "assistant"; "tool_call"; "tool_result"; "mark"; "rewind"; "agent_killed"; "command";
           "fork"; "usage"; "interrupted"]%string.

Definition ik_db_message_is_valid_kind (k : option cstr) : bool :=
  match k with Some k => existsb (strcmp_eq k) VALID_KINDS | None => false end.

Definition INSERT_MESSAGE : cstr :=
  lit "INSERT INTO messages (session_id, agent_uuid, kind, content, data) VALUES ($1, $2, $3, $4, $5)".

Definition ik_db_message_insert (session_id : Z) (agent_uuid : option cstr) (k : cstr) (content data_json : option cstr)
  : dbm DB unit :=
  asserting ((0 <? session_id)%Z && ik_db_message_is_valid_kind (Some k))
    (command_ INSERT_MESSAGE [Some (show_int session_id); agent_uuid; Some k; content; data_json]).

Definition ik_msg_create_tool_result `{Yyjson} (tool_call_id nm output : cstr) (success : bool) (content : cstr)
  : outcome ik_msg :=
  let root := obj_add_str [] (lit "tool_call_id") (Some tool_call_id) in
  let root := obj_add_str root (lit "name") (Some nm) in
  let root := obj_add_str root (lit "output") (Some output) in
  let root := put_val "success" (JBool success) root in
  let! json_str := or_panic (yyjson_write (JObj root)) in
  Ret (mk_msg (lit "tool_result") (Some content) (Some json_str)).

(** ** session.c *)

Definition CREATE_SESSION : cstr := lit "INSERT INTO sessions DEFAULT VALUES RETURNING id".

Definition ik_db_session_create : dbm DB Z :=
  do! rows := tuples CREATE_SESSION [] in
  if negb (length rows =? 1)%nat then dlift Panic
  else dlift (let! id_str := PQgetvalue rows 0 0 in Ret (strtoll id_str)).

Definition ACTIVE_SESSION : cstr :=
  lit "SELECT id FROM sessions WHERE ended_at IS NULL ORDER BY started_at DESC, id DESC LIMIT 1".

Definition ik_db_session_get_active : dbm DB Z :=
  do! rows := tuples ACTIVE_SESSION [] in
  match rows with
  | [] => dret 0%Z
  | _ => dlift (let! id_str := PQgetvalue rows 0 0 in Ret (strtoll id_str))
  end.

(** ** mail.c *)

Record ik_mail_msg := mk_mail {
  mail_id : Z;
  from_uuid : cstr;
  to_uuid : cstr;
  body : cstr;
  mail_timestamp : Z;
  read : bool
}.

Definition INSERT_MAIL : cstr :=
  lit "INSERT INTO mail (session_id, from_uuid, to_uuid, body, timestamp) VALUES ($1, $2, $3, $4, $5) RETURNING id".

Definition ik_db_mail_insert (session_id : Z) (msg : ik_mail_msg) : dbm DB ik_mail_msg :=
  asserting (0 <? session_id)%Z (
  do! rows := tuples INSERT_MAIL
    [Some (show_int session_id); Some (from_uuid msg); Some (to_uuid msg); Some (body msg); Some (show_int (mail_timestamp msg))] in
  dlift (let! id_str := PQgetvalue rows 0 0 in
         Ret (mk_mail (strtoll id_str) (from_uuid msg) (to_uuid msg) (body msg) (mail_timestamp msg) (read msg)))).

Definition parse_mail (rows : list (list (option cstr))) (i : nat) : outcome ik_mail_msg :=
  let! id_str := PQgetvalue rows i 0 in
  let! f := PQgetvalue rows i 1 in
  let! t := PQgetvalue rows i 2 in
  let! b := PQgetvalue rows i 3 in
  let! timestamp_str := PQgetvalue rows i 4 in
  let! read_str := PQgetvalue rows i 5 in
  Ret (mk_mail (strtoll id_str) f t b (strtoll timestamp_str) (strcmp_eq read_str (lit "1"))).

Fixpoint parse_mails (rows : list (list (option cstr))) (n i : nat) : outcome (list ik_mail_msg) :=
  match n with
  | 0 => Ret []
  | S n => let! m := parse_mail rows i in let! rest := parse_mails rows n (S i) in Ret (m :: rest)
  end.

Definition INBOX : cstr :=
  lit "SELECT id, from_uuid, to_uuid, body, timestamp, read FROM mail WHERE session_id = $1 AND to_uuid = $2 ORDER BY read ASC, timestamp DESC".

Definition ik_db_mail_inbox (session_id : Z) (to : cstr) : dbm DB (list ik_mail_msg) :=
  asserting (0 <? session_id)%Z (
  do! rows := tuples INBOX [Some (show_int session_id); Some to] in dlift (parse_mails rows (length rows) 0)).

Definition INBOX_FILTERED : cstr :=
  lit ("SELECT id, from_uuid, to_uuid, body, timestamp, read FROM mail WHERE session_id = $1 AND to_uuid = $2 " ++
       "AND from_uuid = $3 ORDER BY read ASC, timestamp DESC").

Definition ik_db_mail_inbox_filtered (session_id : Z) (to from : cstr) : dbm DB (list ik_mail_msg) :=
  asserting (0 <? session_id)%Z (
  do! rows := tuples INBOX_FILTERED [Some (show_int session_id); Some to; Some from] in
  dlift (parse_mails rows (length rows) 0)).

Definition MARK_READ : cstr := lit "UPDATE mail SET read = 1 WHERE id = $1".

Definition ik_db_mail_mark_read (id : Z) : dbm DB unit :=
  asserting (0 <? id)%Z (command_ MARK_READ [Some (show_int id)]).

Definition DELETE_MAIL : cstr := lit "DELETE FROM mail WHERE id = $1 AND to_uuid = $2".

Definition ik_db_mail_delete (id : Z) (recipient_uuid : cstr) : dbm DB unit :=
  asserting (0 <? id)%Z (
  do! rows_affected := command DELETE_MAIL [Some (show_int id); Some recipient_uuid] in
  if strcmp_eq rows_affected (lit "0") then dlift (Fail ERR_IO) else dret tt).

(** ** agent_zero.c *)

Definition FIND_ROOT : cstr := lit "SELECT uuid FROM agents WHERE parent_uuid IS NULL".
Definition CHECK_COLUMN : cstr :=
  lit "SELECT 1 FROM information_schema.columns WHERE table_name = 'messages' AND column_name = 'agent_uuid'".
Definition CHECK_ORPHANS : cstr := lit "SELECT 1 FROM messages WHERE agent_uuid IS NULL LIMIT 1".
Definition INSERT_ZERO : cstr :=
  lit ("INSERT INTO agents (uuid, name, parent_uuid, status, created_at, fork_message_id, session_id) " ++
       "VALUES ($1, NULL, NULL, 'running', $2, 0, $3)").
Definition ADOPT : cstr := lit "UPDATE messages SET agent_uuid = $1 WHERE agent_uuid IS NULL".

(** A query whose failure counts as no rows. *)
Definition has_rows (query : cstr) : dbm DB bool :=
  fun d => let '(r, d) := pq_exec_params query [] d in
           (Ret (match r with PGRES_TUPLES_OK (_ :: _) => true | _ => false end), d).

Definition quoted_text (s : cstr) : cstr := [34%Z] ++ s ++ [34%Z].

(** {"role":"child","pinned_paths":["<path>"]} *)
Definition zero_fork_data (system_md_path : cstr) : cstr :=
  lit "{" ++ quoted_text (lit "role") ++ lit ":" ++ quoted_text (lit "child") ++ lit "," ++
  quoted_text (lit "pinned_paths") ++ lit ":[" ++ quoted_text system_md_path ++ lit "]}".

(** [uuid] is the one ik_generate_uuid makes, [now] time(NULL). *)
Definition ik_db_ensure_agent_zero (session_id : Z) (data_dir new_uuid : cstr) (now : Z) : dbm DB cstr :=
  asserting (0 <? session_id)%Z (
  do! rows := tuples FIND_ROOT [] in
  match rows with
  | _ :: _ => dlift (PQgetvalue rows 0 0)
  | [] =>
      do! agent_uuid_exists := has_rows CHECK_COLUMN in
      do! has_orphans := (if agent_uuid_exists : bool then has_rows CHECK_ORPHANS else dret false) in
      do! _ := command_ INSERT_ZERO [Some new_uuid; Some (show_int now); Some (show_int session_id)] in
      do! _ := (if has_orphans && agent_uuid_exists then command_ ADOPT [Some new_uuid] else dret tt) in
      let fork_data := zero_fork_data (data_dir ++ lit "/system/prompt.md") in
      do! _ := ik_db_message_insert session_id (Some new_uuid) (lit "fork") (Some (lit "Agent 0 created with system prompt"))
                 (Some fork_data) in
      dret new_uuid
  end).

(** ** notify.c *)

Definition notify_command (query : cstr) : dbm DB unit :=
  fun d => let '(r, d) := pq_exec_params query [] d in
           (match r with PGRES_COMMAND_OK _ => Ret tt | _ => Fail ERR_DB_CONNECT end, d).

Definition ik_db_listen (channel : cstr) : dbm DB unit := notify_command (lit "LISTEN " ++ quoted_text channel).
Definition ik_db_unlisten (channel : cstr) : dbm DB unit := notify_command (lit "UNLISTEN " ++ quoted_text channel).
Definition ik_db_notify (channel payload : cstr) : dbm DB unit :=
  notify_command (lit "NOTIFY " ++ quoted_text channel ++ lit ", '" ++ payload ++ lit "'").

End db.

(** A statement that answers rows. *)
Lemma wp_tuples {DB : Type} (N : Prop) `{!Libpq DB} q ps d (R : list (list (option cstr)) -> DB -> Prop) (F : DB -> Prop) :
  snd (pq_exec_params q ps d) = d -> (forall rows, fst (pq_exec_params q ps d) = PGRES_TUPLES_OK rows -> R rows d) -> F d ->
  wp N (tuples q ps) d R F.
Proof.
  unfold wp, tuples. destruct (pq_exec_params q ps d) as [r d1]. cbn [fst snd]. intros -> HR HF. destruct r; [by apply HR|done|done].
Qed.

(** ** Numbers written and read back *)

Definition digit (c : Z) : Prop := (48 <= c <= 57)%Z.
Definition value (ds : cstr) (a : Z) : Z := foldl (fun a c => a * 10 + (c - 48))%Z a ds.

Lemma digit_test c : digit c -> ((48 <=? c)%Z && (c <=? 57)%Z) = true.
Proof. unfold digit. intros [H1 H2]. by rewrite (proj2 (Z.leb_le _ _) H1), (proj2 (Z.leb_le _ _) H2). Qed.

Lemma digits_value_all ds a : Forall digit ds -> digits_value ds a = value ds a.
Proof.
  intros Hd. revert a. induction Hd as [|c ds Hc _ IH]; intros a; [done|]. cbn [digits_value]. rewrite digit_test by done. apply IH.
Qed.

Lemma decimal_value fuel n acc : (0 <= n < 10 ^ Z.of_nat (S fuel))%Z ->
  exists ds, decimal (S fuel) n acc = ds ++ acc /\ Forall digit ds /\ ds <> [] /\ value ds 0 = n.
Proof.
  revert n acc. induction fuel as [|fuel IH]; intros n acc Hn.
  - rewrite Z.pow_1_r in Hn. exists [(48 + n `mod` 10)%Z]. cbn [decimal]. rewrite Z.div_small by lia. cbn [Z.eqb].
    rewrite Z.mod_small by lia. split; [done|]. split; [repeat constructor; unfold digit; lia|]. split; [done|].
    cbn [value foldl]. lia.
  - set (f := S fuel) in *. cbn [decimal]. pose proof (Z.mod_pos_bound n 10 ltac:(lia)) as Hm. pose proof (Z.div_mod n 10) as Hdm.
    destruct (Z.eqb_spec (n / 10) 0) as [E|E].
    + exists [(48 + n `mod` 10)%Z]. split; [done|]. split; [repeat constructor; unfold digit; lia|]. split; [done|].
      cbn [value foldl]. lia.
    + destruct (IH (n / 10)%Z ((48 + n `mod` 10)%Z :: acc)) as (ds & Ed & Hd & Hne & Hv).
      { split; [apply Z.div_pos; lia|]. apply Z.div_lt_upper_bound; [lia|].
        replace (10 * 10 ^ Z.of_nat f)%Z with (10 ^ Z.of_nat (S f))%Z; [lia|]. rewrite Nat2Z.inj_succ, Z.pow_succ_r; lia. }
      exists (ds ++ [(48 + n `mod` 10)%Z]). split; [rewrite Ed; by rewrite <- app_assoc|].
      split; [apply Forall_app; split; [done|repeat constructor; unfold digit; lia]|]. split; [by destruct ds|].
      unfold value in *. rewrite foldl_app, Hv. cbn [foldl]. lia.
Qed.

Lemma scan_digits ds : Forall digit ds -> ds <> [] -> scan_int ds = Some (value ds 0) /\ starts_digit ds = true.
Proof.
  intros Hd Hne. destruct ds as [|c ds]; [done|]. pose proof (digits_value_all _ 0 Hd) as Hv.
  inversion Hd as [|? ? Hc _]; subst. pose proof (digit_test c Hc) as Ht. unfold digit in Hc.
  assert (starts_digit (c :: ds) = true) as Es by (cbn [starts_digit]; exact Ht). split; [|exact Es].
  unfold scan_int. cbn [skip_spaces].
  rewrite (proj2 (Z.eqb_neq c 32)), (proj2 (Z.leb_gt c 13)), andb_false_r by lia. cbn [orb].
  rewrite (proj2 (Z.eqb_neq c 45)), (proj2 (Z.eqb_neq c 43)) by lia. by rewrite Es, Hv.
Qed.

Lemma show_int_scans z : (- 2 ^ 63 <= z < 2 ^ 63)%Z -> scan_int (show_int z) = Some z.
Proof.
  intros Hz. unfold show_int. destruct (Z.ltb_spec z 0) as [Hn|Hn].
  - destruct (decimal_value 19 (- z) []) as (ds & -> & Hd & Hne & Hv); [lia|]. rewrite app_nil_r.
    destruct (scan_digits ds Hd Hne) as [_ Es]. unfold scan_int. cbn [skip_spaces Z.eqb Z.leb Z.compare orb andb]. cbn.
    rewrite Es, digits_value_all, Hv by done. f_equal. lia.
  - destruct (decimal_value 19 z []) as (ds & -> & Hd & Hne & Hv); [lia|]. rewrite app_nil_r.
    rewrite (proj1 (scan_digits ds Hd Hne)). by rewrite Hv.
Qed.

Lemma parse_shown z : (- 2 ^ 63 <= z < 2 ^ 63)%Z -> parse_lld (show_int z) = Ret z.
Proof.
  intros Hz. unfold parse_lld, sscanf_lld. rewrite show_int_scans by done.
  unfold in_int64. by rewrite (proj2 (Z.leb_le _ _)), (proj2 (Z.ltb_lt _ _)) by lia.
Qed.

Lemma strtoll_shown z : (- 2 ^ 63 <= z < 2 ^ 63)%Z -> strtoll (show_int z) = z.
Proof. intros Hz. unfold strtoll. rewrite show_int_scans by done. lia. Qed.
