(* ===== verification/ToolIO.v ===== *)
(** * Input and output of the standalone tools (src/tools)

    What the tools under src/tools have in common: the answer to --schema, the
    input read to its end, and results printed as JSON. *)

From Stdlib Require Import String.
From stdpp Require Import strings.
From S2P Require Import Prelude Slots CString ByteArray Json RequestJson Database.

(** What a run leaves: its exit code and what it printed. *)
Record ran := mk_ran { exit_code : Z; stdout : cstr; stderr : cstr }.

Definition newline : cstr := [10%Z].
Definition printed (s : cstr) : ran := mk_ran 0 s [].
Definition complained (tool : string) (msg : cstr) : ran := mk_ran 1 [] (lit tool ++ lit ": " ++ msg ++ newline).

(** ** Files

    fopen, fstat and fread as they are documented, of the file named by a path:
    an error, or its size, if fstat gives it, and its bytes. *)

Inductive errno := ENOENT | EACCES | ENOSPC | EEXIST | EOTHER.
Record opened := mk_opened { st_size : option nat; file_bytes : list Z }.

Class FileSystem (F : Type) := {
  fopen_read : cstr -> F -> errno + opened;
  fopen_write : cstr -> F -> errno + F;
  fwrite : cstr -> list Z -> F -> nat * F;
  mkdir : cstr -> F -> option errno * F
}.

(** A file that can be read and written. *)
Class FileSystemSpec (F : Type) `{!FileSystem F} : Prop := {
  fwrite_all p b f f1 : fopen_write p f = inr f1 ->
    exists f2, fwrite p b f1 = (length b, f2) /\ fopen_read p f2 = inr (mk_opened (Some (length b)) b)
}.

Section tool_io.
Context `{!Allocator} `{!Yyjson}.

(** "while ((n = fread(buf + total, 1, size - total, f)) > 0) { ... }" *)
Fixpoint read_loop (fuel : nat) (input block : list Z) (total size : nat) : outcome (list Z * nat * nat) :=
  match fuel with
  | 0 => NoFuel
  | S fuel =>
      let n := Nat.min (size - total) (length input) in
      if (n =? 0)%nat then Ret (block, total, size)
      else
        let! block := mem_write total (take n input) block in
        let total := total + n in
        if (size <=? total)%nat then
          let size := wrap64 (size * 2) in
          let! block := or_panic (talloc_realloc block (wrap32 size)) in
          read_loop fuel (drop n input) block total size
        else read_loop fuel (drop n input) block total size
  end.

(** The block with a terminator, and the number of bytes read. *)
Definition read_all (input : list Z) : outcome (list Z * nat) :=
  let! block := or_panic (talloc_realloc [] 4096) in
  let! (block, total, size) := read_loop (S (length input)) input block 0 4096 in
  if (total <? size)%nat then
    let! block := mem_write total [0%Z] block in
    Ret (block, total)
  else
    let! block := or_panic (talloc_realloc block (wrap32 (total + 1))) in
    let! block := mem_write total [0%Z] block in
    Ret (block, total).

(** A value printed on a line of its own. *)
Definition print_json (v : json) : outcome ran :=
  let! json_str := or_panic (yyjson_write v) in
  Ret (printed (json_str ++ newline)).

Definition output_error (error : cstr) (error_code : string) : outcome ran :=
  print_json (JObj (put_val "error_code" (JStr (lit error_code)) (put_val "error" (JStr error) []))).

(** ** main

    [body] looks at the parsed input. *)
Definition tool_main {F : Type} (tool : string) (schema : cstr) (body : json -> F -> outcome ran * F)
    (argv : list cstr) (stdin : list Z) (fs : F) : outcome ran * F :=
  if match argv with [_; a] => strcmp_eq a (lit "--schema") | _ => false end then (Ret (printed schema), fs)
  else
    match read_all stdin with
    | Ret (input, total_read) =>
        if (total_read =? 0)%nat then (Ret (complained tool (lit "empty input")), fs)
        else
          match yyjson_read (take total_read input) with
          | None => (Ret (complained tool (lit "invalid JSON")), fs)
          | Some root => body root fs
          end
    | Fail e => (Fail e, fs)
    | Panic => (Panic, fs)
    | Undef => (Undef, fs)
    | NoFuel => (NoFuel, fs)
    end.

End tool_io.

(** ** Schemas

    The lines a schema is printed on, indented by two spaces a level. *)

Definition q (s : string) : cstr := quoted_text (lit s).
Definition line (indent : nat) (s : cstr) : cstr := replicate indent 32%Z ++ s ++ newline.
Definition field (k : string) (v : cstr) : cstr := q k ++ lit ": " ++ v.

(** A property with its type and description. *)
Definition schema_property (nm type description : string) (last : bool) : cstr :=
  line 6 (q nm ++ lit ": {") ++ line 8 (field "type" (q type) ++ lit ",") ++ line 8 (field "description" (q description)) ++
  line 6 (if last then lit "}" else lit "},").

Definition schema_text (nm description : string) (properties : cstr) (required : cstr) : cstr :=
  line 0 (lit "{") ++ line 2 (field "name" (q nm) ++ lit ",") ++ line 2 (field "description" (q description) ++ lit ",") ++
  line 2 (q "parameters" ++ lit ": {") ++ line 4 (field "type" (q "object") ++ lit ",") ++ line 4 (q "properties" ++ lit ": {") ++
  properties ++ line 4 (lit "},") ++ line 4 (q "required" ++ lit ": [" ++ required ++ lit "]") ++ line 2 (lit "}") ++ line 0 (lit "}").

(** ** Reading to the end *)

Section read_lemmas.
Context `{!Allocator} `{!AllocatorSpec}.

(** A larger block: the old bytes and some more. *)
Lemma realloc_grows old n : length old < n -> exists junk, talloc_realloc old n = Some (old ++ junk) /\ length (old ++ junk) = n /\ junk <> [].
Proof.
  intros Hn. destruct (realloc_some old n) as [new E]. pose proof (realloc_length _ _ _ E) as Hl.
  pose proof (realloc_prefix _ _ _ E ltac:(lia)) as Hp. exists (drop (length old) new).
  assert (old ++ drop (length old) new = new) as Eq by (rewrite <- Hp at 1; apply take_drop). rewrite Eq.
  split; [done|]. split; [done|]. intros En. apply (f_equal length) in En. rewrite length_drop in En. cbn [length] in En. lia.
Qed.

Lemma read_loop_ok fuel : forall rest seen junk,
  length rest < fuel -> junk <> [] -> (Z.of_nat (length seen + length rest) < 2 ^ 30)%Z ->
  exists junk', read_loop fuel rest (seen ++ junk) (length seen) (length (seen ++ junk)) =
    Ret ((seen ++ rest) ++ junk', length (seen ++ rest), length ((seen ++ rest) ++ junk')) /\ junk' <> [].
Proof.
  induction fuel as [|fuel IH]; intros rest seen junk Hf Hj Hb; [lia|]. cbn [read_loop].
  assert (0 < length junk) as Hjl by (destruct junk; [done|cbn [length]; lia]).
  replace (length (seen ++ junk) - length seen) with (length junk) by len_lia.
  set (n := Nat.min (length junk) (length rest)). destruct (Nat.eqb_spec n 0) as [En|En].
  { assert (rest = []) as -> by (apply length_zero_iff_nil; unfold n in En; lia). exists junk. by rewrite !app_nil_r. }
  assert (length (take n rest) = n) as Hn by (rewrite length_take; unfold n; lia).
  assert (mem_write (length seen) (take n rest) (seen ++ junk) = Ret ((seen ++ take n rest) ++ drop n junk)) as ->.
  { rewrite <- (take_drop n junk) at 1. rewrite mem_write_app; [by rewrite <- app_assoc|done|rewrite Hn, length_take; unfold n; lia]. }
  cbn [obind]. replace (length seen + n) with (length (seen ++ take n rest)) by len_lia.
  assert (length (drop n rest) < fuel) as Hf' by (rewrite length_drop; unfold n in *; lia).
  assert (forall j, j <> [] -> exists junk', read_loop fuel (drop n rest) ((seen ++ take n rest) ++ j) (length (seen ++ take n rest))
            (length ((seen ++ take n rest) ++ j)) = Ret ((seen ++ rest) ++ junk', length (seen ++ rest), length ((seen ++ rest) ++ junk')) /\ junk' <> []) as Hnext.
  { intros j Hj'. destruct (IH (drop n rest) (seen ++ take n rest) j Hf' Hj') as (junk' & E & Hne).
    { rewrite length_app, Hn, length_drop. unfold n in *. lia. }
    exists junk'. rewrite E. by rewrite <- (app_assoc seen (take n rest)), take_drop. }
  destruct (Nat.leb_spec (length (seen ++ junk)) (length (seen ++ take n rest))) as [Hle|Hgt].
  - assert (drop n junk = []) as -> by (apply drop_ge; rewrite !length_app in Hle; lia). rewrite app_nil_r.
    rewrite !length_app, Hn in *. rewrite wrap64_small, wrap32_small by (unfold n in *; lia).
    destruct (realloc_grows (seen ++ take n rest) ((length seen + length junk) * 2)) as (j & -> & El & Hne).
    { rewrite length_app, Hn. unfold n. lia. }
    cbn [or_panic obind]. rewrite <- El. destruct (Hnext j Hne) as (junk' & E & Hne'). exists junk'. rewrite <- E, !length_app, Hn. done.
  - destruct (Hnext (drop n junk)) as (junk' & E & Hne').
    { intros En'. rewrite <- (take_drop n junk), En', app_nil_r, !length_app, Hn, length_take in Hgt. lia. }
    exists junk'. split; [|done]. rewrite <- E. f_equal. rewrite !length_app, length_drop, Hn. unfold n. lia.
Qed.

(** The whole input, with its terminator. *)
Lemma read_all_ok input : (Z.of_nat (length input) < 2 ^ 30)%Z -> exists junk, read_all input = Ret (input ++ 0%Z :: junk, length input).
Proof.
  intros Hb. unfold read_all. destruct (realloc_grows [] 4096 ltac:(cbn [length]; lia)) as (junk & -> & El & Hne). cbn [or_panic obind app] in *.
  destruct (read_loop_ok (S (length input)) input [] junk ltac:(lia) Hne ltac:(cbn [length]; lia)) as (junk' & E & Hne').
  cbn [app length] in E. rewrite El in E. rewrite E. cbn [obind]. destruct junk' as [|b junk']; [done|].
  rewrite (proj2 (Nat.ltb_lt _ _)) by (rewrite length_app; cbn [length]; lia).
  change (input ++ b :: junk') with (input ++ [b] ++ junk'). rewrite (mem_write_app (length input) [0%Z] input [b] junk') by done. by exists junk'.
Qed.

End read_lemmas.

(** What a tool prints: the text of a JSON object on one line. *)
Definition prints `{!Yyjson} (o : fields) (r : ran) : Prop :=
  exists text, r = printed (text ++ newline) /\ yyjson_read text = Some (JObj o).

Lemma json_printed `{!Yyjson} `{!YyjsonSpec} (o : fields) : writable (JObj o) -> exists r, print_json (JObj o) = Ret r /\ prints o r.
Proof.
  intros Hw. unfold print_json. destruct (write_some _ Hw) as [text E]. rewrite E. eexists. split; [reflexivity|].
  exists text. split; [done|]. by apply write_read.
Qed.

Definition ascii (s : cstr) : Prop := Forall (fun b => (0 <= b < 128)%Z) s.

Lemma ascii_app a b : ascii a -> ascii b -> ascii (a ++ b).
Proof. intros Ha Hb. by apply Forall_app. Qed.

Lemma ascii_lit s : forallb (fun b => (b <? 128)%Z) (lit s) = true -> ascii (lit s).
Proof.
  intros Hs. unfold lit in *. apply Forall_forall. intros b Hb. rewrite forallb_forall in Hs.
  pose proof (Hs b (proj1 (list_elem_of_In _ _) Hb)) as Hl. apply Z.ltb_lt in Hl. split; [|done].
  apply list_elem_of_fmap in Hb as (c & -> & _). lia.
Qed.

Lemma ascii_int z : ascii (show_int z).
Proof. eapply Forall_impl; [apply show_int_printable|]. cbv beta. lia. Qed.

Lemma ascii_snprintf n s : ascii s -> ascii (snprintf n s).
Proof. apply Forall_take. Qed.
