(* ===== verification/FileTools.v ===== *)
(** * The file and shell tools (src/tools/file_edit, file_read, file_write, bash)

    What an agent's edits, reads and writes of files do, from the JSON on the
    input of a tool to the JSON it prints. *)

From Stdlib Require Import String.
From stdpp Require Import strings gmap.
From S2P Require Import Prelude Slots CString Utf8 ByteArray Json RequestJson Database ToolIO.

(** The parts of an int32_t that counts. *)
Definition count_up (n : nat) : outcome nat := if (Z.of_nat n <? 2 ^ 31 - 1)%Z then Ret (S n) else Undef.

(** basename of libgen.h. *)
Fixpoint strip_slashes (r : cstr) : cstr := match r with c :: r' => if (c =? 47)%Z then strip_slashes r' else r | [] => [] end.
Fixpoint up_to_slash (r : cstr) : cstr := match r with c :: r => if (c =? 47)%Z then [] else c :: up_to_slash r | [] => [] end.

Definition basename (path : cstr) : cstr :=
  match path with
  | [] => lit "."
  | _ => match strip_slashes (reverse path) with [] => lit "/" | r => reverse (up_to_slash r) end
  end.

(** The lines getline gives, each with its line break. *)
Fixpoint next_line (s : list Z) : list Z * list Z :=
  match s with
  | [] => ([], [])
  | c :: s => if (c =? 10)%Z then ([c], s) else let '(l, r) := next_line s in (c :: l, r)
  end.

Fixpoint get_lines (fuel : nat) (s : list Z) : list (list Z) :=
  match fuel, s with
  | S fuel, _ :: _ => let '(l, r) := next_line s in l :: get_lines fuel r
  | _, _ => []
  end.

Section tools.
Context `{!Allocator} `{!Yyjson} {F : Type} `{!FileSystem F}.

(** "snprintf(error_msg, 512, ...); output_error(...)" *)
Definition path_error (what : string) (path : cstr) (code : string) : outcome ran :=
  output_error (snprintf 512 (lit what ++ lit ": " ++ path)) code.

Definition open_read_error (e : errno) (path : cstr) : outcome ran :=
  match e with
  | ENOENT => path_error "File not found" path "FILE_NOT_FOUND"
  | EACCES => path_error "Permission denied" path "PERMISSION_DENIED"
  | _ => path_error "Cannot open file" path "OPEN_FAILED"
  end.

(** "content = talloc_array(size + 1); if (fread(...) != size) ...": the
    content with its terminator, or the error to print. *)
Definition file_content (path : cstr) (f : opened) : outcome (list Z + ran) :=
  match st_size f with
  | None => let! e := path_error "Cannot get file size" path "SIZE_FAILED" in Ret (inr e)
  | Some file_size =>
      let! block := or_panic (talloc_realloc [] (wrap32 (file_size + 1))) in
      let n := Nat.min file_size (length (file_bytes f)) in
      let! block := mem_write 0 (take n (file_bytes f)) block in
      if negb (n =? file_size)%nat then let! e := path_error "Failed to read file" path "READ_FAILED" in Ret (inr e)
      else let! block := mem_write file_size [0%Z] block in Ret (inl block)
  end.

(** ** file_edit *)

Record file_edit_params := mk_edit { file_path : cstr; old_string : cstr; new_string : cstr; replace_all : bool }.

Fixpoint occurrences_loop (fuel : nat) (old_string pos : cstr) (count : nat) : outcome nat :=
  match fuel with
  | 0 => NoFuel
  | S fuel =>
      match strstr pos old_string with
      | None => Ret count
      | Some i => let! count := count_up count in occurrences_loop fuel old_string (drop (i + length old_string) pos) count
      end
  end.

(** The loop over [src]; [dst] is an index of the new block. *)
Fixpoint replace_loop (fuel : nat) (old_string new_string src : cstr) (block : list Z) (dst replacements : nat)
  : outcome (list Z * nat) :=
  match fuel with
  | 0 => NoFuel
  | S fuel =>
      match src with
      | [] => let! block := mem_write dst [0%Z] block in Ret (block, replacements)
      | _ =>
          match strstr src old_string with
          | None => let! block := mem_write dst (src ++ [0%Z]) block in Ret (block, replacements)
          | Some prefix_len =>
              let! block := mem_write dst (take prefix_len src) block in
              let dst := dst + prefix_len in
              let! block := mem_write dst new_string block in
              let dst := dst + length new_string in
              let! replacements := count_up replacements in
              replace_loop fuel old_string new_string (drop (prefix_len + length old_string) src) block dst replacements
          end
      end
  end.

(** "file_size + (size_t)count * (new_len - old_len)" *)
Definition new_content_size (file_size count new_len old_len : nat) : nat :=
  Z.to_nat ((Z.of_nat file_size + Z.of_nat count * (Z.of_nat new_len - Z.of_nat old_len)) `mod` 2 ^ 64).

(** The new content in its block, and the number of replacements. *)
Definition replaced_content (p : file_edit_params) (content : list Z) (count : nat) : outcome (list Z * nat) :=
  let size := new_content_size (length content - 1) count (length (new_string p)) (length (old_string p)) in
  let! block := or_panic (talloc_realloc [] (wrap32 (size + 1))) in
  let! src := c_string content in
  replace_loop (S (length src)) (old_string p) (new_string p) src block 0 0.

Definition replaced_message (replacements : nat) (path : cstr) : cstr :=
  snprintf 512 (lit "Replaced " ++ show_int (Z.of_nat replacements) ++ lit " occurrence" ++
                (if (replacements =? 1)%nat then [] else lit "s") ++ lit " in " ++ basename path).

Definition on_outcome {A B} (o : outcome A) (fs : F) (k : A -> outcome B * F) : outcome B * F :=
  match o with
  | Ret a => k a
  | Fail e => (Fail e, fs)
  | Panic => (Panic, fs)
  | Undef => (Undef, fs)
  | NoFuel => (NoFuel, fs)
  end.

(** "fp = fopen(path, "w"); fwrite(...)", then [k]. *)
Definition write_file (path : cstr) (data : list Z) (no_space : bool) (k : outcome ran) (fs : F) : outcome ran * F :=
  match fopen_write path fs with
  | inl EACCES => (path_error "Permission denied" path "PERMISSION_DENIED", fs)
  | inl e => (match e with
              | ENOSPC => if no_space then path_error "No space left on device" path "NO_SPACE"
                          else path_error "Cannot open file" path "OPEN_FAILED"
              | _ => path_error "Cannot open file" path "OPEN_FAILED"
              end, fs)
  | inr fs =>
      let '(written, fs) := fwrite path data fs in
      if negb (written =? length data)%nat then (path_error "Failed to write file" path "WRITE_FAILED", fs) else (k, fs)
  end.

Definition edit_result (replacements : nat) (path : cstr) : outcome ran :=
  print_json (JObj (put_val "replacements" (JInt (Z.of_nat replacements)) (put_val "output" (JStr (replaced_message replacements path)) []))).

Definition file_edit_execute (p : file_edit_params) (fs : F) : outcome ran * F :=
  let path := file_path p in
  if (length (old_string p) =? 0)%nat then (output_error (lit "old_string cannot be empty") "INVALID_ARG", fs)
  else if strcmp_eq (old_string p) (new_string p) then
    (output_error (lit "old_string and new_string are identical") "INVALID_ARG", fs)
  else
    match fopen_read path fs with
    | inl e => (open_read_error e path, fs)
    | inr f =>
        on_outcome (file_content path f) fs (fun r =>
        match r with
        | inr e => (Ret e, fs)
        | inl content =>
            on_outcome (let! s := c_string content in occurrences_loop (S (length s)) (old_string p) s 0) fs (fun count =>
            if negb (replace_all p) && negb (count =? 1)%nat then
              ((if (count =? 0)%nat then output_error (lit "String not found in file") "NOT_FOUND"
                else output_error (snprintf 512 (lit "String found " ++ show_int (Z.of_nat count) ++
                                                 lit " times, use replace_all to replace all")) "NOT_UNIQUE"), fs)
            else
              on_outcome (let! (block, replacements) := replaced_content p content count in
                          let! new_content := c_string block in
                          Ret (new_content, replacements)) fs (fun '(new_content, replacements) =>
              write_file path new_content false (edit_result replacements path) fs))
        end)
    end.

(** ** file_write *)

Definition do_file_write (path : cstr) (content : list Z) (fs : F) : outcome ran * F :=
  write_file path content true
    (print_json (JObj (put_val "bytes" (JInt (Z.of_nat (length content)))
       (put_val "output" (JStr (snprintf 512 (lit "Wrote " ++ show_int (Z.of_nat (length content)) ++ lit " bytes to " ++ basename path))) []))))
    fs.

(** ** file_read *)

(** "while (content_size + line_len + 1 > output_buffer_size) { grow }" *)
Fixpoint grow_block (fuel need : nat) (block : list Z) (size : nat) : outcome (list Z * nat) :=
  match fuel with
  | 0 => NoFuel
  | S fuel =>
      if (size <? need)%nat then
        let size := wrap64 (size * 2) in
        let! block := or_panic (talloc_realloc block (wrap32 size)) in
        grow_block fuel need block size
      else Ret (block, size)
  end.

Fixpoint take_lines (offset limit : option Z) (lines : list (list Z)) (current_line lines_read : Z)
    (block : list Z) (content_size size : nat) : outcome (list Z) :=
  match lines with
  | [] => Ret block
  | line :: lines =>
      let current_line := (current_line + 1)%Z in
      if match offset with Some offset => (current_line <? offset)%Z | None => false end then
        take_lines offset limit lines current_line lines_read block content_size size
      else if match limit with Some limit => (limit <=? lines_read)%Z | None => false end then Ret block
      else
        let line := until_nul line in
        let! (block, size) := grow_block 65 (content_size + length line + 1) block size in
        let! block := mem_write content_size line block in
        let content_size := content_size + length line in
        let! block := mem_write content_size [0%Z] block in
        take_lines offset limit lines current_line (lines_read + 1) block content_size size
  end.

Definition file_read_execute (path : cstr) (offset limit : option Z) (fs : F) : outcome ran :=
  match fopen_read path fs with
  | inl e => open_read_error e path
  | inr f =>
      let! content := (match offset, limit with
                       | None, None => file_content path f
                       | _, _ =>
                           let! block := or_panic (talloc_realloc [] 4096) in
                           let! block := mem_write 0 [0%Z] block in
                           let! block := take_lines offset limit (get_lines (length (file_bytes f)) (file_bytes f)) 0 0 block 0 4096 in
                           Ret (inl block)
                       end) in
      match content with
      | inr e => Ret e
      | inl content => let! output := c_string content in print_json (JObj (put_val "output" (JStr output) []))
      end
  end.

(** ** bash

    [popen] gives what the command prints and its wait status. *)

Definition WEXITSTATUS (status : Z) : Z := Z.land (Z.shiftr status 8) 255.

(** "if (output[total - 1] == '\n') output[total - 1] = 0" *)
Definition strip_newline (output : list Z) (total : nat) : outcome (list Z) :=
  if (total =? 0)%nat then Ret output
  else let! c := arr_get output (total - 1) in if (c =? 10)%Z then mem_write (total - 1) [0%Z] output else Ret output.

Definition bash_result (output : cstr) (code : Z) : outcome ran :=
  print_json (JObj (put_val "exit_code" (JInt code) (put_val "output" (JStr output) []))).

Definition bash_execute (popen : cstr -> option (list Z * Z)) (command : cstr) : outcome ran :=
  match popen command with
  | None => bash_result [] 127
  | Some (printed, status) =>
      let! (output, output_total_read) := read_all printed in
      let! output := strip_newline output output_total_read in
      let! output := c_string output in
      bash_result output (WEXITSTATUS status)
  end.

End tools.

(** ** main of each tool *)

Section mains.
Context `{!Allocator} `{!Yyjson} {F : Type} `{!FileSystem F}.

(** A required string, or the complaint that it is missing. *)
Definition required_string (tool : string) (root : json) (k : string) (fs : F) (body : cstr -> outcome ran * F) : outcome ran * F :=
  match yyjson_get_str (yyjson_obj_get (Some root) (lit k)) with
  | None => (Ret (complained tool (lit "missing or invalid " ++ lit k ++ lit " field")), fs)
  | Some s => body s
  end.

Definition optional_int (root : json) (k : string) : option Z :=
  let v := yyjson_obj_get (Some root) (lit k) in if yyjson_is_int v then Some (yyjson_get_int v) else None.

Definition file_edit_schema : cstr :=
  schema_text "file_edit" "Edit a file by replacing exact text matches. You must read the file before editing."
    (schema_property "file_path" "string" "Absolute or relative path to file" false ++
     schema_property "old_string" "string" "Exact text to find and replace" false ++
     schema_property "new_string" "string" "Text to replace old_string with" false ++
     schema_property "replace_all" "boolean" "Replace all occurrences (default: false, fails if not unique)" true)
    (q "file_path" ++ lit ", " ++ q "old_string" ++ lit ", " ++ q "new_string").

Definition file_edit_main : list cstr -> list Z -> F -> outcome ran * F :=
  tool_main "file_edit" file_edit_schema (fun root fs =>
    required_string "file_edit" root "file_path" fs (fun path =>
    required_string "file_edit" root "old_string" fs (fun old =>
    required_string "file_edit" root "new_string" fs (fun new =>
    file_edit_execute (mk_edit path old new (yyjson_get_bool (yyjson_obj_get (Some root) (lit "replace_all")))) fs)))).

Definition file_write_schema : cstr :=
  schema_text "file_write" "Write content to a file (creates or overwrites)"
    (schema_property "file_path" "string" "Absolute or relative path to file" false ++
     schema_property "content" "string" "Content to write to file" true)
    (q "file_path" ++ lit ", " ++ q "content").

(** The content is taken with its length, also after a NUL. *)
Definition file_write_main : list cstr -> list Z -> F -> outcome ran * F :=
  tool_main "file_write" file_write_schema (fun root fs =>
    required_string "file_write" root "file_path" fs (fun path =>
    match yyjson_obj_get (Some root) (lit "content") with
    | Some (JStr content) => do_file_write path content fs
    | _ => (Ret (complained "file_write" (lit "missing or invalid content field")), fs)
    end)).

Definition file_read_schema : cstr :=
  schema_text "file_read" "Read contents of a file"
    (schema_property "file_path" "string" "Absolute or relative path to file" false ++
     schema_property "offset" "integer" "Line number to start reading from (1-based)" false ++
     schema_property "limit" "integer" "Number of lines to read" true)
    (q "file_path").

Definition file_read_main : list cstr -> list Z -> F -> outcome ran * F :=
  tool_main "file_read" file_read_schema (fun root fs =>
    required_string "file_read" root "file_path" fs (fun path =>
    (file_read_execute path (optional_int root "offset") (optional_int root "limit") fs, fs))).

Definition bash_schema : cstr :=
  schema_text "bash" "Execute a shell command and return output"
    (schema_property "command" "string" "Shell command to execute" true) (q "command").

Definition bash_main (popen : cstr -> option (list Z * Z)) : list cstr -> list Z -> F -> outcome ran * F :=
  tool_main "bash" bash_schema (fun root fs =>
    match yyjson_obj_get (Some root) (lit "command") with
    | None => (Ret (complained "bash" (lit "missing command field")), fs)
    | command =>
        match yyjson_get_str command with
        | None => (Ret (complained "bash" (lit "command must be a string")), fs)
        | Some cmd_str => (bash_execute popen cmd_str, fs)
        end
    end).

End mains.

(** ** Replacing, specified *)

Section replaced.
Context (old new : cstr).

(** [s] with its occurrences of [old] replaced from left to right, and how many
    there are. *)
Inductive replaced : cstr -> cstr -> nat -> Prop :=
| replaced_none s : strstr s old = None -> replaced s s 0
| replaced_first a b r n : strstr (a ++ old ++ b) old = Some (length a) -> replaced b r n ->
    replaced (a ++ old ++ b) (a ++ new ++ r) (S n).

Lemma strstr_found s i : strstr s old = Some i -> s = take i s ++ old ++ drop (i + length old) s /\ i = length (take i s).
Proof.
  revert i. induction s as [|c s IH]; intros i; cbn [strstr].
  - destruct (starts_with old []) eqn:E; [|done]. intros [= <-]. apply starts_with_spec in E as [r Er].
    symmetry in Er. by apply app_nil in Er as [-> ->].
  - destruct (starts_with old (c :: s)) eqn:E.
    + intros [= <-]. apply starts_with_spec in E as [r Er]. cbn [take app Nat.add length]. rewrite Er, drop_app_length. done.
    + destruct (strstr s old) as [j|] eqn:Ej; [|done]. intros [= <-]. destruct (IH j eq_refl) as [Es El].
      cbn [take app Nat.add drop length]. split; [by f_equal|by f_equal].
Qed.

Lemma replaced_exists : 0 < length old -> forall s, exists r n, replaced s r n.
Proof.
  intros Ho s. induction s as [s IH] using (well_founded_induction (Wf_nat.well_founded_ltof _ (@length Z))).
  destruct (strstr s old) as [i|] eqn:E; [|exists s, 0; by constructor].
  destruct (strstr_found s i E) as [Es Ei]. destruct (IH (drop (i + length old) s)) as (r & n & Hr).
  { unfold Wf_nat.ltof. apply (f_equal length) in Es. rewrite !length_app in Es. lia. }
  exists (take i s ++ new ++ r), (S n). rewrite Es at 1. constructor; [|done]. by rewrite <- Es, <- Ei.
Qed.

Lemma replaced_length s r n : replaced s r n -> length r + n * length old = length s + n * length new.
Proof. induction 1; [lia|]. rewrite !length_app. lia. Qed.

Lemma replaced_count s r n : replaced s r n -> n * length old <= length s.
Proof. induction 1; [lia|]. rewrite !length_app. lia. Qed.

Lemma replaced_no_nul s r n : (0%Z ∉ new) -> replaced s r n -> (0%Z ∉ s) -> (0%Z ∉ r).
Proof.
  intros Hn. induction 1 as [|a b r n _ _ IH]; [done|]. rewrite !not_elem_of_app. intros (Ha & _ & Hb).
  split; [done|]. split; [done|by apply IH].
Qed.

Lemma drop_match (a b : cstr) : drop (length a + length old) (a ++ old ++ b) = b.
Proof. rewrite app_assoc, <- length_app. apply drop_app_length. Qed.

Lemma count_up_ok n : (Z.of_nat n < 2 ^ 31 - 1)%Z -> count_up n = Ret (S n).
Proof. intros Hn. unfold count_up. by rewrite (proj2 (Z.ltb_lt _ _) Hn). Qed.

Lemma occurrences_loop_ok s r n : 0 < length old -> replaced s r n -> forall fuel c, length s < fuel -> (Z.of_nat (c + n) < 2 ^ 31 - 1)%Z ->
  occurrences_loop fuel old s c = Ret (c + n).
Proof.
  intros Ho. induction 1 as [s E|a b r n E _ IH]; intros [|fuel] c Hf Hb; try lia; cbn [occurrences_loop]; rewrite E; [by rewrite Nat.add_0_r|].
  rewrite count_up_ok by lia. cbn [obind]. rewrite drop_match, IH; [f_equal; lia| |lia]. rewrite !length_app in Hf. lia.
Qed.

Lemma replace_loop_ok s r n : 0 < length old -> replaced s r n -> forall fuel done_ junk c,
  length s < fuel -> length r < length junk -> (Z.of_nat (c + n) < 2 ^ 31 - 1)%Z ->
  exists rest, replace_loop fuel old new s (done_ ++ junk) (length done_) c = Ret ((done_ ++ r) ++ 0%Z :: rest, c + n).
Proof.
  intros Ho. induction 1 as [s E|a b r n E _ IH]; intros [|fuel] d junk c Hf Hl Hb; try lia; cbn [replace_loop].
  - assert (exists rest, mem_write (length d) (s ++ [0%Z]) (d ++ junk) = Ret ((d ++ s) ++ 0%Z :: rest)) as [rest Ew].
    { rewrite <- (take_drop (length (s ++ [0%Z])) junk). rewrite mem_write_app; [|done|rewrite length_take; len_lia].
      eexists. rewrite <- !app_assoc. reflexivity. }
    exists rest. rewrite Nat.add_0_r. destruct s as [|x s].
    + cbn [app] in Ew. rewrite Ew. by rewrite app_nil_r.
    + rewrite E, Ew. done.
  - destruct (a ++ old ++ b) as [|x s] eqn:Es.
    { apply (f_equal length) in Es. rewrite !length_app in Es. cbn [length] in Es. lia. }
    rewrite <- Es in *. rewrite E. rewrite !length_app in Hl, Hf.
    rewrite (take_app_length a (old ++ b)).
    assert (forall x j, length x < length j -> exists j', mem_write (length d) x (d ++ j) = Ret ((d ++ x) ++ j') /\ length j' + length x = length j) as Hw.
    { intros y j Hy. exists (drop (length y) j). rewrite <- (take_drop (length y) j) at 1.
      rewrite mem_write_app by (done || (rewrite length_take; lia)). rewrite <- app_assoc, length_drop. split; [done|lia]. }
    destruct (Hw a junk ltac:(lia)) as (j1 & -> & E1). cbn [obind]. clear Hw.
    rewrite <- (take_drop (length new) j1), <- length_app.
    rewrite mem_write_app by (done || (rewrite length_take; lia)). cbn [obind].
    rewrite count_up_ok by lia. cbn [obind]. rewrite length_app, drop_match, <- !length_app, app_assoc.
    destruct (IH fuel ((d ++ a) ++ new) (drop (length new) j1) (S c)) as (rest & E2); [lia|rewrite length_drop; lia|lia|].
    exists rest. rewrite E2. rewrite <- !app_assoc. do 2 f_equal. lia.
Qed.

End replaced.

(** ** Messages *)

Lemma ascii_basename path : ascii path -> ascii (basename path).
Proof.
  intros Hp. unfold basename. destruct path as [|c path]; [by apply ascii_lit|].
  assert (forall r, ascii r -> ascii (strip_slashes r)) as Hs.
  { induction 1 as [|x r Hx Hr IH]; [constructor|]. cbn [strip_slashes]. destruct (x =? 47)%Z; [exact IH|by constructor]. }
  assert (forall r, ascii r -> ascii (up_to_slash r)) as Hu.
  { induction 1 as [|x r Hx Hr IH]; [constructor|]. cbn [up_to_slash]. destruct (x =? 47)%Z; [constructor|by constructor]. }
  pose proof (Hs _ (proj2 (Forall_reverse _ _) Hp)) as Hr. destruct (strip_slashes _) as [|x r]; [by apply ascii_lit|].
  apply Forall_reverse. by apply Hu.
Qed.

Ltac ascii_text :=
  repeat first [apply ascii_snprintf | apply ascii_app | apply ascii_int | by apply ascii_basename | by apply ascii_lit | exact (Forall_nil_2 _) | assumption |
                case_match].

(** ** Lines *)

Lemma next_line_join s : fst (next_line s) ++ snd (next_line s) = s.
Proof.
  induction s as [|c s IH]; [done|]. cbn [next_line]. destruct (c =? 10)%Z; [done|].
  destruct (next_line s) as [l r]. cbn [fst snd app] in *. by rewrite IH.
Qed.

Lemma next_line_shorter c s : length (snd (next_line (c :: s))) <= length s.
Proof.
  revert c. induction s as [|d s IH]; intros c; cbn [next_line]; destruct (c =? 10)%Z; cbn [snd length]; try lia.
  specialize (IH d). cbn [next_line] in IH. destruct (d =? 10)%Z; [cbn [snd] in *; lia|]. destruct (next_line s) as [l r]. cbn [snd] in *. lia.
Qed.

Lemma get_lines_join fuel : forall s, length s <= fuel -> mjoin (get_lines fuel s) = s.
Proof.
  induction fuel as [|fuel IH]; intros [|c s] Hs; cbn [get_lines length] in *; try done; [lia|].
  pose proof (next_line_join (c :: s)) as Ej. pose proof (next_line_shorter c s) as El. destruct (next_line (c :: s)) as [l r].
  cbn [fst snd] in *. change (mjoin (l :: get_lines fuel r)) with (l ++ mjoin (get_lines fuel r)). by rewrite IH by lia.
Qed.

Lemma next_line_app w s : (10%Z ∉ w) -> next_line (w ++ s) = (w ++ fst (next_line s), snd (next_line s)).
Proof.
  induction w as [|c w IH]; [intros _; cbn [app]; by destruct (next_line s)|]. intros [Hc Hw]%not_elem_of_cons. cbn [app next_line].
  rewrite (proj2 (Z.eqb_neq _ _)) by congruence. by rewrite IH.
Qed.

(** A line of UTF-8 text is UTF-8 text. *)
Lemma next_line_utf8 cps : Forall scalar cps -> is_utf8 (fst (next_line (text_of cps))) /\ is_utf8 (snd (next_line (text_of cps))).
Proof.
  assert (is_utf8 []) as Hnil by (by exists []).
  induction 1 as [|c cps Hc Hcps [(a & Ha & Ea) Hb]]; [done|]. rewrite text_of_cons.
  destruct (decide (c = 10%Z)) as [->|Hne].
  { change (encode_utf8 10 ++ text_of cps) with (10%Z :: text_of cps). cbn [next_line Z.eqb Pos.eqb fst snd]. split; [|by exists cps].
    exists [10%Z]. split; [apply Forall_singleton; reflexivity|reflexivity]. }
  rewrite next_line_app; cbn [fst snd].
  - split; [|exact Hb]. exists (c :: a). split; [by constructor|]. by rewrite text_of_cons, Ea.
  - intros Hin. apply Hne. rewrite <- text_of_one in Hin. apply text_of_ascii in Hin; [|by constructor|lia].
    by apply list_elem_of_singleton in Hin.
Qed.

Lemma get_lines_utf8 fuel : forall s, is_utf8 s -> Forall is_utf8 (get_lines fuel s).
Proof.
  induction fuel as [|fuel IH]; intros [|c s] Hs; cbn [get_lines]; try by constructor.
  destruct Hs as (cps & Hc & Es). pose proof (next_line_utf8 cps Hc) as [Hl Hr]. rewrite <- Es in *.
  destruct (next_line (c :: s)) as [l r]. cbn [fst snd] in *. constructor; [done|by apply IH].
Qed.

Lemma join_utf8 ls : Forall is_utf8 ls -> is_utf8 (mjoin ls).
Proof.
  induction 1 as [|l ls (a & Ha & ->) _ (b & Hb & Eb)]; [by exists []|]. exists (a ++ b). split; [by apply Forall_app|].
  change (mjoin (text_of a :: ls)) with (text_of a ++ mjoin ls). by rewrite Eb, text_of_app.
Qed.

(** The lines from [offset], counted from 1, at most [limit] of them. *)
Definition chosen (offset limit : option Z) (lines : list (list Z)) : list (list Z) :=
  let lines := match offset with Some o => drop (Z.to_nat (o - 1)) lines | None => lines end in
  match limit with Some k => take (Z.to_nat k) lines | None => lines end.

(** The lines of text without NUL have none. *)
Lemma get_lines_no_nul n s : length s <= n -> (0%Z ∉ s) -> Forall (fun l => 0%Z ∉ l) (get_lines n s).
Proof.
  intros Hn Hs. apply Forall_forall. intros l Hl Hin. apply Hs. rewrite <- (get_lines_join n s Hn).
  apply list_elem_of_join. by exists l.
Qed.

Lemma chosen_incl offset limit lines (P : list Z -> Prop) : Forall P lines -> Forall P (chosen offset limit lines).
Proof.
  intros Hl. unfold chosen. assert (Forall P (match offset with Some o => drop (Z.to_nat (o - 1)) lines | None => lines end)) as Hd.
  { destruct offset; [by apply Forall_drop|done]. }
  destruct limit; [by apply Forall_take|done].
Qed.

Section block_lemmas.
Context `{!Allocator} `{!AllocatorSpec}.

Lemma grow_block_ok fuel need seen : forall junk,
  need <= length (seen ++ junk) * 2 ^ fuel -> 0 < length (seen ++ junk) -> (Z.of_nat need <= 2 ^ 30)%Z -> (Z.of_nat (length (seen ++ junk)) <= 2 ^ 31)%Z ->
  exists junk', grow_block (S fuel) need (seen ++ junk) (length (seen ++ junk)) = Ret (seen ++ junk', length (seen ++ junk')) /\
    need <= length (seen ++ junk') /\ length (seen ++ junk') <= Nat.max (length (seen ++ junk)) (2 * need).
Proof.
  induction fuel as [|fuel IH]; intros junk Hn Hpos Hneed Hsize; cbn [grow_block].
  { rewrite Nat.pow_0_r in Hn. rewrite (proj2 (Nat.ltb_ge _ _)) by lia. exists junk. split; [done|]. lia. }
  destruct (Nat.ltb_spec (length (seen ++ junk)) need) as [Hlt|Hge]; [|exists junk; split; [done|]; lia].
  rewrite wrap64_small, wrap32_small by (rewrite ?wrap64_small; lia).
  destruct (realloc_grows (seen ++ junk) (length (seen ++ junk) * 2)) as (j & E & El & _); [lia|]. rewrite E. cbn [or_panic obind].
  rewrite <- app_assoc in El |- *. rewrite <- El. destruct (IH (junk ++ j)) as (junk' & E' & Hx1 & Hx2); [|lia|done|lia|].
  { rewrite El. rewrite Nat.pow_succ_r' in Hn. lia. }
  exists junk'. split; [exact E'|]. lia.
Qed.

Lemma write_next seen bs junk : length bs < length junk ->
  exists junk', mem_write (length seen) bs (seen ++ junk) = Ret ((seen ++ bs) ++ junk') /\ length junk' + length bs = length junk.
Proof.
  intros Hl. exists (drop (length bs) junk). rewrite <- (take_drop (length bs) junk) at 1.
  rewrite mem_write_app by (done || (rewrite length_take; lia)). rewrite <- app_assoc, length_drop. split; [done|lia].
Qed.

Lemma take_lines_ok offset limit lines : Forall (fun l => 0%Z ∉ l) lines -> forall cur read seen junk,
  (0 <= cur)%Z -> (0 <= read)%Z -> (Z.of_nat (length seen + length (mjoin lines)) < 2 ^ 30)%Z ->
  (Z.of_nat (length (seen ++ junk)) <= 2 ^ 31)%Z -> (exists j, junk = 0%Z :: j) ->
  exists junk', take_lines offset limit lines cur read (seen ++ junk) (length seen) (length (seen ++ junk)) =
    Ret ((seen ++ mjoin (chosen ((fun o => (o - cur)%Z) <$> offset) ((fun k => (k - read)%Z) <$> limit) lines)) ++ 0%Z :: junk').
Proof.
  induction 1 as [|line lines Hline _ IH]; intros cur read seen junk Hcur Hread Hlen Hfit (j & Ej); cbn [take_lines].
  { subst junk. exists j. replace (chosen _ _ []) with (@nil (list Z)); [by rewrite app_nil_r|].
    unfold chosen. destruct offset, limit; cbn [fmap option_fmap option_map]; by rewrite ?drop_nil, ?take_nil. }
  change (mjoin (line :: lines)) with (line ++ mjoin lines) in Hlen. rewrite length_app in Hlen.
  destruct (match offset with Some o => (cur + 1 <? o)%Z | None => false end) eqn:Eo.
  { destruct offset as [o|]; [|done]. apply Z.ltb_lt in Eo.
    destruct (IH (cur + 1)%Z read seen junk) as (junk' & E); [lia|done|lia|done|by exists j|]. exists junk'. rewrite E.
    do 4 f_equal. unfold chosen. cbn [fmap option_fmap option_map].
    replace (Z.to_nat (o - cur - 1)) with (S (Z.to_nat (o - (cur + 1) - 1))) by lia. done. }
  assert (forall (c : Z) (l : list (list Z)), (cur <= c)%Z ->
            match (fun o => (o - c)%Z) <$> offset with Some o => drop (Z.to_nat (o - 1)) l | None => l end = l) as Hoff.
  { intros c l Hc. destruct offset as [o|]; [|done]. cbn [fmap option_fmap option_map]. apply Z.ltb_ge in Eo.
    by replace (Z.to_nat (o - c - 1)) with 0 by lia. }
  assert (chosen ((fun o => (o - cur)%Z) <$> offset) ((fun k => (k - read)%Z) <$> limit) (line :: lines) =
          match limit with Some k => take (Z.to_nat (k - read)) (line :: lines) | None => line :: lines end) as Ech.
  { unfold chosen. rewrite Hoff by lia. by destruct limit. }
  destruct (match limit with Some k => (k <=? read)%Z | None => false end) eqn:El.
  { destruct limit as [k|]; [|done]. apply Z.leb_le in El. exists j. rewrite Ech, Ej. replace (Z.to_nat (k - read)) with 0 by lia.
    by rewrite app_nil_r. }
  assert (0 < length (seen ++ junk)) as Hpos by (rewrite Ej, length_app; cbn [length]; lia).
  rewrite until_nul_id by done. destruct (grow_block_ok 64 (length seen + length line + 1) seen junk) as (j1 & -> & Hx1 & Hx2); [|lia|lia|lia|].
  { assert (length seen + length line + 1 <= 2 ^ 30) as Hs.
    { apply Nat2Z.inj_le. rewrite Nat2Z.inj_pow. change (Z.of_nat 2) with 2%Z. change (Z.of_nat 30) with 30%Z. lia. }
    pose proof (Nat.pow_le_mono_r 2 30 64 ltac:(lia) ltac:(lia)) as Hp. revert Hs Hp. generalize (2 ^ 30) (2 ^ 64). intros a b Hs Hp.
    transitivity b; [lia|]. nia. }
  cbn [obind]. rewrite length_app in Hx1. destruct (write_next seen line j1) as (j2 & -> & E2); [lia|]. cbn [obind].
  rewrite <- length_app. destruct j2 as [|b j2]; [cbn [length] in E2; lia|].
  change (b :: j2) with ([b] ++ j2). rewrite (mem_write_app _ [0%Z] (seen ++ line) [b] j2) by done. cbn [obind].
  assert (length ((seen ++ line) ++ [0%Z] ++ j2) = length (seen ++ j1)) as Elen
    by (rewrite !length_app; cbn [length] in *; lia).
  rewrite <- Elen.
  destruct (IH (cur + 1)%Z (read + 1)%Z (seen ++ line) ([0%Z] ++ j2)) as (junk' & E); [lia|lia| | |by exists j2|].
  { rewrite length_app. lia. }
  { rewrite Elen. lia. }
  exists junk'. rewrite E, Ech. do 2 f_equal. rewrite <- app_assoc. f_equal. unfold chosen. rewrite Hoff by lia.
  destruct limit as [k|]; [|done]. cbn [fmap option_fmap option_map]. apply Z.leb_gt in El.
  by replace (Z.to_nat (k - read)) with (S (Z.to_nat (k - (read + 1)))) by lia.
Qed.

End block_lemmas.

Section edit_lemmas.
Context `{!Allocator} `{!AllocatorSpec} `{!Yyjson} `{!YyjsonSpec} {F : Type} `{!FileSystem F} `{!FileSystemSpec F}.

Lemma lit_key s : forallb (fun b => (b <? 128)%Z) (lit s) = true -> is_utf8 (lit s).
Proof. intros Hs. by apply ascii_utf8, ascii_lit. Qed.

Lemma error_printed error code : ascii error -> forallb (fun b => (b <? 128)%Z) (lit code) = true ->
  exists r, output_error error code = Ret r /\ prints [(lit "error", JStr error); (lit "error_code", JStr (lit code))] r.
Proof.
  intros He Hc. apply json_printed. constructor. repeat (apply Forall_cons; split; [split; [by apply lit_key|constructor]|]).
  - by apply ascii_utf8.
  - by apply lit_key.
  - apply Forall_nil. exact I.
Qed.

Lemma file_content_ok path s : (Z.of_nat (length s) < 2 ^ 31)%Z -> file_content path (mk_opened (Some (length s)) s) = Ret (inl (s ++ [0%Z])).
Proof.
  intros Hl. unfold file_content. cbn [st_size file_bytes]. rewrite wrap32_small by lia. destruct (realloc_some [] (length s + 1)) as [block E].
  pose proof (realloc_length _ _ _ E) as Eb. rewrite E. cbn [or_panic obind]. rewrite Nat.min_id, firstn_all.
  rewrite mem_write_ok by lia. cbn [obind take app]. rewrite Nat.eqb_refl. cbn [negb].
  assert (exists x, drop (0 + length s) block = [x]) as [x ->].
  { pose proof (length_drop block (0 + length s)) as Ed. destruct (drop _ block) as [|x [|y l]]; cbn [length] in Ed; try lia. by exists x. }
  pose proof (mem_write_app (length s) [0%Z] s [x] [] eq_refl eq_refl) as Ew. rewrite !app_nil_r in Ew.
  change (take 0 block) with (@nil Z). cbn [app]. by rewrite Ew.
Qed.

(** The new content when the numbers do not wrap. *)
Lemma new_content_ok p s r n :
  replaced (old_string p) (new_string p) s r n -> 0 < length (old_string p) -> (0%Z ∉ s) -> (0%Z ∉ new_string p) ->
  (Z.of_nat (length s) < 2 ^ 30)%Z -> (Z.of_nat (length r) < 2 ^ 30)%Z -> (Z.of_nat n < 2 ^ 31 - 1)%Z ->
  (let! (block, replacements) := replaced_content p (s ++ [0%Z]) n in
   let! new_content := c_string block in Ret (new_content, replacements)) = Ret (r, n).
Proof.
  intros Hrep Ho Hs Hnew Hls Hlr Hn. pose proof (replaced_length _ _ _ _ _ Hrep) as Hlen. unfold replaced_content.
  assert (new_content_size (length (s ++ [0%Z]) - 1) n (length (new_string p)) (length (old_string p)) = length r) as ->.
  { unfold new_content_size. rewrite length_app. cbn [length]. rewrite Z.mod_small; [lia|]. lia. }
  rewrite wrap32_small by lia. destruct (realloc_some [] (length r + 1)) as [block E]. pose proof (realloc_length _ _ _ E) as Eb.
  rewrite E. cbn [or_panic obind]. rewrite (c_string_app s []) by done. cbn [obind].
  destruct (replace_loop_ok _ _ s r n Ho Hrep (S (length s)) [] block 0) as (rest & E2); [lia|lia|lia|].
  cbn [app length Nat.add] in E2. rewrite E2. cbn [obind]. rewrite c_string_app; [done|]. by eapply replaced_no_nul.
Qed.

Lemma write_file_ok path data no_space k fs f1 : fopen_write path fs = inr f1 ->
  exists f2, write_file path data no_space k fs = (k, f2) /\ fopen_read path f2 = inr (mk_opened (Some (length data)) data).
Proof.
  intros Hw. unfold write_file. rewrite Hw. destruct (fwrite_all path data fs f1 Hw) as (f2 & -> & E). rewrite Nat.eqb_refl. by exists f2.
Qed.

(** Content that was read is printed from its start. *)
Lemma text_printed (output : cstr) : is_utf8 output -> exists r, print_json (JObj (put_val "output" (JStr output) [])) = Ret r /\ prints [(lit "output", JStr output)] r.
Proof.
  intros Hu. apply json_printed. constructor. apply Forall_singleton. split; [by apply lit_key|by constructor].
Qed.

(** Reading prints the chosen lines. *)
Lemma file_read_ok path offset limit s fs : fopen_read path fs = inr (mk_opened (Some (length s)) s) ->
  is_utf8 s -> (0%Z ∉ s) -> (Z.of_nat (length s) < 2 ^ 30)%Z ->
  exists r, file_read_execute path offset limit fs = Ret r /\
    prints [(lit "output", JStr (mjoin (chosen offset limit (get_lines (length s) s))))] r.
Proof.
  intros Hr Hu Hs Hl. set (out := mjoin _).
  assert (is_utf8 out) as Ho by (by apply join_utf8, chosen_incl, get_lines_utf8).
  assert (0%Z ∉ out) as Hn.
  { intros Hin. apply list_elem_of_join in Hin as (l & Hin & Hl').
    pose proof (chosen_incl offset limit _ _ (get_lines_no_nul _ s (le_n _) Hs)) as Hf. rewrite Forall_forall in Hf. by apply (Hf l). }
  destruct (text_printed out Ho) as (r & E & Hp). exists r. split; [|exact Hp]. rewrite <- E. unfold file_read_execute. rewrite Hr.
  assert ((offset = None /\ limit = None) \/ ~ (offset = None /\ limit = None)) as [[-> ->]|Hne] by (destruct offset, limit; naive_solver).
  { rewrite file_content_ok by lia. cbn [obind]. rewrite (c_string_app s []) by done. cbn [obind]. do 4 f_equal.
    unfold out, chosen. by rewrite get_lines_join. }
  destruct (realloc_some [] 4096) as [block Eb]. pose proof (realloc_length _ _ _ Eb) as El. destruct block as [|b block]; [done|].
  destruct (take_lines_ok offset limit (get_lines (length s) s) (get_lines_no_nul _ _ (le_n _) Hs) 0 0 [] (0%Z :: block)) as (junk & Et);
    [lia|lia| | |by eexists|].
  { rewrite get_lines_join by done. cbn [length]. lia. }
  { cbn [app]. cbn [length] in *. lia. }
  cbn [app length] in Et, El. rewrite El in Et.
  replace ((fun o => (o - 0)%Z) <$> offset) with offset in Et by (destruct offset; cbn [fmap option_fmap option_map]; by rewrite ?Z.sub_0_r).
  replace ((fun o => (o - 0)%Z) <$> limit) with limit in Et by (destruct limit; cbn [fmap option_fmap option_map]; by rewrite ?Z.sub_0_r).
  pose proof (mem_write_app 0 [0%Z] [] [b] block eq_refl eq_refl) as Em. cbn [app] in Em.
  destruct offset as [o|], limit as [k|]; try (exfalso; by apply Hne);
    (rewrite Eb; cbn [or_panic obind]; rewrite Em; cbn [obind file_bytes]; fold out in Et; rewrite Et; cbn [obind]; by rewrite c_string_app).
Qed.

(** main, once the input is there. *)
Lemma tool_main_ok tool schema body prog input v (fs : F) : yyjson_read input = Some v -> (Z.of_nat (length input) < 2 ^ 30)%Z ->
  tool_main tool schema body [prog] input fs = body v fs.
Proof.
  intros Hi Hl. unfold tool_main. destruct (read_all_ok input Hl) as (junk & ->).
  destruct (Nat.eqb_spec (length input) 0) as [E|_].
  { apply length_zero_iff_nil in E. subst input. by rewrite read_nothing in Hi. }
  by rewrite take_app_length, Hi.
Qed.

End edit_lemmas.

Module FileToolProps.

Section props.
Context `{!Allocator} `{!AllocatorSpec} `{!Yyjson} `{!YyjsonSpec} {F : Type} `{!FileSystem F} `{!FileSystemSpec F}.

(** C23: an edit replaces what it should and nothing else.  For a file of text
    without NUL, the tool finds the occurrences of the old string from left to
    right; with exactly one of them, or any number and replace_all, the file
    then holds the text with all of them replaced and their number is printed;
    otherwise the file is left alone and the error says whether the string is
    missing or not unique. *)
Theorem edit_replaces (p : file_edit_params) (fs f1 : F) (s r : cstr) (n : nat) :
  fopen_read (file_path p) fs = inr (mk_opened (Some (length s)) s) -> fopen_write (file_path p) fs = inr f1 ->
  replaced (old_string p) (new_string p) s r n -> 0 < length (old_string p) -> old_string p <> new_string p ->
  (0%Z ∉ s) -> (0%Z ∉ new_string p) -> ascii (file_path p) ->
  (Z.of_nat (length s) < 2 ^ 30)%Z -> (Z.of_nat (length r) < 2 ^ 30)%Z ->
  exists out fs' o, file_edit_execute p fs = (Ret out, fs') /\ prints o out /\
    if replace_all p || (n =? 1)%nat
    then fopen_read (file_path p) fs' = inr (mk_opened (Some (length r)) r) /\ find_field o (lit "replacements") = Some (JInt (Z.of_nat n))
    else fs' = fs /\ find_field o (lit "error_code") = Some (JStr (lit (if (n =? 0)%nat then "NOT_FOUND" else "NOT_UNIQUE"))).
Proof.
  intros Hr Hw Hrep Ho Hne Hs Hnew Hp Hls Hlr. pose proof (replaced_length _ _ _ _ _ Hrep) as Hlen.
  pose proof (replaced_count _ _ _ _ _ Hrep) as Hcount. assert (n <= length s) as Hn by nia.
  unfold file_edit_execute. rewrite (proj2 (Nat.eqb_neq _ _)) by lia.
  replace (strcmp_eq (old_string p) (new_string p)) with false by (symmetry; by apply bool_decide_eq_false_2).
  rewrite Hr, file_content_ok by lia. cbn [on_outcome]. rewrite (c_string_app s []) by done. cbn [obind].
  rewrite (occurrences_loop_ok _ _ s r n Ho Hrep) by lia. cbn [on_outcome Nat.add].
  destruct (replace_all p || (n =? 1)%nat) eqn:Eall.
  - replace (negb (replace_all p) && negb (n =? 1)%nat) with false by (by destruct (replace_all p), (n =? 1)%nat).
    rewrite (new_content_ok p s r n) by (done || lia). cbn [on_outcome].
    destruct (write_file_ok (file_path p) r false (edit_result n (file_path p)) fs f1 Hw) as (f2 & -> & Ef).
    destruct (json_printed [(lit "output", JStr (replaced_message n (file_path p))); (lit "replacements", JInt (Z.of_nat n))]) as (out & E & Hout).
    { constructor. apply Forall_cons; split; [split; [by apply lit_key|constructor]|apply Forall_singleton; split; [by apply lit_key|constructor; lia]].
      apply ascii_utf8. unfold replaced_message. ascii_text. }
    exists out, f2. eexists. split; [by rewrite <- E|]. split; [exact Hout|]. done.
  - replace (negb (replace_all p) && negb (n =? 1)%nat) with true by (by destruct (replace_all p), (n =? 1)%nat).
    destruct (Nat.eqb_spec n 0) as [En|En].
    + destruct (error_printed (lit "String not found in file") "NOT_FOUND") as (out & E & Hout); [by apply ascii_lit|done|].
      exists out, fs. eexists. split; [by rewrite <- E|]. split; [exact Hout|]. done.
    + destruct (error_printed (snprintf 512 (lit "String found " ++ show_int (Z.of_nat n) ++ lit " times, use replace_all to replace all")) "NOT_UNIQUE")
        as (out & E & Hout); [ascii_text|done|].
      exists out, fs. eexists. split; [by rewrite <- E|]. split; [exact Hout|]. done.
Qed.

(** C24: what is written is what is read.  After file_write of a content of text
    without NUL, file_read of the same path prints exactly its lines from the
    offset on, at most as many as the limit; without the two, all of it.  From
    the JSON on the input of one tool to the JSON the other prints. *)
Theorem written_file_reads_back (prog path content : cstr) (ow og : fields) (win rin : cstr) (fs f1 : F) :
  fopen_write path fs = inr f1 ->
  yyjson_read win = Some (JObj ow) -> yyjson_get_str (find_field ow (lit "file_path")) = Some path ->
  find_field ow (lit "content") = Some (JStr content) ->
  yyjson_read rin = Some (JObj og) -> yyjson_get_str (find_field og (lit "file_path")) = Some path ->
  is_utf8 content -> (0%Z ∉ content) -> ascii path ->
  (Z.of_nat (length win) < 2 ^ 30)%Z -> (Z.of_nat (length rin) < 2 ^ 30)%Z -> (Z.of_nat (length content) < 2 ^ 30)%Z ->
  exists wrote fs' o got,
    file_write_main [prog] win fs = (Ret wrote, fs') /\ prints o wrote /\
    find_field o (lit "bytes") = Some (JInt (Z.of_nat (length content))) /\
    file_read_main [prog] rin fs' = (Ret got, fs') /\
    prints [(lit "output", JStr (mjoin (chosen (optional_int (JObj og) "offset") (optional_int (JObj og) "limit")
                                          (get_lines (length content) content))))] got /\
    mjoin (get_lines (length content) content) = content.
Proof.
  intros Hw Hwin Hwp Hwc Hrin Hrp Hu Hs Hp Hlw Hlr Hlc. unfold file_write_main, file_read_main.
  rewrite (tool_main_ok _ _ _ _ _ _ _ Hwin Hlw). unfold required_string. cbn [yyjson_obj_get]. rewrite Hwp, Hwc. unfold do_file_write.
  edestruct (write_file_ok path content true) as (f2 & -> & Hread); [exact Hw|].
  destruct (file_read_ok path (optional_int (JObj og) "offset") (optional_int (JObj og) "limit") content f2 Hread Hu Hs Hlc) as (got & Eg & Hg).
  edestruct (json_printed (put_val "bytes" (JInt (Z.of_nat (length content)))
       (put_val "output" (JStr (snprintf 512 (lit "Wrote " ++ show_int (Z.of_nat (length content)) ++ lit " bytes to " ++ basename path))) [])))
    as (wrote & -> & Ho).
  { constructor. apply Forall_cons; split; [split; [by apply lit_key|constructor]|apply Forall_singleton; split; [by apply lit_key|constructor; lia]].
    apply ascii_utf8. ascii_text. }
  exists wrote, f2. eexists. exists got. split; [reflexivity|]. split; [exact Ho|]. split; [done|].
  rewrite (tool_main_ok _ _ _ _ _ _ _ Hrin Hlr). cbn [yyjson_obj_get]. rewrite Hrp, Eg. split; [reflexivity|].
  split; [exact Hg|]. by rewrite get_lines_join.
Qed.

End props.
End FileToolProps.

(** ** Files in memory *)

Module MemoryFiles.

Notation files := (gmap (list Z) (list Z)).

#[export] Instance memory_files : FileSystem files := {
  fopen_read p m := match m !! p with Some b => inr (mk_opened (Some (length b)) b) | None => inl ENOENT end;
  fopen_write p m := inr (<[p := []]> m);
  fwrite p b m := (length b, <[p := b]> m);
  mkdir p m := (None, m)
}.

#[export] Instance memory_files_spec : FileSystemSpec files.
Proof.
  constructor. intros p b f f1 _. eexists. split; [reflexivity|]. unfold fopen_read, memory_files. by rewrite lookup_insert_eq.
Qed.

End MemoryFiles.

Module FileToolExamples.
Import ZeroAlloc CodedJson MemoryFiles FileToolProps.

Definition small (s : list Z) : bool := (Z.of_nat (length s) <? 2 ^ 30)%Z.

Lemma small_lt s : small s = true -> (Z.of_nat (length s) < 2 ^ 30)%Z.
Proof. apply Z.ltb_lt. Qed.

(** "ab ab" becomes "c c". *)
Definition notes : files := {[ lit "notes" := lit "ab ab" ]}.
Definition both : file_edit_params := mk_edit (lit "notes") (lit "ab") (lit "c") true.

Lemma edit_replaces_witness : exists out fs', file_edit_execute both notes = (Ret out, fs') /\
  fopen_read (lit "notes") fs' = inr (mk_opened (Some 3) (lit "c c")).
Proof.
  destruct (edit_replaces both notes (<[lit "notes" := []]> notes) (lit "ab ab") (lit "c c") 2) as (out & fs' & o & E & _ & Er & _).
  - reflexivity.
  - reflexivity.
  - apply (replaced_first (lit "ab") (lit "c") [] (lit " ab") (lit " c") 1); [reflexivity|].
    apply (replaced_first (lit "ab") (lit "c") (lit " ") [] [] 0); [reflexivity|]. by apply replaced_none.
  - cbn; lia.
  - discriminate.
  - apply (bool_decide_unpack _); vm_compute; exact I.
  - apply (bool_decide_unpack _); vm_compute; exact I.
  - by apply ascii_lit.
  - by apply small_lt.
  - by apply small_lt.
  - exists out, fs'. split; [exact E|exact Er].
Defined.

Definition text_of_json (v : json) : cstr := default [] (yyjson_write v).

(** The second line of two. *)
Definition two_lines : cstr := lit "a" ++ [10%Z] ++ lit "b".
Definition to_write : fields := [(lit "file_path", JStr (lit "f")); (lit "content", JStr two_lines)].
Definition to_read : fields := [(lit "file_path", JStr (lit "f")); (lit "offset", JInt 2)].

Lemma written_file_reads_back_witness : exists wrote fs' got,
  file_write_main [lit "file_write"] (text_of_json (JObj to_write)) (∅ : files) = (Ret wrote, fs') /\
  file_read_main [lit "file_write"] (text_of_json (JObj to_read)) fs' = (Ret got, fs') /\
  prints [(lit "output", JStr (lit "b"))] got.
Proof.
  destruct (written_file_reads_back (lit "file_write") (lit "f") two_lines to_write to_read
              (text_of_json (JObj to_write)) (text_of_json (JObj to_read)) (∅ : files) (<[lit "f" := []]> ∅))
    as (wrote & fs' & o & got & E1 & _ & _ & E2 & E3 & _).
  - reflexivity.
  - by apply write_read.
  - reflexivity.
  - reflexivity.
  - by apply write_read.
  - reflexivity.
  - apply ascii_utf8. apply (bool_decide_unpack _); vm_compute; exact I.
  - apply (bool_decide_unpack _); vm_compute; exact I.
  - by apply ascii_lit.
  - apply small_lt; vm_compute; reflexivity.
  - apply small_lt; vm_compute; reflexivity.
  - by apply small_lt.
  - exists wrote, fs', got. split; [exact E1|]. split; [exact E2|exact E3].
Defined.

End FileToolExamples.
