(* ===== verification/ListTool.v ===== *)
(** * The list tool (src/tools/list)

    A deque of strings kept in a JSON file, one per agent: the two pushes, pops
    and peeks, the list and the count, and the deque a sequence of runs of the
    tool implements. *)

From Stdlib Require Import String.
From stdpp Require Import strings gmap.
From S2P Require Import Prelude Slots CString Utf8 ByteArray Json RequestJson Database ToolIO FileTools.

(** Writing with line breaks and indentation. *)
Class PrettyJson := yyjson_write_pretty : json -> option cstr.

(** The text reads as the value, also with a line break after it; it holds no
    NUL, control characters being escaped. *)
Class PrettyJsonSpec `{!Yyjson} `{!PrettyJson} : Prop := {
  write_pretty_some j : writable j -> is_Some (yyjson_write_pretty j);
  write_pretty_read j s : yyjson_write_pretty j = Some s -> yyjson_read (s ++ newline) = Some j;
  write_pretty_no_nul j s : yyjson_write_pretty j = Some s -> (0%Z ∉ s)
}.

Section list_tool.
Context `{!Allocator} `{!Yyjson} `{!PrettyJson} {F : Type} `{!FileSystem F} (getenv : cstr -> option cstr).

Definition and_then {A B} (m : outcome A * F) (k : A -> F -> outcome B * F) : outcome B * F :=
  let '(o, fs) := m in on_outcome o fs (fun a => k a fs).

(** "mkdir(tmp, 0755) != 0 && errno != EEXIST" *)
Definition mkdir_ok (path : cstr) (fs : F) : bool * F :=
  match mkdir path fs with ((None | Some EEXIST), fs) => (true, fs) | (_, fs) => (false, fs) end.

(** The loop over the characters: [seen] ends before [rest]. *)
Fixpoint mkdir_loop (seen rest : cstr) (fs : F) : bool * F :=
  match rest with
  | [] => mkdir_ok seen fs
  | c :: rest =>
      if (c =? 47)%Z then
        let '(ok, fs) := mkdir_ok seen fs in
        if ok then mkdir_loop (seen ++ [c]) rest fs else (false, fs)
      else mkdir_loop (seen ++ [c]) rest fs
  end.

Definition mkdir_p (path : cstr) (fs : F) : outcome bool * F :=
  match last path with
  | None => (Undef, fs)
  | Some c =>
      let tmp := if (c =? 47)%Z then take (length path - 1) path else path in
      let '(ok, fs) := mkdir_loop (take 1 tmp) (drop 1 tmp) fs in (Ret ok, fs)
  end.

(** The elements of the array in the file; none when there is no such array. *)
Definition read_list (file_path : cstr) (fs : F) : outcome (list json) :=
  match fopen_read file_path fs with
  | inl _ => Ret []
  | inr f =>
      let file_size := length (file_bytes f) in
      if (file_size =? 0)%nat then Ret []
      else
        let! file_contents := or_panic (talloc_realloc [] (wrap32 (file_size + 1))) in
        let! file_contents := mem_write 0 (file_bytes f) file_contents in
        let! file_contents := mem_write file_size [0%Z] file_contents in
        match yyjson_read (take file_size file_contents) with
        | Some (JArr arr) => Ret arr
        | _ => Ret []
        end
  end.

(** The result is whether the file could be opened; what fprintf writes is not
    looked at. *)
Definition write_list (file_path : cstr) (arr : list json) (fs : F) : outcome bool * F :=
  on_outcome (or_panic (yyjson_write_pretty (JArr arr))) fs (fun json_str =>
  match fopen_write file_path fs with
  | inl _ => (Ret false, fs)
  | inr fs => let '(_, fs) := fwrite file_path (until_nul json_str ++ newline) fs in (Ret true, fs)
  end).

(** yyjson_mut_str gives NULL for NULL. *)
Definition string_value (v : option json) : outcome json := let! s := or_panic (yyjson_get_str v) in Ret (JStr s).

Definition output_count (count : nat) : outcome ran :=
  print_json (JObj (put_val "count" (JInt (Z.of_nat count)) (put_val "ok" (JBool true) []))).
Definition output_item (v : json) : outcome ran := print_json (JObj (put_val "item" v (put_val "ok" (JBool true) []))).
Definition output_empty : outcome ran := print_json (JObj (put_val "ok" (JBool false) [])).

Fixpoint list_items (arr : list json) : outcome (list json) :=
  match arr with
  | [] => Ret []
  | v :: arr => let! new_item := string_value (Some v) in let! items := list_items arr in Ret (new_item :: items)
  end.

Definition is_op (operation : cstr) (names : list string) : bool := existsb (fun s => strcmp_eq operation (lit s)) names.

(** The operations that only read. *)
Definition read_operation (operation : cstr) (arr : list json) : outcome ran :=
  let count := length arr in
  if strcmp_eq operation (lit "count") then output_count count
  else if strcmp_eq operation (lit "list") then
    let! items := list_items arr in
    print_json (JObj (put_val "items" (JArr items) (put_val "ok" (JBool true) [])))
  else if (count =? 0)%nat then output_empty
  else
    let peek_item := if strcmp_eq operation (lit "lpeek") then arr !! 0 else arr !! (count - 1) in
    let! item_val := string_value peek_item in
    output_item item_val.

Definition list_error (msg : cstr) : outcome ran := Ret (complained "list" msg).

Definition push_operation (file_path operation : cstr) (item : option cstr) (arr : list json) (fs : F) : outcome ran * F :=
  match item with
  | None | Some [] => (list_error (lit "item required for " ++ operation), fs)
  | Some item =>
      let arr := if strcmp_eq operation (lit "lpush") then insert_at 0 (JStr item) arr else arr ++ [JStr item] in
      and_then (write_list file_path arr fs) (fun written fs =>
      if written then (output_count (length arr), fs) else (list_error (lit "failed to write " ++ file_path), fs))
  end.

Definition pop_operation (file_path operation : cstr) (arr : list json) (fs : F) : outcome ran * F :=
  let count := length arr in
  if (count =? 0)%nat then (output_empty, fs)
  else
    let i := if strcmp_eq operation (lit "lpop") then 0 else count - 1 in
    on_outcome (string_value (arr !! i)) fs (fun item_copy =>
    and_then (write_list file_path (delete_at i arr) fs) (fun written fs =>
    if written then (output_item item_copy, fs) else (list_error (lit "failed to write " ++ file_path), fs))).

(** A variable that is set and not empty. *)
Definition env_var (name : string) : option cstr := match getenv (lit name) with Some (c :: s) => Some (c :: s) | _ => None end.

Definition agent_dir (state_dir agent_id : cstr) : cstr := state_dir ++ lit "/agents/" ++ agent_id.

Definition list_execute (operation : cstr) (item : option cstr) (fs : F) : outcome ran * F :=
  match env_var "IKIGAI_AGENT_ID", env_var "IKIGAI_STATE_DIR" with
  | None, _ => (list_error (lit "IKIGAI_AGENT_ID not set"), fs)
  | _, None => (list_error (lit "IKIGAI_STATE_DIR not set"), fs)
  | Some agent_id, Some state_dir =>
      let agent_dir := agent_dir state_dir agent_id in
      let file_path := agent_dir ++ lit "/list.json" in
      if is_op operation ["lpeek"; "rpeek"; "list"; "count"] then
        (let! arr := read_list file_path fs in read_operation operation arr, fs)
      else
        and_then (mkdir_p agent_dir fs) (fun made fs =>
        if negb made then (list_error (lit "failed to create directory " ++ agent_dir), fs)
        else
          on_outcome (read_list file_path fs) fs (fun arr =>
          if is_op operation ["lpush"; "rpush"] then push_operation file_path operation item arr fs
          else if is_op operation ["lpop"; "rpop"] then pop_operation file_path operation arr fs
          else (list_error (lit "unknown operation " ++ operation), fs)))
  end.

Definition list_operations : list string := ["lpush"; "rpush"; "lpop"; "rpop"; "lpeek"; "rpeek"; "list"; "count"].

Definition list_schema : cstr :=
  schema_text "list" "Redis-style deque operations for task lists"
    (line 6 (q "operation" ++ lit ": {") ++ line 8 (field "type" (q "string") ++ lit ",") ++
     line 8 (field "description" (q "Operation: lpush, rpush, lpop, rpop, lpeek, rpeek, list, count") ++ lit ",") ++
     line 8 (field "enum" (lit "[" ++ mjoin (q "lpush" :: ((fun s => lit ", " ++ q s) <$> tail list_operations)) ++ lit "]")) ++ line 6 (lit "},") ++
     schema_property "item" "string" "Item to push (required for lpush/rpush)" true)
    (q "operation").

Definition list_main : list cstr -> list Z -> F -> outcome ran * F :=
  tool_main "list" list_schema (fun root fs =>
    match yyjson_obj_get (Some root) (lit "operation") with
    | None => (list_error (lit "missing operation field"), fs)
    | operation =>
        match yyjson_get_str operation with
        | None => (list_error (lit "operation must be a string"), fs)
        | Some op_str =>
            match yyjson_obj_get (Some root) (lit "item") with
            | None => list_execute op_str None fs
            | item =>
                match yyjson_get_str item with
                | None => (list_error (lit "item must be a string"), fs)
                | Some item_str => list_execute op_str (Some item_str) fs
                end
            end
        end
    end).

End list_tool.

(** ** The deque *)

Inductive request := LPush (s : cstr) | RPush (s : cstr) | LPop | RPop | LPeek | RPeek | LList | LCount.

Definition request_name (r : request) : string :=
  match r with
  | LPush _ => "lpush" | RPush _ => "rpush" | LPop => "lpop" | RPop => "rpop"
  | LPeek => "lpeek" | RPeek => "rpeek" | LList => "list" | LCount => "count"
  end.

Definition counted (n : nat) : fields := [(lit "ok", JBool true); (lit "count", JInt (Z.of_nat n))].
Definition found (s : cstr) : fields := [(lit "ok", JBool true); (lit "item", JStr s)].
Definition nothing : fields := [(lit "ok", JBool false)].

(** The answer to a request and the deque after it. *)
Definition deque_step (r : request) (l : list cstr) : fields * list cstr :=
  match r with
  | LPush s => (counted (S (length l)), s :: l)
  | RPush s => (counted (S (length l)), l ++ [s])
  | LPop => match l with [] => (nothing, []) | s :: l => (found s, l) end
  | RPop => match last l with None => (nothing, []) | Some s => (found s, removelast l) end
  | LPeek => (match l with [] => nothing | s :: _ => found s end, l)
  | RPeek => (match last l with None => nothing | Some s => found s end, l)
  | LList => ([(lit "ok", JBool true); (lit "items", JArr (JStr <$> l))], l)
  | LCount => (counted (length l), l)
  end.

Fixpoint deque_run (rs : list request) (l : list cstr) : list fields * list cstr :=
  match rs with
  | [] => ([], l)
  | r :: rs => let '(a, l) := deque_step r l in let '(os, l) := deque_run rs l in (a :: os, l)
  end.

(** The deques on the way. *)
Fixpoint deques (rs : list request) (l : list cstr) : list (list cstr) :=
  match rs with [] => [] | r :: rs => let l := snd (deque_step r l) in l :: deques rs l end.

Section refinement.
Context `{!Allocator} `{!AllocatorSpec} `{!Yyjson} `{!YyjsonSpec} `{!PrettyJson} `{!PrettyJsonSpec}.
Context {F : Type} `{!FileSystem F} `{!FileSystemSpec F}.

(** The directory can be made, which leaves the file as it is, and the file can
    be opened for writing. *)
Record agent_files (dir path : cstr) : Prop := {
  writes_open fs : exists f1, fopen_write path fs = inr f1;
  directories_made p fs : p `prefix_of` dir -> exists e fs', mkdir p fs = (e, fs') /\ (e = None \/ e = Some EEXIST) /\
    fopen_read path fs' = fopen_read path fs
}.

Definition an_item (s : cstr) : Prop := is_utf8 s /\ (0%Z ∉ s).

(** What the file holds is the deque. *)
Definition holds (path : cstr) (fs : F) (l : list cstr) : Prop :=
  Forall an_item l /\
  ((exists e, fopen_read path fs = inl e /\ l = []) \/
   (exists n b, fopen_read path fs = inr (mk_opened n b) /\ (Z.of_nat (length b) < 2 ^ 32 - 1)%Z /\ yyjson_read b = Some (JArr (JStr <$> l)))).

Lemma holds_read path fs l : holds path fs l -> read_list path fs = Ret (JStr <$> l).
Proof.
  intros (_ & [(e & E & ->)|(n & b & E & Hb & Hj)]); unfold read_list; rewrite E; [done|]. cbn [file_bytes].
  destruct (Nat.eqb_spec (length b) 0) as [E0|E0]; [apply length_zero_iff_nil in E0; subst b; by rewrite read_nothing in Hj|].
  rewrite wrap32_small by lia. destruct (realloc_some [] (length b + 1)) as [block Eb]. pose proof (realloc_length _ _ _ Eb) as El. rewrite Eb.
  cbn [or_panic obind]. destruct (write_next [] b block ltac:(lia)) as (j & Ew & Ej). cbn [length app] in Ew. rewrite Ew. cbn [obind].
  destruct j as [|x j]; [cbn [length] in *; lia|]. change (x :: j) with ([x] ++ j). rewrite (mem_write_app (length b) [0%Z] b [x] j) by done. cbn [obind].
  by rewrite take_app_length, Hj.
Qed.

Definition fits (l : list cstr) : Prop :=
  (Z.of_nat (length l) < 2 ^ 31)%Z /\ forall text, yyjson_write_pretty (JArr (JStr <$> l)) = Some text -> (Z.of_nat (length text) < 2 ^ 31)%Z.

Lemma items_writable l : Forall an_item l -> Forall writable (JStr <$> l).
Proof. intros Hl. apply Forall_fmap. eapply Forall_impl; [exact Hl|]. intros s [Hs _]. by constructor. Qed.

Lemma holds_write dir path fs l : agent_files dir path -> Forall an_item l -> fits l ->
  exists fs', write_list path (JStr <$> l) fs = (Ret true, fs') /\ holds path fs' l.
Proof.
  intros [Hopen _] Hl Hfit. unfold write_list.
  destruct (write_pretty_some (JArr (JStr <$> l))) as [text Et]; [constructor; by apply items_writable|].
  destruct (Hopen fs) as [f1 Ef]. rewrite Et. cbn [or_panic on_outcome]. rewrite Ef, until_nul_id by (by eapply write_pretty_no_nul).
  destruct (fwrite_all path (text ++ newline) fs f1 Ef) as (f2 & -> & Er). exists f2. split; [done|]. split; [done|].
  right. eexists _, _. split; [exact Er|]. split; [|by apply write_pretty_read].
  rewrite length_app. pose proof (proj2 Hfit _ Et). change (length newline) with 1. lia.
Qed.

Lemma mkdir_loop_ok dir path rest : agent_files dir path -> forall seen fs, dir = seen ++ rest ->
  exists fs', mkdir_loop seen rest fs = (true, fs') /\ fopen_read path fs' = fopen_read path fs.
Proof.
  intros [_ Hmk]. assert (forall p fs, p `prefix_of` dir -> exists fs', mkdir_ok p fs = (true, fs') /\ fopen_read path fs' = fopen_read path fs) as Hok.
  { intros p fs Hp. destruct (Hmk p fs Hp) as (e & fs' & E & He & Hr). exists fs'. split; [|done]. unfold mkdir_ok. rewrite E. by destruct He as [->| ->]. }
  induction rest as [|c rest IH]; intros seen fs Ed; cbn [mkdir_loop].
  - apply Hok. exists []. by rewrite Ed, !app_nil_r.
  - assert (dir = (seen ++ [c]) ++ rest) as Ed' by (by rewrite <- app_assoc). destruct (c =? 47)%Z; [|by apply IH].
    destruct (Hok seen fs) as (fs1 & -> & E1); [by exists (c :: rest)|]. destruct (IH _ fs1 Ed') as (fs2 & -> & E2). exists fs2. by rewrite E2.
Qed.

Lemma mkdir_p_ok dir path fs : agent_files dir path -> dir <> [] ->
  exists fs', mkdir_p dir fs = (Ret true, fs') /\ fopen_read path fs' = fopen_read path fs.
Proof.
  intros Ha Hd. unfold mkdir_p. destruct (last dir) as [c|] eqn:El; [|by apply last_None in El].
  apply last_Some in El as [d ->]. rewrite length_app. replace (length d + length [c] - 1) with (length d) by (cbn [length]; lia).
  rewrite take_app_length. set (tmp := if (c =? 47)%Z then d else d ++ [c]).
  assert (agent_files tmp path) as Ht.
  { destruct Ha as [Ho Hm]. split; [done|]. intros p fs0 Hp. apply Hm. unfold tmp in Hp. destruct (c =? 47)%Z; [|done].
    etransitivity; [exact Hp|]. by exists [c]. }
  destruct (mkdir_loop_ok tmp path (drop 1 tmp) Ht (take 1 tmp) fs) as (fs' & -> & E); [by rewrite take_drop|]. by exists fs'.
Qed.

Lemma list_items_ok l : Forall an_item l -> list_items (JStr <$> l) = Ret (JStr <$> l).
Proof.
  induction 1 as [|s l [_ Hs] _ IH]; [done|]. cbn [list_items fmap list_fmap]. unfold string_value. cbn [yyjson_get_str]. rewrite until_nul_id by done.
  cbn [or_panic obind]. change (list_fmap _ _ JStr l) with (JStr <$> l). by rewrite IH.
Qed.

Lemma counted_printed n : (Z.of_nat n < 2 ^ 64)%Z -> exists out, output_count n = Ret out /\ prints (counted n) out.
Proof.
  intros Hn. apply json_printed. constructor. repeat (apply Forall_cons; split; [split; [by apply lit_key|constructor; lia]|]). by apply Forall_nil.
Qed.

Lemma found_printed s : is_utf8 s -> exists out, output_item (JStr s) = Ret out /\ prints (found s) out.
Proof.
  intros Hs. apply json_printed. constructor. apply Forall_cons; split; [split; [by apply lit_key|constructor]|].
  apply Forall_singleton. split; [by apply lit_key|by constructor].
Qed.

Lemma nothing_printed : exists out, output_empty = Ret out /\ prints nothing out.
Proof. apply json_printed. constructor. apply Forall_singleton. split; [by apply lit_key|constructor]. Qed.

Lemma items_printed l : Forall an_item l -> exists out,
  print_json (JObj (put_val "items" (JArr (JStr <$> l)) (put_val "ok" (JBool true) []))) = Ret out /\
  prints [(lit "ok", JBool true); (lit "items", JArr (JStr <$> l))] out.
Proof.
  intros Hl. apply json_printed. constructor. apply Forall_cons; split; [split; [by apply lit_key|constructor]|].
  apply Forall_singleton. split; [by apply lit_key|constructor; by apply items_writable].
Qed.

(** ** One run *)

Context (getenv : cstr -> option cstr) (id dir : cstr).
Context (Hid : env_var getenv "IKIGAI_AGENT_ID" = Some id) (Hdir : env_var getenv "IKIGAI_STATE_DIR" = Some dir).

Definition list_path : cstr := agent_dir dir id ++ lit "/list.json".

Context (Hfiles : agent_files (agent_dir dir id) list_path).

Definition item_for (r : request) (item : option cstr) : Prop :=
  match r with LPush s | RPush s => item = Some s /\ s <> [] /\ an_item s | _ => True end.

Definition writes (r : request) : bool := match r with LPush _ | RPush _ | LPop | RPop => true | _ => false end.

Lemma string_read (l : list cstr) (i : nat) s : l !! i = Some s -> an_item s -> string_value ((JStr <$> l) !! i) = Ret (JStr s).
Proof.
  intros Ei [_ Hs]. rewrite list_lookup_fmap, Ei. unfold string_value. cbn [fmap option_fmap option_map yyjson_get_str or_panic obind].
  by rewrite until_nul_id.
Qed.

Lemma peeking_ok r (l : list cstr) (i : nat) s : (r = LPeek /\ i = 0) \/ (r = RPeek /\ i = length l - 1) -> l !! i = Some s -> an_item s ->
  exists out, read_operation (lit (request_name r)) (JStr <$> l) = Ret out /\ prints (found s) out.
Proof.
  intros Hr Ei Hi. destruct (found_printed s (proj1 Hi)) as (out & E & Hp). exists out. split; [|exact Hp].
  assert (length l <> 0) as Hn by (apply lookup_lt_Some in Ei; lia). unfold read_operation. rewrite length_fmap.
  replace (strcmp_eq (lit (request_name r)) (lit "count")) with false by (by destruct Hr as [[-> _]|[-> _]]).
  replace (strcmp_eq (lit (request_name r)) (lit "list")) with false by (by destruct Hr as [[-> _]|[-> _]]).
  rewrite (proj2 (Nat.eqb_neq _ _) Hn).
  assert ((if strcmp_eq (lit (request_name r)) (lit "lpeek") then (JStr <$> l) !! 0 else (JStr <$> l) !! (length l - 1)) = (JStr <$> l) !! i) as ->
    by (by destruct Hr as [[-> ->]|[-> ->]]).
  by rewrite (string_read l i s).
Qed.

(** The operations on a deque that was read. *)
Lemma reading_ok r l : writes r = false -> Forall an_item l -> fits l ->
  snd (deque_step r l) = l /\
  exists out, read_operation (lit (request_name r)) (JStr <$> l) = Ret out /\ prints (fst (deque_step r l)) out.
Proof.
  intros Hr Hl [Hlen _]. destruct r; try done; (split; [done|]).
  - destruct l as [|s l]; [exact nothing_printed|]. apply Forall_cons in Hl as [Hi _]. by apply (peeking_ok LPeek (s :: l) 0 s); [left| |].
  - destruct l as [|x l' _] using rev_ind; [exact nothing_printed|]. apply Forall_app in Hl as [_ [Hi _]%Forall_cons].
    cbn [deque_step fst]. rewrite last_snoc. apply (peeking_ok RPeek (l' ++ [x]) (length l') x); [|by apply list_lookup_middle|done].
    right. split; [done|]. rewrite length_app. cbn [length]. lia.
  - destruct (items_printed l Hl) as (out & E & Hp). exists out. split; [|exact Hp]. unfold read_operation.
    change (strcmp_eq _ (lit "count")) with false. change (strcmp_eq _ (lit "list")) with true. cbv iota. by rewrite list_items_ok.
  - destruct (counted_printed (length l)) as (out & E & Hp); [lia|]. exists out. split; [|exact Hp]. unfold read_operation.
    change (strcmp_eq _ (lit "count")) with true. cbv iota. by rewrite length_fmap.
Qed.

Lemma pushing_ok r s l l' fs : (r = LPush s /\ l' = s :: l) \/ (r = RPush s /\ l' = l ++ [s]) ->
  s <> [] -> an_item s -> holds list_path fs l -> fits l' ->
  exists out fs', push_operation list_path (lit (request_name r)) (Some s) (JStr <$> l) fs = (Ret out, fs') /\
    prints (counted (S (length l))) out /\ holds list_path fs' l'.
Proof.
  intros Hr Hs Hi [Hl _] Hfit. assert (length l' = S (length l) /\ Forall an_item l') as [El Hl'].
  { destruct Hr as [[_ ->]|[_ ->]]; [split; [done|by constructor]|]. split; [rewrite length_app; cbn [length]; lia|].
    apply Forall_app. split; [done|by apply Forall_singleton]. }
  destruct (counted_printed (length l')) as (out & E & Hp); [destruct Hfit; lia|].
  destruct (holds_write _ _ fs _ Hfiles Hl' Hfit) as (fs' & Ew & Hh). exists out, fs'. rewrite <- El. split; [|done].
  unfold push_operation. destruct s as [|c s]; [done|].
  assert ((if strcmp_eq (lit (request_name r)) (lit "lpush") then insert_at 0 (JStr (c :: s)) (JStr <$> l) else (JStr <$> l) ++ [JStr (c :: s)]) =
          JStr <$> l') as ->.
  { destruct Hr as [[-> ->]|[-> ->]]; [done|]. rewrite fmap_app. done. }
  rewrite Ew. cbn [and_then on_outcome]. by rewrite length_fmap, E.
Qed.

Lemma popping_ok r s l l' fs : (r = LPop /\ l = s :: l') \/ (r = RPop /\ l = l' ++ [s]) -> holds list_path fs l -> fits l' ->
  exists out fs', pop_operation list_path (lit (request_name r)) (JStr <$> l) fs = (Ret out, fs') /\
    prints (found s) out /\ holds list_path fs' l'.
Proof.
  intros Hr [Hl _] Hfit. assert (an_item s /\ Forall an_item l') as [[Hu Hs] Hl'].
  { destruct Hr as [[_ ->]|[_ ->]]; [apply Forall_cons in Hl; exact Hl|]. apply Forall_app in Hl as [Hl Hs]. apply Forall_cons in Hs as [Hs _]. by split; [exact Hs|]. }
  destruct (found_printed s Hu) as (out & E & Hp). destruct (holds_write _ _ fs _ Hfiles Hl' Hfit) as (fs' & Ew & Hh).
  exists out, fs'. split; [|done]. unfold pop_operation. rewrite length_fmap.
  set (i := if strcmp_eq _ _ then 0 else _). assert (l !! i = Some s /\ delete_at i (JStr <$> l) = JStr <$> l' /\ length l <> 0) as (Ei & Ed & Hn).
  { unfold i. destruct Hr as [[-> ->]|[-> ->]]; [done|]. change (strcmp_eq _ _) with false. cbv iota. rewrite length_app. cbn [length].
    replace (length l' + 1 - 1) with (length l') by lia. split; [by apply list_lookup_middle|]. split; [|lia].
    rewrite fmap_app. rewrite <- (length_fmap JStr l'). change (JStr <$> [s]) with [JStr s]. rewrite delete_at_app. by rewrite app_nil_r. }
  rewrite (proj2 (Nat.eqb_neq _ _) Hn), (string_read l i s) by done. cbn [on_outcome].
  rewrite Ed, Ew by done. cbn [and_then on_outcome]. by rewrite E.
Qed.

Lemma popping_nothing r fs : exists out, pop_operation list_path (lit (request_name r)) [] fs = (Ret out, fs) /\ prints nothing out.
Proof. destruct nothing_printed as (out & E & Hp). exists out. split; [|done]. unfold pop_operation. cbn [length Nat.eqb]. by rewrite E. Qed.

Lemma execute_reads r item fs l : writes r = false -> holds list_path fs l ->
  list_execute getenv (lit (request_name r)) item fs = (read_operation (lit (request_name r)) (JStr <$> l), fs).
Proof.
  intros Hr Hh. unfold list_execute. rewrite Hid, Hdir. replace (is_op _ _) with true by (by destruct r).
  fold list_path. by rewrite (holds_read _ _ _ Hh).
Qed.

Lemma execute_writes r item fs l : writes r = true -> holds list_path fs l -> exists fs1, holds list_path fs1 l /\
  list_execute getenv (lit (request_name r)) item fs =
    if match r with LPush _ | RPush _ => true | _ => false end then push_operation list_path (lit (request_name r)) item (JStr <$> l) fs1
    else pop_operation list_path (lit (request_name r)) (JStr <$> l) fs1.
Proof.
  intros Hr [Hl Hh]. destruct (mkdir_p_ok _ _ fs Hfiles) as (fs1 & Em & E).
  { unfold agent_dir. by destruct dir. }
  assert (holds list_path fs1 l) as Hh1 by (split; [done|]; by rewrite E). exists fs1. split; [done|].
  unfold list_execute. rewrite Hid, Hdir. replace (is_op _ ["lpeek"; "rpeek"; "list"; "count"]) with false by (by destruct r).
  rewrite Em. cbn [and_then on_outcome negb]. fold list_path. rewrite (holds_read _ _ _ Hh1). cbn [on_outcome]. by destruct r.
Qed.

Lemma execute_ok r item fs l : item_for r item -> holds list_path fs l -> fits (snd (deque_step r l)) ->
  exists out fs', list_execute getenv (lit (request_name r)) item fs = (Ret out, fs') /\
    prints (fst (deque_step r l)) out /\ holds list_path fs' (snd (deque_step r l)).
Proof.
  intros Hi Hh Hfit. destruct (writes r) eqn:Hr.
  - destruct (execute_writes r item fs l Hr Hh) as (fs1 & Hh1 & ->). destruct r as [s|s| | | | | |]; try done; cbn [deque_step] in *.
    + destruct Hi as (-> & Hne & Hi). apply (pushing_ok (LPush s) s l (s :: l)); auto.
    + destruct Hi as (-> & Hne & Hi). apply (pushing_ok (RPush s) s l (l ++ [s])); auto.
    + destruct l as [|s l].
      * destruct (popping_nothing LPop fs1) as (out & E & Hp). by exists out, fs1.
      * apply (popping_ok LPop s (s :: l) l); auto.
    + destruct l as [|s l _] using rev_ind.
      * destruct (popping_nothing RPop fs1) as (out & E & Hp). by exists out, fs1.
      * rewrite last_snoc, removelast_last in *. apply (popping_ok RPop s (l ++ [s]) l); auto.
  - rewrite (execute_reads r item fs l) by done.
    assert (snd (deque_step r l) = l) as El by (by destruct r). rewrite El in *.
    destruct (reading_ok r l Hr (proj1 Hh) Hfit) as (_ & out & E & Hp). exists out, fs. by rewrite E.
Qed.

(** The input that makes a request. *)
Definition asks (input : cstr) (r : request) : Prop :=
  (Z.of_nat (length input) < 2 ^ 30)%Z /\
  exists o, yyjson_read input = Some (JObj o) /\
    yyjson_get_str (find_field o (lit "operation")) = Some (lit (request_name r)) /\
    (find_field o (lit "item") = None \/ is_Some (yyjson_get_str (find_field o (lit "item")))) /\
    item_for r (yyjson_get_str (find_field o (lit "item"))).

Lemma main_ok prog input r fs l : asks input r -> holds list_path fs l -> fits (snd (deque_step r l)) ->
  exists out fs', list_main getenv [prog] input fs = (Ret out, fs') /\
    prints (fst (deque_step r l)) out /\ holds list_path fs' (snd (deque_step r l)).
Proof.
  intros (Hlen & o & Ho & Hop & Hitem & Hfor) Hh Hfit. unfold list_main. rewrite (tool_main_ok _ _ _ _ _ _ _ Ho Hlen). cbn [yyjson_obj_get].
  destruct (find_field o (lit "operation")) as [op|]; [|done]. rewrite Hop.
  destruct (find_field o (lit "item")) as [v|].
  - destruct Hitem as [Hn|[s Es]]; [done|]. rewrite Es in *. by apply execute_ok.
  - by apply execute_ok.
Qed.

(** One run for each input. *)
Fixpoint list_runs (prog : cstr) (inputs : list cstr) (fs : F) : list (outcome ran) * F :=
  match inputs with
  | [] => ([], fs)
  | input :: inputs =>
      let '(o, fs) := list_main getenv [prog] input fs in
      let '(os, fs) := list_runs prog inputs fs in (o :: os, fs)
  end.

End refinement.

Module ListToolProps.

Section props.
Context `{!Allocator} `{!AllocatorSpec} `{!Yyjson} `{!YyjsonSpec} `{!PrettyJson} `{!PrettyJsonSpec}.
Context {F : Type} `{!FileSystem F} `{!FileSystemSpec F}.

(** C25: the list tool is a deque that outlives its runs.  Whatever requests are
    made one run after the other, each run prints what the deque answers (the
    count after a push, the item popped or peeked, "ok" false when there is
    none, the items, the count), and afterwards the agent's file holds the
    deque; the first run may find no file. *)
Theorem list_runs_deque (getenv : cstr -> option cstr) (id dir prog : cstr) (script : list (cstr * request)) (fs : F) (l : list cstr) :
  env_var getenv "IKIGAI_AGENT_ID" = Some id -> env_var getenv "IKIGAI_STATE_DIR" = Some dir ->
  agent_files (agent_dir dir id) (list_path id dir) ->
  Forall (fun '(input, r) => asks input r) script -> Forall fits (deques (script.*2) l) ->
  holds (list_path id dir) fs l ->
  exists outs fs', list_runs getenv prog (script.*1) fs = (Ret <$> outs, fs') /\
    Forall2 prints (fst (deque_run (script.*2) l)) outs /\ holds (list_path id dir) fs' (snd (deque_run (script.*2) l)).
Proof.
  intros Hid Hdir Hfiles Hscript. revert fs l. induction Hscript as [|[input r] script Hasks _ IH]; intros fs l Hfits Hh.
  { exists [], fs. split; [done|]. by split; [constructor|]. }
  cbn [fmap list_fmap fst snd deques list_runs deque_run] in *. apply Forall_cons in Hfits as [Hfit Hfits].
  destruct (main_ok getenv id dir Hid Hdir Hfiles prog input r fs l Hasks Hh Hfit) as (out & fs1 & -> & Hp & Hh1).
  destruct (deque_step r l) as [a l1]. cbn [fst snd] in *. destruct (IH fs1 l1 Hfits Hh1) as (outs & fs2 & E & Hps & Hh2).
  change (list_fmap _ _ fst script) with (script.*1). change (list_fmap _ _ snd script) with (script.*2). rewrite E.
  destruct (deque_run (script.*2) l1) as [os l2]. cbn [fst snd] in *.
  exists (out :: outs), fs2. split; [done|]. by split; [constructor|].
Qed.

End props.
End ListToolProps.

(** Text read without its line breaks. *)
Module SpacedJson.

#[export] Instance spaced_json : Yyjson := {
  yyjson_read s := @yyjson_read CodedJson.coded_json (filter (fun b => b <> 10%Z) s);
  yyjson_write j := @yyjson_write CodedJson.coded_json j
}.

Lemma no_breaks s : Forall (fun b => (32 <= b < 256)%Z) s -> filter (fun b => b <> 10%Z) s = s.
Proof. induction 1 as [|b s Hb _ IH]; [done|]. rewrite filter_cons_True by lia. by rewrite IH. Qed.

#[export] Instance spaced_json_spec : YyjsonSpec.
Proof.
  constructor; cbn [yyjson_read yyjson_write spaced_json].
  - intros j Hj. by apply CodedJson.coded_json_spec.
  - intros j s E. rewrite no_breaks by exact (@write_printable _ CodedJson.coded_json_spec j s E).
    by apply CodedJson.coded_json_spec.
  - intros j s E. exact (@write_printable _ CodedJson.coded_json_spec j s E).
  - reflexivity.
  - reflexivity.
  - reflexivity.
Qed.

#[export] Instance spaced_pretty : PrettyJson := fun j => yyjson_write j.

#[export] Instance spaced_pretty_spec : PrettyJsonSpec.
Proof.
  constructor; unfold yyjson_write_pretty, spaced_pretty.
  - intros j Hj. by apply write_some.
  - intros j s E. pose proof (write_read j s E) as Hr. cbn [yyjson_read spaced_json] in *. rewrite filter_app.
    replace (filter _ newline) with (@nil Z) by done. by rewrite app_nil_r.
  - intros j s E. by eapply printable_no_nul, write_printable.
Qed.

End SpacedJson.

Module ListToolExamples.
Import ZeroAlloc SpacedJson MemoryFiles ListToolProps.

Definition env (k : cstr) : option cstr := if strcmp_eq k (lit "IKIGAI_AGENT_ID") then Some (lit "7") else Some (lit "/s").

Definition asking_fields (r : request) : fields :=
  (lit "operation", JStr (lit (request_name r))) :: match r with LPush s | RPush s => [(lit "item", JStr s)] | _ => [] end.
Definition ask (r : request) : cstr * request := (default [] (yyjson_write (JObj (asking_fields r))), r).

Definition asked : list (cstr * request) := ask <$> [RPush (lit "a"); LPush (lit "b"); RPop; LCount].

Lemma ask_asks r : bool_decide (Z.of_nat (length (fst (ask r))) < 2 ^ 30)%Z = true ->
  match r with LPush s | RPush s => s <> [] /\ ascii s /\ (0%Z ∉ s) | _ => True end -> asks (fst (ask r)) r.
Proof.
  intros Hl%bool_decide_eq_true Hr. split; [done|]. exists (asking_fields r). split; [by apply write_read|].
  split; [by destruct r|]. destruct r as [s|s| | | | | |]; try (by split; [left|]);
    (destruct Hr as (Hne & Ha & Hs); split; [right; by eexists|]; unfold item_for;
     change (find_field _ _) with (Some (JStr s)); cbn [yyjson_get_str]; rewrite until_nul_id by done;
     split; [done|]; split; [done|]; split; [by apply ascii_utf8|done]).
Qed.

Lemma list_runs_deque_witness : exists outs fs', list_runs env (lit "list") (asked.*1) (∅ : files) = (Ret <$> outs, fs') /\
  Forall2 prints [counted 1; counted 2; found (lit "a"); counted 1] outs /\ holds (list_path (lit "7") (lit "/s")) fs' [lit "b"].
Proof.
  apply (list_runs_deque env (lit "7") (lit "/s") (lit "list") asked (∅ : files) []).
  - reflexivity.
  - reflexivity.
  - split; [intros fs; by eexists|]. intros p fs _. exists None, fs. split; [done|]. by split; [left|].
  - unfold asked. repeat (apply Forall_cons; split; [apply ask_asks; [by vm_compute|]|]); try apply Forall_nil; try exact I;
      (split; [done|]; split; [by apply ascii_lit|apply (bool_decide_unpack _); vm_compute; exact I]).
  - repeat (apply Forall_cons; split; [split; [cbn; lia|intros text [= <-]; apply Z.ltb_lt; by vm_compute]|]). by apply Forall_nil.
  - split; [by apply Forall_nil|]. left. by exists ENOENT.
Defined.

End ListToolExamples.
