(* ===== verification/SearchTools.v ===== *)
(** * The search tools (src/tools/glob, src/tools/grep)

    Finding files by a pattern and lines by a regular expression.  The output is
    built in blocks of memory, so that what is copied past an array shows. *)

From Stdlib Require Import String.
From stdpp Require Import strings gmap.
From S2P Require Import Prelude Slots CString Utf8 ByteArray Json RequestJson Database ToolIO FileTools.

(** What glob() returns, with the paths when it finds any. *)
Inductive glob_return := GlobFound (gl_pathv : list cstr) | GLOB_NOMATCH | GLOB_NOSPACE | GLOB_ABORTED | GlobOther.

(** glob, regcomp (the text of an error, or what regexec answers for a line)
    and S_ISREG of stat. *)
Class Searching (F : Type) := {
  glob_ : cstr -> F -> glob_return;
  regcomp : cstr -> cstr + (cstr -> bool);
  is_regular : cstr -> F -> bool
}.

Section search.
Context `{!Allocator} `{!Yyjson} {F : Type} `{!FileSystem F} `{!Searching F}.

(** "buf = talloc_array(..., size); snprintf(buf, size, ...)" *)
Definition formatted (size : nat) (s : cstr) : outcome cstr :=
  let! block := or_panic (talloc_realloc [] (wrap32 size)) in
  let! block := mem_write 0 (snprintf size s ++ [0%Z]) block in
  c_string block.

(** ** glob *)

Definition glob_pattern (pattern : cstr) (path : option cstr) : outcome cstr :=
  match path with
  | None | Some [] => Ret pattern
  | Some path => formatted (length path + length pattern + 2) (path ++ lit "/" ++ pattern)
  end.

(** The first loop: the size of the output. *)
Fixpoint output_size_of (paths : list cstr) : nat :=
  match paths with
  | [] => 0
  | p :: paths => length p + (match paths with [] => 0 | _ => 1 end) + output_size_of paths
  end.

(** The second loop: copying to [pos]. *)
Fixpoint copy_paths (paths : list cstr) (pos : nat) (output : list Z) : outcome (list Z * nat) :=
  match paths with
  | [] => Ret (output, pos)
  | p :: paths =>
      let! output := mem_write pos p output in
      let pos := pos + length p in
      match paths with
      | [] => Ret (output, pos)
      | _ => let! output := mem_write pos [10%Z] output in copy_paths paths (S pos) output
      end
  end.

Definition print_found (output : cstr) (count : Z) : outcome ran :=
  print_json (JObj (put_val "count" (JInt count) (put_val "output" (JStr output) []))).

Definition glob_execute (pattern : cstr) (path : option cstr) (fs : F) : outcome ran :=
  let! full_pattern := glob_pattern pattern path in
  let print_paths paths :=
    let! output := or_panic (talloc_realloc [] (wrap32 (output_size_of paths + 1))) in
    let! (output, pos) := copy_paths paths 0 output in
    let! output := mem_write pos [0%Z] output in
    let! output := c_string output in
    print_found output (int32_wrap (Z.of_nat (length paths))) in
  match glob_ full_pattern fs with
  | GLOB_NOSPACE => output_error (lit "Out of memory during glob") "OUT_OF_MEMORY"
  | GLOB_ABORTED => output_error (lit "Read error during glob") "READ_ERROR"
  | GlobOther => output_error (lit "Invalid glob pattern") "INVALID_PATTERN"
  | GLOB_NOMATCH => print_paths []
  | GlobFound paths => print_paths paths
  end.

(** ** grep *)

Record grep_state := mk_grep { output : list Z; output_size : nat; output_buffer_size : nat; match_count : nat }.

(** "if (line_len > 0 && line[line_len - 1] == '\n') line[line_len - 1] = 0" *)
Definition strip_break (line : cstr) : cstr :=
  match last line with Some 10%Z => take (length line - 1) line | _ => line end.

Definition match_text (filename : cstr) (line_number : nat) (line : cstr) : cstr :=
  filename ++ lit ":" ++ show_int (Z.of_nat line_number) ++ lit ": " ++ line.

(** [match_line] is an array of 4096 bytes, [stack] what it first holds;
    snprintf returns the length of the whole text. *)
Definition add_match (stack : list Z) (filename : cstr) (line_number : nat) (line : cstr) (st : grep_state) : outcome grep_state :=
  let text := match_text filename line_number line in
  let! match_line := mem_write 0 (snprintf 4096 text ++ [0%Z]) stack in
  let! match_line_len := if (Z.of_nat (length text) <? 2 ^ 31)%Z then Ret (length text) else Undef in
  let! (out, buffer_size) := grow_block 65 (output_size st + match_line_len + 2) (output st) (output_buffer_size st) in
  let! (out, size) := if (0 <? match_count st)%nat then let! out := mem_write (output_size st) [10%Z] out in Ret (out, S (output_size st))
                      else Ret (out, output_size st) in
  let! bytes := mem_read 0 match_line_len match_line in
  let! out := mem_write size bytes out in
  let size := size + match_line_len in
  let! out := mem_write size [0%Z] out in
  let! count := count_up (match_count st) in
  Ret (mk_grep out size buffer_size count).

Fixpoint grep_lines (stack : list Z) (regex : cstr -> bool) (filename : cstr) (lines : list (list Z)) (line_number : nat) (st : grep_state)
  : outcome grep_state :=
  match lines with
  | [] => Ret st
  | line :: lines =>
      let! line_number := count_up line_number in
      let line := strip_break (until_nul line) in
      let! st := if regex line then add_match stack filename line_number line st else Ret st in
      grep_lines stack regex filename lines line_number st
  end.

Fixpoint grep_files (stack : list Z) (regex : cstr -> bool) (fs : F) (files : list cstr) (st : grep_state) : outcome grep_state :=
  match files with
  | [] => Ret st
  | filename :: files =>
      if negb (is_regular filename fs) then grep_files stack regex fs files st
      else
        match fopen_read filename fs with
        | inl _ => grep_files stack regex fs files st
        | inr f =>
            let! st := grep_lines stack regex filename (get_lines (length (file_bytes f)) (file_bytes f)) 0 st in
            grep_files stack regex fs files st
        end
  end.

(** [None] is -1. *)
Definition grep_search (stack : list Z) (pattern : cstr) (glob path : option cstr) (fs : F) : outcome (option (cstr * nat)) :=
  let path := match path with Some (c :: path) => c :: path | _ => lit "." end in
  match regcomp pattern with
  | inl _ => Ret None
  | inr regex =>
      let! file_glob := match glob with
                        | Some (c :: g) => formatted (length path + length (c :: g) + 2) (path ++ lit "/" ++ c :: g)
                        | _ => formatted (length path + 3) (path ++ lit "/*")
                        end in
      let search files :=
        let! out := or_panic (talloc_realloc [] 4096) in
        let! out := mem_write 0 [0%Z] out in
        let! st := grep_files stack regex fs files (mk_grep out 0 4096 0) in
        let! text := c_string (output st) in
        Ret (Some (text, match_count st)) in
      match glob_ file_glob fs with
      | GlobFound files => search files
      | GLOB_NOMATCH => search []
      | _ => Ret (Some ([], 0))
      end
  end.

(** The error of regcomp is copied to 256 bytes, the message to 512. *)
Definition grep_execute (stack : list Z) (pattern : cstr) (glob path : option cstr) (fs : F) : outcome ran :=
  match regcomp pattern with
  | inl error => output_error (snprintf 512 (lit "Invalid pattern: " ++ snprintf 256 error)) "INVALID_PATTERN"
  | inr _ =>
      let! result := grep_search stack pattern glob path fs in
      match result with
      | None => Undef
      | Some (out, count) => print_found out (Z.of_nat count)
      end
  end.

(** ** main of the two tools *)

Definition optional_string (root : json) (k : string) : option cstr := yyjson_get_str (yyjson_obj_get (Some root) (lit k)).

Definition path_property : cstr := schema_property "path" "string" "Directory to search in (default: current directory)" true.

Definition glob_schema : cstr :=
  schema_text "glob" "Find files matching a glob pattern"
    (schema_property "pattern" "string" "Glob pattern (e.g., '*.txt', 'src/**/*.c')" false ++ path_property) (q "pattern").

Definition glob_main : list cstr -> list Z -> F -> outcome ran * F :=
  tool_main "glob" glob_schema (fun root fs =>
    required_string "glob" root "pattern" fs (fun pattern => (glob_execute pattern (optional_string root "path") fs, fs))).

Definition grep_schema : cstr :=
  schema_text "grep" "Search for pattern in files using regular expressions"
    (schema_property "pattern" "string" "Regular expression pattern (POSIX extended)" false ++
     schema_property "glob" "string" "Glob pattern to filter files (e.g., '*.c')" false ++ path_property) (q "pattern").

Definition grep_main (stack : list Z) : list cstr -> list Z -> F -> outcome ran * F :=
  tool_main "grep" grep_schema (fun root fs =>
    required_string "grep" root "pattern" fs (fun pattern =>
    (grep_execute stack pattern (optional_string root "glob") (optional_string root "path") fs, fs))).

End search.

(** ** Lines of text *)

Definition lines_text (ls : list cstr) : cstr :=
  match ls with [] => [] | l :: ls => l ++ mjoin ((fun m => 10%Z :: m) <$> ls) end.

Lemma lines_text_app a b : a <> [] -> lines_text (a ++ b) = lines_text a ++ mjoin ((fun m => 10%Z :: m) <$> b).
Proof. destruct a as [|x a]; [done|]. intros _. cbn [app lines_text]. by rewrite fmap_app, join_app, app_assoc. Qed.

Lemma lines_text_prefix a b : length (lines_text a) <= length (lines_text (a ++ b)).
Proof. destruct (decide (a = [])) as [->|Ha]; [cbn; lia|]. rewrite lines_text_app, length_app by done. lia. Qed.

Lemma lines_text_no_nul ls : Forall (fun l => 0%Z ∉ l) ls -> (0%Z ∉ lines_text ls).
Proof.
  destruct 1 as [|l ls Hl Hls]; [apply not_elem_of_nil|]. cbn [lines_text]. apply not_elem_of_app. split; [done|].
  intros Hin. apply list_elem_of_join in Hin as (x & Hin & Hx). apply list_elem_of_fmap in Hx as (m & -> & Hm).
  rewrite Forall_forall in Hls. apply elem_of_cons in Hin as [Hin|Hin]; [done|]. by apply (Hls m).
Qed.

Lemma lines_text_utf8 ls : Forall is_utf8 ls -> is_utf8 (lines_text ls).
Proof.
  intros Hls. assert (Forall is_utf8 ((fun m => 10%Z :: m) <$> ls)) as Hb.
  { apply Forall_fmap. eapply Forall_impl; [exact Hls|]. intros m (cps & Hc & ->). exists (10%Z :: cps).
    split; [constructor; [reflexivity|done]|]. by rewrite text_of_cons. }
  destruct Hls as [|l ls Hl Hls]; [by exists []|]. apply Forall_cons in Hb as [_ Hb].
  change (lines_text (l :: ls)) with (mjoin (l :: ((fun m => 10%Z :: m) <$> ls))). by apply join_utf8, Forall_cons.
Qed.

Lemma lines_text_lengths a b : length <$> a = length <$> b -> length (lines_text a) = length (lines_text b).
Proof.
  assert (forall x y : list cstr, length <$> x = length <$> y ->
            length (mjoin ((fun m => 10%Z :: m) <$> x)) = length (mjoin ((fun m => 10%Z :: m) <$> y))) as Hj.
  { induction x as [|m x IH]; intros [|n y] E; try done. cbn [fmap list_fmap mjoin list_join] in *.
    injection E as E1 E2. change (list_join ?l) with (mjoin l). rewrite !length_app. cbn [length].
    change (list_fmap _ _ ?f ?l) with (f <$> l). rewrite E1. f_equal. exact (IH y E2). }
  destruct a as [|m a], b as [|n b]; intros E; try done. cbn [fmap list_fmap] in E. injection E as E1 E2.
  cbn [lines_text]. rewrite !length_app, E1. f_equal. exact (Hj a b E2).
Qed.

Lemma lines_text_count ls : Forall (fun l => 0 < length l) ls -> length ls <= length (lines_text ls).
Proof.
  destruct 1 as [|l ls Hl Hls]; [done|]. cbn [lines_text]. rewrite length_app. cbn [length].
  assert (length ls <= length (mjoin ((fun m => 10%Z :: m) <$> ls))) as Hj.
  { clear. induction ls as [|m ls IH]; [done|]. change (mjoin ((fun m => 10%Z :: m) <$> m :: ls)) with ((10%Z :: m) ++ mjoin ((fun m => 10%Z :: m) <$> ls)).
    rewrite length_app. cbn [length]. lia. }
  lia.
Qed.

(** ** The lines that match *)

Section matches.
Context {F : Type} `{!FileSystem F} `{!Searching F} (regex : cstr -> bool) (fs : F).

(** The matching lines of a file, each with the name of the file and its
    number. *)
Fixpoint line_matches (filename : cstr) (n : nat) (lines : list (list Z)) : list cstr :=
  match lines with
  | [] => []
  | line :: lines =>
      let line := strip_break (until_nul line) in
      (if regex line then [match_text filename (S n) line] else []) ++ line_matches filename (S n) lines
  end.

Definition file_matches (filename : cstr) : list cstr :=
  if is_regular filename fs then
    match fopen_read filename fs with
    | inr f => line_matches filename 0 (get_lines (length (file_bytes f)) (file_bytes f))
    | inl _ => []
    end
  else [].

Definition matches (files : list cstr) : list cstr := mjoin (file_matches <$> files).

End matches.

(** What is copied of a text: the array holds 4095 bytes of it and a NUL. *)
Definition copied (text : cstr) : cstr := take (length text) (snprintf 4096 text ++ [0%Z]).
Definition in_array (text : cstr) : bool := (length text <=? 4096)%nat.

Lemma copied_short text : length text < 4096 -> copied text = text.
Proof.
  intros Hl. unfold copied, snprintf. change (4096 - 1) with 4095. rewrite (take_ge text) by lia. by rewrite take_app_length.
Qed.

Lemma copied_length text : length text <= 4096 -> length (copied text) = length text.
Proof. intros Hl. unfold copied, snprintf. change (4096 - 1) with 4095. rewrite length_take, length_app, length_take. change (length [0%Z]) with 1. lia. Qed.

Lemma copied_lengths ls : forallb in_array ls = true -> length <$> (copied <$> ls) = length <$> ls.
Proof.
  induction ls as [|l ls IH]; [done|]. cbn [forallb]. intros [Hl Hls]%andb_true_iff. apply Nat.leb_le in Hl.
  rewrite !fmap_cons, copied_length by done. by rewrite IH.
Qed.

(** ** The output as it grows *)

Section growing.
Context `{!Allocator} `{!AllocatorSpec} (stack : list Z) (Hstack : length stack = 4096).

(** The state after some matches. *)
Definition at_matches (ms : list cstr) (st : grep_state) : Prop :=
  (exists junk, output st = lines_text ms ++ 0%Z :: junk) /\ output_size st = length (lines_text ms) /\
  output_buffer_size st = length (output st) /\ (Z.of_nat (length (output st)) <= 2 ^ 31)%Z /\ match_count st = length ms.

Definition sep (ms : list cstr) : cstr := if (0 <? length ms)%nat then [10%Z] else [].

Lemma lines_text_snoc ms m : lines_text (ms ++ [m]) = (lines_text ms ++ sep ms) ++ m.
Proof.
  destruct ms as [|x ms]; [cbn; by rewrite app_nil_r|]. rewrite lines_text_app by done. cbn [fmap list_fmap mjoin list_join]. rewrite app_nil_r.
  by rewrite <- app_assoc.
Qed.

(** The array after snprintf. *)
Lemma match_line_ok text : exists rest, mem_write 0 (snprintf 4096 text ++ [0%Z]) stack = Ret ((snprintf 4096 text ++ [0%Z]) ++ rest) /\
  length ((snprintf 4096 text ++ [0%Z]) ++ rest) = 4096.
Proof.
  assert (length (snprintf 4096 text ++ [0%Z]) <= 4096) as Hl.
  { unfold snprintf. change (4096 - 1) with 4095. rewrite length_app, length_take. change (length [0%Z]) with 1. lia. }
  rewrite mem_write_ok by lia. change (take 0 stack) with (@nil Z). cbn [app Nat.add]. eexists. split; [reflexivity|].
  rewrite length_app, length_drop. lia.
Qed.

Lemma read_copied text rest : length text <= 4096 -> mem_read 0 (length text) ((snprintf 4096 text ++ [0%Z]) ++ rest) = Ret (copied text).
Proof.
  intros Hl. assert (length text <= length (snprintf 4096 text ++ [0%Z])) as Hs.
  { unfold snprintf. change (4096 - 1) with 4095. rewrite length_app, length_take. change (length [0%Z]) with 1. lia. }
  rewrite mem_read_ok by (rewrite length_app; lia). rewrite drop_0, take_app_le by done. done.
Qed.

Lemma block_grown ms st need : at_matches ms st -> (Z.of_nat need <= 2 ^ 30)%Z ->
  exists junk, grow_block 65 need (output st) (output_buffer_size st) = Ret (lines_text ms ++ junk, length (lines_text ms ++ junk)) /\
    need <= length (lines_text ms ++ junk) /\ (Z.of_nat (length (lines_text ms ++ junk)) <= 2 ^ 31)%Z.
Proof.
  intros ((j & Eo) & _ & -> & Hb & _) Hn. rewrite Eo in *.
  destruct (grow_block_ok 64 need (lines_text ms) (0%Z :: j)) as (junk & E & Hx1 & Hx2); [|len_lia|done|done|].
  { assert (need <= 2 ^ 30) as Hs by (apply Nat2Z.inj_le; rewrite Nat2Z.inj_pow; change (Z.of_nat 2) with 2%Z; change (Z.of_nat 30) with 30%Z; lia).
    pose proof (Nat.pow_le_mono_r 2 30 64 ltac:(lia) ltac:(lia)) as Hp. rewrite length_app. cbn [length].
    revert Hs Hp. generalize (2 ^ 30) (2 ^ 64). intros a b Hs Hp. nia. }
  exists junk. split; [exact E|]. split; [done|]. lia.
Qed.

Lemma add_match_ok ms st filename n line : at_matches ms st ->
  let text := match_text filename n line in
  (Z.of_nat (length (lines_text ms) + length text) + 3 < 2 ^ 30)%Z -> (Z.of_nat (length ms) < 2 ^ 30)%Z ->
  if in_array text then exists st', add_match stack filename n line st = Ret st' /\ at_matches (ms ++ [copied text]) st'
  else add_match stack filename n line st = Undef.
Proof.
  intros Hst text Hl Hm. unfold add_match. fold text. destruct (match_line_ok text) as (rest & -> & Er). cbn [obind].
  rewrite (proj2 (Z.ltb_lt _ _)) by lia. cbn [obind]. pose proof Hst as (_ & Es & _ & _ & Ec).
  destruct (block_grown ms st (output_size st + length text + 2) Hst) as (junk & -> & Hneed & Hb); [lia|]. cbn [obind]. rewrite Es, Ec in *.
  assert (exists junk', (let! (out, size) := if (0 <? length ms)%nat then let! out := mem_write (length (lines_text ms)) [10%Z] (lines_text ms ++ junk) in
                                             Ret (out, S (length (lines_text ms))) else Ret (lines_text ms ++ junk, length (lines_text ms)) in Ret (out, size)) =
            Ret ((lines_text ms ++ sep ms) ++ junk', length (lines_text ms ++ sep ms)) /\ length text < length junk' /\
            length (sep ms) + length junk' = length junk) as (junk' & Esep & Hj & El).
  { rewrite length_app in Hneed. unfold sep. destruct (0 <? length ms)%nat.
    - destruct (write_next (lines_text ms) [10%Z] junk) as (j & -> & Ej); [cbn [length]; lia|]. exists j. cbn [obind length] in *.
      rewrite length_app. cbn [length]. split; [do 2 f_equal; lia|]. lia.
    - exists junk. cbn [obind length]. rewrite app_nil_r. split; [done|]. lia. }
  destruct (if (0 <? length ms)%nat then _ else _) as [[out size]| | | |] eqn:Eif; try done. cbn [obind] in Esep. injection Esep as -> ->.
  cbn [obind]. unfold in_array. destruct (Nat.leb_spec (length text) 4096) as [Hle|Hgt].
  - rewrite read_copied by done. cbn [obind]. destruct (write_next (lines_text ms ++ sep ms) (copied text) junk') as (j1 & -> & E1).
    { rewrite copied_length by done. lia. }
    cbn [obind]. rewrite copied_length in E1 by done. destruct j1 as [|b j1]; [cbn [length] in E1; lia|].
    rewrite <- (copied_length text) by done. rewrite <- length_app. change (b :: j1) with ([b] ++ j1).
    rewrite (mem_write_app _ [0%Z] _ [b] j1) by done. cbn [obind]. rewrite count_up_ok by lia. cbn [obind]. eexists. split; [reflexivity|].
    unfold at_matches. cbn [output output_size output_buffer_size match_count]. rewrite lines_text_snoc.
    split; [by eexists|]. split; [done|]. rewrite !length_app in *. rewrite copied_length in * by done. cbn [length] in *.
    split; [lia|]. split; lia.
  - unfold mem_read. by rewrite decide_False by lia.
Qed.

(** The matches fit in the memory there is. *)
Definition room (ms : list cstr) : Prop := (Z.of_nat (length (lines_text ms)) + 3 < 2 ^ 30)%Z /\ Forall (fun m => 0 < length m) ms.

Lemma room_prefix a b : room (a ++ b) -> room a.
Proof. intros [Hl Hp]. pose proof (lines_text_prefix a b). apply Forall_app in Hp as [Hp _]. split; [lia|done]. Qed.

(** New matches are added, unless one is too long for the array. *)
Definition grown_by (seen new : list cstr) (o : outcome grep_state) : Prop :=
  if forallb in_array new then exists st, o = Ret st /\ at_matches (copied <$> (seen ++ new)) st else o = Undef.

Lemma grown_nothing seen st : at_matches (copied <$> seen) st -> grown_by seen [] (Ret st).
Proof. intros Hst. exists st. by rewrite app_nil_r. Qed.

Lemma grown_then seen a b o k : forallb in_array seen = true -> grown_by seen a o ->
  (forall st, forallb in_array (seen ++ a) = true -> at_matches (copied <$> (seen ++ a)) st -> grown_by (seen ++ a) b (k st)) ->
  grown_by seen (a ++ b) (obind o k).
Proof.
  unfold grown_by. intros Hs Ha Hb. rewrite forallb_app. destruct (forallb in_array a) eqn:Ea; [|by rewrite Ha].
  destruct Ha as (st & -> & Hst). cbn [andb obind]. rewrite app_assoc. apply Hb; [|done]. by rewrite forallb_app, Hs, Ea.
Qed.

Lemma match_grows seen filename n line st : forallb in_array seen = true -> at_matches (copied <$> seen) st ->
  room (seen ++ [match_text filename n line]) -> grown_by seen [match_text filename n line] (add_match stack filename n line st).
Proof.
  intros Hs Hst Hroom. pose proof (room_prefix _ _ Hroom) as [_ Hpos]. destruct Hroom as [Hr _].
  pose proof (lines_text_count _ Hpos) as Hc. pose proof (lines_text_prefix seen [match_text filename n line]) as Hpre.
  rewrite lines_text_snoc, !length_app in Hr. pose proof (lines_text_lengths _ _ (copied_lengths _ Hs)) as El.
  unfold grown_by. cbn [forallb]. rewrite andb_true_r, fmap_app.
  apply add_match_ok; [done|rewrite El; lia|rewrite length_fmap; lia].
Qed.

Lemma grep_lines_ok regex filename lines : forall n seen st, (Z.of_nat (n + length lines) < 2 ^ 31 - 1)%Z ->
  forallb in_array seen = true -> at_matches (copied <$> seen) st -> room (seen ++ line_matches regex filename n lines) ->
  grown_by seen (line_matches regex filename n lines) (grep_lines stack regex filename lines n st).
Proof.
  induction lines as [|line lines IH]; intros n seen st Hn Hs Hst Hroom; cbn [grep_lines line_matches] in *; [by apply grown_nothing|].
  cbn [length] in Hn. rewrite count_up_ok by lia. cbn [obind]. set (t := strip_break (until_nul line)) in *.
  apply grown_then; [done| |].
  - destruct (regex t); [|by apply grown_nothing]. apply match_grows; [done|done|]. rewrite app_assoc in Hroom. by eapply room_prefix.
  - intros st1 Hs1 Hst1. apply IH; [lia|done|done|]. by rewrite <- app_assoc.
Qed.

End growing.

Lemma get_lines_count n s : length (get_lines n s) <= n.
Proof.
  revert s. induction n as [|n IH]; intros [|c s]; cbn [get_lines length]; try lia. destruct (next_line (c :: s)) as [l r].
  cbn [length]. specialize (IH r). lia.
Qed.

Section tool_lemmas.
Context `{!Allocator} `{!AllocatorSpec} `{!Yyjson} `{!YyjsonSpec} {F : Type} `{!FileSystem F} `{!Searching F}.

Lemma found_ok (out : cstr) (count : Z) : is_utf8 out -> (- 2 ^ 63 <= count < 2 ^ 64)%Z ->
  exists r, print_found out count = Ret r /\ prints [(lit "output", JStr out); (lit "count", JInt count)] r.
Proof.
  intros Hu Hc. apply json_printed. constructor. apply Forall_cons; split; [split; [by apply lit_key|by constructor]|].
  apply Forall_singleton. split; [by apply lit_key|by constructor].
Qed.

(** A pattern put together in a block of its size. *)
Lemma formatted_ok size s : size = length s + 1 -> (0%Z ∉ s) -> (Z.of_nat size < 2 ^ 32)%Z -> formatted size s = Ret s.
Proof.
  intros -> Hs Hl. unfold formatted. rewrite wrap32_small by lia. destruct (realloc_some [] (length s + 1)) as [block E].
  pose proof (realloc_length _ _ _ E) as El. rewrite E. cbn [or_panic obind]. unfold snprintf. rewrite take_ge by lia.
  rewrite mem_write_ok by (rewrite length_app; cbn [length]; lia). cbn [obind]. change (take 0 block) with (@nil Z).
  cbn [app]. rewrite <- app_assoc. cbn [app]. by rewrite c_string_app.
Qed.

(** ** The paths *)

Lemma lines_text_cons p paths : lines_text (p :: paths) = p ++ match paths with [] => [] | _ => 10%Z :: lines_text paths end.
Proof. cbn [lines_text]. by destruct paths. Qed.

Lemma output_size_lines paths : output_size_of paths = length (lines_text paths).
Proof.
  induction paths as [|p paths IH]; [done|]. cbn [output_size_of]. rewrite IH, lines_text_cons, length_app. destruct paths; [cbn; lia|cbn [length]; lia].
Qed.

Lemma copy_paths_ok paths : forall seen junk, length (lines_text paths) < length junk ->
  exists junk', copy_paths paths (length seen) (seen ++ junk) = Ret ((seen ++ lines_text paths) ++ junk', length (seen ++ lines_text paths)) /\ junk' <> [].
Proof.
  induction paths as [|p paths IH]; intros seen junk Hl; cbn [copy_paths].
  { exists junk. rewrite !app_nil_r. split; [done|]. intros ->. cbn [length] in Hl. lia. }
  pose proof (lines_text_cons p paths) as Et. rewrite Et, length_app in Hl. destruct (write_next seen p junk) as (j & -> & Ej); [lia|]. cbn [obind]. rewrite <- length_app, Et.
  destruct paths as [|p' paths].
  - exists j. rewrite app_nil_r. split; [done|]. intros ->. cbn [length] in *. lia.
  - cbn [length] in Hl. destruct (write_next (seen ++ p) [10%Z] j) as (j2 & -> & E2); [cbn [length]; lia|]. cbn [obind length] in *.
    replace (S (length (seen ++ p))) with (length ((seen ++ p) ++ [10%Z])) by (rewrite (length_app (seen ++ p)); cbn [length]; lia).
    destruct (IH ((seen ++ p) ++ [10%Z]) j2) as (junk' & E & Hne); [lia|]. exists junk'. split; [|done]. rewrite E. by rewrite <- !app_assoc.
Qed.

(** ** What matches is text *)

Lemma strip_break_no_nul l : (0%Z ∉ l) -> (0%Z ∉ strip_break l).
Proof.
  intros Hl. assert (forall n, 0%Z ∉ take n l) as Ht by (intros n Hin; apply Hl; rewrite <- (take_drop n l); apply elem_of_app; by left).
  unfold strip_break. repeat case_match; try done; apply Ht.
Qed.

Lemma match_text_ok filename n line : (0%Z ∉ filename) -> (0%Z ∉ line) ->
  (0%Z ∉ match_text filename n line) /\ 0 < length (match_text filename n line).
Proof.
  intros Hf Hl. unfold match_text. split.
  - assert (0%Z ∉ show_int (Z.of_nat n)) as Hi.
    { intros Hin. pose proof (show_int_printable (Z.of_nat n)) as Hp. rewrite Forall_forall in Hp. apply Hp in Hin. lia. }
    rewrite !not_elem_of_app. split; [done|]. split; [apply (bool_decide_unpack _); vm_compute; exact I|]. split; [done|].
    split; [apply (bool_decide_unpack _); vm_compute; exact I|done].
  - rewrite !length_app. change (length (lit ":")) with 1. lia.
Qed.

Lemma line_matches_text regex filename lines : (0%Z ∉ filename) -> forall n,
  Forall (fun m => (0%Z ∉ m) /\ 0 < length m) (line_matches regex filename n lines).
Proof.
  intros Hf. induction lines as [|line lines IH]; intros n; cbn [line_matches]; [constructor|]. apply Forall_app. split; [|apply IH].
  destruct (regex _); [|constructor]. apply Forall_singleton, match_text_ok; [done|]. apply strip_break_no_nul, until_nul_no_nul.
Qed.

Lemma matches_text regex fs files : Forall (fun name => 0%Z ∉ name) files ->
  Forall (fun m => (0%Z ∉ m) /\ 0 < length m) (matches regex fs files).
Proof.
  induction 1 as [|name files Hname _ IH]; [constructor|].
  change (matches regex fs (name :: files)) with (file_matches regex fs name ++ matches regex fs files). apply Forall_app. split; [|done].
  unfold file_matches. repeat case_match; try constructor. by apply line_matches_text.
Qed.

(** The pattern of the files to search. *)
Definition search_glob (glob path : option cstr) : cstr :=
  match path with Some (c :: p) => c :: p | _ => lit "." end ++ lit "/" ++ match glob with Some (c :: g) => c :: g | _ => lit "*" end.

Lemma file_glob_ok (path g : cstr) size : size = length path + length g + 2 -> (0%Z ∉ path) -> (0%Z ∉ g) -> (Z.of_nat size < 2 ^ 32)%Z ->
  formatted size (path ++ lit "/" ++ g) = Ret (path ++ lit "/" ++ g).
Proof.
  intros -> Hp Hg Hl. apply formatted_ok; [rewrite !length_app; change (length (lit "/")) with 1; lia| |lia].
  rewrite !not_elem_of_app. split; [done|]. split; [apply (bool_decide_unpack _); vm_compute; exact I|done].
Qed.

End tool_lemmas.

(** ** The whole search *)

Section searching.
Context `{!Allocator} `{!AllocatorSpec} {F : Type} `{!FileSystem F} `{!Searching F}.
Context (stack : list Z) (Hstack : length stack = 4096).

(** No file has 2^30 bytes. *)
Definition small_files (fs : F) (files : list cstr) : Prop :=
  Forall (fun name => forall f, fopen_read name fs = inr f -> (Z.of_nat (length (file_bytes f)) < 2 ^ 30)%Z) files.

Lemma grep_files_ok regex fs files : small_files fs files -> forall seen st, forallb in_array seen = true ->
  at_matches (copied <$> seen) st -> room (seen ++ matches regex fs files) ->
  grown_by seen (matches regex fs files) (grep_files stack regex fs files st).
Proof.
  induction 1 as [|name files Hname _ IH]; intros seen st Hs Hst Hroom; [by apply grown_nothing|].
  change (matches regex fs (name :: files)) with (file_matches regex fs name ++ matches regex fs files) in *.
  cbn [grep_files]. unfold file_matches in *. destruct (is_regular name fs); cbn [negb]; [|by apply IH].
  destruct (fopen_read name fs) as [e|f] eqn:Ef; [by apply IH|]. specialize (Hname f eq_refl).
  pose proof (get_lines_count (length (file_bytes f)) (file_bytes f)) as Hlines.
  apply grown_then; [done| |].
  - apply grep_lines_ok; [done|lia|done|done|]. rewrite app_assoc in Hroom. by eapply room_prefix.
  - intros st1 Hs1 Hst1. apply IH; [done|done|]. by rewrite <- app_assoc.
Qed.

Lemma search_ok regex fs files pattern glob path : regcomp pattern = inr regex ->
  (forall g, glob = Some g -> 0%Z ∉ g) -> (forall p, path = Some p -> 0%Z ∉ p) -> (Z.of_nat (length (search_glob glob path)) < 2 ^ 31)%Z ->
  glob_ (search_glob glob path) fs = GlobFound files -> small_files fs files -> room (matches regex fs files) ->
  exists o, grown_by [] (matches regex fs files) o /\
    grep_search stack pattern glob path fs = (let! st := o in let! text := c_string (output st) in Ret (Some (text, match_count st))).
Proof.
  intros Hre Hg Hp Hl Hfiles Hsmall Hroom. unfold grep_search. rewrite Hre.
  assert (0%Z ∉ match path with Some (c :: p) => c :: p | _ => lit "." end) as Hp'.
  { destruct path as [[|c p]|]; [apply (bool_decide_unpack _); vm_compute; exact I|by apply Hp|apply (bool_decide_unpack _); vm_compute; exact I]. }
  unfold search_glob in Hl, Hfiles. set (path' := match path with Some (c :: p) => c :: p | _ => lit "." end) in *.
  rewrite !length_app in Hl. change (length (lit "/")) with 1 in Hl.
  assert (match glob with Some (c :: g) => formatted (length path' + length (c :: g) + 2) (path' ++ lit "/" ++ c :: g)
          | _ => formatted (length path' + 3) (path' ++ lit "/*") end =
          Ret (path' ++ lit "/" ++ match glob with Some (c :: g) => c :: g | _ => lit "*" end)) as ->.
  { destruct glob as [[|c g]|].
    - apply (file_glob_ok path' (lit "*")); [cbn; lia|done|apply (bool_decide_unpack _); vm_compute; exact I|lia].
    - apply file_glob_ok; [done|done|by apply Hg|lia].
    - apply (file_glob_ok path' (lit "*")); [cbn; lia|done|apply (bool_decide_unpack _); vm_compute; exact I|lia]. }
  cbn [obind]. rewrite Hfiles. destruct (realloc_some [] 4096) as [block Eb]. pose proof (realloc_length _ _ _ Eb) as El. rewrite Eb.
  destruct block as [|b block]; [done|]. pose proof (mem_write_app 0 [0%Z] [] [b] block eq_refl eq_refl) as Ew. cbn [app] in Ew.
  cbn [or_panic obind]. rewrite Ew. cbn [obind].
  eexists. split; [|reflexivity]. apply grep_files_ok; [done|done| |done].
  unfold at_matches. cbn [output output_size output_buffer_size match_count fmap list_fmap lines_text app].
  split; [by eexists|]. cbn [length] in *. split; [done|]. split; [done|]. split; [lia|done].
Qed.

End searching.

(** Matches that fit in the array. *)
Lemma short_matches ms : Forall (fun m => length m < 4096) ms -> forallb in_array ms = true /\ copied <$> ms = ms.
Proof.
  induction 1 as [|m ms Hm _ [IH1 IH2]]; [done|]. cbn [forallb]. rewrite fmap_cons, IH1, IH2, copied_short by done.
  unfold in_array. by rewrite (proj2 (Nat.leb_le _ _)) by lia.
Qed.

Module SearchToolProps.

Section props.
Context `{!Allocator} `{!AllocatorSpec} `{!Yyjson} `{!YyjsonSpec} {F : Type} `{!FileSystem F} `{!Searching F}.

(** C26: what grep prints.  As long as every match "file:number: text" fits in
    an array of 4096 bytes with its terminator: when they are all UTF-8, grep
    prints every matching line, one to a line, in the order of the files and of
    their lines, with their number; when the JSON writer refuses the text, as it
    does when a match is not UTF-8, the tool panics and prints nothing.  A match
    of more than 4096 bytes makes it read past the array.  The pattern compiles,
    and the input, each file and all the output are smaller than 2^30 bytes. *)
Theorem grep_prints_matches (stack : list Z) (prog pattern input : cstr) (o : fields) (regex : cstr -> bool) (fs : F) (files : list cstr) :
  let ms := matches regex fs files in
  let glob := yyjson_get_str (find_field o (lit "glob")) in
  let path := yyjson_get_str (find_field o (lit "path")) in
  let found := [(lit "output", JStr (lines_text ms)); (lit "count", JInt (Z.of_nat (length ms)))] in
  length stack = 4096 -> yyjson_read input = Some (JObj o) -> (Z.of_nat (length input) < 2 ^ 30)%Z ->
  yyjson_get_str (find_field o (lit "pattern")) = Some pattern -> regcomp pattern = inr regex ->
  (Z.of_nat (length (search_glob glob path)) < 2 ^ 31)%Z -> glob_ (search_glob glob path) fs = GlobFound files ->
  Forall (fun name => 0%Z ∉ name) files -> small_files fs files -> (Z.of_nat (length (lines_text ms)) + 3 < 2 ^ 30)%Z ->
  (Forall (fun m => length m < 4096) ms -> Forall is_utf8 ms ->
   exists out, grep_main stack [prog] input fs = (Ret out, fs) /\ prints found out) /\
  (Forall (fun m => length m < 4096) ms -> yyjson_write (JObj found) = None ->
   grep_main stack [prog] input fs = (Panic, fs)) /\
  (Exists (fun m => 4096 < length m) ms -> grep_main stack [prog] input fs = (Undef, fs)).
Proof.
  intros ms glob path found Hstack Hin Hlin Hpat Hre Hlg Hfiles Hnames Hsmall Hlen.
  pose proof (matches_text regex fs files Hnames) as Htext. fold ms in Htext. apply Forall_and in Htext as [Hnul Hpos].
  unfold grep_main. rewrite (tool_main_ok _ _ _ _ _ _ _ Hin Hlin). unfold required_string, optional_string. cbn [yyjson_obj_get].
  rewrite Hpat. fold glob path. unfold grep_execute. rewrite Hre.
  assert (forall v s, yyjson_get_str v = Some s -> 0%Z ∉ s) as Hstr.
  { intros v s Hs. destruct v as [[]|]; try done. injection Hs as <-. apply until_nul_no_nul. }
  destruct (search_ok stack Hstack regex fs files pattern glob path) as (st & Hst & ->);
    [done|intros g Eg; by eapply Hstr|intros p Ep; by eapply Hstr|done|done|done|by split|].
  unfold grown_by in Hst. fold ms in Hst.
  assert (Forall (fun m => length m < 4096) ms -> exists st', st = Ret st' /\ match_count st' = length ms /\
            c_string (output st') = Ret (lines_text ms)) as Hfit.
  { intros Hms. destruct (short_matches ms Hms) as [Ef Ec]. rewrite Ef in Hst. cbn [app] in Hst.
    destruct Hst as (st' & -> & (junk & Eo) & _ & _ & _ & Ecount). rewrite Ec in *. exists st'. split; [done|]. split; [done|].
    rewrite Eo. by rewrite c_string_app by (by apply lines_text_no_nul). }
  pose proof (lines_text_count _ Hpos) as Hc. split; [|split].
  - intros Hms Hutf. destruct (Hfit Hms) as (st' & -> & Ecount & Eo). cbn [obind]. rewrite Eo. cbn [obind]. rewrite Ecount.
    destruct (found_ok (lines_text ms) (Z.of_nat (length ms))) as (r & -> & Hr); [by apply lines_text_utf8|lia|]. by exists r.
  - intros Hms Hw. destruct (Hfit Hms) as (st' & -> & Ecount & Eo). cbn [obind]. rewrite Eo. cbn [obind]. rewrite Ecount.
    unfold print_found, print_json. by change (JObj (put_val _ _ _)) with (JObj found); rewrite Hw.
  - intros Hms. assert (forallb in_array ms = false) as Ef.
    { clear -Hms. induction Hms as [m ms Hm|m ms _ IH]; cbn [forallb]; [|by rewrite IH, andb_false_r].
      unfold in_array. by rewrite (proj2 (Nat.leb_gt _ _)) by lia. }
    rewrite Ef in Hst. by rewrite Hst.
Qed.

(** glob prints the paths it finds, one on a line and none after the last,
    with their number; with none it prints nothing and 0. *)
Theorem glob_prints_paths (prog pattern input : cstr) (o : fields) (fs : F) (paths : list cstr) :
  let path := yyjson_get_str (find_field o (lit "path")) in
  let full := match path with None | Some [] => pattern | Some p => p ++ lit "/" ++ pattern end in
  yyjson_read input = Some (JObj o) -> (Z.of_nat (length input) < 2 ^ 30)%Z ->
  yyjson_get_str (find_field o (lit "pattern")) = Some pattern -> (Z.of_nat (length full) < 2 ^ 31)%Z ->
  (glob_ full fs = GlobFound paths \/ (glob_ full fs = GLOB_NOMATCH /\ paths = [])) ->
  Forall (fun p => (0%Z ∉ p) /\ is_utf8 p /\ 0 < length p) paths -> (Z.of_nat (length (lines_text paths)) < 2 ^ 31 - 1)%Z ->
  exists out, glob_main [prog] input fs = (Ret out, fs) /\
    prints [(lit "output", JStr (lines_text paths)); (lit "count", JInt (Z.of_nat (length paths)))] out.
Proof.
  intros path full Hin Hlin Hpat Hlf Hglob Hpaths Hlen. apply Forall_and in Hpaths as [Hnul [Hutf Hpos]%Forall_and].
  unfold glob_main. rewrite (tool_main_ok _ _ _ _ _ _ _ Hin Hlin). unfold required_string, optional_string. cbn [yyjson_obj_get].
  rewrite Hpat. fold path. unfold glob_execute.
  assert (forall v s, yyjson_get_str v = Some s -> 0%Z ∉ s) as Hstr.
  { intros v s Hs. destruct v as [[]|]; try done. injection Hs as <-. apply until_nul_no_nul. }
  assert (glob_pattern pattern path = Ret full) as ->.
  { unfold glob_pattern, full in *. destruct path as [[|c p]|] eqn:Ep; [done| |done].
    rewrite !length_app in Hlf. change (length (lit "/")) with 1 in Hlf. apply file_glob_ok; [done|by eapply Hstr|by eapply Hstr|lia]. }
  cbn [obind].
  assert (exists r, (let! output := or_panic (talloc_realloc [] (wrap32 (output_size_of paths + 1))) in
                     let! (output, pos) := copy_paths paths 0 output in let! output := mem_write pos [0%Z] output in
                     let! output := c_string output in print_found output (int32_wrap (Z.of_nat (length paths)))) = Ret r /\
                    prints [(lit "output", JStr (lines_text paths)); (lit "count", JInt (Z.of_nat (length paths)))] r) as (r & Er & Hr).
  { rewrite output_size_lines, wrap32_small by lia. destruct (realloc_some [] (length (lines_text paths) + 1)) as [block Eb].
    pose proof (realloc_length _ _ _ Eb) as El. rewrite Eb. cbn [or_panic obind].
    destruct (copy_paths_ok paths [] block) as (junk & E & Hne); [lia|]. cbn [length app] in E. rewrite E. cbn [obind].
    destruct junk as [|b junk]; [done|]. change (b :: junk) with ([b] ++ junk). rewrite (mem_write_app _ [0%Z] _ [b] junk) by done.
    cbn [obind app]. rewrite c_string_app by (by apply lines_text_no_nul). cbn [obind].
    pose proof (lines_text_count _ Hpos) as Hc. rewrite int32_wrap_small by lia. apply found_ok; [by apply lines_text_utf8|lia]. }
  exists r. split; [|exact Hr]. rewrite <- Er. by destruct Hglob as [-> | [-> ->]].
Qed.

End props.
End SearchToolProps.

Module SearchToolExamples.
Import ZeroAlloc CodedJson MemoryFiles SearchToolProps.

(** One file in the current directory, and patterns that are plain text. *)
#[local] Instance plain_search : Searching files := {
  glob_ g _ := if strcmp_eq g (lit "./*") then GlobFound [lit "f"] else GLOB_NOMATCH;
  regcomp p := inr (fun line => match strstr line p with Some _ => true | None => false end);
  is_regular _ _ := true
}.

Definition text_of_json (v : json) : cstr := default [] (yyjson_write v).
Definition query : fields := [(lit "pattern", JStr (lit "ab"))].
Definition has_ab (line : cstr) : bool := match strstr line (lit "ab") with Some _ => true | None => false end.
Definition stack_bytes : list Z := replicate 4096 7%Z.

(** Two lines of three match; a file with one line of 5000 bytes. *)
Definition three_lines : files := {[ lit "f" := lit "abc" ++ [10%Z] ++ lit "xyz" ++ [10%Z] ++ lit "zab" ]}.
Definition long_line : files := {[ lit "f" := replicate 5000 97%Z ++ lit "b" ]}.

Lemma grep_prints_matches_witness :
  (exists out, grep_main stack_bytes [lit "grep"] (text_of_json (JObj query)) three_lines = (Ret out, three_lines) /\
     prints [(lit "output", JStr (lit "f:1: abc" ++ [10%Z] ++ lit "f:3: zab")); (lit "count", JInt 2)] out) /\
  grep_main stack_bytes [lit "grep"] (text_of_json (JObj query)) long_line = (Undef, long_line).
Proof.
  split.
  - destruct (grep_prints_matches stack_bytes (lit "grep") (lit "ab") (text_of_json (JObj query)) query has_ab three_lines [lit "f"]) as [Hok _].
    + reflexivity.
    + by apply write_read.
    + apply Z.ltb_lt; vm_compute; reflexivity.
    + reflexivity.
    + reflexivity.
    + by apply Z.ltb_lt.
    + reflexivity.
    + apply (bool_decide_unpack _); vm_compute; exact I.
    + apply Forall_singleton. intros f [= <-]. by apply Z.ltb_lt.
    + apply Z.ltb_lt; vm_compute; reflexivity.
    + apply Hok; [apply (bool_decide_unpack _); vm_compute; exact I|].
      repeat (apply Forall_cons; split; [apply ascii_utf8; apply (bool_decide_unpack _); vm_compute; exact I|]). by apply Forall_nil.
  - destruct (grep_prints_matches stack_bytes (lit "grep") (lit "ab") (text_of_json (JObj query)) query has_ab long_line [lit "f"]) as (_ & _ & Hbad).
    + reflexivity.
    + by apply write_read.
    + apply Z.ltb_lt; vm_compute; reflexivity.
    + reflexivity.
    + reflexivity.
    + by apply Z.ltb_lt.
    + reflexivity.
    + apply (bool_decide_unpack _); vm_compute; exact I.
    + apply Forall_singleton. intros f [= <-]. by apply Z.ltb_lt.
    + apply Z.ltb_lt; vm_compute; reflexivity.
    + apply Hbad. apply (bool_decide_unpack _); vm_compute; exact I.
Defined.

Lemma glob_prints_paths_witness : exists out,
  glob_main [lit "glob"] (text_of_json (JObj [(lit "pattern", JStr (lit "*")); (lit "path", JStr (lit "."))])) (∅ : files) = (Ret out, ∅) /\
  prints [(lit "output", JStr (lit "f")); (lit "count", JInt 1)] out.
Proof.
  apply (glob_prints_paths (lit "glob") (lit "*") (text_of_json (JObj [(lit "pattern", JStr (lit "*")); (lit "path", JStr (lit "."))]))
           [(lit "pattern", JStr (lit "*")); (lit "path", JStr (lit "."))] ∅ [lit "f"]).
  - by apply write_read.
  - apply Z.ltb_lt; vm_compute; reflexivity.
  - reflexivity.
  - by apply Z.ltb_lt.
  - by left.
  - apply Forall_singleton. split; [apply (bool_decide_unpack _); vm_compute; exact I|]. split; [by apply lit_utf8|cbn; lia].
  - by apply Z.ltb_lt.
Defined.

End SearchToolExamples.
