(* ===== verification/AgentCommands.v ===== *)
(** * Killing and reaping agents (commands_kill.c, commands_reap.c)

    /kill marks an agent and all that descend from it as dead, in the database
    and in memory; /reap takes dead agents out of the array of running agents.
    Both may change which agent is shown. *)

From Stdlib Require Import String.
From stdpp Require Import strings gmap.
From S2P Require Import Prelude Slots CString OutputStyle Scrollback EventRender Layers AgentLayers Database AgentTree.

(** The agents of the program: their array, which of them are flagged as dead,
    and the lines appended to their scrollbacks, in order. *)
Record agents_state := mk_agents {
  tree : agent_tree;
  dead : gset nat;
  said : list (nat * cstr)
}.

Definition with_tree t s := mk_agents t (dead s) (said s).
Definition set_dead (a : tree_agent) s := mk_agents (tree s) ({[addr a]} ∪ dead s) (said s).
Definition say (a : tree_agent) (line : cstr) s := mk_agents (tree s) (dead s) (said s ++ [(addr a, line)]).
Definition is_dead (s : agents_state) (a : tree_agent) : bool := bool_decide (addr a ∈ dead s).

(** A text printed into an array of [n] bytes, or a panic. *)
Definition bounded (n : nat) (s : cstr) : outcome cstr := if (length s <? n)%nat then Ret s else Panic.

Section commands.
Context `{!SlotAllocator} `{!AnsiColors} {DB : Type} `{!Libpq DB}.

(** PQtransactionStatus == PQTRANS_IDLE; time(NULL) when an agent's row is
    marked. *)
Context (transaction_idle : DB -> bool) (now : cstr -> Z) (session_id : Z).

Definition cmd (A : Type) : Type := dbm (DB * agents_state) A.

Definition on_db {A} (m : dbm DB A) : cmd A := fun st => let '(d, s) := st in let '(o, d) := m d in (o, (d, s)).
Definition get_state : cmd agents_state := fun st => (Ret (snd st), st).
Definition get_db : cmd DB := fun st => (Ret (fst st), st).
Definition modify (f : agents_state -> agents_state) : cmd unit := fun st => (Ret tt, (fst st, f (snd st))).
Definition tell (a : tree_agent) (line : cstr) : cmd unit := modify (say a line).
Definition on_tree (f : agent_tree -> outcome agent_tree) : cmd unit :=
  do! s := get_state in do! t := dlift (f (tree s)) in modify (with_tree t).

(** "if (is_err(&res)) { handler(); return res; }" *)
Definition or_undo (m handler : cmd unit) : cmd unit :=
  fun st => match m st with
            | (Fail e, st) => match handler st with (Ret _, st) | (Fail _, st) => (Fail e, st) | r => r end
            | r => r
            end.

Definition ik_db_begin : dbm DB unit := command_ (lit "BEGIN") [].
Definition ik_db_commit : dbm DB unit := command_ (lit "COMMIT") [].
Definition ik_db_rollback : dbm DB unit := command_ (lit "ROLLBACK") [].

(** The agent shown; NULL is dereferenced. *)
Definition the_current : cmd tree_agent := do! s := get_state in dlift (match current_agent (tree s) with Some c => Ret c | None => Undef end).

(** ** Descendants *)

Definition child_of (u : cstr) (a : tree_agent) : bool := match parent_of a with Some p => strcmp_eq p u | None => false end.

(** The loop over [n] agents from the [i]-th on; [descend] is the recursive
    call, [max] the room in [out]. *)
Fixpoint scan_children (descend : cstr -> nat -> outcome (list tree_agent)) (r : agent_tree) (u : cstr) (max n i : nat)
    (out : list tree_agent) : outcome (list tree_agent) :=
  match n with
  | 0 => Ret out
  | S n =>
      if (length out <? max)%nat then
        let! a := arr_get (agents r) i in
        if child_of u a then
          let! below := descend (uuid a) (max - length out) in
          let out := out ++ below in
          let out := if (length out <? max)%nat then out ++ [a] else out in
          scan_children descend r u max n (S i) out
        else scan_children descend r u max n (S i) out
      else Ret out
  end.

Fixpoint collect_descendants (fuel : nat) (r : agent_tree) (u : cstr) (max : nat) : outcome (list tree_agent) :=
  match fuel with
  | 0 => NoFuel
  | S fuel => scan_children (collect_descendants fuel r) r u max (agent_count r) 0 []
  end.

Definition descendants (r : agent_tree) (u : cstr) (max : nat) : outcome (list tree_agent) :=
  collect_descendants (S (agent_count r)) r u max.

(** ** /kill *)

Fixpoint for_each (l : list tree_agent) (f : tree_agent -> cmd unit) : cmd unit :=
  match l with [] => dret tt | a :: l => do! _ := f a in for_each l f end.

Definition kill_metadata (u : cstr) (count : nat) : cstr :=
  lit "{" ++ quoted_text (lit "killed_by") ++ lit ": " ++ quoted_text (lit "user") ++ lit ", " ++ quoted_text (lit "target") ++ lit ": " ++
  quoted_text u ++ lit ", " ++ quoted_text (lit "cascade") ++ lit ": true, " ++ quoted_text (lit "count") ++ lit ": " ++
  show_int (Z.of_nat count) ++ lit "}".

(** "if (can_notify && agent->parent_uuid != NULL) ik_db_notify(...)" *)
Definition notify_parent (can_notify : bool) (a : tree_agent) : cmd unit :=
  match can_notify, parent_of a with
  | true, Some p => do! channel := dlift (bounded 128 (lit "agent_event_" ++ p)) in on_db (ik_db_notify channel (lit "dead"))
  | _, _ => dret tt
  end.

Definition kill_one (can_notify : bool) (line : cstr) (a : tree_agent) : cmd unit :=
  do! _ := modify (set_dead a) in
  do! msg := dlift (bounded 64 line) in
  do! _ := tell a msg in
  notify_parent can_notify a.

(** The last part: what is shown afterwards. *)
Definition show_after_kill (target : option tree_agent) (killing_current : bool) (u : cstr) (count : nat) : cmd unit :=
  match target with
  | Some (mk_tree_agent _ _ (Some p) _) =>
      if killing_current then
        do! s := get_state in
        do! parent := dlift (ik_repl_find_agent (tree s) p) in
        match parent with
        | None => dlift (Fail ERR_INVALID_ARG)
        | Some parent =>
            do! _ := on_tree (fun t => ik_repl_switch_agent t (Some parent)) in
            do! msg := dlift (bounded 64 (lit "Agent " ++ take 22 u ++ lit " terminated")) in
            tell parent msg
        end
      else
        do! msg := dlift (bounded 64 (lit "Killed " ++ show_int (Z.of_nat (count + 1)) ++ lit " agents")) in
        do! c := the_current in tell c msg
  | _ =>
      do! msg := dlift (bounded 64 (lit "Killed " ++ show_int (Z.of_nat (count + 1)) ++ lit " agents")) in
      do! c := the_current in tell c msg
  end.

(** From BEGIN to COMMIT. *)
Definition kill_rows (u : cstr) (victims : list tree_agent) : cmd unit :=
  do! _ := for_each victims (fun a => or_undo (on_db (ik_db_agent_mark_dead (now (uuid a)) (uuid a))) (on_db ik_db_rollback)) in
  do! _ := or_undo (on_db (ik_db_agent_mark_dead (now u) u)) (on_db ik_db_rollback) in
  do! c := the_current in
  do! _ := or_undo (on_db (ik_db_message_insert session_id (Some (uuid c)) (lit "agent_killed") None
                             (Some (kill_metadata u (length victims + 1))))) (on_db ik_db_rollback) in
  on_db ik_db_commit.

Definition cmd_kill_cascade (u : cstr) : cmd unit :=
  do! _ := on_db ik_db_begin in
  do! s := get_state in
  do! victims := dlift (descendants (tree s) u 256) in
  let count := length victims in
  do! _ := kill_rows u victims in
  do! d := get_db in
  let can_notify := transaction_idle d in
  do! target := dlift (ik_repl_find_agent (tree s) u) in
  let killing_current := match target, current_agent (tree s) with
                         | Some a, Some c => same_agent a c
                         | None, None => true
                         | _, _ => false
                         end in
  do! _ := match target with
           | Some a => kill_one can_notify (lit "Agent killed (cascade, " ++ show_int (Z.of_nat (count + 1)) ++ lit " total)") a
           | None => dret tt
           end in
  do! _ := for_each victims (kill_one can_notify (lit "Agent killed (cascade)")) in
  show_after_kill target killing_current u count.

Definition warn (text : string) : cmd unit := do! c := the_current in tell c (ik_scrollback_format_warning (lit text)).

(** The warning for an identifier that names no agent. *)
Definition warn_not_found (u : cstr) : cmd unit :=
  do! s := get_state in
  do! ambiguous := dlift (ik_repl_uuid_ambiguous (tree s) u) in
  if ambiguous then warn "Ambiguous UUID prefix" else warn "Agent not found".

(** [fork_pending] is waited for as long as it is set. *)
Definition ik_cmd_kill (fork_pending : bool) (args : option cstr) : cmd unit :=
  if fork_pending then dlift NoFuel
  else
    match args with
    | None | Some [] =>
        do! c := the_current in
        match parent_of c with
        | None => warn "Cannot kill root agent"
        | Some _ => cmd_kill_cascade (uuid c)
        end
    | Some uuid_arg =>
        do! s := get_state in
        do! target := dlift (ik_repl_find_agent (tree s) uuid_arg) in
        match target with
        | None => warn_not_found uuid_arg
        | Some a =>
            match parent_of a with
            | None => warn "Cannot kill root agent"
            | Some _ => cmd_kill_cascade (uuid a)
            end
        end
    end.

(** ** /reap *)











End commands.

(** ** Descendants, specified *)

Section family.
Context (l : list tree_agent).

Inductive descends (u : cstr) : tree_agent -> Prop :=
| descends_child a : a ∈ l -> parent_of a = Some u -> descends u a
| descends_below a b : descends u b -> a ∈ l -> parent_of a = Some (uuid b) -> descends u a.

(** Parents come before their children in some order. *)
Definition ordered (rank : cstr -> nat) : Prop :=
  forall a, a ∈ l -> rank (uuid a) < length l /\ forall b, b ∈ l -> parent_of a = Some (uuid b) -> rank (uuid b) < rank (uuid a).

Definition forest : Prop := exists rank, ordered rank.

Lemma descends_in u a : descends u a -> a ∈ l.
Proof. by destruct 1. Qed.

Lemma descends_top u a : descends u a <-> (a ∈ l /\ parent_of a = Some u) \/ exists c, c ∈ l /\ parent_of c = Some u /\ descends (uuid c) a.
Proof.
  split.
  - induction 1 as [a Ha Hp|a b Hb IH Ha Hp]; [by left|]. right. destruct IH as [[Hb1 Hb2]|(c & Hc & Hcp & Hcb)].
    + exists b. split; [done|]. split; [done|]. by apply descends_child.
    + exists c. split; [done|]. split; [done|]. by apply (descends_below (uuid c) a b).
  - intros [[Ha Hp]|(c & Hc & Hp & Hd)]; [by apply descends_child|]. induction Hd as [a Ha Hpa|a b Hb IH Ha Hpa].
    + apply (descends_below u a c); [by apply descends_child|done|done].
    + by apply (descends_below u a b).
Qed.

Context (Hids : NoDup (uuid <$> l)) (rank : cstr -> nat) (Hrank : ordered rank).

Lemma same_uuid a b : a ∈ l -> b ∈ l -> uuid a = uuid b -> a = b.
Proof.
  intros [i Hi]%list_elem_of_lookup_1 [j Hj]%list_elem_of_lookup_1 E.
  assert (i = j) as ->; [|congruence].
  eapply NoDup_lookup; [exact Hids| |]; rewrite list_lookup_fmap; [by rewrite Hi|by rewrite Hj, E].
Qed.

Lemma descends_rank b a : b ∈ l -> descends (uuid b) a -> rank (uuid b) < rank (uuid a).
Proof.
  intros Hb. induction 1 as [a Ha Hp|a c Hc IH Ha Hp].
  - by apply (Hrank a Ha).
  - etransitivity; [exact IH|]. apply (Hrank a Ha); [by eapply descends_in|done].
Qed.

Lemma ancestors_comparable x y a : x ∈ l -> y ∈ l -> descends (uuid x) a -> descends (uuid y) a ->
  x = y \/ descends (uuid x) y \/ descends (uuid y) x.
Proof.
  intros Hx Hy Hxa. induction Hxa as [a Ha Hp|a b Hb IH Ha Hp]; intros Hya.
  - destruct Hya as [a Ha' Hp'|a b Hb Ha' Hp'].
    + left. apply same_uuid; [done|done|congruence].
    + right; right. assert (x = b) as -> by (apply same_uuid; [done|by eapply descends_in|congruence]). done.
  - inversion Hya as [a' Ha' Hp'|a' b' Hb' Ha' Hp']; subst.
    + right; left. assert (y = b) as -> by (apply same_uuid; [done|by eapply descends_in|congruence]). done.
    + apply IH. assert (b = b') as -> by (apply same_uuid; [by eapply descends_in|by eapply descends_in|congruence]). done.
Qed.

(** Siblings do not descend from each other. *)
Lemma siblings_apart u c1 c2 : c1 ∈ l -> c2 ∈ l -> parent_of c1 = Some u -> parent_of c2 = Some u -> ~ descends (uuid c2) c1.
Proof.
  intros H1 H2 P1 P2 Hd. destruct Hd as [a Ha Hp|a b Hb Ha Hp].
  - assert (u = uuid c2) as -> by congruence. pose proof (proj2 (Hrank c2 H2) c2 H2 P2). lia.
  - assert (u = uuid b) as -> by congruence. pose proof (descends_rank c2 b H2 Hb).
    pose proof (proj2 (Hrank c2 H2) b (descends_in _ _ Hb) P2). lia.
Qed.

(** The order of the program: each child after what descends from it. *)
Fixpoint family (fuel : nat) (u : cstr) : list tree_agent :=
  match fuel with
  | 0 => []
  | S fuel => mjoin ((fun c => family fuel (uuid c) ++ [c]) <$> List.filter (child_of u) l)
  end.

Lemma child_of_spec u a : child_of u a = true <-> parent_of a = Some u.
Proof. unfold child_of. destruct (parent_of a); [|done]. unfold strcmp_eq. rewrite bool_decide_eq_true. naive_solver. Qed.

Lemma children_spec u c : c ∈ List.filter (child_of u) l <-> c ∈ l /\ parent_of c = Some u.
Proof. rewrite list_elem_of_In, filter_In, <- list_elem_of_In, child_of_spec. done. Qed.

Lemma family_spec fuel : forall b a, b ∈ l -> length l <= fuel + rank (uuid b) -> (a ∈ family fuel (uuid b) <-> descends (uuid b) a).
Proof.
  induction fuel as [|fuel IH]; intros b a Hb Hf; cbn [family].
  { split; [by intros Hn%not_elem_of_nil|]. intros Hd. pose proof (proj1 (Hrank b Hb)). lia. }
  rewrite list_elem_of_join, descends_top. split.
  - intros (x & Ha & Hx). apply list_elem_of_fmap in Hx as (c & -> & Hc). apply children_spec in Hc as [Hc Hp].
    pose proof (proj2 (Hrank c Hc) b Hb Hp) as Hr. apply elem_of_app in Ha as [Ha|Ha%list_elem_of_singleton].
    + right. exists c. split; [done|]. split; [done|]. apply (IH c); [done|lia|done].
    + subst a. by left.
  - intros [[Ha Hp]|(c & Hc & Hp & Hd)].
    + exists (family fuel (uuid a) ++ [a]). split; [apply elem_of_app; right; by apply list_elem_of_singleton|].
      apply list_elem_of_fmap. exists a. split; [done|]. by apply children_spec.
    + pose proof (proj2 (Hrank c Hc) b Hb Hp) as Hr. exists (family fuel (uuid c) ++ [c]). split.
      * apply elem_of_app. left. apply (IH c); [done|lia|done].
      * apply list_elem_of_fmap. exists c. split; [done|]. by apply children_spec.
Qed.

Lemma family_nodup fuel : forall b, b ∈ l -> length l <= fuel + rank (uuid b) -> NoDup (family fuel (uuid b)).
Proof.
  induction fuel as [|fuel IH]; intros b Hb Hf; cbn [family]; [constructor|].
  assert (forall cs, NoDup cs -> (forall c, c ∈ cs -> c ∈ l /\ parent_of c = Some (uuid b)) ->
            NoDup (mjoin ((fun c => family fuel (uuid c) ++ [c]) <$> cs))) as Hcs.
  { induction 1 as [|c cs Hc Hnd IHcs]; intros Hin; [constructor|].
    change (mjoin ((fun c => family fuel (uuid c) ++ [c]) <$> c :: cs)) with ((family fuel (uuid c) ++ [c]) ++ mjoin ((fun c => family fuel (uuid c) ++ [c]) <$> cs)).
    destruct (Hin c) as [Hcl Hcp]; [by left|]. pose proof (proj2 (Hrank c Hcl) b Hb Hcp) as Hr.
    apply NoDup_app. split; [|split].
    - apply NoDup_app. split; [apply IH; [done|lia]|]. split; [|apply NoDup_singleton].
      intros x Hx%(family_spec fuel c) [=->]%list_elem_of_singleton; [|done|lia]. pose proof (descends_rank c c Hcl Hx). lia.
    - intros x Hx Hy. apply list_elem_of_join in Hy as (y & Hy & Hm). apply list_elem_of_fmap in Hm as (c' & -> & Hc').
      destruct (Hin c') as [Hcl' Hcp']; [by right|]. pose proof (proj2 (Hrank c' Hcl') b Hb Hcp') as Hr'.
      assert (c <> c') as Hne by (intros ->; done).
      assert (forall z w, w ∈ l -> rank (uuid b) < rank (uuid w) -> z ∈ family fuel (uuid w) ++ [w] -> z = w \/ descends (uuid w) z) as Hz.
      { intros z w Hw Hrw [Hz|Hz%list_elem_of_singleton]%elem_of_app; [right; apply (family_spec fuel w); [done|lia|done]|by left]. }
      destruct (Hz x c Hcl Hr Hx) as [E1|Hd1], (Hz x c' Hcl' Hr' Hy) as [E2|Hd2].
      + congruence.
      + subst x. by apply (siblings_apart (uuid b) c c').
      + subst x. by apply (siblings_apart (uuid b) c' c).
      + destruct (ancestors_comparable c c' x) as [->|[Hcc|Hcc]]; try done; [by apply (siblings_apart (uuid b) c' c)|by apply (siblings_apart (uuid b) c c')].
    - apply IHcs. intros c0 Hc0. apply Hin. by right. }
  apply Hcs; [|intros c Hc; by apply children_spec].
  assert (NoDup l) as Hl by (by eapply NoDup_fmap_1). clear -Hl. induction Hl as [|a l Ha Hl IH]; [constructor|]. cbn [List.filter].
  destruct (child_of (uuid b) a); [|exact IH]. constructor; [|exact IH]. intros Hin. apply Ha.
  apply list_elem_of_In in Hin. apply filter_In in Hin as [Hin _]. by apply list_elem_of_In.
Qed.

(** There are fewer descendants than agents. *)
Lemma family_length b : b ∈ l -> length (family (S (length l)) (uuid b)) < length l.
Proof.
  intros Hb. pose proof (family_nodup (S (length l)) b Hb ltac:(lia)) as Hnd.
  assert (NoDup (b :: family (S (length l)) (uuid b))) as Hnd'.
  { constructor; [|done]. intros Hd%(family_spec (S (length l)) b); [|done|lia]. pose proof (descends_rank b b Hb Hd). lia. }
  apply (submseteq_length (b :: family (S (length l)) (uuid b)) l). apply NoDup_submseteq; [done|].
  intros x [->|Hx]%elem_of_cons; [done|]. apply (family_spec (S (length l)) b) in Hx; [by eapply descends_in|done|lia].
Qed.

End family.

Section collecting.
Context `{!SlotAllocator} (r : agent_tree) (l : list tree_agent) (Hr : tree_rep r l).

Lemma agent_at d a rest' : l = d ++ a :: rest' -> arr_get (agents r) (length d) = Ret a.
Proof.
  intros El. destruct (tr_agents _ _ Hr) as [rest ->]. rewrite El, <- app_assoc. cbn [app]. apply arr_get_app.
Qed.

Lemma scan_children_ok descend (F : cstr -> list tree_agent) u max cs : forall d out, l = d ++ cs ->
  (forall c m, c ∈ l -> parent_of c = Some u -> length (F (uuid c)) < m -> descend (uuid c) m = Ret (F (uuid c))) ->
  length (out ++ mjoin ((fun c => F (uuid c) ++ [c]) <$> List.filter (child_of u) cs)) < max ->
  scan_children descend r u max (length cs) (length d) out =
    Ret (out ++ mjoin ((fun c => F (uuid c) ++ [c]) <$> List.filter (child_of u) cs)).
Proof.
  induction cs as [|c cs IH]; intros d out El HF Hm; cbn [scan_children length]; [by rewrite app_nil_r|].
  rewrite length_app in Hm. rewrite (proj2 (Nat.ltb_lt _ _)) by lia. rewrite (agent_at d c cs El). cbn [obind List.filter] in *.
  assert (l = (d ++ [c]) ++ cs) as El' by (by rewrite <- app_assoc).
  assert (S (length d) = length (d ++ [c])) as Ed by (rewrite length_app; cbn [length]; lia).
  destruct (child_of u c) eqn:Ec; [|rewrite Ed; apply IH; [done|done|by rewrite length_app]].
  set (G := fun c => F (uuid c) ++ [c]) in *.
  change (mjoin (G <$> c :: List.filter (child_of u) cs)) with ((F (uuid c) ++ [c]) ++ mjoin (G <$> List.filter (child_of u) cs)) in *.
  rewrite !length_app in Hm. cbn [length] in Hm.
  rewrite HF; [|rewrite El; apply elem_of_app; right; by left|by apply child_of_spec|lia]. cbn [obind].
  rewrite (proj2 (Nat.ltb_lt (length (out ++ F (uuid c))) _)) by (rewrite length_app; lia).
  rewrite Ed, IH; [by rewrite <- !app_assoc|done|done|]. rewrite !length_app. cbn [length]. fold G. lia.
Qed.

Lemma collect_ok rank (Hrank : ordered l rank) fuel : forall b max, b ∈ l -> length l < fuel + rank (uuid b) ->
  length (family l fuel (uuid b)) < max -> collect_descendants fuel r (uuid b) max = Ret (family l fuel (uuid b)).
Proof.
  induction fuel as [|fuel IH]; intros b max Hb Hf Hm; [pose proof (proj1 (Hrank b Hb)); lia|].
  cbn [collect_descendants family] in *. rewrite (tr_count _ _ Hr).
  apply (scan_children_ok _ (family l fuel) _ _ l [] []); [done| |exact Hm].
  intros c m Hc Hp Hl. apply IH; [done| |done]. pose proof (proj2 (Hrank c Hc) b Hb Hp). lia.
Qed.

(** With room for all agents, exactly those that descend from it. *)
Lemma descendants_ok b max : NoDup (uuid <$> l) -> forest l -> b ∈ l -> length l <= max ->
  exists vs, descendants r (uuid b) max = Ret vs /\ NoDup vs /\ length vs < length l /\ forall a, a ∈ vs <-> descends l (uuid b) a.
Proof.
  intros Hids [rank Hrank] Hb Hm. exists (family l (S (length l)) (uuid b)).
  pose proof (family_length l Hids rank Hrank b Hb) as Hlen. unfold descendants. rewrite (tr_count _ _ Hr).
  split; [apply (collect_ok rank Hrank); [done|lia|lia]|]. split; [apply (family_nodup l Hids rank Hrank); [done|lia]|].
  split; [done|]. intros a. apply (family_spec l rank Hrank); [done|lia].
Qed.

End collecting.

(** ** Running the commands *)

(** The rows of agents that are running: what reaping does to them when the
    server accepts it. *)
Class RunningRows (DB : Type) `{!Libpq DB} := {
  running : DB -> gset cstr;
  mark_reaped_row u d : exists n d', pq_exec_params MARK_REAPED [Some u] d = (PGRES_COMMAND_OK n, d') /\ running d' = running d ∖ {[u]}
}.

(** A connection outside any transaction, in one that sees its own rows, or in
    one that an error has spoilt. *)
Inductive transaction := Idle | Open (rows : gset cstr) | Aborted.

(** What a statement of /kill does to a set of running rows. *)
Definition row_change (q : cstr) (ps : list (option cstr)) (rows : gset cstr) : gset cstr :=
  match ps with
  | [_; Some u] => if decide (q = MARK_DEAD) then rows ∖ {[u]} else rows
  | _ => rows
  end.

(** What a statement does to the committed rows and the transaction, by whether
    the server accepts it ([ok]). *)
Definition effect (q : cstr) (ps : list (option cstr)) (ok : bool) (st : gset cstr * transaction) : gset cstr * transaction :=
  let '(rows, t) := st in
  match t with
  | Idle =>
      if ok then if decide (q = lit "BEGIN") then (rows, Open rows) else (row_change q ps rows, Idle) else (rows, Idle)
  | Open own =>
      if decide (q = lit "ROLLBACK") then (rows, Idle)
      else if decide (q = lit "COMMIT") then (if ok then own else rows, Idle)
      else if ok then (rows, Open (row_change q ps own)) else (rows, Aborted)
  | Aborted => if decide (q = lit "ROLLBACK" \/ q = lit "COMMIT") then (rows, Idle) else (rows, Aborted)
  end.

Definition accepted (r : pg_result) : bool := match r with PGRES_COMMAND_OK _ => true | _ => false end.

(** The statements that /kill issues. *)
Definition of_kill (q : cstr) : Prop :=
  q ∈ [lit "BEGIN"; lit "ROLLBACK"; lit "COMMIT"; MARK_DEAD; INSERT_MESSAGE] \/ starts_with (lit "NOTIFY ") q = true.

(** A server with transactions, which may refuse a statement unless it is
    [accepting]. *)
Class TransactedRows (DB : Type) `{!Libpq DB} := {
  committed : DB -> gset cstr;
  transaction_of : DB -> transaction;
  accepting : DB -> Prop;
  statement_effect q ps d : of_kill q ->
    (committed (snd (pq_exec_params q ps d)), transaction_of (snd (pq_exec_params q ps d))) =
      effect q ps (accepted (fst (pq_exec_params q ps d))) (committed d, transaction_of d);
  statement_accepted q ps d : of_kill q -> accepting d ->
    accepted (fst (pq_exec_params q ps d)) = true /\ accepting (snd (pq_exec_params q ps d))
}.

Section running_lemmas.
Context `{!SlotAllocator} `{!SlotAllocatorSpec} `{!AnsiColors} {DB : Type} `{!Libpq DB} `{!RunningRows DB}.

Notation state := (DB * agents_state)%type.

(** Same agents in the same array and the same one shown. *)
Definition same_tree (st st' : state) : Prop := tree (snd st') = tree (snd st).

Lemma run_bind {A B} (m : cmd A) (k : A -> @cmd DB B) st a st' : m st = (Ret a, st') -> dbind m k st = k a st'.
Proof. intros E. unfold dbind. by rewrite E. Qed.



Lemma run_current c (st : state) : current_agent (tree (snd st)) = Some c -> the_current st = (Ret c, st).
Proof. intros E. unfold the_current, get_state, dbind. destruct st as [d s]. cbn [snd] in *. by rewrite E. Qed.

(** Exact identifiers are found. *)
Lemma find_exact l a : NoDup (uuid <$> l) -> a ∈ l -> 4 <= length (uuid a) -> find_in l (uuid a) = Some a.
Proof.
  intros Hids Ha Hlen. unfold find_in. rewrite (proj2 (Nat.ltb_ge _ _)) by lia.
  assert (exists i, first_at (has_id (uuid a)) l = Some (i, a)) as [i ->]; [|done].
  revert Hids Ha. induction l as [|b l IH]; intros Hids Ha; [by apply not_elem_of_nil in Ha|]. cbn [first_at]. unfold has_id at 1, strcmp_eq.
  cbn [fmap list_fmap] in Hids. apply NoDup_cons in Hids as [Hb Hids]. apply elem_of_cons in Ha as [<-|Ha].
  - rewrite bool_decide_eq_true_2 by done. by exists 0.
  - rewrite bool_decide_eq_false_2; [|intros E; apply Hb; rewrite E; apply list_elem_of_fmap; by exists a].
    destruct (IH Hids Ha) as [i ->]. by exists (S i).
Qed.

End running_lemmas.

Lemma show_int_short n : n <= 1000 -> length (show_int (Z.of_nat n)) <= 4.
Proof.
  intros Hn. apply Nat.leb_le. pose proof (range_forallb 1001 (fun z => (length (show_int z) <=? 4)%nat)) as Hr.
  apply Hr; [vm_compute; reflexivity|lia].
Qed.

Definition short_parent (a : tree_agent) : Prop := forall p, parent_of a = Some p -> length p < 100.

Section killing.
Context `{!SlotAllocator} `{!SlotAllocatorSpec} `{!AnsiColors} {DB : Type} `{!Libpq DB} `{!TransactedRows DB}.
Context (transaction_idle : DB -> bool) (now : cstr -> Z) (session_id : Z).

(** *** Ending well or with an error *)

Notation state := (DB * agents_state)%type.
Notation ends m st R F := (wp False m st R F).

(** The committed rows and the transaction. *)
Definition rows_of (d : DB) : gset cstr * transaction := (committed d, transaction_of d).

Lemma ends_on_db {A} (m : dbm DB A) d s (R : A -> state -> Prop) (F : state -> Prop) :
  wp False m d (fun a d => R a (d, s)) (fun d => F (d, s)) -> ends (on_db m) (d, s) R F.
Proof. unfold wp, on_db. destruct (m d) as [o d']. by destruct o. Qed.

Lemma ends_or_undo (m h : @cmd DB unit) st (R : unit -> state -> Prop) (F : state -> Prop) :
  ends m st R (fun st => ends h st (fun _ => F) F) -> ends (or_undo m h) st R F.
Proof.
  unfold wp, or_undo. destruct (m st) as [o st1]. destruct o; [done| |done..].
  destruct (h st1) as [o st2]. by destruct o.
Qed.

Lemma ends_step {A B} (m : cmd A) (k : A -> @cmd DB B) st a st' (R : B -> state -> Prop) (F : state -> Prop) :
  m st = (Ret a, st') -> ends (k a) st' R F -> ends (dbind m k) st R F.
Proof. intros E Hk. unfold wp. by rewrite (run_bind _ _ _ _ _ E). Qed.

Lemma ends_text {B} n line (k : cstr -> @cmd DB B) st (R : B -> state -> Prop) (F : state -> Prop) :
  length line < n -> ends (k line) st R F -> ends (dbind (dlift (bounded n line)) k) st R F.
Proof. intros Hl. apply ends_step. unfold dlift, bounded. by rewrite (proj2 (Nat.ltb_lt _ _) Hl). Qed.

(** A loop that does something to each agent keeps what holds after each. *)
Lemma ends_for_each (f : tree_agent -> @cmd DB unit) (P : list tree_agent -> state -> Prop) (F : state -> Prop) vs :
  (forall done_ v st, v ∈ vs -> P done_ st -> ends (f v) st (fun _ => P (done_ ++ [v])) F) ->
  forall st, P [] st -> ends (for_each vs f) st (fun _ => P vs) F.
Proof.
  intros Hf. enough (forall rest done_ st, (forall v, v ∈ rest -> v ∈ vs) -> P done_ st ->
      ends (for_each rest f) st (fun _ => P (done_ ++ rest)) F) as Hgen by (intros st; by apply (Hgen vs [] st)).
  induction rest as [|v rest IH]; intros done_ st Hin HP; cbn [for_each]; [by rewrite app_nil_r|].
  apply wp_bind. eapply wp_mono; [apply (Hf done_ v st); [apply Hin; by left|done]| |done].
  intros [] st1 HP1. cbn beta in HP1. specialize (IH (done_ ++ [v]) st1 ltac:(intros x Hx; apply Hin; by right) HP1).
  by rewrite <- app_assoc in IH.
Qed.

(** A statement does its effect, and an accepting server accepts it. *)
Lemma ends_command q ps d (R : unit -> DB -> Prop) (F : DB -> Prop) : of_kill q ->
  (forall d', rows_of d' = effect q ps true (rows_of d) -> (accepting d -> accepting d') -> R tt d') ->
  (forall d', rows_of d' = effect q ps false (rows_of d) -> ~ accepting d -> F d') ->
  wp False (command_ q ps) d R F.
Proof.
  intros Hq HR HF. pose proof (statement_effect q ps d Hq) as He. pose proof (statement_accepted q ps d Hq) as Ha.
  unfold wp, command_, command, dbind. destruct (pq_exec_params q ps d) as [r d']. cbn [fst snd] in *.
  destruct r; cbn [accepted] in *;
    first [apply HR; [done|intros Hd; by destruct (Ha Hd)]|apply HF; [done|intros Hd; by destruct (Ha Hd)]].
Qed.

Lemma ends_notify channel payload d (R : unit -> DB -> Prop) (F : DB -> Prop) : transaction_of d = Idle ->
  (forall d', rows_of d' = rows_of d -> (accepting d -> accepting d') -> R tt d') ->
  (forall d', rows_of d' = rows_of d -> ~ accepting d -> F d') ->
  wp False (ik_db_notify channel payload) d R F.
Proof.
  intros Hi HR HF. unfold wp, ik_db_notify, notify_command.
  set (q := lit "NOTIFY " ++ quoted_text channel ++ lit ", '" ++ payload ++ lit "'").
  assert (of_kill q) as Hq by (right; apply starts_with_app).
  pose proof (statement_effect q [] d Hq) as He. pose proof (statement_accepted q [] d Hq) as Ha.
  assert (rows_of (snd (pq_exec_params q [] d)) = rows_of d) as Hr.
  { unfold rows_of in *. rewrite He, Hi. unfold effect. destruct (accepted _); [|done]. by rewrite decide_False by (by intros E). }
  destruct (pq_exec_params q [] d) as [r d']. cbn [fst snd] in *.
  destruct r; cbn [accepted] in *;
    first [apply HR; [done|intros Hd; by destruct (Ha Hd)]|apply HF; [done|intros Hd; by destruct (Ha Hd)]].
Qed.

(** *** From BEGIN to COMMIT *)

(** Nothing happened: the server refused a statement and the rows are what
    they were. *)
Definition undone (d : DB) (s : agents_state) (st : state) : Prop :=
  snd st = s /\ rows_of (fst st) = (committed d, Idle) /\ ~ accepting d.

(** In the transaction, whose own rows are [own]. *)
Definition inside (d : DB) (s : agents_state) (own : gset cstr) (st : state) : Prop :=
  snd st = s /\ rows_of (fst st) = (committed d, Open own) /\ (accepting d -> accepting (fst st)).

(** A statement in the transaction, with its rollback. *)
Lemma ends_inside q ps (m : dbm DB unit) d s own st : m = command_ q ps -> q ∈ [MARK_DEAD; INSERT_MESSAGE] -> inside d s own st ->
  ends (or_undo (on_db m) (on_db ik_db_rollback)) st (fun _ => inside d s (row_change q ps own)) (undone d s).
Proof.
  destruct st as [d0 s0]. intros -> Hq (Es & Er & Ha). cbn [fst snd] in *. subst s0.
  assert (q <> lit "ROLLBACK" /\ q <> lit "COMMIT") as [N1 N2].
  { apply elem_of_cons in Hq as [->|Hq%list_elem_of_singleton]; [|subst q]; split; apply (bool_decide_unpack _); vm_compute; exact I. }
  assert (of_kill q) as Hk.
  { left. apply elem_of_cons in Hq as [->|Hq%list_elem_of_singleton]; [|subst q]; apply (bool_decide_unpack _); vm_compute; exact I. }
  apply ends_or_undo, ends_on_db, ends_command; [done| |]; intros d1 E1 Ha1; rewrite Er in E1; unfold effect in E1;
    rewrite !decide_False in E1 by done; [split; [done|split; [done|tauto]]|].
  assert (of_kill (lit "ROLLBACK")) as Hrb by (left; apply (bool_decide_unpack _); vm_compute; exact I).
  apply ends_on_db, ends_command; [done|..]; intros d2 E2 _; rewrite E1 in E2; cbn in E2; (split; [done|split; [exact E2|tauto]]).
Qed.

Definition without (rows : gset cstr) (vs : list tree_agent) : gset cstr := rows ∖ list_to_set (uuid <$> vs).

Lemma without_snoc rows vs v : without rows (vs ++ [v]) = without rows vs ∖ {[uuid v]}.
Proof. unfold without. rewrite fmap_app, list_to_set_app_L. cbn [fmap list_fmap list_to_set]. set_solver. Qed.

Lemma ends_kill_rows u vs c d s st : current_agent (tree s) = Some c -> (0 < session_id)%Z -> inside d s (committed d) st ->
  ends (kill_rows now session_id u vs) st
    (fun _ st => snd st = s /\ rows_of (fst st) = (without (committed d) vs ∖ {[u]}, Idle) /\ (accepting d -> accepting (fst st)))
    (undone d s).
Proof.
  intros Hc Hs Hin. unfold kill_rows. apply wp_bind.
  eapply wp_mono; [apply (ends_for_each _ (fun vs => inside d s (without (committed d) vs)))| |done].
  - intros ds v st0 _ Hst. rewrite without_snoc.
    eapply wp_mono; [eapply ends_inside; [reflexivity|by left|exact Hst]| |done]. intros [] st1 Hst1. cbn beta in Hst1.
    unfold row_change in Hst1. by rewrite decide_True in Hst1.
  - unfold without. cbn. by rewrite difference_empty_L.
  - intros [] st1 Hst1. cbn beta in Hst1. apply wp_bind.
    eapply wp_mono; [eapply ends_inside; [reflexivity|by left|exact Hst1]| |done]. intros [] [d2 s2] Hst2. cbn beta in Hst2.
    unfold row_change in Hst2. rewrite decide_True in Hst2 by done. pose proof Hst2 as (Es & _ & _). cbn [snd] in Es. subst s2.
    apply (ends_step _ _ _ _ _ _ _ (run_current c (d2, s) Hc)). apply wp_bind.
    eapply wp_mono; [eapply (ends_inside INSERT_MESSAGE); [|right; by left|exact Hst2]| |done].
    { unfold ik_db_message_insert, asserting. by rewrite (proj2 (Z.ltb_lt _ _) Hs). }
    intros [] [d3 s3] (Es & Er & Ha). cbn [fst snd row_change] in *. subst s3.
    assert (of_kill (lit "COMMIT")) as Hco by (left; apply (bool_decide_unpack _); vm_compute; exact I).
    apply ends_on_db, ends_command; [done|..]; intros d4 E4 Ha4; rewrite Er in E4; cbn in E4;
      (split; [done|split; [exact E4|tauto]]).
Qed.

(** *** After COMMIT *)

(** The flags grow, the rows and the tree stay. *)
Definition flagged (d : DB) (s : agents_state) (vs : list tree_agent) (st : state) : Prop :=
  rows_of (fst st) = rows_of d /\ tree (snd st) = tree s /\ forall x, x ∈ dead (snd st) <-> x ∈ dead s \/ (x ∈ addr <$> vs).

Lemma ends_kill_one (P : Prop) can_notify line a d s vs st : length line < 64 -> short_parent a -> transaction_of d = Idle ->
  flagged d s vs st -> (P -> accepting (fst st)) ->
  ends (kill_one can_notify line a) st (fun _ st => flagged d s (vs ++ [a]) st /\ (P -> accepting (fst st)))
    (fun st => flagged d s (vs ++ [a]) st /\ ~ P).
Proof.
  destruct st as [d0 s0]. intros Hl Hp Hi (Er & Et & Hx) Ha. cbn [fst snd] in *. unfold kill_one.
  eapply ends_step; [reflexivity|]. apply ends_text; [done|]. eapply ends_step; [reflexivity|]. cbn [fst snd].
  set (s1 := say a line (set_dead a s0)).
  assert (forall d1, rows_of d1 = rows_of d0 -> flagged d s (vs ++ [a]) (d1, s1)) as Hf.
  { intros d1 E1. split; [cbn; congruence|]. split; [done|]. intros x. cbn [fst snd s1 say set_dead dead].
    rewrite elem_of_union, elem_of_singleton, Hx, fmap_app, elem_of_app. cbn [fmap list_fmap]. rewrite list_elem_of_singleton. tauto. }
  unfold notify_parent. destruct can_notify; [|split; [by apply Hf|done]]. destruct (parent_of a) as [p|] eqn:Ep; [|split; [by apply Hf|done]].
  apply ends_text. { rewrite length_app. specialize (Hp p Ep). change (length (lit "agent_event_")) with 12. lia. }
  apply ends_on_db, ends_notify.
  - assert (snd (rows_of d0) = snd (rows_of d)) as E by congruence. by rewrite <- Hi.
  - intros d' E Ha'. split; [by apply Hf|]. cbn [fst]. tauto.
  - intros d' E Ha'. split; [by apply Hf|]. tauto.
Qed.

Context (l : list tree_agent) (Haddr : NoDup (addr <$> l)) (Hids : NoDup (uuid <$> l)) (Hforest : forest l) (Hlen : length l <= 256).

(** What the program keeps: the array holds the agents, and the one shown is
    one of them. *)
Definition shows (s : agents_state) (c : tree_agent) : Prop := tree_rep (tree s) l /\ current_agent (tree s) = Some c /\ c ∈ l.

Lemma run_find s c a d : shows s c -> a ∈ l -> 4 <= length (uuid a) ->
  dlift (ik_repl_find_agent (tree s) (uuid a)) (d : DB, s) = (Ret (Some a), (d, s)).
Proof. intros (Hr & _ & _) Ha Hl. unfold dlift. by rewrite (find_agent_ok _ l), find_exact. Qed.

Lemma run_show_after target parent p (vs : list tree_agent) s c (d : DB) : shows s c -> target ∈ l -> parent ∈ l -> parent_of target = Some p -> uuid parent = p ->
  4 <= length p -> length vs <= 256 ->
  exists s', show_after_kill (Some target) (same_agent target c) (uuid target) (length vs) (d, s) = (Ret tt, (d, s')) /\
    shows s' (if same_agent target c then parent else c) /\ dead s' = dead s.
Proof.
  intros Hsh Ht Hpar Hp Eu Hl Hvs. subst p. pose proof Hsh as (Hr & Hc & Hcl). unfold show_after_kill.
  destruct target as [ta tu tp tc]. cbn [parent_of] in Hp. subst tp. destruct (same_agent (mk_tree_agent ta tu (Some (uuid parent)) tc) c) eqn:Esame.
  - rewrite (run_bind get_state _ _ s (d, s)) by done. rewrite (run_bind _ _ _ _ _ (run_find s c parent d Hsh Hpar Hl)).
    destruct (switch_ok (tree s) l parent Hr Haddr Hpar) as (t' & Et & Hr' & Hc'); [intros x Hx; congruence|].
    set (s1 := with_tree t' s).
    assert (on_tree (fun t => ik_repl_switch_agent t (Some parent)) (d, s) = (Ret tt, (d, s1))) as Es.
    { unfold on_tree, get_state, dbind, dlift, modify. cbn [fst snd]. by rewrite Et. }
    rewrite (run_bind _ _ _ _ _ Es).
    assert (length (lit "Agent " ++ take 22 tu ++ lit " terminated") < 64) as Hm.
    { rewrite !length_app, length_take. change (length (lit "Agent ")) with 6. change (length (lit " terminated")) with 11. lia. }
    cbn [uuid]. unfold dbind, dlift, bounded. rewrite (proj2 (Nat.ltb_lt _ _) Hm). eexists. split; [reflexivity|].
    split; [|done]. split; [exact Hr'|]. by split.
  - assert (length (lit "Killed " ++ show_int (Z.of_nat (length vs + 1)) ++ lit " agents") < 64) as Hm.
    { rewrite !length_app. pose proof (show_int_short (length vs + 1) ltac:(lia)). change (length (lit "Killed ")) with 7. change (length (lit " agents")) with 7. lia. }
    unfold dbind at 1. unfold dlift at 1, bounded. rewrite (proj2 (Nat.ltb_lt _ _) Hm).
    rewrite (run_bind _ _ _ _ _ (run_current c (d, s) Hc)). eexists. split; [reflexivity|]. done.
Qed.

(** The agents that go with the target. *)
Definition killed (target a : tree_agent) : Prop := a = target \/ descends l (uuid target) a.

(** Their running rows are gone, all at once, and no transaction is left. *)
Definition rows_gone (target : tree_agent) (d d' : DB) : Prop :=
  transaction_of d' = Idle /\
  forall u, u ∈ committed d' <-> u ∈ committed d /\ ~ exists a, uuid a = u /\ killed target a.

(** What an error leaves: everything as it was, or, when the commit was made
    and a notification refused, the rows gone and the target and maybe others
    of them flagged. *)
Definition kill_failed (target : tree_agent) (d : DB) (s : agents_state) (st : state) : Prop :=
  (snd st = s /\ committed (fst st) = committed d /\ transaction_of (fst st) = Idle) \/
  (rows_gone target d (fst st) /\ tree (snd st) = tree s /\ addr target ∈ dead (snd st) /\ dead s ⊆ dead (snd st) /\
   forall x, x ∈ dead (snd st) -> x ∈ dead s \/ exists a, addr a = x /\ killed target a).

Lemma rows_gone_of target vs d d' : (forall a, a ∈ vs <-> descends l (uuid target) a) ->
  rows_of d' = (without (committed d) vs ∖ {[uuid target]}, Idle) -> rows_gone target d d'.
Proof.
  intros Hvs [= Er Et]. split; [done|]. intros u. rewrite Er. unfold without.
  rewrite !elem_of_difference, elem_of_singleton, elem_of_list_to_set, list_elem_of_fmap. split.
  - intros [[Hu Hno] Hne]. split; [done|]. intros (a & <- & [->|Ha]); [done|]. apply Hno. exists a. split; [done|]. by apply Hvs.
  - intros [Hu Hno]. split; [split; [done|]|intros ->; apply Hno; exists target; by split; [|left]].
    intros (a & -> & Ha). apply Hno. exists a. split; [done|]. right. by apply Hvs.
Qed.

Lemma flagged_failed target vs ws d d2 s st : (forall a, a ∈ vs <-> descends l (uuid target) a) -> ws ⊆ vs ->
  rows_gone target d d2 -> flagged d2 s (target :: ws) st -> kill_failed target d s st.
Proof.
  intros Hvs Hws [Ht Hg] (Er & Etr & Hx). right. injection Er as Ec Et. split; [|split; [done|split; [|split]]].
  - split; [congruence|]. by rewrite Ec.
  - apply Hx. right. by left.
  - intros x Hin. apply Hx. by left.
  - intros x [Hin|Hin]%Hx; [by left|right]. apply elem_of_cons in Hin as [->|Hin]; [exists target; by split; [|left]|].
    apply list_elem_of_fmap in Hin as (a & -> & Ha). exists a. split; [done|]. right. by apply Hvs, Hws.
Qed.

Lemma ends_cascade target parent p s c d : shows s c -> target ∈ l -> parent ∈ l -> parent_of target = Some p -> uuid parent = p ->
  4 <= length (uuid target) -> 4 <= length p -> Forall short_parent l -> (0 < session_id)%Z -> transaction_of d = Idle ->
  ends (cmd_kill_cascade transaction_idle now session_id (uuid target)) (d, s)
    (fun _ st => shows (snd st) (if same_agent target c then parent else c) /\ rows_gone target d (fst st) /\
       forall x, x ∈ dead (snd st) <-> x ∈ dead s \/ exists a, addr a = x /\ killed target a)
    (fun st => kill_failed target d s st /\ ~ accepting d).
Proof.
  intros Hsh Ht Hpar Hp Eu Hlt Hlp Hshort Hsid Hidle. pose proof Hsh as (Hr & Hc & Hcl). unfold cmd_kill_cascade.
  assert (of_kill (lit "BEGIN")) as Hbe by (left; apply (bool_decide_unpack _); vm_compute; exact I).
  assert (rows_of d = (committed d, Idle)) as Hrows by (unfold rows_of; by rewrite Hidle).
  apply wp_bind, ends_on_db, ends_command; [done| |]; intros d1 E1 Ha1; rewrite Hrows in E1; cbn in E1;
    [|injection E1 as Ec1 Et1; split; [left; split; [done|by split]|done]].
  eapply ends_step; [reflexivity|]. cbn [snd].
  destruct (descendants_ok (tree s) l Hr target 256 Hids Hforest Ht Hlen) as (vs & Evs & Hnd & Hlvs & Hvs).
  eapply ends_step; [unfold dlift; by rewrite Evs|]. cbv zeta. set (n := length vs) in *. apply wp_bind.
  eapply wp_mono; [apply (ends_kill_rows (uuid target) vs c d s (d1, s) Hc Hsid); split; [done|split; [exact E1|exact Ha1]]| |].
  2: { intros [d2 s2] (Es & Er & Hna). split; [left|done]. cbn [fst snd] in *. injection Er as -> ->. done. }
  intros [] [d2 s2] (Es & Er & Ha2). cbn [fst snd] in Es, Er, Ha2. subst s2.
  pose proof (rows_gone_of target vs d d2 Hvs Er) as Hgone.
  eapply ends_step; [reflexivity|]. eapply ends_step; [by apply (run_find s c target)|]. rewrite Hc. apply wp_bind.
  rewrite Forall_forall in Hshort.
  assert (forall x, flagged d2 s [target] x -> flagged d2 s ([target] ++ []) x) as _ by done.
  eapply wp_mono; [apply (ends_kill_one (accepting d) _ _ target d2 s [] (d2, s))| |].
  { rewrite !length_app. pose proof (show_int_short (n + 1) ltac:(lia)). change (length (lit "Agent killed (cascade, ")) with 23. change (length (lit " total)")) with 7. lia. }
  { by apply Hshort. }
  { by injection Er. }
  { split; [done|]. split; [done|]. intros x. cbn. rewrite elem_of_nil. tauto. }
  { done. }
  2: { intros st [Hf Hna]. split; [|done]. apply (flagged_failed target vs [] d d2); [done|intros x Hx; by apply not_elem_of_nil in Hx|done|exact Hf]. }
  intros [] st3 [Hf3 Ha3]. cbn [app] in Hf3. apply wp_bind.
  eapply wp_mono; [apply (ends_for_each _ (fun ds st => ds ⊆ vs /\ flagged d2 s (target :: ds) st /\ (accepting d -> accepting (fst st))))| |exact (fun _ H => H)].
  - intros ds v st Hv (Hds & Hf & Ha).
    assert (ds ++ [v] ⊆ vs) as Hds' by (intros x [Hx|Hx%list_elem_of_singleton]%elem_of_app; [by apply Hds|by subst x]).
    eapply wp_mono; [apply (ends_kill_one (accepting d) _ _ v d2 s (target :: ds) st); [cbn; lia| |by injection Er|done|done]| |].
    + apply Hshort. by eapply descends_in, Hvs.
    + intros [] st' [Hf' Ha']. done.
    + intros st' [Hf' Hna]. split; [|done]. by apply (flagged_failed target vs (ds ++ [v]) d d2).
  - split; [intros x Hx; by apply not_elem_of_nil in Hx|done].
  - intros [] [d4 s4] (_ & (Er4 & Et4 & Hx4) & _). cbn [fst snd] in Er4, Et4, Hx4.
    assert (shows s4 c) as Hsh4 by (unfold shows; by rewrite Et4).
    destruct (run_show_after target parent p vs s4 c d4 Hsh4 Ht Hpar Hp Eu Hlp) as (s5 & E5 & Hsh5 & Hx5); [unfold n in *; lia|].
    unfold wp. fold n in E5. rewrite E5. cbn [fst snd]. split; [done|]. split.
    + destruct Hgone as [Hi Hg]. injection Er4 as Ec Et. split; [congruence|]. by rewrite Ec.
    + intros x. rewrite Hx5, Hx4, list_elem_of_fmap. split.
      * intros [Hx|(a & -> & [->|Ha]%elem_of_cons)]; [by left|right; exists target; by split; [|left]|].
        right. exists a. split; [done|]. right. by apply Hvs.
      * intros [Hx|(a & <- & [->|Ha])]; [by left|right; exists target; by split; [|left]|].
        right. exists a. split; [done|]. right. by apply Hvs.
Qed.

End killing.

Section reaping.
Context `{!SlotAllocator} `{!SlotAllocatorSpec} `{!AnsiColors} {DB : Type} `{!Libpq DB} `{!RunningRows DB}.














(** ** The dead *)

Section the_dead.
Context (l : list tree_agent) (Haddr : NoDup (addr <$> l)) (Hids : NoDup (uuid <$> l)) (s : agents_state).









End the_dead.

End reaping.

Module AgentCommandProps.

Section kill_prop.
Context `{!SlotAllocator} `{!SlotAllocatorSpec} `{!AnsiColors} {DB : Type} `{!Libpq DB} `{!TransactedRows DB}.

(** C27: /kill takes an agent with all that descends from it, and nobody else,
    in one transaction.  Among at most 256 agents whose parents form a forest,
    with a server that follows the rules of transactions and may refuse any
    statement: when the command succeeds, exactly the target and its descendants
    are flagged as dead, exactly their running rows are gone from the committed
    rows, and the parent is shown if the agent shown was the target (otherwise
    the same agent, even if it is one of the descendants).  It fails only if a
    statement is refused; then either the committed rows, the flags and the
    screen are as they were, or the commit was made and a notification refused:
    all those rows are gone but perhaps not all the flags set.  In every case
    no transaction is left open. *)
Theorem kill_takes_descendants (transaction_idle : DB -> bool) (now : cstr -> Z) (session_id : Z) (l : list tree_agent)
    (args : option cstr) (target parent c : tree_agent) (p : cstr) (d : DB) (s : agents_state) :
  NoDup (addr <$> l) -> NoDup (uuid <$> l) -> forest l -> length l <= 256 -> Forall short_parent l -> (0 < session_id)%Z ->
  shows l s c -> target ∈ l -> parent_of target = Some p -> parent ∈ l -> uuid parent = p -> 4 <= length (uuid target) -> 4 <= length p ->
  match args with None | Some [] => target = c | Some prefix => find_in l prefix = Some target end ->
  transaction_of d = Idle ->
  exists res d' s', ik_cmd_kill transaction_idle now session_id false args (d, s) = (res, (d', s')) /\
    match res with
    | Ret _ =>
        (forall a, a ∈ l -> (is_dead s' a = true <-> is_dead s a = true \/ killed l target a)) /\
        rows_gone l target d d' /\ shows l s' (if same_agent target c then parent else c)
    | Fail _ => kill_failed l target d s (d', s') /\ ~ accepting d
    | _ => False
    end.
Proof.
  intros Haddr Hids Hforest Hlen Hshort Hsid Hsh Ht Hp Hpar Eu Hlt Hlp Hargs Hidle. pose proof Hsh as (Hr & Hc & Hcl).
  pose proof (ends_cascade transaction_idle now session_id l Haddr Hids Hforest Hlen target parent p s c d Hsh Ht Hpar Hp Eu Hlt Hlp Hshort Hsid Hidle) as Hends.
  assert (ik_cmd_kill transaction_idle now session_id false args (d, s) = cmd_kill_cascade transaction_idle now session_id (uuid target) (d, s)) as ->.
  { unfold ik_cmd_kill. destruct args as [[|x prefix]|].
    - subst c. by rewrite (run_bind _ _ _ _ _ (run_current target (d, s) Hc)), Hp.
    - rewrite (run_bind get_state _ _ s (d, s)) by done. unfold dbind, dlift. by rewrite (find_agent_ok _ l), Hargs, Hp by done.
    - subst c. by rewrite (run_bind _ _ _ _ _ (run_current target (d, s) Hc)), Hp. }
  unfold wp in Hends. destruct (cmd_kill_cascade _ _ _ _ _) as [res [d' s']]. exists res, d', s'. split; [done|].
  destruct res as [[]|e| | |]; try done. destruct Hends as (Hsh' & Hgone & Hdead). split; [|by split].
  intros a Ha. unfold is_dead. rewrite !bool_decide_eq_true, Hdead. split; [|intros [Hx|Hx]; [by left|right; by exists a]].
  intros [Hx|(b & Eb & Hb)]; [by left|right]. assert (b ∈ l) as Hbl by (destruct Hb as [->|Hb]; [done|by eapply descends_in]).
  assert (a = b) as ->; [|done]. apply list_elem_of_lookup_1 in Ha as [i Hi], Hbl as [j Hj].
  assert (i = j) as ->; [|congruence]. eapply NoDup_lookup; [exact Haddr| |]; rewrite list_lookup_fmap; [by rewrite Hi|by rewrite Hj, <- Eb].
Qed.

End kill_prop.

Section props.
Context `{!SlotAllocator} `{!SlotAllocatorSpec} `{!AnsiColors} {DB : Type} `{!Libpq DB} `{!RunningRows DB}.


End props.
End AgentCommandProps.

Module AgentCommandExamples.
Import CopySlots AgentCommandProps.

#[local] Instance colors_on : AnsiColors := true.

(** The rows that are running, and a server that accepts every statement. *)
#[local] Instance row_set : Libpq (gset (list Z)) := fun q ps d =>
  (PGRES_COMMAND_OK (lit "1"),
   if decide (q = MARK_DEAD) then match ps with [_; Some u] => d ∖ {[u]} | _ => d end
   else if decide (q = MARK_REAPED) then match ps with [Some u] => d ∖ {[u]} | _ => d end
   else d).

#[local] Program Instance row_set_rows : RunningRows (gset (list Z)) := {| running d := d |}.
Next Obligation. intros u d. eexists _, _. split; [reflexivity|done]. Qed.

(** A root with two children, the first of which has a child. *)
Definition root : tree_agent := mk_tree_agent 0 (lit "root") None 1.
Definition elder : tree_agent := mk_tree_agent 1 (lit "elder") (Some (lit "root")) 2.
Definition grandchild : tree_agent := mk_tree_agent 2 (lit "grandchild") (Some (lit "elder")) 3.
Definition younger : tree_agent := mk_tree_agent 3 (lit "younger") (Some (lit "root")) 4.
Definition kin : list tree_agent := [root; elder; grandchild; younger].
Definition kin_tree (c : tree_agent) : agent_tree := mk_tree kin 4 4 (Some c) ∅.
Definition rows : gset (list Z) := list_to_set (uuid <$> kin).

Lemma kin_forest : forest kin.
Proof.
  exists (fun u => if strcmp_eq u (lit "root") then 0 else if strcmp_eq u (lit "grandchild") then 2 else 1).
  intros a Ha. apply list_elem_of_In in Ha. cbn [kin In] in Ha.
  destruct Ha as [<-|[<-|[<-|[<-|[]]]]]; (split; [vm_compute; lia|]); intros b Hb; apply list_elem_of_In in Hb; cbn [kin In] in Hb;
    destruct Hb as [<-|[<-|[<-|[<-|[]]]]]; intros E;
    first [exfalso; revert E; apply (bool_decide_unpack _); vm_compute; exact I | vm_compute; lia].
Qed.

Lemma kin_shows c dead_ said_ : c ∈ kin -> shows kin (mk_agents (kin_tree c) dead_ said_) c.
Proof. intros Hc. split; [|by split]. constructor; [done|by exists []|done]. Qed.

(** Always accepting. *)
#[local] Instance willing_server : Libpq (gset (list Z) * transaction) := fun q ps d =>
  (PGRES_COMMAND_OK (lit "1"), effect q ps true d).

#[local] Program Instance willing_rows : TransactedRows (gset (list Z) * transaction) :=
  {| committed := fst; transaction_of := snd; accepting _ := True |}.
Next Obligation. intros q ps [rows t] _. cbn -[effect]. by destruct (effect q ps true (rows, t)). Qed.
Next Obligation. done. Qed.

(** The elder is shown and kills itself. *)
Lemma kill_takes_descendants_witness : exists d' s',
  ik_cmd_kill (fun _ => true) (fun _ => 7%Z) 1 false None ((rows, Idle), mk_agents (kin_tree elder) ∅ []) = (Ret tt, (d', s')) /\
  (is_dead s' elder = true /\ (is_dead s' younger = true -> killed kin elder younger)) /\ rows_gone kin elder (rows, Idle) d' /\ shows kin s' root.
Proof.
  destruct (kill_takes_descendants (fun _ => true) (fun _ => 7%Z) 1 kin None elder root elder (lit "root") (rows, Idle) (mk_agents (kin_tree elder) ∅ []))
    as (res & d' & s' & E & Hres).
  - apply (bool_decide_unpack _); vm_compute; exact I.
  - apply (bool_decide_unpack _); vm_compute; exact I.
  - exact kin_forest.
  - cbn; lia.
  - repeat (apply Forall_cons; split; [intros p [= <-]; cbn; lia || (intros p E; discriminate E)|]). by apply Forall_nil.
  - done.
  - apply kin_shows. right; by left.
  - right; by left.
  - reflexivity.
  - by left.
  - reflexivity.
  - cbn; lia.
  - cbn; lia.
  - reflexivity.
  - reflexivity.
  - destruct res as [[]|e| | |]; [|destruct Hres as [_ Hno]; by destruct Hno|done..]. destruct Hres as (Hdead & Hgone & Hsh).
    exists d', s'. split; [exact E|]. split; [|split; [exact Hgone|exact Hsh]]. split; [apply Hdead; [right; by left|right; by left]|].
    intros Hy. apply Hdead in Hy; [|right; right; right; by left]. destruct Hy as [Hy|Hy]; [discriminate Hy|exact Hy].
Defined.

(** A server that accepts the first [n] statements it is given. *)
#[local] Instance failing_server : Libpq (gset (list Z) * transaction * nat) := fun q ps d =>
  let '(rows, t, n) := d in
  (match n with 0 => PGRES_FATAL_ERROR | S _ => PGRES_COMMAND_OK (lit "1") end,
   (effect q ps match n with 0 => false | S _ => true end (rows, t), Nat.pred n)).

#[local] Program Instance failing_rows : TransactedRows (gset (list Z) * transaction * nat) :=
  {| committed d := fst (fst d); transaction_of d := snd (fst d); accepting _ := False |}.
Next Obligation. intros q ps [[rows t] [|n]] _; cbn -[effect]; by destruct (effect q ps _ (rows, t)). Qed.
Next Obligation. done. Qed.

(** How the elder's end looks when only [n] statements are accepted: the rows
    left, and who is flagged. *)
Definition end_of_elder (n : nat) : bool * list bool * list bool :=
  let '(res, (d, s)) := ik_cmd_kill (fun _ => true) (fun _ => 7%Z) 1 false None ((rows, Idle, n), mk_agents (kin_tree elder) ∅ []) in
  (match res with Ret _ => true | _ => false end, (fun a => bool_decide (uuid a ∈ committed d)) <$> kin, is_dead s <$> kin).

(** The second row cannot be marked: the first is marked again as running.
    The first notification is refused: the rows of the elder and the
    grandchild are gone, but the grandchild is not flagged. *)
Example refused_statements :
  end_of_elder 2 = (false, [true; true; true; true], [false; false; false; false]) /\
  end_of_elder 5 = (false, [true; false; false; true], [false; true; false; false]) /\
  end_of_elder 9 = (true, [true; false; false; true], [false; true; true; false]).
Proof. by vm_compute. Qed.


End AgentCommandExamples.
