(* ===== verification/Tools.v ===== *)
(** * Tools as the agents use them (tool_registry.c, tool_discovery.c,
    tool_external.c, tool_executor.c, tool_wrapper.c, tool_arg_parser.c,
    repl_tool_json.c)

    The registry of tools, how they are found and run, and the JSON an agent
    gets as the result of a call. *)

From Stdlib Require Import String Sorted.
From stdpp Require Import strings gmap sorting.
From S2P Require Import Prelude Slots CString Utf8 ByteArray Json RequestJson Growing Format Paths Database ListTool.

Inductive ik_tool_type := IK_TOOL_EXTERNAL | IK_TOOL_INTERNAL.

(** Handlers and completion hooks are known by [Fn] and [Hook]. *)
Record registered_tool (Fn Hook : Type) := mk_tool_entry {
  tool_name : cstr;
  tool_path : option cstr;
  schema_root : json;
  tool_type : ik_tool_type;
  handler : option Fn;
  on_complete : option Hook
}.
Arguments mk_tool_entry {Fn Hook}.
Arguments tool_name {Fn Hook}.
Arguments tool_path {Fn Hook}.
Arguments schema_root {Fn Hook}.
Arguments tool_type {Fn Hook}.
Arguments handler {Fn Hook}.
Arguments on_complete {Fn Hook}.

#[export] Instance tool_entry_inhabited Fn Hook : Inhabited (registered_tool Fn Hook) :=
  populate (mk_tool_entry [] None JNull IK_TOOL_EXTERNAL None None).

(** strcmp(a, b) <= 0, of unsigned bytes. *)
Fixpoint strcmp_le (a b : cstr) : bool :=
  match a, b with
  | [], _ => true
  | _ :: _, [] => false
  | x :: a, y :: b => if (x =? y)%Z then strcmp_le a b else (x <? y)%Z
  end.

(** ** tool_registry.c *)

Section registry.
Context `{!SlotAllocator} {Fn Hook : Type}.
Notation entry := (registered_tool Fn Hook).
Notation registry := (growing entry).

Definition ik_tool_registry_create : registry := mk_growing (replicate 16 inhabitant) 0 16.

(** The index of the first of [n] entries from the [i]-th on with the name. *)
Fixpoint entry_index (slots : list entry) (nm : cstr) (n i : nat) : outcome (option nat) :=
  match n with
  | 0 => Ret None
  | S n => let! e := arr_get slots i in if strcmp_eq (tool_name e) nm then Ret (Some i) else entry_index slots nm n (S i)
  end.

Definition ik_tool_registry_lookup (g : registry) (nm : cstr) : outcome (option entry) :=
  let! found := entry_index (items g) nm (used g) 0 in
  match found with
  | None => Ret None
  | Some i => let! e := arr_get (items g) i in Ret (Some e)
  end.

(** An entry of the same name is replaced in its place. *)
Definition put_entry (g : registry) (e : entry) : outcome registry :=
  let! existing := entry_index (items g) (tool_name e) (used g) 0 in
  match existing with
  | Some i => let! slots := arr_set i e (items g) in Ret (mk_growing slots (used g) (room g))
  | None => push 0 g e
  end.

Definition ik_tool_registry_add (g : registry) (nm path : cstr) (schema : json) : outcome registry :=
  put_entry g (mk_tool_entry nm (Some path) schema IK_TOOL_EXTERNAL None None).

Definition ik_tool_registry_add_internal (g : registry) (nm : cstr) (schema : json) (h : Fn) (k : option Hook) : outcome registry :=
  put_entry g (mk_tool_entry nm None schema IK_TOOL_INTERNAL (Some h) k).

Definition ik_tool_registry_clear (g : registry) : registry := mk_growing (items g) 0 (room g).

(** The first [n] schemas. *)
Fixpoint schemas (slots : list entry) (n i : nat) : outcome (list json) :=
  match n with
  | 0 => Ret []
  | S n => let! e := arr_get slots i in let! l := schemas slots n (S i) in Ret (schema_root e :: l)
  end.

Definition ik_tool_registry_build_all (g : registry) : outcome json := let! l := schemas (items g) (used g) 0 in Ret (JArr l).

Definition entry_le (a b : entry) : Prop := strcmp_le (tool_name a) (tool_name b) = true.
#[export] Instance entry_le_dec : RelDecision entry_le.
Proof. unfold RelDecision, entry_le. solve_decision. Defined.

(** qsort of the entries in use.  Names are distinct, so that there is only one
    sorted order. *)
Definition ik_tool_registry_sort (g : registry) : registry :=
  if (used g <=? 1)%nat then g
  else mk_growing (merge_sort entry_le (take (used g) (items g)) ++ drop (used g) (items g)) (used g) (room g).

End registry.

(** ** tool_wrapper.c *)

Section wrapping.
Context `{!Yyjson}.

Definition ik_tool_wrap_failure (error error_code : cstr) : outcome cstr :=
  or_panic (yyjson_write (JObj (put_val "error_code" (JStr error_code) (put_val "error" (JStr error) (put_val "tool_success" (JBool false) []))))).

Definition ik_tool_wrap_success (tool_result_json : cstr) : outcome cstr :=
  match yyjson_read tool_result_json with
  | None => ik_tool_wrap_failure (lit "Tool returned invalid JSON") (lit "INVALID_OUTPUT")
  | Some result => or_panic (yyjson_write (JObj (put_val "result" result (put_val "tool_success" (JBool true) []))))
  end.

(** ** tool_arg_parser.c *)

Definition arg_value (arguments_json key : option cstr) : option json :=
  match arguments_json, key with
  | Some args, Some key =>
      match yyjson_read args with
      | Some (JObj fs) => find_field fs key
      | _ => None
      end
  | _, _ => None
  end.

Definition ik_tool_arg_get_string (arguments_json key : option cstr) : option cstr := yyjson_get_str (arg_value arguments_json key).

(** The value of [*out_value], when there is one. *)
Definition ik_tool_arg_get_int (arguments_json key : option cstr) : option Z :=
  let v := arg_value arguments_json key in
  if yyjson_is_int v then Some (int32_wrap (yyjson_get_sint v)) else None.

(** ** repl_tool_json.c

    A string that is NULL cannot be added; without text there is no "thinking". *)

Definition add_str_or_panic (k : string) (s : option cstr) (o : fields) : outcome fields := or_panic (yyjson_mut_obj_add_str o (lit k) s).

Definition ik_build_tool_call_data_json (tc : ik_tool_call) (thinking_text thinking_signature redacted_data : option cstr)
  : outcome cstr :=
  let! o := add_str_or_panic "tool_call_id" (Some (tc_id tc)) [] in
  let! o := add_str_or_panic "tool_name" (Some (tc_name tc)) o in
  let! o := add_str_or_panic "tool_args" (tc_arguments tc) o in
  let! o := match thinking_text with
            | None => Ret o
            | Some t =>
                let! th := add_str_or_panic "text" (Some t) [] in
                let! th := match thinking_signature with None => Ret th | sg => add_str_or_panic "signature" sg th end in
                Ret (put_val "thinking" (JObj th) o)
            end in
  let! o := match redacted_data with
            | None => Ret o
            | Some d => let! rd := add_str_or_panic "data" (Some d) [] in Ret (put_val "redacted_thinking" (JObj rd) o)
            end in
  or_panic (yyjson_write (JObj o)).

Definition ik_build_tool_result_data_json (tool_call_id tool_name result_json : cstr) : outcome cstr :=
  let success := match yyjson_read result_json with
                 | Some root => yyjson_get_bool (yyjson_obj_get (Some root) (lit "tool_success"))
                 | None => false
                 end in
  or_panic (yyjson_write (JObj (put_val "success" (JBool success) (put_val "output" (JStr result_json)
              (put_val "name" (JStr tool_name) (put_val "tool_call_id" (JStr tool_call_id) [])))))).

End wrapping.

(** ** tool_external.c *)

(** What a child process leaves: all it prints, and its exit status if it exits
    by itself. *)
Record child := mk_child { child_stdout : list Z; child_stderr : list Z; child_status : option Z }.

(** err_t of a failed call: the code and its message, cut to 255 bytes. *)
Definition failure (e : err_code) (msg : cstr) : err_code * cstr := (e, snprintf 256 msg).

(** The text read into an array of 65536 bytes. *)
Definition read_buffer (bytes : list Z) : cstr := until_nul (take 65535 bytes).

Definition child_result (c : child) : (err_code * cstr) + cstr :=
  if match child_status c with Some 0%Z => true | _ => false end then
    match child_stdout c with
    | [] => inl (failure ERR_IO (lit "Tool produced no output"))
    | out => inr (read_buffer out)
    end
  else
    match child_stderr c with
    | [] => inl (failure ERR_IO (lit "Tool exited with non-zero status"))
    | errs => inl (failure ERR_IO (lit "Tool failed: " ++ read_buffer errs))
    end.

Section execution.
Context `{!SlotAllocator} `{!Yyjson} {Fn Hook W : Type}.

(** [spawn] runs the program at a path with IKIGAI_AGENT_ID set and its input;
    it may change the world [W]; without a process there is an error. *)
Context (spawn : cstr -> option cstr -> cstr -> W -> ((err_code * cstr) + child) * W).
Context (paths : ik_paths).
Notation registry := (growing (registered_tool Fn Hook)).

Definition ik_tool_external_exec (path : cstr) (agent_id : option cstr) (arguments_json : cstr) (w : W) : ((err_code * cstr) + cstr) * W :=
  let '(r, w) := spawn path agent_id arguments_json w in
  (match r with inl e => inl e | inr c => child_result c end, w).

(** ** tool_executor.c

    The only error of the translations is that of a NULL text; a tool without a
    path is not run by this function. *)
Definition ik_tool_execute_from_registry (registry : option registry) (agent_id : option cstr) (nm : cstr) (arguments : option cstr) (w : W)
  : outcome cstr * W :=
  match registry with
  | None => (ik_tool_wrap_failure (lit "Tool registry not initialized") (lit "registry_unavailable"), w)
  | Some registry =>
      match ik_tool_registry_lookup registry nm with
      | Ret None => (ik_tool_wrap_failure (lit "Tool not found in registry") (lit "tool_not_found"), w)
      | Ret (Some entry) =>
          match ik_paths_translate_ik_uri_to_path paths arguments with
          | Ret translated_args =>
              match tool_path entry with
              | None => (Undef, w)
              | Some path =>
                  let '(res, w) := ik_tool_external_exec path agent_id translated_args w in
                  (match res with
                   | inl (_, msg) => ik_tool_wrap_failure msg (lit "execution_failed")
                   | inr raw_result =>
                       let! translated_result := ik_paths_translate_path_to_ik_uri paths (Some raw_result) in
                       ik_tool_wrap_success translated_result
                   end, w)
              end
          | Fail _ => (ik_tool_wrap_failure (lit "input is NULL") (lit "translation_failed"), w)
          | Panic => (Panic, w)
          | Undef => (Undef, w)
          | NoFuel => (NoFuel, w)
          end
      | Fail e => (Fail e, w)
      | Panic => (Panic, w)
      | Undef => (Undef, w)
      | NoFuel => (NoFuel, w)
      end
  end.

(** ** repl_tool.c: the worker thread

    A handler gives NULL or a result that is already wrapped. *)
Context (call_handler : Fn -> cstr -> W -> option (outcome cstr) * W).

Definition run_tool (registry : option registry) (agent_id : option cstr) (nm arguments : cstr) (w : W) : outcome cstr * W :=
  let external := ik_tool_execute_from_registry registry agent_id nm (Some arguments) w in
  match registry with
  | None => external
  | Some g =>
      match ik_tool_registry_lookup g nm with
      | Ret (Some (mk_tool_entry _ _ _ IK_TOOL_INTERNAL h _)) =>
          match h with
          | None => (Undef, w)
          | Some h =>
              let '(r, w) := call_handler h arguments w in
              (match r with Some r => r | None => ik_tool_wrap_failure (lit "Handler returned NULL") (lit "INTERNAL_ERROR") end, w)
          end
      | _ => external
      end
  end.

End execution.

(** ** tool_discovery.c *)

Definition tool_suffix : cstr := lit "-tool".

Definition ends_with (s suffix : cstr) : bool :=
  (length suffix <? length s)%nat && strcmp_eq (drop (length s - length suffix) s) suffix.

(** After the last slash. *)
Fixpoint after_slash (s acc : cstr) : cstr := match s with [] => acc | c :: s => after_slash s (if (c =? 47)%Z then s else acc) end.

Definition extract_tool_name (path : cstr) : outcome cstr :=
  let base := after_slash path path in
  if ends_with base tool_suffix then
    Ret ((fun c => if (c =? 45)%Z then 95%Z else c) <$> take (length base - length tool_suffix) base)
  else Panic.

Section discovery.
Context `{!SlotAllocator} `{!Yyjson} {Fn Hook : Type}.
Notation registry := (growing (registered_tool Fn Hook)).

(** opendir and readdir, the execution bit of a file, and what a program
    prints when it is asked for its schema, within the time. *)
Context (read_dir : cstr -> option (list cstr)) (is_executable : cstr -> bool) (ask_schema : cstr -> child).

Definition call_tool_schema (tool_path : cstr) : option json :=
  let c := ask_schema tool_path in
  if (length (child_stdout c) =? 0)%nat || match child_status c with Some 0%Z => false | _ => true end then None
  else yyjson_read (take 8191 (child_stdout c)).

Fixpoint scan_entries (dir_path : cstr) (names : list cstr) (g : registry) : outcome registry :=
  match names with
  | [] => Ret g
  | nm :: names =>
      let full_path := dir_path ++ lit "/" ++ nm in
      if strcmp_eq nm (lit ".") || strcmp_eq nm (lit "..") then scan_entries dir_path names g
      else if negb (is_executable full_path) then scan_entries dir_path names g
      else if negb (ends_with nm tool_suffix) then scan_entries dir_path names g
      else
        match call_tool_schema full_path with
        | None => scan_entries dir_path names g
        | Some schema =>
            let! name_ := extract_tool_name full_path in
            let! g := ik_tool_registry_add g name_ full_path schema in
            scan_entries dir_path names g
        end
  end.

Definition scan_directory (dir_path : cstr) (g : registry) : outcome registry :=
  match read_dir dir_path with None => Ret g | Some names => scan_entries dir_path names g end.

Definition ik_tool_discovery_run (system_dir user_dir project_dir : cstr) (g : registry) : outcome registry :=
  let! g := scan_directory system_dir g in
  let! g := scan_directory user_dir g in
  let! g := scan_directory project_dir g in
  Ret (ik_tool_registry_sort g).

End discovery.

(** ** The registry as a map *)

Lemma strcmp_le_total a b : strcmp_le a b = true \/ strcmp_le b a = true.
Proof.
  revert b. induction a as [|x a IH]; intros [|y b]; cbn [strcmp_le]; auto. destruct (Z.eqb_spec x y) as [->|Hne].
  - rewrite Z.eqb_refl. apply IH.
  - rewrite (proj2 (Z.eqb_neq y x)) by done. rewrite !Z.ltb_lt. lia.
Qed.

Lemma strcmp_le_trans a b c : strcmp_le a b = true -> strcmp_le b c = true -> strcmp_le a c = true.
Proof.
  revert b c. induction a as [|x a IH]; intros [|y b] [|z c]; cbn [strcmp_le]; auto; try done.
  destruct (Z.eqb_spec x y), (Z.eqb_spec y z), (Z.eqb_spec x z); subst; rewrite ?Z.ltb_lt; try lia; try done. by apply IH.
Qed.

Section registry_lemmas.
Context `{!SlotAllocator} `{!SlotAllocatorSpec} {Fn Hook : Type}.
Notation entry := (registered_tool Fn Hook).
Notation registry := (growing entry).
Implicit Types (g : registry) (l : list entry) (m : gmap (list Z) entry).

#[local] Instance entry_le_total : Total (@entry_le Fn Hook).
Proof. intros a b. apply strcmp_le_total. Qed.
#[local] Instance entry_le_trans : Transitive (@entry_le Fn Hook).
Proof. intros a b c. apply strcmp_le_trans. Qed.

Definition named (nm : cstr) (e : entry) : Prop := tool_name e = nm.
#[local] Instance named_dec nm e : Decision (named nm e).
Proof. unfold named. apply _. Defined.

Lemma entry_index_ok nm rest l : forall d, entry_index (d ++ l ++ rest) nm (length l) (length d) = Ret ((fun p => length d + fst p) <$> list_find (named nm) l).
Proof.
  induction l as [|e l IH]; intros d; [done|]. cbn [entry_index length app list_find]. rewrite arr_get_app. cbn [obind].
  unfold strcmp_eq. destruct (decide (named nm e)) as [Hn|Hn].
  - rewrite bool_decide_eq_true_2 by done. cbn. do 2 f_equal. lia.
  - rewrite bool_decide_eq_false_2 by done. specialize (IH (d ++ [e])). rewrite <- app_assoc in IH. cbn [app] in IH.
    rewrite length_app, Nat.add_1_r in IH. rewrite IH. destruct (list_find (named nm) l) as [[i x]|]; [|done]. cbn. do 2 f_equal. lia.
Qed.

(** Distinct names, and what the map says. *)
Definition lists (l : list entry) (m : gmap (list Z) entry) : Prop :=
  NoDup (tool_name <$> l) /\ forall nm e, m !! nm = Some e <-> e ∈ l /\ tool_name e = nm.

Lemma index_ok g l nm : grown_to g l -> entry_index (items g) nm (used g) 0 = Ret (fst <$> list_find (named nm) l).
Proof.
  intros [(rest & ->) -> _ _]. exact (entry_index_ok nm rest l []).
Qed.

Lemma find_in_registry l m nm : lists l m ->
  match list_find (named nm) l with Some (i, e) => l !! i = Some e /\ tool_name e = nm /\ m !! nm = Some e | None => m !! nm = None end.
Proof.
  intros [Hnd Hm]. destruct (list_find (named nm) l) as [[i e]|] eqn:E.
  - apply list_find_Some in E as (Hi & Hn & _). split; [done|]. split; [done|]. apply Hm. split; [by eapply list_elem_of_lookup_2|done].
  - apply list_find_None in E. destruct (m !! nm) as [e|] eqn:Em; [|done]. apply Hm in Em as [He Hn].
    rewrite Forall_forall in E. by apply E in He.
Qed.

Lemma lookup_entry_ok g l m nm : grown_to g l -> lists l m -> ik_tool_registry_lookup g nm = Ret (m !! nm).
Proof.
  intros Hg Hl. unfold ik_tool_registry_lookup. rewrite (index_ok g l) by done. cbn [obind]. pose proof (find_in_registry l m nm Hl) as Hf.
  destruct (list_find (named nm) l) as [[i e]|]; cbn [fmap option_fmap option_map fst]; [|by rewrite Hf].
  destruct Hf as (Hi & _ & ->). destruct (grown_items _ _ Hg) as [rest ->]. by rewrite (arr_get_lookup l rest i e).
Qed.

Lemma listed_insert l m i e old : lists l m -> l !! i = Some old -> tool_name old = tool_name e -> lists (<[i := e]> l) (<[tool_name e := e]> m).
Proof.
  intros [Hnd Hm] Hi En. assert (tool_name <$> <[i := e]> l = tool_name <$> l) as Enames.
  { rewrite list_fmap_insert. apply list_insert_id. by rewrite list_lookup_fmap, Hi, <- En. }
  split; [by rewrite Enames|]. intros nm x. pose proof (lookup_lt_Some _ _ _ Hi) as Hlt.
  assert (x ∈ <[i := e]> l <-> x = e \/ (x ∈ l /\ tool_name x <> tool_name e)) as Hx.
  { split.
    - intros [j Hj]%list_elem_of_lookup_1. apply list_lookup_insert_Some in Hj as [(<- & <- & _)|[Hne Hj]]; [by left|].
      right. split; [by eapply list_elem_of_lookup_2|]. intros E. apply Hne. symmetry.
      apply (NoDup_lookup (tool_name <$> l) j i (tool_name e) Hnd); rewrite list_lookup_fmap; [by rewrite Hj, <- E|by rewrite Hi, <- En].
    - intros [->|[[j Hj]%list_elem_of_lookup_1 Hne]].
      + apply (list_elem_of_lookup_2 _ i). by apply list_lookup_insert_eq.
      + apply (list_elem_of_lookup_2 _ j). rewrite list_lookup_insert_ne; [done|]. intros ->. congruence. }
  destruct (decide (nm = tool_name e)) as [->|Hne].
  - rewrite lookup_insert_eq, Hx. naive_solver.
  - rewrite lookup_insert_ne by done. rewrite Hm, Hx. naive_solver.
Qed.

Lemma listed_snoc l m e : lists l m -> m !! tool_name e = None -> lists (l ++ [e]) (<[tool_name e := e]> m).
Proof.
  intros [Hnd Hm] He. split.
  - rewrite fmap_app. apply NoDup_app. split; [done|]. split; [|apply NoDup_singleton].
    intros nm (x & -> & Hx)%list_elem_of_fmap Hin. apply list_elem_of_singleton in Hin.
    assert (m !! tool_name x = Some x) as Ex by (by apply Hm). rewrite Hin in Ex. congruence.
  - intros nm x. rewrite elem_of_app, list_elem_of_singleton. destruct (decide (nm = tool_name e)) as [->|Hne].
    + rewrite lookup_insert_eq. split; [intros [= ->]; auto|]. intros [[Hx|Hx] En]; [|congruence].
      assert (m !! tool_name x = Some x) as Ex by (by apply Hm). rewrite En in Ex. congruence.
    + rewrite lookup_insert_ne by done. rewrite Hm. naive_solver.
Qed.

Lemma put_entry_ok g l m e : grown_to g l -> lists l m -> (Z.of_nat (length l) < 2 ^ 28)%Z -> room g <> 0 ->
  exists g' l', put_entry g e = Ret g' /\ grown_to g' l' /\ lists l' (<[tool_name e := e]> m) /\ length l' <= S (length l) /\ room g' <> 0.
Proof.
  intros Hg Hl Hb Hne. unfold put_entry. rewrite (index_ok g l) by done. cbn [obind]. pose proof (find_in_registry l m (tool_name e) Hl) as Hf.
  destruct (list_find (named (tool_name e)) l) as [[i old]|]; cbn [fmap option_fmap option_map fst].
  - destruct Hf as (Hi & En & _). destruct Hg as [(rest & Er) Eu Em Hr]. rewrite Er, (arr_set_lookup e old l rest i) by done. cbn [obind].
    eexists _, (<[i := e]> l). split; [reflexivity|]. split.
    + constructor; cbn [items used room]; [by exists rest|by rewrite length_insert|rewrite Em, Er, !length_app, length_insert; done|done].
    + split; [by eapply listed_insert|]. rewrite length_insert. split; [lia|done].
  - destruct (push_ok 16 g l e Hg ltac:(lia) Hb) as (g' & E & Hg').
    assert (push 0 g e = push 16 g e) as Ep.
    { unfold push, grow. by rewrite (proj2 (Nat.eqb_neq _ _)). }
    rewrite Ep. exists g', (l ++ [e]). split; [done|]. split; [done|]. split; [by apply listed_snoc|]. rewrite length_app. cbn [length].
    split; [lia|]. pose proof (grown_room _ _ Hg') as Er. destruct (grown_items _ _ Hg') as [rest Ei]. rewrite Er, Ei, !length_app. cbn [length]. lia.
Qed.

Lemma sort_ok g l m : grown_to g l -> lists l m ->
  exists l', grown_to (ik_tool_registry_sort g) l' /\ lists l' m /\ length l' = length l /\ StronglySorted entry_le l' /\ room (ik_tool_registry_sort g) = room g.
Proof.
  intros Hg [Hnd Hm]. unfold ik_tool_registry_sort. destruct (Nat.leb_spec (used g) 1) as [Hu|Hu].
  - exists l. split; [done|]. split; [done|]. split; [done|]. split; [|done]. rewrite (grown_used _ _ Hg) in Hu.
    destruct l as [|a [|b l]]; [constructor|repeat constructor|cbn [length] in Hu; lia].
  - destruct Hg as [(rest & Er) Eu Em Hr]. pose proof (merge_sort_Permutation entry_le l) as Hp. exists (merge_sort entry_le l).
    rewrite Er, Eu, take_app_length, drop_app_length. split; [|split; [|split; [by rewrite Hp|split; [apply StronglySorted_merge_sort; apply _|done]]]].
    + constructor; cbn [items used room]; [by exists rest|by rewrite Hp|rewrite Em, Er, !length_app, Hp; done|done].
    + split; [by rewrite Hp|]. intros nm e. by rewrite Hp, Hm.
Qed.

Lemma schemas_ok rest l : forall d, schemas (d ++ l ++ rest) (length l) (length d) = Ret (schema_root <$> l).
Proof.
  induction l as [|e l IH]; intros d; [done|]. cbn [schemas length app]. rewrite arr_get_app. cbn [obind].
  specialize (IH (d ++ [e])). rewrite <- app_assoc in IH. cbn [app] in IH. rewrite length_app, Nat.add_1_r in IH. by rewrite IH.
Qed.

(** What can be done with a registry. *)
Inductive registry_op :=
| AddExternal (nm path : cstr) (schema : json)
| AddInternal (nm : cstr) (schema : json) (h : Fn) (k : option Hook)
| SortTools
| ClearTools.

Definition registry_step (g : registry) (op : registry_op) : outcome registry :=
  match op with
  | AddExternal nm path schema => ik_tool_registry_add g nm path schema
  | AddInternal nm schema h k => ik_tool_registry_add_internal g nm schema h k
  | SortTools => Ret (ik_tool_registry_sort g)
  | ClearTools => Ret (ik_tool_registry_clear g)
  end.

Fixpoint registry_run (g : registry) (ops : list registry_op) : outcome registry :=
  match ops with [] => Ret g | op :: ops => let! g := registry_step g op in registry_run g ops end.

Definition map_step (m : gmap (list Z) entry) (op : registry_op) : gmap (list Z) entry :=
  match op with
  | AddExternal nm path schema => <[nm := mk_tool_entry nm (Some path) schema IK_TOOL_EXTERNAL None None]> m
  | AddInternal nm schema h k => <[nm := mk_tool_entry nm None schema IK_TOOL_INTERNAL (Some h) k]> m
  | SortTools => m
  | ClearTools => ∅
  end.

Definition is_sort (op : registry_op) : bool := match op with SortTools => true | _ => false end.

Lemma registry_step_ok g l m op : grown_to g l -> lists l m -> (Z.of_nat (length l) < 2 ^ 28)%Z -> room g <> 0 ->
  exists g' l', registry_step g op = Ret g' /\ grown_to g' l' /\ lists l' (map_step m op) /\ length l' <= S (length l) /\ room g' <> 0 /\
    (is_sort op = true -> StronglySorted entry_le l').
Proof.
  intros Hg Hl Hb Hr. destruct op as [nm path schema|nm schema h k| |]; cbn [registry_step map_step is_sort].
  - destruct (put_entry_ok g l m (mk_tool_entry nm (Some path) schema IK_TOOL_EXTERNAL None None) Hg Hl Hb Hr) as (g' & l' & E & ?).
    exists g', l'. split; [done|]. naive_solver.
  - destruct (put_entry_ok g l m (mk_tool_entry nm None schema IK_TOOL_INTERNAL (Some h) k) Hg Hl Hb Hr) as (g' & l' & E & ?).
    exists g', l'. split; [done|]. naive_solver.
  - destruct (sort_ok g l m Hg Hl) as (l' & Hg' & Hl' & El & Hs & Er). eexists _, l'. split; [reflexivity|].
    rewrite El, Er. split; [done|]. split; [done|]. split; [lia|]. by split.
  - exists (ik_tool_registry_clear g), []. split; [done|]. destruct Hg as [_ _ Em Hr']. split; [constructor; cbn; [by eexists|done|done|done]|].
    split; [split; [constructor|]|split; [cbn; lia|by split]]. intros nm e. rewrite lookup_empty, elem_of_nil. naive_solver.
Qed.

Lemma registry_run_ok ops : forall g l m, grown_to g l -> lists l m -> (Z.of_nat (length l + length ops) < 2 ^ 28)%Z -> room g <> 0 ->
  exists g' l', registry_run g ops = Ret g' /\ grown_to g' l' /\ lists l' (foldl map_step m ops) /\
    (option_map is_sort (last ops) = Some true -> StronglySorted entry_le l').
Proof.
  induction ops as [|op ops IH]; intros g l m Hg Hl Hb Hr; [by exists g, l|]. cbn [length] in Hb.
  destruct (registry_step_ok g l m op Hg Hl ltac:(lia) Hr) as (g1 & l1 & E1 & Hg1 & Hl1 & Hlen & Hr1 & Hs1).
  cbn [registry_run foldl]. rewrite E1. cbn [obind].
  destruct (IH g1 l1 (map_step m op) Hg1 Hl1 ltac:(lia) Hr1) as (g2 & l2 & E2 & Hg2 & Hl2 & Hs2). destruct ops as [|op2 ops].
  - exists g1, l1. split; [done|]. split; [done|]. split; [done|]. cbn. intros [= Hop]. by apply Hs1.
  - exists g2, l2. split; [done|]. split; [done|]. split; [done|]. exact Hs2.
Qed.

End registry_lemmas.


(** ** What an agent is told of a call *)

Definition failure_report (error error_code : cstr) : json :=
  JObj [(lit "tool_success", JBool false); (lit "error", JStr error); (lit "error_code", JStr error_code)].

Section reports.
Context `{!SlotAllocator} `{!Yyjson} `{!YyjsonSpec} {Fn Hook W : Type}.
Context (spawn : cstr -> option cstr -> cstr -> W -> ((err_code * cstr) + child) * W) (paths : ik_paths).
Context (call_handler : Fn -> cstr -> W -> option (outcome cstr) * W).
Notation entry := (registered_tool Fn Hook).

(** What a child process reports: the value it prints, when it succeeds, with
    references in the place of paths; what it complains of, when it does not. *)
Inductive child_reports : child -> json -> Prop :=
| reports_value out errs uris v :
    out <> [] -> length out <= 65535 -> (0%Z ∉ out) ->
    ik_paths_translate_path_to_ik_uri paths (Some out) = Ret uris -> yyjson_read uris = Some v ->
    child_reports (mk_child out errs (Some 0%Z)) (JObj [(lit "tool_success", JBool true); (lit "result", v)])
| reports_garbage out errs uris :
    out <> [] -> length out <= 65535 -> (0%Z ∉ out) ->
    ik_paths_translate_path_to_ik_uri paths (Some out) = Ret uris -> yyjson_read uris = None ->
    child_reports (mk_child out errs (Some 0%Z)) (failure_report (lit "Tool returned invalid JSON") (lit "INVALID_OUTPUT"))
| reports_silence errs :
    child_reports (mk_child [] errs (Some 0%Z)) (failure_report (lit "Tool produced no output") (lit "execution_failed"))
| reports_complaint out errs status :
    status <> Some 0%Z -> errs <> [] -> length errs <= 65535 -> (0%Z ∉ errs) ->
    child_reports (mk_child out errs status) (failure_report (take 255 (lit "Tool failed: " ++ errs)) (lit "execution_failed"))
| reports_failure out status :
    status <> Some 0%Z ->
    child_reports (mk_child out [] status) (failure_report (lit "Tool exited with non-zero status") (lit "execution_failed")).

(** What a call reports, and the world it leaves. *)
Inductive call_reports (agent_id : option cstr) (nm arguments : cstr) (w : W) : option (growing entry) -> json -> W -> Prop :=
| call_no_registry : call_reports agent_id nm arguments w None
    (failure_report (lit "Tool registry not initialized") (lit "registry_unavailable")) w
| call_no_tool g : ik_tool_registry_lookup g nm = Ret None ->
    call_reports agent_id nm arguments w (Some g) (failure_report (lit "Tool not found in registry") (lit "tool_not_found")) w
| call_no_process g path schema k args e msg w' :
    ik_tool_registry_lookup g nm = Ret (Some (mk_tool_entry nm (Some path) schema IK_TOOL_EXTERNAL None k)) ->
    ik_paths_translate_ik_uri_to_path paths (Some arguments) = Ret args -> spawn path agent_id args w = (inl (e, msg), w') ->
    call_reports agent_id nm arguments w (Some g) (failure_report msg (lit "execution_failed")) w'
| call_process g path schema k args c v w' :
    ik_tool_registry_lookup g nm = Ret (Some (mk_tool_entry nm (Some path) schema IK_TOOL_EXTERNAL None k)) ->
    ik_paths_translate_ik_uri_to_path paths (Some arguments) = Ret args -> spawn path agent_id args w = (inr c, w') ->
    child_reports c v -> call_reports agent_id nm arguments w (Some g) v w'
| call_null g p schema k h w' :
    ik_tool_registry_lookup g nm = Ret (Some (mk_tool_entry nm p schema IK_TOOL_INTERNAL (Some h) k)) ->
    call_handler h arguments w = (None, w') ->
    call_reports agent_id nm arguments w (Some g) (failure_report (lit "Handler returned NULL") (lit "INTERNAL_ERROR")) w'
| call_internal g p schema k h s v w' :
    ik_tool_registry_lookup g nm = Ret (Some (mk_tool_entry nm p schema IK_TOOL_INTERNAL (Some h) k)) ->
    call_handler h arguments w = (Some (Ret s), w') -> yyjson_read s = Some v ->
    call_reports agent_id nm arguments w (Some g) v w'.

Lemma wrap_failure_ok error code : writable (failure_report error code) ->
  exists s, ik_tool_wrap_failure error code = Ret s /\ yyjson_read s = Some (failure_report error code).
Proof.
  intros Hw. destruct (write_some _ Hw) as [s Es]. exists s. split; [|by apply write_read].
  unfold ik_tool_wrap_failure. change (JObj _) with (failure_report error code). by rewrite Es.
Qed.

Lemma read_buffer_id bytes : length bytes <= 65535 -> (0%Z ∉ bytes) -> read_buffer bytes = bytes.
Proof.
  intros Hl Hz. unfold read_buffer. rewrite take_ge by (etrans; [exact Hl|]; apply Nat.leb_le; vm_compute; reflexivity).
  by apply until_nul_id.
Qed.

Lemma not_success (st : option Z) : st <> Some 0%Z -> match st with Some 0%Z => true | _ => false end = false.
Proof. by destruct st as [[]|]. Qed.

Lemma child_reports_ok c v : child_reports c v -> writable v -> exists s,
  match child_result c with
  | inl (_, msg) => ik_tool_wrap_failure msg (lit "execution_failed")
  | inr raw => let! t := ik_paths_translate_path_to_ik_uri paths (Some raw) in ik_tool_wrap_success t
  end = Ret s /\ yyjson_read s = Some v.
Proof.
  intros Hc Hw. unfold child_result. destruct Hc as [out errs uris v Hne Hl Hz Et Er|out errs uris Hne Hl Hz Et Er|errs|out errs st Hst Hne Hl Hz|out st Hst]; cbn [child_status child_stdout child_stderr].
  - destruct out as [|b out]; [done|]. rewrite read_buffer_id, Et by done. cbn [obind]. unfold ik_tool_wrap_success. rewrite Er.
    destruct (write_some _ Hw) as [s Es]. exists s. split; [|by apply write_read].
    change (put_val "result" _ _) with [(lit "tool_success", JBool true); (lit "result", v)]. by rewrite Es.
  - destruct out as [|b out]; [done|]. rewrite read_buffer_id, Et by done. cbn [obind]. unfold ik_tool_wrap_success. rewrite Er.
    by apply wrap_failure_ok.
  - by apply wrap_failure_ok.
  - rewrite not_success by done.
    destruct errs as [|b errs]; [done|]. rewrite read_buffer_id by done. exact (wrap_failure_ok _ _ Hw).
  - rewrite not_success by done. by apply wrap_failure_ok.
Qed.

Lemma run_tool_ok registry agent_id nm arguments w v w' :
  call_reports agent_id nm arguments w registry v w' -> writable v ->
  exists s, run_tool spawn paths call_handler registry agent_id nm arguments w = (Ret s, w') /\ yyjson_read s = Some v.
Proof.
  intros Hc Hw. unfold run_tool, ik_tool_execute_from_registry, ik_tool_external_exec.
  destruct Hc as [|g El|g path schema k args e msg w' El Et Ep|g path schema k args c v w' El Et Ep Hc|g p schema k h w' El Eh|g p schema k h s v w' El Eh Er].
  - destruct (wrap_failure_ok _ _ Hw) as (s & -> & ?). by exists s.
  - rewrite El. destruct (wrap_failure_ok _ _ Hw) as (s & -> & ?). by exists s.
  - rewrite El. cbn [tool_path]. rewrite Et, Ep. destruct (wrap_failure_ok _ _ Hw) as (s & -> & ?). by exists s.
  - rewrite El. cbn [tool_path]. rewrite Et, Ep. destruct (child_reports_ok c v Hc Hw) as (s & E & ?). exists s. split; [|done]. by rewrite E.
  - rewrite El, Eh. destruct (wrap_failure_ok _ _ Hw) as (s & -> & ?). by exists s.
  - rewrite El, Eh. by exists s.
Qed.

(** The flag the conversation keeps. *)
Lemma result_data_ok id nm s v : yyjson_read s = Some v -> is_utf8 id -> is_utf8 nm -> is_utf8 s ->
  exists d, ik_build_tool_result_data_json id nm s = Ret d /\
    yyjson_read d = Some (JObj [(lit "tool_call_id", JStr id); (lit "name", JStr nm); (lit "output", JStr s);
      (lit "success", JBool (yyjson_get_bool (yyjson_obj_get (Some v) (lit "tool_success"))))]).
Proof.
  intros Er Hi Hn Hs. unfold ik_build_tool_result_data_json. rewrite Er.
  match goal with |- context [yyjson_write ?j] => assert (writable j) as Hw end.
  { constructor. repeat constructor; cbn [fst snd]; try done; by apply lit_utf8. }
  destruct (write_some _ Hw) as [d Ed]. rewrite Ed. exists d. split; [done|]. apply write_read in Ed. exact Ed.
Qed.

End reports.

Module ToolProps.

(** C29: the registry is a map from names to tools.  After any number of
    additions, sorts and clears, a name finds the tool last added under it,
    replaced in its place if there was one already, the schemas an LLM is sent
    are those of the tools of the map, each once, and after a sort they are in
    the order of the names. *)
Theorem registry_refines_map `{!SlotAllocator} `{!SlotAllocatorSpec} {Fn Hook : Type} (ops : list (@registry_op Fn Hook)) :
  (Z.of_nat (length ops) < 2 ^ 28)%Z ->
  let m := foldl map_step ∅ ops in
  exists g l, registry_run ik_tool_registry_create ops = Ret g /\
    (forall nm, ik_tool_registry_lookup g nm = Ret (m !! nm)) /\
    ik_tool_registry_build_all g = Ret (JArr (schema_root <$> l)) /\
    NoDup (tool_name <$> l) /\ (forall nm e, m !! nm = Some e <-> e ∈ l /\ tool_name e = nm) /\
    (option_map is_sort (last ops) = Some true -> StronglySorted entry_le l).
Proof.
  intros Hb m. destruct (registry_run_ok ops ik_tool_registry_create [] ∅) as (g & l & E & Hg & Hl & Hs).
  - constructor; [by eexists|done..].
  - split; [constructor|]. intros nm e. rewrite lookup_empty, elem_of_nil. naive_solver.
  - exact Hb.
  - done.
  - exists g, l. split; [done|]. split; [intros nm; by apply (lookup_entry_ok g l)|]. split; [|destruct Hl; by split_and!].
    unfold ik_tool_registry_build_all. destruct Hg as [(rest & Er) Eu _ _]. rewrite Er, Eu.
    pose proof (schemas_ok rest l []) as Hs'. cbn [app length] in Hs'. by rewrite Hs'.
Qed.

(** C30: what a tool call reports ([call_reports]), as long as that value can be
    written as JSON.  Without a registry or a tool of the name, when no process
    can be started, when the process exits with an error or prints nothing or no
    JSON, and when the handler of an internal tool answers NULL, the agent gets a
    report of the failure with its code; otherwise the value the process printed,
    with references in the place of paths, or the JSON an internal tool answers.
    The success kept with the message is the one reported.  Not covered are
    output or error text of more than 65535 bytes or with a NUL byte, a process
    that is ended by its timeout, an internal handler that fails or answers no
    JSON, and, since they cannot be written, error text that is not UTF-8 or is
    cut inside a character at its 255th byte. *)
Theorem tool_calls_report `{!SlotAllocator} `{!Yyjson} `{!YyjsonSpec} {Fn Hook W : Type}
    (spawn : cstr -> option cstr -> cstr -> W -> ((err_code * cstr) + child) * W) (paths : ik_paths)
    (call_handler : Fn -> cstr -> W -> option (outcome cstr) * W)
    (registry : option (growing (registered_tool Fn Hook))) (agent_id : option cstr) (nm arguments id : cstr) (w w' : W) (v : json) :
  call_reports spawn paths call_handler agent_id nm arguments w registry v w' -> writable v ->
  exists s, run_tool spawn paths call_handler registry agent_id nm arguments w = (Ret s, w') /\ yyjson_read s = Some v /\
    (is_utf8 id -> is_utf8 nm -> is_utf8 s -> exists d, ik_build_tool_result_data_json id nm s = Ret d /\
       yyjson_obj_get (yyjson_read d) (lit "output") = Some (JStr s) /\
       yyjson_get_bool (yyjson_obj_get (yyjson_read d) (lit "success")) = yyjson_get_bool (yyjson_obj_get (Some v) (lit "tool_success"))).
Proof.
  intros Hc Hw. destruct (run_tool_ok _ _ _ _ _ _ _ _ _ _ Hc Hw) as (s & E & Er). exists s. split; [done|]. split; [done|].
  intros Hi Hn Hs. destruct (result_data_ok id nm s v Er Hi Hn Hs) as (d & Ed & Ed2). exists d. split; [done|]. rewrite Ed2. by split.
Qed.

End ToolProps.

Module ToolExamples.
Import CopySlots SpacedJson PathsExamples ToolProps.

#[local] Notation ops := (list (@registry_op unit unit)).

Definition found_twice : ops :=
  [AddExternal (lit "list") (lit "/s/list-tool") JNull; AddInternal (lit "kill") (JInt 1) tt None;
   AddExternal (lit "list") (lit "/u/list-tool") (JInt 2); SortTools].

(** The user's tool takes the place of the system's. *)
Example user_tool_wins : foldl map_step ∅ found_twice !! lit "list" =
  Some (mk_tool_entry (lit "list") (Some (lit "/u/list-tool")) (JInt 2) IK_TOOL_EXTERNAL None None).
Proof. vm_compute. reflexivity. Qed.

Example schemas_sorted : (let! g := registry_run ik_tool_registry_create found_twice in ik_tool_registry_build_all g) = Ret (JArr [JInt 1; JInt 2]).
Proof. vm_compute. reflexivity. Qed.

Example tool_name_of_path : extract_tool_name (lit "/usr/libexec/ikigai/file-read-tool") = Ret (lit "file_read").
Proof. vm_compute. reflexivity. Qed.

Lemma registry_refines_map_witness : exists g (l : list (registered_tool unit unit)), registry_run ik_tool_registry_create found_twice = Ret g /\
  ik_tool_registry_build_all g = Ret (JArr (schema_root <$> l)) /\ StronglySorted entry_le l.
Proof.
  destruct (registry_refines_map found_twice) as (g & l & Eg & _ & Es & _ & _ & Hs).
  - vm_compute. reflexivity.
  - exists g, l. split; [exact Eg|]. split; [exact Es|]. exact (Hs eq_refl).
Defined.

(** A tool that prints one value. *)
Definition answer : json := JObj [(lit "count", JInt 3)].
Definition answer_text : cstr := default [] (yyjson_write answer) ++ [10%Z].
Definition spawn_answer (path : cstr) (agent_id : option cstr) (args : cstr) (runs : nat) : ((err_code * cstr) + child) * nat :=
  (inr (mk_child answer_text [] (Some 0%Z)), S runs).
Definition no_handler (h : unit) (args : cstr) (runs : nat) : option (outcome cstr) * nat := (None, runs).
Definition list_entry : registered_tool unit unit := mk_tool_entry (lit "list") (Some (lit "/s/list-tool")) JNull IK_TOOL_EXTERNAL None None.
Definition one_tool : growing (registered_tool unit unit) := mk_growing (list_entry :: replicate 15 inhabitant) 1 16.

Lemma tool_calls_report_witness : exists s,
  run_tool spawn_answer some_paths no_handler (Some one_tool) None (lit "list") (lit "{}") 0 = (Ret s, 1) /\
  yyjson_read s = Some (JObj [(lit "tool_success", JBool true); (lit "result", answer)]).
Proof.
  destruct (tool_calls_report spawn_answer some_paths no_handler (Some one_tool) None (lit "list") (lit "{}") (lit "t1") 0 1
              (JObj [(lit "tool_success", JBool true); (lit "result", answer)])) as (s & E & Er & _).
  - eapply call_process; [vm_compute; reflexivity|vm_compute; reflexivity|vm_compute; reflexivity|].
    apply (reports_value _ _ [] answer_text).
    + vm_compute. discriminate.
    + apply Nat.leb_le. vm_compute. reflexivity.
    + apply (bool_decide_unpack _). vm_compute. exact I.
    + vm_compute. reflexivity.
    + vm_compute. reflexivity.
  - repeat first [apply writable_obj|apply Forall_cons|apply Forall_nil|constructor]; cbn [fst snd]; first [by apply lit_utf8|lia].
  - exists s. split; [exact E|exact Er].
Defined.

End ToolExamples.
