(* ===== verification/HistoryFile.v ===== *)
(** * The history file (history_io.c)

    Submitted commands are appended to .ikigai/history, one JSON object a line,
    and read back into the history when the program starts.  Directories, files
    and the clock are a parameter. *)

From Stdlib Require Import String Ascii.
From stdpp Require Import strings gmap.
From S2P Require Import Prelude CString Json RequestJson DocCache ToolIO History.

(** stat, mkdir, fopen, fprintf, the contents of files, and the time as
    gmtime and strftime print it. *)
Class HistoryWorld (W : Type) := {
  is_directory : cstr -> W -> option bool;
  make_directory : cstr -> W -> option errno * W;
  contents : W -> files;
  open_truncated : cstr -> W -> option W;
  open_appending : cstr -> W -> option W;
  append_text : cstr -> list Z -> W -> option W;
  timestamp : W -> option cstr
}.

Definition history_directory : cstr := lit ".ikigai".
Definition history_path : cstr := lit ".ikigai/history".

(** The history keeps strings; a byte is a character of them. *)
Definition text_string (s : cstr) : string := string_of_list_ascii ((fun c => ascii_of_nat (Z.to_nat c)) <$> s).

(** The text up to the line break, which is overwritten by a NUL, and what
    follows it. *)
Fixpoint cut_line (s : cstr) : cstr * cstr :=
  match s with
  | [] => ([], [])
  | c :: s => if (c =? 10)%Z then ([], s) else let '(l, r) := cut_line s in (c :: l, r)
  end.

Section history_file.
Context `{!Yyjson} {W : Type} `{!HistoryWorld W}.

Definition ik_history_ensure_directory (w : W) : outcome unit * W :=
  match is_directory history_directory w with
  | Some true => (Ret tt, w)
  | Some false => (Fail ERR_IO, w)
  | None =>
      let '(e, w) := make_directory history_directory w in
      (match e with None | Some EEXIST => Ret tt | Some _ => Fail ERR_IO end, w)
  end.

Definition parse_history_line (line : cstr) : option cstr :=
  match yyjson_read line with
  | Some (JObj fs) => yyjson_get_str (find_field fs (lit "cmd"))
  | _ => None
  end.

(** "while ( *line != NUL) { ... }", at most [max_entries] commands. *)
Fixpoint parse_lines (fuel : nat) (line : cstr) (max_entries : nat) (temp_entries : list cstr) : outcome (list cstr) :=
  match fuel with
  | 0 => NoFuel
  | S fuel =>
      match line with
      | [] => Ret temp_entries
      | _ =>
          let '(this, next_line) := cut_line line in
          match this with
          | [] => parse_lines fuel next_line max_entries temp_entries
          | _ =>
              if (max_entries <=? length temp_entries)%nat then Ret temp_entries
              else
                match parse_history_line this with
                | Some cmd => parse_lines fuel next_line max_entries (temp_entries ++ [cmd])
                | None => parse_lines fuel next_line max_entries temp_entries
                end
          end
      end
  end.

Fixpoint add_commands (hist : ik_history) (cmds : list cstr) : outcome ik_history :=
  match cmds with [] => Ret hist | c :: cmds => let! hist := ik_history_add hist (text_string c) in add_commands hist cmds end.

(** The array for the commands has twice the capacity of the history, counted
    in 32 bits. *)
Definition load_contents (hist : ik_history) (bytes : list Z) : outcome ik_history :=
  let max_entries := wrap64 (capacity hist * 2) in
  let! temp_entries := parse_lines (S (length bytes)) (until_nul bytes) max_entries [] in
  if (wrap32 max_entries <? length temp_entries)%nat then Undef
  else
    let start_index := if (capacity hist <? length temp_entries)%nat then length temp_entries - capacity hist else 0 in
    add_commands hist (drop start_index temp_entries).

Definition ik_history_load (hist : ik_history) (w : W) : outcome ik_history * W :=
  let '(dir_res, w) := ik_history_ensure_directory w in
  match dir_res with
  | Ret _ =>
      match is_directory history_path w with
      | None => match open_truncated history_path w with None => (Fail ERR_IO, w) | Some w => (Ret hist, w) end
      | Some _ =>
          (let! bytes := ik_file_read_all (contents w) history_path in
           if (length bytes =? 0)%nat then Ret hist else load_contents hist bytes, w)
      end
  | Fail e => (Fail e, w)
  | Panic => (Panic, w)
  | Undef => (Undef, w)
  | NoFuel => (NoFuel, w)
  end.

Definition format_history_entry (cmd : cstr) (w : W) : option cstr :=
  ts ← timestamp w;
  root ← put_str "cmd" (Some cmd) [] ≫= put_str "ts" (Some ts);
  yyjson_write (JObj root).

Definition ik_history_append_entry (entry : cstr) (w : W) : outcome unit * W :=
  let '(dir_res, w) := ik_history_ensure_directory w in
  match dir_res with
  | Ret _ =>
      match open_appending history_path w with
      | None => (Fail ERR_IO, w)
      | Some w =>
          match format_history_entry entry w with
          | None => (Fail ERR_IO, w)
          | Some json_str =>
              match append_text history_path (json_str ++ [10%Z]) w with
              | None => (Fail ERR_IO, w)
              | Some w => (Ret tt, w)
              end
          end
      end
  | r => (r, w)
  end.

(** The part of ik_repl_submit_line (repl.c) that records the text: a failure to
    write the file is logged and otherwise ignored. *)
Definition record_command (text : list Z) (hist : ik_history) (w : W) : outcome ik_history * W :=
  if (length text =? 0)%nat then (Ret hist, w)
  else
    let text := until_nul text in
    match ik_history_add hist (text_string text) with
    | Ret hist =>
        let '(result, w) := ik_history_append_entry text w in
        (match result with
         | Ret _ | Fail _ => Ret (if ik_history_is_browsing hist then ik_history_stop_browsing hist else hist)
         | Panic => Panic
         | Undef => Undef
         | NoFuel => NoFuel
         end, w)
    | r => (r, w)
    end.

Fixpoint record_commands (texts : list (list Z)) (hist : ik_history) (w : W) : outcome ik_history * W :=
  match texts with
  | [] => (Ret hist, w)
  | t :: texts => match record_command t hist w with (Ret hist, w) => record_commands texts hist w | r => r end
  end.

End history_file.

(** ** A disk that works

    The directory can be made, the file opened and written, and the time
    printed. *)

Class HistoryWorldSpec (W : Type) `{!HistoryWorld W} : Prop := {
  make_ok w : is_directory history_directory w = None -> is_directory history_path w = None ->
    exists w', make_directory history_directory w = (None, w') /\ is_directory history_directory w' = Some true /\ is_directory history_path w' = None;
  open_new w : is_directory history_directory w = Some true -> is_directory history_path w = None ->
    exists w', open_appending history_path w = Some w' /\ is_directory history_directory w' = Some true /\
      is_directory history_path w' = Some false /\ contents w' history_path = Some [];
  create_ok w : is_directory history_directory w = Some true -> is_directory history_path w = None ->
    exists w', open_truncated history_path w = Some w' /\ is_directory history_directory w' = Some true /\
      is_directory history_path w' = Some false /\ contents w' history_path = Some [];
  open_old w b : is_directory history_directory w = Some true -> is_directory history_path w = Some false -> contents w history_path = Some b ->
    exists w', open_appending history_path w = Some w' /\ is_directory history_directory w' = Some true /\
      is_directory history_path w' = Some false /\ contents w' history_path = Some b;
  append_ok w b more : is_directory history_directory w = Some true -> is_directory history_path w = Some false -> contents w history_path = Some b ->
    exists w', append_text history_path more w = Some w' /\ is_directory history_directory w' = Some true /\
      is_directory history_path w' = Some false /\ contents w' history_path = Some (b ++ more);
  time_ok w : exists ts, timestamp w = Some ts /\ is_utf8 ts
}.

Lemma cut_line_app l r : (10%Z ∉ l) -> cut_line (l ++ 10%Z :: r) = (l, r).
Proof.
  induction l as [|c l IH]; intros Hl; [done|]. apply not_elem_of_cons in Hl as [Hc Hl]. cbn [app cut_line].
  rewrite (proj2 (Z.eqb_neq _ _)) by done. by rewrite IH.
Qed.

Section history_file_lemmas.
Context `{!Yyjson} `{!YyjsonSpec} {W : Type} `{!HistoryWorld W} `{!HistoryWorldSpec W}.

Definition lines_text (lines : list cstr) : list Z := mjoin ((fun l => l ++ [10%Z]) <$> lines).

(** A line of the file that records the command. *)
Definition records (line : cstr) (cmd : cstr) : Prop :=
  line <> [] /\ (10%Z ∉ line) /\ (0%Z ∉ line) /\ parse_history_line line = Some cmd.

Lemma parse_lines_ok lines cmds : Forall2 records lines cmds -> forall fuel max_entries temp_entries,
  length lines < fuel -> length temp_entries <= max_entries ->
  parse_lines fuel (lines_text lines) max_entries temp_entries = Ret (temp_entries ++ take (max_entries - length temp_entries) cmds).
Proof.
  induction 1 as [|l c lines cmds (Hne & Hnl & _ & Hp) _ IH]; intros fuel max_entries temp Hf Ht; (destruct fuel as [|fuel]; [lia|]).
  { cbn [parse_lines lines_text fmap list_fmap mjoin list_join]. by rewrite take_nil, app_nil_r. }
  unfold lines_text. change (mjoin _) with ((l ++ [10%Z]) ++ lines_text lines). rewrite <- app_assoc. cbn [app].
  cbn [parse_lines]. rewrite cut_line_app by done. destruct l as [|b l]; [done|]. cbn [app].
  destruct (Nat.leb_spec max_entries (length temp)) as [Hm|Hm].
  { replace (max_entries - length temp) with 0 by lia. by rewrite take_0, app_nil_r. }
  rewrite Hp, IH by (rewrite ?length_app; cbn [length] in *; lia).
  rewrite length_app. change (length [c]) with 1. replace (max_entries - length temp) with (S (max_entries - (length temp + 1))) by lia.
  cbn [take]. by rewrite <- app_assoc.
Qed.

Lemma lines_no_nul lines cmds : Forall2 records lines cmds -> (0%Z ∉ lines_text lines).
Proof.
  induction 1 as [|l c lines cmds (_ & _ & Hz & _) _ IH]; [apply not_elem_of_nil|]. unfold lines_text.
  change (mjoin _) with ((l ++ [10%Z]) ++ lines_text lines). rewrite !not_elem_of_app. split; [split; [done|]|done].
  by apply not_elem_of_cons; split; [|apply not_elem_of_nil].
Qed.

Lemma lines_text_length lines cmds : Forall2 records lines cmds -> length lines <= length (lines_text lines).
Proof.
  induction 1 as [|l c lines cmds (Hne & _) _ IH]; [done|]. unfold lines_text.
  change (mjoin _) with ((l ++ [10%Z]) ++ lines_text lines). rewrite !length_app. cbn [length]. lia.
Qed.

Definition added (cap : nat) (cmds : list cstr) (l : list string) : list string := fold_left (add_entry cap) (text_string <$> cmds) l.

Lemma add_commands_ok cmds : forall h l, hist_rep h l -> length l <= capacity h ->
  exists h', add_commands h cmds = Ret h' /\ hist_rep h' (added (capacity h) cmds l) /\ capacity h' = capacity h.
Proof.
  induction cmds as [|c cmds IH]; intros h l Hr Hc; [by exists h|]. cbn [add_commands].
  destruct (history_add_ok h l (text_string c) Hr Hc) as (h1 & -> & Hr1 & E1 & Hl1 & _). cbn [obind].
  destruct (IH h1 _ Hr1 ltac:(by rewrite E1)) as (h2 & E2 & Hr2 & E3). exists h2. rewrite E2, E3, E1 in *. by split_and!.
Qed.

(** The commands of a file that are read back. *)
Definition read_commands (cap : nat) (cmds : list cstr) : list cstr :=
  let kept := take (2 * cap) cmds in drop (length kept - cap) kept.

Lemma load_contents_ok h lines cmds : hist_rep h [] -> (Z.of_nat (capacity h) < 2 ^ 31)%Z -> Forall2 records lines cmds ->
  exists h', load_contents h (lines_text lines) = Ret h' /\ hist_rep h' (added (capacity h) (read_commands (capacity h) cmds) []).
Proof.
  intros Hr Hc Hl. unfold load_contents. rewrite wrap64_small, wrap32_small by lia.
  rewrite until_nul_id by (by eapply lines_no_nul).
  rewrite (parse_lines_ok lines cmds Hl) by (cbn [length]; pose proof (lines_text_length _ _ Hl); lia). cbn [obind app length].
  rewrite Nat.sub_0_r, (Nat.mul_comm _ 2). set (kept := take (2 * capacity h) cmds).
  assert (length kept <= 2 * capacity h) as Hk by (unfold kept; rewrite length_take; lia).
  rewrite (proj2 (Nat.ltb_ge _ _)) by done.
  replace (if (capacity h <? length kept)%nat then _ else 0) with (length kept - capacity h) by (destruct (Nat.ltb_spec (capacity h) (length kept)); lia).
  destruct (add_commands_ok (drop (length kept - capacity h) kept) h [] Hr ltac:(cbn; lia)) as (h' & -> & Hr' & _). by exists h'.
Qed.

(** What the disk holds after some commands. *)
Definition on_disk (cmds : list cstr) (w : W) : Prop :=
  is_directory history_directory w = Some true /\
  match cmds with
  | [] => is_directory history_path w = None \/ is_directory history_path w = Some false /\ contents w history_path = Some []
  | _ => is_directory history_path w = Some false /\ exists lines, contents w history_path = Some (lines_text lines) /\ Forall2 records lines cmds
  end.

(** Nothing has been recorded yet. *)
Definition unused (w : W) : Prop :=
  is_directory history_path w = None /\ (is_directory history_directory w = None \/ is_directory history_directory w = Some true).

Lemma ensure_ok w : unused w \/ (exists cmds, on_disk cmds w) ->
  exists w', ik_history_ensure_directory w = (Ret tt, w') /\
    (unused w -> on_disk [] w') /\ (forall cmds, on_disk cmds w -> w' = w).
Proof.
  intros Hw. unfold ik_history_ensure_directory. destruct (is_directory history_directory w) as [[|]|] eqn:Ed.
  - exists w. split; [done|]. split; [|done]. intros [Hp _]. split; [done|]. by left.
  - destruct Hw as [[_ [?|?]]|[cmds [? _]]]; congruence.
  - destruct Hw as [[Hp _]|[cmds [? _]]]; [|congruence]. destruct (make_ok w Ed Hp) as (w' & -> & Hd & Hp').
    exists w'. split; [done|]. split; [intros _; split; [done|by left]|]. intros cmds [? _]. congruence.
Qed.

Lemma entry_recorded cmd w : is_utf8 cmd -> (0%Z ∉ cmd) -> exists line, format_history_entry cmd w = Some line /\ records line cmd.
Proof.
  intros Hu Hz. unfold format_history_entry. destruct (time_ok w) as (ts & -> & Hts). cbn [mbind option_bind put_str yyjson_mut_obj_add_str].
  match goal with |- context [yyjson_write ?j] => assert (writable j) as Hw end.
  { constructor. repeat constructor; cbn [fst snd]; try done; by apply lit_utf8. }
  destruct (write_some _ Hw) as [line El]. exists line. split; [done|]. pose proof (write_printable _ _ El) as Hp.
  split; [|split; [|split; [by apply printable_no_nul|]]].
  - intros ->. apply write_read in El. by rewrite read_nothing in El.
  - intros Hi. rewrite Forall_forall in Hp. apply Hp in Hi. lia.
  - apply write_read in El. unfold parse_history_line. rewrite El. apply get_str_lit; [reflexivity|done].
Qed.

Lemma on_disk_lines cmds w : on_disk cmds w -> is_directory history_path w = Some false ->
  exists lines, contents w history_path = Some (lines_text lines) /\ Forall2 records lines cmds.
Proof.
  intros [_ Hc] Hp. destruct cmds as [|c cmds]; [|by destruct Hc as [_ ?]]. destruct Hc as [?|[_ Hc]]; [congruence|].
  exists []. by split.
Qed.

Lemma append_entry_ok cmds cmd w : on_disk cmds w -> is_utf8 cmd -> (0%Z ∉ cmd) ->
  exists w', ik_history_append_entry cmd w = (Ret tt, w') /\ on_disk (cmds ++ [cmd]) w'.
Proof.
  intros Hd Hu Hz. unfold ik_history_append_entry. destruct (ensure_ok w) as (w0 & -> & _ & Hsame); [right; by exists cmds|].
  rewrite (Hsame cmds Hd). clear w0 Hsame.
  assert (exists w1 lines, open_appending history_path w = Some w1 /\ is_directory history_directory w1 = Some true /\
    is_directory history_path w1 = Some false /\ contents w1 history_path = Some (lines_text lines) /\ Forall2 records lines cmds) as
    (w1 & lines & -> & Hd1 & Hp1 & Hc1 & Hl).
  { pose proof Hd as [Hdir Hc]. destruct (is_directory history_path w) as [[|]|] eqn:Ep.
    - destruct cmds; [destruct Hc as [?|[? _]]|destruct Hc as [? _]]; congruence.
    - destruct (on_disk_lines cmds w Hd Ep) as (lines & El & Hl). destruct (open_old w _ Hdir Ep El) as (w1 & ? & ? & ? & ?). by exists w1, lines.
    - destruct cmds; [|destruct Hc as [? _]; congruence]. destruct (open_new w Hdir Ep) as (w1 & ? & ? & ? & ?). by exists w1, []. }
  destruct (entry_recorded cmd w1 Hu Hz) as (line & -> & Hr). destruct (append_ok w1 _ (line ++ [10%Z]) Hd1 Hp1 Hc1) as (w2 & -> & Hd2 & Hp2 & Hc2).
  exists w2. split; [done|]. split; [done|].
  assert (exists ls, contents w2 history_path = Some (lines_text ls) /\ Forall2 records ls (cmds ++ [cmd])) as Hls.
  { exists (lines ++ [line]). split; [|by apply Forall2_app; [|constructor]]. rewrite Hc2. unfold lines_text. f_equal.
    rewrite fmap_app, join_app. cbn [fmap list_fmap mjoin list_join]. by rewrite app_nil_r. }
  by destruct cmds.
Qed.

Lemma record_command_ok text h l cmds w : text <> [] -> is_utf8 text -> (0%Z ∉ text) -> hist_rep h l -> length l <= capacity h -> on_disk cmds w ->
  exists h' w', record_command text h w = (Ret h', w') /\ hist_rep h' (add_entry (capacity h) l (text_string text)) /\
    length (add_entry (capacity h) l (text_string text)) <= capacity h /\ capacity h' = capacity h /\ on_disk (cmds ++ [text]) w'.
Proof.
  intros Hne Hu Hz Hr Hl Hd. unfold record_command. destruct (Nat.eqb_spec (length text) 0) as [E|_].
  { by apply nil_length_inv in E. }
  rewrite until_nul_id by done. destruct (history_add_ok h l (text_string text) Hr Hl) as (h1 & -> & Hr1 & Ec & Hlen & Hidx).
  destruct (append_entry_ok cmds text w Hd Hu Hz) as (w1 & -> & Hd1). exists (if ik_history_is_browsing h1 then ik_history_stop_browsing h1 else h1), w1.
  split; [done|]. destruct (ik_history_is_browsing h1); [|by split_and!]. split; [|by split_and!].
  unfold ik_history_stop_browsing. apply rep_move; [done|lia].
Qed.

Lemma record_commands_ok texts : forall h l cmds w, Forall (fun t => t <> [] /\ is_utf8 t /\ (0%Z ∉ t)) texts ->
  hist_rep h l -> length l <= capacity h -> on_disk cmds w ->
  exists h' w', record_commands texts h w = (Ret h', w') /\ hist_rep h' (added (capacity h) texts l) /\ capacity h' = capacity h /\ on_disk (cmds ++ texts) w'.
Proof.
  induction texts as [|t texts IH]; intros h l cmds w Ht Hr Hl Hd.
  { exists h, w. by rewrite app_nil_r. }
  apply Forall_cons in Ht as [(Hne & Hu & Hz) Ht]. cbn [record_commands].
  destruct (record_command_ok t h l cmds w Hne Hu Hz Hr Hl Hd) as (h1 & w1 & -> & Hr1 & Hl1 & E1 & Hd1).
  rewrite <- E1 in Hl1. rewrite <- E1 in Hr1. destruct (IH h1 _ _ w1 Ht Hr1 Hl1 Hd1) as (h2 & w2 & -> & Hr2 & E2 & Hd2).
  exists h2, w2. rewrite E1 in Hr2. rewrite <- app_assoc in Hd2. split; [done|]. split; [exact Hr2|]. split; [congruence|exact Hd2].
Qed.

Lemma load_ok cmds h w : on_disk cmds w -> hist_rep h [] -> (Z.of_nat (capacity h) < 2 ^ 31)%Z ->
  (forall b, contents w history_path = Some b -> (Z.of_nat (length b) < 2 ^ 32 - 2)%Z) ->
  exists h' w', ik_history_load h w = (Ret h', w') /\ hist_rep h' (added (capacity h) (read_commands (capacity h) cmds) []).
Proof.
  intros Hd Hr Hc Hsize. unfold ik_history_load. destruct (ensure_ok w) as (w0 & -> & _ & Hsame); [right; by exists cmds|].
  rewrite (Hsame cmds Hd). destruct (is_directory history_path w) as [d|] eqn:Ep.
  - assert (d = false) as ->.
    { destruct Hd as [_ Hd]. destruct cmds; [destruct Hd as [?|[? _]]|destruct Hd as [? _]]; congruence. }
    destruct (on_disk_lines cmds w Hd Ep) as (lines & El & Hl). pose proof (Hsize _ El) as Hs.
    unfold ik_file_read_all. rewrite El. rewrite (proj2 (Z.ltb_ge _ _)) by lia. cbn [obind].
    destruct (Nat.eqb_spec (length (lines_text lines)) 0) as [E0|E0].
    + pose proof (lines_text_length _ _ Hl) as Hll. pose proof (Forall2_length _ _ _ Hl) as Hlc.
      assert (cmds = []) as -> by (apply nil_length_inv; lia). exists h, w. split; [done|].
      unfold read_commands. by rewrite take_nil.
    + destruct (load_contents_ok h lines cmds Hr Hc Hl) as (h' & -> & Hr'). by exists h', w.
  - destruct Hd as [Hdir Hd]. destruct cmds; [|destruct Hd as [? _]; congruence]. destruct (create_ok w Hdir Ep) as (w' & -> & _).
    exists h, w'. split; [done|]. unfold read_commands. by rewrite take_nil.
Qed.

Lemma first_load_ok h w : unused w -> exists w', ik_history_load h w = (Ret h, w') /\ on_disk [] w'.
Proof.
  intros Hw. unfold ik_history_load. destruct (ensure_ok w) as (w0 & -> & Hfirst & _); [by left|]. destruct (Hfirst Hw) as [Hd Hp].
  destruct Hp as [Hp|[Hp Hc]]; rewrite Hp.
  - destruct (create_ok w0 Hd Hp) as (w1 & -> & Hd1 & Hp1 & Hc1). exists w1. split; [done|]. split; [done|]. by right.
  - exists w0. unfold ik_file_read_all. rewrite Hc. split; [done|]. split; [done|]. by right.
Qed.

Lemma read_all_commands cap (cmds : list cstr) : length cmds <= cap -> read_commands cap cmds = cmds.
Proof. intros Hl. unfold read_commands. rewrite take_ge by lia. by replace (length cmds - cap) with 0 by lia. Qed.

Lemma read_old_commands cap (cmds : list cstr) : 2 * cap <= length cmds -> read_commands cap cmds = drop cap (take (2 * cap) cmds).
Proof. intros Hl. unfold read_commands. rewrite length_take. f_equal. lia. Qed.

End history_file_lemmas.

Module HistoryFileProps.

(** C31: the history survives the program.  Commands recorded one after the
    other, starting without a file, are written to it, and loading it again
    gives the history they make: all of them while there are at most as many as
    the history holds; the last ones while there are at most twice as many.  With
    more, the file is read from its start and no further than that, so that the
    newest commands are the ones that are lost. *)
Theorem history_file_restores `{!Yyjson} `{!YyjsonSpec} {W : Type} `{!HistoryWorld W} `{!HistoryWorldSpec W}
    (cap : nat) (texts : list (list Z)) (w : W) :
  0 < cap -> (Z.of_nat cap < 2 ^ 31)%Z -> unused w -> Forall (fun t => t <> [] /\ is_utf8 t /\ (0%Z ∉ t)) texts ->
  exists h0 w0 h1 w1, ik_history_create cap = Ret h0 /\ ik_history_load h0 w = (Ret h0, w0) /\
    record_commands texts h0 w0 = (Ret h1, w1) /\ hist_rep h1 (added cap texts []) /\
    ((forall b, contents w1 history_path = Some b -> (Z.of_nat (length b) < 2 ^ 32 - 2)%Z) ->
     exists h2 w2, ik_history_load h0 w1 = (Ret h2, w2) /\
       hist_rep h2 (added cap (if (length texts <=? cap)%nat then texts
                               else if (length texts <? 2 * cap)%nat then drop (length texts - cap) texts
                               else drop cap (take (2 * cap) texts)) [])).
Proof.
  intros Hpos Hcap Hw Ht. unfold ik_history_create. rewrite (proj2 (Nat.ltb_lt _ _)) by done. rewrite wrap32_small by lia.
  set (h := mk_history _ _ _ _ _).
  assert (hist_rep h []) as Hr.
  { constructor; simpl; rewrite ?length_replicate; try done; [by eexists|apply NoDup_nil_2|apply not_elem_of_nil|lia]. }
  destruct (first_load_ok h w Hw) as (w0 & E0 & Hd0).
  destruct (record_commands_ok texts h [] [] w0 Ht Hr ltac:(cbn; lia) Hd0) as (h1 & w1 & E1 & Hr1 & _ & Hd1).
  exists h, w0, h1, w1. split; [done|]. split; [done|]. split; [done|]. split; [done|]. intros Hs.
  destruct (load_ok texts h w1 Hd1 Hr Hcap Hs) as (h2 & w2 & E2 & Hr2). exists h2, w2. split; [done|].
  destruct (Nat.leb_spec (length texts) cap) as [Hl|Hl]; [by rewrite <- (read_all_commands cap texts Hl)|].
  destruct (Nat.ltb_spec (length texts) (2 * cap)) as [Hl2|Hl2]; [|by rewrite <- read_old_commands].
  replace (drop (length texts - cap) texts) with (read_commands cap texts); [done|]. unfold read_commands. by rewrite take_ge by lia.
Qed.

End HistoryFileProps.

(** ** A disk in memory *)

Module MemoryHistory.

(** A path that exists is a directory or has contents. *)
Notation disk := (gmap (list Z) (option (list Z))).

#[export] Instance memory_history : HistoryWorld disk := {
  is_directory p d := (fun o => match o with None => true | Some _ => false end) <$> d !! p;
  make_directory p d := (None, <[p := None]> d);
  contents d p := mjoin (d !! p);
  open_truncated p d := Some (<[p := Some []]> d);
  open_appending p d := Some (<[p := Some (default [] (mjoin (d !! p)))]> d);
  append_text p b d := Some (<[p := Some (default [] (mjoin (d !! p)) ++ b)]> d);
  timestamp d := Some (lit "2025-01-01T00:00:00Z")
}.

Lemma directory_not_path : history_directory <> history_path.
Proof. by apply (bool_decide_unpack _); vm_compute. Qed.

#[export] Instance memory_history_spec : HistoryWorldSpec disk.
Proof.
  pose proof directory_not_path as Hne. constructor; cbn [is_directory make_directory contents open_truncated open_appending append_text timestamp memory_history].
  - intros w _ Hp. eexists. split; [reflexivity|]. rewrite lookup_insert_eq, lookup_insert_ne by done. by split.
  - intros w Hd Hp. eexists. split; [reflexivity|]. rewrite lookup_insert_eq, lookup_insert_ne by done.
    apply fmap_None in Hp. by rewrite Hp.
  - intros w Hd _. eexists. split; [reflexivity|]. by rewrite lookup_insert_eq, lookup_insert_ne by done.
  - intros w b Hd _ Hb. eexists. split; [reflexivity|]. rewrite lookup_insert_eq, lookup_insert_ne by done. by rewrite Hb.
  - intros w b more Hd _ Hb. eexists. split; [reflexivity|]. rewrite lookup_insert_eq, lookup_insert_ne by done. by rewrite Hb.
  - intros w. eexists. split; [reflexivity|]. by apply lit_utf8.
Qed.

End MemoryHistory.

Module HistoryFileExamples.
Import CodedJson MemoryHistory HistoryFileProps.

Definition three_commands : list (list Z) := [lit "/help"; lit "hi"; lit "/help"].

Example repeated_command : added 3 three_commands [] = ["hi"; "/help"].
Proof. vm_compute. reflexivity. Qed.

Lemma history_file_restores_witness : exists h0 w0 h1 w1,
  ik_history_create 3 = Ret h0 /\ ik_history_load h0 (∅ : disk) = (Ret h0, w0) /\ record_commands three_commands h0 w0 = (Ret h1, w1) /\
  hist_rep h1 ["hi"; "/help"].
Proof.
  destruct (history_file_restores 3 three_commands (∅ : disk)) as (h0 & w0 & h1 & w1 & E0 & E1 & E2 & Hr & _).
  - lia.
  - done.
  - split; [done|by left].
  - repeat constructor; cbn [three_commands]; try discriminate; try (by apply lit_utf8); (apply (bool_decide_unpack _); vm_compute; exact I).
  - exists h0, w0, h1, w1. split; [exact E0|]. split; [exact E1|]. split; [exact E2|exact Hr].
Defined.

End HistoryFileExamples.
