(* ===== verification/KeyInject.v ===== *)
(** * Injected keys (key_inject.c)

    Bytes that a client of the control socket types for the user: their escapes,
    and the buffer they wait in until the main loop feeds them to the input
    parser. *)

From Stdlib Require Import String.
From stdpp Require Import strings.
From S2P Require Import Prelude CString ByteArray InputParser.

Record ik_key_inject_buf := mk_keys {
  key_data : list Z;
  key_len : nat;
  key_capacity : nat;
  read_pos : nat
}.

Definition INITIAL_CAPACITY : nat := 256.

Section key_inject.
Context `{!Allocator}.

Definition ik_key_inject_init : ik_key_inject_buf := mk_keys (replicate INITIAL_CAPACITY 0%Z) 0 INITIAL_CAPACITY 0.

(** "while (buf->len + len > buf->capacity) { ... }" *)
Fixpoint grow_keys (fuel need : nat) (data : list Z) (capacity : nat) : outcome (list Z * nat) :=
  match fuel with
  | 0 => NoFuel
  | S fuel =>
      if (capacity <? need)%nat then
        let new_capacity := wrap64 (capacity * 2) in
        match talloc_realloc data (wrap32 new_capacity) with
        | None => Panic
        | Some data => grow_keys fuel need data new_capacity
        end
      else Ret (data, capacity)
  end.

(** 64 doublings exceed every length. *)
Definition ik_key_inject_append (buf : ik_key_inject_buf) (raw_bytes : list Z) : outcome ik_key_inject_buf :=
  let! (data, capacity) := grow_keys 65 (key_len buf + length raw_bytes) (key_data buf) (key_capacity buf) in
  let! data := mem_write (key_len buf) raw_bytes data in
  Ret (mk_keys data (key_len buf + length raw_bytes) capacity (read_pos buf)).

Definition ik_key_inject_pending (buf : ik_key_inject_buf) : nat := key_len buf - read_pos buf.

(** The byte, if there is one. *)
Definition ik_key_inject_drain (buf : ik_key_inject_buf) : outcome (option Z * ik_key_inject_buf) :=
  if (key_len buf <=? read_pos buf)%nat then Ret (None, buf)
  else
    match key_data buf !! read_pos buf with
    | None => Undef
    | Some byte =>
        let pos := S (read_pos buf) in
        Ret (Some byte,
             if (pos =? key_len buf)%nat then mk_keys (key_data buf) 0 (key_capacity buf) 0
             else mk_keys (key_data buf) (key_len buf) (key_capacity buf) pos)
    end.

(** ** Escapes *)

Definition hex_value (c : Z) : option Z :=
  if ((48 <=? c) && (c <=? 57))%Z then Some (c - 48)%Z
  else if ((97 <=? c) && (c <=? 102))%Z then Some (c - 87)%Z
  else if ((65 <=? c) && (c <=? 70))%Z then Some (c - 55)%Z
  else None.

(** strtol of two characters in base 16, when it takes both: white space and a
    sign may come first. *)
Definition strtol_two (a b : Z) : option Z :=
  match hex_value a, hex_value b with
  | Some x, Some y => Some (16 * x + y)%Z
  | None, Some y =>
      if (a =? 32)%Z || ((9 <=? a) && (a <=? 13))%Z || (a =? 43)%Z then Some y
      else if (a =? 45)%Z then Some (- y)%Z
      else None
  | _, None => None
  end.

(** The bytes written into an array of [size], so far [out]. *)
Definition put_key (size : nat) (out : list Z) (c : Z) : outcome (list Z) :=
  if (length out <? size)%nat then Ret (out ++ [c mod 256]%Z) else Undef.

(** A byte for the escape and the number of characters it takes; without an
    escape the character itself. *)
Definition unescape_one (c : Z) (rest : list Z) : Z * nat :=
  match rest with
  | next :: rest =>
      if negb (c =? 92)%Z then (c, 1)
      else if (next =? 114)%Z then (13%Z, 2)
      else if (next =? 110)%Z then (10%Z, 2)
      else if (next =? 116)%Z then (9%Z, 2)
      else if (next =? 92)%Z then (92%Z, 2)
      else if (next =? 120)%Z then
        match rest with
        | a :: b :: _ => match strtol_two a b with Some v => (v, 4) | None => (c, 1) end
        | _ => (c, 1)
        end
      else (c, 1)
  | [] => (c, 1)
  end.

Fixpoint unescape_loop (fuel : nat) (input : list Z) (size : nat) (out : list Z) : outcome (list Z) :=
  match fuel with
  | 0 => NoFuel
  | S fuel =>
      match input with
      | [] => Ret out
      | c :: rest =>
          let '(v, n) := unescape_one c rest in
          let! out := put_key size out v in
          unescape_loop fuel (drop n input) size out
      end
  end.

Definition ik_key_inject_unescape (input : list Z) : outcome (list Z) :=
  unescape_loop (S (length input)) input (wrap32 (length input)) [].

(** ** repl.c: one injected byte

    The action is what the parser makes of the byte. *)
Context `{!Xkb}.

Definition ik_repl_handle_key_injection (buf : ik_key_inject_buf) (p : ik_input_parser)
  : outcome (option ik_input_action * ik_key_inject_buf * ik_input_parser) :=
  if (ik_key_inject_pending buf =? 0)%nat then Ret (None, buf, p)
  else
    let! (byte, buf) := ik_key_inject_drain buf in
    match byte with
    | None => Ret (None, buf, p)
    | Some byte => let! (p, action) := ik_input_parse_byte p byte in Ret (Some action, buf, p)
    end.

(** The main loop, while it only finds injected bytes. *)
Fixpoint injected_actions (fuel : nat) (buf : ik_key_inject_buf) (p : ik_input_parser)
  : outcome (list ik_input_action * ik_key_inject_buf * ik_input_parser) :=
  match fuel with
  | 0 => NoFuel
  | S fuel =>
      let! (action, buf, p) := ik_repl_handle_key_injection buf p in
      match action with
      | None => Ret ([], buf, p)
      | Some a => let! (acts, buf, p) := injected_actions fuel buf p in Ret (a :: acts, buf, p)
      end
  end.

End key_inject.


(** ** The buffer as a queue *)

Section key_queue.
Context `{!Allocator} `{!AllocatorSpec}.

(** The bytes in [q] wait, after [gone] that were taken. *)
Record keys_rep (buf : ik_key_inject_buf) (gone q : list Z) : Prop := {
  keys_data : exists junk, key_data buf = (gone ++ q) ++ junk;
  keys_len : key_len buf = length (gone ++ q);
  keys_capacity : key_capacity buf = length (key_data buf);
  keys_room : 0 < key_capacity buf /\ INITIAL_CAPACITY <= key_capacity buf /\ (Z.of_nat (key_capacity buf) < 2 ^ 31)%Z;
  keys_pos : read_pos buf = length gone;
  keys_reset : q = [] -> gone = []
}.

Lemma init_keys : keys_rep ik_key_inject_init [] [].
Proof. unfold ik_key_inject_init. constructor; cbn [key_data key_len key_capacity read_pos]; first [done|by eexists|unfold INITIAL_CAPACITY; lia]. Qed.

Lemma grow_keys_ok fuel need old junk capacity :
  capacity = length (old ++ junk) -> 0 < capacity -> length old <= need -> need <= capacity * 2 ^ fuel -> (Z.of_nat need < 2 ^ 30)%Z ->
  exists junk' c, grow_keys (S fuel) need (old ++ junk) capacity = Ret (old ++ junk', c) /\ c = length (old ++ junk') /\ need <= c /\
    (capacity <= c <= Nat.max capacity (2 * need)).
Proof.
  revert junk capacity. induction fuel as [|fuel IH]; intros junk capacity Ec Hp Ho Hn Hb; cbn [grow_keys].
  - rewrite Nat.pow_0_r in Hn. rewrite (proj2 (Nat.ltb_ge _ _)) by lia. exists junk, capacity. split_and!; lia || done.
  - destruct (Nat.ltb_spec capacity need) as [Hlt|Hge]; [|exists junk, capacity; split_and!; lia || done].
    rewrite wrap64_small, wrap32_small by lia.
    destruct (realloc_some (old ++ junk) (capacity * 2)) as [new E]. rewrite E.
    pose proof (realloc_length _ _ _ E) as Hl. pose proof (realloc_prefix _ _ _ E ltac:(lia)) as Hpre.
    assert (new = old ++ (junk ++ drop capacity new)) as En.
    { rewrite app_assoc, <- Hpre, <- Ec. by rewrite take_drop. }
    rewrite En in Hl |- *. clear En.
    destruct (IH (junk ++ drop capacity new) (capacity * 2)) as (junk' & c & E' & Ec' & Hn' & Hc'); try lia.
    { rewrite Nat.pow_succ_r' in Hn. lia. }
    cbn [grow_keys] in E'. exists junk', c. split_and!; try lia. exact E'.
Qed.

Lemma append_keys buf gone q bytes : keys_rep buf gone q -> (Z.of_nat (length gone + length q + length bytes) < 2 ^ 30)%Z ->
  exists buf', ik_key_inject_append buf bytes = Ret buf' /\ keys_rep buf' gone (q ++ bytes).
Proof.
  intros [(junk & Ed) El Ec Hr Hp Hz] Hb. unfold ik_key_inject_append. rewrite Ed, El.
  unfold INITIAL_CAPACITY in *.
  destruct (grow_keys_ok 64 (length (gone ++ q) + length bytes) (gone ++ q) junk (key_capacity buf)) as (junk' & c & E & Ec' & Hn & Hc).
  - by rewrite <- Ed.
  - lia.
  - lia.
  - rewrite length_app. apply Nat2Z.inj_le. rewrite Nat2Z.inj_mul, Nat2Z.inj_pow. change (Z.of_nat 2 ^ Z.of_nat 64)%Z with (2 ^ 64)%Z. lia.
  - rewrite length_app. lia.
  - rewrite E. cbn [obind]. rewrite !length_app in *.
    assert ((gone ++ q) ++ junk' = (gone ++ q) ++ take (length bytes) junk' ++ drop (length bytes) junk') as -> by (by rewrite take_drop).
    rewrite mem_write_app by (rewrite ?length_take, ?length_app; lia). cbn [obind].
    eexists. split; [reflexivity|]. constructor; cbn [key_data key_len key_capacity read_pos].
    + eexists. by rewrite <- !app_assoc.
    + rewrite !length_app. lia.
    + rewrite !length_app, length_drop. lia.
    + unfold INITIAL_CAPACITY. lia.
    + done.
    + intros [-> _]%app_nil. by apply Hz.
Qed.

Lemma drain_keys buf gone q : keys_rep buf gone q ->
  exists buf', ik_key_inject_drain buf = Ret (head q, buf') /\ exists gone', keys_rep buf' gone' (tail q) /\ length gone' <= S (length gone).
Proof.
  intros Hrep. pose proof Hrep as [(junk & Ed) El Ec Hr Hp Hz]. unfold ik_key_inject_drain. rewrite El, Hp, length_app.
  destruct q as [|b q]; cbn [length head tail].
  - rewrite (proj2 (Nat.leb_le _ _)) by lia. exists buf. split; [done|]. exists gone. split; [done|lia].
  - rewrite (proj2 (Nat.leb_gt _ _)) by lia. rewrite Ed, lookup_app_l, list_lookup_middle by len_lia.
    rewrite length_app in El. cbn [length] in El.
    destruct (Nat.eqb_spec (S (length gone)) (length gone + S (length q))) as [E|E].
    + assert (q = []) as -> by (apply nil_length_inv; lia). eexists. split; [reflexivity|]. exists [].
      split; [|cbn; lia]. unfold INITIAL_CAPACITY in *. constructor; cbn [key_data key_len key_capacity read_pos]; first [done|by rewrite <- Ed|by eexists].
    + eexists. split; [reflexivity|]. exists (gone ++ [b]). split; [|len_lia].
      rewrite <- Ed. constructor; cbn [key_data key_len key_capacity read_pos]; rewrite <- ?app_assoc; cbn [app]; try done.
      * exists junk. by rewrite Ed.
      * len_lia.
      * len_lia.
      * intros ->. cbn [length] in E. lia.
Qed.

End key_queue.

(** ** Escaping, as a client does it *)

Definition hex_digit (n : Z) : Z := if (n <? 10)%Z then (48 + n)%Z else (87 + n)%Z.

Definition escape_byte (b : Z) : list Z :=
  if ((32 <=? b) && (b <=? 126))%Z && negb (b =? 92)%Z then [b]
  else [92; 120; hex_digit (b / 16); hex_digit (b mod 16)]%Z.

Definition key_escape (bytes : list Z) : list Z := bytes ≫= escape_byte.

Lemma hex_digits_read b : (0 <= b < 256)%Z -> strtol_two (hex_digit (b / 16)) (hex_digit (b mod 16)) = Some b.
Proof.
  intros Hb. assert (bool_decide (strtol_two (hex_digit (b / 16)) (hex_digit (b mod 16)) = Some b) = true) as Hok; [|by apply bool_decide_eq_true in Hok].
  revert b Hb. apply (byte_forallb (fun b => bool_decide (strtol_two (hex_digit (b / 16)) (hex_digit (b mod 16)) = Some b))). vm_compute. reflexivity.
Qed.

Lemma unescape_escaped bytes : forall fuel size out, Forall (fun b => (0 <= b < 256)%Z) bytes -> length (key_escape bytes) < fuel ->
  length out + length bytes <= size -> unescape_loop fuel (key_escape bytes) size out = Ret (out ++ bytes).
Proof.
  induction bytes as [|b bytes IH]; intros fuel size out Hb Hf Hs; (destruct fuel as [|fuel]; [lia|]).
  { cbn [key_escape mbind list_bind unescape_loop]. by rewrite app_nil_r. }
  apply Forall_cons in Hb as [Hb Hbs]. cbn [length] in Hs.
  unfold key_escape in *. cbn [mbind list_bind] in *. fold (key_escape bytes) in *. rewrite length_app in Hf.
  assert (put_key size out b = Ret (out ++ [b])) as Ep.
  { unfold put_key. rewrite (proj2 (Nat.ltb_lt _ _)) by lia. by rewrite Z.mod_small by lia. }
  assert (forall fuel, length (key_escape bytes) < fuel -> unescape_loop fuel (key_escape bytes) size (out ++ [b]) = Ret (out ++ b :: bytes)) as Hnext.
  { intros f Hf'. rewrite IH by (rewrite ?length_app; cbn [length]; lia || done). by rewrite <- app_assoc. }
  unfold escape_byte in *. destruct (((32 <=? b)%Z && (b <=? 126)%Z) && negb (b =? 92)%Z) eqn:Eb; cbn [app length] in *.
  - assert (unescape_one b (key_escape bytes) = (b, 1)) as Eu.
    { apply andb_true_iff in Eb as [_ Eb]. unfold unescape_one. by destruct (key_escape bytes); [|rewrite Eb]. }
    cbn [unescape_loop]. rewrite Eu, Ep. cbn [obind drop]. apply Hnext. lia.
  - cbn [unescape_loop unescape_one Z.eqb Pos.eqb negb]. rewrite hex_digits_read, Ep by done. cbn [obind drop]. apply Hnext. lia.
Qed.

Lemma escape_longer bytes : length bytes <= length (key_escape bytes) <= 4 * length bytes.
Proof.
  induction bytes as [|b bytes IH]; [done|]. unfold key_escape in *. cbn [mbind list_bind]. rewrite length_app. cbn [length].
  unfold escape_byte at 1 3. destruct (_ && _); cbn [length]; lia.
Qed.

Lemma unescape_ok bytes : Forall (fun b => (0 <= b < 256)%Z) bytes -> (Z.of_nat (length bytes) < 2 ^ 30)%Z ->
  ik_key_inject_unescape (key_escape bytes) = Ret bytes.
Proof.
  intros Hb Hl. pose proof (escape_longer bytes) as He. unfold ik_key_inject_unescape. rewrite wrap32_small by lia.
  by apply unescape_escaped; [|lia|cbn [length]; lia].
Qed.

Section key_props.
Context `{!Allocator} `{!AllocatorSpec} `{!Xkb}.

(** The texts of some requests, one after the other. *)
Fixpoint send_keys (buf : ik_key_inject_buf) (texts : list (list Z)) : outcome ik_key_inject_buf :=
  match texts with
  | [] => Ret buf
  | t :: texts =>
      let! raw_bytes := ik_key_inject_unescape t in
      let! buf := ik_key_inject_append buf raw_bytes in
      send_keys buf texts
  end.

Lemma send_keys_ok texts : forall buf gone q, Forall (Forall (fun b => (0 <= b < 256)%Z)) texts -> keys_rep buf gone q ->
  (Z.of_nat (length gone + length q + length (mjoin texts)) < 2 ^ 30)%Z ->
  exists buf', send_keys buf (key_escape <$> texts) = Ret buf' /\ keys_rep buf' gone (q ++ mjoin texts).
Proof.
  induction texts as [|t texts IH]; intros buf gone q Ht Hr Hl.
  { exists buf. cbn [mjoin list_join]. by rewrite app_nil_r. }
  apply Forall_cons in Ht as [Ht Hts]. change (mjoin (t :: texts)) with (t ++ mjoin texts) in *. rewrite length_app in Hl.
  cbn [fmap list_fmap send_keys]. rewrite unescape_ok by (done || lia). cbn [obind].
  destruct (append_keys buf gone q t Hr ltac:(lia)) as (b1 & -> & Hr1). cbn [obind].
  destruct (IH b1 gone (q ++ t) Hts Hr1) as (b2 & E2 & Hr2); [rewrite length_app; lia|].
  exists b2. by rewrite app_assoc.
Qed.

Lemma injected_actions_ok q : forall fuel buf gone p p' acts, keys_rep buf gone q -> parse_bytes p q = Ret (p', acts) -> length q < fuel ->
  exists buf', injected_actions fuel buf p = Ret (acts, buf', p') /\ ik_key_inject_pending buf' = 0.
Proof.
  induction q as [|b q IH]; intros fuel buf gone p p' acts Hr Hp Hf; (destruct fuel as [|fuel]; [lia|]); cbn [injected_actions];
    unfold ik_repl_handle_key_injection, ik_key_inject_pending at 1;
    pose proof (keys_len _ _ _ Hr) as El; pose proof (keys_pos _ _ _ Hr) as Ep; rewrite length_app in El; cbn [length] in *.
  - rewrite (proj2 (Nat.eqb_eq _ _)) by lia. cbn [obind]. injection Hp as <- <-. exists buf. split; [done|]. unfold ik_key_inject_pending. lia.
  - rewrite (proj2 (Nat.eqb_neq _ _)) by lia. destruct (drain_keys buf gone (b :: q) Hr) as (b1 & -> & gone1 & Hr1 & _).
    cbn [obind head tail] in *. cbn [parse_bytes] in Hp. apply obind_Ret_inv in Hp as ((p1 & a) & E1 & Hp).
    apply obind_Ret_inv in Hp as ((p2 & l) & E2 & Hp). injection Hp as <- <-. rewrite E1. cbn [obind].
    destruct (IH fuel b1 gone1 p1 p2 l Hr1 E2 ltac:(lia)) as (b2 & -> & Hb2). by exists b2.
Qed.

End key_props.

Module KeyInjectProps.

(** C32: injected keys arrive.  Texts that clients send, with every byte that is
    not plain written as an escape, reach the input parser byte for byte and in
    order: the main loop performs the actions the parser gives for the bytes
    themselves, whatever they are, and leaves the buffer empty. *)
Theorem injected_keys_arrive `{!Allocator} `{!AllocatorSpec} `{!Xkb} (texts : list (list Z)) (p p' : ik_input_parser) acts :
  Forall (Forall (fun b => (0 <= b < 256)%Z)) texts -> (Z.of_nat (length (mjoin texts)) < 2 ^ 30)%Z ->
  parse_bytes p (mjoin texts) = Ret (p', acts) ->
  exists buf buf', send_keys ik_key_inject_init (key_escape <$> texts) = Ret buf /\
    ik_key_inject_pending buf = length (mjoin texts) /\
    injected_actions (S (ik_key_inject_pending buf)) buf p = Ret (acts, buf', p') /\ ik_key_inject_pending buf' = 0.
Proof.
  intros Ht Hl Hp. destruct (send_keys_ok texts ik_key_inject_init [] [] Ht init_keys Hl) as (buf & E & Hr). cbn [app] in Hr.
  assert (ik_key_inject_pending buf = length (mjoin texts)) as Epend.
  { unfold ik_key_inject_pending. rewrite (keys_len _ _ _ Hr), (keys_pos _ _ _ Hr). cbn [app length]. lia. }
  destruct (injected_actions_ok (mjoin texts) (S (ik_key_inject_pending buf)) buf [] p p' acts Hr Hp) as (buf' & E' & Hb'); [lia|].
  by exists buf, buf'.
Qed.

End KeyInjectProps.

Module KeyInjectExamples.
Import ZeroAlloc RefXkb KeyInjectProps.

(** "hi", the return key and the up arrow. *)
Definition keys_sent : list (list Z) := [[104; 105; 13]; [27; 91; 65]]%Z.

Example keys_escaped : key_escape <$> keys_sent = [lit "hi\x0d"; lit "\x1b[A"].
Proof. vm_compute. reflexivity. Qed.

Example return_escapes : ik_key_inject_unescape (lit "a\r\n\t\\\q\x4") = Ret (97 :: 13 :: 10 :: 9 :: 92 :: lit "\q\x4")%Z.
Proof. vm_compute. reflexivity. Qed.

(** strtol skips white space. *)
Example blank_digit : ik_key_inject_unescape (lit "\x 7") = Ret [7%Z].
Proof. vm_compute. reflexivity. Qed.

Lemma injected_keys_arrive_witness : exists buf buf' p',
  send_keys ik_key_inject_init (key_escape <$> keys_sent) = Ret buf /\
  injected_actions (S (ik_key_inject_pending buf)) buf ik_input_parser_create =
    Ret ([IK_INPUT_CHAR 104; IK_INPUT_CHAR 105; IK_INPUT_NEWLINE; IK_INPUT_UNKNOWN; IK_INPUT_UNKNOWN; IK_INPUT_ARROW_UP], buf', p').
Proof.
  destruct (parse_bytes ik_input_parser_create (mjoin keys_sent)) as [[p' acts]| | | |] eqn:E; try (vm_compute in E; discriminate E).
  destruct (injected_keys_arrive keys_sent ik_input_parser_create p' acts) as (buf & buf' & E1 & _ & E2 & _).
  - repeat constructor; lia.
  - vm_compute. reflexivity.
  - exact E.
  - exists buf, buf', p'. split; [exact E1|]. rewrite E2. vm_compute in E. injection E as <- <-. reflexivity.
Defined.

End KeyInjectExamples.
