(* ===== verification/Framebuffer.v ===== *)
(** * The frame as JSON (serialize_framebuffer.c)

    A client of the control socket reads the last frame as rows of styled text:
    the escape sequences of the frame are taken apart again. *)

From Stdlib Require Import String.
From stdpp Require Import strings.
From S2P Require Import Prelude Slots CString Database Json Growing.

Record text_style := mk_text_style {
  style_fg : Z;
  has_fg : bool;
  style_bold : bool;
  style_dim : bool;
  style_reverse : bool
}.
Definition no_style : text_style := mk_text_style 0 false false false false.

Record span := mk_span { span_text : growing Z; span_style : text_style }.
#[export] Instance span_inhabited : Inhabited span := populate (mk_span (mk_growing [] 0 0) no_style).

Record fb_line := mk_fb_line { fb_row : Z; spans : growing span }.

Record parse_state := mk_parse {
  fb_lines : list fb_line;
  current_row : nat;
  current_style : text_style;
  current_span : span
}.

Section framebuffer.
Context `{!SlotAllocator}.

(** "if (count >= cap) { cap *= 2; realloc }" with a capacity of 32 bits. *)
Definition push32 {A} `{Inhabited A} (g : growing A) (x : A) : outcome (growing A) :=
  let! g := if (room g <=? used g)%nat then
              let cap := wrap32 (room g * 2) in
              let! slots := or_panic (realloc_slots (items g) cap) in
              Ret (mk_growing slots (used g) cap)
            else Ret g in
  let! slots := arr_set (used g) x (items g) in
  Ret (mk_growing slots (S (used g)) (room g)).

(** talloc_zero_array(tmp, char, 256) *)
Definition fresh_text : growing Z := mk_growing (replicate 256 0%Z) 0 256.

Definition ik_serialize_flush_span (st : parse_state) : outcome parse_state :=
  if (used (span_text (current_span st)) =? 0)%nat then Ret st
  else
    let! l := arr_get (fb_lines st) (current_row st) in
    let! sp := push32 (spans l) (current_span st) in
    let! ls := arr_set (current_row st) (mk_fb_line (fb_row l) sp) (fb_lines st) in
    Ret (mk_parse ls (current_row st) (current_style st) (mk_span fresh_text (span_style (current_span st)))).

Definition ik_serialize_add_char (st : parse_state) (c : Z) : outcome parse_state :=
  let! t := push32 (span_text (current_span st)) c in
  Ret (mk_parse (fb_lines st) (current_row st) (current_style st) (mk_span t (span_style (current_span st)))).

(** Flush, then another style. *)
Definition restyle (f : text_style -> text_style) (st : parse_state) : outcome parse_state :=
  let! st := ik_serialize_flush_span st in
  let s := f (current_style st) in
  Ret (mk_parse (fb_lines st) (current_row st) s (mk_span (span_text (current_span st)) s)).

Definition set_fg (color : Z) (s : text_style) : text_style := mk_text_style color true (style_bold s) (style_dim s) (style_reverse s).
Definition set_bold (s : text_style) : text_style := mk_text_style (style_fg s) (has_fg s) true (style_dim s) (style_reverse s).
Definition set_dim (s : text_style) : text_style := mk_text_style (style_fg s) (has_fg s) (style_bold s) true (style_reverse s).
Definition set_reverse (s : text_style) : text_style := mk_text_style (style_fg s) (has_fg s) (style_bold s) (style_dim s) true.

Definition ik_serialize_handle_reset : parse_state -> outcome parse_state := restyle (fun _ => no_style).
Definition ik_serialize_handle_bold : parse_state -> outcome parse_state := restyle set_bold.
Definition ik_serialize_handle_dim : parse_state -> outcome parse_state := restyle set_dim.
Definition ik_serialize_handle_reverse : parse_state -> outcome parse_state := restyle set_reverse.

(** The digits at the start of [rest]; [prev] is the byte before it.  The number
    is an int32_t. *)
Fixpoint color_loop (rest : list Z) (prev color : Z) : outcome (Z * Z * list Z) :=
  match rest with
  | c :: rest' =>
      if ((48 <=? c) && (c <=? 57))%Z then
        let color := (color * 10 + (c - 48))%Z in
        if (color <? 2 ^ 31)%Z then color_loop rest' c color else Undef
      else Ret (color, prev, rest)
  | [] => Ret (color, prev, [])
  end.

Definition color_prefix : cstr := lit "38;5;".

(** [rest] are the bytes from position *i on, [prev] the one before. *)
Definition ik_serialize_handle_fg_color (st : parse_state) (prev : Z) (rest : list Z) : outcome (parse_state * Z * list Z) :=
  if starts_with color_prefix rest then
    let! (color, prev, rest) := color_loop (drop 5 rest) 59 0 in
    match rest with
    | c :: rest' => if (c =? 109)%Z then let! st := restyle (set_fg color) st in Ret (st, c, rest') else Ret (st, prev, rest)
    | [] => Ret (st, prev, rest)
    end
  else Ret (st, prev, rest).

(** Up to the final byte of the sequence. *)
Fixpoint skip_final (rest : list Z) : list Z :=
  match rest with
  | [] => []
  | c :: rest => if ((c <? 0x40) || (0x7E <? c))%Z then skip_final rest else rest
  end.

(** [rest] follows the escape and the bracket. *)
Definition ik_serialize_handle_escape_sequence (st : parse_state) (rest : list Z) : outcome (parse_state * list Z) :=
  let! (st, prev, rest) := ik_serialize_handle_fg_color st 91 rest in
  if (prev =? 109)%Z then Ret (st, rest)
  else
    match rest with
    | [] => Ret (st, rest)
    | c :: d :: tail =>
        if ((c =? 48) && (d =? 109))%Z then let! st := ik_serialize_handle_reset st in Ret (st, tail)
        else if ((c =? 49) && (d =? 109))%Z then let! st := ik_serialize_handle_bold st in Ret (st, tail)
        else if ((c =? 50) && (d =? 109))%Z then let! st := ik_serialize_handle_dim st in Ret (st, tail)
        else if ((c =? 55) && (d =? 109))%Z then let! st := ik_serialize_handle_reverse st in Ret (st, tail)
        else Ret (st, skip_final rest)
    | _ => Ret (st, skip_final rest)
    end.

(** The end of a row. *)
Definition end_row (st : parse_state) : outcome parse_state :=
  let! flush := if (0 <? used (span_text (current_span st)))%nat then Ret true
                else let! l := arr_get (fb_lines st) (current_row st) in Ret (used (spans l) =? 0)%nat in
  let! st := if flush : bool then ik_serialize_flush_span st else Ret st in
  Ret (mk_parse (fb_lines st) (S (current_row st)) (current_style st) (current_span st)).

Definition hide_cursor : cstr := 27%Z :: lit "[?25l".
Definition go_home : cstr := 27%Z :: lit "[H".

Fixpoint parse_frame (fuel : nat) (st : parse_state) (rest : list Z) : outcome parse_state :=
  match fuel with
  | 0 => NoFuel
  | S fuel =>
      match rest with
      | [] => Ret st
      | c :: tail =>
          if starts_with hide_cursor rest then parse_frame fuel st (drop 6 rest)
          else if starts_with go_home rest then parse_frame fuel st (drop 3 rest)
          else if starts_with [27; 91]%Z rest then
            let! (st, rest) := ik_serialize_handle_escape_sequence st (drop 2 rest) in
            parse_frame fuel st rest
          else if starts_with [13; 10]%Z rest then
            let! st := end_row st in
            parse_frame fuel st (drop 2 rest)
          else
            let! st := ik_serialize_add_char st c in
            parse_frame fuel st tail
      end
  end.

Definition ik_serialize_parse_framebuffer (st : parse_state) (fb : list Z) (rows : nat) : outcome parse_state :=
  let! st := parse_frame (S (length fb)) st fb in
  if (0 <? used (span_text (current_span st)))%nat && (current_row st <? rows)%nat then ik_serialize_flush_span st else Ret st.

(** The first span of an empty row becomes the empty text. *)
Definition ensure_span (l : fb_line) : outcome fb_line :=
  if (used (spans l) =? 0)%nat then
    let! sp := arr_get (items (spans l)) 0 in
    let! slots := arr_set 0 (mk_span (mk_growing [0%Z] 0 (room (span_text sp))) (span_style sp)) (items (spans l)) in
    Ret (mk_fb_line (fb_row l) (mk_growing slots 1 (room (spans l))))
  else Ret l.

(** The first [n] lines from the [i]-th on. *)
Fixpoint ik_serialize_ensure_empty_rows (ls : list fb_line) (n i : nat) : outcome (list fb_line) :=
  match n with
  | 0 => Ret ls
  | S n =>
      let! l := arr_get ls i in
      let! l := ensure_span l in
      let! ls := arr_set i l ls in
      ik_serialize_ensure_empty_rows ls n (S i)
  end.

(** ** Text *)

Definition escape_char (c : Z) : list Z := if ((c =? 34) || (c =? 92))%Z then [92; c]%Z else [c].

Definition ik_serialize_escape_text (text : list Z) (len : nat) : outcome cstr :=
  let! text := mem_read 0 len text in
  let escaped := text ≫= escape_char in
  if (length escaped <? wrap32 (len * 2 + 1))%nat then Ret escaped else Undef.

Definition add_attribute (present : bool) (text : cstr) (acc : cstr * bool) : cstr * bool :=
  let '(json, first_attr) := acc in
  if present then ((if first_attr then json else json ++ lit ",") ++ text, false) else acc.

Definition flag (k : string) : cstr := quoted_text (lit k) ++ lit ":true".

Definition ik_serialize_build_style_json (json : cstr) (s : text_style) : cstr :=
  fst (add_attribute (style_reverse s) (flag "reverse")
        (add_attribute (style_dim s) (flag "dim")
          (add_attribute (style_bold s) (flag "bold")
            (add_attribute (has_fg s) (quoted_text (lit "fg") ++ lit ":" ++ show_int (style_fg s)) (json, true))))).

Definition ik_serialize_build_span_json (json : cstr) (sp : span) : outcome cstr :=
  let! escaped := ik_serialize_escape_text (items (span_text sp)) (used (span_text sp)) in
  let json := json ++ lit "{" ++ quoted_text (lit "text") ++ lit ":" ++ quoted_text (until_nul escaped) ++ lit "," ++ quoted_text (lit "style") ++ lit ":{" in
  Ret (ik_serialize_build_style_json json (span_style sp) ++ lit "}}").

Fixpoint build_spans (json : cstr) (slots : list span) (n i : nat) : outcome cstr :=
  match n with
  | 0 => Ret json
  | S n =>
      let json := if (0 <? i)%nat then json ++ lit "," else json in
      let! sp := arr_get slots i in
      let! json := ik_serialize_build_span_json json sp in
      build_spans json slots n (S i)
  end.

Definition ik_serialize_build_line_json (json : cstr) (l : fb_line) : outcome cstr :=
  let json := json ++ lit "{" ++ quoted_text (lit "row") ++ lit ":" ++ show_int (fb_row l) ++ lit "," ++ quoted_text (lit "spans") ++ lit ":[" in
  let! json := build_spans json (items (spans l)) (used (spans l)) 0 in
  Ret (json ++ lit "]}").

Fixpoint build_lines (json : cstr) (ls : list fb_line) (n r : nat) : outcome cstr :=
  match n with
  | 0 => Ret json
  | S n =>
      let json := if (0 <? r)%nat then json ++ lit "," else json in
      let! l := arr_get ls r in
      let! json := ik_serialize_build_line_json json l in
      build_lines json ls n (S r)
  end.

Definition number_field (k : string) (z : Z) : cstr := quoted_text (lit k) ++ lit ":" ++ show_int z.

Definition ik_serialize_build_json (ls : list fb_line) (rows : nat) (cols cursor_row cursor_col : Z) (cursor_visible : bool) : outcome cstr :=
  let json :=
    lit "{" ++ quoted_text (lit "type") ++ lit ":" ++ quoted_text (lit "framebuffer") ++ lit "," ++
    number_field "rows" (Z.of_nat rows) ++ lit "," ++ number_field "cols" cols ++ lit "," ++
    quoted_text (lit "cursor") ++ lit ":{" ++ number_field "row" cursor_row ++ lit "," ++ number_field "col" cursor_col ++ lit "," ++
    quoted_text (lit "visible") ++ lit ":" ++ lit (if cursor_visible then "true" else "false")%string ++ lit "}," ++
    quoted_text (lit "lines") ++ lit ":[" in
  let! json := build_lines json ls rows 0 in
  Ret (json ++ lit "]}").

Definition blank_lines (rows : nat) : list fb_line :=
  (fun i => mk_fb_line (Z.of_nat i) (mk_growing (replicate 4 inhabitant) 0 4)) <$> seq 0 rows.

Definition ik_serialize_framebuffer (framebuffer : option (list Z)) (rows : nat) (cols cursor_row cursor_col : Z) (cursor_visible : bool)
  : outcome cstr :=
  match framebuffer with
  | None => Fail ERR_INVALID_ARG
  | Some fb =>
      let state := mk_parse (blank_lines rows) 0 no_style (mk_span fresh_text no_style) in
      let! state := ik_serialize_parse_framebuffer state fb rows in
      let! ls := ik_serialize_ensure_empty_rows (fb_lines state) rows 0 in
      ik_serialize_build_json ls rows cols cursor_row cursor_col cursor_visible
  end.

End framebuffer.

(** ** What a frame shows *)

(** A character with the style it is drawn in. *)
Definition cell : Type := Z * text_style.

Inductive token :=
| Plain (c : Z)
| Reset
| Bold
| Dim
| Reverse
| Foreground (digits : list Z)
| Control (params : list Z) (final : Z)
| Break.

Definition number_of (digits : list Z) : Z := fold_left (fun n d => n * 10 + (d - 48))%Z digits 0%Z.

Definition token_bytes (t : token) : list Z :=
  match t with
  | Plain c => [c]
  | Reset => 27%Z :: lit "[0m"
  | Bold => 27%Z :: lit "[1m"
  | Dim => 27%Z :: lit "[2m"
  | Reverse => 27%Z :: lit "[7m"
  | Foreground digits => [27; 91]%Z ++ color_prefix ++ digits ++ [109%Z]
  | Control params final => [27; 91]%Z ++ params ++ [final]
  | Break => [13; 10]%Z
  end.

Definition frame_of (ts : list token) : list Z := ts ≫= token_bytes.

Definition token_ok (t : token) : bool :=
  match t with
  | Plain c => (32 <=? c)%Z && (c <? 256)%Z
  | Foreground digits => forallb (fun d => (48 <=? d) && (d <=? 57))%Z digits && (number_of digits <? 2 ^ 31)%Z
  | Control params final =>
      forallb (fun c => (c <? 0x40) || (0x7E <? c))%Z params && ((0x40 <=? final) && (final <=? 0x7E))%Z &&
      negb (final =? 109)%Z && negb (starts_with color_prefix params)
  | _ => true
  end.

Definition token_style (t : token) (s : text_style) : text_style :=
  match t with
  | Reset => no_style
  | Bold => set_bold s
  | Dim => set_dim s
  | Reverse => set_reverse s
  | Foreground digits => set_fg (number_of digits) s
  | _ => s
  end.

(** The rows of cells, at least one. *)
Fixpoint cells_of (ts : list token) (s : text_style) : list cell * list (list cell) :=
  match ts with
  | [] => ([], [])
  | Plain c :: ts => let '(row, rows) := cells_of ts s in ((c, s) :: row, rows)
  | Break :: ts => let '(row, rows) := cells_of ts s in ([], row :: rows)
  | t :: ts => cells_of ts (token_style t s)
  end.

#[export] Instance token_eq_dec : EqDecision token.
Proof. solve_decision. Defined.

Definition breaks (ts : list token) : nat := length (filter (fun t => t = Break) ts).

Definition span_view : Type := list Z * text_style.
Definition span_cells (v : span_view) : list cell := (fun c => (c, snd v)) <$> fst v.

(** ** The JSON value, and how it is printed *)

Definition style_fields (s : text_style) : list (list Z * json) :=
  (if has_fg s then [(lit "fg", JInt (style_fg s))] else []) ++ (if style_bold s then [(lit "bold", JBool true)] else []) ++
  (if style_dim s then [(lit "dim", JBool true)] else []) ++ (if style_reverse s then [(lit "reverse", JBool true)] else []).

Definition span_value (v : span_view) : json := JObj [(lit "text", JStr (fst v)); (lit "style", JObj (style_fields (snd v)))].

Definition row_value (i : nat) (row : list span_view) : json := JObj [(lit "row", JInt (Z.of_nat i)); (lit "spans", JArr (span_value <$> row))].

Fixpoint row_values (i : nat) (rows : list (list span_view)) : list json :=
  match rows with [] => [] | row :: rows => row_value i row :: row_values (S i) rows end.

Definition frame_value (cols cursor_row cursor_col : Z) (cursor_visible : bool) (rows : list (list span_view)) : json :=
  JObj [(lit "type", JStr (lit "framebuffer")); (lit "rows", JInt (Z.of_nat (length rows))); (lit "cols", JInt cols);
    (lit "cursor", JObj [(lit "row", JInt cursor_row); (lit "col", JInt cursor_col); (lit "visible", JBool cursor_visible)]);
    (lit "lines", JArr (row_values 0 rows))].

(** Separated by commas. *)
Definition commas (l : list cstr) : cstr := match l with [] => [] | x :: l => x ++ mjoin ((fun y => lit "," ++ y) <$> l) end.

(** The compact text of a value whose strings have no control characters. *)
Fixpoint compact (j : json) : cstr :=
  match j with
  | JNull => lit "null"
  | JBool b => lit (if b then "true" else "false")%string
  | JInt z | JReal z => show_int z
  | JStr s => quoted_text (s ≫= escape_char)
  | JArr l => lit "[" ++ commas (compact <$> l) ++ lit "]"
  | JObj fs => lit "{" ++ commas ((fun f => quoted_text (fst f) ++ lit ":" ++ compact (snd f)) <$> fs) ++ lit "}"
  end.

(** ** Parsing *)

Definition flushed (vs : list span_view) (t : list Z) (s : text_style) : list span_view :=
  match t with [] => vs | _ => vs ++ [(t, s)] end.

Definition row_cells (vs : list span_view) : list cell := vs ≫= span_cells.

Lemma row_cells_flushed vs t s : row_cells (flushed vs t s) = row_cells vs ++ ((fun c => (c, s)) <$> t).
Proof.
  destruct t as [|c t]; cbn [flushed]; [by rewrite app_nil_r|]. unfold row_cells. rewrite bind_app. cbn [mbind list_bind span_cells fst snd].
  by rewrite app_nil_r.
Qed.

Section parsing.
Context `{!SlotAllocator} `{!SlotAllocatorSpec}.

Lemma push32_ok {A} `{Inhabited A} (g : growing A) l x : grown_to g l -> room g <> 0 -> (Z.of_nat (length l) < 2 ^ 28)%Z ->
  exists g', push32 g x = Ret g' /\ grown_to g' (l ++ [x]) /\ room g' <> 0.
Proof.
  intros Hg Hr Hl. destruct (push_ok 16 g l x Hg ltac:(lia) Hl) as (g' & E & Hg'). exists g'. split; [|split; [done|]].
  - pose proof (grown_bound _ _ Hg) as Hb. revert E. unfold push, grow, push32.
    destruct (room g <=? used g)%nat; [|done]. rewrite (proj2 (Nat.eqb_neq _ _)) by done. rewrite wrap64_small, !wrap32_small by lia. done.
  - rewrite (grown_room _ _ Hg'). destruct (grown_items _ _ Hg') as [rest ->]. rewrite !length_app. cbn [length]. lia.
Qed.

Definition span_rep (sp : span) (v : span_view) : Prop := grown_to (span_text sp) (fst v) /\ span_style sp = snd v.

Definition line_rep (l : fb_line) (vs : list span_view) : Prop :=
  (exists sl, grown_to (spans l) sl /\ Forall2 span_rep sl vs) /\ room (spans l) <> 0 /\
  (vs = [] -> items (spans l) = replicate 4 inhabitant).

(** [L1] are the rows before the current one, which has the spans [vs] and the
    text [t] not yet flushed; [m] empty rows follow. *)
Record shows (st : parse_state) (L1 : list (list span_view)) (vs : list span_view) (m : nat) (t : list Z) (s : text_style) : Prop := {
  shows_lines : Forall2 line_rep (fb_lines st) (L1 ++ vs :: replicate m []);
  shows_numbers : fb_row <$> fb_lines st = Z.of_nat <$> seq 0 (length L1 + S m);
  shows_row : current_row st = length L1;
  shows_style : current_style st = s /\ span_style (current_span st) = s;
  shows_text : grown_to (span_text (current_span st)) t;
  shows_room : room (span_text (current_span st)) <> 0
}.

Lemma fresh_ok : grown_to fresh_text [] /\ room fresh_text <> 0.
Proof. split; [|done]. constructor; [by eexists|done..]. Qed.

Lemma current_line st L1 vs m t s : shows st L1 vs m t s ->
  exists A l B, fb_lines st = A ++ l :: B /\ length A = length L1 /\ Forall2 line_rep A L1 /\ line_rep l vs /\ Forall2 line_rep B (replicate m []).
Proof.
  intros Hs. pose proof (shows_lines _ _ _ _ _ _ Hs) as Hl. apply Forall2_app_inv_r in Hl as (A & B & HA & HB & ->).
  apply Forall2_cons_inv_r in HB as (l & B' & Hl & HB & ->). exists A, l, B'. by rewrite (Forall2_length _ _ _ HA).
Qed.

Lemma flush_ok st L1 vs m t s : shows st L1 vs m t s -> (Z.of_nat (length vs) < 2 ^ 28)%Z ->
  exists st', ik_serialize_flush_span st = Ret st' /\ shows st' L1 (flushed vs t s) m [] s.
Proof.
  intros Hs Hb. pose proof Hs as [_ Hn Hr [Hst Hsp] Ht Hroom]. unfold ik_serialize_flush_span. rewrite (grown_used _ _ Ht).
  destruct t as [|c t]; cbn [length Nat.eqb flushed]; [by exists st|].
  destruct (current_line _ _ _ _ _ _ Hs) as (A & l & B & El & EA & HA & ((sl & Hsl & Hv) & Hlr & _) & HB).
  rewrite El, Hr, <- EA, arr_get_app. cbn [obind].
  destruct (push32_ok (spans l) sl (current_span st) Hsl Hlr) as (g & -> & Hg & Hgr); [by rewrite (Forall2_length _ _ _ Hv)|].
  cbn [obind]. rewrite (arr_set_middle _ l A B). cbn [obind]. eexists. split; [reflexivity|]. destruct fresh_ok as [Hf1 Hf2].
  constructor; cbn [fb_lines current_row current_style current_span span_text span_style]; try done.
  - apply Forall2_app; [done|]. constructor; [|done]. split; [|split; [done|by destruct vs]].
    exists (sl ++ [current_span st]). split; [done|]. apply Forall2_app; [done|]. constructor; [by split|done].
  - rewrite <- Hn, El, !fmap_app. done.
Qed.

Lemma add_char_ok st L1 vs m t s c : shows st L1 vs m t s -> (Z.of_nat (length t) < 2 ^ 28)%Z ->
  exists st', ik_serialize_add_char st c = Ret st' /\ shows st' L1 vs m (t ++ [c]) s.
Proof.
  intros [Hl Hn Hr Hs Ht Hroom] Hb. unfold ik_serialize_add_char.
  destruct (push32_ok _ t c Ht Hroom Hb) as (g & -> & Hg & Hgr). cbn [obind]. eexists. split; [reflexivity|]. by constructor.
Qed.

Lemma restyle_ok f st L1 vs m t s : shows st L1 vs m t s -> (Z.of_nat (length vs) < 2 ^ 28)%Z ->
  exists st', restyle f st = Ret st' /\ shows st' L1 (flushed vs t s) m [] (f s).
Proof.
  intros Hs Hb. unfold restyle. destruct (flush_ok _ _ _ _ _ _ Hs Hb) as (st1 & -> & [Hl Hn Hr [Hst Hsp] Ht Hroom]).
  cbn [obind]. eexists. split; [reflexivity|]. rewrite Hst. by constructor.
Qed.

Lemma end_row_ok st L1 vs m t s : shows st L1 vs (S m) t s -> (Z.of_nat (length vs) < 2 ^ 28)%Z ->
  exists st', end_row st = Ret st' /\ shows st' (L1 ++ [flushed vs t s]) [] m [] s.
Proof.
  intros Hs Hb. unfold end_row.
  assert (exists b, (if (0 <? used (span_text (current_span st)))%nat then Ret true
                     else let! l := arr_get (fb_lines st) (current_row st) in Ret (used (spans l) =? 0)%nat) = Ret b /\
                    (b = false -> t = [])) as (b & -> & Hnb).
  { rewrite (grown_used _ _ (shows_text _ _ _ _ _ _ Hs)), (shows_row _ _ _ _ _ _ Hs). destruct t as [|c t]; cbn [length Nat.ltb Nat.leb].
    - destruct (current_line _ _ _ _ _ _ Hs) as (A & l & B & -> & <- & _). rewrite arr_get_app. cbn [obind]. eexists. by split.
    - by exists true. }
  cbn [obind].
  assert (exists st1, (if b : bool then ik_serialize_flush_span st else Ret st) = Ret st1 /\ shows st1 L1 (flushed vs t s) (S m) [] s) as (st1 & -> & Hs1).
  { destruct b; [by apply flush_ok|]. rewrite (Hnb eq_refl) in *. by exists st. }
  cbn [obind]. eexists. split; [reflexivity|]. destruct Hs1 as [Hl Hn Hr Hst Ht Hroom].
  constructor; cbn [fb_lines current_row current_style current_span]; try done.
  - rewrite <- app_assoc. exact Hl.
  - rewrite Hn, length_app. cbn [length]. do 2 f_equal. lia.
  - rewrite Hr, length_app. cbn [length]. lia.
Qed.

(** ** Sequences *)

Lemma starts_with_prefix p rest : starts_with p (p ++ rest) = true.
Proof. induction p as [|c p IH]; [by destruct rest|]. cbn [app starts_with]. by rewrite Z.eqb_refl. Qed.

Lemma fold_grows digits : forall n, forallb (fun d => (48 <=? d) && (d <=? 57))%Z digits = true -> (0 <= n)%Z ->
  (n <= fold_left (fun n d => n * 10 + (d - 48)) digits n)%Z.
Proof.
  induction digits as [|d digits IH]; intros n Hd Hn; [done|]. cbn [forallb fold_left] in *. apply andb_true_iff in Hd as [Hd Hds].
  apply andb_true_iff in Hd as [?%Z.leb_le ?%Z.leb_le]. specialize (IH (n * 10 + (d - 48))%Z Hds ltac:(lia)). lia.
Qed.

Lemma color_loop_ok digits : forall rest prev n, forallb (fun d => (48 <=? d) && (d <=? 57))%Z digits = true -> (0 <= n)%Z ->
  (fold_left (fun n d => n * 10 + (d - 48)) digits n < 2 ^ 31)%Z ->
  exists prev', color_loop (digits ++ 109%Z :: rest) prev n = Ret (fold_left (fun n d => n * 10 + (d - 48))%Z digits n, prev', 109%Z :: rest).
Proof.
  induction digits as [|d digits IH]; intros rest prev n Hd Hn Hb; cbn [app color_loop fold_left]; [by exists prev|].
  cbn [forallb] in Hd. apply andb_true_iff in Hd as [Hd Hds]. rewrite Hd. cbn [fold_left] in Hb.
  apply andb_true_iff in Hd as [?%Z.leb_le ?%Z.leb_le].
  pose proof (fold_grows digits (n * 10 + (d - 48))%Z Hds ltac:(lia)) as Hg.
  rewrite (proj2 (Z.ltb_lt _ _)) by lia. by apply IH; [|lia|].
Qed.

Lemma skip_final_ok params final rest : forallb (fun c => (c <? 0x40) || (0x7E <? c))%Z params = true ->
  ((0x40 <=? final) && (final <=? 0x7E))%Z = true -> skip_final (params ++ final :: rest) = rest.
Proof.
  intros Hp [Hf1%Z.leb_le Hf2%Z.leb_le]%andb_true_iff. induction params as [|c params IH]; cbn [app skip_final].
  - rewrite (proj2 (Z.ltb_ge _ _)), (proj2 (Z.ltb_ge _ _)) by lia. done.
  - cbn [forallb] in Hp. apply andb_true_iff in Hp as [-> Hp]. by apply IH.
Qed.

(** A prefix that does not end before a byte it does not contain. *)
Lemma starts_with_stop p params final rest : starts_with p params = false -> (final ∉ p) -> starts_with p (params ++ final :: rest) = false.
Proof.
  revert params. induction p as [|c p IH]; intros params Hs Hf; [by destruct params|]. apply not_elem_of_cons in Hf as [Hc Hf].
  destruct params as [|d params]; cbn [app starts_with] in *; [by rewrite (proj2 (Z.eqb_neq _ _))|].
  destruct (c =? d)%Z; [by apply IH|done].
Qed.

(** A sequence of styles. *)
Lemma style_sequence t st L1 vs m tx s rest : token_ok t = true -> shows st L1 vs m tx s -> (Z.of_nat (length vs) < 2 ^ 28)%Z ->
  match t with Plain _ | Break | Control _ _ => False | _ => True end ->
  exists st', ik_serialize_handle_escape_sequence st (drop 2 (token_bytes t ++ rest)) = Ret (st', rest) /\
    shows st' L1 (flushed vs tx s) m [] (token_style t s).
Proof.
  intros Hok Hs Hb Ht.
  assert (forall f, ik_serialize_handle_escape_sequence st (drop 2 (token_bytes t ++ rest)) = (let! st := restyle f st in Ret (st, rest)) ->
    exists st', ik_serialize_handle_escape_sequence st (drop 2 (token_bytes t ++ rest)) = Ret (st', rest) /\ shows st' L1 (flushed vs tx s) m [] (f s)) as Hby.
  { intros f ->. destruct (restyle_ok f _ _ _ _ _ _ Hs Hb) as (st' & -> & Hs'). by exists st'. }
  destruct t as [c| | | | |digits|params final|]; try done; cbn [token_style];
    [by apply (Hby (fun _ => no_style))|by apply (Hby set_bold)|by apply (Hby set_dim)|by apply (Hby set_reverse)|].
  cbn [token_bytes]. rewrite <- !app_assoc. change (drop 2 ([27; 91]%Z ++ color_prefix ++ digits ++ [109%Z] ++ rest)) with (color_prefix ++ digits ++ 109%Z :: rest).
  unfold ik_serialize_handle_escape_sequence, ik_serialize_handle_fg_color.
  rewrite starts_with_prefix. change (drop 5 (color_prefix ++ digits ++ 109%Z :: rest)) with (digits ++ 109%Z :: rest).
  cbn [token_ok] in Hok. apply andb_true_iff in Hok as [Hd Hn%Z.ltb_lt].
  destruct (color_loop_ok digits rest 59 0 Hd ltac:(lia) Hn) as [prev ->]. cbn [obind]. rewrite Z.eqb_refl.
  destruct (restyle_ok (set_fg (number_of digits)) _ _ _ _ _ _ Hs Hb) as (st' & E & Hs'). unfold number_of in E at 1. rewrite E. cbn [obind].
  rewrite Z.eqb_refl. by exists st'.
Qed.

Lemma control_sequence params final st rest : token_ok (Control params final) = true ->
  ik_serialize_handle_escape_sequence st (params ++ final :: rest) = Ret (st, rest).
Proof.
  cbn [token_ok]. rewrite !andb_true_iff, !negb_true_iff. intros [[[Hp Hf] Hm] Hc]. unfold ik_serialize_handle_escape_sequence, ik_serialize_handle_fg_color.
  assert (0x40 <= final <= 0x7E)%Z as Hf' by (rewrite !Z.leb_le in Hf; lia). apply andb_true_iff in Hf.
  rewrite starts_with_stop; [|done|]. 2: { change color_prefix with [51; 56; 59; 53; 59]%Z. rewrite !not_elem_of_cons. split_and!; try lia. apply not_elem_of_nil. }
  cbn [obind]. change (91 =? 109)%Z with false. cbn iota. pose proof (skip_final_ok params final rest Hp Hf) as Hskip.
  destruct params as [|c [|d params]]; cbn [app] in *.
  - destruct rest as [|d rest]; [by rewrite Hskip|]. repeat rewrite (proj2 (Z.eqb_neq final _)) by lia. cbn [andb]. by rewrite Hskip.
  - rewrite Hm, !andb_false_r. by rewrite Hskip.
  - cbn [forallb] in Hp. apply andb_true_iff in Hp as [_ [Hd _]%andb_true_iff].
    assert ((d =? 109)%Z = false) as -> by (apply Z.eqb_neq; intros ->; done). rewrite !andb_false_r. by rewrite Hskip.
Qed.

Definition param (c : Z) : bool := (c <? 0x40)%Z || (0x7E <? c)%Z.

(** A prefix that ends with its final byte is the whole sequence. *)
Lemma starts_with_exact p f params final rest : forallb param p = true -> param f = false -> forallb param params = true -> param final = false ->
  starts_with (p ++ [f]) (params ++ final :: rest) = true -> params = p /\ final = f.
Proof.
  intros Hp Hf Hps Hfin. revert params Hps. induction p as [|c p IH]; intros [|d params] Hps; cbn [app starts_with forallb] in *; intros Hs.
  - by apply andb_true_iff in Hs as [->%Z.eqb_eq _].
  - apply andb_true_iff in Hs as [->%Z.eqb_eq _]. apply andb_true_iff in Hps as [Hd _]. congruence.
  - apply andb_true_iff in Hs as [->%Z.eqb_eq _]. apply andb_true_iff in Hp as [Hd _]. congruence.
  - apply andb_true_iff in Hs as [->%Z.eqb_eq Hs]. apply andb_true_iff in Hp as [_ Hp]. apply andb_true_iff in Hps as [_ Hps].
    by destruct (IH Hp params Hps Hs) as [-> ->].
Qed.

Lemma control_step params final fuel st rest : token_ok (Control params final) = true ->
  parse_frame (S fuel) st (token_bytes (Control params final) ++ rest) = parse_frame fuel st rest.
Proof.
  intros Hok. pose proof Hok as Hok2. cbn [token_ok] in Hok2. rewrite !andb_true_iff in Hok2. destruct Hok2 as [[[Hp [Hf1%Z.leb_le Hf2%Z.leb_le]] _] _].
  assert (param final = false) as Hfin by (unfold param; apply orb_false_iff; split; apply Z.ltb_ge; lia).
  cbn [token_bytes]. rewrite <- !app_assoc. set (bytes := [27; 91]%Z ++ params ++ [final] ++ rest).
  assert (forall p f, forallb param p = true -> param f = false -> starts_with ([27; 91]%Z ++ p ++ [f]) bytes = true -> drop (2 + S (length p)) bytes = rest) as Hexact.
  { intros p f Hpp Hpf Hs. cbn [app starts_with bytes Z.eqb Pos.eqb andb] in Hs. unfold bytes in *. cbn [app starts_with Z.eqb Pos.eqb andb] in Hs.
    destruct (starts_with_exact p f params final rest Hpp Hpf Hp Hfin Hs) as [-> ->].
    change (drop (S (length p)) ((p ++ [f] ++ rest)) = rest). rewrite app_assoc.
    replace (S (length p)) with (length (p ++ [f])) by len_lia. apply drop_app_length. }
  change (parse_frame (S fuel) st bytes) with
    (if starts_with hide_cursor bytes then parse_frame fuel st (drop 6 bytes)
     else if starts_with go_home bytes then parse_frame fuel st (drop 3 bytes)
     else let! (st, rest) := ik_serialize_handle_escape_sequence st (params ++ final :: rest) in parse_frame fuel st rest).
  destruct (starts_with hide_cursor bytes) eqn:Eh; [by rewrite (Hexact (lit "?25") 108%Z eq_refl eq_refl Eh : drop 6 bytes = rest)|].
  destruct (starts_with go_home bytes) eqn:Eg; [by rewrite (Hexact [] 72%Z eq_refl eq_refl Eg : drop 3 bytes = rest)|].
  by rewrite control_sequence.
Qed.

Lemma plain_step c fuel st rest : token_ok (Plain c) = true ->
  parse_frame (S fuel) st (token_bytes (Plain c) ++ rest) = let! st := ik_serialize_add_char st c in parse_frame fuel st rest.
Proof.
  intros Hc%andb_true_iff. rewrite Z.leb_le, Z.ltb_lt in Hc. cbn [token_bytes app parse_frame].
  unfold hide_cursor, go_home. cbn [starts_with]. by rewrite (proj2 (Z.eqb_neq 27 c)), (proj2 (Z.eqb_neq 13 c)) by lia.
Qed.

Lemma style_step t fuel st rest : match t with Plain _ | Break | Control _ _ => False | _ => True end ->
  parse_frame (S fuel) st (token_bytes t ++ rest) =
    let! (st, rest) := ik_serialize_handle_escape_sequence st (drop 2 (token_bytes t ++ rest)) in parse_frame fuel st rest.
Proof. by destruct t. Qed.

Lemma break_step fuel st rest : parse_frame (S fuel) st (token_bytes Break ++ rest) = let! st := end_row st in parse_frame fuel st rest.
Proof. done. Qed.

Definition texts_ok (vs : list span_view) : Prop := Forall (fun v => fst v <> [] /\ Forall (fun c => (32 <= c < 256)%Z) (fst v)) vs.

Lemma flushed_texts vs t s : texts_ok vs -> Forall (fun c => (32 <= c < 256)%Z) t -> texts_ok (flushed vs t s).
Proof. intros Hv Ht. destruct t as [|c t]; [done|]. apply Forall_app. split; [done|]. constructor; [by split|constructor]. Qed.

Lemma flushed_length vs t s : length (flushed vs t s) <= length vs + length t.
Proof. destruct t; cbn [flushed]; [lia|]. rewrite length_app. cbn [length]. lia. Qed.

Lemma token_bytes_length t : token_ok t = true -> 0 < length (token_bytes t).
Proof. intros _. destruct t; cbn [token_bytes]; try (vm_compute; lia); rewrite ?length_app; cbn [length]; lia. Qed.

Lemma frame_longer ts : length ts <= length (frame_of ts).
Proof.
  induction ts as [|t ts IH]; [done|]. unfold frame_of in *. cbn [mbind list_bind length]. rewrite length_app.
  assert (0 < length (token_bytes t)); [|lia]. destruct t; cbn [token_bytes]; try (vm_compute; lia); rewrite ?length_app; cbn [length]; lia.
Qed.

Lemma cells_count ts s : length (snd (cells_of ts s)) = breaks ts.
Proof.
  revert s. induction ts as [|t ts IH]; intros s; [done|]. unfold breaks in *.
  destruct t; cbn [cells_of]; try (rewrite filter_cons_False by done; try apply IH);
    try (specialize (IH s); destruct (cells_of ts s) as [row rows]; cbn [snd length] in *; done).
  rewrite filter_cons_True by done. specialize (IH s). destruct (cells_of ts s) as [row rows]. cbn [snd length] in *. by rewrite IH.
Qed.

Lemma cells_short ts s : Forall (fun r => length r <= length ts) (fst (cells_of ts s) :: snd (cells_of ts s)).
Proof.
  revert s. induction ts as [|t ts IH]; intros s; [by repeat constructor|].
  assert (forall s', Forall (fun r => length r <= S (length ts)) (fst (cells_of ts s') :: snd (cells_of ts s'))) as Hstep.
  { intros s'. eapply Forall_impl; [apply (IH s')|]. intros r Hr. cbn beta in Hr. lia. }
  destruct t; cbn [cells_of length]; try apply Hstep; specialize (IH s); specialize (Hstep s); destruct (cells_of ts s) as [row rows]; cbn [fst snd] in *.
  - apply Forall_cons in IH as [? _]. apply Forall_cons in Hstep as [_ ?]. constructor; [cbn [length]; lia|done].
  - constructor; [cbn [length]; lia|done].
Qed.

(** What is left to show by the rest of the frame. *)
Lemma parse_frame_ok ts : forall fuel st L1 vs m t s, forallb token_ok ts = true -> shows st L1 vs m t s -> breaks ts <= m ->
  (Z.of_nat (length vs + length t + length ts) < 2 ^ 28)%Z -> length (frame_of ts) < fuel ->
  Forall texts_ok (L1 ++ [vs]) -> Forall (fun c => (32 <= c < 256)%Z) t ->
  exists st' L1' vs' m' t' s', parse_frame fuel st (frame_of ts) = Ret st' /\ shows st' L1' vs' m' t' s' /\
    (Z.of_nat (length vs' + length t') < 2 ^ 28)%Z /\ Forall texts_ok (L1' ++ [flushed vs' t' s']) /\ length L1' + m' = length L1 + m /\
    row_cells <$> (L1' ++ [flushed vs' t' s']) =
      (row_cells <$> L1) ++ (row_cells (flushed vs t s) ++ fst (cells_of ts s)) :: snd (cells_of ts s).
Proof.
  induction ts as [|t0 ts IH]; intros fuel st L1 vs m t s Hok Hs Hm Hb Hf Hne Ht; (destruct fuel as [|fuel]; [lia|]).
  { exists st, L1, vs, m, t, s. split; [done|]. split; [done|]. split; [cbn [length] in Hb; lia|]. split.
    - apply Forall_app in Hne as [H1 H2]. apply Forall_app. split; [done|]. constructor; [|done]. apply flushed_texts; [by inversion H2|done].
    - split; [done|]. rewrite fmap_app. cbn [cells_of fst snd]. by rewrite app_nil_r. }
  cbn [forallb] in Hok. apply andb_true_iff in Hok as [Ht0 Hok]. cbn [length] in Hb. unfold frame_of in *. cbn [mbind list_bind] in *.
  fold (frame_of ts) in *. rewrite length_app in Hf. pose proof (token_bytes_length t0 Ht0) as Hlen. pose proof (flushed_length vs t s) as Hfl.
  pose proof Hne as Hne'. apply Forall_app in Hne' as [Hne1 Hne2]. apply Forall_inv in Hne2.
  assert (forall s', cells_of (t0 :: ts) s = cells_of ts s' -> token_style t0 s = s' -> match t0 with Plain _ | Break | Control _ _ => False | _ => True end ->
    breaks (t0 :: ts) = breaks ts ->
    exists st' L1' vs' m' t' s', parse_frame (S fuel) st (token_bytes t0 ++ frame_of ts) = Ret st' /\ shows st' L1' vs' m' t' s' /\
      (Z.of_nat (length vs' + length t') < 2 ^ 28)%Z /\ Forall texts_ok (L1' ++ [flushed vs' t' s']) /\ length L1' + m' = length L1 + m /\
      row_cells <$> (L1' ++ [flushed vs' t' s']) =
        (row_cells <$> L1) ++ (row_cells (flushed vs t s) ++ fst (cells_of (t0 :: ts) s)) :: snd (cells_of (t0 :: ts) s)) as Hstyle.
  { intros s' Ec Es Hkind Ebr. rewrite style_step by done. destruct (style_sequence t0 st L1 vs m t s (frame_of ts) Ht0 Hs ltac:(lia) Hkind) as (st1 & -> & Hs1).
    cbn [obind]. rewrite Ec. rewrite Es in Hs1. rewrite Ebr in Hm.
    destruct (IH fuel st1 L1 (flushed vs t s) m [] s' Hok Hs1 Hm) as (st' & L1' & vs' & m' & t' & s2 & E & H2 & H3 & H4 & H5 & H6).
    - cbn [length]. lia.
    - lia.
    - apply Forall_app. split; [done|]. constructor; [by apply flushed_texts|done].
    - done.
    - exists st', L1', vs', m', t', s2. split_and!; try done. }
  destruct t0 as [c| | | | |digits|params final|].
  - rewrite plain_step by done. destruct (add_char_ok st L1 vs m t s c Hs ltac:(lia)) as (st1 & -> & Hs1). cbn [obind].
    destruct (IH fuel st1 L1 vs m (t ++ [c]) s Hok Hs1 Hm) as (st' & L1' & vs' & m' & t' & s2 & E & H2 & H3 & H4 & H5 & H6).
    + rewrite length_app. cbn [length]. lia.
    + lia.
    + done.
    + apply Forall_app. split; [done|]. constructor; [|done]. cbn [token_ok] in Ht0. apply andb_true_iff in Ht0. rewrite Z.leb_le, Z.ltb_lt in Ht0. lia.
    + exists st', L1', vs', m', t', s2. split_and!; try done. rewrite H6. cbn [cells_of]. destruct (cells_of ts s) as [row rows]. cbn [fst snd].
      rewrite !row_cells_flushed, fmap_app, <- !app_assoc. done.
  - by apply (Hstyle no_style).
  - by apply (Hstyle (set_bold s)).
  - by apply (Hstyle (set_dim s)).
  - by apply (Hstyle (set_reverse s)).
  - by apply (Hstyle (set_fg (number_of digits) s)).
  - rewrite control_step by done. destruct (IH fuel st L1 vs m t s Hok Hs Hm) as (st' & L1' & vs' & m' & t' & s2 & E & H2 & H3 & H4 & H5 & H6); try done; try lia.
    by exists st', L1', vs', m', t', s2.
  - rewrite break_step. change (breaks (Break :: ts)) with (S (breaks ts)) in Hm. destruct m as [|m]; [lia|].
    destruct (end_row_ok st L1 vs m t s Hs ltac:(lia)) as (st1 & -> & Hs1). cbn [obind].
    destruct (IH fuel st1 (L1 ++ [flushed vs t s]) [] m [] s Hok Hs1) as (st' & L1' & vs' & m' & t' & s2 & E & H2 & H3 & H4 & H5 & H6).
    + lia.
    + cbn [length]. lia.
    + lia.
    + rewrite !Forall_app. split; [split; [done|]|by repeat constructor]. constructor; [by apply flushed_texts|done].
    + done.
    + exists st', L1', vs', m', t', s2. split_and!; try done.
      * rewrite H5, length_app. cbn [length]. lia.
      * rewrite H6. cbn [cells_of]. destruct (cells_of ts s) as [row rows]. cbn [fst snd flushed]. rewrite fmap_app, <- app_assoc, app_nil_r. done.
Qed.

End parsing.

(** ** Writing *)

Section writing.

(** A span that is only read. *)
Definition span_is (sp : span) (v : span_view) : Prop :=
  (exists rest, items (span_text sp) = fst v ++ rest) /\ used (span_text sp) = length (fst v) /\ span_style sp = snd v.

Definition line_is (l : fb_line) (vs : list span_view) : Prop :=
  exists sl rest, items (spans l) = sl ++ rest /\ used (spans l) = length sl /\ Forall2 span_is sl vs.

(** The texts can be written. *)
Definition row_ok (vs : list span_view) : Prop :=
  Forall (fun v => (Z.of_nat (length (fst v)) < 2 ^ 30)%Z /\ Forall (fun c => (32 <= c < 256)%Z) (fst v)) vs.

Definition tail_commas (l : list cstr) : cstr := mjoin ((fun y => lit "," ++ y) <$> l).

Lemma commas_from (json : cstr) (i : nat) x l : (if (0 <? i)%nat then json ++ lit "," else json) ++ x ++ tail_commas l =
  json ++ (if (i =? 0)%nat then commas (x :: l) else tail_commas (x :: l)).
Proof. destruct i; cbn [Nat.ltb Nat.leb Nat.eqb]; [done|]. unfold tail_commas. cbn [fmap list_fmap mjoin list_join]. by rewrite <- !app_assoc. Qed.

Lemma escaped_length text : length text <= length (text ≫= escape_char) <= 2 * length text.
Proof.
  induction text as [|c text IH]; [done|]. cbn [mbind list_bind]. rewrite length_app. cbn [length]. fold (@mbind list _ _ _ escape_char).
  unfold escape_char at 1 3. destruct (_ || _); cbn [length]; lia.
Qed.

Lemma escaped_no_nul text : Forall (fun c => (32 <= c < 256)%Z) text -> (0%Z ∉ text ≫= escape_char).
Proof.
  induction 1 as [|c text Hc _ IH]; [apply not_elem_of_nil|]. cbn [mbind list_bind]. rewrite not_elem_of_app. split; [|exact IH].
  unfold escape_char. destruct (_ || _); rewrite !not_elem_of_cons; split_and!; try lia; apply not_elem_of_nil.
Qed.

Lemma style_json json s : ik_serialize_build_style_json json s ++ lit "}}" = json ++ commas ((fun f => quoted_text (fst f) ++ lit ":" ++ compact (snd f)) <$> style_fields s) ++ lit "}}".
Proof.
  destruct s as [c [] [] [] []]; unfold ik_serialize_build_style_json, style_fields; cbn [has_fg style_bold style_dim style_reverse style_fg add_attribute fst app fmap list_fmap commas mjoin list_join compact snd];
    unfold flag; rewrite <- ?app_assoc, ?app_nil_r; reflexivity.
Qed.

Lemma span_json json sp v : span_is sp v -> (Z.of_nat (length (fst v)) < 2 ^ 30)%Z -> Forall (fun c => (32 <= c < 256)%Z) (fst v) ->
  ik_serialize_build_span_json json sp = Ret (json ++ compact (span_value v)).
Proof.
  intros ([rest Ei] & Eu & Es) Hl Hc. unfold ik_serialize_build_span_json, ik_serialize_escape_text. rewrite Ei, Eu.
  pose proof (mem_read_app 0 (length (fst v)) [] (fst v) rest eq_refl eq_refl) as Hr. cbn [app] in Hr. rewrite Hr. cbn [obind].
  pose proof (escaped_length (fst v)) as He. rewrite wrap32_small by lia. rewrite (proj2 (Nat.ltb_lt _ _)) by lia. cbn [obind].
  rewrite until_nul_id by (by apply escaped_no_nul). rewrite Es, style_json. f_equal. rewrite <- !app_assoc. f_equal.
  unfold span_value. cbn [compact fmap list_fmap commas mjoin list_join fst snd]. rewrite <- !app_assoc, ?app_nil_r. rewrite <- ?app_assoc. done.
Qed.

Lemma build_spans_ok sl vs rest : Forall2 span_is sl vs -> row_ok vs -> forall json d,
  build_spans json (d ++ sl ++ rest) (length sl) (length d) =
    Ret (json ++ (if (length d =? 0)%nat then commas (compact <$> (span_value <$> vs)) else tail_commas (compact <$> (span_value <$> vs)))).
Proof.
  induction 1 as [|sp v sl vs Hsp _ IH]; intros Hok json d.
  { cbn [length build_spans fmap list_fmap commas]. unfold tail_commas. cbn [fmap list_fmap mjoin list_join].
    by destruct (length d =? 0)%nat; rewrite app_nil_r. }
  apply Forall_cons in Hok as [[Hl Hc] Hok]. cbn [length build_spans app]. rewrite arr_get_app. cbn [obind].
  rewrite (span_json _ sp v Hsp Hl Hc). cbn [obind]. specialize (IH Hok ((if (0 <? length d)%nat then json ++ lit "," else json) ++ compact (span_value v)) (d ++ [sp])).
  rewrite <- app_assoc in IH. cbn [app] in IH. rewrite length_app in IH. cbn [length] in IH. rewrite Nat.add_1_r in IH. rewrite IH.
  cbn [Nat.eqb]. rewrite <- app_assoc. rewrite commas_from. done.
Qed.

Lemma line_json json l vs i : line_is l vs -> row_ok vs -> fb_row l = Z.of_nat i ->
  ik_serialize_build_line_json json l = Ret (json ++ compact (row_value i vs)).
Proof.
  intros (sl & rest & Ei & Eu & Hv) Hok En. unfold ik_serialize_build_line_json. rewrite Ei, Eu, En.
  pose proof (build_spans_ok sl vs rest Hv Hok) as Hb. rewrite (Hb _ []). cbn [obind length Nat.eqb]. f_equal.
  unfold row_value. cbn [compact fmap list_fmap commas mjoin list_join fst snd]. rewrite <- !app_assoc, ?app_nil_r. rewrite <- ?app_assoc. done.
Qed.

Lemma build_lines_ok ls L : Forall2 line_is ls L -> Forall row_ok L -> forall json d,
  fb_row <$> ls = Z.of_nat <$> seq (length d) (length ls) ->
  build_lines json (d ++ ls) (length ls) (length d) =
    Ret (json ++ (if (length d =? 0)%nat then commas (compact <$> row_values (length d) L) else tail_commas (compact <$> row_values (length d) L))).
Proof.
  induction 1 as [|l vs ls L Hl _ IH]; intros Hok json d Hn.
  { cbn [length build_lines row_values fmap list_fmap commas]. unfold tail_commas. cbn [fmap list_fmap mjoin list_join].
    by destruct (length d =? 0)%nat; rewrite app_nil_r. }
  apply Forall_cons in Hok as [Hv Hok]. cbn [length seq fmap list_fmap] in Hn. injection Hn as En Hn.
  cbn [length build_lines]. rewrite arr_get_app. cbn [obind]. rewrite (line_json _ l vs (length d) Hl Hv En). cbn [obind].
  specialize (IH Hok ((if (0 <? length d)%nat then json ++ lit "," else json) ++ compact (row_value (length d) vs)) (d ++ [l])).
  rewrite <- app_assoc in IH. cbn [app] in IH. rewrite length_app in IH. cbn [length] in IH. rewrite Nat.add_1_r in IH. rewrite IH by done.
  cbn [Nat.eqb]. rewrite <- app_assoc, commas_from. done.
Qed.

Lemma frame_json ls L cols row col vis : Forall2 line_is ls L -> Forall row_ok L -> fb_row <$> ls = Z.of_nat <$> seq 0 (length ls) ->
  ik_serialize_build_json ls (length L) cols row col vis = Ret (compact (frame_value cols row col vis L)).
Proof.
  intros Hl Hok Hn. unfold ik_serialize_build_json. rewrite <- (Forall2_length _ _ _ Hl). pose proof (build_lines_ok ls L Hl Hok) as Hb.
  rewrite (Hb _ [] Hn). cbn [obind length Nat.eqb]. f_equal. unfold frame_value. rewrite (Forall2_length _ _ _ Hl).
  cbn [compact fmap list_fmap commas mjoin list_join fst snd]. unfold number_field. rewrite <- ?app_assoc, ?app_nil_r. rewrite <- ?app_assoc. done.
Qed.

End writing.

(** Rows without spans show the empty text. *)
Definition filled (vs : list span_view) : list span_view := match vs with [] => [([], no_style)] | _ => vs end.

Section whole_frame.
Context `{!SlotAllocator} `{!SlotAllocatorSpec}.

Lemma ensure_span_ok l vs : line_rep l vs -> exists l', ensure_span l = Ret l' /\ line_is l' (filled vs) /\ fb_row l' = fb_row l.
Proof.
  intros ((sl & Hsl & Hv) & _ & Hblank). unfold ensure_span. rewrite (grown_used _ _ Hsl), (Forall2_length _ _ _ Hv).
  destruct vs as [|v vs]; cbn [length Nat.eqb filled].
  - rewrite (Hblank eq_refl). eexists. split; [reflexivity|]. split; [|done]. eexists [_], _. split; [reflexivity|]. split; [done|].
    constructor; [|done]. split; [by eexists|by split].
  - exists l. split; [done|]. split; [|done]. destruct (grown_items _ _ Hsl) as [rest Er]. exists sl, rest. split; [done|].
    split; [by rewrite (grown_used _ _ Hsl)|]. eapply Forall2_impl; [exact Hv|]. intros sp w [Hg Hs].
    split; [by apply grown_items|]. by rewrite (grown_used _ _ Hg).
Qed.

Lemma ensure_rows_ok ls L : Forall2 line_rep ls L -> forall d,
  exists ls', ik_serialize_ensure_empty_rows (d ++ ls) (length ls) (length d) = Ret (d ++ ls') /\ Forall2 line_is ls' (filled <$> L) /\
    fb_row <$> ls' = fb_row <$> ls.
Proof.
  induction 1 as [|l vs ls L Hl _ IH]; intros d; [by exists []; rewrite app_nil_r; cbn|].
  cbn [length ik_serialize_ensure_empty_rows]. rewrite arr_get_app. cbn [obind].
  destruct (ensure_span_ok l vs Hl) as (l' & -> & Hl' & En). cbn [obind]. rewrite (arr_set_middle l' l d ls). cbn [obind].
  destruct (IH (d ++ [l'])) as (ls' & E & Hls' & En'). rewrite <- !app_assoc in E. cbn [app] in E. rewrite length_app in E. cbn [length] in E. rewrite Nat.add_1_r in E.
  exists (l' :: ls'). rewrite E. split; [done|]. split; [by constructor|]. cbn [fmap list_fmap]. by rewrite En, <- En'.
Qed.

Lemma blank_rows rows : Forall2 line_rep (blank_lines rows) (replicate rows []).
Proof.
  unfold blank_lines. assert (forall rows i, Forall2 line_rep ((fun i => mk_fb_line (Z.of_nat i) (mk_growing (replicate 4 inhabitant) 0 4)) <$> seq i rows) (replicate rows [])) as Hall; [|apply Hall].
  clear rows. induction rows as [|rows IH]; intros i; [constructor|]. cbn [seq fmap list_fmap replicate].
  constructor; [|apply IH]. split; [|done]. exists []. split; [|constructor]. constructor; [by eexists|done..].
Qed.

(** The whole loop, and the flush after it. *)
Lemma frame_is_parsed ts rows : forallb token_ok ts = true -> breaks ts < rows -> (Z.of_nat (length (frame_of ts)) < 2 ^ 28)%Z ->
  exists st L, ik_serialize_parse_framebuffer (mk_parse (blank_lines rows) 0 no_style (mk_span fresh_text no_style)) (frame_of ts) rows = Ret st /\
    Forall2 line_rep (fb_lines st) L /\ fb_row <$> fb_lines st = Z.of_nat <$> seq 0 rows /\ Forall texts_ok L /\
    row_cells <$> L = (fst (cells_of ts no_style) :: snd (cells_of ts no_style)) ++ replicate (rows - S (breaks ts)) [].
Proof.
  intros Hok Hb Hl. destruct rows as [|m]; [lia|]. pose proof (frame_longer ts) as Hlong. destruct fresh_ok as [Hf1 Hf2].
  assert (shows (mk_parse (blank_lines (S m)) 0 no_style (mk_span fresh_text no_style)) [] [] m [] no_style) as Hs.
  { constructor; cbn [fb_lines current_row current_style current_span span_text span_style]; try done; [apply (blank_rows (S m))|].
    unfold blank_lines. by rewrite <- list_fmap_compose. }
  destruct (parse_frame_ok ts (S (length (frame_of ts))) _ [] [] m [] no_style Hok Hs) as (st & L1 & vs & m' & t & s & E & Hs' & Hbd & Hne & Hm & Ec); try done; try (cbn [length]; lia).
  { repeat constructor. }
  unfold ik_serialize_parse_framebuffer. rewrite E. cbn [obind].
  assert (exists st', (if (0 <? used (span_text (current_span st)))%nat && (current_row st <? S m)%nat then ik_serialize_flush_span st else Ret st) = Ret st' /\
            shows st' L1 (flushed vs t s) m' [] s) as (st' & -> & Hs2).
  { rewrite (shows_row _ _ _ _ _ _ Hs'), (proj2 (Nat.ltb_lt (length L1) (S m))), andb_true_r by (cbn [length] in Hm; lia).
    rewrite (grown_used _ _ (shows_text _ _ _ _ _ _ Hs')). destruct (flush_ok _ _ _ _ _ _ Hs' ltac:(lia)) as (st' & E' & Hs2).
    destruct t as [|c t]; cbn [length Nat.ltb Nat.leb]; [by exists st|by exists st']. }
  exists st', (L1 ++ flushed vs t s :: replicate m' []). split; [done|]. split; [by apply shows_lines in Hs2|].
  pose proof (shows_numbers _ _ _ _ _ _ Hs2) as Hnum. cbn [length] in Hm. replace (length L1 + S m') with (S m) in Hnum by lia. split; [done|]. split.
  - rewrite cons_middle, app_assoc. apply Forall_app. split; [done|]. apply Forall_replicate. constructor.
  - rewrite cons_middle, app_assoc, fmap_app, Ec. cbn [fmap list_fmap app row_cells flushed mbind list_bind]. f_equal. f_equal.
    rewrite fmap_replicate. cbn [row_cells mbind list_bind]. f_equal.
    apply (f_equal length) in Ec. rewrite length_fmap, length_app in Ec. cbn [length fmap list_fmap app] in Ec. rewrite cells_count in Ec. lia.
Qed.

Lemma filled_cells vs : row_cells (filled vs) = row_cells vs.
Proof. by destruct vs. Qed.

Lemma filled_ok vs : texts_ok vs -> (Z.of_nat (length (row_cells vs)) < 2 ^ 30)%Z -> row_ok (filled vs).
Proof.
  intros Ht Hl. destruct vs as [|v0 vs0] eqn:Ev; [repeat constructor|]. rewrite <- Ev in *. cbn [filled].
  replace (filled vs) with vs by (by rewrite Ev). clear Ev. induction Ht as [|v vs [_ Hc] _ IH]; [constructor|].
  unfold row_cells in Hl. cbn [mbind list_bind] in Hl. rewrite length_app in Hl. fold (row_cells vs) in Hl. unfold span_cells in Hl. rewrite length_fmap in Hl.
  constructor; [split; [lia|done]|]. apply IH. lia.
Qed.

Lemma framebuffer_lines (ts : list token) (rows : nat) (cols row col : Z) (vis : bool) :
  forallb token_ok ts = true -> breaks ts < rows -> (Z.of_nat (length (frame_of ts)) < 2 ^ 28)%Z ->
  let shown := cells_of ts no_style in
  exists lines : list (list span_view),
    ik_serialize_framebuffer (Some (frame_of ts)) rows cols row col vis = Ret (compact (frame_value cols row col vis lines)) /\
    row_cells <$> lines = (fst shown :: snd shown) ++ replicate (rows - S (breaks ts)) [] /\
    Forall (fun vs => vs = [([], no_style)] \/ Forall (fun v => fst v <> []) vs) lines.
Proof.
  intros Hok Hb Hl shown. destruct (frame_is_parsed ts rows Hok Hb Hl) as (st & L & Ep & Hst & Hn & Ht & Ec).
  unfold ik_serialize_framebuffer. rewrite Ep. cbn [obind]. pose proof (ensure_rows_ok (fb_lines st) L Hst []) as (ls & E & Hls & En).
  assert (length (fb_lines st) = rows) as El by (apply (f_equal length) in Hn; by rewrite !length_fmap, length_seq in Hn).
  cbn [app length] in E. rewrite El in E. rewrite E. cbn [obind]. exists (filled <$> L). split; [|split].
  - assert (length (filled <$> L) = rows) as Er by (rewrite length_fmap, <- (Forall2_length _ _ _ Hst); done). rewrite <- Er at 1.
    apply frame_json; [done| |by rewrite En, Hn, (Forall2_length _ _ _ Hls), Er].
    apply Forall_fmap, Forall_forall. intros vs Hvs. rewrite Forall_forall in Ht. pose proof (Ht vs Hvs) as Htv. apply filled_ok; [done|].
    assert (row_cells vs ∈ (fst shown :: snd shown) ++ replicate (rows - S (breaks ts)) []) as Hin by (unfold shown; rewrite <- Ec; by apply list_elem_of_fmap_2).
    pose proof (cells_short ts no_style) as Hshort. rewrite Forall_forall in Hshort. pose proof (frame_longer ts) as Hlong.
    apply elem_of_app in Hin as [Hin|[-> _]%elem_of_replicate]; [apply Hshort in Hin; lia|cbn; lia].
  - unfold shown. rewrite <- Ec, <- list_fmap_compose. apply list_fmap_ext. intros i vs _. apply filled_cells.
  - apply Forall_fmap. eapply Forall_impl; [exact Ht|]. intros vs Hv. destruct vs as [|v vs]; [by left|]. right. cbn [compose filled].
    eapply Forall_impl; [exact Hv|]. by intros w [? _].
Qed.

End whole_frame.

Module FramebufferProps.

(** C33: what a client reads is what the frame shows.  For a frame of text, style
    and control sequences and line ends, with fewer line ends than the screen has
    rows, the serializer stays inside its arrays and prints the JSON value with
    one line for every row, whose spans hold, character by character, the text of
    the row in the styles in force, no span being empty except that of an empty
    row. *)
Theorem framebuffer_shows_cells `{!SlotAllocator} `{!SlotAllocatorSpec} (ts : list token) (rows : nat) (cols row col : Z) (vis : bool) :
  forallb token_ok ts = true -> breaks ts < rows -> (Z.of_nat (length (frame_of ts)) < 2 ^ 28)%Z ->
  let shown := cells_of ts no_style in
  exists lines : list (list span_view),
    ik_serialize_framebuffer (Some (frame_of ts)) rows cols row col vis = Ret (compact (frame_value cols row col vis lines)) /\
    row_cells <$> lines = (fst shown :: snd shown) ++ replicate (rows - S (breaks ts)) [] /\
    Forall (fun vs => vs = [([], no_style)] \/ Forall (fun v => fst v <> []) vs) lines.
Proof. by apply framebuffer_lines. Qed.

End FramebufferProps.

Module FramebufferExamples.
Import CopySlots FramebufferProps.

(** Two rows of three, the second with a word in bold red. *)
Definition small_frame : list token :=
  Control (lit "?25") 108 :: Control [] 72 :: (Plain <$> lit "ab") ++ Control [] 75 :: Break :: Bold :: Foreground (lit "9") :: (Plain <$> lit "c") ++
  Reset :: (Plain <$> lit "d") ++ [Control [] 74; Control (lit "2;1") 72].

Example small_frame_bytes : frame_of small_frame =
  (27 :: lit "[?25l" ++ 27 :: lit "[Hab" ++ 27 :: lit "[K" ++ 13 :: 10 :: 27 :: lit "[1m" ++ 27 :: lit "[38;5;9mc" ++ 27 :: lit "[0md" ++ 27 :: lit "[J" ++ 27 :: lit "[2;1H")%Z.
Proof. vm_compute. reflexivity. Qed.

(** A row more than the screen has. *)
Example too_many_rows : ik_serialize_framebuffer (Some (frame_of [Break; Break])) 1 80 1 1 true = Undef.
Proof. vm_compute. reflexivity. Qed.

Lemma framebuffer_shows_cells_witness : exists lines,
  ik_serialize_framebuffer (Some (frame_of small_frame)) 3 80 2 1 true = Ret (compact (frame_value 80 2 1 true lines)) /\
  row_cells <$> lines = [(fun c => (c, no_style)) <$> lit "ab"; [(99%Z, set_fg 9 (set_bold no_style)); (100%Z, no_style)]; []].
Proof.
  destruct (framebuffer_shows_cells small_frame 3 80 2 1 true) as (lines & E & Ec & _).
  - vm_compute. reflexivity.
  - apply Nat.ltb_lt. vm_compute. reflexivity.
  - apply Z.ltb_lt. vm_compute. reflexivity.
  - exists lines. split; [exact E|]. rewrite Ec. vm_compute. reflexivity.
Defined.

End FramebufferExamples.
