(* ===== verification/ControlSocket.v ===== *)
(** * The control socket (control_socket.c, repl.c)

    One client at a time sends one line of JSON and is answered on the same
    connection: the frame, the token cache, keys to inject, or to be told when
    the agent is idle.  The socket calls and the clock are inputs. *)

From Stdlib Require Import String.
From stdpp Require Import strings.
From S2P Require Import Prelude Slots CString ByteArray Database Json TokenCache KeyInject Framebuffer.

Record ik_control_socket := mk_socket {
  listen_fd : Z;
  client_fd : Z;
  wait_idle_pending : bool;
  wait_idle_deadline_ms : Z
}.

(** What a step does to the outside: a connection accepted, a text sent, with
    the success of the call, and a descriptor closed. *)
Inductive effect := Accepted (fd : Z) | Send (fd : Z) (msg : cstr) (ok : bool) | Closed (fd : Z).

(** What the handlers read of the program. *)
Record program := mk_program {
  frame : option (list Z);
  rows : nat;
  cols : Z;
  cursor : Z * Z;
  input_visible : bool;
  cache : option ik_token_cache;
  agent_idle : bool
}.

Definition drop_client (s : ik_control_socket) : ik_control_socket := mk_socket (listen_fd s) (-1) (wait_idle_pending s) (wait_idle_deadline_ms s).
Definition no_wait (s : ik_control_socket) : ik_control_socket := mk_socket (listen_fd s) (client_fd s) false 0.

(** "if (socket->client_fd >= 0) { close(socket->client_fd); socket->client_fd = -1; }" *)
Definition close_client (s : ik_control_socket) : ik_control_socket * list effect :=
  if (0 <=? client_fd s)%Z then (drop_client s, [Closed (client_fd s)]) else (s, []).

Definition ik_control_socket_accept (accepted : option Z) (s : ik_control_socket) : outcome unit * ik_control_socket * list effect :=
  let '(s, e) := close_client s in
  match accepted with
  | None => (Fail ERR_IO, s, e)
  | Some fd => (Ret tt, mk_socket (listen_fd s) fd (wait_idle_pending s) (wait_idle_deadline_ms s), e ++ [Accepted fd])
  end.

(** The descriptors that are waited for. *)
Definition ik_control_socket_add_to_fd_sets (s : ik_control_socket) : list Z :=
  (if wait_idle_pending s then [] else [listen_fd s]) ++ (if (0 <=? client_fd s)%Z then [client_fd s] else []).

Definition ik_control_socket_listen_ready (s : ik_control_socket) (read_fds : list Z) : bool := bool_decide (listen_fd s ∈ read_fds).
Definition ik_control_socket_client_ready (s : ik_control_socket) (read_fds : list Z) : bool :=
  (0 <=? client_fd s)%Z && bool_decide (client_fd s ∈ read_fds).

(** posix_send_ takes all of the message or not. *)
Definition client_send (send_ok : cstr -> bool) (msg : cstr) (s : ik_control_socket) : ik_control_socket * list effect :=
  if (client_fd s <? 0)%Z then (s, [])
  else if send_ok msg then (s, [Send (client_fd s) msg true])
  else (no_wait (drop_client s), [Send (client_fd s) msg false; Closed (client_fd s)]).

Definition nl : cstr := [10%Z].
Definition object_1 (k v : string) : cstr := lit "{" ++ quoted_text (lit k) ++ lit ":" ++ quoted_text (lit v) ++ lit "}" ++ nl.
Definition error_line (msg : string) : cstr := object_1 "error" msg.
Definition type_line (t : string) : cstr := object_1 "type" t.

(** The turns from the [i]-th on. *)
Fixpoint turns_json (cache : ik_token_cache) (json : cstr) (n i : nat) : outcome cstr :=
  match n with
  | 0 => Ret json
  | S n =>
      let! tok := ik_token_cache_peek_turn_tokens cache i in
      let json := if (0 <? i)%nat then json ++ lit "," else json in
      turns_json cache (json ++ lit "{" ++ number_field "index" (Z.of_nat (wrap64 (ik_token_cache_get_context_start_turn cache + i))) ++ lit "," ++
                          number_field "tokens" tok ++ lit "}") n (S i)
  end.

Definition cache_line (total budget turns first : Z) (turns_json : cstr) : cstr :=
  lit "{" ++ number_field "total_tokens" total ++ lit "," ++ number_field "budget" budget ++ lit "," ++ number_field "turn_count" turns ++ lit "," ++
  number_field "context_start_index" first ++ lit "," ++ quoted_text (lit "turns") ++ lit ":" ++ turns_json ++ lit "}" ++ nl.

Definition dispatch_read_token_cache (p : program) : outcome cstr :=
  match cache p with
  | None => Ret (cache_line 0 100000 0 0 (lit "[]"))
  | Some c =>
      let turns := ik_token_cache_get_turn_count c in
      let! json := turns_json c (lit "[") turns 0 in
      Ret (cache_line (ik_token_cache_peek_total c) (ik_token_cache_get_budget c) (Z.of_nat turns)
             (Z.of_nat (ik_token_cache_get_context_start_turn c)) (json ++ lit "]"))
  end.

Section socket.
Context `{!Allocator} `{!SlotAllocator} `{!Yyjson} (send_ok : cstr -> bool).

Definition dispatch_read_framebuffer (p : program) : outcome cstr :=
  match frame p with
  | None => Ret (error_line "No framebuffer available")
  | Some fb =>
      match ik_serialize_framebuffer (Some fb) (rows p) (cols p) (fst (cursor p)) (snd (cursor p)) (input_visible p) with
      | Fail _ => Ret (error_line "Serialization failed")
      | r => r
      end
  end.

(** The response and the bytes to inject. *)
Definition dispatch_send_keys (root : json) : outcome (cstr * option (list Z)) :=
  match yyjson_get_str (yyjson_obj_get (Some root) (lit "keys")) with
  | None => Ret (error_line "Missing keys field", None)
  | Some keys =>
      match ik_key_inject_unescape keys with
      | Ret raw_bytes => Ret (type_line "ok", Some raw_bytes)
      | Fail _ => Ret (error_line "Failed to unescape keys", None)
      | Panic => Panic
      | Undef => Undef
      | NoFuel => NoFuel
      end
  end.

(** A response, or none when the answer is deferred. *)
Definition dispatch_wait_idle (root : json) (p : program) (now_ms : Z) (s : ik_control_socket) : ik_control_socket * option cstr :=
  if wait_idle_pending s then (s, Some (error_line "wait_idle already pending"))
  else
    let timeout_ms := yyjson_get_int (yyjson_obj_get (Some root) (lit "timeout_ms")) in
    if (timeout_ms <=? 0)%Z then (s, Some (error_line "Missing or invalid timeout_ms"))
    else if agent_idle p then (s, Some (type_line "idle"))
    else (mk_socket (listen_fd s) (client_fd s) true (now_ms + timeout_ms), None).

(** A response ends with a line break. *)
Definition end_line (response : cstr) : cstr := match last response with Some 10%Z => response | _ => response ++ nl end.

(** What follows the dispatch. *)
Definition respond (response : cstr) (pending_keys : option (list Z)) (keys : ik_key_inject_buf) (s : ik_control_socket)
  : outcome (ik_key_inject_buf * ik_control_socket * list effect) :=
  let '(s, e) := client_send send_ok (end_line response) s in
  let! keys := match pending_keys with
               | Some raw_bytes => if (0 <=? client_fd s)%Z then ik_key_inject_append keys raw_bytes else Ret keys
               | None => Ret keys
               end in
  let '(s, e') := close_client s in
  Ret (keys, s, e ++ e').

(** The text of the buffer up to the first line break. *)
Definition request_line (buffer : list Z) : cstr :=
  let text := until_nul buffer in match strchr text 10 with Some i => take i text | None => text end.

(** The error of a call, the keys, the socket and the effects; [read] is what
    posix_read_ gives, [None] for an error. *)
Definition ik_control_socket_handle_client (p : program) (read : option (list Z)) (now_ms : Z) (keys : ik_key_inject_buf) (s : ik_control_socket)
  : outcome (option err_code * ik_key_inject_buf * ik_control_socket * list effect) :=
  if (client_fd s <? 0)%Z then Ret (Some ERR_IO, keys, s, [])
  else
    match read with
    | None => Ret (Some ERR_IO, keys, no_wait (drop_client s), [Closed (client_fd s)])
    | Some [] => Ret (None, keys, no_wait (drop_client s), [Closed (client_fd s)])
    | Some bytes =>
        match yyjson_read (request_line (take 4095 bytes)) with
        | None =>
            let '(s, e) := client_send send_ok (error_line "Invalid JSON") s in
            let '(s, e') := close_client s in
            Ret (None, keys, s, e ++ e')
        | Some root =>
            let type := yyjson_get_str (yyjson_obj_get (Some root) (lit "type")) in
            let is_type (t : string) := match type with Some ty => strcmp_eq ty (lit t) | None => false end in
            let answer (m : outcome (cstr * option (list Z))) :=
              let! (response, pending_keys) := m in
              let! (keys, s, e) := respond response pending_keys keys s in
              Ret (None, keys, s, e) in
            if is_type "read_framebuffer"%string then answer (let! r := dispatch_read_framebuffer p in Ret (r, None))
            else if is_type "read_token_cache"%string then answer (let! r := dispatch_read_token_cache p in Ret (r, None))
            else if is_type "send_keys"%string then answer (dispatch_send_keys root)
            else if is_type "wait_idle"%string then
              match dispatch_wait_idle root p now_ms s with
              | (s, Some response) => let! (keys, s, e) := respond response None keys s in Ret (None, keys, s, e)
              | (s, None) => Ret (None, keys, s, [])
              end
            else answer (Ret (error_line "Unknown message type", None))
        end
    end.

Definition ik_control_socket_tick (p : program) (now_ms : Z) (s : ik_control_socket) : ik_control_socket * list effect :=
  if negb (wait_idle_pending s) then (s, [])
  else
    let msg := if agent_idle p then Some (type_line "idle")
               else if (wait_idle_deadline_ms s <=? now_ms)%Z then Some (type_line "timeout") else None in
    match msg with
    | None => (s, [])
    | Some msg =>
        let '(s, e) := client_send send_ok msg s in
        let '(s, e') := close_client s in
        (no_wait s, e ++ e')
    end.

(** repl.c: one round of the main loop; [accepted] is what accept gives.  The
    errors are dropped. *)
Definition ik_repl_handle_control_socket_events (p : program) (read_fds : list Z) (accepted : option Z) (read : option (list Z)) (now_ms : Z)
    (keys : ik_key_inject_buf) (s : ik_control_socket) : outcome (ik_key_inject_buf * ik_control_socket * list effect) :=
  let '(s, e1) := ik_control_socket_tick p now_ms s in
  let '(s, e2) := if ik_control_socket_listen_ready s read_fds then let '(_, s, e) := ik_control_socket_accept accepted s in (s, e) else (s, []) in
  if ik_control_socket_client_ready s read_fds then
    let! (_, keys, s, e3) := ik_control_socket_handle_client p read now_ms keys s in
    Ret (keys, s, e1 ++ e2 ++ e3)
  else Ret (keys, s, e1 ++ e2).

End socket.

(** ** Connections

    A connection is accepted, answered at most once, and closed. *)

Inductive connection := NoClient | Open (fd : Z) | Answered (fd : Z).

Inductive moves : connection -> effect -> connection -> Prop :=
| moves_accept fd : (0 <= fd)%Z -> moves NoClient (Accepted fd) (Open fd)
| moves_answer fd msg ok : moves (Open fd) (Send fd msg ok) (Answered fd)
| moves_hang_up fd : moves (Open fd) (Closed fd) NoClient
| moves_done fd : moves (Answered fd) (Closed fd) NoClient.

Inductive trace : connection -> list effect -> connection -> Prop :=
| trace_nil c : trace c [] c
| trace_cons c e c' es c'' : moves c e c' -> trace c' es c'' -> trace c (e :: es) c''.

Definition connected (s : ik_control_socket) : connection := if (0 <=? client_fd s)%Z then Open (client_fd s) else NoClient.

Lemma trace_app c es c' es' c'' : trace c es c' -> trace c' es' c'' -> trace c (es ++ es') c''.
Proof. induction 1; [done|]. intros ?. econstructor; [done|]. auto. Qed.

Lemma connected_none s : client_fd s = (-1)%Z -> connected s = NoClient.
Proof. intros E. unfold connected. by rewrite E. Qed.

Lemma connected_open s : (0 <= client_fd s)%Z -> connected s = Open (client_fd s).
Proof. intros E. unfold connected. by rewrite (proj2 (Z.leb_le _ _)). Qed.

Lemma close_trace s s' e : close_client s = (s', e) -> trace (connected s) e (connected s') /\ connected s' = NoClient /\ wait_idle_pending s' = wait_idle_pending s.
Proof.
  unfold close_client. destruct (Z.leb_spec 0 (client_fd s)) as [Hc|Hc]; intros [= <- <-].
  - rewrite connected_open by done. split; [|done]. repeat econstructor.
  - assert (connected s = NoClient) as E by (unfold connected; by rewrite (proj2 (Z.leb_gt _ _))). rewrite E. split; [constructor|done].
Qed.

Section traces.
Context `{!Allocator} `{!SlotAllocator} `{!Yyjson} (send_ok : cstr -> bool).

(** Sending, then closing. *)
Lemma send_close_trace msg s s1 s2 e e' : client_send send_ok msg s = (s1, e) -> close_client s1 = (s2, e') ->
  trace (connected s) (e ++ e') (connected s2) /\ connected s2 = NoClient.
Proof.
  unfold client_send. destruct (Z.ltb_spec (client_fd s) 0) as [Hc|Hc].
  - intros [= <- <-] E. by destruct (close_trace s s2 e' E) as (? & ? & _).
  - rewrite (connected_open s) by lia. destruct (send_ok msg); intros [= <- <-]; unfold close_client.
    + rewrite (proj2 (Z.leb_le _ _)) by lia. intros [= <- <-]. split; [repeat econstructor|done].
    + cbn. intros [= <- <-]. split; [repeat econstructor|done].
Qed.

Lemma respond_trace response raw keys s keys' s' e : respond send_ok response raw keys s = Ret (keys', s', e) ->
  trace (connected s) e (connected s').
Proof.
  unfold respond. destruct (client_send send_ok (end_line response) s) as [s1 e1] eqn:E1. intros E.
  apply obind_Ret_inv in E as (k & _ & E). destruct (close_client s1) as [s2 e2] eqn:E2. injection E as _ <- <-.
  by eapply send_close_trace.
Qed.

Lemma wait_trace root p now s s' r : dispatch_wait_idle root p now s = (s', r) -> connected s' = connected s.
Proof. unfold dispatch_wait_idle. repeat case_match; intros [= <- _]; done. Qed.

Lemma handle_trace p read now keys s er keys' s' e : ik_control_socket_handle_client send_ok p read now keys s = Ret (er, keys', s', e) ->
  trace (connected s) e (connected s').
Proof.
  unfold ik_control_socket_handle_client. destruct (Z.ltb_spec (client_fd s) 0) as [Hc|Hc]; [intros [= _ _ <- <-]; constructor|].
  assert (forall s0, connected (no_wait (drop_client s0)) = NoClient) as Hdrop by done.
  destruct read as [[|b bytes]|]; [rewrite connected_open by lia; intros [= _ _ <- <-]; rewrite Hdrop; repeat econstructor| |
                                   rewrite connected_open by lia; intros [= _ _ <- <-]; rewrite Hdrop; repeat econstructor].
  destruct (yyjson_read _) as [root|].
  - assert (forall m, (let! (response, pending_keys) := m in let! (keys, s, e) := respond send_ok response pending_keys keys s in Ret (@None err_code, keys, s, e)) = Ret (er, keys', s', e) ->
              trace (connected s) e (connected s')) as Hanswer.
    { intros m E. apply obind_Ret_inv in E as ((r & pk) & _ & E). apply obind_Ret_inv in E as (((k & s1) & e1) & E1 & E). injection E as _ _ <- <-.
      by eapply respond_trace. }
    cbv zeta. repeat match goal with |- context [if ?b then _ else _] => destruct b end; try apply Hanswer.
    destruct (dispatch_wait_idle root p now s) as [s1 [response|]] eqn:Ew; apply wait_trace in Ew; rewrite <- Ew.
    + intros E. apply obind_Ret_inv in E as (((k & s2) & e2) & E2 & E). injection E as _ _ <- <-. by eapply respond_trace.
    + intros [= _ _ <- <-]. constructor.
  - destruct (client_send send_ok (error_line "Invalid JSON") s) as [s1 e1] eqn:E1. destruct (close_client s1) as [s2 e2] eqn:E2.
    intros [= _ _ <- <-]. by eapply send_close_trace.
Qed.

Lemma tick_trace p now s s' e : ik_control_socket_tick send_ok p now s = (s', e) -> trace (connected s) e (connected s').
Proof.
  unfold ik_control_socket_tick. destruct (wait_idle_pending s); cbn [negb]; [|intros [= <- <-]; constructor].
  match goal with |- context [match ?m with None => _ | Some _ => _ end] => destruct m as [msg|] end; [|intros [= <- <-]; constructor].
  destruct (client_send send_ok msg s) as [s1 e1] eqn:E1. destruct (close_client s1) as [s2 e2] eqn:E2. intros [= <- <-].
  change (connected (no_wait s2)) with (connected s2). by eapply send_close_trace.
Qed.

Lemma accept_trace accepted s r s' e : (forall fd, accepted = Some fd -> (0 <= fd)%Z) ->
  ik_control_socket_accept accepted s = (r, s', e) -> trace (connected s) e (connected s').
Proof.
  intros Hfd. unfold ik_control_socket_accept. destruct (close_client s) as [s1 e1] eqn:E1. apply close_trace in E1 as (Ht & En & _).
  destruct accepted as [fd|]; intros [= _ <- <-]; [|done]. eapply trace_app; [exact Ht|]. rewrite En.
  specialize (Hfd fd eq_refl). unfold connected. cbn [client_fd]. rewrite (proj2 (Z.leb_le _ _)) by done. repeat econstructor. done.
Qed.

(** What one round of the main loop is given. *)
Record round := mk_round {
  round_program : program;
  round_fds : list Z;
  round_accepted : option Z;
  round_read : option (list Z);
  round_now : Z
}.

Fixpoint run_rounds (rs : list round) (keys : ik_key_inject_buf) (s : ik_control_socket) : outcome (ik_key_inject_buf * ik_control_socket * list effect) :=
  match rs with
  | [] => Ret (keys, s, [])
  | r :: rs =>
      let! (keys, s, e) := ik_repl_handle_control_socket_events send_ok (round_program r) (round_fds r) (round_accepted r) (round_read r) (round_now r) keys s in
      let! (keys, s, e') := run_rounds rs keys s in
      Ret (keys, s, e ++ e')
  end.

Lemma round_trace p fds accepted read now keys s keys' s' e : (forall fd, accepted = Some fd -> (0 <= fd)%Z) ->
  ik_repl_handle_control_socket_events send_ok p fds accepted read now keys s = Ret (keys', s', e) -> trace (connected s) e (connected s').
Proof.
  intros Hfd. unfold ik_repl_handle_control_socket_events. destruct (ik_control_socket_tick send_ok p now s) as [s1 e1] eqn:E1. apply tick_trace in E1.
  assert (exists s2 e2, (if ik_control_socket_listen_ready s1 fds then let '(_, s, e) := ik_control_socket_accept accepted s1 in (s, e) else (s1, [])) = (s2, e2) /\
            trace (connected s1) e2 (connected s2)) as (s2 & e2 & -> & E2).
  { destruct (ik_control_socket_listen_ready s1 fds).
    - destruct (ik_control_socket_accept accepted s1) as [[r s2] e2] eqn:E. exists s2, e2. split; [done|]. by eapply accept_trace.
    - exists s1, []. split; [done|constructor]. }
  destruct (ik_control_socket_client_ready s2 fds).
  - intros E. apply obind_Ret_inv in E as ((((er & k) & s3) & e3) & E3 & E). injection E as _ <- <-. apply handle_trace in E3.
    eapply trace_app; [exact E1|]. by eapply trace_app.
  - intros [= _ <- <-]. by eapply trace_app.
Qed.

End traces.

(** ** Answers *)

Fixpoint turn_values (first i : nat) (ts : list Z) : list json :=
  match ts with
  | [] => []
  | t :: ts => JObj [(lit "index", JInt (Z.of_nat (first + i))); (lit "tokens", JInt (if (t =? TOKEN_UNCACHED)%Z then 0%Z else t))] :: turn_values first (S i) ts
  end.

Definition cache_value (c : ik_token_cache) (ts : list Z) : json :=
  JObj [(lit "total_tokens", JInt (ik_token_cache_peek_total c)); (lit "budget", JInt (budget c)); (lit "turn_count", JInt (Z.of_nat (length ts)));
    (lit "context_start_index", JInt (Z.of_nat (pruned_turn_count c))); (lit "turns", JArr (turn_values (pruned_turn_count c) 0 ts))].

Lemma turns_json_ok c ts : cache_rep c ts -> (Z.of_nat (pruned_turn_count c + length ts) < 2 ^ 64)%Z -> forall todo d json, ts = d ++ todo ->
  turns_json c json (length todo) (length d) =
    Ret (json ++ (if (length d =? 0)%nat then commas (compact <$> turn_values (pruned_turn_count c) (length d) todo)
                  else tail_commas (compact <$> turn_values (pruned_turn_count c) (length d) todo))).
Proof.
  intros Hr Hb. induction todo as [|t todo IH]; intros d json Ets.
  { cbn [length turns_json turn_values fmap list_fmap commas]. unfold tail_commas. cbn [fmap list_fmap mjoin list_join].
    by destruct (length d =? 0)%nat; rewrite app_nil_r. }
  cbn [length turns_json]. unfold ik_token_cache_peek_turn_tokens. rewrite (rep_count _ _ Hr). pose proof Hb as Hlen. rewrite Ets, length_app in Hlen. cbn [length] in Hlen.
  rewrite (proj2 (Nat.leb_gt _ _)) by (rewrite Ets, length_app; cbn [length]; lia). destruct (rep_turns _ _ Hr) as [r ->]. rewrite Ets, <- app_assoc. cbn [app].
  rewrite arr_get_app. cbn [obind]. unfold ik_token_cache_get_context_start_turn. rewrite wrap64_small by lia.
  specialize (IH (d ++ [t])). rewrite length_app in IH. cbn [length] in IH. rewrite Nat.add_1_r in IH. rewrite IH by (by rewrite <- app_assoc).
  cbn [Nat.eqb turn_values fmap list_fmap]. rewrite <- commas_from. f_equal. rewrite <- !app_assoc. f_equal.
  destruct (0 <? length d)%nat; cbn [compact fmap list_fmap commas mjoin list_join fst snd]; unfold number_field; rewrite <- ?app_assoc; cbn [app]; done.
Qed.

Section answers.
Context `{!Allocator} `{!AllocatorSpec} `{!SlotAllocator} `{!SlotAllocatorSpec} `{!Yyjson}.

(** What a client can ask for. *)
Inductive request :=
| ReadFrame (ts : list token)
| ReadCache (c : ik_token_cache) (costs : list Z)
| SendKeys (bytes : list Z)
| WaitIdle (timeout_ms : Z).

Definition request_type (r : request) : string :=
  match r with ReadFrame _ => "read_framebuffer" | ReadCache _ _ => "read_token_cache" | SendKeys _ => "send_keys" | WaitIdle _ => "wait_idle" end.

(** The fields of the request, and the state it is about. *)
Definition asks (p : program) (fs : list (list Z * json)) (r : request) : Prop :=
  find_field fs (lit "type") = Some (JStr (lit (request_type r))) /\
  match r with
  | ReadFrame ts => frame p = Some (frame_of ts) /\ forallb token_ok ts = true /\ breaks ts < rows p /\ (Z.of_nat (length (frame_of ts)) < 2 ^ 28)%Z
  | ReadCache c costs => cache p = Some c /\ cache_rep c costs /\ (Z.of_nat (pruned_turn_count c + length costs) < 2 ^ 64)%Z
  | SendKeys bytes => find_field fs (lit "keys") = Some (JStr (key_escape bytes)) /\ Forall (fun b => (0 <= b < 256)%Z) bytes
  | WaitIdle ms => find_field fs (lit "timeout_ms") = Some (JInt ms) /\ (0 < ms < 2 ^ 31)%Z
  end.

Definition right_answer (p : program) (r : request) (response : cstr) : Prop :=
  match r with
  | ReadFrame ts => exists lines, response = compact (frame_value (cols p) (fst (cursor p)) (snd (cursor p)) (input_visible p) lines) ++ nl /\
      row_cells <$> lines = (fst (cells_of ts no_style) :: snd (cells_of ts no_style)) ++ replicate (rows p - S (breaks ts)) []
  | ReadCache c costs => response = compact (cache_value c costs) ++ nl
  | SendKeys _ => response = type_line "ok"
  | WaitIdle _ => response = type_line "idle"
  end.

Definition sent_keys (r : request) : list Z := match r with SendKeys bytes => bytes | _ => [] end.

Lemma escaped_keys_no_nul bytes : Forall (fun b => (0 <= b < 256)%Z) bytes -> (0%Z ∉ key_escape bytes).
Proof.
  induction 1 as [|b bytes Hb _ IH]; [apply not_elem_of_nil|]. unfold key_escape in *. cbn [mbind list_bind]. rewrite not_elem_of_app. split; [|exact IH].
  assert (forallb (fun c => negb (c =? 0)%Z) (escape_byte b) = true) as Hall.
  { revert b Hb. apply (byte_forallb (fun b => forallb (fun c => negb (c =? 0)%Z) (escape_byte b))). vm_compute. reflexivity. }
  intros Hin. rewrite forallb_forall in Hall. apply list_elem_of_In, Hall in Hin. done.
Qed.

Lemma end_line_nl s : end_line (s ++ nl) = s ++ nl.
Proof. unfold end_line, nl. by rewrite last_snoc. Qed.

Lemma end_line_compact s : last s = Some 125%Z -> end_line s = s ++ nl.
Proof. intros E. unfold end_line. by rewrite E. Qed.

Lemma compact_object fs : last (compact (JObj fs)) = Some 125%Z.
Proof. cbn [compact]. rewrite app_assoc. apply last_snoc. Qed.

(** An answer that is sent: the keys are queued and the connection closed. *)
Lemma respond_ok response raw keys gone q s : (0 <= client_fd s)%Z -> keys_rep keys gone q ->
  (Z.of_nat (length gone + length q + length (default [] raw)) < 2 ^ 30)%Z ->
  exists keys', respond (fun _ => true) response raw keys s = Ret (keys', drop_client s, [Send (client_fd s) (end_line response) true; Closed (client_fd s)]) /\
    keys_rep keys' gone (q ++ default [] raw).
Proof.
  intros Hc Hk Hb. unfold respond, client_send. rewrite (proj2 (Z.ltb_ge _ _)) by done.
  assert (exists keys', match raw with Some raw_bytes => if (0 <=? client_fd s)%Z then ik_key_inject_append keys raw_bytes else Ret keys | None => Ret keys end = Ret keys' /\
            keys_rep keys' gone (q ++ default [] raw)) as (keys' & -> & Hk').
  { destruct raw as [bytes|]; cbn [default] in *; [|exists keys; by rewrite app_nil_r].
    rewrite (proj2 (Z.leb_le _ _)) by done. by apply append_keys. }
  cbn [obind]. unfold close_client. rewrite (proj2 (Z.leb_le _ _)) by done. by exists keys'.
Qed.

(** What the dispatch of a request gives, but for a wait. *)
Lemma dispatch_ok p fs r : asks p fs r -> (Z.of_nat (length (sent_keys r)) < 2 ^ 30)%Z ->
  match r with
  | ReadFrame _ => exists resp, dispatch_read_framebuffer p = Ret resp /\ right_answer p r (end_line resp)
  | ReadCache _ _ => exists resp, dispatch_read_token_cache p = Ret resp /\ right_answer p r (end_line resp)
  | SendKeys bytes => dispatch_send_keys (JObj fs) = Ret (type_line "ok", Some bytes)
  | WaitIdle _ => True
  end.
Proof.
  intros [_ Hr] Hl. destruct r as [ts|c costs|bytes|ms]; [| | |done].
  - destruct Hr as (Ef & Hok & Hb & Hlen). unfold dispatch_read_framebuffer. rewrite Ef.
    destruct (framebuffer_lines ts (rows p) (cols p) (fst (cursor p)) (snd (cursor p)) (input_visible p) Hok Hb Hlen) as (lines & -> & Ec & _).
    eexists. split; [reflexivity|]. exists lines. split; [|done]. apply end_line_compact, compact_object.
  - destruct Hr as (Ec & Hrep & Hb). unfold dispatch_read_token_cache. rewrite Ec. unfold ik_token_cache_get_turn_count. rewrite (rep_count _ _ Hrep).
    rewrite (turns_json_ok c costs Hrep Hb costs [] _ eq_refl). cbn [obind length Nat.eqb]. eexists. split; [reflexivity|].
    unfold right_answer, cache_line. rewrite !app_assoc, end_line_nl, <- !app_assoc. unfold cache_value, ik_token_cache_get_budget, ik_token_cache_get_context_start_turn.
    cbn [compact fmap list_fmap commas mjoin list_join fst snd]. unfold number_field. rewrite <- ?app_assoc. cbn [app]. rewrite ?app_nil_r. done.
  - destruct Hr as [Ek Hbytes]. unfold dispatch_send_keys. cbn [yyjson_obj_get]. rewrite (get_str_lit _ (key_escape bytes) Ek) by (by apply escaped_keys_no_nul).
    by rewrite unescape_ok.
Qed.

(** The line a client sends. *)
Definition sends (bytes : list Z) (fs : list (list Z * json)) : Prop := bytes <> [] /\ yyjson_read (request_line (take 4095 bytes)) = Some (JObj fs).

Lemma type_is fs (t u : string) : find_field fs (lit "type") = Some (JStr (lit t)) -> (0%Z ∉ lit t) ->
  match yyjson_get_str (yyjson_obj_get (Some (JObj fs)) (lit "type")) with Some ty => strcmp_eq ty (lit u) | None => false end = strcmp_eq (lit t) (lit u).
Proof. intros E Hz. cbn [yyjson_obj_get]. by rewrite (get_str_lit _ _ E Hz). Qed.

(** A request that can be answered at once. *)
Definition immediate (p : program) (r : request) : Prop := match r with WaitIdle _ => agent_idle p = true | _ => True end.

Lemma request_ok p fs r bytes now keys gone q s : (0 <= client_fd s)%Z -> wait_idle_pending s = false -> sends bytes fs -> asks p fs r -> immediate p r ->
  keys_rep keys gone q -> (Z.of_nat (length gone + length q + length (sent_keys r)) < 2 ^ 30)%Z ->
  exists response keys', ik_control_socket_handle_client (fun _ => true) p (Some bytes) now keys s =
      Ret (None, keys', drop_client s, [Send (client_fd s) response true; Closed (client_fd s)]) /\
    right_answer p r response /\ keys_rep keys' gone (q ++ sent_keys r).
Proof.
  intros Hc Hw [Hne Er] Ha Hi Hk Hb. unfold ik_control_socket_handle_client. rewrite (proj2 (Z.ltb_ge _ _)) by done.
  destruct bytes as [|b bytes]; [done|]. rewrite Er. cbv zeta. pose proof Ha as [Et Hr].
  rewrite !(type_is fs (request_type r)) by (done || (destruct r; apply (bool_decide_unpack _); vm_compute; exact I)).
  pose proof (dispatch_ok p fs r Ha ltac:(lia)) as Hd.
  destruct r as [ts|c costs|keys_bytes|ms]; cbn [request_type sent_keys] in *;
    repeat match goal with |- context [strcmp_eq (lit ?a) (lit ?b)] => let v := eval vm_compute in (strcmp_eq (lit a) (lit b)) in change (strcmp_eq (lit a) (lit b)) with v end; cbn iota.
  - destruct Hd as (resp & -> & Hresp). cbn [obind]. destruct (respond_ok resp None keys gone q s Hc Hk Hb) as (k & -> & Hk'). cbn [obind]. by exists (end_line resp), k.
  - destruct Hd as (resp & -> & Hresp). cbn [obind]. destruct (respond_ok resp None keys gone q s Hc Hk Hb) as (k & -> & Hk'). cbn [obind]. by exists (end_line resp), k.
  - rewrite Hd. cbn [obind]. destruct (respond_ok (type_line "ok") (Some keys_bytes) keys gone q s Hc Hk Hb) as (k & -> & Hk'). cbn [obind]. by exists (type_line "ok"), k.
  - unfold dispatch_wait_idle. rewrite Hw. cbn [yyjson_obj_get]. destruct Hr as [-> Hms]. cbn [yyjson_get_int].
    rewrite int32_wrap_small by lia. rewrite (proj2 (Z.leb_gt _ _)) by lia. cbn in Hi. rewrite Hi.
    destruct (respond_ok (type_line "idle") None keys gone q s Hc Hk Hb) as (k & -> & Hk'). cbn [obind]. by exists (type_line "idle"), k.
Qed.

Lemma wait_ok p fs ms bytes now keys s : (0 <= client_fd s)%Z -> wait_idle_pending s = false -> sends bytes fs -> asks p fs (WaitIdle ms) -> agent_idle p = false ->
  ik_control_socket_handle_client (fun _ => true) p (Some bytes) now keys s = Ret (None, keys, mk_socket (listen_fd s) (client_fd s) true (now + ms), []).
Proof.
  intros Hc Hw [Hne Er] [Et [Ems Hms]] Hi. unfold ik_control_socket_handle_client. rewrite (proj2 (Z.ltb_ge _ _)) by done.
  destruct bytes as [|b bytes]; [done|]. rewrite Er. cbv zeta. cbn [request_type] in Et. rewrite !(type_is fs "wait_idle") by (done || (apply (bool_decide_unpack _); vm_compute; exact I)).
  repeat match goal with |- context [strcmp_eq (lit ?a) (lit ?b)] => let v := eval vm_compute in (strcmp_eq (lit a) (lit b)) in change (strcmp_eq (lit a) (lit b)) with v end; cbn iota.
  unfold dispatch_wait_idle. rewrite Hw. cbn [yyjson_obj_get]. rewrite Ems. cbn [yyjson_get_int]. rewrite int32_wrap_small by lia.
  by rewrite (proj2 (Z.leb_gt _ _)), Hi by lia.
Qed.

Lemma tick_answers p now s : (0 <= client_fd s)%Z -> wait_idle_pending s = true -> agent_idle p = true \/ (wait_idle_deadline_ms s <= now)%Z ->
  ik_control_socket_tick (fun _ => true) p now s =
    (no_wait (drop_client s), [Send (client_fd s) (type_line (if agent_idle p then "idle" else "timeout")) true; Closed (client_fd s)]).
Proof.
  intros Hc Hw Hd. unfold ik_control_socket_tick. rewrite Hw. cbn [negb].
  assert ((if agent_idle p then Some (type_line "idle") else if (wait_idle_deadline_ms s <=? now)%Z then Some (type_line "timeout") else None) =
          Some (type_line (if agent_idle p then "idle" else "timeout")%string)) as ->.
  { destruct (agent_idle p); [done|]. destruct Hd as [?|Hd]; [done|]. by rewrite (proj2 (Z.leb_le _ _)). }
  unfold client_send. rewrite (proj2 (Z.ltb_ge _ _)) by done. unfold close_client. by rewrite (proj2 (Z.leb_le _ _)).
Qed.

End answers.

Module ControlSocketProps.

(** C34: a connection is answered at most once.  Whatever the clients send and
    however the calls end, the rounds of the main loop accept a connection only
    when the one before is closed, send at most one answer on it, and close it
    once, right after the answer if there is one. *)
Theorem connections_answered_once `{!Allocator} `{!SlotAllocator} `{!Yyjson} (send_ok : cstr -> bool) (rs : list round) keys s keys' s' es :
  Forall (fun r => forall fd, round_accepted r = Some fd -> (0 <= fd)%Z) rs ->
  run_rounds send_ok rs keys s = Ret (keys', s', es) -> trace (connected s) es (connected s').
Proof.
  intros Hrs. revert keys s keys' s' es. induction Hrs as [|r rs Hr _ IH]; intros keys s keys' s' es; cbn [run_rounds].
  - intros [= _ <- <-]. constructor.
  - intros E. apply obind_Ret_inv in E as (((k1 & s1) & e1) & E1 & E). apply obind_Ret_inv in E as (((k2 & s2) & e2) & E2 & E). injection E as _ <- <-.
    apply round_trace in E1; [|done]. eapply trace_app; [exact E1|]. by apply IH in E2.
Qed.

(** C35: requests are answered.  A client that asks for the frame gets the JSON
    of what it shows, cell by cell; for the token cache, its costs; keys that it
    sends are queued, byte for byte, behind those that wait; and a client that
    waits for the agent is told at once when the agent is idle, and otherwise by
    the first tick at which it is, or the time is over.  Then its connection is
    closed. *)
Theorem requests_answered `{!Allocator} `{!AllocatorSpec} `{!SlotAllocator} `{!SlotAllocatorSpec} `{!Yyjson}
    (p : program) (fs : list (list Z * json)) (r : request) (bytes : list Z) (now : Z) keys gone q (s : ik_control_socket) :
  (0 <= client_fd s)%Z -> wait_idle_pending s = false -> sends bytes fs -> asks p fs r ->
  keys_rep keys gone q -> (Z.of_nat (length gone + length q + length (sent_keys r)) < 2 ^ 30)%Z ->
  (exists response keys', ik_control_socket_handle_client (fun _ => true) p (Some bytes) now keys s =
      Ret (None, keys', drop_client s, [Send (client_fd s) response true; Closed (client_fd s)]) /\
    right_answer p r response /\ keys_rep keys' gone (q ++ sent_keys r)) \/
  (exists ms s', r = WaitIdle ms /\ agent_idle p = false /\
    ik_control_socket_handle_client (fun _ => true) p (Some bytes) now keys s = Ret (None, keys, s', []) /\
    forall p' now', agent_idle p' = true \/ (now + ms <= now')%Z ->
      ik_control_socket_tick (fun _ => true) p' now' s' =
        (no_wait (drop_client s), [Send (client_fd s) (type_line (if agent_idle p' then "idle" else "timeout")) true; Closed (client_fd s)])).
Proof.
  intros Hc Hw Hs Ha Hk Hb. destruct r as [ts|c costs|keys_bytes|ms]; [left; by eapply request_ok..|].
  destruct (agent_idle p) eqn:Ei; [left; by eapply request_ok|]. right. exists ms, (mk_socket (listen_fd s) (client_fd s) true (now + ms)).
  split; [done|]. split; [done|]. split; [by eapply wait_ok|]. intros p' now' Hd. by rewrite tick_answers.
Qed.

End ControlSocketProps.

Module ControlSocketExamples.
Import ZeroAlloc CopySlots CodedJson ControlSocketProps.

Definition busy : program := mk_program None 24 80 (1, 1)%Z true None false.
Definition no_socket_client : ik_control_socket := mk_socket 3 (-1) false 0.

(** A client that sends no JSON, and one that hangs up. *)
Definition two_clients : list round :=
  [mk_round busy [3; 5]%Z (Some 5%Z) (Some (lit "?")) 0; mk_round busy [3; 6]%Z (Some 6%Z) (Some []) 10].

Lemma connections_answered_once_witness :
  trace NoClient [Accepted 5; Send 5 (error_line "Invalid JSON") true; Closed 5; Accepted 6; Closed 6]%Z NoClient.
Proof.
  apply (connections_answered_once (fun _ => true) two_clients ik_key_inject_init no_socket_client ik_key_inject_init no_socket_client).
  - repeat constructor; intros fd [= <-]; lia.
  - vm_compute. reflexivity.
Defined.

Definition keys_request : list (list Z * json) := [(lit "type", JStr (lit "send_keys")); (lit "keys", JStr (key_escape [104; 13]%Z))].
Definition keys_line : list Z := default [] (yyjson_write (JObj keys_request)) ++ nl.
Definition with_client : ik_control_socket := mk_socket 3 5 false 0.

Lemma requests_answered_witness : exists response keys',
  ik_control_socket_handle_client (fun _ => true) busy (Some keys_line) 0 ik_key_inject_init with_client =
    Ret (None, keys', no_socket_client, [Send 5 response true; Closed 5]) /\ keys_rep keys' [] [104; 13]%Z.
Proof.
  destruct (requests_answered busy keys_request (SendKeys [104; 13]%Z) keys_line 0 ik_key_inject_init [] [] with_client)
    as [(response & keys' & E & _ & Hk)|(ms & s' & Er & _)].
  - done.
  - done.
  - split; [vm_compute; discriminate|vm_compute; reflexivity].
  - split; [vm_compute; reflexivity|]. split; [vm_compute; reflexivity|]. repeat constructor; lia.
  - exact init_keys.
  - vm_compute. reflexivity.
  - exists response, keys'. split; [exact E|exact Hk].
  - discriminate Er.
Defined.

End ControlSocketExamples.
