(* ===== verification/Replay.v ===== *)
(** * Replaying an agent's history (db/agent_replay.c)

    The walk from an agent to the last clear of its line of ancestors, the
    messages of each range, and the turns that were interrupted. *)

From Stdlib Require Import String.
From stdpp Require Import strings.
From S2P Require Import Prelude Slots CString Growing Conversation Database.

Record ik_replay_range := mk_range { range_agent : cstr; start_id : Z; end_id : Z }.
#[export] Instance ik_replay_range_inhabited : Inhabited ik_replay_range := populate (mk_range [] 0 0).

(** A message of the replay context. *)
Record replayed := mk_replayed { rm_id : Z; rm_msg : ik_msg; rm_interrupted : bool }.
#[export] Instance replayed_inhabited : Inhabited replayed := populate (mk_replayed 0 (mk_msg [] None None) false).

Definition FIND_CLEAR_UP_TO : cstr :=
  lit "SELECT MAX(id) FROM messages WHERE agent_uuid = $1 AND kind = 'clear' AND id <= $2".
Definition FIND_CLEAR : cstr := lit "SELECT MAX(id) FROM messages WHERE agent_uuid = $1 AND kind = 'clear'".
Definition QUERY_RANGE : cstr :=
  lit "SELECT id, kind, content, data FROM messages WHERE agent_uuid = $1 AND id > $2 AND ($3 = 0 OR id <= $3) ORDER BY created_at".

Section replay.
Context {DB : Type} `{!Libpq DB} `{!SlotAllocator}.

Definition ik_agent_find_clear (agent_uuid : cstr) (max_id : Z) : dbm DB Z :=
  do! rows := (if (0 <? max_id)%Z then tuples FIND_CLEAR_UP_TO [Some agent_uuid; Some (show_int max_id)]
               else tuples FIND_CLEAR [Some agent_uuid]) in
  dlift (match rows with
         | [] => Ret 0%Z
         | _ => if PQgetisnull rows 0 0 then Ret 0%Z else let! id_str := PQgetvalue rows 0 0 in parse_lld id_str
         end).

(** The walk from [current_uuid]; one round for each agent. *)
Fixpoint walk_ancestors (fuel : nat) (ranges : growing ik_replay_range) (current_uuid : cstr) (end_id : Z)
  : dbm DB (growing ik_replay_range) :=
  match fuel with
  | 0 => dlift NoFuel
  | S fuel =>
      do! clear_id := ik_agent_find_clear current_uuid end_id in
      if (0 <? clear_id)%Z then dlift (push 8 ranges (mk_range current_uuid clear_id end_id))
      else
        do! ranges := dlift (push 8 ranges (mk_range current_uuid 0 end_id)) in
        do! agent_row := ik_db_agent_get current_uuid in
        match parent_uuid agent_row with
        | None => dret ranges
        | Some parent =>
            do! fork_id := dlift (parse_lld (fork_message_id agent_row)) in
            walk_ancestors fuel ranges parent fork_id
        end
  end.

(** The copy in reverse order, from index [i]. *)
Fixpoint reverse_ranges (ranges : growing ik_replay_range) (n i : nat) : outcome (list ik_replay_range) :=
  match n with
  | 0 => Ret []
  | S n =>
      let! r := arr_get (items ranges) (used ranges - 1 - i) in
      let! rest := reverse_ranges ranges n (S i) in
      Ret (r :: rest)
  end.

Definition ik_agent_build_replay_ranges (fuel : nat) (agent_uuid : cstr) : dbm DB (list ik_replay_range) :=
  do! slots := dlift (or_panic (alloc_slots (mk_range [] 0 0) 8)) in
  do! ranges := walk_ancestors fuel (mk_growing slots 0 8) agent_uuid 0 in
  dlift (reverse_ranges ranges (used ranges) 0).

(** The loop over the rows. *)
Fixpoint range_messages (rows : list (list (option cstr))) (n i : nat) : outcome (list replayed) :=
  match n with
  | 0 => Ret []
  | S n =>
      let! id_str := PQgetvalue rows i 0 in
      let! id := parse_lld id_str in
      let! k := PQgetvalue rows i 1 in
      let! c := nullable rows i 2 in
      let! data := nullable rows i 3 in
      let! rest := range_messages rows n (S i) in
      Ret (mk_replayed id (mk_msg k c data) false :: rest)
  end.

Definition ik_agent_query_range (range : ik_replay_range) : dbm DB (list replayed) :=
  do! rows := tuples QUERY_RANGE [Some (range_agent range); Some (show_int (start_id range)); Some (show_int (end_id range))] in
  dlift (range_messages rows (length rows) 0).

Fixpoint ik_agent_replay_append_messages (replay_ctx : growing replayed) (src_msgs : list replayed)
  : outcome (growing replayed) :=
  match src_msgs with
  | [] => Ret replay_ctx
  | m :: src_msgs =>
      let! replay_ctx := push 16 replay_ctx (mk_replayed (rm_id m) (rm_msg m) false) in
      ik_agent_replay_append_messages replay_ctx src_msgs
  end.

Definition interrupt (m : replayed) : replayed := mk_replayed (rm_id m) (rm_msg m) true.

(** "for (j = last_user_idx; j <= i; j++)" *)
Fixpoint mark_interrupted (messages : list replayed) (n j : nat) : outcome (list replayed) :=
  match n with
  | 0 => Ret messages
  | S n =>
      let! m := arr_get messages j in
      let! messages := arr_set j (interrupt m) messages in
      mark_interrupted messages n (S j)
  end.

Fixpoint filter_loop (messages : list replayed) (n i last_user_idx : nat) : outcome (list replayed) :=
  match n with
  | 0 => Ret messages
  | S n =>
      let! msg := arr_get messages i in
      if strcmp_eq (kind (rm_msg msg)) (lit "interrupted") then
        let! messages := mark_interrupted messages (i + 1 - last_user_idx) last_user_idx in
        filter_loop messages n (S i) last_user_idx
      else filter_loop messages n (S i) (if strcmp_eq (kind (rm_msg msg)) (lit "user") then i else last_user_idx)
  end.

Definition ik_agent_replay_filter_interrupted (replay_ctx : growing replayed) : outcome (growing replayed) :=
  let! messages := filter_loop (items replay_ctx) (used replay_ctx) 0 0 in
  Ret (mk_growing messages (used replay_ctx) (room replay_ctx)).

(** The loop over the ranges. *)
Fixpoint replay_ranges (ranges : list ik_replay_range) (replay_ctx : growing replayed) : dbm DB (growing replayed) :=
  match ranges with
  | [] => dret replay_ctx
  | r :: ranges =>
      do! range_msgs := ik_agent_query_range r in
      do! replay_ctx := dlift (ik_agent_replay_append_messages replay_ctx range_msgs) in
      replay_ranges ranges replay_ctx
  end.

Definition ik_agent_replay_history (fuel : nat) (agent_uuid : cstr) : dbm DB (growing replayed) :=
  do! ranges := ik_agent_build_replay_ranges fuel agent_uuid in
  do! replay_ctx := replay_ranges ranges (mk_growing [] 0 0) in
  dlift (ik_agent_replay_filter_interrupted replay_ctx).

End replay.

(** ** The tables

    What the statements used here answer, as PostgreSQL documents SELECT, WHERE,
    MAX and ORDER BY: rows in the order of their creation. *)

Record message_row := mk_row { row_id : Z; row_agent : cstr; row_msg : ik_msg }.

Class Tables (DB : Type) := {
  messages_of : DB -> list message_row;
  agents_of : DB -> list ik_db_agent_row
}.

Definition is_clear (r : message_row) : Prop := kind (row_msg r) = lit "clear".
#[export] Instance is_clear_dec r : Decision (is_clear r).
Proof. unfold is_clear. apply _. Defined.

(** The messages of an agent after [start] and up to [bound], 0 for no bound. *)
Definition between (u : cstr) (start bound : Z) (l : list message_row) : list message_row :=
  filter (fun r => row_agent r = u /\ (start < row_id r)%Z /\ (bound = 0 \/ row_id r <= bound)%Z) l.

Fixpoint max_of (l : list Z) : option Z :=
  match l with [] => None | x :: l => Some (match max_of l with Some y => Z.max x y | None => x end) end.

Definition message_columns (r : message_row) : list (option cstr) :=
  [Some (show_int (row_id r)); Some (kind (row_msg r)); content (row_msg r); data_json (row_msg r)].

Definition agent_columns (a : ik_db_agent_row) : list (option cstr) :=
  [Some (uuid a); name a; parent_uuid a; Some (fork_message_id a); Some (status a); Some (show_int (created_at a));
   Some (show_int (ended_at a)); provider a; row_model a; thinking_level a; Some (if idle a then lit "t" else lit "f")].

Class ReplayQueries (DB : Type) `{!Libpq DB} `{!Tables DB} : Prop := {
  select_clear u d :
    pq_exec_params FIND_CLEAR [Some u] d =
    (PGRES_TUPLES_OK [[show_int <$> max_of (row_id <$> filter (fun r => row_agent r = u /\ is_clear r) (messages_of d))]], d);
  select_clear_up_to u b d : (0 <= b < 2 ^ 63)%Z ->
    pq_exec_params FIND_CLEAR_UP_TO [Some u; Some (show_int b)] d =
    (PGRES_TUPLES_OK [[show_int <$> max_of (row_id <$>
       filter (fun r => row_agent r = u /\ is_clear r /\ (row_id r <= b)%Z) (messages_of d))]], d);
  select_range u s b d : (0 <= s < 2 ^ 63)%Z -> (0 <= b < 2 ^ 63)%Z ->
    pq_exec_params QUERY_RANGE [Some u; Some (show_int s); Some (show_int b)] d =
    (PGRES_TUPLES_OK (message_columns <$> between u s b (messages_of d)), d);
  select_agent u d :
    pq_exec_params GET_AGENT [Some u] d =
    (PGRES_TUPLES_OK (agent_columns <$> filter (fun a => uuid a = u) (agents_of d)), d)
}.

(** ** The specification *)

Section spec.
Context {DB : Type} `{!Tables DB}.

Definition last_clear (u : cstr) (bound : Z) (d : DB) : option Z :=
  max_of (row_id <$> filter is_clear (between u 0 bound (messages_of d))).

(** The history of an agent up to [bound]: its own messages after its last
    clear, or those of its parent up to the fork and then all its own.  The
    number counts the ancestors walked. *)
Inductive history (d : DB) : nat -> cstr -> Z -> list message_row -> Prop :=
| history_cleared u bound c :
    last_clear u bound d = Some c -> history d 0 u bound (between u c bound (messages_of d))
| history_root u bound a :
    last_clear u bound d = None -> a ∈ agents_of d -> uuid a = u -> parent_uuid a = None ->
    history d 0 u bound (between u 0 bound (messages_of d))
| history_child n u bound a parent fork inherited :
    last_clear u bound d = None -> a ∈ agents_of d -> uuid a = u -> parent_uuid a = Some parent ->
    fork_message_id a = show_int fork -> (0 <= fork < 2 ^ 63)%Z ->
    history d n parent fork inherited ->
    history d (S n) u bound (inherited ++ between u 0 bound (messages_of d)).

(** Rows as the tables hold them. *)
Record tables_ok (d : DB) : Prop := {
  ids_positive : Forall (fun r => (0 < row_id r < 2 ^ 63)%Z) (messages_of d);
  times_fit : Forall (fun a => (- 2 ^ 63 <= created_at a < 2 ^ 63)%Z /\ (- 2 ^ 63 <= ended_at a < 2 ^ 63)%Z) (agents_of d);
  uuids_distinct : NoDup (uuid <$> agents_of d)
}.

(** Every agent's parent was registered before it, and its fork point is a
    message number. *)
Definition forest (d : DB) : Prop :=
  forall i a parent, agents_of d !! i = Some a -> parent_uuid a = Some parent ->
    (exists j b, j < i /\ agents_of d !! j = Some b /\ uuid b = parent) /\
    exists fork, fork_message_id a = show_int fork /\ (0 <= fork < 2 ^ 63)%Z.

End spec.

(** A turn that is cut off: an interruption before the next question. *)
Definition is_interruption (m : replayed) : bool := strcmp_eq (kind (rm_msg m)) (lit "interrupted").
Definition is_question (m : replayed) : bool := strcmp_eq (kind (rm_msg m)) (lit "user").

Fixpoint cut_off (after : list replayed) : bool :=
  match after with
  | [] => false
  | m :: after => if is_interruption m then true else if is_question m then false else cut_off after
  end.

Fixpoint marked (l : list replayed) : list replayed :=
  match l with
  | [] => []
  | m :: l => (if is_interruption m || cut_off l then interrupt m else m) :: marked l
  end.

Definition of_row (r : message_row) : replayed := mk_replayed (row_id r) (row_msg r) false.

(** ** Lemmas *)

Lemma mark_interrupted_marks B : forall P R,
  mark_interrupted (P ++ B ++ R) (length B) (length P) = Ret (P ++ (interrupt <$> B) ++ R).
Proof.
  induction B as [|m B IH]; intros P R; [done|]. cbn [mark_interrupted length app fmap list_fmap].
  rewrite arr_get_app. cbn [obind]. rewrite arr_set_middle. cbn [obind].
  specialize (IH (P ++ [interrupt m]) R). rewrite length_app, Nat.add_1_r, <- !app_assoc in IH. exact IH.
Qed.

(** The turn so far is [B]; [T] are the unused slots. *)
Lemma filter_loop_marks T R : forall P B,
  filter_loop (P ++ B ++ R ++ T) (length R) (length P + length B) (length P) =
  Ret (P ++ (if cut_off R then interrupt <$> B else B) ++ marked R ++ T).
Proof.
  induction R as [|m R IH]; intros P B; cbn [filter_loop length cut_off marked]; [done|].
  assert (arr_get (P ++ B ++ (m :: R) ++ T) (length P + length B) = Ret m) as ->.
  { rewrite app_assoc, <- length_app. apply arr_get_app. }
  cbn [obind]. fold (is_interruption m) (is_question m).
  assert (P ++ B ++ (m :: R) ++ T = P ++ (B ++ [m]) ++ R ++ T) as E by (by rewrite <- app_assoc).
  destruct (is_interruption m) eqn:Ei; cbn [orb].
  - rewrite E. replace (length P + length B + 1 - length P) with (length (B ++ [m])) by (rewrite length_app; cbn [length]; lia).
    rewrite mark_interrupted_marks. cbn [obind]. specialize (IH P (interrupt <$> (B ++ [m]))).
    rewrite length_fmap, length_app in IH. cbn [length] in IH. rewrite Nat.add_1_r, Nat.add_succ_r in IH. rewrite IH.
    rewrite fmap_app. cbn [fmap list_fmap]. destruct (cut_off R); [|by rewrite <- app_assoc].
    rewrite fmap_app, <- app_assoc. cbn [fmap list_fmap]. rewrite <- list_fmap_compose. reflexivity.
  - destruct (is_question m).
    + specialize (IH (P ++ B) [m]). rewrite length_app, Nat.add_1_r, <- app_assoc in IH. cbn [app length] in IH. cbn [app]. rewrite IH.
      rewrite <- app_assoc. by destruct (cut_off R).
    + specialize (IH P (B ++ [m])). rewrite length_app in IH. cbn [length] in IH.
      rewrite Nat.add_1_r, Nat.add_succ_r in IH. rewrite E, IH.
      destruct (cut_off R); rewrite ?fmap_app, <- app_assoc; done.
Qed.

Lemma marked_length l : length (marked l) = length l.
Proof. induction l as [|m l IH]; [done|]. cbn [marked length]. by rewrite IH. Qed.

Section growing_lemmas.
Context `{!SlotAllocator} `{!SlotAllocatorSpec}.

Lemma append_messages_ok (ms : list replayed) : forall (g : growing replayed) l,
  grown_to g l -> (Z.of_nat (length l + length ms) < 2 ^ 28)%Z ->
  exists g', ik_agent_replay_append_messages g ms = Ret g' /\
             grown_to g' (l ++ ((fun m => mk_replayed (rm_id m) (rm_msg m) false) <$> ms)).
Proof.
  induction ms as [|m ms IH]; intros g l Hg Hl; cbn [ik_agent_replay_append_messages length] in *.
  { exists g. cbn [fmap list_fmap]. by rewrite app_nil_r. }
  destruct (push_ok 16 g l (mk_replayed (rm_id m) (rm_msg m) false) Hg ltac:(lia) ltac:(lia)) as (g1 & -> & Hg1). cbn [obind].
  destruct (IH g1 _ Hg1) as (g' & E & Hg'); [rewrite length_app; cbn [length]; lia|].
  exists g'. split; [exact E|]. cbn [fmap list_fmap]. by rewrite <- app_assoc in Hg'.
Qed.

Lemma filter_ok (g : growing replayed) l :
  grown_to g l -> exists g', ik_agent_replay_filter_interrupted g = Ret g' /\ grown_to g' (marked l).
Proof.
  intros [(rest & Er) Eu Em Hb]. unfold ik_agent_replay_filter_interrupted. rewrite Er, Eu.
  pose proof (filter_loop_marks rest l [] []) as E. cbn [app length] in E. rewrite Nat.add_0_r in E. rewrite E. cbn [obind].
  eexists. split; [reflexivity|]. constructor; cbn [items used room].
  - exists rest. by destruct (cut_off l).
  - by rewrite marked_length.
  - destruct (cut_off l); cbn [fmap list_fmap app]; rewrite Em, Er, !length_app; by rewrite marked_length.
  - done.
Qed.

End growing_lemmas.

(** ** The queries *)

Lemma filter_same {A} (P Q : A -> Prop) `{!forall x, Decision (P x)} `{!forall x, Decision (Q x)} l :
  Forall (fun x => P x <-> Q x) l -> filter P l = filter Q l.
Proof.
  induction 1 as [|x l Hx _ IH]; [done|]. rewrite !filter_cons, IH.
  destruct (decide (P x)) as [Hp|Hp], (decide (Q x)) as [Hq|Hq]; [done|exfalso; tauto|exfalso; tauto|done].
Qed.

Lemma filter_nothing {A} (P : A -> Prop) `{!forall x, Decision (P x)} l : Forall (fun x => ~ P x) l -> filter P l = [].
Proof. induction 1 as [|x l Hx _ IH]; [done|]. by rewrite filter_cons, decide_False. Qed.

Lemma filter_unique {A B} `{EqDecision B} (f : A -> B) l a :
  NoDup (f <$> l) -> a ∈ l -> filter (fun x => f x = f a) l = [a].
Proof.
  induction l as [|x l IH]; intros Hd Ha; [by apply not_elem_of_nil in Ha|]. cbn [fmap list_fmap] in Hd.
  apply NoDup_cons in Hd as [Hx Hd]. rewrite filter_cons. apply elem_of_cons in Ha as [<-|Ha].
  - rewrite decide_True by done. f_equal.
    apply filter_nothing, Forall_forall. intros y Hy E. apply Hx. rewrite <- E. by apply list_elem_of_fmap_2.
  - rewrite decide_False; [by apply IH|]. intros E. apply Hx. rewrite E. by apply list_elem_of_fmap_2.
Qed.

Lemma max_of_in l m : max_of l = Some m -> m ∈ l.
Proof.
  revert m. induction l as [|x l IH]; intros m Hm; [done|]. cbn [max_of] in Hm. destruct (max_of l) as [y|].
  - injection Hm as <-. destruct (Z.max_spec x y) as [[_ ->]|[_ ->]]; [right; by apply IH|by left].
  - injection Hm as <-. by left.
Qed.

Lemma parse_row_shown a rows i :
  (- 2 ^ 63 <= created_at a < 2 ^ 63)%Z -> (- 2 ^ 63 <= ended_at a < 2 ^ 63)%Z -> rows !! i = Some (agent_columns a) ->
  ik_db_agent_parse_row rows i = Ret a.
Proof.
  intros Hc He Hr. unfold ik_db_agent_parse_row, nullable, PQgetisnull, PQgetvalue. rewrite Hr. cbn [mbind option_bind].
  destruct a as [u n p f st c e pr m t idl]. unfold agent_columns. cbn [created_at ended_at] in *.
  cbn [lookup list_lookup mbind option_bind obind default uuid name parent_uuid fork_message_id status created_at ended_at provider
       row_model thinking_level idle id].
  rewrite (parse_shown c), (parse_shown e) by done. by destruct n, p, pr, m, t, idl.
Qed.

Lemma range_messages_ok rows n : forall i l,
  drop i rows = message_columns <$> l -> length l = n -> Forall (fun r => (0 < row_id r < 2 ^ 63)%Z) l ->
  range_messages rows n i = Ret (of_row <$> l).
Proof.
  induction n as [|n IH]; intros i [|r l] Hd Hn Hl; try done. cbn [range_messages]. cbn [length] in Hn. injection Hn as Hn.
  apply Forall_cons in Hl as [Hr Hl].
  assert (rows !! i = Some (message_columns r)) as Ei.
  { rewrite <- (Nat.add_0_r i), <- lookup_drop, Hd. reflexivity. }
  unfold nullable, PQgetisnull, PQgetvalue. rewrite Ei. cbn [mbind option_bind]. unfold message_columns at 1 2 3 4 5 6.
  cbn [lookup list_lookup obind default id]. rewrite parse_shown by lia. cbn [obind].
  rewrite (IH (S i) l); [|by rewrite (drop_S _ _ _ Ei) in Hd; injection Hd|done|done].
  destruct r as [id u [k c dj]]. cbn [row_msg content data_json]. by destruct c, dj.
Qed.

Section queries.
Context {DB : Type} `{!Libpq DB} `{!Tables DB} `{!ReplayQueries DB} `{!SlotAllocator} `{!SlotAllocatorSpec}.

Lemma find_clear_ok u b d :
  tables_ok d -> (0 <= b < 2 ^ 63)%Z -> ik_agent_find_clear u b d = (Ret (default 0%Z (last_clear u b d)), d).
Proof.
  intros Hok Hb. unfold ik_agent_find_clear, dbind, tuples.
  assert (forall P `{!forall r, Decision (P r)},
    (forall r, (0 < row_id r)%Z -> P r <-> is_clear r /\ row_agent r = u /\ (0 < row_id r)%Z /\ (b = 0 \/ row_id r <= b)%Z) ->
    max_of (row_id <$> filter P (messages_of d)) = last_clear u b d) as Hsame.
  { intros P HP Hiff. unfold last_clear, between. rewrite list_filter_filter. do 2 f_equal. apply filter_same.
    eapply Forall_impl; [apply (ids_positive d Hok)|]. intros r [Hr _]. by apply Hiff. }
  assert (forall m, last_clear u b d = Some m -> (0 < m < 2 ^ 63)%Z) as Hm.
  { intros m Em. apply max_of_in, list_elem_of_fmap in Em as (r & -> & Hr).
    apply list_elem_of_filter in Hr as [_ Hr]. apply list_elem_of_filter in Hr as [_ Hr].
    by apply (proj1 (Forall_forall _ _) (ids_positive d Hok)). }
  assert (forall o : option Z, (forall m, o = Some m -> (0 < m < 2 ^ 63)%Z) ->
    dlift (match [[show_int <$> o]] with
           | [] => Ret 0%Z
           | _ => if PQgetisnull [[show_int <$> o]] 0 0 then Ret 0%Z
                  else let! id_str := PQgetvalue [[show_int <$> o]] 0 0 in parse_lld id_str
           end) d = (Ret (default 0%Z o), d)) as Hread.
  { intros [m|] Ho; [|done]. unfold dlift, PQgetisnull, PQgetvalue. cbn [fmap option_fmap option_map lookup list_lookup mbind option_bind
      default id obind]. rewrite parse_shown; [done|]. specialize (Ho m eq_refl). lia. }
  destruct (Z.ltb_spec 0 b) as [Hp|Hp].
  - rewrite select_clear_up_to by lia. rewrite Hsame; [by apply Hread|]. intros r Hr. split; intros; split_and!; try tauto; lia.
  - rewrite select_clear. rewrite Hsame; [by apply Hread|]. intros r Hr. split; intros; split_and!; try tauto; lia.
Qed.

Lemma agent_get_ok a d : tables_ok d -> a ∈ agents_of d -> ik_db_agent_get (uuid a) d = (Ret a, d).
Proof.
  intros Hok Ha. unfold ik_db_agent_get, dbind, tuples. rewrite select_agent, (filter_unique uuid _ a (uuids_distinct d Hok) Ha).
  pose proof (proj1 (Forall_forall _ _) (times_fit d Hok) a Ha) as [Hc He]. unfold dlift. cbn [fmap list_fmap].
  by rewrite (parse_row_shown a [agent_columns a] 0 Hc He).
Qed.

Definition selected (d : DB) (r : ik_replay_range) : list message_row :=
  between (range_agent r) (start_id r) (end_id r) (messages_of d).

Definition range_fits (r : ik_replay_range) : Prop := (0 <= start_id r < 2 ^ 63)%Z /\ (0 <= end_id r < 2 ^ 63)%Z.

Lemma query_range_ok r d : tables_ok d -> range_fits r -> ik_agent_query_range r d = (Ret (of_row <$> selected d r), d).
Proof.
  intros Hok [Hs He]. unfold ik_agent_query_range, dbind, tuples. rewrite select_range by done. unfold dlift, selected.
  rewrite (range_messages_ok _ _ 0 (between (range_agent r) (start_id r) (end_id r) (messages_of d))); try done.
  - by rewrite length_fmap.
  - apply Forall_forall. intros x Hx. apply list_elem_of_filter in Hx as [_ Hx].
    by apply (proj1 (Forall_forall _ _) (ids_positive d Hok)).
Qed.

(** The walk finds the ranges of the history, the agent's own first. *)
Lemma walk_ancestors_ok d n u b h :
  tables_ok d -> history d n u b h -> (0 <= b < 2 ^ 63)%Z -> forall fuel g l,
  n < fuel -> grown_to g l -> (Z.of_nat (length l + n) < 2 ^ 28)%Z ->
  exists g' rs, walk_ancestors fuel g u b d = (Ret g', d) /\ grown_to g' (l ++ rs) /\ mjoin (selected d <$> reverse rs) = h /\
                length rs <= S n /\ Forall range_fits rs.
Proof.
  intros Hok. induction 1 as [u b c Ec|u b a Ec Ha Eu Ep|n u b a parent fork inh Ec Ha Eu Ep Ef Hf _ IH];
    intros Hb [|fuel] g l Hn Hg Hl; try lia; cbn [walk_ancestors]; unfold dbind at 1; rewrite (find_clear_ok u b d Hok Hb), Ec; cbn [default id]; cbv beta iota zeta.
  - assert (0 < c < 2 ^ 63)%Z as [Hc Hc'].
    { apply max_of_in, list_elem_of_fmap in Ec as (r & -> & Hr). apply list_elem_of_filter in Hr as [_ Hr].
      apply list_elem_of_filter in Hr as [_ Hr]. by apply (proj1 (Forall_forall _ _) (ids_positive d Hok)). }
    rewrite (proj2 (Z.ltb_lt _ _) Hc). destruct (push_ok 8 g l (mk_range u c b) Hg ltac:(lia) ltac:(lia)) as (g' & E & Hg').
    exists g', [mk_range u c b]. unfold dlift. rewrite E. split_and!; [done|done| |done|].
    { unfold reverse. cbn. apply app_nil_r. }
    apply Forall_singleton. split; cbn [start_id end_id]; lia.
  - rewrite Z.ltb_irrefl. destruct (push_ok 8 g l (mk_range u 0 b) Hg ltac:(lia) ltac:(lia)) as (g' & E & Hg').
    exists g', [mk_range u 0 b]. unfold dbind, dlift. rewrite E. pose proof (agent_get_ok a d Hok Ha) as Eg. rewrite Eu in Eg. rewrite Eg, Ep.
    split_and!; [done|done| |done|].
    { unfold reverse. cbn. apply app_nil_r. }
    apply Forall_singleton. split; cbn [start_id end_id]; lia.
  - rewrite Z.ltb_irrefl. destruct (push_ok 8 g l (mk_range u 0 b) Hg ltac:(lia) ltac:(lia)) as (g1 & E & Hg1).
    unfold dbind, dlift. rewrite E. pose proof (agent_get_ok a d Hok Ha) as Eg. rewrite Eu in Eg. rewrite Eg, Ep, Ef, parse_shown by lia.
    destruct (IH ltac:(lia) fuel g1 (l ++ [mk_range u 0 b]) ltac:(lia) Hg1) as (g' & rs & E' & Hg' & Hs & Hlen & Hfit).
    { rewrite length_app. cbn [length]. lia. }
    exists g', (mk_range u 0 b :: rs). split; [exact E'|]. rewrite <- app_assoc in Hg'. split; [exact Hg'|].
    split; [rewrite reverse_cons, fmap_app, join_app, Hs; cbn; by rewrite app_nil_r|].
    split; [cbn [length]; lia|]. apply Forall_cons. split; [split; cbn [start_id end_id]; lia|done].
Qed.

Lemma reverse_ranges_ok g rs : grown_to g rs -> forall n i, i + n = length rs ->
  reverse_ranges g n i = Ret (drop i (reverse rs)).
Proof.
  intros [(rest & Er) Eu _ _]. induction n as [|n IH]; intros i Hi; cbn [reverse_ranges].
  { rewrite drop_ge; [done|]. rewrite length_reverse. lia. }
  destruct (lookup_lt_is_Some_2 (reverse rs) i) as [r Ei]; [rewrite length_reverse; lia|].
  rewrite (drop_S _ _ _ Ei). rewrite reverse_lookup in Ei by lia. rewrite Er, Eu.
  replace (length rs - 1 - i) with (length rs - S i) by lia. rewrite (arr_get_lookup _ _ _ _ Ei). cbn [obind].
  by rewrite IH by lia.
Qed.

Lemma replay_ranges_ok d rs : tables_ok d -> Forall range_fits rs -> forall g l,
  grown_to g l -> (Z.of_nat (length l + length (mjoin (selected d <$> rs))) < 2 ^ 28)%Z ->
  exists g', replay_ranges rs g d = (Ret g', d) /\ grown_to g' (l ++ (of_row <$> mjoin (selected d <$> rs))).
Proof.
  intros Hok. induction 1 as [|r rs Hr _ IH]; intros g l Hg Hl; cbn [replay_ranges].
  { exists g. split; [done|]. cbn. by rewrite app_nil_r. }
  change (mjoin (selected d <$> r :: rs)) with (selected d r ++ mjoin (selected d <$> rs)) in *.
  unfold dbind at 1. rewrite query_range_ok by done. unfold dbind, dlift.
  rewrite length_app in Hl. destruct (append_messages_ok (of_row <$> selected d r) g l Hg) as (g1 & -> & Hg1).
  { rewrite length_fmap. lia. }
  rewrite <- list_fmap_compose in Hg1. change (_ ∘ of_row) with of_row in Hg1.
  destruct (IH g1 _ Hg1) as (g' & E & Hg').
  { rewrite length_app, length_fmap. lia. }
  exists g'. split; [exact E|]. by rewrite fmap_app, app_assoc.
Qed.

(** The replay of a history. *)
Lemma replay_ok d n u h fuel :
  tables_ok d -> history d n u 0 h -> n < fuel -> (Z.of_nat (n + length h) < 2 ^ 28)%Z ->
  exists g, ik_agent_replay_history fuel u d = (Ret g, d) /\ grown_to g (marked (of_row <$> h)).
Proof.
  intros Hok Hh Hn Hl. unfold ik_agent_replay_history, ik_agent_build_replay_ranges.
  destruct (alloc_slots_some (mk_range [] 0 0) 8) as (slots & Ea & Es).
  destruct (walk_ancestors_ok d n u 0 h Hok Hh ltac:(lia) fuel (mk_growing slots 0 8) []) as (g1 & rs & Ew & Hg1 & Hs & Hlen & Hfit).
  { done. }
  { rewrite <- Es. apply grown_nil. lia. }
  { cbn [length]. lia. }
  cbn [app] in Hg1. unfold dbind, dlift. rewrite Ea. cbn [or_panic]. rewrite Ew, (grown_used _ _ Hg1), (reverse_ranges_ok g1 rs Hg1) by done.
  destruct (replay_ranges_ok d (reverse rs) Hok) with (g := mk_growing (A := replayed) [] 0 0) (l := @nil replayed) as (g2 & E2 & Hg2).
  { by apply Forall_reverse. }
  { by apply (grown_nil (A := replayed) []). }
  { rewrite Hs. cbn [length]. lia. }
  rewrite drop_0, E2. rewrite Hs in Hg2. cbn [app] in Hg2. destruct (filter_ok g2 _ Hg2) as (g & -> & Hg). by exists g.
Qed.

Lemma history_length d n u b h : history d n u b h -> length h <= S n * length (messages_of d).
Proof.
  assert (forall u s b, length (between u s b (messages_of d)) <= length (messages_of d)) as Hf by (intros; apply length_filter).
  induction 1 as [u b c _|u b a _ _ _ _|n u b a parent fork inh _ _ _ _ _ _ _ IH];
    [specialize (Hf u c b); lia|specialize (Hf u 0%Z b); lia|]. rewrite length_app. specialize (Hf u 0%Z b). lia.
Qed.

Lemma history_exists d : forest d -> forall i a b, agents_of d !! i = Some a ->
  exists n h, n <= i /\ history d n (uuid a) b h.
Proof.
  intros Hf i. induction i as [i IH] using lt_wf_ind. intros a b Ea. pose proof (list_elem_of_lookup_2 _ _ _ Ea) as Ha.
  destruct (last_clear (uuid a) b d) as [c|] eqn:Ec; [exists 0; eexists; split; [lia|by constructor]|].
  destruct (parent_uuid a) as [parent|] eqn:Ep; [|exists 0; eexists; split; [lia|by econstructor]].
  destruct (Hf i a parent Ea Ep) as ((j & p & Hj & Ej & <-) & fork & Ef & Hr).
  destruct (IH j Hj p fork Ej) as (n & h & Hn & Hh). exists (S n). eexists. split; [lia|]. by eapply history_child.
Qed.

Lemma between_app_hidden u s b l extra :
  (b = 0%Z -> Forall (fun r => row_agent r <> u) extra) -> (b <> 0%Z -> Forall (fun r => (b < row_id r)%Z) extra) ->
  between u s b (l ++ extra) = between u s b l.
Proof.
  intros Hb0 Hb1. unfold between. rewrite filter_app, (filter_nothing _ extra); [apply app_nil_r|].
  destruct (decide (b = 0%Z)) as [Eb|Eb]; (eapply Forall_impl; [by auto|]); intros r Hr; cbv beta in *; [tauto|].
  intros (_ & _ & [?|?]); lia.
Qed.

(** Later messages of others are out of sight. *)
Lemma history_kept d d' extra :
  messages_of d' = messages_of d ++ extra -> agents_of d' = agents_of d ->
  (forall a fork, a ∈ agents_of d -> parent_uuid a <> None -> fork_message_id a = show_int fork -> (0 <= fork < 2 ^ 63)%Z ->
     (0 < fork)%Z /\ Forall (fun r => (fork < row_id r)%Z) extra) ->
  forall n u b h, history d n u b h ->
  (b = 0%Z -> Forall (fun r => row_agent r <> u) extra) -> (b <> 0%Z -> Forall (fun r => (b < row_id r)%Z) extra) ->
  history d' n u b h.
Proof.
  intros Em Ea Hfork n u b h Hh. induction Hh as [u b c Ec|u b a Ec Ha Eu Ep|n u b a parent fork inh Ec Ha Eu Ep Ef Hf Hh IH]; intros Hb0 Hb1.
  all: assert (forall s, between u s b (messages_of d') = between u s b (messages_of d)) as Hsame
    by (intros s; rewrite Em; by apply between_app_hidden).
  - rewrite <- Hsame. constructor. unfold last_clear. by rewrite Hsame.
  - rewrite <- Hsame. econstructor; [unfold last_clear; by rewrite Hsame|by rewrite Ea|done|done].
  - rewrite <- Hsame. destruct (Hfork a fork Ha ltac:(by rewrite Ep) Ef Hf) as [Hpos Hlt].
    eapply history_child; [unfold last_clear; by rewrite Hsame|by rewrite Ea|done|done|exact Ef|done|].
    apply IH; [lia|done].
Qed.

End queries.

Module ReplayProps.

Section props.
Context {DB : Type} `{!Libpq DB} `{!Tables DB} `{!ReplayQueries DB} `{!SlotAllocator} `{!SlotAllocatorSpec}.

(** C20: replaying an agent ends and gives its history.  When every agent's
    parent was registered before it, as many rounds as there are agents are
    enough, the database is not changed, and the messages are those of the
    ancestors up to each fork, since the last clear on the way, followed by the
    agent's own; those of a turn that was cut off are marked, and no others. *)
Theorem replay_gives_history (d : DB) (a : ik_db_agent_row) :
  tables_ok d -> forest d -> a ∈ agents_of d ->
  (Z.of_nat (length (agents_of d) * S (length (messages_of d))) < 2 ^ 28)%Z ->
  exists n h g, history d n (uuid a) 0 h /\
    ik_agent_replay_history (length (agents_of d)) (uuid a) d = (Ret g, d) /\
    take (used g) (items g) = marked (of_row <$> h).
Proof.
  intros Hok Hf Ha Hl. apply list_elem_of_lookup_1 in Ha as [i Ei]. pose proof (lookup_lt_Some _ _ _ Ei) as Hi.
  destruct (history_exists d Hf i a 0 Ei) as (n & h & Hn & Hh). pose proof (history_length _ _ _ _ _ Hh) as Hlen.
  destruct (replay_ok d n (uuid a) h (length (agents_of d)) Hok Hh ltac:(lia)) as (g & E & Hg).
  { assert (S n * length (messages_of d) <= length (agents_of d) * length (messages_of d)) by (apply Nat.mul_le_mono_r; lia). lia. }
  exists n, h, g. split; [done|]. split; [exact E|]. destruct (grown_items _ _ Hg) as [rest Er].
  rewrite Er, (grown_used _ _ Hg). by rewrite take_app_length.
Qed.

(** C21: a fork is a copy of the past only.  Messages that other agents add
    after the fork points of the agents do not change what an agent replays,
    provided that no fork point is 0, which stands for no limit. *)
Theorem fork_isolated (d d' : DB) (extra : list message_row) (a : ik_db_agent_row) :
  tables_ok d -> tables_ok d' -> forest d -> a ∈ agents_of d ->
  messages_of d' = messages_of d ++ extra -> agents_of d' = agents_of d ->
  Forall (fun r => row_agent r <> uuid a) extra ->
  (forall b fork, b ∈ agents_of d -> parent_uuid b <> None -> fork_message_id b = show_int fork -> (0 <= fork < 2 ^ 63)%Z ->
     (0 < fork)%Z /\ Forall (fun r => (fork < row_id r)%Z) extra) ->
  (Z.of_nat (length (agents_of d) * S (length (messages_of d))) < 2 ^ 28)%Z ->
  exists g g', ik_agent_replay_history (length (agents_of d)) (uuid a) d = (Ret g, d) /\
    ik_agent_replay_history (length (agents_of d)) (uuid a) d' = (Ret g', d') /\
    take (used g) (items g) = take (used g') (items g').
Proof.
  intros Hok Hok' Hf Ha Em Ea Hown Hfork Hl. apply list_elem_of_lookup_1 in Ha as [i Ei]. pose proof (lookup_lt_Some _ _ _ Ei) as Hi.
  destruct (history_exists d Hf i a 0 Ei) as (n & h & Hn & Hh). pose proof (history_length _ _ _ _ _ Hh) as Hlen.
  assert (history d' n (uuid a) 0 h) as Hh' by (eapply history_kept; eauto; done).
  assert (Z.of_nat (n + length h) < 2 ^ 28)%Z as Hb.
  { assert (S n * length (messages_of d) <= length (agents_of d) * length (messages_of d)) by (apply Nat.mul_le_mono_r; lia). lia. }
  destruct (replay_ok d n (uuid a) h (length (agents_of d)) Hok Hh ltac:(lia) Hb) as (g & E & Hg).
  destruct (replay_ok d' n (uuid a) h (length (agents_of d)) Hok' Hh' ltac:(lia) Hb) as (g' & E' & Hg').
  exists g, g'. split; [exact E|]. split; [exact E'|].
  destruct (grown_items _ _ Hg) as [rest ->], (grown_items _ _ Hg') as [rest' ->].
  by rewrite (grown_used _ _ Hg), (grown_used _ _ Hg'), !take_app_length.
Qed.

End props.
End ReplayProps.

(** ** Tables in memory *)

Module MemoryTables.

Definition store : Type := list message_row * list ik_db_agent_row.

#[export] Instance store_tables : Tables store := { messages_of := fst; agents_of := snd }.

Definition answer (query : cstr) (params : list (option cstr)) (d : store) : pg_result :=
  match params with
  | [Some u] =>
      if strcmp_eq query FIND_CLEAR then
        PGRES_TUPLES_OK [[show_int <$> max_of (row_id <$> filter (fun r => row_agent r = u /\ is_clear r) (fst d))]]
      else if strcmp_eq query GET_AGENT then PGRES_TUPLES_OK (agent_columns <$> filter (fun a => uuid a = u) (snd d))
      else PGRES_FATAL_ERROR
  | [Some u; Some b] =>
      PGRES_TUPLES_OK [[show_int <$> max_of (row_id <$>
        filter (fun r => row_agent r = u /\ is_clear r /\ (row_id r <= strtoll b)%Z) (fst d))]]
  | [Some u; Some s; Some b] => PGRES_TUPLES_OK (message_columns <$> between u (strtoll s) (strtoll b) (fst d))
  | _ => PGRES_FATAL_ERROR
  end.

#[export] Instance store_libpq : Libpq store := fun query params d => (answer query params d, d).

#[export] Instance store_queries : ReplayQueries store.
Proof.
  constructor; unfold pq_exec_params, store_libpq.
  - intros u d. reflexivity.
  - intros u b d Hb. unfold answer. by rewrite strtoll_shown by lia.
  - intros u s b d Hs Hb. unfold answer. by rewrite !strtoll_shown by lia.
  - intros u d. unfold answer. by replace (strcmp_eq GET_AGENT FIND_CLEAR) with false by (vm_compute; reflexivity).
Qed.

End MemoryTables.

Module ReplayExamples.
Import CopySlots MemoryTables ReplayProps.

Definition agent (u : string) (parent : option cstr) (fork : Z) : ik_db_agent_row :=
  mk_agent_row (lit u) None parent (show_int fork) (lit "running") 0 0 None None None false.

Definition message (id : Z) (u k text : string) : message_row :=
  mk_row id (lit u) (mk_msg (lit k) (Some (lit text)) None).

(** A root cleared once, and a child forked after its third message; the
    child's only turn was interrupted. *)
Definition family : store :=
  ([message 1 "root" "user" "old"; message 2 "root" "clear" "-"; message 3 "root" "user" "hello";
    message 4 "root" "user" "later"; message 5 "child" "user" "go"; message 6 "child" "interrupted" "-"],
   [agent "root" None 0; agent "child" (Some (lit "root")) 3]).

Lemma family_ok : tables_ok family.
Proof.
  constructor.
  - repeat (apply Forall_cons; split; [cbn; lia|]). apply Forall_nil. exact I.
  - repeat (apply Forall_cons; split; [cbn; lia|]). apply Forall_nil. exact I.
  - apply (bool_decide_unpack _). vm_compute. exact I.
Qed.

Lemma family_forest : forest family.
Proof.
  intros [|[|i]] a parent Ea Ep; cbn in Ea; try done; injection Ea as <-; [done|]. injection Ep as <-. split.
  - exists 0, (agent "root" None 0). split; [lia|]. done.
  - exists 3%Z. split; [done|lia].
Qed.

Lemma replay_gives_history_witness :
  exists n h g, history family n (lit "child") 0 h /\
    ik_agent_replay_history 2 (lit "child") family = (Ret g, family) /\ take (used g) (items g) = marked (of_row <$> h).
Proof.
  change (lit "child") with (uuid (agent "child" (Some (lit "root")) 3)). change 2 with (length (agents_of family)).
  apply replay_gives_history.
  - exact family_ok.
  - exact family_forest.
  - right. by left.
  - vm_compute. reflexivity.
Defined.

(** What is replayed: the root's third message, and the child's turn, marked. *)
Example family_replayed :
  (fun r => match r with Ret g => (fun m => (rm_id m, rm_interrupted m)) <$> take (used g) (items g) | _ => [] end)
    (fst (ik_agent_replay_history 2 (lit "child") family)) = [(3, false); (5, true); (6, true)]%Z.
Proof. vm_compute. reflexivity. Qed.

Definition grown_family : store := (fst family ++ [message 7 "root" "user" "afterwards"], snd family).

Lemma fork_isolated_witness :
  exists g g', ik_agent_replay_history 2 (lit "child") family = (Ret g, family) /\
    ik_agent_replay_history 2 (lit "child") grown_family = (Ret g', grown_family) /\
    take (used g) (items g) = take (used g') (items g').
Proof.
  change (lit "child") with (uuid (agent "child" (Some (lit "root")) 3)). change 2 with (length (agents_of family)).
  apply (fork_isolated family grown_family [message 7 "root" "user" "afterwards"]).
  - exact family_ok.
  - constructor; [repeat (apply Forall_cons; split; [cbn; lia|]); apply Forall_nil; exact I|apply family_ok|apply family_ok].
  - exact family_forest.
  - right. by left.
  - reflexivity.
  - reflexivity.
  - apply Forall_singleton. apply (bool_decide_unpack _). vm_compute. exact I.
  - intros b fork Hb Hp Ef Hr. apply elem_of_cons in Hb as [->|Hb]; [done|]. apply list_elem_of_singleton in Hb as ->.
    assert (fork = 3%Z) as ->.
    { apply (f_equal strtoll) in Ef. rewrite strtoll_shown in Ef by lia. vm_compute in Ef. congruence. }
    split; [lia|]. apply Forall_singleton. cbn. lia.
  - vm_compute. reflexivity.
Defined.

(** With the fork point 0 the limit is gone: the child of a parent without
    messages replays everything the parent says later. *)
Definition orphaned : store :=
  ([message 1 "root" "user" "later"], [agent "root" None 0; agent "child" (Some (lit "root")) 0]).

Example fork_at_zero_is_unlimited :
  (fun r => match r with Ret g => rm_id <$> take (used g) (items g) | _ => [] end)
    (fst (ik_agent_replay_history 2 (lit "child") orphaned)) = [1]%Z.
Proof. vm_compute. reflexivity. Qed.

End ReplayExamples.
