(* ===== verification/Commands.v ===== *)
(** * Slash commands and their replay (commands.c, commands_pin.c,
    commands_toolset.c, repl/agent_restore_replay_commands.c,
    repl/agent_restore_replay_toolset.c)

    The dispatcher with the commands for pinned documents and the tool filter,
    the events it records, and how they are replayed after a restart.  The other
    commands are a parameter. *)

From Stdlib Require Import String.
From stdpp Require Import strings.
From S2P Require Import Prelude Slots CString Json RequestJson OutputStyle EventRender Conversation Paths Growing DocCache Database Replay.

(** The lines of a screen, for ik_scrollback_get_line_text. *)
Class Lines `{Screen} := screen_lines : screen -> list cstr.
Class LinesSpec `{Lines} : Prop :=
  screen_append_lines s text s' : screen_append s text = Ret s' -> screen_lines s' = screen_lines s ++ [text].

Section commands.
Context `{!AnsiColors} `{!Screen} `{!Lines} `{!Yyjson} `{!SlotAllocator} {DB : Type} `{!Libpq DB}.
Context (paths : ik_paths) (fs : files).

(** What the commands use of the repl, its current agent and the shared
    context; [db_ctx] may be NULL. *)
Record session := mk_session {
  scrollback : screen;
  pinned_paths : list cstr;
  toolset_filter : list cstr;
  doc_cache : option (growing ik_doc_cache_entry);
  db_ctx : option DB;
  session_id : Z;
  agent_uuid : cstr
}.

Definition with_scrollback sb s := mk_session sb (pinned_paths s) (toolset_filter s) (doc_cache s) (db_ctx s) (session_id s) (agent_uuid s).
Definition with_pins p s := mk_session (scrollback s) p (toolset_filter s) (doc_cache s) (db_ctx s) (session_id s) (agent_uuid s).
Definition with_tools t s := mk_session (scrollback s) (pinned_paths s) t (doc_cache s) (db_ctx s) (session_id s) (agent_uuid s).
Definition with_cache c s := mk_session (scrollback s) (pinned_paths s) (toolset_filter s) c (db_ctx s) (session_id s) (agent_uuid s).
Definition with_db d s := mk_session (scrollback s) (pinned_paths s) (toolset_filter s) (doc_cache s) d (session_id s) (agent_uuid s).

(** A res_t with the state after the call. *)
Definition result : Type := outcome (option err_code * session).
Definition ok (s : session) : result := Ret (None, s).
Definition err (e : err_code) (s : session) : result := Ret (Some e, s).

(** "if (is_err(&r)) return r" *)
Definition and_then (r : result) (k : session -> result) : result :=
  let! (e, s) := r in match e with None => k s | Some e => err e s end.
Notation "'try!' s ':=' m 'in' k" := (and_then m (fun s => k)) (at level 10, s name, m at level 100, k at level 200).

Definition append_line (text : cstr) (s : session) : result :=
  match screen_append (scrollback s) text with
  | Ret sb => ok (with_scrollback sb s)
  | Fail e => err e s
  | Panic => Panic
  | Undef => Undef
  | NoFuel => NoFuel
  end.

(** A call whose result is not looked at. *)
Definition ignore_result (r : result) : outcome session := let! (_, s) := r in Ret s.

Definition color_seq (c : ik_output_category) : cstr :=
  if ik_ansi_colors_enabled && (0 <=? ik_output_color c)%Z then fst (ik_ansi_fg_256 16 (ik_output_color c `mod` 256)) else [].

Definition colored (c : ik_output_category) (text : cstr) : cstr :=
  match color_seq c with [] => text | seq => seq ++ text ++ IK_ANSI_RESET end.

(** ** Recording *)

(** An insertion whose failure is only logged; a failed assertion stops. *)
Definition record (content : option cstr) (data_json : cstr) (s : session) : outcome session :=
  match db_ctx s with
  | None => Ret s
  | Some d =>
      let '(r, d) := ik_db_message_insert (session_id s) (Some (agent_uuid s)) (lit "command") content (Some data_json) d in
      match r with
      | Ret _ | Fail _ => Ret (with_db (Some d) s)
      | Panic => Panic
      | Undef => Undef
      | NoFuel => NoFuel
      end
  end.

Definition command_field (k : string) (v : cstr) : cstr := quoted_text (lit k) ++ lit ":" ++ quoted_text v.

(** {"command":"%s","args":"%s"} *)
Definition command_json (command args : cstr) : cstr :=
  lit "{" ++ command_field "command" command ++ lit "," ++ command_field "args" args ++ lit "}".

Definition ik_persist_pin_command (command path : cstr) (s : session) : outcome session :=
  if (session_id s =? 0)%Z then Ret s else record None (command_json command path) s.

Definition ik_persist_toolset_command (args : cstr) (s : session) : outcome session :=
  if (session_id s =? 0)%Z then Ret s else record None (command_json (lit "toolset") args) s.

(** ** commands_pin.c *)

Fixpoint list_lines (items : list cstr) (s : session) : result :=
  match items with
  | [] => ok s
  | item :: items => try! s := append_line (colored IK_OUTPUT_SLASH_OUTPUT (lit "  - " ++ item)) s in list_lines items s
  end.

Definition ik_cmd_pin_list (s : session) : result :=
  match pinned_paths s with
  | [] => append_line (lit "No pinned documents.") s
  | pins => list_lines pins s
  end.

Definition file_not_found (path : cstr) : cstr :=
  colored IK_OUTPUT_WARNING (default [] (ik_output_prefix IK_OUTPUT_WARNING) ++ lit " File not found: " ++ path).

(** ik_doc_cache_get on the agent's cache: whether it succeeds. *)
Definition look_up (path : cstr) (s : session) : outcome (bool * session) :=
  match doc_cache s with
  | None => Ret (true, s)
  | Some cache =>
      match ik_doc_cache_get paths fs cache path with
      | Ret (_, cache) => Ret (true, with_cache (Some cache) s)
      | Fail _ => Ret (false, s)
      | Panic => Panic
      | Undef => Undef
      | NoFuel => NoFuel
      end
  end.

(** "new_paths = talloc_realloc(..., count + 1); new_paths[count] = strdup(path)" *)
Definition add_path (pins : list cstr) (path : cstr) : outcome (list cstr) :=
  let! slots := or_panic (realloc_slots pins (wrap32 (length pins + 1))) in
  arr_set (length pins) path slots.

Definition ik_cmd_pin_add (path : cstr) (s : session) : result :=
  let! (found, s) := look_up path s in
  if negb found then append_line (file_not_found path) s
  else if existsb (fun p => strcmp_eq p path) (pinned_paths s) then
    try! s := append_line (lit "Already pinned: " ++ path) s in
    let! s := ik_persist_pin_command (lit "pin") path s in
    ok s
  else
    let! pins := add_path (pinned_paths s) path in
    try! s := append_line (lit "Pinned: " ++ path) (with_pins pins s) in
    let! s := ik_persist_pin_command (lit "pin") path s in
    ok s.

Definition ik_cmd_pin (args : option cstr) (s : session) : result :=
  match args with None => ik_cmd_pin_list s | Some path => ik_cmd_pin_add path s end.

(** The index of the first equal path. *)
Definition find_path (pins : list cstr) (path : cstr) : option nat := fst <$> list_find (fun p => strcmp_eq p path) pins.

(** The paths after it move down; the array shrinks. *)
Definition remove_path (pins : list cstr) (found_index : nat) : outcome (list cstr) :=
  let! slots := close_gap pins (length pins - 1 - found_index) found_index in
  if (length pins - 1 =? 0)%nat then Ret [] else or_panic (realloc_slots slots (wrap32 (length pins - 1))).

Definition ik_cmd_unpin (args : option cstr) (s : session) : result :=
  match args with
  | None =>
      let! s := ignore_result (append_line (lit "Error: /unpin requires a path argument") s) in
      err ERR_INVALID_ARG s
  | Some path =>
      match find_path (pinned_paths s) path with
      | None => append_line (lit "Not pinned: " ++ path) s
      | Some i =>
          let! pins := remove_path (pinned_paths s) i in
          try! s := append_line (lit "Unpinned: " ++ path) (with_pins pins s) in
          let! s := ik_persist_pin_command (lit "unpin") path s in
          ok s
      end
  end.

(** ** commands_toolset.c *)

Definition ik_cmd_toolset_list (s : session) : result :=
  match toolset_filter s with
  | [] => append_line (lit "No toolset filter active") s
  | tools => list_lines tools s
  end.

(** strtok_r with spaces and commas: the pieces that are not empty. *)
Fixpoint strtok_tokens (s token : cstr) : list cstr :=
  match s with
  | [] => match token with [] => [] | _ => [token] end
  | c :: s =>
      if (c =? 32)%Z || (c =? 44)%Z then (match token with [] => [] | _ => [token] end) ++ strtok_tokens s []
      else strtok_tokens s (token ++ [c])
  end.

Fixpoint push_tokens (tools : growing cstr) (tokens : list cstr) : outcome (growing cstr) :=
  match tokens with
  | [] => Ret tools
  | t :: tokens => let! tools := push 16 tools t in push_tokens tools tokens
  end.

(** The array of the tokens, cut to their number. *)
Definition parse_toolset (args : cstr) : outcome (list cstr) :=
  let! slots := or_panic (alloc_slots ([] : cstr) 16) in
  let! tools := push_tokens (mk_growing slots 0 16) (strtok_tokens args []) in
  if (used tools =? 0)%nat then Ret [] else or_panic (realloc_slots (items tools) (wrap32 (used tools))).

Definition ik_cmd_toolset_set (args : cstr) (s : session) : result :=
  let! tools := parse_toolset args in
  let! s := ik_persist_toolset_command args (with_tools tools s) in
  ok s.

Definition ik_cmd_toolset (args : option cstr) (s : session) : result :=
  match args with None => ik_cmd_toolset_list s | Some args => ik_cmd_toolset_set args s end.

(** ** commands.c *)

(** The lines the command added, each with its line break. *)
Definition command_output (lines_before : nat) (s : session) : option cstr :=
  match drop lines_before (screen_lines (scrollback s)) with
  | [] => None
  | lines => Some (concat ((fun l => l ++ [10%Z]) <$> lines))
  end.

Definition dispatch_json (cmd_name : cstr) (args : option cstr) (input : cstr) : cstr :=
  lit "{" ++ command_field "command" cmd_name ++ lit "," ++
  (match args with Some a => command_field "args" a | None => quoted_text (lit "args") ++ lit ":null" end) ++
  lit "," ++ command_field "echo" input ++ lit "}".

Definition ik_cmd_persist_to_db (input cmd_name : cstr) (args : option cstr) (lines_before : nat) (s : session)
  : outcome session :=
  if (session_id s <=? 0)%Z then Ret s
  else record (command_output lines_before s) (dispatch_json cmd_name args input) s.

Definition handler : Type := option cstr -> session -> result.

(** The registry, in its order. *)
Definition command_table (other : cstr -> handler) : list (cstr * handler) :=
  ((fun n => (lit n, other (lit n))) <$> ["clear"; "mark"; "rewind"; "fork"; "kill"; "send"; "wait"; "reap"; "agents"; "help"; "model"; "system"; "tool"; "refresh"]%string)
  ++ [(lit "pin", ik_cmd_pin); (lit "unpin", ik_cmd_unpin); (lit "toolset", ik_cmd_toolset); (lit "exit", other (lit "exit"))].

Definition is_c_space (c : Z) : bool := (c =? 32)%Z || ((9 <=? c)%Z && (c <=? 13)%Z).

(** The characters up to the first space, and the rest. *)
Fixpoint word (s : cstr) : cstr * cstr :=
  match s with
  | c :: s' => if is_c_space c then ([], s) else let '(w, r) := word s' in (c :: w, r)
  | [] => ([], [])
  end.

Fixpoint find_command (table : list (cstr * handler)) (cmd_name : cstr) : option handler :=
  match table with
  | [] => None
  | (n, h) :: table => if strcmp_eq cmd_name n then Some h else find_command table cmd_name
  end.

Definition ik_cmd_dispatch (other : cstr -> handler) (input : cstr) (s : session) : result :=
  match input with
  | [] => Panic
  | slash :: rest =>
      if negb (slash =? 47)%Z then Panic
      else
        match skip_spaces rest with
        | [] =>
            let! s := ignore_result (append_line (ik_scrollback_format_warning (lit "Empty command")) s) in
            err ERR_INVALID_ARG s
        | cmd_start =>
            let '(cmd_name, args_start) := word cmd_start in
            let args := match skip_spaces args_start with [] => None | a => Some a end in
            try! s := append_line (colored IK_OUTPUT_SLASH_CMD input) s in
            try! s := append_line [] s in
            let lines_before := length (screen_lines (scrollback s)) in
            match find_command (command_table other) cmd_name with
            | Some h =>
                let! (e, s) := h args s in
                match e with
                | Some e => err e s
                | None =>
                    try! s := (if (lines_before <? length (screen_lines (scrollback s)))%nat then append_line [] s else ok s) in
                    let! s := ik_cmd_persist_to_db input cmd_name args lines_before s in
                    ok s
                end
            | None =>
                let! s := ignore_result (append_line
                  (ik_scrollback_format_warning (lit "Unknown command '" ++ cmd_name ++ lit "'")) s) in
                err ERR_INVALID_ARG s
            end
        end
  end.

End commands.
