(* ===== verification/CommandReplay.v ===== *)
(** * Settings that outlive a restart (repl/agent_restore_replay_commands.c,
    repl/agent_restore_replay_toolset.c, agent_provider.c)

    How the recorded commands and the fork event are replayed onto a restored
    agent, and that this gives back its pinned documents and its tool filter. *)

From Stdlib Require Import String.
From stdpp Require Import strings.
From S2P Require Import Prelude Slots CString Json RequestJson OutputStyle EventRender Conversation Paths Growing DocCache Database Replay Commands.

(** What is restored of an agent. *)
Record restored := mk_restored {
  ra_uuid : cstr;
  ra_parent_uuid : option cstr;
  ra_provider : option cstr;
  ra_model : option cstr;
  ra_thinking_level : Z;
  ra_provider_instance : bool;
  ra_pinned_paths : list cstr;
  ra_toolset_filter : list cstr
}.

Definition with_ra_model p m i a :=
  mk_restored (ra_uuid a) (ra_parent_uuid a) p m (ra_thinking_level a) i (ra_pinned_paths a) (ra_toolset_filter a).
Definition with_ra_pins p a :=
  mk_restored (ra_uuid a) (ra_parent_uuid a) (ra_provider a) (ra_model a) (ra_thinking_level a) (ra_provider_instance a) p (ra_toolset_filter a).
Definition with_ra_tools t a :=
  mk_restored (ra_uuid a) (ra_parent_uuid a) (ra_provider a) (ra_model a) (ra_thinking_level a) (ra_provider_instance a) (ra_pinned_paths a) t.

(** ** agent_provider.c *)

Definition parse_thinking_level (level_str : cstr) : Z :=
  if strcmp_eq level_str (lit "min") || strcmp_eq level_str (lit "none") then 0
  else if strcmp_eq level_str (lit "low") then 1
  else if strcmp_eq level_str (lit "med") || strcmp_eq level_str (lit "medium") then 2
  else if strcmp_eq level_str (lit "high") then 3
  else 0.

Definition ik_agent_restore_from_row (agent : restored) (row_ptr : option ik_db_agent_row) : outcome restored :=
  match row_ptr with
  | None => Fail ERR_INVALID_ARG
  | Some row =>
      Ret (mk_restored (ra_uuid agent) (ra_parent_uuid agent)
             (match provider row with Some p => Some p | None => ra_provider agent end)
             (match row_model row with Some m => Some m | None => ra_model agent end)
             (match thinking_level row with Some t => parse_thinking_level t | None => ra_thinking_level agent end)
             false (ra_pinned_paths agent) (ra_toolset_filter agent))
  end.

(** providers/provider.c *)
Definition ik_infer_provider (model_name : option cstr) : option cstr :=
  match model_name with
  | None => None
  | Some m =>
      if starts_with (lit "gpt-") m then Some (lit "openai")
      else if strcmp_eq m (lit "o1") || starts_with (lit "o1-") m then Some (lit "openai")
      else if strcmp_eq m (lit "o3") || starts_with (lit "o3-") m then Some (lit "openai")
      else if strcmp_eq m (lit "o4") || starts_with (lit "o4-") m then Some (lit "openai")
      else if starts_with (lit "claude-") m then Some (lit "anthropic")
      else if starts_with (lit "gemini-") m then Some (lit "google")
      else None
  end.

Section restore.
Context `{!Yyjson} `{!SlotAllocator} {DB : Type} `{!Libpq DB}.

(** ** agent_restore_replay_commands.c *)

(** The strings of an array go to the slots, others are skipped. *)
Fixpoint fill_strings (slots : list cstr) (count : nat) (vals : list json) : outcome (list cstr) :=
  match vals with
  | [] => Ret (take count slots)
  | v :: vals =>
      match yyjson_get_str (Some v) with
      | Some s => let! slots := arr_set count s slots in fill_strings slots (S count) vals
      | None => fill_strings slots count vals
      end
  end.

(** An array of strings; NULL without memory. *)
Definition string_array (v : option json) : outcome (option (list cstr)) :=
  if (yyjson_arr_size v =? 0)%nat then Ret (Some [])
  else
    match alloc_slots ([] : cstr) (wrap32 (yyjson_arr_size v)) with
    | None => Ret None
    | Some slots => let! l := fill_strings slots 0 (yyjson_arr_elements v) in Ret (Some l)
    end.

Definition replay_fork_toolset (agent : restored) (toolset_val : option json) : outcome restored :=
  if negb (yyjson_is_arr toolset_val) then Ret agent
  else let! tools := string_array toolset_val in Ret (with_ra_tools (default [] tools) agent).

Definition replay_fork_event (agent : restored) (root : option json) : outcome restored :=
  let role := yyjson_get_str (yyjson_obj_get root (lit "role")) in
  if match role with Some r => negb (strcmp_eq r (lit "child")) | None => true end then Ret agent
  else
    let pins_val := yyjson_obj_get root (lit "pinned_paths") in
    let toolset_val := yyjson_obj_get root (lit "toolset_filter") in
    if yyjson_is_arr pins_val then
      let! pins := string_array pins_val in
      match pins with
      | None => Ret (with_ra_pins [] agent)
      | Some pins => replay_fork_toolset (with_ra_pins pins agent) toolset_val
      end
    else replay_fork_toolset agent toolset_val.

(** The part of [args] before its first slash is the model. *)
Fixpoint until_slash (s : cstr) : cstr :=
  match s with c :: s => if (c =? 47)%Z then [] else c :: until_slash s | [] => [] end.

Definition replay_model_command (agent : restored) (args : cstr) : restored :=
  let model_copy := until_slash args in
  with_ra_model (Some (default (lit "openai") (ik_infer_provider (Some model_copy)))) (Some model_copy) false agent.

Definition replay_pin_command (pins : list cstr) (args : cstr) : outcome (list cstr) :=
  if existsb (fun p => strcmp_eq p args) pins then Ret pins
  else
    match realloc_slots pins (wrap32 (length pins + 1)) with
    | None => Ret pins
    | Some slots => arr_set (length pins) args slots
    end.

Definition replay_unpin_command (pins : list cstr) (args : cstr) : outcome (list cstr) :=
  match find_path pins args with
  | None => Ret pins
  | Some i =>
      let! slots := close_gap pins (length pins - 1 - i) i in
      if (length pins - 1 =? 0)%nat then Ret []
      else
        match realloc_slots slots (wrap32 (length pins - 1)) with
        | Some slots => Ret slots
        | None => Ret (take (length pins - 1) slots)
        end
  end.

Definition ik_agent_restore_replay_command_effects (agent : restored) (msg : ik_msg) : outcome restored :=
  match data_json msg with
  | None => Ret agent
  | Some data =>
      match yyjson_read data with
      | None => Ret agent
      | Some root =>
          if strcmp_eq (kind msg) (lit "fork") then replay_fork_event agent (Some root)
          else
            let cmd_name := yyjson_get_str (yyjson_obj_get (Some root) (lit "command")) in
            let args := yyjson_get_str (yyjson_obj_get (Some root) (lit "args")) in
            match cmd_name, args with
            | Some cmd_name, Some args =>
                if strcmp_eq cmd_name (lit "model") then Ret (replay_model_command agent args) else Ret agent
            | _, _ => Ret agent
            end
      end
  end.

(** One recorded command. *)
Definition replay_pin_row (pins : list cstr) (data_json : cstr) : outcome (list cstr) :=
  match yyjson_read data_json with
  | None => Ret pins
  | Some root =>
      let cmd_name := yyjson_get_str (yyjson_obj_get (Some root) (lit "command")) in
      let args := yyjson_get_str (yyjson_obj_get (Some root) (lit "args")) in
      match cmd_name, args with
      | Some cmd_name, Some args =>
          if strcmp_eq cmd_name (lit "pin") then replay_pin_command pins args
          else if strcmp_eq cmd_name (lit "unpin") then replay_unpin_command pins args
          else Ret pins
      | _, _ => Ret pins
      end
  end.

Fixpoint replay_pin_rows (rows : list (list (option cstr))) (n i : nat) (pins : list cstr) : outcome (list cstr) :=
  match n with
  | 0 => Ret pins
  | S n =>
      let! data_json := PQgetvalue rows i 0 in
      let! pins := replay_pin_row pins data_json in
      replay_pin_rows rows n (S i) pins
  end.

Definition FORK_EVENT : cstr :=
  lit "SELECT data FROM messages WHERE agent_uuid = $1 AND kind = 'fork' ORDER BY id LIMIT 1".

Definition PIN_COMMANDS : cstr :=
  lit ("SELECT data FROM messages WHERE agent_uuid = $1 AND kind = 'command' " ++
       "AND (data->>'command' = 'pin' OR data->>'command' = 'unpin') ORDER BY id").

Definition ik_agent_replay_pins (agent : restored) : dbm DB restored :=
  do! fork_rows := tuples FORK_EVENT [Some (ra_uuid agent)] in
  do! agent := dlift (match fork_rows with
                      | [] => Ret agent
                      | _ =>
                          let! fork_json := PQgetvalue fork_rows 0 0 in
                          match yyjson_read fork_json with
                          | None => Ret agent
                          | Some root => replay_fork_event agent (Some root)
                          end
                      end) in
  do! cmd_rows := tuples PIN_COMMANDS [Some (ra_uuid agent)] in
  do! pins := dlift (replay_pin_rows cmd_rows (length cmd_rows) 0 (ra_pinned_paths agent)) in
  dret (with_ra_pins pins agent).

(** ** agent_restore_replay_toolset.c *)

Definition replay_toolset_command (agent : restored) (args : cstr) : outcome restored :=
  let! tools := parse_toolset args in Ret (with_ra_tools tools agent).

(** The slots shrink to the strings found. *)
Definition replay_toolset_from_json_array (agent : restored) (arr : option json) : outcome restored :=
  if (yyjson_arr_size arr =? 0)%nat then Ret (with_ra_tools [] agent)
  else
    match alloc_slots ([] : cstr) (wrap32 (yyjson_arr_size arr)) with
    | None => Ret (with_ra_tools [] agent)
    | Some slots =>
        let! tools := fill_strings slots 0 (yyjson_arr_elements arr) in
        match tools with
        | [] => Ret (with_ra_tools [] agent)
        | _ => Ret (with_ra_tools (default [] (realloc_slots tools (wrap32 (length tools)))) agent)
        end
    end.

Definition TOOLSET_COMMAND : cstr :=
  lit ("SELECT data FROM messages WHERE agent_uuid = $1   AND kind = 'command'   AND data->>'command' = 'toolset' " ++
       "ORDER BY created_at DESC LIMIT 1").

Definition FORK_TOOLSET : cstr :=
  lit "SELECT data FROM messages WHERE agent_uuid = $1   AND kind = 'fork' ORDER BY created_at ASC LIMIT 1".

(** A query whose failure counts as no rows. *)
Definition rows_or_none (query : cstr) (params : list (option cstr)) : dbm DB (list (list (option cstr))) :=
  fun d => let '(r, d) := pq_exec_params query params d in
           (Ret (match r with PGRES_TUPLES_OK rows => rows | _ => [] end), d).

Definition ik_agent_replay_toolset (agent : restored) : dbm DB restored :=
  do! cmd_rows := tuples TOOLSET_COMMAND [Some (ra_uuid agent)] in
  match cmd_rows with
  | _ :: _ =>
      dlift (let! data_json := PQgetvalue cmd_rows 0 0 in
             match yyjson_read data_json with
             | None => Ret agent
             | Some root =>
                 match yyjson_get_str (yyjson_obj_get (Some root) (lit "args")) with
                 | Some args_str => replay_toolset_command agent args_str
                 | None => Ret agent
                 end
             end)
  | [] =>
      match ra_parent_uuid agent with
      | None => dret agent
      | Some _ =>
          do! fork_rows := rows_or_none FORK_TOOLSET [Some (ra_uuid agent)] in
          dlift (match fork_rows with
                 | [] => Ret agent
                 | _ =>
                     let! fork_data := PQgetvalue fork_rows 0 0 in
                     match yyjson_read fork_data with
                     | None => Ret agent
                     | Some fork_root =>
                         let toolset_arr := yyjson_obj_get (Some fork_root) (lit "toolset_filter") in
                         if yyjson_is_arr toolset_arr then replay_toolset_from_json_array agent toolset_arr else Ret agent
                     end
                 end)
      end
  end.

(** What a restart does with the settings: both replays, one after the other. *)
Definition replay_settings (agent : restored) : dbm DB restored :=
  do! agent := ik_agent_replay_pins agent in ik_agent_replay_toolset agent.

End restore.

(** ** What the statements do

    Documented behaviour of the server for the statements used here.  A [data]
    column has type jsonb: it takes JSON text and gives back text with the same
    members. *)

Definition member (data : option cstr) (k : string) `{!Yyjson} : option cstr :=
  match data with
  | Some text => yyjson_get_str (yyjson_obj_get (yyjson_read text) (lit k))
  | None => None
  end.

(** Members of recorded commands: text, or null. *)
Definition field_value (v : option cstr) : json := match v with Some s => JStr s | None => JNull end.
Definition object_of (members : list (cstr * option cstr)) : json :=
  JObj ((fun m => (fst m, field_value (snd m))) <$> members).

(** Text without quotes, backslashes and control characters. *)
Definition plain_char (c : Z) : bool := (32 <=? c)%Z && (c <? 127)%Z && negb (c =? 34)%Z && negb (c =? 92)%Z.
Definition plain (s : cstr) : bool := forallb plain_char s.
Definition plain_member (m : cstr * option cstr) : bool := plain (fst m) && match snd m with Some s => plain s | None => true end.

Definition member_text (m : cstr * option cstr) : cstr :=
  quoted_text (fst m) ++ lit ":" ++ match snd m with Some s => quoted_text s | None => lit "null" end.

(** The members after the first, each after a comma. *)
Definition object_text (m : cstr * option cstr) (members : list (cstr * option cstr)) : cstr :=
  lit "{" ++ member_text m ++ mjoin ((fun m => lit "," ++ member_text m) <$> members) ++ lit "}".

(** Reading an object whose members need no escapes. *)
Class ReadsPlain `{!Yyjson} : Prop :=
  read_plain m members : forallb plain_member (m :: members) = true ->
    yyjson_read (object_text m members) = Some (object_of (m :: members)).

Section command_queries.
Context `{!Yyjson}.

Definition is_command (name : string) (r : message_row) : Prop :=
  kind (row_msg r) = lit "command" /\ member (data_json (row_msg r)) "command" = Some (lit name).
#[export] Instance is_command_dec name r : Decision (is_command name r).
Proof. unfold is_command. apply _. Defined.

Definition is_fork (r : message_row) : Prop := kind (row_msg r) = lit "fork".
#[export] Instance is_fork_dec r : Decision (is_fork r).
Proof. unfold is_fork. apply _. Defined.

Definition data_column (r : message_row) : list (option cstr) := [data_json (row_msg r)].

Definition pin_rows (u : cstr) (l : list message_row) : list message_row :=
  filter (fun r => row_agent r = u /\ (is_command "pin" r \/ is_command "unpin" r)) l.
Definition toolset_rows (u : cstr) (l : list message_row) : list message_row :=
  filter (fun r => row_agent r = u /\ is_command "toolset" r) l.
Definition fork_rows (u : cstr) (l : list message_row) : list message_row :=
  filter (fun r => row_agent r = u /\ is_fork r) l.

Class CommandQueries (DB : Type) `{!Libpq DB} `{!Tables DB} : Prop := {
  insert_message sid u k c data members d :
    yyjson_read data = Some (object_of members) -> NoDup (fst <$> members) ->
    exists n d' id data' o', pq_exec_params INSERT_MESSAGE [Some sid; Some u; Some k; c; Some data] d = (PGRES_COMMAND_OK n, d') /\
      messages_of d' = messages_of d ++ [mk_row id u (mk_msg k c (Some data'))] /\
      yyjson_read data' = Some (JObj o') /\
      forall key v, (key, v) ∈ members -> find_field o' key = Some (field_value v);
  select_pins u d : pq_exec_params PIN_COMMANDS [Some u] d = (PGRES_TUPLES_OK (data_column <$> pin_rows u (messages_of d)), d);
  select_toolset u d :
    pq_exec_params TOOLSET_COMMAND [Some u] d =
    (PGRES_TUPLES_OK (data_column <$> option_list (last (toolset_rows u (messages_of d)))), d);
  select_fork u d :
    pq_exec_params FORK_EVENT [Some u] d = (PGRES_TUPLES_OK (data_column <$> option_list (head (fork_rows u (messages_of d)))), d);
  select_fork_toolset u d :
    pq_exec_params FORK_TOOLSET [Some u] d = (PGRES_TUPLES_OK (data_column <$> option_list (head (fork_rows u (messages_of d)))), d)
}.

End command_queries.

(** ** The list of pins *)

Definition pinned (pins : list cstr) (p : cstr) : list cstr := if existsb (fun q => strcmp_eq q p) pins then pins else pins ++ [p].
Definition unpinned (pins : list cstr) (p : cstr) : list cstr :=
  match find_path pins p with Some i => delete i pins | None => pins end.

Lemma has_path pins p : existsb (fun q => strcmp_eq q p) pins = true <-> p ∈ pins.
Proof.
  rewrite existsb_exists. split.
  - intros (q & Hq & ->%strcmp_eq_true). by apply list_elem_of_In.
  - intros Hp. exists p. split; [by apply list_elem_of_In|apply strcmp_eq_refl].
Qed.

Lemma find_path_some pins p i : find_path pins p = Some i -> exists l r, pins = l ++ p :: r /\ length l = i.
Proof.
  unfold find_path. destruct (list_find _ pins) as [[j q]|] eqn:E; [|done]. intros [= ->].
  apply list_find_Some in E as (Ei & Eq & _). apply Is_true_true, strcmp_eq_true in Eq as ->. exists (take i pins), (drop (S i) pins).
  split; [by rewrite take_drop_middle|]. apply lookup_lt_Some in Ei. rewrite length_take. lia.
Qed.

Lemma find_path_none pins p : find_path pins p = None <-> p ∉ pins.
Proof.
  unfold find_path. destruct (list_find _ pins) as [[j q]|] eqn:E; cbn [fmap option_fmap option_map].
  - apply list_find_Some in E as (Ei & Eq & _). apply Is_true_true, strcmp_eq_true in Eq as ->. split; [done|].
    intros []. by apply list_elem_of_lookup_2 in Ei.
  - apply list_find_None in E. split; [|done]. intros _ Hp. rewrite Forall_forall in E. apply (E p Hp). apply Is_true_true, strcmp_eq_refl.
Qed.

Lemma pinned_twice pins p : pinned (pinned pins p) p = pinned pins p.
Proof.
  assert (p ∈ pinned pins p) as Hp.
  { unfold pinned. destruct (existsb _ pins) eqn:E; [by apply has_path|]. apply elem_of_app. right. by left. }
  unfold pinned at 1. by rewrite (proj2 (has_path _ _) Hp).
Qed.

Lemma unpinned_gone pins p : NoDup pins -> p ∉ unpinned pins p.
Proof.
  intros Hn. unfold unpinned. destruct (find_path pins p) as [i|] eqn:E; [|by apply find_path_none].
  apply find_path_some in E as (l & r & -> & <-). rewrite delete_middle. apply NoDup_app in Hn as (_ & Hl & Hr).
  apply NoDup_cons in Hr as [Hr _]. intros [Hp|Hp]%elem_of_app; [|done]. apply (Hl p Hp). by left.
Qed.

Lemma unpinned_twice pins p : NoDup pins -> unpinned (unpinned pins p) p = unpinned pins p.
Proof. intros Hn. unfold unpinned at 1. by rewrite (proj2 (find_path_none _ _) (unpinned_gone pins p Hn)). Qed.

Lemma pinned_nodup pins p : NoDup pins -> NoDup (pinned pins p).
Proof.
  intros Hn. unfold pinned. destruct (existsb _ pins) eqn:E; [done|]. apply NoDup_app. split; [done|].
  split; [|apply NoDup_singleton]. intros q Hq ->%list_elem_of_singleton. apply has_path in Hq. congruence.
Qed.

Lemma unpinned_nodup pins p : NoDup pins -> NoDup (unpinned pins p).
Proof. intros Hn. unfold unpinned. destruct (find_path pins p); [|done]. eapply sublist_NoDup; [exact Hn|apply sublist_delete]. Qed.

Section pin_lemmas.
Context `{!SlotAllocator} `{!SlotAllocatorSpec}.

Definition few (pins : list cstr) : Prop := (Z.of_nat (length pins) < 2 ^ 30)%Z.

Lemma grown_by_one pins (p : cstr) : few pins ->
  exists slots, realloc_slots pins (wrap32 (length pins + 1)) = Some slots /\ arr_set (length pins) p slots = Ret (pins ++ [p]).
Proof.
  unfold few. intros Hb. rewrite wrap32_small by lia. destruct (realloc_slots_some pins (length pins + 1)) as (rest & -> & Hl); [lia|].
  rewrite length_app in Hl. destruct rest as [|x [|y rest]]; cbn [length] in Hl; try lia.
  eexists. split; [done|]. rewrite arr_set_end by done. cbn [drop]. by rewrite app_nil_r.
Qed.

Lemma replay_pin_ok pins p : few pins -> replay_pin_command pins p = Ret (pinned pins p).
Proof.
  intros Hb. unfold replay_pin_command, pinned. destruct (existsb _ pins); [done|].
  by destruct (grown_by_one pins p Hb) as (slots & -> & E).
Qed.

Lemma add_path_ok pins p : few pins -> add_path pins p = Ret (pins ++ [p]).
Proof. intros Hb. unfold add_path. by destruct (grown_by_one pins p Hb) as (slots & -> & E). Qed.

Lemma gap_closed pins p i : few pins -> find_path pins p = Some i ->
  exists slots, close_gap pins (length pins - 1 - i) i = Ret slots /\ take (length pins - 1) slots = delete i pins /\
    (length pins - 1 = 0 -> delete i pins = []) /\ length pins - 1 <= length slots.
Proof.
  intros Hb (l & r & -> & <-)%find_path_some. rewrite delete_middle, length_app. cbn [length].
  replace (length l + S (length r) - 1 - length l) with (length r) by lia. pose proof (close_gap_ok l p r []) as E.
  rewrite app_nil_r in E. rewrite E. eexists. split; [done|]. replace (length l + S (length r) - 1) with (length (l ++ r)) by len_lia.
  split; [rewrite app_assoc; by rewrite take_app_length|]. split; [|len_lia]. apply length_zero_iff_nil.
Qed.

Lemma remove_path_ok pins p i : few pins -> find_path pins p = Some i -> remove_path pins i = Ret (unpinned pins p).
Proof.
  intros Hb Hi. unfold remove_path, unpinned. rewrite Hi. destruct (gap_closed pins p i Hb Hi) as (slots & -> & Et & E0 & Hl). cbn [obind].
  destruct (Nat.eqb_spec (length pins - 1) 0) as [E|E]; [by rewrite E0|].
  unfold few in Hb. rewrite wrap32_small, realloc_slots_shrink, Et by lia. done.
Qed.

Lemma replay_unpin_ok pins p : few pins -> replay_unpin_command pins p = Ret (unpinned pins p).
Proof.
  intros Hb. unfold replay_unpin_command. destruct (find_path pins p) as [i|] eqn:Hi; [|by unfold unpinned; rewrite Hi].
  rewrite <- (remove_path_ok pins p i Hb Hi). unfold remove_path.
  destruct (gap_closed pins p i Hb Hi) as (slots & -> & Et & E0 & Hl). cbn [obind]. destruct (length pins - 1 =? 0)%nat; [done|].
  unfold few in Hb. by rewrite wrap32_small, realloc_slots_shrink by lia.
Qed.

End pin_lemmas.

(** ** The tool filter *)

Section tool_lemmas.
Context `{!SlotAllocator} `{!SlotAllocatorSpec}.

Lemma push_tokens_ok tokens : forall (g : growing cstr) l,
  grown_to g l -> (Z.of_nat (length l + length tokens) < 2 ^ 28)%Z ->
  exists g', push_tokens g tokens = Ret g' /\ grown_to g' (l ++ tokens).
Proof.
  induction tokens as [|t tokens IH]; intros g l Hg Hl; cbn [push_tokens length] in *; [exists g; by rewrite app_nil_r|].
  destruct (push_ok 16 g l t Hg ltac:(lia) ltac:(lia)) as (g1 & -> & Hg1). cbn [obind].
  destruct (IH g1 _ Hg1) as (g' & E & Hg'); [rewrite length_app; cbn [length]; lia|].
  exists g'. split; [exact E|]. by rewrite <- app_assoc in Hg'.
Qed.

Lemma parse_toolset_ok args : (Z.of_nat (length (strtok_tokens args [])) < 2 ^ 28)%Z -> parse_toolset args = Ret (strtok_tokens args []).
Proof.
  intros Hl. unfold parse_toolset. destruct (alloc_slots_some ([] : cstr) 16) as (slots & -> & Es). cbn [or_panic obind].
  destruct (push_tokens_ok (strtok_tokens args []) (mk_growing slots 0 16) []) as (g & -> & Hg).
  { rewrite <- Es. apply grown_nil. lia. }
  { exact Hl. }
  cbn [app obind] in *. rewrite (grown_used _ _ Hg). destruct (Nat.eqb_spec (length (strtok_tokens args [])) 0) as [E|E].
  { by rewrite (length_zero_iff_nil (strtok_tokens args [])) in E; rewrite E. }
  destruct (grown_items _ _ Hg) as [rest Er]. rewrite Er, wrap32_small, realloc_slots_shrink by len_lia. cbn [or_panic].
  by rewrite take_app_length.
Qed.

Lemma tokens_short args : forall token, length (strtok_tokens args token) <= S (length args).
Proof.
  induction args as [|c args IH]; intros token; cbn [strtok_tokens length]; [by destruct token; cbn [length]; lia|].
  destruct ((c =? 32)%Z || (c =? 44)%Z); [|specialize (IH (token ++ [c])); lia].
  rewrite length_app. specialize (IH []). destruct token; cbn [length]; lia.
Qed.

End tool_lemmas.

(** ** What a query finds *)

Section query_lemmas.
Context `{!Yyjson} `{!SlotAllocator} {DB : Type} `{!Libpq DB} `{!Tables DB} `{!CommandQueries DB}.

(** A row that holds a recorded command. *)
Definition entry (u : cstr) (members : list (cstr * option cstr)) (r : message_row) : Prop :=
  row_agent r = u /\ kind (row_msg r) = lit "command" /\
  exists text o, data_json (row_msg r) = Some text /\ yyjson_read text = Some (JObj o) /\
    forall key v, (key, v) ∈ members -> find_field o key = Some (field_value v).

Definition row_text (r : message_row) : cstr := default [] (data_json (row_msg r)).

Fixpoint replay_each (l : list message_row) (pins : list cstr) : outcome (list cstr) :=
  match l with [] => Ret pins | r :: l => let! pins := replay_pin_row pins (row_text r) in replay_each l pins end.

Lemma replay_each_app l1 l2 pins :
  replay_each (l1 ++ l2) pins = obind (replay_each l1 pins) (replay_each l2).
Proof.
  revert pins. induction l1 as [|r l1 IH]; intros pins; cbn [replay_each app]; [done|].
  destruct (replay_pin_row pins (row_text r)); cbn [obind]; auto.
Qed.

Lemma column_value r l : PQgetvalue (data_column <$> r :: l) 0 0 = Ret (row_text r).
Proof. done. Qed.

Lemma replay_rows l : forall pre pins,
  replay_pin_rows (data_column <$> (pre ++ l)) (length l) (length pre) pins = replay_each l pins.
Proof.
  induction l as [|r l IH]; intros pre pins; cbn [replay_pin_rows replay_each length]; [done|].
  assert (PQgetvalue (data_column <$> (pre ++ r :: l)) (length pre) 0 = Ret (row_text r)) as ->.
  { unfold PQgetvalue. by rewrite list_lookup_fmap, list_lookup_middle. }
  cbn [obind]. destruct (replay_pin_row pins (row_text r)) as [pins'| | | |]; cbn [obind]; try done.
  specialize (IH (pre ++ [r]) pins'). by rewrite length_app, Nat.add_1_r, <- app_assoc in IH.
Qed.

(** The fork event on a fresh agent, and the tool filter after it. *)
Definition fork_settings (fork : option message_row) (a : restored) : outcome restored :=
  match fork with
  | None => Ret a
  | Some r => match yyjson_read (row_text r) with None => Ret a | Some root => replay_fork_event a (Some root) end
  end.

Definition toolset_settings (cmd fork : option message_row) (a : restored) : outcome restored :=
  match cmd with
  | Some r =>
      match yyjson_read (row_text r) with
      | None => Ret a
      | Some root =>
          match yyjson_get_str (yyjson_obj_get (Some root) (lit "args")) with
          | Some args => replay_toolset_command a args
          | None => Ret a
          end
      end
  | None =>
      match ra_parent_uuid a, fork with
      | Some _, Some r =>
          match yyjson_read (row_text r) with
          | None => Ret a
          | Some root =>
              let arr := yyjson_obj_get (Some root) (lit "toolset_filter") in
              if yyjson_is_arr arr then replay_toolset_from_json_array a arr else Ret a
          end
      | _, _ => Ret a
      end
  end.

Lemma fork_event_keeps_uuid a root a' : replay_fork_event a root = Ret a' -> ra_uuid a' = ra_uuid a.
Proof.
  assert (forall b v b', replay_fork_toolset b v = Ret b' -> ra_uuid b' = ra_uuid b) as Ht.
  { intros b v b'. unfold replay_fork_toolset. destruct (negb _); [by intros [= <-]|].
    intros (tools & _ & [= <-])%obind_Ret_inv. done. }
  unfold replay_fork_event. destruct (match yyjson_get_str _ with Some _ => _ | None => _ end); [by intros [= <-]|].
  destruct (yyjson_is_arr _); [|apply Ht]. intros (pins & _ & E)%obind_Ret_inv.
  destruct pins as [pins|]; [by apply Ht in E|by injection E as <-].
Qed.

Lemma toolset_ignores_pins cmd fork a p :
  toolset_settings cmd fork (with_ra_pins p a) = let! b := toolset_settings cmd fork a in Ret (with_ra_pins p b).
Proof.
  unfold toolset_settings, replay_toolset_command, replay_toolset_from_json_array. cbn [ra_parent_uuid with_ra_pins].
  repeat (case_match; cbn [obind]; try done).
  - by destruct (parse_toolset _).
  - destruct (fill_strings _ _ _) as [[|? ?]| | | |]; done.
Qed.

Lemma toolset_keeps_pins cmd fork a b : toolset_settings cmd fork a = Ret b -> ra_pinned_paths b = ra_pinned_paths a.
Proof.
  intros E. pose proof (toolset_ignores_pins cmd fork a (ra_pinned_paths a)) as E2.
  replace (with_ra_pins (ra_pinned_paths a) a) with a in E2 by (by destruct a). rewrite E in E2. cbn [obind] in E2.
  exact (f_equal (fun o => match o with Ret x => ra_pinned_paths x | _ => [] end) E2).
Qed.

Lemma replay_settings_eq a d :
  replay_settings a d =
  ((let! a1 := fork_settings (head (fork_rows (ra_uuid a) (messages_of d))) a in
    let! pins := replay_each (pin_rows (ra_uuid a) (messages_of d)) (ra_pinned_paths a1) in
    toolset_settings (last (toolset_rows (ra_uuid a) (messages_of d))) (head (fork_rows (ra_uuid a) (messages_of d))) (with_ra_pins pins a1)), d).
Proof.
  unfold replay_settings, ik_agent_replay_pins, dbind, tuples, dlift, dret. rewrite select_fork. set (fork := head _).
  assert ((match data_column <$> option_list fork with
           | [] => Ret a
           | _ => let! fork_json := PQgetvalue (data_column <$> option_list fork) 0 0 in
                  match yyjson_read fork_json with None => Ret a | Some root => replay_fork_event a (Some root) end
           end) = fork_settings fork a) as -> by (by destruct fork).
  destruct (fork_settings fork a) as [a1| | | |] eqn:Ef; cbn [obind]; try done.
  assert (ra_uuid a1 = ra_uuid a) as Eu.
  { unfold fork_settings in Ef. destruct fork; [|by injection Ef as <-]. destruct (yyjson_read _); [|by injection Ef as <-].
    by apply fork_event_keeps_uuid in Ef. }
  rewrite Eu, select_pins, length_fmap. pose proof (replay_rows (pin_rows (ra_uuid a) (messages_of d)) [] (ra_pinned_paths a1)) as Er.
  cbn [app length] in Er. rewrite Er. destruct (replay_each _ _) as [pins| | | |]; cbn [obind]; try done.
  unfold ik_agent_replay_toolset, dbind, tuples, dlift, dret. cbn [ra_uuid with_ra_pins]. rewrite Eu, select_toolset.
  destruct (last _) as [r|]; [done|]. change (data_column <$> option_list None) with (@nil (list (option cstr))).
  cbv beta iota. unfold toolset_settings. destruct (ra_parent_uuid _); [|done].
  unfold rows_or_none. rewrite select_fork_toolset. fold fork. by destruct fork.
Qed.

End query_lemmas.

(** ** Recorded commands in the queries *)

Definition named (name : string) : cstr * option cstr := (lit "command", Some (lit name)).
Definition argument (p : cstr) : cstr * option cstr := (lit "args", Some p).

Lemma plain_no_nul s : plain s = true -> (0%Z ∉ s).
Proof.
  unfold plain. rewrite forallb_forall. intros Hs Hin. apply list_elem_of_In, Hs in Hin. done.
Qed.

Section entry_lemmas.
Context `{!Yyjson} `{!SlotAllocator} `{!SlotAllocatorSpec} {DB : Type} `{!Libpq DB} `{!Tables DB} `{!CommandQueries DB}.

Lemma entry_member u members r k v : entry u members r -> (lit k, Some v) ∈ members -> (0%Z ∉ v) ->
  member (data_json (row_msg r)) k = Some v.
Proof.
  intros (_ & _ & text & o & Ed & Er & Hf) Hin Hv. unfold member. rewrite Ed, Er. cbn [yyjson_obj_get].
  apply get_str_lit; [|done]. apply (Hf _ _ Hin).
Qed.

Lemma entry_command u members r name n :
  entry u members r -> named name ∈ members -> plain (lit name) = true -> is_command n r <-> lit name = lit n.
Proof.
  intros He Hn Hp. pose proof (entry_member u members r "command" (lit name) He Hn (plain_no_nul _ Hp)) as Em.
  unfold is_command. rewrite Em. destruct He as (_ & Ek & _). rewrite Ek. split; [by intros [_ [= ?]]|by intros ->].
Qed.

Lemma replay_entry u members r name p pins :
  entry u members r -> named name ∈ members -> argument p ∈ members -> plain (lit name) = true -> plain p = true ->
  replay_pin_row pins (row_text r) =
  (if strcmp_eq (lit name) (lit "pin") then replay_pin_command pins p
   else if strcmp_eq (lit name) (lit "unpin") then replay_unpin_command pins p else Ret pins).
Proof.
  intros He Hn Ha Hp1 Hp2. pose proof (entry_member u members r "command" _ He Hn (plain_no_nul _ Hp1)) as E1.
  pose proof (entry_member u members r "args" _ He Ha (plain_no_nul _ Hp2)) as E2.
  destruct He as (_ & _ & text & o & Ed & Er & _). unfold member in E1, E2. unfold replay_pin_row, row_text. rewrite Ed in *.
  cbn [default] in *. unfold id. rewrite Er in *. by rewrite E1, E2.
Qed.

Lemma filter_all {A} (P : A -> Prop) `{!forall x, Decision (P x)} l : Forall P l -> filter P l = l.
Proof. induction 1 as [|x l Hx _ IH]; [done|]. rewrite filter_cons_True by done. by rewrite IH. Qed.

Definition command_entry (u : cstr) (name : string) (p : cstr) (r : message_row) : Prop :=
  exists extra, entry u (named name :: argument p :: extra) r.

(** The same command recorded one or more times. *)
Section recorded.
Context (u : cstr) (name : string) (rows : list message_row) (p : cstr).
Context (Hrows : Forall (command_entry u name p) rows).
Context (Hname : plain (lit name) = true) (Hp : plain p = true).

Lemma recorded_command n r : command_entry u name p r -> is_command n r <-> lit name = lit n.
Proof. intros [extra He]. eapply entry_command; [exact He|by left|done]. Qed.

Lemma recorded_is n : lit name = lit n -> Forall (fun r => row_agent r = u /\ is_command n r) rows.
Proof.
  intros En. eapply Forall_impl; [exact Hrows|]. intros r Hr. split; [by destruct Hr as (? & ? & _)|by apply (recorded_command n)].
Qed.

Lemma recorded_is_not n : lit name <> lit n -> Forall (fun r => ~ is_command n r) rows.
Proof. intros En. eapply Forall_impl; [exact Hrows|]. intros r Hr ?%(recorded_command n); done. Qed.

Lemma recorded_no_fork l : fork_rows u (l ++ rows) = fork_rows u l.
Proof.
  unfold fork_rows. rewrite filter_app, (filter_nothing _ rows); [apply app_nil_r|].
  eapply Forall_impl; [exact Hrows|]. intros r (extra & _ & Ek & _) [_ Hk]. unfold is_fork in Hk. rewrite Ek in Hk. by vm_compute in Hk.
Qed.

Definition recorded_step (pins : list cstr) : outcome (list cstr) :=
  if strcmp_eq (lit name) (lit "pin") then replay_pin_command pins p
  else if strcmp_eq (lit name) (lit "unpin") then replay_unpin_command pins p else Ret pins.

(** Once or twice is the same. *)
Lemma replay_recorded pins pins' :
  rows <> [] -> recorded_step pins = Ret pins' -> recorded_step pins' = Ret pins' -> replay_each rows pins = Ret pins'.
Proof.
  assert (forall r q, command_entry u name p r -> replay_pin_row q (row_text r) = recorded_step q) as Hstep.
  { intros r q [extra Hr]. apply (replay_entry u _ r name p q Hr); first [by left|by right; left|done]. }
  intros Hne E1 E2. destruct Hrows as [|r l Hr Hl]; [done|]. cbn [replay_each]. rewrite (Hstep r _ Hr), E1. cbn [obind].
  clear Hr Hne E1 Hrows. induction Hl as [|q l Hq _ IH]; cbn [replay_each]; [done|]. rewrite (Hstep q _ Hq), E2. exact IH.
Qed.

End recorded.
End entry_lemmas.

(** ** The commands *)

Lemma plain_app a b : plain (a ++ b) = plain a && plain b.
Proof. apply forallb_app. Qed.

Section command_lemmas.
Context `{!AnsiColors} `{!Screen} `{!ScreenSpec} `{!Lines} `{!Yyjson} `{!ReadsPlain} `{!SlotAllocator} `{!SlotAllocatorSpec}
  {DB : Type} `{!Libpq DB} `{!Tables DB} `{!CommandQueries DB}.
Context (paths : ik_paths) (fs : files).

Lemma line_appended text (s : session (DB := DB)) : exists sb, append_line text s = Ret (None, with_scrollback sb s).
Proof. unfold append_line. destruct (screen_append_some (scrollback s) text) as [sb ->]. by exists sb. Qed.

(** The session after some rows were recorded for its agent. *)
Record recorded_in (s s' : session (DB := DB)) (name : string) (p : cstr) (rows : list message_row) : Prop := {
  rec_db : exists d d', db_ctx s = Some d /\ db_ctx s' = Some d' /\ messages_of d' = messages_of d ++ rows;
  rec_session : session_id s' = session_id s;
  rec_agent : agent_uuid s' = agent_uuid s;
  rec_entries : Forall (command_entry (agent_uuid s) name p) rows
}.

Lemma recorded_trans s1 s2 s3 name p rows1 rows2 :
  recorded_in s1 s2 name p rows1 -> recorded_in s2 s3 name p rows2 -> recorded_in s1 s3 name p (rows1 ++ rows2).
Proof.
  intros [(d1 & d2 & E1 & E2 & Em1) Es1 Ea1 Hr1] [(d2' & d3 & E2' & E3 & Em2) Es2 Ea2 Hr2].
  rewrite E2 in E2'. injection E2' as <-. constructor; [exists d1, d3; by rewrite Em2, Em1, app_assoc|congruence|congruence|].
  apply Forall_app. split; [done|]. by rewrite <- Ea1.
Qed.

Lemma record_ok content m members (s : session (DB := DB)) d :
  db_ctx s = Some d -> (0 < session_id s)%Z -> forallb plain_member (m :: members) = true -> NoDup (fst <$> m :: members) ->
  exists d' r, record content (object_text m members) s = Ret (with_db (Some d') s) /\
    messages_of d' = messages_of d ++ [r] /\ entry (agent_uuid s) (m :: members) r.
Proof.
  intros Ed Hs Hp Hn. pose proof (read_plain m members Hp) as Er. unfold record, ik_db_message_insert, asserting. rewrite Ed.
  rewrite (proj2 (Z.ltb_lt _ _) Hs). replace (ik_db_message_is_valid_kind (Some (lit "command"))) with true by (vm_compute; reflexivity).
  cbn [andb]. unfold command_, dbind, command.
  destruct (insert_message (show_int (session_id s)) (agent_uuid s) (lit "command") content _ (m :: members) d Er Hn)
    as (n & d' & id & data' & o' & -> & Em & Er' & Hf).
  exists d', (mk_row id (agent_uuid s) (mk_msg (lit "command") content (Some data'))).
  split; [done|]. split; [exact Em|]. split; [done|]. split; [done|]. by exists data', o'.
Qed.

Definition echoed (input : cstr) : list (cstr * option cstr) := [(lit "echo", Some input)].

Lemma command_json_text name p : command_json (lit name) p = object_text (named name) [argument p].
Proof. unfold command_json, object_text, command_field, named, argument, member_text. cbn [fst snd fmap list_fmap mjoin list_join]. by rewrite !app_nil_r, <- !app_assoc. Qed.

Lemma dispatch_json_text name p input :
  dispatch_json (lit name) (Some p) input = object_text (named name) (argument p :: echoed input).
Proof.
  unfold dispatch_json, object_text, command_field, named, argument, echoed, member_text.
  cbn [fst snd fmap list_fmap mjoin list_join]. by rewrite !app_nil_r, <- !app_assoc.
Qed.

Definition ready (s : session (DB := DB)) : Prop := (exists d, db_ctx s = Some d) /\ (0 < session_id s)%Z.

Lemma plain_text k v l : forallb plain_member ((lit k, Some v) :: l) = plain (lit k) && plain v && forallb plain_member l.
Proof. done. Qed.

Lemma plain_names name p : plain (lit name) = true -> plain p = true -> forallb plain_member [named name; argument p] = true.
Proof. intros Hn Hp. unfold named, argument. rewrite !plain_text. by rewrite Hn, Hp. Qed.

Lemma keys_distinct : NoDup [lit "command"; lit "args"; lit "echo"].
Proof. apply (bool_decide_unpack _). vm_compute. exact I. Qed.

Lemma pin_recorded name p s : ready s -> plain (lit name) = true -> plain p = true ->
  exists d' rows, ik_persist_pin_command (lit name) p s = Ret (with_db (Some d') s) /\
    recorded_in s (with_db (Some d') s) name p rows.
Proof.
  intros [[d Ed] Hs] Hn Hp. unfold ik_persist_pin_command. rewrite (proj2 (Z.eqb_neq _ _)), command_json_text by lia.
  destruct (record_ok None (named name) [argument p] s d Ed Hs) as (d' & r & -> & Em & He).
  { by apply plain_names. }
  { eapply sublist_NoDup; [apply keys_distinct|]. do 2 apply sublist_skip. apply sublist_nil_l. }
  exists d', [r]. split; [done|]. constructor; [by exists d, d'|done|done|]. apply Forall_singleton. by exists [].
Qed.

Lemma dispatch_recorded input name p n s : ready s -> plain (lit name) = true -> plain p = true -> plain input = true ->
  exists d' rows, ik_cmd_persist_to_db input (lit name) (Some p) n s = Ret (with_db (Some d') s) /\ rows <> [] /\
    recorded_in s (with_db (Some d') s) name p rows.
Proof.
  intros [[d Ed] Hs] Hn Hp Hi. unfold ik_cmd_persist_to_db. rewrite (proj2 (Z.leb_gt _ _)), dispatch_json_text by lia.
  destruct (record_ok (command_output n s) (named name) (argument p :: echoed input) s d Ed Hs) as (d' & r & -> & Em & He).
  { unfold named, argument, echoed. rewrite !plain_text. by rewrite Hn, Hp, Hi. }
  { exact keys_distinct. }
  exists d', [r]. split; [done|]. split; [done|]. constructor; [by exists d, d'|done|done|].
  apply Forall_singleton. by exists (echoed input).
Qed.

(** What a handler leaves: the rows it recorded and the settings. *)
Definition leaves (s : session (DB := DB)) (name : string) (p : cstr) (pins tools : list cstr) (r : outcome (option err_code * session)) : Prop :=
  exists s' rows, r = Ret (None, s') /\ recorded_in s s' name p rows /\ pinned_paths s' = pins /\ toolset_filter s' = tools.

(** Changes of the other fields do not matter. *)
Lemma recorded_nothing (s s' : session (DB := DB)) name p : ready s ->
  db_ctx s' = db_ctx s -> session_id s' = session_id s -> agent_uuid s' = agent_uuid s -> recorded_in s s' name p [].
Proof. intros [[d Ed] _] E Es Ea. constructor; [exists d, d; by rewrite app_nil_r, E|done|done|done]. Qed.

Lemma ready_after (s s' : session (DB := DB)) name p rows : ready s -> recorded_in s s' name p rows -> ready s'.
Proof. intros [_ Hs] [(d & d' & _ & E & _) Es _ _]. split; [by exists d'|by rewrite Es]. Qed.

Lemma look_up_keeps p (s s1 : session (DB := DB)) b : look_up paths fs p s = Ret (b, s1) -> exists c, s1 = with_cache c s.
Proof.
  unfold look_up. intros E. repeat case_match; simplify_eq; try (by eexists).
  all: exists (doc_cache s1); by destruct s1.
Qed.

Lemma pin_leaves p (s : session (DB := DB)) s1 : ready s -> plain p = true -> few (pinned_paths s) -> look_up paths fs p s = Ret (true, s1) ->
  leaves s "pin" p (pinned (pinned_paths s) p) (toolset_filter s) (ik_cmd_pin paths fs (Some p) s).
Proof.
  intros Hr Hp Hf Hl. cbn [ik_cmd_pin]. unfold ik_cmd_pin_add. rewrite Hl. cbn [obind negb].
  destruct (look_up_keeps _ _ _ _ Hl) as [c ->]. cbn [pinned_paths with_cache]. unfold pinned.
  destruct (existsb _ _); [|rewrite add_path_ok by done; cbn [obind]].
  all: match goal with |- context[append_line ?t ?x] => destruct (line_appended t x) as [sb ->] end; cbn [and_then obind].
  all: match goal with |- context[ik_persist_pin_command _ _ ?x] =>
         destruct (pin_recorded "pin" p x) as (d' & rows & -> & Hrec); [exact Hr|done|done|] end; cbn [obind].
  all: eexists _, rows; split; [reflexivity|]; split; [|done].
  all: by destruct Hrec.
Qed.

Lemma unpin_leaves p (s : session (DB := DB)) : ready s -> plain p = true -> few (pinned_paths s) ->
  leaves s "unpin" p (unpinned (pinned_paths s) p) (toolset_filter s) (ik_cmd_unpin (Some p) s).
Proof.
  intros Hr Hp Hf. cbn [ik_cmd_unpin]. destruct (find_path _ _) as [i|] eqn:Ei.
  - rewrite (remove_path_ok _ _ _ Hf Ei). cbn [obind].
    match goal with |- context[append_line ?t ?x] => destruct (line_appended t x) as [sb ->] end; cbn [and_then obind].
    match goal with |- context[ik_persist_pin_command _ _ ?x] =>
         destruct (pin_recorded "unpin" p x) as (d' & rows & -> & Hrec); [exact Hr|done|done|] end; cbn [obind].
    exists (with_db (Some d') (with_scrollback sb (with_pins (unpinned (pinned_paths s) p) s))), rows. split; [reflexivity|].
    split; [by destruct Hrec|done].
  - destruct (line_appended (lit "Not pinned: " ++ p) s) as [sb ->]. exists (with_scrollback sb s), [].
    split; [done|]. split; [by apply recorded_nothing|]. split; [|done]. unfold unpinned. by rewrite Ei.
Qed.

Lemma toolset_leaves args (s : session (DB := DB)) : ready s -> plain args = true -> (Z.of_nat (length args) < 2 ^ 27)%Z ->
  leaves s "toolset" args (pinned_paths s) (strtok_tokens args []) (ik_cmd_toolset (Some args) s).
Proof.
  intros Hr Hp Hl. cbn [ik_cmd_toolset]. unfold ik_cmd_toolset_set. pose proof (tokens_short args []) as Ht.
  rewrite parse_toolset_ok by lia. cbn [obind]. change (ik_persist_toolset_command args) with (ik_persist_pin_command (DB := DB) (lit "toolset") args).
  match goal with |- context[ik_persist_pin_command _ _ ?x] =>
         destruct (pin_recorded "toolset" args x) as (d' & rows & -> & Hrec); [exact Hr|done|done|] end; cbn [obind].
  exists (with_db (Some d') (with_tools (strtok_tokens args []) s)), rows. split; [reflexivity|]. split; [by destruct Hrec|done].
Qed.

(** ** Dispatching *)

Definition typed (name : string) (p : cstr) : cstr := lit "/" ++ lit name ++ lit " " ++ p.

(** An argument as it is left after the spaces before it. *)
Definition argument_text (p : cstr) : bool := plain p && match p with c :: _ => negb (c =? 32)%Z | [] => false end.

Lemma argument_unspaced p : argument_text p = true -> skip_spaces p = p /\ p <> [].
Proof.
  destruct p as [|c p]; [done|]. unfold argument_text, plain. cbn [forallb]. unfold plain_char. intros Hp. split; [|done]. cbn [skip_spaces].
  apply andb_true_iff in Hp as [Hp Hc%negb_true_iff]. repeat (apply andb_true_iff in Hp as [Hp _]). apply Z.leb_le in Hp.
  rewrite Hc, (proj2 (Z.leb_gt c 13)) by lia. by rewrite andb_false_r.
Qed.

Lemma word_splits w r c : forallb (fun c => negb (is_c_space c)) w = true -> is_c_space c = true -> word (w ++ c :: r) = (w, c :: r).
Proof.
  intros Hw Hc. induction w as [|b w IH]; cbn [app word]; [by rewrite Hc|]. cbn [forallb] in Hw. apply andb_true_iff in Hw as [Hb Hw].
  apply negb_true_iff in Hb. by rewrite Hb, (IH Hw).
Qed.

Lemma skip_spaces_word w r : forallb (fun c => negb (is_c_space c)) w = true -> w <> [] -> skip_spaces (w ++ r) = w ++ r.
Proof.
  destruct w as [|b w]; [done|]. cbn [forallb app skip_spaces]. unfold is_c_space. intros Hb%andb_true_iff _.
  destruct Hb as [Hb%negb_true_iff _]. by rewrite Hb.
Qed.

Lemma dispatch_leaves other name p h pins tools (s : session (DB := DB)) :
  ready s -> argument_text p = true -> plain (lit name) = true -> lit name <> [] ->
  forallb (fun c => negb (is_c_space c)) (lit name) = true -> find_command (command_table paths fs other) (lit name) = Some h ->
  (forall sb, leaves (with_scrollback sb s) name p pins tools (h (Some p) (with_scrollback sb s))) ->
  exists s' rows, ik_cmd_dispatch paths fs other (typed name p) s = Ret (None, s') /\ recorded_in s s' name p rows /\ rows <> [] /\
    pinned_paths s' = pins /\ toolset_filter s' = tools.
Proof.
  intros Hr Hp Hn Hne Hw Hfind Hh. destruct (argument_unspaced p Hp) as [Hsp Hpne].
  assert (plain p = true) as Hpp by (by apply andb_true_iff in Hp as [Hp _]).
  unfold ik_cmd_dispatch, typed. change (lit "/" ++ lit name ++ lit " " ++ p) with (47%Z :: (lit name ++ 32%Z :: p)). cbn [Z.eqb Pos.eqb negb].
  rewrite (skip_spaces_word _ _ Hw Hne). destruct (lit name ++ 32%Z :: p) as [|c cs] eqn:Ec; [by destruct (lit name)|].
  rewrite <- Ec, (word_splits _ p 32 Hw eq_refl). cbn [skip_spaces Z.eqb Pos.eqb orb]. rewrite Hsp.
  replace (match p with [] => None | z :: l => Some (z :: l) end) with (Some p) by (by destruct p).
  destruct (line_appended (colored IK_OUTPUT_SLASH_CMD (47%Z :: lit name ++ 32%Z :: p)) s) as [sb ->]. cbn [and_then obind].
  destruct (line_appended [] (with_scrollback sb s)) as [sb' ->]. cbn [and_then obind]. rewrite Hfind.
  change (with_scrollback sb' (with_scrollback sb s)) with (with_scrollback sb' s).
  destruct (Hh sb') as (s1 & rows1 & -> & Hrec1 & Ep & Et). cbn [obind].
  assert (exists sb2, (if (length (screen_lines (scrollback (with_scrollback sb' s))) <? length (screen_lines (scrollback s1)))%nat
                       then append_line [] s1 else ok s1) = Ret (None, with_scrollback sb2 s1)) as [sb2 ->].
  { destruct (_ <? _)%nat; [apply line_appended|]. exists (scrollback s1). by destruct s1. }
  cbn [and_then obind].
  assert (ready s1) as Hr1 by (eapply ready_after; [|exact Hrec1]; exact Hr).
  match goal with |- context[ik_cmd_persist_to_db ?i _ _ ?n ?x] =>
    destruct (dispatch_recorded i name p n x) as (d' & rows2 & -> & Hne2 & Hrec2); [exact Hr1|done|done| |] end.
  { change (plain (lit "/" ++ lit name ++ lit " " ++ p) = true). by rewrite !plain_app, Hn, Hpp. }
  cbn [obind]. eexists _, (rows1 ++ rows2). split; [reflexivity|]. split; [|split; [|done]].
  - eapply (recorded_trans s s1); [by destruct Hrec1|by destruct Hrec2].
  - by destruct rows1.
Qed.

End command_lemmas.

(** ** Live settings and replayed settings *)

Inductive setting := Pin (path : cstr) | Unpin (path : cstr) | Toolset (args : cstr).

Definition setting_name (c : setting) : string := match c with Pin _ => "pin" | Unpin _ => "unpin" | Toolset _ => "toolset" end.
Definition setting_argument (c : setting) : cstr := match c with Pin p | Unpin p | Toolset p => p end.
Definition setting_pins (c : setting) (pins : list cstr) : list cstr :=
  match c with Pin p => pinned pins p | Unpin p => unpinned pins p | Toolset _ => pins end.
Definition setting_tools (c : setting) (tools : list cstr) : list cstr :=
  match c with Toolset args => strtok_tokens args [] | _ => tools end.

Lemma setting_names c : plain (lit (setting_name c)) = true /\ lit (setting_name c) <> [] /\
  forallb (fun c => negb (is_c_space c)) (lit (setting_name c)) = true.
Proof. by destruct c. Qed.

Section replayed_settings.
Context `{!Yyjson} `{!SlotAllocator} `{!SlotAllocatorSpec} {DB : Type} `{!Libpq DB} `{!Tables DB} `{!CommandQueries DB}.

(** Replaying the settings gives these, for an agent restored with them. *)
Definition replays_to (agent : restored) (pins tools : list cstr) (d : DB) : Prop :=
  exists a, replay_settings agent d = (Ret a, d) /\ ra_pinned_paths a = pins /\ ra_toolset_filter a = tools.

Lemma setting_few (c : setting) pins : (Z.of_nat (length pins) < 2 ^ 29)%Z -> few pins /\ few (setting_pins c pins).
Proof.
  unfold few. intros Hl. split; [lia|]. destruct c; cbn [setting_pins]; unfold pinned, unpinned; [| |lia].
  - destruct (existsb _ pins); rewrite ?length_app; cbn [length]; lia.
  - destruct (find_path _ _) as [i|]; [|lia]. pose proof (sublist_length _ _ (sublist_delete pins i)). lia.
Qed.

(** The recorded rows are those a query for their command finds. *)
Lemma toolset_found u args rows l : rows <> [] -> plain args = true -> Forall (command_entry u "toolset" args) rows ->
  exists r, last (toolset_rows u (l ++ rows)) = Some r /\ exists root, yyjson_read (row_text r) = Some root /\
    yyjson_get_str (yyjson_obj_get (Some root) (lit "args")) = Some args.
Proof.
  intros Hne Hp Hrows. unfold toolset_rows. rewrite filter_app, (filter_all _ rows) by (by apply (recorded_is u "toolset" rows args Hrows)).
  rewrite last_app. destruct (last rows) as [r|] eqn:Er; [|by apply last_None in Er]. exists r. split; [done|].
  apply last_Some in Er as [l' ->]. apply Forall_app in Hrows as [_ Hr]. apply Forall_inv in Hr as [extra He].
  pose proof (entry_member u _ r "args" args He ltac:(right; left) (plain_no_nul _ Hp)) as Ea.
  destruct He as (_ & _ & text & o & Ed & Eo & _). unfold member in Ea. unfold row_text. rewrite Ed in *. exists (JObj o).
  cbn [default]. unfold id. rewrite Eo in *. done.
Qed.

Lemma pins_found u c rows l : Forall (command_entry u (setting_name c) (setting_argument c)) rows ->
  match c with
  | Toolset _ => pin_rows u (l ++ rows) = pin_rows u l
  | _ => pin_rows u (l ++ rows) = pin_rows u l ++ rows /\ toolset_rows u (l ++ rows) = toolset_rows u l
  end.
Proof.
  intros Hrows. unfold pin_rows, toolset_rows. destruct c as [p|p|args]; cbn [setting_name setting_argument] in Hrows; rewrite !filter_app.
  1, 2: rewrite (filter_nothing (fun r => row_agent r = u /\ is_command "toolset" r) rows); [rewrite app_nil_r|].
  - rewrite (filter_all _ rows); [done|]. eapply Forall_impl; [by apply (recorded_is u "pin" rows p Hrows)|]. cbv beta. tauto.
  - eapply Forall_impl; [by apply (recorded_is_not u "pin" rows p Hrows eq_refl "toolset")|]. cbv beta. tauto.
  - rewrite (filter_all _ rows); [done|]. eapply Forall_impl; [by apply (recorded_is u "unpin" rows p Hrows)|]. cbv beta. tauto.
  - eapply Forall_impl; [by apply (recorded_is_not u "unpin" rows p Hrows eq_refl "toolset")|]. cbv beta. tauto.
  - rewrite (filter_nothing _ rows); [apply app_nil_r|].
    pose proof (recorded_is_not u "toolset" rows args Hrows eq_refl "pin" ltac:(done)) as Hn1.
    pose proof (recorded_is_not u "toolset" rows args Hrows eq_refl "unpin" ltac:(done)) as Hn2.
    eapply Forall_impl; [exact (proj2 (Forall_and _ _) (conj Hn1 Hn2))|]. cbv beta. tauto.
Qed.

Lemma setting_replayed (c : setting) agent pins tools d d' rows :
  replays_to agent pins tools d -> messages_of d' = messages_of d ++ rows -> rows <> [] ->
  Forall (command_entry (ra_uuid agent) (setting_name c) (setting_argument c)) rows -> plain (setting_argument c) = true ->
  NoDup pins -> (Z.of_nat (length pins) < 2 ^ 29)%Z -> (Z.of_nat (length (setting_argument c)) < 2 ^ 27)%Z ->
  replays_to agent (setting_pins c pins) (setting_tools c tools) d'.
Proof.
  intros (a & Ea & Ep & Et) Em Hne Hrows Hp Hn Hf Hl. destruct (setting_names c) as (Hname & _ & _).
  destruct (setting_few c pins Hf) as [Hfew Hfew']. pose proof (pins_found _ c rows (messages_of d) Hrows) as Hfound.
  unfold replays_to. rewrite replay_settings_eq in *. rewrite Em, (recorded_no_fork _ _ _ _ Hrows).
  injection Ea as Ea. apply obind_Ret_inv in Ea as (a1 & Ef & Ea). apply obind_Ret_inv in Ea as (pins0 & Er & Ea).
  assert (pins0 = pins) as -> by (rewrite <- Ep, (toolset_keeps_pins _ _ _ _ Ea); done).
  rewrite Ef. cbn [obind]. destruct c as [p|p|args]; cbn [setting_pins setting_tools setting_name setting_argument] in *.
  3: { rewrite Hfound, Er. cbn [obind]. destruct (toolset_found _ args rows (messages_of d) Hne Hp Hrows) as (r & -> & root & Eroot & Eargs).
    cbn [toolset_settings]. rewrite Eroot, Eargs. unfold replay_toolset_command. pose proof (tokens_short args []).
    rewrite parse_toolset_ok by lia. by eexists. }
  all: destruct Hfound as [-> ->]; rewrite replay_each_app, Er; cbn [obind].
  - rewrite (replay_recorded _ "pin" rows p Hrows Hname Hp pins (pinned pins p)); [|done|by apply replay_pin_ok|].
    + cbn [obind]. rewrite toolset_ignores_pins in Ea |- *. apply obind_Ret_inv in Ea as (b & -> & [= <-]). by eexists.
    + rewrite <- (pinned_twice pins p) at 2. by apply replay_pin_ok.
  - rewrite (replay_recorded _ "unpin" rows p Hrows Hname Hp pins (unpinned pins p)); [|done|by apply replay_unpin_ok|].
    + cbn [obind]. rewrite toolset_ignores_pins in Ea |- *. apply obind_Ret_inv in Ea as (b & -> & [= <-]). by eexists.
    + rewrite <- (unpinned_twice pins p Hn) at 2. by apply replay_unpin_ok.
Qed.

End replayed_settings.

Module CommandProps.

Section props.
Context `{!AnsiColors} `{!Screen} `{!ScreenSpec} `{!Lines} `{!Yyjson} `{!ReadsPlain} `{!SlotAllocator} `{!SlotAllocatorSpec}
  {DB : Type} `{!Libpq DB} `{!Tables DB} `{!CommandQueries DB}.

(** A restart would bring back what the agent has. *)
Definition remembered (agent : restored) (s : session (DB := DB)) : Prop :=
  ra_uuid agent = agent_uuid s /\ (0 < session_id s)%Z /\ NoDup (pinned_paths s) /\
  exists d, db_ctx s = Some d /\ replays_to agent (pinned_paths s) (toolset_filter s) d.

(** C22: pinned documents and the tool filter outlive a restart.  After /pin,
    /unpin or /toolset with a plain argument, dispatched as it is typed, the
    command succeeds, the agent has the new setting, and replaying the recorded
    commands gives exactly the settings it has, if it did before; the document
    of /pin must have been found. *)
Theorem settings_survive_restart (paths : ik_paths) (fs : files) (other : cstr -> handler) (agent : restored)
    (s : session (DB := DB)) (c : setting) :
  remembered agent s -> argument_text (setting_argument c) = true ->
  (forall p sb, c = Pin p -> exists s1, look_up paths fs p (with_scrollback sb s) = Ret (true, s1)) ->
  (Z.of_nat (length (pinned_paths s)) < 2 ^ 29)%Z -> (Z.of_nat (length (setting_argument c)) < 2 ^ 27)%Z ->
  exists s', ik_cmd_dispatch paths fs other (typed (setting_name c) (setting_argument c)) s = Ret (None, s') /\
    remembered agent s' /\ pinned_paths s' = setting_pins c (pinned_paths s) /\ toolset_filter s' = setting_tools c (toolset_filter s).
Proof.
  intros (Eu & Hs & Hn & d & Ed & Hrep) Harg Hfound Hf Hl. destruct (setting_names c) as (Hname & Hne & Hw).
  assert (plain (setting_argument c) = true) as Hp by (by apply andb_true_iff in Harg as [Hp _]).
  assert (ready s) as Hr by (split; [by exists d|done]). destruct (setting_few c _ Hf) as [Hfew _].
  assert (exists s' rows, ik_cmd_dispatch paths fs other (typed (setting_name c) (setting_argument c)) s = Ret (None, s') /\
            recorded_in s s' (setting_name c) (setting_argument c) rows /\ rows <> [] /\
            pinned_paths s' = setting_pins c (pinned_paths s) /\ toolset_filter s' = setting_tools c (toolset_filter s))
    as (s' & rows & E & Hrec & Hrne & Ep & Et).
  { destruct c as [p|p|args].
    - eapply (dispatch_leaves paths fs other "pin" p); [done..|]. intros sb. destruct (Hfound p sb eq_refl) as [s1 Hs1].
      eapply (pin_leaves paths fs p (with_scrollback sb s)); [exact Hr|done|done|exact Hs1].
    - eapply (dispatch_leaves paths fs other "unpin" p); [done..|]. intros sb. by apply (unpin_leaves p (with_scrollback sb s)).
    - eapply (dispatch_leaves paths fs other "toolset" args); [done..|]. intros sb. by apply (toolset_leaves args (with_scrollback sb s)). }
  exists s'. split; [exact E|]. split; [|done]. destruct Hrec as [(d0 & d' & Ed0 & Ed' & Em) Es Ea Hrows].
  rewrite Ed in Ed0. injection Ed0 as <-. split; [by rewrite Ea|]. split; [by rewrite Es|]. split.
  { rewrite Ep. destruct c; [by apply pinned_nodup|by apply unpinned_nodup|done]. }
  exists d'. split; [done|]. rewrite Ep, Et. rewrite <- Eu in Hrows. by eapply setting_replayed.
Qed.

End props.
End CommandProps.

(** ** A reader of plain objects and a log of messages *)

Module PlainJson.

(** The text before the closing quote, and the rest; no escapes. *)
Fixpoint until_quote (s : cstr) : option (cstr * cstr) :=
  match s with
  | [] => None
  | c :: s =>
      if (c =? 34)%Z then Some ([], s)
      else if (c =? 92)%Z then None
      else '(w, r) ← until_quote s; Some (c :: w, r)
  end.

Definition read_quoted (s : cstr) : option (cstr * cstr) :=
  match s with c :: s => if (c =? 34)%Z then until_quote s else None | [] => None end.

(** Strings of an array, after its bracket. *)
Fixpoint read_strings (fuel : nat) (s : cstr) : option (list json * cstr) :=
  match fuel, s with
  | S fuel, c :: s' =>
      if (c =? 93)%Z then Some ([], s')
      else '(w, r) ← read_quoted (if (c =? 44)%Z then s' else s); '(l, r) ← read_strings fuel r; Some (JStr w :: l, r)
  | _, _ => None
  end.

Definition read_value (s : cstr) : option (json * cstr) :=
  match s with
  | c :: s' =>
      if (c =? 110)%Z then Some (JNull, drop 3 s')
      else if (c =? 91)%Z then '(l, r) ← read_strings (length s') s'; Some (JArr l, r)
      else '(w, r) ← read_quoted s; Some (JStr w, r)
  | [] => None
  end.

(** A member and what follows it: another after a comma, or the end. *)
Fixpoint read_members (fuel : nat) (s : cstr) : option fields :=
  match fuel with
  | 0 => None
  | S fuel =>
      '(k, r) ← read_quoted s;
      '(v, r) ← read_value (drop 1 r);
      match r with
      | [] => None
      | c :: r => if (c =? 44)%Z then l ← read_members fuel r; Some ((k, v) :: l) else Some [(k, v)]
      end
  end.

#[export] Instance plain_json : Yyjson := {
  yyjson_read s := match s with c :: s => if (c =? 123)%Z then JObj <$> read_members (length s) s else None | [] => None end;
  yyjson_write _ := None
}.

Lemma until_quote_plain w r : plain w = true -> until_quote (w ++ 34%Z :: r) = Some (w, r).
Proof.
  induction w as [|c w IH]; [done|]. unfold plain. cbn [forallb app until_quote]. intros [Hc Hw]%andb_true_iff.
  unfold plain_char in Hc. apply andb_true_iff in Hc as [Hc H92%negb_true_iff]. apply andb_true_iff in Hc as [_ H34%negb_true_iff].
  rewrite H34, H92, (IH Hw). done.
Qed.

Lemma read_quoted_plain w r : plain w = true -> read_quoted (quoted_text w ++ r) = Some (w, r).
Proof. intros Hw. unfold quoted_text. cbn [app read_quoted Z.eqb Pos.eqb]. rewrite <- app_assoc. by apply until_quote_plain. Qed.

Lemma read_value_plain v r : match v with Some s => plain s = true | None => True end ->
  read_value (match v with Some s => quoted_text s | None => lit "null" end ++ r) = Some (field_value v, r).
Proof.
  destruct v as [s|]; intros Hv; [|done]. unfold read_value. pose proof (read_quoted_plain s r Hv) as E.
  unfold quoted_text in *. cbn [app] in *. rewrite E. done.
Qed.

(** One member and what follows. *)
Lemma read_member m fuel r : plain_member m = true ->
  read_members (S fuel) (member_text m ++ r) =
  match r with
  | [] => None
  | c :: r => if (c =? 44)%Z then l ← read_members fuel r; Some ((fst m, field_value (snd m)) :: l)
              else Some [(fst m, field_value (snd m))]
  end.
Proof.
  destruct m as [k v]. unfold plain_member, member_text. cbn [fst snd]. intros [Hk Hv]%andb_true_iff. rewrite <- !app_assoc.
  cbn [read_members]. rewrite (read_quoted_plain k _ Hk). cbn [mbind option_bind].
  assert (forall x : cstr, drop 1 (lit ":" ++ x) = x) as Hd by done. rewrite Hd, read_value_plain by (by destruct v). done.
Qed.

Lemma read_members_plain members : forall fuel m, forallb plain_member (m :: members) = true -> length members < fuel ->
  read_members fuel (member_text m ++ mjoin ((fun m => lit "," ++ member_text m) <$> members) ++ lit "}")
  = Some ((fun m => (fst m, field_value (snd m))) <$> m :: members).
Proof.
  induction members as [|m2 members IH]; intros [|fuel] m Hm Hf; cbn [length] in Hf; try lia.
  all: pose proof Hm as [Hm1 Hm2]%andb_true_iff; rewrite (read_member m fuel _ Hm1).
  { done. }
  change (mjoin ((fun m => lit "," ++ member_text m) <$> m2 :: members)) with
    ((lit "," ++ member_text m2) ++ mjoin ((fun m => lit "," ++ member_text m) <$> members)).
  rewrite <- !app_assoc. assert (forall x : cstr, lit "," ++ x = 44%Z :: x) as Hc by done. rewrite Hc. cbn [Z.eqb Pos.eqb].
  rewrite (IH fuel m2 Hm2 ltac:(lia)). done.
Qed.

Lemma text_long m members : length members < length (member_text m ++ mjoin ((fun m => lit "," ++ member_text m) <$> members) ++ lit "}").
Proof.
  assert (length members <= length (mjoin ((fun m => lit "," ++ member_text m) <$> members))) as Hl.
  { induction members as [|m2 members IH]; [done|].
    change (mjoin ((fun m => lit "," ++ member_text m) <$> m2 :: members)) with
      ((lit "," ++ member_text m2) ++ mjoin ((fun m => lit "," ++ member_text m) <$> members)).
    rewrite !length_app. change (length (lit ",")) with 1. cbn [length]. lia. }
  rewrite !length_app. change (length (lit "}")) with 1. lia.
Qed.

#[export] Instance plain_json_reads : ReadsPlain.
Proof.
  intros m members Hm. unfold object_text. cbn [yyjson_read plain_json]. change (lit "{") with [123%Z]. cbn [app Z.eqb Pos.eqb].
  rewrite (read_members_plain members _ m Hm (text_long m members)). done.
Qed.

End PlainJson.

Module CommandLog.
Import PlainJson.

(** The messages in the order of their creation, all stored as given. *)
Definition log : Type := list message_row.

#[export] Instance log_tables : Tables log := { messages_of := id; agents_of _ := [] }.

Definition log_answer (query : cstr) (params : list (option cstr)) (d : log) : pg_result * log :=
  match params with
  | [_; Some u; Some k; c; data] =>
      (PGRES_COMMAND_OK (lit "1"), d ++ [mk_row (Z.of_nat (S (length d))) u (mk_msg k c data)])
  | [Some u] =>
      (PGRES_TUPLES_OK (data_column <$>
         (if strcmp_eq query PIN_COMMANDS then pin_rows u d
          else if strcmp_eq query TOOLSET_COMMAND then option_list (last (toolset_rows u d))
          else option_list (head (fork_rows u d)))), d)
  | _ => (PGRES_FATAL_ERROR, d)
  end.

#[export] Instance log_libpq : Libpq log := log_answer.

Lemma find_listed members key v : NoDup (fst <$> members) -> (key, v) ∈ members ->
  find_field ((fun m : cstr * option cstr => (fst m, field_value (snd m))) <$> members) key = Some (field_value v).
Proof.
  unfold find_field. induction members as [|[k w] members IH]; [by intros _ ?%not_elem_of_nil|].
  cbn [fmap list_fmap fst snd List.find]. intros [Hk Hn]%NoDup_cons [[= -> ->]|Hin]%elem_of_cons.
  { by rewrite bool_decide_eq_true_2. }
  rewrite bool_decide_eq_false_2; [by apply IH|]. intros ->. apply Hk. by apply (list_elem_of_fmap_2 fst members (key, v)).
Qed.

#[export] Instance log_queries : CommandQueries log.
Proof.
  constructor; unfold pq_exec_params, log_libpq.
  - intros sid u k c data members d Er Hn. eexists _, _, _, data, _. split; [reflexivity|]. split; [reflexivity|].
    split; [exact Er|]. intros key v Hin. by apply find_listed.
  - done.
  - intros u d. unfold log_answer. by replace (strcmp_eq TOOLSET_COMMAND PIN_COMMANDS) with false by (vm_compute; reflexivity).
  - intros u d. unfold log_answer. by replace (strcmp_eq FORK_EVENT PIN_COMMANDS) with false by (vm_compute; reflexivity).
  - intros u d. unfold log_answer. by replace (strcmp_eq FORK_TOOLSET PIN_COMMANDS) with false by (vm_compute; reflexivity).
Qed.

End CommandLog.

Module CommandExamples.
Import CopySlots ListScreen PlainJson CommandLog DocCacheExamples CommandProps.

#[local] Instance colors_on : AnsiColors := true.
#[local] Instance listed_lines : Lines := id.

Definition no_other (name : cstr) : handler (DB := log) := fun _ s => Ret (None, s).

(** A child whose fork event gave it one pin. *)
Definition fork_row : message_row :=
  mk_row 1 (lit "child") (mk_msg (lit "fork") None
    (Some (lit "{" ++ quoted_text (lit "role") ++ lit ":" ++ quoted_text (lit "child") ++ lit "," ++ quoted_text (lit "pinned_paths")
           ++ lit ":[" ++ quoted_text (lit "/s/a") ++ lit "]}"))).

Definition child : restored := mk_restored (lit "child") (Some (lit "root")) None None 0 false [] [].

Definition start : session := mk_session (DB := log) [] [lit "/s/a"] [] (Some ik_doc_cache_create) (Some [fork_row]) 1 (lit "child").

Definition files_b : files := one (lit "/s/b") (lit "text").

Lemma start_remembered : remembered child start.
Proof.
  split; [done|]. split; [done|]. split; [apply NoDup_singleton|]. exists [fork_row]. split; [done|].
  eexists. split; [vm_compute; reflexivity|]. done.
Qed.

Lemma settings_survive_restart_witness :
  exists s', ik_cmd_dispatch dirs files_b no_other (lit "/pin /s/b") start = Ret (None, s') /\
    remembered child s' /\ pinned_paths s' = [lit "/s/a"; lit "/s/b"] /\ toolset_filter s' = [].
Proof.
  apply (settings_survive_restart dirs files_b no_other child start (Pin (lit "/s/b"))).
  - exact start_remembered.
  - reflexivity.
  - intros p sb [= <-]. eexists. vm_compute. reflexivity.
  - vm_compute. reflexivity.
  - vm_compute. reflexivity.
Defined.

(** Settings after commands, live and as a restart brings them back. *)
Fixpoint dispatch_all (inputs : list cstr) (s : session) : outcome session :=
  match inputs with
  | [] => Ret s
  | input :: inputs => let! (_, s) := ik_cmd_dispatch dirs files_b no_other input s in dispatch_all inputs s
  end.

Definition live_and_replayed (inputs : list cstr) : option ((list cstr * list cstr) * (list cstr * list cstr)) :=
  match dispatch_all inputs start with
  | Ret s =>
      match db_ctx s with
      | Some d =>
          match fst (replay_settings child d) with
          | Ret a => Some ((pinned_paths s, toolset_filter s), (ra_pinned_paths a, ra_toolset_filter a))
          | _ => None
          end
      | None => None
      end
  | _ => None
  end.

Example settings_in_step :
  live_and_replayed [lit "/pin /s/b"; lit "/toolset bash, file_read"; lit "/unpin /s/a"; lit "/pin /s/b"] =
  Some (([lit "/s/b"], [lit "bash"; lit "file_read"]), ([lit "/s/b"], [lit "bash"; lit "file_read"])).
Proof. vm_compute. reflexivity. Qed.

(** A document that is not found is not pinned, but the command is recorded,
    and a restart pins it. *)
Example missing_document_pinned_later :
  live_and_replayed [lit "/pin /missing"] = Some (([lit "/s/a"], []), ([lit "/s/a"; lit "/missing"], [])).
Proof. vm_compute. reflexivity. Qed.

End CommandExamples.
