(* ===== verification/Wire.v ===== *)
(** * Clients of an event stream

    What the write callbacks of the providers that use the SSE parser have in
    common: each piece of bytes is fed to the parser, and the events it completes
    are handled one after the other.  [handle] is the provider's handler of one
    event; it changes the provider's stream context and emits stream events. *)

From S2P Require Import Prelude CString ByteArray Provider Sse.

Section client.
Context {St : Type} (handle : St -> ik_sse_event -> outcome (St * list ik_stream_event)).

(** The events of one call of a write callback, in order. *)
Fixpoint process_events (s : St) (es : list ik_sse_event) : outcome (St * list ik_stream_event) :=
  match es with
  | [] => Ret (s, [])
  | e :: es =>
      let! (s, out) := handle s e in
      let! (s, out') := process_events s es in
      Ret (s, out ++ out')
  end.

Section write.
Context `{Allocator}.

(** The stream: its parser and its context. *)
Definition stream_write_cb (st : ik_sse_parser * St) (bytes : list Z)
  : outcome ((ik_sse_parser * St) * list ik_stream_event) :=
  let! (es, p) := receive (fst st) bytes in
  let! (s, out) := process_events (snd st) es in
  Ret ((p, s), out).

Fixpoint write_all (st : ik_sse_parser * St) (chunks : list (list Z))
  : outcome ((ik_sse_parser * St) * list ik_stream_event) :=
  match chunks with
  | [] => Ret (st, [])
  | c :: chunks =>
      let! (st, out) := stream_write_cb st c in
      let! (st, out') := write_all st chunks in
      Ret (st, out ++ out')
  end.

End write.

(** ** Lemmas *)

Lemma process_events_app s es es' :
  process_events s (es ++ es') =
    let! (s, out) := process_events s es in
    let! (s, out') := process_events s es' in Ret (s, out ++ out').
Proof.
  revert s. induction es as [|e es IH]; intros s; cbn [process_events app].
  - cbn [obind]. by destruct (process_events s es') as [[]| | | |].
  - destruct (handle s e) as [[s1 o1]| | | |]; [cbn [obind]|done..].
    rewrite IH. destruct (process_events s1 es) as [[s2 o2]| | | |]; [cbn [obind]|done..].
    destruct (process_events s2 es') as [[s3 o3]| | | |]; [cbn [obind]|done..].
    by rewrite app_assoc.
Qed.

Context `{!Allocator} `{!AllocatorSpec}.

(** Handling the pieces is handling the events of the whole. *)
Lemma write_all_ok p s chunks es p' s' out :
  receive_all p chunks = Ret (es, p') -> process_events s es = Ret (s', out) ->
  write_all (p, s) chunks = Ret ((p', s'), out).
Proof.
  revert p s es out. induction chunks as [|c chunks IH]; intros p s es out; cbn [receive_all write_all].
  - intros [= <- <-] [= <- <-]. done.
  - intros ((e1 & p1) & E1 & E)%obind_Ret_inv. cbn beta iota in E.
    apply obind_Ret_inv in E as ((e2 & p2) & E2 & [= <- <-]).
    rewrite process_events_app. intros ((s1 & o1) & F1 & F)%obind_Ret_inv. cbn beta iota in F.
    apply obind_Ret_inv in F as ((s2 & o2) & F2 & [= <- <-]).
    unfold stream_write_cb. cbn [fst snd]. rewrite E1. cbn [obind]. rewrite F1. cbn [obind].
    by rewrite (IH _ _ _ _ E2 F2).
Qed.

End client.
