(* ===== verification/Http.v ===== *)
(** * Transfers (providers/common/http_multi.c, http_multi_info.c)

    The requests in flight of one provider.  libcurl itself is a parameter: it
    calls the write callback with pieces of a body, and reports transfers that
    ended.  A completion callback is an output here: [info_read] returns the
    completions in the order in which it makes the calls. *)

From Stdlib Require Import String.
From stdpp Require Import strings.
From S2P Require Import Prelude Slots CString ByteArray.

Inductive ik_http_status_type : Set :=
| IK_HTTP_SUCCESS
| IK_HTTP_CLIENT_ERROR
| IK_HTTP_SERVER_ERROR
| IK_HTTP_NETWORK_ERROR.

(** [response_body] is a block; [curl_code] is 0 for CURLE_OK. *)
Record ik_http_completion := mk_http_completion {
  type : ik_http_status_type;
  http_code : Z;
  curl_code : Z;
  http_error : option cstr;
  response_body : option (list Z);
  response_len : nat
}.

Section transfers.
(** The context of a request's write callback. *)
Context {U : Type} `{Inhabited U}.

(** [user_callback] returns the number of bytes it took. *)
Record http_write_ctx := mk_write_ctx {
  user_callback : option (U -> list Z -> outcome (U * nat));
  user_ctx : U;
  body_buffer : list Z;
  body_len : nat;
  buffer_capacity : nat
}.

(** [easy_handle] stands for the address of the handle. *)
Record active_request := mk_active {
  easy_handle : nat;
  write_ctx : http_write_ctx;
  has_completion_cb : bool
}.

#[export] Instance active_request_inhabited : Inhabited active_request :=
  populate (mk_active 0 (mk_write_ctx None inhabitant [] 0 0) false).

Record ik_http_multi := mk_multi {
  active_requests : list active_request;
  active_count : nat
}.

Section buffer.
Context `{Allocator}.

Definition http_write_callback (c : http_write_ctx) (bytes : list Z) : outcome (http_write_ctx * nat) :=
  let total_size := length bytes in
  let! (u, processed) :=
    match user_callback c with
    | None => Ret (user_ctx c, total_size)
    | Some cb => cb (user_ctx c) bytes
    end in
  let c := mk_write_ctx (user_callback c) u (body_buffer c) (body_len c) (buffer_capacity c) in
  if negb (processed =? total_size)%nat then Ret (c, 0)
  else
    let new_len := wrap64 (body_len c + total_size) in
    let! (block, capacity) :=
      if (buffer_capacity c <? wrap64 (new_len + 1))%nat then
        let doubled := wrap64 (buffer_capacity c * 2) in
        let new_capacity := if (doubled <? new_len + 1)%nat then new_len + 1 else doubled in
        let! block := or_panic (talloc_realloc (body_buffer c) new_capacity) in
        Ret (block, new_capacity)
      else Ret (body_buffer c, buffer_capacity c) in
    let! block := mem_write (body_len c) bytes block in
    let! block := mem_write new_len [0%Z] block in
    Ret (mk_write_ctx (user_callback c) u block new_len capacity, total_size).

End buffer.

(** "write_ctx->response_buffer = talloc_zero_array(..., 4096)" *)
Definition initial_write_ctx (cb : option (U -> list Z -> outcome (U * nat))) (u : U) : http_write_ctx :=
  mk_write_ctx cb u (replicate 4096 0%Z) 0 4096.

Section requests.
Context `{SlotAllocator}.

(** The part of ik_http_multi_add_request after libcurl has accepted the
    handle. *)
Definition ik_http_multi_add_request (m : ik_http_multi) (req : active_request) : outcome ik_http_multi :=
  let! slots := or_panic (realloc_slots (active_requests m) (active_count m + 1)) in
  let! slots := arr_set (active_count m) req slots in
  Ret (mk_multi slots (S (active_count m))).

Definition categorize_http_response (response_code : Z) : ik_http_status_type * option cstr :=
  if (200 <=? response_code)%Z && (response_code <? 300)%Z then (IK_HTTP_SUCCESS, None)
  else if (400 <=? response_code)%Z && (response_code <? 500)%Z then
    (IK_HTTP_CLIENT_ERROR, Some (lit "HTTP " ++ show_int response_code ++ lit " error"))
  else if (500 <=? response_code)%Z && (response_code <? 600)%Z then
    (IK_HTTP_SERVER_ERROR, Some (lit "HTTP " ++ show_int response_code ++ lit " server error"))
  else (IK_HTTP_NETWORK_ERROR, Some (lit "Unexpected HTTP response code: " ++ show_int response_code)).

Definition build_completion_for_success (response_code : Z) (completed : active_request) : ik_http_completion :=
  let '(t, message) := categorize_http_response response_code in
  mk_http_completion t (int32_wrap response_code) 0 message
    (Some (body_buffer (write_ctx completed))) (body_len (write_ctx completed)).

Definition build_completion_for_error (curl_result : Z) (strerror : cstr) : ik_http_completion :=
  mk_http_completion IK_HTTP_NETWORK_ERROR 0 curl_result (Some (lit "Connection error: " ++ strerror)) None 0.

Definition remove_from_active_array (m : ik_http_multi) (index : nat) : outcome ik_http_multi :=
  let! slots := close_gap (active_requests m) (active_count m - 1 - index) index in
  Ret (mk_multi slots (active_count m - 1)).

(** A message of libcurl: whether it is CURLMSG_DONE, the handle, the result of
    the transfer and its text, and the code of the response. *)
Record curl_msg := mk_msg {
  msg_done : bool;
  msg_handle : nat;
  msg_result : Z;
  msg_strerror : cstr;
  msg_response_code : Z
}.

Definition completion_of (req : active_request) (msg : curl_msg) : ik_http_completion :=
  if (msg_result msg =? 0)%Z then build_completion_for_success (msg_response_code msg) req
  else build_completion_for_error (msg_result msg) (msg_strerror msg).

Abbreviation completions := (list (active_request * ik_http_completion)).

Definition process_completed_request (m : ik_http_multi) (msg : curl_msg) (index : nat)
  : outcome (ik_http_multi * completions) :=
  let! completed := arr_get (active_requests m) index in
  let calls := if has_completion_cb completed then [(completed, completion_of completed msg)] else [] in
  let! m := remove_from_active_array m index in
  Ret (m, calls).

(** The loop over the requests, [n] of them from [i] on. *)
Fixpoint find_and_process_completed_request (m : ik_http_multi) (msg : curl_msg) (n i : nat)
  : outcome (ik_http_multi * completions) :=
  match n with
  | 0 => Ret (m, [])
  | S n =>
      let! req := arr_get (active_requests m) i in
      if (easy_handle req =? msg_handle msg)%nat then process_completed_request m msg i
      else find_and_process_completed_request m msg n (S i)
  end.

(** [msgs] is what curl_multi_info_read returns until it returns NULL. *)
Fixpoint ik_http_multi_info_read (m : ik_http_multi) (msgs : list curl_msg)
  : outcome (ik_http_multi * completions) :=
  match msgs with
  | [] => Ret (m, [])
  | msg :: msgs =>
      if negb (msg_done msg) then ik_http_multi_info_read m msgs
      else
        let! (m, calls) := find_and_process_completed_request m msg (active_count m) 0 in
        let! (m, calls') := ik_http_multi_info_read m msgs in
        Ret (m, calls ++ calls')
  end.

(** Returns the handles removed from libcurl. *)
Fixpoint cancel_loop (fuel : nat) (m : ik_http_multi) (removed : list nat) : outcome (ik_http_multi * list nat) :=
  match fuel with
  | 0 => NoFuel
  | S fuel =>
      if (0 <? active_count m)%nat then
        let! req := arr_get (active_requests m) 0 in
        let! m := remove_from_active_array m 0 in
        cancel_loop fuel m (removed ++ [easy_handle req])
      else Ret (m, removed)
  end.

Definition ik_http_multi_cancel_all (m : ik_http_multi) : outcome (ik_http_multi * list nat) :=
  cancel_loop (S (active_count m)) m [].

End requests.
End transfers.

(** ** The body *)

Section body.
Context {U : Type} `{!Inhabited U} `{!Allocator} `{!AllocatorSpec}.
Implicit Types c : @http_write_ctx U.

(** The block holds the bytes received, terminated. *)
Record body_rep c (bs : list Z) : Prop := {
  body_bytes : exists rest, body_buffer c = bs ++ 0%Z :: rest;
  body_size : body_len c = length bs;
  body_capacity : buffer_capacity c = length (body_buffer c);
  body_bound : buffer_capacity c <= 4096 + 2 * (length bs + 1)
}.

Lemma initial_body cb u : body_rep (initial_write_ctx cb u) [].
Proof.
  constructor; cbn [body_buffer body_len buffer_capacity initial_write_ctx].
  - by exists (replicate 4095 0%Z).
  - done.
  - by rewrite length_replicate.
  - cbn [length]. lia.
Qed.

(** One call, after the user's callback. *)
Lemma http_write_ok c bs bytes u n :
  body_rep c bs -> (Z.of_nat (length bs + length bytes) < 2 ^ 61)%Z ->
  match user_callback c with None => u = user_ctx c /\ n = length bytes | Some cb => cb (user_ctx c) bytes = Ret (u, n) end ->
  if (n =? length bytes)%nat then
    exists c', http_write_callback c bytes = Ret (c', length bytes) /\ body_rep c' (bs ++ bytes) /\
      user_callback c' = user_callback c /\ user_ctx c' = u
  else exists c', http_write_callback c bytes = Ret (c', 0) /\ body_rep c' bs /\
      user_callback c' = user_callback c /\ user_ctx c' = u.
Proof.
  intros [(rest & Eb) El Ec Hb] Hl Hu. unfold http_write_callback.
  assert ((match user_callback c with
           | None => Ret (user_ctx c, length bytes)
           | Some cb => cb (user_ctx c) bytes
           end) = Ret (u, n)) as ->.
  { destruct (user_callback c); [done|]. destruct Hu as [-> ->]. done. }
  cbn [obind body_buffer body_len buffer_capacity user_callback user_ctx].
  destruct (Nat.eqb_spec n (length bytes)) as [->|Hn]; cbn [negb];
    [|eexists; split; [reflexivity|]; split; [by constructor; [exists rest|..]|done]].
  rewrite (wrap64_small (body_len c + length bytes)) by lia.
  rewrite (wrap64_small (body_len c + length bytes + 1)) by lia.
  rewrite (wrap64_small (buffer_capacity c * 2)) by lia. cbn beta zeta.
  assert (exists blk cap rest', (if (buffer_capacity c <? body_len c + length bytes + 1)%nat then
        let! block := or_panic (talloc_realloc (body_buffer c)
          (if (buffer_capacity c * 2 <? body_len c + length bytes + 1)%nat
           then body_len c + length bytes + 1 else buffer_capacity c * 2)) in
        Ret (block, if (buffer_capacity c * 2 <? body_len c + length bytes + 1)%nat
                    then body_len c + length bytes + 1 else buffer_capacity c * 2)
      else Ret (body_buffer c, buffer_capacity c)) = Ret (blk, cap) /\ blk = bs ++ rest' /\
      cap = length blk /\ length bytes + 1 <= length rest' /\
      cap <= 4096 + 2 * (length bs + length bytes + 1)) as (blk & cap & rest' & -> & -> & Hc & Hr & Hcap).
  { destruct (Nat.ltb_spec (buffer_capacity c) (body_len c + length bytes + 1)) as [Hg|Hg].
    - set (nc := if (_ <? _)%nat then _ else _).
      assert (buffer_capacity c < nc /\ body_len c + length bytes + 1 <= nc
              /\ nc <= 4096 + 2 * (length bs + length bytes + 1)) as (H1 & H2 & H3).
      { unfold nc. destruct (Nat.ltb_spec (buffer_capacity c * 2) (body_len c + length bytes + 1)); lia. }
      destruct (realloc_some (body_buffer c) nc) as [nb En]. rewrite En. cbn [or_panic obind].
      pose proof (realloc_length _ _ _ En). pose proof (realloc_prefix _ _ _ En ltac:(lia)) as Hp.
      exists nb, nc, ((0%Z :: rest) ++ drop (length (body_buffer c)) nb). split_and!; [done| |done| |done].
      + rewrite <- (take_drop (length (body_buffer c)) nb) at 1. rewrite Hp, Eb at 1. by rewrite <- app_assoc.
      + pose proof (f_equal length Eb) as E. rewrite length_app in E |- *. rewrite length_drop. cbn [length] in *. lia.
    - exists (body_buffer c), (buffer_capacity c), (0%Z :: rest).
      pose proof (f_equal length Eb) as E. rewrite length_app in E. cbn [length] in *. split_and!; try done; lia. }
  cbn [obind]. rewrite length_app in Hc.
  destruct (split_at (length bytes) rest') as (old & r1 & -> & Ho & Hr1); [lia|].
  rewrite mem_write_app by lia. cbn [obind]. rewrite length_app in Hr, Hc.
  destruct r1 as [|x r1]; [cbn [length] in *; lia|].
  change (bs ++ bytes ++ x :: r1) with (bs ++ bytes ++ [x] ++ r1). rewrite app_assoc.
  rewrite mem_write_app by (rewrite ?length_app; lia || done). cbn [obind].
  eexists. split; [reflexivity|]. split; [|done].
  constructor; cbn [body_buffer body_len buffer_capacity].
  - by exists r1.
  - rewrite length_app. lia.
  - rewrite !length_app. cbn [length] in *. lia.
  - rewrite length_app. lia.
Qed.

(** The calls of libcurl for one body, as long as every byte is taken. *)
Fixpoint write_body c (chunks : list (list Z)) : outcome (@http_write_ctx U) :=
  match chunks with
  | [] => Ret c
  | bytes :: chunks =>
      let! (c, n) := http_write_callback c bytes in
      if (n =? length bytes)%nat then write_body c chunks else Fail ERR_IO
  end.

Lemma write_body_ok c bs chunks :
  user_callback c = None -> body_rep c bs -> (Z.of_nat (length bs + length (concat chunks)) < 2 ^ 61)%Z ->
  exists c', write_body c chunks = Ret c' /\ body_rep c' (bs ++ concat chunks).
Proof.
  revert c bs. induction chunks as [|bytes chunks IH]; intros c bs Hcb Hc Hl; cbn [write_body concat] in *.
  { rewrite app_nil_r. by exists c. }
  rewrite length_app in Hl.
  pose proof (http_write_ok c bs bytes (user_ctx c) (length bytes) Hc ltac:(lia)) as Hw.
  rewrite Hcb, Nat.eqb_refl in Hw. destruct Hw as (c1 & -> & Hc1 & Hcb1 & _); [done|]. cbn [obind].
  rewrite Nat.eqb_refl, app_assoc. apply IH; [congruence|done|]. rewrite length_app. lia.
Qed.

End body.

(** ** The requests in flight *)

Section active.
Context {U : Type} `{!Inhabited U} `{!SlotAllocator} `{!SlotAllocatorSpec}.
Implicit Types (m : @ik_http_multi U) (l : list (@active_request U)).

Record multi_rep m l : Prop := {
  multi_slots : exists rest, active_requests m = l ++ rest;
  multi_count : active_count m = length l
}.

Definition with_handle (h : nat) l : option (@active_request U) := List.find (fun r => (easy_handle r =? h)%nat) l.
Definition without_handle (h : nat) l : list (@active_request U) :=
  List.filter (fun r => negb (easy_handle r =? h)%nat) l.

(** The call a message leads to. *)
Definition call_of l (msg : curl_msg) : option (@active_request U * ik_http_completion) :=
  match with_handle (msg_handle msg) l with
  | Some r => if has_completion_cb r then Some (r, completion_of r msg) else None
  | None => None
  end.

Lemma without_none h l : with_handle h l = None -> without_handle h l = l.
Proof.
  unfold with_handle, without_handle. intros Hn. induction l as [|r l IH]; [done|].
  cbn [List.find List.filter] in *. destruct (easy_handle r =? h)%nat; [done|]. cbn [negb]. by rewrite IH.
Qed.

Lemma with_handle_none h l : with_handle h l = None <-> (h ∉ easy_handle <$> l).
Proof.
  unfold with_handle. induction l as [|r l IH]; [split; [intros _; apply not_elem_of_nil|done]|].
  cbn [List.find fmap list_fmap]. rewrite not_elem_of_cons.
  destruct (Nat.eqb_spec (easy_handle r) h) as [->|Hne]; [naive_solver|]. rewrite IH. naive_solver.
Qed.

(** The first request with a handle, when handles differ. *)
Lemma with_handle_split h l r :
  NoDup (easy_handle <$> l) -> with_handle h l = Some r ->
  exists l1 l2, l = l1 ++ r :: l2 /\ easy_handle r = h /\ with_handle h l1 = None /\ without_handle h l = l1 ++ l2.
Proof.
  unfold with_handle, without_handle. intros Hnd.
  induction l as [|r' l IH]; [done|]. cbn [List.find List.filter]. apply NoDup_cons in Hnd as [Hni Hnd].
  destruct (Nat.eqb_spec (easy_handle r') h) as [<-|Hne].
  - intros [= <-]. exists [], l. split_and!; try done. cbn [negb app].
    by apply without_none, with_handle_none.
  - intros (l1 & l2 & -> & <- & Hn & Ef)%IH; [|done]. exists (r' :: l1), l2. cbn [negb app List.find].
    rewrite (proj2 (Nat.eqb_neq _ _)) by done. split_and!; try done. by rewrite Ef.
Qed.

Lemma find_loop l2 : forall m msg d rest,
  active_requests m = d ++ l2 ++ rest -> active_count m = length d + length l2 ->
  NoDup (easy_handle <$> l2) ->
  exists m', find_and_process_completed_request m msg (length l2) (length d)
    = Ret (m', option_list (call_of l2 msg)) /\
    multi_rep m' (d ++ without_handle (msg_handle msg) l2).
Proof.
  induction l2 as [|r l2 IH]; intros m msg d rest Es Ec Hnd; cbn [length find_and_process_completed_request].
  { exists m. split; [done|]. cbn [without_handle List.filter]. rewrite app_nil_r.
    constructor; [by exists rest|]. by rewrite Ec, Nat.add_0_r. }
  cbn [app] in Es. rewrite Es, arr_get_app. cbn [obind]. apply NoDup_cons in Hnd as [Hni Hnd].
  unfold call_of, with_handle, without_handle. cbn [List.find List.filter].
  destruct (Nat.eqb_spec (easy_handle r) (msg_handle msg)) as [E|Hne].
  - unfold process_completed_request. rewrite Es, arr_get_app. cbn [obind].
    unfold remove_from_active_array. rewrite Es.
    replace (active_count m - 1 - length d) with (length l2) by (rewrite Ec; cbn [length]; lia).
    rewrite close_gap_ok. cbn [obind]. eexists. split; [by destruct (has_completion_cb r)|].
    assert (List.filter (fun q => negb (easy_handle q =? msg_handle msg)%nat) l2 = l2) as Ef.
    { apply without_none, with_handle_none. by rewrite <- E. }
    constructor; cbn [active_requests active_count].
    + cbn [negb]. rewrite Ef. eexists. by rewrite <- app_assoc.
    + cbn [negb]. rewrite Ef, length_app, Ec. cbn [length]. lia.
  - cbn [negb]. destruct (IH m msg (d ++ [r]) rest) as (m' & E & Hm).
    + by rewrite Es, <- app_assoc.
    + rewrite length_app, Ec. cbn [length]. lia.
    + done.
    + rewrite length_app, Nat.add_1_r in E. rewrite E. exists m'. split; [done|]. by rewrite <- app_assoc in Hm.
Qed.

Lemma without_nodup h l : NoDup (easy_handle <$> l) -> NoDup (easy_handle <$> without_handle h l).
Proof.
  unfold without_handle. induction l as [|r l IH]; [done|]. cbn [List.filter fmap list_fmap].
  rewrite NoDup_cons. intros [Hni Hnd]. destruct (_ =? _)%nat; cbn [negb fmap list_fmap]; [by apply IH|].
  rewrite NoDup_cons. split; [|by apply IH]. intros Hin. apply Hni.
  apply list_elem_of_fmap in Hin as (q & Eq & Hq). apply list_elem_of_In, filter_In in Hq as [Hq _].
  apply list_elem_of_fmap. exists q. split; [done|]. by apply list_elem_of_In.
Qed.

Lemma with_other h h' l : h <> h' -> with_handle h' (without_handle h l) = with_handle h' l.
Proof.
  intros Hne. unfold with_handle, without_handle. induction l as [|r l IH]; [done|]. cbn [List.filter List.find].
  destruct (Nat.eqb_spec (easy_handle r) h) as [->|]; cbn [negb List.find].
  - by rewrite (proj2 (Nat.eqb_neq _ _)).
  - by rewrite IH.
Qed.

(** The handles of the transfers that ended. *)
Definition ended (msgs : list curl_msg) : list nat := msg_handle <$> List.filter msg_done msgs.

Lemma info_read_ok msgs : forall m l,
  multi_rep m l -> NoDup (easy_handle <$> l) -> NoDup (ended msgs) ->
  exists m', ik_http_multi_info_read m msgs = Ret (m', omap (call_of l) (List.filter msg_done msgs)) /\
    multi_rep m' (foldr without_handle l (reverse (ended msgs))).
Proof.
  induction msgs as [|msg msgs IH]; intros m l Hm Hnd Hend; cbn [ik_http_multi_info_read].
  { exists m. by split. }
  unfold ended in *. cbn [List.filter] in *. destruct (msg_done msg) eqn:Ed; cbn [negb]; [|by apply IH].
  cbn [fmap list_fmap omap list_omap] in *. apply NoDup_cons in Hend as [Hni Hend].
  destruct Hm as [(rest & Es) Ec].
  destruct (find_loop l m msg [] rest Es Ec Hnd) as (m1 & E1 & Hm1). cbn [length app] in *.
  rewrite Ec, E1. cbn [obind].
  destruct (IH m1 _ Hm1 (without_nodup _ _ Hnd) Hend) as (m2 & E2 & Hm2). rewrite E2. cbn [obind].
  exists m2. split.
  - f_equal. f_equal.
    assert (omap (call_of (without_handle (msg_handle msg) l)) (List.filter msg_done msgs)
            = omap (call_of l) (List.filter msg_done msgs)) as ->.
    { apply list_omap_ext, Forall2_same_length_lookup_2; [done|]. intros i x y Ex Ey. assert (x = y) as -> by congruence.
      unfold call_of. rewrite with_other; [done|]. intros Eh. apply Hni. rewrite Eh.
      apply list_elem_of_fmap. exists y. split; [done|]. by eapply list_elem_of_lookup_2. }
    by destruct (call_of l msg).
  - rewrite reverse_cons, foldr_app. cbn [foldr]. done.
Qed.

Lemma add_request_ok m l req :
  multi_rep m l -> exists m', ik_http_multi_add_request m req = Ret m' /\ multi_rep m' (l ++ [req]).
Proof.
  intros [(rest & Es) Ec]. unfold ik_http_multi_add_request.
  assert (exists x r', realloc_slots (active_requests m) (active_count m + 1) = Some (l ++ x :: r')) as (x & r' & ->).
  { destruct (decide (active_count m + 1 <= length (active_requests m))) as [Hs|Hg].
    - rewrite realloc_slots_shrink by done. rewrite Es, Ec, length_app in *.
      destruct rest as [|x rest]; [cbn in Hs; lia|]. exists x, []. f_equal.
      rewrite take_app_ge by lia. f_equal. replace (length l + 1 - length l) with 1 by lia. done.
    - destruct (realloc_slots_some (active_requests m) (active_count m + 1)) as (new & -> & Hn); [lia|].
      rewrite Es, Ec, !length_app in *. destruct rest as [|x rest]; [|cbn in Hg; lia].
      rewrite app_nil_r in *. destruct new as [|x new]; [cbn in Hn; lia|]. by exists x, new. }
  cbn [or_panic obind]. rewrite Ec, arr_set_middle. cbn [obind]. eexists. split; [reflexivity|].
  constructor; cbn [active_requests active_count]; [exists r'; by rewrite <- app_assoc|].
  rewrite length_app. cbn. lia.
Qed.

Lemma cancel_ok l : forall m acc fuel,
  multi_rep m l -> length l < fuel ->
  exists m', cancel_loop fuel m acc = Ret (m', acc ++ (easy_handle <$> l)) /\ multi_rep m' [].
Proof.
  induction l as [|r l IH]; intros m acc fuel Hm Hf; (destruct fuel as [|fuel]; [lia|]); cbn [cancel_loop].
  all: destruct Hm as [(rest & Es) Ec]; rewrite Ec; cbn [length Nat.ltb Nat.leb].
  { exists m. rewrite app_nil_r. split; [done|]. by constructor; [exists rest|]. }
  rewrite Es. cbn [app]. change (arr_get (r :: l ++ rest) 0) with (Ret r). cbn [obind].
  unfold remove_from_active_array. rewrite Es, Ec. cbn [length Nat.sub app]. rewrite !Nat.sub_0_r.
  pose proof (close_gap_ok [] r l rest) as Eg. cbn [app length] in Eg. rewrite Eg. cbn [obind].
  destruct (IH (mk_multi (l ++ (match last l with Some x => x | None => r end) :: rest) (length l))
              (acc ++ [easy_handle r]) fuel) as (m' & E & Hm').
  - constructor; [by eexists|done].
  - cbn [length] in Hf. lia.
  - rewrite E. exists m'. split; [|done]. by rewrite <- app_assoc.
Qed.

End active.

(** ** Properties *)

Module HttpProps.

Section props.
Context {U : Type} `{!Inhabited U} `{!Allocator} `{!AllocatorSpec} `{!SlotAllocator} `{!SlotAllocatorSpec}.

(** Adding requests one after the other. *)
Fixpoint add_all (m : @ik_http_multi U) (reqs : list (@active_request U)) : outcome (@ik_http_multi U) :=
  match reqs with
  | [] => Ret m
  | r :: reqs => let! m := ik_http_multi_add_request m r in add_all m reqs
  end.

Lemma add_all_ok reqs : forall m l, multi_rep m l ->
  exists m', add_all m reqs = Ret m' /\ multi_rep m' (l ++ reqs).
Proof.
  induction reqs as [|r reqs IH]; intros m l Hm; cbn [add_all]; [exists m; by rewrite app_nil_r|].
  destruct (add_request_ok m l r Hm) as (m1 & -> & Hm1). cbn [obind].
  destruct (IH m1 _ Hm1) as (m2 & -> & Hm2). exists m2. by rewrite <- app_assoc in Hm2.
Qed.

(** every transfer completes once.  After requests with different handles
    were added, the messages of libcurl lead to one completion each for the
    requests that ended, in the order of the messages, with the category of the
    response; these requests and no others leave the table, and cancelling
    removes the rest from libcurl without a completion. *)
Theorem each_transfer_completes_once (reqs : list (@active_request U)) (msgs : list curl_msg) :
  NoDup (easy_handle <$> reqs) -> NoDup (ended msgs) ->
  exists m m1 m2, add_all (mk_multi [] 0) reqs = Ret m /\
    ik_http_multi_info_read m msgs = Ret (m1, omap (call_of reqs) (List.filter msg_done msgs)) /\
    multi_rep m1 (List.filter (fun r => negb (existsb (Nat.eqb (easy_handle r)) (ended msgs))) reqs) /\
    ik_http_multi_cancel_all m1
    = Ret (m2, easy_handle <$> List.filter (fun r => negb (existsb (Nat.eqb (easy_handle r)) (ended msgs))) reqs) /\
    multi_rep m2 [].
Proof.
  intros Hnd Hend. destruct (add_all_ok reqs (mk_multi [] 0) []) as (m & Em & Hm); [by constructor; [exists []|]|].
  cbn [app] in Hm. destruct (info_read_ok msgs m reqs Hm Hnd Hend) as (m1 & E1 & Hm1).
  assert (foldr without_handle reqs (reverse (ended msgs))
          = List.filter (fun r => negb (existsb (Nat.eqb (easy_handle r)) (ended msgs))) reqs) as Ef.
  { generalize (ended msgs). intros hs. clear. revert reqs. induction hs as [|h hs IH]; intros reqs.
    - cbn. induction reqs as [|r reqs IH]; [done|]. cbn [List.filter existsb negb]. by f_equal.
    - rewrite reverse_cons, foldr_app. cbn [foldr]. rewrite IH. unfold without_handle.
      clear IH. induction reqs as [|r reqs IH]; [done|]. cbn [List.filter existsb].
      destruct (easy_handle r =? h)%nat; cbn [negb orb List.filter]; [done|].
      destruct (existsb _ hs); cbn [negb]; [done|by f_equal]. }
  rewrite Ef in Hm1. destruct (cancel_ok _ m1 [] (S (active_count m1)) Hm1) as (m2 & E2 & Hm2);
    [by rewrite (multi_count _ _ Hm1); lia|].
  exists m, m1, m2. split_and!; done.
Qed.

(** A body is collected: the block of a request without a write callback holds
    the pieces received, terminated, whatever their number and sizes. *)
Theorem body_collected (u : U) (chunks : list (list Z)) :
  (Z.of_nat (length (concat chunks)) < 2 ^ 61)%Z ->
  exists c rest, write_body (initial_write_ctx None u) chunks = Ret c /\
    body_buffer c = concat chunks ++ 0%Z :: rest /\ body_len c = length (concat chunks).
Proof.
  intros Hl. destruct (write_body_ok (initial_write_ctx None u) [] chunks eq_refl (initial_body None u) Hl)
    as (c & E & [(rest & Eb) El _ _]). by exists c, rest.
Qed.

End props.
End HttpProps.

Module HttpExamples.
Import HttpProps ZeroAlloc CopySlots.

Definition a_request (h : nat) (cb : bool) : @active_request unit := mk_active h (initial_write_ctx None ()) cb.

(** Handles 7, 8, 9: 8 fails to connect, 7 gets a 404; 5 is unknown. *)
Definition three_requests : list (@active_request unit) := [a_request 7 true; a_request 8 true; a_request 9 true].
Definition some_msgs : list curl_msg :=
  [mk_msg true 8 7 (lit "refused") 0; mk_msg false 9 0 [] 0; mk_msg true 5 0 [] 200; mk_msg true 7 0 [] 404].

Lemma each_transfer_completes_once_witness :
  exists m m1, add_all (mk_multi [] 0) three_requests = Ret m /\
    ik_http_multi_info_read m some_msgs
    = Ret (m1, [(a_request 8 true, mk_http_completion IK_HTTP_NETWORK_ERROR 0 7
                                      (Some (lit "Connection error: refused")) None 0);
                (a_request 7 true, mk_http_completion IK_HTTP_CLIENT_ERROR 404 0 (Some (lit "HTTP 404 error"))
                                      (Some (replicate 4096 0%Z)) 0)]).
Proof.
  destruct (each_transfer_completes_once three_requests some_msgs) as (m & m1 & m2 & E & E1 & _);
    [apply (bool_decide_unpack _); vm_compute; exact I..|].
  exists m, m1. split; [exact E|exact E1].
Defined.

End HttpExamples.
