(* ===== verification/OpenAIResponse.v ===== *)
(** * OpenAI responses (providers/openai/response_chat.c, response_responses.c, error.c)

    Reading a whole response of either API into the common form, and the
    error bodies.  A function that reports an error with a message returns it on
    the right of a sum. *)

From Stdlib Require Import String.
From stdpp Require Import strings.
From S2P Require Import Prelude Slots CString Json Conversation Provider.

(** An error of the code, with its message. *)
Definition reported : Type := err_code * cstr.

Definition rbind {A B} (m : A + reported) (k : A -> outcome (B + reported)) : outcome (B + reported) :=
  match m with inl a => k a | inr e => Ret (inr e) end.

Notation "'let?' x ':=' m 'in' k" := (rbind m (fun x => k))
  (at level 10, x pattern, m at level 100, k at level 200) : outcome_scope.

(** "if (val == NULL) return ERR(missing); s = yyjson_get_str(val); if (s == NULL)
    return ERR(wrong)" *)
Definition required_str (v : option json) (missing wrong : string) : cstr + reported :=
  match v with
  | None => inr (ERR_PARSE, lit missing)
  | Some _ => match yyjson_get_str v with Some s => inl s | None => inr (ERR_PARSE, lit wrong) end
  end.

(** "if (val != NULL && yyjson_is_int(val)) field = (int32_t)yyjson_get_int(val)", on 0 *)
Definition usage_int (v : option json) : Z := if yyjson_is_int v then yyjson_get_int v else 0%Z.

Definition parse_chat_usage (usage_val : option json) : ik_usage :=
  mk_usage (usage_int (yyjson_obj_get usage_val (lit "prompt_tokens")))
    (usage_int (yyjson_obj_get usage_val (lit "completion_tokens")))
    (usage_int (yyjson_obj_get (yyjson_obj_get usage_val (lit "completion_tokens_details")) (lit "reasoning_tokens")))
    0
    (usage_int (yyjson_obj_get usage_val (lit "total_tokens"))).

(** The model, from its field. *)
Definition model_field (root : option json) : option cstr := yyjson_get_str (yyjson_obj_get root (lit "model")).

(** An error object in a response that parsed. *)
Definition api_error (error_obj : option json) : reported :=
  (ERR_PROVIDER, lit "API error: " ++ default (lit "Unknown error")
                                        (yyjson_get_str (yyjson_obj_get error_obj (lit "message")))).

(** ** Chat Completions *)

Section chat.
Context `{Yyjson}.

Definition parse_chat_tool_call (tc_val : option json) : outcome (ik_content_block + reported) :=
  let? id := required_str (yyjson_obj_get tc_val (lit "id"))
               "Tool call missing 'id' field" "Tool call 'id' is not a string" in
  match yyjson_obj_get tc_val (lit "function") with
  | None => Ret (inr (ERR_PARSE, lit "Tool call missing 'function' field"))
  | Some func_val =>
      let? name := required_str (yyjson_obj_get (Some func_val) (lit "name"))
                     "Tool call function missing 'name' field" "Tool call function 'name' is not a string" in
      let? args := required_str (yyjson_obj_get (Some func_val) (lit "arguments"))
                     "Tool call function missing 'arguments' field"
                     "Tool call function 'arguments' is not a string" in
      Ret (inl (IK_CONTENT_TOOL_CALL (Some id) (Some name) (Some args) None))
  end.

Definition ik_openai_map_chat_finish_reason (finish_reason : option cstr) : ik_finish_reason :=
  match finish_reason with
  | None => IK_FINISH_UNKNOWN
  | Some s =>
      if strcmp_eq s (lit "stop") then IK_FINISH_STOP
      else if strcmp_eq s (lit "length") then IK_FINISH_LENGTH
      else if strcmp_eq s (lit "tool_calls") then IK_FINISH_TOOL_USE
      else if strcmp_eq s (lit "content_filter") then IK_FINISH_CONTENT_FILTER
      else if strcmp_eq s (lit "error") then IK_FINISH_ERROR
      else IK_FINISH_UNKNOWN
  end.

(** The loop over the tool calls; [blocks] is the array being filled. *)
Fixpoint chat_tool_calls (tool_calls : list json) (blocks : list (option ik_content_block)) (block_idx : nat)
  : outcome (list (option ik_content_block) + reported) :=
  match tool_calls with
  | [] => Ret (inl blocks)
  | tc_val :: tool_calls =>
      let! r := parse_chat_tool_call (Some tc_val) in
      let? block := r in
      let! blocks := arr_set block_idx (Some block) blocks in
      chat_tool_calls tool_calls blocks (S block_idx)
  end.

(** A response takes the first [n] blocks of the array. *)
Definition taken_blocks (blocks : list (option ik_content_block)) (n : nat) : list ik_content_block :=
  omap id (take n blocks).

Definition chat_choice (choice : option json) (model : option cstr) (usage : ik_usage)
  : outcome (ik_response + reported) :=
  let finish_reason :=
    ik_openai_map_chat_finish_reason (yyjson_get_str (yyjson_obj_get choice (lit "finish_reason"))) in
  match yyjson_obj_get choice (lit "message") with
  | None => Ret (inl (mk_response [] finish_reason usage model))
  | Some message =>
      let content_val := yyjson_obj_get (Some message) (lit "content") in
      let text := match yyjson_get_str content_val with Some (c :: s) => Some (c :: s) | _ => None end in
      let tool_calls := yyjson_arr_elements (yyjson_obj_get (Some message) (lit "tool_calls")) in
      let content_count := (if text then 1 else 0) + length tool_calls in
      if (content_count =? 0)%nat then Ret (inl (mk_response [] finish_reason usage model))
      else
        assert! (Z.of_nat content_count <=? 2 ^ 32 - 1)%Z in
        let blocks := replicate content_count None in
        let! (blocks, block_idx) :=
          match text with
          | Some s => let! blocks := arr_set 0 (Some (IK_CONTENT_TEXT (Some s))) blocks in Ret (blocks, 1)
          | None => Ret (blocks, 0)
          end in
        let! r := chat_tool_calls tool_calls blocks block_idx in
        let? blocks := r in
        Ret (inl (mk_response (taken_blocks blocks content_count) finish_reason usage model))
  end.

Definition ik_openai_parse_chat_response (json : list Z) : outcome (ik_response + reported) :=
  match yyjson_read json with
  | None => Ret (inr (ERR_PARSE, lit "Invalid JSON response"))
  | Some root =>
      if negb (yyjson_is_obj (Some root)) then Ret (inr (ERR_PARSE, lit "Response root is not an object"))
      else
        match yyjson_obj_get (Some root) (lit "error") with
        | Some error_obj => Ret (inr (api_error (Some error_obj)))
        | None =>
            let model := model_field (Some root) in
            let usage := parse_chat_usage (yyjson_obj_get (Some root) (lit "usage")) in
            match yyjson_arr_elements (yyjson_obj_get (Some root) (lit "choices")) with
            | [] => Ret (inl (mk_response [] IK_FINISH_UNKNOWN usage model))
            | choice :: _ => chat_choice (Some choice) model usage
            end
        end
  end.

(** ** Errors *)

Definition map_http_status_to_category (http_status : Z) : ik_error_category :=
  if (http_status =? 400)%Z then IK_ERR_CAT_INVALID_ARG
  else if (http_status =? 401)%Z || (http_status =? 403)%Z then IK_ERR_CAT_AUTH
  else if (http_status =? 404)%Z then IK_ERR_CAT_NOT_FOUND
  else if (http_status =? 429)%Z then IK_ERR_CAT_RATE_LIMIT
  else if (http_status =? 500)%Z || (http_status =? 502)%Z || (http_status =? 503)%Z then IK_ERR_CAT_SERVER
  else IK_ERR_CAT_UNKNOWN.

Definition format_error_message (type_str code_str msg_str : option cstr) (http_status : Z) : cstr :=
  match type_str, code_str, msg_str with
  | Some t, Some c, Some m => t ++ lit " (" ++ c ++ lit "): " ++ m
  | Some t, None, Some m => t ++ lit ": " ++ m
  | None, _, Some m => m
  | Some t, _, None => t
  | None, _, None => lit "HTTP " ++ show_int http_status
  end.

Definition try_parse_json_error (json : list Z) (http_status : Z) : option cstr :=
  match json with
  | [] => None
  | _ =>
      match yyjson_read json with
      | Some (JObj fields) =>
          match yyjson_obj_get (Some (JObj fields)) (lit "error") with
          | None => None
          | Some error_obj =>
              let str k := yyjson_get_str (yyjson_obj_get (Some error_obj) (lit k)) in
              Some (format_error_message (str "type") (str "code") (str "message") http_status)
          end
      | _ => None
      end
  end.

Definition ik_openai_parse_error (http_status : Z) (json : list Z) : ik_error_category * cstr :=
  (map_http_status_to_category http_status,
   default (lit "HTTP " ++ show_int http_status) (try_parse_json_error json http_status)).

Definition is_content_filter (str : option cstr) : bool :=
  match str with None => false | Some s => match strstr s (lit "content_filter") with Some _ => true | None => false end end.

(** "yyjson_is_str(v) ? yyjson_get_str(v) : NULL" is [yyjson_get_str v].  The
    category is set even when the body cannot be read. *)
Definition ik_openai_handle_error (status : Z) (body : cstr) : ik_error_category * option err_code :=
  let category := map_http_status_to_category status in
  match yyjson_read body with
  | None => (category, Some ERR_PARSE)
  | Some root =>
      let error_obj := yyjson_obj_get (Some root) (lit "error") in
      if yyjson_is_obj error_obj then
        let code := yyjson_get_str (yyjson_obj_get error_obj (lit "code")) in
        let type := yyjson_get_str (yyjson_obj_get error_obj (lit "type")) in
        let refined :=
          if is_content_filter code || is_content_filter type then IK_ERR_CAT_CONTENT_FILTER
          else
            match code with
            | None => category
            | Some c =>
                if strcmp_eq c (lit "invalid_api_key") || strcmp_eq c (lit "invalid_org") then IK_ERR_CAT_AUTH
                else if strcmp_eq c (lit "rate_limit_exceeded") || strcmp_eq c (lit "quota_exceeded") then
                  IK_ERR_CAT_RATE_LIMIT
                else if strcmp_eq c (lit "model_not_found") then IK_ERR_CAT_NOT_FOUND
                else category
            end in
        (refined, None)
      else (category, None)
  end.

End chat.

(** ** Responses *)

Section responses.
Context `{Yyjson}.

(** The same code as in response_chat.c. *)
Definition parse_usage (usage_val : option json) : ik_usage := parse_chat_usage usage_val.

Definition parse_function_call (item : option json) : outcome (ik_content_block + reported) :=
  let id := yyjson_get_str (yyjson_obj_get item (lit "id")) in
  let id := match yyjson_get_str (yyjson_obj_get item (lit "call_id")) with Some c => Some c | None => id end in
  match id with
  | None => Ret (inr (ERR_PARSE, lit "Function call missing 'id' or 'call_id' field"))
  | Some id =>
      let? name := required_str (yyjson_obj_get item (lit "name"))
                     "Function call missing 'name' field" "Function call 'name' is not a string" in
      let? args := required_str (yyjson_obj_get item (lit "arguments"))
                     "Function call missing 'arguments' field" "Function call 'arguments' is not a string" in
      Ret (inl (IK_CONTENT_TOOL_CALL (Some id) (Some name) (Some args) None))
  end.

Definition item_type (item : option json) : option cstr := yyjson_get_str (yyjson_obj_get item (lit "type")).

Definition item_blocks (item : json) : nat :=
  match item_type (Some item) with
  | None => 0
  | Some type =>
      if strcmp_eq type (lit "message") then yyjson_arr_size (yyjson_obj_get (Some item) (lit "content"))
      else if strcmp_eq type (lit "function_call") then 1 else 0
  end.

Definition count_content_blocks (output : list json) : nat := sum_list (item_blocks <$> output).

(** The array of blocks and the number used. *)
Abbreviation blocks_used := (list (option ik_content_block) * nat)%type.

Definition add_block (b : ik_content_block) (st : blocks_used) : outcome blocks_used :=
  let! blocks := arr_set (snd st) (Some b) (fst st) in Ret (blocks, S (snd st)).

Definition process_output_text (content_item : option json) (st : blocks_used) : outcome blocks_used :=
  match yyjson_get_str (yyjson_obj_get content_item (lit "text")) with
  | None => Ret st
  | Some text => add_block (IK_CONTENT_TEXT (Some text)) st
  end.

Definition process_refusal (content_item : option json) (st : blocks_used) : outcome blocks_used :=
  match yyjson_get_str (yyjson_obj_get content_item (lit "refusal")) with
  | None => Ret st
  | Some refusal => add_block (IK_CONTENT_TEXT (Some refusal)) st
  end.

Definition process_content_item (content_item : option json) (st : blocks_used) : outcome blocks_used :=
  match item_type content_item with
  | None => Ret st
  | Some content_type =>
      if strcmp_eq content_type (lit "output_text") then process_output_text content_item st
      else if strcmp_eq content_type (lit "refusal") then process_refusal content_item st
      else Ret st
  end.

Fixpoint process_message_content (items : list json) (st : blocks_used) : outcome blocks_used :=
  match items with
  | [] => Ret st
  | item :: items => let! st := process_content_item (Some item) st in process_message_content items st
  end.

Definition process_output_item (item : json) (st : blocks_used) : outcome (blocks_used + reported) :=
  match item_type (Some item) with
  | None => Ret (inl st)
  | Some type =>
      if strcmp_eq type (lit "message") then
        let! st := process_message_content
                     (yyjson_arr_elements (yyjson_obj_get (Some item) (lit "content"))) st in
        Ret (inl st)
      else if strcmp_eq type (lit "function_call") then
        let! r := parse_function_call (Some item) in
        let? block := r in
        let! st := add_block block st in
        Ret (inl st)
      else Ret (inl st)
  end.

Fixpoint process_output (output : list json) (st : blocks_used) : outcome (blocks_used + reported) :=
  match output with
  | [] => Ret (inl st)
  | item :: output =>
      let! r := process_output_item item st in
      let? st := r in
      process_output output st
  end.

Definition ik_openai_map_responses_status (status incomplete_reason : option cstr) : ik_finish_reason :=
  match status with
  | None => IK_FINISH_UNKNOWN
  | Some s =>
      if strcmp_eq s (lit "completed") then IK_FINISH_STOP
      else if strcmp_eq s (lit "failed") then IK_FINISH_ERROR
      else if strcmp_eq s (lit "cancelled") then IK_FINISH_STOP
      else if strcmp_eq s (lit "incomplete") then
        match incomplete_reason with
        | Some r =>
            if strcmp_eq r (lit "max_output_tokens") then IK_FINISH_LENGTH
            else if strcmp_eq r (lit "content_filter") then IK_FINISH_CONTENT_FILTER
            else IK_FINISH_LENGTH
        | None => IK_FINISH_LENGTH
        end
      else IK_FINISH_UNKNOWN
  end.

(** The finish reason of a response object. *)
Definition extract_finish (root : option json) : ik_finish_reason :=
  ik_openai_map_responses_status (yyjson_get_str (yyjson_obj_get root (lit "status")))
    (yyjson_get_str (yyjson_obj_get (yyjson_obj_get root (lit "incomplete_details")) (lit "reason"))).

Definition check_for_error_response (root : option json) : unit + reported :=
  match yyjson_obj_get root (lit "error") with
  | None => inl tt
  | Some error_obj => inr (api_error (Some error_obj))
  end.

(** Model, usage and status, before the content. *)
Definition extract_basic_fields (root : option json) : ik_response :=
  mk_response [] (extract_finish root) (parse_usage (yyjson_obj_get root (lit "usage"))) (model_field root).

Definition ik_openai_parse_responses_response (json : list Z) : outcome (ik_response + reported) :=
  match yyjson_read json with
  | None => Ret (inr (ERR_PARSE, lit "Invalid JSON response"))
  | Some root =>
      if negb (yyjson_is_obj (Some root)) then Ret (inr (ERR_PARSE, lit "Response root is not an object"))
      else
        let? _ := check_for_error_response (Some root) in
        let resp := extract_basic_fields (Some root) in
        let output := yyjson_arr_elements (yyjson_obj_get (Some root) (lit "output")) in
        let content_count := count_content_blocks output in
        if (length output =? 0)%nat || (content_count =? 0)%nat then Ret (inl resp)
        else
          assert! (Z.of_nat content_count <=? 2 ^ 32 - 1)%Z in
          let! r := process_output output (replicate content_count None, 0) in
          let? st := r in
          Ret (inl (mk_response (taken_blocks (fst st) (snd st)) (resp_finish_reason resp) (resp_usage resp)
                      (resp_model resp)))
  end.

End responses.

(** ** The blocks fit

    What the responses stand for, without the array. *)

Section reference.
Context `{Yyjson}.

(** The blocks of a list of tool calls, up to the first that is malformed. *)
Fixpoint calls_of (tool_calls : list json) : list ik_content_block + reported :=
  match tool_calls with
  | [] => inl []
  | tc :: tool_calls =>
      match parse_chat_tool_call (Some tc) with
      | Ret (inl b) => match calls_of tool_calls with inl bs => inl (b :: bs) | inr e => inr e end
      | Ret (inr e) => inr e
      | _ => inr (ERR_PARSE, [])
      end
  end.

Lemma parse_chat_tool_call_ret tc : exists r, parse_chat_tool_call tc = Ret r.
Proof.
  unfold parse_chat_tool_call, rbind. destruct (required_str _ _ _); [|eauto].
  destruct (yyjson_obj_get _ _); [|eauto]. destruct (required_str _ _ _); [|eauto].
  destruct (required_str _ _ _); eauto.
Qed.

Lemma chat_tool_calls_ok tcs : forall blocks rest,
  chat_tool_calls tcs (blocks ++ replicate (length tcs) None ++ rest) (length blocks)
  = Ret (match calls_of tcs with inl bs => inl (blocks ++ (Some <$> bs) ++ rest) | inr e => inr e end).
Proof.
  induction tcs as [|tc tcs IH]; intros blocks rest; [done|].
  cbn [chat_tool_calls calls_of length replicate app]. destruct (parse_chat_tool_call_ret (Some tc)) as [r ->].
  cbn [obind]. destruct r as [b|e]; cbn [rbind]; [|done]. rewrite arr_set_middle. cbn [obind].
  specialize (IH (blocks ++ [Some b]) rest). rewrite length_app, Nat.add_1_r, <- app_assoc in IH.
  cbn [app] in IH. rewrite IH. destruct (calls_of tcs) as [bs|e]; [|done].
  cbn [fmap list_fmap app]. by rewrite <- app_assoc.
Qed.

Lemma calls_of_length tcs bs : calls_of tcs = inl bs -> length bs = length tcs.
Proof.
  revert bs. induction tcs as [|tc tcs IH]; intros bs; cbn [calls_of]; [by intros [= <-]|].
  destruct (parse_chat_tool_call _) as [[b|e]| | | |]; try done.
  destruct (calls_of tcs) as [bs'|]; [|done]. intros [= <-]. cbn. by rewrite (IH bs').
Qed.

Lemma taken_somes (bs : list ik_content_block) rest : taken_blocks ((Some <$> bs) ++ rest) (length bs) = bs.
Proof.
  unfold taken_blocks. rewrite take_app_le by (by rewrite length_fmap).
  rewrite firstn_all2 by (by rewrite length_fmap). induction bs as [|b bs IH]; [done|].
  cbn. by f_equal.
Qed.

(** The blocks of a content item and of an output item. *)
Definition content_blocks (content_item : json) : list ik_content_block :=
  match item_type (Some content_item) with
  | None => []
  | Some t =>
      let text k := match yyjson_get_str (yyjson_obj_get (Some content_item) (lit k)) with
                    | Some s => [IK_CONTENT_TEXT (Some s)] | None => [] end in
      if strcmp_eq t (lit "output_text") then text "text"
      else if strcmp_eq t (lit "refusal") then text "refusal" else []
  end.

Lemma content_blocks_length j : length (content_blocks j) <= 1.
Proof.
  unfold content_blocks. destruct (item_type _); [|cbn; lia].
  destruct (strcmp_eq _ _); [destruct (yyjson_get_str _); cbn; lia|].
  destruct (strcmp_eq _ _); [destruct (yyjson_get_str _); cbn; lia|cbn; lia].
Qed.

Definition output_blocks (item : json) : list ik_content_block + reported :=
  match item_type (Some item) with
  | None => inl []
  | Some t =>
      if strcmp_eq t (lit "message") then
        inl (yyjson_arr_elements (yyjson_obj_get (Some item) (lit "content")) ≫= content_blocks)
      else if strcmp_eq t (lit "function_call") then
        match parse_function_call (Some item) with
        | Ret (inl b) => inl [b]
        | Ret (inr e) => inr e
        | _ => inr (ERR_PARSE, [])
        end
      else inl []
  end.

Fixpoint all_blocks (output : list json) : list ik_content_block + reported :=
  match output with
  | [] => inl []
  | item :: output =>
      match output_blocks item with
      | inr e => inr e
      | inl bs => match all_blocks output with inl bs' => inl (bs ++ bs') | inr e => inr e end
      end
  end.

Lemma parse_function_call_ret item : exists r, parse_function_call item = Ret r.
Proof.
  unfold parse_function_call, rbind. destruct (match _ with Some c => Some c | None => _ end); [|eauto].
  destruct (required_str _ _ _); [|eauto]. destruct (required_str _ _ _); eauto.
Qed.

(** An array with [k] free places after the blocks used. *)
Definition filled (bs : list ik_content_block) (k : nat) : list (option ik_content_block) * nat :=
  ((Some <$> bs) ++ replicate k None, length bs).

Lemma add_block_ok b bs k : add_block b (filled bs (S k)) = Ret (filled (bs ++ [b]) k).
Proof.
  unfold add_block, filled. cbn [fst snd replicate].
  assert (length bs = length (Some <$> bs)) as -> by by rewrite length_fmap.
  rewrite arr_set_middle. cbn [obind]. rewrite fmap_app, <- app_assoc, length_app, length_fmap, Nat.add_1_r. done.
Qed.

Lemma content_item_ok j bs k :
  process_content_item (Some j) (filled bs (S k))
  = Ret (filled (bs ++ content_blocks j) (S k - length (content_blocks j))).
Proof.
  unfold process_content_item, content_blocks, process_output_text, process_refusal.
  assert (filled bs (S k) = filled (bs ++ []) (S k - 0)) as E by by rewrite app_nil_r, Nat.sub_0_r.
  destruct (item_type _); [|by rewrite E].
  repeat (destruct (strcmp_eq _ _); [destruct (yyjson_get_str _); cbn [length];
    [rewrite add_block_ok; by rewrite Nat.sub_succ, Nat.sub_0_r|by rewrite E]|]).
  by rewrite E.
Qed.

Lemma message_content_ok items : forall bs k,
  length items <= k ->
  process_message_content items (filled bs k)
  = Ret (filled (bs ++ (items ≫= content_blocks)) (k - length (items ≫= content_blocks))).
Proof.
  induction items as [|j items IH]; intros bs k Hk; cbn [process_message_content mbind list_bind].
  { by rewrite app_nil_r, Nat.sub_0_r. }
  destruct k as [|k]; [cbn in Hk; lia|]. rewrite content_item_ok. cbn [obind].
  pose proof (content_blocks_length j) as Hj. rewrite IH by (cbn in Hk; lia).
  rewrite <- app_assoc, length_app. do 2 f_equal. lia.
Qed.

Lemma bind_blocks_length items : length (items ≫= content_blocks) <= length items.
Proof.
  induction items as [|j items IH]; [done|]. rewrite bind_cons, length_app. cbn [length].
  pose proof (content_blocks_length j). lia.
Qed.

Lemma output_item_ok item bs k :
  item_blocks item <= k ->
  match output_blocks item with
  | inl bs' => process_output_item item (filled bs k) = Ret (inl (filled (bs ++ bs') (k - length bs'))) /\
               length bs' <= item_blocks item
  | inr e => process_output_item item (filled bs k) = Ret (inr e)
  end.
Proof.
  unfold item_blocks, output_blocks, process_output_item.
  assert (filled bs k = filled (bs ++ []) (k - 0)) as E by by rewrite app_nil_r, Nat.sub_0_r.
  destruct (item_type (Some item)) as [t|]; [|intros _; split; [by rewrite E|cbn; lia]].
  destruct (strcmp_eq t (lit "message")).
  - unfold yyjson_arr_size. intros Hk. rewrite message_content_ok by done. cbn [obind].
    split; [done|]. apply bind_blocks_length.
  - destruct (strcmp_eq t (lit "function_call")); [|intros _; split; [by rewrite E|cbn; lia]].
    intros Hk. destruct (parse_function_call_ret (Some item)) as [[b|e] ->]; cbn [obind rbind]; [|done].
    destruct k as [|k]; [lia|]. rewrite add_block_ok. cbn [obind length]. split; [|lia].
    by rewrite Nat.sub_succ, Nat.sub_0_r.
Qed.

Lemma process_output_ok output : forall bs k,
  count_content_blocks output <= k ->
  process_output output (filled bs k)
  = Ret (match all_blocks output with inl bs' => inl (filled (bs ++ bs') (k - length bs')) | inr e => inr e end).
Proof.
  induction output as [|item output IH]; intros bs k Hk; cbn [process_output all_blocks].
  { by rewrite app_nil_r, Nat.sub_0_r. }
  unfold count_content_blocks in *. cbn [fmap list_fmap] in Hk. rewrite sum_list_cons in Hk.
  pose proof (output_item_ok item bs k ltac:(lia)) as Hi.
  destruct (output_blocks item) as [bs'|e]; [destruct Hi as [-> Hl]|by rewrite Hi]. cbn [obind rbind].
  rewrite IH by lia. destruct (all_blocks output) as [bs''|e]; [|done].
  rewrite <- app_assoc, length_app. do 3 f_equal. lia.
Qed.

Lemma no_blocks output : count_content_blocks output = 0 -> all_blocks output = inl [].
Proof.
  unfold count_content_blocks. induction output as [|item output IH]; [done|].
  cbn [fmap list_fmap all_blocks]. rewrite sum_list_cons. intros Hs.
  pose proof (output_item_ok item [] 0 ltac:(lia)) as Hi.
  destruct (output_blocks item) as [bs|e] eqn:Eo.
  - destruct Hi as [_ Hl]. destruct bs; [|cbn in Hl; lia]. by rewrite IH by lia.
  - exfalso. unfold output_blocks, item_blocks in *. destruct (item_type (Some item)); [|done].
    destruct (strcmp_eq _ _); [done|]. destruct (strcmp_eq _ _); [lia|done].
Qed.

(** The response a root object of the Responses API stands for. *)
Definition responses_of (root : json) : ik_response + reported :=
  match check_for_error_response (Some root) with
  | inr e => inr e
  | inl _ =>
      match all_blocks (yyjson_arr_elements (yyjson_obj_get (Some root) (lit "output"))) with
      | inr e => inr e
      | inl bs => inl (mk_response bs (extract_finish (Some root))
                         (parse_usage (yyjson_obj_get (Some root) (lit "usage"))) (model_field (Some root)))
      end
  end.

End reference.

(** ** Properties *)

Module ResponseProps.

Section props.
Context `{!Yyjson}.

(** the two passes over a response agree.  Whatever the body, reading a
    response of the Responses API never writes outside the array of blocks that
    the first pass counts, and gives the error or the response the JSON stands
    for: the text and refusals of its messages and its function calls in order,
    cut at nothing. *)
Theorem responses_blocks_fit (body : list Z) :
  (forall root, yyjson_read body = Some root ->
   (Z.of_nat (count_content_blocks (yyjson_arr_elements (yyjson_obj_get (Some root) (lit "output")))) < 2 ^ 32)%Z) ->
  ik_openai_parse_responses_response body
  = Ret (match yyjson_read body with
         | None => inr (ERR_PARSE, lit "Invalid JSON response")
         | Some (JObj fields) => responses_of (JObj fields)
         | Some _ => inr (ERR_PARSE, lit "Response root is not an object")
         end).
Proof.
  intros Hc. unfold ik_openai_parse_responses_response. destruct (yyjson_read body) as [root|]; [|done].
  specialize (Hc root eq_refl). unfold responses_of.
  destruct root as [| | | | | |fields]; try done. cbn [yyjson_is_obj negb].
  destruct (check_for_error_response _) as [[]|e]; [|done]. cbn [rbind].
  set (output := yyjson_arr_elements _) in *. set (n := count_content_blocks output) in *.
  destruct ((length output =? 0) || (n =? 0)) eqn:E0.
  { assert (n = 0) as Hn.
    { apply orb_true_iff in E0 as [E0%Nat.eqb_eq|E0%Nat.eqb_eq]; [|done]. unfold n. by destruct output. }
    by rewrite no_blocks. }
  rewrite (proj2 (Z.leb_le _ _)) by lia.
  pose proof (process_output_ok output [] n ltac:(unfold n; lia)) as Ep.
  change (filled [] n) with (replicate n (@None ik_content_block), 0) in Ep. rewrite Ep. cbn [obind].
  destruct (all_blocks output) as [bs|e]; cbn [rbind]; [|done].
  unfold filled. cbn [fst snd app]. by rewrite taken_somes.
Qed.

End props.
End ResponseProps.

Module ResponseExamples.
Import ResponseProps CodedJson.

(** A message with an item of an unknown type, and a function call. *)
Definition some_output : json :=
  JObj [(lit "status", JStr (lit "completed"));
        (lit "output", JArr
          [JObj [(lit "type", JStr (lit "message"));
                 (lit "content", JArr [JObj [(lit "type", JStr (lit "output_text")); (lit "text", JStr (lit "a"))];
                                       JObj [(lit "type", JStr (lit "audio"))];
                                       JObj [(lit "type", JStr (lit "refusal")); (lit "refusal", JStr (lit "b"))]])];
           JObj [(lit "type", JStr (lit "function_call")); (lit "id", JStr (lit "1")); (lit "call_id", JStr (lit "c"));
                 (lit "name", JStr (lit "ls")); (lit "arguments", JStr (lit "{}"))]])].

Lemma responses_blocks_fit_witness :
  exists body, yyjson_write some_output = Some body /\
    ik_openai_parse_responses_response body
    = Ret (inl (mk_response [IK_CONTENT_TEXT (Some (lit "a")); IK_CONTENT_TEXT (Some (lit "b"));
                             IK_CONTENT_TOOL_CALL (Some (lit "c")) (Some (lit "ls")) (Some (lit "{}")) None]
                  IK_FINISH_STOP no_usage None)).
Proof.
  destruct (yyjson_write some_output) as [body|] eqn:E; [|vm_compute in E; discriminate].
  exists body. split; [reflexivity|]. pose proof (write_read _ _ E) as Er.
  rewrite (responses_blocks_fit body); rewrite Er; [vm_compute; reflexivity|].
  intros root [= <-]. vm_compute. reflexivity.
Defined.

End ResponseExamples.
