(* ===== verification/OpenAIStream.v ===== *)
(** * OpenAI streaming (providers/openai/streaming_*.c, openai_handlers.c)

    The events of both APIs, the write callbacks and the completion of a
    stream.  The Responses API uses the SSE parser; for Chat Completions the
    callback cuts the stream into lines itself. *)

From Stdlib Require Import String.
From stdpp Require Import strings.
From S2P Require Import Prelude Slots CString Json ByteArray Conversation Provider Sse Wire Http OpenAIResponse.

(** The structures of both APIs; the parser of the second one is kept beside
    it (Wire). *)
Record ik_openai_stream_ctx := mk_octx {
  o_model : option cstr;
  o_finish_reason : ik_finish_reason;
  o_usage : ik_usage;
  o_started : bool;
  o_in_tool_call : bool;
  o_tool_call_index : Z;
  o_tool_id : option cstr;
  o_tool_name : option cstr;
  o_tool_args : option cstr
}.

(** Both context creations. *)
Definition ik_openai_stream_ctx_create : ik_openai_stream_ctx :=
  mk_octx None IK_FINISH_UNKNOWN no_usage false false (-1) None None None.

Definition o_set_model (m : option cstr) (s : ik_openai_stream_ctx) : ik_openai_stream_ctx :=
  mk_octx m (o_finish_reason s) (o_usage s) (o_started s) (o_in_tool_call s) (o_tool_call_index s)
    (o_tool_id s) (o_tool_name s) (o_tool_args s).
Definition o_set_finish (f : ik_finish_reason) (s : ik_openai_stream_ctx) : ik_openai_stream_ctx :=
  mk_octx (o_model s) f (o_usage s) (o_started s) (o_in_tool_call s) (o_tool_call_index s)
    (o_tool_id s) (o_tool_name s) (o_tool_args s).
Definition o_set_usage (u : ik_usage) (s : ik_openai_stream_ctx) : ik_openai_stream_ctx :=
  mk_octx (o_model s) (o_finish_reason s) u (o_started s) (o_in_tool_call s) (o_tool_call_index s)
    (o_tool_id s) (o_tool_name s) (o_tool_args s).
Definition o_set_started (b : bool) (s : ik_openai_stream_ctx) : ik_openai_stream_ctx :=
  mk_octx (o_model s) (o_finish_reason s) (o_usage s) b (o_in_tool_call s) (o_tool_call_index s)
    (o_tool_id s) (o_tool_name s) (o_tool_args s).
Definition o_set_call (within : bool) (index : Z) (id name args : option cstr) (s : ik_openai_stream_ctx)
  : ik_openai_stream_ctx :=
  mk_octx (o_model s) (o_finish_reason s) (o_usage s) (o_started s) within index id name args.

Abbreviation o_emission := (ik_openai_stream_ctx * list ik_stream_event)%type.

(** One step after another. *)
Definition o_then (m : o_emission) (k : ik_openai_stream_ctx -> o_emission) : o_emission :=
  let '(s, out) := m in let '(s, out') := k s in (s, out ++ out').

Definition ik_openai_maybe_emit_start (s : ik_openai_stream_ctx) : o_emission :=
  if o_started s then (s, []) else (o_set_started true s, [mk_stream_event 0 (IK_STREAM_START (o_model s))]).

Definition ik_openai_maybe_end_tool_call (s : ik_openai_stream_ctx) : o_emission :=
  if o_in_tool_call s then
    (o_set_call false (o_tool_call_index s) (o_tool_id s) (o_tool_name s) (o_tool_args s) s,
     [mk_stream_event (o_tool_call_index s) IK_STREAM_TOOL_CALL_DONE])
  else (s, []).

(** ** Chat Completions: streaming_chat.c, streaming_chat_delta.c *)

(** The same code as for the Responses API. *)
Definition ik_openai_chat_maybe_emit_start : ik_openai_stream_ctx -> o_emission := ik_openai_maybe_emit_start.
Definition ik_openai_chat_maybe_end_tool_call : ik_openai_stream_ctx -> o_emission := ik_openai_maybe_end_tool_call.

Definition process_content_delta (s : ik_openai_stream_ctx) (delta : option json) : o_emission :=
  match yyjson_get_str (yyjson_obj_get delta (lit "content")) with
  | None => (s, [])
  | Some content =>
      o_then (ik_openai_chat_maybe_end_tool_call s) (fun s =>
      o_then (ik_openai_chat_maybe_emit_start s) (fun s =>
      (s, [mk_stream_event 0 (IK_STREAM_TEXT_DELTA (Some content))])))
  end.

Definition ik_openai_chat_process_delta (s : ik_openai_stream_ctx) (delta : option json)
    (finish_reason_str : option cstr) : o_emission :=
  let '(s, out) := process_content_delta s delta in
  match finish_reason_str with
  | Some f => (o_set_finish (ik_openai_map_chat_finish_reason (Some f)) s, out)
  | None => (s, out)
  end.

Definition process_done_marker (s : ik_openai_stream_ctx) : o_emission :=
  o_then (ik_openai_chat_maybe_end_tool_call s) (fun s =>
  (s, [mk_stream_event 0 (IK_STREAM_DONE (o_finish_reason s) (o_usage s))])).

Definition contains (s : cstr) (p : string) : bool := match strstr s (lit p) with Some _ => true | None => false end.

Definition map_error_type (type : option cstr) : ik_error_category :=
  match type with
  | None => IK_ERR_CAT_UNKNOWN
  | Some t =>
      if contains t "authentication" || contains t "permission" then IK_ERR_CAT_AUTH
      else if contains t "rate_limit" then IK_ERR_CAT_RATE_LIMIT
      else if contains t "invalid_request" then IK_ERR_CAT_INVALID_ARG
      else if contains t "server" || contains t "service" then IK_ERR_CAT_SERVER
      else IK_ERR_CAT_UNKNOWN
  end.

(** The event for an error object, if there is one. *)
Definition process_error_object (error_val : option json) : option ik_stream_event :=
  if negb (yyjson_is_obj error_val) then None
  else
    Some (mk_stream_event 0 (IK_STREAM_ERROR
            (map_error_type (yyjson_get_str (yyjson_obj_get error_val (lit "type"))))
            (Some (default (lit "Unknown error") (yyjson_get_str (yyjson_obj_get error_val (lit "message"))))))).

Definition extract_model_if_needed (s : ik_openai_stream_ctx) (root : option json) : ik_openai_stream_ctx :=
  match o_model s with
  | Some _ => s
  | None =>
      match yyjson_get_str (yyjson_obj_get root (lit "model")) with
      | None => s
      | Some model => o_set_model (Some model) s
      end
  end.

Definition process_choices_array (s : ik_openai_stream_ctx) (choices_val : option json) : o_emission :=
  match yyjson_arr_elements choices_val with
  | [] => (s, [])
  | choice0 :: _ =>
      if negb (yyjson_is_obj (Some choice0)) then (s, [])
      else
        let delta_val := yyjson_obj_get (Some choice0) (lit "delta") in
        if negb (yyjson_is_obj delta_val) then (s, [])
        else
          ik_openai_chat_process_delta s delta_val
            (yyjson_get_str (yyjson_obj_get (Some choice0) (lit "finish_reason")))
  end.

(** "if (val != NULL && yyjson_is_int(val)) field = (int32_t)yyjson_get_int(val)" *)
Definition or_int (old : Z) (v : option json) : Z := if yyjson_is_int v then yyjson_get_int v else old.

Definition extract_usage_statistics (s : ik_openai_stream_ctx) (usage_val : option json) : ik_openai_stream_ctx :=
  if negb (yyjson_is_obj usage_val) then s
  else
    let u := o_usage s in
    let details_val := yyjson_obj_get usage_val (lit "completion_tokens_details") in
    o_set_usage
      (mk_usage (or_int (input_tokens u) (yyjson_obj_get usage_val (lit "prompt_tokens")))
         (or_int (output_tokens u) (yyjson_obj_get usage_val (lit "completion_tokens")))
         (or_int (thinking_tokens u) (yyjson_obj_get details_val (lit "reasoning_tokens")))
         (cached_tokens u)
         (or_int (total_tokens u) (yyjson_obj_get usage_val (lit "total_tokens")))) s.

Section chat_stream.
Context `{Yyjson}.

Definition ik_openai_chat_stream_process_data (s : ik_openai_stream_ctx) (data : cstr) : o_emission :=
  if strcmp_eq data (lit "[DONE]") then process_done_marker s
  else
    match yyjson_read data with
    | None => (s, [])
    | Some root =>
        if negb (yyjson_is_obj (Some root)) then (s, [])
        else
          match process_error_object (yyjson_obj_get (Some root) (lit "error")) with
          | Some e => (s, [e])
          | None =>
              let s := extract_model_if_needed s (Some root) in
              let '(s, out) := process_choices_array s (yyjson_obj_get (Some root) (lit "choices")) in
              (extract_usage_statistics s (yyjson_obj_get (Some root) (lit "usage")), out)
          end
    end.

(** [sse_buffer] is the block of the incomplete line, [None] for NULL. *)
Record chat_stream := mk_chat_stream {
  sse_buffer : option (list Z);
  sse_buffer_len : nat;
  parser_ctx : ik_openai_stream_ctx
}.

(** One line, without its newline. *)
Definition chat_line (s : ik_openai_stream_ctx) (line : cstr) : o_emission :=
  if starts_with (lit "data: ") line then ik_openai_chat_stream_process_data s (drop 6 line) else (s, []).

(** "while ((line_end = strchr(line_start, '\n')) != NULL)": each round moves
    [line_start] past a byte. *)
Fixpoint chat_lines (fuel : nat) (buf : list Z) (line_start : nat) (s : ik_openai_stream_ctx)
    (out : list ik_stream_event) : outcome (list Z * nat * ik_openai_stream_ctx * list ik_stream_event) :=
  match fuel with
  | 0 => NoFuel
  | S fuel =>
      let! text := c_string (drop line_start buf) in
      match strchr text NL with
      | None => Ret (buf, line_start, s, out)
      | Some n =>
          let! buf := mem_write (line_start + n) [0%Z] buf in
          let! line := c_string (drop line_start buf) in
          let '(s, out') := chat_line s line in
          chat_lines fuel buf (line_start + n + 1) s (out ++ out')
      end
  end.

Context `{Allocator}.

(** The Chat Completions branch of the write callback. *)
Definition ik_openai_stream_write_callback (st : chat_stream) (bytes : list Z)
  : outcome (chat_stream * list ik_stream_event) :=
  let! block := or_panic (talloc_realloc (default [] (sse_buffer st))
                            (wrap32 (wrap64 (sse_buffer_len st + length bytes + 1)))) in
  let! block := mem_write (sse_buffer_len st) bytes block in
  let len := wrap64 (sse_buffer_len st + length bytes) in
  let! block := mem_write len [0%Z] block in
  let! (block, line_start, s, out) := chat_lines (S len) block 0 (parser_ctx st) [] in
  let remaining := len - line_start in
  if (0 <? remaining)%nat then
    let! block := mem_move 0 line_start remaining block in
    let! block := mem_write remaining [0%Z] block in
    Ret (mk_chat_stream (Some block) remaining s, out)
  else Ret (mk_chat_stream None 0 s, out).

End chat_stream.

(** ** Responses: streaming_responses*.c *)

Definition ik_openai_responses_handle_response_created (s : ik_openai_stream_ctx) (root : option json) : o_emission :=
  let response_val := yyjson_obj_get root (lit "response") in
  let s := match yyjson_get_str (yyjson_obj_get response_val (lit "model")) with
           | Some model => o_set_model (Some model) s
           | None => s
           end in
  ik_openai_maybe_emit_start s.

(** Both deltas: [index_key] names the field of the index. *)
Definition handle_delta (index_key : string) (payload : option cstr -> ik_stream_payload)
    (s : ik_openai_stream_ctx) (root : option json) : o_emission :=
  match yyjson_get_str (yyjson_obj_get root (lit "delta")) with
  | None => (s, [])
  | Some delta =>
      o_then (ik_openai_maybe_emit_start s) (fun s =>
      (s, [mk_stream_event (or_int 0 (yyjson_obj_get root (lit index_key))) (payload (Some delta))]))
  end.

Definition ik_openai_responses_handle_output_text_delta : ik_openai_stream_ctx -> option json -> o_emission :=
  handle_delta "content_index" IK_STREAM_TEXT_DELTA.

Definition ik_openai_responses_handle_reasoning_summary_text_delta
  : ik_openai_stream_ctx -> option json -> o_emission :=
  handle_delta "summary_index" IK_STREAM_THINKING_DELTA.

Definition ik_openai_responses_handle_output_item_added (s : ik_openai_stream_ctx) (root : option json) : o_emission :=
  let item_val := yyjson_obj_get root (lit "item") in
  match yyjson_get_str (yyjson_obj_get item_val (lit "type")) with
  | None => (s, [])
  | Some item_type =>
      if strcmp_eq item_type (lit "function_call") then
        let output_index := or_int 0 (yyjson_obj_get root (lit "output_index")) in
        match yyjson_get_str (yyjson_obj_get item_val (lit "call_id")),
              yyjson_get_str (yyjson_obj_get item_val (lit "name")) with
        | Some call_id, Some name =>
            o_then (ik_openai_maybe_end_tool_call s) (fun s =>
            o_then (ik_openai_maybe_emit_start s) (fun s =>
            (o_set_call true output_index (Some call_id) (Some name) None s,
             [mk_stream_event output_index (IK_STREAM_TOOL_CALL_START (Some call_id) (Some name))])))
        | _, _ => (s, [])
        end
      else (s, [])
  end.

Definition ik_openai_responses_handle_function_call_arguments_delta (s : ik_openai_stream_ctx) (root : option json)
  : o_emission :=
  match yyjson_get_str (yyjson_obj_get root (lit "delta")) with
  | None => (s, [])
  | Some delta =>
      if o_in_tool_call s then
        let output_index := or_int (o_tool_call_index s) (yyjson_obj_get root (lit "output_index")) in
        (o_set_call true (o_tool_call_index s) (o_tool_id s) (o_tool_name s)
           (Some (default [] (o_tool_args s) ++ delta)) s,
         [mk_stream_event output_index (IK_STREAM_TOOL_CALL_DELTA (Some delta))])
      else (s, [])
  end.

Definition ik_openai_responses_handle_output_item_done (s : ik_openai_stream_ctx) (root : option json) : o_emission :=
  let output_index := or_int (-1) (yyjson_obj_get root (lit "output_index")) in
  if o_in_tool_call s && (output_index =? o_tool_call_index s)%Z then
    (o_set_call false (o_tool_call_index s) (o_tool_id s) (o_tool_name s) (o_tool_args s) s,
     [mk_stream_event output_index IK_STREAM_TOOL_CALL_DONE])
  else (s, []).

Definition responses_error_category (type : option cstr) : ik_error_category :=
  match type with
  | None => IK_ERR_CAT_UNKNOWN
  | Some t =>
      if strcmp_eq t (lit "authentication_error") then IK_ERR_CAT_AUTH
      else if strcmp_eq t (lit "rate_limit_error") then IK_ERR_CAT_RATE_LIMIT
      else if strcmp_eq t (lit "invalid_request_error") then IK_ERR_CAT_INVALID_ARG
      else if strcmp_eq t (lit "server_error") then IK_ERR_CAT_SERVER
      else IK_ERR_CAT_UNKNOWN
  end.

Definition ik_openai_responses_handle_error_event (s : ik_openai_stream_ctx) (root : option json) : o_emission :=
  let error_val := yyjson_obj_get root (lit "error") in
  if yyjson_is_obj error_val then
    (s, [mk_stream_event 0 (IK_STREAM_ERROR
           (responses_error_category (yyjson_get_str (yyjson_obj_get error_val (lit "type"))))
           (Some (default (lit "Unknown error") (yyjson_get_str (yyjson_obj_get error_val (lit "message"))))))])
  else (s, []).

Section responses_stream.
Context `{Yyjson}.

Definition ik_openai_responses_stream_process_event (s : ik_openai_stream_ctx) (event_name data : cstr) : o_emission :=
  match yyjson_read data with
  | None => (s, [])
  | Some root =>
      if negb (yyjson_is_obj (Some root)) then (s, [])
      else
        let named k := strcmp_eq event_name (lit k) in
        if named "response.created" then ik_openai_responses_handle_response_created s (Some root)
        else if named "response.output_text.delta" then ik_openai_responses_handle_output_text_delta s (Some root)
        else if named "response.reasoning_summary_text.delta" then
          ik_openai_responses_handle_reasoning_summary_text_delta s (Some root)
        else if named "response.output_item.added" then ik_openai_responses_handle_output_item_added s (Some root)
        else if named "response.function_call_arguments.delta" then
          ik_openai_responses_handle_function_call_arguments_delta s (Some root)
        else if named "response.function_call_arguments.done" then (s, [])
        else if named "response.output_item.done" then ik_openai_responses_handle_output_item_done s (Some root)
        else if named "response.completed" then (s, [])
        else if named "error" then ik_openai_responses_handle_error_event s (Some root)
        else (s, [])
  end.

(** What the write callback does with an event of the parser. *)
Definition responses_event (s : ik_openai_stream_ctx) (e : ik_sse_event) : outcome o_emission :=
  match event e, data e with
  | Some name, Some d => Ret (ik_openai_responses_stream_process_event s name d)
  | _, _ => Ret (s, [])
  end.

Definition ik_openai_responses_stream_write_callback `{Allocator} := stream_write_cb responses_event.

End responses_stream.

(** ** The end of a stream *)

Definition call_block (s : ik_openai_stream_ctx) : option ik_content_block :=
  match o_tool_id s, o_tool_name s with
  | Some id, Some name =>
      Some (IK_CONTENT_TOOL_CALL (Some id) (Some name) (Some (default (lit "{}") (o_tool_args s))) None)
  | _, _ => None
  end.

Definition ik_openai_chat_stream_build_response (s : ik_openai_stream_ctx) : ik_response :=
  mk_response (option_list (call_block s)) (o_finish_reason s) (o_usage s) (o_model s).

Definition ik_openai_responses_stream_build_response (s : ik_openai_stream_ctx) : ik_response :=
  match call_block s with
  | Some block => mk_response [block] IK_FINISH_TOOL_USE (o_usage s) (o_model s)
  | None => mk_response [] (o_finish_reason s) (o_usage s) (o_model s)
  end.

Section completion.
Context `{Yyjson}.

(** The error part of both completion handlers. *)
Definition error_completion (c : ik_http_completion) : ik_provider_completion :=
  let body := match response_body c with Some b => take (response_len c) b | None => [] end in
  match response_body c, (0 <? response_len c)%nat with
  | Some _, true =>
      let '(category, error_msg) := ik_openai_parse_error (http_code c) body in
      mk_completion false (http_code c) None category (Some error_msg) (-1)
  | _, _ =>
      mk_completion false (http_code c) None
        (if (http_code c =? 0)%Z then IK_ERR_CAT_NETWORK else IK_ERR_CAT_UNKNOWN)
        (Some (match http_error c with
               | Some m => m
               | None => lit "HTTP " ++ show_int (http_code c) ++ lit " error"
               end)) (-1)
  end.

Definition is_success (c : ik_http_completion) : bool := match type c with IK_HTTP_SUCCESS => true | _ => false end.

(** [parser] is the stream context, if there is one. *)
Definition ik_openai_stream_completion_handler (use_responses_api : bool) (parser : option ik_openai_stream_ctx)
    (c : ik_http_completion) : ik_provider_completion :=
  if negb (is_success c) then error_completion c
  else
    let build := if use_responses_api then ik_openai_responses_stream_build_response
                 else ik_openai_chat_stream_build_response in
    mk_completion true (http_code c) (build <$> parser) IK_ERR_CAT_UNKNOWN None (-1).

(** The completion of a request that is not streamed. *)
Definition ik_openai_http_completion_handler (use_responses_api : bool) (c : ik_http_completion)
  : outcome ik_provider_completion :=
  if negb (is_success c) then Ret (error_completion c)
  else
    let body := match response_body c with Some b => take (response_len c) b | None => [] end in
    let! r := if use_responses_api then ik_openai_parse_responses_response body
              else ik_openai_parse_chat_response body in
    match r with
    | inr (_, msg) =>
        Ret (mk_completion false (http_code c) None IK_ERR_CAT_UNKNOWN
               (Some (lit "Failed to parse response: " ++ msg)) (-1))
    | inl response => Ret (mk_completion true (http_code c) (Some response) IK_ERR_CAT_UNKNOWN None (-1))
    end.

End completion.

(** ** Lines of a stream *)

(** The complete lines, and what follows the last newline. *)
Fixpoint cut_lines (bs : list Z) : list (list Z) * list Z :=
  match bs with
  | [] => ([], [])
  | b :: bs =>
      let '(ls, r) := cut_lines bs in
      if (b =? NL)%Z then ([] :: ls, r)
      else match ls with l :: ls => ((b :: l) :: ls, r) | [] => ([], b :: r) end
  end.

Lemma cut_line l t : (NL ∉ l) -> cut_lines (l ++ NL :: t) = (l :: fst (cut_lines t), snd (cut_lines t)).
Proof.
  induction l as [|b l IH]; intros Hn; cbn [app cut_lines].
  - by destruct (cut_lines t).
  - apply not_elem_of_cons in Hn as [Hb Hn]. rewrite IH by done.
    by rewrite (proj2 (Z.eqb_neq _ _)) by congruence.
Qed.

Lemma cut_none l : (NL ∉ l) -> cut_lines l = ([], l).
Proof.
  induction l as [|b l IH]; intros Hn; [done|]. apply not_elem_of_cons in Hn as [Hb Hn]. cbn [cut_lines].
  rewrite IH by done. by rewrite (proj2 (Z.eqb_neq _ _)) by congruence.
Qed.

(** Induction on a text, one line at a time. *)
Lemma line_ind (P : list Z -> Prop) :
  (forall l, (NL ∉ l) -> P l) -> (forall l t, (NL ∉ l) -> P t -> P (l ++ NL :: t)) -> forall t, P t.
Proof.
  intros Hn Hs t. remember (length t) as n eqn:En. assert (length t <= n) as Hl by lia. clear En.
  revert t Hl. induction n as [|n IH]; intros t Hl.
  - destruct t; [apply Hn, not_elem_of_nil|cbn in Hl; lia].
  - destruct (first_line t) as [H|(l & r & -> & H)]; [by apply Hn|]. apply Hs; [done|]. apply IH.
    rewrite length_app in Hl. cbn in Hl. lia.
Qed.

Lemma cut_rest t : (NL ∉ snd (cut_lines t)).
Proof.
  induction t as [l H|l t H IH] using line_ind; [by rewrite cut_none|].
  by rewrite cut_line.
Qed.

Lemma cut_app a b :
  cut_lines (a ++ b) = (fst (cut_lines a) ++ fst (cut_lines (snd (cut_lines a) ++ b)),
                        snd (cut_lines (snd (cut_lines a) ++ b))).
Proof.
  induction a as [l H|l t H IH] using line_ind.
  - rewrite (cut_none l) by done. cbn [fst snd app]. by destruct (cut_lines (l ++ b)).
  - rewrite <- app_assoc. cbn [app]. rewrite !cut_line, IH by done. done.
Qed.

Lemma cut_length t : length (snd (cut_lines t)) <= length t.
Proof.
  induction t as [l H|l t H IH] using line_ind; [by rewrite cut_none|].
  rewrite cut_line, length_app by done. cbn [snd length]. lia.
Qed.

Lemma cut_no_nul t : (0%Z ∉ t) -> (0%Z ∉ snd (cut_lines t)).
Proof.
  induction t as [l H|l t H IH] using line_ind; [by rewrite cut_none|].
  rewrite not_elem_of_app, not_elem_of_cons, cut_line by done. naive_solver.
Qed.

Section chat_reference.
Context `{!Yyjson}.

(** What the lines make of the context, one after the other. *)
Fixpoint chat_fold (s : ik_openai_stream_ctx) (ls : list cstr) : o_emission :=
  match ls with
  | [] => (s, [])
  | l :: ls => o_then (chat_line s l) (fun s => chat_fold s ls)
  end.

Lemma chat_fold_app s ls ls' :
  chat_fold s (ls ++ ls') = o_then (chat_fold s ls) (fun s => chat_fold s ls').
Proof.
  revert s. induction ls as [|l ls IH]; intros s; cbn [app chat_fold]; unfold o_then.
  - by destruct (chat_fold s ls').
  - destruct (chat_line s l) as [s1 o1]. rewrite IH. unfold o_then.
    destruct (chat_fold s1 ls) as [s2 o2]. destruct (chat_fold s2 ls') as [s3 o3]. by rewrite app_assoc.
Qed.

Lemma chat_lines_ok t : forall pre s out fuel,
  (0%Z ∉ t) -> length t < fuel ->
  exists pre', chat_lines fuel (pre ++ t ++ [0%Z]) (length pre) s out
    = Ret (pre' ++ snd (cut_lines t) ++ [0%Z], length pre', fst (chat_fold s (fst (cut_lines t))),
           out ++ snd (chat_fold s (fst (cut_lines t)))) /\
    length pre' + length (snd (cut_lines t)) = length pre + length t.
Proof.
  induction t as [l Hn|l t Hn IH] using line_ind.
  - intros pre s out fuel Hz Hf. destruct fuel as [|fuel]; [lia|]. cbn [chat_lines].
    rewrite drop_app_length, c_string_app by done. cbn [obind]. rewrite strchr_none, cut_none by done.
    cbn [fst snd chat_fold]. exists pre. by rewrite app_nil_r.
  - intros pre s out fuel Hz Hf. destruct fuel as [|fuel]; [lia|]. cbn [chat_lines].
    apply not_elem_of_app in Hz as [Hzl Hz]. apply not_elem_of_cons in Hz as [_ Hz].
    rewrite drop_app_length, <- !app_assoc. cbn [app].
    assert (c_string (l ++ NL :: t ++ [0%Z]) = Ret (l ++ NL :: t)) as ->.
    { change (NL :: t ++ [0%Z]) with ((NL :: t) ++ [0%Z]). rewrite app_assoc. apply c_string_app.
      rewrite not_elem_of_app, not_elem_of_cons. split_and!; done. }
    cbn [obind]. rewrite strchr_app by done.
    change (NL :: t ++ [0%Z]) with ([NL] ++ t ++ [0%Z]). rewrite (app_assoc pre).
    rewrite mem_write_app by (rewrite ?length_app; done). cbn [obind].
    rewrite <- app_assoc, drop_app_length. cbn [app]. rewrite c_string_app by done. cbn [obind].
    rewrite cut_line by done. cbn [fst snd chat_fold]. unfold o_then.
    destruct (chat_line s l) as [s1 o1].
    destruct (IH (pre ++ l ++ [0%Z]) s1 (out ++ o1) fuel Hz) as (pre' & E & El).
    { rewrite length_app in Hf. cbn in Hf. lia. }
    assert (length (pre ++ l ++ [0%Z]) = length pre + length l + 1) as Ep by (rewrite !length_app; cbn; lia).
    rewrite Ep, <- !app_assoc in E. cbn [app] in E. rewrite E. exists pre'.
    destruct (chat_fold s1 (fst (cut_lines t))) as [s2 o2]. cbn [fst snd].
    rewrite app_assoc. split; [done|]. rewrite length_app. cbn [length]. lia.
Qed.

Context `{!Allocator} `{!AllocatorSpec}.

(** The bytes of an incomplete line are kept. *)
Definition chat_rep (st : chat_stream) (bs : list Z) : Prop :=
  sse_buffer_len st = length bs /\ (0%Z ∉ bs) /\ (NL ∉ bs) /\
  match sse_buffer st with None => bs = [] | Some block => exists rest, block = bs ++ 0%Z :: rest end.

Lemma chat_write_ok st bs c :
  chat_rep st bs -> (0%Z ∉ c) -> (Z.of_nat (length bs + length c) < 2 ^ 32 - 1)%Z ->
  exists st', ik_openai_stream_write_callback st c
    = Ret (st', snd (chat_fold (parser_ctx st) (fst (cut_lines (bs ++ c))))) /\
    chat_rep st' (snd (cut_lines (bs ++ c))) /\
    parser_ctx st' = fst (chat_fold (parser_ctx st) (fst (cut_lines (bs ++ c)))).
Proof.
  intros (El & Hz & Hn & Hb) Hc Hl. unfold ik_openai_stream_write_callback. rewrite El.
  rewrite (wrap64_small (length bs + length c + 1)), wrap32_small by lia.
  rewrite (wrap64_small (length bs + length c)) by lia.
  assert (exists rest, talloc_realloc (default [] (sse_buffer st)) (length bs + length c + 1) = Some (bs ++ rest)
          /\ length rest = length c + 1) as (rest & -> & Hr).
  { destruct (realloc_some (default [] (sse_buffer st)) (length bs + length c + 1)) as [new En].
    pose proof (realloc_length _ _ _ En) as Hnl.
    assert (take (length bs) new = bs) as Ht.
    { destruct (sse_buffer st) as [block|]; cbn [default from_option id] in En; [|by subst bs].
      destruct Hb as [r ->]. destruct (decide (length (bs ++ 0%Z :: r) <= length bs + length c + 1)) as [Hs|Hs].
      - pose proof (realloc_prefix _ _ _ En Hs) as Hp. apply (f_equal (take (length bs))) in Hp.
        rewrite take_take, length_app, Nat.min_l, take_app_length in Hp by lia. done.
      - rewrite (realloc_shrink _ _ _ En) by lia. rewrite take_take, Nat.min_l by lia. apply take_app_length. }
    exists (drop (length bs) new). rewrite En.
    split; [f_equal; rewrite <- (take_drop (length bs) new) at 1; by rewrite Ht|]. rewrite length_drop. lia. }
  cbn [or_panic obind]. destruct (split_at (length c) rest) as (old & r1 & -> & Ho & Hr1); [lia|].
  rewrite mem_write_app by done. cbn [obind]. rewrite Hr in Hr1.
  destruct r1 as [|x [|y r1]]; cbn [length] in Hr1; [lia| |lia].
  rewrite app_assoc. pose proof (mem_write_app (length bs + length c) [0%Z] (bs ++ c) [x] []) as Ew.
  rewrite !app_nil_r in Ew. rewrite Ew by (rewrite ?length_app; done). clear Ew. cbn [obind].
  assert ((0%Z ∉ bs ++ c)) as Hzz by (rewrite not_elem_of_app; done).
  destruct (chat_lines_ok (bs ++ c) [] (parser_ctx st) [] (S (length bs + length c)) Hzz) as (pre & E & Hp).
  { rewrite length_app. lia. }
  cbn [app length] in E. rewrite E. cbn [obind]. cbn [length] in Hp. rewrite length_app in Hp.
  set (r := snd (cut_lines (bs ++ c))) in *. replace (length bs + length c - length pre) with (length r) by lia.
  assert ((0%Z ∉ r) /\ (NL ∉ r)) as [Hzr Hnr] by (split; [by apply cut_no_nul|apply cut_rest]).
  destruct (Nat.ltb_spec 0 (length r)) as [Hpos|Hz0].
  - unfold mem_move. rewrite mem_read_app by done. cbn [obind].
    rewrite mem_write_ok by (rewrite !length_app; lia). rewrite take_0. cbn [obind app Nat.add].
    destruct (drop (length r) (pre ++ r ++ [0%Z])) as [|x' rest'] eqn:Ed.
    { apply (f_equal length) in Ed. rewrite length_drop, !length_app in Ed. cbn in Ed. lia. }
    change (x' :: rest') with ([x'] ++ rest'). rewrite mem_write_app by done. cbn [obind].
    eexists. split; [reflexivity|]. split; [|done]. split_and!; try done. cbn [sse_buffer]. by exists rest'.
  - assert (r = []) as Er by (destruct r; [done|cbn in Hz0; lia]).
    eexists. split; [reflexivity|]. split; [|done]. rewrite Er. split_and!; try done; apply not_elem_of_nil.
Qed.

Fixpoint chat_write_all (st : chat_stream) (chunks : list (list Z)) : outcome (chat_stream * list ik_stream_event) :=
  match chunks with
  | [] => Ret (st, [])
  | c :: chunks =>
      let! (st, out) := ik_openai_stream_write_callback st c in
      let! (st, out') := chat_write_all st chunks in
      Ret (st, out ++ out')
  end.

Lemma chat_write_all_ok chunks : forall st bs,
  chat_rep st bs -> (0%Z ∉ concat chunks) -> (Z.of_nat (length bs + length (concat chunks)) < 2 ^ 32 - 1)%Z ->
  exists st', chat_write_all st chunks
    = Ret (st', snd (chat_fold (parser_ctx st) (fst (cut_lines (bs ++ concat chunks))))) /\
    chat_rep st' (snd (cut_lines (bs ++ concat chunks))) /\
    parser_ctx st' = fst (chat_fold (parser_ctx st) (fst (cut_lines (bs ++ concat chunks)))).
Proof.
  induction chunks as [|c chunks IH]; intros st bs Hst Hz Hl; cbn [chat_write_all concat] in *.
  { pose proof Hst as (_ & _ & Hn & _). rewrite app_nil_r, cut_none by done. by exists st. }
  apply not_elem_of_app in Hz as [Hzc Hz]. rewrite length_app in Hl.
  destruct (chat_write_ok st bs c Hst Hzc ltac:(lia)) as (st1 & -> & Hst1 & Ec1). cbn [obind].
  pose proof (cut_length (bs ++ c)) as Hr. rewrite length_app in Hr.
  destruct (IH st1 _ Hst1 Hz) as (st2 & -> & Hst2 & Ec2); [lia|]. cbn [obind].
  rewrite app_assoc, (cut_app (bs ++ c)). cbn [fst snd]. rewrite chat_fold_app. unfold o_then.
  rewrite Ec1 in *. destruct (chat_fold (parser_ctx st) (fst (cut_lines (bs ++ c)))) as [s1 o1]. cbn [fst snd] in *.
  exists st2. destruct (chat_fold s1 _) as [s2 o2]. cbn [fst snd] in *. done.
Qed.

End chat_reference.
