(* ===== verification/Anthropic.v ===== *)
(** * Anthropic streaming (providers/anthropic/streaming.c, streaming_events.c,
    response_helpers.c, and the write callback and completion of anthropic.c)

    Each SSE event updates the stream context and emits stream events; at the
    end of the transfer the context becomes a response. *)

From Stdlib Require Import String.
From stdpp Require Import strings.
From S2P Require Import Prelude CString Json ByteArray Conversation Provider Sse Wire.

(** ** State *)

Inductive ik_content_type : Set :=
| CONTENT_TEXT | CONTENT_TOOL_CALL | CONTENT_TOOL_RESULT | CONTENT_THINKING
| CONTENT_REDACTED_THINKING.

Record ik_anthropic_stream_ctx := mk_sctx {
  model : option cstr;
  finish_reason : ik_finish_reason;
  usage : ik_usage;
  current_block_index : Z;
  current_block_type : ik_content_type;
  current_tool_id : option cstr;
  current_tool_name : option cstr;
  current_tool_args : option cstr;
  current_thinking_text : option cstr;
  current_thinking_signature : option cstr;
  current_redacted_data : option cstr
}.

Definition ik_anthropic_stream_ctx_create : ik_anthropic_stream_ctx :=
  mk_sctx None IK_FINISH_UNKNOWN no_usage (-1) CONTENT_TEXT None None None None None None.

Definition set_model (m : option cstr) (s : ik_anthropic_stream_ctx) : ik_anthropic_stream_ctx :=
  mk_sctx m (finish_reason s) (usage s) (current_block_index s) (current_block_type s)
    (current_tool_id s) (current_tool_name s) (current_tool_args s) (current_thinking_text s)
    (current_thinking_signature s) (current_redacted_data s).
Definition set_finish (f : ik_finish_reason) (s : ik_anthropic_stream_ctx) : ik_anthropic_stream_ctx :=
  mk_sctx (model s) f (usage s) (current_block_index s) (current_block_type s)
    (current_tool_id s) (current_tool_name s) (current_tool_args s) (current_thinking_text s)
    (current_thinking_signature s) (current_redacted_data s).
Definition set_usage (u : ik_usage) (s : ik_anthropic_stream_ctx) : ik_anthropic_stream_ctx :=
  mk_sctx (model s) (finish_reason s) u (current_block_index s) (current_block_type s)
    (current_tool_id s) (current_tool_name s) (current_tool_args s) (current_thinking_text s)
    (current_thinking_signature s) (current_redacted_data s).
Definition set_block (i : Z) (t : ik_content_type) (s : ik_anthropic_stream_ctx)
  : ik_anthropic_stream_ctx :=
  mk_sctx (model s) (finish_reason s) (usage s) i t
    (current_tool_id s) (current_tool_name s) (current_tool_args s) (current_thinking_text s)
    (current_thinking_signature s) (current_redacted_data s).
Definition set_tool (id name args : option cstr) (s : ik_anthropic_stream_ctx)
  : ik_anthropic_stream_ctx :=
  mk_sctx (model s) (finish_reason s) (usage s) (current_block_index s) (current_block_type s)
    id name args (current_thinking_text s) (current_thinking_signature s) (current_redacted_data s).
Definition set_thinking (text signature redacted : option cstr) (s : ik_anthropic_stream_ctx)
  : ik_anthropic_stream_ctx :=
  mk_sctx (model s) (finish_reason s) (usage s) (current_block_index s) (current_block_type s)
    (current_tool_id s) (current_tool_name s) (current_tool_args s) text signature redacted.

(** A handler returns the context and the events it passed to the callback. *)
Abbreviation emission := (ik_anthropic_stream_ctx * list ik_stream_event)%type.

(** "if (val != NULL) { s = yyjson_get_str(val); if (s != NULL) dest = s }" *)
Definition str_or (old : option cstr) (v : option json) : option cstr :=
  match yyjson_get_str v with Some s => Some s | None => old end.

(** "if (val != NULL && yyjson_is_int(val)) dest = (int32_t)yyjson_get_int(val)" *)
Definition int_or (old : Z) (v : option json) : Z :=
  if yyjson_is_int v then yyjson_get_int v else old.

(** ** Event processors *)

Definition ik_anthropic_map_finish_reason (stop_reason : option cstr) : ik_finish_reason :=
  match stop_reason with
  | None => IK_FINISH_UNKNOWN
  | Some s =>
      if strcmp_eq s (lit "end_turn") then IK_FINISH_STOP
      else if strcmp_eq s (lit "max_tokens") then IK_FINISH_LENGTH
      else if strcmp_eq s (lit "tool_use") then IK_FINISH_TOOL_USE
      else if strcmp_eq s (lit "stop_sequence") then IK_FINISH_STOP
      else if strcmp_eq s (lit "refusal") then IK_FINISH_CONTENT_FILTER
      else IK_FINISH_UNKNOWN
  end.

Definition ik_anthropic_process_message_start (s : ik_anthropic_stream_ctx) (root : option json)
  : emission :=
  let message_obj := yyjson_obj_get root (lit "message") in
  let s :=
    if yyjson_is_obj message_obj then
      let s := set_model (str_or (model s) (yyjson_obj_get message_obj (lit "model"))) s in
      let usage_obj := yyjson_obj_get message_obj (lit "usage") in
      if yyjson_is_obj usage_obj then
        let u := usage s in
        set_usage (mk_usage (int_or (input_tokens u) (yyjson_obj_get usage_obj (lit "input_tokens")))
                     (output_tokens u) (thinking_tokens u) (cached_tokens u) (total_tokens u)) s
      else s
    else s in
  (s, [mk_stream_event 0 (IK_STREAM_START (model s))]).

Definition ik_anthropic_process_content_block_start (s : ik_anthropic_stream_ctx)
    (root : option json) : emission :=
  let s := set_block (int_or (current_block_index s) (yyjson_obj_get root (lit "index")))
             (current_block_type s) s in
  let block_obj := yyjson_obj_get root (lit "content_block") in
  if negb (yyjson_is_obj block_obj) then (s, [])
  else
    match yyjson_get_str (yyjson_obj_get block_obj (lit "type")) with
    | None => (s, [])
    | Some type_str =>
        if strcmp_eq type_str (lit "text") then (set_block (current_block_index s) CONTENT_TEXT s, [])
        else if strcmp_eq type_str (lit "thinking") then
          (set_block (current_block_index s) CONTENT_THINKING s, [])
        else if strcmp_eq type_str (lit "redacted_thinking") then
          let s := set_block (current_block_index s) CONTENT_REDACTED_THINKING s in
          (set_thinking (current_thinking_text s) (current_thinking_signature s)
             (str_or (current_redacted_data s) (yyjson_obj_get block_obj (lit "data"))) s, [])
        else if strcmp_eq type_str (lit "tool_use") then
          let s := set_block (current_block_index s) CONTENT_TOOL_CALL s in
          let s := set_tool (str_or (current_tool_id s) (yyjson_obj_get block_obj (lit "id")))
                     (str_or (current_tool_name s) (yyjson_obj_get block_obj (lit "name"))) None s in
          (s, [mk_stream_event (current_block_index s)
                 (IK_STREAM_TOOL_CALL_START (current_tool_id s) (current_tool_name s))])
        else (s, [])
    end.

Definition process_text_delta (s : ik_anthropic_stream_ctx) (delta_obj : option json) (i : Z)
  : emission :=
  match yyjson_get_str (yyjson_obj_get delta_obj (lit "text")) with
  | None => (s, [])
  | Some text => (s, [mk_stream_event i (IK_STREAM_TEXT_DELTA (Some text))])
  end.

Definition process_thinking_delta (s : ik_anthropic_stream_ctx) (delta_obj : option json) (i : Z)
  : emission :=
  match yyjson_get_str (yyjson_obj_get delta_obj (lit "thinking")) with
  | None => (s, [])
  | Some thinking =>
      (set_thinking (Some (default [] (current_thinking_text s) ++ thinking))
         (current_thinking_signature s) (current_redacted_data s) s,
       [mk_stream_event i (IK_STREAM_THINKING_DELTA (Some thinking))])
  end.

Definition process_signature_delta (s : ik_anthropic_stream_ctx) (delta_obj : option json)
  : emission :=
  match yyjson_get_str (yyjson_obj_get delta_obj (lit "signature")) with
  | None => (s, [])
  | Some signature =>
      (set_thinking (current_thinking_text s) (Some signature) (current_redacted_data s) s, [])
  end.

Definition process_input_json_delta (s : ik_anthropic_stream_ctx) (delta_obj : option json) (i : Z)
  : emission :=
  match yyjson_get_str (yyjson_obj_get delta_obj (lit "partial_json")) with
  | None => (s, [])
  | Some partial_json =>
      (set_tool (current_tool_id s) (current_tool_name s)
         (Some (default [] (current_tool_args s) ++ partial_json)) s,
       [mk_stream_event i (IK_STREAM_TOOL_CALL_DELTA (Some partial_json))])
  end.

Definition ik_anthropic_process_content_block_delta (s : ik_anthropic_stream_ctx)
    (root : option json) : emission :=
  let i := int_or 0 (yyjson_obj_get root (lit "index")) in
  let delta_obj := yyjson_obj_get root (lit "delta") in
  if negb (yyjson_is_obj delta_obj) then (s, [])
  else
    match yyjson_get_str (yyjson_obj_get delta_obj (lit "type")) with
    | None => (s, [])
    | Some type_str =>
        if strcmp_eq type_str (lit "text_delta") then process_text_delta s delta_obj i
        else if strcmp_eq type_str (lit "thinking_delta") then process_thinking_delta s delta_obj i
        else if strcmp_eq type_str (lit "signature_delta") then process_signature_delta s delta_obj
        else if strcmp_eq type_str (lit "input_json_delta") then
          process_input_json_delta s delta_obj i
        else (s, [])
    end.

Definition ik_anthropic_process_content_block_stop (s : ik_anthropic_stream_ctx)
    (root : option json) : emission :=
  let i := int_or 0 (yyjson_obj_get root (lit "index")) in
  let events := match current_block_type s with
                | CONTENT_TOOL_CALL => [mk_stream_event i IK_STREAM_TOOL_CALL_DONE]
                | _ => []
                end in
  (set_block (-1) (current_block_type s) s, events).

Definition ik_anthropic_process_message_delta (s : ik_anthropic_stream_ctx) (root : option json)
  : outcome emission :=
  let delta_obj := yyjson_obj_get root (lit "delta") in
  let s :=
    if yyjson_is_obj delta_obj then
      match yyjson_get_str (yyjson_obj_get delta_obj (lit "stop_reason")) with
      | Some stop_reason => set_finish (ik_anthropic_map_finish_reason (Some stop_reason)) s
      | None => s
      end
    else s in
  let usage_obj := yyjson_obj_get root (lit "usage") in
  if yyjson_is_obj usage_obj then
    let u := usage s in
    let out := int_or (output_tokens u) (yyjson_obj_get usage_obj (lit "output_tokens")) in
    let thinking := int_or (thinking_tokens u) (yyjson_obj_get usage_obj (lit "thinking_tokens")) in
    let! t := int_add (input_tokens u) out in
    let! t := int_add t thinking in
    Ret (set_usage (mk_usage (input_tokens u) out thinking (cached_tokens u) t) s, [])
  else Ret (s, []).

Definition ik_anthropic_process_message_stop (s : ik_anthropic_stream_ctx) : emission :=
  (s, [mk_stream_event 0 (IK_STREAM_DONE (finish_reason s) (usage s))]).

Definition error_type_category (type_str : option cstr) : ik_error_category :=
  match type_str with
  | None => IK_ERR_CAT_UNKNOWN
  | Some t =>
      if strcmp_eq t (lit "authentication_error") then IK_ERR_CAT_AUTH
      else if strcmp_eq t (lit "rate_limit_error") then IK_ERR_CAT_RATE_LIMIT
      else if strcmp_eq t (lit "overloaded_error") then IK_ERR_CAT_SERVER
      else if strcmp_eq t (lit "invalid_request_error") then IK_ERR_CAT_INVALID_ARG
      else IK_ERR_CAT_UNKNOWN
  end.

Definition ik_anthropic_process_error (s : ik_anthropic_stream_ctx) (root : option json) : emission :=
  let error_obj := yyjson_obj_get root (lit "error") in
  if negb (yyjson_is_obj error_obj) then
    (s, [mk_stream_event 0 (IK_STREAM_ERROR IK_ERR_CAT_UNKNOWN (Some (lit "Unknown error")))])
  else
    let type_str := yyjson_get_str (yyjson_obj_get error_obj (lit "type")) in
    let message := default (lit "Unknown error")
                     (yyjson_get_str (yyjson_obj_get error_obj (lit "message"))) in
    (s, [mk_stream_event 0 (IK_STREAM_ERROR (error_type_category type_str) (Some message))]).

(** ** Dispatch *)

Section stream.
Context `{Yyjson}.

Definition ik_anthropic_stream_process_event (s : ik_anthropic_stream_ctx) (event data : cstr)
  : outcome emission :=
  if strcmp_eq event (lit "ping") then Ret (s, [])
  else
    match yyjson_read data with
    | None => Ret (s, [mk_stream_event 0 (IK_STREAM_ERROR IK_ERR_CAT_UNKNOWN
                         (Some (lit "Invalid JSON in SSE event")))])
    | Some root =>
        if negb (yyjson_is_obj (Some root)) then
          Ret (s, [mk_stream_event 0 (IK_STREAM_ERROR IK_ERR_CAT_UNKNOWN
                     (Some (lit "SSE event data is not a JSON object")))])
        else if strcmp_eq event (lit "message_start") then
          Ret (ik_anthropic_process_message_start s (Some root))
        else if strcmp_eq event (lit "content_block_start") then
          Ret (ik_anthropic_process_content_block_start s (Some root))
        else if strcmp_eq event (lit "content_block_delta") then
          Ret (ik_anthropic_process_content_block_delta s (Some root))
        else if strcmp_eq event (lit "content_block_stop") then
          Ret (ik_anthropic_process_content_block_stop s (Some root))
        else if strcmp_eq event (lit "message_delta") then
          ik_anthropic_process_message_delta s (Some root)
        else if strcmp_eq event (lit "message_stop") then Ret (ik_anthropic_process_message_stop s)
        else if strcmp_eq event (lit "error") then Ret (ik_anthropic_process_error s (Some root))
        else Ret (s, [])
    end.

(** What the write callback does with an event of the parser. *)
Definition anthropic_event (s : ik_anthropic_stream_ctx) (e : ik_sse_event) : outcome emission :=
  ik_anthropic_stream_process_event s (default [] (event e)) (default [] (data e)).

Definition ik_anthropic_stream_write_cb `{Allocator} := stream_write_cb anthropic_event.

End stream.

(** ** The end of a transfer *)

Definition ik_anthropic_stream_build_response (s : ik_anthropic_stream_ctx) : ik_response :=
  let thinking := match current_thinking_text s with
                  | Some t => [IK_CONTENT_THINKING (Some t) (current_thinking_signature s)]
                  | None => []
                  end in
  let redacted := match current_redacted_data s with
                  | Some d => [IK_CONTENT_REDACTED_THINKING (Some d)]
                  | None => []
                  end in
  let tool := match current_tool_id s, current_tool_name s with
              | Some id, Some name =>
                  [IK_CONTENT_TOOL_CALL (Some id) (Some name)
                     (Some (default (lit "{}") (current_tool_args s))) None]
              | _, _ => []
              end in
  mk_response (thinking ++ redacted ++ tool) (finish_reason s) (usage s) (model s).

(** The status mapping of anthropic_info_read. *)
Definition http_error_category (status : Z) : ik_error_category :=
  if (status =? 401)%Z || (status =? 403)%Z then IK_ERR_CAT_AUTH
  else if (status =? 429)%Z then IK_ERR_CAT_RATE_LIMIT
  else if (500 <=? status)%Z then IK_ERR_CAT_SERVER
  else IK_ERR_CAT_UNKNOWN.

Definition anthropic_info_read (s : ik_anthropic_stream_ctx) (status : Z) : ik_provider_completion :=
  if (200 <=? status)%Z && (status <? 300)%Z then
    mk_completion true status (Some (ik_anthropic_stream_build_response s)) IK_ERR_CAT_UNKNOWN None (-1)
  else
    mk_completion false status None (http_error_category status)
      (Some (lit "HTTP " ++ show_int status)) (-1).
