(* ===== verification/Google.v ===== *)
(** * Google streaming (providers/google/streaming.c, streaming_helpers.c, google.c, response_utils.c, error.c, response_error.c)

    The chunks of a Gemini stream, the write callback, the completion, and the
    error bodies.  The identifiers of tool calls are random: [rand n] is the
    n-th number rand() returns, and the context counts the numbers drawn. *)

From Stdlib Require Import String.
From stdpp Require Import strings.
From S2P Require Import Prelude CString Json ByteArray Conversation Provider Sse Wire Anthropic.

(** ** response_utils.c *)

Definition ALPHABET : cstr := lit "ABCDEFGHIJKLMNOPQRSTUVWXYZabcdefghijklmnopqrstuvwxyz0123456789-_".

Definition ik_google_map_finish_reason (finish_reason : option cstr) : ik_finish_reason :=
  match finish_reason with
  | None => IK_FINISH_UNKNOWN
  | Some s =>
      let named k := strcmp_eq s (lit k) in
      if named "STOP" then IK_FINISH_STOP
      else if named "MAX_TOKENS" then IK_FINISH_LENGTH
      else if named "SAFETY" || named "BLOCKLIST" || named "PROHIBITED_CONTENT" || named "IMAGE_SAFETY" ||
              named "IMAGE_PROHIBITED_CONTENT" || named "RECITATION" then IK_FINISH_CONTENT_FILTER
      else if named "MALFORMED_FUNCTION_CALL" || named "UNEXPECTED_TOOL_CALL" then IK_FINISH_ERROR
      else IK_FINISH_UNKNOWN
  end.

Section signature.
Context `{Yyjson}.

Definition ik_google_extract_thought_signature_from_response (root : option json) : option cstr :=
  let sig :=
    match yyjson_obj_get root (lit "thoughtSignature") with
    | Some sig => Some sig
    | None =>
        match yyjson_arr_elements (yyjson_obj_get root (lit "candidates")) with
        | first :: _ => yyjson_obj_get (Some first) (lit "thoughtSignature")
        | [] => None
        end
    end in
  match yyjson_get_str sig with
  | None | Some [] => None
  | Some sig_str => yyjson_write (JObj (obj_add_str [] (lit "thought_signature") (Some sig_str)))
  end.

End signature.

(** ** The stream context (streaming_internal.h) *)

Record ik_google_stream_ctx := mk_gctx {
  g_model : option cstr;
  g_finish_reason : ik_finish_reason;
  g_usage : ik_usage;
  g_started : bool;
  g_in_thinking : bool;
  g_in_tool_call : bool;
  g_tool_id : option cstr;
  g_tool_name : option cstr;
  g_tool_args : option cstr;
  g_thought_sig : option cstr;
  g_part_index : Z;
  g_drawn : nat
}.

(** [drawn]: the numbers drawn from rand() before this stream. *)
Definition ik_google_stream_ctx_create (drawn : nat) : ik_google_stream_ctx :=
  mk_gctx None IK_FINISH_UNKNOWN no_usage false false false None None None None 0 drawn.

Definition g_set_model (m : option cstr) (s : ik_google_stream_ctx) : ik_google_stream_ctx :=
  mk_gctx m (g_finish_reason s) (g_usage s) (g_started s) (g_in_thinking s) (g_in_tool_call s)
    (g_tool_id s) (g_tool_name s) (g_tool_args s) (g_thought_sig s) (g_part_index s) (g_drawn s).
Definition g_set_finish (f : ik_finish_reason) (s : ik_google_stream_ctx) : ik_google_stream_ctx :=
  mk_gctx (g_model s) f (g_usage s) (g_started s) (g_in_thinking s) (g_in_tool_call s)
    (g_tool_id s) (g_tool_name s) (g_tool_args s) (g_thought_sig s) (g_part_index s) (g_drawn s).
Definition g_set_usage (u : ik_usage) (s : ik_google_stream_ctx) : ik_google_stream_ctx :=
  mk_gctx (g_model s) (g_finish_reason s) u (g_started s) (g_in_thinking s) (g_in_tool_call s)
    (g_tool_id s) (g_tool_name s) (g_tool_args s) (g_thought_sig s) (g_part_index s) (g_drawn s).
Definition g_set_started (b : bool) (s : ik_google_stream_ctx) : ik_google_stream_ctx :=
  mk_gctx (g_model s) (g_finish_reason s) (g_usage s) b (g_in_thinking s) (g_in_tool_call s)
    (g_tool_id s) (g_tool_name s) (g_tool_args s) (g_thought_sig s) (g_part_index s) (g_drawn s).
Definition g_set_thinking (b : bool) (part_index : Z) (s : ik_google_stream_ctx) : ik_google_stream_ctx :=
  mk_gctx (g_model s) (g_finish_reason s) (g_usage s) (g_started s) b (g_in_tool_call s)
    (g_tool_id s) (g_tool_name s) (g_tool_args s) (g_thought_sig s) part_index (g_drawn s).
Definition g_set_in_call (b : bool) (s : ik_google_stream_ctx) : ik_google_stream_ctx :=
  mk_gctx (g_model s) (g_finish_reason s) (g_usage s) (g_started s) (g_in_thinking s) b
    (g_tool_id s) (g_tool_name s) (g_tool_args s) (g_thought_sig s) (g_part_index s) (g_drawn s).
Definition g_set_tool (id name args : option cstr) (drawn : nat) (s : ik_google_stream_ctx) : ik_google_stream_ctx :=
  mk_gctx (g_model s) (g_finish_reason s) (g_usage s) (g_started s) (g_in_thinking s) (g_in_tool_call s)
    id name args (g_thought_sig s) (g_part_index s) drawn.
Definition g_set_sig (sig : option cstr) (s : ik_google_stream_ctx) : ik_google_stream_ctx :=
  mk_gctx (g_model s) (g_finish_reason s) (g_usage s) (g_started s) (g_in_thinking s) (g_in_tool_call s)
    (g_tool_id s) (g_tool_name s) (g_tool_args s) sig (g_part_index s) (g_drawn s).

Abbreviation g_emission := (ik_google_stream_ctx * list ik_stream_event)%type.

Definition g_then (m : outcome g_emission) (k : ik_google_stream_ctx -> outcome g_emission) : outcome g_emission :=
  let! (s, out) := m in let! (s, out') := k s in Ret (s, out ++ out').

Definition ik_google_stream_end_tool_call_if_needed (s : ik_google_stream_ctx) : g_emission :=
  if g_in_tool_call s then
    (g_set_in_call false s, [mk_stream_event (g_part_index s) IK_STREAM_TOOL_CALL_DONE])
  else (s, []).

Definition map_error_status (status : option cstr) : ik_error_category :=
  match status with
  | None => IK_ERR_CAT_UNKNOWN
  | Some s =>
      if strcmp_eq s (lit "UNAUTHENTICATED") then IK_ERR_CAT_AUTH
      else if strcmp_eq s (lit "RESOURCE_EXHAUSTED") then IK_ERR_CAT_RATE_LIMIT
      else if strcmp_eq s (lit "INVALID_ARGUMENT") then IK_ERR_CAT_INVALID_ARG
      else IK_ERR_CAT_UNKNOWN
  end.

Definition ik_google_stream_process_error (s : ik_google_stream_ctx) (error_obj : option json) : g_emission :=
  (s, [mk_stream_event 0 (IK_STREAM_ERROR
         (map_error_status (yyjson_get_str (yyjson_obj_get error_obj (lit "status"))))
         (Some (default (lit "Unknown error") (yyjson_get_str (yyjson_obj_get error_obj (lit "message"))))))]).

Definition process_thinking_part (s : ik_google_stream_ctx) (text : cstr) : outcome g_emission :=
  g_then (Ret (ik_google_stream_end_tool_call_if_needed s)) (fun s =>
  let s := g_set_thinking true (g_part_index s) s in
  Ret (s, [mk_stream_event (g_part_index s) (IK_STREAM_THINKING_DELTA (Some text))])).

Definition process_text_part (s : ik_google_stream_ctx) (text : cstr) : outcome g_emission :=
  g_then (Ret (ik_google_stream_end_tool_call_if_needed s)) (fun s =>
  let! s := if g_in_thinking s then
              let! i := int_add (g_part_index s) 1 in Ret (g_set_thinking false i s)
            else Ret s in
  Ret (s, [mk_stream_event (g_part_index s) (IK_STREAM_TEXT_DELTA (Some text))])).

(** A count that is absent is 0. *)
Definition int_or_zero (v : option json) : Z := match v with Some v => yyjson_get_int (Some v) | None => 0%Z end.

Definition ik_google_stream_process_usage (s : ik_google_stream_ctx) (usage_obj : option json) : outcome g_emission :=
  let prompt := int_or_zero (yyjson_obj_get usage_obj (lit "promptTokenCount")) in
  let candidates := int_or_zero (yyjson_obj_get usage_obj (lit "candidatesTokenCount")) in
  let thoughts := int_or_zero (yyjson_obj_get usage_obj (lit "thoughtsTokenCount")) in
  let! output := int_sub candidates thoughts in
  let s := g_set_usage (mk_usage prompt output thoughts 0
                          (int_or_zero (yyjson_obj_get usage_obj (lit "totalTokenCount")))) s in
  g_then (Ret (ik_google_stream_end_tool_call_if_needed s)) (fun s =>
  Ret (s, [mk_stream_event 0 (IK_STREAM_DONE (g_finish_reason s) (g_usage s))])).

Section stream.
Context `{Yyjson}.
Context (rand : nat -> nat).

(** Twenty-two numbers are drawn for one identifier. *)
Definition ik_google_generate_tool_id (drawn : nat) : cstr :=
  (fun n => nth (rand n mod 64) ALPHABET 0%Z) <$> seq drawn 22.

Definition process_function_call (s : ik_google_stream_ctx) (function_call : option json) : g_emission :=
  let '(s, out) :=
    if g_in_tool_call s then (s, [])
    else
      let id := Some (ik_google_generate_tool_id (g_drawn s)) in
      let name := match yyjson_get_str (yyjson_obj_get function_call (lit "name")) with
                  | Some name => Some name
                  | None => g_tool_name s
                  end in
      (g_set_in_call true (g_set_tool id name (Some []) (g_drawn s + 22) s),
       [mk_stream_event (g_part_index s) (IK_STREAM_TOOL_CALL_START id name)]) in
  match yyjson_obj_get function_call (lit "args") with
  | None => (s, out)
  | Some args_val =>
      match yyjson_write args_val with
      | None => (s, out)
      | Some args_json =>
          (g_set_tool (g_tool_id s) (g_tool_name s) (Some (default [] (g_tool_args s) ++ args_json)) (g_drawn s) s,
           out ++ [mk_stream_event (g_part_index s) (IK_STREAM_TOOL_CALL_DELTA (Some args_json))])
      end
  end.

(** One part of the content. *)
Definition process_part (s : ik_google_stream_ctx) (part : json) : outcome g_emission :=
  let thought_sig := yyjson_get_str (yyjson_obj_get (Some part) (lit "thoughtSignature")) in
  match yyjson_obj_get (Some part) (lit "functionCall") with
  | Some function_call =>
      let s := match thought_sig with Some sig => g_set_sig (Some sig) s | None => s end in
      Ret (process_function_call s (Some function_call))
  | None =>
      let is_thought := yyjson_get_bool (yyjson_obj_get (Some part) (lit "thought")) in
      match yyjson_get_str (yyjson_obj_get (Some part) (lit "text")) with
      | None | Some [] => Ret (s, [])
      | Some text => if is_thought then process_thinking_part s text else process_text_part s text
      end
  end.

Fixpoint ik_google_stream_process_parts (s : ik_google_stream_ctx) (parts : list json) : outcome g_emission :=
  match parts with
  | [] => Ret (s, [])
  | part :: parts => g_then (process_part s part) (fun s => ik_google_stream_process_parts s parts)
  end.

(** The first chunk: the model and the start. *)
Definition first_chunk (s : ik_google_stream_ctx) (root : option json) : g_emission :=
  if g_started s then (s, [])
  else
    let s := match yyjson_get_str (yyjson_obj_get root (lit "modelVersion")) with
             | Some model => g_set_model (Some model) s
             | None => s
             end in
    (g_set_started true s, [mk_stream_event 0 (IK_STREAM_START (g_model s))]).

Definition first_candidate (s : ik_google_stream_ctx) (root : option json) : outcome g_emission :=
  match yyjson_arr_elements (yyjson_obj_get root (lit "candidates")) with
  | [] => Ret (s, [])
  | candidate :: _ =>
      let s := match yyjson_obj_get (Some candidate) (lit "finishReason") with
               | Some v => g_set_finish (ik_google_map_finish_reason (yyjson_get_str (Some v))) s
               | None => s
               end in
      let content := yyjson_obj_get (Some candidate) (lit "content") in
      ik_google_stream_process_parts s (yyjson_arr_elements (yyjson_obj_get content (lit "parts")))
  end.

Definition ik_google_stream_process_data (s : ik_google_stream_ctx) (data : option cstr) : outcome g_emission :=
  match data with
  | None | Some [] => Ret (s, [])
  | Some data =>
      match yyjson_read data with
      | None => Ret (s, [])
      | Some root =>
          if negb (yyjson_is_obj (Some root)) then Ret (s, [])
          else
            match yyjson_obj_get (Some root) (lit "error") with
            | Some error_obj => Ret (ik_google_stream_process_error s (Some error_obj))
            | None =>
                g_then (Ret (first_chunk s (Some root))) (fun s =>
                g_then (first_candidate s (Some root)) (fun s =>
                match yyjson_obj_get (Some root) (lit "usageMetadata") with
                | Some usage_obj => ik_google_stream_process_usage s (Some usage_obj)
                | None => Ret (s, [])
                end))
            end
      end
  end.

(** What the write callback does with an event of the parser: its type is
    ignored. *)
Definition google_event (s : ik_google_stream_ctx) (e : ik_sse_event) : outcome g_emission :=
  ik_google_stream_process_data s (Some (default [] (data e))).

Definition ik_google_stream_write_cb `{Allocator} := stream_write_cb google_event.

End stream.

(** ** The end of a stream *)

Definition ik_google_stream_build_response (s : ik_google_stream_ctx) : ik_response :=
  match g_tool_id s, g_tool_name s with
  | Some id, Some name =>
      mk_response [IK_CONTENT_TOOL_CALL (Some id) (Some name) (Some (default (lit "{}") (g_tool_args s))) (g_thought_sig s)]
        IK_FINISH_TOOL_USE (g_usage s) (g_model s)
  | _, _ => mk_response [] (g_finish_reason s) (g_usage s) (g_model s)
  end.

(** The completion of google_info_read; the mapping of the status is the one
    of Anthropic. *)
Definition google_info_read (s : option ik_google_stream_ctx) (status : Z) : ik_provider_completion :=
  if (200 <=? status)%Z && (status <? 300)%Z then
    mk_completion true status (ik_google_stream_build_response <$> s) IK_ERR_CAT_UNKNOWN None (-1)
  else
    mk_completion false status None (http_error_category status) (Some (lit "HTTP " ++ show_int status)) (-1).

(** ** Errors: error.c, response_error.c *)

Definition status_to_category (status : Z) : ik_error_category :=
  if (status =? 403)%Z then IK_ERR_CAT_AUTH
  else if (status =? 429)%Z then IK_ERR_CAT_RATE_LIMIT
  else if (status =? 400)%Z then IK_ERR_CAT_INVALID_ARG
  else if (status =? 404)%Z then IK_ERR_CAT_NOT_FOUND
  else if (status =? 500)%Z || (status =? 503)%Z then IK_ERR_CAT_SERVER
  else if (status =? 504)%Z then IK_ERR_CAT_TIMEOUT
  else IK_ERR_CAT_UNKNOWN.

Definition google_http_category (http_status : Z) : ik_error_category :=
  if (http_status =? 400)%Z then IK_ERR_CAT_INVALID_ARG
  else if (http_status =? 401)%Z || (http_status =? 403)%Z then IK_ERR_CAT_AUTH
  else if (http_status =? 404)%Z then IK_ERR_CAT_NOT_FOUND
  else if (http_status =? 429)%Z then IK_ERR_CAT_RATE_LIMIT
  else if (http_status =? 500)%Z || (http_status =? 502)%Z || (http_status =? 503)%Z then IK_ERR_CAT_SERVER
  else if (http_status =? 504)%Z then IK_ERR_CAT_TIMEOUT
  else IK_ERR_CAT_UNKNOWN.

Section errors.
Context `{Yyjson}.

(** The body is only read to be checked. *)
Definition ik_google_handle_error (status : Z) (body : cstr) : ik_error_category * option err_code :=
  (status_to_category status, match yyjson_read body with None => Some ERR_PARSE | Some _ => None end).

Definition try_extract_error_message (json : list Z) (http_status : Z) : option cstr :=
  match json with
  | [] => None
  | _ =>
      match yyjson_read json with
      | Some (JObj fields) =>
          match yyjson_get_str (yyjson_obj_get (yyjson_obj_get (Some (JObj fields)) (lit "error")) (lit "message")) with
          | None => None
          | Some msg => Some (show_int http_status ++ lit ": " ++ msg)
          end
      | _ => None
      end
  end.

Definition ik_google_parse_error (http_status : Z) (json : list Z) : ik_error_category * cstr :=
  (google_http_category http_status,
   default (lit "HTTP " ++ show_int http_status) (try_extract_error_message json http_status)).

End errors.

(** ** Lemmas *)

(** Identifiers are 22 characters of the alphabet. *)
Lemma tool_id_alphabet rand drawn :
  length (ik_google_generate_tool_id rand drawn) = 22 /\
  Forall (fun b => b ∈ ALPHABET) (ik_google_generate_tool_id rand drawn).
Proof.
  unfold ik_google_generate_tool_id. split; [by rewrite length_fmap, length_seq|].
  apply Forall_fmap, Forall_forall. intros n _. cbn [compose].
  apply list_elem_of_In, nth_In. change (length ALPHABET) with 64. apply Nat.mod_upper_bound. lia.
Qed.
