(* ===== verification/MockWire.v ===== *)
(** * Writing an event stream (the mock provider's serializers)

    Events as the mock server writes them, and what the client's parser makes of
    them.  [speaks] relates the bytes written to what the client does with
    them; each serializer's proof composes it event by event. *)

From Stdlib Require Import String.
From stdpp Require Import strings.
From S2P Require Import Prelude CString Utf8 Json ByteArray Provider Sse Wire.

(** A queued tool call (mock_queue.h). *)
Record mock_tool_call := mk_call {
  name : cstr;
  arguments_json : cstr
}.

(** The bytes written to the socket.  The text is [NULL] when the writer
    fails, and strlen of it is undefined. *)
Definition write_sse_event (event_name : cstr) (json_str : option cstr) : outcome (list Z) :=
  match json_str with
  | None => Undef
  | Some json_str =>
      Ret (lit "event: " ++ event_name ++ [NL] ++ lit "data: " ++ json_str ++ [NL; NL])
  end.

(** ** Frames *)

(** The text of an event with one data line. *)
Definition frame (event_name json_str : cstr) : list Z :=
  lit "event: " ++ event_name ++ [NL] ++ lit "data: " ++ json_str ++ [NL; NL].

Lemma split_event_skip l r :
  (NL ∉ l) -> (CR ∉ l) ->
  split_event (l ++ r) = (fun x => (l ++ fst x, snd x)) <$> split_event r.
Proof.
  induction l as [|b l IH]; intros Hn Hc.
  { cbn [app]. destruct (split_event r) as [[]|]; reflexivity. }
  apply not_elem_of_cons in Hn as [Hb Hn]. apply not_elem_of_cons in Hc as [Hb' Hc].
  cbn [app split_event starts_with].
  rewrite (proj2 (Z.eqb_neq NL b)), (proj2 (Z.eqb_neq CR b)) by congruence. cbn [andb].
  rewrite IH by done. by destruct (split_event r) as [[]|].
Qed.

Lemma field_of_space nm v : field_of nm (nm ++ SPACE :: v) = Some v.
Proof. unfold field_of. by rewrite starts_with_app, drop_app_length. Qed.

Definition line_safe (s : cstr) : Prop := (NL ∉ s) /\ (CR ∉ s).

Lemma frame_parsed nm js r :
  line_safe nm -> line_safe js ->
  parse_stream (frame nm js ++ r) =
    (mk_event (Some nm) (Some js) :: fst (parse_stream r), snd (parse_stream r)).
Proof.
  intros [Hn1 Hc1] [Hn2 Hc2].
  set (l1 := lit "event:" ++ SPACE :: nm). set (l2 := lit "data:" ++ SPACE :: js).
  assert ((NL ∉ l1) /\ (CR ∉ l1) /\ (NL ∉ l2) /\ (CR ∉ l2)) as (N1 & C1 & N2 & C2).
  { unfold l1, l2. rewrite !not_elem_of_app, !not_elem_of_cons.
    split_and!; try done; try (apply (bool_decide_unpack _); vm_compute; exact I). }
  assert (split_event (frame nm js ++ r) = Some (l1 ++ NL :: l2, r)) as E.
  { replace (frame nm js ++ r) with (l1 ++ NL :: l2 ++ NL :: NL :: r)
      by (unfold frame, l1, l2; by rewrite <- !app_assoc).
    rewrite split_event_skip by done.
    assert (split_event (NL :: l2 ++ NL :: NL :: r) = Some (NL :: l2, r)) as ->; [|done].
    cbn [split_event]. assert (starts_with [NL; NL] (NL :: l2 ++ NL :: NL :: r) = false) as -> by done.
    assert (starts_with [CR; NL; CR; NL] (NL :: l2 ++ NL :: NL :: r) = false) as -> by done.
    rewrite split_event_skip by done. cbn [split_event starts_with].
    change (fmap _ _) with (Some (l2 ++ [], r)). by rewrite app_nil_r. }
  rewrite (parse_stream_some _ _ _ E). f_equal. f_equal.
  unfold event_of. rewrite lines_of_app, lines_of_single by done.
  unfold l1, l2. cbn [omap list_omap]. rewrite !field_of_space.
  change (field_of (lit "event:") (lit "data:" ++ SPACE :: js)) with (@None (list Z)).
  change (field_of (lit "data:") (lit "event:" ++ SPACE :: nm)) with (@None (list Z)).
  cbn [join_lines last fmap list_fmap concat]. by rewrite app_nil_r.
Qed.

(** The text of an event without a name. *)
Definition data_frame (json_str : cstr) : list Z := lit "data: " ++ json_str ++ [NL; NL].

Lemma data_frame_parsed js r :
  line_safe js ->
  parse_stream (data_frame js ++ r) = (mk_event None (Some js) :: fst (parse_stream r), snd (parse_stream r)).
Proof.
  intros [Hn Hc]. set (l := lit "data:" ++ SPACE :: js).
  assert ((NL ∉ l) /\ (CR ∉ l)) as (N & C).
  { unfold l. rewrite !not_elem_of_app, !not_elem_of_cons.
    split_and!; try done; try (apply (bool_decide_unpack _); vm_compute; exact I). }
  assert (split_event (data_frame js ++ r) = Some (l, r)) as E.
  { replace (data_frame js ++ r) with (l ++ NL :: NL :: r) by (unfold data_frame, l; by rewrite <- !app_assoc).
    rewrite split_event_skip by done. cbn [split_event starts_with].
    change (fmap _ _) with (Some (l ++ [], r)). by rewrite app_nil_r. }
  rewrite (parse_stream_some _ _ _ E). f_equal. f_equal.
  unfold event_of. rewrite lines_of_single by done. unfold l. cbn [omap list_omap]. rewrite field_of_space.
  change (field_of (lit "event:") (lit "data:" ++ SPACE :: js)) with (@None (list Z)).
  cbn [join_lines last fmap list_fmap concat]. by rewrite app_nil_r.
Qed.

(** ** What the client does with each event *)

(** Bytes that carry the events [es], whatever follows them. *)
Definition carries (bs : list Z) (es : list ik_sse_event) : Prop :=
  forall r, parse_stream (bs ++ r) = (es ++ fst (parse_stream r), snd (parse_stream r)).

Lemma carries_app bs es bs' es' : carries bs es -> carries bs' es' -> carries (bs ++ bs') (es ++ es').
Proof. intros H1 H2 r. rewrite <- !app_assoc, H1, H2. done. Qed.

Lemma carries_nil : carries [] [].
Proof. intros r. apply surjective_pairing. Qed.

Lemma carries_whole bs es : carries bs es -> parse_stream bs = (es, []).
Proof. intros Hb. specialize (Hb []). rewrite app_nil_r in Hb. rewrite Hb. cbn [fst parse_stream stream_events length snd]. by rewrite app_nil_r. Qed.

Section written.
Context `{!Yyjson} `{!YyjsonSpec}.

(** A written value is one line of text that reads back. *)
Lemma written j :
  writable j -> exists s, yyjson_write j = Some s /\ yyjson_read s = Some j /\ line_safe s /\ (0%Z ∉ s).
Proof.
  intros Hw. destruct (write_some j Hw) as [s E]. exists s. pose proof (write_printable j s E) as Hp.
  split; [done|]. split; [by apply write_read|]. unfold line_safe.
  rewrite Forall_forall in Hp.
  split_and!; intros Hi; apply Hp in Hi; cbv in Hi; destruct Hi; congruence || lia.
Qed.

End written.

Definition call_ok (tc : mock_tool_call) : Prop :=
  is_utf8 (name tc) /\ (0%Z ∉ name tc) /\ is_utf8 (arguments_json tc) /\ (0%Z ∉ arguments_json tc).

(** An identifier made of a name and a number. *)
Definition plain_byte (b : Z) : bool := (0 <? b)%Z && (b <? 128)%Z.

Lemma numbered_id_ok n prefix i :
  forallb plain_byte prefix = true ->
  is_utf8 (snprintf n (prefix ++ show_int i)) /\ (0%Z ∉ snprintf n (prefix ++ show_int i)).
Proof.
  intros Hp. assert (Forall (fun b => (0 < b < 128)%Z) (snprintf n (prefix ++ show_int i))) as Hf.
  { apply Forall_take, Forall_app. split.
    - apply Forall_forall. intros b Hb. rewrite forallb_forall in Hp.
      apply list_elem_of_In, Hp in Hb. unfold plain_byte in Hb. lia.
    - eapply Forall_impl; [apply show_int_printable|]. intros b Hb. cbn beta in Hb. lia. }
  split.
  - apply ascii_utf8. eapply Forall_impl; [exact Hf|]. intros b Hb. cbn beta in Hb. lia.
  - intros Hi. rewrite Forall_forall in Hf. apply Hf in Hi. lia.
Qed.

(** The events of calls that are announced one after the other; [id] numbers them. *)
Fixpoint call_events (id : Z -> cstr) (i : Z) (tcs : list mock_tool_call) : list ik_stream_event :=
  match tcs with
  | [] => []
  | tc :: tcs =>
      [mk_stream_event i (IK_STREAM_TOOL_CALL_START (Some (id i)) (Some (name tc)));
       mk_stream_event i (IK_STREAM_TOOL_CALL_DELTA (Some (arguments_json tc)));
       mk_stream_event i IK_STREAM_TOOL_CALL_DONE] ++ call_events id (i + 1) tcs
  end.

Section client.
Context `{!Yyjson} `{!YyjsonSpec}.
Context {St : Type} (handle : St -> ik_sse_event -> outcome (St * list ik_stream_event)).

(** The serializer's output [w] makes the client do [h]. *)
Definition speaks (w : outcome (list Z)) (h : St -> outcome (St * list ik_stream_event)) : Prop :=
  exists bs es, w = Ret bs /\ carries bs es /\ (0%Z ∉ bs) /\ forall s, process_events handle s es = h s.

Definition and_then (h1 h2 : St -> outcome (St * list ik_stream_event))
    (s : St) : outcome (St * list ik_stream_event) :=
  let! (s, out) := h1 s in let! (s, out') := h2 s in Ret (s, out ++ out').

Lemma speaks_nil : speaks (Ret []) (fun s => Ret (s, [])).
Proof. exists [], []. split_and!; [done|exact carries_nil|apply not_elem_of_nil|done]. Qed.

Lemma speaks_app w1 h1 w2 h2 :
  speaks w1 h1 -> speaks w2 h2 ->
  speaks (let! a := w1 in let! b := w2 in Ret (a ++ b)) (and_then h1 h2).
Proof.
  intros (b1 & e1 & -> & C1 & N1 & H1) (b2 & e2 & -> & C2 & N2 & H2). cbn [obind].
  exists (b1 ++ b2), (e1 ++ e2). split_and!; [done|by apply carries_app|by rewrite not_elem_of_app|].
  intros s. rewrite process_events_app. unfold and_then. rewrite H1.
  destruct (h1 s) as [[s1 o1]| | | |]; [cbn [obind]|done..]. by rewrite H2.
Qed.

Lemma speaks_eq w w' h : w = w' -> speaks w h -> speaks w' h.
Proof. by intros ->. Qed.

(** Names of events: no blank, NUL or line end. *)
Definition plain (nm : cstr) : bool :=
  forallb (fun b => (32 <? b)%Z && (b <? 128)%Z) nm.

Lemma plain_spec nm : plain nm = true -> line_safe nm /\ (0%Z ∉ nm).
Proof.
  unfold plain, line_safe. rewrite forallb_forall. intros Hp.
  split_and!; intros Hi; apply list_elem_of_In, Hp in Hi; vm_compute in Hi; done.
Qed.

Lemma speaks_event nm j h :
  plain nm = true -> writable j ->
  (forall js s, yyjson_read js = Some j -> handle s (mk_event (Some nm) (Some js)) = h s) ->
  speaks (write_sse_event nm (yyjson_write j)) h.
Proof.
  intros Hnm Hj Hh. destruct (written j Hj) as (js & -> & Er & Hs & Hz).
  apply plain_spec in Hnm as [Hl Hz']. exists (frame nm js), [mk_event (Some nm) (Some js)].
  split_and!; [done|intros r; by apply frame_parsed| |].
  - unfold frame. rewrite !not_elem_of_app.
    split_and!; try done; apply (bool_decide_unpack _); vm_compute; exact I.
  - intros s. cbn [process_events]. rewrite (Hh js s Er).
    destruct (h s) as [[s1 o1]| | | |]; [cbn [obind]|done..]. by rewrite app_nil_r.
Qed.

(** An event with an empty object. *)
Lemma speaks_empty nm h :
  plain nm = true -> (forall s, handle s (mk_event (Some nm) (Some (lit "{}"))) = h s) ->
  speaks (write_sse_event nm (Some (lit "{}"))) h.
Proof.
  intros Hnm Hh. apply plain_spec in Hnm as [Hl Hz].
  assert (line_safe (lit "{}")) as Hj by (split; apply (bool_decide_unpack _); vm_compute; exact I).
  exists (frame nm (lit "{}")), [mk_event (Some nm) (Some (lit "{}"))].
  split_and!; [done|intros r; by apply frame_parsed| |].
  - unfold frame. rewrite !not_elem_of_app.
    split_and!; try done; apply (bool_decide_unpack _); vm_compute; exact I.
  - intros s. cbn [process_events]. rewrite Hh.
    destruct (h s) as [[s1 o1]| | | |]; [cbn [obind]|done..]. by rewrite app_nil_r.
Qed.

(** The same for an event without a name. *)
Lemma speaks_data j h (w : option cstr -> outcome (list Z)) :
  (forall js, w (Some js) = Ret (data_frame js)) -> writable j ->
  (forall js s, yyjson_read js = Some j -> (0%Z ∉ js) -> handle s (mk_event None (Some js)) = h s) ->
  speaks (w (yyjson_write j)) h.
Proof.
  intros Hw Hj Hh. destruct (written j Hj) as (js & -> & Er & Hs & Hz). rewrite Hw.
  exists (data_frame js), [mk_event None (Some js)].
  split_and!; [done|intros r; by apply data_frame_parsed| |].
  - unfold data_frame. rewrite !not_elem_of_app.
    split_and!; try done; apply (bool_decide_unpack _); vm_compute; exact I.
  - intros s. cbn [process_events]. rewrite (Hh js s Er Hz).
    destruct (h s) as [[s1 o1]| | | |]; [cbn [obind]|done..]. by rewrite app_nil_r.
Qed.

Lemma speaks_ext w h h' : (forall s, h s = h' s) -> speaks w h -> speaks w h'.
Proof. intros E (b & es & Hb & Hc & Hz & Hh). exists b, es. split_and!; try done. intros s. by rewrite Hh. Qed.

(** The whole output, read in any pieces. *)
Context `{!Allocator} `{!AllocatorSpec}.

Lemma read_back w h s0 s' out :
  speaks w h -> h s0 = Ret (s', out) ->
  exists bs, w = Ret bs /\ forall chunks, concat chunks = bs ->
    (Z.of_nat (length bs) < 2 ^ 31 - 1)%Z ->
    exists p, write_all handle (ik_sse_parser_create, s0) chunks = Ret ((p, s'), out).
Proof.
  intros (bs & es & -> & C & N & P) E. exists bs. split; [done|]. intros chunks <- Hl.
  destruct (receive_all_ok _ [] chunks sse_create_rep eq_refl N) as (p & Er & _); [simpl; lia|].
  cbn [app] in Er. rewrite (carries_whole _ _ C) in Er. cbn [fst] in Er.
  exists p. eapply write_all_ok; [exact Er|]. by rewrite P.
Qed.

End client.

(** Two ways to write the same parts one after the other are equal. *)
Ltac same_writes :=
  repeat match goal with
    | |- context [obind ?w _] =>
        lazymatch w with
        | obind _ _ => fail
        | _ => destruct w; cbn [obind]; [|done..]
        end
    end; rewrite <- ?app_assoc; reflexivity.

Ltac json_writable :=
  repeat first
    [ apply writable_obj | apply writable_arr | apply writable_null | apply writable_str | apply writable_int; lia
    | apply Forall_cons; split | apply Forall_nil | split
    | apply lit_utf8; vm_compute; reflexivity | eassumption ]; try exact I; try done.
