(* ===== verification/MockAnthropic.v ===== *)
(** * The mock provider's Anthropic responses (apps/mock-provider/anthropic_serializer.c)

    The bytes the mock server writes for a queued response.  They are read
    back with the SSE parser and the Anthropic stream of the client. *)

From Stdlib Require Import String.
From stdpp Require Import strings.
From S2P Require Import Prelude CString Utf8 Json ByteArray Conversation Provider Sse Wire Anthropic MockWire.

Section serializer.
Context `{Yyjson}.

Definition build_message_start : option cstr :=
  let message := obj_add_str [] (lit "model") (Some (lit "mock")) in
  let usage := obj_add_val [] (lit "input_tokens") (JInt 0) in
  let message := obj_add_val message (lit "usage") (JObj usage) in
  yyjson_write (JObj (obj_add_val [] (lit "message") (JObj message))).

Definition build_text_block_start (index : Z) : option cstr :=
  let root := obj_add_val [] (lit "index") (JInt index) in
  let block := obj_add_str [] (lit "type") (Some (lit "text")) in
  let block := obj_add_str block (lit "text") (Some []) in
  yyjson_write (JObj (obj_add_val root (lit "content_block") (JObj block))).

Definition build_text_delta (index : Z) (text : cstr) : option cstr :=
  let root := obj_add_val [] (lit "index") (JInt index) in
  let delta := obj_add_str [] (lit "type") (Some (lit "text_delta")) in
  let delta := obj_add_str delta (lit "text") (Some text) in
  yyjson_write (JObj (obj_add_val root (lit "delta") (JObj delta))).

Definition build_block_stop (index : Z) : option cstr :=
  yyjson_write (JObj (obj_add_val [] (lit "index") (JInt index))).

Definition build_message_delta (stop_reason : cstr) : option cstr :=
  let delta := obj_add_str [] (lit "stop_reason") (Some stop_reason) in
  let root := obj_add_val [] (lit "delta") (JObj delta) in
  let usage := obj_add_val [] (lit "output_tokens") (JInt 0) in
  yyjson_write (JObj (obj_add_val root (lit "usage") (JObj usage))).

Definition tool_id (index : Z) : cstr := snprintf 32 (lit "toolu_mock_" ++ show_int index).

Definition build_tool_block_start (index : Z) (name : cstr) : option cstr :=
  let root := obj_add_val [] (lit "index") (JInt index) in
  let block := obj_add_str [] (lit "type") (Some (lit "tool_use")) in
  let block := obj_add_str block (lit "id") (Some (tool_id index)) in
  let block := obj_add_str block (lit "name") (Some name) in
  yyjson_write (JObj (obj_add_val root (lit "content_block") (JObj block))).

Definition build_tool_delta (index : Z) (partial_json : cstr) : option cstr :=
  let root := obj_add_val [] (lit "index") (JInt index) in
  let delta := obj_add_str [] (lit "type") (Some (lit "input_json_delta")) in
  let delta := obj_add_str delta (lit "partial_json") (Some partial_json) in
  yyjson_write (JObj (obj_add_val root (lit "delta") (JObj delta))).

Definition anthropic_serialize_text (content : cstr) : outcome (list Z) :=
  let! a := write_sse_event (lit "message_start") build_message_start in
  let! b := write_sse_event (lit "content_block_start") (build_text_block_start 0) in
  let! c := write_sse_event (lit "content_block_delta") (build_text_delta 0 content) in
  let! d := write_sse_event (lit "content_block_stop") (build_block_stop 0) in
  let! e := write_sse_event (lit "message_delta") (build_message_delta (lit "end_turn")) in
  let! f := write_sse_event (lit "message_stop") (Some (lit "{}")) in
  Ret (a ++ b ++ c ++ d ++ e ++ f).

Fixpoint serialize_calls (i : Z) (tool_calls : list mock_tool_call) : outcome (list Z) :=
  match tool_calls with
  | [] => Ret []
  | tc :: tool_calls =>
      let! a := write_sse_event (lit "content_block_start") (build_tool_block_start i (name tc)) in
      let! b := write_sse_event (lit "content_block_delta") (build_tool_delta i (arguments_json tc)) in
      let! c := write_sse_event (lit "content_block_stop") (build_block_stop i) in
      let! rest := serialize_calls (i + 1) tool_calls in
      Ret (a ++ b ++ c ++ rest)
  end.

Definition anthropic_serialize_tool_calls (tool_calls : list mock_tool_call) : outcome (list Z) :=
  assert! (0 <? length tool_calls)%nat in
  let! a := write_sse_event (lit "message_start") build_message_start in
  let! b := serialize_calls 0 tool_calls in
  let! c := write_sse_event (lit "message_delta") (build_message_delta (lit "tool_use")) in
  let! d := write_sse_event (lit "message_stop") (Some (lit "{}")) in
  Ret (a ++ b ++ c ++ d).

End serializer.

(** ** What the client does with each event *)

Section client.
Context `{!Yyjson} `{!YyjsonSpec}.

#[local] Notation speaks := (speaks anthropic_event).

(** The handlers on the serializer's values *)

Ltac handler := intros js s E; unfold anthropic_event, ik_anthropic_stream_process_event; cbn [event data default from_option id]; rewrite E; cbv -[int32_wrap until_nul int_add]; reflexivity.

Definition on_start (s : ik_anthropic_stream_ctx) : outcome emission :=
  let u := usage s in
  let s := set_usage (mk_usage 0 (output_tokens u) (thinking_tokens u) (cached_tokens u) (total_tokens u))
             (set_model (Some (lit "mock")) s) in
  Ret (s, [mk_stream_event 0 (IK_STREAM_START (Some (lit "mock")))]).

Lemma message_start_speaks :
  speaks (write_sse_event (lit "message_start") build_message_start) on_start.
Proof. apply speaks_event; [done|json_writable|handler]. Qed.

Lemma text_block_start_speaks :
  speaks (write_sse_event (lit "content_block_start") (build_text_block_start 0))
    (fun s => Ret (set_block 0 CONTENT_TEXT s, [])).
Proof. apply speaks_event; [done|json_writable; apply (ascii_utf8 []); constructor|handler]. Qed.

Lemma text_delta_speaks c :
  is_utf8 c -> (0%Z ∉ c) ->
  speaks (write_sse_event (lit "content_block_delta") (build_text_delta 0 c))
    (fun s => Ret (s, [mk_stream_event 0 (IK_STREAM_TEXT_DELTA (Some c))])).
Proof.
  intros Hu Hc. apply speaks_event; [done|json_writable|].
  intros js s E. transitivity (Ret (s, [mk_stream_event 0 (IK_STREAM_TEXT_DELTA (Some (until_nul c)))])).
  - revert js s E. handler.
  - by rewrite until_nul_id.
Qed.

Definition on_stop (i : Z) (s : ik_anthropic_stream_ctx) : outcome emission :=
  Ret (set_block (-1) (current_block_type s) s,
       match current_block_type s with
       | CONTENT_TOOL_CALL => [mk_stream_event i IK_STREAM_TOOL_CALL_DONE]
       | _ => []
       end).

Lemma block_stop_speaks i :
  (0 <= i < 2 ^ 31)%Z ->
  speaks (write_sse_event (lit "content_block_stop") (build_block_stop i)) (on_stop i).
Proof.
  intros Hi. apply speaks_event; [reflexivity|json_writable|]. intros js s E.
  transitivity (on_stop (int32_wrap i) s); [revert js s E; handler|].
  by rewrite int32_wrap_small by lia.
Qed.

Definition on_finish (f : ik_finish_reason) (s : ik_anthropic_stream_ctx) : outcome emission :=
  let u := usage s in
  let! t := int_add (input_tokens u) 0 in
  let! t := int_add t (thinking_tokens u) in
  Ret (set_usage (mk_usage (input_tokens u) 0 (thinking_tokens u) (cached_tokens u) t) (set_finish f s), []).

Lemma message_delta_speaks r :
  r = lit "end_turn" \/ r = lit "tool_use" ->
  speaks (write_sse_event (lit "message_delta") (build_message_delta r))
    (on_finish (ik_anthropic_map_finish_reason (Some r))).
Proof. intros [-> | ->]; (apply speaks_event; [done|json_writable|handler]). Qed.

Lemma message_stop_speaks :
  speaks (write_sse_event (lit "message_stop") (Some (lit "{}")))
    (fun s => Ret (ik_anthropic_process_message_stop s)).
Proof.
  apply speaks_empty; [done|]. intros s. unfold anthropic_event, ik_anthropic_stream_process_event.
  cbn [event data default from_option id]. rewrite read_empty_object. reflexivity.
Qed.

(** One tool call: the context keeps it, in place of the one before it. *)
Definition on_call (i : Z) (tc : mock_tool_call) (s : ik_anthropic_stream_ctx) : outcome emission :=
  Ret (set_block (-1) CONTENT_TOOL_CALL
         (set_tool (Some (tool_id i)) (Some (name tc)) (Some (arguments_json tc)) s),
       [mk_stream_event i (IK_STREAM_TOOL_CALL_START (Some (tool_id i)) (Some (name tc)));
        mk_stream_event i (IK_STREAM_TOOL_CALL_DELTA (Some (arguments_json tc)));
        mk_stream_event i IK_STREAM_TOOL_CALL_DONE]).

Lemma tool_id_ok i : is_utf8 (tool_id i) /\ (0%Z ∉ tool_id i).
Proof. by apply numbered_id_ok. Qed.


Lemma tool_block_start_speaks i nm :
  (0 <= i < 2 ^ 31)%Z -> is_utf8 nm -> (0%Z ∉ nm) ->
  speaks (write_sse_event (lit "content_block_start") (build_tool_block_start i nm))
    (fun s => Ret (set_block i CONTENT_TOOL_CALL (set_tool (Some (tool_id i)) (Some nm) None s),
       [mk_stream_event i (IK_STREAM_TOOL_CALL_START (Some (tool_id i)) (Some nm))])).
Proof.
  intros Hi Hu Hz. destruct (tool_id_ok i) as [Hu' Hz'].
  apply speaks_event; [done|unfold build_tool_block_start; revert Hu'; generalize (tool_id i); intros; json_writable|].
  intros js s E. revert Hz' E. unfold build_tool_block_start. generalize (tool_id i). intros id Hz' E.
  transitivity (Ret (set_block (int32_wrap i) CONTENT_TOOL_CALL
       (set_tool (Some (until_nul id)) (Some (until_nul nm)) None s),
     [mk_stream_event (int32_wrap i) (IK_STREAM_TOOL_CALL_START (Some (until_nul id)) (Some (until_nul nm)))])).
  - revert js s E. handler.
  - by rewrite !until_nul_id, int32_wrap_small by (done || lia).
Qed.

Lemma tool_delta_speaks i args :
  (0 <= i < 2 ^ 31)%Z -> is_utf8 args -> (0%Z ∉ args) ->
  speaks (write_sse_event (lit "content_block_delta") (build_tool_delta i args))
    (fun s => Ret (set_tool (current_tool_id s) (current_tool_name s)
         (Some (default [] (current_tool_args s) ++ args)) s,
       [mk_stream_event i (IK_STREAM_TOOL_CALL_DELTA (Some args))])).
Proof.
  intros Hi Hu Hz. apply speaks_event; [done|json_writable|]. intros js s E.
  transitivity (Ret (set_tool (current_tool_id s) (current_tool_name s)
         (Some (default [] (current_tool_args s) ++ until_nul args)) s,
       [mk_stream_event (int32_wrap i) (IK_STREAM_TOOL_CALL_DELTA (Some (until_nul args)))])).
  - revert js s E. handler.
  - by rewrite until_nul_id, int32_wrap_small by (done || lia).
Qed.

Fixpoint on_calls (i : Z) (tcs : list mock_tool_call) : ik_anthropic_stream_ctx -> outcome emission :=
  match tcs with
  | [] => fun s => Ret (s, [])
  | tc :: tcs => and_then (on_call i tc) (on_calls (i + 1) tcs)
  end.

Lemma calls_speak i tcs :
  (0 <= i)%Z -> (i + Z.of_nat (length tcs) < 2 ^ 31)%Z -> Forall call_ok tcs ->
  speaks (serialize_calls i tcs) (on_calls i tcs).
Proof.
  revert i. induction tcs as [|tc tcs IH]; intros i Hi Hl Hok; [apply speaks_nil|].
  apply Forall_cons in Hok as [(Hu1 & Hz1 & Hu2 & Hz2) Hok]. simpl in Hl.
  destruct (tool_block_start_speaks i (name tc) ltac:(lia) Hu1 Hz1) as (b1 & e1 & E1 & C1 & N1 & P1).
  destruct (tool_delta_speaks i (arguments_json tc) ltac:(lia) Hu2 Hz2) as (b2 & e2 & E2 & C2 & N2 & P2).
  destruct (block_stop_speaks i ltac:(lia)) as (b3 & e3 & E3 & C3 & N3 & P3).
  destruct (IH (i + 1)%Z ltac:(lia) ltac:(lia) Hok) as (b4 & e4 & E4 & C4 & N4 & P4).
  exists (b1 ++ b2 ++ b3 ++ b4), ((e1 ++ e2 ++ e3) ++ e4). cbn [serialize_calls].
  rewrite E1, E2, E3, E4. split_and!; [done| | |].
  - rewrite (app_assoc b1), (app_assoc (b1 ++ b2)), app_assoc. repeat apply carries_app; done.
  - by rewrite !not_elem_of_app.
  - intros s. rewrite process_events_app. cbn [on_calls]. unfold and_then.
    assert (process_events anthropic_event s (e1 ++ e2 ++ e3) = on_call i tc s) as ->.
    { rewrite !process_events_app, P1. cbn [obind]. rewrite process_events_app, P2. cbn [obind].
      by rewrite P3. }
    unfold on_call. cbn [obind]. by rewrite P4.
Qed.

(** The context after the calls. *)
Lemma on_calls_last i tcs tc s :
  on_calls i (tcs ++ [tc]) s =
    Ret (set_block (-1) CONTENT_TOOL_CALL
           (set_tool (Some (tool_id (i + Z.of_nat (length tcs)))) (Some (name tc))
              (Some (arguments_json tc)) s), call_events tool_id i (tcs ++ [tc])).
Proof.
  revert i s. induction tcs as [|tc' tcs IH]; intros i s; cbn [app on_calls call_events length].
  - unfold and_then, on_call. cbn [obind app]. by rewrite Z.add_0_r.
  - unfold and_then at 1. unfold on_call at 1. cbn [obind]. rewrite IH. cbn [obind].
    replace (i + 1 + Z.of_nat (length tcs))%Z with (i + Z.of_nat (S (length tcs)))%Z by lia. done.
Qed.

(** The whole output, read in any pieces. *)
Context `{!Allocator} `{!AllocatorSpec}.

Lemma text_speaks c :
  is_utf8 c -> (0%Z ∉ c) ->
  speaks (anthropic_serialize_text c)
    (and_then on_start (and_then (fun s => Ret (set_block 0 CONTENT_TEXT s, []))
      (and_then (fun s => Ret (s, [mk_stream_event 0 (IK_STREAM_TEXT_DELTA (Some c))]))
        (and_then (on_stop 0) (and_then (on_finish IK_FINISH_STOP) (fun s => Ret (ik_anthropic_process_message_stop s))))))).
Proof.
  intros Hu Hz. eapply speaks_eq; [|apply speaks_app; [exact message_start_speaks|apply speaks_app;
    [exact text_block_start_speaks|apply speaks_app; [by apply text_delta_speaks|apply speaks_app;
    [by apply block_stop_speaks|apply speaks_app; [apply (message_delta_speaks (lit "end_turn")); by left|
    exact message_stop_speaks]]]]]].
  unfold anthropic_serialize_text. same_writes.
Qed.

Lemma calls_all_speak tcs :
  tcs <> [] -> (Z.of_nat (length tcs) < 2 ^ 31)%Z -> Forall call_ok tcs ->
  speaks (anthropic_serialize_tool_calls tcs)
    (and_then on_start (and_then (on_calls 0 tcs)
      (and_then (on_finish IK_FINISH_TOOL_USE)
        (fun s => Ret (ik_anthropic_process_message_stop s))))).
Proof.
  intros Hne Hl Hok. unfold anthropic_serialize_tool_calls.
  rewrite (proj2 (Nat.ltb_lt _ _)) by (destruct tcs; [done|simpl; lia]).
  eapply speaks_eq; [|apply speaks_app; [exact message_start_speaks|apply speaks_app;
    [apply calls_speak; lia || done|apply speaks_app; [apply (message_delta_speaks (lit "tool_use")); by right|
    exact message_stop_speaks]]]].
  same_writes.
Qed.

(** ** The answers read back *)

(** A text answer the mock provider writes reaches the client: whatever the
    pieces the bytes arrive in, the stream's events are the start with the
    model's name, one delta with exactly the text, and the end with reason
    "stop", and the response built from the stream has no blocks. *)
Theorem mock_text_arrives (content : cstr) :
  is_utf8 content -> (0%Z ∉ content) ->
  exists bs, anthropic_serialize_text content = Ret bs /\ forall chunks, concat chunks = bs ->
    (Z.of_nat (length bs) < 2 ^ 31 - 1)%Z ->
    exists p s, write_all anthropic_event (ik_sse_parser_create, ik_anthropic_stream_ctx_create) chunks =
      Ret ((p, s),
           [mk_stream_event 0 (IK_STREAM_START (Some (lit "mock")));
            mk_stream_event 0 (IK_STREAM_TEXT_DELTA (Some content));
            mk_stream_event 0 (IK_STREAM_DONE IK_FINISH_STOP no_usage)]) /\
      ik_anthropic_stream_build_response s = mk_response [] IK_FINISH_STOP no_usage (Some (lit "mock")).
Proof.
  intros Hu Hz. destruct (read_back _ _ _ ik_anthropic_stream_ctx_create (set_block (-1) CONTENT_TEXT (set_finish IK_FINISH_STOP
      (set_model (Some (lit "mock")) ik_anthropic_stream_ctx_create)))
    [mk_stream_event 0 (IK_STREAM_START (Some (lit "mock")));
     mk_stream_event 0 (IK_STREAM_TEXT_DELTA (Some content));
     mk_stream_event 0 (IK_STREAM_DONE IK_FINISH_STOP no_usage)]
    (text_speaks content Hu Hz)) as (bs & E & Hr); [reflexivity|].
  exists bs. split; [exact E|]. intros chunks Hc Hl. destruct (Hr chunks Hc Hl) as (p & Hw).
  exists p. eexists. split; [exact Hw|reflexivity].
Qed.

(** Tool calls the mock provider writes are announced one after the other
    with their names and arguments, but the response built from the stream has
    the last call only: the context keeps one tool call and each start
    overwrites it. *)
Theorem mock_calls_last_one_stays (tcs : list mock_tool_call) (tc : mock_tool_call) :
  Forall call_ok (tcs ++ [tc]) -> (Z.of_nat (length (tcs ++ [tc])) < 2 ^ 31)%Z ->
  exists bs, anthropic_serialize_tool_calls (tcs ++ [tc]) = Ret bs /\ forall chunks, concat chunks = bs ->
    (Z.of_nat (length bs) < 2 ^ 31 - 1)%Z ->
    exists p s, write_all anthropic_event (ik_sse_parser_create, ik_anthropic_stream_ctx_create) chunks =
      Ret ((p, s),
           [mk_stream_event 0 (IK_STREAM_START (Some (lit "mock")))] ++ call_events tool_id 0 (tcs ++ [tc]) ++
           [mk_stream_event 0 (IK_STREAM_DONE IK_FINISH_TOOL_USE no_usage)]) /\
      ik_anthropic_stream_build_response s =
        mk_response [IK_CONTENT_TOOL_CALL (Some (tool_id (Z.of_nat (length tcs)))) (Some (name tc))
                       (Some (arguments_json tc)) None]
          IK_FINISH_TOOL_USE no_usage (Some (lit "mock")).
Proof.
  intros Hok Hl.
  assert (tcs ++ [tc] <> []) as Hne by (destruct tcs; done).
  pose proof (calls_all_speak _ Hne Hl Hok) as Hs.
  destruct (read_back _ _ _ ik_anthropic_stream_ctx_create (set_block (-1) CONTENT_TOOL_CALL
      (set_tool (Some (tool_id (Z.of_nat (length tcs)))) (Some (name tc)) (Some (arguments_json tc))
        (set_finish IK_FINISH_TOOL_USE (set_model (Some (lit "mock")) ik_anthropic_stream_ctx_create))))
    ([mk_stream_event 0 (IK_STREAM_START (Some (lit "mock")))] ++ call_events tool_id 0 (tcs ++ [tc]) ++
     [mk_stream_event 0 (IK_STREAM_DONE IK_FINISH_TOOL_USE no_usage)]) Hs) as (bs & E & Hr).
  - unfold and_then. change (on_start ik_anthropic_stream_ctx_create) with
      (Ret (set_model (Some (lit "mock")) ik_anthropic_stream_ctx_create,
            [mk_stream_event 0 (IK_STREAM_START (Some (lit "mock")))])). cbn [obind].
    rewrite on_calls_last, Z.add_0_l. cbn [obind]. reflexivity.
  - exists bs. split; [exact E|]. intros chunks Hc Hlb. destruct (Hr chunks Hc Hlb) as (p & Hw).
    exists p. eexists. split; [exact Hw|reflexivity].
Qed.

End client.

Module MockExamples.
Import CodedJson ZeroAlloc.

(** The size of an output, computed. *)
Definition fits_client (w : outcome (list Z)) : bool :=
  match w with Ret bs => (Z.of_nat (length bs) <? 2 ^ 31 - 1)%Z | _ => false end.

Lemma fits_size w bs : w = Ret bs -> fits_client w = true -> (Z.of_nat (length bs) < 2 ^ 31 - 1)%Z.
Proof. intros -> Hf. by apply Z.ltb_lt. Qed.

Lemma mock_text_arrives_witness :
  exists bs p s, anthropic_serialize_text (lit "hi") = Ret bs /\
    write_all anthropic_event (ik_sse_parser_create, ik_anthropic_stream_ctx_create) [take 100 bs; drop 100 bs] =
      Ret ((p, s),
           [mk_stream_event 0 (IK_STREAM_START (Some (lit "mock")));
            mk_stream_event 0 (IK_STREAM_TEXT_DELTA (Some (lit "hi")));
            mk_stream_event 0 (IK_STREAM_DONE IK_FINISH_STOP no_usage)]).
Proof.
  destruct (mock_text_arrives (lit "hi")) as (bs & E & Hr);
    [by apply lit_utf8|apply (bool_decide_unpack _); vm_compute; exact I|].
  destruct (Hr [take 100 bs; drop 100 bs]) as (p & s & Hw & _).
  - cbn [concat]. rewrite app_nil_r. apply take_drop.
  - apply (fits_size _ _ E). by vm_compute.
  - exists bs, p, s. split; [exact E|exact Hw].
Defined.

Definition two_calls : list mock_tool_call :=
  [mk_call (lit "ls") (lit "{}"); mk_call (lit "cat") (lit "{a}")].

Lemma two_calls_ok : Forall call_ok two_calls.
Proof.
  repeat constructor; first [by apply lit_utf8 | apply (bool_decide_unpack _); vm_compute; exact I].
Qed.

Lemma mock_calls_last_one_stays_witness :
  exists bs p s out, anthropic_serialize_tool_calls two_calls = Ret bs /\
    write_all anthropic_event (ik_sse_parser_create, ik_anthropic_stream_ctx_create) [bs] = Ret ((p, s), out) /\
    resp_content_blocks (ik_anthropic_stream_build_response s) =
      [IK_CONTENT_TOOL_CALL (Some (lit "toolu_mock_1")) (Some (lit "cat")) (Some (lit "{a}")) None].
Proof.
  destruct (mock_calls_last_one_stays [mk_call (lit "ls") (lit "{}")] (mk_call (lit "cat") (lit "{a}"))
              two_calls_ok) as (bs & E & Hr); [simpl; lia|].
  destruct (Hr [bs]) as (p & s & Hw & Hb).
  - apply app_nil_r.
  - apply (fits_size _ _ E). by vm_compute.
  - do 4 eexists. split; [exact E|]. split; [exact Hw|]. rewrite Hb. by vm_compute.
Defined.

End MockExamples.
