(* ===== verification/MockOpenAI.v ===== *)
(** * The mock provider's OpenAI responses (apps/mock-provider/openai_serializer.c)

    The bytes the mock server writes for a queued response in both formats,
    and what the client reads from them. *)

From Stdlib Require Import String.
From stdpp Require Import strings.
From S2P Require Import Prelude CString Utf8 Json ByteArray Conversation Provider Sse Wire Http OpenAIResponse OpenAIStream MockWire.

Section serializer.
Context `{Yyjson}.

(** ** Chat Completions *)

Definition write_sse_line (json_str : option cstr) : outcome (list Z) :=
  match json_str with
  | None => Undef
  | Some json_str => Ret (lit "data: " ++ json_str ++ [NL; NL])
  end.

Definition write_sse_done : outcome (list Z) := Ret (lit "data: [DONE]" ++ [NL; NL]).

(** What all chunks have in common: one choice with its delta. *)
Definition chunk (delta : list (list Z * json)) (finish_reason : json) (more : list (list Z * json)) : json :=
  let root := obj_add_str [] (lit "id") (Some (lit "mock-1")) in
  let root := obj_add_str root (lit "object") (Some (lit "chat.completion.chunk")) in
  let root := obj_add_str root (lit "model") (Some (lit "mock")) in
  let choice := obj_add_val [] (lit "index") (JInt 0) in
  let choice := obj_add_val choice (lit "delta") (JObj delta) in
  let choice := obj_add_val choice (lit "finish_reason") finish_reason in
  JObj (obj_add_val root (lit "choices") (JArr [JObj choice]) ++ more).

Definition zero_usage : list (list Z * json) :=
  let usage := obj_add_val [] (lit "prompt_tokens") (JInt 0) in
  let usage := obj_add_val usage (lit "completion_tokens") (JInt 0) in
  let usage := obj_add_val usage (lit "total_tokens") (JInt 0) in
  [(lit "usage", JObj usage)].

Definition build_role_chunk : option cstr :=
  yyjson_write (chunk (obj_add_str [] (lit "role") (Some (lit "assistant"))) JNull []).

Definition build_content_chunk (content : cstr) : option cstr :=
  yyjson_write (chunk (obj_add_str [] (lit "content") (Some content)) JNull []).

Definition build_stop_chunk : option cstr := yyjson_write (chunk [] (JStr (lit "stop")) zero_usage).

(** The identifiers are built in a buffer that is out of scope when the document
    is written: [stale_id i] is what the i-th of them points to then. *)
Fixpoint tool_call_values (stale_id : Z -> cstr) (i : Z) (tool_calls : list mock_tool_call) : list json :=
  match tool_calls with
  | [] => []
  | c :: tool_calls =>
      let func := obj_add_str [] (lit "name") (Some (name c)) in
      let func := obj_add_str func (lit "arguments") (Some (arguments_json c)) in
      let tc := obj_add_val [] (lit "index") (JInt i) in
      let tc := obj_add_str tc (lit "id") (Some (stale_id i)) in
      let tc := obj_add_str tc (lit "type") (Some (lit "function")) in
      JObj (obj_add_val tc (lit "function") (JObj func)) :: tool_call_values stale_id (i + 1) tool_calls
  end.

Definition build_tool_call_chunk (stale_id : Z -> cstr) (tool_calls : list mock_tool_call) : option cstr :=
  let delta := obj_add_str [] (lit "role") (Some (lit "assistant")) in
  yyjson_write (chunk (obj_add_val delta (lit "tool_calls") (JArr (tool_call_values stale_id 0 tool_calls))) JNull []).

Definition build_tool_call_stop_chunk : option cstr := yyjson_write (chunk [] (JStr (lit "tool_calls")) zero_usage).

Definition openai_serialize_text (content : cstr) : outcome (list Z) :=
  let! a := write_sse_line build_role_chunk in
  let! b := write_sse_line (build_content_chunk content) in
  let! c := write_sse_line build_stop_chunk in
  let! d := write_sse_done in
  Ret (a ++ b ++ c ++ d).

Definition openai_serialize_tool_calls (stale_id : Z -> cstr) (tool_calls : list mock_tool_call) : outcome (list Z) :=
  assert! (0 <? length tool_calls)%nat in
  let! a := write_sse_line (build_tool_call_chunk stale_id tool_calls) in
  let! b := write_sse_line build_tool_call_stop_chunk in
  let! c := write_sse_done in
  Ret (a ++ b ++ c).

(** ** Responses *)

Definition openai_write_sse_event (event_name : cstr) (json_str : option cstr) : outcome (list Z) :=
  match json_str with
  | None => Undef
  | Some json_str =>
      Ret (lit "event: " ++ event_name ++ ([NL] ++ lit "data: ") ++ json_str ++ [NL; NL])
  end.

Definition build_responses_created : option cstr :=
  let response := obj_add_str [] (lit "model") (Some (lit "mock")) in
  yyjson_write (JObj (obj_add_val [] (lit "response") (JObj response))).

Definition build_responses_text_delta (content : cstr) : option cstr :=
  let root := obj_add_str [] (lit "delta") (Some content) in
  yyjson_write (JObj (obj_add_val root (lit "content_index") (JInt 0))).

Definition openai_responses_serialize_text (content : cstr) : outcome (list Z) :=
  let! a := openai_write_sse_event (lit "response.created") build_responses_created in
  let! b := openai_write_sse_event (lit "response.output_text.delta") (build_responses_text_delta content) in
  let! c := openai_write_sse_event (lit "response.completed") (Some (lit "{}")) in
  Ret (a ++ b ++ c).

Definition call_id (i : Z) : cstr := snprintf 32 (lit "call_mock_" ++ show_int i).

Definition build_item_added (i : Z) (c : mock_tool_call) : option cstr :=
  let root := obj_add_val [] (lit "output_index") (JInt i) in
  let item := obj_add_str [] (lit "type") (Some (lit "function_call")) in
  let item := obj_add_str item (lit "call_id") (Some (call_id i)) in
  let item := obj_add_str item (lit "name") (Some (name c)) in
  yyjson_write (JObj (obj_add_val root (lit "item") (JObj item))).

Definition build_arguments_delta (i : Z) (c : mock_tool_call) : option cstr :=
  let root := obj_add_val [] (lit "output_index") (JInt i) in
  yyjson_write (JObj (obj_add_str root (lit "delta") (Some (arguments_json c)))).

Definition build_item_done (i : Z) : option cstr :=
  yyjson_write (JObj (obj_add_val [] (lit "output_index") (JInt i))).

Fixpoint responses_calls (i : Z) (tool_calls : list mock_tool_call) : outcome (list Z) :=
  match tool_calls with
  | [] => Ret []
  | tc :: tool_calls =>
      let! a := openai_write_sse_event (lit "response.output_item.added") (build_item_added i tc) in
      let! b := openai_write_sse_event (lit "response.function_call_arguments.delta") (build_arguments_delta i tc) in
      let! c := openai_write_sse_event (lit "response.output_item.done") (build_item_done i) in
      let! rest := responses_calls (i + 1) tool_calls in
      Ret (a ++ b ++ c ++ rest)
  end.

Definition openai_responses_serialize_tool_calls (tool_calls : list mock_tool_call) : outcome (list Z) :=
  assert! (0 <? length tool_calls)%nat in
  let! a := openai_write_sse_event (lit "response.created") build_responses_created in
  let! b := responses_calls 0 tool_calls in
  let! c := openai_write_sse_event (lit "response.completed") (Some (lit "{}")) in
  Ret (a ++ b ++ c).

End serializer.

(** ** Chat: what the client does with each line *)

Section chat_client.
Context `{!Yyjson} `{!YyjsonSpec}.

(** The bytes written are whole lines that make the client do [h]. *)
Definition chat_speaks (w : outcome (list Z)) (h : ik_openai_stream_ctx -> o_emission) : Prop :=
  exists bs, w = Ret bs /\ (0%Z ∉ bs) /\ snd (cut_lines bs) = [] /\ forall s, chat_fold s (fst (cut_lines bs)) = h s.

Definition o_and_then (h1 h2 : ik_openai_stream_ctx -> o_emission) (s : ik_openai_stream_ctx) : o_emission :=
  o_then (h1 s) h2.

Lemma chat_speaks_app w1 h1 w2 h2 :
  chat_speaks w1 h1 -> chat_speaks w2 h2 ->
  exists b1 b2, w1 = Ret b1 /\ w2 = Ret b2 /\ chat_speaks (Ret (b1 ++ b2)) (o_and_then h1 h2).
Proof.
  intros (b1 & -> & Z1 & R1 & H1) (b2 & -> & Z2 & R2 & H2). exists b1, b2. split_and!; try done.
  exists (b1 ++ b2). rewrite cut_app, R1. cbn [app fst snd].
  split_and!; [done|by rewrite not_elem_of_app|done|].
  intros s. rewrite chat_fold_app. unfold o_and_then, o_then. rewrite H1.
  destruct (h1 s) as [s1 o1]. by rewrite H2.
Qed.

Lemma chat_speaks_text js h :
  line_safe js -> (0%Z ∉ js) -> (forall s, ik_openai_chat_stream_process_data s js = h s) ->
  chat_speaks (Ret (lit "data: " ++ js ++ [NL; NL])) h.
Proof.
  intros [Hn _] Hz Hh. eexists. split; [reflexivity|].
  assert (lit "data: " ++ js ++ [NL; NL] = (lit "data: " ++ js) ++ NL :: [] ++ NL :: []) as -> by by rewrite <- !app_assoc.
  rewrite cut_line by (rewrite not_elem_of_app; split; [apply (bool_decide_unpack _); vm_compute; exact I|done]).
  rewrite cut_line by apply not_elem_of_nil. cbn [cut_lines fst snd].
  split_and!; [|done|].
  - rewrite not_elem_of_app, not_elem_of_app. split_and!; try done; apply (bool_decide_unpack _); vm_compute; exact I.
  - intros s. cbn [chat_fold]. unfold chat_line. rewrite starts_with_app.
    change 6 with (length (lit "data: ")). rewrite drop_app_length, Hh. unfold o_then.
    change (starts_with (lit "data: ") []) with false. cbn [fst snd]. destruct (h s) as [s1 o1].
    cbn [app]. by rewrite app_nil_r.
Qed.

Lemma chat_speaks_line fields h :
  writable (JObj fields) ->
  (forall js s, yyjson_read js = Some (JObj fields) -> strcmp_eq js (lit "[DONE]") = false ->
     ik_openai_chat_stream_process_data s js = h s) ->
  chat_speaks (write_sse_line (yyjson_write (JObj fields))) h.
Proof.
  intros Hj Hh. destruct (written _ Hj) as (js & -> & Er & Hs & Hz). apply chat_speaks_text; [done..|].
  intros s. apply Hh; [done|]. unfold strcmp_eq. apply bool_decide_eq_false_2. intros ->.
  rewrite read_done_marker in Er. done.
Qed.

Ltac chunk_writable :=
  unfold chunk, zero_usage, obj_add_str, obj_add_val; cbn [app]; json_writable.

(** The model's name, taken from the first chunk. *)
Definition on_model (s : ik_openai_stream_ctx) : ik_openai_stream_ctx :=
  match o_model s with Some _ => s | None => o_set_model (Some (lit "mock")) s end.

Lemma role_chunk_speaks : chat_speaks (write_sse_line build_role_chunk) (fun s => (on_model s, [])).
Proof.
  apply chat_speaks_line; [chunk_writable|]. intros js s E Ed.
  unfold ik_openai_chat_stream_process_data. rewrite Ed, E. destruct s as [[m|] ? ? ? ? ? ? ? ?]; reflexivity.
Qed.

Lemma content_chunk_speaks c :
  is_utf8 c -> (0%Z ∉ c) ->
  chat_speaks (write_sse_line (build_content_chunk c))
    (fun s => o_then (ik_openai_maybe_end_tool_call (on_model s)) (fun s =>
              o_then (ik_openai_maybe_emit_start s) (fun s =>
              (s, [mk_stream_event 0 (IK_STREAM_TEXT_DELTA (Some c))])))).
Proof.
  intros Hu Hc. apply chat_speaks_line; [chunk_writable|]. intros js s E Ed.
  transitivity (o_then (ik_openai_maybe_end_tool_call (on_model s)) (fun s =>
                o_then (ik_openai_maybe_emit_start s) (fun s =>
                (s, [mk_stream_event 0 (IK_STREAM_TEXT_DELTA (Some (until_nul c)))]))));
    [|by rewrite until_nul_id].
  unfold ik_openai_chat_stream_process_data. rewrite Ed, E.
  destruct s as [[m|] ? ? [] [] ? ? ? ?]; reflexivity.
Qed.

Definition on_chat_stop (f : ik_finish_reason) (s : ik_openai_stream_ctx) : o_emission :=
  let s := on_model s in
  let u := o_usage s in
  (o_set_usage (mk_usage 0 0 (thinking_tokens u) (cached_tokens u) 0) (o_set_finish f s), []).

Lemma stop_chunk_speaks : chat_speaks (write_sse_line build_stop_chunk) (on_chat_stop IK_FINISH_STOP).
Proof.
  apply chat_speaks_line; [chunk_writable|]. intros js s E Ed.
  unfold ik_openai_chat_stream_process_data. rewrite Ed, E. destruct s as [[m|] ? ? ? ? ? ? ? ?]; reflexivity.
Qed.

Lemma calls_stop_chunk_speaks :
  chat_speaks (write_sse_line build_tool_call_stop_chunk) (on_chat_stop IK_FINISH_TOOL_USE).
Proof.
  apply chat_speaks_line; [chunk_writable|]. intros js s E Ed.
  unfold ik_openai_chat_stream_process_data. rewrite Ed, E. destruct s as [[m|] ? ? ? ? ? ? ? ?]; reflexivity.
Qed.

Lemma done_speaks : chat_speaks write_sse_done process_done_marker.
Proof.
  apply (chat_speaks_text (lit "[DONE]")); try (unfold line_safe; split_and!);
    try (apply (bool_decide_unpack _); vm_compute; exact I). intros s. reflexivity.
Qed.

Lemma tool_call_values_writable stale_id tcs : forall i,
  (0 <= i)%Z -> (i + Z.of_nat (length tcs) < 2 ^ 31)%Z -> (forall j, is_utf8 (stale_id j)) -> Forall call_ok tcs ->
  Forall writable (tool_call_values stale_id i tcs).
Proof.
  induction tcs as [|tc tcs IH]; intros i Hi Hl Hid Hok; cbn [tool_call_values]; [constructor|].
  apply Forall_cons in Hok as [(Hu1 & _ & Hu2 & _) Hok]. cbn [length] in Hl. constructor; [|apply IH; lia || done].
  unfold obj_add_str, obj_add_val. cbn [app]. pose proof (Hid i). json_writable.
Qed.

(** The calls are not read at all. *)
Lemma tool_call_chunk_speaks stale_id tcs :
  (Z.of_nat (length tcs) < 2 ^ 31)%Z -> (forall j, is_utf8 (stale_id j)) -> Forall call_ok tcs ->
  chat_speaks (write_sse_line (build_tool_call_chunk stale_id tcs)) (fun s => (on_model s, [])).
Proof.
  intros Hl Hid Hok. pose proof (tool_call_values_writable stale_id tcs 0 ltac:(lia) ltac:(lia) Hid Hok) as Hw.
  unfold build_tool_call_chunk. revert Hw. generalize (tool_call_values stale_id 0 tcs). intros vs Hw.
  apply chat_speaks_line; [chunk_writable|]. intros js s E Ed.
  unfold ik_openai_chat_stream_process_data. rewrite Ed, E. destruct s as [[m|] ? ? ? ? ? ? ? ?]; reflexivity.
Qed.

Context `{!Allocator} `{!AllocatorSpec}.

Definition chat_start : chat_stream := mk_chat_stream None 0 ik_openai_stream_ctx_create.

Lemma chat_read_back bs h :
  chat_speaks (Ret bs) h ->
  forall chunks, concat chunks = bs -> (Z.of_nat (length bs) < 2 ^ 32 - 1)%Z ->
  exists st, chat_write_all chat_start chunks = Ret (st, snd (h ik_openai_stream_ctx_create)) /\
    parser_ctx st = fst (h ik_openai_stream_ctx_create).
Proof.
  intros (bs' & [= <-] & Hz & _ & Hh) chunks <- Hl.
  destruct (chat_write_all_ok chunks chat_start []) as (st & E & _ & Ep);
    [split_and!; done || apply not_elem_of_nil|done|cbn; lia|].
  cbn [app] in *. change (parser_ctx chat_start) with ik_openai_stream_ctx_create in *. rewrite Hh in *.
  by exists st.
Qed.

(** A text answer of the mock provider in the Chat Completions format. *)
Lemma chat_text_arrives (content : cstr) :
  is_utf8 content -> (0%Z ∉ content) ->
  exists bs, openai_serialize_text content = Ret bs /\ forall chunks, concat chunks = bs ->
    (Z.of_nat (length bs) < 2 ^ 32 - 1)%Z ->
    exists st, chat_write_all chat_start chunks =
      Ret (st, [mk_stream_event 0 (IK_STREAM_START (Some (lit "mock")));
                mk_stream_event 0 (IK_STREAM_TEXT_DELTA (Some content));
                mk_stream_event 0 (IK_STREAM_DONE IK_FINISH_STOP no_usage)]) /\
      ik_openai_chat_stream_build_response (parser_ctx st)
      = mk_response [] IK_FINISH_STOP no_usage (Some (lit "mock")).
Proof.
  intros Hu Hc.
  destruct (chat_speaks_app _ _ _ _ stop_chunk_speaks done_speaks) as (b3 & b4 & E3 & E4 & H34).
  destruct (chat_speaks_app _ _ _ _ (content_chunk_speaks content Hu Hc) H34) as (b2 & b34 & E2 & [= <-] & H24).
  destruct (chat_speaks_app _ _ _ _ role_chunk_speaks H24) as (b1 & b234 & E1 & [= <-] & H14).
  unfold openai_serialize_text. rewrite E1, E2, E3, E4. cbn [obind]. eexists. split; [reflexivity|].
  intros chunks Hcc Hl. destruct (chat_read_back _ _ H14 chunks Hcc Hl) as (st & Ew & Ep).
  exists st. split; [exact Ew|]. rewrite Ep. reflexivity.
Qed.

(** Tool calls of the mock provider in the Chat Completions format reach
    nobody. *)
Lemma chat_calls_lost stale_id (tcs : list mock_tool_call) :
  tcs <> [] -> (Z.of_nat (length tcs) < 2 ^ 31)%Z -> (forall j, is_utf8 (stale_id j)) -> Forall call_ok tcs ->
  exists bs, openai_serialize_tool_calls stale_id tcs = Ret bs /\ forall chunks, concat chunks = bs ->
    (Z.of_nat (length bs) < 2 ^ 32 - 1)%Z ->
    exists st, chat_write_all chat_start chunks =
      Ret (st, [mk_stream_event 0 (IK_STREAM_DONE IK_FINISH_TOOL_USE no_usage)]) /\
      ik_openai_chat_stream_build_response (parser_ctx st)
      = mk_response [] IK_FINISH_TOOL_USE no_usage (Some (lit "mock")).
Proof.
  intros Hne Hl Hid Hok.
  destruct (chat_speaks_app _ _ _ _ calls_stop_chunk_speaks done_speaks) as (b2 & b3 & E2 & E3 & H23).
  destruct (chat_speaks_app _ _ _ _ (tool_call_chunk_speaks stale_id tcs Hl Hid Hok) H23)
    as (b1 & b23 & E1 & [= <-] & H13).
  unfold openai_serialize_tool_calls. rewrite (proj2 (Nat.ltb_lt _ _)) by (destruct tcs; [done|cbn; lia]).
  rewrite E1, E2, E3. cbn [obind]. eexists. split; [reflexivity|].
  intros chunks Hcc Hlb. destruct (chat_read_back _ _ H13 chunks Hcc Hlb) as (st & Ew & Ep).
  exists st. split; [exact Ew|]. rewrite Ep. reflexivity.
Qed.

End chat_client.

(** ** Responses: what the client does with each event *)

Section responses_client.
Context `{!Yyjson} `{!YyjsonSpec}.

#[local] Notation speaks := (speaks responses_event).

(** Both writers of events write the same bytes. *)
Lemma openai_write_event nm js : openai_write_sse_event nm js = write_sse_event nm js.
Proof. by destruct js. Qed.

Ltac handler :=
  intros js s E; unfold responses_event, ik_openai_responses_stream_process_event; cbn [event data];
  rewrite E; destruct s as [? ? ? [] [] ? ? ? ?]; cbv -[int32_wrap until_nul Z.eqb]; reflexivity.

(** The model's name and the start of the stream. *)
Definition on_created (s : ik_openai_stream_ctx) : outcome o_emission :=
  Ret (ik_openai_maybe_emit_start (o_set_model (Some (lit "mock")) s)).

Lemma created_speaks :
  speaks (openai_write_sse_event (lit "response.created") build_responses_created) on_created.
Proof. rewrite openai_write_event. apply speaks_event; [done|json_writable|handler]. Qed.

Lemma responses_text_speaks c :
  is_utf8 c -> (0%Z ∉ c) ->
  speaks (openai_write_sse_event (lit "response.output_text.delta") (build_responses_text_delta c))
    (fun s => Ret (o_then (ik_openai_maybe_emit_start s) (fun s =>
                   (s, [mk_stream_event 0 (IK_STREAM_TEXT_DELTA (Some c))])))).
Proof.
  intros Hu Hc. rewrite openai_write_event. apply speaks_event; [done|json_writable|]. intros js s E.
  transitivity (Ret (o_then (ik_openai_maybe_emit_start s) (fun s =>
                   (s, [mk_stream_event 0 (IK_STREAM_TEXT_DELTA (Some (until_nul c)))])))).
  - revert js s E. handler.
  - by rewrite until_nul_id.
Qed.

Lemma completed_speaks :
  speaks (openai_write_sse_event (lit "response.completed") (Some (lit "{}"))) (fun s => Ret (s, [])).
Proof.
  rewrite openai_write_event. apply speaks_empty; [done|]. intros s.
  unfold responses_event, ik_openai_responses_stream_process_event. cbn [event data].
  rewrite read_empty_object. reflexivity.
Qed.

Lemma call_id_ok i : is_utf8 (call_id i) /\ (0%Z ∉ call_id i).
Proof. by apply numbered_id_ok. Qed.

(** Within a call, its start. *)
Lemma item_added_speaks i tc :
  (0 <= i < 2 ^ 31)%Z -> call_ok tc ->
  speaks (openai_write_sse_event (lit "response.output_item.added") (build_item_added i tc))
    (fun s => Ret (o_then (ik_openai_maybe_end_tool_call s) (fun s =>
                   o_then (ik_openai_maybe_emit_start s) (fun s =>
                   (o_set_call true i (Some (call_id i)) (Some (name tc)) None s,
                    [mk_stream_event i (IK_STREAM_TOOL_CALL_START (Some (call_id i)) (Some (name tc)))]))))).
Proof.
  intros Hi (Hu & Hz & _). destruct (call_id_ok i) as [Hu' Hz']. rewrite openai_write_event.
  apply speaks_event; [done|unfold build_item_added; revert Hu'; generalize (call_id i); intros; json_writable|].
  intros js s E. revert Hz' E. unfold build_item_added. generalize (call_id i). intros id Hz' E.
  transitivity (Ret (o_then (ik_openai_maybe_end_tool_call s) (fun s =>
                   o_then (ik_openai_maybe_emit_start s) (fun s =>
                   (o_set_call true (int32_wrap i) (Some (until_nul id)) (Some (until_nul (name tc))) None s,
                    [mk_stream_event (int32_wrap i) (IK_STREAM_TOOL_CALL_START (Some (until_nul id)) (Some (until_nul (name tc))))]))))).
  - revert js s E. handler.
  - by rewrite !until_nul_id, int32_wrap_small by (done || lia).
Qed.

Definition on_arguments (i : Z) (args : cstr) (s : ik_openai_stream_ctx) : outcome o_emission :=
  Ret (if o_in_tool_call s then
         (o_set_call true (o_tool_call_index s) (o_tool_id s) (o_tool_name s) (Some (default [] (o_tool_args s) ++ args)) s,
          [mk_stream_event i (IK_STREAM_TOOL_CALL_DELTA (Some args))])
       else (s, [])).

Lemma arguments_speaks i tc :
  (0 <= i < 2 ^ 31)%Z -> call_ok tc ->
  speaks (openai_write_sse_event (lit "response.function_call_arguments.delta") (build_arguments_delta i tc))
    (on_arguments i (arguments_json tc)).
Proof.
  intros Hi (_ & _ & Hu & Hz). rewrite openai_write_event. apply speaks_event; [done|json_writable|].
  intros js s E. transitivity (on_arguments (int32_wrap i) (until_nul (arguments_json tc)) s).
  - revert js s E. handler.
  - by rewrite until_nul_id, int32_wrap_small by (done || lia).
Qed.

Definition on_item_done (i : Z) (s : ik_openai_stream_ctx) : outcome o_emission :=
  Ret (if o_in_tool_call s && (i =? o_tool_call_index s)%Z then
         (o_set_call false (o_tool_call_index s) (o_tool_id s) (o_tool_name s) (o_tool_args s) s,
          [mk_stream_event i IK_STREAM_TOOL_CALL_DONE])
       else (s, [])).

Lemma item_done_speaks i :
  (0 <= i < 2 ^ 31)%Z ->
  speaks (openai_write_sse_event (lit "response.output_item.done") (build_item_done i)) (on_item_done i).
Proof.
  intros Hi. rewrite openai_write_event. apply speaks_event; [done|json_writable|].
  intros js s E. transitivity (on_item_done (int32_wrap i) s).
  - revert js s E. handler.
  - by rewrite int32_wrap_small by lia.
Qed.

(** One call: the context keeps it, in place of the one before it. *)
Definition responses_call (i : Z) (tc : mock_tool_call) : ik_openai_stream_ctx -> ik_openai_stream_ctx :=
  o_set_call false i (Some (call_id i)) (Some (name tc)) (Some (arguments_json tc)).

(** A stream that has started and is in no call. *)
Definition between_calls (s : ik_openai_stream_ctx) : Prop := o_started s = true /\ o_in_tool_call s = false.

Lemma call_speaks i tc :
  (0 <= i < 2 ^ 31)%Z -> call_ok tc ->
  exists h, speaks (let! a := openai_write_sse_event (lit "response.output_item.added") (build_item_added i tc) in
          let! bc := (let! b := openai_write_sse_event (lit "response.function_call_arguments.delta") (build_arguments_delta i tc) in
          let! c := openai_write_sse_event (lit "response.output_item.done") (build_item_done i) in Ret (b ++ c)) in
          Ret (a ++ bc)) h /\
    forall s, between_calls s -> h s = Ret (responses_call i tc s, call_events call_id i [tc]).
Proof.
  intros Hi Hok. eexists. split.
  - apply speaks_app; [by apply item_added_speaks|apply speaks_app; [by apply arguments_speaks|by apply item_done_speaks]].
  - intros s [Hs Hc]. unfold and_then, ik_openai_maybe_end_tool_call. rewrite Hc. unfold o_then.
    unfold ik_openai_maybe_emit_start. rewrite Hs. cbn [obind app].
    unfold on_arguments, on_item_done. cbn. by rewrite Z.eqb_refl.
Qed.

Fixpoint responses_calls_ctx (i : Z) (tcs : list mock_tool_call) (s : ik_openai_stream_ctx) : ik_openai_stream_ctx :=
  match tcs with [] => s | tc :: tcs => responses_calls_ctx (i + 1) tcs (responses_call i tc s) end.

Lemma responses_calls_speak tcs : forall i,
  (0 <= i)%Z -> (i + Z.of_nat (length tcs) < 2 ^ 31)%Z -> Forall call_ok tcs ->
  exists h, speaks (responses_calls i tcs) h /\
    forall s, between_calls s -> h s = Ret (responses_calls_ctx i tcs s, call_events call_id i tcs).
Proof.
  induction tcs as [|tc tcs IH]; intros i Hi Hl Hok.
  { eexists. split; [apply speaks_nil|]. intros s _. reflexivity. }
  apply Forall_cons in Hok as [Htc Hok]. cbn [length] in Hl.
  destruct (call_speaks i tc ltac:(lia) Htc) as (h1 & H1 & E1).
  destruct (IH (i + 1)%Z ltac:(lia) ltac:(lia) Hok) as (h2 & H2 & E2).
  exists (and_then h1 h2). split.
  - eapply speaks_eq; [|by apply speaks_app]. cbn [responses_calls]. same_writes.
  - intros s [Hs Hc]. unfold and_then. rewrite E1 by done. cbn [obind].
    rewrite E2 by (split; done). cbn [obind]. reflexivity.
Qed.

Lemma responses_ctx_last i tcs tc s :
  responses_calls_ctx i (tcs ++ [tc]) s = responses_call (i + Z.of_nat (length tcs)) tc s.
Proof.
  revert i s. induction tcs as [|tc' tcs IH]; intros i s; cbn [app responses_calls_ctx length].
  - by rewrite Z.add_0_r.
  - rewrite IH. replace (i + 1 + Z.of_nat (length tcs))%Z with (i + Z.of_nat (S (length tcs)))%Z by lia. done.
Qed.

Context `{!Allocator} `{!AllocatorSpec}.

(** A text answer of the mock provider in the Responses format: there is no
    event for its end, and the finish reason stays unknown. *)
Lemma responses_text_arrives (content : cstr) :
  is_utf8 content -> (0%Z ∉ content) ->
  exists bs, openai_responses_serialize_text content = Ret bs /\ forall chunks, concat chunks = bs ->
    (Z.of_nat (length bs) < 2 ^ 31 - 1)%Z ->
    exists p s, write_all responses_event (ik_sse_parser_create, ik_openai_stream_ctx_create) chunks =
      Ret ((p, s), [mk_stream_event 0 (IK_STREAM_START (Some (lit "mock")));
                    mk_stream_event 0 (IK_STREAM_TEXT_DELTA (Some content))]) /\
      ik_openai_responses_stream_build_response s = mk_response [] IK_FINISH_UNKNOWN no_usage (Some (lit "mock")).
Proof.
  intros Hu Hz.
  assert (exists h, speaks (openai_responses_serialize_text content) h /\
    h ik_openai_stream_ctx_create = Ret (o_set_started true (o_set_model (Some (lit "mock")) ik_openai_stream_ctx_create),
      [mk_stream_event 0 (IK_STREAM_START (Some (lit "mock"))); mk_stream_event 0 (IK_STREAM_TEXT_DELTA (Some content))]))
    as (h & Hs & E).
  { eexists. split.
    - eapply speaks_eq; [|apply speaks_app; [exact created_speaks|apply speaks_app;
        [exact (responses_text_speaks content Hu Hz)|exact completed_speaks]]].
      unfold openai_responses_serialize_text. same_writes.
    - reflexivity. }
  destruct (read_back _ _ _ _ _ _ Hs E) as (bs & Ebs & Hr). exists bs. split; [done|]. intros chunks Hc Hl.
  destruct (Hr chunks Hc Hl) as (p & Hw). exists p. eexists. split; [exact Hw|reflexivity].
Qed.

(** Tool calls are announced one after the other, and the last one stays. *)
Lemma responses_last_call_stays (tcs : list mock_tool_call) (tc : mock_tool_call) :
  Forall call_ok (tcs ++ [tc]) -> (Z.of_nat (length (tcs ++ [tc])) < 2 ^ 31)%Z ->
  exists bs, openai_responses_serialize_tool_calls (tcs ++ [tc]) = Ret bs /\ forall chunks, concat chunks = bs ->
    (Z.of_nat (length bs) < 2 ^ 31 - 1)%Z ->
    exists p s, write_all responses_event (ik_sse_parser_create, ik_openai_stream_ctx_create) chunks =
      Ret ((p, s), mk_stream_event 0 (IK_STREAM_START (Some (lit "mock"))) :: call_events call_id 0 (tcs ++ [tc])) /\
      ik_openai_responses_stream_build_response s
      = mk_response [IK_CONTENT_TOOL_CALL (Some (call_id (Z.of_nat (length tcs)))) (Some (name tc))
                       (Some (arguments_json tc)) None] IK_FINISH_TOOL_USE no_usage (Some (lit "mock")).
Proof.
  intros Hok Hl. destruct (responses_calls_speak (tcs ++ [tc]) 0 ltac:(lia) ltac:(lia) Hok) as (hc & Hc & Ec).
  set (s1 := o_set_started true (o_set_model (Some (lit "mock")) ik_openai_stream_ctx_create)).
  assert (speaks (openai_responses_serialize_tool_calls (tcs ++ [tc]))
            (and_then on_created (and_then hc (fun s => Ret (s, []))))) as Hs.
  { eapply speaks_eq; [|apply speaks_app; [exact created_speaks|apply speaks_app; [exact Hc|exact completed_speaks]]].
    unfold openai_responses_serialize_tool_calls.
    rewrite (proj2 (Nat.ltb_lt 0 (length (tcs ++ [tc])))) by (rewrite length_app, Nat.add_1_r; lia).
    same_writes. }
  destruct (read_back _ _ _ ik_openai_stream_ctx_create (responses_calls_ctx 0 (tcs ++ [tc]) s1)
              (mk_stream_event 0 (IK_STREAM_START (Some (lit "mock"))) :: call_events call_id 0 (tcs ++ [tc])) Hs)
    as (bs & Ebs & Hr).
  { unfold and_then. change (on_created ik_openai_stream_ctx_create)
      with (Ret (s1, [mk_stream_event 0 (IK_STREAM_START (Some (lit "mock")))])). cbn [obind].
    rewrite Ec by done. cbn [obind]. by rewrite app_nil_r. }
  exists bs. split; [done|]. intros chunks Hcc Hlb. destruct (Hr chunks Hcc Hlb) as (p & Hw).
  exists p. eexists. split; [exact Hw|]. by rewrite responses_ctx_last, Z.add_0_l.
Qed.

End responses_client.
