(* ===== verification/MockGoogle.v ===== *)
(** * The mock provider's Google responses (apps/mock-provider/google_serializer.c)

    The bytes the mock server writes for a queued response, and what the Google
    client reads from them. *)

From Stdlib Require Import String.
From stdpp Require Import strings.
From S2P Require Import Prelude CString Utf8 Json ByteArray Conversation Provider Sse Wire Anthropic Google MockWire.

Section serializer.
Context `{Yyjson}.

Definition write_sse_data (json_str : option cstr) : outcome (list Z) :=
  match json_str with
  | None => Undef
  | Some json_str => Ret (lit "data: " ++ json_str ++ [NL; NL])
  end.

Definition add_usage_metadata (root : list (list Z * json)) : list (list Z * json) :=
  let usage := obj_add_val [] (lit "promptTokenCount") (JInt 0) in
  let usage := obj_add_val usage (lit "candidatesTokenCount") (JInt 0) in
  let usage := obj_add_val usage (lit "totalTokenCount") (JInt 0) in
  obj_add_val root (lit "usageMetadata") (JObj usage).

(** A chunk with one candidate: what both builders have in common. *)
Definition gemini_chunk (parts : list json) : json :=
  let cand_content := obj_add_val [] (lit "parts") (JArr parts) in
  let cand_content := obj_add_str cand_content (lit "role") (Some (lit "model")) in
  let candidate := obj_add_val [] (lit "content") (JObj cand_content) in
  let candidate := obj_add_str candidate (lit "finishReason") (Some (lit "STOP")) in
  let root := obj_add_val [] (lit "candidates") (JArr [JObj candidate]) in
  let root := obj_add_str root (lit "modelVersion") (Some (lit "mock")) in
  JObj (add_usage_metadata root).

Definition build_text_chunk (content : cstr) : option cstr :=
  yyjson_write (gemini_chunk [JObj (obj_add_str [] (lit "text") (Some content))]).

(** Arguments that cannot be read become an empty object. *)
Definition args_value (c : mock_tool_call) : json := default (JObj []) (yyjson_read (arguments_json c)).

Definition call_part (c : mock_tool_call) : json :=
  let fc := obj_add_str [] (lit "name") (Some (name c)) in
  let fc := obj_add_val fc (lit "args") (args_value c) in
  JObj (obj_add_val [] (lit "functionCall") (JObj fc)).

Definition build_tool_calls_chunk (tool_calls : list mock_tool_call) : option cstr :=
  yyjson_write (gemini_chunk (call_part <$> tool_calls)).

Definition google_serialize_text (content : cstr) : outcome (list Z) := write_sse_data (build_text_chunk content).

Definition google_serialize_tool_calls (tool_calls : list mock_tool_call) : outcome (list Z) :=
  assert! (0 <? length tool_calls)%nat in
  write_sse_data (build_tool_calls_chunk tool_calls).

End serializer.

(** ** What the client does *)

Section client.
Context `{!Yyjson} `{!YyjsonSpec} (rand : nat -> nat).

#[local] Notation speaks := (speaks (google_event rand)).

(** A chunk is the start, its parts and the end. *)
Definition on_chunk (parts : list json) (s : ik_google_stream_ctx) : outcome g_emission :=
  g_then (Ret (if g_started s then (s, [])
               else (g_set_started true (g_set_model (Some (lit "mock")) s),
                     [mk_stream_event 0 (IK_STREAM_START (Some (lit "mock")))]))) (fun s =>
  g_then (ik_google_stream_process_parts rand (g_set_finish IK_FINISH_STOP s) parts) (fun s =>
  let s := g_set_usage no_usage s in
  g_then (Ret (ik_google_stream_end_tool_call_if_needed s)) (fun s =>
  Ret (s, [mk_stream_event 0 (IK_STREAM_DONE (g_finish_reason s) (g_usage s))])))).

Lemma chunk_speaks parts :
  Forall writable parts -> speaks (write_sse_data (yyjson_write (gemini_chunk parts))) (on_chunk parts).
Proof.
  intros Hp. apply speaks_data; [done| |].
  { unfold gemini_chunk, add_usage_metadata, obj_add_str, obj_add_val. cbn [app]. json_writable. }
  intros js s E _. unfold google_event. cbn [data default from_option id].
  destruct js as [|b js]; [by rewrite read_nothing in E|]. unfold ik_google_stream_process_data. rewrite E.
  destruct s as [? ? ? [] ? ? ? ? ? ? ? ?]; reflexivity.
Qed.

(** Several calls in one chunk: the first starts a call, and the arguments of
    all are put together. *)
Definition args_text (c : mock_tool_call) : cstr := default [] (yyjson_write (args_value c)).

Definition delta_events (i : Z) (tcs : list mock_tool_call) : list ik_stream_event :=
  (fun c => mk_stream_event i (IK_STREAM_TOOL_CALL_DELTA (Some (args_text c)))) <$> tcs.

Lemma further_calls tcs s :
  Forall (fun c => writable (args_value c)) tcs -> g_in_tool_call s = true ->
  ik_google_stream_process_parts rand s (call_part <$> tcs)
  = Ret (match tcs with
         | [] => s
         | _ => g_set_tool (g_tool_id s) (g_tool_name s)
                  (Some (default [] (g_tool_args s) ++ concat (args_text <$> tcs))) (g_drawn s) s
         end, delta_events (g_part_index s) tcs).
Proof.
  revert s. induction tcs as [|c tcs IH]; intros s Hw Hc; [done|]. apply Forall_cons in Hw as [Hw Hws].
  cbn [fmap list_fmap ik_google_stream_process_parts]. unfold process_part.
  change (yyjson_obj_get (Some (call_part c)) (lit "thoughtSignature")) with (@None json).
  change (yyjson_obj_get (Some (call_part c)) (lit "functionCall"))
    with (Some (JObj [(lit "name", JStr (name c)); (lit "args", args_value c)])).
  cbn [yyjson_get_str]. unfold process_function_call. rewrite Hc.
  change (yyjson_obj_get (Some (JObj [(lit "name", JStr (name c)); (lit "args", args_value c)])) (lit "args"))
    with (Some (args_value c)).
  destruct (write_some _ Hw) as [t Et].
  assert (args_text c = t) as Ea by (unfold args_text; by rewrite Et). rewrite Et. unfold g_then at 1. cbn [obind].
  rewrite IH by done. cbn [obind]. unfold delta_events. cbn [fmap list_fmap concat app g_part_index g_set_tool g_tool_args g_tool_id g_tool_name g_drawn].
  rewrite Ea. destruct tcs as [|c' tcs]; [by cbn; rewrite app_nil_r|]. rewrite (app_assoc (default [] (g_tool_args s))). reflexivity.
Qed.

Lemma calls_parts c tcs s :
  Forall (fun c => writable (args_value c)) (c :: tcs) -> (0%Z ∉ name c) -> g_in_tool_call s = false ->
  let id := Some (ik_google_generate_tool_id rand (g_drawn s)) in
  ik_google_stream_process_parts rand s (call_part <$> c :: tcs)
  = Ret (g_set_in_call true (g_set_tool id (Some (name c)) (Some (concat (args_text <$> c :: tcs))) (g_drawn s + 22) s),
         mk_stream_event (g_part_index s) (IK_STREAM_TOOL_CALL_START id (Some (name c)))
         :: delta_events (g_part_index s) (c :: tcs)).
Proof.
  intros Hw Hz Hc id. apply Forall_cons in Hw as [Hw Hws].
  cbn [fmap list_fmap ik_google_stream_process_parts]. unfold process_part.
  change (yyjson_obj_get (Some (call_part c)) (lit "thoughtSignature")) with (@None json).
  change (yyjson_obj_get (Some (call_part c)) (lit "functionCall"))
    with (Some (JObj [(lit "name", JStr (name c)); (lit "args", args_value c)])).
  cbn [yyjson_get_str]. unfold process_function_call. rewrite Hc.
  change (yyjson_obj_get (Some (JObj [(lit "name", JStr (name c)); (lit "args", args_value c)])) (lit "args"))
    with (Some (args_value c)).
  change (yyjson_get_str (yyjson_obj_get (Some (JObj [(lit "name", JStr (name c)); (lit "args", args_value c)])) (lit "name")))
    with (Some (until_nul (name c))). rewrite until_nul_id by done. fold id.
  destruct (write_some _ Hw) as [t Et].
  assert (args_text c = t) as Ea by (unfold args_text; by rewrite Et). rewrite Et. unfold g_then. cbn [obind app].
  rewrite further_calls by done. cbn [obind]. unfold delta_events. cbn [fmap list_fmap concat].
  rewrite Ea. destruct tcs as [|c' tcs]; [cbn; by rewrite app_nil_r|]. done.
Qed.

Definition google_call_ok (c : mock_tool_call) : Prop :=
  is_utf8 (name c) /\ (0%Z ∉ name c) /\ writable (args_value c).

Context `{!Allocator} `{!AllocatorSpec}.

(** A text answer of the mock provider; an empty text is skipped. *)
Lemma google_text_arrives (content : cstr) (drawn : nat) :
  is_utf8 content -> (0%Z ∉ content) ->
  exists bs, google_serialize_text content = Ret bs /\ forall chunks, concat chunks = bs ->
    (Z.of_nat (length bs) < 2 ^ 31 - 1)%Z ->
    exists p s, write_all (google_event rand) (ik_sse_parser_create, ik_google_stream_ctx_create drawn) chunks =
      Ret ((p, s),
           [mk_stream_event 0 (IK_STREAM_START (Some (lit "mock")))] ++
           match content with [] => [] | _ => [mk_stream_event 0 (IK_STREAM_TEXT_DELTA (Some content))] end ++
           [mk_stream_event 0 (IK_STREAM_DONE IK_FINISH_STOP no_usage)]) /\
      ik_google_stream_build_response s = mk_response [] IK_FINISH_STOP no_usage (Some (lit "mock")).
Proof.
  intros Hu Hz. pose proof (chunk_speaks [JObj (obj_add_str [] (lit "text") (Some content))]) as Hs.
  destruct (read_back _ _ _ (ik_google_stream_ctx_create drawn)
      (g_set_finish IK_FINISH_STOP (g_set_started true (g_set_model (Some (lit "mock")) (ik_google_stream_ctx_create drawn))))
      ([mk_stream_event 0 (IK_STREAM_START (Some (lit "mock")))] ++
       match content with [] => [] | _ => [mk_stream_event 0 (IK_STREAM_TEXT_DELTA (Some content))] end ++
       [mk_stream_event 0 (IK_STREAM_DONE IK_FINISH_STOP no_usage)])
      (Hs ltac:(unfold obj_add_str; json_writable))) as (bs & Ebs & Hr).
  - unfold on_chunk. cbn [g_started ik_google_stream_ctx_create ik_google_stream_process_parts]. unfold process_part.
    change (yyjson_get_str (yyjson_obj_get (Some (JObj (obj_add_str [] (lit "text") (Some content)))) (lit "text")))
      with (Some (until_nul content)). rewrite until_nul_id by done. destruct content; reflexivity.
  - exists bs. split; [exact Ebs|]. intros chunks Hc Hl. destruct (Hr chunks Hc Hl) as (p & Hw).
    exists p. eexists. split; [exact Hw|reflexivity].
Qed.

(** Tool calls of the mock provider arrive as one call: the first one's name
    with the arguments of all. *)
Lemma google_calls_merge (c : mock_tool_call) (tcs : list mock_tool_call) (drawn : nat) :
  Forall google_call_ok (c :: tcs) ->
  let id := Some (ik_google_generate_tool_id rand drawn) in
  exists bs, google_serialize_tool_calls (c :: tcs) = Ret bs /\ forall chunks, concat chunks = bs ->
    (Z.of_nat (length bs) < 2 ^ 31 - 1)%Z ->
    exists p s, write_all (google_event rand) (ik_sse_parser_create, ik_google_stream_ctx_create drawn) chunks =
      Ret ((p, s),
           [mk_stream_event 0 (IK_STREAM_START (Some (lit "mock")));
            mk_stream_event 0 (IK_STREAM_TOOL_CALL_START id (Some (name c)))] ++ delta_events 0 (c :: tcs) ++
           [mk_stream_event 0 IK_STREAM_TOOL_CALL_DONE; mk_stream_event 0 (IK_STREAM_DONE IK_FINISH_STOP no_usage)]) /\
      ik_google_stream_build_response s =
        mk_response [IK_CONTENT_TOOL_CALL id (Some (name c)) (Some (concat (args_text <$> c :: tcs))) None]
          IK_FINISH_TOOL_USE no_usage (Some (lit "mock")).
Proof.
  intros Hok id.
  assert (Forall writable (call_part <$> c :: tcs)) as Hw.
  { apply Forall_fmap. eapply Forall_impl; [exact Hok|]. intros x (Hu1 & _ & Hw1). cbn beta.
    unfold call_part, obj_add_str, obj_add_val, compose. cbn [app]. json_writable. }
  assert (Forall (fun c => writable (args_value c)) (c :: tcs)) as Ha.
  { eapply Forall_impl; [exact Hok|]. by intros x (_ & _ & H3). }
  apply Forall_cons in Hok as [(_ & Hz & _) _].
  set (s1 := g_set_finish IK_FINISH_STOP (g_set_started true (g_set_model (Some (lit "mock")) (ik_google_stream_ctx_create drawn)))).
  pose proof (calls_parts c tcs s1 Ha Hz eq_refl) as Ep. cbv zeta in Ep.
  destruct (read_back _ _ _ (ik_google_stream_ctx_create drawn)
      (g_set_tool id (Some (name c)) (Some (concat (args_text <$> c :: tcs))) (drawn + 22) s1)
      ([mk_stream_event 0 (IK_STREAM_START (Some (lit "mock")));
        mk_stream_event 0 (IK_STREAM_TOOL_CALL_START id (Some (name c)))] ++ delta_events 0 (c :: tcs) ++
       [mk_stream_event 0 IK_STREAM_TOOL_CALL_DONE; mk_stream_event 0 (IK_STREAM_DONE IK_FINISH_STOP no_usage)])
      (chunk_speaks _ Hw)) as (bs & Ebs & Hr).
  - unfold on_chunk. cbn [g_started ik_google_stream_ctx_create]. unfold g_then at 1. cbn [obind].
    change (g_set_finish IK_FINISH_STOP _) with s1. rewrite Ep. reflexivity.
  - exists bs. split; [exact Ebs|]. intros chunks Hc Hl. destruct (Hr chunks Hc Hl) as (p & Hwr).
    exists p. eexists. split; [exact Hwr|reflexivity].
Qed.

End client.
