(* ===== verification/AgentStream.v ===== *)
(** * Streaming a reply to an agent (repl_callbacks.c, repl_response_helpers.c)

    The callbacks a provider calls while a reply arrives: text is shown line by
    line, and at the end the response's metadata and its tool call are kept for
    the agent.  [StreamProps] shows that what is displayed and kept depends only
    on the text, not on the pieces it comes in. *)

From Stdlib Require Import String.
From stdpp Require Import strings.
From S2P Require Import Prelude CString Utf8 Json OutputStyle Format Conversation Provider EventRender.

(** ** State *)

Section stream.
Context `{Display}.

(** The fields of the agent that the callbacks read and write. *)
Record agent_stream := mk_astream {
  assistant_response : option cstr;
  streaming_line_buffer : option cstr;
  streaming_first_line : bool;
  http_error_message : option cstr;
  response_model : option cstr;
  response_finish_reason : option cstr;
  response_input_tokens : Z;
  response_output_tokens : Z;
  response_thinking_tokens : Z;
  pending_thinking_text : option cstr;
  pending_thinking_signature : option cstr;
  pending_redacted_data : option cstr;
  pending_tool_call : option ik_tool_call;
  pending_tool_thought_signature : option cstr;
  scrollback : screen
}.

Definition set_text (r b : option cstr) (f : bool) (s : screen) (a : agent_stream) : agent_stream :=
  mk_astream r b f (http_error_message a) (response_model a) (response_finish_reason a)
    (response_input_tokens a) (response_output_tokens a) (response_thinking_tokens a)
    (pending_thinking_text a) (pending_thinking_signature a) (pending_redacted_data a)
    (pending_tool_call a) (pending_tool_thought_signature a) s.

Definition set_error (m : option cstr) (a : agent_stream) : agent_stream :=
  mk_astream (assistant_response a) (streaming_line_buffer a) (streaming_first_line a) m
    (response_model a) (response_finish_reason a)
    (response_input_tokens a) (response_output_tokens a) (response_thinking_tokens a)
    (pending_thinking_text a) (pending_thinking_signature a) (pending_redacted_data a)
    (pending_tool_call a) (pending_tool_thought_signature a) (scrollback a).

Definition set_metadata (model reason : option cstr) (input output thinking : Z) (a : agent_stream)
  : agent_stream :=
  mk_astream (assistant_response a) (streaming_line_buffer a) (streaming_first_line a)
    (http_error_message a) model reason input output thinking
    (pending_thinking_text a) (pending_thinking_signature a) (pending_redacted_data a)
    (pending_tool_call a) (pending_tool_thought_signature a) (scrollback a).

Definition set_pending (text signature redacted : option cstr) (tc : option ik_tool_call)
    (thought_signature : option cstr) (a : agent_stream) : agent_stream :=
  mk_astream (assistant_response a) (streaming_line_buffer a) (streaming_first_line a)
    (http_error_message a) (response_model a) (response_finish_reason a)
    (response_input_tokens a) (response_output_tokens a) (response_thinking_tokens a)
    text signature redacted tc thought_signature (scrollback a).

Definition set_scrollback (s : screen) (a : agent_stream) : agent_stream :=
  set_text (assistant_response a) (streaming_line_buffer a) (streaming_first_line a) s a.

(** "ik_scrollback_append_line(agent->scrollback, ...)", the result ignored. *)
Definition put_line (s : screen) (line : cstr) : outcome screen := keep_on_error s (screen_append s line).

(** ** repl_response_helpers.c *)

Definition model_prefix : option cstr := ik_output_prefix IK_OUTPUT_MODEL_TEXT.

(** The prefix with its space, when the line is the first. *)
Definition prefix_bytes (first_line : bool) : cstr :=
  match first_line, model_prefix with true, Some p => p ++ [32%Z] | _, _ => [] end.

(** [chunk] is the [chunk_len] bytes at [start]. *)
Definition ik_repl_flush_line_to_scrollback (a : agent_stream) (chunk : cstr) : outcome agent_stream :=
  let prefix := prefix_bytes (streaming_first_line a) in
  match streaming_line_buffer a with
  | Some buffer =>
      let! s := put_line (scrollback a) (prefix ++ buffer ++ chunk) in
      Ret (set_text (assistant_response a) None false s a)
  | None =>
      match chunk, prefix with
      | _ :: _, _ =>
          let! s := put_line (scrollback a) (prefix ++ chunk) in
          Ret (set_text (assistant_response a) None false s a)
      | [], _ :: _ => Ret a
      | [], [] =>
          let! s := put_line (scrollback a) [] in
          Ret (set_text (assistant_response a) None false s a)
      end
  end.

(** The loop over the bytes of the chunk: [n] bytes are left, from [i] on; the
    start of the unfinished line is returned. *)
Fixpoint delta_loop (a : agent_stream) (chunk : cstr) (n i start : nat)
  : outcome (agent_stream * nat) :=
  match n with
  | 0 => Ret (a, start)
  | S n =>
      match chunk !! i with
      | None => Undef
      | Some c =>
          if (c =? 10)%Z then
            let! a := ik_repl_flush_line_to_scrollback a (take (i - start) (drop start chunk)) in
            delta_loop a chunk n (S i) (S i)
          else delta_loop a chunk n (S i) start
      end
  end.

(** "dst = dst == NULL ? talloc_strdup(src) : talloc_strdup_append(dst, src)" *)
Definition strdup_append (dst : option cstr) (src : cstr) : option cstr := Some (default [] dst ++ src).

Definition ik_repl_handle_text_delta (a : agent_stream) (chunk : cstr) (chunk_len : nat)
  : outcome agent_stream :=
  if (chunk_len =? 0)%nat then Ret a
  else
    let a := set_text (strdup_append (assistant_response a) chunk) (streaming_line_buffer a)
               (streaming_first_line a) (scrollback a) a in
    let! (a, start) := delta_loop a chunk chunk_len 0 0 in
    if (start <? chunk_len)%nat then
      Ret (set_text (assistant_response a)
             (strdup_append (streaming_line_buffer a) (take (chunk_len - start) (drop start chunk)))
             (streaming_first_line a) (scrollback a) a)
    else Ret a.

Definition json_key (k : string) : cstr := [QUOTE] ++ lit k ++ [QUOTE; 58%Z].

Definition usage_json (i o t : Z) : cstr :=
  snprintf 256 (lit "{" ++ json_key "input_tokens" ++ show_int i ++ lit ","
                ++ json_key "output_tokens" ++ show_int o ++ lit ","
                ++ json_key "thinking_tokens" ++ show_int t ++ lit "}").

Definition ik_repl_render_usage_event (a : agent_stream) : outcome agent_stream :=
  let! total := int_add (response_input_tokens a) (response_output_tokens a) in
  let! total := int_add total (response_thinking_tokens a) in
  let! s :=
    if (0 <? total)%Z then
      keep_on_error (scrollback a)
        (event_render (scrollback a) (lit "usage") None
           (usage_json (response_input_tokens a) (response_output_tokens a)
              (response_thinking_tokens a)) false)
    else put_line (scrollback a) [] in
  Ret (set_scrollback s a).

Definition finish_reason_str (f : ik_finish_reason) : cstr :=
  match f with
  | IK_FINISH_STOP => lit "stop"
  | IK_FINISH_LENGTH => lit "length"
  | IK_FINISH_TOOL_USE => lit "tool_use"
  | IK_FINISH_CONTENT_FILTER => lit "content_filter"
  | IK_FINISH_ERROR => lit "error"
  | IK_FINISH_UNKNOWN => lit "unknown"
  end.

Definition ik_repl_store_response_metadata (a : agent_stream) (r : ik_response) : agent_stream :=
  set_metadata (resp_model r) (Some (finish_reason_str (resp_finish_reason r)))
    (input_tokens (resp_usage r)) (output_tokens (resp_usage r)) (thinking_tokens (resp_usage r)) a.

Definition clear_pending_data (a : agent_stream) : agent_stream :=
  set_pending None None None None None a.

(** "if (s != NULL) dst = talloc_strdup(s)" *)
Definition or_keep (s dst : option cstr) : option cstr := match s with Some s => Some s | None => dst end.

Definition process_thinking_block (a : agent_stream) (text signature : option cstr) : agent_stream :=
  set_pending (or_keep text (pending_thinking_text a)) (or_keep signature (pending_thinking_signature a))
    (pending_redacted_data a) (pending_tool_call a) (pending_tool_thought_signature a) a.

Definition process_redacted_thinking_block (a : agent_stream) (data : option cstr) : agent_stream :=
  set_pending (pending_thinking_text a) (pending_thinking_signature a)
    (or_keep data (pending_redacted_data a)) (pending_tool_call a) (pending_tool_thought_signature a) a.

Definition process_tool_call_block (a : agent_stream) (id name arguments thought_signature : option cstr)
  : outcome agent_stream :=
  let! tc := ik_tool_call_create id name arguments in
  Ret (set_pending (pending_thinking_text a) (pending_thinking_signature a) (pending_redacted_data a)
         (Some tc) (or_keep thought_signature (pending_tool_thought_signature a)) a).

(** The loop over the blocks stops at the first tool call. *)
Fixpoint extract_loop (a : agent_stream) (blocks : list ik_content_block) : outcome agent_stream :=
  match blocks with
  | [] => Ret a
  | IK_CONTENT_THINKING text signature :: blocks => extract_loop (process_thinking_block a text signature) blocks
  | IK_CONTENT_REDACTED_THINKING data :: blocks => extract_loop (process_redacted_thinking_block a data) blocks
  | IK_CONTENT_TOOL_CALL id name arguments sig :: _ => process_tool_call_block a id name arguments sig
  | _ :: blocks => extract_loop a blocks
  end.

Definition ik_repl_extract_tool_calls (a : agent_stream) (r : ik_response) : outcome agent_stream :=
  extract_loop (clear_pending_data a) (resp_content_blocks r).

(** ** repl_callbacks.c *)

Definition ik_repl_stream_callback (a : agent_stream) (e : ik_stream_event) : outcome agent_stream :=
  match payload e with
  | IK_STREAM_START _ => Ret (set_text None (streaming_line_buffer a) true (scrollback a) a)
  | IK_STREAM_TEXT_DELTA (Some text) => ik_repl_handle_text_delta a text (length text)
  | IK_STREAM_TEXT_DELTA None => Ret a
  | IK_STREAM_THINKING_DELTA _ => Ret a
  | IK_STREAM_TOOL_CALL_START _ _ | IK_STREAM_TOOL_CALL_DELTA _ | IK_STREAM_TOOL_CALL_DONE => Ret a
  | IK_STREAM_DONE _ u =>
      Ret (set_metadata (response_model a) (response_finish_reason a)
             (input_tokens u) (output_tokens u) (thinking_tokens u) a)
  | IK_STREAM_ERROR _ (Some message) => Ret (set_error (Some message) a)
  | IK_STREAM_ERROR _ None => Ret a
  end.

Fixpoint stream_events (a : agent_stream) (es : list ik_stream_event) : outcome agent_stream :=
  match es with
  | [] => Ret a
  | e :: es => let! a := ik_repl_stream_callback a e in stream_events a es
  end.

Definition is_space (c : Z) : bool := ((c =? 32) || (c =? 9) || (c =? 10) || (c =? 13))%Z.

(** "had_response_content" *)
Definition has_text (s : cstr) : bool := existsb (fun c => negb (is_space c)) s.

Definition ik_repl_completion_callback (a : agent_stream) (c : ik_provider_completion)
  : outcome agent_stream :=
  let had_response_content := match assistant_response a with Some r => has_text r | None => false end in
  let! a :=
    match streaming_line_buffer a with
    | Some buffer =>
        let! s := put_line (scrollback a) (prefix_bytes (streaming_first_line a) ++ buffer) in
        Ret (set_text (assistant_response a) None false s a)
    | None => Ret a
    end in
  let! s := if had_response_content then put_line (scrollback a) [] else Ret (scrollback a) in
  let a := set_scrollback s a in
  let a := set_error None a in
  let a := match success c, error_message c with
           | false, Some m => set_error (Some m) a
           | _, _ => a
           end in
  match success c, response c with
  | true, Some r =>
      let a := ik_repl_store_response_metadata a r in
      let! a := ik_repl_render_usage_event a in
      ik_repl_extract_tool_calls a r
  | _, _ => Ret a
  end.

End stream.

(** ** What a reply looks like *)

(** The complete lines of a text, and the unfinished one; [cur] is in front. *)
Fixpoint cut_lines (s cur : cstr) : list cstr * cstr :=
  match s with
  | [] => ([], cur)
  | c :: s =>
      if (c =? 10)%Z then let '(ls, rest) := cut_lines s [] in (cur :: ls, rest)
      else cut_lines s (cur ++ [c])
  end.

(** Empty lines at the beginning are dropped and the first other line gets the
    prefix; the flag says that there was none yet. *)
Fixpoint with_prefix (ls : list cstr) : list cstr * bool :=
  match ls with
  | [] => ([], true)
  | [] :: ls => with_prefix ls
  | l :: ls => ((prefix_bytes true ++ l) :: ls, false)
  end.

Definition reply_lines (text : cstr) : list cstr :=
  let '(ls, rest) := cut_lines text [] in
  let '(shown, first_line) := with_prefix ls in
  shown ++ (match rest with [] => [] | _ => [prefix_bytes first_line ++ rest] end)
        ++ (if has_text text then [[]] else []).

(** The text the events of a reply carry. *)
Definition delta_text (e : ik_stream_event) : cstr :=
  match payload e with IK_STREAM_TEXT_DELTA (Some t) => t | _ => [] end.

Definition reply_text (es : list ik_stream_event) : cstr := concat (delta_text <$> es).

Definition is_start (e : ik_stream_event) : bool :=
  match payload e with IK_STREAM_START _ => true | _ => false end.

Lemma cut_lines_app a b cur :
  cut_lines (a ++ b) cur =
    let '(l1, r1) := cut_lines a cur in let '(l2, r2) := cut_lines b r1 in (l1 ++ l2, r2).
Proof.
  revert cur. induction a as [|c a IH]; intros cur; cbn [app cut_lines].
  { by destruct (cut_lines b cur). }
  destruct (c =? 10)%Z; [|apply IH]. rewrite IH. destruct (cut_lines a []) as [l1 r1].
  by destruct (cut_lines b r1).
Qed.

Lemma cut_lines_none a cur : (10%Z ∉ a) -> cut_lines a cur = ([], cur ++ a).
Proof.
  revert cur. induction a as [|c a IH]; intros cur Hn; cbn [cut_lines]; [by rewrite app_nil_r|].
  apply not_elem_of_cons in Hn as [Hc Hn]. rewrite (proj2 (Z.eqb_neq _ _)) by congruence.
  rewrite IH by done. by rewrite <- app_assoc.
Qed.

Lemma with_prefix_first ls : snd (with_prefix ls) = true -> with_prefix ls = ([], true).
Proof. induction ls as [|[|c l] ls IH]; cbn; auto; done. Qed.

Lemma with_prefix_snoc ls l :
  with_prefix (ls ++ [l]) =
    match with_prefix ls with
    | (shown, false) => (shown ++ [l], false)
    | (_, true) => match l with [] => ([], true) | _ => ([prefix_bytes true ++ l], false) end
    end.
Proof. induction ls as [|[|c k] ls IH]; cbn; [by destruct l|exact IH|done]. Qed.

Definition non_empty (s : cstr) : option cstr := match s with [] => None | _ => Some s end.

Lemma default_non_empty s : default [] (non_empty s) = s.
Proof. by destruct s. Qed.

Section streaming.
Context `{!Display} `{!DisplaySpec}.

Lemma put_line_some s l : exists s', put_line s l = Ret s' /\ screen_append s l = Ret s'.
Proof. unfold put_line. destruct (screen_append_some s l) as [s' E]. exists s'. by rewrite E. Qed.

(** The agent [a] with the response [r], the complete lines [ls] and the
    unfinished line [rest] on the screen [s]. *)
Definition showing (a : agent_stream) (r : option cstr) (ls : list cstr) (rest : cstr) (s : screen)
  : agent_stream := set_text r (non_empty rest) (snd (with_prefix ls)) s a.

Definition drawn (s0 : screen) (ls : list cstr) (s : screen) : Prop :=
  append_lines s0 (fst (with_prefix ls)) = Ret s.

Lemma drawn_more s0 ls s shown l s' :
  drawn s0 ls s -> fst (with_prefix ls) = shown -> screen_append s l = Ret s' ->
  append_lines s0 (shown ++ [l]) = Ret s'.
Proof. intros Hd <- E. unfold drawn in Hd. rewrite append_lines_app, Hd. cbn. by rewrite E. Qed.

Lemma flush_line_ok s0 a r ls rest s c :
  drawn s0 ls s ->
  exists s', ik_repl_flush_line_to_scrollback (showing a r ls rest s) c
               = Ret (showing a r (ls ++ [rest ++ c]) [] s') /\ drawn s0 (ls ++ [rest ++ c]) s'.
Proof.
  intros Hd. unfold ik_repl_flush_line_to_scrollback, showing, drawn.
  cbn [streaming_first_line streaming_line_buffer scrollback assistant_response set_text].
  rewrite with_prefix_snoc.
  destruct (with_prefix ls) as [shown first_line] eqn:Ew. cbn [snd fst].
  assert (fst (with_prefix ls) = shown) as Ef by (by rewrite Ew).
  assert (first_line = true -> shown = []) as Hfirst.
  { intros ->. pose proof (with_prefix_first ls) as Hw. rewrite Ew in Hw. by injection (Hw eq_refl). }
  destruct rest as [|x rest]; cbn [non_empty app].
  - destruct c as [|y c].
    + destruct first_line.
      * rewrite (Hfirst eq_refl) in *. exists s. split; [done|].
        unfold drawn in Hd. by rewrite Ew in Hd.
      * cbn [prefix_bytes]. destruct (put_line_some s []) as (s' & -> & Es). cbn [obind].
        exists s'. split; [done|]. by eapply drawn_more.
    + destruct (put_line_some s (prefix_bytes first_line ++ y :: c)) as (s' & -> & Es). cbn [obind].
      exists s'. destruct first_line.
      * rewrite (Hfirst eq_refl) in *. split; [done|]. by eapply (drawn_more s0 ls s []).
      * split; [done|]. by eapply drawn_more.
  - destruct (put_line_some s (prefix_bytes first_line ++ x :: rest ++ c)) as (s' & -> & Es). cbn [obind].
    exists s'. destruct first_line.
    + rewrite (Hfirst eq_refl) in *. split; [done|]. by eapply (drawn_more s0 ls s []).
    + split; [done|]. by eapply drawn_more.
Qed.

(** The loop from position [i = |done ++ cur|], the line started at [|done|]. *)
Lemma delta_loop_ok s0 a r ls rest s todo before cur :
  drawn s0 ls s -> (10%Z ∉ cur) ->
  let '(ls', tail) := cut_lines todo (rest ++ cur) in
  exists rest' start' s',
    delta_loop (showing a r ls rest s) (before ++ cur ++ todo) (length todo)
      (length before + length cur) (length before)
      = Ret (showing a r (ls ++ ls') rest' s', start') /\
    drawn s0 (ls ++ ls') s' /\ rest' ++ drop start' (before ++ cur ++ todo) = tail /\
    start' <= length (before ++ cur ++ todo).
Proof.
  revert ls rest s before cur. induction todo as [|c todo IH]; intros ls rest s before cur Hd Hn.
  { cbn [cut_lines length delta_loop]. exists rest, (length before), s. rewrite !app_nil_r.
    split; [done|]. split; [done|]. rewrite drop_app_length. split; [done|len_lia]. }
  cbn [cut_lines length delta_loop].
  rewrite lookup_app_r, lookup_app_r by lia.
  replace (length before + length cur - length before - length cur) with 0 by lia.
  cbn [lookup list_lookup]. destruct (Z.eqb_spec c 10) as [->|Hc].
  - replace (length before + length cur - length before) with (length cur) by lia.
    rewrite drop_app_length, take_app_length.
    destruct (flush_line_ok s0 a r ls rest s cur Hd) as (s1 & -> & Hd1). cbn [obind].
    specialize (IH (ls ++ [rest ++ cur]) [] s1 (before ++ cur ++ [10%Z]) [] Hd1 ltac:(set_solver)).
    cbn [app length] in IH. destruct (cut_lines todo []) as [ls' tail].
    destruct IH as (rest' & start' & s' & E & Hd' & Et & Hl).
    exists rest', start', s'. rewrite <- !app_assoc in *. cbn [app] in *.
    assert (length (before ++ cur ++ [10%Z]) = S (length before + length cur)) as El by len_lia.
    rewrite El, Nat.add_0_r in E. by split_and!.
  - specialize (IH ls rest s before (cur ++ [c]) Hd). rewrite <- !app_assoc in IH. cbn [app] in IH.
    rewrite length_app in IH. cbn [length] in IH. rewrite Nat.add_1_r, Nat.add_succ_r in IH.
    rewrite <- (app_assoc rest cur). apply IH. rewrite not_elem_of_app. split; [done|set_solver].
Qed.

(** One chunk of text. *)
Lemma text_delta_ok s0 a r ls rest s chunk :
  drawn s0 ls s ->
  let '(ls', tail) := cut_lines chunk rest in
  exists s', ik_repl_handle_text_delta (showing a (non_empty r) ls rest s) chunk (length chunk)
    = Ret (showing a (non_empty (r ++ chunk)) (ls ++ ls') tail s') /\ drawn s0 (ls ++ ls') s'.
Proof.
  intros Hd. unfold ik_repl_handle_text_delta. destruct chunk as [|c chunk].
  { cbn [cut_lines length Nat.eqb]. exists s. by rewrite !app_nil_r. }
  destruct (Nat.eqb_spec (length (c :: chunk)) 0) as [|_]; [done|].
  assert (set_text (strdup_append (assistant_response (showing a (non_empty r) ls rest s)) (c :: chunk))
            (streaming_line_buffer (showing a (non_empty r) ls rest s))
            (streaming_first_line (showing a (non_empty r) ls rest s))
            (scrollback (showing a (non_empty r) ls rest s)) (showing a (non_empty r) ls rest s)
          = showing a (non_empty (r ++ c :: chunk)) ls rest s) as ->.
  { unfold showing, strdup_append. cbn [assistant_response set_text streaming_line_buffer
      streaming_first_line scrollback]. rewrite default_non_empty. by destruct r. }
  pose proof (delta_loop_ok s0 a (non_empty (r ++ c :: chunk)) ls rest s (c :: chunk) [] [] Hd
                ltac:(set_solver)) as Hl.
  rewrite app_nil_r in Hl. destruct (cut_lines (c :: chunk) rest) as [ls' tail].
  destruct Hl as (rest' & start' & s' & E & Hd' & Et & Hle).
  cbn [app length] in E, Et, Hle. rewrite Nat.add_0_r in E. cbn [length]. rewrite E. cbn [obind].
  exists s'. split; [|done]. destruct (Nat.ltb_spec start' (S (length chunk))) as [Hlt|Hge].
  - f_equal. unfold showing, strdup_append.
    cbn [assistant_response set_text streaming_line_buffer streaming_first_line scrollback].
    rewrite firstn_all2 by (rewrite length_drop; simpl; lia). rewrite default_non_empty, Et.
    destruct tail as [|t tail]; [|done]. apply app_eq_nil in Et as [_ Et].
    apply (f_equal length) in Et. rewrite length_drop in Et. simpl in Et. lia.
  - f_equal. rewrite drop_ge, app_nil_r in Et by (simpl; lia). by rewrite Et.
Qed.

(** The agent after the text [t], on a screen that was [s0] before it. *)
Record streams (s0 : screen) (t : cstr) (a : agent_stream) : Prop := {
  st_response : assistant_response a = non_empty t;
  st_buffer : streaming_line_buffer a = non_empty (snd (cut_lines t []));
  st_first : streaming_first_line a = snd (with_prefix (fst (cut_lines t [])));
  st_drawn : drawn s0 (fst (cut_lines t [])) (scrollback a)
}.

Lemma set_text_same a :
  set_text (assistant_response a) (streaming_line_buffer a) (streaming_first_line a) (scrollback a) a = a.
Proof. by destruct a. Qed.

Lemma start_streams a m i :
  streaming_line_buffer a = None ->
  exists a', ik_repl_stream_callback a (mk_stream_event i (IK_STREAM_START m)) = Ret a' /\
    streams (scrollback a) [] a'.
Proof. intros Hb. eexists. split; [reflexivity|]. by constructor. Qed.

Lemma event_streams s0 t a e :
  streams s0 t a -> is_start e = false ->
  exists a', ik_repl_stream_callback a e = Ret a' /\ streams s0 (t ++ delta_text e) a'.
Proof.
  intros Hs He. destruct e as [i p]. unfold ik_repl_stream_callback, delta_text, is_start in *.
  cbn [payload] in *.
  assert (forall a', assistant_response a' = assistant_response a ->
    streaming_line_buffer a' = streaming_line_buffer a ->
    streaming_first_line a' = streaming_first_line a -> scrollback a' = scrollback a ->
    streams s0 (t ++ []) a') as Hkeep.
  { intros a' E1 E2 E3 E4. destruct Hs as [S1 S2 S3 S4]. rewrite app_nil_r. constructor; congruence. }
  destruct p as [m|[text|]|text|id name|args| |f u|cat [msg|]]; try done;
    try (eexists; split; [reflexivity|]; by apply Hkeep).
  destruct Hs as [S1 S2 S3 S4]. destruct (cut_lines t []) as [ls rest] eqn:Ec. cbn [fst snd] in *.
  pose proof (text_delta_ok s0 a t ls rest (scrollback a) text S4) as Hd.
  assert (showing a (non_empty t) ls rest (scrollback a) = a) as Ea.
  { unfold showing. rewrite <- S1, <- S2, <- S3. apply set_text_same. }
  rewrite Ea in Hd. pose proof (cut_lines_app t text []) as Ecut. rewrite Ec in Ecut.
  destruct (cut_lines text rest) as [ls' tail]. destruct Hd as (s' & -> & Hd').
  eexists. split; [reflexivity|]. constructor; rewrite ?Ecut; done.
Qed.

Lemma events_streams s0 t a es :
  streams s0 t a -> Forall (fun e => is_start e = false) es ->
  exists a', stream_events a es = Ret a' /\ streams s0 (t ++ reply_text es) a'.
Proof.
  intros Hs He. revert t a Hs. induction He as [|e es He _ IH]; intros t a Hs.
  { exists a. unfold reply_text. cbn. by rewrite app_nil_r. }
  destruct (event_streams s0 t a e Hs He) as (a1 & E1 & Hs1). cbn [stream_events]. rewrite E1.
  destruct (IH _ _ Hs1) as (a2 & E2 & Hs2). exists a2. split; [exact E2|].
  unfold reply_text in *. cbn [fmap list_fmap concat]. by rewrite app_assoc.
Qed.

(** The text part of the completion callback. *)
Lemma completion_text s0 t a :
  streams s0 t a ->
  exists s1 s2,
    (match streaming_line_buffer a with
     | Some buffer => let! s := put_line (scrollback a) (prefix_bytes (streaming_first_line a) ++ buffer) in
                      Ret (set_text (assistant_response a) None false s a)
     | None => Ret a
     end = Ret (set_text (assistant_response a) None
                  (match streaming_line_buffer a with Some _ => false | None => streaming_first_line a end) s1 a)) /\
    (if match assistant_response a with Some r => has_text r | None => false end
     then put_line s1 [] else Ret s1) = Ret s2 /\
    append_lines s0 (reply_lines t) = Ret s2.
Proof.
  intros [S1 S2 S3 S4]. unfold reply_lines. destruct (cut_lines t []) as [ls rest]. cbn [fst snd] in *.
  assert (match assistant_response a with Some r => has_text r | None => false end = has_text t) as ->
    by (rewrite S1; by destruct t).
  unfold drawn in S4. destruct (with_prefix ls) as [shown first_line]. cbn [fst snd] in *.
  assert (exists s1, append_lines (scrollback a)
            (match rest with [] => [] | _ => [prefix_bytes first_line ++ rest] end) = Ret s1 /\
          match streaming_line_buffer a with
          | Some buffer => let! s := put_line (scrollback a) (prefix_bytes (streaming_first_line a) ++ buffer) in
                           Ret (set_text (assistant_response a) None false s a)
          | None => Ret a
          end = Ret (set_text (assistant_response a) None
                  (match streaming_line_buffer a with Some _ => false | None => streaming_first_line a end) s1 a))
    as (s1 & E1 & ->).
  { rewrite S3. rewrite S2. destruct rest as [|x rest]; cbn [non_empty].
    - exists (scrollback a). split; [done|]. f_equal. rewrite <- S3. symmetry.
      transitivity (set_text (assistant_response a) (streaming_line_buffer a) (streaming_first_line a)
                      (scrollback a) a); [by rewrite S2|apply set_text_same].
    - destruct (put_line_some (scrollback a) (prefix_bytes first_line ++ x :: rest)) as (s1 & -> & E).
      exists s1. cbn [append_lines]. rewrite E. done. }
  exists s1.
  assert (exists s2, (if has_text t then put_line s1 [] else Ret s1) = Ret s2 /\
            append_lines s1 (if has_text t then [[]] else []) = Ret s2) as (s2 & -> & E2).
  { destruct (has_text t); [|by exists s1].
    destruct (put_line_some s1 []) as (s2 & -> & E). exists s2. cbn [append_lines]. by rewrite E. }
  exists s2. split; [done|]. split; [done|].
  rewrite append_lines_app, S4. cbn [obind]. by rewrite append_lines_app, E1.
Qed.

(** What the completion callback leaves. *)
Lemma completion_ok s0 t a c :
  streams s0 t a ->
  exists a1, append_lines s0 (reply_lines t) = Ret (scrollback a1) /\
    assistant_response a1 = non_empty t /\ streaming_line_buffer a1 = None /\
    http_error_message a1 = (if success c then None else error_message c) /\
    ik_repl_completion_callback a c =
      match success c, response c with
      | true, Some r =>
          let! a2 := ik_repl_render_usage_event (ik_repl_store_response_metadata a1 r) in
          ik_repl_extract_tool_calls a2 r
      | _, _ => Ret a1
      end.
Proof.
  intros Hs. destruct (completion_text s0 t a Hs) as (s1 & s2 & E1 & E2 & E3).
  unfold ik_repl_completion_callback. rewrite E1. cbn [obind].
  assert (scrollback (set_text (assistant_response a) None
    match streaming_line_buffer a with Some _ => false | None => streaming_first_line a end s1 a) = s1) as ->
    by done.
  rewrite E2. cbn [obind].
  eexists. split; [|split; [|split; [|split; [|reflexivity]]]].
  - rewrite E3. by destruct (success c), (error_message c).
  - rewrite <- (st_response _ _ _ Hs). by destruct (success c), (error_message c).
  - by destruct (success c), (error_message c).
  - by destruct (success c), (error_message c).
Qed.

End streaming.

(** ** Properties *)

Module StreamProps.

Section props.
Context `{!Display} `{!DisplaySpec}.

(** A reply is shown by its lines, however its text is cut into deltas and
    whatever other events come between them: empty lines before the first other
    line are dropped, that line gets the model's prefix, an unfinished line is
    shown at the end, and a reply that is not all white space is followed by a
    blank line.  The text itself is kept for the conversation.  The error that is
    left is the completion's alone: an error event of the stream is forgotten
    when the transfer succeeds. *)
Theorem streamed_reply_shown (a : agent_stream) (i : Z) (m : option cstr) (es : list ik_stream_event)
    (c : ik_provider_completion) :
  streaming_line_buffer a = None -> Forall (fun e => is_start e = false) es ->
  success c = false \/ response c = None ->
  exists a1 a2,
    stream_events a (mk_stream_event i (IK_STREAM_START m) :: es) = Ret a1 /\
    ik_repl_completion_callback a1 c = Ret a2 /\
    append_lines (scrollback a) (reply_lines (reply_text es)) = Ret (scrollback a2) /\
    assistant_response a2 = non_empty (reply_text es) /\ streaming_line_buffer a2 = None /\
    http_error_message a2 = (if success c then None else error_message c).
Proof.
  intros Hb He Hc. destruct (start_streams a m i Hb) as (a0 & E0 & Hs0).
  destruct (events_streams (scrollback a) [] a0 es Hs0 He) as (a1 & E1 & Hs1).
  destruct (completion_ok (scrollback a) (reply_text es) a1 c Hs1) as (a2 & H1 & H2 & H3 & H4 & E2).
  exists a1, a2. split; [cbn [stream_events]; rewrite E0; exact E1|]. split; [|done].
  rewrite E2. by destruct Hc as [-> | ->]; [|destruct (success c)].
Qed.

End props.
End StreamProps.

Module StreamExamples.
Import ListDisplay StreamProps.

Definition idle_agent : agent_stream :=
  mk_astream None None false None None None 0 0 0 None None None None None [].

Definition two_pieces : list ik_stream_event :=
  [mk_stream_event 0 (IK_STREAM_TEXT_DELTA (Some [10; 72]%Z));
   mk_stream_event 0 (IK_STREAM_ERROR IK_ERR_CAT_SERVER (Some (lit "overloaded")));
   mk_stream_event 0 (IK_STREAM_TEXT_DELTA (Some [105; 10; 111; 107]%Z))].

Lemma streamed_reply_shown_witness :
  exists a1 a2, stream_events idle_agent (mk_stream_event 0 (IK_STREAM_START None) :: two_pieces) = Ret a1 /\
    ik_repl_completion_callback a1 (mk_completion true 200 None IK_ERR_CAT_UNKNOWN None (-1)) = Ret a2 /\
    scrollback a2 = [[0xE2; 0x97; 0x8F; 32; 72; 105]%Z; lit "ok"; []] /\
    assistant_response a2 = Some [10; 72; 105; 10; 111; 107]%Z /\ http_error_message a2 = None.
Proof.
  destruct (streamed_reply_shown idle_agent 0 None two_pieces
              (mk_completion true 200 None IK_ERR_CAT_UNKNOWN None (-1)))
    as (a1 & a2 & E1 & E2 & Hl & Hr & _ & He); [done|by repeat constructor|by right|].
  exists a1, a2. split; [exact E1|]. split; [exact E2|].
  split; [|split; [exact Hr|exact He]].
  assert (append_lines (scrollback idle_agent) (reply_lines (reply_text two_pieces))
          = Ret [[0xE2; 0x97; 0x8F; 32; 72; 105]%Z; lit "ok"; []]) as El by (vm_compute; reflexivity).
  rewrite El in Hl. by injection Hl.
Defined.

End StreamExamples.
