(* ===== verification/AgentLoop.v ===== *)
(** * The agent's loop (agent_state.c, repl_event_handlers.c, repl_tool.c,
    repl_tool_completion.c, repl_actions_llm.c, and the interrupt of
    repl_actions.c)

    The states of an agent: idle, waiting for the model, executing a tool.  The
    main loop's handlers and the tool's thread are steps; the provider's
    transfer is the environment's.  [LoopProps] shows that the steps that can
    happen never fail an assertion, that a tool call makes its round trip, what
    an interrupt leaves, and two ways in which a request gets lost. *)

From Stdlib Require Import String.
From stdpp Require Import strings.
From S2P Require Import Prelude Slots CString ByteArray Json OutputStyle Format Conversation.
From S2P Require Import Provider EventRender TokenCache AgentStream.

Inductive ik_agent_state : Set :=
| IK_AGENT_STATE_IDLE
| IK_AGENT_STATE_WAITING_FOR_LLM
| IK_AGENT_STATE_EXECUTING_TOOL.

#[export] Instance ik_agent_state_eq_dec : EqDecision ik_agent_state.
Proof. solve_decision. Defined.

(** What the agent's configuration gives to a request and to the loop. *)
Record agent_config := mk_config {
  max_tool_turns : option Z;
  thinking_level : ik_thinking_level;
  tool_registry : list ik_tool_registry_entry;
  toolset_filter : list cstr
}.

(** Starting a request: the message of an error of getting the provider, of
    building the request, of starting the stream. *)
Record llm_io := mk_io {
  provider_error : option cstr;
  build_error : cstr;
  start_error : ik_request -> option cstr
}.

(** One call of the provider's perform and info_read: the transfers still
    running, the stream events delivered, the completion if there is one. *)
Record curl_round := mk_round {
  running : Z;
  delivered : list ik_stream_event;
  completed : option ik_provider_completion
}.

Section agent.
Context `{!Display} {hook : Type}.

(** The fields of the agent the handlers use.  Those of the conversation are in
    [core], those of the reply in [reply]; both have the screen and the input
    token count, and [core]'s are the current ones. *)
Record loop_agent := mk_loop {
  core : ik_agent;
  reply : agent_stream;
  state : ik_agent_state;
  spinner_visible : bool;
  input_buffer_visible : bool;
  has_provider : bool;
  curl_still_running : Z;
  interrupt_requested : bool;
  tool_iteration_count : Z;
  tool_thread_running : bool;
  tool_thread_complete : bool;
  tool_thread_result : option cstr;
  tool_child_pid : Z;
  pending_on_complete : option hook
}.

Definition set_core (c : ik_agent) (a : loop_agent) : loop_agent :=
  mk_loop c (reply a) (state a) (spinner_visible a) (input_buffer_visible a) (has_provider a)
    (curl_still_running a) (interrupt_requested a) (tool_iteration_count a) (tool_thread_running a)
    (tool_thread_complete a) (tool_thread_result a) (tool_child_pid a) (pending_on_complete a).
Definition set_reply (r : agent_stream) (a : loop_agent) : loop_agent :=
  mk_loop (core a) r (state a) (spinner_visible a) (input_buffer_visible a) (has_provider a)
    (curl_still_running a) (interrupt_requested a) (tool_iteration_count a) (tool_thread_running a)
    (tool_thread_complete a) (tool_thread_result a) (tool_child_pid a) (pending_on_complete a).
Definition set_state (s : ik_agent_state) (spinner input : bool) (a : loop_agent) : loop_agent :=
  mk_loop (core a) (reply a) s spinner input (has_provider a)
    (curl_still_running a) (interrupt_requested a) (tool_iteration_count a) (tool_thread_running a)
    (tool_thread_complete a) (tool_thread_result a) (tool_child_pid a) (pending_on_complete a).
Definition set_curl (p : bool) (n : Z) (a : loop_agent) : loop_agent :=
  mk_loop (core a) (reply a) (state a) (spinner_visible a) (input_buffer_visible a) p
    n (interrupt_requested a) (tool_iteration_count a) (tool_thread_running a)
    (tool_thread_complete a) (tool_thread_result a) (tool_child_pid a) (pending_on_complete a).
Definition set_interrupt (b : bool) (a : loop_agent) : loop_agent :=
  mk_loop (core a) (reply a) (state a) (spinner_visible a) (input_buffer_visible a) (has_provider a)
    (curl_still_running a) b (tool_iteration_count a) (tool_thread_running a)
    (tool_thread_complete a) (tool_thread_result a) (tool_child_pid a) (pending_on_complete a).
Definition set_iterations (n : Z) (a : loop_agent) : loop_agent :=
  mk_loop (core a) (reply a) (state a) (spinner_visible a) (input_buffer_visible a) (has_provider a)
    (curl_still_running a) (interrupt_requested a) n (tool_thread_running a)
    (tool_thread_complete a) (tool_thread_result a) (tool_child_pid a) (pending_on_complete a).
Definition set_thread (run complete : bool) (result : option cstr) (pid : Z) (h : option hook)
    (a : loop_agent) : loop_agent :=
  mk_loop (core a) (reply a) (state a) (spinner_visible a) (input_buffer_visible a) (has_provider a)
    (curl_still_running a) (interrupt_requested a) (tool_iteration_count a) run complete result pid h.

(** The agent's screen. *)
Definition show_on (f : screen -> outcome screen) (a : loop_agent) : outcome loop_agent :=
  let! s := f (agent_screen (core a)) in Ret (set_core (with_screen s (core a)) a).

(** A callback on the reply's fields. *)
Definition on_reply (f : agent_stream -> outcome agent_stream) (a : loop_agent) : outcome loop_agent :=
  let! r := f (set_scrollback (agent_screen (core a)) (reply a)) in
  Ret (set_reply r (set_core
    (with_screen (scrollback r) (with_input_tokens (AgentStream.response_input_tokens r) (core a))) a)).

(** ** agent_state.c *)

Definition ik_agent_has_running_tools (a : loop_agent) : bool := tool_thread_running a.

Definition ik_agent_transition_to_waiting_for_llm (a : loop_agent) : outcome loop_agent :=
  assert! bool_decide (state a = IK_AGENT_STATE_IDLE) in
  Ret (set_state IK_AGENT_STATE_WAITING_FOR_LLM true false a).

Definition ik_agent_transition_to_idle (a : loop_agent) : outcome loop_agent :=
  assert! bool_decide (state a = IK_AGENT_STATE_WAITING_FOR_LLM) in
  Ret (set_state IK_AGENT_STATE_IDLE false true a).

Definition ik_agent_transition_to_executing_tool (a : loop_agent) : outcome loop_agent :=
  assert! bool_decide (state a = IK_AGENT_STATE_WAITING_FOR_LLM) in
  Ret (set_state IK_AGENT_STATE_EXECUTING_TOOL (spinner_visible a) (input_buffer_visible a) a).

Definition ik_agent_transition_from_executing_tool (a : loop_agent) : outcome loop_agent :=
  assert! bool_decide (state a = IK_AGENT_STATE_EXECUTING_TOOL) in
  Ret (set_state IK_AGENT_STATE_WAITING_FOR_LLM (spinner_visible a) (input_buffer_visible a) a).

End agent.
Arguments loop_agent {_} hook.

Section handlers.
Context `{!Display} `{!SlotAllocator} `{!Yyjson} `{!Printf} {T : Type} `{!ByteStore T}.
Context {hook : Type} (cfg : agent_config).

(** A hook of the tool registry, and the registry's hook of a tool. *)
Variable run_hook : hook -> loop_agent hook -> outcome (loop_agent hook).
Variable on_complete_of : cstr -> option hook.

(** ** repl.c *)

Definition ik_agent_should_continue_tool_loop (a : loop_agent hook) : bool :=
  match response_finish_reason (reply a) with
  | None => false
  | Some r =>
      strcmp_eq r (lit "tool_use") &&
      match max_tool_turns cfg with
      | Some m => negb (m <=? tool_iteration_count a)%Z
      | None => true
      end
  end.

(** ** Starting a request *)

(** An error is shown and ends the turn. *)
Definition fail_turn (msg : cstr) (a : loop_agent hook) : outcome (loop_agent hook) :=
  let! a := show_on (fun s => put_line s msg) a in
  ik_agent_transition_to_idle a.

Definition context_start (a : loop_agent hook) : nat :=
  match token_cache (core a) with
  | Some c => ik_token_cache_get_context_start_index c
  | None => 0
  end.

Definition build_request (a : loop_agent hook) : outcome ik_request :=
  ik_request_build_from_conversation (agent_model (core a)) (thinking_level cfg)
    (mjoin (effective_prompt (core a))) (conv (core a)) (context_start a) (tool_registry cfg)
    (toolset_filter cfg).

Definition start_request (io : llm_io) (a : loop_agent hook) : outcome (loop_agent hook) :=
  match provider_error io with
  | Some msg => fail_turn msg a
  | None =>
      let a := set_curl true (curl_still_running a) a in
      match build_request a with
      | Fail _ => fail_turn (build_error io) a
      | Ret req =>
          match start_error io req with
          | Some msg => fail_turn msg a
          | None => Ret (set_curl true 1 a)
          end
      | Panic => Panic
      | Undef => Undef
      | NoFuel => NoFuel
      end
  end.

(** ** repl_actions_llm.c *)

Definition send_to_llm_for_agent (a : loop_agent hook) (message_text : cstr) (io : llm_io)
  : outcome (loop_agent hook) :=
  match agent_model (core a) with
  | None | Some [] => let! c := add_user_message (core a) message_text in Ret (set_core c a)
  | Some _ =>
      let! c := add_user_message (core a) message_text in
      let a := set_core c a in
      let r := reply a in
      let a := set_reply (set_text None None (streaming_first_line r) (scrollback r) r) a in
      let a := set_iterations 0 a in
      let! a := ik_agent_transition_to_waiting_for_llm a in
      start_request io a
  end.

(** ** repl_tool_completion.c *)

Definition ik_repl_submit_tool_loop_continuation (a : loop_agent hook) (io : llm_io)
  : outcome (loop_agent hook) := start_request io a.

(** ** repl_tool.c *)

(** The thread is started; its end is [tool_thread_worker]. *)
Definition ik_agent_start_tool_execution (a : loop_agent hook) : outcome (loop_agent hook) :=
  match pending_tool_call (reply a) with
  | None => Panic
  | Some tc =>
      assert! negb (tool_thread_running a) in
      match tc_arguments tc with
      | None => Panic
      | Some _ =>
          let a := set_thread true false (tool_thread_result a) (tool_child_pid a)
                     (on_complete_of (tc_name tc)) a in
          ik_agent_transition_to_executing_tool a
      end
  end.

(** The end of the tool's thread: the result is stored and then, under the
    mutex, the flag that the main loop polls. *)
Definition tool_thread_worker (a : loop_agent hook) (result_json : cstr) : loop_agent hook :=
  set_thread (tool_thread_running a) true (Some result_json) (tool_child_pid a) (pending_on_complete a) a.

(** "ik_event_render(agent->scrollback, ...)", the result ignored. *)
Definition render (kind : cstr) (text : cstr) (a : loop_agent hook) : outcome (loop_agent hook) :=
  show_on (fun s => keep_on_error s (event_render s kind (Some text) (lit "{}") false)) a.

Definition drop_pending (a : loop_agent hook) : loop_agent hook :=
  let r := reply a in
  set_reply (set_pending None None None None (pending_tool_thought_signature r) r) a.

Definition ik_agent_complete_tool_execution (a : loop_agent hook) : outcome (loop_agent hook) :=
  assert! tool_thread_running a in
  assert! tool_thread_complete a in
  let r := reply a in
  match pending_tool_call r, tool_thread_result a with
  | Some tc, Some result_json =>
      let! args := or_panic (tc_arguments tc) in
      let tc_msg := ik_message_create_tool_call_with_thinking (pending_thinking_text r)
                      (pending_thinking_signature r) (pending_redacted_data r)
                      (tc_id tc) (tc_name tc) args (pending_tool_thought_signature r) in
      let! formatted_call := ik_format_tool_call (T := T) tc in
      let! formatted_result := ik_format_tool_result (T := T) (tc_name tc) (Some result_json) in
      let! c := add_reply (core a) tc_msg in
      let result_msg := ik_message_create_tool_result (tc_id tc) result_json false in
      let! c := add_reply c result_msg in
      let a := set_core c a in
      let! a := render (lit "tool_call") formatted_call a in
      let! a := render (lit "tool_result") formatted_result a in
      let a := drop_pending a in
      let a := set_thread false false None 0 (pending_on_complete a) a in
      ik_agent_transition_from_executing_tool a
  | _, _ => Undef
  end.

(** *** repl_tool_completion.c, continued *)

(** A deferred command has a thread but no tool call. *)
Definition cleanup_thread (a : loop_agent hook) : outcome (loop_agent hook) :=
  ik_agent_transition_from_executing_tool (set_thread false false None 0 (pending_on_complete a) a).

Definition run_on_complete (a : loop_agent hook) : outcome (loop_agent hook) :=
  match pending_on_complete a with
  | None => Ret a
  | Some h =>
      let! a := run_hook h a in
      Ret (set_thread (tool_thread_running a) (tool_thread_complete a) (tool_thread_result a)
             (tool_child_pid a) None a)
  end.

Definition ik_repl_handle_agent_tool_completion (a : loop_agent hook) (io : llm_io)
  : outcome (loop_agent hook) :=
  let! a := match pending_tool_call (reply a) with
            | Some _ => ik_agent_complete_tool_execution a
            | None => cleanup_thread a
            end in
  let! a := run_on_complete a in
  if ik_agent_should_continue_tool_loop a then
    ik_repl_submit_tool_loop_continuation (set_iterations (tool_iteration_count a + 1) a) io
  else ik_agent_transition_to_idle a.

(** *** Interrupted turns *)

(** The search for the most recent user message: [i] messages are left. *)
Fixpoint find_turn_start (ms : list ik_message) (i : nat) : outcome (option nat) :=
  match i with
  | 0 => Ret None
  | S i =>
      let! m := arr_get ms i in
      if is_user m then Ret (Some i) else find_turn_start ms i
  end.

Definition interrupt_message (m : ik_message) : ik_message :=
  mk_message (role m) (content_blocks m) (provider_metadata m) true.

Fixpoint interrupt_loop (ms : list ik_message) (n i : nat) : outcome (list ik_message) :=
  match n with
  | 0 => Ret ms
  | S n =>
      let! m := arr_get ms i in
      let! ms := arr_set i (interrupt_message m) ms in
      interrupt_loop ms n (S i)
  end.

Fixpoint rerender_loop (s : screen) (ms : list ik_message) (n i : nat) : outcome screen :=
  match n with
  | 0 => Ret s
  | S n =>
      let! m := arr_get ms i in
      let! s :=
        match content_blocks m with
        | [] => Ret s
        | block :: _ =>
            match render_content m block with
            | Some text =>
                keep_on_error s (event_render s (render_kind m) (Some text) (lit "{}") (interrupted m))
            | None => Ret s
            end
        end in
      rerender_loop s ms n (S i)
  end.

(** Marking the turn and drawing the conversation again. *)
Definition mark_interrupted_turn (a : loop_agent hook) : outcome (loop_agent hook) :=
  let cv := conv (core a) in
  let! start := find_turn_start (messages cv) (message_count cv) in
  let! ms := match start with
             | Some turn_start => interrupt_loop (messages cv) (message_count cv - turn_start) turn_start
             | None => Ret (messages cv)
             end in
  let a := set_core (with_conv (mk_conv ms (message_count cv) (message_capacity cv)) (core a)) a in
  show_on (fun s => rerender_loop (screen_clear s) ms (message_count cv) 0) a.

Definition ik_repl_handle_interrupted_tool_completion (a : loop_agent hook)
  : outcome (loop_agent hook) :=
  let a := set_interrupt false a in
  match pending_tool_call (reply a) with
  | None =>
      let! a := cleanup_thread a in
      let! a := run_on_complete a in
      ik_agent_transition_to_idle a
  | Some _ =>
      let r := reply a in
      let a := set_reply (set_pending (pending_thinking_text r) (pending_thinking_signature r)
                 (pending_redacted_data r) None (pending_tool_thought_signature r) r) a in
      let! a := cleanup_thread a in
      let! a := mark_interrupted_turn a in
      ik_agent_transition_to_idle a
  end.

(** One agent of ik_repl_poll_tool_completions. *)
Definition ik_repl_poll_tool_completions (a : loop_agent hook) (io : llm_io)
  : outcome (loop_agent hook) :=
  if bool_decide (state a = IK_AGENT_STATE_EXECUTING_TOOL) && tool_thread_complete a then
    if interrupt_requested a then ik_repl_handle_interrupted_tool_completion a
    else ik_repl_handle_agent_tool_completion a io
  else Ret a.

(** ** repl_event_handlers.c *)

Definition handle_agent_request_error (a : loop_agent hook) : outcome (loop_agent hook) :=
  match http_error_message (reply a) with
  | None => Undef
  | Some m =>
      let! a := show_on (fun s => put_line s (lit "Error: " ++ m)) a in
      let r := set_error None (reply a) in
      Ret (set_reply (set_text None (streaming_line_buffer r) (streaming_first_line r) (scrollback r) r) a)
  end.

Definition clear_response (a : loop_agent hook) : loop_agent hook :=
  let r := reply a in
  set_reply (set_text None (streaming_line_buffer r) (streaming_first_line r) (scrollback r) r) a.

Definition ik_repl_handle_agent_request_success (a : loop_agent hook) (io : llm_io)
  : outcome (loop_agent hook) :=
  let! a :=
    match assistant_response (reply a) with
    | Some (c :: text) =>
        let! co := add_reply (core a) (ik_message_create_text IK_ROLE_ASSISTANT (c :: text)) in
        Ret (set_core co a)
    | _ => Ret a
    end in
  let a := clear_response a in
  match pending_tool_call (reply a) with
  | Some _ => ik_agent_start_tool_execution a
  | None =>
      if ik_agent_should_continue_tool_loop a then
        ik_repl_submit_tool_loop_continuation (set_iterations (tool_iteration_count a + 1) a) io
      else Ret a
  end.

Definition ik_repl_handle_interrupted_llm_completion (a : loop_agent hook) : outcome (loop_agent hook) :=
  let a := set_interrupt false a in
  let a := clear_response (set_reply (set_error None (reply a)) a) in
  let! a := mark_interrupted_turn a in
  ik_agent_transition_to_idle a.

Definition process_agent_curl_events (a : loop_agent hook) (perform : outcome curl_round) (io : llm_io)
  : outcome (loop_agent hook) :=
  if (curl_still_running a =? 0)%Z || negb (has_provider a) then Ret a
  else
    let! round := perform in
    let! a := on_reply (fun r => stream_events r (delivered round)) a in
    let a := set_curl (has_provider a) (running round) a in
    let! a := match completed round with
              | Some c => on_reply (fun r => ik_repl_completion_callback r c) a
              | None => Ret a
              end in
    if negb (running round =? 0)%Z || negb (bool_decide (state a = IK_AGENT_STATE_WAITING_FOR_LLM))
    then Ret a
    else if interrupt_requested a then ik_repl_handle_interrupted_llm_completion a
    else
      let was_success := match http_error_message (reply a) with None => true | Some _ => false end in
      let! a := if was_success then ik_repl_handle_agent_request_success a io
                else handle_agent_request_error a in
      if bool_decide (state a = IK_AGENT_STATE_WAITING_FOR_LLM) then
        let! c := ik_agent_record_and_prune_token_cache (core a) was_success in
        ik_agent_transition_to_idle (set_core c a)
      else Ret a.

(** ** repl_actions.c *)

(** The wait for a terminated child: [polls] are the results of waitpid, which
    is asked every 100 ms for two seconds. *)
Fixpoint wait_child (fuel : nat) (elapsed_ms : Z) (polls : nat -> bool) (i : nat) : bool :=
  match fuel with
  | 0 => false
  | S fuel =>
      if (elapsed_ms <? 2000)%Z
      then polls i || wait_child fuel (elapsed_ms + 100) polls (S i)
      else false
  end.

Definition SIGTERM : Z := 15.
Definition SIGKILL : Z := 9.

(** The agent, and the signals sent to the child's process group. *)
Definition ik_repl_handle_interrupt_request (a : loop_agent hook) (polls : nat -> bool)
  : loop_agent hook * list (Z * Z) :=
  match state a with
  | IK_AGENT_STATE_IDLE => (a, [])
  | IK_AGENT_STATE_WAITING_FOR_LLM => (set_interrupt true a, [])
  | IK_AGENT_STATE_EXECUTING_TOOL =>
      (set_interrupt true a,
       if (0 <? tool_child_pid a)%Z then
         (- tool_child_pid a, SIGTERM)%Z ::
         if wait_child 21 0 polls 0 then [] else [(- tool_child_pid a, SIGKILL)%Z]
       else [])
  end.

(** ** The steps of an agent *)

Inductive loop_event : Type :=
| EvSubmit (text : cstr) (io : llm_io)
| EvCurl (perform : outcome curl_round) (io : llm_io)
| EvToolDone (result_json : cstr)
| EvPoll (io : llm_io)
| EvInterrupt (polls : nat -> bool).

Definition loop_step (a : loop_agent hook) (e : loop_event) : outcome (loop_agent hook) :=
  match e with
  | EvSubmit text io => send_to_llm_for_agent a text io
  | EvCurl perform io => process_agent_curl_events a perform io
  | EvToolDone result => Ret (tool_thread_worker a result)
  | EvPoll io => ik_repl_poll_tool_completions a io
  | EvInterrupt polls => Ret (fst (ik_repl_handle_interrupt_request a polls))
  end.

Fixpoint loop_run (a : loop_agent hook) (es : list loop_event) : outcome (loop_agent hook) :=
  match es with
  | [] => Ret a
  | e :: es => let! a := loop_step a e in loop_run a es
  end.

End handlers.
