(* ===== verification/AgentSafety.v ===== *)
(** * The agent's loop is safe

    The invariant of an agent between two steps of its loop, and the theorems
    about the steps of AgentLoop.v: no step fails an assertion, reads outside
    an array or leaves the agent waiting for nothing; what a tool call's round
    trip and an interrupt leave; and two ways in which a request gets lost. *)

From Stdlib Require Import String.
From stdpp Require Import strings.
From S2P Require Import Prelude Slots CString ByteArray Json OutputStyle Format Conversation.
From S2P Require Import Provider EventRender TokenCache AgentStream AgentLoop.

(** ** The callbacks never fail and keep the tool call *)

Section callbacks.
Context `{!Display} `{!DisplaySpec}.

Definition keeps_call (a : agent_stream) (m : outcome agent_stream) : Prop :=
  exists a', m = Ret a' /\ pending_tool_call a' = pending_tool_call a.

Lemma keeps_bind a m k :
  keeps_call a m -> (forall a', pending_tool_call a' = pending_tool_call a -> keeps_call a (k a')) ->
  keeps_call a (obind m k).
Proof. intros (a' & -> & E) Hk. by apply Hk. Qed.

Lemma keeps_ret a a' : pending_tool_call a' = pending_tool_call a -> keeps_call a (Ret a').
Proof. intros E. by exists a'. Qed.

Lemma keeps_put (a : agent_stream) s l (k : screen -> outcome agent_stream) :
  (forall s', keeps_call a (k s')) -> keeps_call a (obind (put_line s l) k).
Proof. intros Hk. destruct (put_line_some s l) as (s' & -> & _). apply Hk. Qed.

Lemma keeps_flush a c : keeps_call a (ik_repl_flush_line_to_scrollback a c).
Proof.
  unfold ik_repl_flush_line_to_scrollback. destruct (streaming_line_buffer a) as [b|].
  { apply keeps_put. intros s. by apply keeps_ret. }
  destruct c as [|x c], (prefix_bytes _) as [|y p]; try (apply keeps_put; intros s); by apply keeps_ret.
Qed.

Lemma keeps_delta_loop n a0 a chunk i start :
  pending_tool_call a = pending_tool_call a0 -> i + n <= length chunk -> start <= i ->
  exists a' start', delta_loop a chunk n i start = Ret (a', start') /\
    pending_tool_call a' = pending_tool_call a0.
Proof.
  revert a i start. induction n as [|n IH]; intros a i start Ha Hn Hs; cbn [delta_loop].
  { by exists a, start. }
  destruct (lookup_lt_is_Some_2 chunk i) as [c ->]; [lia|].
  destruct (c =? 10)%Z; [|apply IH; [done|lia|lia]].
  destruct (keeps_flush a (take (i - start) (drop start chunk))) as (a1 & -> & E1). cbn [obind].
  apply IH; [congruence|lia|lia].
Qed.

Lemma keeps_delta a chunk : keeps_call a (ik_repl_handle_text_delta a chunk (length chunk)).
Proof.
  unfold ik_repl_handle_text_delta. destruct (_ =? 0)%nat; [by apply keeps_ret|].
  match goal with |- context [delta_loop ?a1 _ _ _ _] =>
    destruct (keeps_delta_loop (length chunk) a a1 chunk 0 0) as (a' & start & -> & E); [done|lia|lia|] end.
  cbn [obind]. destruct (_ <? _)%nat; by apply keeps_ret.
Qed.

Lemma keeps_events a es : keeps_call a (stream_events a es).
Proof.
  revert a. induction es as [|e es IH]; intros a; cbn [stream_events]; [by apply keeps_ret|].
  apply keeps_bind.
  - unfold ik_repl_stream_callback.
    destruct (payload e) as [|[t|]| | | | | |? [m|]]; try (by apply keeps_ret); apply keeps_delta.
  - intros a1 E1. destruct (IH a1) as (a2 & -> & E2). apply keeps_ret. congruence.
Qed.

(** The call a response asks for has all its parts. *)
Definition call_present (b : ik_content_block) : bool :=
  match b with
  | IK_CONTENT_TOOL_CALL id name args _ => present id && present name && present args
  | _ => true
  end.

(** The tool call kept, if there is one, has arguments. *)
Definition pending_ok (a : agent_stream) : Prop :=
  forall tc, pending_tool_call a = Some tc -> exists args, tc_arguments tc = Some args.

Lemma extract_some bs a :
  forallb call_present bs = true -> pending_ok a -> exists a', extract_loop a bs = Ret a' /\ pending_ok a'.
Proof.
  revert a. induction bs as [|b bs IH]; intros a Hb Ha; [by exists a|].
  cbn [forallb] in Hb. apply andb_true_iff in Hb as [Hp Hb].
  destruct b as [t|id nm ar sg|id c e|t sg|d]; cbn [extract_loop]; try (by apply IH).
  cbn [call_present] in Hp. destruct id as [id|], nm as [nm|], ar as [ar|]; try done.
  eexists. split; [reflexivity|]. intros tc E. injection E as <-. by eexists.
Qed.

(** The usage of a response can be added up and shown. *)
Definition usage_shown (u : ik_usage) : Prop :=
  exists t1 t2, int_add (input_tokens u) (output_tokens u) = Ret t1 /\
    int_add t1 (thinking_tokens u) = Ret t2 /\
    ((0 < t2)%Z -> forall s, exists s', keep_on_error s
      (event_render s (lit "usage") None
         (usage_json (input_tokens u) (output_tokens u) (thinking_tokens u)) false) = Ret s').

Lemma usage_some a r :
  usage_shown (resp_usage r) ->
  keeps_call a (ik_repl_render_usage_event (ik_repl_store_response_metadata a r)).
Proof.
  intros (t1 & t2 & E1 & E2 & Hs). unfold ik_repl_render_usage_event, ik_repl_store_response_metadata.
  cbn [response_input_tokens response_output_tokens response_thinking_tokens set_metadata scrollback].
  rewrite E1. cbn [obind]. rewrite E2. cbn [obind].
  destruct (Z.ltb_spec 0 t2) as [Hpos|].
  - destruct (Hs Hpos (scrollback a)) as [s' ->]. by apply keeps_ret.
  - apply keeps_put. intros s'. by apply keeps_ret.
Qed.

(** What the loop needs of a completion. *)
Definition completion_fits (c : ik_provider_completion) : Prop :=
  forall r, success c = true -> response c = Some r ->
    usage_shown (resp_usage r) /\ forallb call_present (resp_content_blocks r) = true.

Lemma completion_some a c :
  completion_fits c -> pending_ok a ->
  exists a', ik_repl_completion_callback a c = Ret a' /\ pending_ok a'.
Proof.
  intros Hc Ha. unfold ik_repl_completion_callback.
  match goal with |- context [obind ?m _] => assert (keeps_call a m) as (a1 & -> & E1) end.
  { destruct (streaming_line_buffer a); [|by apply keeps_ret].
    apply keeps_put. intros s. by apply keeps_ret. }
  cbn [obind].
  match goal with |- context [obind ?m _] => assert (exists s, m = Ret s) as [s ->] end.
  { destruct (match assistant_response a with Some r => has_text r | None => false end); [|by eexists].
    destruct (put_line_some (scrollback a1) []) as (s & -> & _). by eexists. }
  cbn [obind].
  match goal with |- context [ik_repl_store_response_metadata ?x _] => set (a2 := x) end.
  assert (pending_tool_call a2 = pending_tool_call a) as E2
    by (subst a2; destruct (success c), (error_message c); exact E1).
  assert (pending_ok a2) as Ha2 by (intros tc; rewrite E2; apply Ha).
  destruct (success c) eqn:Es; [|by exists a2].
  destruct (response c) as [r|] eqn:Er; [|by exists a2].
  destruct (Hc r Es Er) as [Hu Hb].
  destruct (usage_some a2 r Hu) as (a3 & -> & E3). cbn [obind].
  by apply extract_some; [|intros tc; cbn].
Qed.

End callbacks.

(** ** Room in the arrays *)

Section room.
Context `{!Display} `{!DisplaySpec} `{!SlotAllocator} `{!SlotAllocatorSpec}.

(** An operation that leaves the capacity of the turn array. *)
Definition cap_same (c : ik_token_cache) (m : outcome ik_token_cache) : Prop :=
  forall c', m = Ret c' -> turn_capacity c' = turn_capacity c.

Lemma cap_turn a c i :
  forall v c', ik_token_cache_get_turn_tokens c a i = Ret (v, c') -> turn_capacity c' = turn_capacity c.
Proof.
  intros v c'. unfold ik_token_cache_get_turn_tokens. destruct (_ <=? _)%nat; [done|].
  destruct (arr_get _ _); try done. cbn [obind]. destruct (negb _); [by injection 1 as _ <-|].
  destruct (find_turn_bounds _ _ _) as [[[s e]|]| | | |]; try done; cbn [obind]; [|by injection 1 as _ <-].
  destruct (count_turn_via_provider _ _ _); try done. cbn [obind]. destruct (negb _).
  - destruct (arr_set _ _ _); try done. cbn [obind]. by injection 1 as _ <-.
  - destruct (estimate_turn_bytes _ _ _); try done. cbn [obind]. by injection 1 as _ <-.
Qed.

Lemma cap_total_loop n a c i acc v c' :
  total_loop c a n i acc = Ret (v, c') -> turn_capacity c' = turn_capacity c.
Proof.
  revert c i acc. induction n as [|n IH]; intros c i acc; cbn [total_loop]; [by injection 1 as _ <-|].
  destruct (ik_token_cache_get_turn_tokens c a i) as [[w c1]| | | |] eqn:E; try done. cbn [obind].
  intros Hl. apply IH in Hl. apply cap_turn in E. congruence.
Qed.

Lemma cap_total a c v c' :
  ik_token_cache_get_total c a = Ret (v, c') -> turn_capacity c' = turn_capacity c.
Proof.
  unfold ik_token_cache_get_total. destruct (negb _); [by injection 1 as _ <-|].
  destruct (ik_token_cache_get_system_tokens c a) as [s c1] eqn:E1.
  destruct (ik_token_cache_get_tool_tokens c1 a) as [t c2] eqn:E2.
  assert (turn_capacity c2 = turn_capacity c) as Hc.
  { transitivity (turn_capacity c1).
    - unfold ik_token_cache_get_tool_tokens in E2.
      repeat case_match; simplify_eq; done.
    - unfold ik_token_cache_get_system_tokens in E1.
      repeat case_match; simplify_eq; done. }
  destruct (total_loop _ _ _ _ _) as [[w c3]| | | |] eqn:E3; try done. cbn [obind].
  injection 1 as _ <-. apply cap_total_loop in E3. cbn. congruence.
Qed.

Lemma cap_prune_loop fuel a B c : cap_same c (prune_loop fuel c a B).
Proof.
  revert c. induction fuel as [|fuel IH]; intros c c'; cbn [prune_loop]; [done|].
  destruct (ik_token_cache_get_total c a) as [[v c1]| | | |] eqn:E1; try done. cbn [obind].
  apply cap_total in E1. destruct (_ && _); [|by injection 1 as <-].
  destruct (ik_token_cache_prune_oldest_turn c1 a) as [c2| | | |] eqn:E2; try done. cbn [obind].
  assert (turn_capacity c2 = turn_capacity c1) as Hc2.
  { unfold ik_token_cache_prune_oldest_turn in E2. destruct (_ =? 0)%nat; [by injection E2 as <-|].
    apply obind_Ret_inv in E2 as (? & _ & E2). apply obind_Ret_inv in E2 as (? & _ & E2).
    apply obind_Ret_inv in E2 as (? & _ & E2). by injection E2 as <-. }
  intros E. apply IH in E. congruence.
Qed.

Lemma refresh_fields a a' :
  refresh_scrollback_with_hr a = Ret a' -> exists s, a' = with_screen s a.
Proof.
  assert (with_screen (agent_screen a) a = a) as Hid by (by destruct a).
  unfold refresh_scrollback_with_hr. destruct (token_cache a); [|injection 1 as <-; eauto].
  destruct (_ =? 0)%nat; [injection 1 as <-; eauto|].
  intros (s & _ & E)%obind_Ret_inv. injection E as <-. by exists s.
Qed.

(** [n] more steps, of at most two messages each, fit. *)
Definition roomy (n : nat) (a : ik_agent) (ms : list ik_message) : Prop :=
  (Z.of_nat (length ms + 2 * n) < 2 ^ 30)%Z /\ (Z.of_nat (message_capacity (conv a)) < 2 ^ 31)%Z /\
  forall c, token_cache a = Some c -> (Z.of_nat (turn_capacity c) < 2 ^ 31)%Z.

Lemma roomy_small n a ms : roomy n a ms -> small a ms.
Proof. intros (? & ? & ?). split; [lia|by split]. Qed.

Lemma roomy_less n n' a ms : roomy n a ms -> n' <= n -> roomy n' a ms.
Proof. intros (? & ? & ?) ?. split; [lia|by split]. Qed.

(** Recording and pruning change the cache, the screen and the previous token
    count. *)
Lemma done_fields (a : ik_agent) ok a' :
  ik_agent_record_and_prune_token_cache a ok = Ret a' ->
  conv a' = conv a /\ agent_model a' = agent_model a /\ marks a' = marks a /\
  forall c', token_cache a' = Some c' ->
    exists c, token_cache a = Some c /\ turn_capacity c' = turn_capacity c.
Proof.
  unfold ik_agent_record_and_prune_token_cache.
  destruct (token_cache a) as [c|] eqn:Ec; [|injection 1 as <-; split_and!; try done; rewrite Ec; eauto].
  destruct ok; cbn [negb]; [|injection 1 as <-; split_and!; try done; rewrite Ec; eauto].
  intros (c1 & E1 & E)%obind_Ret_inv.
  assert (turn_capacity c1 = turn_capacity c) as Hc1.
  { destruct (0 <? _)%nat; [|by injection E1 as <-].
    assert (forall c2 i x, ik_token_cache_record_turn c2 i x = Ret c1 -> turn_capacity c1 = turn_capacity c2) as Hrec.
    { intros c2 i x. unfold ik_token_cache_record_turn. destruct (_ <=? _)%nat; [done|].
      intros (? & _ & Er)%obind_Ret_inv. by injection Er as <-. }
    destruct (0 <? _)%Z; [by eapply Hrec|].
    apply obind_Ret_inv in E1 as ([est c2] & E2 & E1). apply cap_turn in E2.
    destruct (0 <? est)%Z; [apply Hrec in E1; congruence|injection E1 as <-; congruence]. }
  unfold ik_agent_prune_token_cache in E. cbn [token_cache with_prev_tokens with_cache] in E.
  apply obind_Ret_inv in E as (c2 & E2 & E). apply cap_prune_loop in E2.
  apply refresh_fields in E as [s ->]. split_and!; try done.
  intros c' Hc'. injection Hc' as <-. exists c. split; [done|]. congruence.
Qed.

Lemma done_room a ms n ok k :
  agent_inv a ms -> roomy n a ms ->
  exists a', ik_agent_record_and_prune_token_cache (with_input_tokens k a) ok = Ret a' /\
    agent_inv a' ms /\ roomy n a' ms /\ agent_model a' = agent_model a.
Proof.
  intros Hi Hr. destruct (step_done a ms ok k Hi (roomy_small _ _ _ Hr)) as (a' & E & Hi').
  exists a'. destruct (done_fields _ _ _ E) as (Ec & Em & _ & Hc). destruct Hr as (R1 & R2 & R3).
  split; [done|]. split; [done|]. split; [|done]. split; [done|]. split; [by rewrite Ec|].
  intros c' Hc'. destruct (Hc c' Hc') as (c & E1 & ->). by apply R3.
Qed.

Lemma message_room c ms m :
  conv_rep c ms -> (Z.of_nat (length ms) < 2 ^ 30)%Z -> (Z.of_nat (message_capacity c) < 2 ^ 31)%Z ->
  exists c', ik_agent_add_message c m = Ret c' /\ conv_rep c' (ms ++ [m]) /\
    (Z.of_nat (message_capacity c') < 2 ^ 31)%Z.
Proof.
  intros Hr Hl Hc.
  destruct (add_message_ok (Nat.max 16 (Nat.max (message_capacity c) (2 * length ms))) c ms m Hr)
    as (c' & E & Hr' & Hcap); try lia. exists c'. split_and!; [done|done|lia].
Qed.

Lemma reply_room n a ms m :
  agent_inv a ms -> roomy n a ms -> is_user m = false -> content_blocks m <> [] ->
  exists cv, add_reply a m = Ret (with_conv cv a) /\ agent_inv (with_conv cv a) (ms ++ [m]) /\
    (Z.of_nat (message_capacity cv) < 2 ^ 31)%Z.
Proof.
  intros Hi Hr Hu Hb. destruct (step_reply a ms m Hi (roomy_small _ _ _ Hr) Hu Hb) as (a' & E & Hi').
  destruct (inv_cache _ _ Hi) as (c & ts & _ & [Hcv _ _ _]). destruct Hr as (R1 & R2 & _).
  unfold add_reply in *.
  destruct (message_room (conv a) ms m Hcv ltac:(lia) R2) as (cv & Ecv & _ & Hcap).
  rewrite Ecv in E |- *. cbn [obind] in *. injection E as <-. by exists cv.
Qed.

(** The user's message, where there is a model. *)
Lemma user_room n a ms text :
  agent_inv a ms -> roomy (S n) a ms -> agent_model a <> None -> agent_model a <> Some [] ->
  exists a', add_user_message a text = Ret a' /\
    agent_inv a' (ms ++ [ik_message_create_text IK_ROLE_USER text]) /\
    roomy n a' (ms ++ [ik_message_create_text IK_ROLE_USER text]) /\ agent_model a' = agent_model a.
Proof.
  intros Hi Hr Hm1 Hm2. destruct (step_user a ms text Hi (roomy_small _ _ _ Hr)) as (a' & E & Hi').
  exists a'. split; [done|].
  destruct (inv_cache _ _ Hi) as (c & ts & Ec & [Hcv Hrep Hst Hts]). destruct Hr as (R1 & R2 & R3).
  unfold add_user_message, op_messages in *. destruct (agent_model a) as [[|b p]|] eqn:Em; try done.
  destruct (message_room (conv a) ms (ik_message_create_text IK_ROLE_USER text) Hcv ltac:(lia) R2)
    as (cv & Ecv & _ & Hcap). rewrite Ecv in E. cbn [obind token_cache with_conv] in E.
  rewrite Ec in E. destruct (add_turn_ok c ts Hrep (R3 c Ec)) as (c' & Ec' & _ & _ & _ & _ & _ & Hcap').
  rewrite Ec' in E. cbn [obind] in E. injection E as <-. split; [done|]. split; [|done].
  split; [rewrite length_app; simpl; lia|]. split; [done|].
  intros c2 E2. injection E2 as <-. pose proof (R3 c Ec).
  assert (length ts <= length ms).
  { rewrite Hts. etrans; [apply length_turns_le|]. rewrite length_drop. lia. }
  lia.
Qed.

End room.

(** ** The turn that is marked interrupted *)

(** The messages with those from the last user message on marked. *)
Definition mark_turn (ms : list ik_message) : list ik_message :=
  match last (user_positions ms 0) with
  | Some p => take p ms ++ (interrupt_message <$> drop p ms)
  | None => ms
  end.

Lemma role_interrupt m : role (interrupt_message m) = role m.
Proof. done. Qed.

Lemma mark_turn_blocks ms : content_blocks <$> mark_turn ms = content_blocks <$> ms.
Proof.
  unfold mark_turn. destruct (last _) as [p|]; [|done].
  rewrite fmap_app, <- list_fmap_compose. rewrite <- (take_drop p ms) at 3. by rewrite fmap_app.
Qed.

Lemma mark_turn_roles ms : role <$> mark_turn ms = role <$> ms.
Proof.
  unfold mark_turn. destruct (last _) as [p|]; [|done].
  rewrite fmap_app, <- list_fmap_compose. rewrite <- (take_drop p ms) at 3. by rewrite fmap_app.
Qed.

Lemma length_mark_turn ms : length (mark_turn ms) = length ms.
Proof. rewrite <- (length_fmap role), mark_turn_roles. apply length_fmap. Qed.

Lemma user_positions_roles ms ms' i :
  role <$> ms = role <$> ms' -> user_positions ms i = user_positions ms' i.
Proof.
  revert ms' i. induction ms as [|m ms IH]; intros [|m' ms'] i E; try done.
  cbn [fmap list_fmap] in E. injection E as Em E. cbn [user_positions]. unfold is_user. rewrite Em.
  rewrite (IH ms' (S i) E). done.
Qed.

Lemma turns_mark_turn ms k : length (turns (drop k (mark_turn ms))) = length (turns (drop k ms)).
Proof.
  rewrite !(length_turns _ 0). f_equal. apply user_positions_roles.
  by rewrite !fmap_drop, mark_turn_roles.
Qed.

Lemma complete_mark_turn ms : forallb complete (mark_turn ms) = forallb complete ms.
Proof.
  assert (forall l, forallb complete l = forallb (forallb complete_block) (content_blocks <$> l)) as E
    by (induction l as [|m l IH]; [done|cbn; by rewrite IH]).
  by rewrite !E, mark_turn_blocks.
Qed.

Lemma find_turn_start_ok ms r :
  find_turn_start (ms ++ r) (length ms) = Ret (last (user_positions ms 0)).
Proof.
  revert r. induction ms as [|m ms IH] using rev_ind; intros r; [done|].
  rewrite length_app, Nat.add_1_r. cbn [find_turn_start].
  rewrite <- app_assoc. cbn [app]. rewrite arr_get_app. cbn [obind].
  rewrite user_positions_app. cbn [user_positions]. rewrite Nat.add_0_l.
  destruct (is_user m); [by rewrite last_snoc|]. rewrite app_nil_r. apply IH.
Qed.

Lemma interrupt_loop_ok pre ms r :
  interrupt_loop (pre ++ ms ++ r) (length ms) (length pre)
    = Ret (pre ++ (interrupt_message <$> ms) ++ r).
Proof.
  revert pre. induction ms as [|m ms IH]; intros pre; [done|]. cbn [interrupt_loop length app].
  rewrite arr_get_app. cbn [obind]. rewrite arr_set_middle. cbn [obind].
  specialize (IH (pre ++ [interrupt_message m])).
  rewrite <- !app_assoc, length_app, Nat.add_1_r in IH. exact IH.
Qed.

Lemma rerender_ok `{!Display} `{!DisplaySpec} s pre ms r :
  exists s', rerender_loop s (pre ++ ms ++ r) (length ms) (length pre) = Ret s'.
Proof.
  revert s pre. induction ms as [|m ms IH]; intros s pre; cbn [rerender_loop length]; [by eexists|].
  cbn [app]. rewrite arr_get_app. cbn [obind].
  match goal with |- context [obind ?x _] => assert (exists s2, x = Ret s2) as [s2 ->] end.
  { destruct (content_blocks m) as [|b bs]; [by eexists|].
    destruct (render_content m b) as [text|]; [|by eexists].
    destruct (event_render_some s (render_kind m) (Some text) (lit "{}") (interrupted m)
                (render_kind_known m)) as [s2 ->]. by exists s2. }
  cbn [obind]. specialize (IH s2 (pre ++ [m])).
  rewrite <- app_assoc, length_app, Nat.add_1_r in IH. exact IH.
Qed.

Section marking.
Context `{!Display} `{!DisplaySpec} {hook : Type}.

Lemma mark_interrupted_turn_ok (a : loop_agent hook) ms :
  conv_rep (conv (core a)) ms ->
  exists r s, mark_interrupted_turn a =
      Ret (set_core (with_screen s (with_conv
             (mk_conv (mark_turn ms ++ r) (message_count (conv (core a)))
                (message_capacity (conv (core a)))) (core a))) a) /\
    messages (conv (core a)) = ms ++ r.
Proof.
  intros [Hc [r Hm] Hl]. exists r. unfold mark_interrupted_turn. rewrite Hm, Hc, find_turn_start_ok.
  cbn [obind].
  match goal with |- context [obind ?m _] => assert (m = Ret (mark_turn ms ++ r)) as -> end.
  { unfold mark_turn. destruct (last (user_positions ms 0)) as [p|] eqn:Ep; [|done].
    assert (p < length ms) as Hp.
    { rewrite last_lookup in Ep. apply list_elem_of_lookup_2, user_positions_bounds in Ep. lia. }
    pose proof (interrupt_loop_ok (take p ms) (drop p ms) r) as E.
    rewrite length_take_le, length_drop in E by lia.
    rewrite app_assoc, take_drop in E. rewrite E. by rewrite app_assoc. }
  cbn [obind]. unfold show_on. cbn [core set_core agent_screen with_conv].
  destruct (rerender_ok (screen_clear (agent_screen (core a))) [] (mark_turn ms) r) as [s E].
  cbn [app length] in E. rewrite length_mark_turn in E. rewrite E. cbn [obind]. by exists s.
Qed.

End marking.

(** *** The invariant of the conversation through the loop's changes *)

Section core_inv.
Context `{!Display} `{!DisplaySpec} `{!SlotAllocator} `{!SlotAllocatorSpec}.

Lemma inv_screen a ms s : agent_inv a ms -> agent_inv (with_screen s a) ms.
Proof. intros [(c & ts & Ec & [? ? ? ?]) ? ?]. constructor; [|done|done]. exists c, ts. by split. Qed.

Lemma inv_tokens a ms n : agent_inv a ms -> agent_inv (with_input_tokens n a) ms.
Proof. intros [(c & ts & Ec & [? ? ? ?]) ? ?]. constructor; [|done|done]. exists c, ts. by split. Qed.

Lemma inv_marked a ms r :
  agent_inv a ms -> messages (conv a) = ms ++ r ->
  agent_inv (with_conv (mk_conv (mark_turn ms ++ r) (message_count (conv a)) (message_capacity (conv a))) a)
    (mark_turn ms).
Proof.
  intros [(c & ts & Ec & [[Hc _ Hl] Hr Hs Hn]) Hb Hm] Em.
  apply (inv_intro _ _ c ts); try done; rewrite ?length_mark_turn; try done.
  - constructor; simpl; [by rewrite length_mark_turn|by exists r|].
    by rewrite <- Hl, Em, !length_app, length_mark_turn.
  - by rewrite turns_mark_turn.
  - assert (Forall (fun bs => bs <> []) (content_blocks <$> mark_turn ms)) as Hf
      by (rewrite mark_turn_blocks; by apply Forall_fmap).
    exact (proj1 (Forall_fmap _ _ _) Hf).
Qed.

End core_inv.

(** ** The invariant of the loop *)

Section invariant.
Context `{!Display} `{!DisplaySpec} `{!SlotAllocator} `{!SlotAllocatorSpec} `{!Yyjson} `{!Printf}.
Context {T : Type} `{!ByteStore T} {hook : Type} (cfg : agent_config).

(** What holds in every state; [n] is the number of steps to come. *)
Record sound (n : nat) (a : loop_agent hook) (ms : list ik_message) : Prop := {
  so_core : agent_inv (core a) ms;
  so_complete : forallb complete ms = true;
  so_room : roomy n (core a) ms;
  so_pending : pending_ok (reply a)
}.

(** An idle agent shows its input and has no work; a waiting agent has a
    transfer under way; an agent that executes a tool has its thread. *)
Definition phase_ok (a : loop_agent hook) : Prop :=
  match state a with
  | IK_AGENT_STATE_IDLE =>
      spinner_visible a = false /\ input_buffer_visible a = true /\ tool_thread_running a = false /\
      interrupt_requested a = false
  | IK_AGENT_STATE_WAITING_FOR_LLM =>
      spinner_visible a = true /\ input_buffer_visible a = false /\ tool_thread_running a = false /\
      curl_still_running a <> 0%Z /\ has_provider a = true
  | IK_AGENT_STATE_EXECUTING_TOOL =>
      spinner_visible a = true /\ input_buffer_visible a = false /\ tool_thread_running a = true /\
      (tool_thread_complete a = true -> tool_thread_result a <> None)
  end.

Definition loop_inv (n : nat) (a : loop_agent hook) (ms : list ik_message) : Prop :=
  sound n a ms /\ phase_ok a.

(** In the middle of a step, after a request. *)
Definition between (n : nat) (a : loop_agent hook) (ms : list ik_message) : Prop :=
  sound n a ms /\ state a = IK_AGENT_STATE_WAITING_FOR_LLM /\ spinner_visible a = true /\
  input_buffer_visible a = false /\ tool_thread_running a = false /\ interrupt_requested a = false.

Lemma sound_less n n' a ms : sound n a ms -> n' <= n -> sound n' a ms.
Proof. intros [? ? ? ?] ?. constructor; [done..|by eapply roomy_less|done]. Qed.

(** A step that changes the conversation's fields only by the screen, and the
    reply by nothing that touches the tool call. *)
Lemma sound_frame n a a' ms s :
  sound n a ms -> core a' = with_screen s (core a) -> pending_ok (reply a') -> sound n a' ms.
Proof.
  intros [Hi Hc Hr Hp] Ec Hp'. constructor; rewrite ?Ec; [by apply inv_screen|done|exact Hr|done].
Qed.

Lemma same_screen (a : loop_agent hook) : core a = with_screen (agent_screen (core a)) (core a).
Proof. by destruct (core a). Qed.

Lemma show_some (a : loop_agent hook) l :
  exists s, show_on (fun s => put_line s l) a = Ret (set_core (with_screen s (core a)) a).
Proof. unfold show_on. destruct (put_line_some (agent_screen (core a)) l) as (s & -> & _). by exists s. Qed.

Lemma to_idle_ok n a ms :
  between n a ms ->
  exists a', ik_agent_transition_to_idle a = Ret a' /\ loop_inv n a' ms /\ state a' = IK_AGENT_STATE_IDLE /\
    core a' = core a.
Proof.
  intros (Hs & Est & Hsp & Hin & Hth & Hint). unfold ik_agent_transition_to_idle.
  rewrite Est, bool_decide_eq_true_2 by done. eexists. split; [reflexivity|]. split; [|done].
  split; [|done]. by destruct Hs.
Qed.

Lemma fail_turn_ok n a ms msg :
  between n a ms ->
  exists a', fail_turn msg a = Ret a' /\ loop_inv n a' ms /\ state a' = IK_AGENT_STATE_IDLE.
Proof.
  intros (Hs & Hrest). unfold fail_turn. destruct (show_some a msg) as [s ->]. cbn [obind].
  destruct (to_idle_ok n (set_core (with_screen s (core a)) a) ms) as (a' & -> & Hinv & Est & _).
  - split; [|exact Hrest]. eapply sound_frame; [exact Hs|reflexivity|apply Hs].
  - by exists a'.
Qed.

(** The registry's definitions can be written. *)
Definition tools_fit : Prop :=
  exists defs, tool_def_of <$> filter (admitted (toolset_filter cfg)) (tool_registry cfg) = Some <$> defs /\
    (Z.of_nat (length defs) < 2 ^ 32)%Z.

Definition has_model (a : ik_agent) : Prop := exists b p, agent_model a = Some (b :: p).

Lemma build_request_some n a ms :
  tools_fit -> sound n a ms ->
  (exists req, build_request cfg a = Ret req) \/
  (build_request cfg a = Fail ERR_INVALID_ARG /\ ~ has_model (core a)).
Proof.
  intros (defs & Hd & Hl) [Hi Hc (R1 & _) _]. unfold build_request.
  destruct (agent_model (core a)) as [[|b p]|] eqn:Em.
  1, 3: right; split; [done|]; intros (b' & p' & E); congruence.
  left. destruct (inv_cache _ _ Hi) as (c & ts & Ec & [Hcv _ Hst _]).
  unfold context_start. rewrite Ec. unfold ik_token_cache_get_context_start_index.
  eexists. apply (build_request_ok (b :: p) _ _ _ _ ms _ _ defs); try done; lia.
Qed.

Lemma start_request_ok n a ms io :
  tools_fit -> between n a ms ->
  exists a', start_request cfg io a = Ret a' /\ loop_inv n a' ms /\
    (state a' = IK_AGENT_STATE_IDLE \/
     state a' = IK_AGENT_STATE_WAITING_FOR_LLM /\ curl_still_running a' = 1%Z /\ core a' = core a /\
       reply a' = reply a /\ tool_iteration_count a' = tool_iteration_count a /\
       interrupt_requested a' = false) /\
    (provider_error io = None -> (forall req, start_error io req = None) -> has_model (core a) ->
     state a' = IK_AGENT_STATE_WAITING_FOR_LLM).
Proof.
  intros Ht Hb. unfold start_request.
  assert (forall a1 msg, between n a1 ms -> 
    exists a', fail_turn msg a1 = Ret a' /\ loop_inv n a' ms /\ state a' = IK_AGENT_STATE_IDLE) as Hfail
    by (intros; by apply fail_turn_ok).
  destruct (provider_error io) as [msg|].
  { destruct (Hfail a msg Hb) as (a' & -> & Hi & Es). exists a'. split_and!; auto. done. }
  set (a1 := set_curl true (curl_still_running a) a).
  assert (between n a1 ms) as Hb1 by (destruct Hb as ([? ? ? ?] & ?); split; [by constructor|done]).
  destruct (build_request_some n a1 ms Ht (proj1 Hb1)) as [[req ->]|[-> Hm]].
  2: { destruct (Hfail a1 (build_error io) Hb1) as (a' & -> & Hi & Es). exists a'. split_and!; auto. done. }
  destruct (start_error io req) as [msg|] eqn:Ese.
  { destruct (Hfail a1 msg Hb1) as (a' & -> & Hi & Es). exists a'. split_and!; auto.
    intros _ E. specialize (E req). congruence. }
  eexists. split; [reflexivity|]. destruct Hb as ([? ? ? ?] & Est & Hsp & Hin & Hth & Hint).
  split; [split; [by constructor|]|].
  - unfold phase_ok. subst a1. cbn [state set_curl]. rewrite Est. by split_and!.
  - split; [right; by split_and!|done].
Qed.

End invariant.

(** ** The steps *)

Section steps.
Context `{!Display} `{!DisplaySpec} `{!SlotAllocator} `{!SlotAllocatorSpec} `{!Yyjson} `{!Printf}.
Context {T : Type} `{!ByteStore T} {hook : Type} (cfg : agent_config).
Variable run_hook : hook -> loop_agent hook -> outcome (loop_agent hook).
Variable on_complete_of : cstr -> option hook.

(** A hook shows something on the agent's screen. *)
Definition hooks_show : Prop :=
  forall h a, exists s, run_hook h a = Ret (set_core (with_screen s (core a)) a).

Notation sound := (sound (hook := hook)).
Notation between := (between (hook := hook)).
Notation loop_inv := (loop_inv (hook := hook)).

Definition call_message (r : agent_stream) (tc : ik_tool_call) (args : cstr) : ik_message :=
  ik_message_create_tool_call_with_thinking (pending_thinking_text r) (pending_thinking_signature r)
    (pending_redacted_data r) (tc_id tc) (tc_name tc) args (pending_tool_thought_signature r).

Lemma call_message_complete r tc args :
  complete (call_message r tc args) = true /\ is_user (call_message r tc args) = false /\
  content_blocks (call_message r tc args) <> [].
Proof.
  unfold call_message, ik_message_create_tool_call_with_thinking.
  destruct (pending_thinking_text r), (pending_redacted_data r); by split_and!.
Qed.

Lemma complete_snoc ms m :
  forallb complete ms = true -> complete m = true -> forallb complete (ms ++ [m]) = true.
Proof. intros Hms Hm. rewrite forallb_app, Hms. cbn. by rewrite Hm. Qed.

(** A message that is not the user's; [k] of a step's two messages are left. *)
Lemma sound_reply n k a ms m :
  agent_inv a ms -> forallb complete ms = true ->
  (Z.of_nat (length ms + (2 * n + S k)) < 2 ^ 30)%Z -> 
  (Z.of_nat (message_capacity (conv a)) < 2 ^ 31)%Z ->
  complete m = true -> is_user m = false -> content_blocks m <> [] ->
  exists cv, add_reply a m = Ret (with_conv cv a) /\ agent_inv (with_conv cv a) (ms ++ [m]) /\
    forallb complete (ms ++ [m]) = true /\
    (Z.of_nat (length (ms ++ [m]) + (2 * n + k)) < 2 ^ 30)%Z /\
    (Z.of_nat (message_capacity cv) < 2 ^ 31)%Z.
Proof.
  intros Hi Hc Hl Hcap Hm Hu Hb. destruct (inv_cache _ _ Hi) as (c & ts & Ec & [Hcv _ _ _]).
  destruct (message_room (conv a) ms m Hcv ltac:(lia) Hcap) as (cv & E & Hcv' & Hcap').
  exists cv. unfold add_reply. rewrite E. split; [done|]. split.
  2: { split; [by apply complete_snoc|]. split; [rewrite length_app; simpl; lia|done]. }
  destruct Hi as [(c' & ts' & Ec' & [_ Hr Hs Hn]) Hb' Hmk].
  apply (inv_intro _ _ c' ts'); try done; rewrite ?length_app; simpl; try lia.
  - by rewrite drop_snoc, turns_snoc_reply by done.
  - apply Forall_app. split; [done|]. by repeat constructor.
  - eapply marks_ok_grow; [exact Hmk|]. lia.
Qed.

Lemma render_some kind text (a : loop_agent hook) :
  kind ∈ [lit "tool_call"; lit "tool_result"] ->
  exists s, render kind text a = Ret (set_core (with_screen s (core a)) a).
Proof.
  intros Hk. unfold render, show_on.
  destruct (event_render_some (agent_screen (core a)) kind (Some text) (lit "{}") false) as [s ->];
    [right; by split|]. cbn [keep_on_error obind]. by exists s.
Qed.

Definition call_formats (tc : ik_tool_call) (res : cstr) : Prop :=
  exists c r, ik_format_tool_call (T := T) tc = Ret c /\
    ik_format_tool_result (T := T) (tc_name tc) (Some res) = Ret r.

Lemma complete_tool_ok n a ms tc args res :
  sound (S n) a ms -> state a = IK_AGENT_STATE_EXECUTING_TOOL -> spinner_visible a = true ->
  input_buffer_visible a = false -> tool_thread_running a = true -> interrupt_requested a = false ->
  tool_thread_complete a = true -> tool_thread_result a = Some res ->
  pending_tool_call (reply a) = Some tc -> tc_arguments tc = Some args -> call_formats tc res ->
  exists a', ik_agent_complete_tool_execution (T := T) a = Ret a' /\
    between n a' (ms ++ [call_message (reply a) tc args; ik_message_create_tool_result (tc_id tc) res false]) /\
    pending_tool_call (reply a') = None /\
    response_finish_reason (reply a') = response_finish_reason (reply a) /\
    tool_iteration_count a' = tool_iteration_count a /\ agent_model (core a') = agent_model (core a) /\
    pending_on_complete a' = pending_on_complete a /\
    streaming_line_buffer (reply a') = streaming_line_buffer (reply a).
Proof.
  intros [Hi Hc (R1 & R2 & R3) Hp] Est Hsp Hin Hth Hint Hco Hres Hpend Harg (fc & fr & Efc & Efr).
  unfold ik_agent_complete_tool_execution. rewrite Hth, Hco, Hpend, Hres, Harg.
  cbn [or_panic obind]. rewrite Efc. cbn [obind]. rewrite Efr. cbn [obind].
  fold (call_message (reply a) tc args).
  destruct (call_message_complete (reply a) tc args) as (Hm1 & Hm2 & Hm3).
  destruct (sound_reply n 1 (core a) ms (call_message (reply a) tc args) Hi Hc ltac:(lia) R2 Hm1 Hm2 Hm3)
    as (cv1 & -> & Hi1 & Hc1 & Hl1 & Hcap1). cbn [obind].
  destruct (sound_reply n 0 (with_conv cv1 (core a)) _ (ik_message_create_tool_result (tc_id tc) res false)
    Hi1 Hc1 Hl1 Hcap1 eq_refl eq_refl ltac:(done)) as (cv2 & -> & Hi2 & Hc2 & Hl2 & Hcap2). cbn [obind].
  set (a1 := set_core (with_conv cv2 (with_conv cv1 (core a))) a).
  destruct (render_some (lit "tool_call") fc a1) as [s1 ->]; [rewrite !elem_of_cons; auto|]. cbn [obind].
  set (a2 := set_core (with_screen s1 (core a1)) a1).
  destruct (render_some (lit "tool_result") fr a2) as [s2 ->]; [rewrite !elem_of_cons; auto|]. cbn [obind].
  unfold ik_agent_transition_from_executing_tool.
  match goal with |- context [bool_decide (state ?x = _)] => change (state x) with (state a) end.
  rewrite Est, bool_decide_eq_true_2 by done.
  eexists. split; [reflexivity|]. split; [|done]. rewrite <- app_assoc in *. cbn [app] in *.
  split; [|by split_and!]. constructor.
  - by apply inv_screen, inv_screen.
  - done.
  - split; [|by split]. rewrite Nat.add_0_r in Hl2. exact Hl2.
  - intros tc'. cbn. done.
Qed.

(** Frames of [between]: the screen, the counters, the thread's hook. *)
Lemma between_screen n (a : loop_agent hook) ms s :
  between n a ms -> between n (set_core (with_screen s (core a)) a) ms.
Proof. intros [Hs Hr]. split; [|done]. by eapply sound_frame; [exact Hs|done|apply Hs]. Qed.

Lemma between_iterations n k (a : loop_agent hook) ms :
  between n a ms -> between n (set_iterations k a) ms.
Proof. intros [[? ? ? ?] Hr]. split; [by constructor|done]. Qed.

Lemma between_hook n h (a : loop_agent hook) ms :
  between n a ms ->
  between n (set_thread (tool_thread_running a) (tool_thread_complete a) (tool_thread_result a)
               (tool_child_pid a) h a) ms.
Proof. intros [[? ? ? ?] Hr]. split; [by constructor|done]. Qed.

(** The fields a hook leaves. *)
Definition same_turn (a a' : loop_agent hook) : Prop :=
  response_finish_reason (reply a') = response_finish_reason (reply a) /\
  tool_iteration_count a' = tool_iteration_count a /\ agent_model (core a') = agent_model (core a) /\
  streaming_line_buffer (reply a') = streaming_line_buffer (reply a).

Lemma hook_ok n (a : loop_agent hook) ms :
  hooks_show -> between n a ms ->
  exists a', run_on_complete run_hook a = Ret a' /\ between n a' ms /\ same_turn a a' /\
    reply a' = reply a.
Proof.
  intros Hh Hb. unfold run_on_complete. destruct (pending_on_complete a) as [h|]; [|by exists a].
  destruct (Hh h a) as [s ->]. cbn [obind]. eexists. split; [reflexivity|].
  split; [|done]. apply between_hook. by apply between_screen.
Qed.

Lemma cleanup_ok n (a : loop_agent hook) ms :
  sound n a ms -> state a = IK_AGENT_STATE_EXECUTING_TOOL -> spinner_visible a = true ->
  input_buffer_visible a = false -> interrupt_requested a = false ->
  exists a', cleanup_thread a = Ret a' /\ between n a' ms /\ same_turn a a' /\ core a' = core a /\
    reply a' = reply a.
Proof.
  intros [? ? ? ?] Est Hsp Hin Hint. unfold cleanup_thread, ik_agent_transition_from_executing_tool.
  match goal with |- context [bool_decide (state ?x = _)] => change (state x) with (state a) end.
  rewrite Est, bool_decide_eq_true_2 by done. eexists. split; [reflexivity|]. split; [|done].
  split; [by constructor|]. by split_and!.
Qed.

(** What a tool's end leaves before the turn goes on or ends. *)
Lemma tool_completion_ok n (a : loop_agent hook) ms io :
  hooks_show -> loop_inv (S n) a ms -> state a = IK_AGENT_STATE_EXECUTING_TOOL ->
  interrupt_requested a = false -> tool_thread_complete a = true ->
  (forall tc res, pending_tool_call (reply a) = Some tc -> tool_thread_result a = Some res ->
     call_formats tc res) ->
  exists a1 ms1, between n a1 ms1 /\ same_turn a a1 /\ pending_tool_call (reply a1) = None /\
    ik_repl_handle_agent_tool_completion (T := T) cfg run_hook a io =
      (if ik_agent_should_continue_tool_loop cfg a1
       then ik_repl_submit_tool_loop_continuation cfg
              (set_iterations (tool_iteration_count a1 + 1) a1) io
       else ik_agent_transition_to_idle a1) /\
    match pending_tool_call (reply a), tool_thread_result a with
    | Some tc, Some res =>
        exists args, tc_arguments tc = Some args /\
          ms1 = ms ++ [call_message (reply a) tc args; ik_message_create_tool_result (tc_id tc) res false]
    | _, _ => ms1 = ms
    end.
Proof.
  intros Hh [Hs Hph] Est Hint Hco Hf. unfold phase_ok in Hph. rewrite Est in Hph.
  destruct Hph as (Hsp & Hin & Hth & Hres). unfold ik_repl_handle_agent_tool_completion.
  destruct (tool_thread_result a) as [res|] eqn:Eres; [|by destruct (Hres Hco)].
  destruct (pending_tool_call (reply a)) as [tc|] eqn:Ep.
  - destruct (so_pending _ _ _ Hs tc Ep) as [args Ea].
    destruct (complete_tool_ok n a ms tc args res Hs Est Hsp Hin Hth Hint Hco Eres Ep Ea (Hf tc res eq_refl eq_refl))
      as (a1 & -> & Hb & Hp1 & Hfr & Hit & Hmo & _ & Hlb). cbn [obind].
    destruct (hook_ok n a1 _ Hh Hb) as (a2 & -> & Hb2 & (F1 & F2 & F3 & F4) & Er). cbn [obind].
    exists a2. eexists. split; [exact Hb2|]. split; [split_and!; congruence|].
    split; [congruence|]. split; [reflexivity|]. by exists args.
  - destruct (cleanup_ok n a ms (sound_less (S n) n a ms Hs ltac:(lia)) Est Hsp Hin Hint)
      as (a1 & -> & Hb & (F1 & F2 & F3 & F4) & _ & Er). cbn [obind].
    destruct (hook_ok n a1 _ Hh Hb) as (a2 & -> & Hb2 & (G1 & G2 & G3 & G4) & Er2). cbn [obind].
    exists a2, ms. split; [exact Hb2|]. split; [split_and!; congruence|]. split; [congruence|].
    by split.
Qed.

(** The turn's end: the conversation is marked and the agent idle. *)
Lemma mark_and_idle n (a : loop_agent hook) ms :
  between n a ms ->
  exists a', (let! a := mark_interrupted_turn a in ik_agent_transition_to_idle a) = Ret a' /\
    loop_inv n a' (mark_turn ms) /\ state a' = IK_AGENT_STATE_IDLE /\ reply a' = reply a.
Proof.
  intros ([Hi Hc (R1 & R2 & R3) Hp] & Hrest).
  destruct (inv_cache _ _ Hi) as (c & ts & Ec & [Hcv _ _ _]).
  destruct (mark_interrupted_turn_ok a ms Hcv) as (r & s & -> & Em). cbn [obind].
  match goal with |- context [ik_agent_transition_to_idle ?x] => assert (between n x (mark_turn ms)) as Hb end.
  { split; [|exact Hrest]. constructor.
    - apply inv_screen. by apply inv_marked.
    - by rewrite complete_mark_turn.
    - split; [by rewrite length_mark_turn|by split].
    - done. }
  destruct (to_idle_ok _ _ _ Hb) as (a' & E & Hinv & Est & _). exists a'. split; [exact E|].
  split; [done|]. split; [done|]. revert E. unfold ik_agent_transition_to_idle.
  destruct (bool_decide _); [|done]. by injection 1 as <-.
Qed.

Lemma interrupted_tool_ok n (a : loop_agent hook) ms :
  hooks_show -> loop_inv n a ms -> state a = IK_AGENT_STATE_EXECUTING_TOOL ->
  exists a', ik_repl_handle_interrupted_tool_completion run_hook a = Ret a' /\
    state a' = IK_AGENT_STATE_IDLE /\
    loop_inv n a' (match pending_tool_call (reply a) with Some _ => mark_turn ms | None => ms end).
Proof.
  intros Hh [Hs Hph] Est. unfold phase_ok in Hph. rewrite Est in Hph.
  destruct Hph as (Hsp & Hin & Hth & Hres). unfold ik_repl_handle_interrupted_tool_completion.
  change (reply (set_interrupt false a)) with (reply a).
  destruct (pending_tool_call (reply a)) as [tc|] eqn:Ep.
  - match goal with |- context [cleanup_thread ?x] =>
      destruct (cleanup_ok n x ms) as (a1 & -> & Hb & _) end; [|done..|].
    { destruct Hs. constructor; [done..|]. intros tc'. cbn. done. }
    cbn [obind]. destruct (mark_and_idle n a1 ms Hb) as (a' & -> & Hinv & Est' & _). by exists a'.
  - destruct (cleanup_ok n (set_interrupt false a) ms) as (a1 & -> & Hb & _ & _ & Er); [|done..|].
    { by destruct Hs. }
    cbn [obind]. destruct (hook_ok n a1 ms Hh Hb) as (a2 & -> & Hb2 & _). cbn [obind].
    destruct (to_idle_ok n a2 ms Hb2) as (a' & -> & Hinv & Est' & _). by exists a'.
Qed.

(** *** A round of the provider's transfer *)

Lemma on_reply_ok n (a : loop_agent hook) ms f r :
  sound n a ms -> f (set_scrollback (agent_screen (core a)) (reply a)) = Ret r -> pending_ok r ->
  exists c, on_reply f a = Ret (set_reply r (set_core c a)) /\ sound n (set_reply r (set_core c a)) ms /\
    c = with_screen (scrollback r) (with_input_tokens (AgentStream.response_input_tokens r) (core a)).
Proof.
  intros [Hi Hc Hr Hp] E Hp'. unfold on_reply. rewrite E. cbn [obind]. eexists. split; [reflexivity|].
  split; [|done]. constructor; [by apply inv_screen, inv_tokens|done|exact Hr|done].
Qed.

Definition round_fits (r : curl_round) : Prop := forall c, completed r = Some c -> completion_fits c.

(** The two callbacks of a round change the reply, the screen and the tokens. *)
Lemma round_ok n (a : loop_agent hook) ms round :
  sound n a ms -> round_fits round ->
  exists r c, 
    (let! a := on_reply (fun r => stream_events r (delivered round)) a in
     let a := set_curl (has_provider a) (running round) a in
     match completed round with
     | Some c => on_reply (fun r => ik_repl_completion_callback r c) a
     | None => Ret a
     end) = Ret (set_reply r (set_core c (set_curl (has_provider a) (running round) a))) /\
    sound n (set_reply r (set_core c (set_curl (has_provider a) (running round) a))) ms /\
    conv c = conv (core a) /\ agent_model c = agent_model (core a).
Proof.
  intros Hs Hf.
  destruct (keeps_events (set_scrollback (agent_screen (core a)) (reply a)) (delivered round)) as (r1 & E1 & Ep1).
  destruct (on_reply_ok n a ms (fun r => stream_events r (delivered round)) r1 Hs E1) as (c1 & E2 & Hs1 & Ec1).
  { intros tc. rewrite Ep1. apply Hs. }
  setoid_rewrite E2. cbn [obind].
  assert (sound n (set_curl (has_provider a) (running round) (set_reply r1 (set_core c1 a))) ms) as Hs2
    by (destruct Hs1; by constructor).
  destruct (completed round) as [c|] eqn:Ecomp.
  2: { exists r1, c1. split; [reflexivity|]. subst c1. split; [by destruct Hs2|done]. }
  match type of Hs2 with sound _ ?x _ => set (a2 := x) in * end.
  destruct (completion_some (set_scrollback (agent_screen (core a2)) (reply a2)) c (Hf c Ecomp)) as (r2 & E3 & Hp2).
  { intros tc. cbn. rewrite Ep1. apply Hs. }
  destruct (on_reply_ok n a2 ms (fun r => ik_repl_completion_callback r c) r2 Hs2 E3 Hp2) as (c2 & E4 & Hs3 & Ec2).
  exists r2, c2. split; [etransitivity; [exact E4|reflexivity]|].
  split; [by destruct Hs3|]. subst c2 c1. done.
Qed.

Definition response_messages (r : option cstr) : list ik_message :=
  match r with
  | Some (c :: t) => [ik_message_create_text IK_ROLE_ASSISTANT (c :: t)]
  | _ => []
  end.

(** A successful reply: its text becomes a message. *)
Lemma success_ok n (a : loop_agent hook) ms io :
  between (S n) a ms ->
  exists a1, between n a1 (ms ++ response_messages (assistant_response (reply a))) /\ same_turn a a1 /\
    pending_tool_call (reply a1) = pending_tool_call (reply a) /\
    pending_tool_thought_signature (reply a1) = pending_tool_thought_signature (reply a) /\
    ik_repl_handle_agent_request_success cfg on_complete_of a io =
      match pending_tool_call (reply a) with
      | Some _ => ik_agent_start_tool_execution on_complete_of a1
      | None =>
          if ik_agent_should_continue_tool_loop cfg a1 then
            ik_repl_submit_tool_loop_continuation cfg (set_iterations (tool_iteration_count a1 + 1) a1) io
          else Ret a1
      end.
Proof.
  intros ([Hi Hc (R1 & R2 & R3) Hp] & Hrest). unfold ik_repl_handle_agent_request_success.
  match goal with |- context [obind ?m _] =>
    assert (exists cv, m = Ret (set_core (with_conv cv (core a)) a) /\
      agent_inv (with_conv cv (core a)) (ms ++ response_messages (assistant_response (reply a))) /\
      forallb complete (ms ++ response_messages (assistant_response (reply a))) = true /\
      (Z.of_nat (length (ms ++ response_messages (assistant_response (reply a))) + 2 * n) < 2 ^ 30)%Z /\
      (Z.of_nat (message_capacity cv) < 2 ^ 31)%Z) as (cv & -> & Hi' & Hc' & Hl' & Hcap') end.
  { assert (with_conv (conv (core a)) (core a) = core a) as Ec by (by destruct (core a)).
    assert (set_core (core a) a = a) as Ea by (by destruct a).
    destruct (assistant_response (reply a)) as [[|x t]|]; cbn [response_messages].
    1, 3: exists (conv (core a)); rewrite Ec, Ea, app_nil_r; split_and!; [done|done|done|lia|done].
    destruct (sound_reply n 0 (core a) ms (ik_message_create_text IK_ROLE_ASSISTANT (x :: t)) Hi Hc
      ltac:(lia) R2 eq_refl eq_refl ltac:(done)) as (cv & -> & Hi' & Hc' & Hl' & Hcap').
    exists cv. split; [done|]. split_and!; [done|done|lia|done]. }
  cbn [obind]. eexists. split; [|split; [|split; [|split; [|reflexivity]]]]; [|done..].
  split; [|exact Hrest]. constructor; [done|done|split; [done|by split]|]. intros tc. apply Hp.
Qed.

Lemma start_tool_ok n (a : loop_agent hook) ms tc :
  between n a ms -> pending_tool_call (reply a) = Some tc ->
  exists a', ik_agent_start_tool_execution on_complete_of a = Ret a' /\ loop_inv n a' ms /\
    state a' = IK_AGENT_STATE_EXECUTING_TOOL /\ tool_thread_complete a' = false /\
    interrupt_requested a' = false /\ reply a' = reply a /\ core a' = core a /\
    tool_iteration_count a' = tool_iteration_count a.
Proof.
  intros ([? ? ? Hp] & Est & Hsp & Hin & Hth & Hint) Ep. unfold ik_agent_start_tool_execution.
  destruct (Hp tc Ep) as [args Ea]. rewrite Ep, Hth, Ea.
  cbn [negb]. unfold ik_agent_transition_to_executing_tool.
  match goal with |- context [bool_decide (state ?x = _)] => change (state x) with (state a) end.
  rewrite Est, bool_decide_eq_true_2 by done. eexists. split; [reflexivity|].
  split; [|by split_and!]. split; [by constructor|]. unfold phase_ok. cbn. by split_and!.
Qed.

(** What follows the callbacks in a round. *)
Definition after_callbacks (a : loop_agent hook) (round : curl_round) (io : llm_io)
  : outcome (loop_agent hook) :=
  if negb (running round =? 0)%Z || negb (bool_decide (state a = IK_AGENT_STATE_WAITING_FOR_LLM))
  then Ret a
  else if interrupt_requested a then ik_repl_handle_interrupted_llm_completion a
  else
    let was_success := match http_error_message (reply a) with None => true | Some _ => false end in
    let! a := if was_success then ik_repl_handle_agent_request_success cfg on_complete_of a io
              else handle_agent_request_error a in
    if bool_decide (state a = IK_AGENT_STATE_WAITING_FOR_LLM) then
      let! c := ik_agent_record_and_prune_token_cache (core a) was_success in
      ik_agent_transition_to_idle (set_core c a)
    else Ret a.

Lemma curl_after n (a : loop_agent hook) ms round io :
  sound n a ms -> round_fits round -> (curl_still_running a <> 0)%Z -> has_provider a = true ->
  exists r c,
    process_agent_curl_events cfg on_complete_of a (Ret round) io
      = after_callbacks (set_reply r (set_core c (set_curl true (running round) a))) round io /\
    sound n (set_reply r (set_core c (set_curl true (running round) a))) ms /\
    conv c = conv (core a) /\ agent_model c = agent_model (core a) /\
    (let! a := on_reply (fun r => stream_events r (delivered round)) a in
     match completed round with
     | Some c => on_reply (fun r => ik_repl_completion_callback r c) (set_curl true (running round) a)
     | None => Ret (set_curl true (running round) a)
     end) = Ret (set_reply r (set_core c (set_curl true (running round) a))).
Proof.
  intros Hs Hf Hc Hp. destruct (round_ok n a ms round Hs Hf) as (r & c & E & Hs' & Ecv & Emo).
  rewrite Hp in *. exists r, c. unfold process_agent_curl_events.
  rewrite (proj2 (Z.eqb_neq _ _) Hc), Hp. cbn [negb orb obind].
  destruct (on_reply (fun r => stream_events r (delivered round)) a) as [a1|e| | |] eqn:E1; try done.
  cbn [obind] in *.
  assert (has_provider a1 = true) as Hp1.
  { unfold on_reply in E1. destruct (stream_events _ _); try done. cbn [obind] in E1. injection E1 as <-.
    exact Hp. }
  rewrite Hp1 in E |- *. split_and!; try done. by rewrite E.
Qed.

(** The agent after the callbacks of a last round, which it waited for. *)
Lemma waiting_between n (a : loop_agent hook) ms :
  sound n a ms -> phase_ok a -> state a = IK_AGENT_STATE_WAITING_FOR_LLM -> interrupt_requested a = false ->
  between n a ms.
Proof.
  intros Hs Hph Est Hint. unfold phase_ok in Hph. rewrite Est in Hph. destruct Hph as (? & ? & ? & _).
  by split_and!.
Qed.

Lemma record_and_idle n (a : loop_agent hook) ms ok :
  between n a ms ->
  exists a', (if bool_decide (state a = IK_AGENT_STATE_WAITING_FOR_LLM) then
                let! c := ik_agent_record_and_prune_token_cache (core a) ok in
                ik_agent_transition_to_idle (set_core c a)
              else Ret a) = Ret a' /\ loop_inv n a' ms /\ state a' = IK_AGENT_STATE_IDLE /\
    conv (core a') = conv (core a) /\ tool_iteration_count a' = tool_iteration_count a /\
    curl_still_running a' = curl_still_running a /\ has_provider a' = has_provider a /\ reply a' = reply a.
Proof.
  intros ([Hi Hc Hr Hp] & Est & Hrest). rewrite Est, bool_decide_eq_true_2 by done.
  destruct (done_room (core a) ms n ok (TokenCache.response_input_tokens (core a)) Hi Hr) as (c & E & Hi' & Hr' & Hm').
  assert (with_input_tokens (TokenCache.response_input_tokens (core a)) (core a) = core a) as Ew by (by destruct (core a)).
  rewrite Ew in E. rewrite E. cbn [obind].
  destruct (to_idle_ok n (set_core c a) ms) as (a' & E' & Hinv & Est' & Ecore).
  { split; [by constructor|by split]. }
  exists a'. split; [done|]. split; [done|]. split; [done|].
  destruct (done_fields _ _ _ E) as (Ecv & _). rewrite Ecore. split; [exact Ecv|].
  revert E'. unfold ik_agent_transition_to_idle. destruct (bool_decide _); [|done]. by injection 1 as <-.
Qed.

(** The end of a transfer whose turn is interrupted. *)
Lemma interrupted_llm_ok n (a : loop_agent hook) ms :
  sound n a ms -> phase_ok a -> state a = IK_AGENT_STATE_WAITING_FOR_LLM ->
  exists a', ik_repl_handle_interrupted_llm_completion a = Ret a' /\
    loop_inv n a' (mark_turn ms) /\ state a' = IK_AGENT_STATE_IDLE.
Proof.
  intros Hs Hph Est. unfold phase_ok in Hph. rewrite Est in Hph. destruct Hph as (? & ? & ? & _).
  unfold ik_repl_handle_interrupted_llm_completion.
  match goal with |- context [mark_interrupted_turn ?x] =>
    destruct (mark_and_idle n x ms) as (a' & E & Hinv & Est' & _) end.
  { split; [|by split_and!]. destruct Hs as [? ? ? Hp]. constructor; [done..|]. intros tc. apply Hp. }
  by exists a'.
Qed.

Lemma error_ok n (a : loop_agent hook) ms m :
  between n a ms -> http_error_message (reply a) = Some m ->
  exists a', handle_agent_request_error a = Ret a' /\ between n a' ms.
Proof.
  intros (Hs & Hrest) Em. unfold handle_agent_request_error. rewrite Em.
  destruct (show_some a (lit "Error: " ++ m)) as [s ->]. cbn [obind].
  eexists. split; [reflexivity|]. split; [|exact Hrest].
  eapply sound_frame; [exact Hs|reflexivity|]. intros tc. apply Hs.
Qed.

Lemma after_ok n (a : loop_agent hook) ms round io :
  tools_fit cfg -> sound (S n) a ms ->
  (state a = IK_AGENT_STATE_WAITING_FOR_LLM -> (running round <> 0)%Z -> phase_ok a) ->
  (state a = IK_AGENT_STATE_WAITING_FOR_LLM ->
     spinner_visible a = true /\ input_buffer_visible a = false /\ tool_thread_running a = false) ->
  (state a <> IK_AGENT_STATE_WAITING_FOR_LLM -> phase_ok a) ->
  exists a' ms', after_callbacks a round io = Ret a' /\ loop_inv n a' ms'.
Proof.
  intros Ht Hs Hph1 Hw Hph2. unfold after_callbacks.
  assert (sound n a ms) as Hs' by (apply (sound_less (S n) n a ms Hs); lia).
  destruct (Z.eqb_spec (running round) 0) as [Hr|Hr]; cbn [negb orb].
  2: { exists a, ms. split; [done|]. split; [done|].
       destruct (decide (state a = IK_AGENT_STATE_WAITING_FOR_LLM)); auto. }
  case_bool_decide as Est; cbn [negb]; [|exists a, ms; split; [done|split; auto]].
  destruct (Hw Est) as (Hsp & Hin & Hth). destruct (interrupt_requested a) eqn:Hint.
  { unfold ik_repl_handle_interrupted_llm_completion.
    match goal with |- context [mark_interrupted_turn ?x] =>
      destruct (mark_and_idle n x ms) as (a' & E & Hinv & Est' & _) end.
    { split; [|by split_and!]. destruct Hs' as [? ? ? Hp]. constructor; [done..|]. intros tc. apply Hp. }
    by exists a', (mark_turn ms). }
  assert (between (S n) a ms) as Hb by (by split_and!).
  destruct (http_error_message (reply a)) as [m|] eqn:Em.
  - destruct (error_ok (S n) a ms m Hb Em) as (a1 & -> & Hb1). cbn [obind].
    assert (between n a1 ms) as Hb1'
      by (destruct Hb1 as [? ?]; split; [apply (sound_less (S n)); [done|lia]|done]).
    destruct (record_and_idle n a1 ms false Hb1') as (a' & -> & Hinv & _). by exists a', ms.
  - destruct (success_ok n a ms io Hb) as (a1 & Hb1 & _ & Ep1 & _ & ->).
    set (ms1 := ms ++ _) in *.
    destruct (pending_tool_call (reply a)) as [tc|] eqn:Ep.
    + destruct (start_tool_ok n a1 ms1 tc Hb1 Ep1) as (a2 & -> & Hinv & Est2 & _). cbn [obind].
      rewrite Est2, bool_decide_eq_false_2 by done. by exists a2, ms1.
    + destruct (ik_agent_should_continue_tool_loop cfg a1).
      * destruct (start_request_ok cfg n _ ms1 io Ht (between_iterations n (tool_iteration_count a1 + 1) a1 ms1 Hb1))
          as (a2 & E2 & Hinv & Hor & _). unfold ik_repl_submit_tool_loop_continuation. rewrite E2.
        cbn [obind]. destruct Hor as [Est2|(Est2 & _ & _ & _ & _ & Hint2)].
        -- rewrite Est2, bool_decide_eq_false_2 by done. by exists a2, ms1.
        -- destruct Hinv as [Hs2 Hph]. pose proof (waiting_between n a2 ms1 Hs2 Hph Est2 Hint2) as Hb2.
           destruct (record_and_idle n a2 ms1 true Hb2) as (a3 & E3 & Hinv & _). exists a3, ms1.
           split; [exact E3|done].
      * cbn [obind]. destruct (record_and_idle n a1 ms1 true Hb1) as (a3 & E3 & Hinv & _).
        exists a3, ms1. split; [exact E3|done].
Qed.

(** *** One step *)

(** What the environment does in a state: a message is sent to an idle agent,
    a tool's thread ends once, the provider's completion has its parts, and the
    tool's call and result can be formatted. *)
Definition ev_ok (a : loop_agent hook) (e : loop_event) : Prop :=
  match e with
  | EvSubmit _ _ => state a = IK_AGENT_STATE_IDLE
  | EvCurl perform _ => exists round, perform = Ret round /\ round_fits round
  | EvToolDone _ => state a = IK_AGENT_STATE_EXECUTING_TOOL
  | EvPoll _ => forall tc res, pending_tool_call (reply a) = Some tc ->
      tool_thread_result a = Some res -> call_formats tc res
  | EvInterrupt _ => True
  end.

Notation step := (loop_step (T := T) cfg run_hook on_complete_of).

Lemma submit_ok n (a : loop_agent hook) ms text io :
  tools_fit cfg -> loop_inv (S n) a ms -> state a = IK_AGENT_STATE_IDLE -> has_model (core a) ->
  exists a1, send_to_llm_for_agent cfg a text io = start_request cfg io a1 /\
    between n a1 (ms ++ [ik_message_create_text IK_ROLE_USER text]) /\
    tool_iteration_count a1 = 0%Z /\ has_model (core a1) /\
    streaming_line_buffer (reply a1) = None.
Proof.
  intros Ht [[Hi Hc Hr Hp] Hph] Est (b & p & Em). unfold phase_ok in Hph. rewrite Est in Hph.
  destruct Hph as (Hsp & Hin & Hth & Hint). unfold send_to_llm_for_agent. rewrite Em.
  destruct (user_room n (core a) ms text Hi Hr) as (c & -> & Hi' & Hr' & Em'); [congruence..|].
  cbn [obind]. unfold ik_agent_transition_to_waiting_for_llm.
  match goal with |- context [bool_decide (state ?x = _)] => change (state x) with (state a) end.
  rewrite Est, bool_decide_eq_true_2 by done. cbn [obind]. eexists. split; [reflexivity|].
  split; [|split; [done|]]. 2: { split; [exists b, p; cbn; congruence|done]. }
  split; [|by split_and!]. constructor; [done|by apply complete_snoc|done|]. intros tc. apply Hp.
Qed.

Lemma step_ok n (a : loop_agent hook) ms e :
  tools_fit cfg -> hooks_show -> loop_inv (S n) a ms -> ev_ok a e ->
  exists a' ms', step a e = Ret a' /\ loop_inv n a' ms'.
Proof.
  intros Ht Hh [Hs Hph] He.
  assert (sound n a ms) as Hs' by (apply (sound_less (S n) n a ms Hs); lia).
  destruct e as [text io|perform io|res|io|polls]; cbn [loop_step ev_ok] in *.
  - assert (has_model (core a) \/ agent_model (core a) = None \/ agent_model (core a) = Some []) as [Hm|Hm].
    { destruct (agent_model (core a)) as [[|b p]|] eqn:Em; auto. left. by exists b, p. }
    + destruct (submit_ok n a ms text io Ht (conj Hs Hph) He Hm) as (a1 & -> & Hb & _).
      destruct (start_request_ok cfg n a1 _ io Ht Hb) as (a' & -> & Hinv & _). eauto.
    + unfold send_to_llm_for_agent.
      assert (exists s, add_user_message (core a) text = Ret (with_screen s (core a))) as [s E].
      { unfold add_user_message. destruct Hm as [-> | ->];
          match goal with |- context [screen_append ?s ?t] => destruct (append_keep s t) as [s' ->] end;
          by exists s'. }
      rewrite E. exists (set_core (with_screen s (core a)) a), ms. split; [by destruct Hm as [-> | ->]|].
      split; [eapply sound_frame; [exact Hs'|reflexivity|apply Hs]|exact Hph].
  - destruct He as (round & -> & Hf). destruct (decide (curl_still_running a = 0%Z \/ has_provider a = false)) as [Hz|Hz].
    { exists a, ms. split; [|done]. unfold process_agent_curl_events.
      destruct Hz as [-> | ->]; [done|]. by rewrite orb_true_r. }
    destruct (curl_after (S n) a ms round io Hs Hf) as (r & c & -> & Hs1 & _); [naive_solver|by destruct (has_provider a); naive_solver|].
    apply (after_ok n _ ms round io Ht Hs1); unfold phase_ok in *;
      cbn [state set_reply set_core set_curl] in *; intros Est.
    + intros Hrun. rewrite Est in *. destruct Hph as (? & ? & ? & _). by split_and!.
    + rewrite Est in *. by destruct Hph as (? & ? & ? & _).
    + by destruct (state a).
  - exists (tool_thread_worker a res), ms. split; [done|]. split; [by destruct Hs'|].
    unfold phase_ok in *. cbn [state tool_thread_worker set_thread]. rewrite He in *.
    destruct Hph as (? & ? & ? & _). by split_and!.
  - unfold ik_repl_poll_tool_completions.
    destruct (bool_decide (state a = IK_AGENT_STATE_EXECUTING_TOOL)) eqn:Est; cbn [andb]; [|by exists a, ms].
    apply bool_decide_eq_true in Est. destruct (tool_thread_complete a) eqn:Hco; [|by exists a, ms].
    destruct (interrupt_requested a) eqn:Hint.
    + destruct (interrupted_tool_ok n a ms Hh (conj Hs' Hph) Est) as (a' & -> & _ & Hinv). eauto.
    + destruct (tool_completion_ok n a ms io Hh (conj Hs Hph) Est Hint Hco He) as (a1 & ms1 & Hb & _ & _ & -> & _).
      destruct (ik_agent_should_continue_tool_loop cfg a1).
      * unfold ik_repl_submit_tool_loop_continuation. destruct (start_request_ok cfg n _ ms1 io Ht (between_iterations n (tool_iteration_count a1 + 1) a1 ms1 Hb))
          as (a2 & -> & Hinv & _). eauto.
      * destruct (to_idle_ok n a1 ms1 Hb) as (a2 & -> & Hinv & _). eauto.
  - exists (fst (ik_repl_handle_interrupt_request a polls)), ms. split; [done|].
    unfold ik_repl_handle_interrupt_request, phase_ok in *.
    destruct (state a) eqn:Est; cbn [fst]; (split; [by destruct Hs'|]); unfold phase_ok;
      cbn [state set_interrupt]; by rewrite Est.
Qed.

End steps.

(** ** A whole reply *)

Section reply.
Context `{!Display} `{!DisplaySpec} `{!SlotAllocator} `{!SlotAllocatorSpec} `{!Yyjson} `{!Printf}.
Context {T : Type} `{!ByteStore T} {hook : Type} (cfg : agent_config).
Variable run_hook : hook -> loop_agent hook -> outcome (loop_agent hook).
Variable on_complete_of : cstr -> option hook.

(** The first tool call of a response. *)
Fixpoint first_call (bs : list ik_content_block) : option (ik_tool_call * option cstr) :=
  match bs with
  | [] => None
  | IK_CONTENT_TOOL_CALL (Some id) (Some name) args sig :: _ => Some (mk_tool_call id name args, sig)
  | _ :: bs => first_call bs
  end.

Lemma extract_first bs a :
  forallb call_present bs = true ->
  pending_tool_call a = None -> pending_tool_thought_signature a = None ->
  exists a', extract_loop a bs = Ret a' /\
    pending_tool_call a' = fst <$> first_call bs /\
    pending_tool_thought_signature a' = mjoin (snd <$> first_call bs) /\
    assistant_response a' = assistant_response a /\ streaming_line_buffer a' = streaming_line_buffer a /\
    http_error_message a' = http_error_message a /\ response_finish_reason a' = response_finish_reason a.
Proof.
  intros Hb. revert a. induction bs as [|b bs IH]; intros a Hp Hs; [by exists a|].
  cbn [forallb] in Hb. apply andb_true_iff in Hb as [Hc Hb].
  destruct b as [t|id nm ar sg|id c e|t sg|d]; cbn [extract_loop first_call]; try (by apply IH).
  - cbn [call_present] in Hc. destruct id as [id|], nm as [nm|], ar as [ar|]; try done.
    eexists. split; [reflexivity|]. cbn. rewrite Hs. by destruct sg.
  - destruct (IH Hb (process_thinking_block a t sg) Hp Hs) as (a' & E & R). by exists a'.
  - destruct (IH Hb (process_redacted_thinking_block a d) Hp Hs) as (a' & E & R). by exists a'.
Qed.

(** The completion of a reply whose text was [t]. *)
Lemma completion_reply s0 t a r status cat msg ra :
  streams s0 t a -> usage_shown (resp_usage r) -> forallb call_present (resp_content_blocks r) = true ->
  exists a', ik_repl_completion_callback a (mk_completion true status (Some r) cat msg ra) = Ret a' /\
    assistant_response a' = non_empty t /\ streaming_line_buffer a' = None /\ http_error_message a' = None /\
    response_finish_reason a' = Some (finish_reason_str (resp_finish_reason r)) /\
    pending_tool_call a' = fst <$> first_call (resp_content_blocks r) /\
    pending_tool_thought_signature a' = mjoin (snd <$> first_call (resp_content_blocks r)).
Proof.
  intros Hs Hu Hc.
  destruct (completion_ok s0 t a (mk_completion true status (Some r) cat msg ra) Hs)
    as (a1 & _ & E1 & E2 & E3 & E). cbn [success response error_message] in E, E3. rewrite E.
  destruct Hu as (t1 & t2 & U1 & U2 & Hsh). unfold ik_repl_render_usage_event, ik_repl_store_response_metadata.
  cbn [AgentStream.response_input_tokens response_output_tokens response_thinking_tokens set_metadata scrollback].
  rewrite U1. cbn [obind]. rewrite U2. cbn [obind].
  match goal with |- context [obind (obind ?m _) _] => assert (exists s, m = Ret s) as [s ->] end.
  { destruct (Z.ltb_spec 0 t2) as [Hpos|]; [by apply Hsh|]. destruct (put_line_some (scrollback a1) []) as (s & -> & _). by exists s. }
  cbn [obind]. unfold ik_repl_extract_tool_calls.
  match goal with |- context [extract_loop ?x _] =>
    destruct (extract_first (resp_content_blocks r) x Hc eq_refl eq_refl) as (a' & -> & F1 & F2 & F3 & F4 & F5 & F6) end.
  exists a'. split; [done|]. rewrite F3, F4, F5, F6. by split_and!.
Qed.

(** A round that brings a whole reply. *)
Record whole_reply (round : curl_round) (t : cstr) (r : ik_response) : Prop := {
  wr_running : running round = 0%Z;
  wr_events : exists i m es, delivered round = mk_stream_event i (IK_STREAM_START m) :: es /\
    Forall (fun e => is_start e = false) es /\ reply_text es = t;
  wr_completed : exists status cat msg ra, completed round = Some (mk_completion true status (Some r) cat msg ra);
  wr_usage : usage_shown (resp_usage r);
  wr_calls : forallb call_present (resp_content_blocks r) = true
}.

Lemma whole_fits round t r : whole_reply round t r -> round_fits round.
Proof.
  intros [_ _ (status & cat & msg & ra & Ec) Hu Hp] c E. rewrite Ec in E. injection E as <-.
  intros r' _ Er. injection Er as <-. done.
Qed.

Lemma set_scrollback_same (x : agent_stream) : set_scrollback (scrollback x) x = x.
Proof. by destruct x. Qed.

Lemma whole_reply_ok n (a : loop_agent hook) ms round t resp io :
  sound n a ms -> whole_reply round t resp -> streaming_line_buffer (reply a) = None ->
  (curl_still_running a <> 0)%Z -> has_provider a = true ->
  exists r c,
    process_agent_curl_events cfg on_complete_of a (Ret round) io
      = after_callbacks cfg on_complete_of (set_reply r (set_core c (set_curl true 0 a))) round io /\
    sound n (set_reply r (set_core c (set_curl true 0 a))) ms /\
    agent_model c = agent_model (core a) /\ conv c = conv (core a) /\
    assistant_response r = non_empty t /\ streaming_line_buffer r = None /\ http_error_message r = None /\
    response_finish_reason r = Some (finish_reason_str (resp_finish_reason resp)) /\
    pending_tool_call r = fst <$> first_call (resp_content_blocks resp) /\
    pending_tool_thought_signature r = mjoin (snd <$> first_call (resp_content_blocks resp)).
Proof.
  intros Hs Hw Hb Hc Hp.
  destruct (curl_after cfg on_complete_of n a ms round io Hs (whole_fits _ _ _ Hw) Hc Hp)
    as (r & c & E & Hs' & Ecv & Em & Er).
  destruct Hw as [Hrun (i & m & es & Ed & Hes & Ht) (status & cat & msg & ra & Ecomp) Hu Hcp].
  rewrite Hrun in *. exists r, c. split; [exact E|]. split; [done|]. split; [done|]. split; [done|].
  rewrite Ed, Ecomp in Er. unfold on_reply in Er. cbn [stream_events] in Er.
  set (r0 := set_scrollback (agent_screen (core a)) (reply a)) in Er.
  destruct (start_streams r0 m i Hb) as (r1 & E1 & Hs1). rewrite E1 in Er. cbn [obind] in Er.
  destruct (events_streams (scrollback r0) [] r1 es Hs1 Hes) as (r2 & E2 & Hs2). rewrite E2 in Er.
  cbn [obind] in Er.
  match type of Er with context [ik_repl_completion_callback ?x _] =>
    assert (x = r2) as Ex by exact (set_scrollback_same r2) end.
  rewrite Ex in Er. cbn [app] in Hs2. rewrite Ht in Hs2.
  destruct (completion_reply _ _ _ resp status cat msg ra Hs2 Hu Hcp) as (r3 & E3 & F).
  rewrite E3 in Er. cbn [obind] in Er.
  apply (f_equal (fun o => match o with Ret x => reply x | _ => r3 end)) in Er. cbn [reply set_reply set_core] in Er.
  by rewrite <- Er.
Qed.

End reply.

(** The marked turn is the last one. *)
Lemma mark_turn_split ms :
  exists before turn, ms = before ++ turn /\ mark_turn ms = before ++ (interrupt_message <$> turn) /\
    (turn = [] /\ Forall (fun m => is_user m = false) before \/
     exists u rest, turn = u :: rest /\ is_user u = true /\ Forall (fun m => is_user m = false) rest).
Proof.
  unfold mark_turn. destruct (last (user_positions ms 0)) as [p|] eqn:Ep.
  - exists (take p ms), (drop p ms). rewrite take_drop. split; [done|]. split; [done|]. right.
    revert p Ep. induction ms as [|m ms IH] using rev_ind; intros p Ep; [done|].
    rewrite user_positions_app in Ep. cbn [user_positions] in Ep. rewrite Nat.add_0_l in Ep.
    destruct (is_user m) eqn:Hm.
    + rewrite last_snoc in Ep. injection Ep as <-. rewrite drop_app_length. by exists m, [].
    + rewrite app_nil_r in Ep. destruct (IH p Ep) as (u & rest & E & Hu & Hr).
      assert (p <= length ms) as Hp.
      { rewrite last_lookup in Ep. apply list_elem_of_lookup_2, user_positions_bounds in Ep. lia. }
      rewrite drop_app_le, E by done. exists u, (rest ++ [m]). split; [done|]. split; [done|].
      apply Forall_app. split; [done|]. by repeat constructor.
  - exists ms, []. rewrite app_nil_r, fmap_nil, app_nil_r. split; [done|]. split; [done|]. left. split; [done|].
    apply Forall_forall. intros m Hm. destruct (is_user m) eqn:E; [|done].
    apply list_elem_of_split in Hm as (l1 & l2 & ->).
    rewrite user_positions_app in Ep. cbn [user_positions] in Ep. rewrite E in Ep.
    apply last_None in Ep. by destruct (user_positions l1 0).
Qed.

#[local] Instance ik_finish_reason_eq_dec : EqDecision ik_finish_reason.
Proof. solve_decision. Defined.

(** ** Properties *)

Module LoopProps.

Section properties.
Context `{!Display} `{!DisplaySpec} `{!SlotAllocator} `{!SlotAllocatorSpec} `{!Yyjson} `{!Printf}.
Context {T : Type} `{!ByteStore T} {hook : Type} (cfg : agent_config).
Variable run_hook : hook -> loop_agent hook -> outcome (loop_agent hook).
Variable on_complete_of : cstr -> option hook.

Notation step := (loop_step (T := T) cfg run_hook on_complete_of).
Notation run := (loop_run (T := T) cfg run_hook on_complete_of).

(** Events each of which fits the state it meets. *)
Fixpoint run_ok (a : loop_agent hook) (es : list loop_event) : Prop :=
  match es with
  | [] => True
  | e :: es => ev_ok (T := T) a e /\ forall a', step a e = Ret a' -> run_ok a' es
  end.

(** C1: no order of replies, tool results, interrupts and messages makes a step
    of an agent's loop fail an assertion, read outside an array or return an
    error; and afterwards an idle agent shows its input and no spinner, a waiting
    agent has a transfer under way, an agent that executes a tool has its thread,
    and the conversation, the turns' costs and the marks fit together.  The
    events must fit the states they meet ([run_ok]): a message is sent to an idle
    agent only, a tool's thread ends while the agent executes one, a round of the
    transfer returns, the responses it completes can be added up and shown and
    their tool calls have all their parts ([completion_fits]), and the call and
    the result of a tool can be formatted ([call_formats]; a result with a NUL
    byte cannot, Format.FormatProps.nul_in_result_overreads).  Besides, the tools
    of the registry have definitions ([tools_fit]), the hooks that run when a
    tool ends change the screen only ([hooks_show]), and there is room for two
    more messages per event in the arrays' 32-bit lengths ([roomy]). *)
Theorem agent_loop_safe (es : list loop_event) (a : loop_agent hook) (ms : list ik_message) :
  tools_fit cfg -> hooks_show run_hook -> loop_inv (length es) a ms -> run_ok a es ->
  exists a' ms', run a es = Ret a' /\ loop_inv 0 a' ms'.
Proof.
  intros Ht Hh. revert a ms. induction es as [|e es IH]; intros a ms Hi He; [by exists a, ms|].
  cbn [run_ok length] in *. destruct He as [He Hes].
  destruct (step_ok cfg run_hook on_complete_of (length es) a ms e Ht Hh Hi He) as (a1 & ms1 & E & Hi1).
  cbn [loop_run]. rewrite E. by apply (IH a1 ms1 Hi1), Hes.
Qed.

(** A request can be started. *)
Definition starts_ok (io : llm_io) : Prop :=
  provider_error io = None /\ forall req, start_error io req = None.

Lemma request_starts n (a : loop_agent hook) ms io :
  tools_fit cfg -> between n a ms -> starts_ok io -> has_model (core a) ->
  exists a', start_request cfg io a = Ret a' /\ loop_inv n a' ms /\
    state a' = IK_AGENT_STATE_WAITING_FOR_LLM /\ curl_still_running a' = 1%Z /\ core a' = core a /\
    reply a' = reply a /\ tool_iteration_count a' = tool_iteration_count a /\ interrupt_requested a' = false.
Proof.
  intros Ht Hb [Hp Hs] Hm.
  destruct (start_request_ok cfg n a ms io Ht Hb) as (a' & E & Hi & Hor & Hw).
  exists a'. split; [done|]. split; [done|]. specialize (Hw Hp Hs Hm).
  destruct Hor as [E0|(? & ? & ? & ? & ? & ?)]; [congruence|by split_and!].
Qed.

(** The rounds of the transfer the agent waits for. *)
Lemma waited_reply n (a : loop_agent hook) ms round t resp io :
  loop_inv (S n) a ms -> state a = IK_AGENT_STATE_WAITING_FOR_LLM -> interrupt_requested a = false ->
  whole_reply round t resp -> streaming_line_buffer (reply a) = None ->
  exists a1, between n a1 (ms ++ response_messages (non_empty t)) /\
    agent_model (core a1) = agent_model (core a) /\ tool_iteration_count a1 = tool_iteration_count a /\
    streaming_line_buffer (reply a1) = None /\
    response_finish_reason (reply a1) = Some (finish_reason_str (resp_finish_reason resp)) /\
    pending_tool_call (reply a1) = fst <$> first_call (resp_content_blocks resp) /\
    pending_tool_thought_signature (reply a1) = mjoin (snd <$> first_call (resp_content_blocks resp)) /\
    step a (EvCurl (Ret round) io) =
      let! a :=
        match first_call (resp_content_blocks resp) with
        | Some _ => ik_agent_start_tool_execution on_complete_of a1
        | None =>
            if ik_agent_should_continue_tool_loop cfg a1 then
              ik_repl_submit_tool_loop_continuation cfg (set_iterations (tool_iteration_count a1 + 1) a1) io
            else Ret a1
        end in
      if bool_decide (state a = IK_AGENT_STATE_WAITING_FOR_LLM) then
        let! c := ik_agent_record_and_prune_token_cache (core a) true in
        ik_agent_transition_to_idle (set_core c a)
      else Ret a.
Proof.
  intros [Hs Hph] Est Hint Hw Hlb. unfold phase_ok in Hph. rewrite Est in Hph.
  destruct Hph as (Hsp & Hin & Hth & Hcurl & Hprov).
  destruct (whole_reply_ok cfg on_complete_of (S n) a ms round t resp io Hs Hw Hlb Hcurl Hprov)
    as (r & c & E & Hs' & Em & _ & F1 & F2 & F3 & F4 & F5 & F6).
  cbn [loop_step]. rewrite E. unfold after_callbacks. rewrite (wr_running _ _ _ Hw). cbn [Z.eqb negb orb].
  match goal with |- context [ik_repl_handle_agent_request_success cfg on_complete_of ?y io] => set (x := y) in * end.
  change (state x) with (state a). change (interrupt_requested x) with (interrupt_requested a).
  change (http_error_message (reply x)) with (http_error_message r).
  rewrite Est, Hint, F3, bool_decide_eq_true_2 by done. cbn [negb].
  assert (between (S n) x ms) as Hb by (split; [exact Hs'|by split_and!]).
  destruct (success_ok cfg on_complete_of n x ms io Hb) as (a1 & Hb1 & (G1 & G2 & G3 & G4) & Gp & Gs & ->).
  change (assistant_response (reply x)) with (assistant_response r) in *.
  change (pending_tool_call (reply x)) with (pending_tool_call r) in *.
  rewrite F1 in Hb1. exists a1. split; [exact Hb1|].
  split; [rewrite G3; exact Em|]. split; [exact G2|]. split; [rewrite G4; exact F2|].
  split; [rewrite G1; exact F4|]. split; [by rewrite Gp, F5|]. split; [rewrite Gs; exact F6|]. rewrite F5.
  by destruct (first_call (resp_content_blocks resp)).
Qed.

(** The limit on tool turns allows another one. *)
Definition more_turns (k : Z) : Prop :=
  match max_tool_turns cfg with Some m => (k < m)%Z | None => True end.

Lemma continues (a : loop_agent hook) f :
  response_finish_reason (reply a) = Some (finish_reason_str f) -> more_turns (tool_iteration_count a) ->
  ik_agent_should_continue_tool_loop cfg a = bool_decide (f = IK_FINISH_TOOL_USE).
Proof.
  intros Ef Hm. unfold ik_agent_should_continue_tool_loop, more_turns in *. rewrite Ef.
  destruct f; [done|done| |done..].
  change (strcmp_eq (finish_reason_str IK_FINISH_TOOL_USE) (lit "tool_use")) with true. cbn [andb].
  destruct (max_tool_turns cfg) as [m|]; [|done]. by rewrite (proj2 (Z.leb_gt _ _)).
Qed.

Lemma inv_conv n (a : loop_agent hook) ms : sound n a ms -> conv_rep (conv (core a)) ms.
Proof. intros [Hi _ _ _]. by destruct (inv_cache _ _ Hi) as (c & ts & _ & [Hcv _ _ _]). Qed.

(** A reply without a call, with another finish reason, ends the turn. *)
Lemma last_reply n (a : loop_agent hook) ms round t resp io :
  loop_inv (S n) a ms -> state a = IK_AGENT_STATE_WAITING_FOR_LLM -> interrupt_requested a = false ->
  whole_reply round t resp -> streaming_line_buffer (reply a) = None ->
  first_call (resp_content_blocks resp) = None -> resp_finish_reason resp <> IK_FINISH_TOOL_USE ->
  more_turns (tool_iteration_count a) ->
  exists a', step a (EvCurl (Ret round) io) = Ret a' /\ state a' = IK_AGENT_STATE_IDLE /\
    tool_iteration_count a' = tool_iteration_count a /\
    loop_inv n a' (ms ++ response_messages (non_empty t)).
Proof.
  intros Hi Est Hint Hw Hlb Hcall Hfin Hmore.
  destruct (waited_reply n a ms round t resp io Hi Est Hint Hw Hlb) as (a1 & Hb & _ & Hit & _ & Hf & _ & _ & E).
  rewrite E, Hcall, (continues a1 _ Hf) by (by rewrite Hit).
  rewrite bool_decide_eq_false_2 by done. cbn [obind].
  destruct (record_and_idle n a1 _ true Hb) as (a' & E' & Hinv & Est' & _ & Hit' & _). exists a'.
  split; [exact E'|]. split; [done|]. split; [congruence|done].
Qed.

(** A reply with a call starts the tool. *)
Lemma call_reply n (a : loop_agent hook) ms round t resp io tc sig :
  loop_inv (S n) a ms -> state a = IK_AGENT_STATE_WAITING_FOR_LLM -> interrupt_requested a = false ->
  whole_reply round t resp -> streaming_line_buffer (reply a) = None ->
  first_call (resp_content_blocks resp) = Some (tc, sig) ->
  exists a', step a (EvCurl (Ret round) io) = Ret a' /\
    loop_inv n a' (ms ++ response_messages (non_empty t)) /\ state a' = IK_AGENT_STATE_EXECUTING_TOOL /\
    interrupt_requested a' = false /\ agent_model (core a') = agent_model (core a) /\
    tool_iteration_count a' = tool_iteration_count a /\ streaming_line_buffer (reply a') = None /\
    response_finish_reason (reply a') = Some (finish_reason_str (resp_finish_reason resp)) /\
    pending_tool_call (reply a') = Some tc /\ pending_tool_thought_signature (reply a') = sig.
Proof.
  intros Hi Est Hint Hw Hlb Hc.
  destruct (waited_reply n a ms round t resp io Hi Est Hint Hw Hlb)
    as (a1 & Hb & Mo & It & Lb & Fi & Pe & Si & E).
  rewrite Hc in E, Pe, Si. cbn [fmap option_fmap option_map fst snd mjoin option_join] in Pe, Si.
  destruct (start_tool_ok on_complete_of n a1 _ tc Hb Pe) as (a2 & E2 & Hi2 & St2 & _ & In2 & Re2 & Co2 & It2).
  rewrite E2 in E. cbn [obind] in E. rewrite St2, bool_decide_eq_false_2 in E by done.
  exists a2. rewrite Re2, Co2, It2. by split_and!.
Qed.

(** The tool's thread ends and the main loop takes its result. *)
Lemma tool_leg n (a : loop_agent hook) ms result io tc sig :
  tools_fit cfg -> hooks_show run_hook -> loop_inv (S n) a ms -> state a = IK_AGENT_STATE_EXECUTING_TOOL ->
  interrupt_requested a = false -> has_model (core a) -> starts_ok io ->
  response_finish_reason (reply a) = Some (finish_reason_str IK_FINISH_TOOL_USE) ->
  more_turns (tool_iteration_count a) -> pending_tool_call (reply a) = Some tc ->
  pending_tool_thought_signature (reply a) = sig -> call_formats (T := T) tc result ->
  exists a' call,
    step (tool_thread_worker a result) (EvPoll io) = Ret a' /\
    loop_inv n a' (ms ++ [call; ik_message_create_tool_result (tc_id tc) result false]) /\
    role call = IK_ROLE_ASSISTANT /\
    last (content_blocks call) =
      Some (IK_CONTENT_TOOL_CALL (Some (tc_id tc)) (Some (tc_name tc)) (tc_arguments tc) sig) /\
    state a' = IK_AGENT_STATE_WAITING_FOR_LLM /\ interrupt_requested a' = false /\
    streaming_line_buffer (reply a') = streaming_line_buffer (reply a) /\
    tool_iteration_count a' = (tool_iteration_count a + 1)%Z.
Proof.
  intros Ht Hh Hi St In Hmod Hio Hfin Hmore Pe Si Hfmt. set (a1 := tool_thread_worker a result).
  assert (loop_inv (S n) a1 ms) as Hi1.
  { destruct Hi as [[? ? ? ?] Hph]. split; [by constructor|]. unfold phase_ok in *.
    change (state a1) with (state a). rewrite St in *. by destruct Hph as (? & ? & ? & _). }
  cbn [loop_step]. unfold ik_repl_poll_tool_completions.
  change (state a1) with (state a). change (interrupt_requested a1) with (interrupt_requested a).
  rewrite St, In, bool_decide_eq_true_2 by done. cbn [andb tool_thread_complete a1 tool_thread_worker set_thread].
  destruct (tool_completion_ok cfg run_hook n a1 ms io Hh Hi1 St In eq_refl)
    as (a2 & ms2 & Hb2 & (Fi2 & It2 & Mo2 & Lb2) & _ & -> & Hms).
  { intros tc' res' Etc Eres. change (reply a1) with (reply a) in Etc. rewrite Pe in Etc.
    injection Etc as <-. by injection Eres as <-. }
  change (reply a1) with (reply a) in *. change (core a1) with (core a) in *.
  change (tool_iteration_count a1) with (tool_iteration_count a) in *.
  rewrite Pe in Hms. destruct Hms as (args & Ea & ->).
  rewrite (continues a2 IK_FINISH_TOOL_USE), bool_decide_eq_true_2; [|done|congruence|by rewrite It2].
  destruct (request_starts n _ _ io Ht (between_iterations _ (tool_iteration_count a2 + 1) _ _ Hb2) Hio)
    as (a3 & E3 & Hi3 & St3 & _ & Co3 & Re3 & It3 & In3).
  { destruct Hmod as (b & p & Em). exists b, p. cbn. congruence. }
  exists a3, (call_message (reply a) tc args). split; [exact E3|]. split; [exact Hi3|]. split; [done|].
  split; [|split; [done|split; [done|split]]].
  - unfold call_message, ik_message_create_tool_call_with_thinking. cbn [content_blocks].
    by rewrite app_assoc, last_snoc, Ea, Si.
  - rewrite Re3. cbn. congruence.
  - rewrite It3. cbn. congruence.
Qed.

(** C3: A tool call makes its round trip.  An idle agent that is sent a message,
    gets a reply with a tool call, runs the tool and gets a second reply without
    one, is idle again after one tool iteration, and its conversation has grown
    by the user's message, the first reply's text, the call with its id, name,
    arguments and signature, its result under the same id, and the second
    reply's text. *)
Theorem tool_round_trip (n : nat) (a : loop_agent hook) (ms : list ik_message) (text result : cstr)
    (io1 io2 io3 io4 : llm_io) (round1 round2 : curl_round) (t1 t2 : cstr) (resp1 resp2 : ik_response)
    (tc : ik_tool_call) (sig : option cstr) :
  tools_fit cfg -> hooks_show run_hook -> more_turns 0 -> more_turns 1 ->
  loop_inv (5 + n) a ms -> state a = IK_AGENT_STATE_IDLE -> has_model (core a) ->
  starts_ok io1 -> starts_ok io3 ->
  whole_reply round1 t1 resp1 -> first_call (resp_content_blocks resp1) = Some (tc, sig) ->
  resp_finish_reason resp1 = IK_FINISH_TOOL_USE -> call_formats (T := T) tc result ->
  whole_reply round2 t2 resp2 -> first_call (resp_content_blocks resp2) = None ->
  resp_finish_reason resp2 <> IK_FINISH_TOOL_USE ->
  exists a' call,
    run a [EvSubmit text io1; EvCurl (Ret round1) io2; EvToolDone result; EvPoll io3;
           EvCurl (Ret round2) io4] = Ret a' /\
    state a' = IK_AGENT_STATE_IDLE /\ tool_iteration_count a' = 1%Z /\
    role call = IK_ROLE_ASSISTANT /\
    last (content_blocks call) =
      Some (IK_CONTENT_TOOL_CALL (Some (tc_id tc)) (Some (tc_name tc)) (tc_arguments tc) sig) /\
    conv_rep (conv (core a'))
      (ms ++ [ik_message_create_text IK_ROLE_USER text] ++ response_messages (non_empty t1) ++
       [call; ik_message_create_tool_result (tc_id tc) result false] ++ response_messages (non_empty t2)).
Proof.
  intros Ht Hh Hm0 Hm1 Hi Est Hmod Hio1 Hio3 Hw1 Hc1 Hf1 Hfmt Hw2 Hc2 Hf2. cbn [loop_run Nat.add] in *.
  destruct (submit_ok cfg (4 + n) a ms text io1 Ht Hi Est Hmod) as (a1 & E1 & Hb1 & It1 & Hmod1 & Lb1).
  destruct (request_starts _ a1 _ io1 Ht Hb1 Hio1 Hmod1)
    as (a2 & E2 & Hi2 & St2 & _ & Co2 & Re2 & It2 & In2).
  destruct (call_reply (3 + n) a2 _ round1 t1 resp1 io2 tc sig Hi2 St2 In2 Hw1)
    as (a3 & E3 & Hi3 & St3 & In3 & Mo3 & It3 & Lb3 & Fi3 & Pe3 & Si3); [congruence|done|].
  rewrite Hf1 in Fi3. assert (tool_iteration_count a3 = 0%Z) as It3' by congruence.
  destruct (tool_leg (2 + n) a3 _ result io3 tc sig Ht Hh Hi3 St3 In3)
    as (a4 & call & E4 & Hi4 & Hr4 & Hl4 & St4 & In4 & Lb4 & It4); try done.
  { destruct Hmod1 as (b & p & Em). exists b, p. congruence. }
  { by rewrite It3'. }
  rewrite It3' in It4.
  destruct (last_reply (1 + n) a4 _ round2 t2 resp2 io4 Hi4 St4 In4 Hw2)
    as (a5 & E5 & St5 & It5 & [Hs5 _]); [congruence|done|done|by rewrite It4|].
  exists a5, call. split.
  { assert (step a (EvSubmit text io1) = Ret a2) as -> by (cbn [loop_step]; congruence). cbn [obind].
    rewrite E3. cbn [obind loop_step] in *. rewrite E4. cbn [obind]. by rewrite E5. }
  split; [done|]. split; [by rewrite It5, It4|]. split; [done|]. split; [done|].
  apply inv_conv in Hs5. rewrite <- !app_assoc in Hs5. exact Hs5.
Qed.

(** C16: An interrupt ends the turn and marks it.  When the transfer or the
    tool's thread that was under way has ended, the agent is idle, the interrupt
    is taken back, and every message from the last user message on is marked
    interrupted; the messages before it are untouched and no message is lost or
    added, whatever the reply had brought. *)
Theorem interrupt_marks_turn (n : nat) (a : loop_agent hook) (ms : list ik_message) (e : loop_event) :
  hooks_show run_hook -> loop_inv n a ms -> interrupt_requested a = true ->
  match e with
  | EvCurl perform _ => state a = IK_AGENT_STATE_WAITING_FOR_LLM /\
      exists round, perform = Ret round /\ round_fits round /\ running round = 0%Z
  | EvPoll _ => state a = IK_AGENT_STATE_EXECUTING_TOOL /\ tool_thread_complete a = true /\
      pending_tool_call (reply a) <> None
  | _ => False
  end ->
  exists a' before turn,
    step a e = Ret a' /\ state a' = IK_AGENT_STATE_IDLE /\ interrupt_requested a' = false /\
    ms = before ++ turn /\ conv_rep (conv (core a')) (before ++ (interrupt_message <$> turn)) /\
    (turn = [] /\ Forall (fun m => is_user m = false) before \/
     exists u rest, turn = u :: rest /\ is_user u = true /\ Forall (fun m => is_user m = false) rest).
Proof.
  intros Hh [Hs Hph] Hint He.
  assert (exists a', step a e = Ret a' /\ loop_inv n a' (mark_turn ms) /\ state a' = IK_AGENT_STATE_IDLE)
    as (a' & E & [Hs' Hph'] & Est').
  { destruct e as [| perform io| |io|]; try done.
    - destruct He as (Est & round & -> & Hf & Hrun). pose proof Hph as Hw. unfold phase_ok in Hw. rewrite Est in Hw.
      destruct Hw as (? & ? & ? & Hcurl & Hprov).
      destruct (curl_after cfg on_complete_of n a ms round io Hs Hf Hcurl Hprov) as (r & c & Ec & Hs1 & _).
      cbn [loop_step]. rewrite Ec. unfold after_callbacks. rewrite Hrun. cbn [Z.eqb negb orb].
      match goal with |- context [state ?y] => set (x := y) in * end.
      change (state x) with (state a). change (interrupt_requested x) with (interrupt_requested a).
      rewrite Est, Hint, bool_decide_eq_true_2 by done. cbn [negb].
      unfold ik_repl_handle_interrupted_llm_completion.
      match goal with |- context [mark_interrupted_turn ?y] =>
        destruct (mark_and_idle n y ms) as (a' & E & Hinv & Est' & _) end; [|by exists a'].
      split; [|by split_and!]. rewrite Hrun in Hs1. destruct Hs1 as [? ? ? Hp]. constructor; [done..|].
      intros tc. apply Hp.
    - destruct He as (Est & Hco & Hp). cbn [loop_step]. unfold ik_repl_poll_tool_completions.
      rewrite Est, Hco, Hint, bool_decide_eq_true_2 by done. cbn [andb].
      destruct (interrupted_tool_ok run_hook n a ms Hh (conj Hs Hph) Est) as (a' & -> & Est' & Hinv).
      exists a'. destruct (pending_tool_call (reply a)); [by split_and!|done]. }
  destruct (mark_turn_split ms) as (before & turn & Em & Et & Hor). exists a', before, turn.
  split; [done|]. split; [done|]. split; [unfold phase_ok in Hph'; rewrite Est' in Hph'; apply Hph'|].
  split; [done|]. split; [rewrite <- Et; exact (inv_conv n a' _ Hs')|done].
Qed.

(** A message that is sent while the agent is busy stops the process: the
    handlers of the enter key do not look at the agent's state, and the
    assertion that the agent is idle fails after the message was added. *)
Theorem submit_while_busy_aborts (n : nat) (a : loop_agent hook) (ms : list ik_message) (text : cstr)
    (io : llm_io) :
  loop_inv (S n) a ms -> has_model (core a) -> state a <> IK_AGENT_STATE_IDLE ->
  step a (EvSubmit text io) = Panic.
Proof.
  intros [[Hi Hc Hr Hp] _] (b & p & Em) Est. cbn [loop_step]. unfold send_to_llm_for_agent. rewrite Em.
  destruct (user_room n (core a) ms text Hi Hr) as (c & -> & _); [congruence..|]. cbn [obind].
  unfold ik_agent_transition_to_waiting_for_llm.
  match goal with |- context [bool_decide (state ?x = _)] => change (state x) with (state a) end.
  by rewrite bool_decide_eq_false_2.
Qed.

(** A reply whose finish reason asks for a tool without calling one loses
    the request that continues the turn: the request is sent, but the agent
    becomes idle at once, and when the answer to it arrives, its text is not
    added to the conversation. *)
Theorem continuation_orphaned (n : nat) (a : loop_agent hook) (ms : list ik_message)
    (round1 round2 : curl_round) (t1 t2 : cstr) (resp1 resp2 : ik_response) (io io' : llm_io) :
  tools_fit cfg -> loop_inv (S n) a ms -> state a = IK_AGENT_STATE_WAITING_FOR_LLM ->
  interrupt_requested a = false -> streaming_line_buffer (reply a) = None -> has_model (core a) ->
  starts_ok io -> more_turns (tool_iteration_count a) ->
  whole_reply round1 t1 resp1 -> first_call (resp_content_blocks resp1) = None ->
  resp_finish_reason resp1 = IK_FINISH_TOOL_USE -> whole_reply round2 t2 resp2 ->
  exists a1 a2, step a (EvCurl (Ret round1) io) = Ret a1 /\
    state a1 = IK_AGENT_STATE_IDLE /\ curl_still_running a1 = 1%Z /\
    conv_rep (conv (core a1)) (ms ++ response_messages (non_empty t1)) /\
    step a1 (EvCurl (Ret round2) io') = Ret a2 /\ state a2 = IK_AGENT_STATE_IDLE /\
    conv_rep (conv (core a2)) (ms ++ response_messages (non_empty t1)).
Proof.
  intros Ht Hi Est Hint Hlb Hmod Hio Hmore Hw1 Hc1 Hf1 Hw2.
  destruct (waited_reply n a ms round1 t1 resp1 io Hi Est Hint Hw1 Hlb)
    as (a1 & Hb1 & Mo1 & It1 & Lb1 & Fi1 & _ & _ & E1). rewrite Hc1 in E1.
  rewrite (continues a1 _ Fi1), Hf1, bool_decide_eq_true_2 in E1 by (done || by rewrite It1).
  destruct (request_starts n _ _ io Ht (between_iterations n (tool_iteration_count a1 + 1) a1 _ Hb1) Hio)
    as (a2 & E2 & Hi2 & St2 & Cu2 & Co2 & Re2 & It2 & In2).
  { destruct Hmod as (b & p & Em). exists b, p. cbn. congruence. }
  unfold ik_repl_submit_tool_loop_continuation in E1. rewrite E2 in E1. cbn [obind] in E1.
  pose proof Hi2 as [Hs2 Hph2].
  assert (streaming_line_buffer (reply a2) = None) as Lb2 by (rewrite Re2; exact Lb1).
  assert (has_provider a2 = true) as Hp2
    by (unfold phase_ok in Hph2; rewrite St2 in Hph2; by destruct Hph2 as (_ & _ & _ & _ & ?)).
  pose proof (waiting_between n a2 _ Hs2 Hph2 St2 In2) as Hb2.
  destruct (record_and_idle n a2 _ true Hb2) as (a3 & E3 & [Hs3 _] & St3 & _ & _ & Cu3 & Hp3 & Re3).
  rewrite E3 in E1. exists a3.
  destruct (whole_reply_ok cfg on_complete_of n a3 _ round2 t2 resp2 io' Hs3 Hw2)
    as (r & c & E4 & Hs4 & _ & Ec & _); [congruence|congruence|congruence|].
  eexists. split; [exact E1|]. split; [done|]. split; [congruence|]. split; [exact (inv_conv n a3 _ Hs3)|].
  cbn [loop_step]. rewrite E4. unfold after_callbacks.
  match goal with |- context [state ?y] => change (state y) with (state a3) end.
  rewrite St3, bool_decide_eq_false_2 by done. rewrite orb_true_r. split; [reflexivity|].
  split; [exact St3|]. cbn [core set_reply set_core]. rewrite Ec. exact (inv_conv n a3 _ Hs3).
Qed.

End properties.
End LoopProps.

(** ** Witnesses *)

Module LoopExamples.
Import CopySlots CodedJson ListDisplay ZeroAlloc TokenExamples StreamExamples LoopProps.

#[local] Instance no_reals : Printf := fun _ => lit "0".

Definition plain_config : agent_config := mk_config (Some 3%Z) IK_THINKING_MIN [] [].
Definition no_hook (_ : unit) (a : loop_agent unit) : outcome (loop_agent unit) := Ret a.
Definition no_hooks (_ : cstr) : option unit := None.
Definition starting : llm_io := mk_io None [] (fun _ => None).

(** Three turns are in the conversation. *)
Definition resting (st : ik_agent_state) (tc : option ik_tool_call) : loop_agent unit :=
  mk_loop (sample_agent 100) (set_pending None None None tc None idle_agent) st
    (negb (bool_decide (st = IK_AGENT_STATE_IDLE))) (bool_decide (st = IK_AGENT_STATE_IDLE)) true
    (if bool_decide (st = IK_AGENT_STATE_WAITING_FOR_LLM) then 1 else 0)%Z false 0
    (bool_decide (st = IK_AGENT_STATE_EXECUTING_TOOL)) false None 0 None.

Definition a_call : ik_tool_call := mk_tool_call (lit "t1") (lit "bash") (Some []).

Definition a_round (r : ik_response) : curl_round :=
  mk_round 0 [mk_stream_event 0 (IK_STREAM_START None); mk_stream_event 0 (IK_STREAM_TEXT_DELTA (Some (lit "hm")))]
    (Some (mk_completion true 200 (Some r) IK_ERR_CAT_UNKNOWN None (-1))).

Definition call_response : ik_response :=
  mk_response [IK_CONTENT_TOOL_CALL (Some (lit "t1")) (Some (lit "bash")) (Some []) None]
    IK_FINISH_TOOL_USE no_usage None.
Definition text_response : ik_response := mk_response [] IK_FINISH_STOP no_usage None.
Definition odd_response : ik_response := mk_response [] IK_FINISH_TOOL_USE no_usage None.

Lemma plain_tools : tools_fit plain_config.
Proof. exists []. split; [done|simpl; lia]. Qed.

Lemma plain_hooks : hooks_show no_hook.
Proof. intros h a. exists (agent_screen (core a)). unfold no_hook. f_equal. by destruct a as [[]]. Qed.

Lemma starting_ok : starts_ok starting.
Proof. by split. Qed.

Lemma resting_inv n st tc :
  (Z.of_nat n < 2 ^ 20)%Z -> (forall c, tc = Some c -> exists args, tc_arguments c = Some args) ->
  loop_inv n (resting st tc) sample.
Proof.
  intros Hn Htc. split.
  - constructor; [apply sample_inv|done| |exact Htc].
    split; [simpl; lia|]. split; [simpl; lia|]. intros c E. injection E as <-. simpl. lia.
  - by destruct st; vm_compute.
Qed.

Lemma no_call : forall c, None = Some c -> exists args, tc_arguments c = Some args.
Proof. done. Qed.

Lemma whole r :
  resp_usage r = no_usage -> forallb call_present (resp_content_blocks r) = true ->
  whole_reply (a_round r) (lit "hm") r.
Proof.
  intros Hu Hc. constructor; [done| |by do 4 eexists| |done].
  - do 3 eexists. split; [reflexivity|]. split; [by repeat constructor|by vm_compute].
  - rewrite Hu. exists 0%Z, 0%Z. by split_and!.
Qed.

Lemma a_call_formats : call_formats (T := Array.ik_array) a_call (lit "{}").
Proof. do 2 eexists. split; vm_compute; reflexivity. Qed.

Lemma agent_loop_safe_witness :
  exists a' ms',
    loop_run (T := Array.ik_array) plain_config no_hook no_hooks (resting IK_AGENT_STATE_IDLE None)
      [EvSubmit (lit "go") starting; EvInterrupt (fun _ => true)] = Ret a' /\ loop_inv 0 a' ms'.
Proof.
  apply (agent_loop_safe plain_config no_hook no_hooks _ _ sample plain_tools plain_hooks).
  - apply (resting_inv _ IK_AGENT_STATE_IDLE None); [simpl; lia|exact no_call].
  - split; [done|]. intros a' _. by split.
Defined.

Lemma tool_round_trip_witness :
  exists a' call,
    loop_run (T := Array.ik_array) plain_config no_hook no_hooks (resting IK_AGENT_STATE_IDLE None)
      [EvSubmit (lit "go") starting; EvCurl (Ret (a_round call_response)) starting;
       EvToolDone (lit "{}"); EvPoll starting; EvCurl (Ret (a_round text_response)) starting] = Ret a' /\
    state a' = IK_AGENT_STATE_IDLE /\ tool_iteration_count a' = 1%Z /\ role call = IK_ROLE_ASSISTANT /\
    last (content_blocks call) = Some (IK_CONTENT_TOOL_CALL (Some (lit "t1")) (Some (lit "bash")) (Some []) None) /\
    conv_rep (conv (core a'))
      (sample ++ [ik_message_create_text IK_ROLE_USER (lit "go")] ++
       [ik_message_create_text IK_ROLE_ASSISTANT (lit "hm")] ++
       [call; ik_message_create_tool_result (lit "t1") (lit "{}") false] ++
       [ik_message_create_text IK_ROLE_ASSISTANT (lit "hm")]).
Proof.
  exact (tool_round_trip plain_config no_hook no_hooks 0 _ sample (lit "go") (lit "{}") starting starting
    starting starting _ _ (lit "hm") (lit "hm") call_response text_response a_call None plain_tools plain_hooks
    ltac:(vm_compute; reflexivity) ltac:(vm_compute; reflexivity)
    (resting_inv 5 IK_AGENT_STATE_IDLE None ltac:(simpl; lia) no_call) eq_refl
    ltac:(by do 2 eexists) starting_ok starting_ok
    (whole call_response eq_refl eq_refl) eq_refl eq_refl a_call_formats
    (whole text_response eq_refl eq_refl) eq_refl ltac:(done)).
Defined.

(** An interrupted agent whose transfer ends. *)
Lemma interrupt_marks_turn_witness :
  exists a' before turn,
    loop_step (T := Array.ik_array) plain_config no_hook no_hooks
      (set_interrupt true (resting IK_AGENT_STATE_WAITING_FOR_LLM None))
      (EvCurl (Ret (a_round text_response)) starting) = Ret a' /\
    state a' = IK_AGENT_STATE_IDLE /\ interrupt_requested a' = false /\
    sample = before ++ turn /\ conv_rep (conv (core a')) (before ++ (interrupt_message <$> turn)) /\
    (turn = [] /\ Forall (fun m => is_user m = false) before \/
     exists u rest, turn = u :: rest /\ is_user u = true /\ Forall (fun m => is_user m = false) rest).
Proof.
  apply (interrupt_marks_turn plain_config no_hook no_hooks 1 _ sample _ plain_hooks); [|done|].
  - destruct (resting_inv 1 IK_AGENT_STATE_WAITING_FOR_LLM None ltac:(simpl; lia) no_call) as [[? ? ? ?] Hph].
    split; [by constructor|exact Hph].
  - split; [done|]. eexists. split; [reflexivity|]. split; [|done].
    apply (whole_fits _ (lit "hm") text_response), whole; done.
Defined.

Lemma submit_while_busy_aborts_witness :
  loop_step (T := Array.ik_array) plain_config no_hook no_hooks (resting IK_AGENT_STATE_WAITING_FOR_LLM None)
    (EvSubmit (lit "go") starting) = Panic.
Proof.
  apply (submit_while_busy_aborts plain_config no_hook no_hooks 0 _ sample (lit "go") starting).
  - apply (resting_inv 1 IK_AGENT_STATE_WAITING_FOR_LLM None); [simpl; lia|exact no_call].
  - by do 2 eexists.
  - done.
Defined.

Lemma continuation_orphaned_witness :
  exists a1 a2,
    loop_step (T := Array.ik_array) plain_config no_hook no_hooks (resting IK_AGENT_STATE_WAITING_FOR_LLM None)
      (EvCurl (Ret (a_round odd_response)) starting) = Ret a1 /\
    state a1 = IK_AGENT_STATE_IDLE /\ curl_still_running a1 = 1%Z /\
    conv_rep (conv (core a1)) (sample ++ [ik_message_create_text IK_ROLE_ASSISTANT (lit "hm")]) /\
    loop_step (T := Array.ik_array) plain_config no_hook no_hooks a1
      (EvCurl (Ret (a_round text_response)) starting) = Ret a2 /\ state a2 = IK_AGENT_STATE_IDLE /\
    conv_rep (conv (core a2)) (sample ++ [ik_message_create_text IK_ROLE_ASSISTANT (lit "hm")]).
Proof.
  exact (continuation_orphaned plain_config no_hook no_hooks 0 (resting IK_AGENT_STATE_WAITING_FOR_LLM None)
    sample _ _ (lit "hm") (lit "hm") odd_response text_response starting starting plain_tools
    (resting_inv 1 IK_AGENT_STATE_WAITING_FOR_LLM None ltac:(simpl; lia) no_call) eq_refl eq_refl eq_refl
    ltac:(by do 2 eexists) starting_ok ltac:(vm_compute; reflexivity)
    (whole odd_response eq_refl eq_refl) eq_refl eq_refl (whole text_response eq_refl eq_refl)).
Defined.

End LoopExamples.
