(* ===== verification/Viewport.v ===== *)
(** * The viewport and the frame (repl_viewport.c, repl_actions_viewport.c)

    The screen's document is the rows of the layers from the banner to the
    status; [viewport_offset] is how many rows it is scrolled up from its end.
    [ik_repl_render_frame] writes one frame: the window of the document
    between control sequences, and the cursor of the input. *)

From Stdlib Require Import String.
From stdpp Require Import strings.
From S2P Require Import Prelude Slots AgentLoop CString ByteArray Utf8 Unicode Cursor InputBuffer Multiline.
From S2P Require Import Layout Scrollback OutputStyle Layers AgentLayers AgentScreen Render.

Record ik_viewport := mk_viewport {
  scrollback_start_line : nat;
  scrollback_lines_count : nat;
  input_buffer_start_row : nat;
  vp_separator_visible : bool
}.

(** The fields of the REPL, its shared context and its current agent that a
    frame uses; the frame that was written last, and the cursor's place. *)
Record screen (T : Type) := mk_screen {
  agent_view : view;
  input_buffer : ik_input_buffer T;
  viewport_offset : nat;
  agent_state : ik_agent_state;
  dead : bool;
  layer_cake : option (ik_layer_cake view);
  render_ctx : ik_render_ctx;
  screen_rows : Z;
  screen_cols : Z;
  term_fd : Z;
  framebuffer : list Z;
  cursor_row : Z;
  cursor_col : Z
}.
Arguments mk_screen {T}. Arguments agent_view {T}. Arguments input_buffer {T}.
Arguments viewport_offset {T}. Arguments agent_state {T}. Arguments dead {T}. Arguments layer_cake {T}.
Arguments render_ctx {T}. Arguments screen_rows {T}. Arguments screen_cols {T}. Arguments term_fd {T}.
Arguments framebuffer {T}. Arguments cursor_row {T}. Arguments cursor_col {T}.

Section definitions.
Context {T : Type} `{ByteStore T} `{Utf8proc}.
Implicit Types r : screen T.

Definition set_layouts (sb : ik_scrollback) (ib : ik_input_buffer T) r : screen T :=
  mk_screen (with_scrollback sb (agent_view r)) ib (viewport_offset r) (agent_state r) (dead r) (layer_cake r)
    (render_ctx r) (screen_rows r) (screen_cols r) (term_fd r) (framebuffer r) (cursor_row r) (cursor_col r).
Definition set_view_cake (v : view) (c : option (ik_layer_cake view)) r : screen T :=
  mk_screen v (input_buffer r) (viewport_offset r) (agent_state r) (dead r) c
    (render_ctx r) (screen_rows r) (screen_cols r) (term_fd r) (framebuffer r) (cursor_row r) (cursor_col r).
Definition set_viewport_offset (n : nat) r : screen T :=
  mk_screen (agent_view r) (input_buffer r) n (agent_state r) (dead r) (layer_cake r)
    (render_ctx r) (screen_rows r) (screen_cols r) (term_fd r) (framebuffer r) (cursor_row r) (cursor_col r).
Definition set_framebuffer (fb : list Z) (row col : Z) r : screen T :=
  mk_screen (agent_view r) (input_buffer r) (viewport_offset r) (agent_state r) (dead r) (layer_cake r)
    (render_ctx r) (screen_rows r) (screen_cols r) (term_fd r) fb row col.

(** ** repl_viewport.c: dimensions *)

Definition ik_repl_calculate_document_height r : nat :=
  let v := agent_view r in
  let banner_rows := if banner_visible v then 6 else 0 in
  let scrollback_rows := ik_scrollback_get_total_physical_lines (v_scrollback v) in
  let spinner_rows := if visible (spinner_state v) then 1 else 0 in
  let separator_rows := 1 in
  let input_buffer_rows := ik_input_buffer_get_physical_lines (input_buffer r) in
  let input_rows := if input_buffer_visible v
                    then (if (input_buffer_rows =? 0)%nat then 1 else input_buffer_rows) else 0 in
  let completion_rows := match completion v with Some c => length (candidates c) | None => 0 end in
  let status_rows := if status_visible v then 2 else 0 in
  banner_rows + scrollback_rows + spinner_rows + separator_rows + input_rows + completion_rows + status_rows.

(** (size_t)terminal_rows *)
Definition size_t (z : Z) : nat := Z.to_nat (z mod 2 ^ 64).

(** (first_visible_row, last_visible_row) *)
Definition visible_range (document_height terminal_rows offset : nat) : nat * nat :=
  if (document_height <=? terminal_rows)%nat then
    (0, if (0 <? document_height)%nat then document_height - 1 else 0)
  else
    let max_offset := document_height - terminal_rows in
    let offset := if (max_offset <? offset)%nat then max_offset else offset in
    let last_visible_row := document_height - 1 - offset in
    (last_visible_row + 1 - terminal_rows, last_visible_row).

(** [n] lines of the scrollback are left, from the [i]-th on. *)
Fixpoint count_visible (ls : list ik_line_layout) (n i current_doc_row lines_count separator_row last_visible_row : nat)
  : outcome nat :=
  match n with
  | 0 => Ret lines_count
  | S n =>
      if (current_doc_row <? separator_row)%nat then
        let! l := arr_get ls i in
        let current_doc_row := current_doc_row + Scrollback.physical_lines l in
        let lines_count := S lines_count in
        if (last_visible_row <? current_doc_row)%nat then Ret lines_count
        else count_visible ls n (S i) current_doc_row lines_count separator_row last_visible_row
      else Ret lines_count
  end.

(** The scrollback lines in the viewport: the first and how many. *)
Definition visible_lines (sb : ik_scrollback) (banner_rows scrollback_rows separator_row first_visible_row
    last_visible_row : nat) : outcome (nat * nat) :=
  if (separator_row <=? first_visible_row)%nat || (scrollback_rows =? 0)%nat then Ret (0, 0)
  else
    let scrollback_first_row := if (banner_rows <? first_visible_row)%nat
                                then first_visible_row - banner_rows else 0 in
    let! start_line :=
      if (0 <? scrollback_rows)%nat && (scrollback_first_row <? scrollback_rows)%nat then
        match ik_scrollback_find_logical_line_at_physical_row sb scrollback_first_row with
        | Ret (start_line, _) => Ret start_line
        | Fail _ => Panic
        | Panic => Panic
        | Undef => Undef
        | NoFuel => NoFuel
        end
      else Ret 0 in
    let! lines_count := count_visible (layouts sb) (ik_scrollback_get_line_count sb - start_line) start_line
                          (banner_rows + scrollback_first_row) 0 separator_row last_visible_row in
    Ret (start_line, lines_count).

Definition ensure_layouts r : outcome (screen T) :=
  let! ib := ik_input_buffer_ensure_layout (input_buffer r) (screen_cols r) in
  let! sb := ik_scrollback_ensure_layout (v_scrollback (agent_view r)) (screen_cols r) in
  Ret (set_layouts sb ib r).

Definition ik_repl_calculate_viewport r : outcome (ik_viewport * screen T) :=
  let! r := ensure_layouts r in
  let v := agent_view r in
  let banner_rows := if banner_visible v then 6 else 0 in
  let scrollback_rows := ik_scrollback_get_total_physical_lines (v_scrollback v) in
  let spinner_rows := if visible (spinner_state v) then 1 else 0 in
  let terminal_rows := size_t (screen_rows r) in
  let separator_row := banner_rows + scrollback_rows + spinner_rows in
  let input_buffer_start_doc_row := separator_row + 1 in
  let document_height := ik_repl_calculate_document_height r in
  let '(first_visible_row, last_visible_row) :=
    visible_range document_height terminal_rows (viewport_offset r) in
  let! (start_line, lines_count) :=
    visible_lines (v_scrollback v) banner_rows scrollback_rows separator_row first_visible_row
      last_visible_row in
  let input_buffer_start_row :=
    if (input_buffer_start_doc_row <=? last_visible_row)%nat then
      if (first_visible_row <=? input_buffer_start_doc_row)%nat
      then input_buffer_start_doc_row - first_visible_row else 0
    else terminal_rows in
  Ret (mk_viewport start_line lines_count input_buffer_start_row
         ((first_visible_row <=? separator_row)%nat && (separator_row <=? last_visible_row)%nat), r).

(** ** repl_viewport.c: a frame *)

(** The layer fields for the state of the agent: the view, and whether the
    cursor of the input is shown. *)
Definition frame_view (separator_visible input_visible : bool) (text : list Z) r : view * bool :=
  let v := agent_view r in
  let '(spinning, input_layer, input_visible) :=
    if dead r then (false, false, false)
    else match agent_state r with
         | IK_AGENT_STATE_WAITING_FOR_LLM | IK_AGENT_STATE_EXECUTING_TOOL => (true, false, false)
         | IK_AGENT_STATE_IDLE => (false, input_visible, input_visible)
         end in
  (mk_view (banner_visible v) (v_scrollback v)
     (mk_spinner (frame_index (spinner_state v)) spinning (last_advance_ms (spinner_state v)))
     separator_visible (nav_ctx v) input_layer text (completion v) (status_visible v) (model v)
     (thinking_level v), input_visible).

(** A failed call other than undefined behaviour fails the assertion. *)
Definition assert_ok {A} (m : outcome A) : outcome A :=
  match m with Fail _ => Panic | m => m end.

(** The size without the last "\r\n" of a full screen. *)
Definition trimmed_size (document_height terminal_rows : nat) (output : ik_output_buffer) : nat :=
  if (terminal_rows <=? document_height)%nat && (2 <=? size output)%nat
     && (byte_at (data output) (size output - 2) =? 13)%Z && (byte_at (data output) (size output - 1) =? 10)%Z
  then size output - 2 else size output.

Definition CLEAR_TO_END : list Z := 0x1B%Z :: lit "[J".

Definition frame_bytes (content : list Z) (input_visible : bool) (row col : Z) : outcome (list Z) :=
  let framebuffer_size := 6 + 3 + length content + 3 + 6 + 20 in
  let! fb := fb_put framebuffer_size HIDE_CURSOR [] in
  let! fb := fb_put framebuffer_size HOME fb in
  let! fb := fb_put framebuffer_size content fb in
  let! fb := fb_put framebuffer_size CLEAR_TO_END fb in
  let! fb := fb_put framebuffer_size (if input_visible then SHOW_CURSOR else HIDE_CURSOR) fb in
  if input_visible then fb_put framebuffer_size (cursor_escape row col) fb else Ret fb.

Context `{Allocator} (write : Z -> list Z -> Z).

(** The cake is drawn and the frame written, with the input at screen row
    [start_row]; [false] is ERR(IO): the frame could not be written. *)
Definition draw_frame (start_row : nat) (text : list Z) (cursor_byte_offset : nat) (cake : ik_layer_cake view)
    (v : view) (input_visible : bool) r : outcome (bool * screen T) :=
  let document_height := ik_repl_calculate_document_height (set_view_cake v (Some cake) r) in
  let terminal_rows := size_t (screen_rows r) in
  let first_visible_row := fst (visible_range document_height terminal_rows (viewport_offset r)) in
  let cake := set_viewport first_visible_row terminal_rows cake in
  let! output := ik_output_buffer_create 4096 in
  let! (output, v) := ik_layer_cake_render cake v output (size_t (screen_cols r)) in
  let! content := mem_read 0 (trimmed_size document_height terminal_rows output) (data output) in
  let! (row, col) :=
    if input_visible && (0 <? length text)%nat then
      let! (row, col) := assert_ok (calculate_cursor_screen_position text (length text) cursor_byte_offset
                                      (screen_cols r)) in
      Ret (int32_wrap (Z.of_nat start_row) + row, col)%Z
    else if input_visible then Ret (int32_wrap (Z.of_nat start_row), 0%Z)
    else Ret (0, 0)%Z in
  let! fb := frame_bytes content input_visible row col in
  let bytes_written := write (term_fd r) fb in
  Ret (negb ((bytes_written <? 0)%Z && (0 <=? term_fd r)%Z),
       set_framebuffer fb row col (set_view_cake v (Some cake) r)).

Definition ik_repl_render_frame r : outcome (bool * screen T) :=
  let! (viewport, r) := ik_repl_calculate_viewport r in
  let '(text_ptr, text_len) := ik_input_buffer_get_text (input_buffer r) in
  let text := match text_ptr with Some t => take text_len t | None => [] end in
  let '(cursor_byte_offset, _) := ik_input_buffer_get_cursor_position (input_buffer r) in
  let separator_visible := vp_separator_visible viewport in
  let input_visible := (input_buffer_start_row viewport <? size_t (screen_rows r))%nat in
  match layer_cake r with
  | None =>
      let! _ := ik_render_combined write (render_ctx r) (v_scrollback (agent_view r))
                  (scrollback_start_line viewport) (scrollback_lines_count viewport) text
                  cursor_byte_offset separator_visible input_visible in
      Ret (true, r)
  | Some cake =>
      let '(v, input_visible) := frame_view separator_visible input_visible text r in
      draw_frame (input_buffer_start_row viewport) text cursor_byte_offset cake v input_visible r
  end.

(** ** repl_actions_viewport.c *)

Definition MOUSE_SCROLL_LINES : nat := 3.

Definition ik_repl_calculate_max_viewport_offset r : outcome (nat * screen T) :=
  let! sb := ik_scrollback_ensure_layout (v_scrollback (agent_view r)) (screen_cols r) in
  let! ib := ik_input_buffer_ensure_layout (input_buffer r) (screen_cols r) in
  let r := set_layouts sb ib r in
  let document_height := ik_repl_calculate_document_height r in
  Ret (if (size_t (screen_rows r) <? document_height)%nat then document_height - size_t (screen_rows r) else 0, r).

Definition scroll_up (n : nat) r : outcome (screen T) :=
  let! (max_offset, r) := ik_repl_calculate_max_viewport_offset r in
  let new_offset := wrap64 (viewport_offset r + n) in
  Ret (set_viewport_offset (if (max_offset <? new_offset)%nat then max_offset else new_offset) r).

Definition scroll_down (n : nat) r : screen T :=
  set_viewport_offset (if (n <=? viewport_offset r)%nat then viewport_offset r - n else 0) r.

Definition ik_repl_handle_page_up_action r : outcome (screen T) := scroll_up (size_t (screen_rows r)) r.
Definition ik_repl_handle_page_down_action r : screen T := scroll_down (size_t (screen_rows r)) r.
Definition ik_repl_handle_scroll_up_action r : outcome (screen T) := scroll_up MOUSE_SCROLL_LINES r.
Definition ik_repl_handle_scroll_down_action r : screen T := scroll_down MOUSE_SCROLL_LINES r.

End definitions.
