(* ===== verification/Frame.v ===== *)
(** * Scrolling and frames: what the viewport guarantees

    The scroll actions keep the window inside the document, and the frame of
    an idle agent shows the end of the document with the cursor at its place
    in the input. *)

From Stdlib Require Import String.
From stdpp Require Import strings.
From S2P Require Import Prelude Slots AgentLoop CString ByteArray Utf8 Unicode Cursor InputBuffer Multiline.
From S2P Require Import Layout Scrollback Editor OutputStyle Layers AgentLayers AgentScreen Render Viewport.

(** ** The rows of an input text *)

Section input_text.
Context `{!Utf8proc} `{!Utf8procSpec}.

Lemma lines_of_cons pre : exists h t, lines_of pre = h :: t.
Proof. destruct pre as [|c pre]; cbn; [eauto|]. destruct (c =? newline)%Z; [eauto|destruct (lines_of pre); eauto]. Qed.

Lemma lines_of_text_app pre post ls l h t :
  lines_of pre = ls ++ [l] -> lines_of post = h :: t -> lines_of (pre ++ post) = ls ++ (l ++ h) :: t.
Proof.
  intros Hp Hq. revert ls l Hp. induction pre as [|c pre IH]; intros ls l Hp.
  { destruct ls as [|x [|]]; [|done|done]. injection Hp as <-. exact Hq. }
  cbn [app lines_of] in *. destruct (lines_of_cons pre) as (x & xs & E). rewrite E in *.
  destruct (c =? newline)%Z.
  - destruct ls as [|y ls]; [done|]. injection Hp as <- Hp. by rewrite (IH ls l Hp).
  - destruct ls as [|y ls]; injection Hp as <- Hp.
    + subst xs. by rewrite (IH [] x eq_refl).
    + subst xs. by rewrite (IH (x :: ls) l eq_refl).
Qed.

(** A line of [n] characters in the input layer. *)
Definition layer_rows (w n : nat) : nat := S (n / w).

Lemma input_rows_lines w text cur :
  length cur < w ->
  length (input_rows_from text w cur)
  = match lines_of text with
    | h :: t => layer_rows w (length cur + length h) + sum_list ((fun l => layer_rows w (length l)) <$> t)
    | [] => 0
    end.
Proof.
  revert cur. induction text as [|c text IH]; intros cur Hc; cbn [input_rows_from lines_of].
  { cbn. unfold layer_rows. by rewrite Nat.div_small by lia. }
  destruct (lines_of_cons text) as (x & xs & E). rewrite E in *. change newline with 10%Z.
  destruct (c =? 10)%Z.
  - cbn [length]. rewrite (IH []) by (simpl; lia). cbn [fmap list_fmap length].
    rewrite sum_list_cons, Nat.add_0_r.
    assert (layer_rows w (length cur) = 1) as -> by (unfold layer_rows; by rewrite Nat.div_small by lia). done.
  - destruct (Nat.leb_spec w (S (length cur))) as [Hw|Hw].
    + cbn [length]. rewrite (IH []) by (simpl; lia). cbn [length Nat.add]. unfold layer_rows.
      replace (length cur + S (length x)) with (length x + 1 * w) by lia. rewrite Nat.div_add by lia. lia.
    + rewrite (IH (cur ++ [c])) by (rewrite length_app; simpl; lia). rewrite length_app. cbn [length].
      do 2 f_equal. lia.
Qed.

(** Where no line fills its rows exactly, the layer's rows are the layout's. *)
Definition ragged (w n : nat) : Prop := n = 0 \/ n mod w <> 0.

Lemma ragged_rows w n : 0 < w -> ragged w n -> layer_rows w n = Layout.line_rows (Z.of_nat w) n.
Proof.
  intros Hw Hr. unfold layer_rows, Layout.line_rows. rewrite (proj2 (Z.ltb_lt _ _)), Nat2Z.id by lia.
  destruct (Nat.eqb_spec n 0) as [->|Hn]; [by rewrite Nat.Div0.div_0_l|].
  destruct Hr as [?|Hm]; [lia|]. pose proof (Nat.div_mod n w ltac:(lia)) as E.
  pose proof (Nat.mod_upper_bound n w ltac:(lia)).
  assert (forall q m, n = w * q + m -> m <> 0 -> n + w - 1 = (m - 1) + (q + 1) * w) as Eq by (intros; nia).
  rewrite (Eq _ _ E Hm).
  rewrite Nat.div_add, (Nat.div_small (n mod w - 1)) by lia. lia.
Qed.

(** The row of the cursor is one of the rows of the text. *)
Lemma cursor_row_inside w pre post ls l :
  0 < w -> lines_of pre = ls ++ [l] -> Forall (fun l => ragged w (length l)) (lines_of (pre ++ post)) ->
  sum_list ((fun l => Layout.line_rows (Z.of_nat w) (length l)) <$> ls) + length l / w
  < length (input_rows (pre ++ post) w).
Proof.
  intros Hw Hl Hr. unfold input_rows. rewrite input_rows_lines by done.
  destruct (lines_of_cons post) as (h & t & E). rewrite (lines_of_text_app _ _ _ _ _ _ Hl E) in *.
  assert ((match ls ++ (l ++ h) :: t with
           | [] => 0
           | x :: xs => layer_rows w (0 + length x) + sum_list ((fun l => layer_rows w (length l)) <$> xs)
           end) = sum_list ((fun l => layer_rows w (length l)) <$> ls ++ (l ++ h) :: t)) as Esum.
  { destruct (ls ++ (l ++ h) :: t) eqn:El; [by destruct ls|]. cbn [fmap list_fmap]. by rewrite sum_list_cons. }
  cbn [length]. rewrite Esum. rewrite fmap_app, sum_list_with_app. cbn [fmap list_fmap].
  assert (((fun l => layer_rows w (length l)) <$> ls) = ((fun l => Layout.line_rows (Z.of_nat w) (length l)) <$> ls)) as ->.
  { apply list_fmap_ext. intros i x Hx. apply ragged_rows; [done|]. apply Forall_app in Hr as [Hr _].
    exact (Forall_lookup_1 _ _ _ _ Hr Hx). }
  rewrite sum_list_cons. unfold layer_rows at 1. rewrite length_app.
  pose proof (Nat.Div0.div_le_mono (length l) (length l + length h) w ltac:(lia)). lia.
Qed.

(** ASCII text is its own encoding. *)
Lemma text_of_ascii_id cps : Forall (fun c => (0 <= c < 128)%Z) cps -> text_of cps = cps.
Proof.
  induction 1 as [|c cps Hc _ IH]; [done|]. rewrite text_of_cons, IH.
  unfold encode_utf8, uint8. rewrite (proj2 (Z.leb_le _ _)) by lia. rewrite Z.mod_small by lia. done.
Qed.

Lemma ascii_scalar cps : Forall (fun c => (0 <= c < 128)%Z) cps -> Forall scalar cps.
Proof.
  intros Hf. eapply Forall_impl; [exact Hf|]. intros c Hc. cbv beta in Hc. unfold scalar, scalarb.
  assert ((0 <=? c)%Z = true) as -> by lia. assert ((c <=? 0x10FFFF)%Z = true) as -> by lia.
  by assert ((0xD800 <=? c)%Z = false) as -> by lia.
Qed.

Lemma narrow_width cps : Forall narrow cps -> 10%Z ∉ cps -> cps_width cps = length cps.
Proof.
  intros Hf. unfold cps_width. induction Hf as [|c cps [->|Hc] _ IH]; intros Hn; [done|set_solver|].
  cbn [fmap list_fmap]. rewrite sum_list_cons, Hc, IH by set_solver. simpl. lia.
Qed.

Lemma lines_of_parts (P : Z -> Prop) cps :
  Forall P cps -> Forall (fun l => Forall P l /\ newline ∉ l) (lines_of cps).
Proof.
  induction 1 as [|c cps Hc _ IH]; cbn [lines_of]; [repeat constructor; set_solver|].
  destruct (Z.eqb_spec c newline); [repeat constructor; auto; set_solver|].
  destruct (lines_of cps) as [|x xs]; inversion IH as [|? ? [] ?]; repeat constructor; try done; set_solver.
Qed.

(** The rows of a text in the layout are those of its layer. *)
Lemma layout_is_layer w cps :
  0 < w -> cps <> [] -> Forall (fun c => (0 <= c < 128)%Z) cps -> 27%Z ∉ cps -> Forall narrow cps ->
  Forall (fun l => ragged w (length l)) (lines_of cps) ->
  physical_rows (Z.of_nat w) cps = length (input_rows cps w).
Proof.
  intros Hw Hne Ha He Hn Hr. pose proof (text_of_ascii_id cps Ha) as Et.
  rewrite <- Et at 1. rewrite physical_rows_cps by (done || by apply ascii_scalar).
  unfold input_rows. rewrite input_rows_lines by done. cbn [length].
  transitivity (sum_list ((fun l => layer_rows w (length l)) <$> lines_of cps)).
  - f_equal. apply list_fmap_ext. intros i l Hl.
    pose proof (Forall_lookup_1 _ _ _ _ (lines_of_parts narrow cps Hn) Hl) as [Hnl Hnn].
    rewrite narrow_width by done. symmetry. apply ragged_rows; [done|]. exact (Forall_lookup_1 _ _ _ _ Hr Hl).
  - destruct (lines_of_cons cps) as (x & xs & ->). cbn [fmap list_fmap]. by rewrite sum_list_cons.
Qed.

End input_text.

(** ** The screen's document *)

Section document.
Context {T : Type} `{!ByteStore T} `{!ByteStoreLaws T} `{!Utf8proc} `{!Utf8procSpec}.
Context `{!Allocator} `{!AllocatorSpec} `{!SlotAllocator} `{!SlotAllocatorSpec}.
Implicit Types r : screen T.

(** The scrollback has the texts [cpss], the input the text [pre ++ post] with
    the cursor in between, on a terminal of a sane size. *)
Record screen_ok r (cpss : list (list Z)) (pre post : list Z) : Prop := {
  so_scrollback : exists ls, sb_rep (v_scrollback (agent_view r)) (text_of <$> cpss) ls;
  so_texts : Forall showable cpss;
  so_input : rep (input_buffer r) pre post;
  so_layout : layout_ok (input_buffer r);
  so_rows : (0 < screen_rows r < 10000)%Z;
  so_cols : (0 < screen_cols r < 10000)%Z
}.

Definition term_rows r : nat := Z.to_nat (screen_rows r).
Definition term_cols r : nat := Z.to_nat (screen_cols r).

(** The rows of the input area and of the document, as the viewport counts
    them. *)
Definition input_height r (text : list Z) : nat :=
  if input_buffer_visible (agent_view r)
  then Nat.max 1 (physical_rows (screen_cols r) (text_of text)) else 0.

Definition completion_height (v : view) : nat :=
  match completion v with Some c => length (candidates c) | None => 0 end.

Definition document_height r (cpss : list (list Z)) (text : list Z) : nat :=
  let v := agent_view r in
  (if banner_visible v then 6 else 0) + length (sb_rows (term_cols r) cpss)
  + (if visible (spinner_state v) then 1 else 0) + 1 + input_height r text + completion_height v
  + (if status_visible v then 2 else 0).

(** Both layouts are brought up to date, in either order. *)
Lemma layouts_ok r cpss pre post :
  screen_ok r cpss pre post ->
  exists sb ib ls, ik_scrollback_ensure_layout (v_scrollback (agent_view r)) (screen_cols r) = Ret sb /\
    ik_input_buffer_ensure_layout (input_buffer r) (screen_cols r) = Ret ib /\
    sb_holds sb (term_cols r) cpss ls /\
    ib = set_layout (physical_rows (screen_cols r) (text_of (pre ++ post))) (screen_cols r) 0 (input_buffer r) /\
    screen_ok (set_layouts sb ib r) cpss pre post /\
    ik_repl_calculate_document_height (set_layouts sb ib r) = document_height r cpss (pre ++ post).
Proof.
  intros [[ls Hsb] Ht Hib Hl Hr Hc].
  destruct (ensure_layout_ok _ _ _ (screen_cols r) Hsb ltac:(lia)) as (sb & ls' & Esb & Hsb' & Ew & _).
  destruct (ensure_layout_rows (input_buffer r) (screen_cols r) (rep_ok _ _ _ Hib) Hl) as (ib & Eib & Hibe).
  rewrite (rep_bytes _ _ _ Hib) in Hibe.
  assert (sb_holds sb (term_cols r) cpss ls') as Hh.
  { constructor; [done|unfold term_cols; lia|done]. }
  exists sb, ib, ls'. split_and!; try done.
  - constructor; cbn [set_layouts agent_view v_scrollback with_scrollback input_buffer screen_rows screen_cols];
      [by exists ls'|done| | |done|done].
    + subst ib. destruct Hib as [? ? ? ? ?]. by constructor.
    + intros _. subst ib. cbn. by rewrite (rep_bytes _ _ _ Hib).
  - unfold ik_repl_calculate_document_height, document_height, input_height, completion_height.
    cbn [set_layouts agent_view with_scrollback banner_visible v_scrollback spinner_state input_buffer_visible
         completion status_visible input_buffer].
    rewrite (holds_total _ _ _ _ Hh). subst ib. unfold ik_input_buffer_get_physical_lines. cbn [set_layout InputBuffer.physical_lines].
    destruct (input_buffer_visible (agent_view r)); [|done].
    destruct (Nat.eqb_spec (physical_rows (screen_cols r) (text_of (pre ++ post))) 0) as [->|]; [done|].
    rewrite Nat.max_r by lia. done.
Qed.

Lemma size_t_small z : (0 <= z < 2 ^ 64)%Z -> size_t z = Z.to_nat z.
Proof. intros Hz. unfold size_t. by rewrite Z.mod_small. Qed.

(** The window of the document that is scrolled up by [o] rows. *)
Lemma visible_range_ok h rows o :
  0 < rows -> 0 < h ->
  visible_range h rows o
  = (h - rows - Nat.min o (h - rows), if (h <=? rows)%nat then h - 1 else h - 1 - Nat.min o (h - rows)).
Proof.
  intros Hr Hh. unfold visible_range. destruct (Nat.leb_spec h rows).
  - rewrite (proj2 (Nat.ltb_lt _ _)) by done. f_equal. lia.
  - replace (if (h - rows <? o)%nat then h - rows else o) with (Nat.min o (h - rows))
      by (destruct (Nat.ltb_spec (h - rows) o); lia).
    f_equal. lia.
Qed.

(** *** Scrolling *)

Inductive scroll_action := PageUp | PageDown | WheelUp | WheelDown.

Definition scroll (r : screen T) (a : scroll_action) : outcome (screen T) :=
  match a with
  | PageUp => ik_repl_handle_page_up_action r
  | PageDown => Ret (ik_repl_handle_page_down_action r)
  | WheelUp => ik_repl_handle_scroll_up_action r
  | WheelDown => Ret (ik_repl_handle_scroll_down_action r)
  end.

Fixpoint scrolls (r : screen T) (acts : list scroll_action) : outcome (screen T) :=
  match acts with
  | [] => Ret r
  | a :: acts => let! r := scroll r a in scrolls r acts
  end.

(** The offset as a number of rows between 0 and [most]. *)
Definition scroll_offset (page most o : nat) (a : scroll_action) : nat :=
  match a with
  | PageUp => Nat.min most (o + page)
  | PageDown => o - page
  | WheelUp => Nat.min most (o + 3)
  | WheelDown => o - 3
  end.

Lemma scroll_up_ok n r cpss pre post :
  screen_ok r cpss pre post -> (Z.of_nat (viewport_offset r + n) < 2 ^ 64)%Z ->
  exists r', scroll_up n r = Ret r' /\ screen_ok r' cpss pre post /\
    screen_rows r' = screen_rows r /\ document_height r' cpss (pre ++ post) = document_height r cpss (pre ++ post) /\
    viewport_offset r' = Nat.min (document_height r cpss (pre ++ post) - term_rows r) (viewport_offset r + n).
Proof.
  intros Hok Hn. destruct (layouts_ok _ _ _ _ Hok) as (sb & ib & ls & Esb & Eib & Hh & Hib & Hok' & Ed).
  unfold scroll_up, ik_repl_calculate_max_viewport_offset. rewrite Esb, Eib. cbn [obind].
  rewrite Ed. cbn [set_layouts viewport_offset screen_rows]. rewrite wrap64_small by done.
  pose proof (so_rows _ _ _ _ Hok) as Hr. rewrite size_t_small by lia. fold (term_rows r).
  eexists. split; [reflexivity|]. split; [|split; [done|split; [done|]]].
  - destruct Hok'. by constructor.
  - cbn [set_viewport_offset viewport_offset].
    destruct (Nat.ltb_spec (term_rows r) (document_height r cpss (pre ++ post)));
      match goal with |- context [(?a <? ?b)%nat] => destruct (Nat.ltb_spec a b) end; lia.
Qed.

Lemma scroll_down_ok n r cpss pre post :
  screen_ok r cpss pre post ->
  screen_ok (scroll_down n r) cpss pre post /\ viewport_offset (scroll_down n r) = viewport_offset r - n.
Proof.
  intros Hok. split; [destruct Hok; by constructor|]. unfold scroll_down. cbn [set_viewport_offset viewport_offset].
  destruct (Nat.leb_spec n (viewport_offset r)); lia.
Qed.

Lemma scroll_ok a r cpss pre post :
  screen_ok r cpss pre post -> (Z.of_nat (viewport_offset r) < 2 ^ 63)%Z ->
  exists r', scroll r a = Ret r' /\ screen_ok r' cpss pre post /\
    screen_rows r' = screen_rows r /\ document_height r' cpss (pre ++ post) = document_height r cpss (pre ++ post) /\
    viewport_offset r' = scroll_offset (term_rows r) (document_height r cpss (pre ++ post) - term_rows r)
                           (viewport_offset r) a.
Proof.
  intros Hok Ho. pose proof (so_rows _ _ _ _ Hok) as Hr.
  assert (size_t (screen_rows r) = term_rows r) as Esz by (rewrite size_t_small by lia; done).
  unfold ik_repl_handle_page_up_action, ik_repl_handle_page_down_action.
  destruct a; cbn [scroll scroll_offset];
    unfold ik_repl_handle_page_up_action, ik_repl_handle_page_down_action, ik_repl_handle_scroll_up_action,
      ik_repl_handle_scroll_down_action, MOUSE_SCROLL_LINES; rewrite ?Esz.
  1, 3: apply scroll_up_ok; [done|unfold term_rows; lia].
  all: eexists; split; [reflexivity|];
    destruct (scroll_down_ok (term_rows r) r cpss pre post Hok), (scroll_down_ok 3 r cpss pre post Hok); done.
Qed.

(** *** The viewport *)

Lemma count_visible_ok ls n i cur cnt sep last :
  i + n <= length ls -> exists k, count_visible ls n i cur cnt sep last = Ret k.
Proof.
  revert i cur cnt. induction n as [|n IH]; intros i cur cnt Hi; cbn [count_visible]; [eauto|].
  destruct (cur <? sep)%nat; [|eauto].
  destruct (lookup_lt_is_Some_2 ls i ltac:(lia)) as [l Hl]. unfold arr_get. rewrite Hl. cbn [obind].
  destruct (last <? _)%nat; [eauto|apply IH; lia].
Qed.

Lemma visible_lines_ok sb tw cpss ls b sp first last :
  sb_holds sb tw cpss ls ->
  exists i k, visible_lines sb b (length (sb_rows tw cpss)) (b + length (sb_rows tw cpss) + sp) first last = Ret (i, k).
Proof.
  intros Hh. unfold visible_lines. destruct (_ || _); [eauto|]. cbv zeta.
  set (row := if (b <? first)%nat then first - b else 0).
  match goal with |- context [obind ?m _] =>
    assert (exists i, m = Ret i) as (i & ->) end.
  { destruct (Nat.ltb_spec row (length (sb_rows tw cpss))) as [Hlt|]; [|rewrite andb_false_r; eauto].
    rewrite andb_true_r. destruct (0 <? _)%nat; [|eauto].
    destruct (find_row_ok _ _ _ _ row Hh Hlt) as (i & off & cps & -> & _). eauto. }
  cbn [obind]. pose proof Hh as [Hr _ _].
  destruct (sb_layouts _ _ _ Hr) as [ry Hy].
  destruct (Nat.le_gt_cases i (length cpss)) as [Hi|Hi].
  - destruct (count_visible_ok (layouts sb) (ik_scrollback_get_line_count sb - i) i (b + row) 0
                (b + length (sb_rows tw cpss) + sp) last) as [k ->]; [|cbn [obind]; eauto].
    unfold ik_scrollback_get_line_count. rewrite (sb_count _ _ _ Hr), Hy, length_app, length_fmap.
    pose proof (Forall2_length _ _ _ (sb_lines _ _ _ Hr)) as E. rewrite length_fmap in E. lia.
  - unfold ik_scrollback_get_line_count. rewrite (sb_count _ _ _ Hr), length_fmap.
    replace (length cpss - i) with 0 by lia. cbn. eauto.
Qed.

(** The document row of the separator. *)
Definition separator_doc_row r (cpss : list (list Z)) : nat :=
  (if banner_visible (agent_view r) then 6 else 0) + length (sb_rows (term_cols r) cpss)
  + (if visible (spinner_state (agent_view r)) then 1 else 0).

Lemma viewport_ok r cpss pre post :
  screen_ok r cpss pre post ->
  let first := document_height r cpss (pre ++ post) - term_rows r
               - Nat.min (viewport_offset r) (document_height r cpss (pre ++ post) - term_rows r) in
  let last := if (document_height r cpss (pre ++ post) <=? term_rows r)%nat
              then document_height r cpss (pre ++ post) - 1
              else document_height r cpss (pre ++ post) - 1
                   - Nat.min (viewport_offset r) (document_height r cpss (pre ++ post) - term_rows r) in
  let sep := separator_doc_row r cpss in
  exists sb ib ls i k, ik_repl_calculate_viewport r
    = Ret (mk_viewport i k
             (if (sep + 1 <=? last)%nat then (if (first <=? sep + 1)%nat then sep + 1 - first else 0) else term_rows r)
             ((first <=? sep)%nat && (sep <=? last)%nat), set_layouts sb ib r) /\
    sb_holds sb (term_cols r) cpss ls /\ screen_ok (set_layouts sb ib r) cpss pre post /\
    ik_repl_calculate_document_height (set_layouts sb ib r) = document_height r cpss (pre ++ post).
Proof.
  intros Hok first last sep. destruct (layouts_ok _ _ _ _ Hok) as (sb & ib & ls & Esb & Eib & Hh & Hib & Hok' & Ed).
  exists sb, ib, ls. unfold ik_repl_calculate_viewport, ensure_layouts. rewrite Eib, Esb. cbn [obind].
  rewrite Ed. cbn [set_layouts viewport_offset screen_rows agent_view v_scrollback with_scrollback banner_visible
                   spinner_state].
  rewrite (holds_total _ _ _ _ Hh). pose proof (so_rows _ _ _ _ Hok) as Hr.
  rewrite size_t_small by lia. fold (term_rows r). fold (separator_doc_row r cpss). fold sep.
  rewrite visible_range_ok by (unfold term_rows, document_height; lia). fold first. fold last.
  destruct (visible_lines_ok sb (term_cols r) cpss ls (if banner_visible (agent_view r) then 6 else 0)
              (if visible (spinner_state (agent_view r)) then 1 else 0) first last Hh) as (i & k & E).
  unfold sep, separator_doc_row at 1. rewrite E. cbn [obind]. by exists i, k.
Qed.

End document.

(** ** A frame *)

Section frame.
Context {T : Type} `{!ByteStore T} `{!ByteStoreLaws T} `{!Utf8proc} `{!Utf8procSpec}.
Context `{!Allocator} `{!AllocatorSpec} `{!SlotAllocator} `{!SlotAllocatorSpec}.
Implicit Types r : screen T.

(** Layers that the window holds whole. *)
Definition draws_whole (o : option (list (list Z) * (nat -> nat -> Prop))) : Prop :=
  match o with Some (rows, part) => part 0 (length rows) | None => True end.

Lemma parts_fit_whole v e cur os :
  Forall draws_whole os -> v <= cur -> cur + length (os ≫= rows_of) <= e -> parts_fit v e cur os.
Proof.
  intros HF Hv. revert cur Hv. induction HF as [|o os Ho _ IH]; intros cur Hv He; [done|].
  cbn [parts_fit mbind list_bind] in *. fold (mbind (M := list) rows_of os) in He. rewrite length_app in He.
  split; [|apply IH; lia]. destruct o as [[rows part]|]; [|done]. intros _ _.
  cbn [rows_of] in He. unfold window. replace (v - cur) with 0 by lia.
  rewrite drop_0, firstn_all2 by lia. exact Ho.
Qed.

Lemma agent_parts_fit v cpss width row height :
  row <= (if banner_visible v then 6 else 0) + length (sb_rows width cpss) ->
  length (agent_rows v cpss width) <= row + height ->
  parts_fit row (row + height) 0 (agent_parts v cpss width).
Proof.
  intros Hr Hh. unfold agent_rows, agent_parts in *.
  assert (length (rows_of (shown_if (banner_visible v) (banner_rows width, all_parts)))
          = if banner_visible v then 6 else 0) as Eb by by destruct (banner_visible v).
  assert (length (rows_of (Some (sb_rows width cpss, all_parts))) = length (sb_rows width cpss)) as Es by done.
  match type of Hh with context [?a :: ?b :: ?os] => set (rest := os) in * end.
  cbn [mbind list_bind] in Hh. fold (mbind (M := list) rows_of rest) in Hh. rewrite !length_app, Eb, Es in Hh.
  cbn [parts_fit]. rewrite Eb, Es. split; [by destruct (banner_visible v)|]. split; [done|].
  apply parts_fit_whole; [|lia..]. subst rest.
  repeat apply Forall_cons_2; [..|apply Forall_nil_2];
    try (match goal with |- context [shown_if ?b _] => destruct b end); cbn [shown_if draws_whole]; try done.
  by destruct (completion v).
Qed.

Lemma decimal_length fuel n acc k :
  (0 <= n < 10 ^ Z.of_nat k)%Z -> 0 < k -> length (decimal fuel n acc) <= length acc + k.
Proof.
  revert n acc k. induction fuel as [|fuel IH]; intros n acc k Hn Hk; cbn [decimal]; [lia|].
  destruct (Z.eqb_spec (n / 10) 0) as [|Hq]; [cbn [length]; lia|].
  destruct k as [|k]; [lia|]. rewrite Nat2Z.inj_succ, Z.pow_succ_r in Hn by lia.
  assert (0 <= n / 10 < 10 ^ Z.of_nat k)%Z as Hb.
  { split; [apply Z.div_pos; lia|apply Z.div_lt_upper_bound; lia]. }
  specialize (IH (n / 10)%Z ((48 + n mod 10)%Z :: acc) k Hb). cbn [length] in IH.
  destruct k as [|k]; [cbn in Hb; lia|]. specialize (IH ltac:(lia)). lia.
Qed.

Lemma cursor_escape_length row col :
  (0 <= row < 10 ^ 7)%Z -> (0 <= col < 10 ^ 7)%Z -> length (cursor_escape row col) <= 20.
Proof.
  intros Hr Hc. unfold cursor_escape, show_int.
  rewrite (proj2 (Z.ltb_ge (row + 1) 0)), (proj2 (Z.ltb_ge (col + 1) 0)) by lia.
  pose proof (decimal_length 20 (row + 1) [] 8 ltac:(change (10 ^ Z.of_nat 8)%Z with (10 ^ 8)%Z; lia) ltac:(lia)).
  pose proof (decimal_length 20 (col + 1) [] 8 ltac:(change (10 ^ Z.of_nat 8)%Z with (10 ^ 8)%Z; lia) ltac:(lia)).
  cbn [app length]. rewrite !length_app.
  change (length (lit "[")) with 1. change (length (lit ";")) with 1. change (length (lit "H")) with 1. 
  cbn [length] in *. lia.
Qed.

Lemma fb_put_ok n l bytes : length bytes + length l <= n -> fb_put n l bytes = Ret (bytes ++ l).
Proof. intros Hl. unfold fb_put. by rewrite (proj2 (Nat.leb_le _ _)). Qed.

(** Nothing is written past the end of the frame buffer. *)
Lemma frame_bytes_ok content row col :
  (0 <= row < 10 ^ 7)%Z -> (0 <= col < 10 ^ 7)%Z ->
  frame_bytes content true row col
  = Ret (HIDE_CURSOR ++ HOME ++ content ++ CLEAR_TO_END ++ SHOW_CURSOR ++ cursor_escape row col).
Proof.
  intros Hr Hc. pose proof (cursor_escape_length row col Hr Hc) as Hl. unfold frame_bytes. cbv zeta.
  assert (length HIDE_CURSOR = 6 /\ length HOME = 3 /\ length CLEAR_TO_END = 3 /\ length SHOW_CURSOR = 6)
    as (E1 & E2 & E3 & E4) by done.
  rewrite !app_assoc.
  do 6 (rewrite fb_put_ok by (rewrite ?length_app; cbn [length]; lia); cbn [obind app]).
  done.
Qed.

Lemma trimmed_content h rows out bs :
  out_holds out (bs ++ [13; 10]%Z) ->
  mem_read 0 (trimmed_size h rows out) (data out)
  = Ret (if (rows <=? h)%nat then bs else bs ++ [13; 10]%Z).
Proof.
  intros [Hs [x Hd] Hc _]. unfold trimmed_size. rewrite Hs, length_app. cbn [length].
  rewrite (proj2 (Nat.leb_le 2 _)), andb_true_r by lia.
  assert (byte_at (data out) (length bs + 2 - 2) = 13%Z) as ->.
  { unfold byte_at. rewrite Hd, <- app_assoc, Nat.add_sub. cbn [app]. by rewrite list_lookup_middle. }
  assert (byte_at (data out) (length bs + 2 - 1) = 10%Z) as ->.
  { unfold byte_at. rewrite Hd, <- app_assoc.
    rewrite lookup_app_r by lia. by replace (length bs + 2 - 1 - length bs) with 1 by lia. }
  rewrite !Z.eqb_refl, !andb_true_r. rewrite mem_read_ok by (rewrite Hd, !length_app; cbn [length]; destruct_ifs; lia).
  rewrite drop_0, Hd, <- app_assoc. f_equal. destruct (rows <=? h)%nat.
  - rewrite Nat.add_sub. by rewrite take_app_length.
  - rewrite app_assoc. rewrite <- (take_app_length (bs ++ [13; 10]%Z) x) at 2. f_equal. by rewrite length_app.
Qed.

Definition ends_line (bs : list Z) : Prop := exists x, bs = x ++ [13; 10]%Z.

Lemma ends_line_app a b : ends_line b -> ends_line (a ++ b).
Proof. intros [x ->]. exists (a ++ x). by rewrite app_assoc. Qed.

Lemma ends_line_EOL : ends_line EOL.
Proof. by exists [0x1B; 0x5B; 0x4B]%Z. Qed.

Lemma completion_ends w comp : candidates comp <> [] -> ends_line (concat (completion_rows w comp)).
Proof.
  intros Hne. destruct (exists_last Hne) as (cs & c & E). unfold completion_rows. rewrite E, imap_app, concat_app.
  apply ends_line_app. cbn [imap concat]. rewrite app_nil_r. unfold candidate_row. cbv zeta.
  apply ends_line_app, ends_line_app, ends_line_EOL.
Qed.

(** The rows from the separator on, which a frame ends with. *)
Definition area_rows (v : view) (width : nat) : list (list Z) :=
  [separator_row (nav_ctx v) width] ++ input_rows (input_text v) width
  ++ match completion v with Some comp => completion_rows width comp | None => [] end
  ++ (if status_visible v then status_rows width (model v) (thinking_level v) else []).

Lemma area_ends v width : ends_line (concat (area_rows v width)).
Proof.
  unfold area_rows. rewrite !concat_app. apply ends_line_app.
  assert (ends_line (concat (input_rows (input_text v) width))) as Hi.
  { unfold input_rows. rewrite input_rows_concat. apply ends_line_app, ends_line_app, ends_line_EOL. }
  destruct (status_visible v).
  { do 2 apply ends_line_app. cbn [status_rows concat]. apply ends_line_app. rewrite app_nil_r.
    do 5 apply ends_line_app. apply ends_line_EOL. }
  cbn [concat]. rewrite app_nil_r. destruct (completion v) as [comp|]; [|cbn [concat]; by rewrite app_nil_r].
  destruct (decide (candidates comp = [])) as [E|Hne].
  - unfold completion_rows. rewrite E. cbn [imap concat]. by rewrite app_nil_r.
  - by apply ends_line_app, completion_ends.
Qed.

(** The rows of an idle agent's document. *)
Lemma idle_rows v cpss width :
  visible (spinner_state v) = false -> separator_visible v = true -> input_buffer_visible v = true ->
  agent_rows v cpss width
  = ((if banner_visible v then banner_rows width else []) ++ sb_rows width cpss) ++ area_rows v width.
Proof.
  intros E1 E2 E3. unfold agent_rows, agent_parts, area_rows. rewrite E1, E2, E3.
  cbn [shown_if mbind list_bind rows_of app]. rewrite app_nil_r, <- app_assoc. f_equal; [by destruct (banner_visible v)|].
  do 3 f_equal. destruct (completion v), (status_visible v); cbn; by rewrite ?app_nil_r.
Qed.

(** A text of the input area whose lines do not fill their rows. *)
Record plain_input (width : nat) (text : list Z) : Prop := {
  pi_ascii : Forall (fun c => (0 <= c < 128)%Z) text;
  pi_esc : 27%Z ∉ text;
  pi_narrow : Forall narrow text;
  pi_ragged : Forall (fun l => ragged width (length l)) (lines_of text);
  pi_last : last text <> Some 10%Z
}.

Lemma plain_text_of width a b : plain_input width (a ++ b) -> text_of (a ++ b) = a ++ b /\ text_of a = a.
Proof.
  intros [Ha _ _ _ _]. split; [by apply text_of_ascii_id|]. apply Forall_app in Ha as [Ha _].
  by apply text_of_ascii_id.
Qed.

Lemma input_area_height r pre post :
  0 < term_cols r -> Z.of_nat (term_cols r) = screen_cols r ->
  plain_input (term_cols r) (pre ++ post) -> input_buffer_visible (agent_view r) = true ->
  input_height r (pre ++ post) = length (input_rows (pre ++ post) (term_cols r)).
Proof.
  intros Hw Ew Hp Hv. unfold input_height. rewrite Hv, (proj1 (plain_text_of _ _ _ Hp)), <- Ew.
  destruct (decide (pre ++ post = [])) as [->|Hne]; [done|]. destruct Hp as [Ha He Hn Hr _].
  rewrite layout_is_layer by done. unfold input_rows. rewrite input_rows_lines by done.
  destruct (lines_of_cons (pre ++ post)) as (x & xs & ->). unfold layer_rows at 1 3. lia.
Qed.

Lemma input_buffer_text (ib : ik_input_buffer T) pre post :
  rep ib pre post ->
  let '(ptr, len) := ik_input_buffer_get_text ib in
  match ptr with Some t => take len t | None => [] end = text_of (pre ++ post) /\ len = length (text_of (pre ++ post)).
Proof.
  intros Hr. unfold ik_input_buffer_get_text. rewrite (rep_size _ _ _ Hr). split; [|done].
  destruct (bs_ptr (InputBuffer.text ib)) as [d|] eqn:E.
  - apply bs_ptr_bytes in E; [|exact (rep_ok _ _ _ Hr)]. rewrite E, (rep_bytes _ _ _ Hr). by rewrite firstn_all.
  - destruct (decide (pre ++ post = [])) as [->|Hne]; [done|]. by rewrite (rep_ptr _ _ _ Hr Hne) in E.
Qed.

(** The document of an idle agent in rows. *)
Lemma idle_document r cpss pre post v :
  0 < term_cols r -> Z.of_nat (term_cols r) = screen_cols r ->
  visible (spinner_state (agent_view r)) = false -> input_buffer_visible (agent_view r) = true ->
  plain_input (term_cols r) (pre ++ post) ->
  v = mk_view (banner_visible (agent_view r)) (v_scrollback (agent_view r))
        (mk_spinner (frame_index (spinner_state (agent_view r))) false (last_advance_ms (spinner_state (agent_view r))))
        true (nav_ctx (agent_view r)) true (pre ++ post) (completion (agent_view r)) (status_visible (agent_view r))
        (model (agent_view r)) (thinking_level (agent_view r)) ->
  let rows := agent_rows v cpss (term_cols r) in
  let area := length (area_rows v (term_cols r)) in
  document_height r cpss (pre ++ post) = length rows /\
  separator_doc_row r cpss = length rows - area /\ area <= length rows /\
  1 + length (input_rows (pre ++ post) (term_cols r)) <= area /\
  (forall k, k <= length rows - area -> ends_line (concat (drop k rows))).
Proof.
  intros Hw Ew Hsp Hiv Hin -> rows area. subst rows area. rewrite idle_rows by done.
  unfold document_height, separator_doc_row, completion_height.
  rewrite (input_area_height r pre post) by done. rewrite Hsp.
  cbn [banner_visible v_scrollback spinner_state completion status_visible].
  assert (length (if banner_visible (agent_view r) then banner_rows (term_cols r) else [])
          = if banner_visible (agent_view r) then 6 else 0) as Eb by by destruct (banner_visible (agent_view r)).
  assert (forall v, length (area_rows v (term_cols r))
          = 1 + (length (input_rows (input_text v) (term_cols r))
                 + (completion_height v + if status_visible v then 2 else 0))) as Ea.
  { intros v. unfold area_rows, completion_height. rewrite !length_app. cbn [length]. do 3 f_equal;
      [destruct (completion v) as [c|]; [|done]; unfold completion_rows; by rewrite length_imap
      |by destruct (status_visible v)]. }
  rewrite !length_app, Eb, Ea. unfold completion_height. cbn [input_text completion status_visible].
  split_and!; [lia|lia|lia|lia|].
  intros k Hk. rewrite drop_app_le by (rewrite length_app, Eb; lia). rewrite concat_app.
  apply ends_line_app, area_ends.
Qed.

(** A document with the cursor in its input area is drawn from row [first]
    on. *)
Lemma draw_frame_ok write r cake v cpss pre post ls l :
  cake_rep cake agent_layers -> screen_ok r cpss pre post ->
  (exists lays, sb_rep (v_scrollback v) (text_of <$> cpss) lays) ->
  plain_input (term_cols r) (pre ++ post) -> lines_of pre = ls ++ [l] ->
  input_text v = pre ++ post -> viewport_offset r = 0 ->
  let rows := agent_rows v cpss (term_cols r) in
  let first := length rows - term_rows r in
  let shown := concat (drop first rows) in
  ik_repl_calculate_document_height (set_view_cake v (Some cake) r) = length rows -> 0 < length rows ->
  first <= (if banner_visible v then 6 else 0) + length (sb_rows (term_cols r) cpss) ->
  ends_line shown -> out_room shown ->
  forall start, start + length (input_rows (pre ++ post) (term_cols r)) <= term_rows r ->
  let row := (Z.of_nat (start + sum_list ((fun l => Layout.line_rows (screen_cols r) (length l)) <$> ls))
              + Z.of_nat (length l) / screen_cols r)%Z in
  let col := (Z.of_nat (length l) mod screen_cols r)%Z in
  exists r', draw_frame write start (pre ++ post) (length pre) cake v true r
    = Ret (negb ((write (term_fd r) (framebuffer r') <? 0)%Z && (0 <=? term_fd r)%Z), r') /\
    framebuffer r' = HIDE_CURSOR ++ HOME
      ++ (if (term_rows r <=? length rows)%nat then take (length shown - 2) shown else shown)
      ++ CLEAR_TO_END ++ SHOW_CURSOR ++ cursor_escape row col /\
    cursor_row r' = row /\ cursor_col r' = col /\
    (0 <= row < screen_rows r)%Z /\ (0 <= col < screen_cols r)%Z.
Proof.
  intros Hck Hok Hsb Hin Hls Htext Ho rows first shown Eh Hpos Hfirst [x Ex] Hroom start Hstart row col.
  pose proof (so_rows _ _ _ _ Hok) as Hr. pose proof (so_cols _ _ _ _ Hok) as Hc.
  assert (Z.of_nat (term_cols r) = screen_cols r) as Ew by (unfold term_cols; lia).
  assert (size_t (screen_rows r) = term_rows r) as Etr by (rewrite size_t_small by lia; done).
  assert (size_t (screen_cols r) = term_cols r) as Etc by (rewrite size_t_small by lia; done).
  pose proof (cursor_row_inside (term_cols r) pre post ls l ltac:(lia) Hls (pi_ragged _ _ Hin)) as Hcur.
  rewrite Ew in Hcur.
  assert (0 <= row < screen_rows r)%Z as Hrow.
  { subst row. assert (Z.of_nat (length l) / screen_cols r = Z.of_nat (length l / term_cols r))%Z as ->
      by (by rewrite Nat2Z.inj_div, Ew).
    unfold term_rows in *. lia. }
  assert (0 <= col < screen_cols r)%Z as Hcol by (subst col; apply Z.mod_pos_bound; lia).
  unfold draw_frame. rewrite Eh, Etr, Etc, Ho, visible_range_ok by (unfold term_rows; lia). cbn [Nat.min fst].
  rewrite Nat.sub_0_r. fold first.
  destruct (create_out_ok 4096 ltac:(lia) ltac:(lia)) as (buf & -> & Hbuf). cbn [obind].
  assert (take (term_rows r) (drop first rows) = drop first rows) as Eall
    by (apply firstn_all2; rewrite length_drop; subst first; lia).
  destruct (agent_cake_draws v cpss (term_cols r) cake first (term_rows r) buf [] Hck ltac:(lia)
              (so_texts _ _ _ _ Hok)) as (out & v' & -> & Hout & _);
    [by rewrite Htext; apply (pi_last _ _ Hin)|done|apply agent_parts_fit; fold rows; [done|subst first; lia]|done
    |fold rows; by rewrite Eall|].
  fold rows in Hout. rewrite Eall in Hout. cbn [app] in Hout. fold shown in Hout. rewrite Ex in Hout.
  cbn [obind]. rewrite (trimmed_content _ _ _ _ Hout). cbn [obind].
  assert ((if true && (0 <? length (pre ++ post))%nat
           then let! (row, col) := assert_ok (calculate_cursor_screen_position (pre ++ post) (length (pre ++ post))
                                                (length pre) (screen_cols r)) in
                Ret (int32_wrap (Z.of_nat start) + row, col)%Z
           else if true then Ret (int32_wrap (Z.of_nat start), 0%Z) else Ret (0, 0)%Z) = Ret (row, col)) as ->.
  { rewrite int32_wrap_small by (unfold term_rows in *; lia). cbn [andb].
    destruct (plain_text_of _ _ _ Hin) as [Et1 Et2].
    pose proof (cursor_position (screen_cols r) pre post ls l ltac:(lia) (ascii_scalar _ (pi_ascii _ _ Hin))
                  (pi_esc _ _ Hin) (proj1 (proj1 (Forall_app _ _ _) (pi_narrow _ _ Hin))) Hls) as Ec.
    rewrite Et1, Et2 in Ec. rewrite Ec. cbn [assert_ok obind].
    destruct (Nat.ltb_spec 0 (length (pre ++ post))) as [Hp|Hp].
    - subst row col. do 2 f_equal. lia.
    - destruct pre; [|simpl in Hp; lia]. cbn in Hls. destruct ls as [|? []]; [|done|done].
      injection Hls as <-. subst row col. cbn. rewrite Z.mod_0_l, Z.div_0_l by lia. do 2 f_equal. lia. }
  cbn [obind]. rewrite frame_bytes_ok by lia. cbn [obind].
  match goal with |- context [set_framebuffer ?fb ?a ?b ?c] => exists (set_framebuffer fb a b c) end.
  split; [reflexivity|]. cbn [set_framebuffer framebuffer cursor_row cursor_col]. split_and!; try lia; try done. do 2 f_equal. rewrite Ex. destruct (_ <=? _)%nat; [|done].
  by rewrite length_app, Nat.add_sub, take_app_length.
Qed.

End frame.

(** ** Properties *)

Module FrameProps.
Section properties.
Context {T : Type} `{!ByteStore T} `{!ByteStoreLaws T} `{!Utf8proc} `{!Utf8procSpec}.
Context `{!Allocator} `{!AllocatorSpec} `{!SlotAllocator} `{!SlotAllocatorSpec}.

(** C15: scrolling stays inside the document.  Whatever the sequence of page
    and wheel actions, each succeeds, and the offset moves by a page or by three
    rows but never below 0 or beyond the rows that do not fit the terminal: the
    window that is then visible has the height of the terminal, or the whole
    document, and ends at the last row when the offset is 0. *)
Theorem scroll_stays_in_document (r : screen T) cpss pre post acts :
  screen_ok r cpss pre post ->
  let h := document_height r cpss (pre ++ post) in
  let rows := term_rows r in
  viewport_offset r <= h - rows ->
  (Z.of_nat h < 2 ^ 63)%Z ->
  exists r', scrolls r acts = Ret r' /\ screen_ok r' cpss pre post /\
    document_height r' cpss (pre ++ post) = h /\
    viewport_offset r' = fold_left (scroll_offset rows (h - rows)) acts (viewport_offset r) /\
    viewport_offset r' <= h - rows /\
    visible_range h rows (viewport_offset r')
    = (h - rows - viewport_offset r', if (h <=? rows)%nat then h - 1 else h - 1 - viewport_offset r').
Proof.
  intros Hok h rows Ho Hh.
  assert (0 < rows) as Hrows by (pose proof (so_rows _ _ _ _ Hok); subst rows; unfold term_rows; lia).
  assert (term_rows r = rows) as Er by done. assert (document_height r cpss (pre ++ post) = h) as Eh by done.
  clearbody h rows. revert r Hok Er Eh Ho. induction acts as [|a acts IH]; intros r Hok Er Eh Ho; cbn [scrolls fold_left].
  { exists r. split_and!; try done. rewrite visible_range_ok.
    - by rewrite Nat.min_l by lia.
    - lia.
    - rewrite <- Eh. unfold document_height. lia. }
  destruct (scroll_ok a r cpss pre post Hok) as (r1 & -> & Hok1 & Er1 & Eh1 & Eo1); [lia|]. cbn [obind].
  rewrite Eh, Er in Eo1. rewrite <- Eo1. apply IH; [done|unfold term_rows in *; congruence|congruence|].
  rewrite Eo1. destruct a; cbn [scroll_offset]; lia.
Qed.

(** C4: the frame of an idle agent shows the end of its document, for plain
    input and a scrollback that can be shown.  Plain ([plain_input]) is input of
    ASCII characters of one column each and newlines, without ESC, no line of
    which fills its rows exactly, and not ending in a newline; the scrollback's
    lines are code points without ESC or newline ([showable], in [screen_ok], by
    which the terminal also has fewer than 10000 rows and columns).
    With that input area on the screen, no spinner and the document not scrolled
    up, the frame is the document's last rows, from the banner or the scrollback
    down to the status line, between the sequences that hide the cursor, go home,
    clear what is left and show the cursor; the cursor is put on the cell of the
    input where the next character goes.  The last line end is left out when the
    rows fill the screen, and the frame buffer is never overrun. *)
Theorem idle_frame_shows_end (write : Z -> list Z -> Z) (r : screen T) cake cpss pre post ls l :
  screen_ok r cpss pre post -> layer_cake r = Some cake -> cake_rep cake agent_layers ->
  agent_state r = IK_AGENT_STATE_IDLE -> dead r = false ->
  visible (spinner_state (agent_view r)) = false -> input_buffer_visible (agent_view r) = true ->
  viewport_offset r = 0 ->
  plain_input (term_cols r) (pre ++ post) -> lines_of pre = ls ++ [l] ->
  let v := fst (frame_view true true (pre ++ post) r) in
  let rows := agent_rows v cpss (term_cols r) in
  let area := length (area_rows v (term_cols r)) in
  let first := length rows - term_rows r in
  let shown := concat (drop first rows) in
  let row := (Z.of_nat (S (length rows - area - first)
                        + sum_list ((fun l => Layout.line_rows (screen_cols r) (length l)) <$> ls))
              + Z.of_nat (length l) / screen_cols r)%Z in
  let col := (Z.of_nat (length l) mod screen_cols r)%Z in
  area <= term_rows r -> out_room shown ->
  exists r', ik_repl_render_frame write r
    = Ret (negb ((write (term_fd r) (framebuffer r') <? 0)%Z && (0 <=? term_fd r)%Z), r') /\
    framebuffer r' = HIDE_CURSOR ++ HOME
      ++ (if (term_rows r <=? length rows)%nat then take (length shown - 2) shown else shown)
      ++ CLEAR_TO_END ++ SHOW_CURSOR ++ cursor_escape row col /\
    cursor_row r' = row /\ cursor_col r' = col /\
    (0 <= row < screen_rows r)%Z /\ (0 <= col < screen_cols r)%Z.
Proof.
  intros Hok Hcake Hck Hst Hdead Hsp Hiv Ho Hin Hls v rows area first shown row col Harea Hroom.
  pose proof (so_rows _ _ _ _ Hok) as Hr. pose proof (so_cols _ _ _ _ Hok) as Hc.
  destruct (viewport_ok r cpss pre post Hok) as (sb & ib & lays & i & k & Evp & Hh & Hok1 & Hib).
  assert (Z.of_nat (term_cols r) = screen_cols r) as Ew by (unfold term_cols; lia).
  assert (0 < term_cols r) as Hw by lia.
  destruct (idle_document r cpss pre post v Hw Ew Hsp Hiv Hin) as (Eh & Es & Earea & Hai & Hends);
    [by subst v; unfold frame_view; rewrite Hdead, Hst|].
  fold rows in Eh, Es, Earea, Hends. fold area in Es, Earea, Hai.
  assert (size_t (screen_rows r) = term_rows r) as Etr by (rewrite size_t_small by lia; done).
  assert (size_t (screen_cols r) = term_cols r) as Etc by (rewrite size_t_small by lia; done).
  assert (1 <= length (input_rows (pre ++ post) (term_cols r))) as Hir.
  { unfold input_rows. rewrite input_rows_lines by done. destruct (lines_of_cons (pre ++ post)) as (x & xs & ->).
    unfold layer_rows at 1. lia. }
  rewrite Eh, Es, Ho in Evp. cbn [Nat.min] in Evp. rewrite Nat.sub_0_r in Evp. fold first in Evp.
  rewrite Nat.sub_0_r in Evp.
  rewrite (proj2 (Nat.leb_le first (length rows - area + 1))), (proj2 (Nat.leb_le first (length rows - area))) in Evp
    by lia.
  replace (if (length rows <=? term_rows r)%nat then length rows - 1 else length rows - 1) with (length rows - 1)
    in Evp by by destruct (length rows <=? term_rows r)%nat.
  rewrite (proj2 (Nat.leb_le (length rows - area + 1) _)), (proj2 (Nat.leb_le (length rows - area) _)) in Evp by lia.
  cbn [andb] in Evp. replace (length rows - area + 1 - first) with (S (length rows - area - first)) in Evp by lia.
  set (start := S (length rows - area - first)) in *.
  unfold ik_repl_render_frame. rewrite Evp. cbn [obind].
  pose proof (input_buffer_text _ _ _ (so_input _ _ _ _ Hok1)) as Htext.
  destruct (ik_input_buffer_get_text (input_buffer (set_layouts sb ib r))) as [ptr len].
  destruct Htext as [-> ->]. rewrite (proj1 (plain_text_of _ _ _ Hin)).
  unfold ik_input_buffer_get_cursor_position, ik_input_buffer_cursor_get_position.
  rewrite (rep_cursor _ _ _ (so_input _ _ _ _ Hok1)), (proj2 (plain_text_of _ _ _ Hin)).
  cbn [vp_separator_visible input_buffer_start_row].
  change (layer_cake (set_layouts sb ib r)) with (layer_cake r). rewrite Hcake.
  change (screen_rows (set_layouts sb ib r)) with (screen_rows r). rewrite Etr.
  rewrite (proj2 (Nat.ltb_lt start _)) by lia.
  assert (frame_view true true (pre ++ post) (set_layouts sb ib r) = (with_scrollback sb v, true)) as ->.
  { subst v. unfold frame_view. cbn [set_layouts dead agent_state agent_view]. by rewrite Hdead, Hst. }
  assert (agent_rows (with_scrollback sb v) cpss (term_cols r) = rows) as Erows by done.
  assert (first <= length rows - area) as Hfirst by lia.
  apply (draw_frame_ok write (set_layouts sb ib r) cake (with_scrollback sb v) cpss pre post ls l); try done;
    change (term_cols (set_layouts sb ib r)) with (term_cols r);
    change (term_rows (set_layouts sb ib r)) with (term_rows r); rewrite ?Erows.
  - exists lays. exact (sh_rep _ _ _ _ Hh).
  - subst v. unfold frame_view. by rewrite Hdead, Hst.
  - rewrite <- Eh, <- Hib. subst v. unfold frame_view, ik_repl_calculate_document_height.
    rewrite Hdead, Hst. cbn. by rewrite Hsp, Hiv.
  - lia.
  - fold first. unfold separator_doc_row in Es. rewrite Hsp in Es.
    assert (banner_visible (with_scrollback sb v) = banner_visible (agent_view r)) as ->
      by (subst v; unfold frame_view; by rewrite Hdead, Hst).
    lia.
  - by apply Hends.
  - subst start. lia.
Qed.

End properties.
End FrameProps.

(** *** At concrete screens *)

Module FrameExamples.
Import ZeroAlloc RefUnicode CopySlots ScrollbackExamples EditorExamples FrameProps.

(** Three scrollback rows on ten columns, an idle agent, "hi" typed with the
    cursor on the i. *)
Definition sample_texts : list (list Z) := [lit "hello world"; lit "abc"].

Definition sample_view (sb : ik_scrollback) : view :=
  mk_view false sb (mk_spinner 3 false 0) true (mk_nav None None None None 0) true [] None true
    (Some (lit "m")) 1.

Definition sample_screen (rows : Z) (offset : nat) (sb : ik_scrollback) (ib : buffer) (cake : ik_layer_cake view)
  : screen Array.ik_array :=
  mk_screen (sample_view sb) ib offset IK_AGENT_STATE_IDLE false (Some cake) (mk_render rows 10 1) rows 10 1 [] 0 0.

#[export] Instance showable_dec cps : Decision (showable cps).
Proof. unfold showable, scalar. apply _. Defined.

#[export] Instance narrow_dec c : Decision (narrow c).
Proof. unfold narrow. apply _. Defined.

#[export] Instance ragged_dec w n : Decision (ragged w n).
Proof. unfold ragged. apply _. Defined.

Lemma sample_screen_ok rows offset :
  (0 < rows < 10000)%Z ->
  exists sb ib cake, cake_rep cake agent_layers /\
    screen_ok (sample_screen rows offset sb ib cake) sample_texts [104]%Z [105]%Z.
Proof.
  intros Hr. destruct (sb_reach 10 (SbAppend <$> (text_of <$> sample_texts)) ltac:(lia))
    as (s0 & sb & ls & _ & _ & Hsb & _); [by apply ops_okb|]. rewrite appends_lines in Hsb.
  destruct (typed_buffer (typed [104]%Z [105]%Z) (mk_doc [104]%Z [105]%Z 0)) as (ib & Hrep & _ & Hl);
    [reflexivity | reflexivity | reflexivity |].
  destruct (agent_cake_ok 24) as (c0 & cake & _ & _ & Hck).
  exists sb, ib, cake. split; [exact Hck|]. constructor; cbn [sample_screen agent_view v_scrollback sample_view
    input_buffer screen_rows screen_cols]; [by exists ls| |exact Hrep|exact Hl|exact Hr|lia].
  apply (bool_decide_unpack _); vm_compute; exact I.
Qed.

Lemma sample_input_plain w : w = 10 -> plain_input w ([104] ++ [105])%Z.
Proof. intros ->. constructor; apply (bool_decide_unpack _); vm_compute; exact I. Qed.

Definition keep_all (fd : Z) (frame : list Z) : Z := Z.of_nat (length frame).

(** Six rows: the first scrollback row is above the window. *)
Lemma idle_frame_shows_end_witness :
  exists (r r' : screen Array.ik_array), ik_repl_render_frame keep_all r = Ret (true, r') /\
    framebuffer r' = HIDE_CURSOR ++ HOME
      ++ lit "d" ++ EOL ++ lit "abc" ++ EOL ++ concat (replicate 10 BOX_LIGHT_HORIZONTAL) ++ EOL
      ++ lit "hi" ++ EOL ++ concat (replicate 10 BOX_LIGHT_HORIZONTAL) ++ EOL
      ++ ROBOT_EMOJI ++ lit " " ++ fg 153 ++ lit "m/low" ++ IK_ANSI_RESET ++ take 3 EOL
      ++ CLEAR_TO_END ++ SHOW_CURSOR ++ cursor_escape 3 1.
Proof.
  destruct (sample_screen_ok 6 0 ltac:(lia)) as (sb & ib & cake & Hck & Hok).
  destruct (idle_frame_shows_end (T := Array.ik_array) keep_all (sample_screen 6 0 sb ib cake) cake sample_texts
              [104]%Z [105]%Z [] [104]%Z Hok eq_refl Hck eq_refl eq_refl eq_refl eq_refl eq_refl)
    as (r' & E & Efb & _).
  - by apply sample_input_plain.
  - reflexivity.
  - apply (bool_decide_unpack _); vm_compute; exact I.
  - unfold out_room. vm_compute. reflexivity.
  - exists (sample_screen 6 0 sb ib cake), r'. split.
    + rewrite E. unfold keep_all. rewrite (proj2 (Z.ltb_ge _ _)) by lia. reflexivity.
    + rewrite Efb. vm_compute. reflexivity.
Defined.

Lemma scroll_stays_in_document_witness :
  exists (r r' : screen Array.ik_array), scrolls r [PageUp; WheelDown; WheelUp; PageDown] = Ret r' /\
    viewport_offset r' = 0 /\ document_height r' sample_texts [104; 105]%Z = 7.
Proof.
  destruct (sample_screen_ok 4 2 ltac:(lia)) as (sb & ib & cake & Hck & Hok).
  destruct (scroll_stays_in_document (T := Array.ik_array) (sample_screen 4 2 sb ib cake) sample_texts
              [104]%Z [105]%Z [PageUp; WheelDown; WheelUp; PageDown] Hok)
    as (r' & E & _ & Eh & Eo & _).
  - apply (bool_decide_unpack _); vm_compute; exact I.
  - vm_compute. reflexivity.
  - exists (sample_screen 4 2 sb ib cake), r'. split; [exact E|].
    split; [rewrite Eo; vm_compute; reflexivity|exact (eq_trans Eh eq_refl)].
Defined.

End FrameExamples.
