(* ===== verification/Completion.v ===== *)
(** * Completions (fzy_wrapper.c, completion.c)

    The candidates for a slash command or its argument: those that begin with
    what was typed, best first.  The score of the fuzzy matcher of vendor/fzy
    and [qsort] are parameters. *)

From Stdlib Require Import String.
From stdpp Require Import strings sorting.
From S2P Require Import Prelude CString AgentLayers TokenCache.

(** ** What the matching relies on *)

(** [match] of vendor/fzy: the place of its score among the doubles. *)
Class FuzzyScore := match_score : cstr -> cstr -> Z.

Class Qsort := qsort : forall {A : Type}, (A -> A -> Z) -> list A -> list A.

(** [qsort] permutes its array, and sorts it when the comparison is an order. *)
Class QsortSpec `{Qsort} : Prop := {
  qsort_permutes : forall A (compar : A -> A -> Z) l, qsort compar l ≡ₚ l;
  qsort_sorts : forall A (compar : A -> A -> Z) l,
    (forall x y, (0 < compar x y <-> compar y x < 0)%Z) ->
    (forall x y z, (compar x y <= 0 -> compar y z <= 0 -> compar x z <= 0)%Z) ->
    StronglySorted (fun x y => (compar x y <= 0)%Z) (qsort compar l)
}.

(** tolower and toupper in the C locale. *)
Definition tolower (c : Z) : Z := if (65 <=? c)%Z && (c <=? 90)%Z then (c + 32)%Z else c.
Definition toupper (c : Z) : Z := if (97 <=? c)%Z && (c <=? 122)%Z then (c - 32)%Z else c.

(** "strncasecmp(a, b, n) == 0" *)
Fixpoint strncasecmp_eq (a b : cstr) (n : nat) : bool :=
  match n with
  | 0 => true
  | S n =>
      match a, b with
      | [], [] => true
      | x :: a, y :: b => (tolower x =? tolower y)%Z && strncasecmp_eq a b n
      | _, _ => false
      end
  end.

Section completion.
Context `{FuzzyScore} `{Qsort}.

(** ** vendor/fzy/match.c: has_match *)

(** What follows the first of the two characters in [s]. *)
Fixpoint strcasechr (s : cstr) (c : Z) : option cstr :=
  match s with
  | [] => None
  | b :: s => if (b =? c)%Z || (b =? toupper c)%Z then Some s else strcasechr s c
  end.

Fixpoint has_match (needle haystack : cstr) : bool :=
  match needle with
  | [] => true
  | nch :: needle =>
      match strcasechr haystack nch with None => false | Some rest => has_match needle rest end
  end.

(** ** fzy_wrapper.c *)

Record scored_index := mk_scored { cand_index : nat; cand_score : Z }.

Definition compare_scores (sa sb : scored_index) : Z :=
  if (cand_score sa <? cand_score sb)%Z then 1
  else if (cand_score sb <? cand_score sa)%Z then -1
  else 0.

(** The scored candidates, from the [i]-th on. *)
Fixpoint score_candidates (cands : list cstr) (i : nat) (search : cstr) : list scored_index :=
  match cands with
  | [] => []
  | c :: cands =>
      let rest := score_candidates cands (S i) search in
      if negb (strncasecmp_eq c search (length search)) then rest
      else if has_match search c then mk_scored i (match_score search c) :: rest
      else rest
  end.

(** The candidates of the results; None for NULL. *)
Definition ik_fzy_filter (cands : list cstr) (search : cstr) (max_results : nat) : option (list cstr) :=
  match cands with
  | [] => None
  | _ =>
      match score_candidates cands 0 search with
      | [] => None
      | scored =>
          Some ((fun s => default [] (cands !! cand_index s)) <$> take max_results (qsort compare_scores scored))
      end
  end.

(** ** completion.c *)

Definition MAX_COMPLETIONS : nat := 15.

Record completion_context := mk_context {
  comp_candidates : list cstr;
  comp_current : nat;
  prefix : cstr;
  original_input : option cstr
}.

(** The fields that the completion layer draws. *)
Definition shown_completion (c : completion_context) : ik_completion :=
  mk_completion (comp_candidates c) (comp_current c).

(** ik_cmd_get_all: the names of the registered commands. *)
Definition command_names : list cstr :=
  lit <$> ["clear"; "mark"; "rewind"; "fork"; "kill"; "send"; "wait"; "reap"; "agents"; "help"; "model"; "system";
           "tool"; "refresh"; "pin"; "unpin"; "toolset"; "exit"]%string.

Definition provide_model_args : list cstr :=
  lit <$> ["claude-haiku-4-5"; "claude-sonnet-4-5"; "claude-opus-4-5"; "gpt-4"; "gpt-4-turbo"; "gpt-4o"; "gpt-4o-mini";
           "gpt-5"; "gpt-5-mini"; "gpt-5-nano"; "gpt-5-pro"; "gpt-5.1"; "gpt-5.1-chat-latest"; "gpt-5.1-codex";
           "gpt-5.2"; "gpt-5.2-chat-latest"; "gpt-5.2-codex"; "o1"; "o1-mini"; "o1-preview"; "o3"; "o3-mini";
           "gemini-2.5-pro"; "gemini-2.5-flash"; "gemini-2.5-flash-lite"; "gemini-3-flash-preview";
           "gemini-3-pro-preview"; "gemini-3.1-pro-preview"]%string.

Definition provide_thinking_args : list cstr := lit <$> ["min"; "low"; "med"; "high"]%string.
Definition provide_debug_args : list cstr := lit <$> ["off"; "on"]%string.

(** The labels of the agent's marks. *)
Definition provide_rewind_args (marks : list ik_mark) : list cstr := omap label marks.

(** The first word's candidates: a context for the results, None for NULL. *)
Definition context_of (results : option (list cstr)) (prefix : cstr) : option completion_context :=
  match results with
  | None | Some [] => None
  | Some cands => Some (mk_context cands 0 prefix None)
  end.

Definition ik_completion_create_for_commands (prefix : cstr) : outcome (option completion_context) :=
  assert! (default 0 (head prefix) =? 47)%Z in
  Ret (context_of (ik_fzy_filter command_names (drop 1 prefix) MAX_COMPLETIONS) prefix).

(** The candidates of a command's argument and what they have to begin with;
    None when the command has no completion. *)
Definition argument_provider (marks : list ik_mark) (cmd_name arg_prefix : cstr) : option (list cstr * cstr) :=
  if strcmp_eq cmd_name (lit "model") then
    match strchr arg_prefix 47 with
    | Some slash => Some (provide_thinking_args, drop (S slash) arg_prefix)
    | None => Some (provide_model_args, arg_prefix)
    end
  else if strcmp_eq cmd_name (lit "debug") then Some (provide_debug_args, arg_prefix)
  else if strcmp_eq cmd_name (lit "rewind") then Some (provide_rewind_args marks, arg_prefix)
  else None.

(** A space at the start would make the length of the name -1; the callers'
    input begins with a slash. *)
Definition ik_completion_create_for_arguments (marks : list ik_mark) (input : cstr)
  : outcome (option completion_context) :=
  match strchr input 32 with
  | None => Ret None
  | Some 0 => Undef
  | Some (S cmd_len) =>
      if (cmd_len =? 0)%nat then Ret None
      else
        let cmd_name := take cmd_len (drop 1 input) in
        match argument_provider marks cmd_name (drop (S (S cmd_len)) input) with
        | None => Ret None
        | Some (args, arg_prefix) =>
            if (length args =? 0)%nat then Ret None
            else Ret (context_of (ik_fzy_filter args arg_prefix MAX_COMPLETIONS) input)
        end
  end.

Definition ik_completion_get_current (comp : completion_context) : outcome (option cstr) :=
  if (length (comp_candidates comp) =? 0)%nat then Ret None
  else
    match comp_candidates comp !! comp_current comp with
    | Some c => Ret (Some c)
    | None => Undef
    end.

Definition set_current (i : nat) (comp : completion_context) : completion_context :=
  mk_context (comp_candidates comp) i (prefix comp) (original_input comp).

Definition ik_completion_next (comp : completion_context) : outcome completion_context :=
  assert! (0 <? length (comp_candidates comp))%nat in
  Ret (set_current ((comp_current comp + 1) `mod` length (comp_candidates comp)) comp).

Definition ik_completion_prev (comp : completion_context) : outcome completion_context :=
  assert! (0 <? length (comp_candidates comp))%nat in
  Ret (set_current (if (comp_current comp =? 0)%nat then length (comp_candidates comp) - 1
                    else comp_current comp - 1) comp).

End completion.

(** ** Matching *)

Section matching.
Context `{FuzzyScore} `{Qsort} `{!QsortSpec}.

(** A candidate that the search finds. *)
Definition found (search c : cstr) : bool := strncasecmp_eq c search (length search) && has_match search c.

(** The best of [cands] that the search finds, best first: no more than
    [max], all found, and no better one is left out. *)
Record ranked (cands : list cstr) (search : cstr) (max : nat) (l : list cstr) : Prop := {
  rk_found : Forall (fun c => c ∈ cands /\ found search c = true) l;
  rk_sorted : StronglySorted (fun a b => (match_score search b <= match_score search a)%Z) l;
  rk_best : forall c, c ∈ cands -> found search c = true ->
    c ∈ l \/ Forall (fun b => (match_score search c <= match_score search b)%Z) l;
  rk_length : length l = Nat.min max (length (filter (fun c => found search c = true) cands))
}.

Lemma compare_scores_le a b : (compare_scores a b <= 0 <-> cand_score b <= cand_score a)%Z.
Proof. unfold compare_scores. destruct_ifs; lia. Qed.

(** The candidate of a result. *)
Definition named (cands : list cstr) (s : scored_index) : cstr := default [] (cands !! cand_index s).

Lemma score_candidates_named cands pre search :
  named (pre ++ cands) <$> score_candidates cands (length pre) search
    = filter (fun c => found search c = true) cands /\
  Forall (fun s => cand_score s = match_score search (named (pre ++ cands) s))
    (score_candidates cands (length pre) search).
Proof.
  revert pre. induction cands as [|c cands IH]; intros pre; [done|].
  specialize (IH (pre ++ [c])). rewrite length_app, <- app_assoc in IH. cbn [length app] in IH.
  replace (length pre + 1) with (S (length pre)) in IH by lia. destruct IH as [IH1 IH2].
  assert (default [] ((pre ++ c :: cands) !! length pre) = c) as Ec by by rewrite list_lookup_middle.
  cbn [score_candidates]. destruct (found search c) eqn:Ef; pose proof Ef as Ef'; unfold found in Ef'.
  2: { rewrite filter_cons_False by (by rewrite Ef).
       destruct (strncasecmp_eq c search (length search)); cbn [negb andb] in *; [|done].
       by rewrite Ef'. }
  rewrite filter_cons_True by done. apply andb_true_iff in Ef' as [-> ->]. cbn [negb]. cbn [fmap list_fmap]. split.
  - f_equal; [exact Ec|exact IH1].
  - constructor; [|exact IH2]. cbn [cand_score]. unfold named. cbn [cand_index]. by rewrite Ec.
Qed.

Lemma ranked_take cands search max l :
  l ≡ₚ filter (fun c => found search c = true) cands ->
  StronglySorted (fun a b => (match_score search b <= match_score search a)%Z) l ->
  ranked cands search max (take max l).
Proof.
  intros Hp Hs. constructor.
  - apply Forall_take, Forall_forall. intros c Hc. rewrite Hp, list_elem_of_filter in Hc. naive_solver.
  - rewrite <- (take_drop max l) in Hs. by apply StronglySorted_app_1_l in Hs.
  - intros c Hc Hf. assert (c ∈ l) as Hl by (rewrite Hp, list_elem_of_filter; done).
    rewrite <- (take_drop max l), elem_of_app in Hl. destruct Hl as [|Hd]; [by left|right].
    rewrite <- (take_drop max l) in Hs. apply Forall_forall. intros b Hb.
    exact (StronglySorted_app_1_elem_of _ _ _ _ _ Hs Hb Hd).
  - by rewrite length_take, Hp.
Qed.

Lemma filter_ranked cands search max :
  match ik_fzy_filter cands search max with
  | None => Forall (fun c => found search c = false) cands
  | Some l => ranked cands search max l /\ filter (fun c => found search c = true) cands <> []
  end.
Proof.
  unfold ik_fzy_filter. destruct cands as [|c0 cands']; [done|]. set (cands := c0 :: cands').
  destruct (score_candidates_named cands [] search) as [En Es]. cbn [app length] in En, Es.
  destruct (score_candidates cands 0 search) as [|s0 ss]; [|set (sc := s0 :: ss) in *].
  - apply Forall_forall. intros c Hc. apply not_true_is_false. intros Hf.
    assert (c ∈ @nil cstr) as Hn%elem_of_nil; [|done].
    cbn [fmap list_fmap] in En. rewrite En, list_elem_of_filter. done.
  - split; [|by rewrite <- En]. change (fun s => default [] (cands !! cand_index s)) with (named cands).
    rewrite fmap_take. apply ranked_take.
    + by rewrite qsort_permutes, En.
    + assert (Forall (fun s => cand_score s = match_score search (named cands s)) (qsort compare_scores sc)) as Hq
        by by rewrite qsort_permutes.
      assert (StronglySorted (fun x y => (compare_scores x y <= 0)%Z) (qsort compare_scores sc)) as Hs.
      { apply qsort_sorts.
        - intros x y. unfold compare_scores. destruct_ifs; lia.
        - intros x y z. rewrite !compare_scores_le. lia. }
      clear -Hq Hs. induction Hs as [|x l Hs IH Hx]; cbn [fmap list_fmap]; constructor.
      * apply IH. by inversion Hq.
      * inversion Hq as [|? ? Ex Hl]; subst. apply Forall_fmap. rewrite Forall_forall in Hx, Hl |- *.
        intros b Hb. cbn. rewrite <- Ex, <- (Hl b Hb). by apply compare_scores_le, Hx.
Qed.

(** A context's candidates are the best that the search finds. *)
Lemma context_of_filter cands search prefix :
  match context_of (ik_fzy_filter cands search MAX_COMPLETIONS) prefix with
  | None => Forall (fun c => found search c = false) cands
  | Some comp => exists c l, comp = mk_context (c :: l) 0 prefix None /\ ranked cands search MAX_COMPLETIONS (c :: l)
  end.
Proof.
  pose proof (filter_ranked cands search MAX_COMPLETIONS) as Hf.
  destruct (ik_fzy_filter cands search MAX_COMPLETIONS) as [[|c l]|]; cbn [context_of];
    [|exists c, l; by destruct Hf|done].
  destruct Hf as [Hr Hn]. apply rk_length in Hr. cbn [length] in Hr. unfold MAX_COMPLETIONS in Hr.
  destruct (filter _ cands); [done|]. cbn [length] in Hr. lia.
Qed.

Lemma ranked_best cands search max c l :
  ranked cands search max (c :: l) ->
  c ∈ cands /\ found search c = true /\
  forall c', c' ∈ cands -> found search c' = true -> (match_score search c' <= match_score search c)%Z.
Proof.
  intros [Hf Hs Hb _]. apply Forall_cons in Hf as [[? ?] _]. split_and!; [done|done|].
  intros c' Hc Hc'. destruct (Hb c' Hc Hc') as [Hin|Hall].
  - apply elem_of_cons in Hin as [->|Hin]; [lia|]. inversion Hs as [|? ? _ Hx]; subst.
    rewrite Forall_forall in Hx. by apply Hx.
  - by apply Forall_cons in Hall as [? _].
Qed.

End matching.
