(* ===== verification/KeyActions.v ===== *)
(** * What the keys do (repl_actions.c, repl_actions_completion.c,
    repl_actions_history.c, and the timeout of repl_event_handlers.c)

    An action of the input parser edits the current agent's input, scrolls its
    screen, opens or accepts its completion, or is passed to the handlers of
    the loop (AgentLoop.v) and of the tree of agents (AgentTree.v), which is
    answered as a [loop_call]. *)

From Stdlib Require Import String.
From stdpp Require Import strings sorting.
From S2P Require Import Prelude Slots CString ByteArray Utf8 Unicode Cursor InputBuffer Multiline Layout Scrollback Editor.
From S2P Require Import InputParser ScrollDetector History HistoryFile TokenCache AgentLoop AgentLayers AgentScreen Viewport.
From S2P Require Import Json Frame Editor Completion.

(** The fields of the REPL and its current agent that the actions use; the
    agent's completion is [comp], of which [agent_view] has what is drawn. *)
Record key_session (T : Type) := mk_session {
  scr : screen T;
  comp : option completion_context;
  agent_marks : list ik_mark;
  scroll_det : option ik_scroll_detector;
  history : option ik_history;
  quit : bool
}.
Arguments mk_session {T}. Arguments scr {T}. Arguments comp {T}. Arguments agent_marks {T}.
Arguments scroll_det {T}. Arguments history {T}. Arguments quit {T}.

(** The handler that an action ends in, if it is not one of this file. *)
Inductive loop_call :=
| NewlineAction
| InterruptRequest
| NavPrevSibling
| NavNextSibling
| NavParent
| NavChild.

Definition with_completion (c : option ik_completion) (v : view) : view :=
  mk_view (banner_visible v) (v_scrollback v) (spinner_state v) (separator_visible v) (nav_ctx v)
    (AgentLayers.input_buffer_visible v) (input_text v) c (status_visible v) (model v) (thinking_level v).

Section definitions.
Context {T : Type} `{ByteStore T} `{Utf8proc} `{FuzzyScore} `{Qsort}.
Implicit Types s : key_session T.

Definition set_screen (r : screen T) s : key_session T :=
  mk_session r (comp s) (agent_marks s) (scroll_det s) (history s) (quit s).
Definition set_input (ib : ik_input_buffer T) s : key_session T :=
  set_screen (set_layouts (v_scrollback (agent_view (scr s))) ib (scr s)) s.
Definition set_comp (c : option completion_context) s : key_session T :=
  mk_session (set_view_cake (with_completion (shown_completion <$> c) (agent_view (scr s))) (layer_cake (scr s)) (scr s))
    c (agent_marks s) (scroll_det s) (history s) (quit s).
Definition set_det (d : option ik_scroll_detector) s : key_session T :=
  mk_session (scr s) (comp s) (agent_marks s) d (history s) (quit s).
Definition set_history (h : option ik_history) s : key_session T :=
  mk_session (scr s) (comp s) (agent_marks s) (scroll_det s) h (quit s).
Definition set_quit s : key_session T :=
  mk_session (scr s) (comp s) (agent_marks s) (scroll_det s) (history s) true.

(** "repl->current->viewport_offset = 0" *)
Definition to_bottom s : key_session T := set_screen (set_viewport_offset 0 (scr s)) s.

Definition on_input (f : ik_input_buffer T -> outcome (ik_input_buffer T)) s : outcome (key_session T) :=
  let! ib := f (input_buffer (scr s)) in Ret (set_input ib s).

(** ** Reading the input *)

(** "text_len > 0 && text[0] == '/'" *)
Definition begins_with_slash (ib : ik_input_buffer T) : outcome bool :=
  let '(p, text_len) := ik_input_buffer_get_text ib in
  if (0 <? text_len)%nat then
    let! text := data_of ib in
    match text !! 0 with Some b => Ret (b =? 47)%Z | None => Undef end
  else Ret false.

(** The copy with a NUL at its end, as a string. *)
Definition input_string (ib : ik_input_buffer T) : outcome cstr :=
  let '(p, text_len) := ik_input_buffer_get_text ib in
  let! text := mem_read 0 text_len (default [] p) in
  Ret (until_nul text).

(** talloc_strndup of the text, which gives NULL for NULL. *)
Definition strndup_input (ib : ik_input_buffer T) : outcome cstr :=
  match bs_ptr (text ib) with None => Panic | Some _ => input_string ib end.

(** ** repl_actions_completion.c *)

Definition ik_repl_dismiss_completion s : key_session T :=
  match comp s with Some _ => set_comp None s | None => s end.

Definition set_original (o : option cstr) (c : completion_context) : completion_context :=
  mk_context (comp_candidates c) (comp_current c) (prefix c) o.

Definition ik_repl_update_completion_after_char s : outcome (key_session T) :=
  let! slash := begins_with_slash (input_buffer (scr s)) in
  if slash then
    let original := comp s ≫= original_input in
    let! new_prefix := input_string (input_buffer (scr s)) in
    let! new_comp := ik_completion_create_for_commands new_prefix in
    let s := set_comp new_comp (ik_repl_dismiss_completion s) in
    match new_comp, original with
    | Some c, Some o => Ret (set_comp (Some (set_original (Some o) c)) s)
    | _, _ => Ret s
    end
  else Ret (ik_repl_dismiss_completion s).

Definition build_completion_buffer_text (c : completion_context) (suffix : cstr) : outcome (option cstr) :=
  let! selected := ik_completion_get_current c in
  match selected with
  | None => Ret None
  | Some selected =>
      let original := default (prefix c) (original_input c) in
      Ret (Some (match strchr original 32 with
                 | Some space => take (S space) original ++ selected ++ suffix
                 | None => lit "/" ++ selected ++ suffix
                 end))
  end.

(** Set the text and move the cursor to the end of its line. *)
Definition replace_input (replacement : cstr) s : outcome (key_session T) :=
  let! s := on_input (fun ib => ik_input_buffer_set_text ib replacement) s in
  on_input ik_input_buffer_cursor_to_line_end s.

Definition update_input_with_completion_selection s : outcome (key_session T) :=
  match comp s with
  | None => Panic
  | Some c =>
      let! replacement := build_completion_buffer_text c [] in
      match replacement with
      | None => Ret s
      | Some replacement => replace_input replacement s
      end
  end.

Definition ik_repl_handle_completion_space_commit s : outcome (key_session T) :=
  match comp s with
  | None => Ret s
  | Some c =>
      let! replacement := build_completion_buffer_text c (lit " ") in
      let s := ik_repl_dismiss_completion s in
      match replacement with
      | None => Ret s
      | Some replacement => replace_input replacement s
      end
  end.

(** Take the selection and close the completion. *)
Definition accept_selection s : outcome (key_session T) :=
  let! s := update_input_with_completion_selection s in Ret (ik_repl_dismiss_completion s).

Definition ik_repl_handle_tab_action s : outcome (key_session T) :=
  match comp s with
  | Some c =>
      let! c :=
        match original_input c with
        | Some _ => Ret c
        | None =>
            let! original := strndup_input (input_buffer (scr s)) in
            Ret (set_original (Some original) c)
        end in
      let! c := ik_completion_next c in
      accept_selection (set_comp (Some c) s)
  | None =>
      let! slash := begins_with_slash (input_buffer (scr s)) in
      if negb slash then Ret s
      else
        let! prefix := input_string (input_buffer (scr s)) in
        let! new_comp :=
          match strchr prefix 32 with
          | Some _ => ik_completion_create_for_arguments (agent_marks s) prefix
          | None => ik_completion_create_for_commands prefix
          end in
        match new_comp with
        | None => Ret s
        | Some c => accept_selection (set_comp (Some (set_original (Some prefix) c)) s)
        end
  end.

(** ** repl_actions_history.c *)

Definition ik_repl_handle_arrow_up_action s : outcome (key_session T) :=
  if (0 <? viewport_offset (scr s))%nat then
    let! r := ik_repl_handle_scroll_up_action (scr s) in Ret (set_screen r s)
  else
    match comp s with
    | Some c => let! c := ik_completion_prev c in Ret (set_comp (Some c) s)
    | None => on_input ik_input_buffer_cursor_up s
    end.

Definition ik_repl_handle_arrow_down_action s : outcome (key_session T) :=
  if (0 <? viewport_offset (scr s))%nat then
    Ret (set_screen (ik_repl_handle_scroll_down_action (scr s)) s)
  else
    match comp s with
    | Some c => let! c := ik_completion_next c in Ret (set_comp (Some c) s)
    | None => on_input ik_input_buffer_cursor_down s
    end.

(** The bytes of a history entry. *)
Definition entry_bytes (e : string) : cstr := lit e.

Definition load_history_entry_ (entry : string) s : outcome (key_session T) :=
  on_input (fun ib => ik_input_buffer_set_text ib (entry_bytes entry)) s.

(** Kept for a later search; no key calls them now. *)
Definition ik_repl_handle_history_prev_action s : outcome (key_session T) :=
  match history s with
  | None => Ret s
  | Some h =>
      let! (h, entry) :=
        if negb (ik_history_is_browsing h) then
          let! pending := input_string (input_buffer (scr s)) in
          let h := ik_history_start_browsing h (text_string pending) in
          let! entry := ik_history_get_current h in Ret (h, entry)
        else ik_history_prev h in
      let s := set_history (Some h) s in
      match entry with None => Ret s | Some entry => load_history_entry_ entry s end
  end.

Definition ik_repl_handle_history_next_action s : outcome (key_session T) :=
  match history s with
  | None => Ret s
  | Some h =>
      if negb (ik_history_is_browsing h) then Ret s
      else
        let! (h, entry) := ik_history_next h in
        let s := set_history (Some h) s in
        match entry with None => Ret s | Some entry => load_history_entry_ entry s end
  end.

(** ** repl_actions.c *)

(** The session and whether the arrow was handled or kept back. *)
Definition ik_repl_process_scroll_detection s (action : ik_input_action) (now_ms : Z)
  : outcome (key_session T * bool) :=
  match scroll_det s with
  | None => Ret (s, false)
  | Some det =>
      let! (det, result) := ik_scroll_detector_process_arrow det action now_ms in
      let s := set_det (Some det) s in
      match result with
      | IK_SCROLL_RESULT_SCROLL_UP =>
          let! r := ik_repl_handle_scroll_up_action (scr s) in Ret (set_screen r s, false)
      | IK_SCROLL_RESULT_SCROLL_DOWN =>
          Ret (set_screen (ik_repl_handle_scroll_down_action (scr s)) s, false)
      | IK_SCROLL_RESULT_ARROW_UP | IK_SCROLL_RESULT_ARROW_DOWN => Ret (s, false)
      | IK_SCROLL_RESULT_NONE | IK_SCROLL_RESULT_ABSORBED => Ret (s, true)
      end
  end.

(** An arrow that the detector gives back is handled; nothing else is. *)
Definition handle_given_back (result : ik_scroll_result) s : outcome (key_session T) :=
  match result with
  | IK_SCROLL_RESULT_ARROW_UP => ik_repl_handle_arrow_up_action s
  | IK_SCROLL_RESULT_ARROW_DOWN => ik_repl_handle_arrow_down_action s
  | _ => Ret s
  end.

Definition ik_repl_flush_pending_scroll_arrow s : outcome (key_session T) :=
  match scroll_det s with
  | None => Ret s
  | Some det =>
      let '(det, flush_result) := ik_scroll_detector_flush det in
      handle_given_back flush_result (set_det (Some det) s)
  end.

Definition ik_repl_handle_escape_action s : outcome (key_session T * option loop_call) :=
  match agent_state (scr s) with
  | IK_AGENT_STATE_WAITING_FOR_LLM | IK_AGENT_STATE_EXECUTING_TOOL => Ret (s, Some InterruptRequest)
  | IK_AGENT_STATE_IDLE =>
      let! s :=
        match comp s ≫= original_input with
        | Some original => on_input (fun ib => ik_input_buffer_set_text ib original) s
        | None => Ret s
        end in
      Ret (ik_repl_dismiss_completion s, None)
  end.

Definition is_arrow (action : ik_input_action) : bool :=
  bool_decide (action = IK_INPUT_ARROW_UP) || bool_decide (action = IK_INPUT_ARROW_DOWN).

Definition done (m : outcome (key_session T)) : outcome (key_session T * option loop_call) :=
  let! s := m in Ret (s, None).

(** The switch over the action's type. *)
Definition dispatch_action (action : ik_input_action) s : outcome (key_session T * option loop_call) :=
  match action with
  | IK_INPUT_CHAR codepoint =>
      if (codepoint =? 32)%Z && bool_decide (comp s <> None) then done (ik_repl_handle_completion_space_commit s)
      else
        let s := match history s with
                 | Some h => if ik_history_is_browsing h then set_history (Some (ik_history_stop_browsing h)) s else s
                 | None => s
                 end in
        done (let! s := on_input (fun ib => ik_input_buffer_insert_codepoint ib codepoint) (to_bottom s) in
              ik_repl_update_completion_after_char s)
  | IK_INPUT_INSERT_NEWLINE => done (on_input ik_input_buffer_insert_newline (to_bottom s))
  | IK_INPUT_NEWLINE => Ret (s, Some NewlineAction)
  | IK_INPUT_BACKSPACE =>
      done (let! s := on_input ik_input_buffer_backspace (to_bottom s) in ik_repl_update_completion_after_char s)
  | IK_INPUT_DELETE => done (on_input ik_input_buffer_delete (to_bottom s))
  | IK_INPUT_ARROW_LEFT => done (on_input ik_input_buffer_cursor_left (to_bottom (ik_repl_dismiss_completion s)))
  | IK_INPUT_ARROW_RIGHT => done (on_input ik_input_buffer_cursor_right (to_bottom (ik_repl_dismiss_completion s)))
  | IK_INPUT_ARROW_UP => done (ik_repl_handle_arrow_up_action s)
  | IK_INPUT_ARROW_DOWN => done (ik_repl_handle_arrow_down_action s)
  | IK_INPUT_PAGE_UP => let! r := ik_repl_handle_page_up_action (scr s) in Ret (set_screen r s, None)
  | IK_INPUT_PAGE_DOWN => Ret (set_screen (ik_repl_handle_page_down_action (scr s)) s, None)
  | IK_INPUT_SCROLL_UP => let! r := ik_repl_handle_scroll_up_action (scr s) in Ret (set_screen r s, None)
  | IK_INPUT_SCROLL_DOWN => Ret (set_screen (ik_repl_handle_scroll_down_action (scr s)) s, None)
  | IK_INPUT_CTRL_A => done (on_input ik_input_buffer_cursor_to_line_start (to_bottom s))
  | IK_INPUT_CTRL_E => done (on_input ik_input_buffer_cursor_to_line_end (to_bottom s))
  | IK_INPUT_CTRL_K => done (on_input ik_input_buffer_kill_to_line_end (to_bottom s))
  | IK_INPUT_CTRL_N | IK_INPUT_CTRL_P => Ret (s, None)
  | IK_INPUT_CTRL_U => done (on_input ik_input_buffer_kill_line (to_bottom s))
  | IK_INPUT_CTRL_W => done (on_input ik_input_buffer_delete_word_backward (to_bottom s))
  | IK_INPUT_CTRL_C => Ret (set_quit s, Some InterruptRequest)
  | IK_INPUT_TAB => done (ik_repl_handle_tab_action s)
  | IK_INPUT_ESCAPE => ik_repl_handle_escape_action s
  | IK_INPUT_NAV_PREV_SIBLING => Ret (s, Some NavPrevSibling)
  | IK_INPUT_NAV_NEXT_SIBLING => Ret (s, Some NavNextSibling)
  | IK_INPUT_NAV_PARENT => Ret (s, Some NavParent)
  | IK_INPUT_NAV_CHILD => Ret (s, Some NavChild)
  | IK_INPUT_UNKNOWN => Ret (s, None)
  end.

Definition ik_repl_process_action s (action : ik_input_action) (now_ms : Z)
  : outcome (key_session T * option loop_call) :=
  let! (s, handled) :=
    if is_arrow action then ik_repl_process_scroll_detection s action now_ms else Ret (s, false) in
  if handled then Ret (s, None)
  else
    let! s := if negb (is_arrow action) && negb (bool_decide (action = IK_INPUT_UNKNOWN))
              then ik_repl_flush_pending_scroll_arrow s else Ret s in
    dispatch_action action s.

(** ** repl_event_handlers.c: the timeout *)

Definition ik_repl_handle_select_timeout s (now_ms : Z) : outcome (key_session T) :=
  match scroll_det s with
  | None => Ret s
  | Some det =>
      let '(det, timeout_result) := ik_scroll_detector_check_timeout det now_ms in
      handle_given_back timeout_result (set_det (Some det) s)
  end.

(** Keys and timeouts, until a handler of the loop is called. *)
Inductive key_event :=
| Key (action : ik_input_action) (now_ms : Z)
| SelectTimeout (now_ms : Z).

Definition key_event_step s (e : key_event) : outcome (key_session T * option loop_call) :=
  match e with
  | Key action now_ms => ik_repl_process_action s action now_ms
  | SelectTimeout now_ms => done (ik_repl_handle_select_timeout s now_ms)
  end.

Fixpoint run_keys s (es : list key_event) : outcome (key_session T * option loop_call) :=
  match es with
  | [] => Ret (s, None)
  | e :: es =>
      let! (s, call) := key_event_step s e in
      match call with Some _ => Ret (s, call) | None => run_keys s es end
  end.

End definitions.

(** ** Text *)

Section text.
Implicit Types cps : list Z.

Lemma text_of_absent cps b : Forall scalar cps -> (0 <= b < 128)%Z -> b ∉ cps -> b ∉ text_of cps.
Proof. intros Hs Hb Hn Hin. by apply Hn, text_of_ascii. Qed.

Lemma strchr_some (s : cstr) b k : strchr s b = Some k -> b ∈ s.
Proof.
  revert k. induction s as [|c s IH]; intros k; cbn [strchr]; [done|].
  destruct (Z.eqb_spec c b) as [->|]; [by constructor|]. destruct (strchr s b) as [j|]; [|done].
  intros _. right. by eapply IH.
Qed.

Lemma text_of_split p b q :
  (0 <= b < 128)%Z -> text_of (p ++ b :: q) = text_of p ++ b :: text_of q.
Proof.
  intros Hb. rewrite text_of_app, text_of_cons. unfold encode_utf8. rewrite (proj2 (Z.leb_le _ _)) by lia.
  unfold uint8. by rewrite Z.mod_small by lia.
Qed.

Lemma strchr_text cps b k :
  Forall scalar cps -> (0 <= b < 128)%Z -> strchr (text_of cps) b = Some k ->
  exists p q, cps = p ++ b :: q /\ b ∉ p /\ k = length (text_of p).
Proof.
  intros Hs Hb Hk. pose proof (strchr_some _ _ _ Hk) as Hin. apply text_of_ascii in Hin; [|done..].
  apply list_elem_of_split_l in Hin as (p & q & -> & Hp). exists p, q. split_and!; [done|done|].
  rewrite text_of_split, strchr_app in Hk by (done || (apply text_of_absent; [|done..]; by apply Forall_app in Hs as [? _])).
  by injection Hk.
Qed.

(** The text as a C string ends before the first NUL. *)
Lemma until_nul_text cps : Forall scalar cps -> until_nul (text_of cps) = text_of (until_nul cps).
Proof.
  intros Hs. destruct (decide (0%Z ∈ cps)) as [Hin|Hn].
  - apply list_elem_of_split_l in Hin as (p & q & -> & Hp).
    assert (forall a r, (0%Z ∉ a) -> until_nul (a ++ 0%Z :: r) = a) as Hcut.
    { induction a as [|x a IH]; intros r Hx; [done|]. apply not_elem_of_cons in Hx as [Hx Ha].
      cbn [app until_nul]. destruct (Z.eqb_spec x 0); [congruence|]. by rewrite IH. }
    rewrite text_of_split, Hcut, Hcut by (done || lia || (apply text_of_absent; [|done..]; by apply Forall_app in Hs as [? _])).
    done.
  - rewrite !until_nul_id; [done|done|by apply text_of_absent].
Qed.

Lemma until_nul_prefix (s : cstr) : exists r, s = until_nul s ++ r.
Proof.
  induction s as [|x s [r IH]]; [by exists []|]. cbn [until_nul].
  destruct (x =? 0)%Z; [by eexists|]. exists r. cbn [app]. by rewrite <- IH.
Qed.

Lemma until_nul_scalar cps : Forall scalar cps -> Forall scalar (until_nul cps).
Proof. intros Hs. destruct (until_nul_prefix cps) as [r E]. rewrite E in Hs. by apply Forall_app in Hs as [? _]. Qed.

Lemma until_nul_length (s : cstr) : length (until_nul s) <= length s.
Proof. destruct (until_nul_prefix s) as [r E]. rewrite E at 2. rewrite length_app. lia. Qed.
End text.

(** What a completion puts in place of [original]. *)
Definition completed (original selected suffix : cstr) : cstr :=
  match strchr original 32 with
  | Some space => take (S space) original ++ selected ++ suffix
  | None => lit "/" ++ selected ++ suffix
  end.

Lemma utf8_app a b : is_utf8 a -> is_utf8 b -> is_utf8 (a ++ b).
Proof.
  intros (x & Hx & ->) (y & Hy & ->). exists (x ++ y). split; [by apply Forall_app|]. by rewrite text_of_app.
Qed.

Lemma completed_utf8 original selected suffix :
  is_utf8 original -> is_utf8 selected -> is_utf8 suffix -> is_utf8 (completed original selected suffix).
Proof.
  intros (o & Ho & ->) Hs Hx. unfold completed. destruct (strchr (text_of o) 32) as [k|] eqn:E.
  - apply strchr_text in E as (p & q & -> & _ & ->); [|done|lia].
    apply utf8_app; [|by apply utf8_app]. exists (p ++ [32%Z]).
    assert (text_of (p ++ 32%Z :: q) = text_of (p ++ [32%Z]) ++ text_of q) as ->
      by by rewrite <- text_of_app, <- app_assoc.
    assert (length (text_of (p ++ [32%Z])) = S (length (text_of p))) as <-
      by (rewrite text_of_app, length_app; change (length (text_of [32%Z])) with 1; lia).
    rewrite take_app_length. split; [|done]. apply Forall_app in Ho as [? Ho]. apply Forall_cons in Ho as [? _].
    apply Forall_app. split; [done|by constructor].
  - apply utf8_app; [by exists [47%Z]; split; [by constructor|]|by apply utf8_app].
Qed.

Lemma completed_nonempty original selected suffix : completed original selected suffix <> [].
Proof.
  unfold completed. destruct (strchr original 32) eqn:E; [|by change (lit "/") with [47%Z]].
  destruct original; [done|]. done.
Qed.

Lemma completed_length original selected suffix :
  length (completed original selected suffix) <= S (length original) + length selected + length suffix.
Proof.
  unfold completed. destruct (strchr original 32); rewrite !length_app; [rewrite length_take; lia|].
  change (length (lit "/")) with 1. lia.
Qed.

(** ** The input's data pointer *)

Section pointer.
Context {T : Type} `{!ByteStore T} `{!Utf8proc}.
Implicit Types ib : ik_input_buffer T.

Definition has_data ib : Prop := bs_ptr (text ib) <> None.

Lemma sync_cursor_data n ib ib' : sync_cursor n ib = Ret ib' -> has_data ib'.
Proof.
  unfold sync_cursor, has_data. destruct (ik_input_buffer_get_text ib) as [p len] eqn:Eg.
  unfold ik_input_buffer_get_text in Eg. injection Eg as <- <-.
  intros (c & Hc & [= <-])%obind_Ret_inv. unfold ik_input_buffer_cursor_set_position in Hc.
  cbn [set_cursor text]. by destruct (bs_ptr (text ib)).
Qed.

(** One step of the inversion of a run. *)
Ltac run_step :=
  match goal with
  | Hx : obind _ _ = Ret _ |- _ => apply obind_Ret_inv in Hx as (? & ? & Hx)
  | Hx : (if ?b then _ else _) = Ret _ |- _ => destruct b
  | Hx : (let '(_, _) := ?p in _) = Ret _ |- _ => destruct p
  | Hx : match ?p with Some _ => _ | None => _ end = Ret _ |- _ => destruct p
  | Hx : Ret _ = Ret _ |- _ => injection Hx as <-
  | Hx : sync_cursor _ _ = Ret _ |- _ => apply sync_cursor_data in Hx
  end.

Definition keeps_data (op : edit_op) : Prop :=
  match op with Clear | SetText _ => False | _ => True end.

Lemma run_edit_data op ib ib' : run_edit op ib = Ret ib' -> keeps_data op -> has_data ib -> has_data ib'.
Proof.
  intros Hrun Hop Hd. destruct op; cbn [run_edit keeps_data] in *; try done;
    unfold ik_input_buffer_insert_codepoint, ik_input_buffer_insert_newline, ik_input_buffer_backspace,
      ik_input_buffer_delete, ik_input_buffer_cursor_left, ik_input_buffer_cursor_right, ik_input_buffer_cursor_up,
      ik_input_buffer_cursor_down, ik_input_buffer_cursor_to_line_start, ik_input_buffer_cursor_to_line_end,
      ik_input_buffer_kill_to_line_end, ik_input_buffer_kill_line, ik_input_buffer_delete_word_backward,
      ik_input_buffer_ensure_layout, goto_offset, goto_column in Hrun;
    repeat run_step; try done.
  all: unfold has_data in *; cbn [set_cursor set_offset text]; by destruct (_ =? 0)%nat.
Qed.
End pointer.

(** ** Sessions *)

Section sessions.
Context {T : Type} `{!ByteStore T} `{!ByteStoreLaws T} `{!Utf8proc} `{!Utf8procSpec}.
Context `{!Allocator} `{!AllocatorSpec} `{!SlotAllocator} `{!SlotAllocatorSpec}.
Context `{!FuzzyScore} `{!Qsort} `{!QsortSpec}.
Implicit Types s : key_session T.
#[local] Opaque command_names.

(** A completion that stays open lists commands for a text without a space;
    what was typed before it is not kept. *)
Record menu_ok (c : completion_context) : Prop := {
  mn_current : comp_current c < length (comp_candidates c);
  mn_original : original_input c = None;
  mn_commands : Forall (fun n => n ∈ command_names) (comp_candidates c);
  mn_prefix : strchr (prefix c) 32 = None
}.

(** The longest candidate for which there is room. *)
Definition CANDIDATE_MAX : nat := 1000.

Definition labels_ok (marks : list ik_mark) : Prop :=
  Forall (fun l => is_utf8 l /\ length l <= CANDIDATE_MAX) (omap label marks).

(** The input is the document [d], the scrollback has the texts [cpss]. *)
Record session_ok s (cpss : list (list Z)) (d : doc) : Prop := {
  se_screen : screen_ok (scr s) cpss (before d) (after d);
  se_column : target_column (input_buffer (scr s)) = column d;
  se_view : completion (agent_view (scr s)) = shown_completion <$> comp s;
  se_menu : forall c, comp s = Some c -> menu_ok c /\ has_data (input_buffer (scr s));
  se_labels : labels_ok (agent_marks s)
}.

Lemma session_edited s cpss d : session_ok s cpss d -> edited (input_buffer (scr s)) d.
Proof. intros [[] ? _ _ _]. by split_and!. Qed.

(** *** Changes that keep the document *)

Lemma ok_history s cpss d h : session_ok s cpss d -> session_ok (set_history h s) cpss d.
Proof. intros []. by constructor. Qed.

Lemma ok_det s cpss d det : session_ok s cpss d -> session_ok (set_det det s) cpss d.
Proof. intros []. by constructor. Qed.

Lemma ok_quit s cpss d : session_ok s cpss d -> session_ok (set_quit s) cpss d.
Proof. intros []. by constructor. Qed.

Lemma ok_bottom s cpss d : session_ok s cpss d -> session_ok (to_bottom s) cpss d.
Proof. intros [[] ? ? ? ?]. constructor; [by constructor|done..]. Qed.

Lemma ok_comp s cpss d c :
  session_ok s cpss d -> (forall x, c = Some x -> menu_ok x /\ has_data (input_buffer (scr s))) ->
  session_ok (set_comp c s) cpss d.
Proof. intros [[] ? ? ? ?] Hc. constructor; [by constructor|done..]. Qed.

Lemma ok_dismiss s cpss d : session_ok s cpss d -> session_ok (ik_repl_dismiss_completion s) cpss d.
Proof. intros Hs. unfold ik_repl_dismiss_completion. destruct (comp s); [|done]. by apply ok_comp. Qed.

Lemma dismissed s : comp (ik_repl_dismiss_completion s) = None.
Proof. unfold ik_repl_dismiss_completion. by destruct (comp s) eqn:E. Qed.

(** *** Edits *)

Lemma ok_input s cpss d ib d' :
  session_ok s cpss d -> edited ib d' -> (comp s <> None -> has_data ib) -> session_ok (set_input ib s) cpss d'.
Proof.
  intros [[] ? Hv Hm ?] (Hr & Ht & Hl) Hd. constructor; [by constructor|done| | |done].
  - cbn [set_input set_screen scr set_layouts agent_view with_scrollback completion]. done.
  - intros c Hc. destruct (Hm c Hc) as [? _]. split; [done|]. apply Hd.
    change (comp s = Some c) in Hc. by rewrite Hc.
Qed.

Lemma on_edit op s cpss d :
  session_ok s cpss d -> op_valid op -> keeps_data op ->
  (Z.of_nat (length (doc_bytes d) + op_growth op) < 2 ^ 62)%Z ->
  exists ib, on_input (run_edit op) s = Ret (set_input ib s) /\ session_ok (set_input ib s) cpss (edit op d) /\
    length (doc_bytes (edit op d)) <= length (doc_bytes d) + op_growth op.
Proof.
  intros Hs Hop Hk Hb.
  destruct (step_edit op _ d (session_edited _ _ _ Hs) Hop Hb) as (ib & Hrun & He & Hl).
  exists ib. unfold on_input. rewrite Hrun. cbn [obind]. split_and!; [done| |done].
  apply (ok_input s cpss d); [done|done|]. intros Hc. destruct (comp s) as [c|] eqn:E; [|done].
  destruct (se_menu _ _ _ Hs c E) as [_ Hd]. by eapply run_edit_data.
Qed.

(** The text is replaced and the cursor put at the end of its first line. *)
Definition replaced (cps : list Z) : doc := edit ToLineEnd (mk_doc [] cps 0).

Lemma replaced_bytes cps : doc_bytes (replaced cps) = text_of cps.
Proof.
  unfold replaced, doc_bytes. cbn [edit after before].
  destruct (first_line cps) as [m b] eqn:E.
  assert (m ++ b = cps) as Em.
  { clear -E. revert m b E. induction cps as [|c cps IH]; intros m b E; cbn [first_line] in E; [by injection E as <- <-|].
    destruct (c =? newline)%Z; [by injection E as <- <-|]. destruct (first_line cps) as [m' b'].
    injection E as <- <-. cbn [app]. by rewrite (IH _ _ eq_refl). }
  rewrite <- Em. by destruct m.
Qed.

Lemma replace_run s d cps :
  edited (input_buffer (scr s)) d -> Forall scalar cps -> (Z.of_nat (length (text_of cps)) < 2 ^ 62)%Z -> cps <> [] ->
  exists ib1 ib2, replace_input (text_of cps) s = Ret (set_input ib2 (set_input ib1 s)) /\
    edited ib2 (replaced cps) /\ has_data ib2.
Proof.
  intros He Hc Hl Hne. unfold replace_input, on_input.
  destruct (step_set_text _ _ cps He Hc Hl) as (ib1 & Hrun1 & He1 & _). cbn [run_edit] in Hrun1.
  destruct (step_line_end ib1 _ He1) as (ib2 & Hrun2 & He2 & _). cbn [run_edit] in Hrun2.
  exists ib1, ib2. rewrite Hrun1. cbn [obind]. change (input_buffer (scr (set_input ib1 s))) with ib1.
  rewrite Hrun2. split_and!; [done|done|]. apply (run_edit_data ToLineEnd ib1); [done|done|].
  destruct He1 as (Hr & _). unfold has_data. rewrite bs_ptr_some; [done|exact (rep_ok _ _ _ Hr)|].
  rewrite (rep_bytes _ _ _ Hr). by apply text_of_nonempty.
Qed.

(** What an edit leaves alone. *)
Definition unmoved s s' : Prop :=
  agent_marks s' = agent_marks s /\ scroll_det s' = scroll_det s /\ viewport_offset (scr s') = viewport_offset (scr s).

Lemma unmoved_trans s1 s2 s3 : unmoved s1 s2 -> unmoved s2 s3 -> unmoved s1 s3.
Proof. intros (? & ? & ?) (? & ? & ?). split_and!; congruence. Qed.

Lemma unmoved_dismiss s : unmoved s (ik_repl_dismiss_completion s).
Proof. unfold ik_repl_dismiss_completion. by destruct (comp s). Qed.

(** *** Reading the input *)

Lemma begins_with_slash_ok ib d :
  edited ib d -> begins_with_slash ib = Ret (default 0 (head (doc_bytes d)) =? 47)%Z.
Proof.
  intros (Hr & _). unfold begins_with_slash, ik_input_buffer_get_text, data_of, doc_bytes.
  rewrite (rep_size _ _ _ Hr). pose proof (rep_bytes _ _ _ Hr) as Hb.
  destruct (text_of (before d ++ after d)) as [|b bs] eqn:E; [done|]. cbn [length Nat.ltb Nat.leb].
  rewrite bs_ptr_some, Hb by (rewrite ?Hb; done || exact (rep_ok _ _ _ Hr)). done.
Qed.

Lemma input_string_ok ib d : edited ib d -> input_string ib = Ret (until_nul (doc_bytes d)).
Proof.
  intros (Hr & _). unfold input_string, ik_input_buffer_get_text, doc_bytes.
  rewrite (rep_size _ _ _ Hr). pose proof (rep_bytes _ _ _ Hr) as Hb. set (l := text_of _) in *.
  assert (default [] (bs_ptr (text ib)) = l) as ->.
  { destruct (bs_ptr (text ib)) as [x|] eqn:E; cbn [default from_option].
    - rewrite <- Hb. by apply bs_ptr_bytes; [exact (rep_ok _ _ _ Hr)|].
    - destruct l as [|b l']; [done|]. rewrite bs_ptr_some in E; [done|exact (rep_ok _ _ _ Hr)|by rewrite Hb]. }
  rewrite mem_read_ok by lia. cbn [obind]. by rewrite drop_0, firstn_all.
Qed.

Lemma head_until_nul (l : cstr) b : (b =? 0)%Z = false -> default 0%Z (head l) = b -> default 0%Z (head (until_nul l)) = b.
Proof. intros Hb. destruct l as [|x l]; cbn; [done|]. intros ->. by rewrite Hb. Qed.

Lemma utf8_doc s cpss d : session_ok s cpss d -> Forall scalar (before d ++ after d).
Proof. intros Hs. exact (rep_scalar _ _ _ (so_input _ _ _ _ (se_screen _ _ _ Hs))). Qed.

Lemma utf8_input s cpss d : session_ok s cpss d -> is_utf8 (until_nul (doc_bytes d)).
Proof.
  intros Hs. pose proof (utf8_doc _ _ _ Hs) as Hd. exists (until_nul (before d ++ after d)).
  split; [by apply until_nul_scalar|]. unfold doc_bytes. by rewrite until_nul_text.
Qed.

(** *** The list of commands *)

Lemma command_names_fit n : n ∈ command_names -> is_utf8 n /\ length n <= 7 /\ Forall (fun b => tolower b <> 32%Z) n.
Proof.
  intros Hn. assert (Forall (fun n => (forallb (fun b => (0 <=? b) && (b <? 128))%Z n && (length n <=? 7)%nat
    && forallb (fun b => negb (tolower b =? 32)%Z) n) = true) command_names) as Hall by (vm_compute; repeat constructor).
  rewrite Forall_forall in Hall. specialize (Hall n Hn). rewrite !andb_true_iff, !forallb_forall in Hall.
  destruct Hall as [[Ha Hl] Ht]. split_and!.
  - apply ascii_utf8, Forall_forall. intros b Hb. apply list_elem_of_In, Ha in Hb. lia.
  - by apply Nat.leb_le.
  - apply Forall_forall. intros b Hb. apply list_elem_of_In, Ht in Hb. destruct (Z.eqb_spec (tolower b) 32); done.
Qed.

Lemma same_letters (a b : cstr) x : strncasecmp_eq a b (length b) = true -> x ∈ b -> exists y, y ∈ a /\ tolower y = tolower x.
Proof.
  revert b. induction a as [|y a IH]; intros [|z b]; cbn [length strncasecmp_eq]; [by intros _ ?%elem_of_nil|done|by intros _ ?%elem_of_nil|].
  intros [Hy Ha]%andb_true_iff [->|Hx]%elem_of_cons.
  - exists y. split; [constructor|]. by apply Z.eqb_eq.
  - destruct (IH b Ha Hx) as (w & ? & ?). exists w. split; [by right|done].
Qed.

Lemma found_no_space search n : n ∈ command_names -> found search n = true -> (32%Z ∉ search).
Proof.
  intros Hn [Hf _]%andb_true_iff Hin. destruct (same_letters _ _ _ Hf Hin) as (y & Hy & E).
  destruct (command_names_fit n Hn) as (_ & _ & Ht). rewrite Forall_forall in Ht. by apply (Ht y Hy).
Qed.

(** The completion that typing opens: the best commands for a text that begins
    with a slash. *)
Definition menu_for (text : cstr) : option completion_context :=
  if (default 0 (head text) =? 47)%Z
  then context_of (ik_fzy_filter command_names (drop 1 (until_nul text)) MAX_COMPLETIONS) (until_nul text)
  else None.

Lemma create_commands_ok (text : cstr) :
  default 0%Z (head text) = 47%Z -> ik_completion_create_for_commands (until_nul text) = Ret (menu_for text).
Proof.
  intros Hh. unfold ik_completion_create_for_commands, menu_for.
  rewrite (head_until_nul text 47) by done. rewrite Hh, Z.eqb_refl. reflexivity.
Qed.

Lemma menu_for_ok (text : cstr) c : menu_for text = Some c -> menu_ok c.
Proof.
  unfold menu_for. destruct (Z.eqb_spec (default 0%Z (head text)) 47) as [Hh|]; [|done]. intros Hc.
  pose proof (context_of_filter command_names (drop 1 (until_nul text)) (until_nul text)) as Hf.
  rewrite Hc in Hf. destruct Hf as (n & l & -> & Hr).
  assert (Forall (fun n => n ∈ command_names /\ found (drop 1 (until_nul text)) n = true) (n :: l)) as Hall
    by exact (rk_found _ _ _ _ Hr).
  constructor; cbn [comp_current comp_candidates original_input prefix].
  - cbn [length]. lia.
  - done.
  - eapply Forall_impl; [exact Hall|]. by intros ? [? _].
  - apply strchr_none. apply Forall_cons in Hall as [[Hn Hfn] _]. pose proof (found_no_space _ _ Hn Hfn) as Hns.
    destruct text as [|b t]; [done|]. cbn in Hh. subst b. cbn in Hns |- *. rewrite drop_0 in Hns.
    apply not_elem_of_cons. done.
Qed.

Lemma update_ok s cpss d :
  session_ok s cpss d ->
  exists s', ik_repl_update_completion_after_char s = Ret s' /\ session_ok s' cpss d /\
    comp s' = menu_for (doc_bytes d) /\ unmoved s s'.
Proof.
  intros Hs. pose proof (session_edited _ _ _ Hs) as He. unfold ik_repl_update_completion_after_char.
  rewrite (begins_with_slash_ok _ _ He). cbn [obind].
  destruct (Z.eqb_spec (default 0%Z (head (doc_bytes d))) 47) as [Hh|Hh].
  - rewrite (input_string_ok _ _ He). cbn [obind]. rewrite create_commands_ok by done. cbn [obind].
    assert (comp s ≫= original_input = None) as ->.
    { destruct (comp s) as [c|] eqn:E; [|done]. by apply (mn_original _ (proj1 (se_menu _ _ _ Hs c E))). }
    assert (match menu_for (doc_bytes d) with
            | Some c => Ret (set_comp (menu_for (doc_bytes d)) (ik_repl_dismiss_completion s))
            | None => Ret (set_comp (menu_for (doc_bytes d)) (ik_repl_dismiss_completion s)) end
            = Ret (set_comp (menu_for (doc_bytes d)) (ik_repl_dismiss_completion s))) as -> by by destruct (menu_for _).
    eexists. split_and!; [done| |done|exact (unmoved_dismiss s)].
    apply ok_comp; [by apply ok_dismiss|]. intros x Hx. split; [by eapply menu_for_ok|].
    assert (has_data (input_buffer (scr s))) as Hd.
    { destruct He as (Hr & _). unfold has_data. rewrite bs_ptr_some; [done|exact (rep_ok _ _ _ Hr)|].
      rewrite (rep_bytes _ _ _ Hr). unfold doc_bytes in Hh. by destruct (text_of _). }
    unfold ik_repl_dismiss_completion. by destruct (comp s).
  - eexists. split_and!; [done|by apply ok_dismiss| |exact (unmoved_dismiss s)].
    rewrite dismissed. unfold menu_for. by rewrite (proj2 (Z.eqb_neq _ _)).
Qed.

(** *** Accepting a completion *)

Lemma get_current_ok c n :
  comp_candidates c !! comp_current c = Some n -> ik_completion_get_current c = Ret (Some n).
Proof.
  intros Hn. unfold ik_completion_get_current. rewrite Hn. destruct (comp_candidates c); [done|]. done.
Qed.

(** The selection [n] replaces the input, then the completion is closed. *)
Lemma accept_ok s cpss d c n original :
  session_ok s cpss d -> comp_candidates c !! comp_current c = Some n -> original_input c = Some original ->
  is_utf8 n -> is_utf8 original -> (Z.of_nat (S (length original) + length n) < 2 ^ 62)%Z ->
  exists s' cps, accept_selection (set_comp (Some c) s) = Ret s' /\ Forall scalar cps /\
    text_of cps = completed original n [] /\ session_ok s' cpss (replaced cps) /\ comp s' = None /\ unmoved s s'.
Proof.
  intros Hs Hn Ho Hun Huo Hl. unfold accept_selection, update_input_with_completion_selection.
  cbn [set_comp comp]. unfold build_completion_buffer_text. rewrite (get_current_ok _ _ Hn), Ho. cbn [obind default from_option id].
  fold (completed original n []). destruct (completed_utf8 original n []) as (cps & Hc & E); [done|done|by exists []|].
  pose proof (completed_length original n []) as Hcl. rewrite E in Hcl |- *. cbn [length] in Hcl.
  assert (cps <> []) as Hcne.
  { intros ->. by apply (completed_nonempty original n []). }
  destruct (replace_run (set_comp (Some c) s) d cps (session_edited _ _ _ Hs) Hc ltac:(lia) Hcne)
    as (ib1 & ib2 & -> & He & Hd). cbn [obind].
  eexists _, cps. split_and!; [reflexivity|done|done| |done|done].
  change (session_ok (set_input ib2 (set_input ib1 (set_comp None s))) cpss (replaced cps)).
  destruct (session_edited _ _ _ Hs) as (Hr & _).
  destruct Hs as [[] ? ? ? ?], He as (Hr2 & Ht2 & Hl2). constructor; [by constructor|done|done|done|done].
Qed.

(** What is chosen from for a text: the candidates and what they have to begin
    with. *)
Definition tab_choices (marks : list ik_mark) (input : cstr) : option (list cstr * cstr) :=
  if (default 0 (head input) =? 47)%Z then
    match strchr input 32 with
    | None => Some (command_names, drop 1 input)
    | Some space => if (space =? 1)%nat then None
                    else argument_provider marks (take (space - 1) (drop 1 input)) (drop (S space) input)
    end
  else None.

(** The best of the candidates that the search finds. *)
Definition best (args : list cstr) (search n : cstr) : Prop :=
  n ∈ args /\ found search n = true /\
  forall n', n' ∈ args -> found search n' = true -> (match_score search n' <= match_score search n)%Z.

Lemma choices_fit marks input args search n :
  labels_ok marks -> tab_choices marks input = Some (args, search) -> n ∈ args -> is_utf8 n /\ length n <= CANDIDATE_MAX.
Proof.
  intros Hl Hc Hn. unfold CANDIDATE_MAX.
  assert (forall l, Forall (fun n => (forallb (fun b => (0 <=? b) && (b <? 128))%Z n && (length n <=? 1000)%nat) = true) l ->
    n ∈ l -> is_utf8 n /\ length n <= 1000) as Hconst.
  { intros l Hall Hin. rewrite Forall_forall in Hall. specialize (Hall n Hin).
    rewrite andb_true_iff, forallb_forall in Hall. destruct Hall as [Ha Hle]. split; [|by apply Nat.leb_le].
    apply ascii_utf8, Forall_forall. intros b Hb. apply list_elem_of_In, Ha in Hb. lia. }
  unfold tab_choices in Hc. destruct (_ =? 47)%Z; [|done]. destruct (strchr input 32) as [k|]; [destruct (k =? 1)%nat; [done|]|].
  - unfold argument_provider in Hc. destruct (strcmp_eq _ (lit "model")).
    + destruct (strchr _ 47); injection Hc as <- <-; eapply Hconst, Hn; vm_compute; repeat constructor.
    + destruct (strcmp_eq _ (lit "debug")); [injection Hc as <- <-; eapply Hconst, Hn; vm_compute; repeat constructor|].
      destruct (strcmp_eq _ (lit "rewind")); [|done]. injection Hc as <- <-.
      unfold labels_ok in Hl. rewrite Forall_forall in Hl. by apply Hl.
  - injection Hc as <- <-. eapply Hconst, Hn. vm_compute. repeat constructor.
Qed.

(** Tab without a completion: the best choice, if there is one. *)
Lemma tab_ok s cpss d :
  session_ok s cpss d -> comp s = None -> (Z.of_nat (length (doc_bytes d) + CANDIDATE_MAX) + 1 < 2 ^ 62)%Z ->
  let input := until_nul (doc_bytes d) in
  exists s' d', ik_repl_handle_tab_action s = Ret s' /\ session_ok s' cpss d' /\ comp s' = None /\ unmoved s s' /\
    match tab_choices (agent_marks s) input with
    | None => d' = d
    | Some (args, search) =>
        (Forall (fun n => found search n = false) args /\ d' = d) \/
        (exists n cps, best args search n /\ text_of cps = completed input n [] /\ d' = replaced cps)
    end.
Proof.
  intros Hs Hc Hl input. pose proof (session_edited _ _ _ Hs) as He. unfold ik_repl_handle_tab_action. rewrite Hc.
  rewrite (begins_with_slash_ok _ _ He). cbn [obind].
  assert ((default 0 (head (doc_bytes d)) =? 47)%Z = (default 0 (head input) =? 47)%Z) as ->.
  { subst input. destruct (doc_bytes d) as [|b t]; [done|]. cbn. destruct (Z.eqb_spec b 0) as [->|]; done. }
  unfold tab_choices. destruct (default 0 (head input) =? 47)%Z eqn:Eh; cbn [negb]; [|by exists s, d; split_and!].
  rewrite (input_string_ok _ _ He). cbn [obind]. fold input.
  pose proof (until_nul_length (doc_bytes d)) as Hil. fold input in Hil.
  assert (forall args search, tab_choices (agent_marks s) input = Some (args, search) ->
    exists s' d', match context_of (ik_fzy_filter args search MAX_COMPLETIONS) input with
                  | None => Ret s
                  | Some c => accept_selection (set_comp (Some (set_original (Some input) c)) s)
                  end = Ret s' /\ session_ok s' cpss d' /\ comp s' = None /\ unmoved s s' /\
      ((Forall (fun n => found search n = false) args /\ d' = d) \/
       (exists n cps, best args search n /\ text_of cps = completed input n [] /\ d' = replaced cps))) as Hcase.
  { intros args search Ech. pose proof (context_of_filter args search input) as Hf.
    destruct (context_of _ input) as [c|]; [|by exists s, d; split_and!; auto].
    destruct Hf as (n & l & -> & Hr). pose proof (ranked_best _ _ _ _ _ Hr) as (Hin & Hfn & Hb).
    destruct (choices_fit _ _ _ _ n (se_labels _ _ _ Hs) Ech Hin) as [Hu Hn].
    destruct (accept_ok s cpss d (set_original (Some input) (mk_context (n :: l) 0 input None)) n input Hs)
      as (s' & cps & Hrun & Hcs & Et & Hs' & Hc' & Hm); [done|done|done|exact (utf8_input _ _ _ Hs)|lia|].
    exists s', (replaced cps). split_and!; try done. right. by exists n, cps. }
  unfold tab_choices in Hcase. rewrite Eh in Hcase.
  destruct (strchr input 32) as [space|] eqn:Es.
  - unfold ik_completion_create_for_arguments. rewrite Es. destruct space as [|cmd_len].
    { exfalso. destruct input as [|b t] eqn:Ei; [done|]. cbn [head default from_option strchr] in *.
      apply Z.eqb_eq in Eh. unfold id in Eh. subst b. cbn in Es. by destruct (strchr t 32). }
    change (S cmd_len =? 1)%nat with (cmd_len =? 0)%nat in *. replace (S cmd_len - 1) with cmd_len in * by lia.
    destruct (cmd_len =? 0)%nat; [by exists s, d; split_and!|].
    destruct (argument_provider (agent_marks s) _ _) as [[args search]|]; [|by exists s, d; split_and!].
    destruct (Hcase args search eq_refl) as (s' & d' & Hrun & Hres).
    destruct (Nat.eqb_spec (length args) 0) as [E0|].
    + destruct args; [|done]. exists s, d. split_and!; try done. left. by split.
    + cbn [obind]. exists s', d'. by split.
  - unfold ik_completion_create_for_commands. rewrite Eh. cbn [obind].
    destruct (Hcase _ _ eq_refl) as (s' & d' & Hrun & Hres). by exists s', d'.
Qed.

(** Tab with a completion: its next candidate. *)
Lemma tab_menu_ok s cpss d c :
  session_ok s cpss d -> comp s = Some c -> (Z.of_nat (length (doc_bytes d) + CANDIDATE_MAX) + 1 < 2 ^ 62)%Z ->
  exists s' n cps, ik_repl_handle_tab_action s = Ret s' /\ session_ok s' cpss (replaced cps) /\ comp s' = None /\
    unmoved s s' /\ n ∈ command_names /\ text_of cps = completed (until_nul (doc_bytes d)) n [] /\
    comp_candidates c !! ((comp_current c + 1) `mod` length (comp_candidates c)) = Some n.
Proof.
  intros Hs Ec Hl. destruct (se_menu _ _ _ Hs c Ec) as [[Hcur Ho Hn Hp] Hd].
  unfold ik_repl_handle_tab_action, strndup_input. rewrite Ec, Ho. unfold has_data in Hd.
  destruct (bs_ptr (text (input_buffer (scr s)))) as [x|]; [|done].
  rewrite (input_string_ok _ _ (session_edited _ _ _ Hs)). cbn [obind]. unfold ik_completion_next.
  cbn [set_original comp_candidates comp_current]. rewrite (proj2 (Nat.ltb_lt _ _)) by lia. cbn [obind].
  destruct (lookup_lt_is_Some_2 (comp_candidates c) ((comp_current c + 1) `mod` length (comp_candidates c))) as [n En];
    [apply Nat.mod_upper_bound; lia|].
  assert (n ∈ command_names) as Hnc by (rewrite Forall_forall in Hn; by eapply Hn, list_elem_of_lookup_2).
  destruct (command_names_fit n Hnc) as (Hu & Hlen & _).
  pose proof (until_nul_length (doc_bytes d)) as Hil. unfold CANDIDATE_MAX in Hl.
  destruct (accept_ok s cpss d (set_current ((comp_current c + 1) `mod` length (comp_candidates c))
             (set_original (Some (until_nul (doc_bytes d))) c)) n (until_nul (doc_bytes d)) Hs)
    as (s' & cps & Hrun & Hcs & Et & Hs' & Hc' & Hm); [done|done|done|exact (utf8_input _ _ _ Hs)|lia|].
  by exists s', n, cps.
Qed.

(** Space with a completion: its selection and a space. *)
Lemma space_ok s cpss d c :
  session_ok s cpss d -> comp s = Some c ->
  exists s' n cps, ik_repl_handle_completion_space_commit s = Ret s' /\ session_ok s' cpss (replaced cps) /\
    comp s' = None /\ unmoved s s' /\ comp_candidates c !! comp_current c = Some n /\ n ∈ command_names /\
    text_of cps = lit "/" ++ n ++ lit " ".
Proof.
  intros Hs Ec. destruct (se_menu _ _ _ Hs c Ec) as [[Hcur Ho Hn Hp] Hd].
  destruct (lookup_lt_is_Some_2 _ _ Hcur) as [n En].
  assert (n ∈ command_names) as Hnc by (rewrite Forall_forall in Hn; by eapply Hn, list_elem_of_lookup_2).
  destruct (command_names_fit n Hnc) as (Hu & Hlen & _).
  unfold ik_repl_handle_completion_space_commit, build_completion_buffer_text.
  rewrite Ec, (get_current_ok _ _ En), Ho. cbn [obind default from_option]. rewrite Hp.
  destruct (utf8_app (lit "/") (n ++ lit " ")) as (cps & Hcs & Et).
  { exists [47%Z]. split; [by repeat constructor|done]. }
  { apply utf8_app; [done|]. exists [32%Z]. split; [by repeat constructor|done]. }
  rewrite Et. assert (length (text_of cps) <= 9) as Hl by (rewrite <- Et, !length_app; change (length (lit "/")) with 1; change (length (lit " ")) with 1; lia).
  assert (cps <> []) as Hne by (intros ->; done).
  pose proof (ok_dismiss _ _ _ Hs) as Hs1.
  destruct (replace_run _ d cps (session_edited _ _ _ Hs1) Hcs ltac:(lia) Hne) as (ib1 & ib2 & -> & He & Hd2).
  eexists _, n, cps. split_and!; [reflexivity| | | |done|done|done].
  - destruct He as (Hr2 & Ht2 & Hl2), Hs1 as [[] ? Hv Hm ?]. constructor; [by constructor|done|exact Hv| |done].
    intros x Hx. split; [|exact Hd2]. by apply Hm.
  - exact (dismissed s).
  - exact (unmoved_dismiss s).
Qed.

(** *** Scrolling and arrows *)

Lemma ok_scrolled s cpss d r :
  session_ok s cpss d -> screen_ok r cpss (before d) (after d) -> input_buffer r = input_buffer (scr s) \/
    (exists l w, input_buffer r = set_layout l w 0 (input_buffer (scr s))) ->
  completion (agent_view r) = completion (agent_view (scr s)) -> session_ok (set_screen r s) cpss d.
Proof.
  intros [? Hc Hv Hm ?] Hr Hib Hvr. constructor; [done| | | |done]; cbn [set_screen scr comp].
  - destruct Hib as [->|(l & w & ->)]; done.
  - by rewrite Hvr.
  - intros c E. destruct (Hm c E) as [? Hd]. split; [done|]. destruct Hib as [->|(l & w & ->)]; done.
Qed.

Lemma scroll_up_frame n (r r' : screen T) cpss pre post :
  screen_ok r cpss pre post -> scroll_up n r = Ret r' ->
  completion (agent_view r') = completion (agent_view r) /\ exists l w, input_buffer r' = set_layout l w 0 (input_buffer r).
Proof.
  intros Hok Hrun. destruct (layouts_ok _ _ _ _ Hok) as (sb & ib & ls & Esb & Eib & _ & Hib & _).
  unfold scroll_up, ik_repl_calculate_max_viewport_offset in Hrun. rewrite Esb, Eib in Hrun. cbn [obind] in Hrun.
  injection Hrun as <-. split; [done|]. subst ib. by eexists _, _.
Qed.

Lemma scrolled_up n s cpss d :
  session_ok s cpss d -> (Z.of_nat (viewport_offset (scr s) + n) < 2 ^ 64)%Z ->
  exists r, scroll_up n (scr s) = Ret r /\ session_ok (set_screen r s) cpss d /\
    viewport_offset r = Nat.min (document_height (scr s) cpss (before d ++ after d) - term_rows (scr s))
                          (viewport_offset (scr s) + n) /\
    screen_rows r = screen_rows (scr s) /\
    document_height r cpss (before d ++ after d) = document_height (scr s) cpss (before d ++ after d).
Proof.
  intros Hs Hn. destruct (scroll_up_ok n _ _ _ _ (se_screen _ _ _ Hs) Hn) as (r & Hrun & Hr & Er & Ed & Ev).
  exists r. split_and!; try done. destruct (scroll_up_frame _ _ _ _ _ _ (se_screen _ _ _ Hs) Hrun) as [Hc Hib].
  apply ok_scrolled; [done|done|by right|done].
Qed.

Lemma scrolled_down n s cpss d : session_ok s cpss d -> session_ok (set_screen (scroll_down n (scr s)) s) cpss d.
Proof.
  intros Hs. apply ok_scrolled; [done| |by left|done]. by apply scroll_down_ok, (se_screen _ _ _ Hs).
Qed.

(** Up and down scroll, move in the completion or move the cursor. *)
Lemma arrow_ok (up : bool) s cpss d :
  session_ok s cpss d -> (Z.of_nat (length (doc_bytes d) + 4) < 2 ^ 62)%Z -> (Z.of_nat (viewport_offset (scr s)) < 2 ^ 63)%Z ->
  exists s' d', (if up then ik_repl_handle_arrow_up_action s else ik_repl_handle_arrow_down_action s) = Ret s' /\
    session_ok s' cpss d' /\ length (doc_bytes d') <= length (doc_bytes d) + 4 /\
    viewport_offset (scr s') <= viewport_offset (scr s) + 3 /\ scroll_det s' = scroll_det s /\
    agent_marks s' = agent_marks s.
Proof.
  intros Hs Hl Hv. unfold ik_repl_handle_arrow_up_action, ik_repl_handle_arrow_down_action.
  destruct (Nat.ltb_spec 0 (viewport_offset (scr s))).
  - destruct up.
    + destruct (scrolled_up 3 s cpss d Hs ltac:(lia)) as (r & Hrun & Hs' & Ev & _).
      unfold ik_repl_handle_scroll_up_action, MOUSE_SCROLL_LINES. rewrite Hrun. cbn [obind].
      eexists _, d. split_and!; [done|done|lia| |done|done]. cbn [set_screen scr]. lia.
    + eexists _, d. split_and!; [done|by apply scrolled_down|lia| |done|done].
      cbn [set_screen scr]. unfold ik_repl_handle_scroll_down_action, scroll_down.
      cbn [set_viewport_offset viewport_offset]. destruct_ifs; lia.
  - destruct (comp s) as [c|] eqn:Ec.
    + destruct (se_menu _ _ _ Hs c Ec) as [[Hcur Ho Hn Hp] Hd].
      assert (forall i, i < length (comp_candidates c) -> session_ok (set_comp (Some (set_current i c)) s) cpss d) as Hset.
      { intros i Hi. apply ok_comp; [done|]. intros x [= <-]. by split. }
      unfold ik_completion_prev, ik_completion_next. rewrite (proj2 (Nat.ltb_lt _ _)) by lia. cbn [obind].
      destruct up; eexists _, d; (split_and!; [done|apply Hset|lia|cbn; lia|done|done]).
      * destruct_ifs; lia.
      * apply Nat.mod_upper_bound. lia.
    + destruct (on_edit (if up then CursorUp else CursorDown) s cpss d Hs) as (ib & Hrun & Hs' & Hle);
        [by destruct up|by destruct up|by destruct up; cbn [op_growth]; lia|].
      eexists _, _. split_and!; [destruct up; exact Hrun|exact Hs'| |cbn; lia|done|done].
      destruct up; cbn [op_growth] in Hle; lia.
Qed.

(** *** Editing keys *)

Definition edit_of (action : ik_input_action) : option edit_op :=
  match action with
  | IK_INPUT_CHAR c => Some (InsertCodepoint c)
  | IK_INPUT_INSERT_NEWLINE => Some InsertNewline
  | IK_INPUT_BACKSPACE => Some Backspace
  | IK_INPUT_DELETE => Some Delete
  | IK_INPUT_ARROW_LEFT => Some CursorLeft
  | IK_INPUT_ARROW_RIGHT => Some CursorRight
  | IK_INPUT_CTRL_A => Some ToLineStart
  | IK_INPUT_CTRL_E => Some ToLineEnd
  | IK_INPUT_CTRL_K => Some KillToLineEnd
  | IK_INPUT_CTRL_U => Some KillLine
  | IK_INPUT_CTRL_W => Some DeleteWordBackward
  | _ => None
  end.

(** The completion after an editing key: renewed by typing and Backspace,
    closed by the cursor keys, and left as it is by the others. *)
Definition menu_after (action : ik_input_action) (old : option completion_context) (text : cstr)
  : option completion_context :=
  match action with
  | IK_INPUT_CHAR _ | IK_INPUT_BACKSPACE => menu_for text
  | IK_INPUT_ARROW_LEFT | IK_INPUT_ARROW_RIGHT => None
  | _ => old
  end.

Definition action_valid (action : ik_input_action) : Prop :=
  match action with IK_INPUT_CHAR c => scalar c | _ => True end.

Lemma edit_at_bottom op f s cpss d :
  session_ok s cpss d -> (forall ib, f ib = run_edit op ib) -> op_valid op -> keeps_data op -> (Z.of_nat (length (doc_bytes d) + 4) < 2 ^ 62)%Z ->
  op_growth op = 4 ->
  exists s', on_input f (to_bottom s) = Ret s' /\ session_ok s' cpss (edit op d) /\
    length (doc_bytes (edit op d)) <= length (doc_bytes d) + 4 /\ comp s' = comp s /\
    viewport_offset (scr s') = 0 /\ agent_marks s' = agent_marks s /\ scroll_det s' = scroll_det s.
Proof.
  intros Hs Hf Hop Hk Hl Hg.
  destruct (on_edit op (to_bottom s) cpss d (ok_bottom _ _ _ Hs) Hop Hk ltac:(lia)) as (ib & Hrun & Hs' & Hle).
  exists (set_input ib (to_bottom s)). rewrite Hg in Hle. unfold on_input in Hrun |- *. rewrite Hf. by split_and!.
Qed.

(** A key that is one edit of the session [s0]. *)
Ltac edit_with s0 :=
  let s1 := fresh "s" in let Hs1 := fresh "Hs" in
  match goal with
  | |- context [on_input ?f (to_bottom s0)] =>
      match goal with
      | |- context [session_ok _ ?cpss (edit ?op ?d)] =>
          destruct (edit_at_bottom op f s0 cpss d) as (s1 & -> & Hs1); try done; try by apply ok_dismiss
      end
  end;
  exists s1; rewrite ?dismissed in Hs1;
  try match type of Hs1 with
  | context [ik_repl_dismiss_completion ?s] =>
      let Em := fresh in let Ed := fresh in
      destruct (unmoved_dismiss s) as (Em & Ed & _); rewrite Em, Ed in Hs1
  end; done.

Lemma edit_key_ok action op s cpss d :
  session_ok s cpss d -> edit_of action = Some op -> action_valid action ->
  (action = IK_INPUT_CHAR 32 -> comp s = None) -> (Z.of_nat (length (doc_bytes d) + 4) < 2 ^ 62)%Z ->
  exists s', dispatch_action action s = Ret (s', None) /\ session_ok s' cpss (edit op d) /\
    length (doc_bytes (edit op d)) <= length (doc_bytes d) + 4 /\
    comp s' = menu_after action (comp s) (doc_bytes (edit op d)) /\
    viewport_offset (scr s') = 0 /\ agent_marks s' = agent_marks s /\ scroll_det s' = scroll_det s.
Proof.
  intros Hs Hop Hv Hsp Hl.
  destruct action; try discriminate Hop; injection Hop as <-; cbn [dispatch_action menu_after]; unfold done.
  - destruct ((codepoint =? 32)%Z && bool_decide (comp s <> None)) eqn:E.
    { apply andb_true_iff in E as [->%Z.eqb_eq E%bool_decide_eq_true]. by rewrite Hsp in E. }
    set (s0 := match history s with Some h => _ | None => s end).
    assert (session_ok s0 cpss d /\ agent_marks s0 = agent_marks s /\ scroll_det s0 = scroll_det s) as (Hs0 & Em & Ed).
    { subst s0. destruct (history s) as [h|]; [destruct (ik_history_is_browsing h)|]; (split_and!; [|done|done]); try done.
      by apply ok_history. }
    destruct (edit_at_bottom (InsertCodepoint codepoint) (fun ib => ik_input_buffer_insert_codepoint ib codepoint)
                s0 cpss d) as (s1 & -> & Hs1 & Hle & Hc1 & Hv1 & Hm1 & Hd1); try done. cbn [obind].
    destruct (update_ok _ _ _ Hs1) as (s2 & -> & Hs2 & Hc2 & (Hm2 & Hd2 & Hv2)). exists s2.
    split_and!; try done; congruence.
  - edit_with s.
  - destruct (edit_at_bottom Backspace ik_input_buffer_backspace s cpss d)
      as (s1 & -> & Hs1 & Hle & Hc1 & Hv1 & Hm1 & Hd1); try done. cbn [obind].
    destruct (update_ok _ _ _ Hs1) as (s2 & -> & Hs2 & Hc2 & (Hm2 & Hd2 & Hv2)). exists s2.
    split_and!; try done; congruence.
  - edit_with s.
  - edit_with (ik_repl_dismiss_completion s).
  - edit_with (ik_repl_dismiss_completion s).
  - edit_with s.
  - edit_with s.
  - edit_with s.
  - edit_with s.
  - edit_with s.
Qed.

(** *** Every event *)

(** Room for [n] more bytes of text and [m] more rows of scrolling. *)
Definition room s (d : doc) (n m : nat) : Prop :=
  (Z.of_nat (length (doc_bytes d) + n) < 2 ^ 62)%Z /\ (Z.of_nat (viewport_offset (scr s) + m) < 2 ^ 63)%Z.

(** More than a page of rows. *)
Definition ROWS_MAX : nat := Z.to_nat 10000.

Lemma rows_max : (Z.of_nat ROWS_MAX = 10000)%Z.
Proof. unfold ROWS_MAX. by rewrite Z2Nat.id. Qed.
#[local] Opaque ROWS_MAX.

(** A session that goes on, with at most [n] bytes and [m] rows more. *)
Definition goes_on s (cpss : list (list Z)) (d : doc) (n m : nat) s' : Prop :=
  exists d', session_ok s' cpss d' /\ length (doc_bytes d') <= length (doc_bytes d) + n /\
    viewport_offset (scr s') <= viewport_offset (scr s) + m /\ agent_marks s' = agent_marks s.

Lemma goes_on_same s cpss d n m s' :
  session_ok s' cpss d -> viewport_offset (scr s') <= viewport_offset (scr s) + m -> agent_marks s' = agent_marks s ->
  goes_on s cpss d n m s'.
Proof. intros Hs Hv Hm. exists d. split_and!; [done|lia|done|done]. Qed.

Lemma given_back_ok result s cpss d :
  session_ok s cpss d -> room s d 4 0 ->
  exists s', handle_given_back result s = Ret s' /\ goes_on s cpss d 4 3 s'.
Proof.
  intros Hs [Hl Hv]. rewrite Nat.add_0_r in Hv.
  destruct (arrow_ok true s cpss d Hs Hl Hv) as (s1 & d1 & Hr1 & Hs1 & Hl1 & Hv1 & _ & Hm1).
  destruct (arrow_ok false s cpss d Hs Hl Hv) as (s2 & d2 & Hr2 & Hs2 & Hl2 & Hv2 & _ & Hm2).
  destruct result; cbn [handle_given_back]; [exists s|exists s|exists s|exists s|exists s1|exists s2];
    (split; [done|]); try (by apply goes_on_same; [done|lia|done]); by eexists.
Qed.

Lemma tab_action_ok s cpss d :
  session_ok s cpss d -> room s d (CANDIDATE_MAX + 1) 0 ->
  exists s', ik_repl_handle_tab_action s = Ret s' /\ goes_on s cpss d (CANDIDATE_MAX + 1) 0 s'.
Proof.
  intros Hs [Hl Hv]. pose proof (until_nul_length (doc_bytes d)) as Hil. destruct (comp s) as [c|] eqn:Ec.
  - destruct (tab_menu_ok s cpss d c Hs Ec ltac:(lia)) as (s' & n & cps & Hrun & Hs' & _ & (Hm & _ & Hv') & Hn & Et & _).
    exists s'. split; [done|]. exists (replaced cps). rewrite replaced_bytes, Et, Hv'.
    pose proof (completed_length (until_nul (doc_bytes d)) n []) as Hcl. destruct (command_names_fit n Hn) as (_ & ? & _).
    unfold CANDIDATE_MAX in *. cbn [length] in Hcl. split_and!; [done|lia|lia|done].
  - destruct (tab_ok s cpss d Hs Ec ltac:(lia)) as (s' & d' & Hrun & Hs' & _ & (Hm & _ & Hv') & Hres).
    exists s'. split; [done|]. exists d'. rewrite Hv'. split_and!; [done| |lia|done].
    destruct (tab_choices _ _) as [[args search]|] eqn:Ech; [|subst d'; lia].
    destruct Hres as [[_ ->]|(n & cps & (Hn & _) & Et & ->)]; [lia|]. rewrite replaced_bytes, Et.
    pose proof (completed_length (until_nul (doc_bytes d)) n []) as Hcl.
    destruct (choices_fit _ _ _ _ n (se_labels _ _ _ Hs) Ech Hn) as [_ ?]. cbn [length] in Hcl. lia.
Qed.

Lemma dispatch_action_ok action s cpss d :
  session_ok s cpss d -> action_valid action -> room s d (CANDIDATE_MAX + 1) ROWS_MAX ->
  exists s' call, dispatch_action action s = Ret (s', call) /\ goes_on s cpss d (CANDIDATE_MAX + 1) ROWS_MAX s'.
Proof.
  intros Hs Hval [Hl Hv]. assert (1000 = CANDIDATE_MAX) as Ecm by done. pose proof (so_rows _ _ _ _ (se_screen _ _ _ Hs)) as Hrows.
  pose proof rows_max as Hmax.
  assert (size_t (screen_rows (scr s)) <= ROWS_MAX) as Hsz by (rewrite size_t_small by lia; lia).
  destruct (edit_of action) as [op|] eqn:Eop.
  { destruct (decide (action = IK_INPUT_CHAR 32 /\ comp s <> None)) as [[-> Hc]|Hsp].
    - destruct (comp s) as [c|] eqn:Ec; [|done]. cbn [dispatch_action Z.eqb Pos.eqb andb].
      rewrite bool_decide_eq_true_2 by by rewrite Ec. unfold done.
      destruct (space_ok s cpss d c Hs Ec) as (s' & n & cps & -> & Hs' & _ & (Hm & _ & Hv') & _ & Hn & Et).
      eexists s', _. split; [done|]. exists (replaced cps). rewrite replaced_bytes, Et, Hv', !length_app.
      destruct (command_names_fit n Hn) as (_ & ? & _).
      change (length (lit "/")) with 1. change (length (lit " ")) with 1. split_and!; [done|lia|lia|done].
    - destruct (edit_key_ok action op s cpss d) as (s' & Hrun & Hs' & Hle & _ & Hv' & Hm & _); try done.
      + intros ->. destruct (comp s); [|done]. by destruct Hsp.
      + lia.
      + exists s', None. split; [done|]. exists (edit op d). rewrite Hv'. split_and!; [done|lia|lia|done]. }
  destruct (arrow_ok true s cpss d Hs ltac:(lia) ltac:(lia)) as (s1 & d1 & Hr1 & Hs1 & Hl1 & Hv1 & _ & Hm1).
  destruct (arrow_ok false s cpss d Hs ltac:(lia) ltac:(lia)) as (s2 & d2 & Hr2 & Hs2 & Hl2 & Hv2 & _ & Hm2).
  assert (forall n, n <= ROWS_MAX -> exists r, scroll_up n (scr s) = Ret r /\ goes_on s cpss d (CANDIDATE_MAX + 1) ROWS_MAX (set_screen r s)) as Hup.
  { intros n Hn. destruct (scrolled_up n s cpss d Hs ltac:(lia)) as (r & Hrun & Hr & Ev & _). exists r. split; [done|].
    apply goes_on_same; [done|cbn [set_screen scr]; lia|done]. }
  assert (forall n, goes_on s cpss d (CANDIDATE_MAX + 1) ROWS_MAX (set_screen (scroll_down n (scr s)) s)) as Hdown.
  { intros n. apply goes_on_same; [by apply scrolled_down| |done]. cbn [set_screen scr]. unfold scroll_down.
    cbn [set_viewport_offset viewport_offset]. destruct_ifs; lia. }
  assert (goes_on s cpss d (CANDIDATE_MAX + 1) ROWS_MAX s) as Hself by (apply goes_on_same; [done|lia|done]).
  destruct action; try discriminate Eop; cbn [dispatch_action]; unfold done,
    ik_repl_handle_page_up_action, ik_repl_handle_scroll_up_action, ik_repl_handle_page_down_action,
    ik_repl_handle_scroll_down_action, MOUSE_SCROLL_LINES.
  - by exists s, (Some NewlineAction).
  - rewrite Hr1. eexists s1, _. split; [done|]. exists d1. split_and!; [done|lia|lia|done].
  - rewrite Hr2. eexists s2, _. split; [done|]. exists d2. split_and!; [done|lia|lia|done].
  - destruct (Hup _ Hsz) as (r & -> & Hg). by eexists _, _.
  - by eexists _, _.
  - destruct (Hup 3 ltac:(lia)) as (r & -> & Hg). by eexists _, _.
  - by eexists _, _.
  - eexists _, _. split; [done|]. apply goes_on_same; [by apply ok_quit|cbn; lia|done].
  - by eexists _, _.
  - by eexists _, _.
  - destruct (tab_action_ok s cpss d Hs) as (s' & -> & d' & ? & ? & ? & ?); [split; lia|].
    eexists s', _. split; [done|]. exists d'. split_and!; [done|lia|lia|done].
  - unfold ik_repl_handle_escape_action.
    destruct (agent_state (scr s)); [|by eexists _, _|by eexists _, _].
    assert (comp s ≫= original_input = None) as ->.
    { destruct (comp s) as [c|] eqn:E; [|done]. by apply (mn_original _ (proj1 (se_menu _ _ _ Hs c E))). }
    cbn [obind]. eexists _, _. split; [done|]. destruct (unmoved_dismiss s) as (Hm & _ & Hvd).
    apply goes_on_same; [by apply ok_dismiss|lia|done].
  - by eexists _, _.
  - by eexists _, _.
  - by eexists _, _.
  - by eexists _, _.
  - by eexists _, _.
Qed.

(** No arrow waits to be told from the wheel. *)
Definition calm s : Prop := forall det, scroll_det s = Some det -> ScrollDetector.state det <> IK_SCROLL_STATE_WAITING.

Lemma flush_calm s : calm s -> exists det, ik_repl_flush_pending_scroll_arrow s = Ret (set_det det s).
Proof.
  intros Hc. unfold ik_repl_flush_pending_scroll_arrow.
  destruct (scroll_det s) as [det|] eqn:E; [|exists None; destruct s; cbn in *; by subst].
  unfold ik_scroll_detector_flush. rewrite bool_decide_eq_false_2 by by apply Hc. by eexists.
Qed.

(** Keys other than the arrows go straight to the switch. *)
Lemma process_calm s action now_ms :
  calm s -> is_arrow action = false ->
  exists det, ik_repl_process_action s action now_ms = dispatch_action action (set_det det s) \/
    (action = IK_INPUT_UNKNOWN /\ ik_repl_process_action s action now_ms = dispatch_action action s).
Proof.
  intros Hc Ha. unfold ik_repl_process_action. rewrite Ha. cbn [obind negb andb].
  destruct (bool_decide (action = IK_INPUT_UNKNOWN)) eqn:E; cbn [negb].
  - exists None. right. split; [by apply bool_decide_eq_true in E|done].
  - destruct (flush_calm s Hc) as [det ->]. exists det. by left.
Qed.

Definition BYTES_MAX : nat := CANDIDATE_MAX + 5.
Definition SCROLL_MAX : nat := ROWS_MAX + 6.

Lemma detection_ok s cpss d action now_ms :
  session_ok s cpss d -> vertical action -> room s d 0 3 ->
  exists s' handled, ik_repl_process_scroll_detection s action now_ms = Ret (s', handled) /\ goes_on s cpss d 0 3 s'.
Proof.
  intros Hs Hv [_ Hr]. unfold ik_repl_process_scroll_detection.
  destruct (scroll_det s) as [det|]; [|by eexists s, _; split; [done|apply goes_on_same; [done|lia|done]]].
  assert (exists det' result, ik_scroll_detector_process_arrow det action now_ms = Ret (det', result)) as (det' & result & ->).
  { unfold ik_scroll_detector_process_arrow. rewrite bool_decide_eq_true_2 by exact Hv.
    destruct (ScrollDetector.state det); destruct_ifs; eauto. }
  cbn [obind]. pose proof (ok_det s cpss d (Some det') Hs) as Hs'. set (s1 := set_det (Some det') s) in *.
  assert (goes_on s cpss d 0 3 s1) as Hg1 by (apply goes_on_same; [done|cbn; lia|done]).
  destruct result; try by eexists s1, _.
  - destruct (scrolled_up 3 s1 cpss d Hs') as (r & Hrun & Hr' & Ev & _); [cbn; lia|].
    unfold ik_repl_handle_scroll_up_action, MOUSE_SCROLL_LINES. rewrite Hrun. cbn [obind].
    eexists _, _. split; [done|]. apply goes_on_same; [done| |done]. cbn [set_screen scr].
    change (scr s1) with (scr s) in Ev. lia.
  - eexists _, _. split; [done|]. apply goes_on_same; [by apply scrolled_down| |done].
    unfold ik_repl_handle_scroll_down_action, scroll_down. cbn. destruct_ifs; lia.
Qed.

Lemma flush_arrow_ok s cpss d :
  session_ok s cpss d -> room s d 4 0 ->
  exists s', ik_repl_flush_pending_scroll_arrow s = Ret s' /\ goes_on s cpss d 4 3 s'.
Proof.
  intros Hs Hr. unfold ik_repl_flush_pending_scroll_arrow.
  destruct (scroll_det s) as [det|]; [|exists s; split; [done|apply goes_on_same; [done|lia|done]]].
  destruct (ik_scroll_detector_flush det) as [det' result].
  destruct (given_back_ok result (set_det (Some det') s) cpss d) as (s' & -> & Hg); [by apply ok_det|exact Hr|].
  by exists s'.
Qed.

Lemma process_ok s cpss d action now_ms :
  session_ok s cpss d -> action_valid action -> room s d BYTES_MAX SCROLL_MAX ->
  exists s' call, ik_repl_process_action s action now_ms = Ret (s', call) /\ goes_on s cpss d BYTES_MAX SCROLL_MAX s'.
Proof.
  intros Hs Hval [Hl Hv]. unfold ik_repl_process_action. unfold BYTES_MAX, SCROLL_MAX in *.
  assert (exists s1 handled, (if is_arrow action then ik_repl_process_scroll_detection s action now_ms else Ret (s, false))
            = Ret (s1, handled) /\ goes_on s cpss d 0 3 s1) as (s1 & handled & -> & d1 & Hs1 & Hl1 & Hv1 & Hm1).
  { destruct (is_arrow action) eqn:Ea.
    - apply detection_ok; [done| |split; lia]. unfold is_arrow in Ea.
      apply orb_true_iff in Ea as [Ea|Ea]; apply bool_decide_eq_true in Ea; [by left|by right].
    - exists s, false. split; [done|]. apply goes_on_same; [done|lia|done]. }
  cbn [obind]. destruct handled.
  { eexists s1, _. split; [done|]. exists d1. split_and!; [done|lia|lia|done]. }
  assert (exists s2, (if negb (is_arrow action) && negb (bool_decide (action = IK_INPUT_UNKNOWN))
            then ik_repl_flush_pending_scroll_arrow s1 else Ret s1) = Ret s2 /\ goes_on s1 cpss d1 4 3 s2)
    as (s2 & -> & d2 & Hs2 & Hl2 & Hv2 & Hm2).
  { destruct (_ && _); [apply flush_arrow_ok; [done|split; lia]|].
    exists s1. split; [done|]. apply goes_on_same; [done|lia|done]. }
  cbn [obind].
  destruct (dispatch_action_ok action s2 cpss d2 Hs2 Hval) as (s3 & call & -> & d3 & Hs3 & Hl3 & Hv3 & Hm3); [split; lia|].
  exists s3, call. split; [done|]. exists d3. split_and!; [done|lia|lia|congruence].
Qed.

Definition event_valid (e : key_event) : Prop :=
  match e with Key action _ => action_valid action | SelectTimeout _ => True end.

Lemma step_event_ok e s cpss d :
  session_ok s cpss d -> event_valid e -> room s d BYTES_MAX SCROLL_MAX ->
  exists s' call, key_event_step s e = Ret (s', call) /\ goes_on s cpss d BYTES_MAX SCROLL_MAX s'.
Proof.
  intros Hs Hv Hr. destruct e as [action now_ms|now_ms]; cbn [key_event_step event_valid] in *; [by apply process_ok|].
  unfold done, ik_repl_handle_select_timeout.
  destruct (scroll_det s) as [det|]; [|by eexists s, _; split; [done|apply goes_on_same; [done|lia|done]]].
  destruct (ik_scroll_detector_check_timeout det now_ms) as [det' result]. destruct Hr as [Hl Hvp].
  unfold BYTES_MAX, SCROLL_MAX in *.
  destruct (given_back_ok result (set_det (Some det') s) cpss d) as (s' & -> & d' & Hs' & Hl' & Hv' & Hm');
    [by apply ok_det|split; cbn; lia|]. cbn [obind].
  eexists s', _. split; [done|]. exists d'. cbn in Hv'. split_and!; [done|lia|lia|done].
Qed.

(** What the invariant says of the code's state. *)
Definition well_formed s (d : doc) : Prop :=
  Forall scalar (before d ++ after d) /\ bs_bytes (text (input_buffer (scr s))) = doc_bytes d /\
  cursor_byte_offset (input_buffer (scr s)) = length (text_of (before d)) /\
  forall c, comp s = Some c -> original_input c = None /\
    exists n, ik_completion_get_current c = Ret (Some n) /\ n ∈ command_names.

Lemma session_well_formed s cpss d : session_ok s cpss d -> well_formed s d.
Proof.
  intros Hs. pose proof (so_input _ _ _ _ (se_screen _ _ _ Hs)) as Hr.
  split_and!; [by eapply utf8_doc|exact (rep_bytes _ _ _ Hr)|exact (rep_offset _ _ _ Hr)|].
  intros c Hc. destruct (se_menu _ _ _ Hs c Hc) as [[Hcur Ho Hn _] _]. split; [done|].
  destruct (lookup_lt_is_Some_2 _ _ Hcur) as [n En]. exists n. split; [by apply get_current_ok|].
  rewrite Forall_forall in Hn. by eapply Hn, list_elem_of_lookup_2.
Qed.

(** The completion that typing opens has the best commands, and none is there
    only when no command is found. *)
Lemma menu_for_best (text : cstr) :
  default 0%Z (head text) = 47%Z ->
  match menu_for text with
  | Some c => ranked command_names (drop 1 (until_nul text)) MAX_COMPLETIONS (comp_candidates c) /\ comp_current c = 0
  | None => Forall (fun n => found (drop 1 (until_nul text)) n = false) command_names
  end.
Proof.
  intros Hh. unfold menu_for. rewrite Hh, Z.eqb_refl.
  pose proof (context_of_filter command_names (drop 1 (until_nul text)) (until_nul text)) as Hf.
  destruct (context_of _ _) as [c|]; [|done]. by destruct Hf as (n & l & -> & Hr).
Qed.

(** An arrow of a wheel burst scrolls, and is then handled as the key again:
    six rows instead of three. *)
Lemma wheel_up_scrolls_twice s cpss d det now_ms :
  session_ok s cpss d -> scroll_det s = Some det -> ScrollDetector.state det = IK_SCROLL_STATE_WAITING ->
  pending_dir det = IK_INPUT_ARROW_UP -> (now_ms - timer_start_ms det <= burst_threshold_ms det)%Z ->
  viewport_offset (scr s) + 6 <= document_height (scr s) cpss (before d ++ after d) - term_rows (scr s) ->
  (Z.of_nat (viewport_offset (scr s) + 6) < 2 ^ 64)%Z ->
  exists s', ik_repl_process_action s IK_INPUT_ARROW_UP now_ms = Ret (s', None) /\
    viewport_offset (scr s') = viewport_offset (scr s) + 6.
Proof.
  intros Hs Edet Est Edir Et Ho Hv. unfold ik_repl_process_action. cbn [is_arrow].
  change (is_arrow IK_INPUT_ARROW_UP) with true. cbn [negb andb]. unfold ik_repl_process_scroll_detection. rewrite Edet.
  unfold ik_scroll_detector_process_arrow. rewrite bool_decide_eq_true_2 by by left. rewrite Est, Edir.
  rewrite (proj2 (Z.leb_le _ _)) by done. change (scroll_of IK_INPUT_ARROW_UP) with IK_SCROLL_RESULT_SCROLL_UP. cbn [obind].
  set (s1 := set_det _ s). assert (session_ok s1 cpss d) as Hs1 by by apply ok_det.
  change (scr s1) with (scr s). unfold ik_repl_handle_scroll_up_action, MOUSE_SCROLL_LINES.
  destruct (scrolled_up 3 s1 cpss d Hs1) as (r & Hrun & Hr & Ev & Er & Ed); [cbn; lia|].
  change (scr s1) with (scr s) in *. rewrite Hrun. cbn [obind dispatch_action]. unfold done, ik_repl_handle_arrow_up_action.
  change (scr (set_screen r s1)) with r. rewrite (proj2 (Nat.ltb_lt _ _)) by lia.
  unfold ik_repl_handle_scroll_up_action, MOUSE_SCROLL_LINES.
  destruct (scrolled_up 3 (set_screen r s1) cpss d Hr) as (r2 & Hrun2 & _ & Ev2 & _); [cbn; lia|].
  change (scr (set_screen r s1)) with r in *. rewrite Hrun2. cbn [obind].
  eexists. split; [done|]. cbn [set_screen scr]. unfold term_rows in *. rewrite Ed, Er in Ev2. lia.
Qed.

End sessions.

(** ** Properties *)

Module KeyActionsProps.
Section properties.
Context {T : Type} `{!ByteStore T} `{!ByteStoreLaws T} `{!Utf8proc} `{!Utf8procSpec}.
Context `{!Allocator} `{!AllocatorSpec} `{!SlotAllocator} `{!SlotAllocatorSpec}.
Context `{!FuzzyScore} `{!Qsort} `{!QsortSpec}.

(** C36: whatever keys come and whenever, with the timeouts of the scroll
    detector in between, no assertion fails and nothing is read out of bounds,
    up to the first key that calls a handler of the loop.  The input is always
    a well-formed text with the cursor in it; a completion that is open has a
    selection, lists commands, and never holds an original input: Escape has
    nothing to go back to. *)
Theorem keys_keep_session (s : key_session T) cpss d es :
  session_ok s cpss d -> Forall event_valid es ->
  room s d (length es * BYTES_MAX) (length es * SCROLL_MAX) ->
  exists s' call d', run_keys s es = Ret (s', call) /\ session_ok s' cpss d' /\ well_formed s' d'.
Proof.
  intros Hs Hv. revert s d Hs. induction Hv as [|e es He _ IH]; intros s d Hs [Hl Hr]; cbn [run_keys length] in *.
  - exists s, None, d. eauto using session_well_formed.
  - destruct (step_event_ok e s cpss d Hs He) as (s1 & call & -> & d1 & Hs1 & Hl1 & Hv1 & _); [split; lia|].
    cbn [obind]. destruct call as [h|]; [|apply (IH s1 d1 Hs1); split; lia].
    exists s1, (Some h), d1. eauto using session_well_formed.
Qed.

(** C37: an editing key makes its one edit of the document and scrolls to the
    bottom, when no arrow key is pending (waiting to be told from the mouse
    wheel, [calm]) and unless the key is Space and a completion is open (Space
    then takes the selection in the place of the input).  Typing and Backspace
    also renew the completion: when the text begins with a slash it lists the
    best fifteen of the commands that begin with the rest, the best one selected;
    otherwise, and when there is none, it is closed, as it is by the cursor
    keys. *)
Theorem editing_keys_edit (s : key_session T) cpss d action op now_ms :
  session_ok s cpss d -> calm s -> edit_of action = Some op -> action_valid action ->
  (action = IK_INPUT_CHAR 32 -> comp s = None) -> (Z.of_nat (length (doc_bytes d) + 4) < 2 ^ 62)%Z ->
  exists s', ik_repl_process_action s action now_ms = Ret (s', None) /\ session_ok s' cpss (edit op d) /\
    viewport_offset (scr s') = 0 /\
    let text := doc_bytes (edit op d) in
    match action with
    | IK_INPUT_CHAR _ | IK_INPUT_BACKSPACE =>
        if (default 0 (head text) =? 47)%Z then
          match comp s' with
          | Some c => ranked command_names (drop 1 (until_nul text)) 15 (comp_candidates c) /\ comp_current c = 0
          | None => Forall (fun n => found (drop 1 (until_nul text)) n = false) command_names
          end
        else comp s' = None
    | IK_INPUT_ARROW_LEFT | IK_INPUT_ARROW_RIGHT => comp s' = None
    | _ => comp s' = comp s
    end.
Proof.
  intros Hs Hc Hop Hv Hsp Hl.
  assert (is_arrow action = false) as Ha by by destruct action.
  destruct (process_calm s action now_ms Hc Ha) as [det [->|[-> _]]]; [|done].
  destruct (edit_key_ok action op (set_det det s) cpss d (ok_det _ _ _ _ Hs) Hop Hv Hsp Hl)
    as (s' & -> & Hs' & _ & Hm & Hv' & _).
  exists s'. split_and!; [done|done|done|]. cbv zeta. rewrite Hm.
  pose proof (menu_for_best (doc_bytes (edit op d))) as Hbest. unfold menu_after.
  destruct action; try done.
  all: destruct (Z.eqb_spec (default 0%Z (head (doc_bytes (edit op d)))) 47) as [Hh|Hh]; [by apply Hbest|].
  all: unfold menu_for; by rewrite (proj2 (Z.eqb_neq _ _)).
Qed.


End properties.
End KeyActionsProps.

Module KeyActionsExamples.
Import ZeroAlloc RefUnicode CopySlots ScrollbackExamples EditorExamples FrameExamples KeyActionsProps.

(** Shorter candidates score better. *)
#[export] Instance shorter_first : FuzzyScore := fun _ n => (- Z.of_nat (length n))%Z.

#[export] Instance no_more_dec {A} (compar : A -> A -> Z) : RelDecision (fun x y => (compar x y <= 0)%Z).
Proof. intros x y. apply _. Defined.

#[export] Instance merge_qsort : Qsort := fun A compar l => merge_sort (fun x y => (compar x y <= 0)%Z) l.

#[export] Instance merge_qsort_spec : QsortSpec.
Proof.
  constructor.
  - intros A compar l. apply merge_sort_Permutation.
  - intros A compar l Hanti Htrans. apply StronglySorted_merge_sort.
    + exact Htrans.
    + intros x y. destruct (Z.le_gt_cases (compar x y) 0) as [|Hx]; [by left|right].
      apply Z.lt_gt, Z.gt_lt, Hanti in Hx. lia.
Qed.

Definition sample_marks : list ik_mark := [mk_mark 0 None (lit "t"); mk_mark 1 (Some (lit "before")) (lit "t")].

(** A session with the text [l] typed. *)
Lemma sample_session l :
  edits (InsertCodepoint <$> l) (mk_doc [] [] 0) = mk_doc l [] 0 ->
  forallb (fun op => bool_decide (op_valid op)) (InsertCodepoint <$> l) = true ->
  (Z.of_nat (growth (InsertCodepoint <$> l)) <? 2 ^ 62)%Z = true ->
  exists s : key_session Array.ik_array, session_ok s sample_texts (mk_doc l [] 0) /\ calm s /\ comp s = None /\
    agent_marks s = sample_marks /\ viewport_offset (scr s) = 0.
Proof.
  intros He Hv Hg. destruct (sb_reach 10 (SbAppend <$> (text_of <$> sample_texts)) ltac:(lia))
    as (s0 & sb & ls & _ & _ & Hsb & _); [by apply ops_okb|]. rewrite appends_lines in Hsb.
  destruct (typed_buffer _ _ He Hv Hg) as (ib & Hrep & Ht & Hl).
  destruct (agent_cake_ok 24) as (c0 & cake & _ & _ & Hck).
  exists (mk_session (sample_screen 6 0 sb ib cake) None sample_marks (Some ik_scroll_detector_create) None false).
  split_and!; [|by intros det [= <-]|done|done|done]. constructor; [|exact Ht|done|done|].
  - constructor; cbn; [by exists ls| |exact Hrep|exact Hl|lia|lia]. apply (bool_decide_unpack _); vm_compute; exact I.
  - apply Forall_forall. intros x Hx. apply list_elem_of_omap in Hx as (m & Hm & E).
    change (m ∈ sample_marks) in Hm. unfold sample_marks in Hm.
    apply elem_of_cons in Hm as [->|[->|[]%elem_of_nil]%elem_of_cons]; [done|]. injection E as <-. split; [by apply lit_utf8|].
    apply Nat.leb_le. vm_compute. reflexivity.
Qed.

(** "/m", Escape, Ctrl+U, Tab, a late arrow and its timeout. *)
Definition sample_keys : list key_event :=
  [Key (IK_INPUT_CHAR 47) 0; Key (IK_INPUT_CHAR 109) 1; Key IK_INPUT_ESCAPE 2; Key IK_INPUT_CTRL_U 3; Key IK_INPUT_TAB 4;
   Key IK_INPUT_ARROW_UP 20; SelectTimeout 40].

Lemma keys_keep_session_witness :
  exists s s' : key_session Array.ik_array, exists call d', run_keys s sample_keys = Ret (s', call) /\
    session_ok s' sample_texts d' /\ well_formed s' d'.
Proof.
  destruct (sample_session [104]%Z) as (s & Hs & _ & _ & _ & Hv); [done|done|done|]. exists s.
  apply (keys_keep_session s sample_texts (mk_doc [104]%Z [] 0)); [exact Hs| |].
  - repeat constructor.
  - unfold room. rewrite Hv. split; apply Z.ltb_lt; vm_compute; reflexivity.
Defined.

(** "/m": the completion opens on the shortest command that begins with it. *)
Lemma editing_keys_edit_witness :
  exists s s' : key_session Array.ik_array, ik_repl_process_action s (IK_INPUT_CHAR 109) 7 = Ret (s', None) /\
    session_ok s' sample_texts (mk_doc [47; 109] [] 0)%Z /\
    match comp s' with
    | Some c => ranked command_names (lit "m") 15 (comp_candidates c) /\ comp_current c = 0
    | None => Forall (fun n => found (lit "m") n = false) command_names
    end.
Proof.
  destruct (sample_session [47]%Z) as (s & Hs & Hc & Hn & _ & _); [done|done|done|].
  destruct (editing_keys_edit s sample_texts (mk_doc [47]%Z [] 0) (IK_INPUT_CHAR 109) (InsertCodepoint 109) 7 Hs Hc)
    as (s' & Hrun & Hs' & _ & Hm); [done|done|done|done|].
  exists s, s'. split_and!; [exact Hrun|exact Hs'|exact Hm].
Defined.


(** The thinking level takes the place of the model's name. *)
Example thinking_level_replaces_model :
  completed (lit "/model gpt-5/h") (lit "high") [] = lit "/model high".
Proof. reflexivity. Qed.

(** A capital letter finds no command, although the beginning of the name is
    compared without regard to case. *)
Example capitals_find_nothing : forallb (fun n => negb (found (lit "M") n)) command_names = true.
Proof. vm_compute. reflexivity. Qed.

End KeyActionsExamples.
