(* ===== verification/Mail.v ===== *)
(** * Mail between agents (commands_send.c, commands_mail_helpers.c, mail/msg.c,
    commands_wait_core.c, commands_wait.c)

    An agent sends a message by adding a row of the mail table, and waits for
    the next one, or for one of each of several agents, by polling the table.
    The clock, the interrupt flag, select and what the other agents do in the
    meantime are the rounds of the wait. *)

From Stdlib Require Import String.
From stdpp Require Import strings gmap sorting.
From S2P Require Import Prelude Slots CString OutputStyle EventRender TokenCache AgentLoop Conversation AgentStream Replay AgentTree AgentCommands Database.

(** ** commands_mail_helpers.c and the parsing of /send *)

(** isspace *)
Definition isspace (c : Z) : bool := (c =? 32)%Z || ((9 <=? c)%Z && (c <=? 13)%Z).

(** The word up to the next white space, and what follows it. *)
Fixpoint cut_word (s : cstr) : cstr * cstr :=
  match s with
  | [] => ([], [])
  | c :: s' => if isspace c then ([], s) else let '(w, r) := cut_word s' in (c :: w, r)
  end.

Definition ik_mail_parse_uuid (args : cstr) : option cstr :=
  let '(word, _) := cut_word (skip_spaces args) in
  if (length word =? 0)%nat then None
  else if (256 <=? length word)%nat then None
  else Some word.

(** The message between the quotes after the first word, None without them. *)
Definition quoted_message (args : cstr) : option cstr :=
  let '(_, rest) := cut_word (skip_spaces args) in
  match skip_spaces rest with
  | c :: p =>
      if (c =? 34)%Z then match strchr p 34 with Some n => Some (take n p) | None => None end else None
  | [] => None
  end.

(** ** mail/msg.c; [now] is time(NULL) *)

Definition ik_mail_msg_create (from to text : cstr) (now : Z) : ik_mail_msg := mk_mail 0 from to text now false.

Section mail.
Context {DB : Type} `{!Libpq DB}.

(** PQtransactionStatus == PQTRANS_IDLE, PQsocket, time(NULL), and error_message
    of the error a call of the database answers. *)
Context (transaction_idle : DB -> bool) (socket_fd : DB -> Z) (now : Z) (error_text : err_code -> cstr) (session_id : Z).

(** ** commands_send.c *)

Definition agent_channel (u : cstr) : cstr := lit "agent_event_" ++ u.

(** The error message, None when the message is sent. *)
Definition ik_send_core (sender recipient text : cstr) : dbm DB (option cstr) :=
  match text with
  | [] => dret (Some (lit "Message body cannot be empty"))
  | _ =>
      do! agent_row := attempt (ik_db_agent_get recipient) in
      match agent_row with
      | inl e => dret (Some (lit "Failed to query recipient: " ++ error_text e))
      | inr row =>
          if negb (strcmp_eq (status row) (lit "running")) then dret (Some (lit "Recipient agent is dead"))
          else
            do! res := attempt (ik_db_mail_insert session_id (ik_mail_msg_create sender recipient text now)) in
            match res with
            | inl e => dret (Some (lit "Failed to insert mail: " ++ error_text e))
            | inr _ =>
                do! tx_idle := (fun d => (Ret (transaction_idle d), d)) in
                do! _ := (if (tx_idle : bool) then ignoring (ik_db_notify (agent_channel recipient) (lit "mail")) else dret tt) in
                dret None
            end
      end
  end.

(** ** commands_wait_core.c *)

(** The first message of the inbox, of one sender if one is given. *)
Definition check_mail (my : cstr) (from : option cstr) : dbm DB (option ik_mail_msg) :=
  do! msgs := trying (match from with
                      | Some f => ik_db_mail_inbox_filtered session_id my f
                      | None => ik_db_mail_inbox session_id my
                      end) in
  match msgs with
  | None | Some [] => dret None
  | Some (m :: _) => dret (Some m)
  end.

(** The status of an entry is its name. *)
Record ik_wait_fanin_entry := mk_entry {
  entry_uuid : cstr;
  entry_name : cstr;
  entry_status : cstr;
  entry_message : option cstr
}.

Definition resolve (s : cstr) (m : option cstr) (e : ik_wait_fanin_entry) : ik_wait_fanin_entry :=
  mk_entry (entry_uuid e) (entry_name e) s m.

(** Whether the entry is resolved, and the entry. *)
Definition update_target_status (my target : cstr) (e : ik_wait_fanin_entry) : dbm DB (bool * ik_wait_fanin_entry) :=
  if negb (strcmp_eq (entry_status e) (lit "running")) then dret (true, e)
  else
    do! msg := check_mail my (Some target) in
    match msg with
    | Some m =>
        do! _ := ignoring (ik_db_mail_delete (mail_id m) my) in
        dret (true, resolve (lit "received") (Some (body m)) e)
    | None =>
        do! agent := trying (ik_db_agent_get target) in
        match agent with
        | Some row =>
            if strcmp_eq (status row) (lit "dead") then dret (true, resolve (lit "dead") (entry_message e) e)
            else if idle row then dret (true, resolve (lit "idle") (entry_message e) e)
            else dret (false, e)
        | None => dret (false, e)
        end
    end.

Inductive select_result := Readable | Expired | Interrupted_call | Select_failed.

(** One round of a wait: the flag and the time since the start as they are read
    at its beginning, what select answers, and what others do to the database
    until the next round. *)
Record wait_round := mk_wait_round {
  wait_interrupted : bool;
  elapsed_ms : Z;
  selected : select_result;
  meanwhile : DB -> DB
}.

Record ik_wait_result := mk_wait_result {
  is_fanin : bool;
  result_from : option cstr;
  result_message : option cstr;
  result_entries : list ik_wait_fanin_entry
}.

Definition next_result (from message : option cstr) : ik_wait_result := mk_wait_result false from message [].
Definition no_message (reason : string) : ik_wait_result := next_result None (Some (lit reason)).

(** Others go on while select waits. *)
Definition others (f : DB -> DB) : dbm DB unit := fun d => (Ret tt, f d).

(** The message is reported and its row deleted. *)
Definition take_mail (my : cstr) (m : ik_mail_msg) : dbm DB ik_wait_result :=
  do! _ := ignoring (ik_db_mail_delete (mail_id m) my) in
  dret (next_result (Some (from_uuid m)) (Some (body m))).

Fixpoint next_loop (my : cstr) (timeout_sec : Z) (rounds : list wait_round) : dbm DB ik_wait_result :=
  match rounds with
  | [] => dlift NoFuel
  | r :: rounds =>
      if wait_interrupted r then dret (no_message "Interrupted")
      else if (timeout_sec * 1000 - elapsed_ms r <=? 0)%Z then dret (no_message "Timeout")
      else
        do! _ := others (meanwhile r) in
        match selected r with
        | Expired | Interrupted_call => next_loop my timeout_sec rounds
        | Select_failed => dret (no_message "Select failed")
        | Readable =>
            do! msg := check_mail my None in
            match msg with
            | Some m => take_mail my m
            | None => next_loop my timeout_sec rounds
            end
        end
  end.

Definition unlisten (u : cstr) : dbm DB unit := ignoring (ik_db_unlisten (agent_channel u)).

Definition ik_wait_core_next_message (my : cstr) (timeout_sec : Z) (rounds : list wait_round) : dbm DB ik_wait_result :=
  do! listening := trying (ik_db_listen (agent_channel my)) in
  match listening with
  | None => dret (no_message "Failed to LISTEN")
  | Some _ =>
      do! msg := check_mail my None in
      do! result :=
        match msg with
        | Some m => take_mail my m
        | None =>
            do! fd := (fun d => (Ret (socket_fd d), d)) in
            if (fd <? 0)%Z then dret (no_message "Database connection error")
            else next_loop my timeout_sec rounds
        end in
      do! _ := unlisten my in
      dret result
  end.

(** *** Fan-in *)

(** "for (i...)" over the targets. *)
Fixpoint each_target (f : cstr -> dbm DB unit) (targets : list cstr) : dbm DB unit :=
  match targets with [] => dret tt | t :: targets => do! _ := f t in each_target f targets end.

Definition entry_of (names : list (cstr * option cstr)) (target : cstr) : ik_wait_fanin_entry :=
  let found := List.find (fun n => strcmp_eq target (fst n)) names in
  mk_entry target (match found with Some (_, Some n) => n | _ => lit "undefined" end) (lit "running") None.

(** All entries once: whether all are resolved. *)
Fixpoint update_targets (my : cstr) (entries : list ik_wait_fanin_entry) : dbm DB (bool * list ik_wait_fanin_entry) :=
  match entries with
  | [] => dret (true, [])
  | e :: entries =>
      do! (resolved, e) := update_target_status my (entry_uuid e) e in
      do! (all_resolved, entries) := update_targets my entries in
      dret (resolved && all_resolved, e :: entries)
  end.

Fixpoint fanin_loop (my : cstr) (timeout_sec : Z) (entries : list ik_wait_fanin_entry) (rounds : list wait_round)
  : dbm DB (list ik_wait_fanin_entry) :=
  match rounds with
  | [] => dlift NoFuel
  | r :: rounds =>
      if wait_interrupted r then dret entries
      else if (timeout_sec * 1000 - elapsed_ms r <=? 0)%Z then dret entries
      else
        do! (all_resolved, entries) := update_targets my entries in
        if (all_resolved : bool) then dret entries
        else
          do! _ := others (meanwhile r) in
          match selected r with
          | Select_failed => dret entries
          | _ => fanin_loop my timeout_sec entries rounds
          end
  end.

(** A message of a target is looked for with the text of the target. *)
Definition ik_wait_core_fanin (my : cstr) (timeout_sec : Z) (targets : list cstr) (rounds : list wait_round)
  : dbm DB ik_wait_result :=
  do! listening := trying (ik_db_listen (agent_channel my)) in
  match listening with
  | None => dret (mk_wait_result true None None [])
  | Some _ =>
      do! _ := each_target (fun t => ignoring (ik_db_listen (agent_channel t))) targets in
      do! names := trying (ik_db_agent_get_names_batch targets) in
      let entries := entry_of (default [] names) <$> targets in
      do! fd := (fun d => (Ret (socket_fd d), d)) in
      do! entries := if (fd <? 0)%Z then dret entries else fanin_loop my timeout_sec entries rounds in
      do! _ := unlisten my in
      do! _ := each_target unlisten targets in
      dret (mk_wait_result true None None entries)
  end.

(** ** commands_wait.c: the worker *)

Definition wait_worker (my : cstr) (timeout_sec : Z) (targets : list cstr) (rounds : list wait_round) : dbm DB ik_wait_result :=
  match targets with
  | [] => ik_wait_core_next_message my timeout_sec rounds
  | _ => ik_wait_core_fanin my timeout_sec targets rounds
  end.

(** The lines shown when the worker is done. *)
Definition wait_on_complete (r : ik_wait_result) : list cstr :=
  if is_fanin r then
    lit "Fan-in results:" ::
    ((fun e => lit "  " ++ entry_uuid e ++ lit ": " ++ entry_status e ++
               match entry_message e with Some m => lit " - " ++ m | None => [] end) <$> result_entries r)
  else
    match result_from r with
    | Some f => [lit "From: " ++ f; default [] (result_message r)]
    | None => [default (lit "No messages") (result_message r)]
    end.

(** *** /wait: its arguments *)

(** strtok_r with spaces. *)
Fixpoint space_tokens (s token : cstr) : list cstr :=
  match s with
  | [] => match token with [] => [] | _ => [token] end
  | c :: s =>
      if (c =? 32)%Z then (match token with [] => [] | _ => [token] end) ++ space_tokens s []
      else space_tokens s (token ++ [c])
  end.

(** strtol: the number when the whole text is one. *)
Definition strtol_whole (s : cstr) : option Z :=
  let s := skip_spaces s in
  let '(negative, ds) := match s with
                         | c :: r => if (c =? 45)%Z then (true, r) else if (c =? 43)%Z then (false, r) else (false, s)
                         | [] => (false, s)
                         end in
  if negb (length ds =? 0)%nat && forallb (fun c => (48 <=? c)%Z && (c <=? 57)%Z) ds
  then Some (if negative then - digits_value ds 0 else digits_value ds 0)%Z else None.

(** A line to show, or the timeout and the targets of a wait to start. *)
Definition parse_wait (args : cstr) : cstr + (Z * list cstr) :=
  match space_tokens args [] with
  | [] => inl (lit "Usage: /wait TIMEOUT [UUID1 UUID2 ...]")
  | timeout_str :: targets =>
      match strtol_whole timeout_str with
      | Some t => if (t <? 0)%Z || (2 ^ 31 - 1 <? t)%Z then inl (lit "Error: Invalid timeout value") else inr (t, targets)
      | None => inl (lit "Error: Invalid timeout value")
      end
  end.

(** *** /send *)

Definition SEND_USAGE : cstr := lit "Usage: /send <uuid> " ++ quoted_text (lit "message").

Definition say_current (line : cstr) : cmd (DB := DB) unit := do! c := the_current in tell c line.

Definition ik_cmd_send (args : option cstr) : cmd (DB := DB) unit :=
  match args with
  | None | Some [] => say_current SEND_USAGE
  | Some args =>
      match ik_mail_parse_uuid args, quoted_message args with
      | Some u, Some text =>
          if (4096 <=? length text)%nat then say_current (lit "Message too long")
          else
            do! s := get_state in
            do! recipient := dlift (ik_repl_find_agent (tree s) u) in
            match recipient with
            | None => say_current (lit "Agent not found")
            | Some recipient =>
                do! c := the_current in
                do! error_msg := on_db (ik_send_core (AgentTree.uuid c) (AgentTree.uuid recipient) text) in
                match error_msg with
                | Some e => say_current e
                | None =>
                    do! confirm := dlift (bounded 64 (lit "Mail sent to " ++ take 22 (AgentTree.uuid recipient))) in
                    say_current confirm
                end
            end
      | _, _ => say_current SEND_USAGE
      end
  end.

End mail.

(** *** /wait *)

Section wait_command.
Context `{!Display} {hook : Type}.

(** The worker is started with [inr]'s arguments; [spawned] is that
    pthread_create succeeds, [wait_hook] the function that shows the result.
    Without arguments the text is NULL, and the assertion fails. *)
Definition ik_cmd_wait (wait_hook : hook) (db_available spawned : bool) (args_str : option cstr) (a : loop_agent hook)
  : outcome (loop_agent hook) :=
  let! args_str := or_panic args_str in
  if negb db_available then show_on (fun s => put_line s (lit "Error: Database not available")) a
  else
    match parse_wait args_str with
    | inl line => show_on (fun s => put_line s line) a
    | inr _ =>
        if spawned then
          Ret (set_state IK_AGENT_STATE_EXECUTING_TOOL (AgentLoop.spinner_visible a) (AgentLoop.input_buffer_visible a)
                 (set_thread true false (tool_thread_result a) (tool_child_pid a) (Some wait_hook) a))
        else
          show_on (fun s => put_line s (lit "Error: Failed to spawn worker thread"))
            (set_thread false false (tool_thread_result a) (tool_child_pid a) None a)
    end.
End wait_command.

(** ** Reading the arguments of /send *)

Lemma cut_word_at u rest : Forall (fun c => isspace c = false) u -> cut_word (u ++ 32%Z :: rest) = (u, 32%Z :: rest).
Proof. induction 1 as [|c u Hc _ IH]; [done|]. cbn [app cut_word]. by rewrite Hc, IH. Qed.

Lemma skip_word_start c s : isspace c = false -> skip_spaces (c :: s) = c :: s.
Proof. unfold isspace. cbn [skip_spaces]. by intros ->. Qed.

(** What is written as a word and a quoted text is read as them. *)
Lemma send_arguments_read u text rest : Forall (fun c => isspace c = false) u -> 0 < length u < 256 -> (34%Z ∉ text) ->
  ik_mail_parse_uuid (u ++ 32%Z :: quoted_text text ++ rest) = Some u /\ quoted_message (u ++ 32%Z :: quoted_text text ++ rest) = Some text.
Proof.
  intros Hu [H0 H1] Ht. destruct u as [|c u]; [cbn in H0; lia|]. apply Forall_cons in Hu as [Hc Hu'].
  assert (cut_word (skip_spaces ((c :: u) ++ 32%Z :: quoted_text text ++ rest)) = (c :: u, 32%Z :: quoted_text text ++ rest)) as E.
  { change ((c :: u) ++ ?l) with (c :: (u ++ l)). rewrite skip_word_start by done.
    exact (cut_word_at (c :: u) _ (Forall_cons_2 _ _ _ Hc Hu')). }
  unfold ik_mail_parse_uuid, quoted_message. rewrite E. split.
  - rewrite (proj2 (Nat.leb_gt 256 (length (c :: u)))) by done. done.
  - cbn [skip_spaces Z.eqb Z.leb Z.compare orb andb Pos.eqb quoted_text app]. cbn [skip_spaces]. cbn.
    rewrite <- app_assoc. change ([34%Z] ++ rest) with (34%Z :: rest). rewrite (strchr_app text 34 rest) by done. by rewrite take_app_length.
Qed.

(** ** What the statements answer

    SELECT changes nothing; any statement may fail, and then changes nothing of
    these tables. *)

Class MailTables (DB : Type) := {
  mails : DB -> list (Z * ik_mail_msg);
  agent_rows : DB -> list ik_db_agent_row
}.

Definition mail_columns (m : ik_mail_msg) : list (option cstr) :=
  [Some (show_int (mail_id m)); Some (from_uuid m); Some (to_uuid m); Some (body m); Some (show_int (mail_timestamp m));
   Some (if read m then lit "1" else lit "0")].

Definition fits (z : Z) : Prop := (- 2 ^ 63 <= z < 2 ^ 63)%Z.

(** ORDER BY read ASC, timestamp DESC *)
Definition mail_before (a b : ik_mail_msg) : Prop :=
  (read a = false /\ read b = true) \/ (read a = read b /\ (mail_timestamp b <= mail_timestamp a)%Z).

Section tables.
Context {DB : Type} `{!MailTables DB}.

(** The messages of a session to an agent. *)
Definition inbox (sid : Z) (to : cstr) (d : DB) : list ik_mail_msg :=
  snd <$> filter (fun p => fst p = sid /\ to_uuid (snd p) = to) (mails d).

Record mails_ok (d : DB) : Prop := {
  ids_fit : Forall (fun m => (0 < mail_id m < 2 ^ 63)%Z /\ fits (mail_timestamp m)) (snd <$> mails d);
  ids_distinct : NoDup (mail_id <$> (snd <$> mails d));
  agent_times_fit : Forall (fun a => fits (created_at a) /\ fits (ended_at a)) (agent_rows d)
}.

Definition same_tables (d d' : DB) : Prop := mails d' = mails d /\ agent_rows d' = agent_rows d.
End tables.

Definition names_query (n : nat) : cstr := lit "SELECT uuid, name FROM agents WHERE uuid IN (" ++ placeholders n 0 ++ lit ")".

Class MailQueries (DB : Type) `{!Libpq DB} `{!MailTables DB} : Prop := {
  channel_statement verb c tail d : (34%Z ∉ c) ->
    (verb, tail) ∈ [(lit "LISTEN ", []); (lit "UNLISTEN ", []); (lit "NOTIFY ", lit ", 'mail'")] ->
    same_tables d (snd (pq_exec_params (verb ++ quoted_text c ++ tail) [] d));
  select_names us d : snd (pq_exec_params (names_query (length us)) (Some <$> us) d) = d /\
    forall rows, fst (pq_exec_params (names_query (length us)) (Some <$> us) d) = PGRES_TUPLES_OK rows ->
      Forall (fun row => exists u n, row = [Some u; n]) rows;
  select_one_agent u d : snd (pq_exec_params GET_AGENT [Some u] d) = d /\
    forall rows, fst (pq_exec_params GET_AGENT [Some u] d) = PGRES_TUPLES_OK rows ->
      rows = agent_columns <$> filter (fun a => uuid a = u) (agent_rows d);
  select_inbox sid u d : fits sid -> snd (pq_exec_params INBOX [Some (show_int sid); Some u] d) = d /\
    forall rows, fst (pq_exec_params INBOX [Some (show_int sid); Some u] d) = PGRES_TUPLES_OK rows ->
      exists ms, rows = mail_columns <$> ms /\ ms ≡ₚ inbox sid u d /\ StronglySorted mail_before ms;
  select_inbox_of sid u f d : fits sid -> snd (pq_exec_params INBOX_FILTERED [Some (show_int sid); Some u; Some f] d) = d /\
    forall rows, fst (pq_exec_params INBOX_FILTERED [Some (show_int sid); Some u; Some f] d) = PGRES_TUPLES_OK rows ->
      exists ms, rows = mail_columns <$> ms /\ ms ≡ₚ filter (fun m => from_uuid m = f) (inbox sid u d) /\ StronglySorted mail_before ms;
  delete_row id u d : fits id ->
    agent_rows (snd (pq_exec_params DELETE_MAIL [Some (show_int id); Some u] d)) = agent_rows d /\
    mails (snd (pq_exec_params DELETE_MAIL [Some (show_int id); Some u] d)) =
    match fst (pq_exec_params DELETE_MAIL [Some (show_int id); Some u] d) with
    | PGRES_COMMAND_OK _ => filter (fun p => ~ (mail_id (snd p) = id /\ to_uuid (snd p) = u)) (mails d)
    | _ => mails d
    end;
  insert_row sid f t b ts d : fits sid -> fits ts -> forall r d',
    pq_exec_params INSERT_MAIL [Some (show_int sid); Some f; Some t; Some b; Some (show_int ts)] d = (r, d') ->
    agent_rows d' = agent_rows d /\
    match r with
    | PGRES_TUPLES_OK rows =>
        exists id, rows = [[Some (show_int id)]] /\ (0 < id < 2 ^ 63)%Z /\ (id ∉ mail_id <$> (snd <$> mails d)) /\
          mails d' = mails d ++ [(sid, mk_mail id f t b ts false)]
    | _ => mails d' = mails d
    end
}.

(** ** The mailbox a waiting agent uses

    What others do comes in order; a message read is one of the inbox, first of
    its peers, and it is removed unless the server refuses.
    The list holds the senders and texts of the messages read. *)

Section mailbox.
Context {DB : Type} `{!Libpq DB} `{!MailTables DB}.

Definition letter (m : ik_mail_msg) : cstr * cstr := (from_uuid m, body m).

Definition delete_refused (my : cstr) (m : ik_mail_msg) (d : DB) : Prop :=
  forall n, fst (pq_exec_params DELETE_MAIL [Some (show_int (mail_id m)); Some my] d) <> PGRES_COMMAND_OK n.

Inductive mailbox (peer : ik_mail_msg -> ik_mail_msg -> Prop) (sid : Z) (my : cstr) : list (DB -> DB) -> DB -> list (cstr * cstr) -> DB -> Prop :=
| mailbox_done fs d d' : same_tables d d' -> mailbox peer sid my fs d [] d'
| mailbox_quiet fs d d1 read d' : same_tables d d1 -> mailbox peer sid my fs d1 read d' -> mailbox peer sid my fs d read d'
| mailbox_others f fs d read d' : mailbox peer sid my fs (f d) read d' -> mailbox peer sid my (f :: fs) d read d'
| mailbox_read fs d d1 m read d' :
    m ∈ inbox sid my d -> Forall (fun m' => peer m m' -> mail_before m m') (inbox sid my d) ->
    inbox sid my d ≡ₚ m :: inbox sid my d1 \/ (delete_refused my m d /\ same_tables d d1) ->
    mailbox peer sid my fs d1 read d' -> mailbox peer sid my fs d (letter m :: read) d'.
End mailbox.

(** The messages a result reports. *)
Definition reported (r : ik_wait_result) : list (cstr * cstr) :=
  match result_from r with
  | Some f => [(f, default [] (result_message r))]
  | None => omap (fun e => if strcmp_eq (entry_status e) (lit "received") then Some (entry_uuid e, default [] (entry_message e)) else None)
                 (result_entries r)
  end.

(** One sender's messages are peers in a fan-in, all messages otherwise. *)
Definition peers (targets : list cstr) (m m' : ik_mail_msg) : Prop :=
  match targets with [] => True | _ => from_uuid m' = from_uuid m end.

(** ** Proofs *)

Section server.
Context {DB : Type} `{!Libpq DB} `{!MailTables DB} `{!MailQueries DB} (N : Prop) (sid : Z) (Hsid : (0 < sid < 2 ^ 63)%Z).

Lemma sid_fits : fits sid.
Proof. unfold fits. lia. Qed.

Lemma same_inbox u (d d' : DB) : same_tables d d' -> inbox sid u d' = inbox sid u d.
Proof. intros [E _]. unfold inbox. by rewrite E. Qed.

Lemma same_ok (d d' : DB) : same_tables d d' -> mails_ok d -> mails_ok d'.
Proof. intros [Em Ea] [H1 H2 H3]. constructor; rewrite ?Em, ?Ea; done. Qed.

Lemma same_refl (d : DB) : same_tables d d.
Proof. done. Qed.

Lemma same_trans (d1 d2 d3 : DB) : same_tables d1 d2 -> same_tables d2 d3 -> same_tables d1 d3.
Proof. intros [E1 E2] [E3 E4]. split; congruence. Qed.

Lemma in_inbox u m (d : DB) : m ∈ inbox sid u d <-> (sid, m) ∈ mails d /\ to_uuid m = u.
Proof.
  unfold inbox. rewrite list_elem_of_fmap. split.
  - intros ([s m'] & -> & Hm). apply list_elem_of_filter in Hm as [[E1 E2] Hm]. cbn [fst snd] in *. by subst s.
  - intros [Hm E]. exists (sid, m). split; [done|]. apply list_elem_of_filter. done.
Qed.

Lemma inbox_fits u (d : DB) : mails_ok d -> Forall (fun m => (0 < mail_id m < 2 ^ 63)%Z /\ fits (mail_timestamp m)) (inbox sid u d).
Proof.
  intros Hok. apply Forall_forall. intros m [Hm _]%in_inbox. apply (proj1 (Forall_forall _ _) (ids_fit d Hok)).
  apply list_elem_of_fmap. by exists (sid, m).
Qed.

Lemma parse_mails_ok rows ms : forall i, drop i rows = mail_columns <$> ms ->
  Forall (fun m => (0 < mail_id m < 2 ^ 63)%Z /\ fits (mail_timestamp m)) ms -> parse_mails rows (length ms) i = Ret ms.
Proof.
  induction ms as [|m ms IH]; intros i Hd Hf; [done|]. apply Forall_cons in Hf as [[Hi Ht] Hf]. cbn [parse_mails length].
  assert (rows !! i = Some (mail_columns m)) as Ei by (rewrite <- (Nat.add_0_r i), <- lookup_drop, Hd; reflexivity).
  unfold parse_mail, PQgetvalue. rewrite Ei. cbn [mbind option_bind]. unfold mail_columns at 1 2 3 4 5 6.
  cbn [lookup list_lookup obind default id]. rewrite !strtoll_shown by (unfold fits in *; lia). cbn [obind].
  rewrite (IH (S i)); [|by rewrite (drop_S _ _ _ Ei) in Hd; injection Hd|done].
  destruct m as [id f t b ts r]. cbn [obind mail_id from_uuid to_uuid body mail_timestamp read]. by destruct r.
Qed.

Lemma no_quote_channel u : (34%Z ∉ u) -> (34%Z ∉ agent_channel u).
Proof. unfold agent_channel. rewrite not_elem_of_app. intros Hu. split; [|done]. apply (bool_decide_unpack _). vm_compute. exact I. Qed.

Lemma wp_channel verb tail u d (F : DB -> Prop) : (34%Z ∉ u) ->
  (verb, tail) ∈ [(lit "LISTEN ", []); (lit "UNLISTEN ", []); (lit "NOTIFY ", lit ", 'mail'")] ->
  (forall d', same_tables d d' -> F d') ->
  wp N (notify_command (verb ++ quoted_text (agent_channel u) ++ tail)) d (fun _ d' => same_tables d d') F.
Proof.
  intros Hu Hv HF. pose proof (channel_statement verb _ tail d (no_quote_channel u Hu) Hv) as Hs. unfold wp, notify_command.
  destruct (pq_exec_params _ _ d) as [r d1]. cbn [snd] in Hs. destruct r; auto.
Qed.

Lemma wp_listen u d (F : DB -> Prop) : (34%Z ∉ u) -> (forall d', same_tables d d' -> F d') ->
  wp N (ik_db_listen (agent_channel u)) d (fun _ d' => same_tables d d') F.
Proof. intros Hu HF. pose proof (wp_channel (lit "LISTEN ") [] u d F Hu) as H. rewrite app_nil_r in H. apply H; [left|done]. Qed.

Lemma wp_unlisten u d (F : DB -> Prop) : (34%Z ∉ u) -> wp N (unlisten u) d (fun _ d' => same_tables d d') F.
Proof.
  intros Hu. apply wp_ignoring. pose proof (wp_channel (lit "UNLISTEN ") [] u d (same_tables d) Hu) as H.
  rewrite app_nil_r in H. apply H; [right; left|done].
Qed.

Lemma wp_each_target (f : cstr -> dbm DB unit) targets d F :
  (forall t d F, t ∈ targets -> wp N (f t) d (fun _ d' => same_tables d d') F) -> wp N (each_target f targets) d (fun _ d' => same_tables d d') F.
Proof.
  revert d. induction targets as [|t ts IH]; intros d Hf; [apply wp_ret, same_refl|]. cbn [each_target]. apply wp_bind.
  eapply wp_mono; [apply (Hf t d F); left| |done]. intros [] d1 H1. cbn beta in H1.
  eapply wp_mono; [apply IH; intros t' d2 F' Ht; apply Hf; by right| |done]. intros [] d2 H2. cbn beta in H2. by eapply same_trans.
Qed.

(** What check_mail finds. *)
Definition first_of (from : option cstr) (my : cstr) (m : ik_mail_msg) (d : DB) : Prop :=
  m ∈ inbox sid my d /\ (forall f, from = Some f -> from_uuid m = f) /\
  Forall (fun m' => (forall f, from = Some f -> from_uuid m' = f) -> mail_before m m') (inbox sid my d).

Lemma head_first from my m ms (d : DB) : (forall f, from = Some f -> m :: ms ≡ₚ filter (fun m => from_uuid m = f) (inbox sid my d)) ->
  (from = None -> m :: ms ≡ₚ inbox sid my d) -> StronglySorted mail_before (m :: ms) -> first_of from my m d.
Proof.
  intros Hf Hn Hs. apply StronglySorted_inv in Hs as [_ Hs].
  assert (forall m', m' ∈ m :: ms -> mail_before m m') as Hb.
  { intros m' [->|Hm]%elem_of_cons; [right; split; [done|lia]|]. by apply (proj1 (Forall_forall _ _) Hs). }
  destruct from as [f|].
  - specialize (Hf f eq_refl). assert (m ∈ filter (fun m => from_uuid m = f) (inbox sid my d)) as Hm by (rewrite <- Hf; left).
    apply list_elem_of_filter in Hm as [Ef Hm]. split_and!; [done|by intros ? [= <-]|]. apply Forall_forall. intros m' Hm' Hp. apply Hb.
    rewrite Hf. apply list_elem_of_filter. auto.
  - specialize (Hn eq_refl). split_and!; [rewrite <- Hn; left|done|]. apply Forall_forall. intros m' Hm' _. apply Hb. by rewrite Hn.
Qed.

Lemma check_mail_ok my from d (F : DB -> Prop) : mails_ok d ->
  wp N (check_mail sid my from) d (fun o d' => d' = d /\ match o with Some m => first_of from my m d | None => True end) F.
Proof.
  intros Hok. unfold check_mail. apply wp_bind, wp_trying.
  assert (forall rows ms, rows = mail_columns <$> ms -> (forall x, x ∈ ms -> x ∈ inbox sid my d) ->
    parse_mails rows (length rows) 0 = Ret ms) as Hparse.
  { intros rows ms -> Hin. rewrite length_fmap. apply parse_mails_ok; [done|]. apply Forall_forall. intros x Hx.
    by apply (proj1 (Forall_forall _ _) (inbox_fits my d Hok)), Hin. }
  destruct from as [f|].
  - unfold ik_db_mail_inbox_filtered, asserting. rewrite (proj2 (Z.ltb_lt 0 sid)) by lia. destruct (select_inbox_of sid my f d sid_fits) as [Ed Hrows].
    apply wp_bind, wp_tuples; [done| |by apply wp_ret]. intros rows Er. destruct (Hrows rows Er) as (ms & Ems & Hp & Hs).
    rewrite (Hparse rows ms Ems); [|intros x Hx; rewrite Hp in Hx; by apply list_elem_of_filter in Hx as [_ Hx]]. apply wp_lift.
    destruct ms as [|m ms]; apply wp_ret; split; try done. by apply (head_first _ my m ms d); [intros ? [= <-]| |].
  - unfold ik_db_mail_inbox, asserting. rewrite (proj2 (Z.ltb_lt 0 sid)) by lia. destruct (select_inbox sid my d sid_fits) as [Ed Hrows].
    apply wp_bind, wp_tuples; [done| |by apply wp_ret]. intros rows Er. destruct (Hrows rows Er) as (ms & Ems & Hp & Hs).
    rewrite (Hparse rows ms Ems); [|intros x Hx; by rewrite Hp in Hx]. apply wp_lift.
    destruct ms as [|m ms]; apply wp_ret; split; try done. by apply (head_first _ my m ms d).
Qed.

(** *** Deleting *)

Lemma filter_out (l : list (Z * ik_mail_msg)) u m : NoDup (mail_id <$> (snd <$> l)) -> (sid, m) ∈ l -> to_uuid m = u ->
  snd <$> filter (fun p => fst p = sid /\ to_uuid (snd p) = u) l ≡ₚ
  m :: (snd <$> filter (fun p => fst p = sid /\ to_uuid (snd p) = u) (filter (fun p => ~ (mail_id (snd p) = mail_id m /\ to_uuid (snd p) = u)) l)).
Proof.
  intros Hnd Hm Hu. apply list_elem_of_split in Hm as (l1 & l2 & ->). rewrite !fmap_app, !fmap_cons in Hnd. cbn [snd] in Hnd.
  assert (forall k, k ∈ l1 \/ k ∈ l2 -> ~ (mail_id (snd k) = mail_id m /\ to_uuid (snd k) = u)) as Hk.
  { intros k Hk [E _]. rewrite <- Permutation_middle in Hnd. apply NoDup_cons in Hnd as [Hnd _]. apply Hnd. rewrite <- E.
    apply elem_of_app. destruct Hk as [Hk|Hk]; [left|right]; by do 2 apply list_elem_of_fmap_2. }
  assert (forall l' : list (Z * ik_mail_msg), (forall k, k ∈ l' -> k ∈ l1 \/ k ∈ l2) ->
    filter (fun p => ~ (mail_id (snd p) = mail_id m /\ to_uuid (snd p) = u)) l' = l') as Hf.
  { intros l' Hl. induction l' as [|k l' IH]; [done|]. rewrite filter_cons_True; [f_equal; apply IH; intros; apply Hl; by right|].
    apply Hk, Hl. left. }
  rewrite !filter_app. rewrite (filter_cons_True _ (sid, m)) by done.
  rewrite (filter_cons_False (fun p => ~ _) (sid, m)) by (intros H; by apply H).
  rewrite !(Hf l1), !(Hf l2) by auto. rewrite !fmap_app. cbn [snd fmap list_fmap]. by rewrite <- Permutation_middle.
Qed.

Lemma delete_ok my m d (F : DB -> Prop) : mails_ok d -> m ∈ inbox sid my d ->
  wp N (ignoring (ik_db_mail_delete (mail_id m) my)) d
    (fun _ d' => mails_ok d' /\ (inbox sid my d ≡ₚ m :: inbox sid my d' \/ (delete_refused my m d /\ same_tables d d'))) F.
Proof.
  intros Hok Hm. apply wp_ignoring. pose proof (proj1 (Forall_forall _ _) (inbox_fits my d Hok) m Hm) as [Hid _].
  apply in_inbox in Hm as [Hm Hu]. unfold ik_db_mail_delete, asserting. rewrite (proj2 (Z.ltb_lt _ _)) by lia.
  destruct (delete_row (mail_id m) my d) as [Ea Em]; [unfold fits; lia|]. unfold delete_refused, inbox, wp, dbind, command.
  destruct (pq_exec_params DELETE_MAIL _ d) as [r d1]. cbn [fst snd] in Ea, Em.
  assert (forall n, r = PGRES_COMMAND_OK n -> mails_ok d1 /\
    ((snd <$> filter (fun p => fst p = sid /\ to_uuid (snd p) = my) (mails d)) ≡ₚ
     m :: (snd <$> filter (fun p => fst p = sid /\ to_uuid (snd p) = my) (mails d1)))) as Hdel.
  { intros n ->. rewrite Em. split; [|by apply filter_out; [apply ids_distinct| |]]. destruct Hok as [H1 H2 H3].
    constructor; rewrite ?Em, ?Ea; [| |done].
    - apply Forall_fmap. apply Forall_fmap in H1. apply Forall_forall. intros p [_ Hp]%list_elem_of_filter.
      by apply (proj1 (Forall_forall _ _) H1).
    - eapply sublist_NoDup; [exact H2|]. do 2 apply fmap_sublist. apply sublist_filter. }
  assert ((forall n, r <> PGRES_COMMAND_OK n) -> same_tables d d1) as Hsame by (intros Hr; split; [destruct r; try done; exfalso; by eapply Hr|done]).
  destruct r as [rows|n|]; cbn [fst].
  - assert (same_tables d d1) as Hs by (by apply Hsame). split; [by eapply same_ok|]. right. by split.
  - destruct (Hdel n eq_refl) as [H1 H2]. destruct (strcmp_eq n (lit "0")); cbn; split; auto.
  - assert (same_tables d d1) as Hs by (by apply Hsame). split; [by eapply same_ok|]. right. by split.
Qed.

(** *** Runs of the mailbox *)

Variable (peer : ik_mail_msg -> ik_mail_msg -> Prop) (socket_fd : DB -> Z).

Lemma mailbox_then_quiet my fs d read (d1 d2 : DB) : mailbox peer sid my fs d read d1 -> same_tables d1 d2 -> mailbox peer sid my fs d read d2.
Proof.
  induction 1 as [| | |fs d d1' m read d' Hm Hf Hd _ IH]; intros Hs.
  - apply mailbox_done. by eapply same_trans.
  - eapply mailbox_quiet; eauto.
  - apply mailbox_others. eauto.
  - eapply mailbox_read; eauto.
Qed.

(** A part of a run without others: it reads [new]. *)
Definition uses (my : cstr) (d : DB) (new : list (cstr * cstr)) (d' : DB) : Prop :=
  forall fs read d2, mailbox peer sid my fs d' read d2 -> mailbox peer sid my fs d (new ++ read) d2.

Lemma uses_quiet my (d d' : DB) : same_tables d d' -> uses my d [] d'.
Proof. intros Hs fs read d2 H. by eapply mailbox_quiet. Qed.

Lemma uses_trans my n1 n2 (d1 d2 d3 : DB) : uses my d1 n1 d2 -> uses my d2 n2 d3 -> uses my d1 (n1 ++ n2) d3.
Proof. intros H1 H2 fs read d4 H. rewrite <- app_assoc. by apply H1, H2. Qed.

(** The message found is read and deleted. *)
Lemma take_first from my m d (F : DB -> Prop) : mails_ok d -> first_of from my m d ->
  (forall m', peer m m' -> forall f, from = Some f -> from_uuid m' = f) ->
  wp N (ignoring (ik_db_mail_delete (mail_id m) my)) d (fun _ d' => mails_ok d' /\ uses my d [letter m] d') F.
Proof.
  intros Hok (Hm & _ & Hfirst) Hpeer. eapply wp_mono; [by apply (delete_ok my m d F)| |done].
  intros [] d' [Hok' Hd]. cbn beta in *. split; [done|]. intros fs read d2 H. eapply mailbox_read; [done| |exact Hd|exact H].
  eapply Forall_impl; [exact Hfirst|]. intros m' Hb Hp. apply Hb. intros f Hfr. by apply (Hpeer m' Hp).
Qed.

(** *** The next message *)

Definition ends (timeout_sec : Z) (r : wait_round (DB := DB)) : Prop :=
  wait_interrupted r = true \/ (timeout_sec * 1000 <= elapsed_ms r)%Z.

(** What others do keeps the constraints of the tables. *)
Definition respects (r : wait_round (DB := DB)) : Prop := forall d, mails_ok d -> mails_ok (meanwhile r d).

(** The result reports what was read since [d]. *)
Definition answered (my : cstr) (rounds : list wait_round) (d : DB) (r : ik_wait_result) (d' : DB) : Prop :=
  exists new, mailbox peer sid my (meanwhile <$> rounds) d new d' /\ reported r ≡ₚ new.

Lemma nothing_read my rounds d (d' : DB) reason : same_tables d d' -> answered my rounds d (no_message reason) d'.
Proof. intros Hs. exists []. by split; [apply mailbox_done|]. Qed.

Lemma answered_quiet my rounds d r (d1 d2 : DB) : answered my rounds d r d1 -> same_tables d1 d2 -> answered my rounds d r d2.
Proof. intros (new & Hm & Hr) Hs. exists new. split; [by eapply mailbox_then_quiet|done]. Qed.

Lemma answered_after my rounds r (d0 d d1 : DB) : same_tables d0 d -> answered my rounds d r d1 -> answered my rounds d0 r d1.
Proof. intros Hs (new & Hm & Hr). exists new. split; [by eapply mailbox_quiet|done]. Qed.

Lemma take_mail_ok my rounds m d (F : DB -> Prop) : mails_ok d -> first_of None my m d ->
  wp N (take_mail my m) d (answered my rounds d) F.
Proof.
  intros Hok Hm. unfold take_mail. apply wp_bind. eapply wp_mono; [apply (take_first None my m d F Hok Hm); by intros| |done].
  intros [] d1 [_ Hu]. apply wp_ret. exists [letter m]. split; [|done]. rewrite <- (app_nil_r [letter m]). by apply Hu, mailbox_done.
Qed.

Lemma next_loop_ok my timeout_sec rounds d (F : DB -> Prop) : mails_ok d -> Forall respects rounds -> (~ Exists (ends timeout_sec) rounds -> N) ->
  wp N (next_loop sid my timeout_sec rounds) d (answered my rounds d) F.
Proof.
  revert d. induction rounds as [|r rounds IH]; intros d Hok Hr HN; [apply HN; by intros ?%Exists_nil|].
  apply Forall_cons in Hr as [Hr Hrs]. cbn [next_loop].
  destruct (wait_interrupted r) eqn:Ei; [by apply wp_ret, nothing_read|].
  destruct (Z.leb_spec (timeout_sec * 1000 - elapsed_ms r) 0) as [Ht|Ht]; [by apply wp_ret, nothing_read|].
  assert (~ Exists (ends timeout_sec) rounds -> N) as HN'.
  { intros Hn. apply HN. rewrite Exists_cons. intros [[He|He]|He]; [by rewrite Ei in He|lia|done]. }
  assert (forall r0 d1, answered my rounds (meanwhile r d) r0 d1 -> answered my (r :: rounds) d r0 d1) as Hmore.
  { intros r0 d1 (new & Hm & Hp). exists new. split; [by apply mailbox_others|done]. }
  apply wp_bind. unfold others. cbn [wp]. specialize (Hr d Hok). destruct (selected r).
  - apply wp_bind. eapply wp_mono; [by apply (check_mail_ok my None)| |done]. intros [m|] d1 [-> Hm].
    + eapply wp_mono; [by apply (take_mail_ok my rounds m)|apply Hmore|done].
    + eapply wp_mono; [by apply IH|apply Hmore|done].
  - eapply wp_mono; [by apply IH|apply Hmore|done].
  - eapply wp_mono; [by apply IH|apply Hmore|done].
  - apply wp_ret, Hmore. by apply nothing_read.
Qed.

Lemma next_message_ok my timeout_sec rounds d (F : DB -> Prop) : (34%Z ∉ my) -> mails_ok d -> Forall respects rounds ->
  (~ Exists (ends timeout_sec) rounds -> N) -> wp N (ik_wait_core_next_message socket_fd sid my timeout_sec rounds) d (answered my rounds d) F.
Proof.
  intros Hq Hok Hr HN. unfold ik_wait_core_next_message. apply wp_bind, wp_trying.
  eapply wp_mono; [apply (wp_listen my d (same_tables d)); [done|done]| |].
  2: { intros d1 Hs. apply wp_ret. by apply nothing_read. }
  intros [] d1 Hs. cbn beta in Hs. assert (mails_ok d1) as Hok1 by (by eapply same_ok).
  assert (forall r d2, answered my rounds d1 r d2 ->
    wp N (do! _ := unlisten my in dret r) d2 (answered my rounds d) F) as Hend.
  { intros r d2 Ha. apply wp_bind. eapply wp_mono; [by apply wp_unlisten| |done]. intros [] d3 Hs3. apply wp_ret.
    eapply answered_after; [exact Hs|]. by eapply answered_quiet. }
  apply wp_bind. eapply wp_mono; [by apply (check_mail_ok my None)| |done]. intros [m|] d2 [-> Hm]; apply wp_bind.
  - eapply wp_mono; [by apply (take_mail_ok my rounds m)|apply Hend|done].
  - apply wp_bind. unfold wp at 1. destruct (socket_fd d1 <? 0)%Z.
    + apply wp_ret, Hend. by apply nothing_read, same_refl.
    + eapply wp_mono; [by apply next_loop_ok|apply Hend|done].
Qed.
(** *** Fan-in *)

Definition got (e : ik_wait_fanin_entry) : option (cstr * cstr) :=
  if strcmp_eq (entry_status e) (lit "received") then Some (entry_uuid e, default [] (entry_message e)) else None.

Hypothesis same_sender : forall m m', peer m m' -> from_uuid m' = from_uuid m.

Lemma running_not_got e : strcmp_eq (entry_status e) (lit "running") = true -> got e = None.
Proof. unfold got. intros ->%strcmp_eq_true. reflexivity. Qed.

Lemma update_status_ok my e d (F : DB -> Prop) : mails_ok d ->
  wp N (update_target_status sid my (entry_uuid e) e) d
    (fun p d' => mails_ok d' /\ entry_uuid (snd p) = entry_uuid e /\
       exists new, uses my d new d' /\ option_list (got (snd p)) = option_list (got e) ++ new) F.
Proof.
  intros Hok. unfold update_target_status.
  assert (forall b, mails_ok d /\ entry_uuid (snd (b : bool, e)) = entry_uuid e /\
    exists new, uses my d new d /\ option_list (got (snd (b, e))) = option_list (got e) ++ new) as Hsame.
  { intros b. split_and!; [done|done|]. exists []. split; [apply uses_quiet, same_refl|by rewrite app_nil_r]. }
  destruct (strcmp_eq (entry_status e) (lit "running")) eqn:Er; cbn [negb]; [|apply wp_ret, Hsame].
  apply running_not_got in Er. apply wp_bind. eapply wp_mono; [by apply (check_mail_ok my (Some (entry_uuid e)))| |done].
  intros [m|] d1 [-> Hm].
  - apply wp_bind. eapply wp_mono; [apply (take_first (Some (entry_uuid e)) my m d F Hok Hm)| |done].
    + intros m' Hp f [= <-]. destruct Hm as (_ & Hf & _). rewrite (same_sender _ _ Hp). by apply Hf.
    + intros [] d1 [Hok1 Hu]. apply wp_ret. split_and!; [done|done|]. exists [letter m]. split; [done|]. rewrite Er.
      destruct Hm as (_ & Hf & _). unfold letter. by rewrite (Hf _ eq_refl).
  - assert (forall s, s <> lit "received" -> mails_ok d /\ entry_uuid (snd (true, resolve s (entry_message e) e)) = entry_uuid e /\
      exists new, uses my d new d /\ option_list (got (snd (true, resolve s (entry_message e) e))) = option_list (got e) ++ new) as Hother.
    { intros s Hs. split_and!; [done|done|]. exists []. split; [apply uses_quiet, same_refl|]. rewrite Er. unfold got, strcmp_eq. cbn [snd resolve entry_status].
      by rewrite bool_decide_eq_false_2. }
    apply wp_bind, wp_trying. unfold ik_db_agent_get. apply wp_bind. destruct (select_one_agent (entry_uuid e) d) as [Ed Hrows].
    apply wp_tuples; [done| |apply wp_ret, Hsame]. intros rows ->%Hrows.
    destruct (filter _ (agent_rows d)) as [|a l] eqn:Ef; [apply wp_ret, Hsame|].
    assert (a ∈ agent_rows d) as Ha by (eapply list_elem_of_filter; rewrite Ef; left).
    pose proof (proj1 (Forall_forall _ _) (agent_times_fit d Hok) a Ha) as [Hc He]. cbn [fmap list_fmap].
    rewrite (parse_row_shown a (agent_columns a :: _) 0 Hc He eq_refl). apply wp_lift.
    destruct (strcmp_eq (status a) (lit "dead")); [by apply wp_ret, Hother|]. destruct (idle a); apply wp_ret; [by apply Hother|apply Hsame].
Qed.

Lemma update_targets_ok my es d (F : DB -> Prop) : mails_ok d ->
  wp N (update_targets sid my es) d
    (fun p d' => mails_ok d' /\ exists new, uses my d new d' /\ omap got (snd p) ≡ₚ omap got es ++ new) F.
Proof.
  revert d. induction es as [|e es IH]; intros d Hok; cbn [update_targets].
  { apply wp_ret. split; [done|]. exists []. split; [apply uses_quiet, same_refl|done]. }
  apply wp_bind. eapply wp_mono; [by apply update_status_ok| |done]. intros [b e'] d1 (Hok1 & _ & n1 & Hu1 & Hg1). cbn [snd] in Hg1.
  apply wp_bind. eapply wp_mono; [by apply IH| |done]. intros [b' es'] d2 (Hok2 & n2 & Hu2 & Hg2). cbn [snd] in Hg2.
  apply wp_ret. split; [done|]. exists (n1 ++ n2). split; [by eapply uses_trans|]. cbn [snd].
  assert (forall x l, omap got (x :: l) = option_list (got x) ++ omap got l) as Hc by (intros x l; cbn; by destruct (got x)).
  rewrite !Hc, Hg1, Hg2. by solve_Permutation.
Qed.

Lemma fanin_loop_ok my timeout_sec rounds es d (F : DB -> Prop) : mails_ok d -> Forall respects rounds ->
  (~ Exists (ends timeout_sec) rounds -> N) ->
  wp N (fanin_loop sid my timeout_sec es rounds) d
    (fun es' d' => exists new, mailbox peer sid my (meanwhile <$> rounds) d new d' /\ omap got es' ≡ₚ omap got es ++ new) F.
Proof.
  revert es d. induction rounds as [|r rounds IH]; intros es d Hok Hr HN; [apply HN; by intros ?%Exists_nil|].
  apply Forall_cons in Hr as [Hr Hrs]. cbn [fanin_loop].
  assert (exists new, mailbox peer sid my (meanwhile <$> r :: rounds) d new d /\ omap got es ≡ₚ omap got es ++ new) as Hstop.
  { exists []. split; [by apply mailbox_done|by rewrite app_nil_r]. }
  destruct (wait_interrupted r) eqn:Ei; [by apply wp_ret|].
  destruct (Z.leb_spec (timeout_sec * 1000 - elapsed_ms r) 0) as [Ht|Ht]; [by apply wp_ret|].
  assert (~ Exists (ends timeout_sec) rounds -> N) as HN'.
  { intros Hn. apply HN. rewrite Exists_cons. intros [[He|He]|He]; [by rewrite Ei in He|lia|done]. }
  apply wp_bind. eapply wp_mono; [by apply update_targets_ok| |done]. intros [b es1] d1 (Hok1 & n1 & Hu1 & Hg1). cbn [snd] in Hg1.
  assert (exists new, mailbox peer sid my (meanwhile <$> r :: rounds) d new d1 /\ omap got es1 ≡ₚ omap got es ++ new) as Hdone.
  { exists n1. split; [|done]. rewrite <- (app_nil_r n1). by apply Hu1, mailbox_done. }
  destruct b; [by apply wp_ret|]. apply wp_bind. unfold others. cbn [wp]. specialize (Hr d1 Hok1).
  assert (exists new, mailbox peer sid my (meanwhile <$> r :: rounds) d new (meanwhile r d1) /\ omap got es1 ≡ₚ omap got es ++ new) as Hfail.
  { exists n1. split; [|done]. rewrite <- (app_nil_r n1). by apply Hu1, mailbox_others, mailbox_done. }
  assert (wp N (fanin_loop sid my timeout_sec es1 rounds) (meanwhile r d1)
    (fun es' d' => exists new, mailbox peer sid my (meanwhile <$> r :: rounds) d new d' /\ omap got es' ≡ₚ omap got es ++ new) F) as Hgo.
  { eapply wp_mono; [by apply IH| |done]. intros es2 d2 (n2 & Hm2 & Hg2). exists (n1 ++ n2).
    split; [by apply Hu1, mailbox_others|]. by rewrite Hg2, Hg1, app_assoc. }
  destruct (selected r); [done|done|done|by apply wp_ret].
Qed.

Lemma name_rows_ok rows n : forall i, i + n = length rows -> Forall (fun row => exists u nm, row = [Some u; nm]) rows ->
  exists l, name_entries rows n i = Ret l.
Proof.
  induction n as [|n IH]; intros i Hi Hf; [by eexists|]. destruct (lookup_lt_is_Some_2 rows i) as [row Er]; [lia|].
  pose proof (Forall_lookup_1 _ _ _ _ Hf Er) as (u & nm & ->). destruct (IH (S i)) as [l El]; [lia|done|].
  cbn [name_entries]. unfold nullable, PQgetisnull, PQgetvalue. rewrite Er. cbn [mbind option_bind lookup list_lookup default id obind].
  destruct nm; cbn [obind]; rewrite El; cbn [obind]; by eexists.
Qed.

Lemma names_ok targets d (R : option (list (cstr * option cstr)) -> DB -> Prop) F : targets <> [] -> (forall o, R o d) ->
  wp N (trying (ik_db_agent_get_names_batch targets)) d R F.
Proof.
  intros Ht HR. apply wp_trying. unfold ik_db_agent_get_names_batch. destruct targets as [|t ts]; [done|].
  destruct (select_names (t :: ts) d) as [Ed Hrows]. apply wp_bind. apply wp_tuples; [done| |apply HR].
  intros rows Er. destruct (name_rows_ok rows (length rows) 0) as [l El]; [done|by apply Hrows|]. rewrite El. apply wp_lift, HR.
Qed.

Lemma fanin_ok my timeout_sec targets rounds d (F : DB -> Prop) : (34%Z ∉ my) -> Forall (fun t => (34%Z ∉ t)) targets -> targets <> [] ->
  mails_ok d -> Forall respects rounds -> (~ Exists (ends timeout_sec) rounds -> N) ->
  wp N (ik_wait_core_fanin socket_fd sid my timeout_sec targets rounds) d (answered my rounds d) F.
Proof.
  intros Hq Hqs Ht Hok Hr HN. unfold ik_wait_core_fanin. apply wp_bind, wp_trying.
  eapply wp_mono; [apply (wp_listen my d (same_tables d)); [done|done]| |].
  2: { intros d1 Hs. apply wp_ret. exists []. by split; [apply mailbox_done|]. }
  intros [] d1 Hs1. cbn beta in Hs1. apply wp_bind. eapply wp_mono; [apply (wp_each_target _ targets d1 F)| |done].
  { intros t d2 F' Hin. apply wp_ignoring. apply wp_listen; [|done]. by apply (proj1 (Forall_forall _ _) Hqs). }
  intros [] d2 Hs2. cbn beta in Hs2. assert (same_tables d d2) as Hs by (by eapply same_trans). clear d1 Hs1 Hs2.
  assert (mails_ok d2) as Hok2 by (by eapply same_ok). apply wp_bind. apply names_ok; [done|]. intros o.
  set (es := entry_of (default [] o) <$> targets).
  assert (omap got es = []) as Hes.
  { unfold es. clear Ht Hqs. induction targets as [|t ts IH]; [done|]. cbn [fmap list_fmap omap list_omap]. by rewrite running_not_got. }
  assert (forall es' d3, (exists new, mailbox peer sid my (meanwhile <$> rounds) d2 new d3 /\ omap got es' ≡ₚ omap got es ++ new) ->
    wp N (do! _ := unlisten my in do! _ := each_target unlisten targets in dret (mk_wait_result true None None es')) d3 (answered my rounds d) F) as Hend.
  { intros es' d3 (new & Hm & Hg). rewrite Hes in Hg. apply wp_bind. eapply wp_mono; [by apply wp_unlisten| |done]. intros [] d4 Hs4. cbn beta in Hs4.
    apply wp_bind. eapply wp_mono; [apply (wp_each_target _ targets d4 F)| |done].
    { intros t d5 F' Hin. apply wp_unlisten. by apply (proj1 (Forall_forall _ _) Hqs). }
    intros [] d5 Hs5. cbn beta in Hs5. apply wp_ret. exists new. split; [|exact Hg].
    eapply mailbox_quiet; [exact Hs|]. eapply mailbox_then_quiet; [exact Hm|]. by eapply same_trans. }
  apply wp_bind. unfold wp at 1. apply wp_bind. destruct (socket_fd d2 <? 0)%Z.
  - apply wp_ret, Hend. exists []. split; [by apply mailbox_done|by rewrite app_nil_r].
  - eapply wp_mono; [by apply fanin_loop_ok|apply Hend|done].
Qed.
(** *** Sending *)

Context (transaction_idle : DB -> bool) (now : Z) (error_text : err_code -> cstr).

Definition stored (sender recipient text : cstr) (d d' : DB) : Prop :=
  exists id, (id ∉ mail_id <$> (snd <$> mails d)) /\ (0 < id < 2 ^ 63)%Z /\
    mails d' = mails d ++ [(sid, mk_mail id sender recipient text now false)].

(** A message is stored when it has a text and its recipient runs, or nothing is. *)
Definition send_outcome (sender recipient text : cstr) (d : DB) (e : option cstr) (d' : DB) : Prop :=
  agent_rows d' = agent_rows d /\
  match e with
  | Some _ => mails d' = mails d
  | None => text <> [] /\ (exists a, a ∈ agent_rows d /\ uuid a = recipient /\ status a = lit "running") /\ stored sender recipient text d d'
  end.

Lemma send_ok sender recipient text d (F : DB -> Prop) : (34%Z ∉ recipient) -> fits now -> mails_ok d ->
  wp N (ik_send_core transaction_idle now error_text sid sender recipient text) d (send_outcome sender recipient text d) F.
Proof.
  intros Hq Hnow Hok. unfold ik_send_core. destruct text as [|c0 text0] eqn:Etext; [by apply wp_ret|]. rewrite <- Etext.
  assert (text <> []) as Hne by (by rewrite Etext). clear Etext. apply wp_bind, wp_attempt. unfold ik_db_agent_get. apply wp_bind.
  destruct (select_one_agent recipient d) as [Ed Hrows]. apply wp_tuples; [done| |intros e; by apply wp_ret]. intros rows ->%Hrows.
  destruct (filter _ (agent_rows d)) as [|a l] eqn:Ef; [intros e; by apply wp_ret|].
  assert (a ∈ filter (fun a => uuid a = recipient) (agent_rows d)) as Ha by (rewrite Ef; left). apply list_elem_of_filter in Ha as [Eu Ha].
  pose proof (proj1 (Forall_forall _ _) (agent_times_fit d Hok) a Ha) as [Hc He]. cbn [fmap list_fmap].
  rewrite (parse_row_shown a (agent_columns a :: _) 0 Hc He eq_refl). apply wp_lift.
  destruct (strcmp_eq (status a) (lit "running")) eqn:Es; cbn [negb]; [|by apply wp_ret]. apply strcmp_eq_true in Es.
  apply wp_bind, wp_attempt. unfold ik_db_mail_insert, asserting. rewrite (proj2 (Z.ltb_lt 0 sid)) by lia.
  unfold ik_mail_msg_create. cbn [from_uuid to_uuid body mail_timestamp Database.read].
  pose proof (fun r d' => insert_row sid sender recipient text now d sid_fits Hnow r d') as Hins.
  unfold wp at 1. unfold dbind at 1, tuples at 1. destruct (pq_exec_params INSERT_MAIL _ d) as [r d1]. destruct (Hins r d1 eq_refl) as [Ea Hm].
  destruct r as [rows|n|]; try (intros e; by apply wp_ret). destruct Hm as (id & -> & Hid & Hnew & Hm).
  unfold PQgetvalue. cbn [lookup list_lookup mbind option_bind default Datatypes.id obind dlift].
  assert (send_outcome sender recipient text d None d1) as Hsent.
  { split; [done|]. split_and!; [done|by exists a|]. by exists id. }
  apply wp_bind. unfold wp at 1. apply wp_bind. destruct (transaction_idle d1); [|by do 2 apply wp_ret].
  apply wp_ignoring. pose proof (wp_channel (lit "NOTIFY ") (lit ", 'mail'") recipient d1 (same_tables d1) Hq) as Hn.
  eapply wp_mono; [apply Hn; [do 2 right; left|done]| |].
  - intros [] d2 [E1 E2]. apply wp_ret. unfold send_outcome, stored in *. by rewrite E1, E2.
  - intros d2 [E1 E2]. apply wp_ret. unfold send_outcome, stored in *. by rewrite E1, E2.
Qed.

Lemma stored_ok sender recipient text (d d' : DB) : fits now -> mails_ok d -> agent_rows d' = agent_rows d -> stored sender recipient text d d' -> mails_ok d'.
Proof.
  intros Hnow [H1 H2 H3] Ea (id & Hnew & Hid & Em). constructor; rewrite ?Ea, ?Em, ?fmap_app; [| |done].
  - apply Forall_app. split; [done|]. by repeat constructor; cbn; try apply Hid; try apply Hnow.
  - apply NoDup_app. split_and!; [done| |apply NoDup_singleton]. intros x Hx ->%list_elem_of_singleton. by apply Hnew.
Qed.

Lemma stored_inbox sender recipient text (d d' : DB) : stored sender recipient text d d' ->
  exists id, inbox sid recipient d' = inbox sid recipient d ++ [mk_mail id sender recipient text now false].
Proof.
  intros (id & _ & _ & Em). exists id. unfold inbox. rewrite Em, filter_app, filter_cons_True, filter_nil, fmap_app by done. done.
Qed.

(** A message in the inbox is received without waiting. *)
Lemma next_message_finds my timeout_sec rounds d (F : DB -> Prop) : (34%Z ∉ my) -> mails_ok d ->
  (forall d1, exists n, fst (pq_exec_params (lit "LISTEN " ++ quoted_text (agent_channel my)) [] d1) = PGRES_COMMAND_OK n) ->
  (forall d1, exists rows, fst (pq_exec_params INBOX [Some (show_int sid); Some my] d1) = PGRES_TUPLES_OK rows) ->
  inbox sid my d <> [] ->
  wp N (ik_wait_core_next_message socket_fd sid my timeout_sec rounds) d
    (fun r _ => exists m, first_of None my m d /\ r = next_result (Some (from_uuid m)) (Some (body m))) F.
Proof.
  intros Hq Hok Hl Hi Hne. unfold ik_wait_core_next_message. apply wp_bind, wp_trying.
  pose proof (channel_statement (lit "LISTEN ") _ [] d (no_quote_channel my Hq) ltac:(left)) as Hs. rewrite app_nil_r in Hs.
  unfold ik_db_listen, notify_command, wp at 1. destruct (Hl d) as [n En]. destruct (pq_exec_params _ _ d) as [r0 d1]. cbn [fst snd] in *. subst r0.
  assert (mails_ok d1) as Hok1 by (by eapply same_ok). apply wp_bind.
  assert (wp N (check_mail sid my None) d1 (fun o d' => d' = d1 /\ exists m, o = Some m /\ first_of None my m d1) F) as Hcheck.
  { unfold check_mail. apply wp_bind, wp_trying. unfold ik_db_mail_inbox, asserting. rewrite (proj2 (Z.ltb_lt 0 sid)) by lia.
    destruct (select_inbox sid my d1 sid_fits) as [Ed Hrows]. destruct (Hi d1) as [rows Er]. destruct (Hrows rows Er) as (ms & Ems & Hp & Hsort).
    unfold wp at 1, dbind at 1, tuples. destruct (pq_exec_params INBOX _ d1) as [r1 d2]. cbn [fst snd] in *. subst.
    unfold dlift. rewrite length_fmap, (parse_mails_ok (mail_columns <$> ms) ms 0 eq_refl).
    - destruct ms as [|m ms]; [|apply wp_ret; split; [done|]; exists m; split; [done|]; by apply (head_first None my m ms)].
      exfalso. apply Hne. rewrite <- (same_inbox my d d1 Hs). symmetry. by apply Permutation_nil_l.
    - rewrite Hp. by apply inbox_fits. }
  eapply wp_mono; [exact Hcheck| |done]. intros o d2 (-> & m & -> & Hm). apply wp_bind. unfold take_mail. apply wp_bind.
  eapply wp_mono; [apply (delete_ok my m d1 F Hok1); apply Hm| |done]. intros [] d2 _. apply wp_ret, wp_bind.
  eapply wp_mono; [by apply wp_unlisten| |done]. intros [] d3 _. apply wp_ret. exists m. split; [|done].
  unfold first_of in *. by rewrite (same_inbox my d d1 Hs) in Hm.
Qed.
End server.

Module MailProps.
Section props.
Context {DB : Type} `{!Libpq DB} `{!MailTables DB} `{!MailQueries DB}.

(** C39: A wait uses the mailbox as it should: whatever other agents do in the
    meantime, every message that leaves the inbox is one the result reports,
    every message reported was in the inbox when it was read, the newest unread
    one of its sender (or of all), and is removed unless the server refuses.
    The wait ends when it is interrupted or its time is over. *)
Theorem wait_uses_mailbox (socket_fd : DB -> Z) (sid timeout_sec : Z) (my : cstr) (targets : list cstr)
    (rounds : list wait_round) (d : DB) :
  (0 < sid < 2 ^ 63)%Z -> (34%Z ∉ my) -> Forall (fun t => (34%Z ∉ t)) targets -> mails_ok d -> Forall respects rounds ->
  Exists (ends timeout_sec) rounds ->
  exists r d', wait_worker socket_fd sid my timeout_sec targets rounds d = (Ret r, d') /\
    exists read, mailbox (peers targets) sid my (meanwhile <$> rounds) d read d' /\ reported r ≡ₚ read.
Proof.
  intros Hsid Hq Hqs Hok Hr He. assert (forall o : outcome ik_wait_result * DB,
    wp False (fun _ => o) d (answered sid (peers targets) my rounds d) (fun _ => False) ->
    exists r d', o = (Ret r, d') /\ answered sid (peers targets) my rounds d r d') as Hwp.
  { intros [o d'] H. unfold wp in H. destruct o; try done. by eexists _, _. }
  apply Hwp. destruct targets as [|t ts]; [by apply next_message_ok|]. by apply fanin_ok.
Qed.

(** C40: A message sent arrives: when ik_send_core answers without an error the
    recipient was a running agent and exactly this message was added to the
    table, and a recipient with an empty inbox receives it at its next wait,
    however short; when it answers an error no message was stored. *)
Theorem mail_arrives (transaction_idle : DB -> bool) (socket_fd : DB -> Z) (now sid : Z) (error_text : err_code -> cstr)
    (sender recipient text : cstr) (d : DB) :
  (0 < sid < 2 ^ 63)%Z -> fits now -> (34%Z ∉ recipient) -> mails_ok d ->
  (forall d1, exists n, fst (pq_exec_params (lit "LISTEN " ++ quoted_text (agent_channel recipient)) [] d1) = PGRES_COMMAND_OK n) ->
  (forall d1, exists rows, fst (pq_exec_params INBOX [Some (show_int sid); Some recipient] d1) = PGRES_TUPLES_OK rows) ->
  exists e d', ik_send_core transaction_idle now error_text sid sender recipient text d = (Ret e, d') /\
    match e with
    | Some _ => mails d' = mails d
    | None =>
        text <> [] /\ (exists a, a ∈ agent_rows d /\ uuid a = recipient /\ status a = lit "running") /\
        (exists id, (id ∉ mail_id <$> (snd <$> mails d)) /\ mails d' = mails d ++ [(sid, mk_mail id sender recipient text now false)]) /\
        (inbox sid recipient d = [] -> forall timeout_sec rounds, exists d2,
           ik_wait_core_next_message socket_fd sid recipient timeout_sec rounds d' = (Ret (next_result (Some sender) (Some text)), d2))
    end.
Proof.
  intros Hsid Hnow Hq Hok Hl Hi.
  pose proof (send_ok False sid Hsid transaction_idle now error_text sender recipient text d (fun _ => False) Hq Hnow Hok) as Hs.
  unfold wp in Hs. destruct (ik_send_core _ _ _ _ _ _ _ d) as [o d1]. destruct o as [e| | | |]; try done. exists e, d1. split; [done|].
  destruct Hs as [Ea Hs]. destruct e as [e|]; [done|]. destruct Hs as (Hne & Hrun & Hst). split_and!; [done|done| |].
  { destruct Hst as (id & Hnew & _ & Em). by exists id. }
  intros Hempty timeout_sec rounds. destruct (stored_inbox sid now sender recipient text d d1 Hst) as (id & Ei). rewrite Hempty in Ei.
  pose proof (next_message_finds False sid Hsid socket_fd recipient timeout_sec rounds d1 (fun _ => False) Hq
    (stored_ok sid now sender recipient text d d1 Hnow Hok Ea Hst) Hl Hi) as Hw. rewrite Ei in Hw. specialize (Hw ltac:(done)). unfold wp in Hw.
  destruct (ik_wait_core_next_message _ _ _ _ _ d1) as [o d2]. destruct o as [r| | | |]; try done.
  destruct Hw as (m & (Hm & _ & _) & ->). rewrite Ei in Hm. apply list_elem_of_singleton in Hm as ->. by exists d2.
Qed.

End props.
End MailProps.

(** ** A server in memory *)

Module MemoryMail.

Definition store : Type := list (Z * ik_mail_msg) * list ik_db_agent_row.

#[export] Instance mail_store : MailTables store := { mails := fst; agent_rows := snd }.

#[export] Instance mail_before_dec a b : Decision (mail_before a b).
Proof. unfold mail_before. apply _. Defined.

#[export] Instance mail_before_trans : Transitive mail_before.
Proof. intros a b c. unfold mail_before. destruct (read a), (read b), (read c); intuition (try lia; congruence). Qed.

#[export] Instance mail_before_total : Total mail_before.
Proof.
  intros a b. unfold mail_before. destruct (Z.le_ge_cases (mail_timestamp a) (mail_timestamp b)), (read a), (read b); intuition.
Qed.

Definition next_id (d : store) : Z := foldr (fun p n => Z.max (mail_id (snd p) + 1) n)%Z 1%Z (fst d).

Definition add_mail (sid : Z) (f t b : cstr) (ts : Z) (d : store) : store :=
  (fst d ++ [(sid, mk_mail (next_id d) f t b ts false)], snd d).

Definition sorted_rows (l : list ik_mail_msg) : pg_result := PGRES_TUPLES_OK (mail_columns <$> merge_sort mail_before l).

Definition without (id : Z) (u : cstr) (d : store) : store :=
  (filter (fun p => ~ (mail_id (snd p) = id /\ to_uuid (snd p) = u)) (fst d), snd d).

Definition answer (query : cstr) (params : list (option cstr)) (d : store) : pg_result * store :=
  match params with
  | [Some u] =>
      if strcmp_eq query GET_AGENT then (PGRES_TUPLES_OK (agent_columns <$> filter (fun a => uuid a = u) (snd d)), d)
      else (PGRES_COMMAND_OK [], d)
  | [Some s; Some u] =>
      if strcmp_eq query INBOX then (sorted_rows (inbox (strtoll s) u d), d)
      else if strcmp_eq query DELETE_MAIL then
        (PGRES_COMMAND_OK (show_int (Z.of_nat (length (fst d) - length (fst (without (strtoll s) u d))))), without (strtoll s) u d)
      else (PGRES_COMMAND_OK [], d)
  | [Some s; Some u; Some f] =>
      if strcmp_eq query INBOX_FILTERED then (sorted_rows (filter (fun m => from_uuid m = f) (inbox (strtoll s) u d)), d)
      else (PGRES_COMMAND_OK [], d)
  | [Some s; Some f; Some t; Some b; Some ts] =>
      if strcmp_eq query INSERT_MAIL then
        if (next_id d <? 2 ^ 63)%Z then (PGRES_TUPLES_OK [[Some (show_int (next_id d))]], add_mail (strtoll s) f t b (strtoll ts) d)
        else (PGRES_FATAL_ERROR, d)
      else (PGRES_COMMAND_OK [], d)
  | _ => (PGRES_COMMAND_OK [], d)
  end.

#[export] Instance mail_libpq : Libpq store := answer.

Lemma next_id_above (d : store) : (0 < next_id d)%Z /\ Forall (fun p => (mail_id (snd p) < next_id d)%Z) (fst d).
Proof.
  unfold next_id. induction (fst d) as [|p l [IH1 IH2]]; cbn [foldr]; [split; [lia|done]|]. split; [lia|]. constructor; [lia|].
  eapply Forall_impl; [exact IH2|]. cbn beta. intros q Hq. lia.
Qed.

Lemma next_id_fresh (d : store) : (next_id d ∉ mail_id <$> (snd <$> fst d)).
Proof.
  intros Hin. apply list_elem_of_fmap in Hin as (m & Em & Hm). apply list_elem_of_fmap in Hm as (p & -> & Hp).
  pose proof (proj1 (Forall_forall _ _) (proj2 (next_id_above d)) p Hp) as H. cbn beta in H. lia.
Qed.

Lemma add_mail_ok sid f t b ts (d : store) : fits ts -> (next_id d < 2 ^ 63)%Z -> mails_ok d -> mails_ok (add_mail sid f t b ts d).
Proof.
  intros Hts Hn [H1 H2 H3]. pose proof (proj1 (next_id_above d)) as H0. constructor; cbn [mails agent_rows mail_store add_mail fst snd]; [| |done].
  - rewrite fmap_app. apply Forall_app. split; [done|]. repeat constructor; cbn; try lia; apply Hts.
  - rewrite !fmap_app. apply NoDup_app. split_and!; [done| |apply NoDup_singleton]. intros x Hx ->%list_elem_of_singleton.
    by apply (next_id_fresh d).
Qed.

Lemma sorted_rows_ok l : forall rows, sorted_rows l = PGRES_TUPLES_OK rows ->
  exists ms, rows = mail_columns <$> ms /\ ms ≡ₚ l /\ StronglySorted mail_before ms.
Proof.
  intros rows [= <-]. exists (merge_sort mail_before l). split_and!; [done|apply merge_sort_Permutation|].
  apply StronglySorted_merge_sort; apply _.
Qed.

(** The statements differ in their first characters. *)
Lemma names_differ n q : take 20 q <> take 20 (lit "SELECT uuid, name FROM agents WHERE") -> strcmp_eq (names_query n) q = false.
Proof. intros Hq. apply bool_decide_eq_false_2. intros <-. by apply Hq. Qed.

#[export] Instance mail_queries : MailQueries store.
Proof.
  constructor; unfold pq_exec_params, mail_libpq.
  - intros verb c tail d _ _. done.
  - intros us d. assert (forall r : pg_result, r = PGRES_COMMAND_OK [] -> forall rows, r = PGRES_TUPLES_OK rows ->
      Forall (fun row => exists u n, row = [Some u; n]) rows) as Hc by (by intros r ->). unfold answer.
    destruct us as [|u1 [|u2 [|u3 [|u4 [|u5 [|u6 us]]]]]]; cbn [fmap list_fmap]; rewrite ?names_differ by (vm_compute; discriminate);
      (split; [done|by apply Hc]).
  - intros u d. unfold answer. rewrite strcmp_eq_refl. split; [done|]. by intros rows [= <-].
  - intros sid u d Hsid. unfold answer. rewrite strcmp_eq_refl, strtoll_shown by done. split; [done|]. apply sorted_rows_ok.
  - intros sid u f d Hsid. unfold answer. rewrite strcmp_eq_refl, strtoll_shown by done. split; [done|]. apply sorted_rows_ok.
  - intros id u d Hid. unfold answer. replace (strcmp_eq DELETE_MAIL INBOX) with false by (vm_compute; reflexivity).
    rewrite strcmp_eq_refl, strtoll_shown by done. done.
  - intros sid f t b ts d Hsid Hts r d'. unfold answer. rewrite strcmp_eq_refl, !strtoll_shown by done.
    destruct (Z.ltb_spec (next_id d) (2 ^ 63)) as [Hn|Hn]; intros [= <- <-]; [|done]. split; [done|]. exists (next_id d).
    pose proof (proj1 (next_id_above d)). split_and!; [done|lia|lia|apply next_id_fresh|done].
Qed.
End MemoryMail.

Module MailExamples.
Import MemoryMail MailProps.

Definition agent (u : string) : ik_db_agent_row := mk_agent_row (lit u) None None (lit "0") (lit "running") 0 0 None None None false.

(** bob waits while alice and carol run; an old message of carol is there. *)
Definition office : store :=
  ([(1%Z, mk_mail 1 (lit "carol") (lit "bob") (lit "lunch?") 10 false)], [agent "alice"; agent "bob"; agent "carol"]).

Lemma office_ok : mails_ok office.
Proof.
  constructor; [|apply NoDup_singleton|]; repeat constructor; unfold fits; cbn; lia.
Qed.

(** Alice writes to bob. *)
Definition alice_writes (d : store) : store :=
  if (next_id d <? 2 ^ 63)%Z then add_mail 1 (lit "alice") (lit "bob") (lit "done") 20 d else d.

Definition silence (interrupted : bool) : wait_round := mk_wait_round interrupted 100 Expired (fun d : store => d).

Definition the_rounds : list wait_round := [mk_wait_round false 0 Readable alice_writes; silence false; silence true].

Lemma rounds_respect : Forall respects the_rounds.
Proof.
  apply Forall_forall. unfold the_rounds. intros r Hr d Hd. rewrite !elem_of_cons, elem_of_nil in Hr.
  destruct Hr as [->|[->|[->|[]]]]; cbn [meanwhile silence]; [|done..]. unfold alice_writes. destruct (Z.ltb_spec (next_id d) (2 ^ 63)); [|done].
  apply add_mail_ok; [unfold fits; lia|done|done].
Qed.

(** The fan-in reads carol's message in its first round and alice's in its
    second. *)
Example fan_in_results :
  result_entries (match fst (wait_worker (fun _ => 5%Z) 1 (lit "bob") 30 [lit "alice"; lit "carol"] the_rounds office) with
                  | Ret r => r | _ => no_message "" end) =
  [mk_entry (lit "alice") (lit "undefined") (lit "received") (Some (lit "done"));
   mk_entry (lit "carol") (lit "undefined") (lit "received") (Some (lit "lunch?"))].
Proof. vm_compute. reflexivity. Qed.

(** With a timeout of 0 the fan-in does not look at all. *)
Example no_instant_check :
  result_entries (match fst (wait_worker (fun _ => 5%Z) 1 (lit "bob") 0 [lit "carol"] the_rounds office) with
                  | Ret r => r | _ => no_message "" end) =
  [mk_entry (lit "carol") (lit "undefined") (lit "running") None].
Proof. vm_compute. reflexivity. Qed.

Lemma no_quote (s : cstr) : bool_decide (34%Z ∉ s) = true -> (34%Z ∉ s).
Proof. apply bool_decide_eq_true_1. Qed.

Lemma wait_uses_mailbox_witness : exists r d',
  wait_worker (fun _ => 5%Z) 1 (lit "bob") 30 [lit "alice"; lit "carol"] the_rounds office = (Ret r, d') /\
  exists read, mailbox (peers [lit "alice"; lit "carol"]) 1 (lit "bob") (meanwhile <$> the_rounds) office read d' /\ reported r ≡ₚ read.
Proof.
  apply (wait_uses_mailbox (fun _ => 5%Z) 1 30 (lit "bob") [lit "alice"; lit "carol"] the_rounds office).
  - split; apply Z.ltb_lt; vm_compute; reflexivity.
  - apply no_quote; vm_compute; reflexivity.
  - repeat constructor; apply no_quote; vm_compute; reflexivity.
  - apply office_ok.
  - apply rounds_respect.
  - do 2 apply Exists_cons_tl. apply Exists_cons_hd. by left.
Defined.

Lemma mail_arrives_witness : exists e d',
  ik_send_core (fun _ => true) 20 (fun _ => []) 1 (lit "bob") (lit "alice") (lit "hello") office = (Ret e, d') /\
  match e with
  | Some _ => mails d' = mails office
  | None =>
      lit "hello" <> [] /\ (exists a, a ∈ agent_rows office /\ uuid a = lit "alice" /\ status a = lit "running") /\
      (exists id, (id ∉ mail_id <$> (snd <$> mails office)) /\
         mails d' = mails office ++ [(1%Z, mk_mail id (lit "bob") (lit "alice") (lit "hello") 20 false)]) /\
      (inbox 1 (lit "alice") office = [] -> forall timeout_sec rounds, exists d2,
         ik_wait_core_next_message (fun _ => 5%Z) 1 (lit "alice") timeout_sec rounds d' =
         (Ret (next_result (Some (lit "bob")) (Some (lit "hello"))), d2))
  end.
Proof.
  apply (mail_arrives (fun _ => true) (fun _ => 5%Z) 20 1 (fun _ => []) (lit "bob") (lit "alice") (lit "hello") office).
  - split; apply Z.ltb_lt; vm_compute; reflexivity.
  - split; [apply Z.leb_le|apply Z.ltb_lt]; vm_compute; reflexivity.
  - apply no_quote; vm_compute; reflexivity.
  - apply office_ok.
  - intros d1. by exists [].
  - intros d1. eexists. reflexivity.
Defined.
End MailExamples.
