(* ===== verification/Session.v ===== *)
(** * From the provider's bytes to the agent

    The mock provider's answers in its four formats, the client of each and the
    agent's callbacks composed: what a user of the mock sees. *)

From Stdlib Require Import String.
From stdpp Require Import strings.
From S2P Require Import Prelude CString Utf8 Json ByteArray OutputStyle Format Conversation.
From S2P Require Import Provider EventRender Sse Wire Http OpenAIStream Anthropic Google MockWire MockAnthropic MockOpenAI MockGoogle AgentStream.

(** The endpoints of the mock server. *)
Inductive mock_api : Set :=
| API_ANTHROPIC
| API_OPENAI_CHAT
| API_OPENAI_RESPONSES
| API_GOOGLE.

Section session.
Context `{!Yyjson} `{!YyjsonSpec} `{!Allocator} `{!AllocatorSpec} `{!Display} `{!DisplaySpec}.

(** [rand] and [drawn]: the random numbers and how many are used up. *)
Context (rand : nat -> nat).

(** A transfer that ended with [status]: libcurl's buffer holds the body. *)
Definition ended_transfer (chunks : list (list Z)) (status : Z) : ik_http_completion :=
  let body := concat chunks in
  build_completion_for_success status
    (mk_active 0 (mk_write_ctx None tt (body ++ [0%Z]) (length body) (S (length body))) true).

(** The events of a body that arrives in pieces, and the completion after it. *)
Definition client (api : mock_api) (drawn : nat) (chunks : list (list Z)) (status : Z)
  : outcome (list ik_stream_event * ik_provider_completion) :=
  match api with
  | API_ANTHROPIC =>
      let! (st, es) := write_all anthropic_event (ik_sse_parser_create, ik_anthropic_stream_ctx_create) chunks in
      Ret (es, anthropic_info_read (snd st) status)
  | API_OPENAI_CHAT =>
      let! (st, es) := chat_write_all chat_start chunks in
      Ret (es, ik_openai_stream_completion_handler false (Some (parser_ctx st)) (ended_transfer chunks status))
  | API_OPENAI_RESPONSES =>
      let! (st, es) := write_all responses_event (ik_sse_parser_create, ik_openai_stream_ctx_create) chunks in
      Ret (es, ik_openai_stream_completion_handler true (Some (snd st)) (ended_transfer chunks status))
  | API_GOOGLE =>
      let! (st, es) := write_all (google_event rand) (ik_sse_parser_create, ik_google_stream_ctx_create drawn) chunks in
      Ret (es, google_info_read (Some (snd st)) status)
  end.

(** One answer: the bytes in pieces, then the end of a transfer with [status]. *)
Definition receive_reply (api : mock_api) (drawn : nat) (a : agent_stream) (chunks : list (list Z)) (status : Z)
  : outcome agent_stream :=
  let! (es, completion) := client api drawn chunks status in
  let! a := stream_events a es in
  ik_repl_completion_callback a completion.

(** What the mock server writes. *)
Definition mock_text (api : mock_api) (content : cstr) : outcome (list Z) :=
  match api with
  | API_ANTHROPIC => anthropic_serialize_text content
  | API_OPENAI_CHAT => openai_serialize_text content
  | API_OPENAI_RESPONSES => openai_responses_serialize_text content
  | API_GOOGLE => google_serialize_text content
  end.

Definition mock_calls (api : mock_api) (stale_id : Z -> cstr) (tool_calls : list mock_tool_call) : outcome (list Z) :=
  match api with
  | API_ANTHROPIC => anthropic_serialize_tool_calls tool_calls
  | API_OPENAI_CHAT => openai_serialize_tool_calls stale_id tool_calls
  | API_OPENAI_RESPONSES => openai_responses_serialize_tool_calls tool_calls
  | API_GOOGLE => google_serialize_tool_calls tool_calls
  end.

(** No usage is shown as a blank line. *)
Lemma no_usage_line (a : agent_stream) (r : ik_response) :
  resp_usage r = no_usage ->
  exists s, screen_append (scrollback a) [] = Ret s /\
    ik_repl_render_usage_event (ik_repl_store_response_metadata a r)
      = Ret (set_scrollback s (ik_repl_store_response_metadata a r)).
Proof.
  intros Hu. unfold ik_repl_render_usage_event, ik_repl_store_response_metadata. rewrite Hu.
  cbn [response_input_tokens response_output_tokens response_thinking_tokens set_metadata
       input_tokens output_tokens thinking_tokens no_usage scrollback].
  change (int_add 0 0) with (Ret 0%Z). cbn [obind]. change (int_add 0 0) with (Ret 0%Z). cbn [obind Z.ltb Z.compare].
  destruct (put_line_some (scrollback a) []) as (s & -> & E). by exists s.
Qed.

Lemma received s0 t (a a1 : agent_stream) (r : ik_response) (c : ik_provider_completion) :
  streams s0 t a -> success c = true -> response c = Some r -> resp_usage r = no_usage ->
  exists a2, ik_repl_completion_callback a c = ik_repl_extract_tool_calls a2 r /\
    append_lines s0 (reply_lines t ++ [[]]) = Ret (scrollback a2) /\
    assistant_response a2 = non_empty t /\ streaming_line_buffer a2 = None /\
    http_error_message a2 = None /\ response_finish_reason a2 = Some (finish_reason_str (resp_finish_reason r)) /\
    response_model a2 = resp_model r.
Proof.
  intros Hs Hok Hr Hu. destruct (completion_ok s0 t a c Hs) as (a0 & Hl & Ht & Hb & He & E).
  rewrite Hok, Hr in E. rewrite Hok in He.
  destruct (no_usage_line a0 r Hu) as (s & Es & E'). rewrite E, E'. cbn [obind].
  eexists. split; [reflexivity|]. split; [|done].
  rewrite append_lines_app, Hl. cbn [obind append_lines]. by rewrite Es.
Qed.

(** A completion with status 200. *)
Definition completes (c : ik_provider_completion) (r : ik_response) : Prop := success c = true /\ response c = Some r.

(** The client reads the events [es] and builds [r]. *)
Definition client_reads (api : mock_api) (drawn : nat) (bs : list Z) (es : list ik_stream_event) (r : ik_response) : Prop :=
  forall chunks, concat chunks = bs -> (Z.of_nat (length bs) < 2 ^ 31 - 1)%Z ->
  exists c, client api drawn chunks 200 = Ret (es, c) /\ completes c r.

(** An answer whose events are within one reply. *)
Lemma reply_received api drawn bs es r (a : agent_stream) :
  client_reads api drawn bs es r -> streams (scrollback a) [] a -> Forall (fun e => is_start e = false) es ->
  resp_usage r = no_usage ->
  forall chunks, concat chunks = bs -> (Z.of_nat (length bs) < 2 ^ 31 - 1)%Z ->
  exists a2, receive_reply api drawn a chunks 200 = ik_repl_extract_tool_calls a2 r /\
    append_lines (scrollback a) (reply_lines (reply_text es) ++ [[]]) = Ret (scrollback a2) /\
    assistant_response a2 = non_empty (reply_text es) /\ streaming_line_buffer a2 = None /\
    http_error_message a2 = None /\ response_finish_reason a2 = Some (finish_reason_str (resp_finish_reason r)) /\
    response_model a2 = resp_model r.
Proof.
  intros Hr Hs Hes Hu chunks Hc Hl. destruct (Hr chunks Hc Hl) as (c & E & Hok & Hresp).
  destruct (events_streams (scrollback a) [] a es Hs Hes) as (a1 & E1 & Hs1). cbn [app] in Hs1.
  destruct (received (scrollback a) (reply_text es) a1 a1 r c Hs1 Hok Hresp Hu) as (a2 & E2 & R).
  exists a2. split; [|exact R]. unfold receive_reply. rewrite E. cbn [obind]. rewrite E1. exact E2.
Qed.

(** The same for a reply with its start. *)
Lemma started_reply_received api drawn bs i m es r (a : agent_stream) :
  client_reads api drawn bs (mk_stream_event i (IK_STREAM_START m) :: es) r -> streaming_line_buffer a = None ->
  Forall (fun e => is_start e = false) es -> resp_usage r = no_usage ->
  forall chunks, concat chunks = bs -> (Z.of_nat (length bs) < 2 ^ 31 - 1)%Z ->
  exists a2, receive_reply api drawn a chunks 200 = ik_repl_extract_tool_calls a2 r /\
    append_lines (scrollback a) (reply_lines (reply_text es) ++ [[]]) = Ret (scrollback a2) /\
    assistant_response a2 = non_empty (reply_text es) /\ streaming_line_buffer a2 = None /\
    http_error_message a2 = None /\ response_finish_reason a2 = Some (finish_reason_str (resp_finish_reason r)) /\
    response_model a2 = resp_model r.
Proof.
  intros Hr Hb Hes Hu chunks Hc Hl. destruct (Hr chunks Hc Hl) as (c & E & Hok & Hresp).
  destruct (start_streams a m i Hb) as (a0 & E0 & Hs0).
  destruct (events_streams (scrollback a) [] a0 es Hs0 Hes) as (a1 & E1 & Hs1). cbn [app] in Hs1.
  destruct (received (scrollback a) (reply_text es) a1 a1 r c Hs1 Hok Hresp Hu) as (a2 & E2 & R).
  exists a2. split; [|exact R]. unfold receive_reply. rewrite E. cbn [obind stream_events]. rewrite E0. cbn [obind].
  rewrite E1. exact E2.
Qed.

(** ** The four clients *)

Definition text_finish (api : mock_api) : ik_finish_reason :=
  match api with API_OPENAI_RESPONSES => IK_FINISH_UNKNOWN | _ => IK_FINISH_STOP end.

Definition text_events (content : cstr) : list ik_stream_event :=
  [mk_stream_event 0 (IK_STREAM_TEXT_DELTA (Some content)); mk_stream_event 0 (IK_STREAM_DONE IK_FINISH_STOP no_usage)].

Lemma text_events_ok content :
  Forall (fun e => is_start e = false) (text_events content) /\ reply_text (text_events content) = content.
Proof. split; [by repeat constructor|]. unfold reply_text. cbn. by rewrite app_nil_r. Qed.

Lemma text_read api drawn (content : cstr) :
  is_utf8 content -> (0%Z ∉ content) ->
  exists bs es, mock_text api content = Ret bs /\
    client_reads api drawn bs (mk_stream_event 0 (IK_STREAM_START (Some (lit "mock"))) :: es)
      (mk_response [] (text_finish api) no_usage (Some (lit "mock"))) /\
    Forall (fun e => is_start e = false) es /\ reply_text es = content.
Proof.
  intros Hu Hz. destruct api; cbn [mock_text].
  - destruct (mock_text_arrives content Hu Hz) as (bs & E & Hr). exists bs, (text_events content). split; [exact E|].
    split; [|by apply text_events_ok].
    intros chunks Hc Hl. destruct (Hr chunks Hc Hl) as (p & s & Hw & Hb). eexists. cbn [client]. rewrite Hw.
    split; [reflexivity|]. split; [done|]. cbn. by rewrite Hb.
  - destruct (chat_text_arrives content Hu Hz) as (bs & E & Hr). exists bs, (text_events content). split; [exact E|].
    split; [|by apply text_events_ok].
    intros chunks Hc Hl. destruct (Hr chunks Hc ltac:(lia)) as (st & Hw & Hb). eexists. cbn [client]. rewrite Hw.
    split; [reflexivity|]. split; [done|]. cbn. by rewrite Hb.
  - destruct (responses_text_arrives content Hu Hz) as (bs & E & Hr). exists bs, (take 1 (text_events content)).
    split; [exact E|]. split; [|by split; [repeat constructor|unfold reply_text; cbn; rewrite app_nil_r]].
    intros chunks Hc Hl. destruct (Hr chunks Hc Hl) as (p & s & Hw & Hb). eexists. cbn [client]. rewrite Hw.
    split; [reflexivity|]. split; [done|]. cbn. by rewrite Hb.
  - destruct (google_text_arrives rand content drawn Hu Hz) as (bs & E & Hr).
    exists bs, (match content with [] => drop 1 (text_events content) | _ => text_events content end). split; [exact E|].
    split; [|by destruct content; [split; [repeat constructor|]|apply text_events_ok]].
    intros chunks Hc Hl. destruct (Hr chunks Hc Hl) as (p & s & Hw & Hb). eexists. cbn [client]. rewrite Hw.
    split; [destruct content; reflexivity|]. split; [done|]. cbn. by rewrite Hb.
Qed.

Lemma call_events_silent id n tcs : reply_text (call_events id n tcs) = [].
Proof.
  revert n. induction tcs as [|tc tcs IH]; intros n; [done|]. unfold reply_text in *.
  cbn [call_events]. rewrite ?fmap_app, ?concat_app. cbn [fmap list_fmap concat app delta_text payload].
  rewrite ?fmap_app, ?concat_app, IH. done.
Qed.

Lemma call_events_no_start id n tcs : Forall (fun e => is_start e = false) (call_events id n tcs).
Proof.
  revert n. induction tcs as [|tc tcs IH]; intros n; [constructor|]. cbn [call_events].
  repeat first [apply Forall_app_2 | constructor]; done.
Qed.

(** What the writers of calls need. *)
Definition calls_ok (api : mock_api) (stale_id : Z -> cstr) (tool_calls : list mock_tool_call) : Prop :=
  match api with
  | API_GOOGLE => Forall google_call_ok tool_calls
  | API_OPENAI_CHAT => Forall call_ok tool_calls /\ (forall j, is_utf8 (stale_id j))
  | API_ANTHROPIC | API_OPENAI_RESPONSES => Forall call_ok tool_calls
  end.

(** What is left of the calls of an answer. *)
Definition surviving_call (api : mock_api) (drawn : nat) (tcs : list mock_tool_call) (tc : mock_tool_call)
  : option (cstr * cstr * cstr) :=
  match api with
  | API_ANTHROPIC => Some (tool_id (Z.of_nat (length tcs)), name tc, arguments_json tc)
  | API_OPENAI_CHAT => None
  | API_OPENAI_RESPONSES => Some (call_id (Z.of_nat (length tcs)), name tc, arguments_json tc)
  | API_GOOGLE =>
      Some (ik_google_generate_tool_id rand drawn, name (List.hd tc tcs), concat (args_text <$> tcs ++ [tc]))
  end.

Definition surviving_block (call : cstr * cstr * cstr) : ik_content_block :=
  IK_CONTENT_TOOL_CALL (Some call.1.1) (Some call.1.2) (Some call.2) None.

Lemma calls_read api drawn stale_id tcs tc :
  calls_ok api stale_id (tcs ++ [tc]) -> (Z.of_nat (length (tcs ++ [tc])) < 2 ^ 31)%Z ->
  exists bs es, mock_calls api stale_id (tcs ++ [tc]) = Ret bs /\
    client_reads api drawn bs
      (match api with API_OPENAI_CHAT => es | _ => mk_stream_event 0 (IK_STREAM_START (Some (lit "mock"))) :: es end)
      (mk_response (surviving_block <$> option_list (surviving_call api drawn tcs tc)) IK_FINISH_TOOL_USE no_usage
         (Some (lit "mock"))) /\
    Forall (fun e => is_start e = false) es /\ reply_text es = [].
Proof.
  intros Hok Hl. destruct api; cbn [mock_calls calls_ok surviving_call option_list] in *.
  - destruct (mock_calls_last_one_stays tcs tc Hok Hl) as (bs & E & Hr). exists bs.
    exists (call_events tool_id 0 (tcs ++ [tc]) ++ [mk_stream_event 0 (IK_STREAM_DONE IK_FINISH_TOOL_USE no_usage)]).
    split; [exact E|]. split; [|split].
    + intros chunks Hc Hlb. destruct (Hr chunks Hc Hlb) as (p & s & Hw & Hb). eexists. cbn [client]. rewrite Hw.
      split; [reflexivity|]. split; [done|]. cbn. by rewrite Hb.
    + apply Forall_app_2; [apply call_events_no_start|by repeat constructor].
    + pose proof (call_events_silent tool_id 0 (tcs ++ [tc])) as Es. unfold reply_text in *.
      by rewrite fmap_app, concat_app, Es.
  - destruct Hok as [Hok Hid]. assert (tcs ++ [tc] <> []) as Hne by (destruct tcs; done).
    destruct (chat_calls_lost stale_id _ Hne Hl Hid Hok) as (bs & E & Hr).
    exists bs, [mk_stream_event 0 (IK_STREAM_DONE IK_FINISH_TOOL_USE no_usage)]. split; [exact E|].
    split; [|split; [by repeat constructor|done]].
    intros chunks Hc Hlb. destruct (Hr chunks Hc ltac:(lia)) as (st & Hw & Hb). eexists. cbn [client]. rewrite Hw.
    split; [reflexivity|]. split; [done|]. cbn. by rewrite Hb.
  - destruct (responses_last_call_stays tcs tc Hok Hl) as (bs & E & Hr).
    exists bs, (call_events call_id 0 (tcs ++ [tc])). split; [exact E|].
    split; [|split; [apply call_events_no_start|apply call_events_silent]].
    intros chunks Hc Hlb. destruct (Hr chunks Hc Hlb) as (p & s & Hw & Hb). eexists. cbn [client]. rewrite Hw.
    split; [reflexivity|]. split; [done|]. cbn. by rewrite Hb.
  - assert (exists c l, tcs ++ [tc] = c :: l /\ name c = name (List.hd tc tcs)) as (c & l & Ecl & En)
      by (destruct tcs; cbn [app]; eauto).
    rewrite Ecl in *. destruct (google_calls_merge rand c l drawn Hok) as (bs & E & Hr). exists bs.
    exists ([mk_stream_event 0 (IK_STREAM_TOOL_CALL_START (Some (ik_google_generate_tool_id rand drawn)) (Some (name c)))]
      ++ delta_events 0 (c :: l) ++ [mk_stream_event 0 IK_STREAM_TOOL_CALL_DONE; mk_stream_event 0 (IK_STREAM_DONE IK_FINISH_STOP no_usage)]).
    split; [exact E|]. split; [|split].
    + intros chunks Hc Hlb. destruct (Hr chunks Hc Hlb) as (p & s & Hw & Hb). eexists. cbn [client]. rewrite Hw.
      split; [reflexivity|]. split; [done|]. cbn [google_info_read Z.leb Z.ltb Z.compare Pos.compare Pos.compare_cont andb response fmap option_fmap option_map snd].
      rewrite Hb, <- En. reflexivity.
    + apply Forall_app_2; [by repeat constructor|]. apply Forall_app_2; [|by repeat constructor].
      unfold delta_events. by apply Forall_fmap, Forall_true.
    + unfold reply_text. rewrite !fmap_app, !concat_app.
      enough (concat (delta_text <$> delta_events 0 (c :: l)) = []) as -> by done.
      generalize (c :: l). intros l'. induction l' as [|x l' IH]; [done|]. exact IH.
Qed.

End session.

Module SessionProps.

Section props.
Context `{!Yyjson} `{!YyjsonSpec} `{!Allocator} `{!AllocatorSpec} `{!Display} `{!DisplaySpec}.
Context (rand : nat -> nat).

(** C6: A text answer of the mock provider, in any of its four formats and in
    whatever pieces its bytes arrive, is shown by its lines and two blank lines
    (one after the text, one for the missing usage), kept as the agent's reply,
    and leaves no tool call and no error.  The finish reason is "stop", except
    for the Responses format, whose client ignores the final event. *)
Theorem mock_text_displayed (api : mock_api) (drawn : nat) (a : agent_stream) (content : cstr) :
  is_utf8 content -> (0%Z ∉ content) -> streaming_line_buffer a = None ->
  exists bs, mock_text api content = Ret bs /\ forall chunks, concat chunks = bs ->
    (Z.of_nat (length bs) < 2 ^ 31 - 1)%Z ->
    exists a', receive_reply rand api drawn a chunks 200 = Ret a' /\
      append_lines (scrollback a) (reply_lines content ++ [[]]) = Ret (scrollback a') /\
      assistant_response a' = non_empty content /\ streaming_line_buffer a' = None /\
      pending_tool_call a' = None /\ http_error_message a' = None /\
      response_finish_reason a' = Some (finish_reason_str (text_finish api)) /\
      response_model a' = Some (lit "mock").
Proof.
  intros Hu Hz Hb. destruct (text_read rand api drawn content Hu Hz) as (bs & es & E & Hr & Hes & <-).
  exists bs. split; [exact E|]. intros chunks Hc Hl.
  destruct (started_reply_received rand api drawn bs 0 _ es _ a Hr Hb Hes eq_refl chunks Hc Hl)
    as (a2 & E2 & Hd & Ht & Hbuf & He & Hf & Hm).
  rewrite E2. eexists. split; [reflexivity|]. done.
Qed.

(** However many tool calls an answer of the mock provider has, the agent is
    left with at most one, and nothing is shown but a blank line: the last one for
    Anthropic and OpenAI Responses, none for OpenAI Chat Completions, whose
    client does not read calls although the answer ends with "tool_use", and for
    Google the first one's name with the arguments of all put together. *)
Theorem one_call_survives (api : mock_api) (drawn : nat) (stale_id : Z -> cstr) (a : agent_stream)
    (tcs : list mock_tool_call) (tc : mock_tool_call) :
  calls_ok api stale_id (tcs ++ [tc]) -> (Z.of_nat (length (tcs ++ [tc])) < 2 ^ 31)%Z ->
  streams (scrollback a) [] a ->
  exists bs, mock_calls api stale_id (tcs ++ [tc]) = Ret bs /\ forall chunks, concat chunks = bs ->
    (Z.of_nat (length bs) < 2 ^ 31 - 1)%Z ->
    exists a', receive_reply rand api drawn a chunks 200 = Ret a' /\
      append_lines (scrollback a) [[]] = Ret (scrollback a') /\
      assistant_response a' = None /\ http_error_message a' = None /\
      pending_tool_call a' = (fun c => mk_tool_call c.1.1 c.1.2 (Some c.2)) <$> surviving_call rand api drawn tcs tc /\
      response_finish_reason a' = Some (lit "tool_use").
Proof.
  intros Hok Hn Hs. destruct (calls_read rand api drawn stale_id tcs tc Hok Hn) as (bs & es & E & Hr & Hes & Ht).
  exists bs. split; [exact E|]. intros chunks Hc Hl.
  assert (exists a2, receive_reply rand api drawn a chunks 200 = ik_repl_extract_tool_calls a2
        (mk_response (surviving_block <$> option_list (surviving_call rand api drawn tcs tc)) IK_FINISH_TOOL_USE no_usage
         (Some (lit "mock"))) /\ append_lines (scrollback a) [[]] = Ret (scrollback a2) /\
      assistant_response a2 = None /\ http_error_message a2 = None /\
      response_finish_reason a2 = Some (lit "tool_use")) as (a2 & -> & R).
  { pose proof (st_buffer _ _ _ Hs) as Hb. cbn in Hb.
    destruct api;
      [destruct (started_reply_received rand _ drawn bs 0 _ es _ a Hr Hb Hes eq_refl chunks Hc Hl)
         as (a2 & E2 & Hd & Hrt & _ & He & Hf & _)
      |destruct (reply_received rand _ drawn bs es _ a Hr Hs Hes eq_refl chunks Hc Hl)
         as (a2 & E2 & Hd & Hrt & _ & He & Hf & _)
      |destruct (started_reply_received rand _ drawn bs 0 _ es _ a Hr Hb Hes eq_refl chunks Hc Hl)
         as (a2 & E2 & Hd & Hrt & _ & He & Hf & _)
      |destruct (started_reply_received rand _ drawn bs 0 _ es _ a Hr Hb Hes eq_refl chunks Hc Hl)
         as (a2 & E2 & Hd & Hrt & _ & He & Hf & _)];
      rewrite Ht in Hd, Hrt; exists a2; done. }
  destruct R as (R1 & R2 & R3 & R4).
  destruct (surviving_call rand api drawn tcs tc) as [[[? ?] ?]|]; eexists; (split; [reflexivity|]); done.
Qed.

End props.
End SessionProps.

Module SessionExamples.
Import CodedJson ZeroAlloc ListDisplay MockExamples StreamExamples SessionProps.

(** An answer in two pieces and its size. *)
Lemma mock_text_displayed_witness :
  exists bs a', mock_text API_GOOGLE (lit "hi") = Ret bs /\
    receive_reply id API_GOOGLE 0 idle_agent [take 100 bs; drop 100 bs] 200 = Ret a' /\
    scrollback a' = [[0xE2; 0x97; 0x8F; 32; 104; 105]%Z; []; []] /\
    assistant_response a' = Some (lit "hi").
Proof.
  destruct (mock_text_displayed id API_GOOGLE 0 idle_agent (lit "hi")) as (bs & E & Hr);
    [by apply lit_utf8|apply (bool_decide_unpack _); vm_compute; exact I|done|].
  destruct (Hr [take 100 bs; drop 100 bs]) as (a' & Ea & Hl & Ht & _).
  - cbn [concat]. rewrite app_nil_r. apply take_drop.
  - apply (fits_size _ _ E). by vm_compute.
  - exists bs, a'. split; [exact E|]. split; [exact Ea|]. split; [|exact Ht].
    assert (append_lines (scrollback idle_agent) (reply_lines (lit "hi") ++ [[]])
            = Ret [[0xE2; 0x97; 0x8F; 32; 104; 105]%Z; []; []]) as El by (vm_compute; reflexivity).
    rewrite El in Hl. by injection Hl.
Defined.

(** An agent at the start of a reply. *)
Definition ready_agent : agent_stream := set_text None None true [] idle_agent.

Lemma one_call_survives_witness :
  exists bs a', mock_calls API_OPENAI_RESPONSES (fun _ => []) two_calls = Ret bs /\
    receive_reply id API_OPENAI_RESPONSES 0 ready_agent [bs] 200 = Ret a' /\
    pending_tool_call a' = Some (mk_tool_call (lit "call_mock_1") (lit "cat") (Some (lit "{a}"))).
Proof.
  destruct (one_call_survives id API_OPENAI_RESPONSES 0 (fun _ => []) ready_agent [mk_call (lit "ls") (lit "{}")]
              (mk_call (lit "cat") (lit "{a}")) two_calls_ok) as (bs & E & Hr);
    [simpl; lia|by constructor|].
  destruct (Hr [bs]) as (a' & Ea & _ & _ & _ & Hp & _).
  - apply app_nil_r.
  - apply (fits_size _ _ E). by vm_compute.
  - exists bs, a'. split; [exact E|]. split; [exact Ea|]. rewrite Hp. by vm_compute.
Defined.

End SessionExamples.
